(* ===== verification/_CoqProject ===== *)
-Q . S2P
Prelude.v
Respects.v
Bytes.v
Text.v
Disk.v
Abi.v
Cap.v
CapInv.v
CapProps.v
CapStatics.v
Damage.v
Apps.v
Permission.v
Input.v
Window.v
FramePool.v
Service.v
ServiceProps.v
Process.v
WaitQueue.v
Sched.v
SchedProps.v
IoPorts.v
Channel.v
Ipc.v
IpcProps.v
SyscallCap.v
AddrSpace.v
DmaRegion.v
Surface.v
MemObject.v
MemProps.v
SurfaceProps.v
ProcFs.v
Vfs.v
FsService.v
FdTable.v
VfsTree.v
VfsImage.v
VfsProps.v
FdProps.v
SecMem.v
Elf.v
ElfProps.v
Spfs.v
Journal.v
SpfsProps.v
JournalProps.v
Syscall.v
SyscallProps.v
SyscallAuth.v
SyscallDev.v
Exit.v
ExitProps.v
Wm.v
WmProps.v
DesktopProps.v
NetPacket.v
PacketProps.v
NetStack.v
NetApi.v
NetProps.v
NetTheorems.v
NetService.v
NetServiceProps.v
Keyboard.v
StrOps.v
Editor.v
EditorProps.v
EditorText.v
EditorClip.v
Auth.v
Package.v
Store.v
Iommu.v
IommuProps.v
Smp.v
SmpProps.v
Acpi.v
