(* ===== verification/Prelude.v ===== *)
(** * SparkOS: a verification of the kernel

    SparkOS is an x86_64 kernel in Rust (kernel/src) with an ABI crate for its
    clients (spark-abi/src).  User processes hold _capabilities_: numbers in a
    per-process table that stand for handles on kernel objects.  Through the
    system calls they read and write files, exchange messages over endpoints,
    map device memory, and draw on surfaces that windows show.  This library
    translates the kernel's own logic into executable definitions, and proves
    what makes it correct and where it is not.

    ** The parts and how they interact

    - The capability core ([Cap]: kernel/src/cap.rs) keeps slots, lineage nodes
      and objects.  Everything that is checked is checked against it.
    - Memory: the frame pool ([FramePool]: frame_pool.rs, memory.rs), address
      spaces ([AddrSpace]: memory.rs), shared memory objects ([MemObject]:
      mem_object.rs), DMA regions ([DmaRegion]: dma_region.rs), the validation of
      user pointers ([SecMem]: sec_mem.rs) and the ELF loader ([Elf]: elf.rs).
    - Processes (task/process.rs): the control block with its quotas
      ([Process]), the intrusive wait queues ([WaitQueue]), the scheduler
      ([Sched]), the port bitmaps ([IoPorts]: gdt.rs) and the end of a process
      ([Exit]).
    - Communication: channels and semaphores ([Channel]: sync.rs), endpoints and
      interrupts ([Ipc]: ipc.rs), the supervisor of services ([Service]:
      service.rs, spark-abi/src/service.rs).
    - Storage (fs.rs): the tree of files and its image on the drive ([Vfs]), the
      generated files ([ProcFs]), the requests of the file-system service
      ([FsService]), open files ([FdTable]: fd.rs), the block engine ([Spfs]) and
      its journal and cache ([Journal]).
    - Graphics: damaged regions ([Damage]: damage.rs), surfaces ([Surface]:
      surface.rs), the registered applications ([Apps]: app_registry.rs,
      launcher.rs),
      windows and the window manager with the mouse, the keyboard and the requests
      of clients ([Window], [Wm]: wm.rs, and the parts of input.rs and surface.rs
      that use it), the event queues ([Input]: input.rs) and the permissions of
      applications ([Permission]: permission.rs).
    - Network: packets ([NetPacket]: net.rs), the stack with its table of sockets
      and the system calls and requests on them ([NetStack], [NetApi]: net.rs,
      net_socket.rs, spark-abi/src/net.rs), and the sockets of applications
      ([NetService]: network_service.rs, network_manager.rs).
    - Applications: the keys of the keyboard ([Keyboard]: keyboard.rs), and the
      text editor ([StrOps], [Editor]: editor_app.rs, clipboard.rs), whose
      specification is [EditorText].
    - Users and packages: accounts, sessions and the security policy ([Auth]:
      auth.rs, security.rs), the package format ([Package]: pkg.rs) and the
      registries of packages and applications ([Store]: pkg_service.rs,
      store_service.rs).
    - Several CPUs: the locks that turn interrupts off, the queues from which idle
      CPUs steal, and the shootdown of translations ([Smp]: irq_mutex.rs, smp.rs),
      one step per lock operation or access to shared memory, in any order.
    - Devices: the firmware's tables, and what the kernel makes of the CPUs and
      remapping units in them ([Acpi]: acpi.rs, the discovery of smp.rs); the tables
      that confine the card's DMA ([Iommu]: iommu.rs), with the walk of the hardware
      as their specification.
    - System calls: the tables of capabilities ([SyscallCap]: syscall_cap.rs) and
      the dispatcher with its handlers ([Syscall]: syscall.rs,
      syscall_storage.rs), on one state, [Kernel], that is made of all of these.

    ** How the code is rendered

    Definitions carry the names of the source and, above them, the lines they
    translate.  A function that may fail or panic is a computation [comp S E A]:
    a function from the state to an [outcome] ([Ok], [Err] or [Panic]) and a
    state; an error leaves the state as the code left it.  [zoom] runs the
    operation of one component on its part of a larger state, as the code does
    when it takes that component's lock.  Machine integers are integers with
    their width made explicit: [wrap] and [to_signed] are casts, [fits] is checked
    arithmetic, whose [None] is a panic under overflow checks, the profile the
    repository builds with.  Vectors are lists, ordered maps are [gmap]s whose
    iteration order, where it matters, is [btree_iter].  The locks are mutual
    exclusion: each critical section is one computation, a blocking operation is
    a sequence of rounds with a switch between them.

    Proofs about computations use weakest preconditions ([wp] and its rules, with
    the tactic [wp_step]), or a relation that a computation respects from any
    state ([Respects]).  The files that end in Props, and [CapInv], [CapStatics],
    [VfsTree], [VfsImage], [SyscallAuth] and [SyscallDev], hold the theorems of
    the component they are named after.

    ** What the theorems show

    - Capabilities: the invariant of every reachable state; revocation cascades
      over the lineage and is permanent, and reaches no sibling; a closed handle
      is dead although its slot is reused; a lent one is never passed on.
    - Memory: no two users of the pool share a frame, a request is refused only
      when no run is free, no byte is lost; the frames of a memory object are
      its own until its last mapping is gone; surfaces are backed by their own
      frames at their place in their owner's address space; a validated pointer
      is one the MMU lets the process use; an accepted executable stays in the
      user region.
    - Processes: a process runs on one CPU at a time, a wake-up before the switch
      is not lost, quotas hold; an exited process has no usable handle left.
    - Communication: an endpoint is a bounded queue of messages and every use is
      authorised by a handle on it; closing wakes every waiter; the boot order of
      services is topological and restarts are bounded.
    - Storage: the operations by path act on the namespace as a map from paths to
      files and directories and keep the tree well-formed; what is saved is
      loaded; what is written through a descriptor, to the block engine or to
      the journal is read back.
    - Graphics: no damage is lost and none is drawn off the screen.
      Windows: whatever processes and the user do, windows stay consistent and a
      process changes none but its own ([WmProps], [DesktopProps]); a click goes
      to the topmost window at the point and a key to the one with the focus;
      a minimized window comes back as it was; a queue of events loses no key.
    - Network: a segment that is built is read back with valid checksums, and a
      datagram reaches the socket on its port ([PacketProps], [NetTheorems]);
      sending ends; of all the frames that can arrive only a datagram with an
      impossible length stops the kernel; no socket is ever connected, as the
      calls that would do it lock a lock they hold; applications reach their own
      sockets only ([NetServiceProps]).
    - Applications: the editor refines a text with a cursor and a bounded history
      ([EditorProps], [EditorText]); an edit is undone and redone, what is cut is
      pasted back ([EditorClip]); no key or click stops it on plain text.
    - Users and packages: three wrong guesses lock an account however the requests
      are interleaved ([Auth]); a package that is built is read back and
      nothing else is accepted ([Package]); commands and the store keep their
      registries in step with the catalog ([Store]).
    - Several CPUs: stealing loses and duplicates no process, but two thieves can
      wait for each other forever, and nobody else can; a shootdown that was not
      given up has reached every CPU, and two at the same time make one give up;
      guards restore the interrupt flag ([SmpProps]).
    - Devices: the card reaches exactly the registered DMA regions, and no other
      device reaches anything ([IommuProps]); the parser of remapping units looks at
      nothing but its table and reads back what is in it, and the CPUs of the
      firmware are started ([Acpi]).
    - System calls: a call writes no memory but the buffers it validated, does
      nothing without a handle that is good for it, and the ports and the DMA
      memory it gives are those of the handle.
    - Where the code does something else than it means to, a theorem shows that:
      see the findings of the manifest (stranded waiters, abandoned exits, leaking
      port permissions, lost file tails, panics a user can cause).

    ** Fuel

    Recursion that is not structural runs on fuel, whose end is a [Panic] or
    [None] like any other, so that a theorem that a function returns also shows
    that its fuel is enough.  The walk up the lineage takes one step per node
    ([is_revoked_decides_lineage]); the two searches of the supervisor take the
    number of services plus one; the merging of damage at most the square of the
    number of rectangles plus one; the parser of the tree's image the length of
    the image; waking, polling and cleaning up the number of elements in the
    queue or registry.  Names in DNS messages get the length of the packet plus
    one.  Sending a packet takes one level more than frames wait at the card
    ([sending_ends]); carries of a checksum are folded three times.
    Replacing in a line takes the length of the line, cutting a text into pieces
    its length.

    ** Parameters

    What is not the kernel's own code is a parameter, with its documented
    behaviour as the laws of a class: the page tables of the crate x86_64
    ([Mapper], [MapperLaws]), physical memory as seen through the kernel's window
    ([UserSpace]), the ATA drive ([Drive]), the network card ([Nic]), the heap of
    the ELF loader, the memory in which the firmware leaves its tables, and the
    folding of letters to lower case in searches ([to_lowercase]).  Each class has an
    instance in the witnesses.

    ** Not modelled

    Registers, stacks, page-table roots, interrupt entry and the switch itself
    (assembly and machine state); device drivers (ata.rs, rtl8139.rs, usb.rs,
    pci.rs, serial.rs, vga_buffer.rs, gpu.rs, gpu_virtio.rs, the mouse, the
    registers of the remapping unit, interrupts.rs), which are port and memory-mapped
    input and output; the code that new CPUs run (in smp.rs) and the start-up of the
    kernel (main.rs);
    drawing (gui.rs, font.rs, icons.rs, theme.rs, ui/) and the built-in
    applications other than the editor (terminal, files, browser, settings, tasks), which
    compute pixels;
    logging and measurement (klog.rs, ktrace.rs, perf.rs); the self tests
    (regression.rs, scratch/), the client libraries and examples (libspark/, sdk/)
    and the host tools (tools/). *)

(** ** Shared vocabulary *)
From stdpp Require Export base tactics option list numbers gmap strings sorting.
From Stdlib Require Export ZArith Lia.

(** ** Outcomes and state-passing computations *)

(** A call of a Rust function returns a value, returns an error, or panics. *)
Inductive outcome (E A : Type) : Type :=
| Ok (a : A)
| Err (e : E)
| Panic.
Arguments Ok {E A} a.
Arguments Err {E A} e.
Arguments Panic {E A}.

(** The state survives an error return (Rust's [?] does not undo anything). *)
Definition comp (S E A : Type) : Type := S → outcome E A * S.

#[export] Instance comp_ret {S E} : MRet (comp S E) := λ A a s, (Ok a, s).
#[export] Instance comp_bind {S E} : MBind (comp S E) := λ A B k m s,
  match m s with
  | (Ok a, s') => k a s'
  | (Err e, s') => (Err e, s')
  | (Panic, s') => (Panic, s')
  end.

Section primitives.
Context {S E : Type}.

Definition throw {A} (e : E) : comp S E A := λ s, (Err e, s).
Definition panic {A} : comp S E A := λ s, (Panic, s).
Definition get : comp S E S := λ s, (Ok s, s).
Definition gets {A} (f : S → A) : comp S E A := λ s, (Ok (f s), s).
Definition put (s' : S) : comp S E unit := λ _, (Ok tt, s').
Definition modify (f : S → S) : comp S E unit := λ s, (Ok tt, f s).
(** [if b { return Err(e) }] *)
Definition reject_if (b : bool) (e : E) : comp S E unit :=
  if b then throw e else mret tt.
(** [o.ok_or(e)?] *)
Definition ok_or {A} (o : option A) (e : E) : comp S E A :=
  match o with Some a => mret a | None => throw e end.
(** [o.unwrap()], vector indexing and checked arithmetic: panic on [None]. *)
Definition unwrap {A} (o : option A) : comp S E A :=
  match o with Some a => mret a | None => panic end.
(** [match m { Ok(a) => .., Err(e) => .. }]: the error becomes a value. *)
Definition attempt {A E'} (m : comp S E' A) : comp S E (E' + A) := λ s,
  match m s with
  | (Ok a, s') => (Ok (inr a), s')
  | (Err e, s') => (Ok (inl e), s')
  | (Panic, s') => (Panic, s')
  end.
(** [let _ = m;]: errors are dropped, panics are not. *)
Definition ignore {A E'} (m : comp S E' A) : comp S E unit :=
  attempt m ≫= λ _, mret tt.
(** [m.map_err(f)] *)
Definition map_err {A E'} (f : E' → E) (m : comp S E' A) : comp S E A :=
  attempt m ≫= λ r, match r with inl e => throw (f e) | inr a => mret a end.
(** [for x in xs { body }] *)
Fixpoint for_each {X} (xs : list X) (body : X → comp S E unit) : comp S E unit :=
  match xs with
  | [] => mret tt
  | x :: xs => body x ≫= λ _, for_each xs body
  end.
End primitives.

(** Running a component's operation on the part of a larger state it owns. *)
Definition zoom {S T E A} (proj : S → T) (inj : T → S → S) (m : comp T E A)
  : comp S E A := λ s, match m (proj s) with (r, t) => (r, inj t s) end.

(** ** Weakest preconditions *)

Definition wp {S E A} (m : comp S E A) (Q : outcome E A → S → Prop) (s : S) : Prop :=
  Q (m s).1 (m s).2.

(** ** Machine integers *)

Definition u8_max : Z := 2 ^ 8 - 1.
Definition u16_max : Z := 2 ^ 16 - 1.
Definition u32_max : Z := 2 ^ 32 - 1.
Definition u64_max : Z := 2 ^ 64 - 1.

(** [Some z] when [z] fits in [w] unsigned bits: [checked_*] operations, and
    plain arithmetic under [overflow-checks], whose [None] is a panic. *)
Definition fits (w : Z) (z : Z) : option Z :=
  if decide (0 ≤ z < 2 ^ w)%Z then Some z else None.
Definition wrap (w : Z) (z : Z) : Z := (z mod 2 ^ w)%Z.
(** The value of a [u64] read as an [i64] (of an unsigned [w]-bit integer as a signed one). *)
Definition to_signed (w z : Z) : Z := if (z <? 2 ^ (w - 1))%Z then z else (z - 2 ^ w)%Z.
(** [Some z] when [z] fits in [w] signed bits. *)
Definition fits_signed (w z : Z) : option Z :=
  if decide (- 2 ^ (w - 1) ≤ z < 2 ^ (w - 1))%Z then Some z else None.
Definition saturating_add (w a b : Z) : Z := (a + b) `min` (2 ^ w - 1).
Definition saturating_sub (a b : Z) : Z := 0 `max` (a - b).
Definition saturating_mul (w a b : Z) : Z := (a * b) `min` (2 ^ w - 1).

(** ** Byte strings *)

(** A slice of bytes; a [str] is one that is valid UTF-8. *)
Abbreviation bytes := (list Z).

Definition utf8_cont (b : Z) : bool := (128 <=? b)%Z && (b <=? 191)%Z.

(** [core::str::from_utf8(l).is_ok()]: no overlong form, no surrogate, nothing
    above U+10FFFF. *)
Fixpoint utf8_valid (l : bytes) : bool :=
  match l with
  | [] => true
  | b0 :: l1 =>
      if (b0 <? 128)%Z then utf8_valid l1 else
      match l1 with
      | [] => false
      | b1 :: l2 =>
          if (194 <=? b0)%Z && (b0 <=? 223)%Z then utf8_cont b1 && utf8_valid l2 else
          match l2 with
          | [] => false
          | b2 :: l3 =>
              if (224 <=? b0)%Z && (b0 <=? 239)%Z then
                utf8_cont b1 && (if (b0 =? 224)%Z then 160 <=? b1 else true)%Z
                && (if (b0 =? 237)%Z then b1 <=? 159 else true)%Z
                && utf8_cont b2 && utf8_valid l3
              else
              match l3 with
              | [] => false
              | b3 :: l4 =>
                  (240 <=? b0)%Z && (b0 <=? 244)%Z && utf8_cont b1
                  && (if (b0 =? 240)%Z then 144 <=? b1 else true)%Z
                  && (if (b0 =? 244)%Z then b1 <=? 143 else true)%Z
                  && utf8_cont b2 && utf8_cont b3 && utf8_valid l4
              end
          end
      end
  end.

(** [core::str::from_utf8(l).ok()] *)
Definition from_utf8 (l : bytes) : option bytes := if utf8_valid l then Some l else None.

(** ** Ordered maps *)

(** The iteration order of a [BTreeMap] is the order of its keys. *)
Definition btree_iter {K A} `{Countable K} (R : relation K) `{!RelDecision R}
  (m : gmap K A) : list (K * A) :=
  @merge_sort _ (λ p q, R p.1 q.1) (λ p q, decide_rel R p.1 q.1) (map_to_list m).

Section wp_rules.
Context {S E : Type}.
Implicit Types s : S.

Lemma wp_intro {A} (m : comp S E A) Q s : Q (m s).1 (m s).2 → wp m Q s.
Proof. done. Qed.

Lemma wp_run {A} (m : comp S E A) (Q : outcome E A → S → Prop) s r s' :
  wp m Q s → m s = (r, s') → Q r s'.
Proof. unfold wp. intros HQ Hm. by rewrite Hm in HQ. Qed.

Lemma wp_result {A} (m : comp S E A) (Q : outcome E A → S → Prop) s r s' :
  m s = (r, s') → wp m Q s → Q r s'.
Proof. intros Hm HQ. by eapply wp_run. Qed.

Lemma wp_returns {A} (m : comp S E A) (Q : outcome E A → S → Prop) s r s' :
  m s = (r, s') → Q r s' → wp m Q s.
Proof. unfold wp. by intros ->. Qed.

Lemma wp_mono {A} (m : comp S E A) (P Q : outcome E A → S → Prop) s :
  wp m P s → (∀ r s', P r s' → Q r s') → wp m Q s.
Proof. unfold wp. auto. Qed.

Lemma wp_and {A} (m : comp S E A) (P Q : outcome E A → S → Prop) s :
  wp m P s → wp m Q s → wp m (λ r s', P r s' ∧ Q r s') s.
Proof. unfold wp. auto. Qed.

Lemma wp_ret {A} (a : A) (Q : outcome E A → S → Prop) s :
  Q (Ok a) s → wp (mret a) Q s.
Proof. done. Qed.

Lemma wp_bind {A B} (m : comp S E A) (k : A → comp S E B)
    (Q : outcome E B → S → Prop) s :
  wp m (λ r s', match r with
                | Ok a => wp (k a) Q s'
                | Err e => Q (Err e) s'
                | Panic => Q Panic s'
                end) s →
  wp (m ≫= k) Q s.
Proof.
  unfold wp, mbind, comp_bind. destruct (m s) as [[a|e|] s']; done.
Qed.

Lemma wp_throw {A} (e : E) (Q : outcome E A → S → Prop) s :
  Q (Err e) s → wp (throw e) Q s.
Proof. done. Qed.

Lemma wp_panic {A} (Q : outcome E A → S → Prop) s :
  Q Panic s → wp panic Q s.
Proof. done. Qed.

Lemma wp_get (Q : outcome E S → S → Prop) s : Q (Ok s) s → wp get Q s.
Proof. done. Qed.

Lemma wp_gets {A} (f : S → A) (Q : outcome E A → S → Prop) s :
  Q (Ok (f s)) s → wp (gets f) Q s.
Proof. done. Qed.

Lemma wp_put s' (Q : outcome E unit → S → Prop) s :
  Q (Ok tt) s' → wp (put s') Q s.
Proof. done. Qed.

Lemma wp_modify f (Q : outcome E unit → S → Prop) s :
  Q (Ok tt) (f s) → wp (modify f) Q s.
Proof. done. Qed.

Lemma wp_reject_if (b : bool) (e : E) (Q : outcome E unit → S → Prop) s :
  (b = true → Q (Err e) s) → (b = false → Q (Ok tt) s) →
  wp (reject_if b e) Q s.
Proof. unfold wp. destruct b; cbn; auto. Qed.

Lemma wp_ok_or {A} (o : option A) (e : E) (Q : outcome E A → S → Prop) s :
  (o = None → Q (Err e) s) → (∀ a, o = Some a → Q (Ok a) s) →
  wp (ok_or o e) Q s.
Proof. unfold wp. destruct o; cbn; auto. Qed.

Lemma wp_unwrap {A} (o : option A) (Q : outcome E A → S → Prop) s :
  (o = None → Q Panic s) → (∀ a, o = Some a → Q (Ok a) s) →
  wp (unwrap o) Q s.
Proof. unfold wp. destruct o; cbn; auto. Qed.

Lemma wp_attempt {A E'} (m : comp S E' A) (Q : outcome E (E' + A) → S → Prop) s :
  wp m (λ r s', match r with
                | Ok a => Q (Ok (inr a)) s'
                | Err e => Q (Ok (inl e)) s'
                | Panic => Q Panic s'
                end) s →
  wp (attempt m) Q s.
Proof. unfold wp, attempt. destruct (m s) as [[a|e|] s']; done. Qed.

Lemma wp_ignore {A E'} (m : comp S E' A) (Q : outcome E unit → S → Prop) s :
  wp m (λ r s', match r with
                | Panic => Q Panic s'
                | _ => Q (Ok tt) s'
                end) s →
  wp (ignore m) Q s.
Proof.
  unfold wp, ignore, mbind, comp_bind, attempt.
  by destruct (m s) as [[a|e|] s'].
Qed.

(** A loop keeps an invariant that each round of its body keeps; the error
    and panic exits are those of the bodies. *)
Lemma wp_for_each {X} (xs : list X) (body : X → comp S E unit)
    (I : S → Prop) (Q : outcome E unit → S → Prop) s :
  I s →
  (∀ x s, x ∈ xs → I s →
    wp (body x) (λ r s', match r with Ok _ => I s' | _ => Q r s' end) s) →
  (∀ s, I s → Q (Ok tt) s) →
  wp (for_each xs body) Q s.
Proof.
  intros HI Hbody Hdone. revert s HI Hbody.
  induction xs as [|x xs IH]; intros s HI Hbody; cbn.
  { by apply wp_ret, Hdone. }
  apply wp_bind. eapply wp_mono; [apply Hbody; [left|done]|].
  intros [[]|e|] s'; [|done..]. intros HI'. apply IH; [done|].
  intros y t Hy. apply Hbody. by right.
Qed.
End wp_rules.

Lemma wp_zoom {S T E A} (proj : S → T) (inj : T → S → S) (m : comp T E A)
    (Q : outcome E A → S → Prop) s :
  wp m (λ r t, Q r (inj t s)) (proj s) → wp (zoom proj inj m) Q s.
Proof. unfold wp, zoom. by destruct (m (proj s)). Qed.

(** Running the first of two computations. *)
Lemma bind_err {S E A B} (m : comp S E A) (k : A → comp S E B) s e s' :
  m s = (Err e, s') → (m ≫= k) s = (Err e, s').
Proof. unfold mbind, comp_bind. by intros ->. Qed.
Lemma bind_ok {S E A B} (m : comp S E A) (k : A → comp S E B) s a s' :
  m s = (Ok a, s') → (m ≫= k) s = k a s'.
Proof. unfold mbind, comp_bind. by intros ->. Qed.
Lemma bind_panic {S E A B} (m : comp S E A) (k : A → comp S E B) s s' :
  m s = (Panic, s') → (m ≫= k) s = (Panic, s').
Proof. unfold mbind, comp_bind. by intros ->. Qed.

Lemma bind_assoc {S E A B C} (m : comp S E A) (f : A → comp S E B) (g : B → comp S E C) s :
  ((m ≫= f) ≫= g) s = (m ≫= λ a, f a ≫= g) s.
Proof. unfold mbind, comp_bind. by destruct (m s) as [[?|?|] ?]. Qed.

(** [wp_step] applies the rule for the computation at the head of the goal;
    [wp_steps] runs a straight-line computation to its leaves. *)
Ltac wp_step :=
  lazymatch goal with
  | |- wp (mbind _ _) _ _ => apply wp_bind
  | |- wp (mret _) _ _ => apply wp_ret
  | |- wp (throw _) _ _ => apply wp_throw
  | |- wp panic _ _ => apply wp_panic
  | |- wp get _ _ => apply wp_get
  | |- wp (gets _) _ _ => apply wp_gets
  | |- wp (put _) _ _ => apply wp_put
  | |- wp (modify _) _ _ => apply wp_modify
  | |- wp (reject_if _ _) _ _ => apply wp_reject_if; intros ?
  | |- wp (ok_or _ _) _ _ => apply wp_ok_or; [intros ?|intros ? ?]
  | |- wp (unwrap _) _ _ => apply wp_unwrap; [intros ?|intros ? ?]
  | |- wp (attempt _) _ _ => apply wp_attempt
  | |- wp (ignore _) _ _ => apply wp_ignore
  | |- wp (zoom _ _ _) _ _ => apply wp_zoom
  end.
Ltac wp_steps := repeat (wp_step; cbv beta iota zeta).

(** Booleans produced by the conditions of the code. *)
Ltac reflect :=
  repeat match goal with
  | H : (_ && _) = true |- _ => apply andb_true_iff in H as [? ?]
  | H : (_ || _) = false |- _ => apply orb_false_iff in H as [? ?]
  | H : (_ || _) = true |- _ => apply orb_true_iff in H
  | H : (_ && _) = false |- _ => apply andb_false_iff in H
  | H : negb _ = true |- _ => apply negb_true_iff in H
  | H : negb _ = false |- _ => apply negb_false_iff in H
  | H : bool_decide _ = true |- _ => apply bool_decide_eq_true in H
  | H : bool_decide _ = false |- _ => apply bool_decide_eq_false in H
  | H : (_ <? _)%Z = true |- _ => apply Z.ltb_lt in H
  | H : (_ <? _)%Z = false |- _ => apply Z.ltb_ge in H
  | H : (_ <=? _)%Z = true |- _ => apply Z.leb_le in H
  | H : (_ <=? _)%Z = false |- _ => apply Z.leb_gt in H
  | H : (_ =? _)%Z = true |- _ => apply Z.eqb_eq in H
  | H : (_ =? _)%Z = false |- _ => apply Z.eqb_neq in H
  | H : (_ <? _)%nat = true |- _ => apply Nat.ltb_lt in H
  | H : (_ <? _)%nat = false |- _ => apply Nat.ltb_ge in H
  | H : (_ <=? _)%nat = true |- _ => apply Nat.leb_le in H
  | H : (_ <=? _)%nat = false |- _ => apply Nat.leb_gt in H
  | H : (_ =? _)%nat = true |- _ => apply Nat.eqb_eq in H
  | H : (_ =? _)%nat = false |- _ => apply Nat.eqb_neq in H
  end.

(** ** Facts shared by the components *)

Lemma fits_Some w z z' : fits w z = Some z' ↔ z' = z ∧ (0 ≤ z < 2 ^ w)%Z.
Proof. unfold fits. case_decide; split; [by intros [= <-]|by intros [-> _]|done|by intros [_ ?]]. Qed.

Lemma fits_None w z : fits w z = None ↔ ¬ (0 ≤ z < 2 ^ w)%Z.
Proof. unfold fits. case_decide; split; by intros. Qed.

Lemma fits_signed_Some w z z' : fits_signed w z = Some z' ↔ z' = z ∧ (- 2 ^ (w - 1) ≤ z < 2 ^ (w - 1))%Z.
Proof. unfold fits_signed. case_decide; split; [by intros [= <-]|by intros [-> _]|done|by intros [_ ?]]. Qed.

Section btree.
Context {K A : Type} `{Countable K} (R : relation K) `{!RelDecision R}.

Lemma btree_iter_permutation (m : gmap K A) :
  btree_iter R m ≡ₚ map_to_list m.
Proof. apply merge_sort_Permutation. Qed.

Lemma elem_of_btree_iter (m : gmap K A) k a :
  (k, a) ∈ btree_iter R m ↔ m !! k = Some a.
Proof.
  etrans; [|apply elem_of_map_to_list].
  apply elem_of_Permutation_proper, btree_iter_permutation.
Qed.

Lemma NoDup_btree_iter_fst (m : gmap K A) : NoDup (btree_iter R m).*1.
Proof.
  eapply NoDup_Permutation_proper; [|exact (NoDup_fst_map_to_list m)].
  apply fmap_Permutation, btree_iter_permutation.
Qed.
End btree.

Lemma list_find_none_forall {A} (P : A → Prop) `{∀ x, Decision (P x)} (l : list A) :
  list_find P l = None → ∀ i x, l !! i = Some x → ¬ P x.
Proof.
  intros Hf%list_find_None i x Hi. rewrite Forall_forall in Hf.
  apply Hf. by eapply list_elem_of_lookup_2.
Qed.

Lemma length_filter_insert {A} (P : A → Prop) `{∀ x, Decision (P x)} (l : list A) i x y :
  l !! i = Some x →
  length (filter P (<[i := y]> l)) + (if decide (P x) then 1 else 0) =
  length (filter P l) + (if decide (P y) then 1 else 0).
Proof.
  revert i. induction l as [|z l IH]; intros [|i] Hi; [done..| |]; simplify_eq/=.
  - rewrite !filter_cons. repeat case_decide; cbn; lia.
  - specialize (IH i Hi). rewrite !filter_cons. destruct (decide (P z)); cbn; lia.
Qed.

Lemma list_lookup_insert_cases {A} (l : list A) i j x y :
  <[i := x]> l !! j = Some y → (j = i ∧ y = x) ∨ (j ≠ i ∧ l !! j = Some y).
Proof. intros [(-> & -> & _)|[? ?]]%list_lookup_insert_Some; [by left|by right]. Qed.

Lemma elem_of_taken {A} (l : list A) i x : x ∈ take i l → x ∈ l.
Proof. intros Hx. rewrite <-(take_drop i l). apply elem_of_app. by left. Qed.

Lemma elem_of_dropped {A} (l : list A) i x : x ∈ drop i l → x ∈ l.
Proof. intros Hx. rewrite <-(take_drop i l). apply elem_of_app. by right. Qed.

Lemma filter_none {A} (P : A → Prop) `{∀ x, Decision (P x)} (l : list A) :
  (∀ x, x ∈ l → ¬ P x) → filter P l = [].
Proof.
  induction l as [|x l IH]; intros Hl; [done|]. rewrite filter_cons_False by (apply Hl; left).
  apply IH. intros y Hy. apply Hl. by right.
Qed.

Lemma filter_all {A} (P : A → Prop) `{∀ x, Decision (P x)} (l : list A) :
  (∀ x, x ∈ l → P x) → filter P l = l.
Proof.
  induction l as [|x l IH]; intros Hl; [done|]. rewrite filter_cons_True by (apply Hl; left).
  f_equal. apply IH. intros y Hy. apply Hl. by right.
Qed.
