(* ===== verification/Respects.v ===== *)
(** * What a computation does to the state, whatever it answers

    [returns P m]: a result of [m] satisfies [P].  [respects R s m]: from [s],
    [m] ends in a state related to [s], with a result, an error or a panic. *)
From S2P Require Import Prelude.

(** ** What a computation returns *)

Definition returns {S E A} (P : A → Prop) (m : comp S E A) : Prop := ∀ s a s', m s = (Ok a, s') → P a.

Lemma returns_bind {S E A B} (P : A → Prop) (Q : B → Prop) (m : comp S E A) (f : A → comp S E B) :
  returns P m → (∀ a, P a → returns Q (f a)) → returns Q (m ≫= f).
Proof.
  intros Hm Hf s b s'. unfold mbind, comp_bind. destruct (m s) as [[a|e|] s1] eqn:E'; [|done..].
  by apply Hf, (Hm s a s1).
Qed.
Lemma returns_any {S E A} (m : comp S E A) : returns (λ _, True) m.
Proof. done. Qed.
Lemma returns_ret {S E A} (P : A → Prop) (a : A) : P a → returns P (mret a : comp S E A).
Proof. by intros HP s b s' [= <- <-]. Qed.
Lemma returns_zoom {S T E A} (P : A → Prop) (proj : S → T) inj (m : comp T E A) :
  returns P m → returns P (zoom proj inj m).
Proof. intros Hm s a s'. unfold zoom. destruct (m (proj s)) as [r t] eqn:E'. intros [= -> _]. by eapply Hm. Qed.
Lemma returns_map_err {S E E' A} (P : A → Prop) (f : E' → E) (m : comp S E' A) : returns P m → returns P (map_err f m).
Proof.
  intros Hm s a s'. unfold map_err, attempt, mbind, comp_bind. destruct (m s) as [[b|e|] s1] eqn:Em; [|done..].
  intros [= <- <-]. by eapply Hm.
Qed.

(** ** Computations that respect a relation on states *)

Section respects.
Context {S E : Type} (R : relation S) `{!PreOrder R}.
Implicit Types s : S.

(** However it ends, [m] goes from [s] to a related state. *)
Definition respects {A} s (m : comp S E A) : Prop := R s (m s).2.

Lemma respects_bind {A B} s (m : comp S E A) (f : A → comp S E B) :
  respects s m → (∀ a, respects (m s).2 (f a)) → respects s (m ≫= f).
Proof.
  unfold respects, mbind, comp_bind. intros Hm Hf.
  destruct (m s) as [[a|e|] s'] eqn:E'; cbn in *; [|done..]. by etrans.
Qed.
Lemma respects_bind_returns {A B} s (P : A → Prop) (m : comp S E A) (f : A → comp S E B) :
  returns P m → respects s m → (∀ a, P a → respects (m s).2 (f a)) → respects s (m ≫= f).
Proof.
  unfold respects, mbind, comp_bind. intros HP Hm Hf.
  destruct (m s) as [[a|e|] s'] eqn:E'; cbn in *; [|done..]. etrans; [done|]. by eapply Hf, HP.
Qed.
Lemma respects_get {B} s (f : S → comp S E B) : respects s (f s) → respects s (get ≫= f).
Proof. done. Qed.
Lemma respects_ok_or_bind {A B} s (o : option A) (e : E) (f : A → comp S E B) :
  (∀ a, respects s (f a)) → respects s (ok_or o e ≫= f).
Proof. destruct o; [intros H; apply H|intros _; unfold respects; done]. Qed.
Lemma respects_ret {A} s (a : A) : respects s (mret a).
Proof. unfold respects. done. Qed.
Lemma respects_throw {A} s (e : E) : respects s (throw e : comp S E A).
Proof. unfold respects. done. Qed.
Lemma respects_panic {A} s : respects s (panic : comp S E A).
Proof. unfold respects. done. Qed.
Lemma respects_reject_if s (b : bool) (e : E) : respects s (reject_if b e).
Proof. unfold respects. by destruct b. Qed.
Lemma respects_ok_or {A} s (o : option A) (e : E) : respects s (ok_or o e).
Proof. unfold respects. by destruct o. Qed.
Lemma respects_unwrap {A} s (o : option A) : respects s (unwrap o).
Proof. unfold respects. by destruct o. Qed.
Lemma respects_modify s f : R s (f s) → respects s (modify f).
Proof. done. Qed.
Lemma respects_put s s' : R s s' → respects s (put s').
Proof. done. Qed.
End respects.

Lemma respects_attempt {S E E'} (R : relation S) {A} (m : comp S E' A) s :
  respects R s m → respects R s (attempt m : comp S E (E' + A)).
Proof. unfold respects, attempt. destruct (m s) as [[a|e|] s']; exact id. Qed.
Lemma respects_ignore {S E E'} (R : relation S) {A} (m : comp S E' A) s :
  respects R s m → respects R s (ignore m : comp S E unit).
Proof. unfold respects, ignore, attempt, mbind, comp_bind. destruct (m s) as [[a|e|] s']; exact id. Qed.
Lemma respects_map_err {S E E'} (R : relation S) {A} (f : E' → E) (m : comp S E' A) s :
  respects R s m → respects R s (map_err f m).
Proof. unfold respects, map_err, attempt, mbind, comp_bind. destruct (m s) as [[a|e|] s']; exact id. Qed.
Lemma respects_zoom {S T E} (R : relation S) (proj : S → T) inj {A} (m : comp T E A) s :
  (∀ t, R s (inj t s)) → respects R s (zoom proj inj m).
Proof. unfold respects, zoom. intros H. destruct (m (proj s)) as [r t]. apply H. Qed.

(** [respects_step] applies the rule for the computation at the head. *)
Ltac respects_step :=
  lazymatch goal with
  | |- respects _ _ (get ≫= _) => apply respects_get
  | |- respects _ _ (ok_or _ _ ≫= _) => apply respects_ok_or_bind; [apply _|intros ?]
  | |- respects _ _ (_ ≫= _) => apply respects_bind; [apply _| |intros ?]
  | |- respects _ _ (mret _) => apply respects_ret; apply _
  | |- respects _ _ (throw _) => apply respects_throw; apply _
  | |- respects _ _ panic => apply respects_panic; apply _
  | |- respects _ _ (reject_if _ _) => apply respects_reject_if; apply _
  | |- respects _ _ (ok_or _ _) => apply respects_ok_or; apply _
  | |- respects _ _ (unwrap _) => apply respects_unwrap; apply _
  | |- respects _ _ (map_err _ _) => apply respects_map_err
  | |- respects _ _ (attempt _) => apply respects_attempt
  | |- respects _ _ (ignore _) => apply respects_ignore
  | |- respects _ _ (let _ := _ in _) => cbv zeta
  | |- respects _ _ (match ?x with _ => _ end) => destruct x
  end.
