(* ===== verification/Bytes.v ===== *)
(** * Bytes

    Little-endian integers and slices of byte arrays, as the on-disk and
    on-the-wire formats of the kernel use them. *)
From S2P Require Import Prelude.

Definition byte (b : Z) : Prop := (0 ≤ b < 256)%Z.

(** [z.to_le_bytes()] of an [n]-byte integer. *)
Fixpoint to_le (n : nat) (z : Z) : bytes :=
  match n with
  | O => []
  | S n => (z mod 256)%Z :: to_le n (z / 256)
  end.
(** [from_le_bytes(l)]. *)
Fixpoint from_le (l : bytes) : Z :=
  match l with
  | [] => 0
  | b :: l => b + 256 * from_le l
  end.

(** [l[a..b]]: [None] is the panic of a range that is not inside [l]. *)
Definition slice {A} (a b : nat) (l : list A) : option (list A) :=
  if decide (a ≤ b ≤ length l) then Some (take (b - a) (drop a l)) else None.
(** [l[off..off + v.len()].copy_from_slice(v)] inside [l]. *)
Definition splice {A} (off : nat) (v l : list A) : list A :=
  take off l ++ v ++ drop (off + length v) l.

Lemma length_to_le n z : length (to_le n z) = n.
Proof. revert z. induction n as [|n IH]; intros z; cbn; [done|by rewrite IH]. Qed.

Lemma to_le_bytes n z : Forall byte (to_le n z).
Proof.
  revert z. induction n as [|n IH]; intros z; cbn; constructor; [|done].
  unfold byte. pose proof (Z.mod_pos_bound z 256). lia.
Qed.

Lemma from_le_to_le n z : (0 ≤ z < 256 ^ Z.of_nat n)%Z → from_le (to_le n z) = z.
Proof.
  revert z. induction n as [|n IH]; intros z Hz; [cbn in *; lia|]. cbn [to_le from_le].
  rewrite IH; [pose proof (Z.div_mod z 256); lia|]. rewrite Nat2Z.inj_succ, Z.pow_succ_r in Hz by lia.
  split; [apply Z.div_pos; lia|]. apply Z.div_lt_upper_bound; lia.
Qed.

(** The bytes of [l] in the middle of a buffer. *)
Lemma from_le_bound l : Forall byte l → (0 ≤ from_le l < 256 ^ Z.of_nat (length l))%Z.
Proof.
  induction 1 as [|b l Hb Hl IH]; [done|]. cbn [from_le length]. unfold byte in Hb.
  rewrite Nat2Z.inj_succ, Z.pow_succ_r by lia. lia.
Qed.
Lemma to_le_from_le l : Forall byte l → to_le (length l) (from_le l) = l.
Proof.
  induction 1 as [|b l Hb Hl IH]; [done|]. cbn. unfold byte in Hb. f_equal.
  - rewrite Z.mul_comm, Z_mod_plus_full. by apply Z.mod_small.
  - rewrite (Z.mul_comm 256), Z.div_add, (Z.div_small b 256), Z.add_0_l by lia. exact IH.
Qed.

Lemma slice_middle {A} (l1 l2 l3 : list A) a b :
  a = length l1 → b = length l1 + length l2 → slice a b (l1 ++ l2 ++ l3) = Some l2.
Proof.
  intros -> ->. unfold slice. rewrite decide_True by (rewrite !length_app; lia).
  rewrite drop_app_length. replace (length l1 + length l2 - length l1) with (length l2) by lia.
  by rewrite take_app_length.
Qed.

Lemma length_splice {A} off (v l : list A) : off + length v ≤ length l → length (splice off v l) = length l.
Proof. intros H. unfold splice. rewrite !length_app, length_take, length_drop. lia. Qed.

Lemma lookup_splice {A} off (v l : list A) i : off + length v ≤ length l →
  splice off v l !! i = if decide (off ≤ i < off + length v) then v !! (i - off) else l !! i.
Proof.
  intros H. unfold splice. assert (length (take off l) = off) as Ht by (rewrite length_take; lia).
  destruct (decide (i < off)).
  - rewrite decide_False by lia. rewrite lookup_app_l by lia. by rewrite lookup_take_lt.
  - rewrite lookup_app_r, Ht by lia. destruct (decide (i < off + length v)).
    + rewrite decide_True by lia. by rewrite lookup_app_l by lia.
    + rewrite decide_False by lia. rewrite lookup_app_r, lookup_drop by lia. f_equal. lia.
Qed.

Lemma slice_ok {A} a b (l : list A) : a ≤ b ≤ length l → slice a b l = Some (take (b - a) (drop a l)).
Proof. intros H. unfold slice. by rewrite decide_True. Qed.

Lemma slice_lookup {A} a b (l : list A) v :
  slice a b l = Some v ↔ a ≤ b ≤ length l ∧ length v = b - a ∧ ∀ i, i < b - a → v !! i = l !! (a + i).
Proof.
  unfold slice. case_decide as Hab; [|by split; [done|intros [? _]]].
  assert (length (take (b - a) (drop a l)) = b - a) as Hl by (rewrite length_take, length_drop; lia).
  split.
  - intros [= <-]. split_and!; [lia..|done|]. intros i Hi. by rewrite lookup_take_lt, lookup_drop.
  - intros (_ & Hlv & Hv). f_equal. apply list_eq. intros i. destruct (decide (i < b - a)).
    + by rewrite Hv, lookup_take_lt, lookup_drop.
    + by rewrite !lookup_ge_None_2 by lia.
Qed.
