(* ===== verification/Text.v ===== *)
(** * Text

    What the code uses of Rust's strings: byte strings that are valid UTF-8,
    splitting and trimming, decimal formatting and parsing, and the lossy
    conversion of arbitrary bytes. *)
From S2P Require Import Prelude Bytes.
From Stdlib Require Import Ascii.

(** The bytes of a literal. *)
Fixpoint str (s : string) : bytes :=
  match s with
  | EmptyString => []
  | String c s => Z.of_nat (nat_of_ascii c) :: str s
  end.
Definition newline : bytes := [10%Z].
Definition tab : bytes := [9%Z].
Definition SLASH : Z := 47.

(** ** Splitting and trimming *)

(** [l.split(c)]: one more part than there are separators. *)
Fixpoint split (c : Z) (l : bytes) : list bytes :=
  match l with
  | [] => [[]]
  | b :: l =>
      if (b =? c)%Z then [] :: split c l else
      match split c l with
      | [] => [[b]]
      | p :: ps => (b :: p) :: ps
      end
  end.

(** [l.trim_start_matches(c)] and [l.trim_matches(c)]. *)
Fixpoint trim_start (c : Z) (l : bytes) : bytes :=
  match l with
  | b :: l' => if (b =? c)%Z then trim_start c l' else l
  | [] => []
  end.
Definition trim_matches (c : Z) (l : bytes) : bytes :=
  reverse (trim_start c (reverse (trim_start c l))).

(** [l.starts_with(p)]. *)
Definition starts_with (p l : bytes) : bool := bool_decide (take (length p) l = p).

(** The encodings of the characters that [str::trim] removes (White_Space). *)
Definition whitespace : list bytes :=
  ([[9]; [10]; [11]; [12]; [13]; [32]; [194; 133]; [194; 160]; [225; 154; 128];
    [226; 128; 168]; [226; 128; 169]; [226; 128; 175]; [226; 129; 159]; [227; 128; 128]]
   ++ map (λ b, [226; 128; b]) [128; 129; 130; 131; 132; 133; 134; 135; 136; 137; 138])%Z.
(** Without the prefixes that are in [ws], at most [fuel] of them. *)
Fixpoint strip (fuel : nat) (ws : list bytes) (l : bytes) : bytes :=
  match fuel with
  | O => l
  | S fuel =>
      match list_find (λ w, starts_with w l) ws with
      | Some (_, w) => strip fuel ws (drop (length w) l)
      | None => l
      end
  end.
(** [l.trim()] *)
Definition trim (l : bytes) : bytes :=
  let l := strip (length l) whitespace l in
  reverse (strip (length l) (map reverse whitespace) (reverse l)).

(** [l.find(p)]: the position of the first occurrence. *)
Fixpoint find_sub (p l : bytes) : option nat :=
  if starts_with p l then Some 0
  else match l with [] => None | _ :: l => S <$> find_sub p l end.
(** [l.contains(p)] *)
Definition mentions (p l : bytes) : bool := bool_decide (is_Some (find_sub p l)).

(** ** Decimal numbers *)

(** [fuel] bounds the number of digits; a [u64] has at most twenty. *)
Fixpoint digits (fuel : nat) (z : Z) : bytes :=
  match fuel with
  | O => []
  | S fuel => (if (z <? 10)%Z then [] else digits fuel (z / 10)) ++ [48 + z mod 10]%Z
  end.
(** [format!("{}", z)] of a [u64]. *)
Definition decimal (z : Z) : bytes := digits 20 z.
(** [{:n}] and [{:0n}]: numbers are aligned to the right. *)
Definition pad_left (fill : Z) (n : nat) (l : bytes) : bytes := replicate (n - length l) fill ++ l.

Definition is_digit (b : Z) : bool := ((48 <=? b) && (b <=? 57))%Z.
Fixpoint parse_digits (acc : Z) (l : bytes) : option Z :=
  match l with
  | [] => Some acc
  | b :: l => if is_digit b then
                acc' ← fits 64 (acc * 10 + (b - 48)); parse_digits acc' l
              else None
  end.
(** [l.parse::<u64>().ok()]: an optional plus sign and at least one digit. *)
Definition parse_u64 (l : bytes) : option Z :=
  match l with
  | [] => None
  | 43%Z :: l => match l with [] => None | _ => parse_digits 0 l end
  | _ => parse_digits 0 l
  end.

(** ** Lossy UTF-8 *)

Definition REPLACEMENT : bytes := [239; 191; 189]%Z.

(** The byte that may follow the lead byte of a three-byte sequence, and of a
    four-byte one. *)
Definition second_of_three (b0 b1 : Z) : bool :=
  utf8_cont b1 && (if (b0 =? 224)%Z then 160 <=? b1 else true)%Z
  && (if (b0 =? 237)%Z then b1 <=? 159 else true)%Z.
Definition second_of_four (b0 b1 : Z) : bool :=
  utf8_cont b1 && (if (b0 =? 240)%Z then 144 <=? b1 else true)%Z
  && (if (b0 =? 244)%Z then b1 <=? 143 else true)%Z.

(** [String::from_utf8_lossy(l)]: each maximal prefix of an ill-formed sequence
    becomes one replacement character. *)
Fixpoint from_utf8_lossy (l : bytes) : bytes :=
  match l with
  | [] => []
  | b0 :: l1 =>
      if (b0 <? 128)%Z then b0 :: from_utf8_lossy l1 else
      if ((194 <=? b0) && (b0 <=? 244))%Z then
        match l1 with
        | [] => REPLACEMENT
        | b1 :: l2 =>
            if (b0 <=? 223)%Z then
              if utf8_cont b1 then b0 :: b1 :: from_utf8_lossy l2
              else REPLACEMENT ++ from_utf8_lossy l1
            else if (b0 <=? 239)%Z then
              if second_of_three b0 b1 then
                match l2 with
                | [] => REPLACEMENT
                | b2 :: l3 =>
                    if utf8_cont b2 then b0 :: b1 :: b2 :: from_utf8_lossy l3
                    else REPLACEMENT ++ from_utf8_lossy l2
                end
              else REPLACEMENT ++ from_utf8_lossy l1
            else if second_of_four b0 b1 then
              match l2 with
              | [] => REPLACEMENT
              | b2 :: l3 =>
                  if utf8_cont b2 then
                    match l3 with
                    | [] => REPLACEMENT
                    | b3 :: l4 =>
                        if utf8_cont b3 then b0 :: b1 :: b2 :: b3 :: from_utf8_lossy l4
                        else REPLACEMENT ++ from_utf8_lossy l3
                    end
                  else REPLACEMENT ++ from_utf8_lossy l2
              end
            else REPLACEMENT ++ from_utf8_lossy l1
        end
      else REPLACEMENT ++ from_utf8_lossy l1
  end.

(** ** Facts *)

(** Valid text is its first character, an ASCII byte or a sequence of bytes that
    are not ASCII, and valid text. *)
Definition character (pre : bytes) : Prop :=
  ((∃ b, pre = [b] ∧ (b < 128)%Z) ∨ Forall (λ b, 128 ≤ b)%Z pre) ∧ pre ≠ [] ∧
  (∀ l, utf8_valid (pre ++ l) = utf8_valid l) ∧
  (∀ l, from_utf8_lossy (pre ++ l) = pre ++ from_utf8_lossy l).

Lemma utf8_cont_ge b : utf8_cont b = true → (128 <= b)%Z.
Proof. unfold utf8_cont. intros. reflect. lia. Qed.

Lemma utf8_first_char l : utf8_valid l = true → l ≠ [] →
  ∃ pre l', l = pre ++ l' ∧ character pre ∧ utf8_valid l' = true.
Proof.
  intros Hv Hl. destruct l as [|b0 l1]; [done|]. cbn in Hv.
  destruct (b0 <? 128)%Z eqn:E0.
  { exists [b0], l1. split_and!; [done| |done]. split_and!; [| done | |].
    - left. exists b0. reflect. auto.
    - intros l. cbn. by rewrite E0.
    - intros l. cbn. by rewrite E0. }
  destruct l1 as [|b1 l2]; [done|].
  destruct ((194 <=? b0)%Z && (b0 <=? 223)%Z) eqn:E2; [|destruct l2 as [|b2 l3]; [done|];
    destruct ((224 <=? b0)%Z && (b0 <=? 239)%Z) eqn:E3; [|destruct l3 as [|b3 l4]; [done|]]].
  - assert (194 ≤ b0 ≤ 223)%Z as Hr by (clear -E2; reflect; lia).
    apply andb_true_iff in Hv as [H1 Hv]. pose proof (utf8_cont_ge _ H1).
    exists [b0; b1], l2. split_and!; [done| |done].
    split_and!; [right; repeat constructor; lia|done|intros l; cbn..].
    + by rewrite E0, E2, H1.
    + by rewrite E0, (proj2 (Z.leb_le 194 b0)), (proj2 (Z.leb_le b0 244)), (proj2 (Z.leb_le b0 223)), H1 by lia.
  - assert (224 ≤ b0 ≤ 239)%Z as Hr by (clear -E3; reflect; lia).
    rewrite !andb_true_iff in Hv. destruct Hv as [[[[H1 Ha] Hb] H2] Hv].
    pose proof (utf8_cont_ge _ H1). pose proof (utf8_cont_ge _ H2).
    assert (second_of_three b0 b1 = true) as Hs by (unfold second_of_three; by rewrite H1, Ha, Hb).
    exists [b0; b1; b2], l3. split_and!; [done| |done].
    split_and!; [right; repeat constructor; lia|done|intros l; cbn..].
    + by rewrite E0, E2, E3, H1, Ha, Hb, H2.
    + by rewrite E0, (proj2 (Z.leb_le 194 b0)), (proj2 (Z.leb_le b0 244)), (proj2 (Z.leb_gt b0 223)),
        (proj2 (Z.leb_le b0 239)), Hs, H2 by lia.
  - rewrite !andb_true_iff in Hv. destruct Hv as [[[[[[[Hr1 Hr2] H1] Ha] Hb] H2] H3] Hv].
    assert (240 ≤ b0 ≤ 244)%Z as Hr by (clear -Hr1 Hr2; reflect; lia).
    pose proof (utf8_cont_ge _ H1). pose proof (utf8_cont_ge _ H2). pose proof (utf8_cont_ge _ H3).
    assert (second_of_four b0 b1 = true) as Hs by (unfold second_of_four; by rewrite H1, Ha, Hb).
    exists [b0; b1; b2; b3], l4. split_and!; [done| |done].
    split_and!; [right; repeat constructor; lia|done|intros l; cbn..].
    + by rewrite E0, E2, E3, Hr1, Hr2, H1, Ha, Hb, H2, H3.
    + by rewrite E0, (proj2 (Z.leb_le 194 b0)), (proj2 (Z.leb_le b0 244)), (proj2 (Z.leb_gt b0 223)),
        (proj2 (Z.leb_gt b0 239)), Hs, H2, H3 by lia.
Qed.

(** Induction on the characters of valid text. *)
Lemma utf8_ind (P : bytes → Prop) :
  P [] → (∀ pre l, character pre → utf8_valid l = true → P l → P (pre ++ l)) →
  ∀ l, utf8_valid l = true → P l.
Proof.
  intros Hnil Hchar l. remember (length l) as n eqn:Hn. revert l Hn.
  induction (lt_wf n) as [n _ IH]. intros l -> Hv. destruct (decide (l = [])) as [->|Hl]; [done|].
  destruct (utf8_first_char l) as (pre & l' & -> & Hpre & Hv'); [done..|].
  apply Hchar; [done..|]. eapply IH; [|done|done].
  destruct Hpre as (_ & Hne & _). rewrite length_app. destruct pre; [done|]. cbn. lia.
Qed.

(** What is valid is left alone. *)
Lemma lossy_valid l : utf8_valid l = true → from_utf8_lossy l = l.
Proof.
  revert l. apply utf8_ind; [done|]. intros pre l (_ & _ & _ & Hlossy) _ IH. by rewrite Hlossy, IH.
Qed.

Lemma split_clean c l p : p ∈ split c l → c ∉ p.
Proof.
  revert p. induction l as [|b l IH]; cbn; intros p.
  { intros ->%list_elem_of_singleton. set_solver. }
  destruct (b =? c)%Z eqn:E; reflect.
  - intros [->|H]%elem_of_cons; [set_solver|by apply IH].
  - destruct (split c l) as [|q qs].
    + intros ->%list_elem_of_singleton. set_solver.
    + intros [->|H]%elem_of_cons; [|by apply IH; right].
      intros [->|H]%elem_of_cons; [done|]. by apply (IH q); [left|].
Qed.

Lemma split_nonempty c l : split c l ≠ [].
Proof. destruct l as [|b l]; cbn; [done|]. destruct (b =? c)%Z; [done|]. by destruct (split c l). Qed.

Lemma split_app_clean c p l : c ∉ p →
  split c (p ++ l) = match split c l with [] => [p] | q :: qs => (p ++ q) :: qs end.
Proof.
  intros Hp. induction p as [|b p IH]; cbn.
  - pose proof (split_nonempty c l). by destruct (split c l).
  - apply not_elem_of_cons in Hp as [Hb Hp]. rewrite (proj2 (Z.eqb_neq b c)) by done.
    rewrite (IH Hp). by destruct (split c l).
Qed.

Lemma parse_digits_app l1 l2 acc :
  parse_digits acc (l1 ++ l2) = parse_digits acc l1 ≫= λ acc', parse_digits acc' l2.
Proof.
  revert acc. induction l1 as [|b l1 IH]; intros acc; cbn [app parse_digits]; [done|].
  destruct (is_digit b); [|done]. destruct (fits _ _) as [a|]; cbn; [apply IH|done].
Qed.

Lemma digits_nonempty fuel z : fuel ≠ 0 → digits fuel z ≠ [].
Proof. destruct fuel as [|fuel]; cbn; [done|]. intros _ [_ ?]%app_eq_nil. done. Qed.

Lemma parse_digits_digits fuel z : (0 ≤ z < 10 ^ Z.of_nat fuel)%Z → (z ≤ u64_max)%Z →
  parse_digits 0 (digits fuel z) = Some z.
Proof.
  revert z. induction fuel as [|fuel IH]; intros z Hz Hmax; [cbn in *; f_equal; lia|].
  cbn [digits]. rewrite parse_digits_app. rewrite Nat2Z.inj_succ, Z.pow_succ_r in Hz by lia.
  pose proof (Z.mod_pos_bound z 10). pose proof (Z.div_mod z 10).
  assert ((if (z <? 10)%Z then [] else digits fuel (z / 10)) =
    if (z <? 10)%Z then [] else digits fuel (z / 10)) as _ by done.
  assert (parse_digits 0 (if (z <? 10)%Z then [] else digits fuel (z / 10)) = Some (z / 10)%Z) as ->.
  { destruct (z <? 10)%Z eqn:E; reflect.
    - cbn. by rewrite Z.div_small by lia.
    - apply IH; unfold u64_max in *; [|lia]. split; [lia|]. apply Z.div_lt_upper_bound; lia. }
  cbn. unfold is_digit. rewrite (proj2 (Z.leb_le _ _)), (proj2 (Z.leb_le _ _)) by lia. cbn.
  replace (z / 10 * 10 + (48 + z mod 10 - 48))%Z with z by lia.
  assert (fits 64 z = Some z) as -> by (apply fits_Some; unfold u64_max in *; lia). done.
Qed.

(** A decimal number is parsed back. *)
Lemma parse_decimal z : (0 ≤ z ≤ u64_max)%Z → parse_u64 (decimal z) = Some z.
Proof.
  intros Hz. unfold decimal.
  assert (parse_digits 0 (digits 20 z) = Some z) as Hp by (apply parse_digits_digits; unfold u64_max in *; lia).
  unfold parse_u64. destruct (digits 20 z) as [|b l] eqn:E.
  { by apply digits_nonempty in E. }
  destruct (decide (b = 43)%Z) as [->|Hb]; [cbn in Hp; done|].
  rewrite Hp. destruct b as [|p|p]; try done. repeat (destruct p as [p|p|]; try done).
Qed.

(** Splitting valid text at an ASCII character gives valid text. *)
Lemma split_valid c l p : (c < 128)%Z → utf8_valid l = true → p ∈ split c l → utf8_valid p = true.
Proof.
  intros Hc Hv. revert p. apply Forall_forall. revert l Hv. apply utf8_ind.
  { by repeat constructor. }
  intros pre l (Hascii & Hne & Hvalid & _) _ IH.
  assert (pre = [c] ∨ c ∉ pre) as [->|Hnc].
  { destruct Hascii as [(b & -> & _)|Hge].
    - destruct (decide (b = c)) as [->|Hb]; [by left|]. right. by intros ->%list_elem_of_singleton.
    - right. intros Hin. rewrite Forall_forall in Hge. apply Hge in Hin. lia. }
  - cbn. rewrite Z.eqb_refl. by constructor.
  - rewrite split_app_clean by done. pose proof (split_nonempty c l).
    destruct (split c l) as [|q qs]; [done|]. apply Forall_cons in IH as [Hq Hqs].
    constructor; [by rewrite Hvalid|done].
Qed.
