(* ===== verification/Disk.v ===== *)
(** * The data drive

    The ATA driver (kernel/src/ata.rs) is port input and output; what the file
    system relies on is its interface.  A drive is a parameter of the model: a
    state [D] with the two operations, and the laws of a drive that works. *)
From S2P Require Import Prelude Bytes.

Definition SECTOR : nat := 512.

(** [None] is the error return of the driver; it may change the drive. *)
Class Drive (D : Type) := {
  read_sector : Z → D → option bytes * D;
  write_sector : Z → bytes → D → option unit * D;
}.

(** A drive that stores sectors: what was written last is read back. *)
Class StorageLaws (D : Type) `{!Drive D} := {
  sector_at : Z → D → bytes;
  sector_length n d : length (sector_at n d) = SECTOR;
  read_stored n d : read_sector n d = (Some (sector_at n d), d);
  write_stored n b d : length b = SECTOR → ∃ d', write_sector n b d = (Some tt, d') ∧
    ∀ m, sector_at m d' = if decide (m = n) then b else sector_at m d;
}.

Section drive.
Context {D : Type} `{!Drive D}.

Definition drive_read {E} (e : E) (n : Z) : comp D E bytes := λ d,
  match read_sector n d with (Some b, d') => (Ok b, d') | (None, d') => (Err e, d') end.
Definition drive_write {E} (e : E) (n : Z) (b : bytes) : comp D E unit := λ d,
  match write_sector n b d with (Some _, d') => (Ok tt, d') | (None, d') => (Err e, d') end.
End drive.

(** ** A drive in memory *)

(** Exactly one sector of [b], padded with zeros. *)
Definition one_sector (b : bytes) : bytes := take SECTOR (b ++ replicate SECTOR 0%Z).

#[export] Instance memory_drive : Drive (gmap Z bytes) := {|
  read_sector n d := (Some (one_sector (default [] (d !! n))), d);
  write_sector n b d := (Some tt, <[n := b]> d);
|}.

#[export] Instance memory_storage : StorageLaws (gmap Z bytes).
Proof.
  apply (Build_StorageLaws _ _ (λ n d, one_sector (default [] (d !! n)))).
  - intros n d. unfold one_sector. rewrite length_take, length_app, length_replicate. lia.
  - done.
  - intros n b d Hb. eexists. split; [done|]. intros m. destruct (decide (m = n)) as [->|Hne].
    + rewrite lookup_insert_eq. change (one_sector b = b). unfold one_sector. by rewrite <-Hb, take_app_length.
    + by rewrite lookup_insert_ne.
Defined.

(** A drive that is absent: every command times out. *)
#[export] Instance absent_drive : Drive unit := {|
  read_sector _ d := (None, d);
  write_sector _ _ d := (None, d);
|}.
