(* ===== verification/Abi.v ===== *)
(** * The kernel ABI (spark-abi/src/lib.rs)

    Error codes, capability handles, rights, object kinds and IPC envelopes:
    the data that the capability core, the IPC layer and the memory objects
    exchange.  A [u32] used as a vector index is a [nat]; every other machine
    integer is a [Z]. *)
From S2P Require Import Prelude.

(** errno constants — spark-abi/src/lib.rs:3-20 [errno] *)
Definition EPERM : Z := 1%Z.
Definition ENOENT : Z := 2%Z.
Definition ESRCH : Z := 3%Z.
Definition EINTR : Z := 4%Z.
Definition EIO : Z := 5%Z.
Definition EBADF : Z := 9%Z.
Definition EAGAIN : Z := 11%Z.
Definition ENOMEM : Z := 12%Z.
Definition EACCES : Z := 13%Z.
Definition EFAULT : Z := 14%Z.
Definition EINVAL : Z := 22%Z.
Definition ENOSYS : Z := 38%Z.
Definition EQUOTA : Z := 122%Z.

(** spark-abi/src/lib.rs:80-89 [CapError] *)
Inductive CapError :=
| Invalid
| Revoked
| NoRights
| NotFound
| Exhausted
| AlreadyExists
| QuotaExceeded.

(** spark-abi/src/lib.rs:91-102 [CapError::to_errno] *)
Definition to_errno (e : CapError) : Z :=
  match e with
  | Invalid => EINVAL
  | Revoked | NoRights => EACCES
  | NotFound => ENOENT
  | Exhausted => ENOMEM
  | AlreadyExists => EAGAIN
  | QuotaExceeded => EQUOTA
  end.

(** spark-abi/src/lib.rs:106-110 [CapHandle] *)
Record CapHandle := mkHandle { slot : nat; generation : Z }.

(** A rights word is a [u32] mask — spark-abi/src/lib.rs:112-126 [Rights] *)
Definition Rights : Type := Z.
Bind Scope Z_scope with Rights.
Definition READ : Rights := 1%Z.
Definition WRITE : Rights := 2%Z.
Definition MAP : Rights := 4%Z.
Definition IO : Rights := 8%Z.
Definition DMA : Rights := 16%Z.
Definition TRANSFER : Rights := 32%Z.
Definition GRANT : Rights := 64%Z.
Definition DESTROY : Rights := 128%Z.
Definition EXECUTE : Rights := 256%Z.
Definition MANAGE : Rights := 512%Z.

(** spark-abi/src/lib.rs:127-130 [Rights::empty, Rights::all] *)
Definition rights_empty : Rights := 0%Z.
Definition rights_all : Rights := 1023%Z.

(** spark-abi/src/lib.rs:132-135 [Rights::contains] *)
Definition contains (self other : Rights) : bool := (Z.land self other =? other)%Z.

(** spark-abi/src/lib.rs:138-144 [BitAnd for Rights] *)
Definition bitand (a b : Rights) : Rights := Z.land a b.
(** spark-abi/src/lib.rs:146-152 [BitOr for Rights] *)
Definition bitor (a b : Rights) : Rights := Z.lor a b.

(** spark-abi/src/lib.rs:154-163 [ObjectKind] *)
Inductive ObjectKind :=
| Memory
| Device
| Endpoint
| Generic
| Fd
| Process
| MemObject.

(** spark-abi/src/lib.rs:169-178 [TransferMode] *)
Inductive TransferMode :=
| ModeNone
| ModeTransfer
| ModeLend.

(** spark-abi/src/lib.rs:180-186 [CapMessage] *)
Record CapMessage (M : Type) := mkMessage {
  payload : M;
  capability : option CapHandle;
  transfer_mode : TransferMode;
}.
Arguments mkMessage {M} _ _ _.
Arguments payload {M} _.
Arguments capability {M} _.
Arguments transfer_mode {M} _.

#[export] Instance CapError_eq_dec : EqDecision CapError.
Proof. solve_decision. Defined.
#[export] Instance CapHandle_eq_dec : EqDecision CapHandle.
Proof. solve_decision. Defined.
#[export] Instance ObjectKind_eq_dec : EqDecision ObjectKind.
Proof. solve_decision. Defined.
#[export] Instance TransferMode_eq_dec : EqDecision TransferMode.
Proof. solve_decision. Defined.

(** ** Rights form a preorder under inclusion *)

Lemma contains_spec a b :
  contains a b = true ↔ ∀ i, Z.testbit b i = true → Z.testbit a i = true.
Proof.
  unfold contains. rewrite Z.eqb_eq. split.
  - intros Hab i Hi. rewrite <-Hab, Z.land_spec in Hi. by apply andb_true_iff in Hi as [? _].
  - intros Hab. apply Z.bits_inj'. intros i _. rewrite Z.land_spec.
    destruct (Z.testbit b i) eqn:Hb; [rewrite (Hab i Hb); done|apply andb_false_r].
Qed.

Lemma contains_refl a : contains a a = true.
Proof. apply contains_spec. auto. Qed.

Lemma contains_trans a b c :
  contains a b = true → contains b c = true → contains a c = true.
Proof. rewrite !contains_spec. auto. Qed.

Lemma contains_bitand_l a b : contains a (bitand a b) = true.
Proof.
  apply contains_spec. intros i. unfold bitand. rewrite Z.land_spec.
  by intros [? _]%andb_true_iff.
Qed.

(** What a derived right word contains is what was requested, because the
    request itself was contained in the parent's word. *)
Lemma contains_bitand a b c :
  contains a b = true → contains (bitand a b) c = contains b c.
Proof.
  unfold contains, bitand. intros Hab%Z.eqb_eq. by rewrite Hab.
Qed.

Create HintDb abi.
#[export] Hint Resolve contains_refl contains_bitand_l : abi.
