(* ===== verification/Cap.v ===== *)
(** * The capability core (kernel/src/cap.rs)

    [CoreState] is the capability space behind the single lock [STATE]: the
    handle slots, the lineage nodes and the objects.  Every operation of the
    source is a computation on it; [CapWorld] adds the other statics of the
    module (the lend-expiry registry, the device port bindings, the root
    capability), and [locked] is "take the lock, fail with [Invalid] before
    [init]".  The lock-contention counters of [lock_state] are not modelled.

    The theorems are about every state reachable from [init] by any sequence of
    operations: the representation invariant, the permanence of revocation and
    of closing, the attenuation of rights along a lineage, the isolation of
    siblings, and the confinement of port access. *)
From S2P Require Import Prelude Abi.

(** ** Data *)

(** kernel/src/cap.rs:14-17 [CapNode] *)
Record CapNode := mkNode { parent : option nat; epoch : Z }.

(** kernel/src/cap.rs:19-24 [CapObject] *)
Record CapObject := mkObject {
  kind : ObjectKind;
  refcount : Z;
  object_generation : Z;
  valid : bool;
}.

(** kernel/src/cap.rs:28-35 [CapSlot] *)
Record CapSlot := mkSlot {
  node_idx : nat;
  object_idx : nat;
  rights : Rights;
  slot_generation : Z;
  free : bool;
  is_lent : bool;
}.

(** kernel/src/cap.rs:37-41 [CoreState] *)
Record CoreState := mkCore {
  slots : list CapSlot;
  nodes : list CapNode;
  objects : list CapObject;
}.

(** kernel/src/cap.rs:83-85 [MAX_CAP_SLOTS, MAX_CAP_NODES, MAX_CAP_OBJECTS] *)
Definition MAX_CAP_SLOTS : nat := 2048.
Definition MAX_CAP_NODES : nat := 2048.
Definition MAX_CAP_OBJECTS : nat := 1024.
#[global] Arguments MAX_CAP_SLOTS : simpl never.
#[global] Arguments MAX_CAP_NODES : simpl never.
#[global] Arguments MAX_CAP_OBJECTS : simpl never.

(** ** The core operations, under the lock *)

Section core.
Local Abbreviation M := (comp CoreState CapError).

Definition with_slots (f : list CapSlot → list CapSlot) (st : CoreState) : CoreState :=
  mkCore (f (slots st)) (nodes st) (objects st).
Definition with_nodes (f : list CapNode → list CapNode) (st : CoreState) : CoreState :=
  mkCore (slots st) (f (nodes st)) (objects st).
Definition with_objects (f : list CapObject → list CapObject) (st : CoreState) : CoreState :=
  mkCore (slots st) (nodes st) (f (objects st)).

(** The first free slot, or a fresh one of generation 1 —
    kernel/src/cap.rs:87-106 [allocate_slot] *)
Definition allocate_slot : M nat :=
  st ← get;
  match list_find (λ s, free s = true) (slots st) with
  | Some (i, _) => mret i
  | None =>
      reject_if (MAX_CAP_SLOTS <=? length (slots st))%nat Exhausted;;
      put (with_slots (λ l, l ++ [mkSlot 0 0 rights_empty 1 true false]) st);;
      mret (length (slots st))
  end.

(** The walk to the root of the lineage; [None] is an index out of range or
    the end of the fuel — kernel/src/cap.rs:108-122 [is_revoked] *)
Fixpoint is_revoked_loop (fuel : nat) (ns : list CapNode) (curr : nat) : option bool :=
  match fuel with
  | O => None
  | S fuel =>
      n ← ns !! curr;
      if (0 <? epoch n)%Z then Some true
      else match parent n with
           | Some p => is_revoked_loop fuel ns p
           | None => Some false
           end
  end.

(** kernel/src/cap.rs:108-122 [is_revoked] *)
Definition is_revoked (st : CoreState) (n : nat) : option bool :=
  is_revoked_loop (S (length (nodes st))) (nodes st) n.

(** The bounds and generation check with which every operation on a handle
    begins — kernel/src/cap.rs:195-201 [grant, generation check] *)
Definition lookup_live (h : CapHandle) : M CapSlot :=
  st ← get;
  reject_if (length (slots st) <=? slot h)%nat Invalid;;
  s ← unwrap (slots st !! slot h);
  reject_if (free s || negb (slot_generation s =? generation h)%Z) Invalid;;
  mret s.

Definition reject_revoked (n : nat) : M unit :=
  st ← get;
  b ← unwrap (is_revoked st n);
  reject_if b Revoked.

(** kernel/src/cap.rs:195-215 [grant, authority checks] *)
Definition authorize (h : CapHandle) (req : Rights) : M CapSlot :=
  s ← lookup_live h;
  reject_if (negb (contains (rights s) req)) NoRights;;
  reject_if (is_lent s) NoRights;;
  reject_revoked (node_idx s);;
  mret s.

(** A new lineage node and a slot that refers to it —
    kernel/src/cap.rs:225-245 [grant, node and slot creation] *)
Definition install (par : option nat) (ob : nat) (r : Rights) (lent : bool)
  : M CapHandle :=
  st ← get;
  let n := length (nodes st) in
  put (with_nodes (λ l, l ++ [mkNode par 0]) st);;
  i ← allocate_slot;
  st ← get;
  s ← unwrap (slots st !! i);
  let gen := slot_generation s in
  put (with_slots <[i := mkSlot n ob r gen false lent]> st);;
  mret (mkHandle i gen).

Definition reject_no_nodes : M unit :=
  st ← get; reject_if (MAX_CAP_NODES <=? length (nodes st))%nat Exhausted.

(** kernel/src/cap.rs:152-189 [create_object] *)
Definition create_object (k : ObjectKind) : M CapHandle :=
  st ← get;
  reject_if ((MAX_CAP_OBJECTS <=? length (objects st))%nat
             || (MAX_CAP_NODES <=? length (nodes st))%nat) Exhausted;;
  put (with_objects (λ l, l ++ [mkObject k 0 1 true]) st);;
  install None (length (objects st)) rights_all false.

(** kernel/src/cap.rs:191-246 [grant] *)
Definition grant (p : CapHandle) (req : Rights) : M CapHandle :=
  s ← authorize p req;
  reject_no_nodes;;
  install (Some (node_idx s)) (object_idx s) (bitand (rights s) req) false.

(** kernel/src/cap.rs:307-360 [lend] *)
Definition lend (p : CapHandle) (req : Rights) : M CapHandle :=
  s ← authorize p req;
  reject_no_nodes;;
  install (Some (node_idx s)) (object_idx s) (bitand (rights s) req) true.

Definition release_slot (i : nat) : M unit :=
  st ← get;
  s ← unwrap (slots st !! i);
  g ← unwrap (fits 32 (slot_generation s + 1));
  put (with_slots <[i := mkSlot (node_idx s) (object_idx s) (rights s) g true (is_lent s)]> st).

(** kernel/src/cap.rs:248-305 [transfer] *)
Definition transfer (src : CapHandle) (req : Rights) : M CapHandle :=
  s ← authorize src req;
  reject_no_nodes;;
  h ← install None (object_idx s) (bitand (rights s) req) false;
  release_slot (slot src);;
  mret h.

(** kernel/src/cap.rs:418-435 [close] *)
Definition close (h : CapHandle) : M unit :=
  _ ← lookup_live h;
  release_slot (slot h).

(** kernel/src/cap.rs:437-453 [revoke] *)
Definition revoke (h : CapHandle) : M unit :=
  s ← lookup_live h;
  st ← get;
  n ← unwrap (nodes st !! node_idx s);
  put (with_nodes <[node_idx s := mkNode (parent n) (saturating_add 64 (epoch n) 1)]> st).

(** kernel/src/cap.rs:362-364 [reclaim] *)
Definition reclaim (h : CapHandle) : M unit := revoke h.

(** kernel/src/cap.rs:459-462 [destroy_owned] *)
Definition destroy_owned (h : CapHandle) : M unit :=
  ignore (revoke h);; close h.

(** The table is left empty: the caller clears it —
    kernel/src/cap.rs:465-470 [destroy_process_cspace] *)
Definition destroy_process_cspace (table : list (Z * CapHandle))
  : M (list (Z * CapHandle)) :=
  for_each table (λ e, ignore (destroy_owned e.2));; mret [].

Definition valid_object (i : nat) : M CapObject :=
  st ← get;
  o ← unwrap (objects st !! i);
  reject_if (negb (valid o)) Invalid;;
  mret o.

(** kernel/src/cap.rs:477-500 [check_rights] *)
Definition check_rights (h : CapHandle) (needed : Rights) : M unit :=
  s ← lookup_live h;
  reject_if (negb (contains (rights s) needed)) NoRights;;
  reject_revoked (node_idx s);;
  _ ← valid_object (object_idx s);
  mret tt.

(** kernel/src/cap.rs:505-534 [check_rights_for_object] *)
Definition check_rights_for_object (h target : CapHandle) (needed : Rights) : M unit :=
  st ← get;
  reject_if ((length (slots st) <=? slot h)%nat
             || (length (slots st) <=? slot target)%nat) Invalid;;
  s ← unwrap (slots st !! slot h);
  t ← unwrap (slots st !! slot target);
  reject_if (free s || negb (slot_generation s =? generation h)%Z
             || free t || negb (slot_generation t =? generation target)%Z) Invalid;;
  reject_if (negb (object_idx s =? object_idx t)%nat) NoRights;;
  reject_if (negb (contains (rights s) needed)) NoRights;;
  reject_revoked (node_idx s);;
  _ ← valid_object (object_idx s);
  mret tt.

(** kernel/src/cap.rs:541-560 [object_identity] *)
Definition object_identity (h : CapHandle) : M (ObjectKind * nat) :=
  s ← lookup_live h;
  reject_revoked (node_idx s);;
  o ← valid_object (object_idx s);
  mret (kind o, object_idx s).

(** kernel/src/cap.rs:619-651 [deref] *)
Definition deref (h : CapHandle) (flags : Rights) : M nat :=
  s ← lookup_live h;
  reject_if (negb (contains (rights s) flags)) NoRights;;
  reject_revoked (node_idx s);;
  o ← valid_object (object_idx s);
  rc ← unwrap (fits 64 (refcount o + 1));
  modify (with_objects <[object_idx s := mkObject (kind o) rc (object_generation o) true]>);;
  mret (object_idx s).

(** The destructor of a [CapAccess] — kernel/src/cap.rs:663-677 [Drop for CapAccess] *)
Definition drop_access (ob : nat) : M unit :=
  st ← get;
  o ← unwrap (objects st !! ob);
  if valid o && (0 <? refcount o)%Z then
    if (refcount o - 1 =? 0)%Z then
      g ← unwrap (fits 64 (object_generation o + 1));
      put (with_objects <[ob := mkObject (kind o) 0 g false]> st)
    else put (with_objects <[ob := mkObject (kind o) (refcount o - 1) (object_generation o) true]> st)
  else mret tt.
End core.

(** ** The module's statics *)

(** [LEND_EXPIRIES] maps a slot to (generation, expiry tick);
    [DEVICE_PORT_BINDINGS] maps an object to its inclusive port range —
    kernel/src/cap.rs:44 [STATE] *)
Record CapWorld := mkCapWorld {
  STATE : option CoreState;
  ROOT_CAP : option CapHandle;
  LEND_EXPIRIES : gmap nat (Z * Z);
  LEND_EXPIRY_PENDING : Z;
  DEVICE_PORT_BINDINGS : gmap nat (Z * Z);
}.

Section world.
Local Abbreviation M := (comp CapWorld CapError).

Definition with_state (st : CoreState) (w : CapWorld) : CapWorld :=
  mkCapWorld (Some st) (ROOT_CAP w) (LEND_EXPIRIES w) (LEND_EXPIRY_PENDING w)
    (DEVICE_PORT_BINDINGS w).
Definition with_expiries (f : gmap nat (Z * Z) → gmap nat (Z * Z)) (w : CapWorld) : CapWorld :=
  mkCapWorld (STATE w) (ROOT_CAP w) (f (LEND_EXPIRIES w)) (LEND_EXPIRY_PENDING w)
    (DEVICE_PORT_BINDINGS w).
Definition with_pending (t : Z) (w : CapWorld) : CapWorld :=
  mkCapWorld (STATE w) (ROOT_CAP w) (LEND_EXPIRIES w) t (DEVICE_PORT_BINDINGS w).
Definition with_bindings (f : gmap nat (Z * Z) → gmap nat (Z * Z)) (w : CapWorld) : CapWorld :=
  mkCapWorld (STATE w) (ROOT_CAP w) (LEND_EXPIRIES w) (LEND_EXPIRY_PENDING w)
    (f (DEVICE_PORT_BINDINGS w)).

(** [lock_state()] and [as_mut().ok_or(Invalid)] — kernel/src/cap.rs:50-57 [lock_state] *)
Definition locked {A} (m : comp CoreState CapError A) : M A := λ w,
  match STATE w with
  | None => (Err Invalid, w)
  | Some st => match m st with (r, st') => (r, with_state st' w) end
  end.

(** The expiry registry is kept — kernel/src/cap.rs:126-135 [init] *)
Definition init : M unit :=
  modify (λ w, with_bindings (λ _, ∅) (with_state (mkCore [] [] []) w)).

(** kernel/src/cap.rs:77-79 [root_cap] *)
Definition root_cap (w : CapWorld) : option CapHandle := ROOT_CAP w.

(** kernel/src/cap.rs:145-150 [bootstrap_root] *)
Definition bootstrap_root : M CapHandle :=
  root ← locked (create_object Process);
  h ← locked (grant root 263%Z);
  modify (λ w, mkCapWorld (STATE w)
                 (match ROOT_CAP w with Some h0 => Some h0 | None => Some h end)
                 (LEND_EXPIRIES w) (LEND_EXPIRY_PENDING w) (DEVICE_PORT_BINDINGS w));;
  mret h.

(** kernel/src/cap.rs:373-377 [lend_with_expiry] *)
Definition lend_with_expiry (p : CapHandle) (req : Rights) (expiry_tick : Z) : M CapHandle :=
  h ← locked (lend p req);
  modify (with_expiries <[slot h := (generation h, expiry_tick)]>);;
  mret h.

(** The registry entries that have expired, in slot order —
    kernel/src/cap.rs:384-393 [expire_lent_capabilities, collection] *)
Definition expired_entries (m : gmap nat (Z * Z)) (t : Z) : list (nat * (Z * Z)) :=
  filter (λ e, e.2.2 ≤ t)%Z (btree_iter le m).

Fixpoint revoke_counting (hs : list CapHandle) (count : nat) : M nat :=
  match hs with
  | [] => mret count
  | h :: hs =>
      r ← attempt (locked (revoke h));
      revoke_counting hs (match r with inr _ => S count | inl _ => count end)
  end.

(** kernel/src/cap.rs:380-401 [expire_lent_capabilities] *)
Definition expire_lent_capabilities (current_tick : Z) : M nat :=
  w ← get;
  let expired := expired_entries (LEND_EXPIRIES w) current_tick in
  put (with_expiries (λ m, foldr (λ e m, delete e.1 m) m expired) w);;
  revoke_counting ((λ e, mkHandle e.1 e.2.1) <$> expired) 0.

(** kernel/src/cap.rs:406-408 [mark_lend_expiry_pending] *)
Definition mark_lend_expiry_pending (t : Z) : M unit := modify (with_pending t).

(** kernel/src/cap.rs:411-416 [poll_pending_lend_expiries] *)
Definition poll_pending_lend_expiries : M unit :=
  w ← get;
  let tick := LEND_EXPIRY_PENDING w in
  put (with_pending 0%Z w);;
  if (tick =? 0)%Z then mret tt
  else _ ← expire_lent_capabilities tick; mret tt.

(** kernel/src/cap.rs:582-589 [create_device_ports] *)
Definition create_device_ports (start end_inclusive : Z) : M CapHandle :=
  dev ← locked (create_object Device);
  id ← locked (object_identity dev);
  modify (with_bindings <[id.2 := (start, end_inclusive)]>);;
  locked (grant dev 520%Z).

(** kernel/src/cap.rs:595-606 [device_io_range] *)
Definition device_io_range (h : CapHandle) : M (Z * Z) :=
  locked (check_rights h IO);;
  id ← locked (object_identity h);
  reject_if (negb (bool_decide (id.1 = Device))) NoRights;;
  w ← get;
  ok_or (DEVICE_PORT_BINDINGS w !! id.2) NoRights.

(** kernel/src/cap.rs:610-616 [port_range_allowed] *)
Definition port_range_allowed (h : CapHandle) (start end_inclusive : Z) : M unit :=
  range ← device_io_range h;
  reject_if ((start <? range.1)%Z || (range.2 <? end_inclusive)%Z) NoRights.
End world.

(** ** Reachability *)

(** A call of one of the state-changing entry points. *)
Inductive cap_call :=
| CallCreate (k : ObjectKind)
| CallGrant (h : CapHandle) (req : Rights)
| CallLend (h : CapHandle) (req : Rights)
| CallTransfer (h : CapHandle) (req : Rights)
| CallClose (h : CapHandle)
| CallRevoke (h : CapHandle)
| CallDestroyOwned (h : CapHandle)
| CallDeref (h : CapHandle) (flags : Rights)
| CallDrop (ob : nat).

Definition cap_exec (c : cap_call) : comp CoreState CapError unit :=
  match c with
  | CallCreate k => ignore (create_object k)
  | CallGrant h r => ignore (grant h r)
  | CallLend h r => ignore (lend h r)
  | CallTransfer h r => ignore (transfer h r)
  | CallClose h => ignore (close h)
  | CallRevoke h => ignore (revoke h)
  | CallDestroyOwned h => ignore (destroy_owned h)
  | CallDeref h r => ignore (deref h r)
  | CallDrop ob => drop_access ob
  end.

(** One call that returns (with a value or an error). *)
Definition cap_step (st st' : CoreState) : Prop :=
  ∃ c, cap_exec c st = (Ok tt, st').

Definition cap_reachable (st : CoreState) : Prop := rtc cap_step (mkCore [] [] []) st.

(** ** Specification vocabulary *)

(** [n]'s parent in the derivation tree. *)
Definition parent_of (ns : list CapNode) (n p : nat) : Prop :=
  ∃ nd, ns !! n = Some nd ∧ parent nd = Some p.

(** [n] descends from [a] (or is [a]). *)
Definition descends (ns : list CapNode) : nat → nat → Prop := rtc (parent_of ns).

(** Some node of [n]'s lineage has been revoked. *)
Definition lineage_revoked (ns : list CapNode) (n : nat) : Prop :=
  ∃ a nd, descends ns n a ∧ ns !! a = Some nd ∧ (0 < epoch nd)%Z.

(** The slot a handle denotes while it is open. *)
Definition denotes (st : CoreState) (h : CapHandle) (s : CapSlot) : Prop :=
  slots st !! slot h = Some s ∧ free s = false ∧ slot_generation s = generation h.

(** The handle passes [check_rights] for [needed]. *)
Definition usable (st : CoreState) (h : CapHandle) (needed : Rights) : Prop :=
  ∃ s o, denotes st h s ∧ contains (rights s) needed = true ∧
    ¬ lineage_revoked (nodes st) (node_idx s) ∧
    objects st !! object_idx s = Some o ∧ valid o = true.
