(* ===== verification/CapInv.v ===== *)
(** * The capability core: representation invariant and evolution

    [cap_wf] is the invariant of the capability space, [cap_extends] the
    preorder along which it evolves: lineage nodes are never removed or
    re-parented and their epochs never decrease, an open slot changes only by
    moving to a later generation, an object that has died stays dead.  One
    lemma per operation of [Cap] gives its behaviour on every branch together
    with the preservation of both. *)
From S2P Require Import Prelude Abi Cap.

Record cap_wf (st : CoreState) : Prop := mkCapWf {
  wf_parent : ∀ n p, parent_of (nodes st) n p → p < n;
  wf_epoch : ∀ n nd, nodes st !! n = Some nd → (0 ≤ epoch nd ≤ u64_max)%Z;
  wf_slot : ∀ i s, slots st !! i = Some s → free s = false →
    node_idx s < length (nodes st) ∧ object_idx s < length (objects st);
  wf_unique : ∀ i j s t, slots st !! i = Some s → slots st !! j = Some t →
    free s = false → free t = false → node_idx s = node_idx t → i = j;
  wf_gen : ∀ i s, slots st !! i = Some s → (1 ≤ slot_generation s ≤ u32_max)%Z;
  wf_slots_size : length (slots st) ≤ length (nodes st);
  wf_nodes_size : length (nodes st) ≤ MAX_CAP_NODES;
  wf_objects_size : length (objects st) ≤ MAX_CAP_OBJECTS;
  wf_attenuated : ∀ i j s t, slots st !! i = Some s → slots st !! j = Some t →
    free s = false → free t = false → parent_of (nodes st) (node_idx s) (node_idx t) →
    contains (rights t) (rights s) = true ∧ object_idx s = object_idx t ∧ is_lent t = false;
  wf_object : ∀ i o, objects st !! i = Some o →
    (0 ≤ refcount o ≤ u64_max)%Z ∧ (1 ≤ object_generation o ≤ u64_max)%Z;
}.

Record cap_extends (st st' : CoreState) : Prop := mkCapExtends {
  ext_nodes : ∀ n nd, nodes st !! n = Some nd → ∃ nd', nodes st' !! n = Some nd' ∧
    parent nd' = parent nd ∧ (epoch nd ≤ epoch nd')%Z;
  ext_slots : ∀ i s, slots st !! i = Some s → ∃ s', slots st' !! i = Some s' ∧
    ((slot_generation s < slot_generation s')%Z ∨
     (slot_generation s' = slot_generation s ∧ (free s = true ∨ s' = s)));
  ext_objects : ∀ i o, objects st !! i = Some o → ∃ o', objects st' !! i = Some o' ∧
    kind o' = kind o ∧ (valid o' = true → valid o = true);
}.

#[export] Instance cap_extends_preorder : PreOrder cap_extends.
Proof.
  split.
  - intros st. split; [intros n nd ?; exists nd|intros i s ?; exists s|intros i o ?; exists o];
      split_and!; auto; lia.
  - intros st1 st2 st3 [N1 S1 O1] [N2 S2 O2]. split.
    + intros n nd (nd1 & H1 & P1 & E1)%N1. destruct (N2 _ _ H1) as (nd2 & H2 & P2 & E2).
      exists nd2. split_and!; [done|congruence|lia].
    + intros i s (s1 & H1 & C1)%S1. destruct (S2 _ _ H1) as (s2 & H2 & C2).
      exists s2. split; [done|].
      destruct C1 as [?|[? [?| ->]]], C2 as [?|[? [?| ->]]]; auto; try (left; lia);
        right; (split; [lia|auto]).
    + intros i o (o1 & H1 & K1 & V1)%O1. destruct (O2 _ _ H1) as (o2 & H2 & K2 & V2).
      exists o2. split_and!; [done|congruence|auto].
Qed.

Lemma extends_nodes_length st st' :
  cap_extends st st' → length (nodes st) ≤ length (nodes st').
Proof.
  intros Hext. destruct (length (nodes st)) as [|n] eqn:Hn; [lia|].
  destruct (lookup_lt_is_Some_2 (nodes st) n) as [nd Hnd]; [lia|].
  destruct (ext_nodes _ _ Hext _ _ Hnd) as (nd' & Hnd' & _). by apply lookup_lt_Some in Hnd'.
Qed.

Lemma cap_wf_init : cap_wf (mkCore [] [] []).
Proof.
  split; cbn; intros; simplify_eq; try lia.
  all: match goal with H : parent_of _ _ _ |- _ => destruct H as (? & ? & _) end; simplify_eq.
Qed.

(** ** Lineages *)

Section lineage.
Implicit Types ns : list CapNode.

Lemma parent_of_lt ns n p : parent_of ns n p → n < length ns.
Proof. intros (nd & ? & _). by eapply lookup_lt_Some. Qed.

Lemma lineage_revoked_unfold ns n nd :
  ns !! n = Some nd →
  lineage_revoked ns n ↔
    (0 < epoch nd)%Z ∨ ∃ p, parent nd = Some p ∧ lineage_revoked ns p.
Proof.
  intros Hn. split.
  - intros (a & ad & Hd & Ha & He). inversion Hd as [|? p ? Hp Hrest]; simplify_eq.
    + by left.
    + destruct Hp as (? & ? & ?); simplify_eq. right. exists p. split; [done|].
      by exists a, ad.
  - intros [He|(p & Hp & a & ad & Hd & Ha & He)].
    + exists n, nd. split_and!; [apply rtc_refl|done..].
    + exists a, ad. split_and!; [|done..]. eapply rtc_l; [|done]. by exists nd.
Qed.

(** The loop of [is_revoked] decides whether the lineage has been revoked,
    with fuel one more than the index it starts from. *)
Lemma is_revoked_loop_spec ns :
  (∀ n p, parent_of ns n p → p < n) →
  ∀ fuel n, n < fuel → n < length ns →
  ∃ b, is_revoked_loop fuel ns n = Some b ∧ (b = true ↔ lineage_revoked ns n).
Proof.
  intros Hpar. induction fuel as [|fuel IH]; intros n Hf Hn; [lia|].
  destruct (lookup_lt_is_Some_2 ns n Hn) as [nd Hnd]. cbn. rewrite Hnd. cbn.
  pose proof (lineage_revoked_unfold ns n nd Hnd) as Hun.
  destruct (0 <? epoch nd)%Z eqn:He; reflect.
  { exists true. split; [done|]. rewrite Hun. split; [by left|done]. }
  destruct (parent nd) as [p|] eqn:Hp.
  - assert (p < n) by (apply Hpar; by exists nd).
    destruct (IH p) as (b & -> & Hb); [lia..|]. exists b. split; [done|].
    rewrite Hb, Hun. split; [by eauto|]. intros [?|(? & ? & ?)]; [lia|congruence].
  - exists false. split; [done|]. rewrite Hun. split; [done|]. intros [?|(? & ? & ?)]; [lia|congruence].
Qed.

Lemma is_revoked_spec st n :
  cap_wf st → n < length (nodes st) →
  ∃ b, is_revoked st n = Some b ∧ (b = true ↔ lineage_revoked (nodes st) n).
Proof. intros Hwf Hn. apply is_revoked_loop_spec; [apply Hwf|lia|done]. Qed.

(** Descent only depends on the parents of the nodes that were there. *)
Lemma parent_of_extends st st' n p :
  cap_extends st st' → parent_of (nodes st) n p → parent_of (nodes st') n p.
Proof.
  intros Hext (nd & Hn & Hp). destruct (ext_nodes _ _ Hext _ _ Hn) as (nd' & ? & ? & ?).
  exists nd'. split; [done|congruence].
Qed.

Lemma descends_extends st st' n a :
  cap_extends st st' → descends (nodes st) n a → descends (nodes st') n a.
Proof.
  intros Hext. induction 1 as [|n p a Hp _ IH]; [apply rtc_refl|].
  eapply rtc_l; [by eapply parent_of_extends|done].
Qed.

Lemma lineage_revoked_extends st st' n :
  cap_extends st st' → lineage_revoked (nodes st) n → lineage_revoked (nodes st') n.
Proof.
  intros Hext (a & nd & Hd & Ha & He).
  destruct (ext_nodes _ _ Hext _ _ Ha) as (nd' & Ha' & _ & He').
  exists a, nd'. split_and!; [by eapply descends_extends|done|lia].
Qed.

(** Appending a node changes no lineage of the existing ones. *)
Lemma parent_of_app ns nd n p :
  parent_of (ns ++ [nd]) n p ↔ parent_of ns n p ∨ (n = length ns ∧ parent nd = Some p).
Proof.
  unfold parent_of. split.
  - intros (x & Hx & Hp). apply lookup_app_Some in Hx as [Hx|[Hlen Hx]].
    + left. by exists x.
    + right. destruct (n - length ns) as [|k] eqn:Hk; [|done].
      cbn in Hx. simplify_eq. split; [lia|done].
  - intros [(x & Hx & Hp)|[-> Hp]].
    + exists x. split; [by apply lookup_app_l_Some|done].
    + exists nd. split; [|done]. by rewrite lookup_app_r, Nat.sub_diag.
Qed.
End lineage.

(** ** Handles *)

Lemma denotes_live st h s :
  denotes st h s → slots st !! slot h = Some s ∧ free s = false.
Proof. by intros (? & ? & ?). Qed.

Lemma denotes_node st h s :
  cap_wf st → denotes st h s →
  node_idx s < length (nodes st) ∧ object_idx s < length (objects st).
Proof. intros Hwf (? & ? & _). by eapply wf_slot. Qed.

Lemma denotes_fun st h s t : denotes st h s → denotes st h t → s = t.
Proof. intros (? & _) (? & _). congruence. Qed.

Lemma wp_lookup_live h (Q : outcome CapError CapSlot → CoreState → Prop) st :
  ((∀ s, ¬ denotes st h s) → Q (Err Invalid) st) →
  (∀ s, denotes st h s → Q (Ok s) st) →
  wp (lookup_live h) Q st.
Proof.
  intros HErr HOk. unfold lookup_live. wp_steps; reflect.
  - apply HErr. intros s (Hs & _). apply lookup_lt_Some in Hs. lia.
  - match goal with H : _ !! _ = None |- _ => apply lookup_ge_None in H end. lia.
  - apply HErr. intros t (Ht & Hf & Hg). simplify_eq. destruct H1 as [?|?]; reflect; congruence.
  - apply HOk. by split_and!.
Qed.

Lemma wp_reject_revoked n (Q : outcome CapError unit → CoreState → Prop) st :
  cap_wf st → n < length (nodes st) →
  (lineage_revoked (nodes st) n → Q (Err Revoked) st) →
  (¬ lineage_revoked (nodes st) n → Q (Ok tt) st) →
  wp (reject_revoked n) Q st.
Proof.
  intros Hwf Hn HErr HOk. unfold reject_revoked.
  destruct (is_revoked_spec st n Hwf Hn) as (b & Hb & Hiff).
  wp_steps; simplify_eq; [apply HErr; by apply Hiff|apply HOk; by intros ?%Hiff].
Qed.

Lemma wp_valid_object ob (Q : outcome CapError CapObject → CoreState → Prop) st :
  ob < length (objects st) →
  (∀ o, objects st !! ob = Some o → valid o = false → Q (Err Invalid) st) →
  (∀ o, objects st !! ob = Some o → valid o = true → Q (Ok o) st) →
  wp (valid_object ob) Q st.
Proof.
  intros Hob HErr HOk. unfold valid_object. wp_steps; reflect; eauto.
  match goal with H : _ !! _ = None |- _ => apply lookup_ge_None in H end. lia.
Qed.

(** What [authorize] established when it returns a slot. *)
Definition authorized (st : CoreState) (h : CapHandle) (req : Rights) (s : CapSlot) : Prop :=
  denotes st h s ∧ contains (rights s) req = true ∧ is_lent s = false ∧
  ¬ lineage_revoked (nodes st) (node_idx s).

Lemma wp_authorize h req (Q : outcome CapError CapSlot → CoreState → Prop) st :
  cap_wf st →
  (∀ e, (∀ s, ¬ authorized st h req s) → Q (Err e) st) →
  (∀ s, authorized st h req s → Q (Ok s) st) →
  wp (authorize h req) Q st.
Proof.
  intros Hwf HErr HOk. unfold authorize. wp_step. apply wp_lookup_live.
  - intros Hn. apply HErr. intros s (? & _). by eapply Hn.
  - intros s Hs. pose proof (denotes_node _ _ _ Hwf Hs) as [Hnode _].
    assert (∀ P, (authorized st h req s → P) → ∀ t, authorized st h req t → P) as Honly.
    { intros P HP t Ht. apply HP. destruct Ht as (Ht & ?). by rewrite (denotes_fun _ _ _ _ Hs Ht). }
    wp_steps; reflect.
    + refine (HErr _ (Honly False _)). intros (_ & ? & _). congruence.
    + refine (HErr _ (Honly False _)). intros (_ & _ & ? & _). congruence.
    + apply wp_reject_revoked; [done|done|intros ?|intros ?; wp_steps].
      * refine (HErr _ (Honly False _)). by intros (_ & _ & _ & ?).
      * apply HOk. by split_and!.
Qed.

(** ** Installing a new capability *)

(** The slot [allocate_slot] picks: a closed one, or a new one at the end. *)
Definition fresh_slot (st : CoreState) (i : nat) (g : Z) : Prop :=
  (∃ s, slots st !! i = Some s ∧ free s = true ∧ slot_generation s = g) ∨
  (i = length (slots st) ∧ g = 1%Z).

(** [st'] is [st] with one more lineage node and slot [i] opened as [nw]. *)
Record installed (st : CoreState) (par : option nat) (i : nat) (nw : CapSlot)
    (st' : CoreState) : Prop := mkInstalled {
  ins_nodes : nodes st' = nodes st ++ [mkNode par 0];
  ins_objects : objects st' = objects st;
  ins_slots : ∀ j, slots st' !! j = if decide (i = j) then Some nw else slots st !! j;
  ins_length : length (slots st') ≤ S (length (slots st));
  ins_fresh : fresh_slot st i (slot_generation nw);
  ins_node : node_idx nw = length (nodes st);
  ins_open : free nw = false;
}.

Lemma fresh_slot_not_live st i g s :
  fresh_slot st i g → slots st !! i = Some s → free s = true ∧ slot_generation s = g.
Proof.
  intros [(t & Ht & ? & ?)|[-> ->]] Hs; [by simplify_eq|].
  apply lookup_lt_Some in Hs. lia.
Qed.

Lemma install_spec st par ob r lent (Q : outcome CapError CapHandle → CoreState → Prop) :
  cap_wf st → length (nodes st) < MAX_CAP_NODES →
  (∀ i nw st', installed st par i nw st' →
    object_idx nw = ob → rights nw = r → is_lent nw = lent →
    Q (Ok (mkHandle i (slot_generation nw))) st') →
  wp (install par ob r lent) Q st.
Proof.
  intros Hwf Hmax HQ. pose proof (wf_slots_size st Hwf).
  unfold install. do 3 wp_step. cbv beta. wp_step. wp_step. unfold allocate_slot.
  do 2 wp_step. cbn [slots with_nodes].
  destruct (list_find _ (slots st)) as [[i s]|] eqn:Hfind.
  - apply list_find_Some in Hfind as (Hs & Hfree & _).
    wp_steps; cbn in *; simplify_eq.
    refine (HQ i (mkSlot (length (nodes st)) ob r (slot_generation _) false lent) _ _ _ _ _);
      [|done..]. split; cbn; auto.
    + intros j. case_decide as Hij; [subst|by apply list_lookup_insert_ne].
      apply list_lookup_insert_eq. by eapply lookup_lt_Some.
    + rewrite length_insert. lia.
    + left. eauto.
  - wp_steps; cbn in *; reflect; unfold MAX_CAP_SLOTS, MAX_CAP_NODES in *; [lia| |].
    { match goal with H : _ !! _ = None |- _ => apply lookup_ge_None in H end.
      rewrite length_app in *. cbn in *. lia. }
    match goal with H : _ !! _ = Some _ |- _ =>
      rewrite lookup_app_r, Nat.sub_diag in H by done; cbn in H end. simplify_eq.
    refine (HQ (length (slots st)) (mkSlot (length (nodes st)) ob r 1 false lent) _ _ _ _ _);
      [|done..]. split; cbn; auto.
    + intros j. rewrite insert_app_r_alt, Nat.sub_diag by done. cbn.
      case_decide as Hij; [subst; by rewrite lookup_app_r, Nat.sub_diag|].
      destruct (decide (j < length (slots st))).
      { by apply lookup_app_l. }
      rewrite (proj2 (lookup_ge_None _ _)), (proj2 (lookup_ge_None _ _)); [done|lia|].
      rewrite length_app. cbn. lia.
    + rewrite length_insert, length_app. cbn. lia.
    + by right.
Qed.

Section installed.
Context (st st' : CoreState) (par : option nat) (i : nat) (nw : CapSlot).
Context (Hwf : cap_wf st) (Hins : installed st par i nw st').

Lemma installed_slot : slots st' !! i = Some nw.
Proof. rewrite (ins_slots _ _ _ _ _ Hins). by case_decide. Qed.

(** The slots that are open afterwards: the new one and the old ones. *)
Lemma installed_live j s :
  slots st' !! j = Some s → free s = false →
  (j = i ∧ s = nw) ∨ (j ≠ i ∧ slots st !! j = Some s).
Proof.
  rewrite (ins_slots _ _ _ _ _ Hins). case_decide; intros; simplify_eq; auto.
Qed.

Lemma installed_old j s :
  slots st !! j = Some s → free s = false → slots st' !! j = Some s.
Proof.
  intros Hs Hf. rewrite (ins_slots _ _ _ _ _ Hins). case_decide; [subst j|done].
  destruct (fresh_slot_not_live _ _ _ _ (ins_fresh _ _ _ _ _ Hins) Hs). congruence.
Qed.

Lemma installed_parent_of n p :
  parent_of (nodes st') n p ↔ parent_of (nodes st) n p ∨ (n = length (nodes st) ∧ par = Some p).
Proof. rewrite (ins_nodes _ _ _ _ _ Hins). apply parent_of_app. Qed.

Lemma installed_extends : cap_extends st st'.
Proof.
  split.
  - intros n nd Hn. exists nd. split_and!; [|done|lia].
    rewrite (ins_nodes _ _ _ _ _ Hins). by apply lookup_app_l_Some.
  - intros j s Hs. rewrite (ins_slots _ _ _ _ _ Hins). case_decide; [subst j|exists s; split; [done|]; by right; auto].
    destruct (fresh_slot_not_live _ _ _ _ (ins_fresh _ _ _ _ _ Hins) Hs).
    exists nw. split; [done|]. right. split; [done|by left].
  - rewrite (ins_objects _ _ _ _ _ Hins). eauto.
Qed.

(** The new capability is a root, or derives from an open one that is not
    lent, refers to the same object and has at least its rights. *)
Definition derives_from : Prop :=
  match par with
  | None => True
  | Some p => ∃ k t, slots st !! k = Some t ∧ free t = false ∧ node_idx t = p ∧
      contains (rights t) (rights nw) = true ∧ object_idx nw = object_idx t ∧ is_lent t = false
  end.

Context (Hmax : length (nodes st) < MAX_CAP_NODES).
Context (Hob : object_idx nw < length (objects st)).
Context (Hder : derives_from).

Lemma installed_attenuated j k s t :
  slots st' !! j = Some s → slots st' !! k = Some t → free s = false → free t = false →
  parent_of (nodes st') (node_idx s) (node_idx t) →
  contains (rights t) (rights s) = true ∧ object_idx s = object_idx t ∧ is_lent t = false.
Proof.
  intros Hs Ht Hfs Hft Hp. rewrite installed_parent_of in Hp.
  assert (node_idx t < length (nodes st)) as Hlt.
  { destruct Hp as [Hp|[_ Hpar]].
    - etrans; [by eapply wf_parent|by eapply parent_of_lt].
    - unfold derives_from in Hder. rewrite Hpar in Hder.
      destruct Hder as (k' & t' & Hk' & Hf' & <- & _). by eapply wf_slot. }
  pose proof (ins_node _ _ _ _ _ Hins) as Hnode.
  destruct (installed_live k t) as [[-> ->]|[Hk Ht']]; [done..|lia|].
  destruct (installed_live j s) as [[-> ->]|[Hj Hs']]; [done..| |].
  - destruct Hp as [Hp%parent_of_lt|[_ Hpar]]; [lia|].
    unfold derives_from in Hder. rewrite Hpar in Hder.
    destruct Hder as (k' & t' & Hk' & Hf' & Hn' & ? & ? & ?).
    assert (k' = k) as -> by (by eapply (wf_unique st Hwf k' k t' t)).
    by simplify_eq.
  - destruct Hp as [Hp|[Hn _]]; [by eapply (wf_attenuated st Hwf j k)|].
    pose proof (wf_slot st Hwf _ _ Hs' Hfs) as [? _]. lia.
Qed.

Lemma installed_wf : cap_wf st'.
Proof.
  pose proof (ins_node _ _ _ _ _ Hins) as Hnode.
  assert (length (nodes st') = S (length (nodes st))) as Hlen.
  { rewrite (ins_nodes _ _ _ _ _ Hins), length_app. cbn. lia. }
  split.
  - intros n p [Hp|[-> Hp]]%installed_parent_of; [by eapply wf_parent|].
    unfold derives_from in Hder. rewrite Hp in Hder.
    destruct Hder as (k & t & Hk & Hf & <- & _). by eapply wf_slot.
  - intros n nd. rewrite (ins_nodes _ _ _ _ _ Hins). intros [Hn|[_ Hn]]%lookup_app_Some.
    + by eapply wf_epoch.
    + destruct (n - _) as [|]; [|done]. cbn in Hn. by simplify_eq.
  - intros j s Hs Hf. rewrite Hlen, (ins_objects _ _ _ _ _ Hins).
    destruct (installed_live j s) as [[-> ->]|[Hj Hs']]; [done..|lia|].
    pose proof (wf_slot st Hwf _ _ Hs' Hf). lia.
  - intros j k s t Hs Ht Hfs Hft Heq.
    destruct (installed_live j s) as [[-> ->]|[Hj Hs']]; [done..| |];
      (destruct (installed_live k t) as [[-> ->]|[Hk Ht']]; [done..| |]); [done| | |].
    + pose proof (wf_slot st Hwf _ _ Ht' Hft). lia.
    + pose proof (wf_slot st Hwf _ _ Hs' Hfs). lia.
    + by eapply (wf_unique st Hwf j k s t).
  - intros j s. rewrite (ins_slots _ _ _ _ _ Hins). case_decide; intros; simplify_eq.
    + destruct (ins_fresh _ _ _ _ _ Hins) as [(t & Ht & _ & <-)|[_ ->]]; [by eapply wf_gen|].
      by unfold u32_max.
    + by eapply wf_gen.
  - pose proof (ins_length _ _ _ _ _ Hins). pose proof (wf_slots_size st Hwf). lia.
  - lia.
  - rewrite (ins_objects _ _ _ _ _ Hins). apply Hwf.
  - apply installed_attenuated.
  - rewrite (ins_objects _ _ _ _ _ Hins). apply Hwf.
Qed.
End installed.

(** ** Closing a slot, bumping an epoch, updating an object *)

Definition released (s : CapSlot) : CapSlot :=
  mkSlot (node_idx s) (object_idx s) (rights s) (slot_generation s + 1) true (is_lent s).

Lemma release_wf st i s :
  cap_wf st → slots st !! i = Some s → (slot_generation s < u32_max)%Z →
  cap_wf (with_slots <[i := released s]> st) ∧
  cap_extends st (with_slots <[i := released s]> st).
Proof.
  intros Hwf Hi Hg. pose proof (lookup_lt_Some _ _ _ Hi) as Hlen.
  assert (∀ j t, <[i := released s]> (slots st) !! j = Some t → free t = false →
            j ≠ i ∧ slots st !! j = Some t) as Hold.
  { intros j t [(-> & <- & _)|[? ?]]%list_lookup_insert_Some; [done|auto]. }
  split.
  - split; cbn; try apply Hwf.
    + intros j t Ht Hf. destruct (Hold _ _ Ht Hf). by eapply wf_slot.
    + intros j k t u Ht Hu Hft Hfu. destruct (Hold _ _ Ht Hft), (Hold _ _ Hu Hfu).
      by apply (wf_unique st Hwf j k).
    + intros j t [(-> & <- & _)|[_ Ht]]%list_lookup_insert_Some; [cbn|by eapply wf_gen].
      pose proof (wf_gen st Hwf _ _ Hi). lia.
    + rewrite length_insert. apply Hwf.
    + intros j k t u Ht Hu Hft Hfu. destruct (Hold _ _ Ht Hft), (Hold _ _ Hu Hfu).
      by apply (wf_attenuated st Hwf j k).
  - split; cbn; [intros n nd ?; exists nd; split_and!; [done|done|lia]| |eauto].
    intros j t Ht. destruct (decide (i = j)) as [<-|Hne].
    + exists (released s). rewrite list_lookup_insert_eq by done. simplify_eq.
      split; [done|]. left. cbn. lia.
    + exists t. rewrite list_lookup_insert_ne by done. split; [done|]. right. auto.
Qed.

Definition bumped (nd : CapNode) : CapNode :=
  mkNode (parent nd) (saturating_add 64 (epoch nd) 1).

Lemma parent_of_bump ns n nd a b :
  ns !! n = Some nd → parent_of (<[n := bumped nd]> ns) a b ↔ parent_of ns a b.
Proof.
  intros Hn. pose proof (lookup_lt_Some _ _ _ Hn). unfold parent_of.
  destruct (decide (n = a)) as [<-|Hne].
  - rewrite list_lookup_insert_eq by done. split; intros (x & Hx & ?); simplify_eq;
      [by exists nd|by exists (bumped nd)].
  - by rewrite list_lookup_insert_ne.
Qed.

Lemma bumped_epoch nd :
  (0 ≤ epoch nd ≤ u64_max)%Z →
  (0 < epoch (bumped nd) ≤ u64_max)%Z ∧ (epoch nd ≤ epoch (bumped nd))%Z.
Proof. unfold bumped, saturating_add, u64_max. cbn [epoch]. lia. Qed.

Lemma bump_wf st n nd :
  cap_wf st → nodes st !! n = Some nd →
  cap_wf (with_nodes <[n := bumped nd]> st) ∧
  cap_extends st (with_nodes <[n := bumped nd]> st).
Proof.
  intros Hwf Hn. pose proof (bumped_epoch nd (wf_epoch st Hwf _ _ Hn)) as [Hb Hle].
  split.
  - split; cbn; try rewrite length_insert; try apply Hwf.
    + intros a b. rewrite parent_of_bump by done. apply Hwf.
    + intros a x [(_ & <- & _)|[_ ?]]%list_lookup_insert_Some; [lia|by eapply wf_epoch].
    + intros i j s t ? ? ? ?. rewrite parent_of_bump by done.
      by apply (wf_attenuated st Hwf i j).
  - split; cbn; [|intros i s ?; exists s; split; [done|by right; auto]|eauto].
    intros a x Ha. destruct (decide (n = a)) as [<-|Hne].
    + exists (bumped nd). rewrite list_lookup_insert_eq by (by eapply lookup_lt_Some).
      simplify_eq. by split_and!.
    + exists x. rewrite list_lookup_insert_ne by done. split_and!; [done|done|lia].
Qed.

Lemma update_object_wf st i o o' :
  cap_wf st → objects st !! i = Some o → kind o' = kind o →
  (valid o' = true → valid o = true) →
  (0 ≤ refcount o' ≤ u64_max)%Z → (1 ≤ object_generation o' ≤ u64_max)%Z →
  cap_wf (with_objects <[i := o']> st) ∧
  cap_extends st (with_objects <[i := o']> st).
Proof.
  intros Hwf Hi Hk Hv Hr Hg. split.
  - split; cbn; try rewrite length_insert; try apply Hwf.
    intros j x [(_ & <- & _)|[_ ?]]%list_lookup_insert_Some; [done|by eapply wf_object].
  - split; cbn; [intros n nd ?; exists nd; split_and!; [done|done|lia]
                |intros j s ?; exists s; split; [done|by right; auto]|].
    intros j x Hx. destruct (decide (i = j)) as [<-|Hne].
    + exists o'. rewrite list_lookup_insert_eq by (by eapply lookup_lt_Some). by simplify_eq.
    + exists x. by rewrite list_lookup_insert_ne.
Qed.

Lemma append_object_wf st o :
  cap_wf st → length (objects st) < MAX_CAP_OBJECTS →
  (0 ≤ refcount o ≤ u64_max)%Z → (1 ≤ object_generation o ≤ u64_max)%Z →
  cap_wf (with_objects (λ l, l ++ [o]) st) ∧
  cap_extends st (with_objects (λ l, l ++ [o]) st).
Proof.
  intros Hwf Hmax Hr Hg. split.
  - split; cbn; try apply Hwf.
    + intros i s Hs Hf. rewrite length_app. pose proof (wf_slot st Hwf _ _ Hs Hf). lia.
    + rewrite length_app. cbn. lia.
    + intros i x [Hx|[_ Hx]]%lookup_app_Some; [by eapply wf_object|].
      destruct (i - _) as [|]; [|done]. cbn in Hx. by simplify_eq.
  - split; cbn; [intros n nd ?; exists nd; split_and!; [done|done|lia]
                |intros j s ?; exists s; split; [done|by right; auto]|].
    intros j x Hx. exists x. split; [by apply lookup_app_l_Some|done].
Qed.

(** ** The operations *)

(** Every operation keeps the invariant and moves along the preorder. *)
Definition evolves (st st' : CoreState) : Prop := cap_wf st' ∧ cap_extends st st'.

Lemma evolves_refl st : cap_wf st → evolves st st.
Proof. by split. Qed.

Lemma evolves_trans st1 st2 st3 : evolves st1 st2 → evolves st2 st3 → evolves st1 st3.
Proof. intros [_ ?] [? ?]. split; [done|by etrans]. Qed.

Lemma wp_reject_no_nodes (Q : outcome CapError unit → CoreState → Prop) st :
  (MAX_CAP_NODES ≤ length (nodes st) → Q (Err Exhausted) st) →
  (length (nodes st) < MAX_CAP_NODES → Q (Ok tt) st) →
  wp reject_no_nodes Q st.
Proof. intros ? ?. unfold reject_no_nodes. wp_steps; reflect; auto. Qed.

(** [grant] and [lend]: an error changes nothing; a success opens exactly one
    slot, whose node is a child of the authorising handle's. *)
Lemma derive_spec lent p req st :
  cap_wf st →
  wp (s ← authorize p req; reject_no_nodes;;
      install (Some (node_idx s)) (object_idx s) (bitand (rights s) req) lent)
     (λ r st', match r with
      | Ok h => ∃ s nw, authorized st p req s ∧ evolves st st' ∧
          installed st (Some (node_idx s)) (slot h) nw st' ∧
          generation h = slot_generation nw ∧ object_idx nw = object_idx s ∧
          rights nw = bitand (rights s) req ∧ is_lent nw = lent
      | Err _ => st' = st ∧
          ((∀ s, ¬ authorized st p req s) ∨ MAX_CAP_NODES ≤ length (nodes st))
      | Panic => False
      end) st.
Proof.
  intros Hwf. wp_step. apply wp_authorize; [done|by auto|]. intros s Hs.
  wp_step. apply wp_reject_no_nodes; [by auto|]. intros Hmax.
  destruct (Hs) as (Hden & Hc & Hl & Hr). pose proof (denotes_node _ _ _ Hwf Hden) as [_ Hob].
  apply install_spec; [done..|]. intros i nw st' Hins Hnob Hrt Hlent.
  exists s, nw. split_and!; try done. split.
  - eapply installed_wf; [done|done|done|by rewrite Hnob|]. exists (slot p), s. destruct (denotes_live _ _ _ Hden).
    split_and!; try done. rewrite Hrt. apply contains_bitand_l.
  - by eapply installed_extends.
Qed.

Lemma create_object_spec k st :
  cap_wf st →
  wp (create_object k)
     (λ r st', match r with
      | Ok h => ∃ nw st0, evolves st st' ∧ installed st0 None (slot h) nw st' ∧
          st0 = with_objects (λ l, l ++ [mkObject k 0 1 true]) st ∧
          generation h = slot_generation nw ∧ object_idx nw = length (objects st) ∧
          rights nw = rights_all ∧ is_lent nw = false
      | Err _ => st' = st
      | Panic => False
      end) st.
Proof.
  intros Hwf. unfold create_object. wp_steps; reflect; [done|].
  destruct (append_object_wf st (mkObject k 0 1 true) Hwf) as [Hwf0 Hext0];
    [lia|done|done|].
  apply install_spec; [done|cbn; lia|]. intros i nw st' Hins Hob Hr Hl.
  eexists nw, _. split_and!; try done. split.
  - eapply installed_wf; [done..| |done]. rewrite Hob. cbn. rewrite length_app. cbn. lia.
  - etrans; [done|]. by eapply installed_extends.
Qed.

Lemma release_slot_spec st i s :
  cap_wf st → slots st !! i = Some s →
  wp (release_slot i)
     (λ r st', match r with
      | Ok _ => evolves st st' ∧ st' = with_slots <[i := released s]> st
      | Err _ => False
      | Panic => st' = st ∧ slot_generation s = u32_max
      end) st.
Proof.
  intros Hwf Hi. pose proof (wf_gen st Hwf _ _ Hi). unfold release_slot, u32_max in *.
  wp_steps; simplify_eq;
    match goal with
    | H : fits _ _ = None |- _ => rewrite fits_None in H
    | H : fits _ _ = Some _ |- _ => apply fits_Some in H as [-> ?]
    end; [split; [done|lia]|]. split; [|done]. split; apply release_wf; unfold u32_max; auto; lia.
Qed.

Lemma close_spec h st :
  cap_wf st →
  wp (close h)
     (λ r st', match r with
      | Ok _ => ∃ s, denotes st h s ∧ evolves st st' ∧
          st' = with_slots <[slot h := released s]> st
      | Err e => st' = st ∧ e = Invalid ∧ ∀ s, ¬ denotes st h s
      | Panic => st' = st ∧ generation h = u32_max ∧ ∃ s, denotes st h s
      end) st.
Proof.
  intros Hwf. unfold close. wp_step. apply wp_lookup_live; [done|]. intros s Hs.
  destruct (Hs) as (Hi & _ & Hg). eapply wp_mono; [by eapply release_slot_spec|].
  intros [[]|e|] st'; [intros [? ->]; eauto|done|]. intros [-> ?].
  split_and!; [done|congruence|eauto].
Qed.

Lemma revoke_spec h st :
  cap_wf st →
  wp (revoke h)
     (λ r st', match r with
      | Ok _ => ∃ s nd, denotes st h s ∧ nodes st !! node_idx s = Some nd ∧ evolves st st' ∧
          st' = with_nodes <[node_idx s := bumped nd]> st
      | Err e => st' = st ∧ e = Invalid ∧ ∀ s, ¬ denotes st h s
      | Panic => False
      end) st.
Proof.
  intros Hwf. unfold revoke. wp_step. apply wp_lookup_live; [done|]. intros s Hs.
  pose proof (denotes_node _ _ _ Hwf Hs) as [Hn _]. wp_steps.
  - match goal with H : _ !! _ = None |- _ => apply lookup_ge_None in H end. lia.
  - eexists s, _. split_and!; [done|done| |done]. split; by apply bump_wf.
Qed.

(** [transfer]: the new handle is a root of the derivation tree and the source
    handle is closed.  The only panic is the overflow of the source slot's
    generation. *)
Lemma transfer_spec src req st :
  cap_wf st →
  wp (transfer src req)
     (λ r st', match r with
      | Ok h => ∃ s nw st1, authorized st src req s ∧ evolves st st' ∧
          installed st None (slot h) nw st1 ∧ slot h ≠ slot src ∧
          st' = with_slots <[slot src := released s]> st1 ∧
          generation h = slot_generation nw ∧ object_idx nw = object_idx s ∧
          rights nw = bitand (rights s) req ∧ is_lent nw = false
      | Err _ => st' = st
      | Panic => evolves st st' ∧ generation src = u32_max ∧ ∃ s, denotes st src s
      end) st.
Proof.
  intros Hwf. unfold transfer. wp_step. apply wp_authorize; [done|done|]. intros s Hs.
  wp_step. apply wp_reject_no_nodes; [done|]. intros Hmax.
  destruct (Hs) as (Hden & Hc & Hl & Hr). pose proof (denotes_node _ _ _ Hwf Hden) as [_ Hob].
  destruct (Hden) as (Hi & Hf & Hg).
  wp_step. apply install_spec; [done..|]. intros i nw st1 Hins Hnob Hrt Hlent.
  pose proof (installed_old _ _ _ _ _ Hins _ _ Hi Hf) as Hi1.
  assert (evolves st st1) as Hev.
  { split; [|by eapply installed_extends].
    eapply installed_wf; [done|done|done|by rewrite Hnob|done]. }
  assert (i ≠ slot src) as Hne.
  { intros ->. destruct (fresh_slot_not_live _ _ _ _ (ins_fresh _ _ _ _ _ Hins) Hi). congruence. }
  wp_step. eapply wp_mono; [apply release_slot_spec; [apply Hev|done]|].
  intros [[]|e|] st'; [|done|].
  - intros [Hev' ->]. wp_step. exists s, nw, st1.
    split_and!; try done. by eapply evolves_trans.
  - intros [-> Hmg]. split_and!; [done|congruence|eauto].
Qed.

Lemma destroy_owned_spec h st :
  cap_wf st →
  wp (destroy_owned h)
     (λ r st', evolves st st' ∧ match r with
      | Ok _ => ∃ s nd, denotes st h s ∧ nodes st !! node_idx s = Some nd ∧
          st' = with_slots <[slot h := released s]> (with_nodes <[node_idx s := bumped nd]> st)
      | Err _ => st' = st ∧ ∀ s, ¬ denotes st h s
      | Panic => generation h = u32_max ∧ ∃ s, denotes st h s
      end) st.
Proof.
  intros Hwf. unfold destroy_owned. wp_step. wp_step.
  eapply wp_mono; [by apply revoke_spec|]. intros [[]|e|] st1; [| |done].
  - intros (s & nd & Hs & Hnd & Hev & ->).
    eapply wp_mono; [apply close_spec, Hev|]. intros [[]|e|] st'.
    + intros (s' & Hs' & Hev' & ->). split; [by eapply evolves_trans|].
      exists s, nd. split_and!; [done|done|]. by rewrite (denotes_fun _ _ _ _ Hs Hs').
    + intros (_ & _ & Hn). by destruct (Hn s).
    + intros (-> & ? & _). split; [done|]. eauto.
  - intros (-> & _ & Hn). eapply wp_mono; [by apply close_spec|]. intros [[]|e'|] st'.
    + intros (s & ? & _). by destruct (Hn s).
    + intros (-> & _ & _). split; [by apply evolves_refl|done].
    + intros (-> & ? & ?). split; [by apply evolves_refl|done].
Qed.

Lemma usable_inv st h needed s :
  denotes st h s → usable st h needed →
  contains (rights s) needed = true ∧ ¬ lineage_revoked (nodes st) (node_idx s) ∧
  ∃ o, objects st !! object_idx s = Some o ∧ valid o = true.
Proof.
  intros Hs (t & o & Ht & ? & ? & ? & ?). rewrite (denotes_fun _ _ _ _ Hs Ht). eauto.
Qed.

(** A passive check never changes the state, and succeeds exactly on the
    handles that are [usable]. *)
Lemma check_rights_spec h needed st :
  cap_wf st →
  wp (check_rights h needed)
     (λ r st', st' = st ∧ match r with
      | Ok _ => usable st h needed
      | Err e => ¬ usable st h needed ∧ (e = Revoked → ∃ s, denotes st h s ∧ lineage_revoked (nodes st) (node_idx s))
      | Panic => False
      end) st.
Proof.
  intros Hwf. unfold check_rights. wp_step. apply wp_lookup_live.
  { intros Hn. split; [done|]. split; [|done]. intros (s & o & ? & _). by eapply Hn. }
  intros s Hs. pose proof (denotes_node _ _ _ Hwf Hs) as [Hnode Hob].
  pose proof (usable_inv _ _ needed _ Hs) as Honly.
  wp_steps; reflect.
  - split; [done|]. split; [|done]. intros (? & ? & o' & ? & ?)%Honly. congruence.
  - apply wp_reject_revoked; [done|done|intros Hr|intros Hr; wp_steps].
    + split; [done|]. split; [by intros (? & ? & _)%Honly|eauto].
    + apply wp_valid_object; [done|intros o Ho Hv|intros o Ho Hv; wp_steps].
      * split; [done|]. split; [|done]. intros (? & ? & o' & ? & ?)%Honly. congruence.
      * split; [done|]. by exists s, o.
Qed.

Lemma check_rights_usable h needed st :
  cap_wf st → (check_rights h needed st).1 = Ok tt ↔ usable st h needed.
Proof.
  intros Hwf. pose proof (check_rights_spec h needed st Hwf) as Hspec. unfold wp in Hspec.
  destruct (check_rights h needed st) as [[[]|e|] st']; cbn in *; destruct Hspec as [-> Hspec].
  - done.
  - split; [done|]. intros ?. by destruct Hspec.
  - done.
Qed.

Lemma deref_spec h flags st :
  cap_wf st →
  wp (deref h flags)
     (λ r st', match r with
      | Ok ob => evolves st st' ∧ usable st h flags ∧ ∃ s o, denotes st h s ∧
          ob = object_idx s ∧ objects st !! ob = Some o ∧ valid o = true ∧
          st' = with_objects <[ob := mkObject (kind o) (refcount o + 1) (object_generation o) true]> st
      | Err _ => st' = st ∧ ¬ usable st h flags
      | Panic => st' = st ∧ ∃ s o, denotes st h s ∧ objects st !! object_idx s = Some o ∧
          refcount o = u64_max
      end) st.
Proof.
  intros Hwf. unfold deref. wp_step. apply wp_lookup_live.
  { intros Hn. split; [done|]. intros (s & o & ? & _). by eapply Hn. }
  intros s Hs. pose proof (denotes_node _ _ _ Hwf Hs) as [Hnode Hob].
  pose proof (usable_inv _ _ flags _ Hs) as Honly.
  wp_steps; reflect.
  - split; [done|]. intros (? & ? & o' & ? & ?)%Honly. congruence.
  - apply wp_reject_revoked; [done|done|intros Hr|intros Hr; wp_step].
    + split; [done|]. by intros (? & ? & _)%Honly.
    + apply wp_valid_object; [done|intros o Ho Hv|intros o Ho Hv; pose proof (wf_object st Hwf _ _ Ho); wp_steps].
      * split; [done|]. intros (? & ? & o' & ? & ?)%Honly. congruence.
      * rewrite fits_None in *. unfold u64_max in *.
        split; [done|]. exists s, o. split_and!; [done|done|lia].
      * match goal with H : fits _ _ = Some _ |- _ => apply fits_Some in H as [-> ?] end.
        split; [split; eapply update_object_wf; cbn; unfold u64_max in *; (done || lia)|].
        split; [by exists s, o|]. exists s, o. by split_and!.
Qed.

Lemma drop_access_spec ob o st :
  cap_wf st → objects st !! ob = Some o →
  wp (drop_access ob)
     (λ r st', evolves st st' ∧ match r with
      | Ok _ => st' = if valid o && (0 <? refcount o)%Z
                      then with_objects <[ob := mkObject (kind o) (refcount o - 1)
                             (if (refcount o =? 1)%Z then object_generation o + 1
                              else object_generation o)%Z
                             (negb (refcount o =? 1)%Z)]> st
                      else st
      | Err _ => False
      | Panic => st' = st ∧ object_generation o = u64_max
      end) st.
Proof.
  intros Hwf Ho. pose proof (wf_object st Hwf _ _ Ho). unfold drop_access.
  wp_steps; simplify_eq. destruct (valid o && (0 <? refcount o)%Z) eqn:Hg; wp_steps;
    [|by split; [apply evolves_refl|]]. reflect.
  replace (refcount o =? 1)%Z with (refcount o - 1 =? 0)%Z
    by (destruct (Z.eqb_spec (refcount o - 1) 0), (Z.eqb_spec (refcount o) 1); done || lia).
  destruct (refcount o - 1 =? 0)%Z eqn:Hone; reflect; wp_steps.
  - rewrite fits_None in *. unfold u64_max in *.
    split; [by apply evolves_refl|]. split; [done|lia].
  - match goal with H : fits _ _ = Some _ |- _ => apply fits_Some in H as [-> ?] end.
    replace (refcount o - 1)%Z with 0%Z by lia.
    split; [split; eapply update_object_wf; cbn; unfold u64_max in *; (done || lia)|done].
  - split; [split; eapply update_object_wf; cbn; unfold u64_max in *; (done || lia)|done].
Qed.
