(* ===== verification/CapProps.v ===== *)
(** * The capability core: theorems

    The properties of the capability space over every reachable state and every
    continuation of it: invariant and absence of panics, decidability of
    revocation, cascading and permanent revocation, isolation, permanence of
    closing, attenuation, confinement of lent capabilities, transfer, object
    lifetime, device ports and lend expiry.  Each property with hypotheses is
    followed by a witness at a concrete capability space. *)
From S2P Require Import Prelude Abi Cap CapInv.

(** ** Steps *)

Lemma evolves_exec c st :
  cap_wf st → wp (cap_exec c) (λ r st', r = Ok tt → evolves st st') st.
Proof.
  intros Hwf. pose proof (evolves_refl st Hwf) as Hid.
  destruct c as [k|h r|h r|h r|h|h|h|h r|ob]; cbn.
  1-8: wp_step.
  - eapply wp_mono; [by apply create_object_spec|].
    intros [h|e|] st'; [intros (nw & st0 & ? & _)|intros ->|]; auto; done.
  - eapply wp_mono; [by apply derive_spec|].
    intros [h'|e|] st'; [intros (s & nw & _ & ? & _)|intros [-> _]|]; auto; done.
  - eapply wp_mono; [by apply derive_spec|].
    intros [h'|e|] st'; [intros (s & nw & _ & ? & _)|intros [-> _]|]; auto; done.
  - eapply wp_mono; [by apply transfer_spec|].
    intros [h'|e|] st'; [intros (s & nw & st1 & _ & ? & _)|intros ->|]; auto; done.
  - eapply wp_mono; [by apply close_spec|].
    intros [[]|e|] st'; [intros (s & _ & ? & _)|intros (-> & _)|]; auto; done.
  - eapply wp_mono; [by apply revoke_spec|].
    intros [[]|e|] st'; [intros (s & nd & _ & _ & ? & _)|intros (-> & _)|]; auto; done.
  - eapply wp_mono; [by apply destroy_owned_spec|].
    intros [[]|e|] st' [? _]; auto; done.
  - eapply wp_mono; [by apply deref_spec|].
    intros [o|e|] st'; [intros [? _]|intros (-> & _)|]; auto; done.
  - destruct (objects st !! ob) as [o|] eqn:Ho.
    + eapply wp_mono; [by eapply drop_access_spec|]. intros r st' [? _]. auto.
    + unfold drop_access. wp_steps; simplify_eq. done.
Qed.

Lemma evolves_step st st' : cap_wf st → cap_step st st' → evolves st st'.
Proof.
  intros Hwf [c Hc]. pose proof (evolves_exec c st Hwf) as H.
  unfold wp in H. rewrite Hc in H. auto.
Qed.

Lemma evolves_steps st st' : cap_wf st → rtc cap_step st st' → evolves st st'.
Proof.
  intros Hwf. induction 1 as [|st1 st2 st3 Hstep _ IH] in Hwf |- *; [by apply evolves_refl|].
  pose proof (evolves_step _ _ Hwf Hstep) as Hev.
  eapply evolves_trans; [done|]. apply IH, Hev.
Qed.

Lemma reachable_wf st : cap_reachable st → cap_wf st.
Proof. apply evolves_steps, cap_wf_init. Qed.

(** Running a list of calls, to exhibit reachable states. *)
Fixpoint run_calls (cs : list cap_call) (st : CoreState) : option CoreState :=
  match cs with
  | [] => Some st
  | c :: cs => match cap_exec c st with
               | (Ok _, st') => run_calls cs st'
               | _ => None
               end
  end.

Definition state_after (cs : list cap_call) : CoreState :=
  default (mkCore [] [] []) (run_calls cs (mkCore [] [] [])).

Lemma run_calls_steps cs st st' : run_calls cs st = Some st' → rtc cap_step st st'.
Proof.
  revert st. induction cs as [|c cs IH]; cbn; intros st H; [by simplify_eq|].
  destruct (cap_exec c st) as [[[]|e|] st1] eqn:Hc; try done.
  eapply rtc_l; [by exists c|by apply IH].
Qed.

Lemma state_after_reachable cs : cap_reachable (state_after cs).
Proof.
  unfold state_after, cap_reachable. destruct (run_calls cs _) as [st|] eqn:H; cbn.
  - by eapply run_calls_steps.
  - apply rtc_refl.
Qed.

(** ** Permanence *)

(** A slot that has moved past a handle's generation never comes back to it. *)
Lemma stale_forever st st' h s :
  cap_extends st st' → slots st !! slot h = Some s → (generation h < slot_generation s)%Z →
  ∀ s', ¬ denotes st' h s'.
Proof.
  intros Hext Hs Hg s' (Hs' & _ & Hg'). destruct (ext_slots _ _ Hext _ _ Hs) as (t & Ht & Hc).
  simplify_eq. destruct Hc as [?|[? _]]; lia.
Qed.

Lemma denotes_back st st' h s s' :
  cap_extends st st' → denotes st h s → denotes st' h s' → s' = s.
Proof.
  intros Hext (Hs & Hf & Hg) (Hs' & _ & Hg'). destruct (ext_slots _ _ Hext _ _ Hs) as (t & Ht & Hc).
  simplify_eq. destruct Hc as [?|[_ [?| ->]]]; [lia|congruence|done].
Qed.

Lemma revoked_unusable st st' h s :
  cap_extends st st' → denotes st h s → lineage_revoked (nodes st) (node_idx s) →
  ∀ req, ¬ usable st' h req.
Proof.
  intros Hext Hs Hr req (s' & o & Hs' & _ & Hn & _).
  rewrite (denotes_back _ _ _ _ _ Hext Hs Hs') in Hn.
  by apply Hn, (lineage_revoked_extends st).
Qed.

Lemma check_rights_fails st h req :
  cap_wf st → ¬ usable st h req → (check_rights h req st).1 ≠ Ok tt.
Proof. intros Hwf Hu ?%check_rights_usable; done. Qed.

(** After bumping the epoch of [n], exactly the lineages through [n] are revoked
    in addition to those that were. *)
Lemma descends_bump ns n nd a b :
  ns !! n = Some nd → descends (<[n := bumped nd]> ns) a b ↔ descends ns a b.
Proof.
  intros Hn. unfold descends. split; induction 1 as [|x y z Hxy _ IH]; try apply rtc_refl;
    (eapply rtc_l; [by eapply parent_of_bump|done]).
Qed.

Lemma lineage_revoked_bump ns n nd m :
  ns !! n = Some nd → (0 ≤ epoch nd ≤ u64_max)%Z →
  lineage_revoked (<[n := bumped nd]> ns) m ↔ lineage_revoked ns m ∨ descends ns m n.
Proof.
  intros Hn He. pose proof (bumped_epoch nd He) as [Hpos Hle].
  pose proof (lookup_lt_Some _ _ _ Hn). unfold lineage_revoked. split.
  - intros (a & x & Hd & Hx & Hex). rewrite descends_bump in Hd by done.
    apply list_lookup_insert_Some in Hx as [(<- & _ & _)|[_ Hx]]; [by right|left; eauto].
  - intros [(a & x & Hd & Hx & Hex)|Hd].
    + exists a. destruct (decide (n = a)) as [<-|Hne].
      * exists (bumped nd). rewrite descends_bump, list_lookup_insert_eq by done. split_and!; [done..|lia].
      * exists x. rewrite descends_bump, list_lookup_insert_ne by done. by split_and!.
    + exists n, (bumped nd). rewrite descends_bump, list_lookup_insert_eq by done. split_and!; [done..|lia].
Qed.

Lemma revoke_run st st1 h s :
  cap_wf st → revoke h st = (Ok tt, st1) → denotes st h s →
  ∃ nd, nodes st !! node_idx s = Some nd ∧ evolves st st1 ∧
    st1 = with_nodes <[node_idx s := bumped nd]> st.
Proof.
  intros Hwf Hrev Hs. pose proof (revoke_spec h st Hwf) as Hspec.
  eapply wp_run in Hspec; [|exact Hrev]. destruct Hspec as (t & nd & Ht & ? & ? & ->).
  pose proof (denotes_fun _ _ _ _ Hs Ht) as <-. eauto.
Qed.

(** The slot behind a handle that was released stays past its generation. *)
Lemma released_forever st0 st st2 h s :
  denotes st0 h s → slots st !! slot h = Some (released s) → cap_extends st st2 →
  ∀ s', ¬ denotes st2 h s'.
Proof.
  intros (_ & _ & Hg) Hs Hext. eapply stale_forever; [done..|]. cbn. lia.
Qed.

Lemma undenoted_check_invalid st h req :
  (∀ s, ¬ denotes st h s) → (check_rights h req st).1 = Err Invalid.
Proof.
  intros Hn. change (wp (check_rights h req) (λ r _, r = Err Invalid) st).
  unfold check_rights. wp_step. apply wp_lookup_live; [done|]. intros s' Hs'. by destruct (Hn s').
Qed.

(** ** Lineages after a derivation *)

Lemma lineage_revoked_app_old st nd n :
  cap_wf st → n < length (nodes st) →
  lineage_revoked (nodes st ++ [nd]) n ↔ lineage_revoked (nodes st) n.
Proof.
  intros Hwf. induction (lt_wf n) as [n _ IH]. intros Hn.
  destruct (lookup_lt_is_Some_2 _ _ Hn) as [x Hx].
  rewrite (lineage_revoked_unfold _ _ _ Hx).
  rewrite (lineage_revoked_unfold _ n x) by by apply lookup_app_l_Some.
  apply or_iff_compat_l. apply exist_proper. intros p.
  split; intros [Hp Hr]; (split; [done|]); revert Hr; apply IH;
    try (apply (wf_parent st Hwf); by exists x);
    (etrans; [apply (wf_parent st Hwf); by exists x|done]).
Qed.

Lemma lineage_revoked_app_new st par :
  cap_wf st → (∀ p, par = Some p → p < length (nodes st)) →
  lineage_revoked (nodes st ++ [mkNode par 0]) (length (nodes st)) ↔
    ∃ p, par = Some p ∧ lineage_revoked (nodes st) p.
Proof.
  intros Hwf Hpar. rewrite (lineage_revoked_unfold _ _ (mkNode par 0))
    by by rewrite lookup_app_r, Nat.sub_diag.
  cbn. split.
  - intros [?|(p & -> & Hr)]; [lia|]. exists p. split; [done|].
    revert Hr. apply lineage_revoked_app_old; auto.
  - intros (p & -> & Hr). right. exists p. split; [done|]. revert Hr.
    apply lineage_revoked_app_old; auto.
Qed.

Section after_install.
Context (st st' : CoreState) (par : option nat) (i : nat) (nw : CapSlot).
Context (Hwf : cap_wf st) (Hins : installed st par i nw st').
Context (Hpar : ∀ p, par = Some p → p < length (nodes st)).

Lemma installed_denotes : denotes st' (mkHandle i (slot_generation nw)) nw.
Proof.
  split_and!; cbn; [by eapply installed_slot|apply (ins_open _ _ _ _ _ Hins)|done].
Qed.

Lemma installed_denotes_old h s :
  h ≠ mkHandle i (slot_generation nw) → denotes st' h s ↔ denotes st h s.
Proof.
  intros Hne. unfold denotes. rewrite (ins_slots _ _ _ _ _ Hins). case_decide as Hi; [|done].
  split; intros (Hs & Hf & Hg); simplify_eq.
  - destruct h; cbn in *. congruence.
  - destruct (fresh_slot_not_live _ _ _ _ (ins_fresh _ _ _ _ _ Hins) Hs). congruence.
Qed.

Lemma installed_revoked_old n :
  n < length (nodes st) → lineage_revoked (nodes st') n ↔ lineage_revoked (nodes st) n.
Proof. rewrite (ins_nodes _ _ _ _ _ Hins). by apply lineage_revoked_app_old. Qed.

Lemma installed_revoked_new :
  lineage_revoked (nodes st') (node_idx nw) ↔ ∃ p, par = Some p ∧ lineage_revoked (nodes st) p.
Proof.
  rewrite (ins_nodes _ _ _ _ _ Hins), (ins_node _ _ _ _ _ Hins).
  by apply lineage_revoked_app_new.
Qed.

Lemma installed_usable_old h r :
  h ≠ mkHandle i (slot_generation nw) → usable st' h r ↔ usable st h r.
Proof.
  intros Hne. unfold usable. rewrite (ins_objects _ _ _ _ _ Hins).
  pose proof (λ s, installed_denotes_old h s Hne) as Hden.
  split; intros (s & o & Hs & ? & Hr & ? & ?); exists s, o.
  - apply Hden in Hs as Hs0. destruct (denotes_node _ _ _ Hwf Hs0) as [Hn _].
    rewrite installed_revoked_old in Hr by done. by split_and!.
  - destruct (denotes_node _ _ _ Hwf Hs) as [Hn _].
    rewrite <-installed_revoked_old in Hr by done. split_and!; try done. by apply Hden.
Qed.

Lemma installed_usable_new r :
  usable st' (mkHandle i (slot_generation nw)) r ↔
    contains (rights nw) r = true ∧
    ¬ (∃ p, par = Some p ∧ lineage_revoked (nodes st) p) ∧
    ∃ o, objects st !! object_idx nw = Some o ∧ valid o = true.
Proof.
  rewrite <-installed_revoked_new. unfold usable. rewrite (ins_objects _ _ _ _ _ Hins). split.
  - intros (s & o & Hs & ? & ? & ? & ?).
    rewrite (denotes_fun _ _ _ _ Hs installed_denotes) in *. eauto.
  - intros (? & ? & o & ? & ?). exists nw, o.
    split_and!; try done; apply installed_denotes.
Qed.
End after_install.

(** What a panic of an entry point says about the space it started from. *)
Definition counter_at_max (st : CoreState) (c : cap_call) : Prop :=
  (∃ i s, slots st !! i = Some s ∧ slot_generation s = u32_max) ∨
  (∃ i o, objects st !! i = Some o ∧ (refcount o = u64_max ∨ object_generation o = u64_max)) ∨
  (∃ ob, c = CallDrop ob ∧ length (objects st) ≤ ob).

Lemma denotes_at_max st c h :
  generation h = u32_max → (∃ s, denotes st h s) → counter_at_max st c.
Proof. intros ? (s & Hs & _ & Hg). left. exists (slot h), s. split; [done|congruence]. Qed.

Lemma panic_cause c st :
  cap_wf st → wp (cap_exec c) (λ r _, r = Panic → counter_at_max st c) st.
Proof.
  intros Hwf. destruct c as [k|h r|h r|h r|h|h|h|h r|ob]; cbn.
  1-8: wp_step.
  - eapply wp_mono; [by apply create_object_spec|]. by intros [].
  - eapply wp_mono; [by apply derive_spec|]. by intros [].
  - eapply wp_mono; [by apply derive_spec|]. by intros [].
  - eapply wp_mono; [by apply transfer_spec|]. intros [] st'; [done..|].
    intros (_ & ? & ?) _. by eapply denotes_at_max.
  - eapply wp_mono; [by apply close_spec|]. intros [] st'; [done..|].
    intros (_ & ? & ?) _. by eapply denotes_at_max.
  - eapply wp_mono; [by apply revoke_spec|]. by intros [].
  - eapply wp_mono; [by apply destroy_owned_spec|]. intros [] st' [_ H]; [done..|].
    destruct H as (? & ?). intros _. by eapply denotes_at_max.
  - eapply wp_mono; [by apply deref_spec|]. intros [] st'; [done..|].
    intros (_ & s & o & _ & Ho & Hm) _. right. left. eauto.
  - destruct (objects st !! ob) as [o|] eqn:Ho.
    + eapply wp_mono; [by eapply drop_access_spec|]. intros [] st' [_ H]; [done..|].
      destruct H as [_ ?]. intros _. right. left. eauto.
    + unfold drop_access. wp_steps; simplify_eq. intros _. right. right.
      exists ob. split; [done|]. by apply lookup_ge_None.
Qed.

(** ** The properties *)

(** C1: Every reachable capability space is well formed: lineages are acyclic
    and in range, an open slot refers to an existing node and object, two open
    slots never share a node, a directly derived open capability has at most
    the rights of the one it derives from and refers to the same object, no
    capability derives from a lent one, and the tables never exceed their
    limits. *)
Theorem cap_reachable_invariant (st : CoreState) (Hr : cap_reachable st) : cap_wf st.
Proof. by apply reachable_wf. Qed.

(** In a reachable space an entry point panics only if a 32-bit slot
    generation, a 64-bit reference count or a 64-bit object generation has
    reached its maximum, or an access guard is dropped for an object that was
    never allocated: no index is ever out of range and no lineage walk loops. *)
Theorem cap_panics_only_on_overflow (st st' : CoreState) (c : cap_call)
    (Hr : cap_reachable st) (Hp : cap_exec c st = (Panic, st')) :
  (∃ i s, slots st !! i = Some s ∧ slot_generation s = u32_max) ∨
  (∃ i o, objects st !! i = Some o ∧ (refcount o = u64_max ∨ object_generation o = u64_max)) ∨
  (∃ ob, c = CallDrop ob ∧ length (objects st) ≤ ob).
Proof.
  eapply (wp_run (cap_exec c) (λ r _, r = Panic → counter_at_max st c)); [|exact Hp|done].
  by apply panic_cause, reachable_wf.
Qed.

(** The loop of [is_revoked] terminates on every node of a reachable space
    and answers whether the node or one of its ancestors has been revoked. *)
Theorem is_revoked_decides_lineage (st : CoreState) (n : nat)
    (Hr : cap_reachable st) (Hn : n < length (nodes st)) :
  ∃ b, is_revoked st n = Some b ∧ (b = true ↔ lineage_revoked (nodes st) n).
Proof. apply is_revoked_spec; [by apply reachable_wf|done]. Qed.

(** C2: Revocation cascades and is permanent: once a handle has been revoked, no
    open handle derived from it, however indirectly, passes a check for any
    rights, in that space or in any later one. *)
Theorem revoke_cascades_forever (st st1 st2 : CoreState) (h h' : CapHandle) (s s' : CapSlot)
    (req : Rights) (Hr : cap_reachable st) (Hrev : revoke h st = (Ok tt, st1))
    (Hs : denotes st h s) (Hs' : denotes st h' s')
    (Hd : descends (nodes st) (node_idx s') (node_idx s)) (Hlater : rtc cap_step st1 st2) :
  (check_rights h' req st2).1 ≠ Ok tt.
Proof.
  pose proof (reachable_wf _ Hr) as Hwf.
  destruct (revoke_run _ _ _ _ Hwf Hrev Hs) as (nd & Hnd & [Hwf1 Hext] & ->).
  destruct (evolves_steps _ _ Hwf1 Hlater) as [Hwf2 Hext2].
  apply check_rights_fails; [done|]. eapply revoked_unusable; [done|exact Hs'|].
  cbn. apply lineage_revoked_bump; [done|by eapply (wf_epoch st)|by right].
Qed.

(** Revocation is confined to the lineage: a check of any other handle gives
    exactly the result it gave before. *)
Theorem revoke_isolates_siblings (st st1 : CoreState) (h h' : CapHandle) (s s' : CapSlot)
    (req : Rights) (Hr : cap_reachable st) (Hrev : revoke h st = (Ok tt, st1))
    (Hs : denotes st h s) (Hs' : denotes st h' s')
    (Hd : ¬ descends (nodes st) (node_idx s') (node_idx s)) :
  (check_rights h' req st1).1 = Ok tt ↔ (check_rights h' req st).1 = Ok tt.
Proof.
  pose proof (reachable_wf _ Hr) as Hwf.
  destruct (revoke_run _ _ _ _ Hwf Hrev Hs) as (nd & Hnd & [Hwf1 Hext] & ->).
  rewrite !check_rights_usable by done. unfold usable.
  split; intros (u & o & Hu & ? & Hn & ? & ?); exists u, o;
    pose proof (denotes_fun _ _ _ _ Hs' Hu) as <-; split_and!; try done;
    revert Hn; cbn; rewrite lineage_revoked_bump by (done || by eapply (wf_epoch st)); tauto.
Qed.

(** C13: A closed handle is dead for good: whatever happens afterwards, also when
    its slot is reused, it never denotes a capability again. *)
Theorem closed_handle_is_dead (st st1 st2 : CoreState) (h : CapHandle) (req : Rights)
    (Hr : cap_reachable st) (Hc : close h st = (Ok tt, st1)) (Hlater : rtc cap_step st1 st2) :
  (∀ s, ¬ denotes st2 h s) ∧ (check_rights h req st2).1 = Err Invalid.
Proof.
  pose proof (reachable_wf _ Hr) as Hwf. pose proof (close_spec h st Hwf) as Hspec.
  eapply wp_run in Hspec; [|exact Hc]. destruct Hspec as (s & Hden & [Hwf1 _] & ->).
  destruct (evolves_steps _ _ Hwf1 Hlater) as [Hwf2 Hext2].
  assert (∀ s', ¬ denotes st2 h s'); [|by auto using undenoted_check_invalid].
  eapply released_forever; [done| |done]. cbn. apply list_lookup_insert_eq.
  eapply lookup_lt_Some, Hden.
Qed.

(** [grant] attenuates: the new handle opens a child of the granting one
    for the same object, passes a check exactly for the rights that were
    requested (which the granting handle has), and no other handle's checks
    change. *)
Theorem grant_attenuates (st st1 : CoreState) (p h : CapHandle) (req : Rights)
    (Hr : cap_reachable st) (Hg : grant p req st = (Ok h, st1)) :
  ∃ s nw, denotes st p s ∧ contains (rights s) req = true ∧ denotes st1 h nw ∧
    object_idx nw = object_idx s ∧ parent_of (nodes st1) (node_idx nw) (node_idx s) ∧
    (∀ r, usable st1 h r ↔ contains req r = true ∧
       ∃ o, objects st !! object_idx s = Some o ∧ valid o = true) ∧
    (∀ h' r, h' ≠ h → usable st1 h' r ↔ usable st h' r).
Proof.
  pose proof (reachable_wf _ Hr) as Hwf. unfold grant in Hg.
  destruct (wp_result _ _ _ _ _ Hg (derive_spec false p req st Hwf))
    as (s & nw & (Hs & Hc & Hl & Hnr) & Hev & Hins & Hgen & Hob & Hrt & _).
  assert (h = mkHandle (slot h) (slot_generation nw)) as -> by (destruct h; cbn in *; congruence).
  destruct (denotes_node _ _ _ Hwf Hs) as [Hn _].
  assert (∀ q, Some (node_idx s) = Some q → q < length (nodes st)) as Hpar by by intros ? [= <-].
  exists s, nw. split_and!; [done|done|by eapply installed_denotes|done| | |].
  - rewrite (installed_parent_of _ _ _ _ _ Hins), (ins_node _ _ _ _ _ Hins). by right.
  - intros r. rewrite (installed_usable_new _ _ _ _ _ Hwf Hins Hpar), Hrt, Hob, contains_bitand by done.
    split; [tauto|]. intros (? & ?). split_and!; [done| |done]. intros (? & [= <-] & ?). done.
  - intros h' r Hne. by eapply installed_usable_old.
Qed.

Lemma refused {A} st h req (k : CapSlot → comp CoreState CapError A) :
  cap_wf st → (∀ s, ¬ authorized st h req s) →
  ∃ e, (authorize h req ≫= k) st = (Err e, st).
Proof.
  intros Hwf Hno. assert (wp (authorize h req ≫= k) (λ r st', ∃ e, (r, st') = (Err e, st)) st) as Hspec.
  { wp_step. apply wp_authorize; [done|by eauto|]. intros t Ht. by destruct (Hno t). }
  unfold wp in Hspec. by rewrite <-surjective_pairing in Hspec.
Qed.

(** C14: A lent capability cannot be passed on: as long as the handle exists,
    [grant], [lend] and [transfer] through it fail, in every later space, and
    change nothing. *)
Theorem lent_handle_never_delegates (st st1 : CoreState) (p h : CapHandle) (req r : Rights)
    (st2 : CoreState) (Hr : cap_reachable st) (Hl : lend p req st = (Ok h, st1))
    (Hlater : rtc cap_step st1 st2) :
  (∃ e, grant h r st2 = (Err e, st2)) ∧ (∃ e, lend h r st2 = (Err e, st2)) ∧
  (∃ e, transfer h r st2 = (Err e, st2)).
Proof.
  pose proof (reachable_wf _ Hr) as Hwf. unfold lend in Hl.
  destruct (wp_result _ _ _ _ _ Hl (derive_spec true p req st Hwf))
    as (s & nw & _ & [Hwf1 _] & Hins & Hgen & _ & _ & Hlent).
  assert (denotes st1 h nw) as Hnw.
  { destruct h as [i g]; cbn in *. subst g. by eapply installed_denotes. }
  destruct (evolves_steps _ _ Hwf1 Hlater) as [Hwf2 Hext2].
  assert (∀ t, ¬ authorized st2 h r t) as Hno.
  { intros t (Ht & _ & Hlt & _). rewrite (denotes_back _ _ _ _ _ Hext2 Hnw Ht) in Hlt. congruence. }
  split_and!; by apply refused.
Qed.

(** A root's lineage is the root alone. *)
Lemma descends_root ns n a :
  (∀ p, ¬ parent_of ns n p) → descends ns n a → a = n.
Proof. intros Hroot Hd. inversion Hd as [|? p ? Hp]; [done|]. by destruct (Hroot p). Qed.

Lemma parents_kept st st' n p :
  cap_extends st st' → n < length (nodes st) → parent_of (nodes st') n p → parent_of (nodes st) n p.
Proof.
  intros Hext Hn (nd' & Hnd' & Hp). destruct (lookup_lt_is_Some_2 _ _ Hn) as [nd Hnd].
  destruct (ext_nodes _ _ Hext _ _ Hnd) as (x & Hx & Hpar & _). simplify_eq.
  exists nd. split; [done|congruence].
Qed.

Lemma root_unaffected_by_revoke st1 st2 st3 h h' nw r :
  cap_wf st1 → cap_wf st2 → cap_extends st1 st2 → denotes st1 h nw →
  (∀ p, ¬ parent_of (nodes st1) (node_idx nw) p) → h' ≠ h → revoke h' st2 = (Ok tt, st3) →
  usable st3 h r ↔ usable st2 h r.
Proof.
  intros Hwf1 Hwf2 Hext Hnw Hroot Hne Hrev.
  destruct (wp_result _ _ _ _ _ Hrev (revoke_spec h' st2 Hwf2)) as (t & nd & Ht & Hnd & _ & ->).
  assert (∀ s, denotes st2 h s → ¬ descends (nodes st2) (node_idx s) (node_idx t)) as Hapart.
  { intros s Hs Hd. pose proof (denotes_back _ _ _ _ _ Hext Hnw Hs) as ->.
    assert (node_idx nw < length (nodes st1)) as Hlt.
    { by destruct (denotes_node _ _ _ Hwf1 Hnw). }
    assert (node_idx t = node_idx nw) as Heq.
    { eapply descends_root; [|exact Hd]. intros p Hp. by eapply Hroot, parents_kept. }
    destruct Hs as (Hs & Hfs & Hgs), Ht as (Ht & Hft & Hgt).
    pose proof (wf_unique st2 Hwf2 _ _ _ _ Ht Hs Hft Hfs Heq).
    destruct h, h'; cbn in *. congruence. }
  unfold usable. cbn. split; intros (s & o & Hs & ? & Hr & ? & ?); exists s, o;
    pose proof (Hapart s Hs); split_and!; try done; revert Hr;
    rewrite lineage_revoked_bump by (done || by eapply (wf_epoch st2)); tauto.
Qed.

(** [transfer] moves a capability out of its lineage: the source handle is
    dead for good, the new handle keeps exactly the requested rights, and in
    every later space no revocation through any other handle affects it. *)
Theorem transfer_escapes_revocation (st st1 st2 st3 : CoreState) (src h h' : CapHandle)
    (req r : Rights) (Hr : cap_reachable st) (Ht : transfer src req st = (Ok h, st1))
    (Hlater : rtc cap_step st1 st2) (Hne : h' ≠ h) (Hrev : revoke h' st2 = (Ok tt, st3)) :
  (∀ s, ¬ denotes st2 src s) ∧
  (usable st1 h r ↔ contains req r = true ∧ ∃ s o, denotes st src s ∧
     objects st !! object_idx s = Some o ∧ valid o = true) ∧
  (usable st3 h r ↔ usable st2 h r).
Proof.
  pose proof (reachable_wf _ Hr) as Hwf.
  destruct (wp_result _ _ _ _ _ Ht (transfer_spec src req st Hwf))
    as (s & nw & st0 & (Hs & Hc & Hl & Hnr) & [Hwf1 _] & Hins & Hns & -> & Hgen & Hob & Hrt & _).
  assert (h = mkHandle (slot h) (slot_generation nw)) as Hh by (destruct h; cbn in *; congruence).
  destruct (evolves_steps _ _ Hwf1 Hlater) as [Hwf2 Hext2].
  assert (slots st0 !! slot src = Some s) as Hs0 by (eapply installed_old; [done|apply Hs..]).
  assert (∀ t, denotes (with_slots <[slot src:=released s]> st0) h t ↔ denotes st0 h t) as Hden.
  { intros t. unfold denotes. cbn. by rewrite list_lookup_insert_ne. }
  assert (denotes st0 h nw) as Hnw by (rewrite Hh; by eapply installed_denotes).
  split_and!.
  - eapply released_forever; [exact Hs| |exact Hext2]. cbn.
    apply list_lookup_insert_eq. by eapply lookup_lt_Some.
  - transitivity (usable st0 h r).
    { unfold usable. by setoid_rewrite Hden. }
    rewrite Hh, (installed_usable_new _ _ _ _ _ Hwf Hins), Hrt, Hob, contains_bitand by done.
    split.
    + intros (? & _ & o & ?). split; [done|]. by exists s, o.
    + intros (? & t & o & Ht' & ? & ?). rewrite (denotes_fun _ _ _ _ Hs Ht').
      split_and!; [done|by intros (? & ? & _)|by exists o].
  - eapply root_unaffected_by_revoke; [exact Hwf1|exact Hwf2|exact Hext2|by apply Hden| |done|exact Hrev].
    intros p Hp. cbn in Hp. apply (installed_parent_of _ _ _ _ _ Hins) in Hp as [Hp|[_ ?]]; [|done].
    rewrite (ins_node _ _ _ _ _ Hins) in Hp. apply parent_of_lt in Hp. lia.
Qed.

(** An access guard keeps an object alive: dropping the guard of a [deref]
    restores the space exactly while other guards are held, and the drop of the
    last one kills the object for good, so that no handle to it passes a check
    in any later space. *)
Theorem drop_undoes_deref (st st1 st2 : CoreState) (h : CapHandle) (flags : Rights) (ob : nat)
    (Hr : cap_reachable st) (Hd : deref h flags st = (Ok ob, st1))
    (Hdrop : drop_access ob st1 = (Ok tt, st2)) :
  ∃ o, objects st !! ob = Some o ∧ valid o = true ∧ ((0 < refcount o)%Z → st2 = st) ∧
    (refcount o = 0%Z → ∀ st3 h' s' r, rtc cap_step st2 st3 → denotes st3 h' s' →
       object_idx s' = ob → (check_rights h' r st3).1 ≠ Ok tt).
Proof.
  pose proof (reachable_wf _ Hr) as Hwf.
  destruct (wp_result _ _ _ _ _ Hd (deref_spec h flags st Hwf))
    as ([Hwf1 _] & _ & s & o & _ & _ & Ho & Hv & ->).
  pose proof (lookup_lt_Some _ _ _ Ho) as Hlt.
  pose proof (proj1 (wf_object st Hwf _ _ Ho)) as Hrc.
  assert (objects (with_objects <[ob := mkObject (kind o) (refcount o + 1) (object_generation o) true]> st)
    !! ob = Some (mkObject (kind o) (refcount o + 1) (object_generation o) true)) as Ho1.
  { by apply list_lookup_insert_eq. }
  destruct (wp_result _ _ _ _ _ Hdrop (drop_access_spec ob _ _ Hwf1 Ho1)) as [[Hwf2 _] Hst2].
  cbn in Hst2. rewrite (proj2 (Z.ltb_lt 0 (refcount o + 1))) in Hst2 by lia.
  exists o. split_and!; [done|done| |].
  - intros Hpos. rewrite (proj2 (Z.eqb_neq (refcount o + 1) 1)) in Hst2 by lia.
    rewrite Hst2. destruct st as [ss ns os]. unfold with_objects. cbn in *. f_equal.
    rewrite list_insert_insert_eq. apply list_insert_id. rewrite Ho. f_equal.
    destruct o; cbn in *. f_equal; [lia|done].
  - intros Hz st3 h' s' r Hlater Hs' Hob.
    destruct (evolves_steps _ _ Hwf2 Hlater) as [Hwf3 Hext3].
    rewrite (proj2 (Z.eqb_eq (refcount o + 1) 1)) in Hst2 by lia.
    assert (objects st2 !! ob = Some (mkObject (kind o) (refcount o) (object_generation o + 1) false)) as Ho2.
    { rewrite Hst2. cbn. rewrite list_lookup_insert_eq by (by rewrite length_insert).
      do 2 f_equal; lia. }
    apply check_rights_fails; [done|]. intros (t & o' & Ht & _ & _ & Ho' & Hv').
    rewrite <-(denotes_fun _ _ _ _ Hs' Ht), Hob in Ho'.
    destruct (ext_objects _ _ Hext3 _ _ Ho2) as (o'' & Ho'' & _ & Hdead). simplify_eq.
    by apply Hdead in Hv'.
Qed.

(** The derivation tree never shrinks: once its 2048 nodes are used up, no
    entry point ever creates a capability again, whatever is closed or revoked
    in between. *)
Theorem node_table_never_recovers (st st1 : CoreState)
    (Hr : cap_reachable st) (Hfull : length (nodes st) = MAX_CAP_NODES)
    (Hlater : rtc cap_step st st1) :
  (∀ k h st2, create_object k st1 ≠ (Ok h, st2)) ∧
  (∀ p req h st2, grant p req st1 ≠ (Ok h, st2)) ∧
  (∀ p req h st2, lend p req st1 ≠ (Ok h, st2)) ∧
  (∀ p req h st2, transfer p req st1 ≠ (Ok h, st2)).
Proof.
  destruct (evolves_steps _ _ (reachable_wf _ Hr) Hlater) as [Hwf1 Hext1].
  assert (MAX_CAP_NODES ≤ length (nodes st1)) as Hfull1.
  { rewrite <-Hfull. eapply extends_nodes_length, Hext1. }
  assert (∀ par i nw st0 st2, evolves st1 st2 → installed st0 par i nw st2 →
            nodes st0 = nodes st1 → False) as Hno.
  { intros par i nw st0 st2 [Hwf2 _] Hins Hn. pose proof (wf_nodes_size _ Hwf2) as Hsz.
    rewrite (ins_nodes _ _ _ _ _ Hins), length_app, Hn in Hsz. cbn in Hsz. lia. }
  split_and!; intros.
  - intros Hc. destruct (wp_result _ _ _ _ _ Hc (create_object_spec k st1 Hwf1))
      as (nw & st0 & Hev & Hins & -> & _). by eapply Hno.
  - intros Hc. destruct (wp_result _ _ _ _ _ Hc (derive_spec false p req st1 Hwf1))
      as (s & nw & _ & Hev & Hins & _). by eapply Hno.
  - intros Hc. destruct (wp_result _ _ _ _ _ Hc (derive_spec true p req st1 Hwf1))
      as (s & nw & _ & Hev & Hins & _). by eapply Hno.
  - intros Hc. destruct (wp_result _ _ _ _ _ Hc (transfer_spec p req st1 Hwf1))
      as (s & nw & st0 & _ & Hev & Hins & _ & -> & _).
    destruct Hev as [Hwf2 _]. pose proof (wf_nodes_size _ Hwf2) as Hsz. cbn in Hsz.
    rewrite (ins_nodes _ _ _ _ _ Hins), length_app in Hsz. cbn in Hsz. lia.
Qed.

(** ** Witnesses *)

Definition root_handle : CapHandle := mkHandle 0 1.

(** A root, a child of it, a grandchild, a lent child and a second child. *)
Definition demo : CoreState := state_after
  [CallCreate Memory; CallGrant root_handle 3; CallGrant (mkHandle 1 1) 1;
   CallLend root_handle 1; CallGrant root_handle 2].

Lemma demo_reachable : cap_reachable demo.
Proof. apply state_after_reachable. Qed.

(** What a list of later calls leads to. *)
Definition later (cs : list cap_call) (st : CoreState) : CoreState := default st (run_calls cs st).

Lemma later_steps cs st : rtc cap_step st (later cs st).
Proof.
  unfold later. destruct (run_calls cs st) eqn:H; cbn; [by eapply run_calls_steps|apply rtc_refl].
Qed.

Lemma cap_reachable_invariant_witness : cap_wf demo.
Proof. apply cap_reachable_invariant, demo_reachable. Defined.

Lemma cap_panics_only_on_overflow_witness :
  ∃ ob, CallDrop 7 = CallDrop ob ∧ length (objects demo) ≤ ob.
Proof.
  destruct (cap_panics_only_on_overflow demo demo (CallDrop 7) demo_reachable)
    as [(i & s & Hs & Hg)|[(i & o & Ho & Hg)|H]]; [vm_compute; reflexivity| | |exact H].
  - do 5 (destruct i as [|i]; [vm_compute in Hs; injection Hs as <-; done|]). done.
  - destruct i as [|i]; [vm_compute in Ho; injection Ho as <-; by destruct Hg|done].
Defined.

Lemma is_revoked_decides_lineage_witness :
  ∃ b, is_revoked demo 2 = Some b ∧ (b = true ↔ lineage_revoked (nodes demo) 2).
Proof. apply (is_revoked_decides_lineage demo 2 demo_reachable). vm_compute. lia. Defined.

Ltac denotes_by_computation := split_and!; vm_compute; reflexivity.

Lemma revoke_cascades_forever_witness :
  (check_rights (mkHandle 2 1) READ
     (later [CallCreate Device; CallClose root_handle] (revoke (mkHandle 1 1) demo).2)).1 ≠ Ok tt.
Proof.
  eapply (revoke_cascades_forever demo _ _ (mkHandle 1 1) (mkHandle 2 1)
    (mkSlot 1 0 3 1 false false) (mkSlot 2 0 1 1 false false) READ demo_reachable).
  - vm_compute. reflexivity.
  - denotes_by_computation.
  - denotes_by_computation.
  - eapply rtc_once. eexists. split; vm_compute; reflexivity.
  - apply later_steps.
Defined.

Lemma revoke_isolates_siblings_witness :
  (check_rights (mkHandle 4 1) WRITE (revoke (mkHandle 1 1) demo).2).1 = Ok tt ↔
  (check_rights (mkHandle 4 1) WRITE demo).1 = Ok tt.
Proof.
  eapply (revoke_isolates_siblings demo _ (mkHandle 1 1) (mkHandle 4 1)
    (mkSlot 1 0 3 1 false false) (mkSlot 4 0 2 1 false false) WRITE demo_reachable).
  - vm_compute. reflexivity.
  - denotes_by_computation.
  - denotes_by_computation.
  - intros Hd. inversion Hd as [|? p ? (nd & Hnd & Hp) Hd']; simplify_eq.
    vm_compute in Hnd. simplify_eq. cbn in Hp. simplify_eq.
    inversion Hd' as [|? p ? (nd & Hnd & Hp) _]; simplify_eq.
    vm_compute in Hnd. by simplify_eq.
Defined.

Lemma closed_handle_is_dead_witness :
  (check_rights (mkHandle 2 1) READ
     (later [CallGrant root_handle 1] (close (mkHandle 2 1) demo).2)).1 = Err Invalid.
Proof.
  eapply (closed_handle_is_dead demo _ _ (mkHandle 2 1) READ demo_reachable).
  - vm_compute. reflexivity.
  - apply later_steps.
Defined.

Lemma grant_attenuates_witness :
  ∃ s nw, denotes demo root_handle s ∧ contains (rights s) 5 = true ∧
    denotes (grant root_handle 5 demo).2 (mkHandle 5 1) nw.
Proof.
  destruct (grant_attenuates demo (grant root_handle 5 demo).2 root_handle (mkHandle 5 1) 5
    demo_reachable) as (s & nw & ? & ? & ? & _); [vm_compute; reflexivity|].
  exists s, nw. split_and!; assumption.
Defined.

Lemma lent_handle_never_delegates_witness :
  ∃ e, grant (mkHandle 5 1) 1 (later [CallClose root_handle] (lend root_handle 5 demo).2) =
       (Err e, later [CallClose root_handle] (lend root_handle 5 demo).2).
Proof.
  refine (proj1 (lent_handle_never_delegates demo (lend root_handle 5 demo).2 root_handle
    (mkHandle 5 1) 5 1 _ demo_reachable _ (later_steps _ _))).
  vm_compute. reflexivity.
Defined.

Lemma transfer_escapes_revocation_witness :
  usable (revoke root_handle (transfer (mkHandle 1 1) 1 demo).2).2 (mkHandle 5 1) READ ↔
  usable (transfer (mkHandle 1 1) 1 demo).2 (mkHandle 5 1) READ.
Proof.
  refine (proj2 (proj2 (transfer_escapes_revocation demo (transfer (mkHandle 1 1) 1 demo).2
    (transfer (mkHandle 1 1) 1 demo).2 _ (mkHandle 1 1) (mkHandle 5 1) root_handle 1 READ
    demo_reachable _ _ _ _))).
  - vm_compute. reflexivity.
  - apply rtc_refl.
  - done.
  - vm_compute. reflexivity.
Defined.

Lemma drop_undoes_deref_witness :
  ∃ o, objects demo !! 0 = Some o ∧ valid o = true.
Proof.
  destruct (drop_undoes_deref demo (deref root_handle READ demo).2
    (drop_access 0 (deref root_handle READ demo).2).2 root_handle READ 0 demo_reachable)
    as (o & ? & ? & _); [vm_compute; reflexivity..|]. eauto.
Defined.

(** Repeated grants fill the node table. *)
Lemma full_table_reachable k :
  S k ≤ MAX_CAP_NODES →
  ∃ st s, cap_reachable st ∧ length (nodes st) = S k ∧ authorized st root_handle READ s.
Proof.
  induction k as [|k IH]; intros Hk.
  - exists (state_after [CallCreate Memory]), (mkSlot 0 0 rights_all 1 false false).
    split; [apply state_after_reachable|]. split; [done|].
    split; [by split_and!|]. split; [done|]. split; [done|].
    intros (a & nd & Hd & Hnd & He).
    apply rtc_inv in Hd as [<-|(p & (x & Hx & Hp) & _)]; vm_compute in *; by simplify_eq.
  - destruct IH as (st & s & Hr & Hlen & Hs); [lia|]. pose proof (reachable_wf _ Hr) as Hwf.
    pose proof (derive_spec false root_handle READ st Hwf) as Hspec.
    destruct (grant root_handle READ st) as [r st'] eqn:Hg.
    pose proof (wp_result _ _ _ _ _ Hg Hspec) as Hres. destruct r as [h|e|]; [| |done].
    + destruct Hres as (t & nw & Ht & [Hwf' Hext] & Hins & _).
      destruct Hs as (Hden & ? & ? & Hnr). destruct (denotes_node _ _ _ Hwf Hden) as [Hn _].
      exists st', s. split_and!; try done.
      * eapply rtc_r; [exact Hr|]. exists (CallGrant root_handle READ). cbn. unfold ignore, attempt, mbind, comp_bind.
        by rewrite Hg.
      * rewrite (ins_nodes _ _ _ _ _ Hins), length_app, Hlen. cbn. lia.
      * split; [|split; [done|split; [done|]]].
        -- destruct Hden as (? & ? & ?). split; [by eapply installed_old|done].
        -- by rewrite (installed_revoked_old _ _ _ _ _ Hwf Hins).
    + destruct Hres as [_ [Hno|Hfull]]; [by destruct (Hno s)|lia].
Qed.

Lemma node_table_never_recovers_witness :
  ∃ st, cap_reachable st ∧ length (nodes st) = MAX_CAP_NODES ∧
    ∀ p req h st2, grant p req (later [CallClose root_handle] st) ≠ (Ok h, st2).
Proof.
  destruct (full_table_reachable 2047) as (st & s & Hr & Hlen & _); [done|].
  exists st. split_and!; [exact Hr|exact Hlen|].
  refine (proj1 (proj2 (node_table_never_recovers st _ Hr Hlen (later_steps _ _)))).
Defined.
