(* ===== verification/CapStatics.v ===== *)
(** * The capability core: device ports and lend expiry

    The operations of [Cap] that use the module's other statics: the port
    bindings of device objects (confinement of port access) and the registry of
    lent capabilities with an expiry tick. *)
From S2P Require Import Prelude Abi Cap CapInv CapProps.

Lemma wp_locked {A} (m : comp CoreState CapError A)
    (Q : outcome CapError A → CapWorld → Prop) (w : CapWorld) st :
  STATE w = Some st → wp m (λ r st', Q r (with_state st' w)) st → wp (locked m) Q w.
Proof. unfold wp, locked. intros ->. by destruct (m st). Qed.

Lemma with_state_id w st : STATE w = Some st → with_state st w = w.
Proof. destruct w; cbn. by intros ->. Qed.

(** ** Passive identification *)

Lemma contains_empty a : contains a rights_empty = true.
Proof. unfold contains, rights_empty. by rewrite Z.land_0_r. Qed.

Lemma object_identity_spec h st :
  cap_wf st →
  wp (object_identity h)
     (λ r st', st' = st ∧ match r with
      | Ok (k, ob) => usable st h rights_empty ∧ ∃ s o, denotes st h s ∧ ob = object_idx s ∧
          objects st !! ob = Some o ∧ kind o = k
      | Err _ => ¬ usable st h rights_empty
      | Panic => False
      end) st.
Proof.
  intros Hwf. unfold object_identity. wp_step. apply wp_lookup_live.
  { intros Hn. split; [done|]. intros (s & o & ? & _). by eapply Hn. }
  intros s Hs. pose proof (denotes_node _ _ _ Hwf Hs) as [Hnode Hob].
  pose proof (usable_inv _ _ rights_empty _ Hs) as Honly.
  wp_step. apply wp_reject_revoked; [done|done| |].
  { intros ?. split; [done|]. by intros (_ & ? & _)%Honly. }
  intros Hnr. wp_step. apply wp_valid_object; [done| |].
  { intros o ? ?. split; [done|]. intros (_ & _ & o' & ? & ?)%Honly. congruence. }
  intros o Ho Hv. wp_step. split; [done|]. split; [|by exists s, o].
  exists s, o. split_and!; try done. apply contains_empty.
Qed.

Lemma usable_weaken st h r : usable st h r → usable st h rights_empty.
Proof.
  intros (s & o & ? & _ & ?). exists s, o. split_and!; try done; [apply contains_empty|tauto..].
Qed.

(** ** Device ports *)

(** The handle opens the inclusive port range [lo..hi]: it is live, carries
    [IO], denotes a device object, and the object is bound to that range. *)
Definition opens_ports (w : CapWorld) (h : CapHandle) (lo hi : Z) : Prop :=
  ∃ st s o, STATE w = Some st ∧ usable st h IO ∧ denotes st h s ∧
    objects st !! object_idx s = Some o ∧ kind o = Device ∧
    DEVICE_PORT_BINDINGS w !! object_idx s = Some (lo, hi).

Lemma opens_ports_fun w h lo hi lo' hi' :
  opens_ports w h lo hi → opens_ports w h lo' hi' → lo = lo' ∧ hi = hi'.
Proof.
  intros (st & s & o & Hst & _ & Hs & _ & _ & Hb) (st' & s' & o' & Hst' & _ & Hs' & _ & _ & Hb').
  simplify_eq. rewrite (denotes_fun _ _ _ _ Hs Hs') in Hb. by simplify_eq.
Qed.

Lemma device_io_range_spec w st h :
  STATE w = Some st → cap_wf st →
  wp (device_io_range h)
     (λ r w', w' = w ∧ match r with
      | Ok range => opens_ports w h range.1 range.2
      | Err _ => ∀ lo hi, ¬ opens_ports w h lo hi
      | Panic => False
      end) w.
Proof.
  intros Hst Hwf. unfold device_io_range.
  wp_step. eapply wp_locked; [done|]. eapply wp_mono; [by apply check_rights_spec|].
  intros [[]|e|] st' [-> Hc]; [| |done]; rewrite (with_state_id _ _ Hst).
  2: { split; [done|]. intros lo hi (st' & s & o & Hst' & Hu & _). simplify_eq. by destruct Hc. }
  wp_step. eapply wp_locked; [done|]. eapply wp_mono; [by apply object_identity_spec|].
  intros [[k ob]|e|] st' [-> Hi]; [| |done]; rewrite (with_state_id _ _ Hst).
  2: { by apply usable_weaken in Hc. }
  destruct Hi as (_ & s & o & Hs & -> & Ho & <-). wp_steps; reflect; cbn in *.
  - split; [done|]. intros lo hi (st' & s' & o' & Hst' & _ & Hs' & Ho' & Hk' & _). simplify_eq.
    rewrite (denotes_fun _ _ _ _ Hs Hs') in Ho. congruence.
  - split; [done|]. intros lo hi (st' & s' & o' & Hst' & _ & Hs' & _ & _ & Hb). simplify_eq.
    rewrite (denotes_fun _ _ _ _ Hs Hs') in *. congruence.
  - split; [done|]. exists st, s, o. rewrite <-surjective_pairing. by split_and!.
Qed.

Lemma port_range_allowed_spec w st h a b :
  STATE w = Some st → cap_wf st →
  wp (port_range_allowed h a b)
     (λ r w', w' = w ∧
        (r = Ok tt ↔ ∃ lo hi, opens_ports w h lo hi ∧ (lo ≤ a)%Z ∧ (b ≤ hi)%Z)) w.
Proof.
  intros Hst Hwf. unfold port_range_allowed. wp_step.
  eapply wp_mono; [by eapply device_io_range_spec|]. intros [[lo hi]|e|] w' [-> Hr]; [| |done].
  - wp_step; reflect; (split; [done|]); split; try done.
    + intros (lo' & hi' & Hop & ? & ?). destruct (opens_ports_fun _ _ _ _ _ _ Hr Hop); cbn in *.
      destruct H as [?|?]; reflect; lia.
    + intros _. exists lo, hi. by split_and!.
  - split; [done|]. split; [done|]. intros (lo & hi & Hop & _). by destruct (Hr lo hi).
Qed.

(** The handle [create_device_ports] returns opens the range it was given. *)
Lemma create_device_ports_spec w st lo hi :
  STATE w = Some st → cap_wf st →
  wp (create_device_ports lo hi)
     (λ r w', ∀ h, r = Ok h →
        opens_ports w' h lo hi ∧ ∃ st', STATE w' = Some st' ∧ cap_wf st') w.
Proof.
  intros Hst Hwf. unfold create_device_ports.
  wp_step. eapply wp_locked; [done|]. eapply wp_mono; [by apply create_object_spec|].
  intros [dev|e|] st1; [|done..]. intros (nw & st0 & [Hwf1 _] & Hins & -> & Hgen & Hob & Hrt & _).
  assert (denotes st1 dev nw) as Hdev.
  { destruct dev as [i g]; cbn in *. subst g. by eapply installed_denotes. }
  assert (objects st1 !! object_idx nw = Some (mkObject Device 0 1 true)) as Ho1.
  { rewrite (ins_objects _ _ _ _ _ Hins), Hob. cbn. by rewrite lookup_app_r, Nat.sub_diag. }
  wp_step. eapply wp_locked; [done|]. eapply wp_mono; [by apply object_identity_spec|].
  intros [[k ob]|e|] st2 [-> Hi]; [|done..].
  destruct Hi as (_ & s & o & Hs & -> & Ho & <-).
  rewrite (denotes_fun _ _ _ _ Hs Hdev) in *. simplify_eq.
  wp_step. wp_step. eapply wp_locked; [done|]. cbn.
  eapply wp_mono; [by apply (derive_spec false)|].
  intros [h|e|] st3; [|done..]. intros (s' & nw' & (Hs' & Hc' & _ & Hnr') & [Hwf3 _] & Hins' & Hgen' & Hob' & Hrt' & _).
  rewrite (denotes_fun _ _ _ _ Hs' Hdev) in *.
  intros h' [= <-]. split; [|by exists st3].
  assert (denotes st3 h nw') as Hh.
  { destruct h as [i g]; cbn in *. subst g. by eapply installed_denotes. }
  destruct (denotes_node _ _ _ Hwf1 Hdev) as [Hn _].
  assert (h = mkHandle (slot h) (slot_generation nw')) as Heq by (destruct h; cbn in *; congruence).
  exists st3, nw', (mkObject Device 0 1 true). cbn.
  rewrite (ins_objects _ _ _ _ _ Hins'), Hob'. split_and!; try done.
  - rewrite Heq. apply (installed_usable_new _ _ _ _ _ Hwf1 Hins'); [by intros ? [= <-]|].
    rewrite Hrt', Hrt, Hob'. split_and!; [done| |by eexists].
    by intros (? & [= <-] & ?).
  - apply lookup_insert_eq.
Qed.

(** Port access is confined to provisioned devices: a request for ports
    succeeds exactly when the handle is live with [IO] rights, its object is a
    device, and the request lies inside the range bound to that object; the
    check changes nothing. *)
Theorem port_access_confined (w : CapWorld) (st : CoreState) (h : CapHandle) (a b : Z)
    (Hst : STATE w = Some st) (Hr : cap_reachable st) :
  (port_range_allowed h a b w).2 = w ∧
  ((port_range_allowed h a b w).1 = Ok tt ↔
     ∃ s o lo hi, usable st h IO ∧ denotes st h s ∧ objects st !! object_idx s = Some o ∧
       kind o = Device ∧ DEVICE_PORT_BINDINGS w !! object_idx s = Some (lo, hi) ∧
       (lo ≤ a)%Z ∧ (b ≤ hi)%Z).
Proof.
  destruct (port_range_allowed_spec w st h a b Hst (reachable_wf _ Hr)) as [Hw Hiff].
  split; [done|]. etrans; [exact Hiff|]. unfold opens_ports. split.
  - intros (lo & hi & (st' & s & o & Hst' & ?) & ? & ?). simplify_eq.
    exists s, o, lo, hi. destruct_and!. by split_and!.
  - intros (s & o & lo & hi & ? & ? & ? & ? & ? & ? & ?). exists lo, hi.
    split_and!; [|done|done]. exists st, s, o. by split_and!.
Qed.

(** [create_device_ports] provisions exactly the range it was asked for: the
    handle it returns is allowed a request if and only if the request lies in
    that range. *)
Theorem device_ports_exact (w w1 : CapWorld) (st : CoreState) (h : CapHandle) (lo hi a b : Z)
    (Hst : STATE w = Some st) (Hr : cap_reachable st)
    (Hc : create_device_ports lo hi w = (Ok h, w1)) :
  (port_range_allowed h a b w1).1 = Ok tt ↔ (lo ≤ a)%Z ∧ (b ≤ hi)%Z.
Proof.
  assert (wp (create_device_ports lo hi)
    (λ r w', ∀ h, r = Ok h → opens_ports w' h lo hi ∧ ∃ st', STATE w' = Some st' ∧ cap_wf st') w)
    as Hspec by (by eapply create_device_ports_spec, reachable_wf).
  destruct (wp_result _ _ _ _ _ Hc Hspec h eq_refl) as (Hop & st1 & Hst1 & Hwf1).
  destruct (port_range_allowed_spec w1 st1 h a b Hst1 Hwf1) as [_ Hiff].
  etrans; [exact Hiff|]. split.
  - intros (lo' & hi' & Hop' & ? & ?). by destruct (opens_ports_fun _ _ _ _ _ _ Hop Hop') as [-> ->].
  - intros [? ?]. by exists lo, hi.
Qed.

(** ** Lend expiry *)

Lemma elem_of_expired m t i ge :
  (i, ge) ∈ expired_entries m t ↔ m !! i = Some ge ∧ (ge.2 ≤ t)%Z.
Proof. unfold expired_entries. rewrite list_elem_of_filter, elem_of_btree_iter. cbn. tauto. Qed.

(** Deleting the expired entries leaves exactly the others. *)
Lemma lookup_remove_expired (m : gmap nat (Z * Z)) t i :
  foldr (λ e m, delete e.1 m) m (expired_entries m t) !! i =
    match m !! i with
    | Some (g, e) => if (e <=? t)%Z then None else Some (g, e)
    | None => None
    end.
Proof.
  assert (∀ l : list (nat * (Z * Z)), foldr (λ e m, delete e.1 m) m l !! i =
            if decide (i ∈ l.*1) then None else m !! i) as Hfold.
  { induction l as [|[j x] l IH]; cbn; [done|]. destruct (decide (i = j)) as [->|Hne].
    - rewrite lookup_delete_eq, decide_True; [done|]. left.
    - rewrite lookup_delete_ne, IH by done.
      destruct (decide (i ∈ l.*1)); [rewrite decide_True by (by right); done|].
      rewrite decide_False; [done|]. rewrite elem_of_cons. tauto. }
  rewrite Hfold. destruct (decide _) as [Hin|Hnin].
  - apply list_elem_of_fmap in Hin as ([j [g e]] & Heq & Hin). cbn in Heq. subst j.
    apply elem_of_expired in Hin as [-> He]. cbn in He. by rewrite (proj2 (Z.leb_le _ _)).
  - destruct (m !! i) as [[g e]|] eqn:Hm; [|done].
    destruct (e <=? t)%Z eqn:He; [|done]. reflect. destruct Hnin.
    apply list_elem_of_fmap. exists (i, (g, e)). split; [done|]. by apply elem_of_expired.
Qed.

(** Revoking a list of handles leaves every one of them unusable, touches
    nothing but the lineage nodes, and cannot fail. *)
Lemma revoke_counting_spec hs w st n :
  STATE w = Some st → cap_wf st →
  wp (revoke_counting hs n)
     (λ r w', ∃ st' k, r = Ok (n + k) ∧ w' = with_state st' w ∧ evolves st st' ∧
        slots st' = slots st ∧
        ∀ h req, h ∈ hs → ¬ usable st' h req) w.
Proof.
  revert w st n. induction hs as [|h hs IH]; intros w st n Hst Hwf; cbn.
  { wp_step. exists st, 0. rewrite (with_state_id _ _ Hst), Nat.add_0_r.
    split_and!; try done. by intros h req ?%elem_of_nil. }
  wp_step. wp_step. eapply wp_locked; [done|]. eapply wp_mono; [by apply revoke_spec|].
  intros [[]|e|] st1; [| |done].
  - intros (s & nd & Hs & Hnd & Hev & ->).
    eapply wp_mono; [eapply IH; [done|apply Hev]|].
    intros r w' (st' & k & -> & -> & Hev' & Hsl & Hall). exists st', (S k).
    split_and!; [f_equal; lia|done|by eapply evolves_trans|done|].
    intros h' req [-> | ?]%elem_of_cons; [|by apply Hall].
    assert (denotes (with_nodes <[node_idx s:=bumped nd]> st) h s) as Hs1 by done.
    eapply revoked_unusable; [apply Hev'|exact Hs1|].
    cbn. apply lineage_revoked_bump; [done|by eapply (wf_epoch st)|by right; apply rtc_refl].
  - intros (-> & -> & Hn). rewrite (with_state_id _ _ Hst).
    eapply wp_mono; [by eapply IH|].
    intros r w' (st' & k & -> & -> & Hev' & Hsl & Hall). exists st', k.
    split_and!; try done. intros h' req [-> | ?]%elem_of_cons; [|by apply Hall].
    intros (s & o & (Hs & ?) & _). apply (Hn s). split; [by rewrite <-Hsl|done].
Qed.

(** At tick [t], [expire_lent_capabilities] never fails, removes exactly the
    registry entries whose expiry is at or before [t], and leaves every handle
    they named unusable for any rights; the other entries stay registered. *)
Theorem expired_lends_are_revoked (w : CapWorld) (st : CoreState) (t : Z)
    (Hst : STATE w = Some st) (Hr : cap_reachable st) :
  ∃ n st', expire_lent_capabilities t w =
      (Ok n, with_state st' (with_expiries
         (λ m, foldr (λ e m, delete e.1 m) m (expired_entries m t)) w)) ∧
    (∀ i g e req, LEND_EXPIRIES w !! i = Some (g, e) → (e ≤ t)%Z →
       (check_rights (mkHandle i g) req st').1 ≠ Ok tt) ∧
    (∀ i, LEND_EXPIRIES (expire_lent_capabilities t w).2 !! i =
       match LEND_EXPIRIES w !! i with
       | Some (g, e) => if (e <=? t)%Z then None else Some (g, e)
       | None => None
       end).
Proof.
  pose proof (reachable_wf _ Hr) as Hwf.
  set (expired := expired_entries (LEND_EXPIRIES w) t).
  set (w1 := with_expiries (λ m, foldr (λ e m, delete e.1 m) m expired) w).
  destruct (revoke_counting_spec ((λ e, mkHandle e.1 e.2.1) <$> expired) w1 st 0 Hst Hwf)
    as (st' & n & Hres & Hw & [Hwf' _] & _ & Hall).
  assert (expire_lent_capabilities t w = (Ok n, with_state st' w1)) as Hrun.
  { unfold expire_lent_capabilities, mbind, comp_bind, get, put. fold expired w1.
    by rewrite <-Hw, (surjective_pairing (revoke_counting _ _ _)), Hres. }
  exists n, st'. split_and!; [done| |].
  - intros i g e req Hi He. apply check_rights_fails; [done|]. apply Hall.
    apply list_elem_of_fmap. exists (i, (g, e)). split; [done|]. by apply elem_of_expired.
  - intros i. rewrite Hrun. cbn. apply lookup_remove_expired.
Qed.

(** ** Witnesses *)

Definition world_with (st : CoreState) : CapWorld := mkCapWorld (Some st) None ∅ 0 ∅.

(** A device with the ports 0x3F8..0x3FF, provisioned next to [demo]. *)
Definition uart_world : CapWorld := (create_device_ports 1016 1023 (world_with demo)).2.
Definition uart_core : CoreState := default demo (STATE uart_world).

Lemma uart_core_reachable : cap_reachable uart_core.
Proof.
  unfold cap_reachable. etrans; [apply demo_reachable|].
  apply (run_calls_steps [CallCreate Device; CallGrant (mkHandle 5 1) 520]).
  vm_compute. reflexivity.
Qed.

Lemma port_access_confined_witness :
  (port_range_allowed (mkHandle 6 1) 1017 1020 uart_world).1 = Ok tt ↔
  ∃ s o lo hi, usable uart_core (mkHandle 6 1) IO ∧ denotes uart_core (mkHandle 6 1) s ∧
    objects uart_core !! object_idx s = Some o ∧ kind o = Device ∧
    DEVICE_PORT_BINDINGS uart_world !! object_idx s = Some (lo, hi) ∧
    (lo ≤ 1017)%Z ∧ (1020 ≤ hi)%Z.
Proof.
  refine (proj2 (port_access_confined uart_world uart_core (mkHandle 6 1) 1017 1020 _
    uart_core_reachable)).
  vm_compute. reflexivity.
Defined.

Lemma device_ports_exact_witness :
  (port_range_allowed (mkHandle 6 1) 1017 1024 uart_world).1 = Ok tt ↔
  (1016 ≤ 1017)%Z ∧ (1024 ≤ 1023)%Z.
Proof.
  apply (device_ports_exact (world_with demo) uart_world demo (mkHandle 6 1) 1016 1023 1017 1024).
  - reflexivity.
  - exact demo_reachable.
  - vm_compute. reflexivity.
Defined.

(** Two loans, one of which has expired at tick 10. *)
Definition loan_world : CapWorld :=
  (lend_with_expiry root_handle 1 20 (lend_with_expiry root_handle 1 10 (world_with demo)).2).2.

Lemma loan_core_reachable : cap_reachable (default demo (STATE loan_world)).
Proof.
  unfold cap_reachable. etrans; [apply demo_reachable|].
  apply (run_calls_steps [CallLend root_handle 1; CallLend root_handle 1]).
  vm_compute. reflexivity.
Qed.

Lemma expired_lends_are_revoked_witness :
  ∃ st', (check_rights (mkHandle 5 1) READ st').1 ≠ Ok tt ∧
    LEND_EXPIRIES (expire_lent_capabilities 10 loan_world).2 !! 6 = Some (1, 20)%Z.
Proof.
  destruct (expired_lends_are_revoked loan_world (default demo (STATE loan_world)) 10)
    as (n & st' & _ & Hdead & Hkeep).
  - vm_compute. reflexivity.
  - exact loan_core_reachable.
  - exists st'. split.
    + apply (Hdead 5 1%Z 10%Z READ); [vm_compute; reflexivity|done].
    + rewrite (Hkeep 6). vm_compute. reflexivity.
Defined.
