(* ===== verification/Damage.v ===== *)
(** * Damage tracking (kernel/src/damage.rs)

    Which parts of the screen have to be drawn again: rectangles in [i32]
    coordinates, their bounding boxes and clipping, and the tracker that
    gathers up to four of them between two frames.  [None] is the panic of an
    overflowing operation. *)
From S2P Require Import Prelude.

(** kernel/src/damage.rs:7-12 [DamageRegion] *)
Record DamageRegion := mkRect { rect_x : Z; rect_y : Z; rect_width : Z; rect_height : Z }.

(** kernel/src/damage.rs:15-17 [DamageRegion::empty] *)
Definition no_damage : DamageRegion := mkRect 0 0 0 0.

(** kernel/src/damage.rs:23-25 [is_empty] *)
Definition rect_empty (r : DamageRegion) : bool := (rect_width r =? 0)%Z || (rect_height r =? 0)%Z.

(** [x + len as i32] *)
Definition far_edge (x len : Z) : option Z := fits_signed 32 (x + to_signed 32 len).
(** [(b - a) as u32] *)
Definition distance (a b : Z) : option Z := d ← fits_signed 32 (b - a); Some (wrap 32 d).

(** kernel/src/damage.rs:28-43 [union] *)
Definition rect_union (a b : DamageRegion) : option DamageRegion :=
  if rect_empty a then Some b
  else if rect_empty b then Some a
  else
    let min_x := (rect_x a `min` rect_x b)%Z in
    let min_y := (rect_y a `min` rect_y b)%Z in
    ax ← far_edge (rect_x a) (rect_width a);
    bx ← far_edge (rect_x b) (rect_width b);
    ay ← far_edge (rect_y a) (rect_height a);
    by_ ← far_edge (rect_y b) (rect_height b);
    w ← distance min_x (ax `max` bx)%Z;
    h ← distance min_y (ay `max` by_)%Z;
    Some (mkRect min_x min_y w h).

(** [v.clamp(0, max)], which panics when [max < 0]. *)
Definition clamp_from_zero (v max : Z) : option Z :=
  if (max <? 0)%Z then None else Some (if (v <? 0)%Z then 0%Z else v `min` max)%Z.

(** kernel/src/damage.rs:46-67 [clamp_to_screen] *)
Definition clamp_to_screen (r : DamageRegion) (max_w max_h : Z) : option DamageRegion :=
  if rect_empty r || (to_signed 32 max_w <=? rect_x r)%Z || (to_signed 32 max_h <=? rect_y r)%Z
  then Some no_damage
  else
    let cx := (rect_x r `max` 0)%Z in
    let cy := (rect_y r `max` 0)%Z in
    ex ← (e ← far_edge (rect_x r) (rect_width r); clamp_from_zero e (to_signed 32 max_w));
    ey ← (e ← far_edge (rect_y r) (rect_height r); clamp_from_zero e (to_signed 32 max_h));
    if (ex <=? cx)%Z || (ey <=? cy)%Z then Some no_damage
    else w ← distance cx ex; h ← distance cy ey; Some (mkRect cx cy w h).

(** kernel/src/damage.rs:75-77 [area] *)
Definition area (r : DamageRegion) : Z := (rect_width r * rect_height r)%Z.

(** kernel/src/damage.rs:82-87 [DamageTracker] *)
Record DamageTracker := mkTracker {
  rects : list DamageRegion;
  rect_count : nat;
  current_damage : option DamageRegion;
  force_full_redraw : bool;
}.

(** kernel/src/damage.rs:90-97 [DamageTracker::new] *)
Definition tracker_new : DamageTracker := mkTracker (replicate 4 no_damage) 0 None true.

(** Merging restarts the scan; [None] is a panic or the end of the fuel —
    kernel/src/damage.rs:111-121 [add_rect, merging] *)
Fixpoint merge_loop (fuel : nat) (rs : list DamageRegion) (count i : nat) (pending : DamageRegion)
  : option (list DamageRegion * nat * DamageRegion) :=
  match fuel with
  | O => None
  | S fuel =>
      if (i <? count)%nat then
        r ← rs !! i;
        merged ← rect_union r pending;
        limit ← fits 64 (area r + area pending);
        if (area merged <=? limit)%Z then
          last ← rs !! (count - 1);
          merge_loop fuel (<[i := last]> rs) (count - 1) 0 merged
        else merge_loop fuel rs count (S i) pending
      else Some (rs, count, pending)
  end.

(** The growth each merge would cost — kernel/src/damage.rs:126-127 [add_rect, key] *)
Definition growth (r pending : DamageRegion) : option Z :=
  u ← rect_union r pending; Some (saturating_sub (area u) (area r)).

(** The first of the smallest, as [min_by_key] — kernel/src/damage.rs:126-127 [add_rect, best] *)
Fixpoint best_merge (rs : list DamageRegion) (i : nat) (pending : DamageRegion) (best : option (nat * Z))
  : option (option (nat * Z)) :=
  match rs with
  | [] => Some best
  | r :: rs =>
      k ← growth r pending;
      best_merge rs (S i) pending
        (match best with Some (_, kb) => if (k <? kb)%Z then Some (i, k) else best | None => Some (i, k) end)
  end.

(** kernel/src/damage.rs:100-131 [add_rect] *)
Definition add_rect (rect : DamageRegion) (t : DamageTracker) : option DamageTracker :=
  if rect_empty rect then Some t
  else
    cur ← match current_damage t with
          | Some curr => rect_union curr rect
          | None => Some rect
          end;
    '(rs, count, pending) ← merge_loop (S (S (rect_count t) * S (rect_count t)))
                              (rects t) (rect_count t) 0 rect;
    if (count <? length rs)%nat then
      Some (mkTracker (<[count := pending]> rs) (S count) (Some cur) (force_full_redraw t))
    else
      best ← best_merge (take count rs) 0 pending None;
      '(b, _) ← best;
      r ← rs !! b;
      u ← rect_union r pending;
      Some (mkTracker (<[b := u]> rs) count (Some cur) (force_full_redraw t)).

(** kernel/src/damage.rs:205-209 [reset] *)
Definition reset_tracker (t : DamageTracker) : DamageTracker := mkTracker (rects t) 0 None false.

Fixpoint clip_all (rs : list DamageRegion) (sw sh : Z) : option (list DamageRegion) :=
  match rs with
  | [] => Some []
  | r :: rs =>
      c ← clamp_to_screen r sw sh;
      cs ← clip_all rs sw sh;
      Some (if rect_empty c then cs else c :: cs)
  end.

(** The regions that were filled in — kernel/src/damage.rs:134-148 [take_regions] *)
Definition take_regions (sw sh : Z) (t : DamageTracker) : option (list DamageRegion * DamageTracker) :=
  regions ← (if force_full_redraw t then Some [mkRect 0 0 sw sh]
             else clip_all (take (rect_count t) (rects t)) sw sh);
  Some (regions, reset_tracker t).

(** kernel/src/damage.rs:151-153 [add_bounds] *)
Definition add_bounds (x y w h : Z) (t : DamageTracker) : option DamageTracker := add_rect (mkRect x y w h) t.

(** kernel/src/damage.rs:156-159 [add_full_screen] *)
Definition add_full_screen (sw sh : Z) (t : DamageTracker) : option DamageTracker :=
  add_bounds 0 0 sw sh (mkTracker (rects t) (rect_count t) (current_damage t) true).

(** The size of the screen is an argument — kernel/src/damage.rs:162-181 [take_damage] *)
Definition take_damage (sw sh : Z) (t : DamageTracker) : option DamageRegion * DamageTracker :=
  (if force_full_redraw t then Some (mkRect 0 0 sw sh) else current_damage t, mkTracker (rects t) 0 None false).

(** kernel/src/damage.rs:184-199 [peek_damage] *)
Definition peek_damage (sw sh : Z) (t : DamageTracker) : option DamageRegion :=
  if force_full_redraw t then Some (mkRect 0 0 sw sh) else current_damage t.

(** kernel/src/damage.rs:201-203 [is_damaged] *)
Definition is_damaged (t : DamageTracker) : bool :=
  force_full_redraw t || match current_damage t with Some d => negb (rect_empty d) | None => false end.

(** ** Facts *)

(** Coordinates for which no operation overflows: within 2^29 of the origin. *)
Definition BOUND : Z := 2 ^ 29.
Definition sane (r : DamageRegion) : Prop :=
  (0 < rect_width r ∧ 0 < rect_height r ∧ - BOUND ≤ rect_x r ∧ - BOUND ≤ rect_y r ∧
   rect_x r + rect_width r ≤ BOUND ∧ rect_y r + rect_height r ≤ BOUND)%Z.
Definition inside (r : DamageRegion) (p : Z * Z) : Prop :=
  (rect_x r ≤ p.1 < rect_x r + rect_width r ∧ rect_y r ≤ p.2 < rect_y r + rect_height r)%Z.

Create HintDb damage.
#[local] Hint Unfold BOUND sane inside : damage.

Lemma far_edge_sane x len : (0 ≤ len)%Z → (- BOUND ≤ x)%Z → (x + len ≤ BOUND)%Z → far_edge x len = Some (x + len)%Z.
Proof.
  unfold BOUND. intros H0 H1 H2. unfold far_edge, to_signed.
  rewrite (proj2 (Z.ltb_lt len _)) by lia. apply fits_signed_Some. lia.
Qed.

Lemma distance_sane a b : (- BOUND ≤ a ≤ b)%Z → (b ≤ BOUND)%Z → distance a b = Some (b - a)%Z.
Proof.
  unfold BOUND. intros H1 H2. unfold distance.
  rewrite (proj2 (fits_signed_Some 32 _ _)) by (split; [reflexivity|lia]). cbn [mbind option_bind].
  unfold wrap. rewrite Z.mod_small by lia. done.
Qed.

Lemma sane_nonempty r : sane r → rect_empty r = false.
Proof. intros Hr. unfold rect_empty. destruct Hr as (? & ? & _). rewrite !(proj2 (Z.eqb_neq _ _)) by lia. done. Qed.

(** The union is the bounding box. *)
Lemma union_spec a b : sane a → sane b → ∃ u, rect_union a b = Some u ∧ sane u ∧
  ∀ p, inside a p ∨ inside b p → inside u p.
Proof.
  intros Ha Hb. unfold rect_union. rewrite (sane_nonempty _ Ha), (sane_nonempty _ Hb).
  autounfold with damage in *. rewrite !far_edge_sane by (unfold BOUND; lia). cbn [mbind option_bind].
  rewrite !distance_sane by (unfold BOUND; lia). eexists. split; [done|]. cbn. split; [lia|].
  intros [px py]. cbn. lia.
Qed.

Lemma area_sane r : sane r → (0 ≤ area r ≤ 2 ^ 60)%Z.
Proof. unfold area. autounfold with damage. nia. Qed.

(** The rectangles in use. *)
Definition in_use (rs : list DamageRegion) (count : nat) (P : DamageRegion → Prop) : Prop :=
  ∀ i r, i < count → rs !! i = Some r → P r.
Definition covered (rs : list DamageRegion) (count : nat) (p : Z * Z) : Prop :=
  ∃ i r, i < count ∧ rs !! i = Some r ∧ inside r p.

(** Merging ends, keeps what is covered, and uses no more rectangles. *)
Lemma merge_loop_spec fuel rs count i pending :
  count * count + count + (count - i) < fuel → i ≤ count → count ≤ length rs →
  in_use rs count sane → sane pending →
  ∃ rs' count' pending', merge_loop fuel rs count i pending = Some (rs', count', pending') ∧
    length rs' = length rs ∧ count' ≤ count ∧ in_use rs' count' sane ∧ sane pending' ∧
    ∀ p, covered rs count p ∨ inside pending p → covered rs' count' p ∨ inside pending' p.
Proof.
  revert rs count i pending. induction fuel as [|fuel IH]; intros rs count i pending Hf Hi Hlen Hs Hp; [lia|].
  cbn [merge_loop]. destruct (i <? count) eqn:Ei; reflect.
  2: { exists rs, count, pending. by split_and!. }
  destruct (lookup_lt_is_Some_2 rs i) as [r Hr]; [lia|]. rewrite Hr. cbn [mbind option_bind].
  destruct (union_spec r pending) as (u & Hu & Hus & Hcov); [by eapply Hs|done|]. rewrite Hu. cbn [mbind option_bind].
  pose proof (area_sane r (Hs _ _ Ei Hr)). pose proof (area_sane pending Hp).
  rewrite (proj2 (fits_Some 64 _ _)) by (split; [reflexivity|lia]). cbn [mbind option_bind].
  destruct (area u <=? _)%Z.
  - destruct (lookup_lt_is_Some_2 rs (count - 1)) as [last Hl]; [lia|]. rewrite Hl. cbn [mbind option_bind].
    destruct (IH (<[i:=last]> rs) (count - 1) 0 u) as (rs' & c' & p' & Hrun & Hl' & Hc & Hs' & Hp' & Hcov');
      [destruct count as [|k]; [lia|]; cbn [Nat.sub]; nia|lia|rewrite length_insert; lia| |done|].
    { intros j x Hj [[-> ->]|[_ Hx]]%list_lookup_insert_cases; eapply Hs; [|done| |done]; lia. }
    exists rs', c', p'. rewrite length_insert in Hl'. split_and!; [done|done|lia|done|done|].
    intros q [(j & x & Hj & Hx & Hq)|Hq]; apply Hcov'; [|by right; apply Hcov; right].
    destruct (decide (j = i)) as [->|Hne]; [simplify_eq; right; apply Hcov; by left|].
    left. destruct (decide (j = count - 1)) as [->|Hne'].
    + exists i, x. split; [lia|]. split; [|done]. simplify_eq. apply list_lookup_insert_eq. by eapply lookup_lt_Some.
    + exists j, x. split; [lia|]. by rewrite list_lookup_insert_ne.
  - destruct (IH rs count (S i) pending) as (rs' & c' & p' & Hrest); [lia|lia|done..|].
    exists rs', c', p'. exact Hrest.
Qed.

(** Some rectangle is chosen when there is one. *)
Lemma best_merge_spec rs i pending best : (∀ r, r ∈ rs → sane r) → sane pending →
  (∀ b k, best = Some (b, k) → b < i) → rs ≠ [] ∨ best ≠ None →
  ∃ b k, best_merge rs i pending best = Some (Some (b, k)) ∧ b < i + length rs.
Proof.
  revert i best. induction rs as [|r rs IH]; intros i best Hs Hp Hb Hne.
  { destruct best as [[b k]|]; [|by destruct Hne]. exists b, k. split; [done|]. specialize (Hb _ _ eq_refl). lia. }
  cbn [best_merge]. unfold growth. destruct (union_spec r pending) as (u & -> & _); [apply Hs; left|done|].
  cbn [mbind option_bind length].
  edestruct (IH (S i)) as (b & k & Hrun & Hlt); [| | | |exists b, k; split; [exact Hrun|lia]]; [intros x Hx; apply Hs; by right|done| |].
  - intros b k. destruct best as [[b' k']|]; [destruct (_ <? _)%Z|]; intros [= <- <-];
      [lia|specialize (Hb _ _ eq_refl); lia|lia].
  - right. destruct best as [[b' k']|]; [by destruct (_ <? _)%Z|done].
Qed.

(** The tracker with room for its rectangles; [D] is what has been damaged. *)
Record tracker_ok (t : DamageTracker) (D : Z * Z → Prop) : Prop := {
  ok_length : length (rects t) = 4;
  ok_count : rect_count t ≤ 4;
  ok_sane : in_use (rects t) (rect_count t) sane;
  ok_current : ∀ c, current_damage t = Some c → sane c;
  ok_covers : ∀ p, D p → covered (rects t) (rect_count t) p;
}.

Lemma add_rect_spec t D r : tracker_ok t D → sane r →
  ∃ t', add_rect r t = Some t' ∧ tracker_ok t' (λ p, D p ∨ inside r p) ∧
    force_full_redraw t' = force_full_redraw t.
Proof.
  intros [Hl Hc Hs Hcur Hcov] Hr. unfold add_rect. rewrite (sane_nonempty _ Hr).
  assert (∃ c, match current_damage t with Some curr => rect_union curr r | None => Some r end = Some c ∧ sane c)
    as (c & Hcu & Hcs).
  { destruct (current_damage t) as [curr|]; [|by eexists].
    destruct (union_spec curr r) as (u & ? & ? & _); [by apply Hcur|done|by exists u]. }
  rewrite Hcu. cbn [mbind option_bind].
  destruct (merge_loop_spec (S (S (rect_count t) * S (rect_count t))) (rects t) (rect_count t) 0 r)
    as (rs & n & q & Hm & Hlen & Hn & Hsn & Hq & Hmc); [nia|lia|lia|done..|].
  rewrite Hm. cbn [mbind option_bind]. rewrite Hlen, Hl.
  assert (∀ p, D p ∨ inside r p → covered rs n p ∨ inside q p) as Hcover
    by (intros p [Hp|Hp]; apply Hmc; auto).
  destruct (n <? 4) eqn:En; reflect.
  - eexists. split; [reflexivity|]. split; [|done]. split; cbn.
    + rewrite length_insert. lia.
    + lia.
    + intros j x Hj [[-> ->]|[? Hx]]%list_lookup_insert_cases; [done|]. eapply Hsn; [|exact Hx]. lia.
    + by intros ? [= <-].
    + intros p Hp. destruct (Hcover p Hp) as [(j & x & Hj & Hx & Hin)|Hin].
      * exists j, x. split; [lia|]. rewrite list_lookup_insert_ne by lia. done.
      * exists n, q. split; [lia|]. rewrite list_lookup_insert_eq by lia. done.
  - destruct (best_merge_spec (take n rs) 0 q None) as (b & k & Hb & Hlt); [|done|done| |].
    { intros x (j & Hx)%list_elem_of_lookup. apply lookup_take_Some in Hx as [Hx Hj]. by eapply Hsn. }
    { left. destruct rs; [cbn in *; lia|]. destruct n; [lia|done]. }
    rewrite Hb. cbn [mbind option_bind]. rewrite length_take in Hlt.
    destruct (lookup_lt_is_Some_2 rs b) as [x Hx]; [lia|]. rewrite Hx. cbn [mbind option_bind].
    destruct (union_spec x q) as (u & Hu & Hus & Huc); [eapply Hsn; [|done]; lia|done|].
    rewrite Hu. cbn [mbind option_bind]. eexists. split; [reflexivity|]. split; [|done]. split; cbn.
    + rewrite length_insert. lia.
    + lia.
    + intros j y Hj [[-> ->]|[? Hy]]%list_lookup_insert_cases; [done|]. by eapply Hsn.
    + by intros ? [= <-].
    + intros p Hp. destruct (Hcover p Hp) as [(j & y & Hj & Hy & Hin)|Hin].
      * destruct (decide (j = b)) as [->|Hne].
        -- exists b, u. rewrite list_lookup_insert_eq by lia. split; [lia|]. split; [done|].
           apply Huc. left. by simplify_eq.
        -- exists j, y. split; [done|]. by rewrite list_lookup_insert_ne.
      * exists b, u. rewrite list_lookup_insert_eq by lia. split; [lia|]. split; [done|]. apply Huc. by right.
Qed.

(** A rectangle of the screen. *)
Definition on_screen (sw sh : Z) (r : DamageRegion) : Prop :=
  (0 ≤ rect_x r ∧ 0 ≤ rect_y r ∧ rect_x r + rect_width r ≤ sw ∧ rect_y r + rect_height r ≤ sh)%Z.

Lemma clamp_spec r sw sh : sane r → (0 < sw ≤ BOUND)%Z → (0 < sh ≤ BOUND)%Z →
  ∃ c, clamp_to_screen r sw sh = Some c ∧ on_screen sw sh c ∧
    ∀ p, (0 ≤ p.1 < sw)%Z → (0 ≤ p.2 < sh)%Z → inside r p → inside c p.
Proof.
  intros Hr Hw Hh. unfold clamp_to_screen. rewrite (sane_nonempty _ Hr). unfold on_screen, inside.
  assert (to_signed 32 sw = sw ∧ to_signed 32 sh = sh) as [-> ->].
  { unfold to_signed, BOUND in *. rewrite !(proj2 (Z.ltb_lt _ _)) by lia. done. }
  autounfold with damage in *. cbn [orb].
  destruct (orb _ _) eqn:Eo; reflect.
  { exists no_damage. cbn. split; [done|]. split; [lia|]. intros p. destruct Eo; reflect; lia. }
  rewrite !far_edge_sane by (unfold BOUND; lia). cbn [mbind option_bind].
  unfold clamp_from_zero. rewrite !(proj2 (Z.ltb_ge sw 0)), !(proj2 (Z.ltb_ge sh 0)) by lia.
  cbn [mbind option_bind].
  set (ex := if (rect_x r + rect_width r <? 0)%Z then _ else _).
  set (ey := if (rect_y r + rect_height r <? 0)%Z then _ else _).
  assert (ex = ((rect_x r + rect_width r) `max` 0) `min` sw)%Z as -> by (unfold ex; destruct (_ <? _)%Z eqn:E; reflect; lia).
  assert (ey = ((rect_y r + rect_height r) `max` 0) `min` sh)%Z as -> by (unfold ey; destruct (_ <? _)%Z eqn:E; reflect; lia).
  destruct (orb _ _) eqn:Ee; reflect.
  { exists no_damage. cbn. split; [done|]. split; [lia|]. intros p. destruct Ee; reflect; lia. }
  rewrite !distance_sane by (unfold BOUND; lia). cbn [mbind option_bind].
  eexists. split; [done|]. cbn. split; [lia|]. intros p. lia.
Qed.

Lemma clip_all_spec rs sw sh : (∀ r, r ∈ rs → sane r) → (0 < sw ≤ BOUND)%Z → (0 < sh ≤ BOUND)%Z →
  ∃ cs, clip_all rs sw sh = Some cs ∧ length cs ≤ length rs ∧ Forall (on_screen sw sh) cs ∧
    ∀ p r, (0 ≤ p.1 < sw)%Z → (0 ≤ p.2 < sh)%Z → r ∈ rs → inside r p → ∃ c, c ∈ cs ∧ inside c p.
Proof.
  intros Hs Hw Hh. induction rs as [|r rs IH].
  { exists []. split_and!; [done|done|constructor|]. by intros p r _ _ ?%elem_of_nil. }
  destruct (clamp_spec r sw sh) as (c & Hc & Hon & Hin); [apply Hs; left|done..|].
  destruct IH as (cs & Hcs & Hlen & Hall & Hcov); [intros x Hx; apply Hs; by right|].
  cbn [clip_all]. rewrite Hc, Hcs. cbn [mbind option_bind]. eexists. split; [done|].
  destruct (rect_empty c) eqn:Ee.
  - split; [cbn; lia|]. split; [done|]. intros p x Hx Hy [->|Hxr]%elem_of_cons Hp; [|by eapply Hcov].
    exfalso. pose proof (Hin p Hx Hy Hp) as Hi. clear -Ee Hi. unfold rect_empty in Ee. unfold inside in Hi.
    apply orb_true_iff in Ee as [?|?]; reflect; lia.
  - split; [cbn; lia|]. split; [by constructor|]. intros p x Hx Hy [->|Hxr]%elem_of_cons Hp.
    + exists c. split; [left|]. by apply Hin.
    + destruct (Hcov p x) as (c' & ? & ?); [done..|]. exists c'. split; [by right|done].
Qed.

(** All the damage of a frame. *)
Definition add_all (rs : list DamageRegion) (t : DamageTracker) : option DamageTracker :=
  foldl (λ o r, t ← o; add_rect r t) (Some t) rs.

Lemma add_all_spec rs t D : tracker_ok t D → Forall sane rs →
  ∃ t', add_all rs t = Some t' ∧ tracker_ok t' (λ p, D p ∨ ∃ r, r ∈ rs ∧ inside r p) ∧
    force_full_redraw t' = force_full_redraw t.
Proof.
  revert t D. induction rs as [|r rs IH]; intros t D Ht Hs.
  - exists t. split_and!; [done| |done]. destruct Ht as [? ? ? ? Hc]. split; try done.
    intros p [?|(? & ?%elem_of_nil & _)]; [auto|done].
  - apply Forall_cons in Hs as [Hr Hs]. destruct (add_rect_spec t D r Ht Hr) as (t1 & H1 & Hok & Hf1).
    destruct (IH t1 _ Hok Hs) as (t2 & H2 & Hok2 & Hf2). exists t2. unfold add_all in *. cbn. rewrite H1.
    split_and!; [done| |congruence]. destruct Hok2 as [? ? ? ? Hc]. split; try done.
    intros p [Hp|(x & [->|Hx]%elem_of_cons & Hp)]; apply Hc; [left; by left|left; by right|right; by exists x].
Qed.

(** No damage is lost and none is drawn off screen: whatever rectangles are
    reported between two frames, within reasonable coordinates, gathering them
    never panics, and the at most four regions handed to the compositor lie on
    the screen and cover every point of the screen that any of the rectangles
    covered; afterwards the tracker is clean. *)
Theorem damage_is_never_lost (t : DamageTracker) (rs : list DamageRegion) (sw sh : Z) :
  length (rects t) = 4 → Forall sane rs → (0 < sw ≤ BOUND)%Z → (0 < sh ≤ BOUND)%Z →
  ∃ t' regions t'', add_all rs (reset_tracker t) = Some t' ∧ take_regions sw sh t' = Some (regions, t'') ∧
    length regions ≤ 4 ∧ Forall (on_screen sw sh) regions ∧ is_damaged t'' = false ∧
    ∀ p r, (0 ≤ p.1 < sw)%Z → (0 ≤ p.2 < sh)%Z → r ∈ rs → inside r p →
      ∃ c, c ∈ regions ∧ inside c p.
Proof.
  intros Hl Hs Hw Hh.
  destruct (add_all_spec rs (reset_tracker t) (λ _, False)) as (t' & Ht' & [Hlen Hc Hsane _ Hcov] & Hf); [|done|].
  { split; [done|cbn; lia|intros ? ? ?; cbn in *; lia|done|done]. }
  destruct (clip_all_spec (take (rect_count t') (rects t')) sw sh) as (cs & Hcs & Hlc & Hon & Hin); [|done..|].
  { intros r (i & Hi)%list_elem_of_lookup. apply lookup_take_Some in Hi as [Hi ?]. by eapply Hsane. }
  exists t', cs, (reset_tracker t'). split; [done|]. split; [unfold take_regions; rewrite Hf; cbn; by rewrite Hcs|].
  rewrite length_take in Hlc. split_and!; [lia|done|done|]. intros p r Hx Hy Hr Hp.
  destruct (Hcov p) as (i & x & Hi & Hxi & Hpx); [right; by exists r|].
  eapply Hin; [done|done| |done]. apply list_elem_of_lookup. exists i. by apply lookup_take_Some.
Qed.

(** Twelve rectangles along a diagonal. *)
Definition sample_damage : list DamageRegion := map (λ n, mkRect (Z.of_nat n * 80) (Z.of_nat n * 40) 10 10) (seq 0 12).

Lemma damage_is_never_lost_witness :
  ∃ t' regions t'', add_all sample_damage (reset_tracker tracker_new) = Some t' ∧
    take_regions 1280 720 t' = Some (regions, t'') ∧ length regions = 4 ∧
    ∃ c, c ∈ regions ∧ inside c (889, 449)%Z.
Proof.
  destruct (damage_is_never_lost tracker_new sample_damage 1280 720) as (t' & regions & t'' & H1 & H2 & H3 & _ & _ & H4);
    [done|apply (bool_decide_unpack _); vm_compute; exact I|unfold BOUND; lia..|].
  exists t', regions, t''. split; [exact H1|]. split; [exact H2|]. split.
  - vm_compute in H1. injection H1 as <-. vm_compute in H2. by injection H2 as <- _.
  - apply (H4 (889, 449)%Z (mkRect 880 440 10 10)); [cbn; lia|cbn; lia| |unfold inside; cbn; lia].
    vm_compute. repeat constructor.
Defined.
