(* ===== verification/Apps.v ===== *)
(** * Registered applications (kernel/src/app_registry.rs, kernel/src/launcher.rs)

    The applications that the launcher offers, how they are found, and the
    layout of the launcher with its keyboard selection. *)
From S2P Require Import Prelude Bytes Text.

(** kernel/src/app_registry.rs:7-19 [AppIcon] *)
Variant AppIcon := IconLogo | IconTerminal | IconDemo | IconFiles | IconEditor | IconTaskMgr | IconSysMon
  | IconSettings | IconBrowser | IconTrash | IconGeneric.
#[export] Instance AppIcon_eq : EqDecision AppIcon.
Proof. solve_decision. Defined.

(** kernel/src/app_registry.rs:22-29 [AppDescriptor] *)
Record AppDescriptor := mkApp {
  app_id : Z;
  app_name : bytes;
  exec_name : bytes;
  app_icon : AppIcon;
  default_w : Z;
  default_h : Z;
}.

(** kernel/src/app_registry.rs:31-80 [REGISTERED_APPS] *)
Definition REGISTERED_APPS : list AppDescriptor := [
  mkApp 1 (str "Terminal") (str "terminal.app") IconTerminal 380 140;
  mkApp 2 (str "Files") (str "files.app") IconFiles 320 180;
  mkApp 3 (str "Text Editor") (str "editor.app") IconEditor 420 260;
  mkApp 4 (str "Task Manager") (str "taskmgr.app") IconTaskMgr 360 200;
  mkApp 5 (str "Settings") (str "settings.app") IconSettings 300 180;
  mkApp 6 (str "Web Browser") (str "browser.app") IconBrowser 360 220].

(** kernel/src/app_registry.rs:82-84 [find_app_by_id] *)
Definition find_app_by_id (id : Z) : option AppDescriptor :=
  snd <$> list_find (λ a, app_id a = id) REGISTERED_APPS.

(** kernel/src/app_registry.rs:86-88 [find_app_by_name] *)
Definition find_app_by_name (n : bytes) : option AppDescriptor :=
  snd <$> list_find (λ a, app_name a = n ∨ exec_name a = n) REGISTERED_APPS.

(** The icon of a window of the process of this name —
    kernel/src/wm.rs:311-321 [create_window, icon] *)
Definition window_icon (n : bytes) : AppIcon :=
  if bool_decide (n = str "terminal.app") then IconTerminal
  else if bool_decide (n = str "files.app") then IconFiles
  else if bool_decide (n = str "editor.app") then IconEditor
  else if bool_decide (n = str "taskmgr.app") then IconTaskMgr
  else if bool_decide (n = str "sysmon.app") then IconSysMon
  else if bool_decide (n = str "settings.app") then IconSettings
  else if bool_decide (n = str "browser.app") then IconBrowser
  else if bool_decide (n = str "live_demo_app") then IconDemo
  else IconGeneric.

(** kernel/src/wm.rs:322-332 [create_window, title] *)
Definition window_title (n : bytes) : bytes :=
  if bool_decide (n = str "terminal.app") then str "Terminal"
  else if bool_decide (n = str "files.app") then str "Files"
  else if bool_decide (n = str "editor.app") then str "Text Editor"
  else if bool_decide (n = str "taskmgr.app") then str "Task Manager"
  else if bool_decide (n = str "sysmon.app") then str "System Monitor"
  else if bool_decide (n = str "settings.app") then str "Settings"
  else if bool_decide (n = str "browser.app") then str "Web Browser"
  else if bool_decide (n = str "live_demo_app") then str "Demo App"
  else str "SparkOS Application".

(** kernel/src/launcher.rs:7-16 [LauncherLayout] *)
Record LauncherLayout := mkLayout {
  ll_x : Z;
  ll_y : Z;
  ll_width : Z;
  ll_height : Z;
  item_start_y : Z;
  item_height : Z;
  item_spacing : Z;
  close_btn_height : Z;
}.

(** [DOCK_HEIGHT] is 24 — kernel/src/launcher.rs:19-36 [LauncherLayout::new] *)
Definition launcher_layout : LauncherLayout :=
  let total_apps := Z.of_nat (length REGISTERED_APPS) in
  mkLayout 4 26 164 (34 + total_apps * 28 + 26) (26 + 28) 24 28 20.

(** The application whose entry is at this height —
    kernel/src/wm.rs:1351-1360 [handle_mouse_down, launcher entries] *)
Fixpoint entry_at (apps : list AppDescriptor) (cur_y my : Z) : Z + Z :=
  match apps with
  | [] => inr cur_y
  | a :: apps =>
      if (cur_y <=? my)%Z && (my <? cur_y + item_height launcher_layout)%Z then inl (app_id a)
      else entry_at apps (cur_y + item_spacing launcher_layout) my
  end.

(** The selection moves around the list — kernel/src/wm.rs:156-166 [launcher_nav_up] *)
Definition nav_up (i : nat) : nat :=
  match i with O => length REGISTERED_APPS - 1 | S i => i end.
(** kernel/src/wm.rs:168-174 [launcher_nav_down] *)
Definition nav_down (i : nat) : nat := (i + 1) `mod` length REGISTERED_APPS.
(** kernel/src/wm.rs:176-183 [launcher_get_selected_app] *)
Definition selected_app (is_open : bool) (i : nat) : option Z :=
  if is_open then app_id <$> REGISTERED_APPS !! i else None.
