(* ===== verification/Permission.v ===== *)
(** * Application permissions (kernel/src/permission.rs)

    What the manifest of an application asks for, and which process was granted
    what.  The manifest is searched as text, not parsed. *)
From S2P Require Import Prelude Bytes Text.

(** ** Permissions *)

(** kernel/src/permission.rs:12-19 [AppPermission] *)
Variant AppPermission := FilesystemRead | FilesystemWrite | NetworkAccess | CameraAccess | DeviceAccess
  | NotificationSend.
#[export] Instance AppPermission_eq : EqDecision AppPermission.
Proof. solve_decision. Defined.

(** kernel/src/permission.rs:22-32 [AppPermission::from_str] *)
Definition permission_from_str (s : bytes) : option AppPermission :=
  let s := trim s in
  if bool_decide (s = str "filesystem.read") then Some FilesystemRead
  else if bool_decide (s = str "filesystem.write") then Some FilesystemWrite
  else if bool_decide (s = str "network") then Some NetworkAccess
  else if bool_decide (s = str "camera") then Some CameraAccess
  else if bool_decide (s = str "device") then Some DeviceAccess
  else if bool_decide (s = str "notification.send") then Some NotificationSend
  else None.

(** kernel/src/permission.rs:34-43 [AppPermission::as_str] *)
Definition permission_as_str (p : AppPermission) : bytes :=
  match p with
  | FilesystemRead => str "filesystem.read"
  | FilesystemWrite => str "filesystem.write"
  | NetworkAccess => str "network"
  | CameraAccess => str "camera"
  | DeviceAccess => str "device"
  | NotificationSend => str "notification.send"
  end.

(** kernel/src/permission.rs:47-50 [AppManifest] *)
Record AppManifest := mkManifest { manifest_name : bytes; permissions : list AppPermission }.

(** The quotation mark and the colon. *)
Definition QUOTE : Z := 34.
Definition COLON : Z := 58.

(** The quoted text after the colon after the first mention of the key —
    kernel/src/permission.rs:66-77 [AppManifest::parse_manifest, name] *)
Definition quoted_after (key l : bytes) : option bytes :=
  pos ← find_sub key l;
  let rest := drop pos l in
  colon ← find_sub [COLON] rest;
  let after := drop (S colon) rest in
  start ← find_sub [QUOTE] after;
  let val := drop (S start) after in
  stop ← find_sub [QUOTE] val;
  Some (take stop val).

(** kernel/src/permission.rs:80-80 [AppManifest::parse_manifest, candidates] *)
Definition known_permissions : list bytes :=
  [str "filesystem.read"; str "filesystem.write"; str "network"; str "camera"; str "device"; str "notification.send"].

(** kernel/src/permission.rs:80-88 [AppManifest::parse_manifest, permissions] *)
Definition requested (text : bytes) : list AppPermission :=
  foldl (λ ps c,
    if mentions c text then
      match permission_from_str c with
      | Some p => if bool_decide (p ∈ ps) then ps else ps ++ [p]
      | None => ps
      end
    else ps) [] known_permissions.

(** kernel/src/permission.rs:61-91 [AppManifest::parse_manifest] *)
Definition parse_manifest (text : bytes) : AppManifest :=
  mkManifest (default (str "UnknownApp") (quoted_after ([QUOTE] ++ str "name" ++ [QUOTE]) text)) (requested text).

(** The permissions granted to each process — kernel/src/permission.rs:94-96 [PermissionManager] *)
Abbreviation PermissionManager := (gmap Z (list AppPermission)).

(** kernel/src/permission.rs:105-109 [register_process_permissions] *)
Definition register_process_permissions (pid : Z) (m : AppManifest) (g : PermissionManager) : PermissionManager :=
  <[pid := permissions m]> g.
(** kernel/src/permission.rs:111-114 [unregister_process] *)
Definition unregister_process (pid : Z) (g : PermissionManager) : PermissionManager := delete pid g.
(** kernel/src/permission.rs:116-124 [check_permission] *)
Definition check_permission (pid : Z) (p : AppPermission) (g : PermissionManager) : bool :=
  match g !! pid with Some ps => bool_decide (p ∈ ps) | None => false end.

(** ** Theorems *)

Lemma permission_round_trip p : permission_from_str (permission_as_str p) = Some p.
Proof. destruct p; vm_compute; reflexivity. Qed.

Lemma requested_spec text p : p ∈ requested text ↔ mentions (permission_as_str p) text = true.
Proof.
  unfold requested, known_permissions. cbn [foldl].
  rewrite (eq_refl : permission_from_str (str "filesystem.read") = Some FilesystemRead),
    (eq_refl : permission_from_str (str "filesystem.write") = Some FilesystemWrite),
    (eq_refl : permission_from_str (str "network") = Some NetworkAccess),
    (eq_refl : permission_from_str (str "camera") = Some CameraAccess),
    (eq_refl : permission_from_str (str "device") = Some DeviceAccess),
    (eq_refl : permission_from_str (str "notification.send") = Some NotificationSend).
  unfold permission_as_str.
  destruct (mentions (str "filesystem.read") text) eqn:E1, (mentions (str "filesystem.write") text) eqn:E2,
    (mentions (str "network") text) eqn:E3, (mentions (str "camera") text) eqn:E4,
    (mentions (str "device") text) eqn:E5, (mentions (str "notification.send") text) eqn:E6; cbn -[str mentions elem_of];
    destruct p; rewrite ?E1, ?E2, ?E3, ?E4, ?E5, ?E6; set_solver.
Qed.

(** A process is granted exactly the permissions whose names occur anywhere in the
    text of its manifest, and loses them when it ends: a check succeeds for a
    registered process if and only if the text mentions the permission, the
    answers for other processes do not change, and after the process is
    unregistered every check fails. *)
Theorem permissions_follow_the_manifest (text : bytes) (pid q : Z) (p : AppPermission) (g : PermissionManager) :
  let g' := register_process_permissions pid (parse_manifest text) g in
  check_permission pid p g' = mentions (permission_as_str p) text ∧
  (q ≠ pid → check_permission q p g' = check_permission q p g) ∧
  check_permission pid p (unregister_process pid g') = false.
Proof.
  cbv zeta. unfold check_permission, register_process_permissions, unregister_process.
  split; [|split].
  - rewrite lookup_insert_eq. cbn [parse_manifest permissions]. apply eq_bool_prop_intro.
    rewrite bool_decide_spec, requested_spec. by destruct (mentions _ _).
  - intros Hq. by rewrite lookup_insert_ne.
  - by rewrite lookup_delete_eq.
Qed.

(** An application whose name contains the word has the permission. *)
Lemma a_name_grants :
  let quoted s := [QUOTE] ++ str s ++ [QUOTE] in
  permissions (parse_manifest
    (str "{" ++ quoted "name" ++ [COLON] ++ quoted "netdevice viewer" ++ str ", "
     ++ quoted "permissions" ++ [COLON] ++ str "[]}")) = [DeviceAccess].
Proof. vm_compute. reflexivity. Qed.
