(* ===== verification/Input.v ===== *)
(** * Input events (kernel/src/input.rs, spark-abi/src/input.rs)

    A bounded queue of events for each process, the processes whose input the
    kernel consumes itself, and the requests that clients of the input service
    send.  Events go to the owner of the focused window; that is [Wm]'s part. *)
From S2P Require Import Prelude Bytes.

(** kernel/src/input.rs:16-25 [EventType] *)
Definition EvMouseMove : Z := 1.
Definition EvMouseButtonDown : Z := 2.
Definition EvMouseButtonUp : Z := 3.
Definition EvKeyDown : Z := 4.
Definition EvKeyUp : Z := 5.

(** kernel/src/input.rs:10-12 [MOD_CTRL, MOD_SHIFT, MOD_ALT] *)
Definition MOD_CTRL : Z := 1.
Definition MOD_SHIFT : Z := 2.
Definition MOD_ALT : Z := 8.

(** The reserved bytes are always zero — kernel/src/input.rs:80-93 [InputEvent] *)
Record InputEvent := mkEvent {
  event_type : Z;
  modifiers : Z;
  key_code : Z;
  mouse_button : Z;
  wheel_delta : Z;
  mouse_x : Z;
  mouse_y : Z;
  timestamp : Z;
}.

(** The record as it is copied to user memory: little-endian, no holes —
    kernel/src/input.rs:80-96 [InputEvent, repr(C)] *)
Definition event_bytes (e : InputEvent) : bytes :=
  [event_type e; modifiers e; key_code e; mouse_button e; wrap 8 (wheel_delta e); 0; 0; 0]%Z
  ++ to_le 4 (wrap 32 (mouse_x e)) ++ to_le 4 (wrap 32 (mouse_y e)) ++ to_le 8 (timestamp e)
  ++ replicate 8 0%Z.

(** kernel/src/input.rs:98-98 [MAX_QUEUE_CAPACITY] *)
Definition MAX_QUEUE_CAPACITY : nat := 64.

(** kernel/src/input.rs:101-103 [EventQueue] *)
Definition EventQueue : Type := list InputEvent.

Definition is_move (e : InputEvent) : bool := (event_type e =? EvMouseMove)%Z.

(** The last event takes the position of a new move —
    kernel/src/input.rs:117-122 [EventQueue::push, coalescing] *)
Definition coalesce (old ev : InputEvent) : InputEvent :=
  mkEvent (event_type old) (modifiers ev) (key_code old) (mouse_button old) (wheel_delta old)
    (mouse_x ev) (mouse_y ev) (timestamp ev).

(** A full queue loses its oldest move, or its oldest event —
    kernel/src/input.rs:129-137 [EventQueue::push, capacity] *)
Definition make_room (q : list InputEvent) : list InputEvent :=
  if (MAX_QUEUE_CAPACITY <=? length q)%nat then
    match list_find is_move q with
    | Some (pos, _) => delete pos q
    | None => delete 0 q
    end
  else q.

(** kernel/src/input.rs:112-140 [EventQueue::push] *)
Definition push (ev : InputEvent) (q : list InputEvent) : list InputEvent :=
  match is_move ev, last q with
  | true, Some e => if is_move e then <[length q - 1 := coalesce e ev]> q else make_room q ++ [ev]
  | _, _ => make_room q ++ [ev]
  end.

(** kernel/src/input.rs:142-148 [EventQueue::pop] *)
Definition pop (q : list InputEvent) : option (InputEvent * list InputEvent) :=
  match q with [] => None | e :: q => Some (e, q) end.

(** kernel/src/input.rs:159-164 [INPUT_QUEUES, KERNEL_INPUT_OWNERS] *)
Record Inputs := mkInputs {
  INPUT_QUEUES : gmap Z (list InputEvent);
  KERNEL_INPUT_OWNERS : gset Z;
}.

(** kernel/src/input.rs:166-170 [register_kernel_input_owner] *)
Definition register_kernel_input_owner (pid : Z) (i : Inputs) : Inputs :=
  mkInputs (delete pid (INPUT_QUEUES i)) ({[pid]} ∪ KERNEL_INPUT_OWNERS i).

(** kernel/src/input.rs:173-178 [deliver_event_to_pid] *)
Definition deliver_event_to_pid (pid : Z) (ev : InputEvent) (i : Inputs) : Inputs :=
  if decide (pid ∈ KERNEL_INPUT_OWNERS i) then i
  else mkInputs (<[pid := push ev (default [] (INPUT_QUEUES i !! pid))]> (INPUT_QUEUES i)) (KERNEL_INPUT_OWNERS i).

(** kernel/src/input.rs:181-188 [cleanup_input_for_pid] *)
Definition cleanup_input_for_pid (pid : Z) (i : Inputs) : Inputs :=
  mkInputs (delete pid (INPUT_QUEUES i)) (KERNEL_INPUT_OWNERS i ∖ {[pid]}).

(** [INPUT_QUEUES.lock().get_mut(&pid).and_then(|q| q.pop())] *)
Definition take_event (pid : Z) (i : Inputs) : option (InputEvent * Inputs) :=
  q ← INPUT_QUEUES i !! pid;
  '(e, q) ← pop q;
  Some (e, mkInputs (<[pid := q]> (INPUT_QUEUES i)) (KERNEL_INPUT_OWNERS i)).

(** ** The input service *)

(** spark-abi/src/input.rs:6-9 [INPUT_OP_REGISTER_CLIENT, ...] *)
Definition INPUT_OP_POLL_EVENT : Z := 2.
Definition INPUT_OP_SEND_EVENT : Z := 3.

(** spark-abi/src/input.rs:11-16 [EVENT_KEY_DOWN, ...] *)
Definition EVENT_KEY_DOWN : Z := 1.
Definition EVENT_KEY_UP : Z := 2.
Definition EVENT_MOUSE_MOVE : Z := 3.

(** spark-abi/src/input.rs:20-28 [InputEvent] *)
Record AbiInputEvent := mkAbiEvent {
  ae_kind : Z;
  ae_keycode : Z;
  ae_modifiers : Z;
  ae_mouse_x : Z;
  ae_mouse_y : Z;
  ae_buttons : Z;
  ae_timestamp_ms : Z;
}.

(** spark-abi/src/input.rs:31-41 [InputEvent::empty] *)
Definition abi_event_empty : AbiInputEvent := mkAbiEvent 0 0 0 0 0 0 0.

(** spark-abi/src/input.rs:70-75 [InputRequest] *)
Record InputRequest := mkInputRequest {
  iq_opcode : Z;
  iq_client_pid : Z;
  iq_target_window : Z;
  iq_event : AbiInputEvent;
}.

(** spark-abi/src/input.rs:90-94 [InputResponse] *)
Record InputResponse := mkInputResponse {
  ip_status : Z;
  ip_pending_count : Z;
  ip_event : AbiInputEvent;
}.

(** The kernel's event for a client — kernel/src/input.rs:753-761 [dispatch_input_request, abi_ev] *)
Definition to_abi (e : InputEvent) : AbiInputEvent :=
  mkAbiEvent (event_type e) (key_code e) (modifiers e) (mouse_x e) (mouse_y e) (mouse_button e) (timestamp e).

(** A client's event for the kernel — kernel/src/input.rs:768-779 [dispatch_input_request, kernel_ev] *)
Definition of_abi (e : AbiInputEvent) : InputEvent :=
  mkEvent (wrap 8 (ae_kind e)) (wrap 8 (ae_modifiers e)) (wrap 8 (ae_keycode e)) (wrap 8 (ae_buttons e)) 0
    (ae_mouse_x e) (ae_mouse_y e) (ae_timestamp_ms e).

(** kernel/src/input.rs:747-785 [dispatch_input_request] *)
Definition dispatch_input_request (req : InputRequest) (i : Inputs) : InputResponse * Inputs :=
  if (iq_opcode req =? INPUT_OP_POLL_EVENT)%Z then
    match take_event (iq_client_pid req) i with
    | Some (ev, i') =>
        (mkInputResponse 0 (Z.of_nat (length (default [] (INPUT_QUEUES i' !! iq_client_pid req)))) (to_abi ev), i')
    | None => (mkInputResponse 0 0 abi_event_empty, i)
    end
  else if (iq_opcode req =? INPUT_OP_SEND_EVENT)%Z then
    (mkInputResponse 0 0 (iq_event req), deliver_event_to_pid (iq_client_pid req) (of_abi (iq_event req)) i)
  else (mkInputResponse 38 0 abi_event_empty, i).

(** ** The queue *)

Definition is_key (e : InputEvent) : Prop := is_move e = false.
#[local] Instance is_key_dec e : Decision (is_key e).
Proof. unfold is_key. apply _. Defined.

(** The events that are not moves. *)
Definition keys (q : list InputEvent) : list InputEvent := filter is_key q.

Lemma keys_app q r : keys (q ++ r) = keys q ++ keys r.
Proof. apply filter_app. Qed.
Lemma keys_one e : keys [e] = if is_move e then [] else [e].
Proof. unfold keys. rewrite filter_cons, filter_nil. case_decide as H; unfold is_key in H; destruct (is_move e); done. Qed.

Lemma delete_split {A} (q : list A) i e : q !! i = Some e →
  q = take i q ++ e :: drop (S i) q ∧ delete i q = take i q ++ drop (S i) q.
Proof. intros H. split; [by rewrite take_drop_middle|apply delete_take_drop]. Qed.

Lemma keys_full q : keys q = q ↔ list_find is_move q = None.
Proof.
  rewrite list_find_None. unfold keys. split.
  - intros H. rewrite <- H. apply Forall_forall. intros e [He _]%list_elem_of_filter. by apply Is_true_false_2.
  - intros H. apply filter_all. intros e He. rewrite Forall_forall in H. by apply Is_true_false_1, H.
Qed.

(** Room is made by giving up a move as long as there is one. *)
Lemma make_room_spec q : length q ≤ MAX_QUEUE_CAPACITY →
  length (make_room q) < MAX_QUEUE_CAPACITY ∧
  keys (make_room q) = (if decide (length (keys q) < MAX_QUEUE_CAPACITY) then keys q else tail q).
Proof.
  intros Hl. unfold make_room. destruct (Nat.leb_spec MAX_QUEUE_CAPACITY (length q)) as [Hfull|Hfree].
  - destruct (list_find is_move q) as [[i e]|] eqn:Hf.
    + apply list_find_Some in Hf as (Hi & He & _). destruct (delete_split q i e Hi) as [Hq Hd].
      assert (length (delete i q) = length q - 1) as Hn by by apply length_delete.
      assert (keys (delete i q) = keys q) as Hk.
      { rewrite Hd. rewrite Hq at 3. rewrite !keys_app. f_equal. change (e :: ?l) with ([e] ++ l).
        rewrite keys_app, keys_one. by destruct (is_move e). }
      rewrite Hk. split; [unfold MAX_QUEUE_CAPACITY in *; lia|]. rewrite decide_True; [done|].
      rewrite <- Hk. pose proof (length_filter is_key (delete i q)). unfold keys, MAX_QUEUE_CAPACITY in *. lia.
    + apply keys_full in Hf. rewrite Hf. rewrite decide_False by lia.
      destruct q as [|e q]; [cbn in Hfull; unfold MAX_QUEUE_CAPACITY in Hfull; lia|]. cbn [delete list_delete tail].
      split; [cbn in Hl; lia|]. revert Hf. unfold keys. rewrite filter_cons. case_decide; [by intros [= ->]|].
      intros Hf. pose proof (length_filter is_key q) as Hle. rewrite Hf in Hle. cbn in Hle. lia.
  - split; [done|]. rewrite decide_True; [done|]. pose proof (length_filter is_key q). unfold keys. lia.
Qed.

Lemma push_spec ev q : length q ≤ MAX_QUEUE_CAPACITY →
  length (push ev q) ≤ MAX_QUEUE_CAPACITY ∧
  (length (keys q) < MAX_QUEUE_CAPACITY → keys (push ev q) = keys q ++ keys [ev]) ∧
  (∃ e, last (push ev q) = Some e ∧ event_type e = event_type ev ∧ mouse_x e = mouse_x ev ∧
        mouse_y e = mouse_y ev ∧ timestamp e = timestamp ev ∧ (is_key ev → e = ev)).
Proof.
  intros Hl. destruct (make_room_spec q Hl) as [Hr Hk].
  assert (∀ q', push ev q = make_room q ++ [ev] → q' = push ev q →
    length q' ≤ MAX_QUEUE_CAPACITY ∧
    (length (keys q) < MAX_QUEUE_CAPACITY → keys q' = keys q ++ keys [ev]) ∧
    (∃ e, last q' = Some e ∧ event_type e = event_type ev ∧ mouse_x e = mouse_x ev ∧
          mouse_y e = mouse_y ev ∧ timestamp e = timestamp ev ∧ (is_key ev → e = ev))) as Hroom.
  { intros q' Hp ->. rewrite Hp, length_app. split; [cbn; lia|]. split.
    - intros Hlt. rewrite keys_app, Hk. by rewrite decide_True.
    - exists ev. by rewrite last_snoc. }
  unfold push in *. destruct (is_move ev) eqn:Hev; [|by apply Hroom].
  destruct (last q) as [e|] eqn:He; [|by apply Hroom]. destruct (is_move e) eqn:Hm; [|by apply Hroom].
  apply last_Some in He as [q0 ->]. rewrite length_app, Nat.add_sub, insert_app_r_alt, Nat.sub_diag by done.
  cbn [insert list_insert]. clear Hroom. split; [rewrite length_app in *; cbn in *; lia|].
  assert (is_move (coalesce e ev) = true) as Hc by done. split.
  - intros _. rewrite !keys_app, !keys_one, Hev, Hm, Hc, !app_nil_r. done.
  - exists (coalesce e ev). rewrite last_snoc. split_and!; try done.
    + unfold is_move in *. apply Z.eqb_eq in Hev, Hm. cbn. congruence.
    + unfold is_key. by rewrite Hev.
Qed.

(** What a process and the kernel do to a queue. *)
Variant queue_op := Push (ev : InputEvent) | Pop.

(** The events popped, and the queue that is left. *)
Fixpoint run_queue (ops : list queue_op) (q : list InputEvent) : list InputEvent * list InputEvent :=
  match ops with
  | [] => ([], q)
  | Push ev :: ops => run_queue ops (push ev q)
  | Pop :: ops =>
      match pop q with
      | Some (e, q) => let '(out, q) := run_queue ops q in (e :: out, q)
      | None => run_queue ops q
      end
  end.

(** Never more than the capacity of events that are not moves wait. *)
Fixpoint keeps_up (ops : list queue_op) (q : list InputEvent) : bool :=
  match ops with
  | [] => true
  | Push ev :: ops => (length (keys q) <? MAX_QUEUE_CAPACITY)%nat && keeps_up ops (push ev q)
  | Pop :: ops => keeps_up ops (match pop q with Some (_, q) => q | None => q end)
  end.

Definition pushed (ops : list queue_op) : list InputEvent :=
  omap (λ op, match op with Push ev => Some ev | Pop => None end) ops.

(** The event queue of a process is bounded and loses no key: it never holds
    more than 64 events, whatever is pushed; the events that are not moves of
    the mouse come out in the order they went in, none lost and none made up, as
    long as fewer than 64 of them wait whenever one more event arrives; and the
    newest event is always there with its position and time. *)
Theorem queue_keeps_keys (ops : list queue_op) (q : list InputEvent) :
  length q ≤ MAX_QUEUE_CAPACITY →
  length (run_queue ops q).2 ≤ MAX_QUEUE_CAPACITY ∧
  (keeps_up ops q = true →
   keys (run_queue ops q).1 ++ keys (run_queue ops q).2 = keys q ++ keys (pushed ops)) ∧
  (∀ ev, ∃ e, last (run_queue (ops ++ [Push ev]) q).2 = Some e ∧ event_type e = event_type ev ∧
     mouse_x e = mouse_x ev ∧ mouse_y e = mouse_y ev ∧ timestamp e = timestamp ev ∧ (is_key ev → e = ev)).
Proof.
  induction ops as [|[ev|] ops IH] in q |- *; intros Hl; cbn [run_queue keeps_up app].
  - split; [done|]. split; [intros _; cbn; by rewrite app_nil_r|]. intros ev. by apply push_spec.
  - destruct (push_spec ev q Hl) as (Hl' & Hk & _). destruct (IH _ Hl') as (H1 & H2 & H3).
    split; [done|]. split; [|done]. intros [Hr Hu]%andb_true_iff. rewrite H2 by done.
    rewrite Hk by (by apply Nat.ltb_lt). rewrite <- app_assoc, <- keys_app. done.
  - destruct q as [|e q]; cbn [pop]; [by apply IH|]. cbn in Hl.
    destruct (IH q) as (H1 & H2 & H3); [lia|].
    split; [by destruct (run_queue ops q)|]. split.
    + intros Hu. specialize (H2 Hu). destruct (run_queue ops q) as [out q'] eqn:E. cbn [fst snd] in *.
      change (e :: out) with ([e] ++ out). change (e :: q) with ([e] ++ q). rewrite !keys_app, <- !app_assoc. by f_equal.
    + intros ev. specialize (H3 ev). by destruct (run_queue (ops ++ [Push ev]) q).
Qed.

Definition demo_key (k : Z) : InputEvent := mkEvent EvKeyDown 0 k 0 0 0 0 0.
Definition demo_move (x : Z) : InputEvent := mkEvent EvMouseMove 0 0 0 0 x 0 x.

Lemma queue_keeps_keys_witness :
  let ops := [Push (demo_move 1); Push (demo_move 2); Push (demo_key 30); Pop; Push (demo_key 31); Pop] in
  keys (run_queue ops []).1 ++ keys (run_queue ops []).2 = [demo_key 30; demo_key 31] ∧
  (run_queue ops []).1 = [demo_move 2; demo_key 30].
Proof.
  split; [|reflexivity].
  apply (queue_keeps_keys [Push (demo_move 1); Push (demo_move 2); Push (demo_key 30); Pop; Push (demo_key 31); Pop] []);
    [cbn; unfold MAX_QUEUE_CAPACITY; lia|reflexivity].
Defined.

(** A move of the mouse that a client polls looks like a key to it, and the
    service delivers what any client sends to whatever process it names. *)
Lemma polled_move_is_a_key (x y t : Z) (i : Inputs) (pid : Z) (H : pid ∉ KERNEL_INPUT_OWNERS i) :
  INPUT_QUEUES i !! pid = None →
  ae_kind (ip_event (dispatch_input_request (mkInputRequest INPUT_OP_POLL_EVENT pid 0 abi_event_empty)
     (deliver_event_to_pid pid (mkEvent EvMouseMove 0 0 0 0 x y t) i)).1) = EVENT_KEY_DOWN.
Proof.
  intros Hq. unfold deliver_event_to_pid. rewrite decide_False, Hq by done.
  unfold dispatch_input_request, take_event. cbn [iq_opcode iq_client_pid INPUT_QUEUES Z.eqb INPUT_OP_POLL_EVENT].
  cbn -[insert lookup]. by rewrite lookup_insert_eq.
Qed.
