(* ===== verification/Window.v ===== *)
(** * Windows (kernel/src/wm.rs)

    The data of the window manager, and what its operations do to one window:
    clamping, snapping, restoring, resizing by eight edges, and what a click or
    a hovering pointer means at a point of a window.  Sums that are only compared
    are exact integers; what is stored or reported as damage is checked or cast
    as the code does. *)
From S2P Require Import Prelude Damage Apps.

(** kernel/src/wm.rs:9-13 [WORK_AREA_TOP, DOCK_HEIGHT, MIN_WINDOW_WIDTH, MIN_WINDOW_HEIGHT, EDGE_SNAP_THRESHOLD] *)
Definition WORK_AREA_TOP : Z := 24.
Definition DOCK_HEIGHT : Z := 24.
Definition MIN_WINDOW_WIDTH : Z := 120.
Definition MIN_WINDOW_HEIGHT : Z := 60.
Definition EDGE_SNAP_THRESHOLD : Z := 16.

(** kernel/src/wm.rs:16-22 [WmError] *)
Variant WmError := InvalidDimensions | WmNotFound | PermissionDenied | SurfaceNotFound | StaleHandle.

(** kernel/src/wm.rs:25-33 [WindowState] *)
Variant WindowState := Normal | Minimized | Maximized | Fullscreen | SnappedLeft | SnappedRight | WinClosed.
#[export] Instance WindowState_eq : EqDecision WindowState.
Proof. solve_decision. Defined.

(** kernel/src/wm.rs:36-46 [ResizeEdge] *)
Variant ResizeEdge := EdgeNone | EdgeLeft | EdgeRight | EdgeTop | EdgeBottom
  | EdgeTopLeft | EdgeTopRight | EdgeBottomLeft | EdgeBottomRight.
#[export] Instance ResizeEdge_eq : EqDecision ResizeEdge.
Proof. solve_decision. Defined.

(** kernel/src/wm.rs:49-54 [ChromeButton] *)
Variant ChromeButton := ButtonNone | ButtonMinimize | ButtonMaximize | ButtonClose.
#[export] Instance ChromeButton_eq : EqDecision ChromeButton.
Proof. solve_decision. Defined.

(** kernel/src/wm.rs:57-62 [HoverTarget] *)
Record HoverTarget := mkHover {
  h_window : Z;
  h_button : ChromeButton;
  is_titlebar : bool;
  h_edge : ResizeEdge;
}.
#[export] Instance HoverTarget_eq : EqDecision HoverTarget.
Proof. solve_decision. Defined.

(** Position and size. *)
Definition Geom : Type := Z * Z * Z * Z.

(** kernel/src/wm.rs:65-81 [Window] *)
Record Window := mkWindow {
  w_id : Z;
  w_owner : Z;
  w_surface : Z;
  w_x : Z;
  w_y : Z;
  w_width : Z;
  w_height : Z;
  visible : bool;
  focused : bool;
  w_state : WindowState;
  normal_geom : Geom;
  prev_state : WindowState;
  saved_geom : option Geom;
  title : bytes;
  icon : AppIcon;
}.

(** kernel/src/cursor.rs:8-15 [CursorType] *)
Variant CursorType := CursorDefault | CursorText | CursorHorizontal | CursorVertical | CursorDiagonal | CursorHand.

(** Assignments. *)
Definition geom (w : Window) : Geom := (w_x w, w_y w, w_width w, w_height w).
Definition set_geom (g : Geom) (w : Window) : Window :=
  mkWindow (w_id w) (w_owner w) (w_surface w) g.1.1.1 g.1.1.2 g.1.2 g.2 (visible w) (focused w) (w_state w) (normal_geom w)
    (prev_state w) (saved_geom w) (title w) (icon w).
Definition set_visible (b : bool) (w : Window) : Window :=
  mkWindow (w_id w) (w_owner w) (w_surface w) (w_x w) (w_y w) (w_width w) (w_height w) b (focused w) (w_state w)
    (normal_geom w) (prev_state w) (saved_geom w) (title w) (icon w).
Definition set_focused (b : bool) (w : Window) : Window :=
  mkWindow (w_id w) (w_owner w) (w_surface w) (w_x w) (w_y w) (w_width w) (w_height w) (visible w) b (w_state w)
    (normal_geom w) (prev_state w) (saved_geom w) (title w) (icon w).
Definition set_w_state (s : WindowState) (w : Window) : Window :=
  mkWindow (w_id w) (w_owner w) (w_surface w) (w_x w) (w_y w) (w_width w) (w_height w) (visible w) (focused w) s
    (normal_geom w) (prev_state w) (saved_geom w) (title w) (icon w).
Definition set_normal (g : Geom) (w : Window) : Window :=
  mkWindow (w_id w) (w_owner w) (w_surface w) (w_x w) (w_y w) (w_width w) (w_height w) (visible w) (focused w)
    (w_state w) g (prev_state w) (saved_geom w) (title w) (icon w).
Definition set_prev (s : WindowState) (w : Window) : Window :=
  mkWindow (w_id w) (w_owner w) (w_surface w) (w_x w) (w_y w) (w_width w) (w_height w) (visible w) (focused w)
    (w_state w) (normal_geom w) s (saved_geom w) (title w) (icon w).
Definition set_saved (g : option Geom) (w : Window) : Window :=
  mkWindow (w_id w) (w_owner w) (w_surface w) (w_x w) (w_y w) (w_width w) (w_height w) (visible w) (focused w)
    (w_state w) (normal_geom w) (prev_state w) g (title w) (icon w).
Definition set_title (t : bytes) (w : Window) : Window :=
  mkWindow (w_id w) (w_owner w) (w_surface w) (w_x w) (w_y w) (w_width w) (w_height w) (visible w) (focused w)
    (w_state w) (normal_geom w) (prev_state w) (saved_geom w) t (icon w).
(** [if win.state == Normal { win.normal_geom = (win.x, win.y, win.width, win.height) }] *)
Definition keep_normal (w : Window) : Window :=
  if decide (w_state w = Normal) then set_normal (geom w) w else w.

(** [v.clamp(lo, hi)], which panics when [hi < lo]. *)
Definition clamp (lo hi v : Z) : option Z :=
  if (hi <? lo)%Z then None else Some (lo `max` (v `min` hi))%Z.

Section screen.
Context (screen_w screen_h : Z).

(** The height below the top bar. *)
Definition work_h : Z := saturating_sub screen_h WORK_AREA_TOP.

(** Where a new window goes — kernel/src/wm.rs:235-238 [create_window_with_meta, clamping] *)
Definition fit_new (x y wd ht : Z) : option Geom :=
  cw ← clamp MIN_WINDOW_WIDTH screen_w wd;
  ch ← clamp MIN_WINDOW_HEIGHT (saturating_sub screen_h (WORK_AREA_TOP + DOCK_HEIGHT)) ht;
  cx ← clamp 0 (to_signed 32 (saturating_sub screen_w cw)) x;
  cy ← clamp WORK_AREA_TOP (to_signed 32 (saturating_sub screen_h (ch + DOCK_HEIGHT + 20))) y;
  Some (cx, cy, cw, ch).

(** kernel/src/wm.rs:363-368 [minimize_window] *)
Definition minimized (w : Window) : Window :=
  let w := if decide (w_state w ≠ Minimized) then set_prev (w_state w) w else w in
  set_w_state Minimized (set_focused false (set_visible false w)).

(** kernel/src/wm.rs:403-444 [restore_window] *)
Definition restored (w : Window) : Window :=
  let w := if decide (w_state w = Minimized) then set_w_state (prev_state w) w else w in
  let w := set_visible true w in
  match w_state w with
  | Maximized => set_geom (0, WORK_AREA_TOP, screen_w, work_h)%Z w
  | Fullscreen => set_geom (0, 0, screen_w, screen_h)%Z w
  | SnappedLeft => set_geom (0, WORK_AREA_TOP, screen_w / 2, work_h)%Z w
  | SnappedRight => set_geom (screen_w / 2, WORK_AREA_TOP, screen_w - screen_w / 2, work_h)%Z w
  | _ => set_geom (normal_geom w) (set_w_state Normal w)
  end.

(** kernel/src/wm.rs:464-473 [snap_left] *)
Definition snapped_left (w : Window) : Window :=
  set_prev Normal (set_w_state SnappedLeft (set_geom (0, WORK_AREA_TOP, screen_w / 2, work_h)%Z (keep_normal w))).
(** kernel/src/wm.rs:499-508 [snap_right] *)
Definition snapped_right (w : Window) : Window :=
  set_prev Normal (set_w_state SnappedRight
    (set_geom (screen_w / 2, WORK_AREA_TOP, screen_w - screen_w / 2, work_h)%Z (keep_normal w))).

(** The normal geometry, on the screen; [mh] bounds the height —
    kernel/src/wm.rs:538-545 [toggle_maximize_window, restore] *)
Definition back_to_normal (mh : Z) (w : Window) : option Window :=
  let '(nx, ny, nw, nh) := normal_geom w in
  x ← clamp 0 (to_signed 32 (saturating_sub screen_w MIN_WINDOW_WIDTH)) nx;
  y ← clamp WORK_AREA_TOP (to_signed 32 (saturating_sub screen_h (MIN_WINDOW_HEIGHT + 20))) ny;
  wd ← clamp MIN_WINDOW_WIDTH screen_w nw;
  ht ← clamp MIN_WINDOW_HEIGHT mh nh;
  Some (set_saved None (set_w_state Normal (set_geom (x, y, wd, ht) w))).

(** kernel/src/wm.rs:536-558 [toggle_maximize_window] *)
Definition toggled_maximize (w : Window) : option Window :=
  if decide (w_state w = Maximized) then set_prev Normal <$> back_to_normal work_h w
  else
    let w := keep_normal w in
    Some (set_prev Normal (set_w_state Maximized
      (set_geom (0, WORK_AREA_TOP, screen_w, work_h)%Z (set_saved (Some (normal_geom w)) w)))).

(** kernel/src/wm.rs:581-611 [toggle_fullscreen] *)
Definition toggled_fullscreen (w : Window) : option Window :=
  if decide (w_state w = Fullscreen) then
    w' ← (if decide (prev_state w = Maximized)
          then Some (set_w_state Maximized (set_geom (0, WORK_AREA_TOP, screen_w, work_h)%Z w))
          else back_to_normal screen_h w);
    Some (set_prev Normal w')
  else
    let w := keep_normal (set_prev (w_state w) w) in
    Some (set_w_state Fullscreen (set_geom (0, 0, screen_w, screen_h)%Z (set_saved (Some (normal_geom w)) w))).

(** kernel/src/wm.rs:885-892 [move_window] *)
Definition moved (new_x new_y : Z) (w : Window) : option Window :=
  x ← clamp (-100) (screen_w - 50) new_x;
  y ← clamp WORK_AREA_TOP (screen_h - (DOCK_HEIGHT + 30)) new_y;
  Some (keep_normal (set_geom (x, y, w_width w, w_height w) w)).

(** Where a window lands when it is let go — kernel/src/wm.rs:1540-1568 [handle_mouse_up, snapping] *)
Definition dropped (w : Window) : Window :=
  let work_h := wrap 32 (screen_h - WORK_AREA_TOP) in
  if (w_y w <=? WORK_AREA_TOP + EDGE_SNAP_THRESHOLD)%Z then
    set_prev Normal (set_w_state Maximized (set_geom (0, WORK_AREA_TOP, screen_w, work_h)%Z w))
  else if (w_x w <=? EDGE_SNAP_THRESHOLD)%Z then
    set_prev Normal (set_w_state SnappedLeft (set_geom (0, WORK_AREA_TOP, screen_w / 2, work_h)%Z w))
  else if (screen_w - EDGE_SNAP_THRESHOLD <=? w_x w + w_width w)%Z then
    set_prev Normal (set_w_state SnappedRight
      (set_geom (screen_w / 2, WORK_AREA_TOP, screen_w - screen_w / 2, work_h)%Z w))
  else set_normal (geom w) (set_w_state Normal w).

(** ** Resizing *)

(** The four ways an edge moves, from the geometry at the start of the drag; the
    left and the top edge leave the opposite one where it is —
    kernel/src/wm.rs:1619-1643 [handle_mouse_move, Right, Left, Bottom, Top] *)
Definition drag_right (ox ow dx : Z) : option Z :=
  wrap 32 <$> clamp MIN_WINDOW_WIDTH (screen_w - ox) (ow + dx).
Definition drag_left (ox ow dx : Z) : option (Z * Z) :=
  x ← clamp 0 (ox + ow - MIN_WINDOW_WIDTH) (ox + dx); Some (x, wrap 32 (ox + ow - x)).
Definition drag_bottom (oy oh dy : Z) : option Z :=
  wrap 32 <$> clamp MIN_WINDOW_HEIGHT ((screen_h - (oy + 20)) `max` MIN_WINDOW_HEIGHT) (oh + dy).
Definition drag_top (oy oh dy : Z) : option (Z * Z) :=
  y ← clamp WORK_AREA_TOP (oy + oh - MIN_WINDOW_HEIGHT) (oy + dy); Some (y, wrap 32 (oy + oh - y)).

(** kernel/src/wm.rs:1618-1678 [handle_mouse_move, edges] *)
Definition resized (edge : ResizeEdge) (o : Geom) (dx dy : Z) (cur : Geom) : option Geom :=
  let '(ox, oy, ow, oh) := o in
  let '(x, y, wd, ht) := cur in
  match edge with
  | EdgeNone => Some cur
  | EdgeRight => w' ← drag_right ox ow dx; Some (x, y, w', ht)
  | EdgeLeft => '(x', w') ← drag_left ox ow dx; Some (x', y, w', ht)
  | EdgeBottom => h' ← drag_bottom oy oh dy; Some (x, y, wd, h')
  | EdgeTop => '(y', h') ← drag_top oy oh dy; Some (x, y', wd, h')
  | EdgeTopLeft => '(x', w') ← drag_left ox ow dx; '(y', h') ← drag_top oy oh dy; Some (x', y', w', h')
  | EdgeTopRight => w' ← drag_right ox ow dx; '(y', h') ← drag_top oy oh dy; Some (x, y', w', h')
  | EdgeBottomLeft => '(x', w') ← drag_left ox ow dx; h' ← drag_bottom oy oh dy; Some (x', y, w', h')
  | EdgeBottomRight => w' ← drag_right ox ow dx; h' ← drag_bottom oy oh dy; Some (x, y, w', h')
  end.

(** kernel/src/wm.rs:1691-1695 [handle_mouse_move, ctype] *)
Definition edge_cursor (e : ResizeEdge) : CursorType :=
  match e with
  | EdgeLeft | EdgeRight => CursorHorizontal
  | EdgeTop | EdgeBottom => CursorVertical
  | _ => CursorDiagonal
  end.
End screen.

(** ** What is at a point *)

(** [lo <= v && v <= hi] and [lo <= v && v < hi] *)
Definition within (lo v hi : Z) : bool := (lo <=? v)%Z && (v <=? hi)%Z.
Definition inside_of (lo v hi : Z) : bool := (lo <=? v)%Z && (v <? hi)%Z.

(** A window that takes part in hit tests. *)
Definition shown (w : Window) : bool := visible w && negb (bool_decide (w_state w = Minimized)).
Definition resizable (w : Window) : bool :=
  negb (bool_decide (w_state w = Maximized)) && negb (bool_decide (w_state w = Fullscreen)).

(** The border that a click grabs; the first that fits —
    kernel/src/wm.rs:1427-1476 [handle_mouse_down, resize borders] *)
Definition border_at (w : Window) (mx my : Z) : option ResizeEdge :=
  let wx := w_x w in let wy := w_y w in
  let ww := to_signed 32 (w_width w) in let wh := to_signed 32 (w_height w) in
  if within (wx - 6) mx (wx + 8) && within (wy - 6) my (wy + 8) then Some EdgeTopLeft
  else if within (wx + ww - 8) mx (wx + ww + 6) && within (wy - 6) my (wy + 8) then Some EdgeTopRight
  else if within (wx - 6) mx (wx + 8) && within (wy + 20 + wh - 8) my (wy + 20 + wh + 6) then Some EdgeBottomLeft
  else if within (wx + ww - 8) mx (wx + ww + 6) && within (wy + 20 + wh - 8) my (wy + 20 + wh + 6)
  then Some EdgeBottomRight
  else if within (wx - 6) mx (wx + 4) && within wy my (wy + 20 + wh) then Some EdgeLeft
  else if within (wx + ww - 4) mx (wx + ww + 6) && within wy my (wy + 20 + wh) then Some EdgeRight
  else if within wx mx (wx + ww) && within (wy - 6) my (wy + 4) then Some EdgeTop
  else if within wx mx (wx + ww) && within (wy + 20 + wh - 4) my (wy + 20 + wh + 6) then Some EdgeBottom
  else None.

(** The button of the title bar — kernel/src/wm.rs:1480-1494 [handle_mouse_down, buttons] *)
Definition button_at (w : Window) (mx my : Z) : ChromeButton :=
  let right := (w_x w + to_signed 32 (w_width w))%Z in
  let on a b := within (right - a) mx (right - b) && within (w_y w + 2) my (w_y w + 18) in
  if on 20%Z 4%Z then ButtonClose
  else if on 38%Z 22%Z then ButtonMaximize
  else if on 56%Z 40%Z then ButtonMinimize
  else ButtonNone.

Definition in_titlebar (w : Window) (mx my : Z) : bool :=
  inside_of (w_x w) mx (w_x w + to_signed 32 (w_width w)) && inside_of (w_y w) my (w_y w + 20).
Definition in_client (w : Window) (mx my : Z) : bool :=
  inside_of (w_x w) mx (w_x w + to_signed 32 (w_width w))
  && inside_of (w_y w + 20) my (w_y w + 20 + to_signed 32 (w_height w)).

(** What a click on a window asks for. *)
Variant ClickZone := ZoneFullscreen | ZoneBorder (e : ResizeEdge) | ZoneButton (b : ChromeButton)
  | ZoneTitle | ZoneClient.

(** kernel/src/wm.rs:1407-1523 [handle_mouse_down, tests] *)
Definition click_zone (w : Window) (mx my : Z) : option ClickZone :=
  if negb (shown w) then None
  else if bool_decide (w_state w = Fullscreen) then Some ZoneFullscreen
  else match (if resizable w then border_at w mx my else None) with
  | Some e => Some (ZoneBorder e)
  | None =>
      if in_titlebar w mx my then
        match button_at w mx my with ButtonNone => Some ZoneTitle | b => Some (ZoneButton b) end
      else if in_client w mx my then Some ZoneClient
      else None
  end.

(** The topmost window with something at the point; windows are listed from back
    to front. *)
Fixpoint topmost {A} (f : Window → option A) (ws : list Window) : option (Window * A) :=
  match ws with
  | [] => None
  | w :: ws =>
      match topmost f ws with
      | Some r => Some r
      | None => (λ a, (w, a)) <$> f w
      end
  end.

(** kernel/src/wm.rs:947-956 [hit_test] *)
Definition hit (w : Window) (mx my : Z) : option unit :=
  if visible w && inside_of (w_x w) mx (w_x w + to_signed 32 (w_width w))
     && inside_of (w_y w) my (w_y w + (to_signed 32 (w_height w) + 20))
  then Some tt else None.

(** What hovering over a window shows, and the cursor —
    kernel/src/wm.rs:1778-1906 [handle_mouse_move, hover] *)
Definition hover_zone (w : Window) (mx my : Z) : option (HoverTarget * CursorType) :=
  let wx := w_x w in let wy := w_y w in
  let ww := to_signed 32 (w_width w) in let wh := to_signed 32 (w_height w) in
  let edge e := mkHover (w_id w) ButtonNone false e in
  if negb (shown w) then None
  else if bool_decide (w_state w = Fullscreen) then Some (edge EdgeNone, CursorDefault)
  else if negb (within (wx - 6) mx (wx + ww + 6) && within (wy - 6) my (wy + 20 + wh + 6)) then None
  else match
    (if negb (resizable w) then None
     else if within (wx + ww - 8) mx (wx + ww + 6) && within (wy + 20 + wh - 8) my (wy + 20 + wh + 6)
             || within (wx - 6) mx (wx + 8) && within (wy - 6) my (wy + 8)
     then Some (edge EdgeBottomRight, CursorDiagonal)
     else if within (wx - 6) mx (wx + 8) && within (wy + 20 + wh - 8) my (wy + 20 + wh + 6)
             || within (wx + ww - 8) mx (wx + ww + 6) && within (wy - 6) my (wy + 8)
     then Some (edge EdgeBottomLeft, CursorDiagonal)
     else if within (wx + ww - 4) mx (wx + ww + 6) && within wy my (wy + 20 + wh)
             || within (wx - 6) mx (wx + 4) && within wy my (wy + 20 + wh)
     then Some (edge EdgeRight, CursorHorizontal)
     else if within wx mx (wx + ww) && within (wy + 20 + wh - 4) my (wy + 20 + wh + 6)
             || within wx mx (wx + ww) && within (wy - 6) my (wy + 4)
     then Some (edge EdgeBottom, CursorVertical)
     else None) with
  | Some r => Some r
  | None =>
      if in_titlebar w mx my then
        match button_at w mx my with
        | ButtonNone => Some (mkHover (w_id w) ButtonNone true EdgeNone, CursorHand)
        | b => Some (mkHover (w_id w) b false EdgeNone, CursorHand)
        end
      else if in_client w mx my then Some (edge EdgeNone, CursorDefault)
      else None
  end.
