(* ===== verification/FramePool.v ===== *)
(** * Physical frames (kernel/src/frame_pool.rs, kernel/src/memory.rs)

    The pool from which user pages, page tables and DMA regions are taken: the
    uncarved physical regions, the sorted list of recycled frames and the set
    of allocated ones, with the wrappers of memory.rs that feed and use it.  The
    theorems: every frame handed out is inside the boot regions and overlaps no
    frame that is in use, a request is refused exactly when no contiguous run
    exists, and no byte of the pool is ever lost.  Zeroing the frames is not
    modelled. *)
From S2P Require Import Prelude.

(** ** The pool *)

(** kernel/src/frame_pool.rs:4 [PAGE_BYTES] *)
Definition PAGE_BYTES : Z := 4096.

(** kernel/src/frame_pool.rs:6-11 [FramePool] *)
Record FramePool := mkPool {
  regions : list (Z * Z);
  recycled : list Z;
  allocated : gset Z;
  total_bytes : Z;
}.

(** [None] is an overflow panic — kernel/src/frame_pool.rs:14-17 [FramePool::new] *)
Definition sum_regions (rs : list (Z * Z)) : option Z :=
  foldl (λ acc r, t ← acc; d ← fits 64 (r.2 - r.1)%Z; fits 64 (t + d)%Z) (Some 0%Z) rs.
Definition new (rs : list (Z * Z)) : option FramePool :=
  t ← sum_regions rs; Some (mkPool rs [] ∅ t).

(** The recycled frame after index [j] is adjacent to it —
    kernel/src/frame_pool.rs:28-28 [FramePool::allocate, adjacency] *)
Definition linked (rec : list Z) (j : nat) : Prop :=
  (rec !! j ≫= λ x, fits 64 (x + PAGE_BYTES)) = rec !! S j.

#[export] Instance linked_dec rec j : Decision (linked rec j).
Proof. unfold linked. apply _. Defined.

(** Where the run that ends at [e] starts —
    kernel/src/frame_pool.rs:28-30 [FramePool::allocate, run start] *)
Definition run_from (rec : list Z) (run_start e : nat) : nat :=
  if (0 <? e)%nat && negb (bool_decide (linked rec (e - 1))) then e else run_start.
#[global] Arguments run_from : simpl never.

(** kernel/src/frame_pool.rs:25-39 [FramePool::allocate, recycled run search] *)
Fixpoint find_run (rec : list Z) (count : nat) (ends : list nat) (run_start : nat)
  : option (nat * nat) :=
  match ends with
  | [] => None
  | e :: ends =>
      let run_start := run_from rec run_start e in
      if (e - run_start + 1 =? count)%nat then Some (run_start, e)
      else find_run rec count ends run_start
  end.

(** kernel/src/frame_pool.rs:25-39 [FramePool::allocate, recycled run search] *)
Definition recycled_run (rec : list Z) (count : nat) : option (nat * nat) :=
  if (count <=? length rec)%nat then find_run rec count (seq 0 (length rec)) 0 else None.

(** kernel/src/frame_pool.rs:41-51 [FramePool::allocate, region carving] *)
Fixpoint carve (rs : list (Z * Z)) (bytes : Z) : option (Z * list (Z * Z)) :=
  match rs with
  | [] => None
  | (start, stop) :: rs' =>
      let skip := '(first, rs'') ← carve rs' bytes; Some (first, (start, stop) :: rs'') in
      match fits 64 (start + bytes) with
      | None => skip
      | Some next => if (next <=? stop)%Z then Some (start, (next, stop) :: rs') else skip
      end
  end.

(** The addresses of [count] frames from [first]. *)
Definition extent (first : Z) (count : nat) : list Z :=
  (λ i : nat, first + Z.of_nat i * PAGE_BYTES)%Z <$> seq 0 count.

(** kernel/src/frame_pool.rs:19-53 [FramePool::allocate] *)
Definition allocate (count : nat) (p : FramePool) : option Z * FramePool :=
  if (count =? 0)%nat then (None, p)
  else match fits 64 (Z.of_nat count * PAGE_BYTES) with
  | None => (None, p)
  | Some bytes =>
      match recycled_run (recycled p) count with
      | Some (s, e) =>
          (recycled p !! s,
           mkPool (regions p) (take s (recycled p) ++ drop (S e) (recycled p))
             (allocated p ∪ list_to_set (take (e - s + 1) (drop s (recycled p)))) (total_bytes p))
      | None =>
          match carve (regions p) bytes with
          | Some (first, rs) =>
              (Some first,
               mkPool rs (recycled p) (allocated p ∪ list_to_set (extent first count)) (total_bytes p))
          | None => (None, p)
          end
      end
  end.

(** The index at which a binary search of a sorted list would insert; [None]
    when the element is found. *)
Definition binary_search_absent (addr : Z) (l : list Z) : option nat :=
  if bool_decide (addr ∈ l) then None else Some (length (filter (λ x, x < addr)%Z l)).

(** [None] is the panic of [unwrap_err] — kernel/src/frame_pool.rs:55-60 [FramePool::release] *)
Definition release (addr : Z) (p : FramePool) : option FramePool :=
  if bool_decide (addr ∈ allocated p) then
    i ← binary_search_absent addr (recycled p);
    Some (mkPool (regions p) (take i (recycled p) ++ addr :: drop i (recycled p))
            (allocated p ∖ {[addr]}) (total_bytes p))
  else Some p.

(** kernel/src/frame_pool.rs:62-64 [FramePool::stats] *)
Definition stats (p : FramePool) : Z * Z :=
  (Z.of_nat (size (allocated p)) * PAGE_BYTES, total_bytes p)%Z.

(** ** The kernel's pool *)

(** A boot memory region: start, end, usable. *)
Definition MemoryRegion : Type := Z * Z * bool.

(** [(a + 4095) & !4095]; [None] is the overflow panic of the addition *)
Definition page_up (a : Z) : option Z := b ← fits 64 (a + 4095); Some (Z.land b (Z.lnot 4095)).

(** The part of a boot region that user memory may use —
    kernel/src/memory.rs:94-109 [init_user_memory, region selection] *)
Definition user_region (heap : Z * Z) (r : MemoryRegion) : option (option (Z * Z)) :=
  let '(start, stop, usable) := r in
  if negb usable then Some None
  else if (start <=? heap.1)%Z && (heap.2 <=? stop)%Z then
    user_start ← page_up heap.2;
    Some (if (user_start <? stop)%Z then Some (user_start, stop) else None)
  else if (16777216 <=? start)%Z && ((heap.2 <=? start)%Z || (stop <=? heap.1)%Z) then
    start_aligned ← page_up start;
    Some (if (start_aligned <? stop)%Z then Some (start_aligned, stop) else None)
  else Some None.

#[global] Arguments user_region : simpl never.

(** kernel/src/memory.rs:89-110 [init_user_memory, region loop] *)
Definition user_regions (heap : Z * Z) (map : list MemoryRegion) : option (list (Z * Z)) :=
  rs ← mapM (user_region heap) map; Some (omap id rs).

(** The outer option is a panic; the state is the static [USER_FRAME_ALLOC] —
    kernel/src/memory.rs:84-113 [init_user_memory] *)
Definition init_user_memory (heap : Z * Z) (map : list MemoryRegion) (g : option FramePool)
  : option (option FramePool) :=
  match g with
  | Some p => Some (Some p)
  | None => rs ← user_regions heap map; p ← new rs; Some (Some p)
  end.

(** kernel/src/memory.rs:121-133 [user_alloc_contiguous_frames] *)
Definition user_alloc_contiguous_frames (count : nat) (g : option FramePool)
  : option Z * option FramePool :=
  match g with
  | None => (None, None)
  | Some p => let (a, p') := allocate count p in (a, Some p')
  end.

(** kernel/src/memory.rs:116-118 [user_alloc_frame] *)
Definition user_alloc_frame : option FramePool → option Z * option FramePool :=
  user_alloc_contiguous_frames 1.

(** kernel/src/memory.rs:135-139 [user_free_frame] *)
Definition user_free_frame (frame : Z) (g : option FramePool) : option (option FramePool) :=
  match g with
  | None => Some None
  | Some p => p' ← release frame p; Some (Some p')
  end.

(** kernel/src/memory.rs:142-144 [get_memory_stats] *)
Definition get_memory_stats (g : option FramePool) : Z * Z := from_option stats (0, 0)%Z g.

(** kernel/src/memory.rs:146-149 [frames_free] *)
Definition frames_free (g : option FramePool) : Z :=
  let (used, total) := get_memory_stats g in (saturating_sub total used / 4096)%Z.

(** ** Invariant *)

(** [[a, a + 4096)] and [[b, b + 4096)] share no byte. *)
Definition apart (a b : Z) : Prop := (a + PAGE_BYTES ≤ b ∨ b + PAGE_BYTES ≤ a)%Z.
Definition outside (a : Z) (r : Z * Z) : Prop := (a + PAGE_BYTES ≤ r.1 ∨ r.2 ≤ a)%Z.
Definition disjoint_regions (rs : list (Z * Z)) : Prop :=
  ∀ i j r r', rs !! i = Some r → rs !! j = Some r' → i ≠ j → (r.2 ≤ r'.1 ∨ r'.2 ≤ r.1)%Z.
Definition region_ok (r : Z * Z) : Prop := (0 ≤ r.1 ≤ r.2 ∧ r.2 < 2 ^ 64)%Z.

(** The frames that have been carved out of the regions. *)
Definition carved (p : FramePool) (a : Z) : Prop := a ∈ recycled p ∨ a ∈ allocated p.

Definition free_bytes (rs : list (Z * Z)) : Z := foldr (λ r t, r.2 - r.1 + t)%Z 0%Z rs.

Record pool_wf (rs0 : list (Z * Z)) (p : FramePool) : Prop := {
  pwf_regions : Forall region_ok (regions p);
  pwf_disjoint : disjoint_regions (regions p);
  pwf_sorted : StronglySorted Z.lt (recycled p);
  pwf_excl a : a ∈ recycled p → a ∉ allocated p;
  pwf_apart a b : carved p a → carved p b → a ≠ b → apart a b;
  pwf_outside a r : carved p a → r ∈ regions p → outside a r;
  pwf_inside a : carved p a → ∃ r, r ∈ rs0 ∧ (r.1 ≤ a ∧ a + PAGE_BYTES ≤ r.2 ∧ 0 ≤ a ∧ r.2 < 2 ^ 64)%Z;
  pwf_suffix r : r ∈ regions p → ∃ s, (s, r.2) ∈ rs0 ∧ (s ≤ r.1)%Z;
  pwf_total : (free_bytes (regions p) +
    Z.of_nat (length (recycled p) + size (allocated p)) * PAGE_BYTES = total_bytes p)%Z;
}.

(** ** The recycled run search *)

Definition consec (rec : list Z) (s e : nat) : Prop := ∀ j, s ≤ j < e → linked rec j.

Lemma find_run_spec rec count n e rs :
  0 < count → e + n = length rec → rs ≤ e - 1 → e - rs < count →
  consec rec rs (e - 1) → (∀ s, s < e → consec rec s (e - 1) → rs ≤ s) →
  match find_run rec count (seq e n) rs with
  | Some (s, e') => s ≤ e' < length rec ∧ e' - s + 1 = count ∧ consec rec s e'
  | None => ∀ s e', e ≤ e' < length rec → s ≤ e' → consec rec s e' → e' - s + 1 < count
  end.
Proof.
  intros Hcount. revert e rs. induction n as [|n IH]; intros e rs Hlen Hrs Hshort Hc Hmax; cbn.
  { intros; lia. }
  set (rs' := run_from rec rs e).
  assert (rs' ≤ e ∧ e - rs' < count ∧ consec rec rs' e ∧
          ∀ s, s ≤ e → consec rec s e → rs' ≤ s) as (Hle & Hsh & Hc' & Hmax').
  { subst rs'. unfold run_from. destruct (_ && _) eqn:Hb; reflect.
    - split_and!; [lia|lia|intros j ?; lia|]. intros s Hs Hcs.
      destruct (decide (s = e)); [lia|]. exfalso.
      match goal with H : ¬ linked _ _ |- _ => apply H, Hcs; lia end.
    - split_and!; [lia|lia| |].
      + intros j Hj. destruct (decide (j = e - 1)) as [->|]; [|apply Hc; lia].
        destruct Hb as [?|?]; reflect; [lia|done].
      + intros s Hs Hcs. destruct (decide (s = e)); [lia|]. apply Hmax; [lia|].
        intros j ?. apply Hcs. lia. }
  clearbody rs'. destruct (_ =? count)%nat eqn:Hb; reflect; [by split_and!; try lia|].
  specialize (IH (S e) rs'). rewrite Nat.sub_succ, Nat.sub_0_r in IH.
  destruct (find_run rec count (seq (S e) n) rs') as [[s e']|].
  - apply IH; [lia|lia|lia|done|]. intros s0 ?. apply Hmax'. lia.
  - intros s e' He Hs Hcs. destruct (decide (e' = e)) as [->|].
    + pose proof (Hmax' s Hs Hcs). lia.
    + apply IH; [lia|lia|lia|done| |lia|done|done]. intros s0 ?. apply Hmax'. lia.
Qed.

Lemma linked_next rec j x : rec !! j = Some x → linked rec j → S j < length rec →
  rec !! S j = Some (x + PAGE_BYTES)%Z.
Proof.
  unfold linked. intros -> Hl Hlt. cbn in Hl. destruct (lookup_lt_is_Some_2 rec (S j) Hlt) as [y Hy].
  rewrite Hy in *. apply fits_Some in Hl as [-> _]. done.
Qed.

Lemma consec_lookup rec s e x i :
  rec !! s = Some x → consec rec s e → e < length rec → s + i ≤ e →
  rec !! (s + i) = Some (x + Z.of_nat i * PAGE_BYTES)%Z.
Proof.
  intros Hs Hc He. induction i as [|i IH]; intros Hi.
  { by rewrite Nat.add_0_r, Z.mul_0_l, Z.add_0_r. }
  rewrite Nat.add_succ_r. erewrite linked_next; [|apply IH; lia|apply Hc; lia|lia].
  f_equal. lia.
Qed.

Lemma lookup_extent x n i : i < n → extent x n !! i = Some (x + Z.of_nat i * PAGE_BYTES)%Z.
Proof. intros Hi. unfold extent. by rewrite list_lookup_fmap, lookup_seq_lt. Qed.

Lemma elem_of_extent x n a :
  a ∈ extent x n ↔ ∃ i : nat, a = (x + Z.of_nat i * PAGE_BYTES)%Z ∧ i < n.
Proof.
  unfold extent. rewrite list_elem_of_fmap. split; intros (i & -> & Hi); exists i;
    (split; [done|]); rewrite elem_of_seq in *; lia.
Qed.

Lemma length_extent x n : length (extent x n) = n.
Proof. unfold extent. by rewrite length_fmap, length_seq. Qed.

Lemma consec_slice rec s e x :
  rec !! s = Some x → consec rec s e → s ≤ e < length rec →
  take (e - s + 1) (drop s rec) = extent x (e - s + 1).
Proof.
  intros Hs Hc He. apply list_eq. intros i. destruct (decide (i < e - s + 1)) as [Hi|Hi].
  - rewrite lookup_take_lt, lookup_drop by done. rewrite lookup_extent by done.
    apply (consec_lookup rec s e); [done|done|lia|lia].
  - rewrite lookup_take_ge by lia. symmetry. apply lookup_ge_None. rewrite length_extent. lia.
Qed.

(** ** Region carving *)

Lemma carve_spec rs bytes :
  match carve rs bytes with
  | Some (first, rs') => ∃ i stop, rs !! i = Some (first, stop) ∧
      rs' = <[i := (first + bytes, stop)%Z]> rs ∧ (first + bytes ≤ stop)%Z
  | None => ∀ r, r ∈ rs → (0 ≤ r.1 + bytes)%Z → (r.2 < 2 ^ 64)%Z → ¬ (r.1 + bytes ≤ r.2)%Z
  end.
Proof.
  induction rs as [|[start stop] rs IH]; cbn. { by intros r ?%elem_of_nil. }
  assert (∀ z, (0 ≤ start + bytes)%Z → (stop < 2 ^ 64)%Z → fits 64 (start + bytes) = z →
            (z = None ∨ ∃ n, z = Some n ∧ (n <=? stop)%Z = false) → ¬ (start + bytes ≤ stop)%Z) as Hno.
  { intros z ? ? <- [Hz|(n & Hz & ?)]; reflect; [apply fits_None in Hz|apply fits_Some in Hz]; lia. }
  assert (match ('(first, rs'') ← carve rs bytes; Some (first, (start, stop) :: rs'')) with
          | Some (first, rs') => ∃ i stop', ((start, stop) :: rs) !! i = Some (first, stop') ∧
              rs' = <[i := (first + bytes, stop')%Z]> ((start, stop) :: rs) ∧ (first + bytes ≤ stop')%Z
          | None => ∀ r, r ∈ rs → (0 ≤ r.1 + bytes)%Z → (r.2 < 2 ^ 64)%Z → ¬ (r.1 + bytes ≤ r.2)%Z
          end) as Hskip.
  { destruct (carve rs bytes) as [[first rs']|]; cbn; [|done].
    destruct IH as (i & stop' & ? & -> & ?). by exists (S i), stop'. }
  destruct (fits 64 (start + bytes)) as [next|] eqn:Hf; [destruct (next <=? stop)%Z eqn:Hb|].
  - apply fits_Some in Hf as [-> _]; reflect. by exists 0, stop.
  - destruct (_ ≫= _) as [[??]|]; [done|]. intros r [->|Hr]%elem_of_cons; [|by apply Hskip].
    intros. eapply Hno; [done|done|reflexivity|]. eauto.
  - destruct (_ ≫= _) as [[??]|]; [done|]. intros r [->|Hr]%elem_of_cons; [|by apply Hskip].
    intros. eapply Hno; [done|done|reflexivity|]. by left.
Qed.

(** ** The operations keep the invariant *)

Lemma free_bytes_insert rs i r r' :
  rs !! i = Some r →
  free_bytes (<[i := r']> rs) = (free_bytes rs - (r.2 - r.1) + (r'.2 - r'.1))%Z.
Proof.
  revert i. induction rs as [|x rs IH]; intros [|i]; cbn; [done..| |].
  - intros [= ->]. lia.
  - intros Hi. etrans; [exact (f_equal (Z.add (x.2 - x.1)) (IH i Hi))|].
    unfold free_bytes. cbn. lia.
Qed.

Lemma extent_apart x n a b :
  a ∈ extent x n → b ∈ extent x n → a ≠ b → apart a b.
Proof.
  intros (i & -> & ?)%elem_of_extent (j & -> & ?)%elem_of_extent Hne.
  unfold apart, PAGE_BYTES in *. assert (i ≠ j) by (intros ->; done). nia.
Qed.

Lemma NoDup_extent x n : NoDup (extent x n).
Proof.
  apply NoDup_fmap_2_strong; [|apply NoDup_seq]. unfold PAGE_BYTES. intros; lia.
Qed.

(** Frames taken from the front of a region with room for all of them. *)
Section carving.
Context (rs0 : list (Z * Z)) (p : FramePool) (i : nat) (first stop : Z) (n : nat).
Context (Hwf : pool_wf rs0 p) (Hi : regions p !! i = Some (first, stop)).
Context (Hroom : (first + Z.of_nat n * PAGE_BYTES ≤ stop)%Z).

Let rs' : list (Z * Z) := <[i := (first + Z.of_nat n * PAGE_BYTES, stop)%Z]> (regions p).
Let p' : FramePool :=
  mkPool rs' (recycled p) (allocated p ∪ list_to_set (extent first n)) (total_bytes p).

Lemma carving_region : (first, stop) ∈ regions p.
Proof. by eapply list_elem_of_lookup_2. Qed.

Lemma carving_ok : region_ok (first, stop).
Proof.
  apply (proj1 (Forall_forall _ _) (pwf_regions _ _ Hwf)), carving_region.
Qed.

Lemma carving_extent a : a ∈ extent first n →
  (first ≤ a ∧ a + PAGE_BYTES ≤ first + Z.of_nat n * PAGE_BYTES)%Z.
Proof. intros (k & -> & ?)%elem_of_extent. unfold PAGE_BYTES in *. nia. Qed.

(** The new frames overlap no frame carved before, and no other region. *)
Lemma carving_fresh a b : carved p a → b ∈ extent first n → apart a b.
Proof.
  intros Ha Hb%carving_extent.
  destruct (pwf_outside _ _ Hwf _ _ Ha carving_region); unfold apart; cbn in *; lia.
Qed.

Lemma carving_outside a j r :
  a ∈ extent first n → j ≠ i → regions p !! j = Some r → outside a r.
Proof.
  intros Ha%carving_extent Hne Hr.
  destruct (pwf_disjoint _ _ Hwf _ _ _ _ Hr Hi Hne); unfold outside; cbn in *; lia.
Qed.

Lemma carving_new a : a ∈ extent first n → ¬ carved p a.
Proof.
  intros Ha Hc. destruct (carving_fresh _ _ Hc Ha); unfold PAGE_BYTES in *; lia.
Qed.

Lemma carving_carved a : carved p' a ↔ carved p a ∨ a ∈ extent first n.
Proof. unfold carved. cbn. rewrite elem_of_union, elem_of_list_to_set. tauto. Qed.

Lemma carving_lookup j r : rs' !! j = Some r →
  (j = i ∧ r = (first + Z.of_nat n * PAGE_BYTES, stop)%Z) ∨ (j ≠ i ∧ regions p !! j = Some r).
Proof. intros [(-> & -> & _)|[? ?]]%list_lookup_insert_Some; [by left|by right]. Qed.

Lemma carving_regions_wf : Forall region_ok rs' ∧ disjoint_regions rs'.
Proof.
  destruct carving_ok as [Hok1 Hok2]; cbn in *. split.
  - apply Forall_insert; [apply (pwf_regions _ _ Hwf)|].
    split; cbn; unfold PAGE_BYTES in *; lia.
  - intros j k r r' [[-> ->]|[Hj Hr]]%carving_lookup [[-> ->]|[Hk Hr']]%carving_lookup Hne; [done|..].
    + destruct (pwf_disjoint _ _ Hwf _ _ _ _ Hi Hr' Hne); cbn in *; unfold PAGE_BYTES in *; lia.
    + destruct (pwf_disjoint _ _ Hwf _ _ _ _ Hr Hi Hne); cbn in *; unfold PAGE_BYTES in *; lia.
    + by apply (pwf_disjoint _ _ Hwf j k).
Qed.

Lemma carving_frames_apart a b : carved p' a → carved p' b → a ≠ b → apart a b.
Proof.
  intros [Ha|Ha]%carving_carved [Hb|Hb]%carving_carved Hne.
  - by apply (pwf_apart _ _ Hwf).
  - by apply carving_fresh.
  - destruct (carving_fresh _ _ Hb Ha); [by right|by left].
  - by eapply extent_apart.
Qed.

Lemma carving_frames_outside a r : carved p' a → r ∈ rs' → outside a r.
Proof.
  intros Ha (j & Hr)%list_elem_of_lookup.
  destruct (carving_lookup _ _ Hr) as [[-> ->]|[Hj Hr']], (proj1 (carving_carved _) Ha) as [Ha'|Ha'].
  - destruct (pwf_outside _ _ Hwf _ _ Ha' carving_region); unfold outside; cbn in *;
      unfold PAGE_BYTES in *; lia.
  - apply carving_extent in Ha'. unfold outside. cbn. lia.
  - apply (pwf_outside _ _ Hwf); [done|]. by eapply list_elem_of_lookup_2.
  - by eapply carving_outside.
Qed.

Lemma pool_wf_carve : pool_wf rs0 p'.
Proof.
  destruct carving_ok as [Hok1 Hok2], (pwf_suffix _ _ Hwf _ carving_region) as (s & Hs & ?); cbn in *.
  split; try apply carving_regions_wf; try apply carving_frames_apart; try apply carving_frames_outside.
  - apply (pwf_sorted _ _ Hwf).
  - intros a Ha [?|Hx%elem_of_list_to_set]%elem_of_union; [by eapply (pwf_excl _ _ Hwf)|].
    apply (carving_new _ Hx). by left.
  - intros a [Ha|Ha%carving_extent]%carving_carved; [by apply (pwf_inside _ _ Hwf)|].
    exists (s, stop). cbn. split; [done|lia].
  - intros r (j & Hr)%list_elem_of_lookup. destruct (carving_lookup _ _ Hr) as [[-> ->]|[_ Hr']]; cbn.
    + exists s. split; [done|]. unfold PAGE_BYTES. lia.
    + apply (pwf_suffix _ _ Hwf). by eapply list_elem_of_lookup_2.
  - cbn. unfold rs'. rewrite (free_bytes_insert _ _ _ _ Hi), <-(pwf_total _ _ Hwf).
    rewrite size_union, size_list_to_set, length_extent; [cbn; lia|apply NoDup_extent|].
    intros a Ha Hx%elem_of_list_to_set. apply (carving_new _ Hx). by right.
Qed.
End carving.

Lemma sorted_lt_NoDup l : StronglySorted Z.lt l → NoDup l.
Proof.
  induction 1 as [|x l _ IH Hx]; constructor; [|done].
  intros Hin. rewrite Forall_forall in Hx. specialize (Hx _ Hin). lia.
Qed.

(** A state with the same frames and the same regions. *)
Lemma pool_wf_same rs0 p q :
  pool_wf rs0 p → regions q = regions p → total_bytes q = total_bytes p →
  (∀ a, carved q a ↔ carved p a) → StronglySorted Z.lt (recycled q) →
  (∀ a, a ∈ recycled q → a ∉ allocated q) →
  length (recycled q) + size (allocated q) = length (recycled p) + size (allocated p) →
  pool_wf rs0 q.
Proof.
  intros Hwf Hr Ht Hc Hs He Hsz. destruct Hwf.
  split; rewrite ?Hr, ?Ht, ?Hsz; try done.
  - intros a b Ha%Hc Hb%Hc. by apply pwf_apart0.
  - intros a r Ha%Hc. by apply pwf_outside0.
  - intros a Ha%Hc. by apply pwf_inside0.
Qed.

(** Frames that leave the recycled list become allocated. *)
Lemma pool_wf_reuse rs0 p l m r :
  pool_wf rs0 p → recycled p = l ++ m ++ r →
  pool_wf rs0 (mkPool (regions p) (l ++ r) (allocated p ∪ list_to_set m) (total_bytes p)).
Proof.
  intros Hwf Hrec. pose proof (pwf_sorted _ _ Hwf) as Hs. rewrite Hrec in Hs.
  pose proof (sorted_lt_NoDup _ Hs) as Hnd.
  apply NoDup_app in Hnd as (Hndl & Hlr & (Hndm & Hmr & Hndr)%NoDup_app).
  assert (∀ a, a ∈ m → a ∉ allocated p) as Hm.
  { intros a Ha. apply (pwf_excl _ _ Hwf). rewrite Hrec. set_solver. }
  apply (pool_wf_same rs0 p); cbn; try done.
  - intros a. unfold carved. cbn. rewrite Hrec. set_solver.
  - apply StronglySorted_app in Hs as (Hx & Hl & (Hy & Hmm & Hrr)%StronglySorted_app).
    apply StronglySorted_app_2; [|done|done]. intros a b Ha Hb. apply Hx; set_solver.
  - intros a Ha [Hal|Hin%elem_of_list_to_set]%elem_of_union.
    + apply (pwf_excl _ _ Hwf a); [|done]. rewrite Hrec. set_solver.
    + set_solver.
  - rewrite Hrec, !length_app, size_union, size_list_to_set by set_solver. lia.
Qed.

Lemma sorted_search a l :
  StronglySorted Z.lt l → a ∉ l →
  let i := length (filter (λ x, x < a)%Z l) in
  (∀ x, x ∈ take i l → (x < a)%Z) ∧ (∀ x, x ∈ drop i l → (a < x)%Z).
Proof.
  induction 1 as [|y l _ IH Hy]; intros Ha i; [by split; intros x ?%elem_of_nil|subst i].
  rewrite Forall_forall in Hy. apply not_elem_of_cons in Ha as [Hne Ha].
  rewrite filter_cons. case_decide as Hlt; cbn.
  - destruct (IH Ha) as [IH1 IH2]. split; [|done]. intros x [->|?]%elem_of_cons; [done|auto].
  - assert (filter (λ x, x < a)%Z l = []) as ->.
    { apply elem_of_nil_inv. intros x [Hx Hin]%list_elem_of_filter. specialize (Hy _ Hin). lia. }
    cbn. split; [by intros x ?%elem_of_nil|]. intros x [->|Hx]%elem_of_cons; [lia|].
    specialize (Hy _ Hx). lia.
Qed.

Lemma size_remove (a : Z) (X : gset Z) : a ∈ X → size X = S (size (X ∖ {[a]})).
Proof.
  intros Ha. rewrite (union_difference_singleton_L a X) at 1 by done.
  rewrite size_union, size_singleton by set_solver. lia.
Qed.

(** A released frame becomes recycled. *)
Lemma pool_wf_release rs0 p a l r :
  pool_wf rs0 p → a ∈ allocated p → recycled p = l ++ r →
  (∀ x, x ∈ l → (x < a)%Z) → (∀ x, x ∈ r → (a < x)%Z) →
  pool_wf rs0 (mkPool (regions p) (l ++ a :: r) (allocated p ∖ {[a]}) (total_bytes p)).
Proof.
  intros Hwf Ha Hrec Hl Hr. pose proof (pwf_sorted _ _ Hwf) as Hs. rewrite Hrec in Hs.
  apply StronglySorted_app in Hs as (Hx & Hsl & Hsr).
  apply (pool_wf_same rs0 p); cbn; try done.
  - intros b. unfold carved. cbn. rewrite Hrec. destruct (decide (b = a)); set_solver.
  - apply StronglySorted_app_2; [|done|].
    + intros x y Hxl [->|Hy]%elem_of_cons; [by apply Hl|]. by apply Hx.
    + constructor; [done|]. apply Forall_forall. apply Hr.
  - intros b Hb. destruct (decide (b = a)) as [->|]; [set_solver|].
    intros Hb'. apply (pwf_excl _ _ Hwf b); [rewrite Hrec|]; set_solver.
  - rewrite (size_remove _ _ Ha), Hrec, !length_app. cbn. lia.
Qed.

(** ** What a request gets *)

Lemma sorted_lookup l i j x y :
  StronglySorted Z.lt l → l !! i = Some x → l !! j = Some y → i < j → (x < y)%Z.
Proof.
  intros Hs Hi Hj Hij. rewrite <-(take_drop (S i) l) in Hs.
  eapply (StronglySorted_app_1_elem_of _ _ _ _ _ Hs).
  - apply (list_elem_of_lookup_2 _ i). by rewrite lookup_take_lt by lia.
  - apply (list_elem_of_lookup_2 _ (j - S i)). rewrite lookup_drop.
    by replace (S i + (j - S i)) with j by lia.
Qed.

Lemma adjacent_is_next rs0 p k x :
  pool_wf rs0 p → recycled p !! k = Some x → (x + PAGE_BYTES)%Z ∈ recycled p →
  recycled p !! S k = Some (x + PAGE_BYTES)%Z.
Proof.
  intros Hwf Hk [m Hm]%list_elem_of_lookup. pose proof (pwf_sorted _ _ Hwf) as Hs.
  assert (k < m) as Hkm.
  { destruct (decide (k < m)); [done|]. destruct (decide (m = k)) as [->|].
    - rewrite Hk in Hm. injection Hm. unfold PAGE_BYTES. lia.
    - pose proof (sorted_lookup _ m k _ _ Hs Hm Hk ltac:(lia)). unfold PAGE_BYTES in *. lia. }
  destruct (decide (m = S k)) as [->|]; [done|].
  destruct (lookup_lt_is_Some_2 (recycled p) (S k)) as [y Hy].
  { apply lookup_lt_Some in Hm. lia. }
  pose proof (sorted_lookup _ k (S k) _ _ Hs Hk Hy ltac:(lia)).
  pose proof (sorted_lookup _ (S k) m _ _ Hs Hy Hm ltac:(lia)).
  assert (apart x y) as [?|?]; [|unfold PAGE_BYTES in *; lia..].
  apply (pwf_apart _ _ Hwf); [left; by eapply list_elem_of_lookup_2..|lia].
Qed.

Lemma recycled_bound rs0 p x : pool_wf rs0 p → x ∈ recycled p →
  (0 ≤ x ∧ x + PAGE_BYTES < 2 ^ 64)%Z.
Proof.
  intros Hwf Hx. destruct (pwf_inside _ _ Hwf x) as (r & _ & ? & ? & ? & ?); [by left|].
  split; [done|lia].
Qed.

(** A contiguous recycled run occupies consecutive, linked positions. *)
Lemma run_position rs0 p a n :
  pool_wf rs0 p → (∀ b, b ∈ extent a (S n) → b ∈ recycled p) →
  ∃ s, s + n < length (recycled p) ∧ consec (recycled p) s (s + n).
Proof.
  intros Hwf Hin.
  assert (a ∈ recycled p) as [s Hs]%list_elem_of_lookup.
  { apply Hin, elem_of_extent. exists 0. unfold PAGE_BYTES. split; lia. }
  assert (∀ i, i ≤ n → recycled p !! (s + i) = Some (a + Z.of_nat i * PAGE_BYTES)%Z) as Hrun.
  { induction i as [|i IH]; intros Hi; [by rewrite Nat.add_0_r, Z.mul_0_l, Z.add_0_r|].
    replace (a + Z.of_nat (S i) * PAGE_BYTES)%Z with (a + Z.of_nat i * PAGE_BYTES + PAGE_BYTES)%Z by lia.
    rewrite Nat.add_succ_r. apply (adjacent_is_next rs0); [done|apply IH; lia|].
    apply Hin, elem_of_extent. exists (S i). split; lia. }
  exists s. split; [eapply lookup_lt_Some, Hrun; lia|].
  intros j Hj. specialize (Hrun (j - s)) as H1. specialize (Hrun (S (j - s))) as H2.
  replace (s + (j - s)) with j in H1 by lia. replace (s + S (j - s)) with (S j) in H2 by lia.
  unfold linked. rewrite H1, H2 by lia. cbn. apply fits_Some.
  destruct (recycled_bound _ _ (a + Z.of_nat (S (j - s)) * PAGE_BYTES)%Z Hwf) as [? ?].
  { eapply list_elem_of_lookup_2, H2. lia. }
  unfold PAGE_BYTES in *. lia.
Qed.

(** The pool has [n] contiguous frames: recycled ones, or room in a region. *)
Definition available (p : FramePool) (n : nat) : Prop :=
  0 < n ∧ ((∃ a, ∀ b, b ∈ extent a n → b ∈ recycled p) ∨
           (∃ r, r ∈ regions p ∧ (r.1 + Z.of_nat n * PAGE_BYTES ≤ r.2)%Z)).

Lemma available_fits rs0 p n :
  pool_wf rs0 p → available p n → fits 64 (Z.of_nat n * PAGE_BYTES) = Some (Z.of_nat n * PAGE_BYTES)%Z.
Proof.
  intros Hwf [Hn [[a Ha]|(r & Hr & Hroom)]]; apply fits_Some; (split; [done|]).
  - destruct (recycled_bound _ _ a Hwf) as [? _].
    { apply Ha, elem_of_extent. exists 0. unfold PAGE_BYTES. split; lia. }
    destruct (recycled_bound _ _ (a + Z.of_nat (n - 1) * PAGE_BYTES)%Z Hwf) as [_ ?].
    { apply Ha, elem_of_extent. exists (n - 1). split; lia. }
    unfold PAGE_BYTES in *. lia.
  - destruct (proj1 (Forall_forall _ _) (pwf_regions _ _ Hwf) _ Hr). unfold PAGE_BYTES in *. lia.
Qed.

Lemma recycled_run_spec rs0 p n :
  pool_wf rs0 p → 0 < n →
  match recycled_run (recycled p) n with
  | Some (s, e) => s ≤ e < length (recycled p) ∧ e - s + 1 = n ∧ consec (recycled p) s e
  | None => ∀ a, ¬ ∀ b, b ∈ extent a n → b ∈ recycled p
  end.
Proof.
  intros Hwf Hn. unfold recycled_run.
  pose proof (find_run_spec (recycled p) n (length (recycled p)) 0 0 Hn eq_refl ltac:(lia) Hn
    ltac:(intros j ?; lia) ltac:(intros; lia)) as Hrun.
  assert (∀ a, (∀ b, b ∈ extent a n → b ∈ recycled p) →
    ∃ s, s + n ≤ length (recycled p) ∧ consec (recycled p) s (s + (n - 1))) as Hpos.
  { intros a Ha. destruct n as [|m]; [lia|]. destruct (run_position _ _ _ _ Hwf Ha) as (s & Hs & Hc).
    exists s. cbn. rewrite Nat.sub_0_r. split; [lia|done]. }
  destruct (n <=? length (recycled p)) eqn:Hle; [destruct (find_run _ _ _ _) as [[s e]|]|]; reflect.
  - done.
  - intros a (s & Hs & Hc)%Hpos. specialize (Hrun s (s + (n - 1)) ltac:(lia) ltac:(lia) Hc). lia.
  - intros a (s & Hs & _)%Hpos. lia.
Qed.

Lemma allocate_spec rs0 p n :
  pool_wf rs0 p →
  match allocate n p with
  | (Some a, p') => pool_wf rs0 p' ∧ total_bytes p' = total_bytes p ∧
      (∀ b, b ∈ extent a n → b ∉ allocated p) ∧
      allocated p' = allocated p ∪ list_to_set (extent a n) ∧ available p n
  | (None, p') => p' = p ∧ ¬ available p n
  end.
Proof.
  intros Hwf. unfold allocate. destruct (n =? 0) eqn:Hn; reflect.
  { split; [done|]. intros [? _]. lia. }
  assert (0 < n) as Hpos by lia. pose proof (recycled_run_spec _ _ n Hwf Hpos) as Hrun.
  destruct (fits 64 _) as [bytes|] eqn:Hb.
  2: { split; [done|]. intros Ha%(available_fits rs0); [congruence|done]. }
  apply fits_Some in Hb as [-> Hb].
  destruct (recycled_run _ _) as [[s e]|].
  - destruct Hrun as (Hse & Hcount & Hc).
    destruct (lookup_lt_is_Some_2 (recycled p) s) as [x Hx]; [lia|].
    rewrite (consec_slice _ _ _ _ Hx Hc) by done. rewrite Hx, Hcount.
    assert (recycled p = take s (recycled p) ++ extent x n ++ drop (S e) (recycled p)) as Hsplit.
    { rewrite <-Hcount, <-(consec_slice _ _ _ _ Hx Hc) by done.
      replace (S e) with (s + (e - s + 1)) by lia. by rewrite <-drop_drop, take_drop, take_drop. }
    assert (∀ b, b ∈ extent x n → b ∈ recycled p) as Hin by (rewrite Hsplit; set_solver).
    split_and!; [by apply pool_wf_reuse|done| |done|split; [lia|left; eauto]].
    intros b Hb'. by apply (pwf_excl _ _ Hwf), Hin.
  - pose proof (carve_spec (regions p) (Z.of_nat n * PAGE_BYTES)) as Hcs.
    destruct (carve _ _) as [[first rs]|].
    + destruct Hcs as (i & stop & Hi & -> & Hroom). split_and!; [by apply pool_wf_carve|done| |done|].
      * intros b Hb' Hal. eapply (carving_new rs0 p i); [done|done|done|done|by right].
      * split; [lia|right]. eexists; split; [by eapply list_elem_of_lookup_2|done].
    + split; [done|]. intros [_ [[a Ha]|(r & Hr & ?)]]; [by eapply Hrun|].
      destruct (proj1 (Forall_forall _ _) (pwf_regions _ _ Hwf) _ Hr). by apply (Hcs r Hr); [lia| |].
Qed.

Lemma release_spec rs0 p a :
  pool_wf rs0 p → ∃ p', release a p = Some p' ∧ pool_wf rs0 p' ∧
    regions p' = regions p ∧ total_bytes p' = total_bytes p ∧
    allocated p' = allocated p ∖ {[a]} ∧
    (∀ b, b ∈ recycled p' ↔ b ∈ recycled p ∨ (b = a ∧ a ∈ allocated p)).
Proof.
  intros Hwf. unfold release. case_bool_decide as Ha.
  2: { exists p. split_and!; [done|done|done|done|set_solver|]. intros b. tauto. }
  assert (a ∉ recycled p) as Hna by (intros Hr; by apply (pwf_excl _ _ Hwf _ Hr)).
  unfold binary_search_absent. rewrite bool_decide_eq_false_2 by done. cbn.
  set (i := length _). destruct (sorted_search a _ (pwf_sorted _ _ Hwf) Hna) as [Hl Hr]. fold i in Hl, Hr.
  eexists. split; [done|]. cbn. split_and!; [|done|done|done|].
  - apply (pool_wf_release _ p); [done|done|by rewrite take_drop|done|done].
  - intros b. assert (b ∈ recycled p ↔ b ∈ take i (recycled p) ∨ b ∈ drop i (recycled p)) as ->
      by (by rewrite <-elem_of_app, take_drop).
    rewrite elem_of_app, elem_of_cons. tauto.
Qed.

(** ** Alignment *)

(** Regions start, and frames lie, on page boundaries. *)
Definition pool_aligned (p : FramePool) : Prop :=
  (∀ r, r ∈ regions p → r.1 mod PAGE_BYTES = 0)%Z ∧ (∀ a, carved p a → a mod PAGE_BYTES = 0)%Z.

Lemma aligned_add a k : (a mod PAGE_BYTES = 0 → (a + k * PAGE_BYTES) mod PAGE_BYTES = 0)%Z.
Proof. intros Ha. by rewrite Z.mod_add by done. Qed.

Lemma allocate_aligned n p :
  pool_aligned p →
  pool_aligned (allocate n p).2 ∧ ∀ a, (allocate n p).1 = Some a → (a mod PAGE_BYTES = 0)%Z.
Proof.
  intros [Hr Hc]. unfold allocate. destruct (n =? 0)%nat; [done|].
  destruct (fits 64 _) as [b|] eqn:Hb; [|done]. apply fits_Some in Hb as [-> _].
  destruct (recycled_run (recycled p) n) as [[s e]|].
  - split; [split; [done|]|].
    + intros a [Ha|[Ha|Ha%elem_of_list_to_set]%elem_of_union]; apply Hc; [left|by right|left].
      * cbn in Ha. apply elem_of_app in Ha as [Ha|Ha]; [by eapply elem_of_taken|by eapply elem_of_dropped].
      * by eapply elem_of_dropped, elem_of_taken.
    + intros a Ha. apply Hc. left. by eapply list_elem_of_lookup_2.
  - pose proof (carve_spec (regions p) (Z.of_nat n * PAGE_BYTES)) as Hcv.
    destruct (carve _ _) as [[first rs']|]; [|done]. destruct Hcv as (i & stop & Hi & -> & _).
    assert (first mod PAGE_BYTES = 0)%Z as Hf by (apply (Hr (first, stop)); by eapply list_elem_of_lookup_2).
    split; [split|by intros ? [= <-]].
    + intros r (j & [(-> & <- & _)|(_ & Hj)]%list_lookup_insert_Some)%list_elem_of_lookup; [by apply aligned_add|].
      apply Hr. by eapply list_elem_of_lookup_2.
    + intros a [Ha|[Ha|Ha%elem_of_list_to_set]%elem_of_union]; [apply Hc; by left|apply Hc; by right|].
      apply elem_of_extent in Ha as (k & -> & _). by apply aligned_add.
Qed.

Lemma release_aligned a p p' : pool_aligned p → release a p = Some p' → pool_aligned p'.
Proof.
  intros [Hr Hc]. unfold release. case_bool_decide as Ha; [|by intros [= <-]].
  destruct (binary_search_absent _ _) as [i|]; [|done]. intros [= <-]. split; [done|].
  intros b [Hb|Hb]; cbn in Hb; apply Hc.
  - apply elem_of_app in Hb as [Hb|[->|Hb]%elem_of_cons];
      [left; by eapply elem_of_taken|by right|left; by eapply elem_of_dropped].
  - right. by apply elem_of_difference in Hb as [? _].
Qed.

(** ** Reachable pools *)

Inductive pool_call := PoolAllocate (n : nat) | PoolRelease (a : Z).

Definition pool_exec (c : pool_call) (p : FramePool) : option FramePool :=
  match c with
  | PoolAllocate n => Some (allocate n p).2
  | PoolRelease a => release a p
  end.

Definition pool_step (p p' : FramePool) : Prop := ∃ c, pool_exec c p = Some p'.

(** The boot regions are well formed and do not overlap. *)
Definition boot_regions (rs : list (Z * Z)) : Prop := Forall region_ok rs ∧ disjoint_regions rs.

Definition pool_reachable (rs0 : list (Z * Z)) (p : FramePool) : Prop :=
  boot_regions rs0 ∧ ∃ p0, new rs0 = Some p0 ∧ rtc pool_step p0 p.

Lemma sum_regions_spec rs t : sum_regions rs = Some t → t = free_bytes rs.
Proof.
  unfold sum_regions. assert (∀ o, foldl (λ acc r, t ← acc; d ← fits 64 (r.2 - r.1)%Z; fits 64 (t + d)%Z) o rs
    = Some t → ∃ u, o = Some u ∧ t = (u + free_bytes rs)%Z) as H.
  { induction rs as [|r rs IH]; intros o; cbn; [intros ->; eexists; split; [done|cbn; lia]|].
    intros (u & Hu & ->)%IH. destruct o as [u0|]; [|done]. cbn in Hu.
    destruct (fits 64 (r.2 - r.1)) eqn:H1; [|done]. apply fits_Some in H1 as [-> _]. cbn in Hu.
    apply fits_Some in Hu as [-> _]. eexists. split; [done|]. unfold free_bytes. cbn. lia. }
  intros (u & [= <-] & ->)%H. lia.
Qed.

Lemma new_wf rs p : boot_regions rs → new rs = Some p → pool_wf rs p.
Proof.
  intros [Hok Hd] Hn. unfold new in Hn. destruct (sum_regions rs) as [t|] eqn:Ht; [|done].
  injection Hn as <-. apply sum_regions_spec in Ht as ->.
  split; cbn; try done.
  - constructor.
  - unfold carved. set_solver.
  - unfold carved. set_solver.
  - unfold carved. set_solver.
  - intros r Hr. exists r.1. by rewrite <-surjective_pairing.
  - rewrite size_empty. unfold free_bytes. lia.
Qed.

Lemma pool_step_wf rs0 p p' : pool_wf rs0 p → pool_step p p' → pool_wf rs0 p'.
Proof.
  intros Hwf [[n|a] Hs]; cbn in Hs.
  - injection Hs as <-. pose proof (allocate_spec _ _ n Hwf) as H.
    destruct (allocate n p) as [[a|] p']; cbn; [apply H|]. by destruct H as [-> _].
  - destruct (release_spec _ _ a Hwf) as (p1 & ? & ? & _). congruence.
Qed.

Lemma pool_reachable_wf rs0 p : pool_reachable rs0 p → pool_wf rs0 p.
Proof.
  intros (Hb & p0 & Hn & Hs). pose proof (new_wf _ _ Hb Hn) as Hwf. clear Hn.
  induction Hs as [|? ? ? Hst _ IH]; [done|]. apply IH. by eapply pool_step_wf.
Qed.

(** Page-aligned boot regions give page-aligned frames. *)
Lemma pool_reachable_aligned rs0 p :
  (∀ r, r ∈ rs0 → (r.1 mod PAGE_BYTES = 0)%Z) → pool_reachable rs0 p → pool_aligned p.
Proof.
  intros Hal (_ & p0 & Hn & Hs). assert (pool_aligned p0) as H0.
  { unfold new in Hn. destruct (sum_regions rs0); [|done]. injection Hn as <-. split; [exact Hal|].
    intros a [Ha|Ha]; [by apply not_elem_of_nil in Ha|by apply not_elem_of_empty in Ha]. }
  clear Hn. induction Hs as [|? ? ? [c Hc] _ IH]; [done|]. apply IH. destruct c as [n|a]; cbn in Hc.
  - injection Hc as <-. by apply allocate_aligned.
  - by eapply release_aligned.
Qed.

(** ** Properties *)

(** C9: A frame is never handed out twice: whatever was allocated and released
    before, the frames of a successful request lie inside the boot regions, share
    no byte with any frame in use, and are in use afterwards. *)
Theorem frames_never_overlap (rs0 : list (Z * Z)) (p p' : FramePool) (n : nat) (a : Z)
    (Hr : pool_reachable rs0 p) (Ha : allocate n p = (Some a, p')) :
  allocated p' = allocated p ∪ list_to_set (extent a n) ∧
  (∀ b, b ∈ extent a n →
     (∃ r, r ∈ rs0 ∧ (r.1 ≤ b ∧ b + PAGE_BYTES ≤ r.2)%Z) ∧
     (∀ c, c ∈ allocated p → apart b c)) ∧
  (∀ b c, b ∈ allocated p' → c ∈ allocated p' → b ≠ c → apart b c).
Proof.
  pose proof (allocate_spec _ _ n (pool_reachable_wf _ _ Hr)) as H. rewrite Ha in H.
  destruct H as (Hwf' & _ & Hnew & Hal & _).
  assert (∀ b, b ∈ extent a n → b ∈ allocated p') as Hin.
  { intros b Hb. rewrite Hal. by apply elem_of_union_r, elem_of_list_to_set. }
  split_and!; [done| |intros b c Hb Hc; apply (pwf_apart _ _ Hwf'); by right].
  intros b Hb. split.
  - destruct (pwf_inside _ _ Hwf' b) as (r & ? & ? & ? & _); [by right; apply Hin|by exists r].
  - intros c Hc. apply (pwf_apart _ _ Hwf'); [by right; apply Hin| |].
    + right. rewrite Hal. by apply elem_of_union_l.
    + intros ->. by apply (Hnew c).
Qed.

(** C28: The pool refuses a request exactly when it cannot serve it: the request is
    empty, or no run of contiguous recycled frames is that long and no region has
    room for it; a refused request leaves the pool unchanged. *)
Theorem allocation_is_complete (rs0 : list (Z * Z)) (p : FramePool) (n : nat)
    (Hr : pool_reachable rs0 p) :
  ((allocate n p).1 = None ↔ ¬ available p n) ∧
  ((allocate n p).1 = None → (allocate n p).2 = p).
Proof.
  pose proof (allocate_spec _ _ n (pool_reachable_wf _ _ Hr)) as H.
  destruct (allocate n p) as [[a|] p']; cbn.
  - destruct H as (_ & _ & _ & _ & Hav). by split; [split|].
  - by destruct H as [-> Hav].
Qed.

(** Releasing never panics and never invents a frame: an address that is not
    allocated (never handed out, or released already) changes nothing, an
    allocated one can be handed out again, and the bytes in use, recycled and
    uncarved always add up to the size of the pool. *)
Theorem release_conserves_frames (rs0 : list (Z * Z)) (p : FramePool) (a : Z)
    (Hr : pool_reachable rs0 p) :
  ∃ p', release a p = Some p' ∧
    (a ∉ allocated p → p' = p) ∧
    (a ∈ allocated p → available p' 1 ∧ stats p' = ((stats p).1 - PAGE_BYTES, (stats p).2)%Z) ∧
    (free_bytes (regions p') + Z.of_nat (length (recycled p')) * PAGE_BYTES + (stats p').1
       = (stats p').2)%Z ∧ 
    frames_free (Some p') = (((stats p').2 - (stats p').1) / PAGE_BYTES)%Z.
Proof.
  destruct (release_spec _ _ a (pool_reachable_wf _ _ Hr)) as (p' & Hrel & Hwf' & Hregs & Htot & Hal & Hrec).
  exists p'. pose proof (pwf_total _ _ Hwf') as Ht.
  assert (0 ≤ free_bytes (regions p'))%Z as Hfb.
  { pose proof (pwf_regions _ _ Hwf') as Hok. revert Hok. generalize (regions p'). intros l Hok.
    induction Hok as [|r l [? _] _ IH]; [done|]. unfold free_bytes in *. cbn. lia. }
  split_and!; [done| | | |].
  - intros Hna. unfold release in Hrel. rewrite bool_decide_eq_false_2 in Hrel by done. congruence.
  - intros Ha. split.
    + split; [lia|left]. exists a. intros b (i & -> & Hi)%elem_of_extent. apply Hrec. right.
      split; [|done]. replace i with 0 by lia. lia.
    + unfold stats. cbn [fst snd]. rewrite Hal, Htot. f_equal.
      rewrite (size_remove _ _ Ha). unfold PAGE_BYTES. lia.
  - unfold stats. cbn. rewrite <-Ht. lia.
  - unfold frames_free, get_memory_stats, stats, saturating_sub. cbn. f_equal.
    unfold PAGE_BYTES in *. lia.
Qed.

(** ** The kernel heap *)

Lemma page_up_spec a b : (0 ≤ a)%Z → page_up a = Some b → (a ≤ b)%Z ∧ (b mod 4096 = 0)%Z.
Proof.
  intros Ha. unfold page_up. destruct (fits 64 (a + 4095)) as [c|] eqn:Hc; [|done]. cbn.
  apply fits_Some in Hc as [-> _]. intros [= <-].
  change (Z.lnot 4095) with (Z.lnot (Z.ones 12)). rewrite <-Z.ldiff_land, Z.ldiff_ones_r by lia.
  rewrite Z.shiftl_mul_pow2, Z.shiftr_div_pow2 by lia. change (2 ^ 12)%Z with 4096%Z.
  pose proof (Z.div_mod (a + 4095) 4096 ltac:(lia)). pose proof (Z.mod_pos_bound (a + 4095) 4096 ltac:(lia)).
  split; [lia|]. apply Z.mod_mul. lia.
Qed.

(** A seeded region is page aligned at its start, is part of a usable boot
    region, and does not meet the kernel heap. *)
Lemma user_region_spec heap start stop usable s e :
  (0 ≤ start)%Z → (0 ≤ heap.1 ≤ heap.2)%Z →
  user_region heap (start, stop, usable) = Some (Some (s, e)) →
  usable = true ∧ (start ≤ s ∧ s < e ∧ s mod 4096 = 0)%Z ∧ e = stop ∧ (heap.2 ≤ s ∨ e ≤ heap.1)%Z.
Proof.
  intros Hs Hh. unfold user_region. destruct usable; [|done]. cbn [negb].
  destruct (_ && _) eqn:Hin; reflect.
  - destruct (page_up heap.2) as [u|] eqn:Hu; [|done]. cbn. case_match eqn:Hlt; [|done]. intros [= <- <-].
    apply page_up_spec in Hu as [? ?]; [|lia]. reflect. split_and!; lia.
  - destruct (_ && _) eqn:Hout; [|done]. reflect.
    destruct (page_up start) as [u|] eqn:Hu; [|done]. cbn. case_match eqn:Hlt; [|done]. intros [= <- <-].
    apply page_up_spec in Hu as [? ?]; [|lia]. reflect.
    match goal with H : _ ∨ _ |- _ => destruct H as [?|?]; reflect; split_and!; lia end.
Qed.

Lemma disjoint_regions_nil : disjoint_regions [].
Proof. by intros i j q q' Hi. Qed.

Lemma disjoint_regions_cons r rs :
  disjoint_regions (r :: rs) ↔
  (∀ r', r' ∈ rs → (r.2 ≤ r'.1 ∨ r'.2 ≤ r.1)%Z) ∧ disjoint_regions rs.
Proof.
  split.
  - intros H. split.
    + intros r' [i Hi]%list_elem_of_lookup. by apply (H 0 (S i)).
    + intros i j q q' Hi Hj Hne. apply (H (S i) (S j)); [done|done|]. by intros [= ->].
  - intros [Hr H] [|i] [|j] q q' Hi Hj Hne; cbn in *; simplify_eq.
    + apply Hr. by eapply list_elem_of_lookup_2.
    + destruct (Hr q); [by eapply list_elem_of_lookup_2|lia..].
    + apply (H i j); [done|done|]. by intros ->.
Qed.

(** The boot loader's memory map: regions of addresses, without overlap. *)
Definition boot_map (map : list MemoryRegion) : Prop :=
  Forall (λ r, region_ok r.1) map ∧ disjoint_regions map.*1.

Lemma user_regions_spec heap map rs :
  (0 ≤ heap.1 ≤ heap.2)%Z → boot_map map → user_regions heap map = Some rs →
  boot_regions rs ∧ ∀ r, r ∈ rs → (heap.2 ≤ r.1 ∨ r.2 ≤ heap.1)%Z ∧ (r.1 mod 4096 = 0)%Z ∧
    ∃ start, (start, r.2, true) ∈ map ∧ (start ≤ r.1)%Z.
Proof.
  intros Hh [Hok Hd] Hrs. unfold user_regions in Hrs. destruct (mapM _ _) as [os|] eqn:Hm; [|done].
  injection Hrs as <-. revert os Hm Hok Hd. induction map as [|[[start stop] usable] map IH]; intros os Hm Hok Hd.
  { injection Hm as <-. split; [split; [constructor|apply disjoint_regions_nil]|]. by intros r ?%elem_of_nil. }
  cbn in Hm. destruct (user_region heap (start, stop, usable)) as [o|] eqn:Ho; [|done]. cbn in Hm.
  destruct (mapM (user_region heap) map) as [os'|]; [|done]. injection Hm as <-.
  apply Forall_cons in Hok as [[Hs1 Hs2] Hok]; cbn in *. apply disjoint_regions_cons in Hd as [Hd1 Hd].
  destruct (IH os' eq_refl Hok Hd) as [[IHok IHd] IHr].
  destruct o as [[s e]|]; cbn in *.
  2: { split; [done|]. intros r (? & ? & st & ? & ?)%IHr. split_and!; [done..|]. exists st.
       split; [by right|done]. }
  destruct (user_region_spec heap start stop usable s e ltac:(lia) Hh Ho) as (-> & [? ?] & -> & ?).
  split; [split|].
  - constructor; [split; cbn; lia|done].
  - apply disjoint_regions_cons. split; [|done]. intros r (_ & _ & st & Hst & ?)%IHr. cbn.
    destruct (Hd1 (st, r.2)); cbn in *; [|lia..]. apply list_elem_of_fmap. by eexists (_, _).
  - intros r [->|(? & ? & st & ? & ?)%IHr]%elem_of_cons; cbn.
    + split_and!; [done|lia|]. exists start. split; [left|lia].
    + split_and!; [done..|]. exists st. split; [by right|done].
Qed.

(** User memory never touches the kernel heap: once the pool is seeded from
    the boot memory map, every frame that is ever in use lies in a usable region
    of that map and shares no byte with the kernel heap. *)
Theorem user_frames_avoid_kernel_heap (heap : Z * Z) (map : list MemoryRegion) (p0 p : FramePool) (a : Z)
    (Hh : (0 ≤ heap.1 ≤ heap.2)%Z) (Hmap : boot_map map)
    (Hinit : init_user_memory heap map None = Some (Some p0)) (Hp : rtc pool_step p0 p)
    (Ha : a ∈ allocated p) :
  (heap.2 ≤ a ∨ a + PAGE_BYTES ≤ heap.1)%Z ∧
  ∃ start stop, (start, stop, true) ∈ map ∧ (start ≤ a ∧ a + PAGE_BYTES ≤ stop)%Z.
Proof.
  cbn in Hinit. destruct (user_regions heap map) as [rs|] eqn:Hrs; [|done]. cbn in Hinit.
  destruct (new rs) as [p1|] eqn:Hn; [|done]. injection Hinit as ->.
  destruct (user_regions_spec _ _ _ Hh Hmap Hrs) as [Hboot Hreg].
  assert (pool_reachable rs p) as Hwf%pool_reachable_wf by (split; [done|by exists p0]).
  destruct (pwf_inside _ _ Hwf a) as (r & Hr & ? & ? & _); [by right|].
  destruct (Hreg _ Hr) as (? & _ & start & ? & ?). split; [lia|]. exists start, r.2. split; [done|lia].
Qed.

(** ** Witnesses *)

Definition demo_regions : list (Z * Z) := [(4096, 12288); (36864, 53248)]%Z.
Definition run_pool (cs : list pool_call) (p : FramePool) : option FramePool :=
  foldl (λ o c, p ← o; pool_exec c p) (Some p) cs.
Definition demo_pool : FramePool :=
  default (mkPool [] [] ∅ 0)
    (p ← new demo_regions; run_pool [PoolAllocate 2; PoolAllocate 1; PoolRelease 8192] p).

Lemma run_pool_steps cs p p' : run_pool cs p = Some p' → rtc pool_step p p'.
Proof.
  unfold run_pool. revert p p'. induction cs as [|c cs IH] using rev_ind; intros p p'; cbn.
  { intros H. injection H as ->. apply rtc_refl. }
  rewrite foldl_app. cbn. destruct (foldl _ _ cs) as [p1|] eqn:H; [|done]. cbn. intros Hc.
  eapply rtc_r; [by apply IH|]. by exists c.
Qed.

Lemma demo_regions_ok : boot_regions demo_regions.
Proof.
  split; [by repeat constructor|]. apply disjoint_regions_cons. split.
  - intros r [->|?%elem_of_nil]%elem_of_cons; [by left|done].
  - apply disjoint_regions_cons. split; [by intros r ?%elem_of_nil|]. apply disjoint_regions_nil.
Qed.

Lemma demo_pool_reachable : pool_reachable demo_regions demo_pool.
Proof.
  split; [apply demo_regions_ok|]. eexists. split; [vm_compute; reflexivity|].
  apply (run_pool_steps [PoolAllocate 2; PoolAllocate 1; PoolRelease 8192]). vm_compute. reflexivity.
Qed.

Lemma frames_never_overlap_witness :
  allocate 1 demo_pool = (Some 8192, (allocate 1 demo_pool).2)%Z ∧ apart 8192 4096.
Proof.
  split; [vm_compute; reflexivity|].
  destruct (frames_never_overlap demo_regions demo_pool (allocate 1 demo_pool).2 1 8192 demo_pool_reachable)
    as (_ & H & _); [vm_compute; reflexivity|].
  apply (H 8192%Z); [by left|]. vm_compute. reflexivity.
Defined.

Lemma allocation_is_complete_witness : (allocate 4 demo_pool).1 = None ↔ ¬ available demo_pool 4.
Proof. apply (allocation_is_complete demo_regions demo_pool 4 demo_pool_reachable). Defined.

Lemma release_conserves_frames_witness :
  ∃ p', release 4096 demo_pool = Some p' ∧ available p' 1.
Proof.
  destruct (release_conserves_frames demo_regions demo_pool 4096 demo_pool_reachable)
    as (p' & Hr & _ & Ha & _).
  exists p'. split; [exact Hr|]. apply Ha. vm_compute. reflexivity.
Defined.

Definition demo_map : list MemoryRegion := [(0, 65536, true); (1048576, 2097152, false)]%Z.

Lemma user_frames_avoid_kernel_heap_witness :
  (16385 ≤ 20480 ∨ 20480 + PAGE_BYTES ≤ 8192)%Z ∧
  ∃ start stop, (start, stop, true) ∈ demo_map ∧ (start ≤ 20480 ∧ 20480 + PAGE_BYTES ≤ stop)%Z.
Proof.
  eapply (user_frames_avoid_kernel_heap (8192, 16385)%Z demo_map).
  - cbn. lia.
  - split; [by repeat constructor|]. apply disjoint_regions_cons. split.
    + intros r [->|?%elem_of_nil]%elem_of_cons; [by left|done].
    + apply disjoint_regions_cons. split; [by intros r ?%elem_of_nil|]. apply disjoint_regions_nil.
  - vm_compute. reflexivity.
  - apply (run_pool_steps [PoolAllocate 3]). vm_compute. reflexivity.
  - vm_compute. reflexivity.
Defined.
