(* ===== verification/Service.v ===== *)
(** * The service supervisor (kernel/src/service.rs, spark-abi/src/service.rs)

    The table of system services: registration and discovery by name, the
    dependency graph with its cycle check and boot order, the restart policy,
    and the IPC dispatcher in front of them.  The two depth-first searches
    recurse through a fuel argument that starts at the number of services plus
    one; [None] is a search out of fuel or an index out of range, and the
    theorems show that neither happens. *)
From S2P Require Import Prelude Abi.

(** ** Data *)

(** spark-abi/src/service.rs:8-8 [MAX_SERVICE_NAME_LEN] *)
Definition MAX_SERVICE_NAME_LEN : nat := 32.

(** spark-abi/src/service.rs:10-16 [SVC_OP_*] *)
Definition SVC_OP_REGISTER : Z := 1.
Definition SVC_OP_LOOKUP : Z := 2.
Definition SVC_OP_READY : Z := 3.
Definition SVC_OP_HEARTBEAT : Z := 4.
Definition SVC_OP_STATUS : Z := 5.
Definition SVC_OP_RECONNECT : Z := 6.
Definition SVC_OP_STOP : Z := 7.

(** spark-abi/src/service.rs:20-24 [RestartPolicy] *)
Inductive RestartPolicy := Always | OnFailure | Never.

(** spark-abi/src/service.rs:26-34 [RestartPolicy::from_u32] *)
Definition restart_policy_from_u32 (v : Z) : RestartPolicy :=
  if (v =? 0)%Z then Always else if (v =? 1)%Z then OnFailure else Never.

(** spark-abi/src/service.rs:38-44 [ServiceState] *)
Inductive ServiceState := Stopped | Starting | Running | Restarting | Failed.

(** spark-abi/src/service.rs:46-56 [ServiceState::from_u32] *)
Definition service_state_from_u32 (v : Z) : ServiceState :=
  if (v =? 0)%Z then Stopped else if (v =? 1)%Z then Starting
  else if (v =? 2)%Z then Running else if (v =? 3)%Z then Restarting else Failed.

#[export] Instance ServiceState_eq_dec : EqDecision ServiceState.
Proof. solve_decision. Defined.

(** spark-abi/src/service.rs:60-66 [ServiceRequest] *)
Record ServiceRequest := mkRequest {
  opcode : Z;
  client_pid : Z;
  service_name : bytes;
  name_len : Z;
  extra : Z;
}.

(** spark-abi/src/service.rs:69-77 [ServiceRequest::empty] *)
Definition empty_request : ServiceRequest := mkRequest 0 0 (replicate MAX_SERVICE_NAME_LEN 0%Z) 0 0.

(** spark-abi/src/service.rs:118-124 [ServiceRequest::set_name] *)
Definition set_name (n : bytes) (r : ServiceRequest) : ServiceRequest :=
  let len := length n `min` MAX_SERVICE_NAME_LEN in
  mkRequest (opcode r) (client_pid r)
    (take len n ++ replicate (MAX_SERVICE_NAME_LEN - len) 0%Z) (Z.of_nat len) (extra r).

(** spark-abi/src/service.rs:126-129 [ServiceRequest::name_str] *)
Definition name_str (r : ServiceRequest) : bytes :=
  let len := Z.to_nat (name_len r) `min` MAX_SERVICE_NAME_LEN in
  default [] (from_utf8 (take len (service_name r))).

(** spark-abi/src/service.rs:79-85 [ServiceRequest::new_register] *)
Definition new_register (n : bytes) (pid : Z) : ServiceRequest :=
  set_name n (mkRequest SVC_OP_REGISTER pid (service_name empty_request) 0 0).
(** spark-abi/src/service.rs:87-93 [ServiceRequest::new_lookup] *)
Definition new_lookup (n : bytes) (pid : Z) : ServiceRequest :=
  set_name n (mkRequest SVC_OP_LOOKUP pid (service_name empty_request) 0 0).
(** spark-abi/src/service.rs:95-101 [ServiceRequest::new_ready] *)
Definition new_ready (pid status : Z) : ServiceRequest :=
  mkRequest SVC_OP_READY pid (service_name empty_request) 0 status.
(** spark-abi/src/service.rs:103-108 [ServiceRequest::new_heartbeat] *)
Definition new_heartbeat (pid : Z) : ServiceRequest :=
  mkRequest SVC_OP_HEARTBEAT pid (service_name empty_request) 0 0.
(** spark-abi/src/service.rs:110-116 [ServiceRequest::new_reconnect] *)
Definition new_reconnect (n : bytes) (pid : Z) : ServiceRequest :=
  set_name n (mkRequest SVC_OP_RECONNECT pid (service_name empty_request) 0 0).

(** spark-abi/src/service.rs:134-140 [ServiceResponse] *)
Record ServiceResponse := mkResponse {
  status : Z;
  resp_endpoint_id : Z;
  service_pid : Z;
  resp_generation : Z;
  resp_restart_count : Z;
}.

(** spark-abi/src/service.rs:143-151 [ServiceResponse::ok] *)
Definition response_ok (ep pid gen restarts : Z) : ServiceResponse := mkResponse 0 ep pid gen restarts.
(** spark-abi/src/service.rs:153-161 [ServiceResponse::err] *)
Definition response_err (errno : Z) : ServiceResponse := mkResponse errno 0 0 0 0.

(** kernel/src/service.rs:19-26 [ServiceDefinition] *)
Record ServiceDefinition := mkDef {
  name : bytes;
  path : bytes;
  dependencies : list bytes;
  restart_policy : RestartPolicy;
  is_critical : bool;
  max_retries : Z;
}.

(** kernel/src/service.rs:29-40 [ServiceInstance] *)
Record ServiceInstance := mkInstance {
  instance_id : nat;
  def : ServiceDefinition;
  state : ServiceState;
  pid : option Z;
  restart_count : Z;
  last_exit_code : option Z;
  endpoint_id : option Z;
  endpoint_cap : option CapHandle;
  svc_generation : Z;
  last_heartbeat_tick : Z;
}.

(** kernel/src/service.rs:43-48 [SupervisorAction] *)
Inductive SupervisorAction :=
| Restart (i : nat)
| Stop (i : nat)
| CriticalFailure (i : nat)
| Ignore.

(** kernel/src/service.rs:50-53 [ServiceManager] *)
Record ServiceManager := mkManager { services : list ServiceInstance; init_pid : option Z }.

(** kernel/src/service.rs:58-63 [ServiceManager::new] *)
Definition new_manager : ServiceManager := mkManager [] None.

(** ** Registration and discovery *)

Section manager.
Local Abbreviation M := (comp ServiceManager string).
Implicit Types m : ServiceManager.

Definition update_service (i : nat) (s : ServiceInstance) : M unit :=
  modify (λ m, mkManager (<[i := s]> (services m)) (init_pid m)).

(** [iter().position(|s| s.def.name == n)] *)
Definition position (n : bytes) (ss : list ServiceInstance) : option nat :=
  fst <$> list_find (λ s, name (def s) = n) ss.
#[global] Arguments position : simpl never.

(** kernel/src/service.rs:65-67 [set_init_pid] *)
Definition set_init_pid (p : Z) : M unit := modify (λ m, mkManager (services m) (Some p)).

(** kernel/src/service.rs:69-88 [register] *)
Definition register (d : ServiceDefinition) : M nat :=
  m ← get;
  reject_if (bool_decide (is_Some (position (name d) (services m)))) "Duplicate service name";;
  let i := length (services m) in
  put (mkManager (services m ++ [mkInstance i d Stopped None 0 None None None 1 0]) (init_pid m));;
  mret i.

(** kernel/src/service.rs:159-173 [set_service_ready] *)
Definition set_service_ready (n : bytes) (p ep : Z) (cap : option CapHandle) : M unit :=
  m ← get;
  i ← ok_or (position n (services m)) "Service not found";
  s ← unwrap (services m !! i);
  update_service i (mkInstance (instance_id s) (def s) Running (Some p) (restart_count s)
    (last_exit_code s) (Some ep) cap (svc_generation s) (last_heartbeat_tick s)).

(** kernel/src/service.rs:176-183 [lookup] *)
Definition svc_lookup (n : bytes) (m : ServiceManager) : option (Z * option CapHandle * Z * Z) :=
  i ← position n (services m);
  s ← services m !! i;
  if decide (state s = Running) then
    ep ← endpoint_id s; p ← pid s; Some (ep, endpoint_cap s, p, svc_generation s)
  else None.

(** [iter().position(|s| s.pid == Some(p))] *)
Definition position_pid (p : Z) (ss : list ServiceInstance) : option nat :=
  fst <$> list_find (λ s, pid s = Some p) ss.

(** kernel/src/service.rs:186-193 [record_heartbeat] *)
Definition record_heartbeat (p tick : Z) : M bool :=
  m ← get;
  match position_pid p (services m) with
  | None => mret false
  | Some i =>
      s ← unwrap (services m !! i);
      update_service i (mkInstance (instance_id s) (def s) (state s) (pid s) (restart_count s)
        (last_exit_code s) (endpoint_id s) (endpoint_cap s) (svc_generation s) tick);;
      mret true
  end.

(** What the policy decides for an exited instance: its new state, whether its
    restart count grows, and the action —
    kernel/src/service.rs:209-237 [handle_process_exit, policy] *)
Definition exit_decision (i : nat) (s : ServiceInstance) (code : Z)
  : ServiceState * bool * SupervisorAction :=
  if (max_retries (def s) <=? restart_count s)%Z then
    (Failed, false, if is_critical (def s) then CriticalFailure i else Stop i)
  else match restart_policy (def s) with
  | Always => (Restarting, true, Restart i)
  | OnFailure => if negb (code =? 0)%Z then (Restarting, true, Restart i) else (Stopped, false, Stop i)
  | Never => (Stopped, false, Stop i)
  end.

(** kernel/src/service.rs:196-238 [handle_process_exit] *)
Definition handle_process_exit (p code : Z) : M SupervisorAction :=
  m ← get;
  match position_pid p (services m) with
  | None => mret Ignore
  | Some i =>
      s ← unwrap (services m !! i);
      let '(st, grow, act) := exit_decision i s code in
      rc ← unwrap (if grow then fits 32 (restart_count s + 1) else Some (restart_count s));
      update_service i (mkInstance (instance_id s) (def s) st None rc (Some code)
        (endpoint_id s) (endpoint_cap s) (wrap 32 (svc_generation s + 1)) (last_heartbeat_tick s));;
      mret act
  end.

(** The old generation is not used: both branches of the source's comparison
    return the same — kernel/src/service.rs:242-256 [reconnect] *)
Definition reconnect (n : bytes) (old_generation : Z) : M (Z * option CapHandle * Z * Z) :=
  m ← get;
  i ← ok_or (position n (services m)) "Service not found";
  s ← unwrap (services m !! i);
  reject_if (negb (bool_decide (state s = Running))) "Service not running yet";;
  ep ← ok_or (endpoint_id s) "Endpoint missing";
  p ← ok_or (pid s) "PID missing";
  if (old_generation <? svc_generation s)%Z then mret (ep, endpoint_cap s, p, svc_generation s)
  else mret (ep, endpoint_cap s, p, svc_generation s).

(** [tick] is the timer's current value —
    kernel/src/service.rs:259-318 [dispatch_request] *)
Definition dispatch_request (tick : Z) (req : ServiceRequest) (attached : option CapHandle)
  : M (ServiceResponse * option CapHandle) :=
  let n := name_str req in
  if (opcode req =? SVC_OP_REGISTER)%Z then
    ignore (register (mkDef n n [] Always false 5));;
    let ep := wrap 32 (extra req) in
    ignore (set_service_ready n (client_pid req) ep attached);;
    mret (response_ok ep (client_pid req) 1 0, None)
  else if (opcode req =? SVC_OP_LOOKUP)%Z then
    m ← get;
    match svc_lookup n m with
    | Some (ep, cap, p, gen) => mret (response_ok ep p gen 0, cap)
    | None => mret (response_err ENOENT, None)
    end
  else if (opcode req =? SVC_OP_READY)%Z then
    m ← get;
    if (wrap 32 (extra req) =? 0)%Z then
      match list_find (λ s, name (def s) = n ∨ pid s = Some (client_pid req)) (services m) with
      | Some (i, s) =>
          update_service i (mkInstance (instance_id s) (def s) Running (pid s) (restart_count s)
            (last_exit_code s) (endpoint_id s) (endpoint_cap s) (svc_generation s) (last_heartbeat_tick s));;
          mret (response_ok (default 0%Z (endpoint_id s)) (client_pid req) (svc_generation s) (restart_count s), None)
      | None => mret (response_err EINVAL, None)
      end
    else mret (response_err EINVAL, None)
  else if (opcode req =? SVC_OP_HEARTBEAT)%Z then
    b ← record_heartbeat (client_pid req) tick;
    mret (if b : bool then response_ok 0 (client_pid req) 0 0 else response_err ESRCH, None)
  else if (opcode req =? SVC_OP_RECONNECT)%Z then
    r ← attempt (reconnect n (wrap 32 (extra req)));
    match r with
    | inr (ep, cap, p, gen) => mret (response_ok ep p gen 0, cap)
    | inl _ => mret (response_err EAGAIN, None)
    end
  else mret (response_err ENOSYS, None).
End manager.

(** ** Dependencies *)

(** The loop over the dependencies of one service; [search] is the recursive
    call — kernel/src/service.rs:98-107 [has_cycle, dfs loop] *)
Fixpoint dfs_deps (search : nat → list Z → option (bool * list Z)) (ss : list ServiceInstance)
    (deps : list bytes) (visited : list Z) : option (bool * list Z) :=
  match deps with
  | [] => Some (false, visited)
  | d :: deps =>
      match position d ss with
      | None => dfs_deps search ss deps visited
      | Some j =>
          c ← visited !! j;
          if (c =? 1)%Z then Some (true, visited)
          else if (c =? 0)%Z then
            '(b, visited) ← search j visited;
            if b : bool then Some (true, visited) else dfs_deps search ss deps visited
          else dfs_deps search ss deps visited
      end
  end.

(** Colours: 0 unvisited, 1 visiting, 2 visited —
    kernel/src/service.rs:95-110 [has_cycle, dfs] *)
Fixpoint dfs (fuel : nat) (ss : list ServiceInstance) (idx : nat) (visited : list Z)
  : option (bool * list Z) :=
  match fuel with
  | O => None
  | S fuel =>
      s ← ss !! idx;
      '(b, visited) ← dfs_deps (dfs fuel ss) ss (dependencies (def s)) (<[idx := 1%Z]> visited);
      if b : bool then Some (true, visited) else Some (false, <[idx := 2%Z]> visited)
  end.

(** kernel/src/service.rs:112-117 [has_cycle, outer loop] *)
Fixpoint cycle_loop (ss : list ServiceInstance) (todo : list nat) (visited : list Z) : option bool :=
  match todo with
  | [] => Some false
  | i :: todo =>
      c ← visited !! i;
      if (c =? 0)%Z then
        '(b, visited) ← dfs (S (length ss)) ss i visited;
        if b : bool then Some true else cycle_loop ss todo visited
      else cycle_loop ss todo visited
  end.

(** kernel/src/service.rs:91-118 [has_cycle] *)
Definition has_cycle (ss : list ServiceInstance) : option bool :=
  cycle_loop ss (seq 0 (length ss)) (replicate (length ss) 0%Z).

(** kernel/src/service.rs:136-140 [get_boot_order, visit loop] *)
Fixpoint visit_deps (search : nat → list bool * list nat → option (list bool * list nat))
    (ss : list ServiceInstance) (deps : list bytes) (st : list bool * list nat)
  : option (list bool * list nat) :=
  match deps with
  | [] => Some st
  | d :: deps =>
      match position d ss with
      | None => visit_deps search ss deps st
      | Some j => st ← search j st; visit_deps search ss deps st
      end
  end.

(** kernel/src/service.rs:130-142 [get_boot_order, visit] *)
Fixpoint visit (fuel : nat) (ss : list ServiceInstance) (idx : nat) (st : list bool * list nat)
  : option (list bool * list nat) :=
  match fuel with
  | O => None
  | S fuel =>
      b ← st.1 !! idx;
      if b : bool then Some st else
      s ← ss !! idx;
      st ← visit_deps (visit fuel ss) ss (dependencies (def s)) (<[idx := true]> st.1, st.2);
      Some (st.1, st.2 ++ [idx])
  end.

(** kernel/src/service.rs:144-146 [get_boot_order, outer loop] *)
Fixpoint visit_all (ss : list ServiceInstance) (todo : list nat) (st : list bool * list nat)
  : option (list bool * list nat) :=
  match todo with
  | [] => Some st
  | i :: todo => st ← visit (S (length ss)) ss i st; visit_all ss todo st
  end.

(** kernel/src/service.rs:121-149 [get_boot_order] *)
Definition get_boot_order (ss : list ServiceInstance) : option (string + list nat) :=
  c ← has_cycle ss;
  if c : bool then Some (inl "Dependency cycle detected") else
  st ← visit_all ss (seq 0 (length ss)) (replicate (length ss) false, []);
  Some (inr st.2).

(** kernel/src/service.rs:152-156 [get_shutdown_order] *)
Definition get_shutdown_order (ss : list ServiceInstance) : option (string + list nat) :=
  r ← get_boot_order ss;
  Some (match r with inl e => inl e | inr order => inr (rev order) end).
