(* ===== verification/ServiceProps.v ===== *)
(** * The service supervisor: properties

    The dependency searches of [Service] against the dependency graph: the
    cycle check decides whether the graph has a cycle, and the boot order is a
    topological order of all services; then discovery, exits and restarts. *)
From S2P Require Import Prelude Abi Service.

(** ** The dependency graph *)

Section graph.
Context (ss : list ServiceInstance).

(** Service [i] names service [j] among its dependencies. *)
Definition depends_on (i j : nat) : Prop :=
  ∃ s d, ss !! i = Some s ∧ d ∈ dependencies (def s) ∧ position d ss = Some j.

Lemma position_lt d j : position d ss = Some j → j < length ss.
Proof.
  unfold position. destruct (list_find _ ss) as [[k s]|] eqn:H; [|done]. cbn. intros [= <-].
  apply list_find_Some in H as [H _]. by eapply lookup_lt_Some.
Qed.

Definition cyclic : Prop := ∃ k, tc depends_on k k.

(** ** The cycle check *)

Definition coloured (v : list Z) (c : Z) (i : nat) : Prop := v !! i = Some c.
Definition whites (v : list Z) : nat := length (filter (λ c, c = 0%Z) v).

(** Finished nodes start no infinite path. *)
Record dfs_inv (v : list Z) : Prop := {
  di_length : length v = length ss;
  di_colours i c : v !! i = Some c → c = 0%Z ∨ c = 1%Z ∨ c = 2%Z;
  di_finished i : coloured v 2 i → Acc (flip depends_on) i;
}.

Lemma coloured_insert v i c c' j :
  i < length v → coloured (<[i := c]> v) c' j ↔ (j = i ∧ c' = c) ∨ (j ≠ i ∧ coloured v c' j).
Proof.
  intros Hi. unfold coloured. split.
  - intros [[-> ->]|[? ?]]%list_lookup_insert_cases; [by left|by right].
  - intros [[-> ->]|[? ?]]; [by apply list_lookup_insert_eq|by rewrite list_lookup_insert_ne].
Qed.

(** What a search leaves behind when it found no cycle: the same nodes are
    being visited, finished ones stay finished, no node became unvisited. *)
Definition dfs_grows (v v' : list Z) : Prop :=
  dfs_inv v' ∧ (∀ g, coloured v' 1 g ↔ coloured v 1 g) ∧
  (∀ i, coloured v 2 i → coloured v' 2 i) ∧ whites v' ≤ whites v.

Lemma dfs_grows_trans v1 v2 v3 : dfs_grows v1 v2 → dfs_grows v2 v3 → dfs_grows v1 v3.
Proof.
  intros (_ & Hg & Hb & Hw) (Hi & Hg' & Hb' & Hw'). split_and!; [done| |auto|lia].
  intros g. by rewrite Hg'.
Qed.

Definition search_ok (fuel : nat) (search : nat → list Z → option (bool * list Z)) : Prop :=
  ∀ idx v, dfs_inv v → coloured v 0 idx → whites v ≤ fuel →
    (∀ g, coloured v 1 g → tc depends_on g idx) →
    ∃ b v', search idx v = Some (b, v') ∧
      if b : bool then cyclic else dfs_grows v v' ∧ coloured v' 2 idx.

Lemma dfs_deps_ok fuel search idx s deps v :
  search_ok fuel search → dfs_inv v → whites v ≤ fuel → ss !! idx = Some s →
  (∀ d, d ∈ deps → d ∈ dependencies (def s)) →
  coloured v 1 idx → (∀ g, coloured v 1 g → rtc depends_on g idx) →
  ∃ b v', dfs_deps search ss deps v = Some (b, v') ∧
    if b : bool then cyclic else dfs_grows v v' ∧
      ∀ d j, d ∈ deps → position d ss = Some j → coloured v' 2 j.
Proof.
  intros Hsearch. revert v. induction deps as [|d deps IH]; intros v Hv Hw Hs Hdeps Hidx Hpath; cbn.
  { exists false, v. split_and!; [done..|]. by intros d j ?%elem_of_nil. }
  assert (∀ v', dfs_grows v v' → (∀ j, position d ss = Some j → coloured v' 2 j) →
    ∃ b v'', dfs_deps search ss deps v' = Some (b, v'') ∧
      if b : bool then cyclic else dfs_grows v v'' ∧
        ∀ d0 j, d0 ∈ d :: deps → position d0 ss = Some j → coloured v'' 2 j) as Hrest.
  { intros v' Hgr Hd. pose proof Hgr as (Hv' & Hg & Hb & Hw').
    destruct (IH v') as (b & v'' & Hrun & Hres); [done|lia|done| |by apply Hg| |].
    - intros d' ?. apply Hdeps. by right.
    - intros g Hgg%Hg. by apply Hpath.
    - exists b, v''. split; [done|]. destruct b; [done|]. destruct Hres as [Hgr' Hall].
      split; [by eapply dfs_grows_trans|]. intros d0 j [->|?]%elem_of_cons Hj; [|by eapply Hall].
      by apply Hgr', Hd. }
  assert (dfs_grows v v) as Hrefl by (split_and!; done).
  destruct (position d ss) as [j|] eqn:Hj; [|by apply Hrest].
  assert (depends_on idx j) as Hedge by (exists s, d; split_and!; [done|apply Hdeps; left|done]).
  destruct (lookup_lt_is_Some_2 v j) as [c Hc].
  { rewrite (di_length _ Hv). by eapply position_lt. }
  rewrite Hc. cbn. destruct (c =? 1)%Z eqn:H1; [|destruct (c =? 0)%Z eqn:H0]; reflect; subst.
  - exists true, v. split; [done|]. exists j. eapply tc_rtc_l; [by apply Hpath|]. by apply tc_once.
  - destruct (Hsearch j v Hv Hc Hw) as (b & v' & Hrun & Hres).
    { intros g Hg. eapply tc_rtc_l; [by apply Hpath|]. by apply tc_once. }
    rewrite Hrun. cbn. destruct b; [by exists true, v'|]. destruct Hres as [Hgr Hblack].
    apply Hrest; [done|]. by intros ? [= <-].
  - apply Hrest; [done|]. intros ? [= <-]. unfold coloured.
    destruct (di_colours _ Hv _ _ Hc) as [?|[?|?]]; congruence.
Qed.

Lemma dfs_ok fuel : search_ok fuel (dfs fuel ss).
Proof.
  induction fuel as [|fuel IH]; intros idx v Hv Hidx Hw Hpath.
  { apply list_elem_of_lookup_2 in Hidx as Hin.
    assert (0%Z ∈ filter (λ c, c = 0%Z) v) as Hin' by (by apply list_elem_of_filter).
    unfold whites in Hw. destruct (filter _ v); [by apply elem_of_nil in Hin'|cbn in Hw; lia]. }
  assert (idx < length v) as Hlt by (by eapply lookup_lt_Some).
  destruct (lookup_lt_is_Some_2 ss idx) as [s Hs]; [by rewrite <-(di_length _ Hv)|].
  cbn. rewrite Hs. cbn. set (v1 := <[idx := 1%Z]> v).
  assert (S (whites v1) = whites v) as Hw1.
  { pose proof (length_filter_insert (λ c, c = 0%Z) v idx 0%Z 1%Z Hidx) as H.
    rewrite decide_True, decide_False in H by done. unfold whites, v1. lia. }
  assert (dfs_inv v1) as Hv1.
  { split.
    - unfold v1. rewrite length_insert. apply Hv.
    - intros i c [[-> ->]|[_ ?]]%list_lookup_insert_cases; [auto|by eapply di_colours].
    - intros i [[_ ?]|[_ ?]]%coloured_insert; [done|by apply Hv|done]. }
  assert (coloured v1 1 idx) as Hg1 by (by apply coloured_insert; [|left]).
  destruct (dfs_deps_ok fuel (dfs fuel ss) idx s (dependencies (def s)) v1) as (b & v' & Hrun & Hres);
    [done|done|lia|done|done|done| |].
  { intros g [[-> _]|[_ Hg]]%coloured_insert; [apply rtc_refl|by apply tc_rtc, Hpath|done]. }
  rewrite Hrun. cbn. destruct b; [by exists true, v'|]. destruct Hres as [(Hv' & Hg & Hb & Hw') Hall].
  exists false, (<[idx := 2%Z]> v').
  assert (idx < length v') as Hlt' by (rewrite (di_length _ Hv'), <-(di_length _ Hv); done).
  assert (coloured v' 1 idx) as Hgi by (by apply Hg).
  split; [done|]. split; [split; [|split; [|split]]|apply coloured_insert; [done|by left]].
  - split.
    + rewrite length_insert. apply Hv'.
    + intros i c [[-> ->]|[_ ?]]%list_lookup_insert_cases; [auto|by eapply di_colours].
    + intros i [[-> _]|[_ ?]]%coloured_insert; [|by apply Hv'|done].
      constructor. intros j (s' & d & Hs' & Hd & Hj). simplify_eq. apply Hv'. by eapply Hall.
  - intros g. rewrite coloured_insert, Hg by done. unfold v1. rewrite coloured_insert by done.
    unfold coloured in *. destruct (decide (g = idx)) as [->|]; split; naive_solver.
  - intros i Hi. apply coloured_insert; [done|]. right. split; [intros ->; unfold coloured in *; congruence|].
    apply Hb, coloured_insert; [done|]. right. split; [intros ->; unfold coloured in *; congruence|done].
  - pose proof (length_filter_insert (λ c, c = 0%Z) v' idx 1%Z 2%Z Hgi) as H.
    rewrite !decide_False in H by done. unfold whites in *. lia.
Qed.

Lemma acc_not_cyclic k : Acc (flip depends_on) k → ¬ tc depends_on k k.
Proof.
  induction 1 as [k _ IH]. intros Hk. inversion Hk as [? Hkk|? j ? Hkj Hjk]; subst.
  - by apply (IH k).
  - apply (IH j Hkj). by eapply tc_r.
Qed.

Lemma cycle_loop_ok todo v :
  dfs_inv v → whites v ≤ length ss → (∀ g, ¬ coloured v 1 g) → (∀ i, i ∈ todo → i < length ss) →
  (∀ i, i < length ss → coloured v 2 i ∨ i ∈ todo) →
  ∃ b, cycle_loop ss todo v = Some b ∧ if b : bool then cyclic else ¬ cyclic.
Proof.
  revert v. induction todo as [|i todo IH]; intros v Hv Hw Hg Htodo Hrest; cbn [cycle_loop].
  { exists false. split; [done|]. intros [k Hk].
    assert (k < length ss) as Hlt.
    { assert (∃ j, depends_on k j) as (j & s & d & Hs & _) by (inversion Hk; eauto).
      by eapply lookup_lt_Some. }
    destruct (Hrest k Hlt) as [?|?%elem_of_nil]; [|done]. by apply (acc_not_cyclic k); [apply Hv|]. }
  destruct (lookup_lt_is_Some_2 v i) as [c Hc].
  { rewrite (di_length _ Hv). apply Htodo. left. }
  rewrite Hc. cbn [mbind option_bind]. 
  assert (∀ v', dfs_grows v v' → coloured v' 2 i →
    ∃ b, cycle_loop ss todo v' = Some b ∧ if b : bool then cyclic else ¬ cyclic) as Hnext.
  { intros v' (Hv' & Hg' & Hb & Hw') Hi. apply IH; [done|lia| | |].
    - intros g ?%Hg'. by eapply Hg.
    - intros k ?. apply Htodo. by right.
    - intros k Hk. destruct (Hrest k Hk) as [?|[->|?]%elem_of_cons]; auto. }
  destruct (c =? 0)%Z eqn:H0; reflect; subst.
  - destruct (dfs_ok (S (length ss)) i v) as (b & v' & Hrun & Hres); [done|done|lia|by intros g ?%Hg|].
    rewrite Hrun. cbn [mbind option_bind]. destruct b; [by exists true|]. by apply Hnext; apply Hres.
  - apply Hnext; [by split_and!|].
    destruct (di_colours _ Hv _ _ Hc) as [?|[?|?]]; subst; [done|by destruct (Hg i)|done].
Qed.

Lemma whites_replicate n : whites (replicate n 0%Z) = n.
Proof.
  unfold whites. induction n as [|n IH]; [done|].
  change (replicate (S n) 0%Z) with (0%Z :: replicate n 0%Z). rewrite filter_cons_True by done.
  cbn [length]. by rewrite IH.
Qed.

Lemma has_cycle_spec : ∃ b, has_cycle ss = Some b ∧ if b : bool then cyclic else ¬ cyclic.
Proof.
  apply cycle_loop_ok.
  - split; [by rewrite length_replicate| |].
    + intros i c [-> _]%lookup_replicate. auto.
    + by intros i [? _]%lookup_replicate.
  - by rewrite whites_replicate.
  - by intros g [? _]%lookup_replicate.
  - intros i [_ ?]%elem_of_seq. lia.
  - intros i ?. right. apply elem_of_seq. lia.
Qed.

(** ** The boot order *)

Definition unvisited (vs : list bool) : nat := length (filter (λ b, b = false) vs).

#[local] Arguments unvisited : simpl never.

(** [j] is started before [i]. *)
Definition before (order : list nat) (j i : nat) : Prop :=
  ∃ l1 l2, order = l1 ++ i :: l2 ∧ j ∈ l1.

Lemma before_app order l j i : before order j i → before (order ++ l) j i.
Proof. intros (l1 & l2 & -> & ?). exists l1, (l2 ++ l). by rewrite <-app_assoc. Qed.

(** The marked services are those in the order and those on the current path;
    the order is free of repetitions and lists dependencies first. *)
Record visit_inv (path : list nat) (vs : list bool) (order : list nat) : Prop := {
  vi_length : length vs = length ss;
  vi_marked i : vs !! i = Some true ↔ i ∈ order ∨ i ∈ path;
  vi_nodup : NoDup order;
  vi_path i : i ∈ path → i ∉ order;
  vi_topological i j : i ∈ order → depends_on i j → before order j i;
}.

Definition visit_grows (path : list nat) (st st' : list bool * list nat) : Prop :=
  visit_inv path st'.1 st'.2 ∧ (∃ new, st'.2 = st.2 ++ new) ∧ unvisited st'.1 ≤ unvisited st.1.

Lemma visit_grows_trans path st1 st2 st3 :
  visit_grows path st1 st2 → visit_grows path st2 st3 → visit_grows path st1 st3.
Proof.
  intros (_ & [n1 H1] & ?) (? & [n2 H2] & ?). split_and!; [done| |lia].
  exists (n1 ++ n2). by rewrite H2, H1, app_assoc.
Qed.

Definition visit_ok (fuel : nat) (search : nat → list bool * list nat → option (list bool * list nat)) : Prop :=
  ∀ idx path st, visit_inv path st.1 st.2 → idx < length ss → unvisited st.1 < fuel →
    (∀ g, g ∈ path → tc depends_on g idx) →
    ∃ st', search idx st = Some st' ∧ visit_grows path st st' ∧ idx ∈ st'.2.

Lemma visit_deps_ok fuel search idx path s deps st :
  visit_ok fuel search → visit_inv path st.1 st.2 → unvisited st.1 < fuel → ss !! idx = Some s →
  (∀ d, d ∈ deps → d ∈ dependencies (def s)) → (∀ g, g ∈ path → rtc depends_on g idx) →
  ∃ st', visit_deps search ss deps st = Some st' ∧ visit_grows path st st' ∧
    ∀ d j, d ∈ deps → position d ss = Some j → j ∈ st'.2.
Proof.
  intros Hsearch. revert st. induction deps as [|d deps IH]; intros st Hv Hw Hs Hdeps Hpath; cbn.
  { exists st. split_and!; [done| |by intros d j ?%elem_of_nil].
    split_and!; [done|exists []; by rewrite app_nil_r|done]. }
  assert (∀ st1, visit_grows path st st1 → (∀ j, position d ss = Some j → j ∈ st1.2) →
    ∃ st', visit_deps search ss deps st1 = Some st' ∧ visit_grows path st st' ∧
      ∀ d0 j, d0 ∈ d :: deps → position d0 ss = Some j → j ∈ st'.2) as Hrest.
  { intros st1 Hg Hd. destruct (IH st1) as (st' & Hrun & Hg' & Hall);
      [apply Hg|destruct Hg as (_ & _ & ?); lia|done| |done|].
    { intros d' ?. apply Hdeps. by right. }
    exists st'. split_and!; [done|by eapply visit_grows_trans|].
    intros d0 j [->|?]%elem_of_cons Hj; [|by eapply Hall].
    destruct Hg' as (_ & [new ->] & _). apply elem_of_app. left. by apply Hd. }
  destruct (position d ss) as [j|] eqn:Hj.
  - destruct (Hsearch j path st) as (st1 & Hrun & Hg & Hin); [done|by eapply position_lt|done| |].
    { intros g Hg. eapply tc_rtc_l; [by apply Hpath|]. apply tc_once. exists s, d.
      split_and!; [done|apply Hdeps; left|done]. }
    rewrite Hrun. cbn. apply Hrest; [done|]. by intros ? [= <-].
  - apply Hrest; [|done]. split_and!; [done|exists []; by rewrite app_nil_r|done].
Qed.

Lemma visit_inv_mark idx path vs order :
  visit_inv path vs order → vs !! idx = Some false →
  visit_inv (idx :: path) (<[idx := true]> vs) order ∧ S (unvisited (<[idx := true]> vs)) = unvisited vs.
Proof.
  intros Hv Hf. pose proof (lookup_lt_Some _ _ _ Hf) as Hlt. split.
  - split; try apply Hv.
    + rewrite length_insert. apply Hv.
    + intros i. rewrite elem_of_cons. destruct (decide (i = idx)) as [->|Hne].
      * rewrite list_lookup_insert_eq by done. naive_solver.
      * rewrite list_lookup_insert_ne by done. rewrite (vi_marked _ _ _ Hv). naive_solver.
    + intros i [->|?]%elem_of_cons Hin; [|by eapply (vi_path _ _ _ Hv)].
      assert (vs !! idx = Some true) by (apply (vi_marked _ _ _ Hv); by left). congruence.
  - pose proof (length_filter_insert (λ b, b = false) vs idx false true Hf) as H.
    rewrite decide_True, decide_False in H by done. unfold unvisited. lia.
Qed.

Lemma visit_inv_push idx path vs order s :
  visit_inv (idx :: path) vs order → ss !! idx = Some s → idx ∉ path →
  (∀ d j, d ∈ dependencies (def s) → position d ss = Some j → j ∈ order) →
  visit_inv path vs (order ++ [idx]).
Proof.
  intros Hv Hs Hnp Hall. pose proof (vi_path _ _ _ Hv idx ltac:(left)) as Hno. split.
  - apply Hv.
  - intros i. rewrite (vi_marked _ _ _ Hv), elem_of_app, elem_of_cons, list_elem_of_singleton. tauto.
  - apply NoDup_app. split_and!; [apply Hv| |apply NoDup_singleton].
    intros x Hx ->%list_elem_of_singleton. done.
  - intros i Hi [?| ->%list_elem_of_singleton]%elem_of_app; [|done].
    eapply (vi_path _ _ _ Hv); [by right|done].
  - intros i j [Hi| ->%list_elem_of_singleton]%elem_of_app Hij.
    + by apply before_app, (vi_topological _ _ _ Hv).
    + exists order, []. split; [done|]. destruct Hij as (s' & d & ? & ? & ?). simplify_eq. by eapply Hall.
Qed.

Lemma visit_fuel_ok fuel : ¬ cyclic → visit_ok fuel (visit fuel ss).
Proof.
  intros Hac. induction fuel as [|fuel IH]; intros idx path [vs order] Hv Hidx Hw Hpath; cbn in *; [lia|].
  destruct (lookup_lt_is_Some_2 vs idx) as [b Hb]; [by rewrite (vi_length _ _ _ Hv)|].
  rewrite Hb. cbn. destruct b.
  - exists (vs, order). split_and!; [done|split_and!; [done|exists []; by rewrite app_nil_r|done]|].
    apply (vi_marked _ _ _ Hv) in Hb as [?|Hp]; [done|]. destruct Hac. exists idx. by apply Hpath.
  - destruct (lookup_lt_is_Some_2 ss idx Hidx) as [s Hs]. rewrite Hs. cbn.
    destruct (visit_inv_mark _ _ _ _ Hv Hb) as [Hv1 Hw1].
    destruct (visit_deps_ok fuel (visit fuel ss) idx (idx :: path) s (dependencies (def s))
      (<[idx := true]> vs, order)) as ([vs' order'] & Hrun & (Hv' & [new Hnew] & Hw') & Hall);
      [done|done|cbn; lia|done|done| |].
    { intros g [->|?]%elem_of_cons; [apply rtc_refl|by apply tc_rtc, Hpath]. }
    rewrite Hrun. cbn in *. eexists. split_and!; [done| |cbn; apply elem_of_app; right; left].
    split_and!; cbn.
    + eapply visit_inv_push; [done|done| |done]. intros Hin. destruct Hac. exists idx. by apply Hpath.
    + exists (new ++ [idx]). by rewrite Hnew, app_assoc.
    + lia.
Qed.

Lemma visit_all_ok todo st :
  ¬ cyclic → visit_inv [] st.1 st.2 → unvisited st.1 ≤ length ss → (∀ i, i ∈ todo → i < length ss) →
  ∃ st', visit_all ss todo st = Some st' ∧ visit_grows [] st st' ∧ ∀ i, i ∈ todo → i ∈ st'.2.
Proof.
  intros Hac. revert st. induction todo as [|i todo IH]; intros st Hv Hw Htodo; cbn [visit_all].
  { exists st. split_and!; [done| |by intros i ?%elem_of_nil].
    split_and!; [done|exists []; by rewrite app_nil_r|done]. }
  destruct (visit_fuel_ok (S (length ss)) Hac i [] st) as (st1 & Hrun & Hg & Hi);
    [done|apply Htodo; left|lia|by intros g ?%elem_of_nil|].
  rewrite Hrun. cbn [mbind option_bind]. pose proof Hg as (Hv1 & _ & Hw1).
  destruct (IH st1) as (st' & Hrun' & Hg' & Hall); [done|lia|intros; apply Htodo; by right|].
  exists st'. split_and!; [done|by eapply visit_grows_trans|].
  intros k [->|?]%elem_of_cons; [|by apply Hall]. destruct Hg' as (_ & [new ->] & _).
  apply elem_of_app. by left.
Qed.

Lemma boot_order_spec :
  (cyclic → get_boot_order ss = Some (inl "Dependency cycle detected"%string)) ∧
  (¬ cyclic → ∃ order, get_boot_order ss = Some (inr order) ∧ order ≡ₚ seq 0 (length ss) ∧
     ∀ i j, depends_on i j → before order j i).
Proof.
  unfold get_boot_order. destruct has_cycle_spec as (b & Hb & Hc). rewrite Hb. cbn.
  destruct b; (split; [|intros Hac]); try done.
  destruct (visit_all_ok (seq 0 (length ss)) (replicate (length ss) false, [])) as (st & Hrun & (Hv & _) & Hall);
    [done| | |by intros i [_ ?]%elem_of_seq|].
  - split; cbn; try by constructor.
    + by rewrite length_replicate.
    + intros i. split; [by intros [? _]%lookup_replicate|]. by intros [?%elem_of_nil|?%elem_of_nil].
    + by intros i ?%elem_of_nil.
    + by intros i j ?%elem_of_nil.
  - cbn. unfold unvisited. etrans; [apply length_filter|]. by rewrite length_replicate.
  - rewrite Hrun. cbn. exists st.2. split_and!; [done| |].
    + apply NoDup_Permutation; [apply Hv|apply NoDup_seq|]. intros i. rewrite elem_of_seq. split.
      * intros Hi. split; [lia|]. assert (st.1 !! i = Some true) as Hm%lookup_lt_Some
          by (apply (vi_marked _ _ _ Hv); by left). by rewrite (vi_length _ _ _ Hv) in Hm.
      * intros [_ ?]. apply Hall, elem_of_seq. lia.
    + intros i j Hij. apply (vi_topological _ _ _ Hv); [|done].
      apply Hall, elem_of_seq. destruct Hij as (s & d & Hs%lookup_lt_Some & _). lia.
Qed.
End graph.


(** ** Executions of the supervisor *)

(** A call of one of the entry points that change the table. *)
Inductive svc_call :=
| CallSetInit (p : Z)
| CallRegister (d : ServiceDefinition)
| CallSetReady (n : bytes) (p ep : Z) (cap : option CapHandle)
| CallHeartbeat (p tick : Z)
| CallExit (p code : Z)
| CallDispatch (tick : Z) (req : ServiceRequest) (cap : option CapHandle).

Definition svc_exec (c : svc_call) : comp ServiceManager string (list SupervisorAction) :=
  match c with
  | CallSetInit p => ignore (set_init_pid p);; mret []
  | CallRegister d => ignore (register d);; mret []
  | CallSetReady n p ep cap => ignore (set_service_ready n p ep cap);; mret []
  | CallHeartbeat p t => ignore (record_heartbeat p t);; mret []
  | CallExit p code => a ← handle_process_exit p code; mret [a]
  | CallDispatch t req cap => ignore (dispatch_request t req cap);; mret []
  end.

(** A run from [m] that produced the supervisor actions [acts]. *)
Inductive svc_run (m : ServiceManager) : list SupervisorAction → ServiceManager → Prop :=
| svc_run_nil : svc_run m [] m
| svc_run_step acts m1 c new m2 :
    svc_run m acts m1 → svc_exec c m1 = (Ok new, m2) → svc_run m (acts ++ new) m2.

#[export] Instance SupervisorAction_eq_dec : EqDecision SupervisorAction.
Proof. solve_decision. Defined.

Definition restarts (i : nat) (acts : list SupervisorAction) : nat :=
  length (filter (λ a, a = Restart i) acts).

(** What restarts depend on: each service's definition and restart count. *)
Definition counts (m : ServiceManager) : list (ServiceDefinition * Z) :=
  (λ s, (def s, restart_count s)) <$> services m.

(** ** Effects of the operations *)

Lemma position_name n ss i s : position n ss = Some i → ss !! i = Some s → name (def s) = n.
Proof.
  unfold position. destruct (list_find _ ss) as [[k t]|] eqn:H; [|done]. cbn. intros [= <-] Hs.
  apply list_find_Some in H as (Ht & Hn & _). congruence.
Qed.

Lemma wp_update_counts i s s' (m : ServiceManager) (Q : outcome string unit → ServiceManager → Prop) :
  services m !! i = Some s → def s' = def s → restart_count s' = restart_count s →
  (∀ m', counts m' = counts m → Q (Ok tt) m') → wp (update_service i s') Q m.
Proof.
  intros Hs Hd Hr HQ. unfold update_service. wp_step. apply HQ. unfold counts. cbn.
  rewrite list_fmap_insert. apply list_insert_id. rewrite list_lookup_fmap, Hs. cbn. by rewrite Hd, Hr.
Qed.

(** The table's counts are kept, or one fresh service is appended. *)
Definition counts_grow (m m' : ServiceManager) : Prop :=
  counts m' = counts m ∨
  ∃ d, position (name d) (services m) = None ∧ counts m' = counts m ++ [(d, 0%Z)].

Lemma register_counts d m : wp (register d) (λ _ m', counts_grow m m') m.
Proof.
  unfold register. wp_steps; [by left|]. right. exists d. split; [|unfold counts; cbn; by rewrite fmap_app].
  reflect. destruct (position _ _); [|done]. by match goal with H : ¬ is_Some _ |- _ => destruct H end.
Qed.

Lemma set_service_ready_counts n p ep cap m :
  wp (set_service_ready n p ep cap) (λ _ m', counts m' = counts m) m.
Proof. unfold set_service_ready. wp_steps; try done. by eapply wp_update_counts. Qed.

Lemma record_heartbeat_counts p t m :
  wp (record_heartbeat p t) (λ _ m', counts m' = counts m) m.
Proof.
  unfold record_heartbeat. wp_steps. destruct (position_pid p _); wp_steps; try done.
  eapply wp_update_counts; [done..|]. intros. by wp_steps.
Qed.

Lemma reconnect_same n g m : wp (reconnect n g) (λ _ m', m' = m) m.
Proof. unfold reconnect. wp_steps; try done. case_match; by wp_steps. Qed.

Lemma dispatch_request_counts t req cap m :
  wp (dispatch_request t req cap) (λ _ m', counts_grow m m') m.
Proof.
  unfold dispatch_request. repeat case_match; wp_steps.
  - eapply wp_mono; [apply register_counts|]. intros r m1 Hg.
    destruct r; [| |done]; wp_steps; (eapply wp_mono; [apply set_service_ready_counts|]);
      intros r' m2 Hc; destruct r'; wp_steps; unfold counts_grow; by rewrite Hc.
  - repeat case_match; wp_steps; by left.
  - destruct (list_find _ _) as [[i s]|] eqn:Hf; wp_steps; [|by left].
    eapply wp_update_counts; [by eapply list_find_Some in Hf as [? _]|done..|]. intros. wp_steps. by left.
  - by left.
  - eapply wp_mono; [apply record_heartbeat_counts|]. intros r m' Hc. destruct r; wp_steps; by left.
  - eapply wp_mono; [apply reconnect_same|]. intros r m' ->.
    destruct r as [[[[? ?] ?] ?]| |]; wp_steps; by left.
  - by left.
Qed.

(** A process exit that is not ignored updates the first service with that pid
    by the policy's decision. *)
Definition exited (s : ServiceInstance) (i : nat) (code rc : Z) : ServiceInstance :=
  mkInstance (instance_id s) (def s) (exit_decision i s code).1.1 None rc (Some code)
    (endpoint_id s) (endpoint_cap s) (wrap 32 (svc_generation s + 1)) (last_heartbeat_tick s).

Lemma handle_process_exit_spec p code m :
  wp (handle_process_exit p code)
     (λ r m', match r with
      | Ok act =>
          (position_pid p (services m) = None ∧ act = Ignore ∧ m' = m) ∨
          ∃ i s rc, list_find (λ s, pid s = Some p) (services m) = Some (i, s) ∧
            act = (exit_decision i s code).2 ∧
            rc = (restart_count s + if (exit_decision i s code).1.2 then 1 else 0)%Z ∧
            m' = mkManager (<[i := exited s i code rc]> (services m)) (init_pid m)
      | Err _ => False
      | Panic => ∃ i s, services m !! i = Some s ∧ (restart_count s < max_retries (def s))%Z ∧
          fits 32 (restart_count s + 1) = None
      end) m.
Proof.
  unfold handle_process_exit, position_pid. wp_steps.
  destruct (list_find _ _) as [[i s]|] eqn:Hf; cbn; wp_steps; [| |by left].
  - apply list_find_Some in Hf as [? _]. congruence.
  - pose proof Hf as Hs. apply list_find_Some in Hs as [Hs _]. rewrite Hs in *. simplify_eq.
    destruct (exit_decision i a code) as [[st grow] act] eqn:Hd. wp_steps.
    + destruct grow; [|done]. exists i, a. split_and!; [done| |done].
      unfold exit_decision in Hd. destruct (_ <=? _)%Z eqn:Hle; [done|]. by reflect.
    + right. exists i, a, a0. unfold update_service. wp_steps. unfold exited. rewrite Hd. cbn. split_and!; try done.
      destruct grow; [|simplify_eq; lia].
      by match goal with H : fits 32 _ = Some _ |- _ => apply fits_Some in H as [-> _] end.
Qed.

(** ** Executions *)

Lemma wp_dropped {A} (op : comp ServiceManager string A) m (acts : list SupervisorAction) :
  wp op (λ _ m', counts_grow m m') m →
  wp (E := string) (ignore op;; mret acts) (λ r m', r = Ok acts ∧ counts_grow m m' ∨ r = Panic) m.
Proof.
  intros Hop. wp_steps. eapply wp_mono; [exact Hop|]. intros [?|?|] m' Hg; wp_steps; auto.
Qed.

Lemma svc_exec_counts c m acts m' :
  svc_exec c m = (Ok acts, m') →
  (acts = [] ∧ counts_grow m m') ∨
  (∃ p code, c = CallExit p code ∧ ∃ act, acts = [act] ∧ handle_process_exit p code m = (Ok act, m')).
Proof.
  intros Hc. destruct c as [p|d|n p ep cap|p t|p code|t req cap]; cbn in Hc.
  5: { right. exists p, code. split; [done|]. unfold mbind, comp_bind, mret, comp_ret in Hc.
       destruct (handle_process_exit p code m) as [[act|e|] m1]; simplify_eq. by exists act. }
  all: left; eapply wp_result in Hc; [|apply wp_dropped]; [destruct Hc as [[[= ->] ?]|?]; [done|done]|].
  - unfold set_init_pid. wp_step. by left.
  - apply register_counts.
  - eapply wp_mono; [apply set_service_ready_counts|]. by left.
  - eapply wp_mono; [apply record_heartbeat_counts|]. by left.
  - apply dispatch_request_counts.
Qed.

Lemma restarts_app i a b : restarts i (a ++ b) = restarts i a + restarts i b.
Proof. unfold restarts. by rewrite filter_app, length_app. Qed.

Lemma exit_decision_restart i s code j :
  (exit_decision i s code).2 = Restart j ↔ j = i ∧ (exit_decision i s code).1.2 = true.
Proof. unfold exit_decision. repeat case_match; cbn; naive_solver. Qed.

Lemma exit_decision_limit i s code :
  (exit_decision i s code).1.2 = true → (restart_count s < max_retries (def s))%Z.
Proof. unfold exit_decision. case_match eqn:Hle; [done|]. intros _. by reflect. Qed.

Lemma counts_lookup m i d rc :
  counts m !! i = Some (d, rc) ↔ ∃ s, services m !! i = Some s ∧ def s = d ∧ restart_count s = rc.
Proof. unfold counts. rewrite list_lookup_fmap, fmap_Some. split; naive_solver. Qed.

Lemma restarts_single i a : restarts i [a] = if decide (a = Restart i) then 1 else 0.
Proof. unfold restarts. rewrite filter_cons. by case_decide. Qed.

(** The restart count of each service is the number of restarts ordered for it
    so far, and a restart is only ordered below the retry limit. *)
Definition counted (acts : list SupervisorAction) (m : ServiceManager) : Prop :=
  (∀ i d rc, counts m !! i = Some (d, rc) →
     rc = Z.of_nat (restarts i acts) ∧ (rc ≤ 0 `max` max_retries d)%Z) ∧
  (∀ i, length (services m) ≤ i → restarts i acts = 0).

Lemma counted_grow acts m m' : counted acts m → counts_grow m m' → counted acts m'.
Proof.
  intros [Hc Hr] Hg.
  assert (length (services m) = length (counts m)) as Hl by (unfold counts; by rewrite length_fmap).
  assert (length (services m') = length (counts m')) as Hl' by (unfold counts; by rewrite length_fmap).
  destruct Hg as [Hg|(d & _ & Hg)]; rewrite Hg in Hl'; (split; [intros i d' rc; rewrite Hg|intros i Hi; apply Hr; lia || 
    (rewrite length_app in Hl'; cbn in *; lia)]); [apply Hc|].
  intros [?|(Hi & Hs)]%lookup_app_Some; [by apply Hc|].
  destruct (i - length (counts m)) as [|k] eqn:Hk; [|done]. cbn in Hs. simplify_eq.
  rewrite Hr by lia. split; [done|lia].
Qed.

Lemma counted_exit acts m p code act m' :
  counted acts m → handle_process_exit p code m = (Ok act, m') → counted (acts ++ [act]) m'.
Proof.
  intros [Hc Hr] Hex. eapply wp_result in Hex; [|apply handle_process_exit_spec]. cbn in Hex.
  destruct Hex as [(_ & -> & ->)|(i & s & rc & Hf & -> & -> & ->)].
  { split; [intros i d rc Hi|intros i Hi]; rewrite restarts_app, restarts_single, decide_False, Nat.add_0_r by done;
      [by apply Hc|by apply Hr]. }
  apply list_find_Some in Hf as [Hs _].
  assert (counts m !! i = Some (def s, restart_count s)) as Hi by (apply counts_lookup; eauto).
  split.
  - intros j d rc (t & Ht & <- & <-)%counts_lookup. rewrite restarts_app, restarts_single. cbn in Ht.
    destruct (list_lookup_insert_cases _ _ _ _ _ Ht) as [[-> ->]|[Hne Ht']]; cbn.
    + destruct (Hc _ _ _ Hi) as [Hrc Hle]. pose proof (exit_decision_limit i s code).
      destruct (decide _) as [Hd|Hd].
      * apply exit_decision_restart in Hd as [_ Hd]. rewrite Hd in *. specialize (H eq_refl). lia.
      * destruct (exit_decision i s code).1.2 eqn:Hg; [|lia]. destruct Hd. by apply exit_decision_restart.
    + rewrite decide_False, Nat.add_0_r; [apply Hc, counts_lookup; eauto|].
      by intros [? _]%exit_decision_restart.
  - intros j Hj. cbn in Hj. rewrite length_insert in Hj. rewrite restarts_app, restarts_single, decide_False.
    + rewrite Hr by done. done.
    + intros [-> _]%exit_decision_restart. apply lookup_lt_Some in Hs. lia.
Qed.

Lemma svc_run_counted acts m : svc_run new_manager acts m → counted acts m.
Proof.
  induction 1 as [|acts m1 c new m2 _ IH Hc].
  { split; [by intros i d rc ?|]. by intros. }
  apply svc_exec_counts in Hc as [[-> Hg]|(p & code & -> & act & -> & Hex)].
  - rewrite app_nil_r. by eapply counted_grow.
  - by eapply counted_exit.
Qed.

(** C30: Flapping services are contained: over any run of the supervisor a service
    is restarted at most [max_retries] times, its restart count being exactly the
    number of restarts ordered, and a process exit beyond the limit marks it
    failed, with a critical failure reported for critical services. *)
Theorem restarts_are_bounded (acts : list SupervisorAction) (m : ServiceManager) (i : nat) (s : ServiceInstance)
    (Hrun : svc_run new_manager acts m) (Hs : services m !! i = Some s) :
  restart_count s = Z.of_nat (restarts i acts) ∧
  (Z.of_nat (restarts i acts) ≤ 0 `max` max_retries (def s))%Z ∧
  (∀ p code act m', list_find (λ s, pid s = Some p) (services m) = Some (i, s) →
     (max_retries (def s) ≤ restart_count s)%Z → handle_process_exit p code m = (Ok act, m') →
     act = (if is_critical (def s) then CriticalFailure i else Stop i) ∧
     state <$> services m' !! i = Some Failed).
Proof.
  destruct (svc_run_counted _ _ Hrun) as [Hc _].
  destruct (Hc i (def s) (restart_count s)) as [Hrc Hle]; [apply counts_lookup; eauto|].
  split_and!; [done|lia|]. intros p code act m' Hf Hmax Hex.
  eapply wp_result in Hex; [|apply handle_process_exit_spec]. cbn in Hex.
  assert (exit_decision i s code = (Failed, false, if is_critical (def s) then CriticalFailure i else Stop i)) as Hd.
  { unfold exit_decision. by rewrite (proj2 (Z.leb_le _ _) Hmax). }
  destruct Hex as [(Hn & _)|(j & t & rc & Hf' & -> & _ & ->)]; [unfold position_pid in Hn; by rewrite Hf in Hn|].
  simplify_eq. rewrite Hd. split; [done|]. cbn. rewrite list_lookup_insert_eq by (by eapply lookup_lt_Some).
  unfold exited. by rewrite Hd.
Qed.

(** ** Discovery *)

Definition names (ss : list ServiceInstance) : list bytes := (λ s, name (def s)) <$> ss.

#[local] Arguments names : simpl never.

Lemma position_names n ss : position n ss = fst <$> list_find (λ x, x = n) (names ss).
Proof. unfold position, names. rewrite list_find_fmap. unfold compose. by destruct (list_find _ ss) as [[??]|]. Qed.

Lemma position_Some n ss i :
  position n ss = Some i ↔ names ss !! i = Some n ∧ ∀ j, j < i → names ss !! j ≠ Some n.
Proof.
  rewrite position_names. split.
  - destruct (list_find _ _) as [[k x]|] eqn:H; [|done]. cbn. intros [= ->].
    apply list_find_Some in H as (Hk & -> & Hall). split; [done|]. intros j Hj Hn. by eapply Hall.
  - intros [Hi Hall]. assert (list_find (λ x, x = n) (names ss) = Some (i, n)) as ->; [|done].
    apply list_find_Some. split_and!; [done|done|]. intros j y Hy Hj ->. by eapply Hall.
Qed.

Lemma position_None n ss : position n ss = None ↔ n ∉ names ss.
Proof.
  rewrite position_names. destruct (list_find _ _) as [[k x]|] eqn:H; cbn.
  - apply list_find_Some in H as (Hk & -> & _). apply list_elem_of_lookup_2 in Hk. split; done.
  - split; [|done]. intros _ Hin%list_elem_of_lookup. destruct Hin as [k Hk].
    by eapply list_find_none_forall in H.
Qed.

Lemma position_lookup n ss i : position n ss = Some i → ∃ s, ss !! i = Some s ∧ name (def s) = n.
Proof.
  intros [Hi _]%position_Some. unfold names in Hi. rewrite list_lookup_fmap in Hi.
  apply fmap_Some in Hi as (s & ? & ->). eauto.
Qed.

(** Updating one instance without renaming it changes the lookups of its name only. *)
Lemma svc_lookup_update n m i s' ip :
  position (name (def s')) (services m) = Some i →
  svc_lookup n (mkManager (<[i := s']> (services m)) ip) =
    if decide (n = name (def s')) then
      if decide (state s' = Running) then
        ep ← endpoint_id s'; p ← pid s'; Some (ep, endpoint_cap s', p, svc_generation s')
      else None
    else svc_lookup n m.
Proof.
  intros Hp. destruct (position_lookup _ _ _ Hp) as (s & Hs & Hn).
  assert (names (<[i := s']> (services m)) = names (services m)) as Hnm.
  { unfold names. rewrite list_fmap_insert. apply list_insert_id. rewrite list_lookup_fmap, Hs. cbn. by rewrite Hn. }
  assert (∀ k, position k (<[i := s']> (services m)) = position k (services m)) as Hpos.
  { intros k. by rewrite !position_names, Hnm. }
  unfold svc_lookup. cbn. rewrite Hpos. case_decide as Hd.
  - subst n. rewrite Hp. cbn. by rewrite list_lookup_insert_eq by (by eapply lookup_lt_Some).
  - destruct (position n (services m)) as [j|] eqn:Hj; [|done]. cbn.
    rewrite list_lookup_insert_ne; [done|]. intros ->.
    destruct (position_lookup _ _ _ Hj) as (t & Ht & Hnt). congruence.
Qed.

Lemma svc_run_names acts m : svc_run new_manager acts m → NoDup (names (services m)).
Proof.
  assert (∀ m, names (services m) = (λ c, name c.1) <$> counts m) as Hnm.
  { intros m0. unfold names, counts. by rewrite <-list_fmap_compose. }
  induction 1 as [|acts m1 c new m2 _ IH Hc]; [constructor|].
  apply svc_exec_counts in Hc as [[_ [Hg|(d & Hd & Hg)]]|(p & code & -> & act & -> & Hex)].
  - by rewrite Hnm, Hg, <-Hnm.
  - rewrite Hnm, Hg, fmap_app, <-Hnm. apply NoDup_app. split_and!; [done| |apply NoDup_singleton].
    intros x Hx ->%list_elem_of_singleton. by apply position_None in Hd.
  - eapply wp_result in Hex; [|apply handle_process_exit_spec]. cbn in Hex.
    destruct Hex as [(_ & _ & ->)|(i & s & rc & Hf & _ & _ & ->)]; [done|]. cbn.
    apply list_find_Some in Hf as [Hs _]. unfold names. rewrite list_fmap_insert, list_insert_id; [done|].
    rewrite list_lookup_fmap, Hs. done.
Qed.

(** A crashed service cannot be found: when the process behind a service
    exits, looking the service up fails until it reports ready again, its
    generation moves on, and every other service is found as before. *)
Theorem exited_service_is_unpublished (acts : list SupervisorAction) (m m' : ServiceManager) (p code : Z)
    (act : SupervisorAction) (i : nat) (s : ServiceInstance)
    (Hrun : svc_run new_manager acts m)
    (Hs : list_find (λ s, pid s = Some p) (services m) = Some (i, s))
    (Hexit : handle_process_exit p code m = (Ok act, m')) :
  svc_lookup (name (def s)) m' = None ∧
  (∃ s', services m' !! i = Some s' ∧ svc_generation s' = wrap 32 (svc_generation s + 1)) ∧
  (∀ n, n ≠ name (def s) → svc_lookup n m' = svc_lookup n m).
Proof.
  pose proof (svc_run_names _ _ Hrun) as Hnd.
  eapply wp_result in Hexit; [|apply handle_process_exit_spec]. cbn in Hexit.
  destruct Hexit as [(Hn & _)|(j & t & rc & Hf & _ & _ & ->)]; [unfold position_pid in Hn; by rewrite Hs in Hn|].
  simplify_eq. apply list_find_Some in Hs as (Hs & _).
  assert (position (name (def s)) (services m) = Some i) as Hp.
  { assert (names (services m) !! i = Some (name (def s))) as Hi by (unfold names; by rewrite list_lookup_fmap, Hs).
    apply position_Some. split; [done|]. intros j Hj Hjn. assert (j = i); [|lia]. by eapply NoDup_lookup. }
  pose proof (λ n, svc_lookup_update n m i (exited s i code rc) (init_pid m) Hp) as Hl.
  split_and!.
  - rewrite Hl, decide_True by done. case_decide; [|done]. cbn. by destruct (endpoint_id s).
  - cbn. rewrite list_lookup_insert_eq by (by eapply lookup_lt_Some). by eexists.
  - intros n Hn. by rewrite Hl, decide_False.
Qed.

Lemma position_snoc n ss x :
  position n (ss ++ [x]) =
    match position n ss with
    | Some j => Some j
    | None => if decide (name (def x) = n) then Some (length ss) else None
    end.
Proof.
  assert (names (ss ++ [x]) = names ss ++ [name (def x)]) as Hnm by (unfold names; by rewrite fmap_app).
  assert (length (names ss) = length ss) as Hlen by (unfold names; by rewrite length_fmap).
  destruct (position n ss) as [j|] eqn:Hj.
  - apply position_Some in Hj as [Hj Hall]. apply lookup_lt_Some in Hj as Hlt.
    apply position_Some. rewrite Hnm. split; [by rewrite lookup_app_l|].
    intros k Hk. rewrite lookup_app_l by lia. by apply Hall.
  - apply position_None in Hj. case_decide as Hx.
    + apply position_Some. rewrite Hnm. split.
      * rewrite lookup_app_r, Hlen, Nat.sub_diag by lia. cbn. by rewrite Hx.
      * intros k Hk. rewrite lookup_app_l by lia. by intros Hkn%list_elem_of_lookup_2.
    + apply position_None. rewrite Hnm, elem_of_app, list_elem_of_singleton. naive_solver.
Qed.

(** Whether the name was taken or not, registering leaves an instance of that
    name in the table and no other lookup changed. *)
Lemma register_ensures (d : ServiceDefinition) (m : ServiceManager) :
  wp (register d)
     (λ r m', r ≠ Panic ∧
        (∃ i s, position (name d) (services m') = Some i ∧ services m' !! i = Some s ∧ name (def s) = name d) ∧
        ∀ n, n ≠ name d → svc_lookup n m' = svc_lookup n m) m.
Proof.
  unfold register. wp_steps; reflect.
  - split_and!; [done| |done]. destruct (position (name d) (services m)) as [i|] eqn:Hi; [|by destruct H].
    destruct (position_lookup _ _ _ Hi) as (s & Hs & Hn). by exists i, s.
  - assert (position (name d) (services m) = None) as Hnone
      by (destruct (position _ _); [destruct H|]; done).
    split_and!; [done| |].
    + exists (length (services m)). eexists. cbn. rewrite position_snoc, Hnone, decide_True by done.
      rewrite lookup_app_r, Nat.sub_diag by lia. done.
    + intros n Hn. unfold svc_lookup. cbn. rewrite position_snoc.
      destruct (position n (services m)) as [j|] eqn:Hj; cbn; [|by rewrite decide_False].
      rewrite lookup_app_l; [done|]. by eapply position_lt.
Qed.

(** Registration publishes: after a register request, whatever the table held,
    a lookup request for the same name answers with the endpoint, the process and
    the capability of that registration, and lookups of other names are not
    affected. *)
Theorem registration_publishes (tick tick' : Z) (m : ServiceManager) (req req' : ServiceRequest)
    (cap cap' : option CapHandle)
    (Hreg : opcode req = SVC_OP_REGISTER) (Hlook : opcode req' = SVC_OP_LOOKUP)
    (Hname : name_str req' = name_str req) :
  ∃ m1 gen,
    dispatch_request tick req cap m =
      (Ok (response_ok (wrap 32 (extra req)) (client_pid req) 1 0, None), m1) ∧
    dispatch_request tick' req' cap' m1 =
      (Ok (response_ok (wrap 32 (extra req)) (client_pid req) gen 0, cap), m1) ∧
    ∀ n, n ≠ name_str req → svc_lookup n m1 = svc_lookup n m.
Proof.
  set (d := mkDef (name_str req) (name_str req) [] Always false 5).
  destruct (register_ensures d m) as (Hnp & (i & s & Hp & Hs & Hn) & Hother).
  set (m0 := (register d m).2) in *.
  set (s' := mkInstance (instance_id s) (def s) Running (Some (client_pid req)) (restart_count s)
    (last_exit_code s) (Some (wrap 32 (extra req))) cap (svc_generation s) (last_heartbeat_tick s)).
  assert (position (name (def s')) (services m0) = Some i) as Hp' by (cbn; by rewrite Hn).
  exists (mkManager (<[i := s']> (services m0)) (init_pid m0)), (svc_generation s). split_and!.
  - unfold dispatch_request. rewrite Hreg. cbn. fold d.
    unfold ignore, attempt, mbind, comp_bind, mret, comp_ret.
    rewrite (surjective_pairing (register d m)). fold m0.
    unfold set_service_ready, update_service, mbind, comp_bind, get, modify, ok_or, unwrap.
    cbn in Hp. destruct (register d m).1; [| |done]; cbn; rewrite Hp; cbn; rewrite Hs; done.
  - unfold dispatch_request. rewrite Hlook, Hname. cbn. unfold mbind, comp_bind, get.
    rewrite (svc_lookup_update (name_str req) m0 i s' _ Hp'), decide_True by (cbn; by rewrite Hn). done.
  - intros n Hne. rewrite (svc_lookup_update n m0 i s' _ Hp'), decide_False by (cbn in *; congruence).
    by apply Hother.
Qed.

(** A request carries its service name faithfully: a valid name of at most 32
    bytes set in a request is read back as it was, whatever the request held. *)
Theorem request_name_round_trip (n : bytes) (r : ServiceRequest)
    (Hutf8 : utf8_valid n = true) (Hlen : length n ≤ MAX_SERVICE_NAME_LEN) :
  name_str (set_name n r) = n.
Proof.
  unfold name_str, set_name. cbn [name_len service_name].
  rewrite Nat2Z.id, (Nat.min_l (length n)), (Nat.min_l (length n)) by done.
  rewrite (take_ge n) by done. rewrite take_app_le, take_ge by done.
  unfold from_utf8. by rewrite Hutf8.
Qed.

(** ** Witnesses *)

(** "net" depends on "dev"; the retry limit is 1. *)
Definition dev_def : ServiceDefinition := mkDef [100; 101; 118]%Z [] [] Always false 1.
Definition net_def : ServiceDefinition := mkDef [110; 101; 116]%Z [] [[100; 101; 118]%Z] OnFailure true 1.

Definition demo_calls : list svc_call :=
  [CallRegister net_def; CallRegister dev_def; CallSetReady (name net_def) 7 3 None;
   CallExit 7 1; CallSetReady (name net_def) 8 3 None].

Fixpoint run_svc (cs : list svc_call) (acts : list SupervisorAction) (m : ServiceManager)
  : list SupervisorAction * ServiceManager :=
  match cs with
  | [] => (acts, m)
  | c :: cs =>
      match svc_exec c m with
      | (Ok new, m') => run_svc cs (acts ++ new) m'
      | (_, _) => (acts, m)
      end
  end.

Lemma run_svc_run cs acts m0 m :
  svc_run m0 acts m → svc_run m0 (run_svc cs acts m).1 (run_svc cs acts m).2.
Proof.
  revert acts m. induction cs as [|c cs IH]; intros acts m Hr; cbn; [done|].
  destruct (svc_exec c m) as [[new|e|] m'] eqn:Hc; [|done..]. apply IH. by eapply svc_run_step.
Qed.

Definition demo_acts : list SupervisorAction := (run_svc demo_calls [] new_manager).1.
Definition demo_manager : ServiceManager := (run_svc demo_calls [] new_manager).2.

Lemma demo_run : svc_run new_manager demo_acts demo_manager.
Proof. apply run_svc_run, svc_run_nil. Qed.

Lemma restarts_are_bounded_witness :
  ∃ s, services demo_manager !! 0 = Some s ∧ restart_count s = 1%Z ∧ restarts 0 demo_acts = 1.
Proof.
  eexists. split; [vm_compute; reflexivity|].
  destruct (restarts_are_bounded demo_acts demo_manager 0 _ demo_run eq_refl) as (Hc & _).
  split; [reflexivity|]. apply Nat2Z.inj. etrans; [symmetry; exact Hc|reflexivity].
Defined.

Lemma exited_service_is_unpublished_witness :
  svc_lookup (name net_def) demo_manager = Some (3, None, 8, 2)%Z ∧
  svc_lookup (name net_def) (handle_process_exit 8 1 demo_manager).2 = None.
Proof.
  split; [vm_compute; reflexivity|].
  refine (proj1 (exited_service_is_unpublished demo_acts demo_manager _ 8 1 (CriticalFailure 0) 0 _
    demo_run eq_refl _)).
  vm_compute. reflexivity.
Defined.

Lemma registration_publishes_witness :
  ∃ m1 gen, dispatch_request 0 (new_lookup (name net_def) 9) None m1 =
    (Ok (response_ok 0 7 gen 0, Some (mkHandle 4 1)), m1).
Proof.
  destruct (registration_publishes 0 0 demo_manager (new_register (name net_def) 7)
    (new_lookup (name net_def) 9) (Some (mkHandle 4 1)) None) as (m1 & gen & _ & H & _);
    [vm_compute; reflexivity..|].
  exists m1, gen. exact H.
Defined.

Lemma request_name_round_trip_witness : name_str (set_name (name net_def) empty_request) = name net_def.
Proof. apply request_name_round_trip; [reflexivity|vm_compute; lia]. Defined.
