(* ===== verification/Process.v ===== *)
(** * Processes (kernel/src/task/process.rs)

    The process control block and what is charged to it: the memory, window,
    surface, capability and endpoint quotas.  Registers, kernel stacks and the
    context switch itself are machine code and are not modelled. *)
From S2P Require Import Prelude Abi.

(** ** Data *)

(** kernel/src/task/process.rs:52-65 [signal constants] *)
Definition SIGHUP : Z := 1.
Definition SIGINT : Z := 2.
Definition SIGQUIT : Z := 3.
Definition SIGILL : Z := 4.
Definition SIGABRT : Z := 6.
Definition SIGFPE : Z := 8.
Definition SIGKILL : Z := 9.
Definition SIGSEGV : Z := 11.
Definition SIGPIPE : Z := 13.
Definition SIGALRM : Z := 14.
Definition SIGTERM : Z := 15.
Definition SIGCHLD : Z := 17.
Definition SIGCONT : Z := 18.
Definition SIGSTOP : Z := 19.

(** kernel/src/task/process.rs:114-117 [ProcessKind] *)
Inductive ProcessKind := UIBound | BackgroundCapable.

(** kernel/src/task/process.rs:120-130 [ProcessState] *)
Inductive ProcessState :=
| New | Ready | Running | Blocked | Exiting | Crashed | Terminated | Exited | Reaped.

(** kernel/src/task/process.rs:133-140 [BlockReason] *)
Inductive BlockReason :=
| Generic
| ChannelRecv
| ChannelSend
| Condvar
| Sleep (target : Z)
| WaitPid (child : Z).

#[export] Instance ProcessState_eq_dec : EqDecision ProcessState.
Proof. solve_decision. Defined.
#[export] Instance BlockReason_eq_dec : EqDecision BlockReason.
Proof. solve_decision. Defined.

(** kernel/src/task/process.rs:364-374 [ProcessResourceUsage] *)
Record ProcessResourceUsage := mkUsage {
  current_memory_bytes : Z;
  peak_memory_bytes : Z;
  cpu_ticks : Z;
  cpu_time_ms : Z;
  window_count : Z;
  surface_count : Z;
  ipc_channel_count : Z;
  cap_count : Z;
  endpoint_count : Z;
}.

(** kernel/src/task/process.rs:377-389 [ProcessResourceUsage::new] *)
Definition usage_new : ProcessResourceUsage := mkUsage 0 0 0 0 0 0 0 0 0.

(** kernel/src/task/process.rs:393-400 [ProcessResourceLimits] *)
Record ProcessResourceLimits := mkLimits {
  max_memory_bytes : Z;
  max_windows : Z;
  max_surfaces : Z;
  max_ipc_channels : Z;
  max_caps : Z;
  max_endpoints : Z;
}.

(** kernel/src/task/process.rs:403-412 [ProcessResourceLimits::default_ui] *)
Definition default_ui : ProcessResourceLimits := mkLimits (32 * 1024 * 1024) 8 16 32 128 32.
(** kernel/src/task/process.rs:414-423 [ProcessResourceLimits::default_background] *)
Definition default_background : ProcessResourceLimits := mkLimits (16 * 1024 * 1024) 2 4 16 64 16.

(** The registers, the kernel stack and the Ring-3 resume context of the control
    block are left to the machine — kernel/src/task/process.rs:443-495 [Process] *)
Record Process := mkProcess {
  pid : Z;
  proc_name : bytes;
  state : ProcessState;
  kind : ProcessKind;
  is_user : bool;
  is_crashed : bool;
  owned_windows : list Z;
  resource_usage : ProcessResourceUsage;
  resource_limits : ProcessResourceLimits;
  user_cr3 : Z;
  exit_code : Z;
  exited : bool;
  parent_pid : option Z;
  reaped : bool;
  cap_table : list (Z * CapHandle);
  allowed_ports : option (Z * Z);
  cpu_affinity : option nat;
  on_cpu : option nat;
  pending_signals : Z;
  blocked_signals : Z;
  signal_handlers : gmap Z Z;
  block_reason : option BlockReason;
  wait_next : option Z;
  wait_prev : option Z;
}.

(** Assignments to one field. *)
Definition set_state (x : ProcessState) (p : Process) : Process :=
    mkProcess (pid p) (proc_name p) x (kind p) (is_user p) (is_crashed p) (owned_windows p)
    (resource_usage p) (resource_limits p) (user_cr3 p) (exit_code p) (exited p) (parent_pid
    p) (reaped p) (cap_table p) (allowed_ports p) (cpu_affinity p) (on_cpu p) (pending_signals
    p) (blocked_signals p) (signal_handlers p) (block_reason p) (wait_next p) (wait_prev p).
Definition set_allowed_ports (x : option (Z * Z)) (p : Process) : Process :=
    mkProcess (pid p) (proc_name p) (state p) (kind p) (is_user p) (is_crashed p)
    (owned_windows p) (resource_usage p) (resource_limits p) (user_cr3 p) (exit_code p)
    (exited p) (parent_pid p) (reaped p) (cap_table p) x (cpu_affinity p) (on_cpu p)
    (pending_signals p) (blocked_signals p) (signal_handlers p) (block_reason p) (wait_next p)
    (wait_prev p).
Definition set_is_user (x : bool) (p : Process) : Process :=
    mkProcess (pid p) (proc_name p) (state p) (kind p) x (is_crashed p) (owned_windows p)
    (resource_usage p) (resource_limits p) (user_cr3 p) (exit_code p) (exited p) (parent_pid
    p) (reaped p) (cap_table p) (allowed_ports p) (cpu_affinity p) (on_cpu p) (pending_signals
    p) (blocked_signals p) (signal_handlers p) (block_reason p) (wait_next p) (wait_prev p).
Definition set_is_crashed (x : bool) (p : Process) : Process :=
    mkProcess (pid p) (proc_name p) (state p) (kind p) (is_user p) x (owned_windows p)
    (resource_usage p) (resource_limits p) (user_cr3 p) (exit_code p) (exited p) (parent_pid
    p) (reaped p) (cap_table p) (allowed_ports p) (cpu_affinity p) (on_cpu p) (pending_signals
    p) (blocked_signals p) (signal_handlers p) (block_reason p) (wait_next p) (wait_prev p).
Definition set_resource_usage (x : ProcessResourceUsage) (p : Process) : Process :=
    mkProcess (pid p) (proc_name p) (state p) (kind p) (is_user p) (is_crashed p)
    (owned_windows p) x (resource_limits p) (user_cr3 p) (exit_code p) (exited p) (parent_pid
    p) (reaped p) (cap_table p) (allowed_ports p) (cpu_affinity p) (on_cpu p) (pending_signals
    p) (blocked_signals p) (signal_handlers p) (block_reason p) (wait_next p) (wait_prev p).
Definition set_user_cr3 (x : Z) (p : Process) : Process :=
    mkProcess (pid p) (proc_name p) (state p) (kind p) (is_user p) (is_crashed p)
    (owned_windows p) (resource_usage p) (resource_limits p) x (exit_code p) (exited p)
    (parent_pid p) (reaped p) (cap_table p) (allowed_ports p) (cpu_affinity p) (on_cpu p)
    (pending_signals p) (blocked_signals p) (signal_handlers p) (block_reason p) (wait_next p)
    (wait_prev p).
Definition set_exit_code (x : Z) (p : Process) : Process :=
    mkProcess (pid p) (proc_name p) (state p) (kind p) (is_user p) (is_crashed p)
    (owned_windows p) (resource_usage p) (resource_limits p) (user_cr3 p) x (exited p)
    (parent_pid p) (reaped p) (cap_table p) (allowed_ports p) (cpu_affinity p) (on_cpu p)
    (pending_signals p) (blocked_signals p) (signal_handlers p) (block_reason p) (wait_next p)
    (wait_prev p).
Definition set_exited (x : bool) (p : Process) : Process :=
    mkProcess (pid p) (proc_name p) (state p) (kind p) (is_user p) (is_crashed p)
    (owned_windows p) (resource_usage p) (resource_limits p) (user_cr3 p) (exit_code p) x
    (parent_pid p) (reaped p) (cap_table p) (allowed_ports p) (cpu_affinity p) (on_cpu p)
    (pending_signals p) (blocked_signals p) (signal_handlers p) (block_reason p) (wait_next p)
    (wait_prev p).
Definition set_parent_pid (x : option Z) (p : Process) : Process :=
    mkProcess (pid p) (proc_name p) (state p) (kind p) (is_user p) (is_crashed p)
    (owned_windows p) (resource_usage p) (resource_limits p) (user_cr3 p) (exit_code p)
    (exited p) x (reaped p) (cap_table p) (allowed_ports p) (cpu_affinity p) (on_cpu p)
    (pending_signals p) (blocked_signals p) (signal_handlers p) (block_reason p) (wait_next p)
    (wait_prev p).
Definition set_reaped (x : bool) (p : Process) : Process :=
    mkProcess (pid p) (proc_name p) (state p) (kind p) (is_user p) (is_crashed p)
    (owned_windows p) (resource_usage p) (resource_limits p) (user_cr3 p) (exit_code p)
    (exited p) (parent_pid p) x (cap_table p) (allowed_ports p) (cpu_affinity p) (on_cpu p)
    (pending_signals p) (blocked_signals p) (signal_handlers p) (block_reason p) (wait_next p)
    (wait_prev p).
Definition set_cap_table (x : list (Z * CapHandle)) (p : Process) : Process :=
    mkProcess (pid p) (proc_name p) (state p) (kind p) (is_user p) (is_crashed p)
    (owned_windows p) (resource_usage p) (resource_limits p) (user_cr3 p) (exit_code p)
    (exited p) (parent_pid p) (reaped p) x (allowed_ports p) (cpu_affinity p) (on_cpu p)
    (pending_signals p) (blocked_signals p) (signal_handlers p) (block_reason p) (wait_next p)
    (wait_prev p).
Definition set_cpu_affinity (x : option nat) (p : Process) : Process :=
    mkProcess (pid p) (proc_name p) (state p) (kind p) (is_user p) (is_crashed p)
    (owned_windows p) (resource_usage p) (resource_limits p) (user_cr3 p) (exit_code p)
    (exited p) (parent_pid p) (reaped p) (cap_table p) (allowed_ports p) x (on_cpu p)
    (pending_signals p) (blocked_signals p) (signal_handlers p) (block_reason p) (wait_next p)
    (wait_prev p).
Definition set_on_cpu (x : option nat) (p : Process) : Process :=
    mkProcess (pid p) (proc_name p) (state p) (kind p) (is_user p) (is_crashed p)
    (owned_windows p) (resource_usage p) (resource_limits p) (user_cr3 p) (exit_code p)
    (exited p) (parent_pid p) (reaped p) (cap_table p) (allowed_ports p) (cpu_affinity p) x
    (pending_signals p) (blocked_signals p) (signal_handlers p) (block_reason p) (wait_next p)
    (wait_prev p).
Definition set_pending_signals (x : Z) (p : Process) : Process :=
    mkProcess (pid p) (proc_name p) (state p) (kind p) (is_user p) (is_crashed p)
    (owned_windows p) (resource_usage p) (resource_limits p) (user_cr3 p) (exit_code p)
    (exited p) (parent_pid p) (reaped p) (cap_table p) (allowed_ports p) (cpu_affinity p)
    (on_cpu p) x (blocked_signals p) (signal_handlers p) (block_reason p) (wait_next p)
    (wait_prev p).
Definition set_blocked_signals (x : Z) (p : Process) : Process :=
    mkProcess (pid p) (proc_name p) (state p) (kind p) (is_user p) (is_crashed p)
    (owned_windows p) (resource_usage p) (resource_limits p) (user_cr3 p) (exit_code p)
    (exited p) (parent_pid p) (reaped p) (cap_table p) (allowed_ports p) (cpu_affinity p)
    (on_cpu p) (pending_signals p) x (signal_handlers p) (block_reason p) (wait_next p)
    (wait_prev p).
Definition set_signal_handlers (x : gmap Z Z) (p : Process) : Process :=
    mkProcess (pid p) (proc_name p) (state p) (kind p) (is_user p) (is_crashed p)
    (owned_windows p) (resource_usage p) (resource_limits p) (user_cr3 p) (exit_code p)
    (exited p) (parent_pid p) (reaped p) (cap_table p) (allowed_ports p) (cpu_affinity p)
    (on_cpu p) (pending_signals p) (blocked_signals p) x (block_reason p) (wait_next p)
    (wait_prev p).
Definition set_block_reason (x : option BlockReason) (p : Process) : Process :=
    mkProcess (pid p) (proc_name p) (state p) (kind p) (is_user p) (is_crashed p)
    (owned_windows p) (resource_usage p) (resource_limits p) (user_cr3 p) (exit_code p)
    (exited p) (parent_pid p) (reaped p) (cap_table p) (allowed_ports p) (cpu_affinity p)
    (on_cpu p) (pending_signals p) (blocked_signals p) (signal_handlers p) x (wait_next p)
    (wait_prev p).
Definition set_wait_next (x : option Z) (p : Process) : Process :=
    mkProcess (pid p) (proc_name p) (state p) (kind p) (is_user p) (is_crashed p)
    (owned_windows p) (resource_usage p) (resource_limits p) (user_cr3 p) (exit_code p)
    (exited p) (parent_pid p) (reaped p) (cap_table p) (allowed_ports p) (cpu_affinity p)
    (on_cpu p) (pending_signals p) (blocked_signals p) (signal_handlers p) (block_reason p) x
    (wait_prev p).
Definition set_wait_prev (x : option Z) (p : Process) : Process :=
    mkProcess (pid p) (proc_name p) (state p) (kind p) (is_user p) (is_crashed p)
    (owned_windows p) (resource_usage p) (resource_limits p) (user_cr3 p) (exit_code p)
    (exited p) (parent_pid p) (reaped p) (cap_table p) (allowed_ports p) (cpu_affinity p)
    (on_cpu p) (pending_signals p) (blocked_signals p) (signal_handlers p) (block_reason p)
    (wait_next p) x.
Definition set_pid (x : Z) (p : Process) : Process :=
    mkProcess x (proc_name p) (state p) (kind p) (is_user p) (is_crashed p) (owned_windows p)
    (resource_usage p) (resource_limits p) (user_cr3 p) (exit_code p) (exited p) (parent_pid
    p) (reaped p) (cap_table p) (allowed_ports p) (cpu_affinity p) (on_cpu p) (pending_signals
    p) (blocked_signals p) (signal_handlers p) (block_reason p) (wait_next p) (wait_prev p).

(** kernel/src/task/process.rs:498-538 [Process::new] *)
Definition process_new (n : bytes) : Process :=
  mkProcess 0 n New UIBound false false [] usage_new default_ui 0 0 false None false [] None None None
    0 0 ∅ None None None.

(** ** Quotas *)

Section quotas.
Local Abbreviation M := (comp Process string).

Definition set_usage (u : ProcessResourceUsage) : M unit := modify (set_resource_usage u).

Definition with_memory (cur peak : Z) (u : ProcessResourceUsage) : ProcessResourceUsage :=
  mkUsage cur peak (cpu_ticks u) (cpu_time_ms u) (window_count u) (surface_count u)
    (ipc_channel_count u) (cap_count u) (endpoint_count u).
Definition with_counts (w s c e : Z) (u : ProcessResourceUsage) : ProcessResourceUsage :=
  mkUsage (current_memory_bytes u) (peak_memory_bytes u) (cpu_ticks u) (cpu_time_ms u) w s
    (ipc_channel_count u) c e.

(** kernel/src/task/process.rs:553-563 [Process::try_charge_memory] *)
Definition try_charge_memory (n : Z) : M unit :=
  p ← get;
  let u := resource_usage p in
  let new_total := saturating_add 64 (current_memory_bytes u) n in
  reject_if (max_memory_bytes (resource_limits p) <? new_total)%Z "Memory quota exceeded";;
  set_usage (with_memory new_total
    (if (peak_memory_bytes u <? new_total)%Z then new_total else peak_memory_bytes u) u).

(** kernel/src/task/process.rs:565-567 [Process::uncharge_memory] *)
Definition uncharge_memory (n : Z) : M unit :=
  p ← get;
  let u := resource_usage p in
  set_usage (with_memory (saturating_sub (current_memory_bytes u) n) (peak_memory_bytes u) u).

(** kernel/src/task/process.rs:569-572 [Process::charge_cpu_ticks] *)
Definition charge_cpu_ticks (ticks : Z) : M unit :=
  p ← get;
  let u := resource_usage p in
  let t := saturating_add 64 (cpu_ticks u) ticks in
  set_usage (mkUsage (current_memory_bytes u) (peak_memory_bytes u) t t (window_count u)
    (surface_count u) (ipc_channel_count u) (cap_count u) (endpoint_count u)).

(** kernel/src/task/process.rs:574-580 [Process::increment_window_count] *)
Definition increment_window_count : M unit :=
  p ← get;
  let u := resource_usage p in
  reject_if (max_windows (resource_limits p) <=? window_count u)%Z "Window quota exceeded";;
  n ← unwrap (fits 32 (window_count u + 1));
  set_usage (with_counts n (surface_count u) (cap_count u) (endpoint_count u) u).

(** kernel/src/task/process.rs:582-584 [Process::decrement_window_count] *)
Definition decrement_window_count : M unit :=
  p ← get;
  let u := resource_usage p in
  set_usage (with_counts (saturating_sub (window_count u) 1) (surface_count u) (cap_count u) (endpoint_count u) u).

(** kernel/src/task/process.rs:586-592 [Process::increment_surface_count] *)
Definition increment_surface_count : M unit :=
  p ← get;
  let u := resource_usage p in
  reject_if (max_surfaces (resource_limits p) <=? surface_count u)%Z "Surface quota exceeded";;
  n ← unwrap (fits 32 (surface_count u + 1));
  set_usage (with_counts (window_count u) n (cap_count u) (endpoint_count u) u).

(** kernel/src/task/process.rs:594-596 [Process::decrement_surface_count] *)
Definition decrement_surface_count : M unit :=
  p ← get;
  let u := resource_usage p in
  set_usage (with_counts (window_count u) (saturating_sub (surface_count u) 1) (cap_count u) (endpoint_count u) u).

(** kernel/src/task/process.rs:598-604 [Process::increment_cap_count] *)
Definition increment_cap_count : M unit :=
  p ← get;
  let u := resource_usage p in
  reject_if (max_caps (resource_limits p) <=? cap_count u)%Z "Capability quota exceeded";;
  n ← unwrap (fits 32 (cap_count u + 1));
  set_usage (with_counts (window_count u) (surface_count u) n (endpoint_count u) u).

(** kernel/src/task/process.rs:606-608 [Process::decrement_cap_count] *)
Definition decrement_cap_count : M unit :=
  p ← get;
  let u := resource_usage p in
  set_usage (with_counts (window_count u) (surface_count u) (saturating_sub (cap_count u) 1) (endpoint_count u) u).

(** kernel/src/task/process.rs:610-616 [Process::increment_endpoint_count] *)
Definition increment_endpoint_count : M unit :=
  p ← get;
  let u := resource_usage p in
  reject_if (max_endpoints (resource_limits p) <=? endpoint_count u)%Z "Endpoint quota exceeded";;
  n ← unwrap (fits 32 (endpoint_count u + 1));
  set_usage (with_counts (window_count u) (surface_count u) (cap_count u) n u).

(** kernel/src/task/process.rs:618-620 [Process::decrement_endpoint_count] *)
Definition decrement_endpoint_count : M unit :=
  p ← get;
  let u := resource_usage p in
  set_usage (with_counts (window_count u) (surface_count u) (cap_count u) (saturating_sub (endpoint_count u) 1) u).
End quotas.

(** ** Quotas are respected *)

(** Usage within the limits, with the peak above the current memory. *)
Record within_quota (p : Process) : Prop := {
  wq_memory : (0 ≤ current_memory_bytes (resource_usage p) ≤ max_memory_bytes (resource_limits p))%Z;
  wq_peak : (current_memory_bytes (resource_usage p) ≤ peak_memory_bytes (resource_usage p)
               ≤ max_memory_bytes (resource_limits p))%Z;
  wq_windows : (0 ≤ window_count (resource_usage p) ≤ max_windows (resource_limits p))%Z;
  wq_surfaces : (0 ≤ surface_count (resource_usage p) ≤ max_surfaces (resource_limits p))%Z;
  wq_caps : (0 ≤ cap_count (resource_usage p) ≤ max_caps (resource_limits p))%Z;
  wq_endpoints : (0 ≤ endpoint_count (resource_usage p) ≤ max_endpoints (resource_limits p))%Z;
  wq_limits : (max_memory_bytes (resource_limits p) ≤ u64_max ∧ max_windows (resource_limits p) ≤ u32_max
    ∧ max_surfaces (resource_limits p) ≤ u32_max ∧ max_caps (resource_limits p) ≤ u32_max
    ∧ max_endpoints (resource_limits p) ≤ u32_max)%Z;
}.

(** The entry points that charge or return resources. *)
Inductive quota_call :=
| QChargeMemory (n : Z)
| QUnchargeMemory (n : Z)
| QChargeCpu (t : Z)
| QWindow (up : bool)
| QSurface (up : bool)
| QCap (up : bool)
| QEndpoint (up : bool).

Definition quota_exec (c : quota_call) : comp Process string unit :=
  match c with
  | QChargeMemory n => try_charge_memory n
  | QUnchargeMemory n => uncharge_memory n
  | QChargeCpu t => charge_cpu_ticks t
  | QWindow up => if up then increment_window_count else decrement_window_count
  | QSurface up => if up then increment_surface_count else decrement_surface_count
  | QCap up => if up then increment_cap_count else decrement_cap_count
  | QEndpoint up => if up then increment_endpoint_count else decrement_endpoint_count
  end.

(** Amounts are [u64] values. *)
Definition quota_call_ok (c : quota_call) : Prop :=
  match c with
  | QChargeMemory n | QUnchargeMemory n | QChargeCpu n => (0 ≤ n ≤ u64_max)%Z
  | _ => True
  end.

Lemma saturating_sub_bounds a b : (0 ≤ a)%Z → (0 ≤ b)%Z → (0 ≤ saturating_sub a b ≤ a)%Z.
Proof. unfold saturating_sub. lia. Qed.

Ltac quota_step :=
  repeat match goal with
  | H : within_quota _ |- _ => destruct H
  | H : fits _ _ = Some _ |- _ => apply fits_Some in H as [-> ?]
  | H : fits _ _ = None |- _ => apply fits_None in H
  end.

Lemma quota_exec_spec c p :
  within_quota p → quota_call_ok c →
  wp (quota_exec c)
     (λ r p', r ≠ Panic ∧ within_quota p' ∧ (r ≠ Ok tt → p' = p) ∧
        resource_limits p' = resource_limits p) p.
Proof.
  intros Hq Hc.
  assert (∀ n, (0 ≤ n)%Z → (0 ≤ saturating_add 64 (current_memory_bytes (resource_usage p)) n)%Z ∧
    (current_memory_bytes (resource_usage p) ≤ saturating_add 64 (current_memory_bytes (resource_usage p)) n)%Z) as Hadd.
  { intros n Hn. destruct Hq as [? ? ? ? ? ? [? _]]. unfold saturating_add, u64_max in *. lia. }
  destruct c as [n|n|t|[]|[]|[]|[]]; cbn in Hc;
    unfold quota_exec, try_charge_memory, uncharge_memory, charge_cpu_ticks,
      increment_window_count, decrement_window_count, increment_surface_count, decrement_surface_count,
      increment_cap_count, decrement_cap_count, increment_endpoint_count, decrement_endpoint_count, set_usage;
    wp_steps; (split; [try done|split; [|split; done]]); reflect; quota_step.
  all: try (split; cbn in *; try assumption; unfold saturating_sub, u32_max in *; lia).
  all: try (exfalso; unfold u32_max in *; lia).
  destruct (Hadd n) as [? ?]; [lia|].
  split; cbn; try assumption; [lia|]. case_match eqn:Hp; reflect; lia.
Qed.

Definition quota_step (p p' : Process) : Prop :=
  ∃ c, quota_call_ok c ∧ (quota_exec c p).2 = p'.

Lemma quota_steps p p' :
  within_quota p → rtc quota_step p p' → within_quota p' ∧ resource_limits p' = resource_limits p.
Proof.
  intros Hq Hs. induction Hs as [|p p1 p' (c & Hc & <-) _ IH]; [done|].
  destruct (quota_exec_spec c p Hq Hc) as (_ & Hq1 & _ & Hl).
  destruct (IH Hq1) as [? Hl']. by rewrite Hl', Hl.
Qed.

Lemma process_new_within n : within_quota (process_new n).
Proof. split; cbn; unfold u64_max, u32_max; lia. Qed.

(** Quotas hold: whatever a process charges and returns, in any order, its
    memory, windows, surfaces, capabilities and endpoints stay within its limits
    and nothing panics; a memory charge is granted exactly when it fits under
    the limit, and a refused charge changes nothing. *)
Theorem quotas_are_enforced (name : bytes) (p : Process) (n : Z)
    (Hp : rtc quota_step (process_new name) p) (Hn : (0 ≤ n ≤ u64_max)%Z) :
  within_quota p ∧
  (∀ c, quota_call_ok c → (quota_exec c p).1 ≠ Panic) ∧
  ((try_charge_memory n p).1 = Ok tt ↔
     (current_memory_bytes (resource_usage p) + n ≤ max_memory_bytes (resource_limits p))%Z) ∧
  ((try_charge_memory n p).1 ≠ Ok tt → (try_charge_memory n p).2 = p).
Proof.
  destruct (quota_steps _ _ (process_new_within name) Hp) as [Hq Hl].
  pose proof (quota_exec_spec (QChargeMemory n) p Hq Hn) as (_ & _ & Hsame & _).
  split_and!; [done| | |done].
  - intros c Hc. apply (quota_exec_spec c p Hq Hc).
  - assert (max_memory_bytes (resource_limits p) = 33554432)%Z as HM by (by rewrite Hl).
    destruct Hq as [Hmem _ _ _ _ _ _]. rewrite HM in *. clear Hl Hsame.
    unfold try_charge_memory, mbind, comp_bind, get, reject_if, set_usage, modify. cbn. rewrite HM.
    unfold saturating_add, u64_max in *. destruct (33554432 <? _)%Z eqn:Hb; reflect; cbn; split; try done; lia.
Qed.

Lemma quotas_are_enforced_witness :
  (try_charge_memory 4096 (quota_exec (QChargeMemory 33554432) (process_new [])).2).1 = Ok tt ↔
  (33554432 + 4096 ≤ 33554432)%Z.
Proof.
  refine (proj1 (proj2 (proj2 (quotas_are_enforced [] (quota_exec (QChargeMemory 33554432) (process_new [])).2
    4096 _ _)))).
  - apply rtc_once. exists (QChargeMemory 33554432). split; [vm_compute; split; discriminate|reflexivity].
  - vm_compute. split; discriminate.
Defined.
