(* ===== verification/WaitQueue.v ===== *)
(** * Intrusive wait queues (kernel/src/task/process.rs, WaitQueue)

    A wait queue is a doubly linked list whose nodes are the processes
    themselves: the queue holds the two ends, every process table entry its
    neighbours.  Operations work on the queue and the process table.  The
    abstract queue is the list of waiting pids; [queue_rep] relates the two and
    the specifications show that enqueuing, dequeuing and removing act on the
    list as they should and on no other queue. *)
From S2P Require Import Prelude Abi Process.

Abbreviation table := (gmap Z Process).

(** kernel/src/task/process.rs:149-152 [WaitQueue] *)
Record WaitQueue := mkQueue { q_head : option Z; q_tail : option Z }.

(** kernel/src/task/process.rs:158-163 [WaitQueue::new] *)
Definition queue_new : WaitQueue := mkQueue None None.

(** kernel/src/task/process.rs:169-171 [WaitQueue::is_empty] *)
Definition queue_is_empty (q : WaitQueue) : bool := bool_decide (q_head q = None).

(** kernel/src/task/process.rs:224-241 [WaitQueue::enqueue_internal] *)
Definition enqueue_internal (pid : Z) (q : WaitQueue) (t : table) : WaitQueue * table :=
  let t := alter (λ p, set_wait_prev (q_tail q) (set_wait_next None p)) pid t in
  match q_tail q with
  | Some old_tail =>
      (mkQueue (q_head q) (Some pid), alter (set_wait_next (Some pid)) old_tail t)
  | None => (mkQueue (Some pid) (Some pid), t)
  end.

(** The first table entry, by pid, that follows [pid] —
    kernel/src/task/process.rs:268-274 [WaitQueue::dequeue_internal, repair] *)
Definition find_successor (pid : Z) (t : table) : option Z :=
  (λ e, e.2.1) <$> list_find (λ e, wait_prev e.2 = Some pid) (btree_iter Z.le t).

(** [None] is the end of the fuel —
    kernel/src/task/process.rs:247-284 [WaitQueue::dequeue_internal, loop] *)
Fixpoint dequeue_loop (fuel : nat) (q : WaitQueue) (t : table)
  : option (option Z * WaitQueue * table) :=
  match fuel with
  | O => None
  | S fuel =>
      match q_head q with
      | None => Some (None, q, t)
      | Some head_pid =>
          match t !! head_pid with
          | Some proc =>
              let t := alter (λ p, set_wait_prev None (set_wait_next None p)) head_pid t in
              match wait_next proc with
              | Some next => Some (Some head_pid, mkQueue (Some next) (q_tail q), alter (set_wait_prev None) next t)
              | None => Some (Some head_pid, mkQueue None None, t)
              end
          | None =>
              if bool_decide (q_head q = q_tail q) then Some (None, mkQueue None None, t)
              else match find_successor head_pid t with
                   | Some next =>
                       dequeue_loop fuel (mkQueue (Some next) (q_tail q)) (alter (set_wait_prev None) next t)
                   | None => dequeue_loop fuel (mkQueue None None) t
                   end
          end
      end
  end.

(** The successor that replaces a missing head is in the table, so two rounds
    are enough — kernel/src/task/process.rs:243-287 [WaitQueue::dequeue_internal] *)
Definition dequeue_internal (q : WaitQueue) (t : table) : option (option Z * WaitQueue * table) :=
  dequeue_loop 2 q t.

(** kernel/src/task/process.rs:289-319 [WaitQueue::remove_internal] *)
Definition remove_internal (pid : Z) (q : WaitQueue) (t : table) : WaitQueue * table :=
  match t !! pid with
  | None => (q, t)
  | Some proc =>
      let prev := wait_prev proc in
      let next := wait_next proc in
      let t := alter (λ p, set_wait_next None (set_wait_prev None p)) pid t in
      let '(q, t) := match prev with
        | Some p => (q, alter (set_wait_next next) p t)
        | None => (if bool_decide (q_head q = Some pid) then mkQueue next (q_tail q) else q, t)
        end in
      match next with
      | Some n => (q, alter (set_wait_prev prev) n t)
      | None => (if bool_decide (q_tail q = Some pid) then mkQueue (q_head q) prev else q, t)
      end
  end.

#[global] Arguments enqueue_internal : simpl never.
#[global] Arguments dequeue_internal : simpl never.
#[global] Arguments remove_internal : simpl never.

(** ** Representation *)

Definition links (t : table) (x : Z) : option (option Z * option Z) :=
  (λ p, (wait_prev p, wait_next p)) <$> t !! x.

(** Everything but the links. *)
Definition unlinked (p : Process) : Process := set_wait_next None (set_wait_prev None p).
Definition core (t : table) : table := unlinked <$> t.

#[global] Arguments links : simpl never.
#[global] Arguments core : simpl never.

Definition first_or (l : list Z) (d : option Z) : option Z := match l with [] => d | x :: _ => Some x end.
Definition last_or (d : option Z) (l : list Z) : option Z := match last l with Some x => Some x | None => d end.

(** [l] is linked in order, with [prev] before it and [next] behind it. *)
Fixpoint segment (t : table) (prev : option Z) (l : list Z) (next : option Z) : Prop :=
  match l with
  | [] => True
  | x :: l => links t x = Some (prev, first_or l next) ∧ segment t (Some x) l next
  end.

Record queue_rep (t : table) (q : WaitQueue) (l : list Z) : Prop := {
  qr_head : q_head q = first_or l None;
  qr_tail : q_tail q = last_or None l;
  qr_nodup : NoDup l;
  qr_segment : segment t None l None;
}.

(** ** Segments *)

Lemma first_or_app l1 l2 d : first_or (l1 ++ l2) d = first_or l1 (first_or l2 d).
Proof. by destruct l1. Qed.

Lemma last_or_cons d x l : last_or d (x :: l) = last_or (Some x) l.
Proof. unfold last_or. rewrite last_cons. by destruct (last l). Qed.

Lemma last_or_snoc d l x : last_or d (l ++ [x]) = Some x.
Proof. unfold last_or. by rewrite last_snoc. Qed.

Lemma segment_app t prev l1 l2 next :
  segment t prev (l1 ++ l2) next ↔
  segment t prev l1 (first_or l2 next) ∧ segment t (last_or prev l1) l2 next.
Proof.
  revert prev. induction l1 as [|x l1 IH]; intros prev; cbn; [tauto|].
  rewrite IH, first_or_app, last_or_cons. tauto.
Qed.

Lemma segment_frame t t' prev l next :
  (∀ x, x ∈ l → links t' x = links t x) → segment t prev l next → segment t' prev l next.
Proof.
  revert prev. induction l as [|x l IH]; intros prev Hl; cbn; [done|]. intros [Hx Hs]. split.
  - rewrite Hl; [done|left].
  - apply IH; [|done]. intros y Hy. apply Hl. by right.
Qed.

Lemma links_alter f t x y :
  links (alter f x t) y = if decide (x = y) then (λ p, (wait_prev (f p), wait_next (f p))) <$> t !! y else links t y.
Proof.
  unfold links. case_decide as H; [subst; rewrite lookup_alter_eq|rewrite lookup_alter_ne by done; done].
  by destruct (t !! y).
Qed.

Lemma core_alter f t x : (∀ p, unlinked (f p) = unlinked p) → core (alter f x t) = core t.
Proof.
  intros Hf. apply map_eq. intros y. unfold core. rewrite !lookup_fmap.
  destruct (decide (x = y)) as [->|Hne]; [rewrite lookup_alter_eq|by rewrite lookup_alter_ne].
  destruct (t !! y); cbn; [by rewrite Hf|done].
Qed.

Lemma links_Some t x a b : links t x = Some (a, b) → ∃ p, t !! x = Some p ∧ wait_prev p = a ∧ wait_next p = b.
Proof. unfold links. intros (p & Hp & [= -> ->])%fmap_Some. eauto. Qed.

(** Relinking one end of a segment. *)
Lemma segment_set_last t prev l x next next' :
  x ∉ l → segment t prev (l ++ [x]) next → segment (alter (set_wait_next next') x t) prev (l ++ [x]) next'.
Proof.
  intros Hx [Hl [Hlx _]]%segment_app. apply segment_app. split.
  - eapply segment_frame; [|exact Hl]. intros y Hy. rewrite links_alter, decide_False by (by intros ->). done.
  - cbn in *. split; [|done]. rewrite links_alter, decide_True by done.
    apply links_Some in Hlx as (p & Hp & Hpp & _). rewrite Hp. cbn. by rewrite Hpp.
Qed.

Lemma segment_set_first t prev prev' x l next :
  x ∉ l → segment t prev (x :: l) next → segment (alter (set_wait_prev prev') x t) prev' (x :: l) next.
Proof.
  intros Hx [Hlx Hl]. cbn. split.
  - rewrite links_alter, decide_True by done. apply links_Some in Hlx as (p & Hp & _ & Hpn). rewrite Hp. cbn. by rewrite Hpn.
  - eapply segment_frame; [|exact Hl]. intros y Hy. rewrite links_alter, decide_False by (by intros ->). done.
Qed.

Lemma segment_skip f t x prev l next :
  x ∉ l → segment t prev l next → segment (alter f x t) prev l next.
Proof.
  intros Hx. apply segment_frame. intros y Hy. by rewrite links_alter, decide_False by (by intros ->).
Qed.

(** Links outside [l] are left alone. *)
Definition touches (l : list Z) (t t' : table) : Prop :=
  core t' = core t ∧ ∀ x, x ∉ l → links t' x = links t x.

Lemma touches_refl l t : touches l t t.
Proof. done. Qed.

Lemma touches_trans l t1 t2 t3 : touches l t1 t2 → touches l t2 t3 → touches l t1 t3.
Proof. intros [H1 H2] [H3 H4]. split; [by rewrite H3|]. intros x Hx. by rewrite H4, H2. Qed.

Lemma touches_alter l f t x : x ∈ l → (∀ p, unlinked (f p) = unlinked p) → touches l t (alter f x t).
Proof.
  intros Hx Hf. split; [by apply core_alter|]. intros y Hy.
  by rewrite links_alter, decide_False by (by intros ->).
Qed.

(** A queue none of whose members is touched is the same queue. *)
Lemma touches_queue l t t' q l' :
  touches l t t' → (∀ x, x ∈ l' → x ∉ l) → queue_rep t q l' → queue_rep t' q l'.
Proof.
  intros [_ Hl] Hdisj [? ? ? Hs]. split; [done..|]. eapply segment_frame; [|exact Hs].
  intros x Hx. by apply Hl, Hdisj.
Qed.

(** ** The operations refine the list operations *)

Lemma last_or_split (l : list Z) : l = [] ∨ ∃ l' x, l = l' ++ [x].
Proof. destruct l as [|x l _] using rev_ind; [by left|right; eauto]. Qed.

Lemma enqueue_internal_spec t q l pid :
  queue_rep t q l → pid ∉ l → is_Some (t !! pid) →
  queue_rep (enqueue_internal pid q t).2 (enqueue_internal pid q t).1 (l ++ [pid]) ∧
  touches (pid :: l) t (enqueue_internal pid q t).2.
Proof.
  intros [Hh Ht Hnd Hs] Hpid [p Hp]. unfold enqueue_internal. rewrite Ht, Hh.
  set (t1 := alter _ pid t).
  assert (links t1 pid = Some (last_or None l, None)) as Hl1.
  { unfold t1. rewrite links_alter, decide_True, Hp by done. done. }
  assert (segment t1 None l None) as Hs1 by (by apply segment_skip).
  assert (touches (pid :: l) t t1) as Ht1 by (apply touches_alter; [left|done]).
  destruct (last_or_split l) as [->|(l' & x & ->)]; cbn.
  - split; [split; cbn; [done..|apply NoDup_singleton|done]|done].
  - rewrite last_or_snoc in *. apply NoDup_app in Hnd as (Hnd' & Hdisj & _).
    assert (x ∉ l') as Hx by (intros Hin; apply (Hdisj x Hin); left).
    rewrite not_elem_of_app, list_elem_of_singleton in Hpid. destruct Hpid as [Hpl Hpx].
    split.
    + split; cbn.
      * by rewrite !first_or_app.
      * by rewrite last_or_snoc.
      * apply NoDup_app. split_and!; [apply NoDup_app; split_and!; [done|done|apply NoDup_singleton]| |apply NoDup_singleton].
        intros y Hy ->%list_elem_of_singleton. apply elem_of_app in Hy as [?|?%list_elem_of_singleton]; [done|congruence].
      * apply segment_app. split; [by apply (segment_set_last _ _ _ _ None)|].
        rewrite last_or_snoc. cbn. split; [|done]. by rewrite links_alter, decide_False.
    + eapply touches_trans; [exact Ht1|]. apply touches_alter; [|done]. set_solver.
Qed.

Lemma dequeue_internal_nil t q : queue_rep t q [] → dequeue_internal q t = Some (None, q, t).
Proof. intros [Hh _ _ _]. unfold dequeue_internal. cbn. by rewrite Hh. Qed.

Lemma dequeue_internal_cons t q x l :
  queue_rep t q (x :: l) →
  ∃ q' t', dequeue_internal q t = Some (Some x, q', t') ∧ queue_rep t' q' l ∧ touches (x :: l) t t' ∧
    links t' x = Some (None, None).
Proof.
  intros [Hh Ht Hnd [Hlx Hs]]. cbn in Hh. apply NoDup_cons in Hnd as [Hx Hnd].
  unfold dequeue_internal. cbn [dequeue_loop]. rewrite Hh.
  pose proof Hlx as (p & Hp & Hpp & Hpn)%links_Some. rewrite Hp, Hpn.
  set (t1 := alter _ x t).
  assert (segment t1 (Some x) l None) as Hs1 by (by apply segment_skip).
  assert (touches (x :: l) t t1) as Ht1 by (apply touches_alter; [left|done]).
  assert (links t1 x = Some (None, None)) as Hl1.
  { unfold t1. rewrite links_alter, decide_True, Hp by done. done. }
  destruct l as [|y l]; cbn.
  - eexists _, _. split_and!; [done| |done|done]. split; [done..|constructor|done].
  - apply NoDup_cons in Hnd as [Hy Hnd]. eexists _, _. split_and!; [done| | |].
    + split; cbn; [done|by rewrite Ht, !last_or_cons|by apply NoDup_cons|].
      by apply segment_set_first with (prev := Some x).
    + eapply touches_trans; [exact Ht1|]. apply touches_alter; [set_solver|done].
    + rewrite links_alter, decide_False; [done|]. intros ->. set_solver.
Qed.

(** The first element that follows, or the end. *)
Lemma remove_internal_spec t q l1 pid l2 :
  queue_rep t q (l1 ++ pid :: l2) →
  queue_rep (remove_internal pid q t).2 (remove_internal pid q t).1 (l1 ++ l2) ∧
  touches (l1 ++ pid :: l2) t (remove_internal pid q t).2 ∧
  links (remove_internal pid q t).2 pid = Some (None, None).
Proof.
  intros [Hh Ht Hnd [Hs1 [Hlx Hs2]]%segment_app]. cbn in Hs1.
  apply NoDup_app in Hnd as (Hnd1 & Hdisj & [Hpid2 Hnd2]%NoDup_cons).
  assert (pid ∉ l1) as Hpid1 by (intros Hin; apply (Hdisj pid Hin); left).
  assert (NoDup (l1 ++ l2)) as Hnd.
  { apply NoDup_app. split_and!; [done| |done]. intros y Hy Hy2. apply (Hdisj y Hy). by right. }
  pose proof Hlx as (p & Hp & Hpp & Hpn)%links_Some.
  unfold remove_internal. rewrite Hp, Hpp, Hpn. set (t1 := alter _ pid t).
  assert (segment t1 None l1 (Some pid)) as Hs1' by (by apply segment_skip).
  assert (segment t1 (Some pid) l2 None) as Hs2' by (by apply segment_skip).
  assert (touches (l1 ++ pid :: l2) t t1) as Ht1 by (apply touches_alter; [set_solver|done]).
  assert (links t1 pid = Some (None, None)) as Hl1 by (unfold t1; rewrite links_alter, decide_True, Hp; done).
  assert (∃ q1 t2,
    match last_or None l1 with
    | Some a => (q, alter (set_wait_next (first_or l2 None)) a t1)
    | None => (if bool_decide (q_head q = Some pid) then mkQueue (first_or l2 None) (q_tail q) else q, t1)
    end = (q1, t2) ∧ q_head q1 = first_or (l1 ++ l2) None ∧ q_tail q1 = q_tail q ∧
    segment t2 None l1 (first_or l2 None) ∧ segment t2 (Some pid) l2 None ∧
    touches (l1 ++ pid :: l2) t t2 ∧ links t2 pid = Some (None, None)) as (q1 & t2 & -> & Hh' & Ht' & Hsa & Hsb & Htt & Hll).
  { destruct (last_or_split l1) as [->|(l & a & ->)]; cbn in Hh |- *.
    - rewrite bool_decide_eq_true_2 by done. by eexists _, _.
    - rewrite last_or_snoc. eexists _, _. split; [done|].
      assert (a ∉ l2) by (intros Hin; apply (Hdisj a); [apply elem_of_app; right; left|by right]).
      assert (a ≠ pid) by (intros ->; apply Hpid1, elem_of_app; right; left).
      apply NoDup_app in Hnd1 as (_ & Hda & _).
      split_and!; [by rewrite Hh, !first_or_app|done| |by apply segment_skip| |by rewrite links_alter, decide_False].
      + apply segment_set_last with (next := Some pid); [|done]. intros Hin. apply (Hda a Hin). left.
      + eapply touches_trans; [exact Ht1|]. apply touches_alter; [set_solver|done]. }
  destruct l2 as [|b l2]; cbn in Hsa, Hsb, Hh' |- *.
  - rewrite app_nil_r in *. rewrite Ht', Ht,  last_or_snoc, bool_decide_eq_true_2 by done.
    split_and!; [|done|done]. by split.
  - rewrite first_or_app in Hh'. apply NoDup_cons in Hnd2 as [Hb _].
    assert (b ∉ l1) by (intros Hin; apply (Hdisj b Hin); right; left).
    assert (b ≠ pid) by (intros ->; apply Hpid2; left).
    split_and!.
    + split; cbn; [by rewrite first_or_app|rewrite Ht', Ht; unfold last_or; by rewrite !last_app_cons|done|].
      apply segment_app. split; [by apply segment_skip|]. by apply segment_set_first with (prev := Some pid).
    + eapply touches_trans; [exact Htt|]. apply touches_alter; [set_solver|done].
    + by rewrite links_alter, decide_False.
Qed.

(** Removing a process that is not in the queue and has no neighbours. *)
Lemma remove_internal_absent t q l pid :
  queue_rep t q l → pid ∉ l → links t pid = Some (None, None) →
  queue_rep (remove_internal pid q t).2 (remove_internal pid q t).1 l ∧
  touches [pid] t (remove_internal pid q t).2 ∧ links (remove_internal pid q t).2 pid = Some (None, None).
Proof.
  intros Hq Hpid Hl. pose proof Hl as (p & Hp & Hpp & Hpn)%links_Some.
  unfold remove_internal. rewrite Hp, Hpp, Hpn. cbn.
  rewrite (bool_decide_eq_false_2 (q_head q = _)).
  2: { rewrite (qr_head _ _ _ Hq). destruct l as [|x l]; [done|]. cbn. intros [= ->]. apply Hpid. left. }
  rewrite (bool_decide_eq_false_2 (q_tail q = _)).
  2: { rewrite (qr_tail _ _ _ Hq). destruct (last_or_split l) as [->|(l' & x & ->)]; [done|].
       rewrite last_or_snoc. intros [= ->]. apply Hpid, elem_of_app. right. left. }
  assert (touches [pid] t (alter (λ p, set_wait_next None (set_wait_prev None p)) pid t)) as Ht
    by (apply touches_alter; [left|done]).
  split_and!; [|done|].
  - eapply touches_queue; [exact Ht| |done]. intros x Hx ->%list_elem_of_singleton. done.
  - by rewrite links_alter, decide_True, Hp.
Qed.
