(* ===== verification/Sched.v ===== *)
(** * The scheduler (kernel/src/task/process.rs)

    The state behind the lock [SCHEDULER]: the process table, the ready queue,
    the process running on each CPU and the sleep queue; with it the wait and
    wake operations of wait queues, signals, process creation and exit, and the
    choice of the next process.  Every function takes the CPU it runs on as an
    argument.  The machine's part of a context switch (registers, page table
    root, TSS, port bitmap) is not modelled: [schedule_internal] ends with the
    decision, [finish_switch] is what the resumed thread does afterwards.
    [None] is a panic, or the end of the fuel of a loop. *)
From S2P Require Import Prelude Abi Process WaitQueue.

(** kernel/src/gdt.rs:7-7 [MAX_CPUS] *)
Definition MAX_CPUS : nat := 8.
(** kernel/src/task/process.rs:1040-1040 [MAX_PROCESSES] *)
Definition MAX_PROCESSES : nat := 64.
#[global] Arguments MAX_PROCESSES : simpl never.

(** With the two statics that go with it, [EARLIEST_SLEEP_TICK] and [NEXT_PID] —
    kernel/src/task/process.rs:713-720 [Scheduler] *)
Record Scheduler := mkSched {
  procs : table;
  ready : list Z;
  current : list (option Z);
  sleep_queue : WaitQueue;
  EARLIEST_SLEEP_TICK : Z;
  NEXT_PID : Z;
}.

Definition with_procs (t : table) (s : Scheduler) : Scheduler :=
  mkSched t (ready s) (current s) (sleep_queue s) (EARLIEST_SLEEP_TICK s) (NEXT_PID s).
Definition with_ready (r : list Z) (s : Scheduler) : Scheduler :=
  mkSched (procs s) r (current s) (sleep_queue s) (EARLIEST_SLEEP_TICK s) (NEXT_PID s).
Definition with_current (c : list (option Z)) (s : Scheduler) : Scheduler :=
  mkSched (procs s) (ready s) c (sleep_queue s) (EARLIEST_SLEEP_TICK s) (NEXT_PID s).
Definition with_sleep (q : WaitQueue) (s : Scheduler) : Scheduler :=
  mkSched (procs s) (ready s) (current s) q (EARLIEST_SLEEP_TICK s) (NEXT_PID s).
Definition with_earliest (e : Z) (s : Scheduler) : Scheduler :=
  mkSched (procs s) (ready s) (current s) (sleep_queue s) e (NEXT_PID s).
Definition update (pid : Z) (f : Process → Process) (s : Scheduler) : Scheduler :=
  with_procs (alter f pid (procs s)) s.
Definition push_ready (pid : Z) (s : Scheduler) : Scheduler := with_ready (ready s ++ [pid]) s.

(** kernel/src/task/process.rs:723-730 [Scheduler::uninit] *)
Definition uninit : Scheduler :=
  mkSched ∅ [] (replicate MAX_CPUS None) queue_new u64_max 1.

(** ** Who runs where *)

(** kernel/src/task/process.rs:831-837 [Scheduler::current_for_cpu] *)
Definition current_for_cpu (cpu : nat) (s : Scheduler) : option Z :=
  if (cpu <? MAX_CPUS)%nat then mjoin (current s !! cpu) else None.

(** kernel/src/task/process.rs:839-844 [Scheduler::set_current_for_cpu] *)
Definition set_current_for_cpu (cpu : nat) (pid : option Z) (s : Scheduler) : Scheduler :=
  if (cpu <? MAX_CPUS)%nat then with_current (<[cpu := pid]> (current s)) s else s.

(** kernel/src/task/process.rs:846-848 [Scheduler::is_running_on_any_cpu] *)
Definition is_running_on_any_cpu (pid : Z) (s : Scheduler) : bool :=
  bool_decide (Some pid ∈ current s).

(** kernel/src/task/process.rs:850-857 [Scheduler::clear_current_if_matches] *)
Definition clear_current_if_matches (pid : Z) (s : Scheduler) : Scheduler :=
  with_current ((λ c, if bool_decide (c = Some pid) then None else c) <$> current s) s.

(** kernel/src/task/process.rs:859-861 [Scheduler::get_process] *)
Definition get_process (pid : Z) (s : Scheduler) : option Process := procs s !! pid.

(** ** Waiting and waking *)

(** kernel/src/task/process.rs:173-180 [WaitQueue::prepare_wait] *)
Definition prepare_wait (cpu : nat) (reason : BlockReason) (q : WaitQueue) (s : Scheduler)
  : option (WaitQueue * Scheduler) :=
  cur ← current_for_cpu cpu s;
  let '(q, t) := enqueue_internal cur q (procs s) in
  Some (q, with_procs (alter (λ p, set_block_reason (Some reason) (set_state Blocked p)) cur t) s).

(** kernel/src/task/process.rs:182-192 [WaitQueue::finish_wait] *)
Definition finish_wait (cpu : nat) (q : WaitQueue) (s : Scheduler) : WaitQueue * Scheduler :=
  match current_for_cpu cpu s with
  | None => (q, s)
  | Some cur =>
      let '(q, t) := remove_internal cur q (procs s) in
      (q, with_procs (alter (λ p, if bool_decide (state p = Blocked)
                                  then set_block_reason None (set_state Running p) else p) cur t) s)
  end.

(** kernel/src/task/process.rs:194-214 [WaitQueue::wake_one, loop] *)
Fixpoint wake_loop (fuel : nat) (q : WaitQueue) (s : Scheduler)
  : option (option Z * WaitQueue * Scheduler) :=
  match fuel with
  | O => None
  | S fuel =>
      '(r, q, t) ← dequeue_internal q (procs s);
      let s := with_procs t s in
      match r with
      | None => Some (None, q, s)
      | Some pid =>
          match procs s !! pid with
          | None => wake_loop fuel q s
          | Some proc =>
              if is_running_on_any_cpu pid s then
                if bool_decide (state proc = Blocked) || bool_decide (is_Some (block_reason proc)) then
                  Some (Some pid, q, update pid (λ p, set_block_reason None (set_state Running p)) s)
                else wake_loop fuel q s
              else if bool_decide (state proc = Blocked) then
                Some (Some pid, q, push_ready pid (update pid (λ p, set_block_reason None (set_state Ready p)) s))
              else wake_loop fuel q s
          end
      end
  end.

(** kernel/src/task/process.rs:194-214 [WaitQueue::wake_one] *)
Definition wake_one (q : WaitQueue) (s : Scheduler) : option (option Z * WaitQueue * Scheduler) :=
  wake_loop (S (size (procs s))) q s.

(** kernel/src/task/process.rs:216-222 [WaitQueue::wake_all, loop] *)
Fixpoint wake_all_loop (fuel : nat) (count : nat) (q : WaitQueue) (s : Scheduler)
  : option (nat * WaitQueue * Scheduler) :=
  match fuel with
  | O => None
  | S fuel =>
      '(r, q, s) ← wake_one q s;
      match r with
      | Some _ => wake_all_loop fuel (S count) q s
      | None => Some (count, q, s)
      end
  end.

(** kernel/src/task/process.rs:216-222 [WaitQueue::wake_all] *)
Definition wake_all (q : WaitQueue) (s : Scheduler) : option (nat * WaitQueue * Scheduler) :=
  wake_all_loop (S (size (procs s))) 0 q s.

(** ** Sleeping *)

(** kernel/src/task/process.rs:732-752 [Scheduler::enqueue_sleep] *)
Definition enqueue_sleep (pid target_tick : Z) (s : Scheduler) : Scheduler :=
  let q := sleep_queue s in
  let t := alter (λ p, set_block_reason (Some (Sleep target_tick)) (set_state Blocked
             (set_wait_prev (q_tail q) (set_wait_next None p)))) pid (procs s) in
  let '(q, t) := match q_tail q with
    | Some old_tail => (mkQueue (q_head q) (Some pid), alter (set_wait_next (Some pid)) old_tail t)
    | None => (mkQueue (Some pid) (Some pid), t)
    end in
  with_earliest (EARLIEST_SLEEP_TICK s `min` target_tick) (with_sleep q (with_procs t s)).

(** The walk along the sleep queue — kernel/src/task/process.rs:757-770
    [Scheduler::recalculate_earliest_sleep, loop] *)
Fixpoint earliest_loop (fuel : nat) (t : table) (curr : option Z) (min_tick : Z) : option Z :=
  match curr with
  | None => Some min_tick
  | Some pid =>
      match fuel with
      | O => None
      | S fuel =>
          match t !! pid with
          | None => Some min_tick
          | Some proc =>
              earliest_loop fuel t (wait_next proc)
                (match block_reason proc with
                 | Some (Sleep target) => if (target <? min_tick)%Z then target else min_tick
                 | _ => min_tick
                 end)
          end
      end
  end.

(** kernel/src/task/process.rs:754-772 [Scheduler::recalculate_earliest_sleep] *)
Definition recalculate_earliest_sleep (s : Scheduler) : option Scheduler :=
  e ← earliest_loop (size (procs s)) (procs s) (q_head (sleep_queue s)) u64_max;
  Some (with_earliest e s).

(** kernel/src/task/process.rs:774-805 [Scheduler::remove_sleep] *)
Definition remove_sleep (pid : Z) (s : Scheduler) : option Scheduler :=
  match procs s !! pid with
  | None => Some s
  | Some _ =>
      let '(q, t) := remove_internal pid (sleep_queue s) (procs s) in
      recalculate_earliest_sleep (with_sleep q (with_procs t s))
  end.

(** kernel/src/task/process.rs:1539-1561 [poll_sleeping_processes_locked, loop] *)
Fixpoint poll_loop (fuel : nat) (current_tick : Z) (curr : option Z) (s : Scheduler) : option Scheduler :=
  match curr with
  | None => Some s
  | Some pid =>
      match fuel with
      | O => None
      | S fuel =>
          match procs s !! pid with
          | None => Some s
          | Some p =>
              let should_wake := match block_reason p with
                | Some (Sleep target) => (target <=? current_tick)%Z
                | _ => false
                end in
              if should_wake then
                s ← remove_sleep pid s;
                poll_loop fuel current_tick (wait_next p)
                  (push_ready pid (update pid (λ p, set_block_reason None (set_state Ready p)) s))
              else poll_loop fuel current_tick (wait_next p) s
          end
      end
  end.

(** kernel/src/task/process.rs:1539-1561 [poll_sleeping_processes_locked] *)
Definition poll_sleeping_processes_locked (current_tick : Z) (s : Scheduler) : option Scheduler :=
  poll_loop (size (procs s)) current_tick (q_head (sleep_queue s)) s.

(** kernel/src/task/process.rs:1525-1531 [sleep_ms, before the switch] *)
Definition sleep_ms_begin (cpu : nat) (tick ms : Z) (s : Scheduler) : Scheduler :=
  match current_for_cpu cpu s with
  | Some cur => enqueue_sleep cur (saturating_add 64 tick ms) s
  | None => s
  end.

(** kernel/src/task/process.rs:1533-1536 [sleep_ms, after the switch] *)
Definition sleep_ms_end (cpu : nat) (s : Scheduler) : option Scheduler :=
  match current_for_cpu cpu s with
  | Some cur => remove_sleep cur s
  | None => Some s
  end.

(** ** Life and death *)

(** kernel/src/task/process.rs:867-875 [Scheduler::exit_process] *)
Definition exit_process (pid code : Z) (s : Scheduler) : Scheduler :=
  update pid (λ p, if reaped p then p
    else set_reaped true (set_exited true (set_exit_code code (set_state Exited p)))) s.

(** kernel/src/task/process.rs:877-885 [Scheduler::crash_process] *)
Definition crash_process (pid : Z) (s : Scheduler) : Scheduler :=
  update pid (λ p, if reaped p then p
    else set_reaped true (set_exited true (set_is_crashed true (set_state Crashed p)))) s.

(** kernel/src/task/process.rs:893-895 [Scheduler::remove_from_ready] *)
Definition remove_from_ready (pid : Z) (s : Scheduler) : Scheduler :=
  with_ready (filter (λ p, p ≠ pid) (ready s)) s.

(** kernel/src/task/process.rs:887-891 [Scheduler::purge_pid] *)
Definition purge_pid (pid : Z) (s : Scheduler) : Scheduler :=
  let s := clear_current_if_matches pid (remove_from_ready pid s) in
  with_procs (delete pid (procs s)) s.

(** kernel/src/task/process.rs:897-899 [Scheduler::is_exited] *)
Definition is_exited (pid : Z) (s : Scheduler) : bool :=
  match procs s !! pid with
  | Some p => exited p || reaped p || bool_decide (state p = Exited) || bool_decide (state p = Terminated)
  | None => true
  end.

(** kernel/src/task/process.rs:902-908 [remove_process_from_ready] *)
Definition remove_process_from_ready (pid : Z) (s : Scheduler) : Scheduler :=
  update pid (set_state Blocked) (remove_from_ready pid s).

(** kernel/src/task/process.rs:1042-1059 [insert_process] *)
Definition insert_process (cpu : nat) (n : bytes) (s : Scheduler) : Z * Scheduler :=
  let t := if (MAX_PROCESSES <=? size (procs s))%nat
           then filter (λ e, ¬ (state e.2 = Terminated ∧ reaped e.2 = true)) (procs s)
           else procs s in
  let pid := NEXT_PID s in
  let p := set_parent_pid (current_for_cpu cpu s) (set_pid pid (process_new n)) in
  (pid, mkSched (<[pid := p]> t) (ready s) (current s) (sleep_queue s) (EARLIEST_SLEEP_TICK s)
          (wrap 64 (NEXT_PID s + 1))).

(** kernel/src/task/process.rs:1253-1279 [create_kernel_process] *)
Definition create_kernel_process (cpu : nat) (n : bytes) (s : Scheduler) : Z * Scheduler :=
  let '(pid, s) := insert_process cpu n s in
  (pid, push_ready pid (update pid (λ p, set_state Ready (set_parent_pid (current_for_cpu cpu s) p)) s)).

(** The table of capabilities the process is born with is a parameter —
    kernel/src/task/process.rs:1308-1352 [create_user_process_with_caps] *)
Definition create_user_process_with_caps (cpu : nat) (n : bytes) (cr3 : Z)
    (seeded extra : list (Z * CapHandle)) (s : Scheduler) : Z * Scheduler :=
  let '(pid, s) := insert_process cpu n s in
  (pid, push_ready pid (update pid (λ p, set_cap_table (cap_table p ++ seeded ++ extra)
          (set_user_cr3 cr3 (set_state Ready (set_is_user true p)))) s)).

(** kernel/src/task/process.rs:1065-1068 [PendingProcess::new] *)
Definition pending_new (pid : Z) (s : Scheduler) : Scheduler := remove_process_from_ready pid s.

(** kernel/src/task/process.rs:1069-1077 [PendingProcess::commit] *)
Definition pending_commit (pid : Z) (s : Scheduler) : Scheduler :=
  match procs s !! pid with
  | Some _ => push_ready pid (update pid (set_state Ready) s)
  | None => s
  end.

(** One round of the loop: an error, the exit code, or [None] when the caller
    was blocked and must be scheduled away —
    kernel/src/task/process.rs:1100-1137 [waitpid, loop body] *)
Definition waitpid_round (cpu : nat) (child : Z) : comp Scheduler string (option Z) :=
  s ← get;
  p ← ok_or (procs s !! child) "Process not found";
  reject_if (bool_decide (state p = Reaped) || reaped p) "Already reaped";;
  if bool_decide (state p = Terminated) || exited p then
    put (update child (λ p, set_reaped true (set_state Reaped p)) s);;
    mret (Some (exit_code p))
  else match current_for_cpu cpu s with
  | Some parent =>
      modify (update parent (λ p, set_block_reason (Some (WaitPid child)) (set_state Blocked p)));;
      modify (update child (λ p, match parent_pid p with
                                 | None => set_parent_pid (Some parent) p
                                 | Some _ => p
                                 end));;
      mret None
  | None => mret None
  end.

(** Waking the parent of a process that ended, with or without SIGCHLD —
    kernel/src/task/process.rs:1169-1187 [send_signal, parent notification] *)
Definition should_wake_parent (child : Z) (parent : Process) : bool :=
  match block_reason parent with
  | Some (WaitPid waited) => (waited =? child)%Z
  | _ => bool_decide (state parent = Blocked)
  end.
Definition notify_parent (sigchld : bool) (child : Z) (parent_pid : option Z) (s : Scheduler) : Scheduler :=
  match parent_pid with
  | None => s
  | Some pp =>
      match procs s !! pp with
      | None => s
      | Some parent =>
          let wake := should_wake_parent child parent in
          let s := update pp (λ p,
            let p := if wake then set_block_reason None (set_state Ready p) else p in
            if sigchld then set_pending_signals (Z.lor (pending_signals p) (Z.shiftl 1 SIGCHLD)) p else p) s in
          if wake then push_ready pp s else s
      end
  end.

(** ** Signals *)

(** The error branch is also the panic of a loop out of fuel, [unwrap] —
    kernel/src/task/process.rs:1149-1212 [send_signal] *)
Definition send_signal (target sig : Z) : comp Scheduler string unit :=
  reject_if ((sig =? 0) || (31 <? sig))%Z "Invalid signal number";;
  s ← get;
  p ← ok_or (procs s !! target) "Process not found";
  reject_if (bool_decide (state p = Terminated) || bool_decide (state p = Reaped) || exited p)
    "Process already terminated";;
  if (sig =? SIGKILL)%Z then
    let s := update target (λ p, set_exit_code (128 + sig) (set_exited true (set_state Terminated p))) s in
    s ← unwrap (remove_sleep target s);
    put (notify_parent true target (parent_pid p) s)
  else if (sig =? SIGSTOP)%Z then modify (update target (set_state Blocked))
  else if (sig =? SIGCONT)%Z then
    if bool_decide (state p = Blocked) then
      modify (λ s, push_ready target (update target (set_state Ready) s))
    else mret tt
  else if (Z.land (blocked_signals p) (Z.shiftl 1 sig) =? 0)%Z then
    modify (update target (λ p, set_pending_signals (Z.lor (pending_signals p) (Z.shiftl 1 sig)) p));;
    if bool_decide (state p = Blocked) then
      modify (λ s, push_ready target (update target (set_state Ready) s))
    else mret tt
  else mret tt.

(** kernel/src/task/process.rs:1215-1228 [register_signal_handler] *)
Definition register_signal_handler (cpu : nat) (sig rip : Z) : comp Scheduler string unit :=
  reject_if ((sig =? SIGKILL) || (sig =? SIGSTOP))%Z "SIGKILL and SIGSTOP cannot be caught or ignored";;
  reject_if ((sig =? 0) || (31 <? sig))%Z "Invalid signal number";;
  s ← get;
  let pid := default 0%Z (current_for_cpu cpu s) in
  _ ← ok_or (procs s !! pid) "Process not found";
  modify (update pid (λ p, set_signal_handlers (<[sig := rip]> (signal_handlers p)) p)).

Definition unmaskable : Z := Z.lor (Z.shiftl 1 SIGKILL) (Z.shiftl 1 SIGSTOP).

(** kernel/src/task/process.rs:1231-1249 [set_signal_mask] *)
Definition set_signal_mask (cpu : nat) (how mask : Z) : comp Scheduler string Z :=
  s ← get;
  let pid := default 0%Z (current_for_cpu cpu s) in
  p ← ok_or (procs s !! pid) "Process not found";
  let old_mask := blocked_signals p in
  let sanitized_mask := Z.ldiff mask unmaskable in
  (if (how =? 0)%Z then modify (update pid (set_blocked_signals (Z.lor old_mask sanitized_mask)))
   else if (how =? 1)%Z then modify (update pid (set_blocked_signals (Z.ldiff old_mask sanitized_mask)))
   else if (how =? 2)%Z then modify (update pid (set_blocked_signals sanitized_mask))
   else throw "Invalid how parameter");;
  mret old_mask.

(** ** CPU affinity and quotas *)

(** kernel/src/task/process.rs:692-705 [set_process_cpu_affinity] *)
Definition set_process_cpu_affinity (pid : Z) (cpu : option nat) : comp Scheduler string unit :=
  reject_if (match cpu with Some c => (MAX_CPUS <=? c)%nat | None => false end) "Invalid CPU ID for affinity";;
  s ← get;
  _ ← ok_or (procs s !! pid) "Process not found";
  modify (update pid (set_cpu_affinity cpu)).

(** kernel/src/task/process.rs:708-711 [get_process_cpu_affinity] *)
Definition get_process_cpu_affinity (pid : Z) (s : Scheduler) : option (option nat) :=
  cpu_affinity <$> procs s !! pid.

(** kernel/src/task/process.rs:623-630 [try_charge_process_memory] *)
Definition try_charge_process_memory (pid n : Z) : comp Scheduler string unit := λ s,
  match procs s !! pid with
  | Some p => let (r, p') := try_charge_memory n p in (r, with_procs (<[pid := p']> (procs s)) s)
  | None => (Ok tt, s)
  end.

(** kernel/src/task/process.rs:632-637 [uncharge_process_memory] *)
Definition uncharge_process_memory (pid n : Z) (s : Scheduler) : Scheduler :=
  update pid (λ p, (uncharge_memory n p).2) s.

(** ** The next process *)

(** kernel/src/task/process.rs:1664-1664 [schedule_internal, candidate check] *)
Definition alive (p : Process) : bool :=
  negb (exited p) && negb (reaped p) && negb (bool_decide (state p = Terminated))
  && negb (bool_decide (state p = Exited)).

(** Running on, or pinned to, another CPU —
    kernel/src/task/process.rs:1666-1679 [schedule_internal, SMP checks] *)
Definition elsewhere (cpu : nat) (p : Process) : bool :=
  match on_cpu p with Some c => negb (c =? cpu)%nat | None => false end
  || match cpu_affinity p with Some c => negb (c =? cpu)%nat | None => false end.

(** kernel/src/task/process.rs:1655-1688 [schedule_internal, ready scan] *)
Fixpoint pick_ready (attempts : nat) (cpu : nat) (t : table) (ready : list Z) : option Z * list Z :=
  match attempts with
  | O => (None, ready)
  | S attempts =>
      match ready with
      | [] => (None, [])
      | candidate :: ready =>
          match t !! candidate with
          | Some p =>
              if alive p then
                if elsewhere cpu p then pick_ready attempts cpu t (ready ++ [candidate])
                else (Some candidate, ready)
              else pick_ready attempts cpu t ready
          | None => pick_ready attempts cpu t ready
          end
      end
  end.

(** kernel/src/task/process.rs:1639-1650 [schedule_internal, hint] *)
Definition pick_hint (cpu : nat) (t : table) (hint : option Z) : option Z :=
  target ← hint;
  p ← t !! target;
  if negb (exited p) && negb (reaped p)
     && (bool_decide (state p = Ready) || bool_decide (state p = Running)) && negb (elsewhere cpu p)
  then Some target else None.

(** A running process goes to the back of the ready queue —
    kernel/src/task/process.rs:1628-1636 [schedule_internal, requeue] *)
Definition requeue_current (cpu : nat) (s : Scheduler) : Scheduler :=
  match current_for_cpu cpu s with
  | None => s
  | Some cur =>
      match procs s !! cur with
      | Some p =>
          if bool_decide (state p = Running) && negb (exited p) && negb (reaped p)
          then push_ready cur (update cur (set_state Ready) s) else s
      | None => s
      end
  end.

(** Process 0 is the idle process: with nothing to run the CPU goes to it, and
    halts for ever ([None]) when there is none.  The result is the process the
    CPU runs next —
    kernel/src/task/process.rs:1611-1740 [schedule_internal] *)
Definition schedule_internal (cpu : nat) (tick : Z) (hint : option Z) (s : Scheduler)
  : option (Z * Scheduler) :=
  s ← poll_sleeping_processes_locked tick s;
  let prev := current_for_cpu cpu s in
  let s := requeue_current cpu s in
  let '(next, s) := match pick_hint cpu (procs s) hint with
    | Some target => (Some target, s)
    | None => let '(n, r) := pick_ready (length (ready s)) cpu (procs s) (ready s) in (n, with_ready r s)
    end in
  let run pid s := update pid (λ p, set_on_cpu (Some cpu) (set_state Running p)) s in
  match next with
  | Some pid =>
      if bool_decide (prev = Some pid) then Some (pid, run pid s)
      else Some (pid, run pid (set_current_for_cpu cpu (Some pid) s))
  | None =>
      if bool_decide (prev = Some 0%Z) then Some (0%Z, s)
      else _ ← procs s !! 0%Z; Some (0%Z, run 0%Z (set_current_for_cpu cpu (Some 0%Z) s))
  end.

(** kernel/src/task/process.rs:1752-1761 [schedule_internal, finish_switch] *)
Definition finish_switch (cpu : nat) (prev : option Z) (s : Scheduler) : Scheduler :=
  match prev with
  | None => s
  | Some prev =>
      update prev (λ p, if bool_decide (on_cpu p = Some cpu) && negb (bool_decide (current_for_cpu cpu s = Some prev))
                        then set_on_cpu None p else p) s
  end.

(** The scheduler's part of the exit path after the resources are gone; [None]
    is the panic of indexing the table with a pid it does not hold —
    kernel/src/task/process.rs:1873-1929 [exit_current, switch] *)
Definition exit_current_switch (cpu : nat) (s : Scheduler) : option Scheduler :=
  let s := match current_for_cpu cpu s with
    | None => s
    | Some pid =>
        let parent := procs s !! pid ≫= parent_pid in
        let s := update pid (λ p, set_allowed_ports None (set_on_cpu None (set_exited true (set_state Terminated p)))) s in
        notify_parent false pid parent s
    end in
  match ready s with
  | pid :: r =>
      let s := set_current_for_cpu cpu (Some pid) (with_ready r s) in
      let s := update pid (λ p, set_on_cpu (Some cpu) (set_state Running p)) s in
      _ ← procs s !! pid; Some s
  | [] => _ ← procs s !! 0%Z; Some (set_current_for_cpu cpu None s)
  end.

(** The quantum left on the CPU and whether this tick schedules —
    kernel/src/task/process.rs:1472-1496 [timer_tick] *)
Definition timer_tick (preemption_enabled : bool) (ticks_left tick : Z) (s : Scheduler) : Z * bool :=
  if negb preemption_enabled then (ticks_left, false)
  else
    let expired_quantum := negb (1 <? ticks_left)%Z in
    let has_waking := (EARLIEST_SLEEP_TICK s <=? tick)%Z in
    (if expired_quantum then ticks_left else (ticks_left - 1)%Z, expired_quantum || has_waking).
