(* ===== verification/SchedProps.v ===== *)
(** * The scheduler: properties

    Waking as an operation on the abstract queue of waiters, the sleep queue,
    the choice of the next process, and what signals do to all three. *)
From S2P Require Import Prelude Abi Process WaitQueue Sched.

(** ** Waking *)

Lemma queue_frame t t' q l :
  (∀ x, x ∈ l → links t' x = links t x) → queue_rep t q l → queue_rep t' q l.
Proof. intros Hl [? ? ? Hs]. split; [done..|]. by eapply segment_frame. Qed.

Lemma links_alter_same f t x y :
  (∀ p, wait_prev (f p) = wait_prev p ∧ wait_next (f p) = wait_next p) →
  links (alter f x t) y = links t y.
Proof.
  intros Hf. rewrite links_alter. case_decide; [|done]. unfold links. subst.
  destruct (t !! y) as [p|]; [|done]. cbn. by destruct (Hf p) as [-> ->].
Qed.

Lemma segment_lookup t prev l next x : segment t prev l next → x ∈ l → is_Some (t !! x).
Proof.
  revert prev. induction l as [|y l IH]; intros prev; cbn; [by intros _ ?%elem_of_nil|].
  intros [(p & Hp & _)%links_Some Hs] [->|Hx]%elem_of_cons; [by exists p|by eapply IH].
Qed.

Lemma queue_rep_size t q l : queue_rep t q l → length l ≤ size t.
Proof.
  intros [_ _ Hnd Hs]. rewrite <-(size_list_to_set (C := gset Z)), <-size_dom by done.
  apply subseteq_size. intros x Hx%elem_of_list_to_set. apply elem_of_dom. by eapply segment_lookup.
Qed.

Lemma core_lookup t x : core t !! x = unlinked <$> t !! x.
Proof. unfold core. by rewrite lookup_fmap. Qed.

Lemma core_eq t t' x p : core t' = core t → t !! x = Some p →
  ∃ p', t' !! x = Some p' ∧ unlinked p' = unlinked p.
Proof.
  intros Hc Hp. assert (core t' !! x = Some (unlinked p)) as H by (by rewrite Hc, core_lookup, Hp).
  rewrite core_lookup in H. apply fmap_Some in H as (p' & ? & ?). eauto.
Qed.

(** A waiter that a wake-up is for: blocked, or about to block while still on a CPU. *)
Definition wakeable (s : Scheduler) (x : Z) : Prop :=
  ∃ p, procs s !! x = Some p ∧
    (state p = Blocked ∨ (is_running_on_any_cpu x s = true ∧ is_Some (block_reason p))).

Lemma wakeable_core s s' x :
  core (procs s') = core (procs s) → current s' = current s → wakeable s x → wakeable s' x.
Proof.
  intros Hc Hcur (p & Hp & Hw). destruct (core_eq _ _ _ _ Hc Hp) as (p' & Hp' & Hu).
  exists p'. split; [done|]. unfold is_running_on_any_cpu in *. rewrite Hcur.
  assert (state p' = state p) as -> by exact (f_equal state Hu).
  by assert (block_reason p' = block_reason p) as -> by exact (f_equal block_reason Hu).
Qed.

(** The waiter runs again: it goes to the back of the ready queue, unless it has
    not left its CPU. *)
Definition wake (s : Scheduler) (x : Z) (s' : Scheduler) : Prop :=
  let running := is_running_on_any_cpu x s in
  (∃ p, procs s !! x = Some p ∧
     core (procs s') = <[x := set_block_reason None (set_state (if running then Running else Ready) (unlinked p))]>
                         (core (procs s))) ∧
  s' = mkSched (procs s') (ready s ++ if running then [] else [x]) (current s) (sleep_queue s)
         (EARLIEST_SLEEP_TICK s) (NEXT_PID s).

(** Other queues are not disturbed. *)
Definition frames (l : list Z) (s s' : Scheduler) : Prop :=
  ∀ q l', (∀ x, x ∈ l' → x ∉ l) → queue_rep (procs s) q l' → queue_rep (procs s') q l'.

Lemma frames_trans l l' s1 s2 s3 :
  (∀ x, x ∈ l' → x ∈ l) → frames l s1 s2 → frames l' s2 s3 → frames l s1 s3.
Proof. intros Hl H1 H2 q l0 Hd Hq. apply H2; [|by apply H1]. intros x Hx Hin. by eapply Hd, Hl. Qed.

Lemma frames_touches l s t' : touches l (procs s) t' → frames l s (with_procs t' s).
Proof. intros Ht q l' Hd Hq. cbn. by eapply touches_queue. Qed.

Lemma frames_links l s s' : (∀ x, links (procs s') x = links (procs s) x) → frames l s s'.
Proof. intros Hl q l' _. apply queue_frame. auto. Qed.

Definition no_waiter (s : Scheduler) (l : list Z) : Prop := ∀ x, x ∈ l → ¬ wakeable s x.

Lemma core_alter_unlinked f t x p :
  t !! x = Some p → (∀ p, unlinked (f p) = f (unlinked p)) → core (alter f x t) = <[x := f (unlinked p)]> (core t).
Proof.
  intros Hp Hf. apply map_eq. intros y. rewrite core_lookup. destruct (decide (x = y)) as [->|Hne].
  - rewrite lookup_alter_eq, lookup_insert_eq, Hp. cbn. by rewrite Hf.
  - by rewrite lookup_alter_ne, lookup_insert_ne, core_lookup.
Qed.

Lemma core_set_state st t x p :
  t !! x = Some p →
  core (alter (λ p, set_block_reason None (set_state st p)) x t) =
    <[x := set_block_reason None (set_state st (unlinked p))]> (core t).
Proof. intros Hp. exact (core_alter_unlinked (λ p, set_block_reason None (set_state st p)) t x p Hp (λ _, eq_refl)). Qed.

Lemma wake_loop_spec fuel q s l :
  queue_rep (procs s) q l → length l < fuel →
  (∃ l1 x l2 q' s', l = l1 ++ x :: l2 ∧ no_waiter s l1 ∧ wakeable s x ∧
     wake_loop fuel q s = Some (Some x, q', s') ∧ queue_rep (procs s') q' l2 ∧ wake s x s' ∧ frames l s s') ∨
  (no_waiter s l ∧ ∃ q' t', wake_loop fuel q s = Some (None, q', with_procs t' s) ∧
     queue_rep t' q' [] ∧ core t' = core (procs s) ∧ frames l s (with_procs t' s)).
Proof.
  revert q s l. induction fuel as [|fuel IH]; intros q s l Hq Hlen; [lia|].
  destruct l as [|x l].
  { right. split; [by intros x ?%elem_of_nil|]. exists q, (procs s). cbn.
    rewrite (dequeue_internal_nil _ _ Hq). split_and!; [done..|]. by intros ? ?. }
  destruct (dequeue_internal_cons _ _ _ _ Hq) as (q1 & t1 & Hd & Hq1 & Ht1 & _).
  pose proof Ht1 as [Hcore _]. pose proof (frames_touches _ s _ Ht1) as Hf1.
  destruct (segment_lookup _ _ _ _ x (qr_segment _ _ _ Hq)) as [p Hp]; [left|].
  destruct (core_eq _ _ _ _ Hcore Hp) as (p1 & Hp1 & Hu).
  assert (state p1 = state p) as Hst by exact (f_equal state Hu).
  assert (block_reason p1 = block_reason p) as Hbr by exact (f_equal block_reason Hu).
  assert (¬ wakeable s x → wake_loop fuel q1 (with_procs t1 s) = wake_loop (S fuel) q s) as Hskip.
  { intros Hnw. cbn. rewrite Hd. cbn. rewrite Hp1. unfold is_running_on_any_cpu. cbn.
    fold (is_running_on_any_cpu x s). rewrite Hst, Hbr. destruct (is_running_on_any_cpu x s) eqn:Hr.
    - rewrite !bool_decide_eq_false_2; [done|..]; intros ?; apply Hnw; exists p; auto.
    - rewrite bool_decide_eq_false_2; [done|]. intros ?; apply Hnw; exists p; auto. }
  destruct (decide (state p = Blocked ∨ (is_running_on_any_cpu x s = true ∧ is_Some (block_reason p)))) as [Hw|Hnw].
  - left. exists [], x, l, q1. eexists. split_and!; [done|by intros y ?%elem_of_nil|by exists p| | | |].
    + cbn. rewrite Hd. cbn. rewrite Hp1. unfold is_running_on_any_cpu. cbn.
      fold (is_running_on_any_cpu x s). rewrite Hst, Hbr.
      instantiate (1 := if is_running_on_any_cpu x s
        then update x (λ p, set_block_reason None (set_state Running p)) (with_procs t1 s)
        else push_ready x (update x (λ p, set_block_reason None (set_state Ready p)) (with_procs t1 s))).
      destruct (is_running_on_any_cpu x s).
      * destruct Hw as [?|[_ ?]]; [rewrite bool_decide_eq_true_2 by done; done|].
        rewrite (bool_decide_eq_true_2 (is_Some _)), orb_true_r by done. done.
      * rewrite bool_decide_eq_true_2; [done|]. by destruct Hw as [?|[? _]].
    + eapply queue_frame; [|exact Hq1]. intros y _. destruct (is_running_on_any_cpu x s); cbn; by apply links_alter_same.
    + split.
      * exists p. split; [done|]. rewrite <-Hu. destruct (is_running_on_any_cpu x s); cbn; rewrite <-Hcore;
          by apply core_set_state.
      * destruct (is_running_on_any_cpu x s); cbn; rewrite ?app_nil_r; done.
    + eapply (frames_trans _ (x :: l)); [done|exact Hf1|]. apply frames_links. intros y.
      destruct (is_running_on_any_cpu x s); cbn; by apply links_alter_same.
  - assert (¬ wakeable s x) as Hnw' by (intros (p' & Hp' & ?); by simplify_eq).
    rewrite <-(Hskip Hnw'). cbn in Hlen.
    destruct (IH q1 (with_procs t1 s) l Hq1 ltac:(lia))
      as [(l1 & y & l2 & q' & s' & -> & Hno & Hy & Hrun & Hq' & Hwk & Hfr)|(Hno & q' & t' & Hrun & Hq' & Hc' & Hfr)].
    + left. exists (x :: l1), y, l2, q', s'. split_and!; [done| | |done|done| |].
      * intros z [->|Hz]%elem_of_cons; [done|]. intros Hzw. apply (Hno z Hz). by eapply wakeable_core.
      * by apply (wakeable_core (with_procs t1 s)).
      * destruct Hwk as [(py & Hpy & Hcy) Hs']. split; [|by rewrite Hs'].
        symmetry in Hcore. destruct (core_eq _ _ _ _ Hcore Hpy) as (py' & Hpy' & Huy). exists py'.
        split; [done|]. rewrite Hcy. cbn. unfold is_running_on_any_cpu. cbn. by rewrite Hcore, Huy.
      * eapply frames_trans; [|exact Hf1|exact Hfr]. intros z Hz. by right.
    + right. split.
      * intros z [->|Hz]%elem_of_cons; [done|]. intros Hzw. apply (Hno z Hz). by eapply wakeable_core.
      * exists q', t'. split_and!; [done|done|by rewrite Hc'|]. eapply frames_trans; [|exact Hf1|exact Hfr].
        intros z Hz. by right.
Qed.

(** What [wake_one] does to the queue that holds [l]. *)
Definition wakes_first (q : WaitQueue) (s : Scheduler) (l : list Z) : Prop :=
  (∃ l1 x l2 q' s', l = l1 ++ x :: l2 ∧ no_waiter s l1 ∧ wakeable s x ∧
     wake_one q s = Some (Some x, q', s') ∧ queue_rep (procs s') q' l2 ∧ wake s x s' ∧ frames l s s') ∨
  (no_waiter s l ∧ ∃ q' t', wake_one q s = Some (None, q', with_procs t' s) ∧
     queue_rep t' q' [] ∧ core t' = core (procs s)).

Lemma wake_one_spec q s l : queue_rep (procs s) q l → wakes_first q s l.
Proof.
  intros Hq. destruct (wake_loop_spec (S (size (procs s))) q s l Hq) as [H|(Hno & q' & t' & ? & ? & ? & _)].
  - apply queue_rep_size in Hq. lia.
  - by left.
  - right. split; [done|]. by exists q', t'.
Qed.

(** Waking refines the abstract queue: on a wait queue that holds the pids [l],
    [wake_one] skips those that are no longer waiting, makes the first one that
    is runnable again (at the back of the ready queue, or in place when it has
    not left its CPU), keeps the rest of the queue in order, and disturbs no
    other queue; it wakes nobody only when nobody in the queue is waiting. *)
Theorem wake_one_is_fifo (q : WaitQueue) (s : Scheduler) (l : list Z)
    (Hq : queue_rep (procs s) q l) :
  (∃ l1 x l2 q' s', l = l1 ++ x :: l2 ∧ no_waiter s l1 ∧ wakeable s x ∧
     wake_one q s = Some (Some x, q', s') ∧ queue_rep (procs s') q' l2 ∧ wake s x s' ∧ frames l s s') ∨
  (no_waiter s l ∧ ∃ q' t', wake_one q s = Some (None, q', with_procs t' s) ∧
     queue_rep t' q' [] ∧ core t' = core (procs s)).
Proof. by apply wake_one_spec. Qed.

(** A waiter that has been woken. *)
Definition awakened (s : Scheduler) (x : Z) : Prop :=
  ∃ p, procs s !! x = Some p ∧ block_reason p = None ∧
    ((state p = Ready ∧ x ∈ ready s) ∨ (state p = Running ∧ is_running_on_any_cpu x s = true)).

Lemma wake_awakened s x s' : wake s x s' → awakened s' x.
Proof.
  intros [(p & Hp & Hc) Hs']. assert (core (procs s') !! x =
    Some (set_block_reason None (set_state (if is_running_on_any_cpu x s then Running else Ready) (unlinked p)))) as Hx
    by (by rewrite Hc, lookup_insert_eq).
  rewrite core_lookup in Hx. apply fmap_Some in Hx as (p' & Hp' & Hu). exists p'.
  split_and!; [done|exact (f_equal block_reason (eq_sym Hu))|].
  assert (state p' = if is_running_on_any_cpu x s then Running else Ready) as Hst
    by exact (f_equal state (eq_sym Hu)).
  destruct (is_running_on_any_cpu x s) eqn:Hr; [right|left]; (split; [exact Hst|]); rewrite Hs'.
  - exact Hr.
  - cbn. apply elem_of_app. right. left.
Qed.

Lemma wake_other s x s' y : wake s x s' → y ≠ x →
  core (procs s') !! y = core (procs s) !! y ∧ current s' = current s.
Proof. intros [(p & _ & Hc) Hs'] Hne. rewrite Hc, lookup_insert_ne by done. by rewrite Hs'. Qed.

Lemma awakened_stable s s' x :
  core (procs s') !! x = core (procs s) !! x → current s' = current s → (x ∈ ready s → x ∈ ready s') →
  awakened s x → awakened s' x.
Proof.
  intros Hc Hcur Hr (p & Hp & Hb & Hs). rewrite !core_lookup, Hp in Hc. apply fmap_Some in Hc as (p' & Hp' & Hu).
  exists p'. unfold is_running_on_any_cpu in *. rewrite Hcur.
  assert (state p' = state p) as -> by exact (f_equal state (eq_sym Hu)).
  assert (block_reason p' = block_reason p) as -> by exact (f_equal block_reason (eq_sym Hu)). naive_solver.
Qed.

Lemma wakeable_same s s' x :
  core (procs s') !! x = core (procs s) !! x → current s' = current s → wakeable s x → wakeable s' x.
Proof.
  intros Hc Hcur (p & Hp & Hw). rewrite !core_lookup, Hp in Hc. apply fmap_Some in Hc as (p' & Hp' & Hu).
  exists p'. split; [done|]. unfold is_running_on_any_cpu in *. rewrite Hcur.
  assert (state p' = state p) as -> by exact (f_equal state (eq_sym Hu)).
  by assert (block_reason p' = block_reason p) as -> by exact (f_equal block_reason (eq_sym Hu)).
Qed.

(** Everybody on the queue is woken, nobody else is touched. *)
Record all_woken (l : list Z) (s s' : Scheduler) : Prop := {
  aw_frames : frames l s s';
  aw_current : current s' = current s;
  aw_woken : ∀ x, x ∈ l → wakeable s x → awakened s' x;
  aw_others : ∀ x, x ∉ l → core (procs s') !! x = core (procs s) !! x;
  aw_ready : ∀ x, x ∈ ready s → x ∈ ready s';
}.

Lemma all_woken_step s s1 s' l1 x l2 :
  NoDup (l1 ++ x :: l2) → no_waiter s l1 → frames (l1 ++ x :: l2) s s1 → wake s x s1 → all_woken l2 s1 s' →
  all_woken (l1 ++ x :: l2) s s'.
Proof.
  intros (_ & _ & [Hx _]%NoDup_cons)%NoDup_app Hno Hfr Hw [Hf Hc Ha Ho Hr].
  assert (∀ y, y ∈ ready s → y ∈ ready s1) as Hr1.
  { destruct Hw as [_ ->]. intros y Hy. cbn. apply elem_of_app. by left. }
  assert (∀ y, y ≠ x → y ∉ l2 → core (procs s') !! y = core (procs s) !! y) as Hout.
  { intros y Hne Hy. rewrite Ho by done. by apply (wake_other s x s1). }
  split.
  - eapply frames_trans; [|exact Hfr|exact Hf]. intros y Hy. apply elem_of_app. right. by right.
  - rewrite Hc. by destruct Hw as [_ ->].
  - intros y [Hy|[->|Hy]%elem_of_cons]%elem_of_app Hwy.
    + by destruct (Hno y Hy).
    + apply (awakened_stable s1); [by apply Ho|done|apply Hr|by eapply wake_awakened].
    + apply Ha; [done|]. destruct (wake_other s x s1 y Hw) as [Hc1 Hcur]; [by intros ->|].
      by eapply wakeable_same.
  - intros y [_ [Hne Hy]%not_elem_of_cons]%not_elem_of_app. by apply Hout.
  - auto.
Qed.

Lemma wake_all_loop_spec fuel n q s l :
  queue_rep (procs s) q l → length l < fuel →
  ∃ n' q' s', wake_all_loop fuel n q s = Some (n', q', s') ∧ queue_rep (procs s') q' [] ∧ all_woken l s s'.
Proof.
  revert n q s l. induction fuel as [|fuel IH]; intros n q s l Hq Hlen; [lia|]. cbn [wake_all_loop].
  pose proof (queue_rep_size _ _ _ Hq) as Hsz.
  destruct (wake_loop_spec (S (size (procs s))) q s l Hq ltac:(lia))
    as [(l1 & x & l2 & q1 & s1 & -> & Hno & _ & Hrun & Hq1 & Hw & Hfr)|(Hno & q1 & t1 & Hrun & Hq1 & Hc & Hfr)];
    unfold wake_one; rewrite Hrun; cbn [mbind option_bind].
  - rewrite length_app in Hlen. cbn in Hlen.
    destruct (IH (S n) q1 s1 l2 Hq1 ltac:(lia)) as (n' & q' & s' & Hr & Hq' & Ha).
    exists n', q', s'. split_and!; [done|done|]. eapply all_woken_step; [apply Hq|done..].
  - exists n, q1, (with_procs t1 s). split_and!; [done|done|]. split; [done|done| |intros; cbn; by rewrite Hc|done].
    intros x Hx Hwx. by destruct (Hno x Hx).
Qed.

Lemma wake_all_spec q s l :
  queue_rep (procs s) q l →
  ∃ n q' s', wake_all q s = Some (n, q', s') ∧ queue_rep (procs s') q' [] ∧ all_woken l s s'.
Proof. intros Hq. apply wake_all_loop_spec; [done|]. apply queue_rep_size in Hq. lia. Qed.

(** ** The wait protocol *)

Lemma current_is_running cpu s pid : current_for_cpu cpu s = Some pid → is_running_on_any_cpu pid s = true.
Proof.
  unfold current_for_cpu, is_running_on_any_cpu. destruct (cpu <? MAX_CPUS)%nat; [|done].
  destruct (current s !! cpu) as [o|] eqn:Ho; [|done]. cbn. intros ->.
  apply bool_decide_eq_true. by eapply list_elem_of_lookup_2.
Qed.

Lemma prepare_wait_spec cpu reason q s l pid p :
  queue_rep (procs s) q l → pid ∉ l → current_for_cpu cpu s = Some pid → procs s !! pid = Some p →
  ∃ q' s', prepare_wait cpu reason q s = Some (q', s') ∧ queue_rep (procs s') q' (l ++ [pid]) ∧
    (∃ p', procs s' !! pid = Some p' ∧ state p' = Blocked ∧ block_reason p' = Some reason ∧
       exited p' = exited p ∧ reaped p' = reaped p) ∧
    s' = with_procs (procs s') s ∧
    core (procs s') = <[pid := set_block_reason (Some reason) (set_state Blocked (unlinked p))]> (core (procs s)).
Proof.
  intros Hq Hpid Hcur Hp. unfold prepare_wait. rewrite Hcur. cbn.
  destruct (enqueue_internal_spec _ _ _ pid Hq Hpid ltac:(by exists p)) as [Hq' [Hc Hl]].
  destruct (enqueue_internal pid q (procs s)) as [q1 t1]. cbn in *.
  destruct (core_eq _ _ _ _ Hc Hp) as (p1 & Hp1 & Hu).
  eexists _, _. split_and!; [done| | |done|].
  - eapply queue_frame; [|exact Hq']. intros x _. by apply links_alter_same.
  - cbn. rewrite lookup_alter_eq, Hp1. eexists. split_and!; [done..| |].
    + exact (f_equal exited Hu).
    + exact (f_equal reaped Hu).
  - cbn. rewrite <-Hc, <-Hu.
    exact (core_alter_unlinked (λ p, set_block_reason (Some reason) (set_state Blocked p)) t1 pid p1 Hp1 (λ _, eq_refl)).
Qed.

(** A process woken on its CPU. *)
Lemma wake_running s x p s' :
  wake s x s' → is_running_on_any_cpu x s = true → procs s !! x = Some p →
  current s' = current s ∧ ready s' = ready s ∧
  ∃ p', procs s' !! x = Some p' ∧ state p' = Running ∧ block_reason p' = None ∧
    exited p' = exited p ∧ reaped p' = reaped p.
Proof.
  intros [(p0 & Hp0 & Hc) Hs'] Hr Hp. assert (p0 = p) as -> by congruence. rewrite Hr in *. rewrite app_nil_r in Hs'.
  split_and!; [by rewrite Hs'..|].
  assert (core (procs s') !! x = Some (set_block_reason None (set_state Running (unlinked p)))) as H
    by (by rewrite Hc, lookup_insert_eq).
  rewrite core_lookup in H. apply fmap_Some in H as (p' & Hp' & Hu).
  exists p'. split_and!; [done|..].
  - exact (f_equal state (eq_sym Hu)).
  - exact (f_equal block_reason (eq_sym Hu)).
  - exact (f_equal exited (eq_sym Hu)).
  - exact (f_equal reaped (eq_sym Hu)).
Qed.

(** A running process is put back into the ready queue by the switch. *)
Lemma requeue_running cpu s pid p :
  current_for_cpu cpu s = Some pid → procs s !! pid = Some p → state p = Running →
  exited p = false → reaped p = false →
  requeue_current cpu s = push_ready pid (update pid (set_state Ready) s).
Proof. intros Hcur Hp Hst He Hr. unfold requeue_current. by rewrite Hcur, Hp, Hst, He, Hr. Qed.

Lemma wakeable_stable s s' x :
  core (procs s') !! x = core (procs s) !! x → current s' = current s → wakeable s' x → wakeable s x.
Proof.
  intros Hc Hcur (p & Hp & Hw). rewrite !core_lookup, Hp in Hc.
  destruct (procs s !! x) as [p'|] eqn:Hp'; [|done].
  assert (unlinked p = unlinked p') as Hu by exact (inj Some _ _ Hc).
  exists p'. split; [done|]. unfold is_running_on_any_cpu in *. rewrite <-Hcur.
  assert (state p = state p') as <- by exact (f_equal state Hu).
  by assert (block_reason p = block_reason p') as <- by exact (f_equal block_reason Hu).
Qed.

(** C27: No wake-up is lost between queueing and switching away: a process that has
    prepared to wait on a queue without other waiters and is woken before it has
    left its CPU runs on: the waker finds it, empties the queue, and the pending
    switch puts it back into the ready queue instead of parking it. *)
Theorem wakeup_before_switch_is_kept (cpu : nat) (reason : BlockReason) (q q' : WaitQueue)
    (s s' : Scheduler) (l : list Z) (pid : Z) (p : Process)
    (Hq : queue_rep (procs s) q l) (Hl : no_waiter s l) (Hpid : pid ∉ l)
    (Hcur : current_for_cpu cpu s = Some pid) (Hp : procs s !! pid = Some p)
    (Halive : exited p = false ∧ reaped p = false)
    (Hw : prepare_wait cpu reason q s = Some (q', s')) :
  ∃ q'' s'', wake_one q' s' = Some (Some pid, q'', s'') ∧ queue_rep (procs s'') q'' [] ∧
    ready (requeue_current cpu s'') = ready s ++ [pid] ∧
    ∃ p', procs (requeue_current cpu s'') !! pid = Some p' ∧ state p' = Ready ∧ block_reason p' = None.
Proof.
  destruct (prepare_wait_spec cpu reason q s l pid p Hq Hpid Hcur Hp)
    as (q1 & s1 & Hw' & Hq1 & (p1 & Hp1 & Hst1 & Hbr1 & Hex1 & Hre1) & Hs1 & Hc1).
  rewrite Hw in Hw'. injection Hw' as <- <-.
  assert (wakeable s' pid) as Hpw by (exists p1; auto).
  assert (current s' = current s) as Hcs by (by rewrite Hs1).
  assert (no_waiter s' l) as Hl'.
  { intros x Hx Hwx. apply (Hl x Hx). apply (wakeable_stable s s'); [|done|done].
    rewrite Hc1, lookup_insert_ne; [done|]. by intros <-. }
  destruct (wake_one_spec q' s' (l ++ [pid]) Hq1)
    as [(l1 & x & l2 & q2 & s2 & Hsplit & Hno & Hx & Hrun & Hq2 & Hwk & _)|(Hno & _)].
  2: { destruct (Hno pid); [apply elem_of_app; right; left|done]. }
  assert (x = pid ∧ l2 = []) as [-> ->].
  { assert (x ∉ l) as Hxl by (intros Hin; by apply (Hl' x Hin)).
    destruct (last_or_split l2) as [->|(l3 & y & ->)].
    - by apply app_inj_tail in Hsplit as [_ ->].
    - rewrite app_comm_cons, app_assoc in Hsplit. apply app_inj_tail in Hsplit as [-> _].
      destruct Hxl. apply elem_of_app. right. left. }
  assert (is_running_on_any_cpu pid s' = true) as Hr.
  { apply (current_is_running cpu). unfold current_for_cpu. rewrite Hcs. exact Hcur. }
  destruct (wake_running _ _ _ _ Hwk Hr Hp1) as (Hcs2 & Hrs2 & p2 & Hp2 & Hst2 & Hbr2 & Hex2 & Hre2).
  assert (requeue_current cpu s2 = push_ready pid (update pid (set_state Ready) s2)) as Hreq.
  { apply (requeue_running _ _ _ p2); [|done|done| |]; [|destruct Halive; congruence..].
    unfold current_for_cpu. rewrite Hcs2, Hcs. exact Hcur. }
  exists q2, s2. split_and!; [done|done|by rewrite Hreq; cbn; rewrite Hrs2, Hs1|].
  rewrite Hreq. cbn. rewrite lookup_alter_eq, Hp2. by eexists.
Qed.

(** ** The next process *)

Definition runnable (cpu : nat) (t : table) (x : Z) : bool :=
  match t !! x with Some p => alive p && negb (elsewhere cpu p) | None => false end.
Definition foreign (cpu : nat) (t : table) (x : Z) : bool :=
  match t !! x with Some p => alive p && elsewhere cpu p | None => false end.

(** The scan takes the first process that can run here; those that belong to
    another CPU are put back behind the queue, dead ones are dropped. *)
Lemma pick_ready_spec cpu t r extra :
  (∃ l1 c l2, r = l1 ++ c :: l2 ∧ (∀ x, x ∈ l1 → runnable cpu t x = false) ∧ runnable cpu t c = true ∧
     pick_ready (length r) cpu t (r ++ extra) =
       (Some c, l2 ++ extra ++ filter (λ x, foreign cpu t x = true) l1)) ∨
  ((∀ x, x ∈ r → runnable cpu t x = false) ∧
     pick_ready (length r) cpu t (r ++ extra) = (None, extra ++ filter (λ x, foreign cpu t x = true) r)).
Proof.
  revert extra. induction r as [|x r IH]; intros extra.
  { right. split; [by intros x ?%elem_of_nil|]. cbn. by rewrite app_nil_r. }
  assert (∀ extra', runnable cpu t x = false →
    pick_ready (S (length r)) cpu t (x :: r ++ extra) = pick_ready (length r) cpu t (r ++ extra') →
    extra' = extra ++ filter (λ x, foreign cpu t x = true) [x] →
    (∃ l1 c l2, x :: r = l1 ++ c :: l2 ∧ (∀ x, x ∈ l1 → runnable cpu t x = false) ∧ runnable cpu t c = true ∧
       pick_ready (S (length r)) cpu t (x :: r ++ extra) =
         (Some c, l2 ++ extra ++ filter (λ x, foreign cpu t x = true) l1)) ∨
    ((∀ y, y ∈ x :: r → runnable cpu t y = false) ∧
       pick_ready (S (length r)) cpu t (x :: r ++ extra) =
         (None, extra ++ filter (λ x, foreign cpu t x = true) (x :: r)))) as Hskip.
  { intros extra' Hx Hstep ->.
    destruct (IH (extra ++ filter (λ x, foreign cpu t x = true) [x])) as [(l1 & c & l2 & -> & H1 & Hc & Hp)|(H1 & Hp)].
    - left. exists (x :: l1), c, l2. rewrite Hstep, Hp, (filter_app _ [x] l1), <-app_assoc. split_and!; try done.
      intros y [->|Hy]%elem_of_cons; auto.
    - right. rewrite Hstep, Hp, (filter_app _ [x] r), <-app_assoc. split; [|done].
      intros y [->|Hy]%elem_of_cons; auto. }
  change (length (x :: r)) with (S (length r)). change ((x :: r) ++ extra) with (x :: r ++ extra).
  destruct (runnable cpu t x) eqn:Hx.
  - left. exists [], x, r. split_and!; [done|by intros y ?%elem_of_nil|done|]. unfold runnable in Hx. cbn.
    destruct (t !! x) as [p|]; [|done]. destruct (alive p), (elsewhere cpu p); try done. by rewrite app_nil_r.
  - destruct (foreign cpu t x) eqn:Hf.
    + apply (Hskip (extra ++ [x])); [done| |by rewrite filter_cons_True].
      unfold foreign in Hf. cbn. destruct (t !! x) as [p|]; [|done].
      destruct (alive p), (elsewhere cpu p); try done. by rewrite <-app_assoc.
    + apply (Hskip extra); [done| |rewrite filter_cons_False by (by rewrite Hf); by rewrite app_nil_r].
      unfold runnable, foreign in *. cbn. destruct (t !! x) as [p|]; [|done].
      destruct (alive p); [|done]. by destruct (elsewhere cpu p).
Qed.

(** ** Sleeping *)

Lemma earliest_loop_total t prev l fuel m :
  segment t prev l None → length l ≤ fuel → is_Some (earliest_loop fuel t (first_or l None) m).
Proof.
  revert prev fuel m. induction l as [|x l IH]; intros prev fuel m; cbn.
  { intros _ _. destruct fuel; by eexists. }
  intros [(p & Hp & _ & Hn)%links_Some Hs] Hlen. destruct fuel as [|fuel]; [lia|]. cbn.
  rewrite Hp, Hn. eapply IH; [exact Hs|lia].
Qed.

Lemma recalculate_total s l :
  queue_rep (procs s) (sleep_queue s) l → ∃ e, recalculate_earliest_sleep s = Some (with_earliest e s).
Proof.
  intros Hq. unfold recalculate_earliest_sleep. rewrite (qr_head _ _ _ Hq).
  destruct (earliest_loop_total (procs s) None l (size (procs s)) u64_max) as [e ->];
    [apply Hq|by eapply queue_rep_size|by exists e].
Qed.

Definition expired_sleep (tick : Z) (t : table) (x : Z) : bool :=
  match t !! x with
  | Some p => match block_reason p with Some (Sleep target) => (target <=? tick)%Z | _ => false end
  | None => false
  end.

Lemma expired_sleep_core tick t t' x : core t' !! x = core t !! x → expired_sleep tick t' x = expired_sleep tick t x.
Proof.
  intros Hc. rewrite !core_lookup in Hc. unfold expired_sleep.
  destruct (t' !! x) as [p'|], (t !! x) as [p|]; [|done..].
  assert (unlinked p' = unlinked p) as Hu by exact (inj Some _ _ Hc).
  by assert (block_reason p' = block_reason p) as -> by exact (f_equal block_reason Hu).
Qed.

Lemma remove_sleep_spec s l1 x l2 :
  queue_rep (procs s) (sleep_queue s) (l1 ++ x :: l2) →
  ∃ s', remove_sleep x s = Some s' ∧ queue_rep (procs s') (sleep_queue s') (l1 ++ l2) ∧
    core (procs s') = core (procs s) ∧ ready s' = ready s ∧ current s' = current s.
Proof.
  intros Hq. destruct (remove_internal_spec _ _ _ _ _ Hq) as (Hq' & [Hc _] & _).
  assert (is_Some (procs s !! x)) as [p Hp].
  { eapply segment_lookup; [apply Hq|]. apply elem_of_app. right. left. }
  unfold remove_sleep. rewrite Hp. destruct (remove_internal _ _ _) as [q' t']. cbn in *.
  destruct (recalculate_total (with_sleep q' (with_procs t' s)) _ Hq') as [e He]. rewrite He.
  by eexists.
Qed.

Lemma filter_ext_in {A} (P Q : A → Prop) `{∀ x, Decision (P x)} `{∀ x, Decision (Q x)} (l : list A) :
  (∀ x, x ∈ l → P x ↔ Q x) → filter P l = filter Q l.
Proof.
  induction l as [|x l IH]; intros H1; [done|]. rewrite !filter_cons.
  assert (P x ↔ Q x) as Hx by (apply H1; left).
  rewrite IH by (intros y Hy; apply H1; by right).
  repeat case_decide; tauto || done.
Qed.

(** The woken processes, in order, with their new table entries. *)
Definition awake (s s' : Scheduler) (l : list Z) : Prop :=
  ready s' = ready s ++ l ∧ current s' = current s ∧
  ∀ x, if decide (x ∈ l)
       then ∃ p, procs s !! x = Some p ∧
              core (procs s') !! x = Some (set_block_reason None (set_state Ready (unlinked p)))
       else core (procs s') !! x = core (procs s) !! x.

Lemma poll_loop_cons fuel tick x s p :
  procs s !! x = Some p →
  poll_loop (S fuel) tick (Some x) s =
    if expired_sleep tick (procs s) x then
      s ← remove_sleep x s;
      poll_loop fuel tick (wait_next p) (push_ready x (update x (λ p, set_block_reason None (set_state Ready p)) s))
    else poll_loop fuel tick (wait_next p) s.
Proof. intros Hp. cbn. rewrite Hp. unfold expired_sleep. by rewrite Hp. Qed.

Lemma awake_step s s1 s' x p l :
  procs s !! x = Some p → x ∉ l → core (procs s1) = core (procs s) → ready s1 = ready s → current s1 = current s →
  awake (push_ready x (update x (λ p, set_block_reason None (set_state Ready p)) s1)) s' l →
  awake s s' (x :: l).
Proof.
  intros Hp Hx Hc Hr Hcur (Hr' & Hcur' & Hall). destruct (core_eq _ _ _ _ Hc Hp) as (p1 & Hp1 & Hu1).
  split_and!; [by rewrite Hr'; cbn; rewrite Hr, <-app_assoc|by rewrite Hcur'|]. intros y. specialize (Hall y).
  cbn in Hall. rewrite (core_set_state _ _ _ _ Hp1), Hu1, Hc in Hall.
  destruct (decide (y = x)) as [->|Hne].
  - rewrite decide_False in Hall by done. rewrite decide_True by left. exists p. split; [done|].
    by rewrite Hall, lookup_insert_eq.
  - rewrite lookup_insert_ne in Hall by done. destruct (decide (y ∈ l)) as [Hin|Hin].
    + rewrite decide_True by (by right). destruct Hall as (q & Hq & Hcq).
      rewrite lookup_alter_ne in Hq by done. symmetry in Hc.
      destruct (core_eq _ _ _ _ Hc Hq) as (q' & Hq' & Hu). exists q'. by rewrite Hu.
    + rewrite decide_False; [done|]. by intros [?|?]%elem_of_cons.
Qed.

Lemma poll_loop_spec fuel tick s l1 l2 :
  queue_rep (procs s) (sleep_queue s) (l1 ++ l2) → length l2 ≤ fuel →
  ∃ s', poll_loop fuel tick (first_or l2 None) s = Some s' ∧
    queue_rep (procs s') (sleep_queue s') (l1 ++ filter (λ x, expired_sleep tick (procs s) x = false) l2) ∧
    awake s s' (filter (λ x, expired_sleep tick (procs s) x = true) l2).
Proof.
  revert s l1 fuel. induction l2 as [|x l2 IH]; intros s l1 fuel Hq Hlen.
  { exists s. split_and!; [by destruct fuel|done|]. split_and!; [by rewrite app_nil_r|done|].
    intros x. rewrite decide_False; [done|apply not_elem_of_nil]. }
  destruct fuel as [|fuel]; [cbn in Hlen; lia|]. cbn in Hlen.
  pose proof (qr_segment _ _ _ Hq) as [_ [(p & Hp & _ & Hn)%links_Some _]]%segment_app.
  pose proof (qr_nodup _ _ _ Hq) as (_ & Hd1 & [Hx2 _]%NoDup_cons)%NoDup_app.
  cbn [first_or]. rewrite (poll_loop_cons _ _ _ _ _ Hp), Hn, !filter_cons.
  destruct (expired_sleep tick (procs s) x) eqn:He.
  - rewrite decide_False, decide_True by done.
    destruct (remove_sleep_spec _ _ _ _ Hq) as (s1 & Hrm & Hq1 & Hc1 & Hr1 & Hcur1). rewrite Hrm. cbn [mbind option_bind].
    set (s2 := push_ready x (update x (λ p, set_block_reason None (set_state Ready p)) s1)).
    destruct (core_eq _ _ _ _ Hc1 Hp) as (p1 & Hp1 & Hu1).
    assert (∀ y, y ∈ l2 → expired_sleep tick (procs s2) y = expired_sleep tick (procs s) y) as Hsame.
    { intros y Hy. apply expired_sleep_core. cbn. rewrite (core_set_state _ _ _ _ Hp1), Hc1, lookup_insert_ne; [done|].
      by intros <-. }
    destruct (IH s2 l1 fuel) as (s' & Hrun & Hq' & Haw); [|lia|].
    { eapply queue_frame; [|exact Hq1]. intros y _. by apply links_alter_same. }
    rewrite (filter_ext_in _ (λ y, expired_sleep tick (procs s) y = false)) in Hq' by (intros y Hy; by rewrite Hsame).
    rewrite (filter_ext_in _ (λ y, expired_sleep tick (procs s) y = true)) in Haw by (intros y Hy; by rewrite Hsame).
    exists s'. split_and!; [done|done|]. eapply awake_step; [exact Hp| |exact Hc1|done|done|exact Haw].
    by intros [_ ?]%list_elem_of_filter.
  - rewrite decide_True, decide_False by done.
    rewrite (cons_middle x l1 l2), app_assoc in Hq.
    destruct (IH s (l1 ++ [x]) fuel Hq ltac:(lia)) as (s' & Hrun & Hq' & Haw).
    exists s'. split_and!; [done| |done]. by rewrite (cons_middle x l1 _), app_assoc.
Qed.

(** Sleepers wake on time: polling the sleep queue at a tick makes exactly the
    sleepers whose target has been reached ready, in the order they went to
    sleep, and keeps the others asleep in order; it never fails. *)
Theorem sleepers_wake_on_time (s : Scheduler) (l : list Z) (tick : Z)
    (Hq : queue_rep (procs s) (sleep_queue s) l) :
  ∃ s', poll_sleeping_processes_locked tick s = Some s' ∧
    queue_rep (procs s') (sleep_queue s') (filter (λ x, expired_sleep tick (procs s) x = false) l) ∧
    awake s s' (filter (λ x, expired_sleep tick (procs s) x = true) l).
Proof.
  unfold poll_sleeping_processes_locked. rewrite (qr_head _ _ _ Hq).
  apply (poll_loop_spec _ _ _ [] l); [done|]. by eapply queue_rep_size.
Qed.

(** ** The switch *)

(** Where a process runs and may run. *)
Definition placement (t : table) (x : Z) : option (option nat * option nat) :=
  (λ p, (on_cpu p, cpu_affinity p)) <$> t !! x.

Lemma placement_core t t' x p f :
  t !! x = Some p → core t' !! x = Some (f (unlinked p)) →
  (∀ p, on_cpu (f p) = on_cpu p ∧ cpu_affinity (f p) = cpu_affinity p) → placement t' x = placement t x.
Proof.
  intros Hp Hc Hf. rewrite core_lookup in Hc. apply fmap_Some in Hc as (p' & Hp' & Hu).
  unfold placement. rewrite Hp, Hp'. cbn. destruct (Hf (unlinked p)) as [H1 H2].
  assert (on_cpu p' = on_cpu p) as -> by (etrans; [exact (f_equal on_cpu (eq_sym Hu))|exact H1]).
  by assert (cpu_affinity p' = cpu_affinity p) as -> by (etrans; [exact (f_equal cpu_affinity (eq_sym Hu))|exact H2]).
Qed.

Lemma awake_placement s s' l x : awake s s' l → placement (procs s') x = placement (procs s) x.
Proof.
  intros (_ & _ & Hall). specialize (Hall x). case_decide.
  - destruct Hall as (p & Hp & Hc).
    by apply (placement_core _ _ _ p (λ p, set_block_reason None (set_state Ready p))).
  - destruct (procs s !! x) as [p|] eqn:Hp.
    + apply (placement_core _ _ _ p id); [done| |done]. by rewrite Hall, core_lookup, Hp.
    + rewrite !core_lookup, Hp in Hall. unfold placement. rewrite Hp. by destruct (procs s' !! x).
Qed.

Lemma placement_alter f t x y :
  (∀ p, on_cpu (f p) = on_cpu p ∧ cpu_affinity (f p) = cpu_affinity p) →
  placement (alter f x t) y = placement t y.
Proof.
  intros Hf. unfold placement. destruct (decide (x = y)) as [->|]; [|by rewrite lookup_alter_ne].
  rewrite lookup_alter_eq. destruct (t !! y) as [p|]; [|done]. cbn. by destruct (Hf p) as [-> ->].
Qed.

Lemma requeue_placement cpu s x :
  placement (procs (requeue_current cpu s)) x = placement (procs s) x ∧
  current (requeue_current cpu s) = current s.
Proof.
  unfold requeue_current. destruct (current_for_cpu cpu s); [|done]. destruct (procs s !! _); [|done].
  destruct (_ && _); [|done]. cbn. by rewrite placement_alter.
Qed.

(** Each running process other than the idle one is marked with its CPU. *)
Definition placed (s : Scheduler) : Prop :=
  length (current s) = MAX_CPUS ∧
  ∀ c x, current s !! c = Some (Some x) → x ≠ 0%Z → ∃ a, placement (procs s) x = Some (Some c, a).

Definition exclusive (s : Scheduler) : Prop :=
  ∀ c c' x, current s !! c = Some (Some x) → current s !! c' = Some (Some x) → x ≠ 0%Z → c = c'.

Lemma placed_exclusive s : placed s → exclusive s.
Proof.
  intros [_ Hp] c c' x Hc Hc' Hx. destruct (Hp _ _ Hc Hx) as [a Ha], (Hp _ _ Hc' Hx) as [a' Ha']. congruence.
Qed.

(** Not running on, nor pinned to, another CPU. *)
Definition available_on (cpu : nat) (t : table) (x : Z) : Prop :=
  ∃ o a, placement t x = Some (o, a) ∧ (o = None ∨ o = Some cpu) ∧ (a = None ∨ a = Some cpu).

Lemma elsewhere_available cpu t x p : t !! x = Some p → elsewhere cpu p = false → available_on cpu t x.
Proof.
  intros Hp He. unfold elsewhere in He. apply orb_false_iff in He as [H1 H2].
  exists (on_cpu p), (cpu_affinity p). unfold placement. rewrite Hp. split_and!; [done|..].
  - destruct (on_cpu p); [|by left]. reflect. subst. by right.
  - destruct (cpu_affinity p); [|by left]. reflect. subst. by right.
Qed.

(** Making [x] the CPU's current process keeps the marks. *)
Definition run_on (cpu : nat) (x : Z) (s : Scheduler) : Scheduler :=
  update x (λ p, set_on_cpu (Some cpu) (set_state Running p)) s.

Lemma placed_run cpu x s s' :
  placed s → (∀ y, placement (procs s') y = placement (procs s) y) →
  length (current s') = MAX_CPUS →
  (∀ c y, current s' !! c = Some (Some y) → c ≠ cpu → current s !! c = Some (Some y)) →
  (∀ y, current s' !! cpu = Some (Some y) → y = x) →
  (x ≠ 0%Z → available_on cpu (procs s) x) →
  placed (run_on cpu x s').
Proof.
  intros [_ Hp] Hpl Hlen Hother Hcpu Hav. split; [done|]. intros c y Hc Hy. cbn in *.
  assert (∀ z, placement (alter (λ p, set_on_cpu (Some cpu) (set_state Running p)) x (procs s')) z =
    if decide (x = z) then (λ oa, (Some cpu, oa.2)) <$> placement (procs s) z else placement (procs s) z) as Hz.
  { intros z. rewrite <-Hpl. unfold placement. case_decide as Hxz; [subst|by rewrite lookup_alter_ne].
    rewrite lookup_alter_eq. by destruct (procs s' !! z). }
  rewrite Hz. destruct (decide (c = cpu)) as [->|Hne].
  - rewrite (Hcpu _ Hc) in *. rewrite decide_True by done. destruct (Hav Hy) as (o & a & -> & _). by exists a.
  - destruct (Hp _ _ (Hother _ _ Hc Hne) Hy) as [a Ha]. rewrite decide_False; [by exists a|].
    intros ->. destruct (Hav Hy) as (o & a' & Ho & [->| ->] & _); congruence.
Qed.

Lemma finish_switch_placed cpu prev s : placed s → (cpu < MAX_CPUS)%nat → placed (finish_switch cpu prev s).
Proof.
  intros [Hlen Hp] Hcpu. destruct prev as [prev|]; [|done]. split; [done|]. intros c x Hc Hx. cbn in *.
  destruct (Hp _ _ Hc Hx) as [a Ha]. exists a. unfold placement in *.
  destruct (decide (prev = x)) as [->|Hne]; [|by rewrite lookup_alter_ne].
  rewrite lookup_alter_eq. destruct (procs s !! x) as [p|] eqn:Hpx; [|done]. cbn in *. simplify_eq.
  destruct (bool_decide (on_cpu p = Some cpu)) eqn:Ho; [|cbn; congruence].
  destruct (bool_decide (current_for_cpu cpu s = Some x)) eqn:Hcur; [cbn; congruence|]. exfalso. reflect.
  apply Hcur. unfold current_for_cpu. rewrite (proj2 (Nat.ltb_lt _ _)) by done.
  assert (c = cpu) as -> by congruence. by rewrite Hc.
Qed.

(** The process the scheduler may hand the CPU to. *)
Definition fit_to_run (cpu : nat) (t : table) (x : Z) : Prop :=
  ∃ p, t !! x = Some p ∧ exited p = false ∧ reaped p = false ∧ state p ≠ Terminated ∧ state p ≠ Exited ∧
    elsewhere cpu p = false.

Lemma runnable_fit cpu t x : runnable cpu t x = true → fit_to_run cpu t x.
Proof.
  unfold runnable, alive. destruct (t !! x) as [p|] eqn:Hp; [|done]. intros Hr. reflect. by exists p.
Qed.

Lemma pick_hint_fit cpu t hint x : pick_hint cpu t hint = Some x → fit_to_run cpu t x.
Proof.
  unfold pick_hint. intros (y & _ & (p & Hp & Hc)%bind_Some)%bind_Some.
  match type of Hc with (if ?b then _ else _) = _ => destruct b eqn:Hb end; [|done]. simplify_eq.
  reflect. exists p. split_and!; try done; intros Hs; rewrite Hs in *; naive_solver.
Qed.

Lemma fit_available cpu t x : fit_to_run cpu t x → available_on cpu t x.
Proof. intros (p & Hp & _ & _ & _ & _ & He). by eapply elsewhere_available. Qed.

Lemma fit_run cpu x s : fit_to_run cpu (procs s) x →
  ∃ p, procs (run_on cpu x s) !! x = Some p ∧ state p = Running ∧ on_cpu p = Some cpu ∧
    exited p = false ∧ reaped p = false ∧ (cpu_affinity p = None ∨ cpu_affinity p = Some cpu).
Proof.
  intros (p & Hp & He & Hr & _ & _ & Hel). cbn. rewrite lookup_alter_eq, Hp. eexists. split; [done|]. cbn.
  split_and!; try done. unfold elsewhere in Hel. apply orb_false_iff in Hel as [_ Ha].
  destruct (cpu_affinity p); [|by left]. reflect. subst. by right.
Qed.

Lemma set_current_lookup cpu o s c :
  (cpu < MAX_CPUS)%nat → length (current s) = MAX_CPUS →
  current (set_current_for_cpu cpu o s) !! c = if decide (c = cpu) then Some o else current s !! c.
Proof.
  intros Hcpu Hlen. unfold set_current_for_cpu. rewrite (proj2 (Nat.ltb_lt _ _)) by done. cbn.
  case_decide; [subst; by rewrite list_lookup_insert_eq by lia|by rewrite list_lookup_insert_ne].
Qed.

Lemma current_for_cpu_lookup cpu s :
  (cpu < MAX_CPUS)%nat → current_for_cpu cpu s = mjoin (current s !! cpu).
Proof. intros Hcpu. unfold current_for_cpu. by rewrite (proj2 (Nat.ltb_lt _ _)). Qed.

(** Handing the CPU to a process that may run here. *)
Lemma placed_switch cpu x s s1 :
  placed s → (cpu < MAX_CPUS)%nat → (∀ y, placement (procs s1) y = placement (procs s) y) →
  current s1 = current s → (x ≠ 0%Z → available_on cpu (procs s) x) →
  placed (run_on cpu x (set_current_for_cpu cpu (Some x) s1)) ∧
  current_for_cpu cpu (run_on cpu x (set_current_for_cpu cpu (Some x) s1)) = Some x.
Proof.
  intros Hpl Hcpu Hsame Hcur Hav. destruct Hpl as [Hlen Hp] eqn:Heq. clear Heq.
  assert (procs (set_current_for_cpu cpu (Some x) s1) = procs s1) as Hprocs
    by (unfold set_current_for_cpu; by destruct (cpu <? MAX_CPUS)%nat).
  pose proof (λ c, set_current_lookup cpu (Some x) s1 c Hcpu (eq_trans (f_equal length Hcur) Hlen)) as Hl.
  split.
  - eapply placed_run; [exact Hpl|by intros y; rewrite Hprocs| | | |done].
    + unfold set_current_for_cpu. destruct (cpu <? MAX_CPUS)%nat; cbn; by rewrite ?length_insert, Hcur.
    + intros c y. rewrite Hl, Hcur. intros Hc Hne. by rewrite decide_False in Hc.
    + intros y. rewrite Hl, decide_True by done. congruence.
  - rewrite current_for_cpu_lookup by done.
    change (current (run_on cpu x ?s)) with (current s). by rewrite Hl, decide_True.
Qed.

Lemma run_again cpu x s :
  current_for_cpu cpu s = Some x → (cpu < MAX_CPUS)%nat → placed s → 
  set_current_for_cpu cpu (Some x) s = s.
Proof.
  intros Hc Hcpu [Hlen _]. rewrite current_for_cpu_lookup in Hc by done.
  unfold set_current_for_cpu. rewrite (proj2 (Nat.ltb_lt _ _)) by done.
  unfold with_current. rewrite list_insert_id; [by destruct s|].
  destruct (current s !! cpu) as [[y|]|]; cbn in Hc; congruence.
Qed.

(** The state the choice is made in: sleepers woken, the old process requeued. *)
Definition before_choice (cpu : nat) (tick : Z) (s : Scheduler) : option Scheduler :=
  requeue_current cpu <$> poll_sleeping_processes_locked tick s.

Lemma before_choice_spec cpu tick s l :
  queue_rep (procs s) (sleep_queue s) l →
  ∃ s1, before_choice cpu tick s = Some s1 ∧ current s1 = current s ∧
    ∀ x, placement (procs s1) x = placement (procs s) x.
Proof.
  intros Hq. unfold before_choice. unfold poll_sleeping_processes_locked. rewrite (qr_head _ _ _ Hq).
  destruct (poll_loop_spec (size (procs s)) tick s [] l) as (s1 & -> & _ & Haw); [done|by eapply queue_rep_size|].
  eexists. split; [done|]. pose proof Haw as (_ & Hc & _).
  split; [by rewrite (proj2 (requeue_placement cpu s1 0%Z))|].
  intros x. rewrite (proj1 (requeue_placement cpu s1 x)). by eapply awake_placement.
Qed.

Lemma placed_same s s1 :
  placed s → current s1 = current s → (∀ x, placement (procs s1) x = placement (procs s) x) → placed s1.
Proof.
  intros [Hl Hp] Hc Hsame. split; [by rewrite Hc|]. intros c x. rewrite Hc, Hsame. apply Hp.
Qed.

(** What the CPU is handed to: a live process placed here, or the idle process
    when nothing left in the ready queue can run here. *)
Definition handed_to (cpu : nat) (s : Scheduler) (pid : Z) : Prop :=
  (∃ p, procs s !! pid = Some p ∧ state p = Running ∧ on_cpu p = Some cpu ∧ exited p = false ∧
     reaped p = false ∧ (cpu_affinity p = None ∨ cpu_affinity p = Some cpu)) ∨
  (pid = 0%Z ∧ ∀ x, x ∈ ready s → x ≠ 0%Z → runnable cpu (procs s) x = false).

Lemma pick_none cpu t r r' :
  pick_ready (length r) cpu t r = (None, r') → ∀ x, x ∈ r' → runnable cpu t x = false.
Proof.
  intros Hp x Hx. destruct (pick_ready_spec cpu t r []) as [(l1 & c & l2 & _ & _ & _ & H1)|(H1 & H2)];
    rewrite app_nil_r in *; [congruence|].
  rewrite Hp in H2. simplify_eq. apply list_elem_of_filter in Hx as [_ Hx]. by apply H1.
Qed.

Lemma pick_some cpu t r r' x :
  pick_ready (length r) cpu t r = (Some x, r') → fit_to_run cpu t x.
Proof.
  intros Hp. destruct (pick_ready_spec cpu t r []) as [(l1 & c & l2 & _ & _ & Hc & H1)|(H1 & H2)];
    rewrite app_nil_r in *; [|congruence].
  rewrite Hp in H1. simplify_eq. by apply runnable_fit.
Qed.

(** Handing the CPU to a process fit for it, or to the idle one. *)
Lemma hand_over cpu x s :
  placed s → (cpu < MAX_CPUS)%nat → (x = 0%Z ∨ fit_to_run cpu (procs s) x) →
  placed (run_on cpu x (set_current_for_cpu cpu (Some x) s)) ∧
  current_for_cpu cpu (run_on cpu x (set_current_for_cpu cpu (Some x) s)) = Some x.
Proof.
  intros Hpl Hcpu Hx. apply (placed_switch cpu x s s Hpl Hcpu); [done|done|].
  intros Hne. destruct Hx as [?|Hf]; [done|by apply fit_available].
Qed.

Lemma hand_over_fit cpu x s :
  fit_to_run cpu (procs s) x → handed_to cpu (run_on cpu x (set_current_for_cpu cpu (Some x) s)) x.
Proof.
  intros Hf. left. apply fit_run. unfold set_current_for_cpu. by destruct (cpu <? MAX_CPUS)%nat.
Qed.

Lemma schedule_step cpu prev hint s pid s' :
  placed s → (cpu < MAX_CPUS)%nat → current_for_cpu cpu s = prev →
  (let '(next, s) := match pick_hint cpu (procs s) hint with
    | Some target => (Some target, s)
    | None => let '(n, r) := pick_ready (length (ready s)) cpu (procs s) (ready s) in (n, with_ready r s)
    end in
  match next with
  | Some pid =>
      if bool_decide (prev = Some pid) then Some (pid, run_on cpu pid s)
      else Some (pid, run_on cpu pid (set_current_for_cpu cpu (Some pid) s))
  | None =>
      if bool_decide (prev = Some 0%Z) then Some (0%Z, s)
      else _ ← procs s !! 0%Z; Some (0%Z, run_on cpu 0%Z (set_current_for_cpu cpu (Some 0%Z) s))
  end) = Some (pid, s') →
  current_for_cpu cpu s' = Some pid ∧ handed_to cpu s' pid ∧ placed s'.
Proof.
  intros Hpl Hcpu Hprev. 
  assert (∀ x r, fit_to_run cpu (procs s) x → let s := with_ready r s in
    (if bool_decide (prev = Some x) then Some (x, run_on cpu x s)
      else Some (x, run_on cpu x (set_current_for_cpu cpu (Some x) s))) = Some (pid, s') →
    current_for_cpu cpu s' = Some pid ∧ handed_to cpu s' pid ∧ placed s') as Hfit.
  { intros x r Hx s0 Hs. assert (placed s0) as Hpl0 by exact Hpl.
    destruct (hand_over cpu x s0) as [H1 H2]; [done|done|by right|].
    pose proof (hand_over_fit cpu x s0 Hx) as H3.
    case_bool_decide as Hpx; simplify_eq; [|done].
    rewrite (run_again cpu pid s0) in H1, H2, H3 by done. done. }
  destruct (pick_hint cpu (procs s) hint) as [target|] eqn:Hh.
  { intros Hs. apply (Hfit target (ready s)); [by eapply pick_hint_fit|]. by destruct s. }
  destruct (pick_ready _ _ _ _) as [[x|] r] eqn:Hpick.
  { intros Hs. apply (Hfit x r); [by eapply pick_some|done]. }
  pose proof (pick_none _ _ _ _ Hpick) as Hidle. cbn. clear Hfit.
  assert (placed (with_ready r s)) as Hplr by exact Hpl.
  case_bool_decide as H0.
  - intros [= <- <-]. split_and!; [exact (eq_trans Hprev H0)| |done]. right. split; [done|]. intros x Hx _. by apply Hidle.
  - intros (p0 & _ & [= <- <-])%bind_Some. destruct (hand_over cpu 0%Z (with_ready r s)) as [H1 H2]; [done|done|by left|].
    split_and!; [done| |done]. right. split; [done|]. intros x Hx Hne. unfold runnable.
    unfold set_current_for_cpu in *. destruct (cpu <? MAX_CPUS)%nat; cbn in *;
      rewrite lookup_alter_ne by done; by apply Hidle.
Qed.

Lemma before_choice_table s s1 x :
  placement (procs s1) x = placement (procs s) x → is_Some (procs s !! x) → is_Some (procs s1 !! x).
Proof. unfold placement. intros Hp [p Hx]. rewrite Hx in Hp. by destruct (procs s1 !! x). Qed.


(** ** Signals *)

(** Not a member of any queue, or a member of the sleep queue. *)
Definition asleep_or_free (s : Scheduler) (l : list Z) (x : Z) : Prop :=
  x ∈ l ∨ (¬ (x ∈ l) ∧ links (procs s) x = Some (None, None)).

Lemma remove_sleep_free s l x :
  queue_rep (procs s) (sleep_queue s) l → x ∉ l → links (procs s) x = Some (None, None) →
  ∃ s', remove_sleep x s = Some s' ∧ queue_rep (procs s') (sleep_queue s') l ∧
    core (procs s') = core (procs s) ∧ ready s' = ready s ∧ current s' = current s.
Proof.
  intros Hq Hx Hl. destruct (remove_internal_absent _ _ _ _ Hq Hx Hl) as (Hq' & [Hc _] & _).
  apply links_Some in Hl as (p & Hp & _). unfold remove_sleep. rewrite Hp.
  destruct (remove_internal _ _ _) as [q' t']. cbn in *.
  destruct (recalculate_total (with_sleep q' (with_procs t' s)) _ Hq') as [e He]. rewrite He. by eexists.
Qed.

Lemma remove_sleep_any s l x :
  queue_rep (procs s) (sleep_queue s) l → asleep_or_free s l x →
  ∃ s' l', remove_sleep x s = Some s' ∧ queue_rep (procs s') (sleep_queue s') l' ∧ ¬ (x ∈ l') ∧
    core (procs s') = core (procs s) ∧ ready s' = ready s ∧ current s' = current s.
Proof.
  intros Hq [(l1 & l2 & ->)%list_elem_of_split|[Hx Hl]].
  - destruct (remove_sleep_spec _ _ _ _ Hq) as (s' & ? & ? & ? & ? & ?). exists s', (l1 ++ l2). split_and!; try done.
    pose proof (qr_nodup _ _ _ Hq) as (_ & Hd & [? _]%NoDup_cons)%NoDup_app.
    intros [Hx|?]%elem_of_app; [|done]. apply (Hd x Hx). left.
  - destruct (remove_sleep_free _ _ _ Hq Hx Hl) as (s' & ? & ? & ? & ? & ?). by exists s', l.
Qed.

(** What a killed process looks like. *)
Definition killed (s : Scheduler) (x : Z) : Prop :=
  ∃ p, procs s !! x = Some p ∧ state p = Terminated ∧ exited p = true ∧ exit_code p = 137%Z.

Lemma killed_not_runnable s x cpu : killed s x → runnable cpu (procs s) x = false.
Proof.
  intros (p & Hp & _ & He & _). unfold runnable, alive. by rewrite Hp, He.
Qed.

Lemma killed_core s s' x : core (procs s') !! x = core (procs s) !! x → killed s x → killed s' x.
Proof.
  intros Hc (p & Hp & Hs & He & Hx). rewrite !core_lookup, Hp in Hc. apply fmap_Some in Hc as (p' & Hp' & Hu).
  exists p'. split; [done|]. split_and!.
  - rewrite <-Hs. exact (f_equal state (eq_sym Hu)).
  - rewrite <-He. exact (f_equal exited (eq_sym Hu)).
  - rewrite <-Hx. exact (f_equal exit_code (eq_sym Hu)).
Qed.

Lemma notify_parent_other sigchld child pp s x :
  pp ≠ Some x → procs (notify_parent sigchld child pp s) !! x = procs s !! x.
Proof.
  unfold notify_parent. destruct pp as [pp|]; [|done]. intros Hne.
  destruct (procs s !! pp) as [parent|]; [|done]. 
  destruct (should_wake_parent _ _); cbn; by rewrite lookup_alter_ne by congruence.
Qed.

Lemma notify_waiting_parent child pp s parent :
  procs s !! pp = Some parent → block_reason parent = Some (WaitPid child) →
  ready (notify_parent true child (Some pp) s) = ready s ++ [pp] ∧
  ∃ parent', procs (notify_parent true child (Some pp) s) !! pp = Some parent' ∧ state parent' = Ready ∧
    block_reason parent' = None ∧ Z.testbit (pending_signals parent') SIGCHLD = true.
Proof.
  intros Hp Hb. assert (should_wake_parent child parent = true) as Hw.
  { unfold should_wake_parent. by rewrite Hb, Z.eqb_refl. }
  unfold notify_parent. rewrite Hp, Hw. split; [done|].
  cbn [procs push_ready with_ready update with_procs]. rewrite lookup_alter_eq, Hp. eexists. split; [done|].
  cbn [pending_signals set_pending_signals state block_reason set_state set_block_reason].
  rewrite Z.lor_spec. split_and!; [done|done|apply orb_true_r].
Qed.

(** The state in which [SIGKILL] takes the victim off the sleep queue. *)
Definition marked_dead (x : Z) (s : Scheduler) : Scheduler :=
  update x (λ p, set_exit_code (128 + SIGKILL) (set_exited true (set_state Terminated p))) s.

Lemma marked_dead_killed s x p : procs s !! x = Some p → killed (marked_dead x s) x.
Proof. intros Hp. unfold killed. cbn. rewrite lookup_alter_eq, Hp. by eexists. Qed.

Lemma send_kill s x p s1 :
  procs s !! x = Some p → state p ≠ Terminated → state p ≠ Reaped → exited p = false →
  remove_sleep x (marked_dead x s) = Some s1 →
  send_signal x SIGKILL s = (Ok tt, notify_parent true x (parent_pid p) s1).
Proof.
  intros Hp H1 H2 H3 Hrm. unfold send_signal, mbind, comp_bind, mret, comp_ret, get. cbn -[remove_sleep].
  rewrite Hp. cbn -[remove_sleep]. rewrite !bool_decide_eq_false_2 by done. rewrite H3. cbn -[remove_sleep].
  unfold marked_dead, SIGKILL in *. by rewrite Hrm.
Qed.

(** Killing is final: whatever its signal mask, a live process that is not in a
    wait queue (or sleeps) is killed by SIGKILL: it ends with exit code 137, off
    the sleep queue, is never runnable on any CPU again and accepts no further
    signal; a parent waiting for it becomes ready with SIGCHLD pending. *)
Theorem kill_is_final (s : Scheduler) (l : list Z) (target : Z) (p : Process)
    (Hq : queue_rep (procs s) (sleep_queue s) l) (Hfree : asleep_or_free s l target)
    (Hp : procs s !! target = Some p)
    (Hlive : state p ≠ Terminated ∧ state p ≠ Reaped ∧ exited p = false) (Hpar : parent_pid p ≠ Some target) :
  ∃ s', send_signal target SIGKILL s = (Ok tt, s') ∧ killed s' target ∧
    (∀ cpu, runnable cpu (procs s') target = false) ∧
    (∀ sig, sig ≠ 0%Z → (sig ≤ 31)%Z → send_signal target sig s' = (Err "Process already terminated"%string, s')) ∧
    (∀ pp parent, parent_pid p = Some pp → procs s !! pp = Some parent → block_reason parent = Some (WaitPid target) →
       ready s' = ready s ++ [pp] ∧
       ∃ parent', procs s' !! pp = Some parent' ∧ state parent' = Ready ∧ block_reason parent' = None ∧
         Z.testbit (pending_signals parent') SIGCHLD = true).
Proof.
  destruct Hlive as (H1 & H2 & H3).
  assert (∀ y, links (procs (marked_dead target s)) y = links (procs s) y) as Hlinks
    by (intros y; by apply links_alter_same).
  destruct (remove_sleep_any (marked_dead target s) l target)
    as (s1 & l1 & Hrm & Hq1 & Hout & Hc & Hr & _).
  { eapply queue_frame; [|exact Hq]. auto. }
  { unfold asleep_or_free in *. by rewrite Hlinks. }
  eexists. split; [by eapply send_kill|].
  assert (killed (notify_parent true target (parent_pid p) s1) target) as Hk.
  { unfold killed. rewrite notify_parent_other by done. fold (killed s1 target).
    eapply killed_core; [by rewrite Hc|by eapply marked_dead_killed]. }
  split_and!; [done|by intros cpu; apply killed_not_runnable| |].
  - intros sig Hs0 Hs1. destruct Hk as (p' & Hp' & Hst & _). unfold send_signal, mbind, comp_bind, get.
    rewrite (proj2 (Z.eqb_neq sig 0)), (proj2 (Z.ltb_ge 31 sig)) by done. cbn -[notify_parent].
    rewrite Hp'. cbn -[notify_parent]. by rewrite Hst.
  - intros pp parent Hpp Hparent Hb. rewrite Hpp.
    assert (procs (marked_dead target s) !! pp = Some parent) as Hpm
      by (cbn; rewrite lookup_alter_ne by congruence; done).
    destruct (core_eq _ _ _ _ Hc Hpm) as (parent1 & Hp1 & Hu).
    destruct (notify_waiting_parent target pp s1 parent1) as [Hrd Hx]; [done| |by rewrite Hrd, Hr].
    rewrite <-Hb. exact (f_equal block_reason Hu).
Qed.

(** A queue whose head has lost its successor is taken for a queue of one. *)
Lemma wake_severed_head s q x p :
  q_head q = Some x → procs s !! x = Some p → wait_next p = None →
  is_running_on_any_cpu x s = false → state p ≠ Blocked →
  ∃ t', wake_one q s = Some (None, queue_new, with_procs t' s) ∧ core t' = core (procs s).
Proof.
  intros Hh Hp Hn Hr Hst. unfold wake_one. 
  assert (is_Some (procs s !! x)) as Hx by eauto.
  destruct (size (procs s)) as [|n] eqn:Hsz.
  { apply map_size_empty_inv in Hsz. rewrite Hsz, lookup_empty in Hp. done. }
  set (t' := alter (λ p, set_wait_prev None (set_wait_next None p)) x (procs s)).
  exists t'. split; [|by apply core_alter].
  cbn [wake_loop]. unfold dequeue_internal. cbn [dequeue_loop mbind option_bind]. rewrite Hh, Hp, Hn.
  cbn [mbind option_bind procs with_procs]. rewrite lookup_alter_eq, Hp. cbn [fmap option_fmap option_map].
  unfold is_running_on_any_cpu in *. cbn [current with_procs]. rewrite Hr. cbn.
  rewrite bool_decide_eq_false_2 by done. done.
Qed.

Lemma remove_sleep_elsewhere s x p n :
  sleep_queue s = queue_new → procs s !! x = Some p → wait_prev p = None → wait_next p = n →
  ∃ t', remove_sleep x s = Some (with_earliest u64_max (with_procs t' s)) ∧ core t' = core (procs s) ∧
    links t' x = Some (None, None).
Proof.
  intros Hsq Hp Hprev Hn. unfold remove_sleep, remove_internal. rewrite Hp, Hprev, Hn, Hsq. cbn.
  rewrite !(bool_decide_eq_false_2 (None = Some x)) by done.
  set (t1 := alter _ x (procs s)).
  assert (links t1 x = Some (None, None)) as Hl by (unfold t1; by rewrite links_alter, decide_True, Hp).
  assert (core t1 = core (procs s)) as Hc by (by apply core_alter).
  unfold recalculate_earliest_sleep. destruct n as [y|]; cbn.
  - exists (alter (set_wait_prev None) y t1). split_and!; [|by rewrite core_alter|].
    + destruct (size _); cbn; unfold with_sleep, with_earliest; cbn; by rewrite Hsq.
    + rewrite links_alter. case_decide; [subst|done]. unfold links in Hl.
      destruct (t1 !! x) as [p1|]; [|done]. cbn in *. congruence.
  - exists t1. split_and!; [|done..]. destruct (size _); cbn; unfold with_sleep, with_earliest; cbn; by rewrite Hsq.
Qed.

(** SIGKILL forgets which queue its victim waits in: it unlinks the victim from
    its neighbours but only knows the ends of the sleep queue, so when the
    victim is the first waiter of another queue that queue loses everybody
    behind it: the next [wake_one] finds nobody and leaves the queue empty,
    while the remaining waiters are still waiting and not ready. *)
Theorem kill_strands_waiters (s : Scheduler) (q : WaitQueue) (x : Z) (l : list Z) (p : Process)
    (Hq : queue_rep (procs s) q (x :: l)) (Hsleep : sleep_queue s = queue_new)
    (Hp : procs s !! x = Some p) (Hlive : state p ≠ Terminated ∧ state p ≠ Reaped ∧ exited p = false)
    (Horphan : parent_pid p = None) (Hoff : is_running_on_any_cpu x s = false) :
  ∃ s' s'', send_signal x SIGKILL s = (Ok tt, s') ∧ wake_one q s' = Some (None, queue_new, s'') ∧
    ready s'' = ready s ∧ ∀ y, y ∈ l → wakeable s y → wakeable s'' y.
Proof.
  destruct Hlive as (H1 & H2 & H3). pose proof Hq as [Hh _ [Hxl _]%NoDup_cons [Hlx _]].
  apply links_Some in Hlx as (p' & Hp' & Hpv & Hpn). assert (p' = p) as -> by congruence.
  destruct (remove_sleep_elsewhere (marked_dead x s) x
    (set_exit_code (128 + SIGKILL) (set_exited true (set_state Terminated p))) (first_or l None))
    as (t' & Hrm & Hc & Hl); [done| |done|done|].
  { cbn. by rewrite lookup_alter_eq, Hp. }
  pose proof (send_kill s x p _ Hp H1 H2 H3 Hrm) as Hs. rewrite Horphan in Hs.
  apply links_Some in Hl as (px & Hpx & _ & Hpxn).
  assert (killed (with_procs t' s) x) as (px' & Hpx' & Hst & _).
  { eapply (killed_core (marked_dead x s)); [by rewrite <-Hc|by eapply marked_dead_killed]. }
  assert (px' = px) as -> by (cbn in Hpx'; congruence).
  destruct (wake_severed_head (with_earliest u64_max (with_procs t' (marked_dead x s))) q x px)
    as (t'' & Hw & Hc''); [done|done|done|done|congruence|].
  eexists _, _. split_and!; [exact Hs|exact Hw|done|].
  intros y Hy Hwy. apply (wakeable_stable _ s); [|done|exact Hwy].
  assert (y ≠ x) by (by intros ->). cbn in *. rewrite Hc'', Hc, !core_lookup. by rewrite lookup_alter_ne.
Qed.

(** ** A machine with five processes

    Process 1 and 2 wait in a queue, 3 runs on CPU 0, 4 and 5 sleep until ticks
    10 and 50. *)
Definition demo_process (x : Z) (st : ProcessState) (r : option BlockReason) (prev next : option Z) : Process :=
  set_wait_prev prev (set_wait_next next (set_block_reason r (set_state st (set_pid x (process_new []))))).

Definition demo_table : table := list_to_map [
  (0%Z, demo_process 0 Ready None None None);
  (1%Z, demo_process 1 Blocked (Some ChannelRecv) None (Some 2%Z));
  (2%Z, demo_process 2 Blocked (Some ChannelRecv) (Some 1%Z) None);
  (3%Z, set_on_cpu (Some 0) (demo_process 3 Running None None None));
  (4%Z, demo_process 4 Blocked (Some (Sleep 10)) None (Some 5%Z));
  (5%Z, demo_process 5 Blocked (Some (Sleep 50)) (Some 4%Z) None)].

Definition demo_sched : Scheduler :=
  mkSched demo_table [] (Some 3%Z :: replicate 7 None) (mkQueue (Some 4%Z) (Some 5%Z)) 10 6.
Definition demo_queue : WaitQueue := mkQueue (Some 1%Z) (Some 2%Z).

Ltac concrete_queue :=
  split; [reflexivity|reflexivity|apply (bool_decide_unpack _); vm_compute; exact I
         |repeat split; vm_compute; reflexivity].

Lemma demo_queue_rep : queue_rep (procs demo_sched) demo_queue [1; 2]%Z.
Proof. concrete_queue. Qed.
Lemma demo_sleep_rep : queue_rep (procs demo_sched) (sleep_queue demo_sched) [4; 5]%Z.
Proof. concrete_queue. Qed.

Lemma demo_placed : placed demo_sched.
Proof.
  split; [reflexivity|]. intros [|c] x Hc Hx; cbn in Hc.
  - injection Hc as <-. by exists None.
  - by do 7 (destruct c as [|c]; [done|]).
Qed.

Lemma wake_one_is_fifo_witness :
  ∃ l1 x l2 q' s', [1; 2]%Z = l1 ++ x :: l2 ∧ wake_one demo_queue demo_sched = Some (Some x, q', s') ∧ x = 1%Z.
Proof.
  destruct (wake_one_is_fifo demo_queue demo_sched [1; 2]%Z demo_queue_rep)
    as [(l1 & x & l2 & q' & s' & Hl & _ & _ & Hw & _)|(Hno & _)].
  - exists l1, x, l2, q', s'. split_and!; [exact Hl|exact Hw|]. vm_compute in Hw. by injection Hw.
  - destruct (Hno 1%Z); [left|]. eexists. split; [reflexivity|by left].
Defined.

Lemma wakeup_before_switch_is_kept_witness :
  ∃ q'' s'', wake_one (mkQueue (Some 3%Z) (Some 3%Z))
    (update 3%Z (λ p, set_block_reason (Some ChannelSend) (set_state Blocked p)) demo_sched)
    = Some (Some 3%Z, q'', s'') ∧ ready (requeue_current 0 s'') = [3%Z].
Proof.
  destruct (wakeup_before_switch_is_kept 0 ChannelSend queue_new (mkQueue (Some 3%Z) (Some 3%Z)) demo_sched
    (update 3%Z (λ p, set_block_reason (Some ChannelSend) (set_state Blocked p)) demo_sched) [] 3%Z
    (set_on_cpu (Some 0) (demo_process 3 Running None None None))) as (q'' & s'' & Hw & _ & Hr & _).
  - concrete_queue.
  - intros x Hx. by apply elem_of_nil in Hx.
  - apply not_elem_of_nil.
  - reflexivity.
  - reflexivity.
  - split; reflexivity.
  - vm_compute. reflexivity.
  - exists q'', s''. split; [exact Hw|exact Hr].
Defined.

Lemma sleepers_wake_on_time_witness :
  ∃ s', poll_sleeping_processes_locked 20 demo_sched = Some s' ∧ ready s' = [4%Z] ∧
    queue_rep (procs s') (sleep_queue s') [5%Z].
Proof.
  destruct (sleepers_wake_on_time demo_sched [4; 5]%Z 20 demo_sleep_rep) as (s' & Hp & Hq & Hr & _).
  exists s'. split_and!; [exact Hp|exact Hr|exact Hq].
Defined.


Lemma kill_is_final_witness :
  ∃ s', send_signal 4 SIGKILL demo_sched = (Ok tt, s') ∧ killed s' 4.
Proof.
  destruct (kill_is_final demo_sched [4; 5]%Z 4 (demo_process 4 Blocked (Some (Sleep 10)) None (Some 5%Z)))
    as (s' & Hs & Hk & _).
  - exact demo_sleep_rep.
  - left. left.
  - reflexivity.
  - split_and!; done.
  - done.
  - exists s'. split; [exact Hs|exact Hk].
Defined.

Lemma kill_strands_waiters_witness :
  let s := with_sleep queue_new demo_sched in
  ∃ s' s'', send_signal 1 SIGKILL s = (Ok tt, s') ∧ wake_one demo_queue s' = Some (None, queue_new, s'') ∧
    wakeable s'' 2.
Proof.
  destruct (kill_strands_waiters (with_sleep queue_new demo_sched) demo_queue 1 [2]%Z
    (demo_process 1 Blocked (Some ChannelRecv) None (Some 2%Z))) as (s' & s'' & Hk & Hw & _ & Hall).
  - exact demo_queue_rep.
  - reflexivity.
  - reflexivity.
  - split_and!; done.
  - reflexivity.
  - reflexivity.
  - exists s', s''. split_and!; [exact Hk|exact Hw|]. apply Hall; [left|]. eexists. split; [reflexivity|by left].
Defined.
