(* ===== verification/IoPorts.v ===== *)
(** * I/O port permissions (kernel/src/gdt.rs, kernel/src/task/process.rs)

    The bitmap of each CPU's task-state segment says which ports its user code
    may touch; switching processes brings it in line with the process, unless
    what was installed last is already right.  A cleared bit, which permits a
    port, is [true] here. *)
From S2P Require Import Prelude Sched.

(** kernel/src/gdt.rs:28-37 [PER_CPU_TSS] *)
Record IoPorts := mkIo {
  permitted : nat → Z → bool;
  CURRENT_IOPB_PORTS : nat → Z;
}.

(** kernel/src/gdt.rs:18-24 [TssWithIopb::new] *)
Definition io_initial : IoPorts := mkIo (λ _ _, false) (λ _, u32_max).

Definition set_permitted (cpu : nat) (f : Z → bool) (s : IoPorts) : IoPorts :=
  mkIo (λ c, if (c =? cpu)%nat then f else permitted s c) (CURRENT_IOPB_PORTS s).

Definition in_range (start end_inclusive p : Z) : bool := (start <=? p)%Z && (p <=? end_inclusive)%Z.

(** kernel/src/gdt.rs:53-65 [allow_port_range_for_cpu] *)
Definition allow_port_range_for_cpu (cpu : nat) (start end_inclusive : Z) (s : IoPorts) : IoPorts :=
  if (cpu <? MAX_CPUS)%nat then
    set_permitted cpu (λ p, in_range start end_inclusive p || permitted s cpu p) s
  else s.
(** kernel/src/gdt.rs:67-69 [allow_port_range] *)
Definition allow_port_range (start end_inclusive : Z) (s : IoPorts) : IoPorts :=
  allow_port_range_for_cpu 0 start end_inclusive s.
(** kernel/src/gdt.rs:71-83 [deny_port_range_for_cpu] *)
Definition deny_port_range_for_cpu (cpu : nat) (start end_inclusive : Z) (s : IoPorts) : IoPorts :=
  if (cpu <? MAX_CPUS)%nat then
    set_permitted cpu (λ p, negb (in_range start end_inclusive p) && permitted s cpu p) s
  else s.
(** kernel/src/gdt.rs:85-87 [deny_port_range] *)
Definition deny_port_range (start end_inclusive : Z) (s : IoPorts) : IoPorts :=
  deny_port_range_for_cpu 0 start end_inclusive s.
(** kernel/src/gdt.rs:89-95 [reset_io_bitmap_for_cpu] *)
Definition reset_io_bitmap_for_cpu (cpu : nat) (s : IoPorts) : IoPorts :=
  if (cpu <? MAX_CPUS)%nat then set_permitted cpu (λ _, false) s else s.

(** kernel/src/task/process.rs:1594-1597 [sync_iopb_for_process_for_cpu, encoded] *)
Definition encode_ports (ports : option (Z * Z)) : Z :=
  match ports with Some (start, stop) => Z.lor start (Z.shiftl stop 16) | None => u32_max end.

(** kernel/src/task/process.rs:1592-1605 [sync_iopb_for_process_for_cpu] *)
Definition sync_iopb_for_process_for_cpu (cpu : nat) (ports : option (Z * Z)) (s : IoPorts) : IoPorts :=
  if (MAX_CPUS <=? cpu)%nat then s
  else
    let prev := CURRENT_IOPB_PORTS s cpu in
    let s := mkIo (permitted s) (λ c, if (c =? cpu)%nat then encode_ports ports else CURRENT_IOPB_PORTS s c) in
    if (prev =? encode_ports ports)%Z then s
    else
      let s := reset_io_bitmap_for_cpu cpu s in
      match ports with
      | Some (start, stop) => allow_port_range_for_cpu cpu start stop s
      | None => s
      end.

(** ** Facts *)

#[local] Instance ports_ok_decision ports : Decision (match ports with
  | Some (a, b) => (0 ≤ a < 2 ^ 16 ∧ 0 ≤ b < 2 ^ 16)%Z ∧ (a, b) ≠ (65535, 65535)%Z
  | None => True end).
Proof. destruct ports as [[a b]|]; apply _. Defined.

(** Ranges of ports; the very last port alone has the code of no ports. *)
Definition ports_ok (ports : option (Z * Z)) : Prop :=
  match ports with
  | Some (a, b) => (0 ≤ a < 2 ^ 16 ∧ 0 ≤ b < 2 ^ 16)%Z ∧ (a, b) ≠ (65535, 65535)%Z
  | None => True
  end.
Definition allows (ports : option (Z * Z)) (p : Z) : bool :=
  match ports with Some (a, b) => in_range a b p | None => false end.

Definition decode_ports (z : Z) : Z * Z := (Z.land z (Z.ones 16), Z.shiftr z 16).

Lemma decode_encode a b : (0 ≤ a < 2 ^ 16)%Z → decode_ports (encode_ports (Some (a, b))) = (a, b).
Proof.
  intros Ha. unfold decode_ports, encode_ports. f_equal.
  - rewrite Z.land_lor_distr_l, !Z.land_ones, Z.shiftl_mul_pow2, Z.mod_mul, Z.mod_small by lia. apply Z.lor_0_r.
  - rewrite Z.shiftr_lor, Z.shiftr_shiftl_l, Z.sub_diag, Z.shiftl_0_r by lia.
    rewrite (Z.shiftr_div_pow2 a), Z.div_small by lia. done.
Qed.

(** Different ranges have different codes. *)
Lemma encode_inj p q : ports_ok p → ports_ok q → encode_ports p = encode_ports q → p = q.
Proof.
  intros Hp Hq He. apply (f_equal decode_ports) in He.
  assert (decode_ports (encode_ports None) = (65535, 65535)%Z) as Hnone by reflexivity.
  destruct p as [[a b]|], q as [[c d]|]; [..|done]; rewrite ?Hnone in He.
  - destruct Hp as [[Ha _] _], Hq as [[Hc _] _]. rewrite !decode_encode in He by done. by rewrite He.
  - destruct Hp as [[Ha _] Hne]. by rewrite decode_encode in He.
  - destruct Hq as [[Hc _] Hne]. by rewrite decode_encode in He.
Qed.

(** The bitmap of a CPU permits what its code says, and the code is that of a range. *)
Definition in_line (s : IoPorts) (cpu : nat) (ports : option (Z * Z)) : Prop :=
  CURRENT_IOPB_PORTS s cpu = encode_ports ports ∧ ∀ p, permitted s cpu p = allows ports p.

Lemma sync_elsewhere s cpu c ports : c ≠ cpu →
  permitted (sync_iopb_for_process_for_cpu cpu ports s) c = permitted s c ∧
  CURRENT_IOPB_PORTS (sync_iopb_for_process_for_cpu cpu ports s) c = CURRENT_IOPB_PORTS s c.
Proof.
  intros Hne%Nat.eqb_neq. unfold sync_iopb_for_process_for_cpu.
  destruct (MAX_CPUS <=? cpu)%nat; [done|]. cbv zeta. unfold reset_io_bitmap_for_cpu, allow_port_range_for_cpu.
  destruct (_ =? _)%Z; [cbn; by rewrite Hne|].
  destruct ports as [[a b]|], (cpu <? MAX_CPUS)%nat; cbn; by rewrite !Hne.
Qed.

Lemma sync_in_line s cpu old ports : (cpu < MAX_CPUS)%nat → ports_ok old → ports_ok ports → in_line s cpu old →
  in_line (sync_iopb_for_process_for_cpu cpu ports s) cpu ports.
Proof.
  intros Hc Ho Hp [Hcode Hbits]. unfold sync_iopb_for_process_for_cpu.
  rewrite (proj2 (Nat.leb_gt _ _)) by lia. cbv zeta. rewrite Hcode.
  destruct (encode_ports old =? encode_ports ports)%Z eqn:E; reflect.
  - apply encode_inj in E as ->; [|done..]. unfold in_line. cbn. rewrite Nat.eqb_refl.
    done.
  - unfold reset_io_bitmap_for_cpu, allow_port_range_for_cpu. rewrite (proj2 (Nat.ltb_lt _ _)) by lia.
    destruct ports as [[a b]|]; unfold in_line; cbn; rewrite Nat.eqb_refl;
      (split; [done|intros p; by rewrite ?orb_false_r]).
Qed.

(** Switches of processes, with the range of each. *)
Definition switch_ports (s : IoPorts) (e : nat * option (Z * Z)) : IoPorts := sync_iopb_for_process_for_cpu e.1 e.2 s.
(** The process that a CPU switched to last. *)
Definition last_ports (cpu : nat) (es : list (nat * option (Z * Z))) : option (Z * Z) :=
  foldl (λ o e, if (e.1 =? cpu)%nat then e.2 else o) None es.

Lemma switches_in_line es cpu : (cpu < MAX_CPUS)%nat → Forall (λ e, (e.1 < MAX_CPUS)%nat ∧ ports_ok e.2) es →
  ports_ok (last_ports cpu es) ∧ in_line (foldl switch_ports io_initial es) cpu (last_ports cpu es).
Proof.
  intros Hc. induction es as [|e es IH] using rev_ind; intros Hes; [done|].
  apply Forall_app in Hes as [Hes [[He1 He2] _]%Forall_cons]. destruct (IH Hes) as [Hok Hl].
  unfold last_ports in *. rewrite !foldl_snoc. destruct (e.1 =? cpu)%nat eqn:E; reflect.
  - subst cpu. split; [done|]. by eapply sync_in_line.
  - split; [done|]. destruct Hl as [H1 H2].
    destruct (sync_elsewhere (foldl switch_ports io_initial es) e.1 cpu e.2) as [Hp Hcode]; [done|].
    split; [by rewrite <-H1|]. intros p. rewrite <-H2. unfold switch_ports at 1. by rewrite Hp.
Qed.

(** Switching alone keeps port permissions exact: on every CPU, after any switches,
    the bitmap permits exactly the ports of the process switched to last there.
    But the bitmap that [sys_ioperm] opens is that of CPU 0, wherever the caller
    runs, and the next process keeps it: when that process has no ports of its
    own, as the caller had when it was switched to, the switch changes nothing,
    and all the ports the caller asked for stay open to it. *)
Theorem port_permissions_leak (es : list (nat * option (Z * Z))) (cpu : nat) (a b : Z) :
  (cpu < MAX_CPUS)%nat → Forall (λ e, (e.1 < MAX_CPUS)%nat ∧ ports_ok e.2) es →
  let s := foldl switch_ports io_initial es in
  (∀ p, permitted s cpu p = allows (last_ports cpu es) p) ∧
  (last_ports 0 es = None → ∀ p, in_range a b p = true →
     permitted (sync_iopb_for_process_for_cpu 0 None (allow_port_range a b s)) 0 p = true ∧
     allows None p = false).
Proof.
  intros Hc Hes s. split; [by apply (switches_in_line es cpu Hc Hes)|]. intros Hlast p Hp. split; [|done].
  destruct (switches_in_line es 0 ltac:(unfold MAX_CPUS; lia) Hes) as [_ [Hcode _]]. rewrite Hlast in Hcode. fold s in Hcode.
  unfold sync_iopb_for_process_for_cpu, allow_port_range, allow_port_range_for_cpu. cbn.
  rewrite Hcode. change (encode_ports None) with u32_max. rewrite Z.eqb_refl. cbn -[in_range]. by rewrite Hp.
Qed.

(** CPU 1 ran a driver with ports of its own, CPU 0 a process without. *)
Lemma port_permissions_leak_witness :
  let es := [(1, Some (96, 100)%Z); (0, None); (1, None); (1, Some (31, 32)%Z)] in
  let s := foldl switch_ports io_initial es in
  permitted s 1 31 = true ∧ permitted s 1 96 = false ∧
  permitted (sync_iopb_for_process_for_cpu 0 None (allow_port_range 96 100 s)) 0 98 = true.
Proof.
  intros es s.
  destruct (port_permissions_leak es 1 96 100) as [H1 H2].
  - unfold MAX_CPUS. lia.
  - apply (bool_decide_unpack _). vm_compute. exact I.
  - split; [rewrite H1; reflexivity|]. split; [rewrite H1; reflexivity|]. by apply H2.
Defined.
