(* ===== verification/Channel.v ===== *)
(** * Blocking channels and semaphores (kernel/src/sync.rs)

    A blocking channel is a bounded buffer with two wait queues.  Its
    operations run on the scheduler, the channel being passed along.  A
    blocking operation is a loop around [schedule]; it is modelled by its rounds:
    a round finishes with a result, or leaves the caller queued and blocked,
    and the resume function is what runs when the caller is back on a CPU,
    before the next round.  [prepare_wait] panics without a current process. *)
From S2P Require Import Prelude Abi Process WaitQueue Sched.

(** How a round of a blocking operation ends. *)
Inductive round (A : Type) : Type :=
| Finished (a : A)
| Blocks.
Arguments Finished {A} a.
Arguments Blocks {A}.

Section waiting.
Context {E : Type}.
Local Abbreviation M := (comp Scheduler E).

(** Wake-ups and waits on a queue kept outside the scheduler. *)
Definition wake_one_on (q : WaitQueue) : M (option Z * WaitQueue) :=
  s ← get;
  '(woken, q, s) ← unwrap (wake_one q s);
  put s;; mret (woken, q).
Definition wake_all_on (q : WaitQueue) : M WaitQueue :=
  s ← get;
  '(_, q, s) ← unwrap (wake_all q s);
  put s;; mret q.
Definition prepare_wait_on (cpu : nat) (reason : BlockReason) (q : WaitQueue) : M WaitQueue :=
  s ← get;
  '(q, s) ← unwrap (prepare_wait cpu reason q s);
  put s;; mret q.
Definition finish_wait_on (cpu : nat) (q : WaitQueue) : M WaitQueue :=
  s ← get;
  let '(q, s) := finish_wait cpu q s in
  put s;; mret q.
End waiting.

(** ** Channels *)

(** kernel/src/sync.rs:358-363 [BlockingChannel] *)
Record Channel (A : Type) := mkChannel {
  buffer : list A;
  not_empty : WaitQueue;
  not_full : WaitQueue;
  ch_capacity : nat;
}.
Arguments mkChannel {A} _ _ _ _.
Arguments buffer {A} _.
Arguments not_empty {A} _.
Arguments not_full {A} _.
Arguments ch_capacity {A} _.

Section channel.
Context {A E : Type}.
Implicit Types c : Channel A.
Local Abbreviation M := (comp Scheduler E).

(** kernel/src/sync.rs:366-373 [BlockingChannel::new] *)
Definition chan_new (capacity : nat) : Channel A := mkChannel [] queue_new queue_new capacity.

Definition with_buffer (b : list A) c : Channel A := mkChannel b (not_empty c) (not_full c) (ch_capacity c).
Definition with_not_empty (q : WaitQueue) c : Channel A := mkChannel (buffer c) q (not_full c) (ch_capacity c).
Definition with_not_full (q : WaitQueue) c : Channel A := mkChannel (buffer c) (not_empty c) q (ch_capacity c).

(** kernel/src/sync.rs:383-397 [BlockingChannel::send, round] *)
Definition chan_send_round (cpu : nat) (msg : A) c : M (round (option Z) * Channel A) :=
  if (length (buffer c) <? ch_capacity c)%nat then
    '(woken, q) ← wake_one_on (not_empty c);
    mret (Finished woken, with_not_empty q (with_buffer (buffer c ++ [msg]) c))
  else
    q ← prepare_wait_on cpu ChannelSend (not_full c);
    mret (Blocks, with_not_full q c).

(** kernel/src/sync.rs:399-403 [BlockingChannel::send, after the switch] *)
Definition chan_send_resume (cpu : nat) c : M (Channel A) :=
  q ← finish_wait_on cpu (not_full c); mret (with_not_full q c).

(** The message is handed back when the channel is full —
    kernel/src/sync.rs:407-417 [BlockingChannel::try_send] *)
Definition chan_try_send (msg : A) c : M (bool * Channel A) :=
  if (ch_capacity c <=? length (buffer c))%nat then mret (false, c)
  else
    '(_, q) ← wake_one_on (not_empty c);
    mret (true, with_not_empty q (with_buffer (buffer c ++ [msg]) c)).

(** kernel/src/sync.rs:419-431 [BlockingChannel::recv, round] *)
Definition chan_recv_round (cpu : nat) c : M (round A * Channel A) :=
  match buffer c with
  | msg :: b =>
      '(_, q) ← wake_one_on (not_full c);
      mret (Finished msg, with_not_full q (with_buffer b c))
  | [] =>
      q ← prepare_wait_on cpu ChannelRecv (not_empty c);
      mret (Blocks, with_not_empty q c)
  end.

(** kernel/src/sync.rs:433-437 [BlockingChannel::recv, after the switch] *)
Definition chan_recv_resume (cpu : nat) c : M (Channel A) :=
  q ← finish_wait_on cpu (not_empty c); mret (with_not_empty q c).

(** kernel/src/sync.rs:441-451 [BlockingChannel::try_recv] *)
Definition chan_try_recv c : M (option A * Channel A) :=
  match buffer c with
  | msg :: b =>
      '(_, q) ← wake_one_on (not_full c);
      mret (Some msg, with_not_full q (with_buffer b c))
  | [] => mret (None, c)
  end.
End channel.

(** ** Semaphores, condition variables and sleeping locks

    The three are used concurrently with interrupts on, so their operations are
    split where another CPU can come in between. *)

(** kernel/src/sync.rs:261-264 [Semaphore] *)
Record Semaphore := mkSemaphore { sem_count : Z; sem_queue : WaitQueue }.

Section semaphore.
Context {E : Type}.
Implicit Types m : Semaphore.
Local Abbreviation M := (comp Scheduler E).

(** kernel/src/sync.rs:267-272 [Semaphore::new] *)
Definition sem_new (initial : Z) : Semaphore := mkSemaphore initial queue_new.

(** kernel/src/sync.rs:274-285 [Semaphore::try_wait] *)
Definition sem_try_wait m : bool * Semaphore :=
  if (sem_count m =? 0)%Z then (false, m) else (true, mkSemaphore (sem_count m - 1) (sem_queue m)).

(** The caller queues after a failed try — kernel/src/sync.rs:292-295 [Semaphore::wait, queueing] *)
Definition sem_queue_up (cpu : nat) m : M Semaphore :=
  q ← prepare_wait_on cpu Generic (sem_queue m); mret (mkSemaphore (sem_count m) q).

(** The second try, once queued: done, or time to switch away —
    kernel/src/sync.rs:296-300 [Semaphore::wait, second try] *)
Definition sem_recheck (cpu : nat) m : M (bool * Semaphore) :=
  let '(ok, m) := sem_try_wait m in
  if ok then q ← finish_wait_on cpu (sem_queue m); mret (true, mkSemaphore (sem_count m) q)
  else mret (false, m).

(** kernel/src/sync.rs:302-305 [Semaphore::wait, after the switch] *)
Definition sem_resume (cpu : nat) m : M Semaphore :=
  q ← finish_wait_on cpu (sem_queue m); mret (mkSemaphore (sem_count m) q).

(** The count goes up before the queue is looked at —
    kernel/src/sync.rs:309-310 [Semaphore::signal, increment] *)
Definition sem_post m : Semaphore := mkSemaphore (wrap 64 (sem_count m + 1)) (sem_queue m).
(** kernel/src/sync.rs:311-313 [Semaphore::signal, wake-up] *)
Definition sem_wake m : M Semaphore :=
  '(_, q) ← wake_one_on (sem_queue m); mret (mkSemaphore (sem_count m) q).
End semaphore.

(** A condition variable is its queue — kernel/src/sync.rs:317-319 [Condvar] *)
Definition Condvar : Type := WaitQueue.

Section condvar.
Context {E : Type}.
Local Abbreviation M := (comp Scheduler E).

(** kernel/src/sync.rs:322-326 [Condvar::new] *)
Definition condvar_new : Condvar := queue_new.
(** kernel/src/sync.rs:328-333 [Condvar::wait, queueing] *)
Definition condvar_queue_up (cpu : nat) (v : Condvar) : M Condvar := prepare_wait_on cpu Process.Condvar v.
(** kernel/src/sync.rs:335-338 [Condvar::wait, after the switch] *)
Definition condvar_resume (cpu : nat) (v : Condvar) : M Condvar := finish_wait_on cpu v.
(** kernel/src/sync.rs:346-349 [Condvar::notify_one] *)
Definition notify_one (v : Condvar) : M Condvar := '(_, v) ← wake_one_on v; mret v.
(** kernel/src/sync.rs:351-354 [Condvar::notify_all] *)
Definition notify_all (v : Condvar) : M Condvar := wake_all_on v.
End condvar.

(** The data behind the lock is the client's — kernel/src/sync.rs:166-170 [SleepMutex] *)
Record SleepMutex := mkSleepMutex { sm_locked : bool; sm_queue : WaitQueue }.

Section sleep_mutex.
Context {E : Type}.
Implicit Types m : SleepMutex.
Local Abbreviation M := (comp Scheduler E).

(** kernel/src/sync.rs:204-210 [SleepMutex::new] *)
Definition sm_new : SleepMutex := mkSleepMutex false queue_new.

(** kernel/src/sync.rs:212-218 [SleepMutex::try_lock] *)
Definition sm_try_lock m : bool * SleepMutex :=
  if sm_locked m then (false, m) else (true, mkSleepMutex true (sm_queue m)).

(** kernel/src/sync.rs:237-241 [SleepMutex::lock, queueing] *)
Definition sm_queue_up (cpu : nat) m : M SleepMutex :=
  q ← prepare_wait_on cpu Generic (sm_queue m); mret (mkSleepMutex (sm_locked m) q).

(** kernel/src/sync.rs:242-247 [SleepMutex::lock, second try] *)
Definition sm_recheck (cpu : nat) m : M (bool * SleepMutex) :=
  let '(ok, m) := sm_try_lock m in
  if ok then q ← finish_wait_on cpu (sm_queue m); mret (true, mkSleepMutex (sm_locked m) q)
  else mret (false, m).

(** kernel/src/sync.rs:249-252 [SleepMutex::lock, after the switch] *)
Definition sm_resume (cpu : nat) m : M SleepMutex :=
  q ← finish_wait_on cpu (sm_queue m); mret (mkSleepMutex (sm_locked m) q).

(** kernel/src/sync.rs:196-197 [Drop for SleepMutexGuard, unlock] *)
Definition sm_unlock m : SleepMutex := mkSleepMutex false (sm_queue m).
(** kernel/src/sync.rs:198-200 [Drop for SleepMutexGuard, wake-up] *)
Definition sm_wake m : M SleepMutex :=
  '(_, q) ← wake_one_on (sm_queue m); mret (mkSleepMutex (sm_locked m) q).
End sleep_mutex.
