(* ===== verification/Ipc.v ===== *)
(** * Capability-gated IPC (kernel/src/ipc.rs)

    Channels whose every use is checked against the endpoint's capability, the
    registry of endpoints behind the system calls, the hang-up of a dead
    process's endpoints, and the delivery of device interrupts as messages.
    [IpcWorld] is the state these share: the capability space, the scheduler and
    the module's statics. *)
From S2P Require Import Prelude Abi Cap Process WaitQueue Sched Channel.

(** kernel/src/ipc.rs:14-17 [CapChannel] *)
Record CapChannel := mkCapChannel { endpoint_cap : CapHandle; inner : Channel (CapMessage bytes) }.

(** kernel/src/ipc.rs:333-337 [IrqBinding] *)
Record IrqBinding := mkBinding { bound_ep : Z; writer_cap : CapHandle }.

(** [IRQ_EVENTS] is the queue of (irq, payload) pairs, absent before
    [init_irq_notify] — kernel/src/ipc.rs:135-139 [ENDPOINTS, ENDPOINT_OWNERS] *)
Record IpcWorld := mkIpc {
  caps : CapWorld;
  sched : Scheduler;
  ENDPOINTS : gmap Z CapChannel;
  ENDPOINT_OWNERS : gmap Z Z;
  NEXT_EP_ID : Z;
  IRQ_BINDINGS : gmap Z IrqBinding;
  IRQ_BINDINGS_NONEMPTY : bool;
  IRQ_EVENTS : option (list (Z * Z));
}.

(** kernel/src/ipc.rs:142-143 [MAX_ENDPOINT_CAPACITY, MAX_ENDPOINTS] *)
Definition MAX_ENDPOINT_CAPACITY : nat := 256.
Definition MAX_ENDPOINTS : nat := 256.
(** kernel/src/ipc.rs:365-367 [init_irq_notify] *)
Definition IRQ_QUEUE_SIZE : nat := 256.
#[global] Arguments MAX_ENDPOINT_CAPACITY : simpl never.
#[global] Arguments MAX_ENDPOINTS : simpl never.
#[global] Arguments IRQ_QUEUE_SIZE : simpl never.

Section ipc.
Local Abbreviation M := (comp IpcWorld CapError).

Definition with_caps (c : CapWorld) (w : IpcWorld) : IpcWorld :=
  mkIpc c (sched w) (ENDPOINTS w) (ENDPOINT_OWNERS w) (NEXT_EP_ID w) (IRQ_BINDINGS w)
    (IRQ_BINDINGS_NONEMPTY w) (IRQ_EVENTS w).
Definition with_sched (s : Scheduler) (w : IpcWorld) : IpcWorld :=
  mkIpc (caps w) s (ENDPOINTS w) (ENDPOINT_OWNERS w) (NEXT_EP_ID w) (IRQ_BINDINGS w)
    (IRQ_BINDINGS_NONEMPTY w) (IRQ_EVENTS w).
Definition with_endpoints (e : gmap Z CapChannel) (w : IpcWorld) : IpcWorld :=
  mkIpc (caps w) (sched w) e (ENDPOINT_OWNERS w) (NEXT_EP_ID w) (IRQ_BINDINGS w)
    (IRQ_BINDINGS_NONEMPTY w) (IRQ_EVENTS w).
Definition with_owners (o : gmap Z Z) (w : IpcWorld) : IpcWorld :=
  mkIpc (caps w) (sched w) (ENDPOINTS w) o (NEXT_EP_ID w) (IRQ_BINDINGS w)
    (IRQ_BINDINGS_NONEMPTY w) (IRQ_EVENTS w).
Definition with_next_ep (n : Z) (w : IpcWorld) : IpcWorld :=
  mkIpc (caps w) (sched w) (ENDPOINTS w) (ENDPOINT_OWNERS w) n (IRQ_BINDINGS w)
    (IRQ_BINDINGS_NONEMPTY w) (IRQ_EVENTS w).
Definition with_irqs (b : gmap Z IrqBinding) (w : IpcWorld) : IpcWorld :=
  mkIpc (caps w) (sched w) (ENDPOINTS w) (ENDPOINT_OWNERS w) (NEXT_EP_ID w) b
    (IRQ_BINDINGS_NONEMPTY w) (IRQ_EVENTS w).
Definition with_gate (b : bool) (w : IpcWorld) : IpcWorld :=
  mkIpc (caps w) (sched w) (ENDPOINTS w) (ENDPOINT_OWNERS w) (NEXT_EP_ID w) (IRQ_BINDINGS w)
    b (IRQ_EVENTS w).
Definition with_events (q : option (list (Z * Z))) (w : IpcWorld) : IpcWorld :=
  mkIpc (caps w) (sched w) (ENDPOINTS w) (ENDPOINT_OWNERS w) (NEXT_EP_ID w) (IRQ_BINDINGS w)
    (IRQ_BINDINGS_NONEMPTY w) q.

(** A call into the capability core, or on the scheduler. *)
Definition cap_call {A} (m : comp CoreState CapError A) : M A := zoom caps with_caps (locked m).
Definition on_sched {A} (m : comp Scheduler CapError A) : M A := zoom sched with_sched m.

(** ** Channels *)

(** kernel/src/ipc.rs:21-28 [CapChannel::new] *)
Definition cap_channel_new (capacity : nat) : M (CapChannel * CapHandle) :=
  h ← cap_call (create_object Endpoint);
  mret (mkCapChannel h (chan_new capacity), h).

(** The capability that travels with a message —
    kernel/src/ipc.rs:47-59 [CapChannel::send, attached capability] *)
Definition final_cap (attached : option CapHandle) (mode : TransferMode) : M (option CapHandle) :=
  match attached, mode with
  | Some h, ModeTransfer => h' ← cap_call (transfer h rights_all); mret (Some h')
  | Some h, ModeLend => cap_call (check_rights h rights_empty);; mret (Some h)
  | Some h, ModeNone => mret (Some h)
  | None, _ => mret None
  end.

(** One round — kernel/src/ipc.rs:37-69 [CapChannel::send] *)
Definition cap_channel_send (cpu : nat) (ch : CapChannel) (sender : CapHandle) (msg : bytes)
    (attached : option CapHandle) (mode : TransferMode) : M (round (option Z) * CapChannel) :=
  cap_call (check_rights_for_object sender (endpoint_cap ch) WRITE);;
  h ← final_cap attached mode;
  '(r, c) ← on_sched (chan_send_round cpu (mkMessage msg h mode) (inner ch));
  mret (r, mkCapChannel (endpoint_cap ch) c).

(** One round — kernel/src/ipc.rs:72-76 [CapChannel::recv] *)
Definition cap_channel_recv (cpu : nat) (ch : CapChannel) (receiver : CapHandle)
  : M (round (CapMessage bytes) * CapChannel) :=
  cap_call (check_rights_for_object receiver (endpoint_cap ch) READ);;
  '(r, c) ← on_sched (chan_recv_round cpu (inner ch));
  mret (r, mkCapChannel (endpoint_cap ch) c).

(** kernel/src/ipc.rs:79-105 [CapChannel::try_send] *)
Definition cap_channel_try_send (ch : CapChannel) (sender : CapHandle) (msg : bytes)
    (attached : option CapHandle) (mode : TransferMode) : M CapChannel :=
  cap_call (check_rights_for_object sender (endpoint_cap ch) WRITE);;
  h ← final_cap attached mode;
  '(sent, c) ← on_sched (chan_try_send (mkMessage msg h mode) (inner ch));
  reject_if (negb sent) Exhausted;;
  mret (mkCapChannel (endpoint_cap ch) c).

(** kernel/src/ipc.rs:108-111 [CapChannel::try_recv] *)
Definition cap_channel_try_recv (ch : CapChannel) (receiver : CapHandle)
  : M (option (CapMessage bytes) * CapChannel) :=
  cap_call (check_rights_for_object receiver (endpoint_cap ch) READ);;
  '(m, c) ← on_sched (chan_try_recv (inner ch));
  mret (m, mkCapChannel (endpoint_cap ch) c).

(** ** The endpoint registry *)

(** kernel/src/ipc.rs:146-158 [create_raw_endpoint] *)
Definition create_raw_endpoint (capacity : nat) : M (Z * CapHandle) :=
  reject_if ((capacity =? 0)%nat || (MAX_ENDPOINT_CAPACITY <? capacity)%nat) Invalid;;
  w ← get;
  reject_if (MAX_ENDPOINTS <=? size (ENDPOINTS w))%nat Exhausted;;
  '(ch, h) ← cap_channel_new capacity;
  w ← get;
  let ep := NEXT_EP_ID w in
  put (with_endpoints (<[ep := ch]> (ENDPOINTS w)) (with_next_ep (wrap 32 (ep + 1)) w));;
  mret (ep, h).

(** kernel/src/ipc.rs:161-163 [register_endpoint_owner] *)
Definition register_endpoint_owner (ep pid : Z) : M unit :=
  modify (λ w, with_owners (<[ep := pid]> (ENDPOINT_OWNERS w)) w).

(** [ENDPOINTS.lock().get(&ep_id).ok_or(NotFound)] and the write back —
    kernel/src/ipc.rs:226-227 [raw_ipc_send, lookup] *)
Definition lookup_endpoint (ep : Z) : M CapChannel :=
  w ← get; ok_or (ENDPOINTS w !! ep) NotFound.
Definition update_endpoint (ep : Z) (ch : CapChannel) : M unit :=
  modify (λ w, with_endpoints (<[ep := ch]> (ENDPOINTS w)) w).

(** The lock on [ENDPOINTS] is held across the send, so a send that has to wait
    calls [schedule] with a lock held and stops on its assertion.  The result is
    the process to hand the CPU to, [yield_to] —
    kernel/src/ipc.rs:218-235 [raw_ipc_send] *)
Definition raw_ipc_send (cpu : nat) (ep : Z) (sender : CapHandle) (data : bytes)
    (attached : option CapHandle) (mode : TransferMode) : M (option Z) :=
  ch ← lookup_endpoint ep;
  '(r, ch) ← cap_channel_send cpu ch sender data attached mode;
  update_endpoint ep ch;;
  match r with
  | Finished woken => mret woken
  | Blocks => panic
  end.

(** One round, with the locks released at its end —
    kernel/src/ipc.rs:252-265 [raw_ipc_recv, round] *)
Definition raw_ipc_recv_round (cpu : nat) (ep : Z) (receiver : CapHandle) : M (round (CapMessage bytes)) :=
  ch ← lookup_endpoint ep;
  '(m, ch) ← cap_channel_try_recv ch receiver;
  match m with
  | Some msg => update_endpoint ep ch;; mret (Finished msg)
  | None =>
      q ← on_sched (prepare_wait_on cpu ChannelRecv (not_empty (inner ch)));
      update_endpoint ep (mkCapChannel (endpoint_cap ch) (with_not_empty q (inner ch)));;
      mret Blocks
  end.

(** kernel/src/ipc.rs:267-286 [raw_ipc_recv, after the switch] *)
Definition raw_ipc_recv_resume (cpu : nat) (ep : Z) : M unit :=
  w ← get;
  match ENDPOINTS w !! ep with
  | Some ch =>
      q ← on_sched (finish_wait_on cpu (not_empty (inner ch)));
      update_endpoint ep (mkCapChannel (endpoint_cap ch) (with_not_empty q (inner ch)))
  | None =>
      match current_for_cpu cpu (sched w) with
      | Some cur =>
          put (with_sched (update cur (λ p, if bool_decide (state p = Blocked)
                 then set_block_reason None (set_state Running p) else p) (sched w)) w)
      | None => mret tt
      end;;
      throw NotFound
  end.

(** kernel/src/ipc.rs:292-299 [raw_ipc_try_recv] *)
Definition raw_ipc_try_recv (ep : Z) (receiver : CapHandle) : M (option (CapMessage bytes)) :=
  ch ← lookup_endpoint ep;
  '(m, ch) ← cap_channel_try_recv ch receiver;
  update_endpoint ep ch;; mret m.

(** kernel/src/ipc.rs:305-315 [raw_ipc_try_send] *)
Definition raw_ipc_try_send (ep : Z) (sender : CapHandle) (data : bytes)
    (attached : option CapHandle) (mode : TransferMode) : M unit :=
  ch ← lookup_endpoint ep;
  ch ← cap_channel_try_send ch sender data attached mode;
  update_endpoint ep ch.

(** Receive and discard until the channel is empty or the handle is refused;
    the capabilities in flight are closed — kernel/src/ipc.rs:352-357 [cancel_endpoint, loop] *)
Fixpoint drain_endpoint (fuel : nat) (ch : CapChannel) (h : CapHandle) (count : nat)
  : M (nat * CapChannel) :=
  match fuel with
  | O => panic
  | S fuel =>
      r ← attempt (cap_channel_try_recv ch h);
      match r with
      | inr (Some msg, ch) =>
          match capability msg with
          | Some attached => ignore (cap_call (close attached))
          | None => mret tt
          end;;
          drain_endpoint fuel ch h (S count)
      | _ => mret (count, ch)
      end
  end.

(** kernel/src/ipc.rs:348-359 [cancel_endpoint] *)
Definition cancel_endpoint (ep : Z) (h : CapHandle) : M nat :=
  ch ← lookup_endpoint ep;
  '(n, ch) ← drain_endpoint (S (length (buffer (inner ch)))) ch h 0;
  update_endpoint ep ch;; mret n.

(** The channel has left the registry: wake everybody, close what is in flight —
    kernel/src/ipc.rs:189-200 [hangup_channel_for_pid, channel] *)
Definition shut_channel (ch : CapChannel) : M unit :=
  q ← on_sched (wake_all_on (not_empty (inner ch)));
  q' ← on_sched (wake_all_on (not_full (inner ch)));
  let ch := mkCapChannel (endpoint_cap ch) (with_not_full q' (with_not_empty q (inner ch))) in
  _ ← drain_endpoint (S (length (buffer (inner ch)))) ch (endpoint_cap ch) 0;
  mret tt.

(** kernel/src/ipc.rs:185-211 [hangup_channel_for_pid, loop body] *)
Definition hangup_endpoint (ep : Z) : M unit :=
  modify (λ w, with_owners (delete ep (ENDPOINT_OWNERS w)) w);;
  w ← get;
  match ENDPOINTS w !! ep with
  | Some ch => put (with_endpoints (delete ep (ENDPOINTS w)) w);; shut_channel ch
  | None => mret tt
  end;;
  modify (λ w, with_irqs (filter (λ e, bound_ep e.2 ≠ ep) (IRQ_BINDINGS w)) w).

(** The endpoints of a process, in order of their numbers —
    kernel/src/ipc.rs:169-175 [hangup_channel_for_pid, to_remove] *)
Definition owned_endpoints (pid : Z) (owners : gmap Z Z) : list Z :=
  (filter (λ e, e.2 = pid) (btree_iter Z.le owners)).*1.

(** kernel/src/ipc.rs:168-216 [hangup_channel_for_pid] *)
Definition hangup_channel_for_pid (pid : Z) : M unit :=
  w ← get;
  match owned_endpoints pid (ENDPOINT_OWNERS w) with
  | [] => mret tt
  | to_remove =>
      for_each to_remove hangup_endpoint;;
      modify (λ w, if bool_decide (IRQ_BINDINGS w = ∅) then with_gate false w else w)
  end.

(** ** Interrupts as messages *)

(** kernel/src/ipc.rs:365-367 [init_irq_notify] *)
Definition init_irq_notify : M unit :=
  modify (λ w, match IRQ_EVENTS w with None => with_events (Some []) w | Some _ => w end).

(** The gate of binding and unbinding: a live device handle with MANAGE —
    kernel/src/ipc.rs:381-385 [bind_irq, gate] *)
Definition device_gate (device : CapHandle) : M unit :=
  cap_call (check_rights device MANAGE);;
  id ← cap_call (object_identity device);
  reject_if (negb (bool_decide (id.1 = Device))) NoRights.

(** kernel/src/ipc.rs:375-401 [bind_irq] *)
Definition bind_irq (device : CapHandle) (irq ep : Z) (writer : CapHandle) : M unit :=
  device_gate device;;
  reject_if (15 <? irq)%Z Invalid;;
  ch ← lookup_endpoint ep;
  cap_call (check_rights_for_object writer (endpoint_cap ch) WRITE);;
  modify (λ w, with_gate true (with_irqs (<[irq := mkBinding ep writer]> (IRQ_BINDINGS w)) w)).

(** kernel/src/ipc.rs:404-418 [unbind_irq] *)
Definition unbind_irq (device : CapHandle) (irq : Z) : M unit :=
  device_gate device;;
  w ← get;
  let b := delete irq (IRQ_BINDINGS w) in
  put (with_gate (if bool_decide (b = ∅) then false else IRQ_BINDINGS_NONEMPTY w) (with_irqs b w));;
  reject_if (bool_decide (IRQ_BINDINGS w !! irq = None)) NotFound.

(** In interrupt context; a full queue drops the event —
    kernel/src/ipc.rs:422-432 [irq_event] *)
Definition irq_event (irq payload : Z) (w : IpcWorld) : IpcWorld :=
  if IRQ_BINDINGS_NONEMPTY w then
    match IRQ_EVENTS w with
    | Some q => if (length q <? IRQ_QUEUE_SIZE)%nat then with_events (Some (q ++ [(irq, payload)])) w else w
    | None => w
    end
  else w.

(** One event goes to the endpoint bound to it, if there is one with room for it —
    kernel/src/ipc.rs:445-455 [deliver_pending_irqs, loop body] *)
Definition deliver_irq (e : Z * Z) : M unit :=
  w ← get;
  match IRQ_BINDINGS w !! e.1 with
  | Some b => ignore (raw_ipc_try_send (bound_ep b) (writer_cap b) [e.2] None ModeNone)
  | None => mret tt
  end.

(** kernel/src/ipc.rs:438-456 [deliver_pending_irqs] *)
Definition deliver_pending_irqs : M unit :=
  w ← get;
  match IRQ_EVENTS w with
  | Some drained => put (with_events (Some []) w);; for_each drained deliver_irq
  | None => mret tt
  end.
End ipc.
