(* ===== verification/IpcProps.v ===== *)
(** * IPC: properties

    The registry refines a map of bounded message queues; every use of an
    endpoint is authorised by a handle on that very endpoint; hanging up
    leaves nothing behind. *)
From S2P Require Import Prelude Abi Cap CapInv CapProps CapStatics Process WaitQueue Sched SchedProps Channel Ipc.

(** ** Authority over an endpoint *)

(** The handle [h] gives right [r] on the object of [target], both being open. *)
Definition authorised (st : CoreState) (h target : CapHandle) (r : Rights) : Prop :=
  ∃ s t o, denotes st h s ∧ denotes st target t ∧ object_idx s = object_idx t ∧
    contains (rights s) r = true ∧ ¬ lineage_revoked (nodes st) (node_idx s) ∧
    objects st !! object_idx s = Some o ∧ valid o = true.

Lemma authorised_inv st h target r s t :
  denotes st h s → denotes st target t → authorised st h target r →
  object_idx s = object_idx t ∧ contains (rights s) r = true ∧ ¬ lineage_revoked (nodes st) (node_idx s) ∧
  ∃ o, objects st !! object_idx s = Some o ∧ valid o = true.
Proof.
  intros Hs Ht (s' & t' & o & Hs' & Ht' & ?).
  rewrite (denotes_fun _ _ _ _ Hs Hs'), (denotes_fun _ _ _ _ Ht Ht'). naive_solver.
Qed.

Lemma open_pair st h target s t :
  slots st !! slot h = Some s → slots st !! slot target = Some t →
  (free s || negb (slot_generation s =? generation h)%Z || free t
   || negb (slot_generation t =? generation target)%Z) = false →
  denotes st h s ∧ denotes st target t.
Proof. intros Hs Ht ?. reflect. done. Qed.

Lemma check_rights_for_object_spec h target r st :
  cap_wf st →
  wp (check_rights_for_object h target r)
     (λ res st', st' = st ∧ match res with
      | Ok _ => authorised st h target r
      | Err _ => ¬ authorised st h target r
      | Panic => False
      end) st.
Proof.
  intros Hwf. unfold check_rights_for_object. wp_steps.
  - split; [done|]. intros (s & t & o & (Hs & _) & (Ht & _) & _). apply lookup_lt_Some in Hs, Ht.
    reflect. destruct H as [?|?]; reflect; lia.
  - match goal with H : slots st !! slot h = None |- _ => apply lookup_ge_None in H end. reflect. lia.
  - match goal with H : slots st !! slot target = None |- _ => apply lookup_ge_None in H end. reflect. lia.
  - split; [done|]. intros (s & t & o & (Hs & Hf & Hg) & (Ht & Hf' & Hg') & _). simplify_eq.
    rewrite Hf, Hf', Hg, Hg', !Z.eqb_refl in *. done.
  - destruct (open_pair st h target _ _ ltac:(eassumption) ltac:(eassumption) ltac:(eassumption)) as [Hs Ht].
    split; [done|]. intros (He & _)%(authorised_inv _ _ _ _ _ _ Hs Ht). reflect. done.
  - destruct (open_pair st h target _ _ ltac:(eassumption) ltac:(eassumption) ltac:(eassumption)) as [Hs Ht].
    split; [done|]. intros (_ & He & _)%(authorised_inv _ _ _ _ _ _ Hs Ht). reflect. congruence.
  - destruct (open_pair st h target _ _ ltac:(eassumption) ltac:(eassumption) ltac:(eassumption)) as [Hs Ht].
    pose proof (authorised_inv _ _ _ r _ _ Hs Ht) as Honly. reflect.
    pose proof (denotes_node _ _ _ Hwf Hs) as [Hnode Hob].
    apply wp_reject_revoked; [done|done| |].
    { intros ?. split; [done|]. by intros (_ & _ & ? & _)%Honly. }
    intros Hnr. wp_step. apply wp_valid_object; [done| |].
    { intros o ? ?. split; [done|]. intros (_ & _ & _ & o' & ? & ?)%Honly. congruence. }
    intros o Ho Hv. wp_step. split; [done|]. by eexists _, _, o.
Qed.

(** ** What the calls do to the message queues *)

(** The two worlds differ in capabilities and scheduling only. *)
Definition same_statics (w w' : IpcWorld) : Prop := ∃ c s, w' = with_caps c (with_sched s w).

#[export] Instance same_statics_refl : Reflexive same_statics.
Proof. intros w. exists (caps w), (sched w). by destruct w. Qed.
#[export] Instance same_statics_trans : Transitive same_statics.
Proof. intros w1 w2 w3 (c & s & ->) (c' & s' & ->). by exists c', s'. Qed.

Lemma same_statics_with_sched s w : same_statics w (with_sched s w).
Proof. exists (caps w), s. by destruct w. Qed.
Lemma same_statics_with_caps c w : same_statics w (with_caps c w).
Proof. exists c, (sched w). by destruct w. Qed.

Lemma wp_cap_call {A} (m : comp CoreState CapError A) Q w :
  (∀ r w', same_statics w w' → Q r w') → wp (cap_call m) Q w.
Proof. intros HQ. apply wp_zoom, wp_intro, HQ, same_statics_with_caps. Qed.

Lemma wp_final_cap attached mode Q w :
  (∀ r w', same_statics w w' → Q r w') → wp (final_cap attached mode) Q w.
Proof.
  intros HQ. unfold final_cap. destruct attached as [h|]; [|by apply wp_ret, HQ].
  destruct mode; [by apply wp_ret, HQ|..]; apply wp_bind, wp_cap_call; intros [a|e|] w' Hw; by apply HQ.
Qed.

(** The buffer after an operation on a channel: one message more at the back,
    one less at the front, or the same. *)
Definition pushed {A} (m : A) (c c' : Channel A) : Prop :=
  buffer c' = buffer c ++ [m] ∧ length (buffer c) < ch_capacity c ∧ ch_capacity c' = ch_capacity c.
Definition popped {A} (m : A) (c c' : Channel A) : Prop :=
  buffer c = m :: buffer c' ∧ ch_capacity c' = ch_capacity c.
Definition kept {A} (c c' : Channel A) : Prop := buffer c' = buffer c ∧ ch_capacity c' = ch_capacity c.

Section channel_effects.
Context {A : Type}.
Implicit Types c : Channel A.

Lemma wp_wake_one_on q (Q : outcome CapError (option Z * WaitQueue) → Scheduler → Prop) s :
  Q Panic s → (∀ r s', Q (Ok r) s') → wp (wake_one_on q) Q s.
Proof. intros HP HO. unfold wake_one_on. wp_steps; [done|]. destruct a as [[o q'] s']. wp_steps. done. Qed.

Lemma wp_prepare_wait_on cpu reason q (Q : outcome CapError WaitQueue → Scheduler → Prop) s :
  Q Panic s → (∀ r s', Q (Ok r) s') → wp (prepare_wait_on cpu reason q) Q s.
Proof. intros HP HO. unfold prepare_wait_on. wp_steps; [done|]. destruct a as [q' s']. wp_steps. done. Qed.

Lemma chan_send_round_effect cpu m c s :
  wp (chan_send_round (E := CapError) cpu m c) (λ r _, match r with
    | Ok (Finished _, c') => pushed m c c'
    | Ok (Blocks, c') => kept c c' ∧ ch_capacity c ≤ length (buffer c)
    | Err _ => False
    | Panic => True end) s.
Proof.
  unfold chan_send_round. destruct (_ <? _)%nat eqn:Hlen; reflect; wp_step.
  - apply wp_wake_one_on; [done|]. intros [o q] s'. by wp_step.
  - apply wp_prepare_wait_on; [done|]. intros q s'. by wp_step.
Qed.

Lemma chan_try_send_effect m c s :
  wp (chan_try_send (E := CapError) m c) (λ r _, match r with
    | Ok (true, c') => pushed m c c'
    | Ok (false, c') => c' = c ∧ ch_capacity c ≤ length (buffer c)
    | Err _ => False
    | Panic => True end) s.
Proof.
  unfold chan_try_send. destruct (_ <=? _)%nat eqn:Hlen; reflect; wp_step; [done|].
  apply wp_wake_one_on; [done|]. intros [o q] s'. by wp_step.
Qed.

Lemma chan_try_recv_effect c s :
  wp (chan_try_recv (E := CapError) c) (λ r _, match r with
    | Ok (Some m, c') => popped m c c'
    | Ok (None, c') => c' = c ∧ buffer c = []
    | Err _ => False
    | Panic => True end) s.
Proof.
  unfold chan_try_recv. destruct (buffer c) as [|m b] eqn:Hb; wp_step; [done|].
  apply wp_wake_one_on; [done|]. intros [o q] s'. wp_step. by split.
Qed.
End channel_effects.

Lemma wp_on_sched {A} (m : comp Scheduler CapError A) (P : outcome CapError A → Scheduler → Prop) Q w :
  wp m P (sched w) → (∀ r s', P r s' → Q r (with_sched s' w)) → wp (on_sched m) Q w.
Proof. intros Hm HQ. apply wp_zoom. eapply wp_mono; [exact Hm|auto]. Qed.

Ltac statics := eauto using same_statics_with_sched, same_statics_with_caps, same_statics_trans, same_statics_refl.

Lemma cap_channel_send_effect cpu ch h data attached mode w :
  wp (cap_channel_send cpu ch h data attached mode) (λ r w', same_statics w w' ∧ match r with
    | Ok (Finished _, ch') => ∃ h', pushed (mkMessage data h' mode) (inner ch) (inner ch')
    | Ok (Blocks, ch') => kept (inner ch) (inner ch')
    | _ => True end) w.
Proof.
  unfold cap_channel_send. wp_step. apply wp_cap_call. intros [[]|e|] w1 Hw1; [|done..].
  wp_step. apply wp_final_cap. intros [h'|e|] w2 Hw2; [|statics..].
  wp_step. eapply wp_on_sched; [apply chan_send_round_effect|]. intros [[r c]|e|] s' Hr; [|done|statics].
  cbn in Hr. wp_steps. destruct r; (split; [statics|]); naive_solver.
Qed.

Lemma cap_channel_try_send_effect ch h data attached mode w :
  wp (cap_channel_try_send ch h data attached mode) (λ r w', same_statics w w' ∧ match r with
    | Ok ch' => ∃ h', pushed (mkMessage data h' mode) (inner ch) (inner ch')
    | _ => True end) w.
Proof.
  unfold cap_channel_try_send. wp_step. apply wp_cap_call. intros [[]|e|] w1 Hw1; [|done..].
  wp_step. apply wp_final_cap. intros [h'|e|] w2 Hw2; [|statics..].
  wp_step. eapply wp_on_sched; [apply chan_try_send_effect|]. intros [[r c]|e|] s' Hr; [|done|statics].
  cbn in Hr. wp_steps; reflect; subst; (split; [statics|]); naive_solver.
Qed.

Lemma cap_channel_try_recv_effect ch h w :
  wp (cap_channel_try_recv ch h) (λ r w', same_statics w w' ∧ match r with
    | Ok (Some m, ch') => popped m (inner ch) (inner ch')
    | Ok (None, ch') => ch' = ch ∧ buffer (inner ch) = []
    | _ => True end) w.
Proof.
  unfold cap_channel_try_recv. wp_step. apply wp_cap_call. intros [[]|e|] w1 Hw1; [|done..].
  wp_step. eapply wp_on_sched; [apply chan_try_recv_effect|]. intros [[r c]|e|] s' Hr; [|done|statics].
  cbn in Hr. wp_steps. destruct r; (split; [statics|]); [done|]. destruct Hr as [-> ?]. by destruct ch.
Qed.

(** ** The abstract registry

    A map from endpoints to queues of payloads, and the events that change it. *)
Inductive ipc_event :=
| Opened (ep : Z)
| Sent (ep : Z) (data : bytes)
| Received (ep : Z) (data : bytes)
| Discarded (ep : Z) (n : nat)
| Closed (eps : list Z).

Definition queue_spec (e : ipc_event) (qs : gmap Z (list bytes)) : option (gmap Z (list bytes)) :=
  match e with
  | Opened ep => match qs !! ep with None => Some (<[ep := []]> qs) | Some _ => None end
  | Sent ep data =>
      q ← qs !! ep;
      if decide (length q < MAX_ENDPOINT_CAPACITY) then Some (<[ep := q ++ [data]]> qs) else None
  | Received ep data =>
      q ← qs !! ep;
      match q with d :: q => if decide (d = data) then Some (<[ep := q]> qs) else None | [] => None end
  | Discarded ep n => q ← qs !! ep; if decide (n ≤ length q) then Some (<[ep := drop n q]> qs) else None
  | Closed eps => Some (foldr delete qs eps)
  end.

Fixpoint history_spec (log : list ipc_event) (qs : gmap Z (list bytes)) : option (gmap Z (list bytes)) :=
  match log with
  | [] => Some qs
  | e :: log => qs ← queue_spec e qs; history_spec log qs
  end.

Lemma history_app log1 log2 qs :
  history_spec (log1 ++ log2) qs = qs' ← history_spec log1 qs; history_spec log2 qs'.
Proof. revert qs. induction log1 as [|e log1 IH]; intros qs; [done|]. cbn. destruct (queue_spec e qs); cbn; auto. Qed.

(** The calls on the registry, and the events their results report. *)
Inductive ipc_op :=
| OpCreate (capacity : nat)
| OpOwner (ep pid : Z)
| OpSend (cpu : nat) (ep : Z) (h : CapHandle) (data : bytes) (attached : option CapHandle) (mode : TransferMode)
| OpTrySend (ep : Z) (h : CapHandle) (data : bytes) (attached : option CapHandle) (mode : TransferMode)
| OpRecv (cpu : nat) (ep : Z) (h : CapHandle)
| OpResume (cpu : nat) (ep : Z)
| OpTryRecv (ep : Z) (h : CapHandle)
| OpCancel (ep : Z) (h : CapHandle)
| OpHangup (pid : Z)
| OpBind (device : CapHandle) (irq ep : Z) (writer : CapHandle)
| OpUnbind (device : CapHandle) (irq : Z)
| OpInitIrq
| OpIrq (irq payload : Z)
| OpDeliver.

Local Abbreviation M := (comp IpcWorld CapError).

(** [deliver_irq] with a report. *)
Definition deliver_irq_reporting (e : Z * Z) : M (list ipc_event) :=
  w ← get;
  match IRQ_BINDINGS w !! e.1 with
  | Some b =>
      r ← attempt (raw_ipc_try_send (bound_ep b) (writer_cap b) [e.2] None ModeNone);
      mret (match r with inr _ => [Sent (bound_ep b) [e.2]] | inl _ => [] end)
  | None => mret []
  end.
Fixpoint deliver_reporting (es : list (Z * Z)) : M (list ipc_event) :=
  match es with
  | [] => mret []
  | e :: es => log ← deliver_irq_reporting e; log' ← deliver_reporting es; mret (log ++ log')
  end.

Definition ipc_exec (o : ipc_op) : M (list ipc_event) :=
  match o with
  | OpCreate capacity => '(ep, _) ← create_raw_endpoint capacity; mret [Opened ep]
  | OpOwner ep pid => register_endpoint_owner ep pid;; mret []
  | OpSend cpu ep h data attached mode => _ ← raw_ipc_send cpu ep h data attached mode; mret [Sent ep data]
  | OpTrySend ep h data attached mode => raw_ipc_try_send ep h data attached mode;; mret [Sent ep data]
  | OpRecv cpu ep h =>
      r ← raw_ipc_recv_round cpu ep h;
      mret (match r with Finished m => [Received ep (payload m)] | Blocks => [] end)
  | OpResume cpu ep => raw_ipc_recv_resume cpu ep;; mret []
  | OpTryRecv ep h =>
      m ← raw_ipc_try_recv ep h;
      mret (match m with Some m => [Received ep (payload m)] | None => [] end)
  | OpCancel ep h => n ← cancel_endpoint ep h; mret [Discarded ep n]
  | OpHangup pid =>
      w ← get; hangup_channel_for_pid pid;; mret [Closed (owned_endpoints pid (ENDPOINT_OWNERS w))]
  | OpBind device irq ep writer => bind_irq device irq ep writer;; mret []
  | OpUnbind device irq => unbind_irq device irq;; mret []
  | OpInitIrq => init_irq_notify;; mret []
  | OpIrq irq payload => modify (irq_event irq payload);; mret []
  | OpDeliver =>
      w ← get;
      match IRQ_EVENTS w with
      | Some drained => put (with_events (Some []) w);; deliver_reporting drained
      | None => mret []
      end
  end.

(** Reporting does not change what is done. *)
Lemma deliver_irq_reporting_erased e w :
  deliver_irq e w = (deliver_irq_reporting e ≫= λ _, mret tt) w.
Proof.
  unfold deliver_irq, deliver_irq_reporting, mbind, comp_bind, get, ignore, attempt, mbind, comp_bind. cbn.
  destruct (IRQ_BINDINGS w !! e.1) as [b|]; [|done].
  by destruct (raw_ipc_try_send _ _ _ _ _ w) as [[a|err|] w'].
Qed.

Lemma deliver_reporting_erased es w :
  for_each es deliver_irq w = (deliver_reporting es ≫= λ _, mret tt) w.
Proof.
  revert w. induction es as [|e es IH]; intros w; [done|]. cbn.
  unfold mbind, comp_bind at 1. rewrite deliver_irq_reporting_erased. unfold mbind, comp_bind, mret, comp_ret.
  destruct (deliver_irq_reporting e w) as [[log|err|] w']; [|done..]. rewrite IH. unfold mbind, comp_bind, mret, comp_ret.
  by destruct (deliver_reporting es w') as [[log'|err|] w''].
Qed.

Lemma deliver_pending_irqs_reported w :
  deliver_pending_irqs w = (ipc_exec OpDeliver ≫= λ _, mret tt) w.
Proof.
  cbn. unfold deliver_pending_irqs, mbind, comp_bind, get, put. destruct (IRQ_EVENTS w) as [es|]; [|done].
  apply deliver_reporting_erased.
Qed.

(** ** The registry refines the abstract one *)

Definition queues (w : IpcWorld) : gmap Z (list bytes) := (λ ch, payload <$> buffer (inner ch)) <$> ENDPOINTS w.

(** Numbers are fresh and channels within their bounds. *)
Record registry_ok (w : IpcWorld) : Prop := {
  ok_fresh : ∀ ep ch, ENDPOINTS w !! ep = Some ch → (8 ≤ ep < NEXT_EP_ID w)%Z;
  ok_next : (8 ≤ NEXT_EP_ID w < 2 ^ 32)%Z;
  ok_count : size (ENDPOINTS w) ≤ MAX_ENDPOINTS;
  ok_bounds : ∀ ep ch, ENDPOINTS w !! ep = Some ch →
    1 ≤ ch_capacity (inner ch) ≤ MAX_ENDPOINT_CAPACITY ∧ length (buffer (inner ch)) ≤ ch_capacity (inner ch);
  ok_gate : IRQ_BINDINGS_NONEMPTY w = negb (bool_decide (IRQ_BINDINGS w = ∅));
  ok_irqs : ∀ q, IRQ_EVENTS w = Some q → length q ≤ IRQ_QUEUE_SIZE;
}.

Lemma queues_lookup w ep : queues w !! ep = (λ ch, payload <$> buffer (inner ch)) <$> ENDPOINTS w !! ep.
Proof. unfold queues. by rewrite lookup_fmap. Qed.

Lemma statics_endpoints w w' : same_statics w w' → ENDPOINTS w' = ENDPOINTS w.
Proof. by intros (c & s & ->). Qed.

Lemma statics_ok w w' : same_statics w w' → registry_ok w → registry_ok w'.
Proof. intros (c & s & ->) [H1 H2 H3 H4 H5 H6]. by split. Qed.

Lemma statics_queues w w' : same_statics w w' → queues w' = queues w.
Proof. intros Hs. unfold queues. by rewrite (statics_endpoints _ _ Hs). Qed.

(** Replacing a channel of the registry. *)
Lemma replace_ok w ep ch ch' :
  registry_ok w → ENDPOINTS w !! ep = Some ch →
  ch_capacity (inner ch') = ch_capacity (inner ch) → length (buffer (inner ch')) ≤ ch_capacity (inner ch) →
  registry_ok (with_endpoints (<[ep := ch']> (ENDPOINTS w)) w).
Proof.
  intros [H1 H2 H3 H4 H5 H6] Hch Hcap Hlen. split; cbn; try done.
  - intros e c [(<- & _)|(_ & ?)]%lookup_insert_Some; eauto.
  - rewrite map_size_insert_Some; [done|by eexists].
  - intros e c [(<- & <-)|(_ & ?)]%lookup_insert_Some; [|eauto]. rewrite Hcap. split; [|done]. by eapply H4.
Qed.

Lemma replace_queues w ep ch' :
  queues (with_endpoints (<[ep := ch']> (ENDPOINTS w)) w) = <[ep := payload <$> buffer (inner ch')]> (queues w).
Proof. unfold queues. cbn. by rewrite fmap_insert. Qed.

(** A call that ends in [w'] with report [log] is allowed by the specification. *)
Definition refines (w : IpcWorld) (log : list ipc_event) (w' : IpcWorld) : Prop :=
  registry_ok w' ∧ history_spec log (queues w) = Some (queues w').

Lemma refines_quiet w w' : registry_ok w → same_statics w w' → refines w [] w'.
Proof. intros Hok Hs. split; [by eapply statics_ok|]. cbn. by rewrite (statics_queues _ _ Hs). Qed.

Definition outcome_refines (w : IpcWorld) (r : outcome CapError (list ipc_event)) (w' : IpcWorld) : Prop :=
  match r with
  | Ok log => refines w log w'
  | Err _ => refines w [] w'
  | Panic => True
  end.

Lemma wp_lookup_endpoint ep (Q : outcome CapError CapChannel → IpcWorld → Prop) w :
  (ENDPOINTS w !! ep = None → Q (Err NotFound) w) → (∀ ch, ENDPOINTS w !! ep = Some ch → Q (Ok ch) w) →
  wp (lookup_endpoint ep) Q w.
Proof. intros HN HS. unfold lookup_endpoint. wp_steps; auto. Qed.

Lemma refines_push w w1 ep ch ch' data h mode :
  registry_ok w → same_statics w w1 → ENDPOINTS w !! ep = Some ch →
  pushed (mkMessage data h mode) (inner ch) (inner ch') →
  refines w [Sent ep data] (with_endpoints (<[ep := ch']> (ENDPOINTS w1)) w1).
Proof.
  intros Hok Hs Hch (Hb & Hlt & Hcap). pose proof (statics_ok _ _ Hs Hok) as Hok1.
  pose proof (ok_bounds _ Hok _ _ Hch) as [Hbound _].
  assert (ENDPOINTS w1 !! ep = Some ch) as Hch1 by (by rewrite (statics_endpoints _ _ Hs)).
  split.
  - eapply replace_ok; [done..|]. rewrite Hb, length_app. cbn. lia.
  - rewrite replace_queues, (statics_queues _ _ Hs). cbn. rewrite queues_lookup, Hch. cbn.
    rewrite decide_True by (rewrite length_fmap; lia). by rewrite Hb, fmap_app.
Qed.

Lemma refines_pop w w1 ep ch ch' m :
  registry_ok w → same_statics w w1 → ENDPOINTS w !! ep = Some ch → popped m (inner ch) (inner ch') →
  refines w [Received ep (payload m)] (with_endpoints (<[ep := ch']> (ENDPOINTS w1)) w1).
Proof.
  intros Hok Hs Hch (Hb & Hcap). pose proof (statics_ok _ _ Hs Hok) as Hok1.
  pose proof (ok_bounds _ Hok _ _ Hch) as [_ Hlen].
  assert (ENDPOINTS w1 !! ep = Some ch) as Hch1 by (by rewrite (statics_endpoints _ _ Hs)).
  split.
  - eapply replace_ok; [done..|]. rewrite Hb in Hlen. cbn in Hlen. lia.
  - rewrite replace_queues, (statics_queues _ _ Hs). cbn. rewrite queues_lookup, Hch. cbn.
    rewrite Hb. cbn. by rewrite decide_True.
Qed.

Lemma refines_keep w w1 ep ch ch' :
  registry_ok w → same_statics w w1 → ENDPOINTS w !! ep = Some ch → kept (inner ch) (inner ch') →
  refines w [] (with_endpoints (<[ep := ch']> (ENDPOINTS w1)) w1).
Proof.
  intros Hok Hs Hch (Hb & Hcap). pose proof (statics_ok _ _ Hs Hok) as Hok1.
  pose proof (ok_bounds _ Hok _ _ Hch) as [_ Hlen].
  assert (ENDPOINTS w1 !! ep = Some ch) as Hch1 by (by rewrite (statics_endpoints _ _ Hs)).
  split.
  - eapply replace_ok; [done..|]. by rewrite Hb.
  - rewrite replace_queues, (statics_queues _ _ Hs). cbn. rewrite insert_id; [done|].
    by rewrite queues_lookup, Hch, Hb.
Qed.

Lemma send_refines cpu ep h data attached mode w :
  registry_ok w → wp (ipc_exec (OpSend cpu ep h data attached mode)) (outcome_refines w) w.
Proof.
  intros Hok. cbn. wp_step. unfold raw_ipc_send. wp_step.
  apply wp_lookup_endpoint; [intros _; by apply refines_quiet|]. intros ch Hch.
  wp_step. eapply wp_mono; [apply cap_channel_send_effect|].
  intros [[r ch']|e|] w1 [Hs Hr]; [|by apply refines_quiet|done].
  wp_step. apply wp_modify. destruct r as [woken|]; wp_steps; [|done].
  destruct Hr as [h' Hp]. by eapply refines_push.
Qed.

Lemma raw_try_send_refines ep h data attached mode w :
  registry_ok w → wp (raw_ipc_try_send ep h data attached mode) (λ r w', match r with
    | Ok _ => refines w [Sent ep data] w'
    | Err _ => refines w [] w'
    | Panic => True end) w.
Proof.
  intros Hok. unfold raw_ipc_try_send. wp_step.
  apply wp_lookup_endpoint; [intros _; by apply refines_quiet|]. intros ch Hch.
  wp_step. eapply wp_mono; [apply cap_channel_try_send_effect|].
  intros [ch'|e|] w1 [Hs Hr]; [|by apply refines_quiet|done].
  apply wp_modify. destruct Hr as [h' Hp]. by eapply refines_push.
Qed.

Lemma try_recv_refines ep h w :
  registry_ok w → wp (ipc_exec (OpTryRecv ep h)) (outcome_refines w) w.
Proof.
  intros Hok. cbn. wp_step. unfold raw_ipc_try_recv. wp_step.
  apply wp_lookup_endpoint; [intros _; by apply refines_quiet|]. intros ch Hch.
  wp_step. eapply wp_mono; [apply cap_channel_try_recv_effect|].
  intros [[m ch']|e|] w1 [Hs Hr]; [|by apply refines_quiet|done].
  wp_step. apply wp_modify. wp_steps. destruct m as [m|]; [by eapply refines_pop|].
  eapply refines_keep; [done..|]. destruct Hr as [-> _]. done.
Qed.

Lemma recv_refines cpu ep h w :
  registry_ok w → wp (ipc_exec (OpRecv cpu ep h)) (outcome_refines w) w.
Proof.
  intros Hok. cbn. wp_step. unfold raw_ipc_recv_round. wp_step.
  apply wp_lookup_endpoint; [intros _; by apply refines_quiet|]. intros ch Hch.
  wp_step. eapply wp_mono; [apply cap_channel_try_recv_effect|].
  intros [[m ch']|e|] w1 [Hs Hr]; [|by apply refines_quiet|done].
  destruct m as [m|].
  - wp_step. apply wp_modify. wp_steps. by eapply refines_pop.
  - wp_step. eapply wp_on_sched; [apply wp_prepare_wait_on with (Q := λ r _, match r with Err _ => False | _ => True end); done|].
    intros [q|e|] s' Hq; [|done..]. wp_step. apply wp_modify. wp_steps.
    eapply (refines_keep w (with_sched s' w1)); [done|statics|done|]. destruct Hr as [-> _]. done.
Qed.

Lemma wp_finish_wait_on cpu q (Q : outcome CapError WaitQueue → Scheduler → Prop) s :
  (∀ q' s', Q (Ok q') s') → wp (finish_wait_on cpu q) Q s.
Proof. intros HQ. unfold finish_wait_on. wp_steps. destruct (finish_wait cpu q s) as [q' s']. wp_steps. done. Qed.

Lemma resume_refines cpu ep w :
  registry_ok w → wp (ipc_exec (OpResume cpu ep)) (outcome_refines w) w.
Proof.
  intros Hok. cbn. wp_step. unfold raw_ipc_recv_resume. wp_steps.
  destruct (ENDPOINTS w !! ep) as [ch|] eqn:Hch.
  - wp_step. eapply wp_on_sched;
      [apply wp_finish_wait_on with (Q := λ r _, match r with Ok _ => True | _ => False end); done|].
    intros [q|e|] s' Hq; [|done..]. apply wp_modify. wp_steps. eapply refines_keep; [done|statics|done|done].
  - destruct (current_for_cpu cpu (sched w)) as [cur|]; wp_steps; [|by apply refines_quiet].
    apply refines_quiet; [done|statics].
Qed.

(** Draining a channel takes messages off its front. *)
Lemma drain_effect fuel ch h n w :
  wp (drain_endpoint fuel ch h n) (λ r w', same_statics w w' ∧ match r with
    | Ok (n', ch') => ∃ k, n' = n + k ∧ k ≤ length (buffer (inner ch)) ∧
        buffer (inner ch') = drop k (buffer (inner ch)) ∧ ch_capacity (inner ch') = ch_capacity (inner ch)
    | Err _ => False
    | Panic => True end) w.
Proof.
  revert ch n w. induction fuel as [|fuel IH]; intros ch n w; cbn [drain_endpoint]; [by wp_step|].
  wp_step. wp_step. eapply wp_mono; [apply cap_channel_try_recv_effect|].
  assert (∃ k, n = n + k ∧ k ≤ length (buffer (inner ch)) ∧ buffer (inner ch) = drop k (buffer (inner ch))
    ∧ ch_capacity (inner ch) = ch_capacity (inner ch)) as Hstop by (exists 0; split_and!; [lia..|done|done]).
  intros [[[m|] ch']|e|] w1 [Hs Hr]; [|by wp_step..|done].
  destruct Hr as [Hb Hcap]. wp_step.
  assert (∀ w2, same_statics w1 w2 → wp (drain_endpoint fuel ch' h (S n)) (λ r w', same_statics w w' ∧ match r with
    | Ok (n', ch') => ∃ k, n' = n + k ∧ k ≤ length (buffer (inner ch)) ∧
        buffer (inner ch') = drop k (buffer (inner ch)) ∧ ch_capacity (inner ch') = ch_capacity (inner ch)
    | Err _ => False | Panic => True end) w2) as Hrest.
  { intros w2 Hw2. eapply wp_mono; [apply IH|]. intros [[n' ch'']|e|] w3 [Hs3 Hr3]; (split; [statics|]); try done.
    destruct Hr3 as (k & -> & Hk & Hb' & Hc'). exists (S k). rewrite Hb. cbn. split_and!; [lia|lia|done|congruence]. }
  destruct (capability m) as [attached|]; [|wp_step; by apply Hrest].
  wp_step. apply wp_cap_call. intros [a|e|] w2 Hw2; [by apply Hrest..|split; [statics|done]].
Qed.

Lemma cancel_refines ep h w :
  registry_ok w → wp (ipc_exec (OpCancel ep h)) (outcome_refines w) w.
Proof.
  intros Hok. cbn. wp_step. unfold cancel_endpoint. wp_step.
  apply wp_lookup_endpoint; [intros _; by apply refines_quiet|]. intros ch Hch.
  wp_step. eapply wp_mono; [apply drain_effect|]. intros [[n ch']|e|] w1 [Hs Hr]; [|done..].
  wp_step. apply wp_modify. wp_steps. destruct Hr as (k & -> & Hk & Hb & Hcap).
  pose proof (statics_ok _ _ Hs Hok) as Hok1. pose proof (ok_bounds _ Hok _ _ Hch) as [_ Hlen].
  split.
  - eapply replace_ok; [done|by rewrite (statics_endpoints _ _ Hs)|done|]. rewrite Hb, length_drop. lia.
  - rewrite replace_queues, (statics_queues _ _ Hs). cbn. rewrite queues_lookup, Hch. cbn.
    rewrite decide_True by (by rewrite length_fmap). by rewrite Hb, fmap_drop.
Qed.

(** *** Hanging up *)

(** The registry without the endpoints [eps]. *)
Record hung (eps : list Z) (w w' : IpcWorld) : Prop := {
  hung_endpoints : ENDPOINTS w' = foldr delete (ENDPOINTS w) eps;
  hung_owners : ENDPOINT_OWNERS w' = foldr delete (ENDPOINT_OWNERS w) eps;
  hung_next : NEXT_EP_ID w' = NEXT_EP_ID w;
  hung_irqs : IRQ_BINDINGS w' = filter (λ e, bound_ep e.2 ∉ eps) (IRQ_BINDINGS w);
  hung_gate : IRQ_BINDINGS_NONEMPTY w' = IRQ_BINDINGS_NONEMPTY w;
  hung_events : IRQ_EVENTS w' = IRQ_EVENTS w;
}.

Lemma hung_nil w : hung [] w w.
Proof.
  split; try done. symmetry. apply map_filter_id. intros i b _. apply not_elem_of_nil.
Qed.

Lemma foldr_delete_swap {A} (m : gmap Z A) x eps : foldr delete (delete x m) eps = delete x (foldr delete m eps).
Proof. induction eps as [|e eps IH]; [done|]. cbn. by rewrite IH, delete_delete. Qed.

Lemma hung_cons ep eps w1 w2 w3 : hung [ep] w1 w2 → hung eps w2 w3 → hung (ep :: eps) w1 w3.
Proof.
  intros [H1 H2 H3 H4 H5 H6] [G1 G2 G3 G4 G5 G6]. split; [|..|congruence|congruence]; cbn in *.
  - by rewrite G1, H1, foldr_delete_swap.
  - by rewrite G2, H2, foldr_delete_swap.
  - congruence.
  - rewrite G4, H4, map_filter_filter. apply map_filter_ext. intros i b _. rewrite !not_elem_of_cons.
    cbn. pose proof (not_elem_of_nil (bound_ep b)). tauto.
Qed.

Lemma wp_wake_all_on q (Q : outcome CapError WaitQueue → Scheduler → Prop) s :
  Q Panic s → (∀ q' s', Q (Ok q') s') → wp (wake_all_on q) Q s.
Proof. intros HP HO. unfold wake_all_on. wp_steps; [done|]. destruct a as [[o q'] s']. wp_steps. done. Qed.

Lemma shut_channel_effect ch w :
  wp (shut_channel ch) (λ r w', same_statics w w' ∧ match r with Err _ => False | _ => True end) w.
Proof.
  unfold shut_channel. wp_step.
  eapply wp_on_sched; [apply wp_wake_all_on with (Q := λ r _, match r with Err _ => False | _ => True end); done|].
  intros [q|e|] s1 Hq; [|done|split; [statics|done]]. wp_step.
  eapply wp_on_sched; [apply wp_wake_all_on with (Q := λ r _, match r with Err _ => False | _ => True end); done|].
  intros [q'|e|] s2 Hq'; [|done|split; [statics|done]]. wp_step.
  eapply wp_mono; [apply drain_effect|]. intros [[n c]|e|] w1 [Hs Hr]; [wp_step|done|]; (split; [statics|done]).
Qed.

Lemma hangup_endpoint_effect ep w :
  wp (hangup_endpoint ep) (λ r w', match r with Ok _ => hung [ep] w w' | Err _ => False | Panic => True end) w.
Proof.
  unfold hangup_endpoint. wp_steps. destruct (ENDPOINTS w !! ep) as [ch|] eqn:Hch; cbn [ENDPOINTS with_owners].
  - rewrite Hch. wp_steps. eapply wp_mono; [apply shut_channel_effect|].
    intros [[]|e|] w1 [(c & s & ->) Hr]; [|done..]. wp_steps. split; cbn; try done.
    apply map_filter_ext. intros i b _. by rewrite list_elem_of_singleton.
  - rewrite Hch. wp_steps. split; cbn; try done.
    + by rewrite delete_id.
    + apply map_filter_ext. intros i b _. by rewrite list_elem_of_singleton.
Qed.

Lemma hangup_all_effect eps w :
  wp (for_each eps hangup_endpoint) (λ r w', match r with Ok _ => hung eps w w' | Err _ => False | Panic => True end) w.
Proof.
  revert w. induction eps as [|ep eps IH]; intros w; [apply hung_nil|]. cbn [for_each]. wp_step.
  eapply wp_mono; [apply hangup_endpoint_effect|]. intros [[]|e|] w1 H1; [|done..].
  eapply wp_mono; [apply IH|]. intros [[]|e|] w2 H2; [|done..]. by eapply hung_cons.
Qed.

Lemma lookup_foldr_delete {A} (m : gmap Z A) eps e :
  foldr delete m eps !! e = if decide (e ∈ eps) then None else m !! e.
Proof.
  induction eps as [|x eps IH]; cbn.
  { rewrite decide_False; [done|apply not_elem_of_nil]. }
  destruct (decide (e = x)) as [->|Hne].
  - rewrite lookup_delete_eq, decide_True; [done|left].
  - rewrite lookup_delete_ne, IH by done. assert (e ∈ x :: eps ↔ e ∈ eps) by (rewrite elem_of_cons; tauto).
    do 2 case_decide; tauto || done.
Qed.

Lemma size_foldr_delete {A} (m : gmap Z A) eps : size (foldr delete m eps) ≤ size m.
Proof.
  apply map_subseteq_size, map_subseteq_spec. intros e a. rewrite lookup_foldr_delete. by case_decide.
Qed.

Lemma fmap_foldr_delete {A B} (f : A → B) (m : gmap Z A) eps :
  f <$> foldr delete m eps = foldr delete (f <$> m) eps.
Proof. induction eps as [|x eps IH]; [done|]. cbn. by rewrite fmap_delete, IH. Qed.

Definition gate_shut (w : IpcWorld) : IpcWorld := if bool_decide (IRQ_BINDINGS w = ∅) then with_gate false w else w.

Lemma gate_shut_same w :
  ENDPOINTS (gate_shut w) = ENDPOINTS w ∧ NEXT_EP_ID (gate_shut w) = NEXT_EP_ID w ∧
  IRQ_BINDINGS (gate_shut w) = IRQ_BINDINGS w ∧ IRQ_EVENTS (gate_shut w) = IRQ_EVENTS w.
Proof. unfold gate_shut. by case_bool_decide. Qed.

Lemma hung_refines eps w w' : registry_ok w → hung eps w w' → refines w [Closed eps] (gate_shut w').
Proof.
  intros [H1 H2 H3 H4 H5 H6] [G1 G2 G3 G4 G5 G6].
  destruct (gate_shut_same w') as (E1 & E2 & E3 & E4).
  split.
  - split; rewrite ?E1, ?E2, ?E3, ?E4, ?G3, ?G6; try done.
    + intros ep ch. rewrite G1, lookup_foldr_delete. case_decide; [done|apply H1].
    + rewrite G1. etrans; [apply size_foldr_delete|done].
    + intros ep ch. rewrite G1, lookup_foldr_delete. case_decide; [done|apply H4].
    + unfold gate_shut. destruct (decide (IRQ_BINDINGS w' = ∅)) as [He|He];
        [by rewrite !bool_decide_eq_true_2|]. rewrite !(bool_decide_eq_false_2 _ He), G5, H5.
      rewrite bool_decide_eq_false_2; [done|]. intros He'. apply He. rewrite G4, He'. apply map_filter_empty.
  - cbn. unfold queues. by rewrite E1, G1, fmap_foldr_delete.
Qed.

Lemma hangup_refines pid w :
  registry_ok w → wp (ipc_exec (OpHangup pid)) (outcome_refines w) w.
Proof.
  intros Hok. cbn. wp_steps. unfold hangup_channel_for_pid. wp_steps.
  destruct (owned_endpoints pid (ENDPOINT_OWNERS w)) as [|ep eps] eqn:Ho.
  { wp_steps. by split. }
  wp_step. eapply wp_mono; [apply hangup_all_effect|]. intros [[]|e|] w1 H1; [|done..].
  wp_step. wp_steps. by apply hung_refines.
Qed.

(** *** The other calls *)

Lemma create_refines capacity w :
  registry_ok w → (NEXT_EP_ID w + 1 < 2 ^ 32)%Z → wp (ipc_exec (OpCreate capacity)) (outcome_refines w) w.
Proof.
  intros Hok Hnext. cbn. wp_step. unfold create_raw_endpoint. wp_steps; [by apply refines_quiet..|]. reflect.
  unfold cap_channel_new. wp_step. apply wp_cap_call. intros [h|e|] w1 Hs; [|by apply refines_quiet|done].
  wp_steps. pose proof Hs as (c & s & ->). pose proof Hok as [K1 K2 K3 K4 K5 K6]. cbn in *.
  assert (ENDPOINTS w !! NEXT_EP_ID w = None) as Hfree.
  { apply eq_None_not_Some. intros [ch Hch]. apply K1 in Hch. lia. }
  unfold wrap. rewrite Z.mod_small by lia. split.
  - split; cbn; try done.
    + intros ep ch [(<- & _)|(_ & Hch)]%lookup_insert_Some; [lia|]. apply K1 in Hch. lia.
    + lia.
    + rewrite map_size_insert_None by done. lia.
    + intros ep ch [(<- & <-)|(_ & Hch)]%lookup_insert_Some; [cbn; lia|eauto].
  - cbn. rewrite queues_lookup, Hfree. cbn. unfold queues. cbn. by rewrite fmap_insert.
Qed.

Lemma gate_effect device (Q : outcome CapError unit → IpcWorld → Prop) w :
  (∀ r w', same_statics w w' → Q r w') → wp (device_gate device) Q w.
Proof.
  intros HQ. unfold device_gate. wp_step. apply wp_cap_call. intros [[]|e|] w1 H1; [|by apply HQ..].
  wp_step. apply wp_cap_call. intros [id|e|] w2 H2; [|apply HQ; statics..].
  wp_step; apply HQ; statics.
Qed.

Lemma refines_irqs w w1 b g :
  registry_ok w → same_statics w w1 → g = negb (bool_decide (b = ∅)) →
  refines w [] (with_gate g (with_irqs b w1)).
Proof.
  intros Hok (c & s & ->) ->. destruct Hok as [H1 H2 H3 H4 H5 H6]. split; [split; done|done].
Qed.

Lemma bind_refines device irq ep writer w :
  registry_ok w → wp (ipc_exec (OpBind device irq ep writer)) (outcome_refines w) w.
Proof.
  intros Hok. cbn. wp_step. unfold bind_irq. wp_step. apply gate_effect.
  intros [[]|e|] w1 H1; [|by apply refines_quiet|done]. wp_step.
  wp_step; [by apply refines_quiet|]. wp_step. apply wp_lookup_endpoint; [intros _; by apply refines_quiet|].
  intros ch Hch. wp_step. apply wp_cap_call. intros [[]|e|] w2 H2; [|apply refines_quiet; [done|statics]|done].
  wp_steps. apply refines_irqs; [done|statics|]. rewrite bool_decide_eq_false_2; [done|apply insert_non_empty].
Qed.

Lemma gate_after_delete (b : gmap Z IrqBinding) irq :
  (if bool_decide (delete irq b = ∅) then false else negb (bool_decide (b = ∅))) =
  negb (bool_decide (delete irq b = ∅)).
Proof.
  destruct (decide (delete irq b = ∅)) as [He|He]; [by rewrite !(bool_decide_eq_true_2 _ He)|].
  rewrite !(bool_decide_eq_false_2 _ He), bool_decide_eq_false_2; [done|]. intros ->. by rewrite delete_empty in He.
Qed.

Lemma unbind_refines device irq w :
  registry_ok w → wp (ipc_exec (OpUnbind device irq)) (outcome_refines w) w.
Proof.
  intros Hok. cbn. wp_step. unfold unbind_irq. wp_step. apply gate_effect.
  intros [[]|e|] w1 H1; [|by apply refines_quiet|done]. wp_steps.
  all: apply refines_irqs; [done|statics|].
  all: rewrite (ok_gate _ (statics_ok _ _ H1 Hok)); apply gate_after_delete.
Qed.

Lemma refines_events w q : registry_ok w → length q ≤ IRQ_QUEUE_SIZE → refines w [] (with_events (Some q) w).
Proof. intros [H1 H2 H3 H4 H5 H6] Hq. split; [split; cbn; try done|done]. by intros ? [= <-]. Qed.

Lemma irq_refines irq data w : registry_ok w → refines w [] (irq_event irq data w).
Proof.
  intros Hok. unfold irq_event. destruct (IRQ_BINDINGS_NONEMPTY w); [|by apply refines_quiet].
  destruct (IRQ_EVENTS w) as [q|]; [|by apply refines_quiet].
  destruct (_ <? _)%nat eqn:Hq; [|by apply refines_quiet]. reflect. apply refines_events; [done|].
  rewrite length_app. cbn. lia.
Qed.

Lemma refines_trans w log1 w1 log2 w2 :
  refines w log1 w1 → refines w1 log2 w2 → refines w (log1 ++ log2) w2.
Proof. intros [_ H1] [Hok H2]. split; [done|]. rewrite history_app, H1. done. Qed.

Lemma deliver_refines es w :
  registry_ok w → wp (deliver_reporting es) (λ r w', match r with Err _ => False | _ => outcome_refines w r w' end) w.
Proof.
  revert w. induction es as [|e es IH]; intros w Hok; cbn [deliver_reporting].
  { wp_step. by apply refines_quiet. }
  wp_step. unfold deliver_irq_reporting. wp_steps.
  assert (∀ log w1, refines w log w1 → wp (deliver_reporting es ≫= λ log', mret (log ++ log'))
    (λ r w', match r with Err _ => False | _ => outcome_refines w r w' end) w1) as Hrest.
  { intros log w1 H1. wp_step. eapply wp_mono; [apply IH, H1|]. intros [log'|err|] w2 H2; [|done..].
    wp_step. by eapply refines_trans. }
  destruct (IRQ_BINDINGS w !! e.1) as [b|].
  - wp_steps. eapply wp_mono; [by apply raw_try_send_refines|]. intros [[]|err|] w1 H1; [..|done];
      wp_step; cbv beta iota; by apply Hrest.
  - wp_step. cbv beta iota. by apply Hrest, refines_quiet.
Qed.

(** ** Histories *)

(** Endpoint numbers are not reused while the counter has not wrapped. *)
Definition numbers_left (o : ipc_op) (w : IpcWorld) : Prop :=
  match o with OpCreate _ => (NEXT_EP_ID w + 1 < 2 ^ 32)%Z | _ => True end.

Definition report (r : outcome CapError (list ipc_event)) : list ipc_event :=
  match r with Ok log => log | _ => [] end.

Lemma ipc_exec_refines o w :
  registry_ok w → numbers_left o w → wp (ipc_exec o) (outcome_refines w) w.
Proof.
  intros Hok Hn. destruct o.
  - by apply create_refines.
  - cbn. wp_steps. destruct Hok. by split.
  - by apply send_refines.
  - cbn. wp_step. eapply wp_mono; [by apply raw_try_send_refines|]. intros [[]|e|] w1 H1; [by wp_step|done..].
  - by apply recv_refines.
  - by apply resume_refines.
  - by apply try_recv_refines.
  - by apply cancel_refines.
  - by apply hangup_refines.
  - by apply bind_refines.
  - by apply unbind_refines.
  - cbn. unfold init_irq_notify. wp_steps. destruct (IRQ_EVENTS w) eqn:Hq; [by apply refines_quiet|].
    apply refines_events; [done|]. cbn. lia.
  - cbn. wp_steps. by apply irq_refines.
  - cbn. wp_steps. destruct (IRQ_EVENTS w) as [es|]; [|wp_steps; by apply refines_quiet]. wp_steps.
    assert (refines w [] (with_events (Some []) w)) as [Hok' Hq] by (apply refines_events; [done|apply Nat.le_0_l]).
    eapply wp_mono; [by apply deliver_refines|]. intros [log|e|] w1 H1; [done..|done].
Qed.

(** A run of calls that return, with what their results report. *)
Inductive ipc_run : IpcWorld → list ipc_event → IpcWorld → Prop :=
| ipc_run_nil w : ipc_run w [] w
| ipc_run_cons w o r w1 log w2 :
    numbers_left o w → ipc_exec o w = (r, w1) → r ≠ Panic → ipc_run w1 log w2 →
    ipc_run w (report r ++ log) w2.

(** Before the first endpoint. *)
Definition ipc_boot (c : CapWorld) (s : Scheduler) : IpcWorld := mkIpc c s ∅ ∅ 8 ∅ false None.

Lemma ipc_boot_ok c s : registry_ok (ipc_boot c s).
Proof. split; cbn; try done; apply Nat.le_0_l. Qed.

Lemma ipc_step_refines o w r w1 :
  registry_ok w → numbers_left o w → ipc_exec o w = (r, w1) → r ≠ Panic → refines w (report r) w1.
Proof.
  intros Hok Hn Hex Hr. pose proof (wp_result _ _ _ _ _ Hex (ipc_exec_refines o w Hok Hn)) as H1.
  by destruct r.
Qed.

Lemma ipc_run_refines w log w' : ipc_run w log w' → registry_ok w → refines w log w'.
Proof.
  induction 1 as [w|w o r w1 log w2 Hn Hex Hr _ IH]; intros Hok; [by apply refines_quiet|].
  pose proof (ipc_step_refines _ _ _ _ Hok Hn Hex Hr) as H1.
  eapply refines_trans; [exact H1|]. apply IH, H1.
Qed.

(** C7: The endpoint registry refines its abstract specification: over every run of
    its calls (sends, receives, cancellations, hang-ups, interrupt deliveries,
    failures included) the messages reported sent and received form a legal
    history of bounded first-in first-out queues, one per endpoint, that ends
    in the messages now buffered: each is delivered once, in order, to its own
    endpoint.  Meanwhile no endpoint exceeds its capacity, at most 256
    endpoints exist, and the interrupt gate is open exactly when something is
    bound. *)
Theorem ipc_is_fifo (c : CapWorld) (s : Scheduler) (log : list ipc_event) (w : IpcWorld)
    (Hrun : ipc_run (ipc_boot c s) log w) :
  history_spec log ∅ = Some (queues w) ∧
  (∀ ep ch, ENDPOINTS w !! ep = Some ch → length (buffer (inner ch)) ≤ ch_capacity (inner ch) ≤ 256) ∧
  size (ENDPOINTS w) ≤ 256 ∧ (IRQ_BINDINGS_NONEMPTY w = true ↔ IRQ_BINDINGS w ≠ ∅).
Proof.
  destruct (ipc_run_refines _ _ _ Hrun (ipc_boot_ok c s)) as [[H1 H2 H3 H4 H5 H6] Hh].
  split_and!; [exact Hh| |exact H3|].
  - intros ep ch Hch. destruct (H4 _ _ Hch) as [[_ Hc] Hl]. by split.
  - rewrite H5, negb_true_iff. apply bool_decide_eq_false.
Qed.

(** ** Authority *)

(** The capability space is up and well formed. *)
Definition caps_up (w : IpcWorld) (st : CoreState) : Prop := STATE (caps w) = Some st ∧ cap_wf st.

Lemma with_caps_same w st : STATE (caps w) = Some st → with_caps (with_state st (caps w)) w = w.
Proof. intros Hst. rewrite with_state_id by done. by destruct w. Qed.

Lemma check_call_denied w st h target r :
  caps_up w st → ¬ authorised st h target r →
  ∃ e, cap_call (check_rights_for_object h target r) w = (Err e, w).
Proof.
  intros [Hst Hwf] Hno. pose proof (check_rights_for_object_spec h target r st Hwf) as Hspec.
  unfold wp in Hspec. unfold cap_call, zoom, locked. rewrite Hst.
  destruct (check_rights_for_object h target r st) as [[[]|e|] st']; cbn in Hspec; destruct Hspec as [-> Hspec]; [done| |done].
  exists e. by rewrite with_caps_same.
Qed.

Lemma check_call_granted w st h target r :
  caps_up w st → authorised st h target r → cap_call (check_rights_for_object h target r) w = (Ok tt, w).
Proof.
  intros [Hst Hwf] Hyes. pose proof (check_rights_for_object_spec h target r st Hwf) as Hspec.
  unfold wp in Hspec. unfold cap_call, zoom, locked. rewrite Hst.
  destruct (check_rights_for_object h target r st) as [[[]|e|] st']; cbn in Hspec; destruct Hspec as [-> Hspec]; [|done..].
  by rewrite with_caps_same.
Qed.

Lemma lookup_endpoint_some w ep ch : ENDPOINTS w !! ep = Some ch → lookup_endpoint ep w = (Ok ch, w).
Proof. intros Hch. unfold lookup_endpoint, mbind, comp_bind, get. cbn. by rewrite Hch. Qed.

Lemma lookup_endpoint_none w ep : ENDPOINTS w !! ep = None → lookup_endpoint ep w = (Err NotFound, w).
Proof. intros Hch. unfold lookup_endpoint, mbind, comp_bind, get. cbn. by rewrite Hch. Qed.

(** An endpoint answers only to its own capability: whoever names an endpoint
    with a handle that is closed, revoked, of another object (even of another
    endpoint), or without the right, is refused in sending, receiving and
    cancelling, and nothing changes. *)
Theorem endpoint_use_is_authorised (w : IpcWorld) (st : CoreState) (ep : Z) (ch : CapChannel) (h : CapHandle)
    (Hup : caps_up w st) (Hch : ENDPOINTS w !! ep = Some ch) :
  (¬ authorised st h (endpoint_cap ch) WRITE → ∀ cpu data attached mode, ∃ e,
     raw_ipc_send cpu ep h data attached mode w = (Err e, w) ∧
     raw_ipc_try_send ep h data attached mode w = (Err e, w)) ∧
  (¬ authorised st h (endpoint_cap ch) READ → ∀ cpu, ∃ e,
     raw_ipc_recv_round cpu ep h w = (Err e, w) ∧ raw_ipc_try_recv ep h w = (Err e, w) ∧
     cancel_endpoint ep h w = (Ok 0, w)).
Proof.
  split; intros Hno.
  - intros cpu data attached mode. destruct (check_call_denied _ _ _ _ _ Hup Hno) as [e He]. exists e.
    unfold raw_ipc_send, raw_ipc_try_send.
    split; (erewrite bind_ok by (by apply lookup_endpoint_some)); apply bind_err; by apply bind_err.
  - intros cpu. destruct (check_call_denied _ _ _ _ _ Hup Hno) as [e He]. exists e.
    assert (cap_channel_try_recv ch h w = (Err e, w)) as Hrecv by (by apply bind_err).
    unfold raw_ipc_recv_round, raw_ipc_try_recv, cancel_endpoint.
    split_and!; (erewrite bind_ok by (by apply lookup_endpoint_some)); [by apply bind_err..|].
    erewrite bind_ok.
    2: { cbn [drain_endpoint]. erewrite bind_ok; [|unfold attempt; by rewrite Hrecv]. reflexivity. }
    cbn. unfold mbind, comp_bind, modify, mret, comp_ret. f_equal. rewrite insert_id by done. by destruct w.
Qed.

(** Everything that names an endpoint that is not registered fails. *)
Lemma endpoint_gone w ep : ENDPOINTS w !! ep = None →
  (∀ cpu h data attached mode, raw_ipc_send cpu ep h data attached mode w = (Err NotFound, w)) ∧
  (∀ h data attached mode, raw_ipc_try_send ep h data attached mode w = (Err NotFound, w)) ∧
  (∀ cpu h, raw_ipc_recv_round cpu ep h w = (Err NotFound, w)) ∧
  (∀ h, raw_ipc_try_recv ep h w = (Err NotFound, w)) ∧
  (∀ h, cancel_endpoint ep h w = (Err NotFound, w)).
Proof. intros Hno. split_and!; intros; by apply bind_err, lookup_endpoint_none. Qed.

(** ** The end of a process's endpoints *)

Lemma owned_endpoints_spec pid owners ep : ep ∈ owned_endpoints pid owners ↔ owners !! ep = Some pid.
Proof.
  unfold owned_endpoints. rewrite list_elem_of_fmap. split.
  - intros ([e p] & -> & [Hp He]%list_elem_of_filter). cbn in *. subst. by apply elem_of_btree_iter in He.
  - intros He. exists (ep, pid). split; [done|]. apply list_elem_of_filter. split; [done|]. by apply elem_of_btree_iter.
Qed.

Lemma hangup_run pid w r w' :
  hangup_channel_for_pid pid w = (r, w') → r ≠ Panic →
  r = Ok tt ∧ ∃ w1, hung (owned_endpoints pid (ENDPOINT_OWNERS w)) w w1 ∧
    ENDPOINTS w' = ENDPOINTS w1 ∧ ENDPOINT_OWNERS w' = ENDPOINT_OWNERS w1 ∧ IRQ_BINDINGS w' = IRQ_BINDINGS w1.
Proof.
  intros Hrun Hr. assert (wp (hangup_channel_for_pid pid) (λ r w', r ≠ Panic → r = Ok tt ∧
    ∃ w1, hung (owned_endpoints pid (ENDPOINT_OWNERS w)) w w1 ∧
    ENDPOINTS w' = ENDPOINTS w1 ∧ ENDPOINT_OWNERS w' = ENDPOINT_OWNERS w1 ∧ IRQ_BINDINGS w' = IRQ_BINDINGS w1) w) as Hwp.
  { unfold hangup_channel_for_pid. wp_steps.
    destruct (owned_endpoints pid (ENDPOINT_OWNERS w)) as [|ep eps] eqn:Ho.
    { wp_steps. intros _. split; [done|]. exists w. split_and!; [apply hung_nil|done..]. }
    wp_step. eapply wp_mono; [apply hangup_all_effect|]. intros [[]|e|] w1 H1; [|done..].
    wp_step. intros _. split; [done|]. exists w1. split; [done|]. by case_bool_decide. }
  by apply (wp_run _ _ _ _ _ Hwp Hrun).
Qed.

(** Hanging up a process disconnects exactly its endpoints: none of them is
    registered, owned or bound to an interrupt afterwards, so that every call
    that names one fails with [NotFound] (receivers that were blocked on it
    included); the endpoints of other processes, their messages and interrupt
    bindings stay as they are. *)
Theorem hangup_disconnects (w w' : IpcWorld) (pid : Z) (r : outcome CapError unit)
    (Hrun : hangup_channel_for_pid pid w = (r, w')) (Hr : r ≠ Panic) :
  r = Ok tt ∧
  (∀ ep, ENDPOINT_OWNERS w !! ep = Some pid →
     ENDPOINTS w' !! ep = None ∧ ENDPOINT_OWNERS w' !! ep = None ∧
     (∀ irq b, IRQ_BINDINGS w' !! irq = Some b → bound_ep b ≠ ep) ∧
     (∀ cpu h, raw_ipc_recv_round cpu ep h w' = (Err NotFound, w')) ∧
     (∀ h data attached mode, raw_ipc_try_send ep h data attached mode w' = (Err NotFound, w')) ∧
     (∀ cpu, (raw_ipc_recv_resume cpu ep w').1 = Err NotFound)) ∧
  (∀ ep, ENDPOINT_OWNERS w !! ep ≠ Some pid →
     ENDPOINTS w' !! ep = ENDPOINTS w !! ep ∧ ENDPOINT_OWNERS w' !! ep = ENDPOINT_OWNERS w !! ep ∧
     ∀ irq b, bound_ep b = ep → IRQ_BINDINGS w' !! irq = Some b ↔ IRQ_BINDINGS w !! irq = Some b).
Proof.
  destruct (hangup_run _ _ _ _ Hrun Hr) as (-> & w1 & [H1 H2 _ H4 _ _] & E1 & E2 & E3).
  split; [done|]. rewrite E1, E2, E3, H1, H2, H4. clear H1 H2 H4. split.
  - intros ep Hep%owned_endpoints_spec. rewrite !lookup_foldr_delete, !decide_True by done.
    assert (ENDPOINTS w' !! ep = None) as Hgone.
    { destruct (hangup_run _ _ _ _ Hrun Hr) as (_ & w2 & [G1 _ _ _ _ _] & F1 & _).
      by rewrite F1, G1, lookup_foldr_delete, decide_True. }
    destruct (endpoint_gone w' ep Hgone) as (_ & Hts & Hrr & _).
    split_and!; [done|done| |done|done|].
    + intros irq b [_ Hb]%map_lookup_filter_Some. cbn in Hb. by intros <-.
    + intros cpu. unfold raw_ipc_recv_resume, mbind, comp_bind, get. rewrite Hgone.
      by destruct (current_for_cpu cpu (sched w')).
  - intros ep Hep. assert (ep ∉ owned_endpoints pid (ENDPOINT_OWNERS w)) as Hn by (by rewrite owned_endpoints_spec).
    rewrite !lookup_foldr_delete, !decide_False by done. split_and!; [done|done|].
    intros irq b <-. rewrite map_lookup_filter_Some. cbn. tauto.
Qed.

(** Nothing that the scheduler decides by has changed. *)
Definition calm (s s' : Scheduler) : Prop :=
  core (procs s') = core (procs s) ∧ current s' = current s ∧ ready s' = ready s.

Lemma calm_trans s1 s2 s3 : calm s1 s2 → calm s2 s3 → calm s1 s3.
Proof. intros (H1 & H2 & H3) (G1 & G2 & G3). unfold calm. by rewrite G1, G2, G3. Qed.

Lemma wake_nobody q s : queue_rep (procs s) q [] →
  ∃ q' s', wake_one q s = Some (None, q', s') ∧ queue_rep (procs s') q' [] ∧ calm s s'.
Proof.
  intros Hq. destruct (wake_loop_spec (S (size (procs s))) q s [] Hq ltac:(cbn; lia))
    as [(l1 & x & l2 & _ & _ & Hl & _)|(_ & q' & t' & Hrun & Hq' & Hc & _)]; [by destruct l1|].
  exists q', (with_procs t' s). split_and!; [exact Hrun|done|done].
Qed.

Lemma try_recv_calm ch h w :
  queue_rep (procs (sched w)) (not_full (inner ch)) [] →
  wp (cap_channel_try_recv ch h) (λ r w', calm (sched w) (sched w') ∧ match r with
    | Ok (_, ch') => queue_rep (procs (sched w')) (not_full (inner ch')) []
    | _ => True end) w.
Proof.
  intros Hq. unfold cap_channel_try_recv. wp_step. unfold cap_call. apply wp_zoom, wp_intro.
  destruct (locked _ (caps w)).1 as [[]|e|]; [|done..].
  wp_step. unfold on_sched. wp_step. unfold chan_try_recv. destruct (buffer (inner ch)) as [|m b].
  - wp_step. by wp_step.
  - destruct (wake_nobody _ _ Hq) as (q' & s' & Hw & Hq' & Hcalm).
    wp_step. unfold wake_one_on. wp_step. wp_step. cbn [sched with_caps]. rewrite Hw. cbn [unwrap]. wp_steps. by split.
Qed.

Lemma drain_calm fuel ch h n w :
  queue_rep (procs (sched w)) (not_full (inner ch)) [] →
  wp (drain_endpoint fuel ch h n) (λ _ w', calm (sched w) (sched w')) w.
Proof.
  revert ch n w. induction fuel as [|fuel IH]; intros ch n w Hq; cbn [drain_endpoint]; [by wp_step|].
  wp_step. wp_step. eapply wp_mono; [by apply try_recv_calm|].
  intros [[[m|] ch']|e|] w1 [Hc Hq']; [|by wp_step..|done]. wp_step.
  assert (∀ w2, sched w2 = sched w1 → wp (drain_endpoint fuel ch' h (S n)) (λ _ w', calm (sched w) (sched w')) w2) as Hrest.
  { intros w2 Hw2. rewrite <-Hw2 in Hc, Hq'. eapply wp_mono; [by apply IH|]. intros r w3 H3. by eapply calm_trans. }
  destruct (capability m) as [attached|]; [|wp_step; by apply Hrest].
  wp_step. unfold cap_call. apply wp_zoom, wp_intro. destruct (locked _ (caps w1)).1; [by apply Hrest..|done].
Qed.

Lemma shut_channel_spec ch w l1 l2 :
  queue_rep (procs (sched w)) (not_empty (inner ch)) l1 → queue_rep (procs (sched w)) (not_full (inner ch)) l2 →
  (∀ x, x ∈ l1 → x ∉ l2) →
  wp (shut_channel ch) (λ _ w', ∃ s1 s2, all_woken l1 (sched w) s1 ∧ all_woken l2 s1 s2 ∧ calm s2 (sched w')) w.
Proof.
  intros Hq1 Hq2 Hd. destruct (wake_all_spec _ _ _ Hq1) as (n1 & q1 & s1 & Hw1 & Hr1 & Ha1).
  assert (queue_rep (procs s1) (not_full (inner ch)) l2) as Hq2'
    by (apply (aw_frames _ _ _ Ha1); [|done]; intros x Hx Hx1; by apply (Hd x)).
  destruct (wake_all_spec _ _ _ Hq2') as (n2 & q2 & s2 & Hw2 & Hr2 & Ha2).
  unfold shut_channel, on_sched, wake_all_on. do 4 wp_step. rewrite Hw1. cbn [unwrap]. wp_steps; change (sched (with_sched s1 w)) with s1 in *; [congruence|].
  match goal with H : wake_all _ _ = Some _ |- _ => rewrite Hw2 in H; injection H as <- end. wp_steps.
  eapply wp_mono; [apply drain_calm; exact Hr2|]. intros [[n c]|e|] w1 Hc; [wp_step|..]; by exists s1, s2.
Qed.

(** A closing endpoint strands nobody: shutting a channel down makes every process
    that waits to receive from it or to send to it runnable again, wherever it
    stands in the queues, whatever the messages in flight carry. *)
Theorem closing_wakes_everybody (w w' : IpcWorld) (ch : CapChannel) (l1 l2 : list Z) (r : outcome CapError unit)
    (Hq1 : queue_rep (procs (sched w)) (not_empty (inner ch)) l1)
    (Hq2 : queue_rep (procs (sched w)) (not_full (inner ch)) l2) (Hd : ∀ x, x ∈ l1 → x ∉ l2)
    (Hrun : shut_channel ch w = (r, w')) :
  ∀ x, x ∈ l1 ++ l2 → wakeable (sched w) x → awakened (sched w') x.
Proof.
  destruct (wp_run _ _ _ _ _ (shut_channel_spec ch w l1 l2 Hq1 Hq2 Hd) Hrun) as (s1 & s2 & H1 & H2 & Hc & Hcur & Hr).
  intros x Hx Hw. apply (awakened_stable s2); [by rewrite Hc|done|by rewrite Hr|].
  apply elem_of_app in Hx as [Hx|Hx].
  - apply (awakened_stable s1); [apply H2; by apply Hd|apply H2|apply H2|by apply H1].
  - apply H2; [done|]. apply (wakeable_same (sched w)); [|apply H1|done]. apply H1. intros Hx1. by apply (Hd x).
Qed.

(** ** Full endpoints *)

Lemma transfer_source_dead st src req h st1 :
  cap_wf st → transfer src req st = (Ok h, st1) → (∀ s, ¬ denotes st1 src s) ∧ ∃ s, denotes st1 h s.
Proof.
  intros Hwf Ht.
  destruct (wp_result _ _ _ _ _ Ht (transfer_spec src req st Hwf))
    as (s & nw & st0 & (Hs & _) & [Hwf1 Hext] & Hins & Hns & -> & Hgen & _).
  assert (slots st0 !! slot src = Some s) as Hs0 by (eapply installed_old; [done|apply Hs..]).
  assert (slots (with_slots <[slot src:=released s]> st0) !! slot src = Some (released s)) as Hrel
    by (apply list_lookup_insert_eq; by eapply lookup_lt_Some).
  split; [intros s' (Hs' & Hf & _); rewrite Hrel in Hs'; injection Hs' as <-; done|].
  exists nw. unfold denotes. cbn. rewrite list_lookup_insert_ne by done.
  split_and!; [by eapply installed_slot|apply Hins|done].
Qed.

Lemma cap_call_ok {A} (m : comp CoreState CapError A) w st a st1 :
  STATE (caps w) = Some st → m st = (Ok a, st1) →
  cap_call m w = (Ok a, with_caps (with_state st1 (caps w)) w).
Proof. intros Hst Hm. unfold cap_call, zoom, locked. by rewrite Hst, Hm. Qed.

Lemma full_try_send_rejects msg (c : Channel (CapMessage bytes)) w :
  ch_capacity c ≤ length (buffer c) → on_sched (chan_try_send msg c) w = (Ok (false, c), w).
Proof.
  intros Hfull. unfold on_sched, zoom, chan_try_send. rewrite (proj2 (Nat.leb_le _ _)) by done. by destruct w.
Qed.

Lemma full_try_send w st ep ch h data attached mode h' w1 :
  caps_up w st → ENDPOINTS w !! ep = Some ch → authorised st h (endpoint_cap ch) WRITE →
  ch_capacity (inner ch) ≤ length (buffer (inner ch)) →
  final_cap attached mode w = (Ok h', w1) →
  raw_ipc_try_send ep h data attached mode w = (Err Exhausted, w1).
Proof.
  intros Hup Hch Hauth Hfull Hfin. unfold raw_ipc_try_send. erewrite bind_ok by (by apply lookup_endpoint_some).
  apply bind_err. unfold cap_channel_try_send. erewrite bind_ok by (by eapply check_call_granted).
  erewrite bind_ok by exact Hfin. erewrite bind_ok by (by apply full_try_send_rejects). done.
Qed.

Lemma full_send_round cpu msg (c : Channel (CapMessage bytes)) s :
  ch_capacity c ≤ length (buffer c) →
  (∃ s', chan_send_round (E := CapError) cpu msg c s = (Panic, s')) ∨
  (∃ c' s', chan_send_round (E := CapError) cpu msg c s = (Ok (Blocks, c'), s')).
Proof.
  intros Hfull. unfold chan_send_round. rewrite (proj2 (Nat.ltb_ge _ _)) by done.
  unfold prepare_wait_on, mbind, comp_bind, get. cbn.
  destruct (prepare_wait cpu ChannelSend (not_full c) s) as [[q s']|]; cbn; eauto.
Qed.

Lemma full_send_panics w st cpu ep ch h data :
  caps_up w st → ENDPOINTS w !! ep = Some ch → authorised st h (endpoint_cap ch) WRITE →
  ch_capacity (inner ch) ≤ length (buffer (inner ch)) →
  (raw_ipc_send cpu ep h data None ModeNone w).1 = Panic.
Proof.
  intros Hup Hch Hauth Hfull. unfold raw_ipc_send. erewrite bind_ok by (by apply lookup_endpoint_some).
  assert (∃ r w1, cap_channel_send cpu ch h data None ModeNone w = (r, w1) ∧
    (r = Panic ∨ ∃ ch', r = Ok (Blocks, ch'))) as (r & w1 & Hs & Hr).
  { unfold cap_channel_send. erewrite bind_ok by (by eapply check_call_granted).
    erewrite bind_ok by reflexivity.
    destruct (full_send_round cpu (mkMessage data None ModeNone) (inner ch) (sched w) Hfull)
      as [(s1 & Hp)|(c & s1 & Hb)].
    - erewrite bind_panic by (unfold on_sched, zoom; by rewrite Hp). eauto.
    - erewrite bind_ok by (unfold on_sched, zoom; by rewrite Hb). cbn. eauto 6. }
  destruct Hr as [->|[ch' ->]]; [by rewrite (bind_panic _ _ _ _ Hs)|by rewrite (bind_ok _ _ _ _ _ Hs)].
Qed.

(** A full endpoint is a trap: a non-blocking send that transfers a capability
    closes the sender's handle before it finds the queue full, so the failed
    call destroys the sender's access and leaves the new handle to nobody,
    while a send without a capability fails cleanly; and the blocking send of
    the system call, which waits with the registry locked, panics the kernel. *)
Theorem full_endpoint_hazards (w : IpcWorld) (st : CoreState) (ep : Z) (ch : CapChannel) (h : CapHandle)
    (Hup : caps_up w st) (Hch : ENDPOINTS w !! ep = Some ch) (Hauth : authorised st h (endpoint_cap ch) WRITE)
    (Hfull : ch_capacity (inner ch) ≤ length (buffer (inner ch))) :
  (∀ data, raw_ipc_try_send ep h data None ModeNone w = (Err Exhausted, w)) ∧
  (∀ data src h' st1, transfer src rights_all st = (Ok h', st1) →
     ∃ w', raw_ipc_try_send ep h data (Some src) ModeTransfer w = (Err Exhausted, w') ∧
       STATE (caps w') = Some st1 ∧ queues w' = queues w ∧
       (∀ r, (check_rights src r st1).1 = Err Invalid) ∧ ∃ s, denotes st1 h' s) ∧
  (∀ cpu data, (raw_ipc_send cpu ep h data None ModeNone w).1 = Panic).
Proof.
  split_and!.
  - intros data. by eapply full_try_send.
  - intros data src h' st1 Ht. destruct Hup as [Hst Hwf].
    destruct (transfer_source_dead _ _ _ _ _ Hwf Ht) as [Hdead Hlive].
    eexists. split; [eapply full_try_send; [done..|]|].
    + unfold final_cap. erewrite bind_ok by (by eapply cap_call_ok). reflexivity.
    + split_and!; [done|done| |done]. intros r. by apply undenoted_check_invalid.
  - intros cpu data. by eapply full_send_panics.
Qed.

(** ** A registry with one endpoint of capacity 2 *)

Definition demo_boot : IpcWorld := ipc_boot (world_with (state_after [])) demo_sched.

Fixpoint run_ops (ops : list ipc_op) (w : IpcWorld) : option (list ipc_event * IpcWorld) :=
  match ops with
  | [] => Some ([], w)
  | o :: ops =>
      if match o with OpCreate _ => (NEXT_EP_ID w + 1 <? 2 ^ 32)%Z | _ => true end then
        match ipc_exec o w with
        | (Panic, _) => None
        | (r, w1) => '(log, w2) ← run_ops ops w1; Some (report r ++ log, w2)
        end
      else None
  end.

Lemma run_ops_run ops w log w' : run_ops ops w = Some (log, w') → ipc_run w log w'.
Proof.
  revert w log. induction ops as [|o ops IH]; intros w log; cbn [run_ops].
  { intros [= <- <-]. constructor. }
  destruct (match o with OpCreate _ => _ | _ => true end) eqn:Hn; [|done].
  assert (numbers_left o w) as Hnum by (destruct o; try done; by apply Z.ltb_lt).
  destruct (ipc_exec o w) as [[l|e|] w1] eqn:He; [| |done];
    intros ([log2 w2] & Hr & [= <- <-])%bind_Some.
  - apply (ipc_run_cons w o (Ok l) w1); auto.
  - apply (ipc_run_cons w o (Err e) w1); auto.
Qed.

Definition demo_ops : list ipc_op := [
  OpCreate 2; OpOwner 8 3;
  OpTrySend 8 root_handle [10%Z] None ModeNone;
  OpTrySend 8 root_handle [20%Z] None ModeNone].
Definition demo_log : list ipc_event := [Opened 8; Sent 8 [10%Z]; Sent 8 [20%Z]].
Definition demo_ipc : IpcWorld := from_option snd demo_boot (run_ops demo_ops demo_boot).
Definition demo_channel : CapChannel := default (mkCapChannel root_handle (chan_new 0)) (ENDPOINTS demo_ipc !! 8%Z).

Lemma demo_caps_up : caps_up demo_ipc (state_after [CallCreate Endpoint]).
Proof. split; [vm_compute; reflexivity|]. apply reachable_wf, state_after_reachable. Qed.

Lemma authorised_by_check st h target r :
  cap_wf st → (check_rights_for_object h target r st).1 = Ok tt → authorised st h target r.
Proof.
  intros Hwf Hc. pose proof (check_rights_for_object_spec h target r st Hwf) as Hspec. unfold wp in Hspec.
  rewrite Hc in Hspec. apply Hspec.
Qed.

Lemma demo_authorised :
  authorised (state_after [CallCreate Endpoint]) root_handle (endpoint_cap demo_channel) WRITE.
Proof.
  apply authorised_by_check; [apply reachable_wf, state_after_reachable|]. vm_compute. reflexivity.
Qed.

Lemma ipc_is_fifo_witness : history_spec demo_log ∅ = Some (queues demo_ipc).
Proof.
  refine (proj1 (ipc_is_fifo (world_with (state_after [])) demo_sched demo_log demo_ipc _)).
  apply (run_ops_run demo_ops). vm_compute. reflexivity.
Defined.

Lemma endpoint_use_is_authorised_witness :
  ∃ e, raw_ipc_try_recv 8 (mkHandle 0 7) demo_ipc = (Err e, demo_ipc).
Proof.
  destruct (proj2 (endpoint_use_is_authorised demo_ipc (state_after [CallCreate Endpoint]) 8 demo_channel (mkHandle 0 7)
    demo_caps_up ltac:(vm_compute; reflexivity))) with (cpu := 0) as (e & _ & He & _).
  - intros (s & t & o & (Hs & _ & Hg) & _). vm_compute in Hs. injection Hs as <-. done.
  - exists e. exact He.
Defined.

Lemma full_endpoint_hazards_witness :
  (raw_ipc_send 0 8 root_handle [30%Z] None ModeNone demo_ipc).1 = Panic.
Proof.
  refine (proj2 (proj2 (full_endpoint_hazards demo_ipc (state_after [CallCreate Endpoint]) 8 demo_channel root_handle
    demo_caps_up _ demo_authorised _)) 0 [30%Z]).
  - vm_compute. reflexivity.
  - apply (bool_decide_unpack _). vm_compute. exact I.
Defined.

Lemma hangup_disconnects_witness :
  (raw_ipc_recv_resume 0 8 (hangup_channel_for_pid 3 demo_ipc).2).1 = Err NotFound.
Proof.
  refine (proj2 (proj2 (proj2 (proj2 (proj2
    (proj1 (proj2 (hangup_disconnects demo_ipc (hangup_channel_for_pid 3 demo_ipc).2 3 (Ok tt) _ _)) 8%Z _))))) 0).
  - vm_compute. reflexivity.
  - done.
  - vm_compute. reflexivity.
Defined.

Lemma closing_wakes_everybody_witness :
  awakened (sched (shut_channel (mkCapChannel root_handle (mkChannel [] demo_queue queue_new 2)) demo_boot).2) 2.
Proof.
  apply (closing_wakes_everybody demo_boot _ (mkCapChannel root_handle (mkChannel [] demo_queue queue_new 2))
    [1; 2]%Z [] (Ok tt)).
  - exact demo_queue_rep.
  - concrete_queue.
  - intros x _. apply not_elem_of_nil.
  - vm_compute. reflexivity.
  - right. left.
  - eexists. split; [reflexivity|by left].
Defined.
