(* ===== verification/SyscallCap.v ===== *)
(** * The authority of system calls (kernel/src/syscall_cap.rs)

    Every process has a table from numbers (file descriptors, endpoints, devices)
    to capability handles.  The functions here look numbers up and check, add and
    remove entries; the wrappers do this in the table of the running process. *)
From S2P Require Import Prelude Abi Cap Process Sched Channel Ipc.

(** The table of a process and the capability space. *)
Record CapTable := mkTable { table_caps : CapWorld; entries : list (Z * CapHandle) }.

Section tables.
Abbreviation M := (comp CapTable CapError).

Definition set_table_caps (c : CapWorld) (t : CapTable) : CapTable := mkTable c (entries t).
Definition set_entries (l : list (Z * CapHandle)) (t : CapTable) : CapTable := mkTable (table_caps t) l.
Definition table_cap {A} (m : comp CoreState CapError A) : M A := zoom table_caps set_table_caps (locked m).
Definition push_entry (fd : Z) (h : CapHandle) : M unit := modify (λ t, set_entries (entries t ++ [(fd, h)]) t).

(** kernel/src/syscall_cap.rs:61-63 [find_fd_in_table] *)
Definition find_fd_in_table (table : list (Z * CapHandle)) (fd : Z) : option CapHandle :=
  '(_, e) ← list_find (λ e, e.1 = fd) table; Some e.2.

(** kernel/src/syscall_cap.rs:22-25 [check_fd_access_in_table] *)
Definition check_fd_access_in_table (fd : Z) (needed : Rights) : M unit :=
  t ← get;
  h ← ok_or (find_fd_in_table (entries t) fd) NotFound;
  table_cap (check_rights h needed).

(** kernel/src/syscall_cap.rs:30-34 [check_process_exec_in_table] *)
Fixpoint check_exec_loop (l : list (Z * CapHandle)) : M unit :=
  match l with
  | [] => throw NoRights
  | (_, h) :: l =>
      r ← attempt (table_cap (check_rights h EXECUTE));
      match r with inr _ => mret tt | inl _ => check_exec_loop l end
  end.

(** kernel/src/syscall_cap.rs:29-36 [check_process_exec_in_table] *)
Definition check_process_exec_in_table : M unit := t ← get; check_exec_loop (entries t).

(** kernel/src/syscall_cap.rs:39-46 [grant_fd_in_table] *)
Definition grant_fd_in_table (fd : Z) (parent : CapHandle) (req : Rights) : M unit :=
  t ← get;
  reject_if (existsb (λ e : Z * CapHandle, e.1 =? fd)%Z (entries t)) AlreadyExists;;
  h ← table_cap (grant parent req);
  push_entry fd h.

(** The entry is gone even when closing fails —
    kernel/src/syscall_cap.rs:49-54 [close_fd_in_table] *)
Definition close_fd_in_table (fd : Z) : M unit :=
  t ← get;
  '(i, e) ← ok_or (list_find (λ e, e.1 = fd) (entries t)) NotFound;
  put (set_entries (delete i (entries t)) t);;
  table_cap (close e.2).

(** kernel/src/syscall_cap.rs:68-75 [seed_stdio] *)
Definition seed_stdio : M unit :=
  cap ← table_cap (create_object Abi.Fd);
  for_each [0; 1; 2]%Z (λ fd, h ← table_cap (grant cap (bitor READ WRITE)); push_entry fd h).

(** The number of the execute entry is [u32::MAX] —
    kernel/src/syscall_cap.rs:79-84 [seed_process_exec] *)
Definition seed_process_exec : M unit :=
  cap ← table_cap (create_object Abi.Process);
  h ← table_cap (grant cap EXECUTE);
  push_entry u32_max h.

(** kernel/src/syscall_cap.rs:122-125 [seed_new_process] *)
Definition seed_new_process : M unit := seed_stdio;; seed_process_exec.
End tables.

(** ** In the table of a process *)

Section wrappers.
Abbreviation M := (comp IpcWorld CapError).

(** kernel/src/task/process.rs:3306-3308 [current_pid] *)
Definition current_pid (cpu : nat) (s : Scheduler) : Z := default 0%Z (current_for_cpu cpu s).

(** kernel/src/task/process.rs:1942-1948 [current_is_user_process] *)
Definition current_is_user_process (cpu : nat) (s : Scheduler) : bool :=
  match current_for_cpu cpu s with
  | Some p => default false (is_user <$> procs s !! p)
  | None => false
  end.

(** [None] when there is no such process —
    kernel/src/task/process.rs:3345-3351 [with_cap_table] *)
Definition with_cap_table {E A} (pid : Z) (m : comp CapTable E A) : comp IpcWorld E (option A) :=
  w ← get;
  match procs (sched w) !! pid with
  | None => mret None
  | Some p =>
      a ← zoom (λ w, mkTable (caps w) (cap_table p))
               (λ t w, with_caps (table_caps t)
                         (with_sched (update pid (set_cap_table (entries t)) (sched w)) w)) m;
      mret (Some a)
  end.

(** [.unwrap_or(Err(CapError::NotFound))] in the table of the running process —
    kernel/src/syscall_cap.rs:92-96 [check_fd_access] *)
Definition in_current_table {A} (cpu : nat) (m : comp CapTable CapError A) : M A :=
  w ← get;
  r ← with_cap_table (current_pid cpu (sched w)) m;
  ok_or r NotFound.

(** kernel/src/syscall_cap.rs:92-96 [check_fd_access] *)
Definition check_fd_access (cpu : nat) (fd : Z) (needed : Rights) : M unit :=
  in_current_table cpu (check_fd_access_in_table fd needed).
(** kernel/src/syscall_cap.rs:99-103 [check_process_exec] *)
Definition check_process_exec (cpu : nat) : M unit := in_current_table cpu check_process_exec_in_table.
(** kernel/src/syscall_cap.rs:107-111 [add_fd_to_current] *)
Definition add_fd_to_current (cpu : nat) (fd : Z) (h : CapHandle) (req : Rights) : M unit :=
  in_current_table cpu (grant_fd_in_table fd h req).
(** kernel/src/syscall_cap.rs:114-118 [remove_fd_from_current] *)
Definition remove_fd_from_current (cpu : nat) (fd : Z) : M unit := in_current_table cpu (close_fd_in_table fd).

(** [with_cap_table(pid, |t| find_fd_in_table(t, fd))] of the running process. *)
Definition current_handle (cpu : nat) (fd : Z) (s : Scheduler) : option CapHandle :=
  p ← procs s !! current_pid cpu s; find_fd_in_table (cap_table p) fd.
End wrappers.
