(* ===== verification/AddrSpace.v ===== *)
(** * Address spaces (kernel/src/memory.rs)

    User mappings in a given address space (named by its root table, [cr3]; 0 is
    the active one): device and DMA ranges, surfaces, fresh pages, and the
    copy-on-write registry.  The page-table code itself is the crate x86_64's
    and a parameter: the class [Mapper] has the operations the kernel calls and
    [MapperLaws] what they are documented to do.  Flushing TLBs and the
    contents of pages are not modelled. *)
From S2P Require Import Prelude FramePool.

(** kernel/src/memory.rs:19-19 [USER_ADDR_LIMIT] *)
Definition USER_ADDR_LIMIT : Z := 2147483648.
(** kernel/src/memory.rs:24-24 [USER_ADDR_BASE] *)
Definition USER_ADDR_BASE : Z := 1073741824.
(** kernel/src/memory.rs:27-27 [USER_STACK_TOP] *)
Definition USER_STACK_TOP : Z := 2147418112.

(** kernel/src/memory.rs:30-33 [is_canonical] *)
Definition is_canonical (addr : Z) : bool :=
  (wrap 64 (Z.shiftr (to_signed 64 (wrap 64 (Z.shiftl addr 16))) 16) =? addr)%Z.

(** kernel/src/memory.rs:37-52 [is_user_range] *)
Definition is_user_range (ptr len : Z) : bool :=
  if (ptr =? 0)%Z then false
  else if negb (is_canonical ptr) then false
  else if (USER_ADDR_LIMIT <=? ptr)%Z then false
  else match fits 64 (ptr + len) with
       | None => false
       | Some stop => (stop <=? USER_ADDR_LIMIT)%Z
       end.

(** ** The page tables of the library *)

Inductive map_result := Mapped | PageAlreadyMapped | MapFailed.

(** Pages and frames are the addresses of their first bytes.  [map_to] takes the
    frames of new tables from the pool; [empty_tables] unlinks the tables of the
    private subtree that have no entry left and returns them. *)
Class Mapper (PT : Type) := {
  translate : Z → Z → PT → option Z;
  page_flags : Z → Z → PT → option Z;
  map_to : Z → Z → Z → Z → PT → option FramePool → map_result * PT * option FramePool;
  update_flags : Z → Z → Z → PT → PT;
  unmap : Z → Z → PT → option Z * PT;
  open_root : Z → PT → PT;
  empty_tables : Z → PT → list Z * PT;
}.

(** Page table entry flags. *)
Definition PTE_PRESENT : Z := 1.
Definition PTE_WRITABLE : Z := 2.
Definition PTE_USER : Z := 4.
Definition PTE_BIT_9 : Z := 512.
Definition PTE_NO_EXECUTE : Z := 9223372036854775808.

(** Pages of the private part of an address space. *)
Definition user_page (p : Z) : Prop := (USER_ADDR_BASE ≤ p < USER_ADDR_LIMIT)%Z ∧ (p mod 4096 = 0)%Z.

(** The mapping of page [p'] in [c'] cannot be that of [p] in [c]; 0 stands for
    whichever address space is active. *)
Definition elsewhere_page (c p c' p' : Z) : Prop := p' ≠ p ∨ (c' ≠ c ∧ c ≠ 0%Z ∧ c' ≠ 0%Z).

(** What the library documents: [map_to] adds one mapping or none, never
    replacing one, and takes frames from the allocator for new tables only;
    unmapping removes one mapping; an empty table holds no mapping. *)
Class MapperLaws (PT : Type) `{!Mapper PT} := {
  table_frames : PT → gset Z;
  map_to_mapped c p f fl t g t' g' : map_to c p f fl t g = (Mapped, t', g') → user_page p →
    translate c p t = None ∧ translate c p t' = Some f ∧
    ∀ c' p', user_page p' → elsewhere_page c p c' p' → translate c' p' t' = translate c' p' t;
  map_to_refused c p f fl t g r t' g' : map_to c p f fl t g = (r, t', g') → r ≠ Mapped →
    ∀ c' p', translate c' p' t' = translate c' p' t;
  map_to_occupied c p f fl t g : is_Some (translate c p t) → ∃ t' g', map_to c p f fl t g = (PageAlreadyMapped, t', g');
  map_to_pool c p f fl t g r t' g' : map_to c p f fl t g = (r, t', g') →
    rtc (λ a b, b = (user_alloc_frame a).2) g g' ∧
    ∀ q q', g = Some q → g' = Some q' → table_frames t' = table_frames t ∪ (allocated q' ∖ allocated q);
  unmap_spec c p t : user_page p →
    (unmap c p t).1 = translate c p t ∧ translate c p (unmap c p t).2 = None ∧
    ∀ c' p', user_page p' → elsewhere_page c p c' p' → translate c' p' (unmap c p t).2 = translate c' p' t;
  unmap_tables c p t : table_frames (unmap c p t).2 = table_frames t;
  update_flags_translate c p fl t c' p' : translate c' p' (update_flags c p fl t) = translate c' p' t;
  update_flags_tables c p fl t : table_frames (update_flags c p fl t) = table_frames t;
  open_root_translate c t c' p' : translate c' p' (open_root c t) = translate c' p' t;
  open_root_tables c t : table_frames (open_root c t) = table_frames t;
  empty_tables_translate c t c' p' : translate c' p' (empty_tables c t).2 = translate c' p' t;
  empty_tables_tables c t : NoDup (empty_tables c t).1 ∧
    (∀ f, f ∈ (empty_tables c t).1 → f ∈ table_frames t) ∧
    table_frames (empty_tables c t).2 = table_frames t ∖ list_to_set (empty_tables c t).1;
}.

Section memory.
Context {PT : Type} `{!Mapper PT}.

(** kernel/src/memory.rs:693-693 [COW_PAGES] *)
Record Memory := mkMemory {
  tables : PT;
  pool : option FramePool;
  COW_PAGES : gmap (Z * Z) Z;
}.

Local Abbreviation M := (comp Memory string).

Definition with_tables (t : PT) (m : Memory) : Memory := mkMemory t (pool m) (COW_PAGES m).
Definition with_pool (g : option FramePool) (m : Memory) : Memory := mkMemory (tables m) g (COW_PAGES m).
Definition with_cow (c : gmap (Z * Z) Z) (m : Memory) : Memory := mkMemory (tables m) (pool m) c.

(** [Page::containing_address(VirtAddr::new(v))]: [VirtAddr::new] panics on an
    address that is not canonical *)
Definition page_of (v : Z) : M Z :=
  v ← unwrap (fits 64 v);
  if is_canonical v then mret (v - v mod 4096)%Z else panic.
(** [PhysAddr::new(p)]: a physical address has 52 bits *)
Definition phys_of (p : Z) : M Z := unwrap (fits 52 p).
Definition frame_of (p : Z) : Z := (p - p mod 4096)%Z.

Definition alloc_frame : M (option Z) := λ m,
  let '(f, g) := user_alloc_frame (pool m) in (Ok f, with_pool g m).
Definition free_frame (f : Z) : M unit :=
  m ← get; g ← unwrap (user_free_frame f (pool m)); put (with_pool g m).
Definition mapper_map (cr3 page frame flags : Z) : M map_result := λ m,
  let '(r, t, g) := map_to cr3 page frame flags (tables m) (pool m) in
  (Ok r, with_pool g (with_tables t m)).
Definition mapper_unmap (cr3 page : Z) : M (option Z) := λ m,
  let '(f, t) := unmap cr3 page (tables m) in (Ok f, with_tables t m).

(** kernel/src/memory.rs:502-525 [prune_empty_user_tables] *)
Definition prune_empty_user_tables (cr3 : Z) : M unit :=
  m ← get;
  let '(fs, t) := empty_tables cr3 (tables m) in
  put (with_tables t m);; for_each fs free_frame.

(** Writable pages are not executable outside the code window —
    kernel/src/memory.rs:239-245 [map_user_phys_range_in_cr3, flags] *)
Definition user_flags (virt : Z) (writable : bool) (extra : Z) : Z :=
  let fl := Z.lor PTE_PRESENT (Z.lor PTE_USER extra) in
  if writable then
    let fl := Z.lor fl PTE_WRITABLE in
    if (USER_ADDR_BASE + 8192 <=? virt)%Z || (virt <? USER_ADDR_BASE)%Z then Z.lor fl PTE_NO_EXECUTE else fl
  else fl.

Definition reject_kernel (virt : Z) (e : string) : M unit :=
  reject_if (negb (is_canonical virt) || (USER_ADDR_LIMIT <=? virt)%Z) e.

(** A page that is mapped already keeps its frame and gets new flags —
    kernel/src/memory.rs:248-263 [map_user_phys_range_in_cr3, loop] *)
Definition map_phys_page (cr3 virt phys fl : Z) (i : Z) : M unit :=
  v ← unwrap (fits 64 (virt + i * 4096));
  p ← phys_of (phys + i * 4096);
  page ← page_of v;
  r ← mapper_map cr3 page (frame_of p) fl;
  match r with
  | Mapped => mret tt
  | PageAlreadyMapped => modify (λ m, with_tables (update_flags cr3 page fl (tables m)) m)
  | MapFailed => throw "failed to map phys page to user"
  end.

Definition upto (n : Z) : list Z := Z.of_nat <$> seq 0 (Z.to_nat n).

(** kernel/src/memory.rs:218-265 [map_user_phys_range_in_cr3] *)
Definition map_user_phys_range_in_cr3 (cr3 virt phys count : Z) (writable : bool) : M unit :=
  reject_kernel virt "user mapping target outside user space";;
  modify (λ m, with_tables (open_root cr3 (tables m)) m);;
  for_each (upto count) (map_phys_page cr3 virt phys (user_flags virt writable 0)).

(** kernel/src/memory.rs:269-276 [map_user_phys_range] *)
Definition map_user_phys_range (virt phys count : Z) (writable : bool) : M unit :=
  map_user_phys_range_in_cr3 0 virt phys count writable.

Definition unmap_page_at (cr3 virt i : Z) : M unit :=
  v ← unwrap (fits 64 (virt + i * 4096)); page ← page_of v; _ ← mapper_unmap cr3 page; mret tt.

(** kernel/src/memory.rs:278-308 [unmap_user_phys_range_in_cr3] *)
Definition unmap_user_phys_range_in_cr3 (cr3 virt count : Z) : M unit :=
  reject_kernel virt "user unmapping target outside user space";;
  for_each (upto count) (unmap_page_at cr3 virt);;
  if (cr3 =? 0)%Z then mret tt else prune_empty_user_tables cr3.

(** ** Surfaces *)

Definition surface_flags : Z := Z.lor PTE_PRESENT (Z.lor PTE_USER (Z.lor PTE_WRITABLE PTE_NO_EXECUTE)).

(** kernel/src/memory.rs:458-476 [map_surface_frames, loop] *)
Fixpoint map_surface_loop (cr3 virt phys : Z) (n : nat) (i : Z) : M unit :=
  match n with
  | O => mret tt
  | S n =>
      page ← page_of (virt + i * 4096);
      p ← phys_of (phys + i * 4096);
      r ← mapper_map cr3 page (frame_of p) surface_flags;
      match r with
      | Mapped => map_surface_loop cr3 virt phys n (i + 1)
      | _ =>
          for_each (upto i) (unmap_page_at cr3 virt);;
          prune_empty_user_tables cr3;;
          throw "Surface mapping failed or overlaps an existing mapping"
      end
  end.

(** kernel/src/memory.rs:448-478 [map_surface_frames] *)
Definition map_surface_frames (cr3 virt phys n : Z) : M unit :=
  let bad := (cr3 =? 0)%Z || (virt <? USER_ADDR_BASE)%Z || negb (virt mod 4096 =? 0)%Z
    || negb (phys mod 4096 =? 0)%Z || (n =? 0)%Z in
  reject_if bad "Invalid surface mapping";;
  bytes ← ok_or (fits 64 (n * 4096)) "Surface range overflow";
  reject_if (negb (is_user_range virt bytes)) "Invalid surface mapping";;
  map_surface_loop cr3 virt phys (Z.to_nat n) 0.

(** kernel/src/memory.rs:484-489 [unmap_surface_frames, validation] *)
Definition check_surface_page (cr3 virt phys i : Z) : M unit :=
  page ← page_of (virt + i * 4096);
  m ← get;
  p ← unwrap (fits 64 (phys + i * 4096));
  reject_if (negb (bool_decide (translate cr3 page (tables m) = Some p)))
    "Surface backing does not match the owner page table".
(** kernel/src/memory.rs:490-494 [unmap_surface_frames, removal] *)
Definition unmap_surface_page (cr3 virt i : Z) : M unit :=
  page ← page_of (virt + i * 4096);
  f ← mapper_unmap cr3 page;
  _ ← ok_or f "Surface unmap failed"%string; mret tt.

(** kernel/src/memory.rs:480-499 [unmap_surface_frames] *)
Definition unmap_surface_frames (cr3 virt phys n : Z) : M unit :=
  for_each (upto n) (check_surface_page cr3 virt phys);;
  for_each (upto n) (unmap_surface_page cr3 virt);;
  prune_empty_user_tables cr3.

(** ** Fresh pages *)

(** kernel/src/memory.rs:573-615 [map_user_page_in_cr3] *)
Definition map_user_page_in_cr3 (cr3 virt : Z) (writable : bool) : M Z :=
  reject_if (negb (is_canonical virt) || (virt <? USER_ADDR_BASE)%Z || (USER_ADDR_LIMIT <=? virt)%Z)
    "user mapping target outside user space";;
  o ← alloc_frame;
  frame ← ok_or o "no free user frames"%string;
  page ← page_of virt;
  modify (λ m, with_tables (open_root cr3 (tables m)) m);;
  r ← mapper_map cr3 page frame (user_flags virt writable PTE_BIT_9);
  match r with
  | Mapped => mret virt
  | _ => free_frame frame;; throw "user page already mapped or page-table allocation failed"
  end.

(** kernel/src/memory.rs:618-630 [translate_page_in_cr3] *)
Definition translate_page_in_cr3 (cr3 virt : Z) (m : Memory) : option Z :=
  translate cr3 (virt - virt mod 4096) (tables m).

(** kernel/src/memory.rs:674-680 [map_user_region_in_cr3, rollback] *)
Definition take_back_page (cr3 start i : Z) : M unit :=
  page ← page_of (start + i * 4096);
  f ← mapper_unmap cr3 page;
  match f with Some f => free_frame f | None => mret tt end.

(** kernel/src/memory.rs:665-686 [map_user_region_in_cr3, loop] *)
Fixpoint map_region_loop (cr3 start : Z) (writable : bool) (n : nat) (i : Z) : M unit :=
  match n with
  | O => mret tt
  | S n =>
      r ← attempt (map_user_page_in_cr3 cr3 (start + i * 4096) writable);
      match r with
      | inr _ => map_region_loop cr3 start writable n (i + 1)
      | inl e =>
          for_each (upto i) (take_back_page cr3 start);;
          (if (cr3 =? 0)%Z then mret tt else prune_empty_user_tables cr3);;
          throw e
      end
  end.

(** kernel/src/memory.rs:660-687 [map_user_region_in_cr3] *)
Definition map_user_region_in_cr3 (cr3 virt len : Z) (writable : bool) : M Z :=
  stop ← ok_or (fits 64 (virt + len `max` 1)) "User region overflow"%string;
  reject_if ((virt <? USER_ADDR_BASE)%Z || (USER_ADDR_LIMIT <? stop)%Z) "User region out of bounds";;
  let start := Z.land virt (Z.lnot 4095) in
  map_region_loop cr3 start writable (Z.to_nat ((stop - start + 4095) / 4096)) 0;;
  mret virt.

(** ** Copy on write *)

Definition page_down (a : Z) : Z := Z.land a (Z.lnot 4095).

(** kernel/src/memory.rs:696-699 [register_cow_page] *)
Definition register_cow_page (cr3 virt original : Z) (m : Memory) : Memory :=
  with_cow (<[(cr3, page_down virt) := original]> (COW_PAGES m)) m.
(** kernel/src/memory.rs:702-705 [is_cow_page] *)
Definition is_cow_page (cr3 virt : Z) (m : Memory) : bool :=
  bool_decide (is_Some (COW_PAGES m !! (cr3, page_down virt))).

(** The copy of the page's contents is left out —
    kernel/src/memory.rs:709-752 [handle_cow_fault] *)
Definition handle_cow_fault (cr3 fault_virt : Z) : M unit :=
  let key := (cr3, page_down fault_virt) in
  m ← get;
  _ ← ok_or (COW_PAGES m !! key) "Not a tracked CoW page"%string;
  put (with_cow (delete key (COW_PAGES m)) m);;
  o ← alloc_frame;
  new_frame ← ok_or o "No physical memory for CoW duplication"%string;
  page ← page_of (page_down fault_virt);
  _ ← mapper_unmap cr3 page;
  r ← mapper_map cr3 page new_frame (Z.lor PTE_PRESENT (Z.lor PTE_USER PTE_WRITABLE));
  match r with
  | Mapped => mret tt
  | _ => throw "Failed to remap CoW page"
  end.
End memory.
