(* ===== verification/DmaRegion.v ===== *)
(** * DMA regions (kernel/src/dma_region.rs)

    Physical memory for bus-master devices: its allocation, the sub-ranges of a
    region, and two registries — of regions by the slot of their capability, and
    of buffers by the object of theirs.  The I/O page tables are left out. *)
From S2P Require Import Prelude Abi Cap FramePool AddrSpace.

(** kernel/src/dma_region.rs:51-55 [DmaSlot] *)
Record DmaSlot := mkDmaSlot { slot_offset : Z; slot_len : Z; owner_rights : Z }.

(** kernel/src/dma_region.rs:40-47 [DmaRegion] *)
Record DmaRegion := mkRegion {
  region_pages : Z;
  first_phys : Z;
  kern_virt : Z;
  region_slots : list DmaSlot;
  cap_handle : option Z;
}.

(** kernel/src/dma_region.rs:58-64 [DmaError] *)
Inductive DmaError := OutOfFrames | NotPageAligned | MappingFailed | SlotOverflow | Unmapped.

(** kernel/src/dma_region.rs:71-73 [is_page_aligned] *)
Definition is_page_aligned (addr : Z) : bool := (Z.land addr 4095 =? 0)%Z.

(** kernel/src/dma_region.rs:76-85 [validate_slot] *)
Definition validate_slot (region_len offset len : Z) : DmaError + unit :=
  if (len =? 0)%Z then inl SlotOverflow
  else match fits 64 (offset + len) with
       | None => inl SlotOverflow
       | Some end_ => if (region_len <? end_)%Z then inl SlotOverflow else inr tt
       end.

(** kernel/src/dma_region.rs:88-90 [rights_allow] *)
Definition rights_allow (slot_rights needed : Z) : bool := (Z.land slot_rights needed =? needed)%Z.

(** kernel/src/dma_region.rs:98-111 [DmaRegion::from_raw_parts] *)
Definition from_raw_parts (pages phys virt : Z) (h : option Z) : DmaRegion := mkRegion pages phys virt [] h.

Section region.
(** [memory::PHYS_OFFSET], set at boot. *)
Context (PHYS_OFFSET : Z).

(** The memory is zeroed — kernel/src/dma_region.rs:118-146 [DmaRegion::allocate] *)
Definition dma_allocate (pages : Z) : comp (option FramePool) DmaError DmaRegion :=
  reject_if ((pages =? 0)%Z || (4096 <? pages)%Z) OutOfFrames;;
  g ← get;
  let '(f, g') := user_alloc_contiguous_frames (Z.to_nat pages) g in
  put g';;
  first ← ok_or f OutOfFrames;
  virt ← unwrap (fits 64 (PHYS_OFFSET + first));
  (if is_canonical virt then mret tt else panic);;
  mret (mkRegion pages first virt [] None).
End region.

(** kernel/src/dma_region.rs:181-183 [size_bytes] *)
Definition size_bytes (r : DmaRegion) : option Z := fits 64 (region_pages r * 4096).

(** kernel/src/dma_region.rs:186-188 [capability] *)
Definition region_capability (r : DmaRegion) : option Z := cap_handle r.
(** kernel/src/dma_region.rs:191-193 [set_capability] *)
Definition set_capability (h : Z) (r : DmaRegion) : DmaRegion :=
  mkRegion (region_pages r) (first_phys r) (kern_virt r) (region_slots r) (Some h).

(** kernel/src/dma_region.rs:196-204 [define_slot] *)
Definition define_slot (offset len rights : Z) : comp DmaRegion DmaError unit :=
  r ← get;
  size ← unwrap (size_bytes r);
  match validate_slot size offset len with
  | inl e => throw e
  | inr _ => put (mkRegion (region_pages r) (first_phys r) (kern_virt r)
                    (region_slots r ++ [mkDmaSlot offset len rights]) (cap_handle r))
  end.

(** kernel/src/dma_region.rs:212-216 [release] *)
Definition release_region (r : DmaRegion) : DmaRegion := mkRegion 0 (first_phys r) (kern_virt r) [] None.

(** ** The registries *)

(** kernel/src/dma_region.rs:257-264 [SlotMapEntry] *)
Record SlotMapEntry := mkEntry { entry_phys : Z; entry_offset : Z; entry_len : Z }.

(** kernel/src/dma_region.rs:226-226 [DMA_REGIONS] *)
Record DmaRegistry := mkRegistry {
  DMA_REGIONS : gmap nat (Z * Z);
  SLOT_MAP : gmap nat SlotMapEntry;
}.

(** kernel/src/dma_region.rs:229-233 [register_dma_region] *)
Definition register_dma_region (cap_slot : nat) (phys pages : Z) (r : DmaRegistry) : DmaRegistry :=
  mkRegistry (<[cap_slot := (phys, pages)]> (DMA_REGIONS r)) (SLOT_MAP r).
(** kernel/src/dma_region.rs:236-238 [lookup_dma_region] *)
Definition lookup_dma_region (cap_slot : nat) (r : DmaRegistry) : option (Z * Z) := DMA_REGIONS r !! cap_slot.
(** kernel/src/dma_region.rs:269-278 [register_slot] *)
Definition register_slot (object : nat) (phys offset len : Z) (r : DmaRegistry) : DmaRegistry :=
  mkRegistry (DMA_REGIONS r) (<[object := mkEntry phys offset len]> (SLOT_MAP r)).
(** kernel/src/dma_region.rs:281-283 [lookup_slot] *)
Definition lookup_slot (object : nat) (r : DmaRegistry) : option SlotMapEntry := SLOT_MAP r !! object.

Section slots.
Context (PHYS_OFFSET : Z).
Abbreviation M := (comp (CapWorld * DmaRegistry) CapError).
Definition dma_cap {A} (m : comp CoreState CapError A) : M A := zoom fst (λ c s, (c, s.2)) (locked m).

(** The address and the length of the buffer —
    kernel/src/dma_region.rs:292-308 [resolve_slot_cap] *)
Definition resolve_slot_cap (h : CapHandle) (needed : Rights) : M (Z * Z) :=
  dma_cap (check_rights h needed);;
  id ← dma_cap (object_identity h);
  reject_if (negb (bool_decide (id.1 = Abi.Memory))) NoRights;;
  s ← get;
  e ← ok_or (lookup_slot id.2 s.2) NotFound;
  ptr ← unwrap (a ← fits 64 (PHYS_OFFSET + entry_phys e); fits 64 (a + entry_offset e));
  mret (ptr, entry_len e).

(** kernel/src/dma_region.rs:312-320 [recycle_slot_cap] *)
Definition recycle_slot_cap (h : CapHandle) : M unit :=
  id ← dma_cap (object_identity h);
  reject_if (negb (bool_decide (id.1 = Abi.Memory))) NoRights;;
  modify (λ s, (s.1, mkRegistry (DMA_REGIONS s.2) (delete id.2 (SLOT_MAP s.2))));;
  dma_cap (close h).
End slots.
