(* ===== verification/Surface.v ===== *)
(** * Surfaces (kernel/src/surface.rs)

    Pixel buffers that an application shares with the compositor: frames from
    the pool, charged to the owner and mapped into its address space at one of
    sixteen places.  The registry, the scheduler and the memory are the state.
    Telling the window manager what was presented is in [Wm]. *)
From S2P Require Import Prelude FramePool Process WaitQueue Sched AddrSpace.

(** kernel/src/surface.rs:5-9 [USER_SURFACE_BASE, SURFACE_SLOT_SIZE, MAX_SURFACES_PER_PROCESS] *)
Definition USER_SURFACE_BASE : Z := 1879048192.
Definition SURFACE_SLOT_SIZE : Z := 16777216.
Definition MAX_SURFACES_PER_PROCESS : nat := 16.
Definition MAX_SURFACE_WIDTH : Z := 1280.
Definition MAX_SURFACE_HEIGHT : Z := 720.

(** kernel/src/surface.rs:11-26 [SurfaceInfo] *)
Record SurfaceInfo := mkSurface {
  sf_id : Z;
  sf_owner : Z;
  sf_cr3 : Z;
  sf_slot : Z;
  sf_width : Z;
  sf_height : Z;
  sf_stride : Z;
  sf_vma : Z;
  sf_pages : Z;
  sf_phys : Z;
  sf_size : Z;
  sf_dirty : bool;
  sf_dirty_rect : Z * Z * Z * Z;
}.

Definition set_dirty (r : Z * Z * Z * Z) (s : SurfaceInfo) : SurfaceInfo :=
  mkSurface (sf_id s) (sf_owner s) (sf_cr3 s) (sf_slot s) (sf_width s) (sf_height s) (sf_stride s)
    (sf_vma s) (sf_pages s) (sf_phys s) (sf_size s) true r.
Definition set_extent (w h : Z) (s : SurfaceInfo) : SurfaceInfo :=
  mkSurface (sf_id s) (sf_owner s) (sf_cr3 s) (sf_slot s) w h (sf_stride s)
    (sf_vma s) (sf_pages s) (sf_phys s) (sf_size s) (sf_dirty s) (sf_dirty_rect s).

Section surface.
Context {PT : Type} `{!Mapper PT}.

(** kernel/src/surface.rs:28-29 [NEXT_SURFACE_ID, SURFACE_REGISTRY] *)
Record SurfaceWorld := mkSurfaces {
  sw_sched : Scheduler;
  sw_memory : Memory (PT := PT);
  SURFACE_REGISTRY : list SurfaceInfo;
  NEXT_SURFACE_ID : Z;
}.

Abbreviation M := (comp SurfaceWorld string).

Definition with_sw_sched (s : Scheduler) (w : SurfaceWorld) : SurfaceWorld :=
  mkSurfaces s (sw_memory w) (SURFACE_REGISTRY w) (NEXT_SURFACE_ID w).
Definition with_sw_memory (m : Memory (PT := PT)) (w : SurfaceWorld) : SurfaceWorld :=
  mkSurfaces (sw_sched w) m (SURFACE_REGISTRY w) (NEXT_SURFACE_ID w).
Definition with_registry (l : list SurfaceInfo) (w : SurfaceWorld) : SurfaceWorld :=
  mkSurfaces (sw_sched w) (sw_memory w) l (NEXT_SURFACE_ID w).

Definition on_memory {A} (m : comp (Memory (PT := PT)) string A) : M A := zoom sw_memory with_sw_memory m.
(** An operation on the control block of a process, which must exist. *)
Definition on_owner {A} (pid : Z) (e : string) (m : comp Process string A) : M A :=
  w ← get;
  p ← ok_or (procs (sw_sched w) !! pid) e;
  zoom (λ _, p) (λ p' w, with_sw_sched (with_procs (<[pid := p']> (procs (sw_sched w))) (sw_sched w)) w) m.

(** kernel/src/surface.rs:51-52 [create_surface_for_pid, used_mask] *)
Definition used_mask (pid : Z) (reg : list SurfaceInfo) : Z :=
  foldl (λ mask s, Z.lor mask (Z.shiftl 1 (sf_slot s))) 0%Z (filter (λ s, sf_owner s = pid) reg).
(** kernel/src/surface.rs:53-54 [create_surface_for_pid, slot] *)
Definition free_slot (pid : Z) (reg : list SurfaceInfo) : option Z :=
  let mask := used_mask pid reg in
  snd <$> list_find (λ i, Z.land mask (Z.shiftl 1 i) = 0%Z) (upto (Z.of_nat MAX_SURFACES_PER_PROCESS)).

(** kernel/src/surface.rs:57-69 [create_surface_for_pid, charge] *)
Definition charge_surface (bytes : Z) : comp Process string Z :=
  p ← get;
  reject_if (exited p || reaped p || (user_cr3 p =? 0)%Z) "Surface owner has no live user address space";;
  try_charge_memory bytes;;
  r ← attempt increment_surface_count;
  match r with
  | inl e => uncharge_memory bytes;; throw e
  | inr _ => mret (user_cr3 p)
  end.

(** kernel/src/surface.rs:161-166 [free_backing] *)
Definition free_backing (phys pages : Z) : M unit :=
  on_memory (for_each (upto pages) (λ i, p ← phys_of (phys + i * 4096); free_frame (frame_of p))).

(** kernel/src/surface.rs:168-173 [uncharge_surface] *)
Definition return_charge (bytes : Z) : comp Process string unit := uncharge_memory bytes;; decrement_surface_count.
Definition uncharge_surface (pid bytes : Z) : M unit :=
  modify (λ w, with_sw_sched (update pid (λ p, (return_charge bytes p).2) (sw_sched w)) w).

(** [memory::user_alloc_contiguous_frames] *)
Definition alloc_frames (n : Z) : M (option Z) :=
  on_memory (
    m ← get;
    let '(f, g) := user_alloc_contiguous_frames (Z.to_nat n) (pool m) in
    put (with_pool g m);; mret f).

(** kernel/src/surface.rs:71-82 [create_surface_for_pid, backing] *)
Definition back_surface (cr3 vma pages : Z) : M Z :=
  f ← alloc_frames pages;
  phys ← ok_or f "Out of contiguous memory for surface backing"%string;
  r ← attempt (on_memory (map_surface_frames cr3 vma phys pages));
  match r with
  | inl e => free_backing phys pages;; throw (e : string)
  | inr _ => mret phys
  end.

(** The registry has memory for one more record —
    kernel/src/surface.rs:38-112 [create_surface_for_pid] *)
Definition create_surface_for_pid (pid width height : Z) : M Z :=
  reject_if ((width =? 0)%Z || (MAX_SURFACE_WIDTH <? width)%Z || (height =? 0)%Z || (MAX_SURFACE_HEIGHT <? height)%Z)
    "Invalid surface dimensions";;
  stride ← ok_or (fits 32 (width * 4)) "Stride calculation overflow"%string;
  total_bytes ← ok_or (fits 64 (stride * height)) "Buffer size overflow"%string;
  let pages := ((total_bytes + 4095) / 4096)%Z in
  let charged_bytes := (pages * 4096)%Z in
  w ← get;
  slot ← ok_or (free_slot pid (SURFACE_REGISTRY w))
           "Process reached maximum surface limit (16 surfaces max)"%string;
  let vma := (USER_SURFACE_BASE + slot * SURFACE_SLOT_SIZE)%Z in
  cr3 ← on_owner pid "Surface owner not found" (charge_surface charged_bytes);
  r ← attempt (back_surface cr3 vma pages);
  match r with
  | inl e => uncharge_surface pid charged_bytes;; throw (e : string)
  | inr phys =>
      w ← get;
      let id := NEXT_SURFACE_ID w in
      put (mkSurfaces (sw_sched w) (sw_memory w)
             (SURFACE_REGISTRY w ++
                [mkSurface id pid cr3 slot width height stride vma pages phys charged_bytes false (0, 0, width, height)%Z])
             (wrap 64 (id + 1)));;
      mret id
  end.

(** The rectangle that is marked dirty — kernel/src/surface.rs:117-136 [present_surface_for_pid] *)
Definition present_rect (pid id x y w h : Z) : M (Z * Z * Z * Z) :=
  s ← get;
  '(i, surf) ← ok_or (list_find (λ f, sf_id f = id) (SURFACE_REGISTRY s)) "Surface not found"%string;
  reject_if (negb (sf_owner surf =? pid)%Z) "Permission denied: caller is not surface owner";;
  let cx := (x `min` sf_width surf)%Z in
  let cy := (y `min` sf_height surf)%Z in
  let cw := (w `min` saturating_sub (sf_width surf) cx)%Z in
  let ch := (h `min` saturating_sub (sf_height surf) cy)%Z in
  put (with_registry (<[i := set_dirty (cx, cy, cw, ch) surf]> (SURFACE_REGISTRY s)) s);;
  mret (cx, cy, cw, ch).

(** kernel/src/surface.rs:182-196 [destroy_surface_for_pid] *)
Definition destroy_surface_for_pid (pid id : Z) : M unit :=
  s ← get;
  '(i, surf) ← ok_or (list_find (λ f, sf_id f = id) (SURFACE_REGISTRY s)) "Surface not found"%string;
  reject_if (negb (sf_owner surf =? pid)%Z) "Permission denied: caller is not surface owner";;
  on_memory (unmap_surface_frames (sf_cr3 surf) (sf_vma surf) (sf_phys surf) (sf_pages surf));;
  modify (λ s, with_registry (delete i (SURFACE_REGISTRY s)) s);;
  free_backing (sf_phys surf) (sf_pages surf);;
  uncharge_surface pid (sf_size surf).

(** [v.clamp(1, max)], which panics when [max < 1]. *)
Definition clamp_from_one (v max : Z) : option Z :=
  if (max <? 1)%Z then None else Some (1 `max` (v `min` max))%Z.

(** The physical address for the pointer, and the size —
    kernel/src/surface.rs:200-219 [get_surface_render_target] *)
Definition get_surface_render_target (id pid req_w req_h : Z) : M (option (Z * Z * Z)) :=
  s ← get;
  match list_find (λ f, sf_id f = id ∧ sf_owner f = pid) (SURFACE_REGISTRY s) with
  | None => mret None
  | Some (i, surf) =>
      let max_safe_w := ((sf_stride surf / 4) `min` MAX_SURFACE_WIDTH)%Z in
      let max_safe_h := (if 0 <? sf_stride surf
                         then wrap 32 (sf_size surf / sf_stride surf) `min` MAX_SURFACE_HEIGHT else 0)%Z in
      safe_w ← unwrap (clamp_from_one req_w max_safe_w);
      safe_h ← unwrap (clamp_from_one req_h max_safe_h);
      put (with_registry (<[i := set_extent safe_w safe_h surf]> (SURFACE_REGISTRY s)) s);;
      mret (Some (sf_phys surf, safe_w, safe_h))
  end.

(** The loop stops at the first surface that cannot be destroyed —
    kernel/src/surface.rs:222-231 [cleanup_surfaces_for_pid] *)
Fixpoint cleanup_loop (fuel : nat) (pid : Z) : M unit :=
  match fuel with
  | O => panic
  | S fuel =>
      s ← get;
      match list_find (λ f, sf_owner f = pid) (SURFACE_REGISTRY s) with
      | None => mret tt
      | Some (_, surf) =>
          r ← attempt (destroy_surface_for_pid pid (sf_id surf));
          match r with inl _ => mret tt | inr _ => cleanup_loop fuel pid end
      end
  end.

(** Each round removes a record — kernel/src/surface.rs:222-231 [cleanup_surfaces_for_pid] *)
Definition cleanup_surfaces_for_pid (pid : Z) : M unit :=
  s ← get; cleanup_loop (S (length (SURFACE_REGISTRY s))) pid.
End surface.
