(* ===== verification/MemObject.v ===== *)
(** * Shared memory objects (kernel/src/mem_object.rs)

    Physical pages behind a capability: creation charges the owner's quota and
    takes frames from the pool, mappings and duplicated handles are counted,
    and the frames go back when the last user is gone.  The page tables are
    those of [AddrSpace]. *)
From S2P Require Import Prelude Abi Cap FramePool Process Sched AddrSpace.

(** kernel/src/mem_object.rs:13-16 [MEM_FLAG_READ, MEM_FLAG_WRITE, MEM_FLAG_EXEC, MEM_FLAG_DMA] *)
Definition MEM_FLAG_READ : Z := 1.
Definition MEM_FLAG_WRITE : Z := 2.
Definition MEM_FLAG_EXEC : Z := 4.
Definition MEM_FLAG_DMA : Z := 8.

(** kernel/src/mem_object.rs:18-26 [MemObject] *)
Record MemObject := mkMem {
  pages : nat;
  flags : Z;
  owner_pid : Z;
  frames : list Z;
  mapped_vaddrs : list (Z * Z);
  ref_count : Z;
  destroyed : bool;
}.

Section mem.
Context {PT : Type} `{!Mapper PT}.

(** The statics the operations touch — kernel/src/mem_object.rs:61-61 [MEM_OBJECT_STORE] *)
Record MemWorld := mkMemWorld {
  m_caps : CapWorld;
  m_sched : Scheduler;
  m_memory : Memory (PT := PT);
  MEM_OBJECT_STORE : gmap nat MemObject;
}.

Local Abbreviation M := (comp MemWorld CapError).

Definition with_m_caps (c : CapWorld) (w : MemWorld) : MemWorld :=
  mkMemWorld c (m_sched w) (m_memory w) (MEM_OBJECT_STORE w).
Definition with_m_sched (s : Scheduler) (w : MemWorld) : MemWorld :=
  mkMemWorld (m_caps w) s (m_memory w) (MEM_OBJECT_STORE w).
Definition with_memory (m : Memory (PT := PT)) (w : MemWorld) : MemWorld :=
  mkMemWorld (m_caps w) (m_sched w) m (MEM_OBJECT_STORE w).
Definition with_store (f : gmap nat MemObject → gmap nat MemObject) (w : MemWorld) : MemWorld :=
  mkMemWorld (m_caps w) (m_sched w) (m_memory w) (f (MEM_OBJECT_STORE w)).

Definition mem_cap {A} (m : comp CoreState CapError A) : M A := zoom m_caps with_m_caps (locked m).

Definition mem_op {E A} (m : comp (Memory (PT := PT)) E A) : comp MemWorld E A := zoom m_memory with_memory m.

(** The owner gets its charge back, the pool its frames —
    kernel/src/mem_object.rs:28-37 [Drop for MemObject] *)
Definition drop_object (o : MemObject) : M unit :=
  modify (λ w, with_m_sched (uncharge_process_memory (owner_pid o) (Z.of_nat (pages o) * 4096) (m_sched w)) w);;
  ignore (mem_op (for_each (frames o) (λ f, free_frame (frame_of f)))).

(** Frames taken before a failure are not given back —
    kernel/src/mem_object.rs:41-48 [MemObject::new, frame loop] *)
Fixpoint take_frames (n : nat) (acc : list Z) : comp MemWorld string (list Z) :=
  match n with
  | O => mret acc
  | S n =>
      f ← mem_op alloc_frame;
      match f with
      | Some f => take_frames n (acc ++ [f])
      | None => throw "Out of physical frames"%string
      end
  end.

(** kernel/src/mem_object.rs:40-59 [MemObject::new] *)
Definition mem_object_new (n : nat) (fl owner : Z) : comp MemWorld string MemObject :=
  fs ← take_frames n [];
  mret (mkMem n fl owner fs [] 1 false).

Definition uncharge (pid bytes : Z) : M unit :=
  modify (λ w, with_m_sched (uncharge_process_memory pid bytes (m_sched w)) w).

(** An object that [insert] replaces is dropped —
    kernel/src/mem_object.rs:105-107 [mem_create, insert] *)
Definition store_object (idx : nat) (o : MemObject) : M unit :=
  w ← get;
  put (with_store <[idx := o]> w);;
  match MEM_OBJECT_STORE w !! idx with
  | Some old => drop_object old
  | None => mret tt
  end.

(** On the error paths after the object exists both the explicit uncharge and
    the destructor run — kernel/src/mem_object.rs:64-110 [mem_create] *)
Definition mem_create (n : nat) (fl pid : Z) : M CapHandle :=
  reject_if ((n =? 0)%nat || (16384 <? Z.of_nat n)%Z) Invalid;;
  let bytes := (Z.of_nat n * 4096)%Z in
  map_err (λ _, QuotaExceeded) (zoom m_sched with_m_sched (try_charge_process_memory pid bytes));;
  r ← attempt (mem_object_new n fl pid);
  match r with
  | inl _ => uncharge pid bytes;; throw Exhausted
  | inr o =>
      r ← attempt (mem_cap (create_object Abi.MemObject));
      match r with
      | inl e => uncharge pid bytes;; drop_object o;; throw e
      | inr h =>
          r ← attempt (mem_cap (object_identity h));
          match r with
          | inl e =>
              uncharge pid bytes;;
              ignore (mem_cap (revoke h));; ignore (mem_cap (close h));;
              drop_object o;; throw e
          | inr id => store_object id.2 o;; mret h
          end
      end
  end.

(** The handle's object, which the store must hold —
    kernel/src/mem_object.rs:115-118 [mem_destroy, lookup] *)
Definition find_object (h : CapHandle) : M (nat * MemObject) :=
  id ← mem_cap (object_identity h);
  w ← get;
  o ← ok_or (MEM_OBJECT_STORE w !! id.2) NotFound;
  mret (id.2, o).

Definition set_object (idx : nat) (o : MemObject) : M unit := modify (with_store <[idx := o]>).
Definition remove_object (idx : nat) (o : MemObject) : M unit :=
  modify (with_store (delete idx));; drop_object o.

Definition set_refs (r : Z) (o : MemObject) : MemObject :=
  mkMem (pages o) (flags o) (owner_pid o) (frames o) (mapped_vaddrs o) r (destroyed o).
Definition set_maps (l : list (Z * Z)) (o : MemObject) : MemObject :=
  mkMem (pages o) (flags o) (owner_pid o) (frames o) l (ref_count o) (destroyed o).
Definition set_destroyed (o : MemObject) : MemObject :=
  mkMem (pages o) (flags o) (owner_pid o) (frames o) (mapped_vaddrs o) (ref_count o) true.

(** [if ref_count > 0 { ref_count -= 1 }] *)
Definition drop_ref (o : MemObject) : MemObject :=
  if (0 <? ref_count o)%Z then set_refs (ref_count o - 1) o else o.

(** kernel/src/mem_object.rs:113-134 [mem_destroy] *)
Definition mem_destroy (h : CapHandle) : M unit :=
  mem_cap (check_rights h DESTROY);;
  '(idx, o) ← find_object h;
  let o := set_destroyed o in
  set_object idx o;;
  (if bool_decide (mapped_vaddrs o = []) && (ref_count o <=? 1)%Z then
     remove_object idx o;; ignore (mem_cap (revoke h))
   else set_object idx (drop_ref o));;
  ignore (mem_cap (close h)).

(** kernel/src/mem_object.rs:137-150 [mem_dup] *)
Definition mem_dup (h : CapHandle) (r : Rights) : M CapHandle :=
  mem_cap (check_rights h GRANT);;
  '(idx, o) ← find_object h;
  reject_if (destroyed o) Revoked;;
  h' ← mem_cap (grant h r);
  set_object idx (set_refs (saturating_add 64 (ref_count o) 1) o);;
  mret h'.

(** The target process must be alive and have an address space —
    kernel/src/mem_object.rs:166-173 [mem_map, target] *)
Definition map_target (pid : Z) : M Z :=
  w ← get;
  p ← ok_or (procs (m_sched w) !! pid) NotFound;
  reject_if (exited p || reaped p || (user_cr3 p =? 0)%Z) Invalid;;
  mret (user_cr3 p).

(** [n] pages from [v] are unmapped, errors being ignored —
    kernel/src/mem_object.rs:180-183 [mem_map, rollback] *)
Definition unmap_pages (cr3 v : Z) (n : nat) : M unit :=
  for_each (seq 0 n) (λ i : nat,
    vi ← unwrap (fits 64 (v + Z.of_nat i * 4096));
    ignore (mem_op (unmap_user_phys_range_in_cr3 cr3 vi 1))).

(** kernel/src/mem_object.rs:175-187 [mem_map, page loop] *)
Fixpoint map_pages (cr3 v : Z) (writable : bool) (fs : list Z) (i : nat) : M unit :=
  match fs with
  | [] => mret tt
  | f :: fs =>
      vi ← unwrap (fits 64 (v + Z.of_nat i * 4096));
      r ← attempt (mem_op (map_user_phys_range_in_cr3 cr3 vi f 1 writable));
      match r with
      | inr _ => map_pages cr3 v writable fs (S i)
      | inl _ => unmap_pages cr3 v i;; throw Exhausted
      end
  end.

(** kernel/src/mem_object.rs:153-192 [mem_map] *)
Definition mem_map (h : CapHandle) (target_pid v : Z) (writable : bool) : M Z :=
  mem_cap (check_rights h MAP);;
  (if writable then mem_cap (check_rights h WRITE) else mret tt);;
  '(idx, o) ← find_object h;
  reject_if (destroyed o) Revoked;;
  cr3 ← map_target target_pid;
  map_pages cr3 v writable (frames o) 0;;
  set_object idx (set_refs (saturating_add 64 (ref_count o) 1)
                    (set_maps (mapped_vaddrs o ++ [(target_pid, v)]) o));;
  mret v.

(** kernel/src/mem_object.rs:195-225 [mem_unmap] *)
Definition mem_unmap (h : CapHandle) (target_pid v : Z) : M unit :=
  mem_cap (check_rights h MAP);;
  '(idx, o) ← find_object h;
  pos ← ok_or (fst <$> list_find (λ e, e = (target_pid, v)) (mapped_vaddrs o)) NotFound;
  let o := drop_ref (set_maps (delete pos (mapped_vaddrs o)) o) in
  set_object idx o;;
  w ← get;
  match procs (m_sched w) !! target_pid with
  | Some p => if (user_cr3 p =? 0)%Z then mret tt else unmap_pages (user_cr3 p) v (pages o)
  | None => mret tt
  end;;
  if destroyed o && bool_decide (mapped_vaddrs o = []) && (ref_count o <=? 1)%Z then remove_object idx o
  else mret tt.
End mem.
