(* ===== verification/MemProps.v ===== *)
(** * Address spaces and memory objects: properties

    Surface mappings are transactional; a memory object owns its frames until
    its last mapping and handle are gone; what a failed creation leaves behind. *)
From S2P Require Import Prelude Abi Cap CapInv CapProps CapStatics FramePool Process WaitQueue Sched AddrSpace MemObject.

#[export] Instance map_result_eq_dec : EqDecision map_result.
Proof. solve_decision. Defined.

Section memory.
Context {PT : Type} `{!Mapper PT} `{!MapperLaws PT}.
Context (rs0 : list (Z * Z)).
Local Abbreviation Memory := (Memory (PT := PT)).
Implicit Types (m : Memory) (K : Z → Prop).

(** ** Who holds a frame *)

(** The frames that satisfy [K] are allocated, and none of them is a page table. *)
Definition holds K m : Prop :=
  ∃ p, pool m = Some p ∧ pool_wf rs0 p ∧ pool_aligned p ∧
    (∀ f, f ∈ table_frames (tables m) → f ∈ allocated p) ∧
    (∀ f, K f → f ∈ allocated p ∧ f ∉ table_frames (tables m)).

Lemma holds_weaken K K' m : (∀ f, K' f → K f) → holds K m → holds K' m.
Proof. intros HK (p & ? & ? & ? & ? & Hk). exists p. split_and!; try done. auto. Qed.

Lemma holds_free K f m :
  holds K m → (f ∉ table_frames (tables m)) → ¬ K f →
  ∃ m', free_frame f m = (Ok tt, m') ∧ holds K m' ∧ tables m' = tables m.
Proof.
  intros (p & Hp & Hwf & Hal0 & Ht & Hk) Hf HKf. destruct (release_spec _ _ f Hwf) as (p' & Hrel & Hwf' & _ & _ & Hal & _).
  exists (with_pool (Some p') m). unfold free_frame, mbind, comp_bind, get, user_free_frame. cbn.
  rewrite Hp. cbn. rewrite Hrel. cbn. split_and!; [done| |done]. exists p'. split_and!; [done|done|by eapply release_aligned|..]; cbn; rewrite Hal.
  - intros x Hx. apply elem_of_difference. split; [by apply Ht|]. by intros ->%elem_of_singleton.
  - intros x Hx. destruct (Hk x Hx) as [Hxa Hxt]. split; [|done]. apply elem_of_difference. split; [done|].
    by intros ->%elem_of_singleton.
Qed.

Lemma holds_free_all K fs m :
  holds K m → (∀ f, f ∈ fs → (f ∉ table_frames (tables m)) ∧ ¬ K f) →
  ∃ m', for_each fs free_frame m = (Ok tt, m') ∧ holds K m' ∧ tables m' = tables m.
Proof.
  revert m. induction fs as [|f fs IH]; intros m Hm Hfs; [by exists m|].
  destruct (Hfs f) as [H1 H2]; [left|]. destruct (holds_free K f m Hm H1 H2) as (m1 & Hf & Hm1 & Ht1).
  destruct (IH m1 Hm1) as (m2 & Hr & Hm2 & Ht2).
  { intros x Hx. rewrite Ht1. apply Hfs. by right. }
  exists m2. cbn. unfold mbind, comp_bind. rewrite Hf. split_and!; [done|done|congruence].
Qed.

Lemma alloc_steps g g' p :
  rtc (λ a b, b = (user_alloc_frame a).2) g g' → g = Some p → pool_wf rs0 p → pool_aligned p →
  ∃ p', g' = Some p' ∧ pool_wf rs0 p' ∧ pool_aligned p' ∧ allocated p ⊆ allocated p'.
Proof.
  intros Hr. revert p. induction Hr as [g|g g1 g2 -> _ IH]; intros p -> Hwf Hal0; [by exists p|].
  pose proof (allocate_spec _ _ 1 Hwf) as Ha. pose proof (allocate_aligned 1 p Hal0) as [Hal1 _]. unfold user_alloc_frame, user_alloc_contiguous_frames in IH.
  destruct (allocate 1 p) as [[a|] p1].
  - destruct Ha as (Hwf1 & _ & _ & Hal & _). destruct (IH p1) as (p2 & -> & Hwf2 & Hal2 & Hsub); [done..|].
    exists p2. split_and!; [done..|]. rewrite Hal in Hsub. set_solver.
  - destruct Ha as [-> _]. by apply IH.
Qed.

Lemma holds_map K c pg f fl m r m' :
  holds K m → mapper_map c pg f fl m = (Ok r, m') → holds K m'.
Proof.
  intros (p & Hp & Hwf & Hal0 & Ht & Hk) Hm. unfold mapper_map in Hm.
  destruct (map_to c pg f fl (tables m) (pool m)) as [[r1 t1] g1] eqn:Hmt. injection Hm as <- <-.
  destruct (map_to_pool _ _ _ _ _ _ _ _ _ Hmt) as [Hrtc Htab].
  destruct (alloc_steps _ _ _ Hrtc Hp Hwf Hal0) as (p' & -> & Hwf' & Hal' & Hsub). specialize (Htab p p' Hp eq_refl).
  exists p'. cbn. rewrite Htab. split_and!; [done..|set_solver|].
  intros x Hx. destruct (Hk x Hx). split; [by apply Hsub|set_solver].
Qed.

Lemma holds_tables K m t :
  holds K m → table_frames t = table_frames (tables m) → holds K (with_tables t m).
Proof. intros (p & Hp & Hwf & Hal0 & Ht & Hk) Heq. exists p. cbn. by rewrite Heq. Qed.

Lemma wp_page_of v (Q : outcome string Z → Memory → Prop) m :
  (is_canonical v = true → (0 ≤ v < 2 ^ 64)%Z → Q (Ok (v - v mod 4096)%Z) m) → Q Panic m → wp (page_of v) Q m.
Proof.
  intros HO HP. unfold page_of. wp_steps; [done|].
  match goal with H : fits _ _ = Some _ |- _ => apply fits_Some in H as [-> ?] end.
  destruct (is_canonical v) eqn:Hc; [wp_step; by apply HO|by wp_step].
Qed.

Lemma wp_mapper_map K c pg f fl Q m :
  holds K m → (∀ r m', holds K m' → mapper_map c pg f fl m = (Ok r, m') → Q (Ok r) m') → wp (mapper_map c pg f fl) Q m.
Proof.
  intros Hm HQ. apply wp_intro. destruct (mapper_map c pg f fl m) as [r m'] eqn:He.
  assert (∃ r', r = Ok r') as [r' ->].
  { unfold mapper_map in He. destruct (map_to _ _ _ _ _ _) as [[??]?]. injection He as <- _. eauto. }
  cbn. apply HQ; [|done]. by eapply holds_map.
Qed.

Lemma wp_mapper_unmap K c pg Q m :
  holds K m → (∀ o m', holds K m' → mapper_unmap c pg m = (Ok o, m') → Q (Ok o) m') → wp (mapper_unmap c pg) Q m.
Proof.
  intros Hm HQ. apply wp_intro. destruct (mapper_unmap c pg m) as [r m'] eqn:He.
  unfold mapper_unmap in *. pose proof (unmap_tables c pg (tables m)) as Ht.
  destruct (unmap c pg (tables m)) as [o t] eqn:Hu. injection He as <- <-. apply HQ; [|done].
  by apply holds_tables.
Qed.

Lemma prune_keeps K c m : holds K m → ∃ m', prune_empty_user_tables c m = (Ok tt, m') ∧ holds K m' ∧
  ∀ c' p', translate c' p' (tables m') = translate c' p' (tables m).
Proof.
  intros Hm. pose proof (empty_tables_tables c (tables m)) as (Hnd & Hin & Heq).
  pose proof (empty_tables_translate c (tables m)) as Htr.
  unfold prune_empty_user_tables, mbind, comp_bind, get. destruct (empty_tables c (tables m)) as [fs t]. cbn in *.
  pose proof Hm as (p & Hp & Hwf & Hal0 & Ht & Hk).
  destruct (holds_free_all K fs (with_tables t m)) as (m' & Hr & Hm' & Htab).
  - exists p. cbn. rewrite Heq. split_and!; [done..|set_solver|]. intros f Hf. destruct (Hk f Hf). split; [done|set_solver].
  - intros f Hf. cbn. rewrite Heq. split; [set_solver|]. intros HKf. destruct (Hk f HKf) as [_ Hn]. by apply Hn, Hin.
  - exists m'. split_and!; [exact Hr|done|]. intros c' p'. by rewrite Htab.
Qed.

(** ** Canonical addresses *)

Lemma canonical_low v : (0 ≤ v < 2 ^ 47)%Z → is_canonical v = true.
Proof.
  intros Hv. unfold is_canonical, to_signed, wrap. rewrite Z.shiftl_mul_pow2 by lia.
  rewrite (Z.mod_small (v * 2 ^ 16)) by lia. rewrite (proj2 (Z.ltb_lt _ _)) by (change (64 - 1)%Z with 63%Z; lia).
  rewrite Z.shiftr_div_pow2, Z.div_mul by lia. rewrite Z.mod_small by lia. apply Z.eqb_refl.
Qed.

Lemma page_of_user v m : user_page v → page_of v m = (Ok v, m).
Proof.
  intros [Hv Ha]. unfold USER_ADDR_BASE, USER_ADDR_LIMIT in Hv.
  unfold page_of, mbind, comp_bind. assert (fits 64 v = Some v) as -> by (apply fits_Some; split; [done|lia]).
  cbn. rewrite canonical_low by lia. unfold mret, comp_ret. by rewrite Ha, Z.sub_0_r.
Qed.

(** ** Surfaces *)

Section surface.
Context (K : Z → Prop) (cr3 virt phys : Z) (m0 : Memory).
Context (Hcr3 : cr3 ≠ 0%Z).

Definition surface_page (j : nat) : Z := virt + Z.of_nat j * 4096.
Definition mine (k i : nat) (p : Z) : Prop := ∃ j, k ≤ j < i ∧ p = surface_page j.

(** Pages [k] to [i] of the surface are mapped to its frames, the first [k] are
    unmapped again, everything else is as it was, and the pages were free. *)
Record surface_state (k i : nat) m : Prop := {
  ss_mine j : k ≤ j < i → translate cr3 (surface_page j) (tables m) = Some (phys + Z.of_nat j * 4096)%Z;
  ss_was_free j : j < i → translate cr3 (surface_page j) (tables m0) = None;
  ss_rest c p : c ≠ 0%Z → user_page p → ¬ (c = cr3 ∧ mine k i p) →
    translate c p (tables m) = translate c p (tables m0);
  ss_holds : holds K m;
}.

Lemma surface_page_inj j j' : surface_page j = surface_page j' → j = j'.
Proof. unfold surface_page. lia. Qed.

Lemma elsewhere_user c p page : c ≠ 0%Z → ¬ (c = cr3 ∧ p = page) → elsewhere_page cr3 page c p.
Proof. intros Hc Hn. unfold elsewhere_page. destruct (decide (p = page)); [right|by left]. tauto. Qed.

(** The whole surface lies in user space, its frames in physical memory. *)
Context (n : nat) (Huser : ∀ j, j < n → user_page (surface_page j)).
Context (Hphys : ∀ j, j < n → (0 ≤ phys + Z.of_nat j * 4096 < 2 ^ 52 ∧ (phys + Z.of_nat j * 4096) mod 4096 = 0)%Z).

Lemma mine_new k i : ¬ mine k i (surface_page i).
Proof. intros (j & Hj & Heq%surface_page_inj). lia. Qed.

Lemma surface_extend i m f fl m' :
  surface_state 0 i m → i < n → f = (phys + Z.of_nat i * 4096)%Z →
  mapper_map cr3 (surface_page i) f fl m = (Ok Mapped, m') → surface_state 0 (S i) m'.
Proof.
  intros [H1 H2 H3 H4] Hi -> Hm. pose proof (holds_map _ _ _ _ _ _ _ _ H4 Hm) as H4'.
  unfold mapper_map in Hm. destruct (map_to _ _ _ _ _ _) as [[r t] g] eqn:Hmt. injection Hm as -> <-.
  apply map_to_mapped in Hmt as (Hnone & Hsome & Hrest); [|by apply Huser].
  split; [..|exact H4']; cbn.
  - intros j Hj. destruct (decide (j = i)) as [->|Hne]; [done|]. rewrite Hrest; [apply H1; lia|apply Huser; lia|].
    left. by intros ?%surface_page_inj.
  - intros j Hj. destruct (decide (j = i)) as [->|Hne]; [|apply H2; lia].
    rewrite <-H3; [done|done|by apply Huser|]. intros [_ Hm]. by apply mine_new in Hm.
  - intros c p Hc Hp Hn. rewrite Hrest; [apply H3; [done|done|]|done|].
    + intros [-> (j & Hj & ->)]. apply Hn. split; [done|]. exists j. split; [lia|done].
    + apply elsewhere_user; [done|]. intros [-> ->]. apply Hn. split; [done|]. exists i. split; [lia|done].
Qed.

Lemma surface_refused i m pg f fl r m' :
  surface_state 0 i m → r ≠ Mapped → mapper_map cr3 pg f fl m = (Ok r, m') → surface_state 0 i m'.
Proof.
  intros [H1 H2 H3 H4] Hr Hm. pose proof (holds_map _ _ _ _ _ _ _ _ H4 Hm) as H4'.
  unfold mapper_map in Hm. destruct (map_to _ _ _ _ _ _) as [[r' t] g] eqn:Hmt. injection Hm as -> <-.
  pose proof (map_to_refused _ _ _ _ _ _ _ _ _ Hmt Hr) as Hsame.
  split; [..|exact H4']; cbn; intros; rewrite ?Hsame; auto.
Qed.

Lemma surface_unmap k i m :
  surface_state k i m → k < i → i ≤ n →
  ∃ m', unmap_page_at cr3 virt (Z.of_nat k) m = (Ok tt, m') ∧ surface_state (S k) i m'.
Proof.
  intros [H1 H2 H3 H4] Hk Hi. assert (user_page (surface_page k)) as Hu by (apply Huser; lia).
  unfold unmap_page_at, mbind, comp_bind, unwrap, mret, comp_ret.
  assert (fits 64 (virt + Z.of_nat k * 4096) = Some (surface_page k)) as ->.
  { apply fits_Some. split; [done|]. destruct Hu as [Hu _]. unfold USER_ADDR_BASE, USER_ADDR_LIMIT, surface_page in *. lia. }
  rewrite page_of_user by done. unfold mapper_unmap.
  pose proof (unmap_spec cr3 _ (tables m) Hu) as (_ & Hnone & Hrest).
  pose proof (unmap_tables cr3 (surface_page k) (tables m)) as Ht.
  destruct (unmap cr3 (surface_page k) (tables m)) as [o t]. cbn in *.
  eexists. split; [done|]. split; cbn; [| |..|by apply holds_tables].
  - intros j Hj. rewrite Hrest; [apply H1; lia|apply Huser; lia|]. left. intros ?%surface_page_inj. lia.
  - done.
  - intros c p Hc Hp Hn. destruct (decide (c = cr3 ∧ p = surface_page k)) as [[-> ->]|Hne].
    + rewrite Hnone. symmetry. by apply H2.
    + rewrite Hrest; [|done|by apply elsewhere_user]. apply H3; [done|done|]. intros [-> (j & Hj & ->)].
      apply Hn. split; [done|]. exists j. split; [|done]. assert (j ≠ k) by (intros ->; by apply Hne). lia.
Qed.

Lemma surface_unmap_all k i m :
  surface_state k i m → k ≤ i → i ≤ n →
  ∃ m', for_each (Z.of_nat <$> seq k (i - k)) (unmap_page_at cr3 virt) m = (Ok tt, m') ∧ surface_state i i m'.
Proof.
  intros Hm Hk Hi. remember (i - k) as d eqn:Hd. revert k m Hm Hk Hd. induction d as [|d IH]; intros k m Hm Hk Hd.
  { exists m. split; [done|]. by replace k with i in Hm by lia. }
  destruct (surface_unmap k i m Hm) as (m1 & Hu & Hm1); [lia|lia|].
  destruct (IH (S k) m1 Hm1) as (m2 & Hr & Hm2); [lia|lia|]. exists m2. split; [|done].
  cbn. unfold mbind, comp_bind. by rewrite Hu.
Qed.

Lemma surface_restored i m c p : surface_state i i m → c ≠ 0%Z → user_page p →
  translate c p (tables m) = translate c p (tables m0).
Proof. intros [_ _ H _] Hc Hp. apply H; [done|done|]. intros [_ (j & Hj & _)]. lia. Qed.

Lemma surface_loop_spec d i m :
  surface_state 0 i m → i + d = n →
  ∃ r m', map_surface_loop cr3 virt phys d (Z.of_nat i) m = (r, m') ∧
    match r with
    | Ok _ => surface_state 0 n m'
    | Err _ => holds K m' ∧ ∀ c p, c ≠ 0%Z → user_page p → translate c p (tables m') = translate c p (tables m0)
    | Panic => False
    end.
Proof.
  revert i m. induction d as [|d IH]; intros i m Hm Hd; cbn [map_surface_loop].
  { exists (Ok tt), m. split; [done|]. by replace n with i by lia. }
  assert (i < n) as Hi by lia. destruct (Hphys i Hi) as [Hp Ha].
  change (virt + Z.of_nat i * 4096)%Z with (surface_page i).
  erewrite bind_ok by (by apply page_of_user, Huser).
  assert (phys_of (phys + Z.of_nat i * 4096) m = (Ok (phys + Z.of_nat i * 4096)%Z, m)) as Hphys1.
  { unfold phys_of. assert (fits 52 (phys + Z.of_nat i * 4096) = Some (phys + Z.of_nat i * 4096)%Z) as ->
      by (by apply fits_Some). done. }
  erewrite bind_ok by exact Hphys1. unfold frame_of. rewrite Ha, Z.sub_0_r.
  destruct (mapper_map cr3 (surface_page i) (phys + Z.of_nat i * 4096) surface_flags m) as [r1 m1] eqn:Hmap.
  assert (∃ r, r1 = Ok r) as [r ->].
  { unfold mapper_map in Hmap. destruct (map_to _ _ _ _ _ _) as [[??]?]. injection Hmap as <- _. eauto. }
  erewrite bind_ok by exact Hmap. destruct (decide (r = Mapped)) as [->|Hr].
  - replace (Z.of_nat i + 1)%Z with (Z.of_nat (S i)) by lia. apply IH; [|lia]. by eapply surface_extend.
  - pose proof (surface_refused _ _ _ _ _ _ _ Hm Hr Hmap) as Hm1.
    destruct (surface_unmap_all 0 i m1 Hm1) as (m2 & Hun & Hm2); [lia|lia|]. rewrite Nat.sub_0_r in Hun.
    destruct (prune_keeps K cr3 m2) as (m3 & Hpr & Hk & Htr); [apply Hm2|].
    exists (Err "Surface mapping failed or overlaps an existing mapping"%string), m3. split.
    + unfold upto. rewrite Nat2Z.id. destruct r; [done|..];
        (erewrite bind_ok by exact Hun); (erewrite bind_ok by exact Hpr); done.
    + split; [done|]. intros c p Hc Hu. rewrite Htr. by eapply surface_restored.
Qed.
End surface.

(** A page [i] of a surface at [virt]. *)
Definition surface_covers (virt n p : Z) : Prop := ∃ i, (0 ≤ i < n)%Z ∧ p = (virt + i * 4096)%Z.

Lemma is_user_range_bounds ptr len :
  is_user_range ptr len = true → (0 ≤ len)%Z → (ptr < USER_ADDR_LIMIT ∧ ptr + len ≤ USER_ADDR_LIMIT)%Z.
Proof.
  unfold is_user_range. destruct (ptr =? 0)%Z; [done|]. destruct (is_canonical ptr); [|done]. cbn [negb].
  destruct (USER_ADDR_LIMIT <=? ptr)%Z eqn:Hl; [done|]. destruct (fits 64 (ptr + len)) as [x|] eqn:Hf; [|done].
  apply fits_Some in Hf as [-> _]. intros Hs _. reflect. lia.
Qed.

Lemma surface_checked cr3 virt phys n m :
  (0 ≤ n)%Z →
  (∃ e, map_surface_frames cr3 virt phys n m = (Err e, m)) ∨
  (cr3 ≠ 0%Z ∧ (USER_ADDR_BASE ≤ virt)%Z ∧ (virt mod 4096 = 0)%Z ∧ (phys mod 4096 = 0)%Z ∧
   (virt + n * 4096 ≤ USER_ADDR_LIMIT)%Z ∧
   map_surface_frames cr3 virt phys n m = map_surface_loop cr3 virt phys (Z.to_nat n) 0 m).
Proof.
  intros Hn. unfold map_surface_frames.
  destruct (_ || _) eqn:Hbad; [left; eexists; reflexivity|]. reflect.
  erewrite bind_ok by reflexivity.
  destruct (fits 64 (n * 4096)) as [bytes|] eqn:Hb; [|left; eexists; reflexivity].
  apply fits_Some in Hb as [-> _]. erewrite bind_ok by reflexivity.
  destruct (is_user_range virt (n * 4096)) eqn:Hr; [|left; eexists; reflexivity].
  apply is_user_range_bounds in Hr as [_ Hr]; [|lia]. right. split_and!; try done.
Qed.

(** What mapping a surface does, on every branch. *)
Lemma map_surface_spec (K : Z → Prop) (cr3 virt phys n : Z) (m : Memory)
    (Hm : holds K m) (Hn : (0 ≤ n)%Z) (Hphys : (0 ≤ phys ∧ phys + n * 4096 ≤ 2 ^ 52)%Z) :
  ∃ r m', map_surface_frames cr3 virt phys n m = (r, m') ∧ holds K m' ∧
    match r with
    | Ok _ =>
        (∀ i, (0 ≤ i < n)%Z → translate cr3 (virt + i * 4096) (tables m) = None ∧
           translate cr3 (virt + i * 4096) (tables m') = Some (phys + i * 4096)%Z) ∧
        ∀ c p, c ≠ 0%Z → user_page p → ¬ (c = cr3 ∧ surface_covers virt n p) →
          translate c p (tables m') = translate c p (tables m)
    | Err _ => ∀ c p, c ≠ 0%Z → user_page p → translate c p (tables m') = translate c p (tables m)
    | Panic => False
    end.
Proof.
  destruct (surface_checked cr3 virt phys n m Hn) as [[e He]|(Hc & Hb & Hv & Hp & Hl & ->)];
    [exists (Err e), m; by split_and!|].
  assert (surface_state K cr3 virt phys m 0 0 m) as H0 by (split; [lia|lia|done|done]).
  destruct (surface_loop_spec K cr3 virt phys m Hc (Z.to_nat n)) with (d := Z.to_nat n) (i := 0) (m := m)
    as (r & m' & Hrun & Hr); [..|exact H0|done|].
  - intros j Hj. unfold surface_page. split; [unfold USER_ADDR_BASE, USER_ADDR_LIMIT in *; lia|].
    rewrite Z.add_mod, Hv, Z.mul_mod, Z.mod_same by lia. rewrite Z.mul_0_r. done.
  - intros j Hj. split; [lia|]. rewrite Z.add_mod, Hp, Z.mul_mod, Z.mod_same by lia. rewrite Z.mul_0_r. done.
  - exists r, m'. split; [exact Hrun|]. destruct r as [[]|e|]; [|by destruct Hr|done].
    destruct Hr as [H1 H2 H3 H4]. split; [done|]. split.
    + intros i Hi. specialize (H1 (Z.to_nat i)). specialize (H2 (Z.to_nat i)). unfold surface_page in *.
      rewrite Z2Nat.id in * by lia. split; [apply H2; lia|apply H1; lia].
    + intros c p Hc' Hu Hn'. apply H3; [done|done|]. intros [-> (j & Hj & ->)]. apply Hn'. split; [done|].
      exists (Z.of_nat j). split; [lia|done].
Qed.

(** Mapping a surface is all or nothing: on success every page of the surface was
    free and now maps to its frame, on failure every mapping of every address
    space is what it was, pages already mapped are never touched, no frame that
    somebody holds is lost to the page tables, and the call never panics. *)
Theorem surface_mapping_is_transactional (K : Z → Prop) (cr3 virt phys n : Z) (m : Memory)
    (Hm : holds K m) (Hn : (0 ≤ n)%Z) (Hphys : (0 ≤ phys ∧ phys + n * 4096 ≤ 2 ^ 52)%Z) :
  ∃ r m', map_surface_frames cr3 virt phys n m = (r, m') ∧ holds K m' ∧
    match r with
    | Ok _ =>
        (∀ i, (0 ≤ i < n)%Z → translate cr3 (virt + i * 4096) (tables m) = None ∧
           translate cr3 (virt + i * 4096) (tables m') = Some (phys + i * 4096)%Z) ∧
        ∀ c p, c ≠ 0%Z → user_page p → ¬ (c = cr3 ∧ surface_covers virt n p) →
          translate c p (tables m') = translate c p (tables m)
    | Err _ => ∀ c p, c ≠ 0%Z → user_page p → translate c p (tables m') = translate c p (tables m)
    | Panic => False
    end.
Proof. by apply map_surface_spec. Qed.

(** ** Frames across the range operations *)

Lemma alloc_frame_holds K m :
  holds K m → ∃ o m', alloc_frame m = (Ok o, m') ∧
    match o with
    | Some f => ¬ K f ∧ holds (λ x, x = f ∨ K x) m'
    | None => m' = m
    end.
Proof.
  intros (p & Hp & Hwf & Hal0 & Ht & Hk). unfold alloc_frame, user_alloc_frame, user_alloc_contiguous_frames. rewrite Hp.
  pose proof (allocate_spec _ _ 1 Hwf) as Ha. destruct (allocate 1 p) as [[f|] p1] eqn:Hall.
  - destruct Ha as (Hwf1 & _ & Hnew & Hal & _). eexists _, _. split; [done|].
    assert (f ∈ extent f 1) as Hin.
    { unfold extent. cbn. rewrite Z.add_0_r. left. }
    pose proof (Hnew f Hin) as Hf.
    destruct (allocate_aligned 1 p Hal0) as [Hal1 _]. rewrite Hall in Hal1.
    split; [by intros [? _]%Hk|]. exists p1. cbn. rewrite Hal. split_and!; [done..| |].
    + intros x Hx. apply elem_of_union. left. by apply Ht.
    + intros x [->|Hx]; (split; [apply elem_of_union|]); [right; by apply elem_of_list_to_set|by intros ?%Ht|left; by apply Hk|by apply Hk].
  - destruct Ha as [-> _]. eexists _, _. split; [done|]. unfold with_pool. destruct m; cbn in *. by subst.
Qed.

Lemma wp_keep_each {X} (K : Z → Prop) (xs : list X) (body : X → comp Memory string unit) m :
  holds K m → (∀ x m, holds K m → wp (body x) (λ _ m', holds K m') m) →
  wp (for_each xs body) (λ _ m', holds K m') m.
Proof.
  intros Hm Hbody. eapply wp_for_each with (I := holds K); [done| |auto].
  intros x m1 _ H1. eapply wp_mono; [by apply Hbody|]. by intros [[]|e|] m2 H2.
Qed.

Lemma map_range_keeps K cr3 virt phys count writable m :
  holds K m → wp (map_user_phys_range_in_cr3 cr3 virt phys count writable) (λ _ m', holds K m') m.
Proof.
  intros Hm. unfold map_user_phys_range_in_cr3, reject_kernel. wp_step. wp_step; [done|]. wp_step. wp_step.
  apply wp_keep_each; [by apply holds_tables, open_root_tables|]. intros i m1 H1. unfold map_phys_page, phys_of.
  wp_steps; [done|done|]. apply wp_page_of; [intros _ _|done]. wp_step. eapply wp_mapper_map; [done|]. intros r m2 Hm2 _.
  destruct r; wp_step; [done| |done]. by apply holds_tables, update_flags_tables.
Qed.

Lemma unmap_range_keeps K cr3 virt count m :
  holds K m → wp (unmap_user_phys_range_in_cr3 cr3 virt count) (λ _ m', holds K m') m.
Proof.
  intros Hm. unfold unmap_user_phys_range_in_cr3, reject_kernel. wp_step. wp_step; [done|]. wp_step.
  eapply wp_mono; [apply wp_keep_each; [done|]|].
  - intros i m1 H1. unfold unmap_page_at. wp_steps; [done|]. apply wp_page_of; [intros _ _|done]. wp_step.
    eapply wp_mapper_unmap; [done|]. intros o m2 Hm2 _. by wp_step.
  - intros [[]|e|] m1 H1; [|done..]. destruct (cr3 =? 0)%Z; [by wp_step|].
    destruct (prune_keeps K cr3 m1 H1) as (m2 & Hp & H2 & _). apply wp_intro. by rewrite Hp.
Qed.
End memory.

(** ** Memory objects *)

Section objects.
Context {PT : Type} `{!Mapper PT} `{!MapperLaws PT}.
Context (rs0 : list (Z * Z)).
Local Abbreviation MemWorld := (MemWorld (PT := PT)).
Implicit Types (w : MemWorld) (K : Z → Prop).

(** The frames of the objects in the store. *)
Definition owned (store : gmap nat MemObject) (f : Z) : Prop := ∃ idx o, store !! idx = Some o ∧ f ∈ frames o.

Definition frames_ok (o : MemObject) : Prop := NoDup (frames o) ∧ length (frames o) = pages o.

(** Objects have the frames they were created with, and share none. *)
Record store_ok (store : gmap nat MemObject) : Prop := {
  so_frames idx o : store !! idx = Some o → frames_ok o;
  so_apart idx idx' o o' f : store !! idx = Some o → store !! idx' = Some o' →
    f ∈ frames o → f ∈ frames o' → idx = idx';
}.

(** The world around a store: a well-formed capability space that knows the
    objects, and a memory in which the frames of [K] are held. *)
Definition mem_state K (store : gmap nat MemObject) w : Prop :=
  ∃ st, STATE (m_caps w) = Some st ∧ cap_wf st ∧
    (∀ idx o, store !! idx = Some o → idx < length (objects st)) ∧
    holds rs0 K (m_memory w) ∧ MEM_OBJECT_STORE w = store.

(** The invariant of the memory-object store. *)
Definition mem_ok w : Prop := ∃ store, store_ok store ∧ mem_state (owned store) store w.

(** The frames of the pool are held by somebody: none is a page table. *)
Lemma holds_aligned K m f : holds rs0 K m → K f → frame_of f = f.
Proof.
  intros (p & _ & _ & [_ Hal] & _ & Hk) [Hf _]%Hk. unfold frame_of.
  unfold PAGE_BYTES in Hal. rewrite (Hal f) by (by right). lia.
Qed.

Lemma state_weaken K K' store w : (∀ f, K' f → K f) → mem_state K store w → mem_state K' store w.
Proof. intros HK (st & ? & ? & ? & ? & ?). exists st. split_and!; try done. by eapply holds_weaken. Qed.

(** ** Capability operations on the way *)

Lemma wp_mem_cap {A} (m : comp CoreState CapError A) (Q : outcome CapError A → MemWorld → Prop) K store w :
  mem_state K store w → (∀ w', Q Panic w') →
  (∀ st, STATE (m_caps w) = Some st → cap_wf st → (∀ idx o, store !! idx = Some o → idx < length (objects st)) →
     wp m (λ r st', r = Panic ∨ evolves st st' ∧ ∀ w', mem_state K store w' → STATE (m_caps w') = Some st' → Q r w') st) →
  wp (mem_cap m) Q w.
Proof.
  intros (st & Hst & Hwf & Hidx & Hh & Hs) HP Hm. unfold mem_cap. apply wp_zoom. eapply wp_locked; [done|].
  eapply wp_mono; [by apply Hm|]. intros r st' [->|[[Hwf' Hext] HQ]]; [done|]. apply HQ; [|done].
  exists st'. split_and!; [done|done| |done|done]. intros idx o Ho. specialize (Hidx idx o Ho).
  destruct (lookup_lt_is_Some_2 _ _ Hidx) as [ob Hob]. destruct (ext_objects _ _ Hext _ _ Hob) as (ob' & Hob' & _).
  by eapply lookup_lt_Some.
Qed.

(** The operations of the capability core the memory objects use. *)
Inductive keeps_caps : ∀ A, comp CoreState CapError A → Prop :=
| keeps_check h r : keeps_caps unit (check_rights h r)
| keeps_identity h : keeps_caps _ (object_identity h)
| keeps_revoke h : keeps_caps unit (revoke h)
| keeps_close h : keeps_caps unit (close h)
| keeps_grant h r : keeps_caps CapHandle (grant h r)
| keeps_create k : keeps_caps CapHandle (create_object k).
#[local] Hint Constructors keeps_caps : core.

Lemma keeps_evolves A (m : comp CoreState CapError A) st :
  keeps_caps A m → cap_wf st → wp m (λ r st', r = Panic ∨ evolves st st') st.
Proof.
  intros Hm Hwf. pose proof (evolves_refl _ Hwf) as Hrefl. destruct Hm.
  - eapply wp_mono; [by apply check_rights_spec|]. intros ? ? [-> _]. by right.
  - eapply wp_mono; [by apply object_identity_spec|]. intros ? ? [-> _]. by right.
  - eapply wp_mono; [by apply revoke_spec|]. intros [[]|e|] st'; [|intros [-> _]; by right|done].
    intros (? & ? & _ & _ & ? & _). by right.
  - eapply wp_mono; [by apply close_spec|]. intros [[]|e|] st'; [|intros [-> _]; by right|by left].
    intros (? & _ & ? & _). by right.
  - eapply wp_mono; [by apply (derive_spec false)|]. intros [h'|e|] st'; [|intros [-> _]; by right|done].
    intros (? & ? & _ & ? & _). by right.
  - eapply wp_mono; [by apply create_object_spec|]. intros [h|e|] st'; [|intros ->; by right|done].
    intros (? & ? & ? & _). by right.
Qed.

Lemma wp_cap_keeps {A} (m : comp CoreState CapError A) (Q : outcome CapError A → MemWorld → Prop) K store w :
  keeps_caps A m → mem_state K store w → (∀ w', Q Panic w') → (∀ r w', mem_state K store w' → Q r w') →
  wp (mem_cap m) Q w.
Proof.
  intros Hm Hw HP HQ. eapply wp_mem_cap; [done|done|]. intros st _ Hwf _.
  eapply wp_mono; [by apply keeps_evolves|]. intros r st' [->|?]; [by left|right]. eauto.
Qed.

(** The object of a fresh handle is not in the store yet. *)
Lemma wp_create_fresh k (Q : outcome CapError CapHandle → MemWorld → Prop) K store w :
  mem_state K store w → (∀ w', Q Panic w') → (∀ e w', mem_state K store w' → Q (Err e) w') →
  (∀ h w' st nw, mem_state K store w' → STATE (m_caps w') = Some st → denotes st h nw →
     store !! object_idx nw = None → Q (Ok h) w') →
  wp (mem_cap (create_object k)) Q w.
Proof.
  intros Hw HP HE HO. eapply wp_mem_cap; [done|done|]. intros st Hst Hwf Hidx.
  eapply wp_mono; [by apply create_object_spec|]. intros [h|e|] st'; [|intros ->; right|by left].
  - intros (nw & st0 & Hev & Hins & -> & Hg & Hob & _). right. split; [done|]. intros w' Hw' Hst'.
    eapply HO; [done|done| |].
    + split_and!; [by eapply installed_slot|eapply ins_open; exact Hins|done].
    + destruct (store !! object_idx nw) as [o|] eqn:Ho; [|done]. apply Hidx in Ho. lia.
  - split; [by apply evolves_refl|]. intros. by apply HE.
Qed.

(** ** Frames on the way *)

Lemma state_memory K K' store w m :
  mem_state K store w → (holds rs0 K (m_memory w) → holds rs0 K' m) → mem_state K' store (with_memory m w).
Proof. intros (st & ? & ? & ? & ? & ?) Hm. exists st. split_and!; auto. Qed.

Lemma state_sched K store w s : mem_state K store w → mem_state K store (with_m_sched s w).
Proof. done. Qed.

Lemma state_store K store w f :
  mem_state K store w → (∀ idx o, f store !! idx = Some o → is_Some (store !! idx)) →
  mem_state K (f store) (with_store f w).
Proof.
  intros (st & ? & ? & Hidx & ? & <-) Hf. exists st. split_and!; [done|done| |done|done].
  intros idx o Ho. destruct (Hf idx o Ho) as [o0 Ho0]. by eapply Hidx.
Qed.

Lemma state_holds K store w : mem_state K store w → holds rs0 K (m_memory w).
Proof. by intros (st & ? & ? & ? & ? & ?). Qed.

Lemma with_memory_id w : with_memory (m_memory w) w = w.
Proof. by destruct w. Qed.

Lemma take_frames_spec K store n acc w :
  mem_state (λ f, K f ∨ f ∈ acc) store w → NoDup acc → (∀ f, f ∈ acc → ¬ K f) →
  ∃ r w', take_frames n acc w = (r, w') ∧
    match r with
    | Ok fs => mem_state (λ f, K f ∨ f ∈ fs) store w' ∧ NoDup fs ∧ (∀ f, f ∈ fs → ¬ K f) ∧
        length fs = length acc + n
    | Err _ => mem_state K store w'
    | Panic => False
    end.
Proof.
  revert acc w. induction n as [|n IH]; intros acc w Hw Hnd Hacc; cbn [take_frames].
  { exists (Ok acc), w. rewrite Nat.add_0_r. by split_and!. }
  destruct (alloc_frame_holds rs0 _ _ (state_holds _ _ _ Hw)) as (o & m' & Ha & Ho).
  assert (mem_op (E := string) alloc_frame w = (Ok o, with_memory m' w)) as Hop.
  { unfold mem_op, zoom. by rewrite Ha. }
  erewrite bind_ok by exact Hop. destruct o as [f|].
  - destruct Ho as [Hf Hm'].
    destruct (IH (acc ++ [f]) (with_memory m' w)) as (r & w' & Hrun & Hr).
    + apply (state_memory _ _ _ _ _ Hw). intros _. eapply holds_weaken; [|exact Hm'].
      intros x [?|[?| ->%list_elem_of_singleton]%elem_of_app]; [right; by left|right; by right|by left].
    + apply NoDup_app. split_and!; [done| |apply NoDup_singleton].
      intros x Hx ->%list_elem_of_singleton. apply Hf. by right.
    + intros x [Hx| ->%list_elem_of_singleton]%elem_of_app; [by apply Hacc|]. intros ?. apply Hf. by left.
    + exists r, w'. split; [exact Hrun|]. destruct r; [|done..]. destruct Hr as (? & ? & ? & Hl).
      split_and!; try done. rewrite Hl, length_app. cbn. lia.
  - subst m'. rewrite with_memory_id. eexists _, w. split; [done|]. cbn.
    eapply state_weaken; [|exact Hw]. by left.
Qed.

Lemma drop_object_spec K store o w :
  mem_state (λ f, K f ∨ f ∈ frames o) store w → (∀ f, f ∈ frames o → ¬ K f) →
  ∃ w', drop_object o w = (Ok tt, w') ∧ mem_state K store w' ∧
    m_sched w' = uncharge_process_memory (owner_pid o) (Z.of_nat (pages o) * 4096) (m_sched w).
Proof.
  intros Hw Hnew. set (w1 := with_m_sched (uncharge_process_memory (owner_pid o) (Z.of_nat (pages o) * 4096) (m_sched w)) w).
  assert (∀ f, f ∈ frames o → frame_of f = f) as Hal.
  { intros f Hf. eapply holds_aligned; [by eapply state_holds|]. by right. }
  destruct (holds_free_all rs0 K (frames o) (m_memory w1)) as (m' & Hfree & Hm' & _).
  - eapply holds_weaken; [|by eapply state_holds]. by left.
  - intros f Hf. split; [|by apply Hnew]. destruct (state_holds _ _ _ Hw) as (p & _ & _ & _ & _ & Hk).
    apply Hk. by right.
  - exists (with_memory m' w1). split.
    + unfold drop_object. erewrite bind_ok by reflexivity. fold w1.
      assert (for_each (frames o) (λ f, free_frame (frame_of f)) (m_memory w1) = (Ok (E := string) tt, m')) as Hrun.
      { rewrite <-Hfree. clear -Hal. generalize (m_memory w1). induction (frames o) as [|f fs IH]; intros m; [done|].
        cbn. rewrite (Hal f) by left. unfold mbind, comp_bind. destruct (free_frame f m) as [[[]|e|] m1]; [|done..].
        apply IH. intros x Hx. apply Hal. by right. }
      unfold ignore, attempt, mem_op, zoom, mbind, comp_bind. by rewrite Hrun.
    + split; [|done]. apply (state_memory _ _ _ _ _ (state_sched _ _ _ _ Hw)). done.
Qed.

(** ** The store across an operation *)

(** A call of one of the operations. *)
Inductive mem_call :=
| CallMemCreate (n : nat) (fl pid : Z)
| CallMemDestroy (h : CapHandle)
| CallMemDup (h : CapHandle) (r : Rights)
| CallMemMap (h : CapHandle) (pid v : Z) (writable : bool)
| CallMemUnmap (h : CapHandle) (pid v : Z).

Definition mem_exec (c : mem_call) : comp MemWorld CapError unit :=
  match c with
  | CallMemCreate n fl pid => _ ← mem_create n fl pid; mret tt
  | CallMemDestroy h => mem_destroy h
  | CallMemDup h r => _ ← mem_dup h r; mret tt
  | CallMemMap h pid v wr => _ ← mem_map h pid v wr; mret tt
  | CallMemUnmap h pid v => mem_unmap h pid v
  end.

(** The calls that end an object: the one that destroys it while nothing is
    mapped, the one that unmaps the last mapping of a destroyed one. *)
Definition ends_object (c : mem_call) (o : MemObject) : Prop :=
  match c with
  | CallMemDestroy _ => mapped_vaddrs o = []
  | CallMemUnmap _ pid v => mapped_vaddrs o = [(pid, v)] ∧ destroyed o = true
  | _ => False
  end.

(** What an operation does to the objects that exist. *)
Definition keeps_objects (c : mem_call) (store store' : gmap nat MemObject) : Prop :=
  ∀ idx o, store !! idx = Some o →
    match store' !! idx with
    | Some o' => frames o' = frames o ∧ owner_pid o' = owner_pid o
    | None => ends_object c o
    end.

Definition settled (c : mem_call) (store : gmap nat MemObject) w : Prop :=
  ∃ store', store_ok store' ∧ mem_state (owned store') store' w ∧ keeps_objects c store store'.

Lemma settled_same c store w : store_ok store → mem_state (owned store) store w → settled c store w.
Proof. intros. exists store. split_and!; try done. intros idx o Ho. by rewrite Ho. Qed.

Definition same_backing (o o' : MemObject) : Prop :=
  frames o' = frames o ∧ pages o' = pages o ∧ owner_pid o' = owner_pid o.

Lemma owned_insert store idx o o' f :
  store !! idx = Some o → frames o' = frames o → owned (<[idx := o']> store) f ↔ owned store f.
Proof.
  intros Ho Hf. split; intros (j & x & Hj & Hx).
  - apply lookup_insert_Some in Hj as [[<- <-]|[? ?]]; [exists idx, o; split; [done|congruence]|by exists j, x].
  - destruct (decide (idx = j)) as [<-|Hne]; [exists idx, o'|exists j, x].
    + rewrite lookup_insert_eq. split; [done|congruence].
    + by rewrite lookup_insert_ne.
Qed.

Lemma store_ok_insert store idx o o' :
  store_ok store → store !! idx = Some o → same_backing o o' → store_ok (<[idx := o']> store).
Proof.
  intros [H1 H2] Ho (Hf & Hp & _).
  assert (∀ j x, <[idx := o']> store !! j = Some x → ∃ y, store !! j = Some y ∧ frames x = frames y ∧ pages x = pages y) as Hback.
  { intros j x [[<- <-]|[? ?]]%lookup_insert_Some; [by exists o|by exists x]. }
  split.
  - intros j x (y & Hy & Hfx & Hpx)%Hback. unfold frames_ok. rewrite Hfx, Hpx. by eapply H1.
  - intros j j' x x' f (y & Hy & Hfx & _)%Hback (y' & Hy' & Hfx' & _)%Hback. rewrite Hfx, Hfx'. by eapply H2.
Qed.

Lemma settled_update c store idx o o' w :
  store_ok store → store !! idx = Some o → same_backing o o' →
  mem_state (owned store) (<[idx := o']> store) w → settled c store w.
Proof.
  intros Hok Ho Hb Hw. pose proof Hb as (Hf & Hp & Hown). exists (<[idx := o']> store). split_and!.
  - by eapply store_ok_insert.
  - eapply state_weaken; [|exact Hw]. intros f. by apply owned_insert with (o := o).
  - intros j x Hj. destruct (decide (idx = j)) as [<-|Hne].
    + rewrite lookup_insert_eq. by simplify_eq.
    + by rewrite lookup_insert_ne, Hj.
Qed.

Lemma state_update K store idx o o' w :
  mem_state K store w → store !! idx = Some o → mem_state K (<[idx := o']> store) (with_store <[idx := o']> w).
Proof.
  intros Hw Ho. apply state_store; [done|]. intros j x [[<- _]|[_ ?]]%lookup_insert_Some; by eexists.
Qed.

Lemma store_ok_delete store idx : store_ok store → store_ok (delete idx store).
Proof.
  intros [H1 H2]. split.
  - intros j x [_ ?]%lookup_delete_Some. by eapply H1.
  - intros j j' x x' f [_ ?]%lookup_delete_Some [_ ?]%lookup_delete_Some. by eapply H2.
Qed.

Lemma owned_delete store idx o f :
  store_ok store → store !! idx = Some o →
  (owned (delete idx store) f → owned store f ∧ f ∉ frames o) ∧
  (owned store f → owned (delete idx store) f ∨ f ∈ frames o).
Proof.
  intros [_ H2] Ho. split.
  - intros (j & x & [Hne Hj]%lookup_delete_Some & Hx). split; [by exists j, x|]. intros Hf. apply Hne. by eapply H2.
  - intros (j & x & Hj & Hx). destruct (decide (idx = j)) as [<-|Hne]; [right; by simplify_eq|left].
    exists j, x. by rewrite lookup_delete_ne.
Qed.

(** Removing an object from the store drops it. *)
Lemma remove_object_spec c store idx o o' w :
  store_ok store → mem_state (owned store) (<[idx := o']> store) w → store !! idx = Some o → same_backing o o' →
  ends_object c o →
  ∃ w', remove_object idx o' w = (Ok tt, w') ∧
    mem_state (owned (delete idx store)) (delete idx store) w' ∧ settled c store w'.
Proof.
  intros Hok Hw Ho (Hf & Hp & _) Hend.
  destruct (drop_object_spec (owned (delete idx store)) (delete idx store) o' (with_store (delete idx) w)) as (w' & Hd & Hw' & _).
  - rewrite <-(delete_insert_eq store idx o'). apply state_store.
    + eapply state_weaken; [|exact Hw]. intros f. rewrite (delete_insert_eq store idx o').
      intros [Hfd|Hfo]; [by eapply owned_delete|]. exists idx, o. split; [done|congruence].
    + intros j x [_ Hj]%lookup_delete_Some. by eexists.
  - intros f Hfo Hdel. eapply owned_delete in Hdel as [_ Hn]; [|done|done]. apply Hn. congruence.
  - exists w'. split; [exact Hd|]. split; [done|]. exists (delete idx store). split_and!; [by apply store_ok_delete|done|].
    intros j x Hj. destruct (decide (idx = j)) as [<-|Hne]; [rewrite lookup_delete_eq; by simplify_eq|].
    by rewrite lookup_delete_ne, Hj.
Qed.

(** ** The operations *)

Lemma wp_mem_op {E A} (m : comp (Memory (PT := PT)) E A) (Q : outcome E A → MemWorld → Prop) K store w :
  mem_state K store w → wp m (λ _ m', holds rs0 K m') (m_memory w) →
  (∀ r w', mem_state K store w' → Q r w') → wp (mem_op m) Q w.
Proof.
  intros Hw Hm HQ. unfold mem_op. apply wp_zoom. eapply wp_mono; [exact Hm|]. intros r m' Hm'. apply HQ.
  by eapply state_memory.
Qed.

Lemma wp_find_object h (Q : outcome CapError (nat * MemObject) → MemWorld → Prop) K store w :
  mem_state K store w → (∀ w', Q Panic w') → (∀ e w', mem_state K store w' → Q (Err e) w') →
  (∀ idx o w', mem_state K store w' → store !! idx = Some o → Q (Ok (idx, o)) w') →
  wp (find_object h) Q w.
Proof.
  intros Hw HP HE HO. unfold find_object. wp_step.
  eapply wp_cap_keeps; [constructor|done|done|]. intros [id|e|] w1 Hw1; [|by apply HE|done].
  wp_steps; [by apply HE|]. apply HO; [done|]. by destruct Hw1 as (st & _ & _ & _ & _ & <-).
Qed.

Lemma wp_unmap_pages cr3 v n K store w :
  mem_state K store w → wp (unmap_pages cr3 v n) (λ r w', r ≠ Panic → mem_state K store w') w.
Proof.
  intros Hw. unfold unmap_pages. eapply wp_for_each with (I := mem_state K store); [done| |done].
  intros i w1 _ Hw1. wp_steps; [done|]. eapply wp_mem_op; [done|by eapply unmap_range_keeps, state_holds|].
  by intros [[]|e|] w2 Hw2.
Qed.

Lemma wp_map_pages cr3 v writable fs i K store w :
  mem_state K store w → wp (map_pages cr3 v writable fs i) (λ r w', r ≠ Panic → mem_state K store w') w.
Proof.
  revert i w. induction fs as [|f fs IH]; intros i w Hw; cbn [map_pages]; [by wp_step|].
  wp_steps; [done|]. eapply wp_mem_op; [done|by eapply map_range_keeps, state_holds|].
  intros [u|e|] w1 Hw1; [by apply IH| |done]. wp_step. eapply wp_mono; [by apply wp_unmap_pages|].
  intros [[]|e'|] w2 Hw2; [wp_step|..|done]; intros ?; by apply Hw2.
Qed.

Lemma wp_cap_settled {A} (m : comp CoreState CapError A) (Q : outcome CapError A → MemWorld → Prop) c store w :
  keeps_caps A m → settled c store w → (∀ w', Q Panic w') → (∀ r w', settled c store w' → Q r w') →
  wp (mem_cap m) Q w.
Proof.
  intros Hm (store' & Hok & Hw & Hk) HP HQ. eapply wp_cap_keeps; [done|done|done|]. intros r w' Hw'. apply HQ.
  by exists store'.
Qed.

Definition settles (c : mem_call) : Prop := ∀ store w,
  store_ok store → mem_state (owned store) store w →
  wp (mem_exec c) (λ r w', r ≠ Panic → settled c store w') w.

Lemma dup_settles h r : settles (CallMemDup h r).
Proof.
  intros store w Hok Hw. cbn. unfold mem_dup. wp_step. wp_step.
  eapply wp_cap_keeps; [constructor|done|done|]. intros [[]|e|] w1 Hw1; [|by intros; apply settled_same|done].
  wp_step. eapply wp_find_object; [done|done|by intros; apply settled_same|]. intros idx o w2 Hw2 Ho.
  wp_step. wp_step; [by intros; apply settled_same|]. wp_step.
  eapply wp_cap_keeps; [constructor|done|done|]. intros [h'|e|] w3 Hw3; [|by intros; apply settled_same|done].
  unfold set_object. wp_steps. intros _. eapply settled_update; [done|done| |by eapply state_update]. done.
Qed.

Lemma map_settles h pid v wr : settles (CallMemMap h pid v wr).
Proof.
  intros store w Hok Hw. cbn. unfold mem_map. wp_step. wp_step.
  eapply wp_cap_keeps; [constructor|done|done|]. intros [[]|e|] w1 Hw1; [|by intros; apply settled_same|done].
  wp_step. assert (∀ (Q : outcome CapError unit → MemWorld → Prop),
    (∀ w', Q Panic w') → (∀ r w', mem_state (owned store) store w' → Q r w') →
    wp (if wr then mem_cap (check_rights h WRITE) else mret tt) Q w1) as Hif.
  { intros Q HP HQ. destruct wr; [eapply wp_cap_keeps; [constructor|done..]|by apply wp_ret, HQ]. }
  apply Hif; [done|]. intros [[]|e|] w2 Hw2; [|by intros; apply settled_same|done].
  wp_step. eapply wp_find_object; [done|done|by intros; apply settled_same|]. intros idx o w3 Hw3 Ho.
  wp_step. wp_step; [by intros; apply settled_same|]. unfold map_target.
  wp_steps; [by intros; apply settled_same..|]. eapply wp_mono; [by apply wp_map_pages|].
  intros [[]|e|] w4 Hw4; [|by intros; apply settled_same, Hw4|done]. unfold set_object. wp_steps. intros _.
  eapply settled_update; [done|done| |by eapply state_update, Ho; apply Hw4]. done.
Qed.

Lemma drop_ref_backing o : same_backing o (drop_ref o) ∧ mapped_vaddrs (drop_ref o) = mapped_vaddrs o ∧
  destroyed (drop_ref o) = destroyed o.
Proof. unfold drop_ref. by destruct (0 <? ref_count o)%Z. Qed.

Lemma destroy_settles h : settles (CallMemDestroy h).
Proof.
  intros store w Hok Hw. cbn. unfold mem_destroy. wp_step.
  eapply wp_cap_keeps; [constructor|done|done|]. intros [[]|e|] w1 Hw1; [|by intros; apply settled_same|done].
  wp_step. eapply wp_find_object; [done|done|by intros; apply settled_same|]. intros idx o w2 Hw2 Ho.
  unfold set_object. wp_step. wp_step. pose proof (state_update _ _ idx o (set_destroyed o) _ Hw2 Ho) as Hw3.
  wp_step. destruct (bool_decide _ && _) eqn:Hfree; reflect.
  - edestruct (remove_object_spec (CallMemDestroy h)) as (w4 & Hr & _ & Hset); [exact Hok|exact Hw3|exact Ho|done|done|].
    wp_step. eapply wp_returns; [exact Hr|]. cbv beta iota. wp_step. eapply wp_cap_settled; [constructor|exact Hset|done|].
    intros [[]|e|] w5 Hw5; [..|done]; (cbv beta iota; wp_step; eapply wp_cap_settled; [constructor|exact Hw5|done|]); by intros [[]|e'|] w6 Hw6.
  - wp_step. assert (settled (CallMemDestroy h) store
      (with_store <[idx := drop_ref (set_destroyed o)]> (with_store <[idx := set_destroyed o]> w2))) as Hset.
    { eapply settled_update with (o' := drop_ref (set_destroyed o)); [done|done|apply (drop_ref_backing (set_destroyed o))|].
      rewrite <-(insert_insert_eq store idx _ (set_destroyed o)). eapply state_update; [done|]. apply lookup_insert_eq. }
    wp_step. eapply wp_cap_settled; [constructor|exact Hset|done|]. by intros [[]|e'|] w6 Hw6.
Qed.

Lemma last_mapping (l : list (Z * Z)) e pos :
  fst <$> list_find (λ x, x = e) l = Some pos → delete pos l = [] → l = [e].
Proof.
  intros Hf Hd. destruct (list_find (λ x, x = e) l) as [[i x]|] eqn:Hl; [|done]. injection Hf as <-.
  apply list_find_Some in Hl as (Hi & -> & _).
  pose proof (length_delete _ _ (mk_is_Some _ _ Hi)) as Hlen. rewrite Hd in Hlen. cbn in Hlen.
  apply lookup_lt_Some in Hi as Hlt. destruct l as [|y [|z l]]; cbn in *; [lia| |lia].
  destruct i; [by simplify_eq/=|cbn in *; lia].
Qed.

Lemma unmap_settles h pid v : settles (CallMemUnmap h pid v).
Proof.
  intros store w Hok Hw. cbn. unfold mem_unmap. wp_step.
  eapply wp_cap_keeps; [constructor|done|done|]. intros [[]|e|] w1 Hw1; [|by intros; apply settled_same|done].
  wp_step. eapply wp_find_object; [done|done|by intros; apply settled_same|]. intros idx o w2 Hw2 Ho.
  wp_step. wp_step; [by intros; apply settled_same|]. rename a into pos.
  set (o1 := set_maps (delete pos (mapped_vaddrs o)) o). set (o2 := drop_ref o1).
  destruct (drop_ref_backing o1) as (Hb & Hmaps & Hdes). fold o2 in Hb, Hmaps, Hdes.
  unfold set_object. wp_step. wp_step. cbv beta iota.
  assert (mem_state (owned store) (<[idx := o2]> store) (with_store <[idx := o2]> w2)) as Hw3 by (by eapply state_update).
  wp_step. wp_step. cbv beta iota. wp_step.
  eapply wp_mono with (P := λ r w', r ≠ Panic → mem_state (owned store) (<[idx := o2]> store) w').
  { destruct (procs _ !! pid) as [p|]; [|by apply wp_ret]. destruct (user_cr3 p =? 0)%Z; [by apply wp_ret|].
    by apply wp_unmap_pages. }
  intros [[]|e|] w4 Hw4; [specialize (Hw4 ltac:(done))|..|done].
  - destruct (_ && _) eqn:Hend; [|wp_step; intros _; by eapply settled_update]. reflect.
    edestruct (remove_object_spec (CallMemUnmap h pid v)) as (w5 & Hr & _ & Hset);
      [exact Hok|exact Hw4|exact Ho|exact Hb| |by eapply wp_returns].
    split; [|by rewrite Hdes in *]. eapply last_mapping; [done|]. by rewrite Hmaps in *.
  - intros ?. eapply settled_update; [done|done|exact Hb|]. by apply Hw4.
Qed.

Lemma settled_fresh c store idx o w :
  store_ok store → store !! idx = None → frames_ok o → (∀ f, f ∈ frames o → ¬ owned store f) →
  mem_state (λ f, owned store f ∨ f ∈ frames o) store w →
  (∀ st, STATE (m_caps w) = Some st → idx < length (objects st)) →
  settled c store (with_store <[idx := o]> w).
Proof.
  intros [H1 H2] Hidx Ho Hnew (st & Hst & Hwf & Hb & Hh & <-) Hlt. exists (<[idx := o]> (MEM_OBJECT_STORE w)). split_and!.
  - split.
    + intros j x [[_ <-]|[_ ?]]%lookup_insert_Some; [done|by eapply H1].
    + intros j j' x x' f [[<- <-]|[? Hj]]%lookup_insert_Some [[<- <-]|[? Hj']]%lookup_insert_Some Hx Hx'; [done|..|by eapply H2];
        exfalso; (eapply Hnew; [eassumption|]); eexists _, _; eauto.
  - exists st. split_and!; [done|done| | |done].
    + intros j x [[<- _]|[_ ?]]%lookup_insert_Some; [by apply Hlt|by eapply Hb].
    + eapply holds_weaken; [|exact Hh]. intros f (j & x & [[_ <-]|[_ ?]]%lookup_insert_Some & ?); [by right|].
      left. by exists j, x.
  - intros j x Hj. assert (idx ≠ j) by (intros ->; by rewrite Hj in Hidx). by rewrite lookup_insert_ne, Hj.
Qed.

(** The paths of [mem_create] after the frames are taken. *)
Lemma wp_drop_settled c store o (e : CapError) w :
  store_ok store → mem_state (λ f, owned store f ∨ f ∈ frames o) store w → (∀ f, f ∈ frames o → ¬ owned store f) →
  wp (drop_object o;; throw (A := CapHandle) e) (λ r w', r ≠ Panic → settled c store w') w.
Proof.
  intros Hok Hw Hnew. destruct (drop_object_spec _ _ _ _ Hw Hnew) as (w' & Hd & Hw' & _).
  wp_step. eapply wp_returns; [exact Hd|]. cbv beta iota. wp_step. intros _. by apply settled_same.
Qed.

Lemma wp_publish c store o w :
  store_ok store → mem_state (λ f, owned store f ∨ f ∈ frames o) store w → (∀ f, f ∈ frames o → ¬ owned store f) →
  frames_ok o → ∀ bytes,
  wp (r ← attempt (mem_cap (create_object Abi.MemObject));
      match r with
      | inl e => uncharge (owner_pid o) bytes;; drop_object o;; throw e
      | inr h =>
          r ← attempt (mem_cap (object_identity h));
          match r with
          | inl e =>
              uncharge (owner_pid o) bytes;;
              ignore (mem_cap (revoke h));; ignore (mem_cap (close h));;
              drop_object o;; throw e
          | inr id => store_object id.2 o;; mret h
          end
      end) (λ r w', r ≠ Panic → settled c store w') w.
Proof.
  intros Hok Hw Hnew Ho bytes. wp_step. wp_step. eapply wp_create_fresh; [done|done|..].
  { intros e w1 Hw1. unfold uncharge. wp_step. wp_step. cbv beta iota. by apply wp_drop_settled. }
  intros h w1 st nw Hw1 Hst Hden Hfresh. wp_step. wp_step.
  eapply wp_mem_cap; [exact Hw1|done|]. intros st' Hst' Hwf _. assert (st' = st) as -> by congruence.
  eapply wp_mono; [by apply object_identity_spec|]. intros [[k ob]|e|] st2 [-> Hid]; [|right|by left].
  - right. split; [by apply evolves_refl|]. destruct Hid as (_ & s & o0 & Hs & -> & Hob & _).
    rewrite (denotes_fun _ _ _ _ Hs Hden) in *. intros w2 Hw2 Hst2. unfold store_object. cbn [snd].
    wp_step. wp_step. wp_step. wp_step. wp_step. cbv beta iota.
    assert (MEM_OBJECT_STORE w2 = store) as Hs2 by (by destruct Hw2 as (? & _ & _ & _ & _ & ?)).
    rewrite Hs2, Hfresh. wp_step. wp_step. intros _. apply settled_fresh; try done.
    intros st2 Hst3. rewrite Hst2 in Hst3. simplify_eq. by eapply lookup_lt_Some.
  - split; [by apply evolves_refl|]. intros w2 Hw2 _. unfold uncharge. wp_step. wp_step. cbv beta iota.
    apply (state_sched _ _ _ (uncharge_process_memory (owner_pid o) bytes (m_sched w2))) in Hw2.
    wp_step. wp_step. eapply wp_cap_keeps; [constructor|exact Hw2|done|].
    intros r3 w3 Hw3. enough (wp (ignore (mem_cap (close h));; drop_object o;; throw (A := CapHandle) e)
      (λ r w', r ≠ Panic → settled c store w') w3) as Hc by (by destruct r3).
    wp_step. wp_step. eapply wp_cap_keeps; [constructor|exact Hw3|done|].
    intros r4 w4 Hw4. assert (wp (drop_object o;; throw (A := CapHandle) e)
      (λ r w', r ≠ Panic → settled c store w') w4) as Hc by (by apply wp_drop_settled). by destruct r4.
Qed.

Lemma create_settles n fl pid : settles (CallMemCreate n fl pid).
Proof.
  intros store w Hok Hw. cbn. wp_step.
  eapply wp_mono with (P := λ r w', r ≠ Panic → settled (CallMemCreate n fl pid) store w');
    [|intros [h|e|] w' Hw'; [wp_step; intros _; by apply Hw'|intros _; by apply Hw'|done]].
  unfold mem_create. wp_step. wp_step; [by intros; apply settled_same|]. cbv zeta. wp_step.
  unfold map_err. wp_step. wp_step. wp_step. apply wp_intro.
  destruct (try_charge_process_memory _ _ _) as [[[]|e|] s1]; cbn [fst snd]; cbv beta iota; [|wp_step; by intros; apply settled_same|done]. wp_step.
  wp_step. wp_step.
  pose proof (take_frames_spec (owned store) store n [] (with_m_sched s1 w)) as Hnew.
  destruct Hnew as (r & w1 & Ht & Hr); [by eapply state_weaken, Hw; intros f [?|?%not_elem_of_nil]|constructor|by intros f ?%not_elem_of_nil|].
  unfold mem_object_new. wp_step. eapply wp_returns; [exact Ht|]. destruct r as [fs|e|]; [|..|done]; cbv beta iota.
  - destruct Hr as (Hw1 & Hnd & Hdis & Hlen). wp_step. apply (wp_publish _ _ (mkMem n fl pid fs [] 1 false)); try done.
  - unfold uncharge. wp_step. wp_step. wp_step. intros _. apply settled_same; [done|]. by apply state_sched.
Qed.


(** ** Failed creations *)

Lemma take_frames_framed n acc w r w' s :
  take_frames n acc w = (r, w') →
  m_sched w' = m_sched w ∧ m_caps w' = m_caps w ∧ take_frames n acc (with_m_sched s w) = (r, with_m_sched s w').
Proof.
  revert acc w. induction n as [|n IH]; intros acc w; cbn [take_frames]; [by intros [= <- <-]|].
  unfold mem_op, zoom, mbind, comp_bind. cbn. destruct (alloc_frame (m_memory w)) as [[[f|]|e|] m1];
    [|by intros [= <- <-]..]. intros Hr. apply (IH _ _) in Hr as (Hm & Hc & Ht). by split_and!.
Qed.

Lemma take_frames_oom K store n acc w e w' :
  mem_state K store w → take_frames n acc w = (Err e, w') → (alloc_frame (m_memory w')).1 = Ok (E := string) None.
Proof.
  revert K acc w. induction n as [|n IH]; intros K acc w Hw; cbn [take_frames]; [done|].
  destruct (alloc_frame_holds rs0 _ _ (state_holds _ _ _ Hw)) as (o & m' & Ha & Ho).
  unfold mem_op at 1, zoom, mbind, comp_bind. rewrite Ha. destruct o as [f|].
  - destruct Ho as [_ Hm']. apply (IH (λ x, x = f ∨ K x)). by apply (state_memory K _ _ _ _ Hw).
  - intros [= _ <-]. subst m'. cbn. by rewrite Ha.
Qed.

Definition mem_usage (pid : Z) (s : Scheduler) : option Z :=
  (λ p, current_memory_bytes (resource_usage p)) <$> procs s !! pid.

Lemma usage_uncharged pid n s u :
  mem_usage pid s = Some u → mem_usage pid (uncharge_process_memory pid n s) = Some (saturating_sub u n).
Proof.
  unfold mem_usage, uncharge_process_memory, update. destruct (procs s !! pid) as [p|] eqn:Hp; [|done].
  intros [= <-]. cbn. by rewrite lookup_alter_eq, Hp.
Qed.

Lemma usage_charged pid n s p :
  procs s !! pid = Some p →
  (current_memory_bytes (resource_usage p) + n ≤ max_memory_bytes (resource_limits p) `min` u64_max)%Z →
  ∃ s', try_charge_process_memory pid n s = (Ok tt, s') ∧
    mem_usage pid s' = Some (current_memory_bytes (resource_usage p) + n)%Z.
Proof.
  intros Hp Hmax. unfold try_charge_process_memory, mem_usage. rewrite Hp. unfold try_charge_memory.
  unfold mbind at 1, comp_bind at 1, get. cbv zeta.
  assert (saturating_add 64 (current_memory_bytes (resource_usage p)) n =
    (current_memory_bytes (resource_usage p) + n))%Z as -> by (unfold saturating_add, u64_max in *; lia).
  assert ((max_memory_bytes (resource_limits p) <? current_memory_bytes (resource_usage p) + n)%Z = false) as ->
    by (apply Z.ltb_ge; lia).
  eexists. split; [reflexivity|]. cbn. by rewrite lookup_insert_eq.
Qed.

(** The capability space has no room for another object. *)
Definition full (st : CoreState) : Prop :=
  MAX_CAP_OBJECTS ≤ length (objects st) ∨ MAX_CAP_NODES ≤ length (nodes st).

Lemma create_object_full k st : full st → create_object k st = (Err Exhausted, st).
Proof.
  intros Hf. unfold create_object, mbind, comp_bind, get.
  assert ((MAX_CAP_OBJECTS <=? length (objects st)) || (MAX_CAP_NODES <=? length (nodes st)) = true) as ->; [|done].
  apply orb_true_iff. by destruct Hf; [left|right]; apply Nat.leb_le.
Qed.

Lemma mem_create_object_full k w st :
  STATE (m_caps w) = Some st → full st → mem_cap (create_object k) w = (Err Exhausted, w).
Proof.
  intros Hst Hf. unfold mem_cap, zoom, locked. rewrite Hst, (create_object_full _ _ Hf).
  rewrite (with_state_id _ _ Hst). by destruct w.
Qed.

(** [mem_create] up to the frames. *)
Lemma create_charged n fl pid w p :
  0 < n ∧ (Z.of_nat n ≤ 16384)%Z → procs (m_sched w) !! pid = Some p →
  (current_memory_bytes (resource_usage p) + Z.of_nat n * 4096 ≤ max_memory_bytes (resource_limits p) `min` u64_max)%Z →
  ∃ s, mem_usage pid s = Some (current_memory_bytes (resource_usage p) + Z.of_nat n * 4096)%Z ∧
    mem_create n fl pid w =
      (r ← attempt (mem_object_new n fl pid);
       match r with
       | inl _ => uncharge pid (Z.of_nat n * 4096);; throw Exhausted
       | inr o =>
           r ← attempt (mem_cap (create_object Abi.MemObject));
           match r with
           | inl e => uncharge pid (Z.of_nat n * 4096);; drop_object o;; throw e
           | inr h =>
               r ← attempt (mem_cap (object_identity h));
               match r with
               | inl e =>
                   uncharge pid (Z.of_nat n * 4096);;
                   ignore (mem_cap (revoke h));; ignore (mem_cap (close h));;
                   drop_object o;; throw e
               | inr id => store_object id.2 o;; mret h
               end
           end
       end) (with_m_sched s w).
Proof.
  intros Hn Hp Hq. destruct (usage_charged _ _ _ _ Hp Hq) as (s & Hs & Hu). exists s. split; [done|].
  unfold mem_create. assert ((n =? 0) || (16384 <? Z.of_nat n)%Z = false) as ->.
  { apply orb_false_iff. split; [apply Nat.eqb_neq|apply Z.ltb_ge]; lia. }
  erewrite bind_ok by reflexivity. cbv zeta.
  etransitivity; [apply bind_ok with (a := tt) (s' := with_m_sched s w)|reflexivity].
  unfold map_err, attempt, zoom, mbind, comp_bind. by rewrite Hs.
Qed.

(** A creation that fails late miscounts. When the capability space is full the
    owner's charge is given back twice (once by the error path, once by the
    destructor of the object), so the owner ends below the memory it uses; when
    the frames run out part-way, the ones taken stay allocated though no object
    owns them: the pool is left empty. *)
Theorem failed_creation_miscounts (n : nat) (fl pid : Z) (w : MemWorld) (p : Process) (st : CoreState)
    (Hw : mem_ok w) (Hst : STATE (m_caps w) = Some st) (Hn : 0 < n ∧ (Z.of_nat n ≤ 16384)%Z) (Hp : procs (m_sched w) !! pid = Some p)
    (Hu : (0 ≤ current_memory_bytes (resource_usage p))%Z)
    (Hq : (current_memory_bytes (resource_usage p) + Z.of_nat n * 4096 ≤ max_memory_bytes (resource_limits p) `min` u64_max)%Z) :
  let '(r, w') := mem_create n fl pid w in
  match (take_frames n [] w).1 with
  | Ok _ => full st → r = Err Exhausted ∧ MEM_OBJECT_STORE w' = MEM_OBJECT_STORE w ∧
      mem_usage pid (m_sched w') = Some (saturating_sub (current_memory_bytes (resource_usage p)) (Z.of_nat n * 4096))
  | _ => r = Err Exhausted ∧ MEM_OBJECT_STORE w' = MEM_OBJECT_STORE w ∧
      mem_usage pid (m_sched w') = mem_usage pid (m_sched w) ∧ (alloc_frame (m_memory w')).1 = Ok (E := string) None
  end.
Proof.
  destruct Hw as (store & Hok & Hw). destruct (create_charged n fl pid w p Hn Hp Hq) as (s & Hs & ->).
  destruct (take_frames_spec (owned store) store n [] w) as (r & w1 & Ht & Hr);
    [by eapply state_weaken, Hw; intros f [?|?%not_elem_of_nil]|constructor|by intros f ?%not_elem_of_nil|].
  destruct (take_frames_framed _ _ _ _ _ s Ht) as (Hm1 & Hc1 & Hts).
  rewrite Ht. cbn [fst]. destruct r as [fs|e|]; [| |done].
  - destruct Hr as (Hw1 & _ & Hdis & _).
    assert (attempt (E := CapError) (mem_object_new n fl pid) (with_m_sched s w) =
      (Ok (inr (mkMem n fl pid fs [] 1 false)), with_m_sched s w1)) as Hnew.
    { unfold attempt, mem_object_new. by erewrite bind_ok by exact Hts. }
    erewrite bind_ok by exact Hnew. set (o := mkMem n fl pid fs [] 1 false) in *. cbv beta iota.
    set (w3 := with_m_sched (uncharge_process_memory pid (Z.of_nat n * 4096) s) w1).
    destruct (drop_object_spec (owned store) store o w3) as (w4 & Hd & Hw4 & Hs4); [done|done|].
    match goal with |- let '(_, _) := ?m in _ => assert (full st → m = (Err Exhausted, w4)) as Hrun end.
    { intros Hfull. assert (attempt (E := CapError) (mem_cap (create_object Abi.MemObject)) (with_m_sched s w1) =
      (Ok (inl Exhausted), with_m_sched s w1)) as Hcreate.
      { unfold attempt. erewrite mem_create_object_full; [done| |exact Hfull]. cbn. by rewrite Hc1. }
      erewrite bind_ok by exact Hcreate. cbv beta iota.
      erewrite bind_ok by reflexivity. by erewrite bind_ok by exact Hd. }
    match goal with |- let '(_, _) := ?m in _ => destruct m as [r w'] end. intros Hfull.
    specialize (Hrun Hfull). injection Hrun as -> ->. split_and!; [done| |].
    + destruct Hw4 as (? & _ & _ & _ & _ & ->). destruct Hw as (? & _ & _ & _ & _ & Hw); cbn; congruence.
    + rewrite Hs4. erewrite usage_uncharged; [|by eapply usage_uncharged]. f_equal. unfold saturating_sub. subst o. cbn [pages]. lia.
  - assert (attempt (E := CapError) (mem_object_new n fl pid) (with_m_sched s w) = (Ok (inl e), with_m_sched s w1)) as Hnew.
    { unfold attempt, mem_object_new. by erewrite bind_err by exact Hts. }
    erewrite bind_ok by exact Hnew. cbv beta iota. erewrite bind_ok by reflexivity. cbn [throw].
    split_and!; [done| | |].
    + destruct Hr as (? & _ & _ & _ & _ & Hr). by destruct Hw as (? & _ & _ & _ & _ & ->).
    + cbn. erewrite usage_uncharged by exact Hs. unfold mem_usage. rewrite Hp. cbn. f_equal. unfold saturating_sub. lia.
    + exact (take_frames_oom (owned store) store n [] w e w1 Hw Ht).
Qed.
End objects.

(** ** A flat page table

    One map from address space and page to frame, which needs no table frames. *)
#[local] Instance flat_mapper : Mapper (gmap (Z * Z) Z) := {|
  translate c p t := t !! (c, p);
  page_flags _ _ _ := None;
  map_to c p f _ t g := match t !! (c, p) with
                        | Some _ => (PageAlreadyMapped, t, g)
                        | None => (Mapped, <[(c, p) := f]> t, g)
                        end;
  update_flags _ _ _ t := t;
  unmap c p t := (t !! (c, p), delete (c, p) t);
  open_root _ t := t;
  empty_tables _ t := ([], t);
|}.

#[local] Instance flat_laws : MapperLaws (gmap (Z * Z) Z).
Proof.
  apply (Build_MapperLaws _ _ (λ _, ∅)); cbn.
  - intros c p f fl t g t' g' Hm _. destruct (t !! (c, p)) eqn:Ht; simplify_eq.
    split_and!; [done|by rewrite lookup_insert_eq|]. intros c' p' _ He. rewrite lookup_insert_ne; [done|].
    intros [= -> ->]. by destruct He as [?|[? _]].
  - intros c p f fl t g r t' g' Hm Hr c' p'. by destruct (t !! (c, p)); simplify_eq.
  - intros c p f fl t g [x ->]. by eexists _, _.
  - intros c p f fl t g r t' g' Hm. assert (g' = g) as -> by (destruct (t !! (c, p)); by simplify_eq).
    split; [apply rtc_refl|]. intros q q' -> [= ->]. set_solver.
  - intros c p t _. split_and!; [done|by rewrite lookup_delete_eq|]. intros c' p' _ He.
    rewrite lookup_delete_ne; [done|]. intros [= -> ->]. by destruct He as [?|[? _]].
  - done.
  - done.
  - done.
  - done.
  - done.
  - done.
  - intros c t. split_and!; [constructor|by intros f ?%not_elem_of_nil|set_solver].
Defined.

Lemma flat_no_frames (f : Z) (t : gmap (Z * Z) Z) : f ∉ table_frames t.
Proof. change (f ∉ (∅ : gset Z)). apply not_elem_of_empty. Qed.

Definition demo_memory : Memory (PT := gmap (Z * Z) Z) := mkMemory ∅ (Some demo_pool) ∅.

Lemma demo_memory_holds : holds demo_regions (λ f, f = 4096%Z) demo_memory.
Proof.
  exists demo_pool. split_and!; [done|apply pool_reachable_wf, demo_pool_reachable| |intros f Hf; by apply flat_no_frames in Hf|].
  - eapply pool_reachable_aligned, demo_pool_reachable.
    intros r [->|[->|?%elem_of_nil]%elem_of_cons]%elem_of_cons; done.
  - intros f ->. split; [vm_compute; reflexivity|apply flat_no_frames].
Qed.

Lemma surface_mapping_is_transactional_witness :
  translate 4096 (USER_ADDR_BASE + 1 * 4096)
    (tables (map_surface_frames 4096 USER_ADDR_BASE 1048576 2 demo_memory).2) = Some 1052672%Z.
Proof.
  destruct (surface_mapping_is_transactional demo_regions (λ f, f = 4096%Z) 4096 USER_ADDR_BASE 1048576 2 demo_memory)
    as (r & m' & Hr & _ & Hpost); [exact demo_memory_holds|lia|lia|]. rewrite Hr. cbn [snd].
  destruct r as [[]|e|]; [|vm_compute in Hr; discriminate Hr|destruct Hpost].
  destruct Hpost as [Hp _]. destruct (Hp 1%Z) as [_ Hp1]; [lia|]. exact Hp1.
Defined.

(** A machine whose process 1 has 12288 bytes charged. *)
Definition demo_owner : Process := (try_charge_memory 12288 (set_pid 1 (process_new []))).2.

Definition demo_world (st : CoreState) : MemWorld (PT := gmap (Z * Z) Z) :=
  mkMemWorld (mkCapWorld (Some st) None ∅ 0 ∅) (mkSched {[1%Z := demo_owner]} [] [] queue_new 0 2) demo_memory ∅.

Lemma demo_world_ok st : cap_wf st → mem_ok demo_regions (demo_world st).
Proof.
  intros Hwf. exists ∅. split; [by split; intros|]. exists st. split_and!; [done|done|done| |done].
  eapply holds_weaken; [|exact demo_memory_holds]. by intros f (? & ? & ? & _).
Qed.

(** A space in which every object is in use. *)
Definition full_space : CoreState := mkCore [] [] (replicate MAX_CAP_OBJECTS (mkObject Abi.Process 0 1 true)).

Lemma full_space_wf : cap_wf full_space.
Proof.
  assert (∀ n p, ¬ parent_of [] n p) as Hnone by (by intros n p (? & ? & _)).
  split; cbn; try done; try lia; try (by intros n p ?%Hnone).
  - by intros i o [-> _]%lookup_replicate.
Qed.


(** The owner of 12288 bytes is left with 4096 by a creation that fails. *)
Lemma failed_creation_miscounts_witness :
  mem_usage 1 (m_sched (mem_create 2 3 1 (demo_world full_space)).2) = Some 4096%Z.
Proof.
  assert ((take_frames 2 [] (demo_world full_space)).1 = Ok [8192; 40960]%Z) as Ht by (vm_compute; reflexivity).
  assert (full full_space) as Hf by (left; unfold full_space; cbn; by rewrite length_replicate).
  pose proof (failed_creation_miscounts demo_regions 2 3 1 (demo_world full_space) demo_owner full_space
    (demo_world_ok _ full_space_wf) eq_refl ltac:(lia) ltac:(vm_compute; reflexivity)
    ltac:(vm_compute; discriminate) ltac:(vm_compute; discriminate)) as H.
  rewrite Ht in H. destruct (mem_create 2 3 1 (demo_world full_space)) as [r w']. by destruct (H Hf) as (_ & _ & ?).
Defined.
