(* ===== verification/SurfaceProps.v ===== *)
(** * Properties of surfaces

    Every surface is backed by its own frames, which are mapped at its place in
    its owner's address space and nowhere else among the surfaces; creation and
    destruction are transactions; what the compositor draws into is backed. *)
From S2P Require Import Prelude FramePool Process WaitQueue Sched Cap MemObject AddrSpace MemProps Surface.

Section memory.
Context {PT : Type} `{!Mapper PT} `{!MapperLaws PT}.
Context (rs0 : list (Z * Z)) (Hlow : ∀ r, r ∈ rs0 → (r.2 ≤ 2 ^ 52)%Z).
Local Abbreviation Memory := (Memory (PT := PT)).
Implicit Types (m : Memory) (K : Z → Prop) (L : list SurfaceInfo).
Local Abbreviation holds := (holds rs0).

(** ** Removing a surface's mappings *)

Section unmap.
Context (K : Z → Prop) (cr3 virt phys : Z) (n : nat) (m0 : Memory).
Context (Hcr3 : cr3 ≠ 0%Z) (Huser : ∀ j, j < n → user_page (surface_page virt j)).
Context (Hpages : ∀ j, j < n → translate cr3 (surface_page virt j) (tables m0) = Some (phys + Z.of_nat j * 4096)%Z).

(** The first [k] pages are unmapped, nothing else has changed. *)
Record unmapped (k : nat) m : Prop := {
  um_gone j : j < k → translate cr3 (surface_page virt j) (tables m) = None;
  um_rest c p : c ≠ 0%Z → user_page p → ¬ (c = cr3 ∧ mine virt 0 k p) →
    translate c p (tables m) = translate c p (tables m0);
  um_holds : holds K m;
}.

Lemma check_one m k : k < n → (0 ≤ phys + Z.of_nat k * 4096 < 2 ^ 64)%Z →
  translate cr3 (surface_page virt k) (tables m) = Some (phys + Z.of_nat k * 4096)%Z →
  check_surface_page cr3 virt phys (Z.of_nat k) m = (Ok tt, m).
Proof.
  intros Hk Hp Hm. unfold check_surface_page.
  change (virt + Z.of_nat k * 4096)%Z with (surface_page virt k).
  erewrite bind_ok by (by apply page_of_user, Huser). erewrite bind_ok by reflexivity.
  rewrite (proj2 (fits_Some 64 _ _)) by (split; [reflexivity|done]).
  erewrite bind_ok by reflexivity. by rewrite Hm, bool_decide_eq_true_2.
Qed.

Lemma check_pages m d k : k + d = n → (∀ j, j < n → (0 ≤ phys + Z.of_nat j * 4096 < 2 ^ 64)%Z) →
  (∀ j, j < n → translate cr3 (surface_page virt j) (tables m) = Some (phys + Z.of_nat j * 4096)%Z) →
  for_each (Z.of_nat <$> seq k d) (check_surface_page cr3 virt phys) m = (Ok tt, m).
Proof.
  intros Hd Hp Hm. revert k Hd. induction d as [|d IH]; intros k Hd; [done|].
  cbn [fmap list_fmap seq for_each]. erewrite bind_ok by (apply check_one; [lia|apply Hp; lia|apply Hm; lia]).
  apply IH. lia.
Qed.

Lemma unmap_one k m : unmapped k m → k < n →
  ∃ m', unmap_surface_page cr3 virt (Z.of_nat k) m = (Ok tt, m') ∧ unmapped (S k) m'.
Proof.
  intros [H1 H2 H3] Hk. pose proof (Huser k Hk) as Hu. unfold unmap_surface_page.
  change (virt + Z.of_nat k * 4096)%Z with (surface_page virt k).
  erewrite bind_ok by (by apply page_of_user).
  assert (mapper_unmap cr3 (surface_page virt k) m =
    (Ok (unmap cr3 (surface_page virt k) (tables m)).1, with_tables (unmap cr3 (surface_page virt k) (tables m)).2 m)) as Hrun
    by (unfold mapper_unmap; by destruct (unmap _ _ _)).
  pose proof (unmap_spec cr3 _ (tables m) Hu) as (Hold & Hnone & Hrest).
  pose proof (unmap_tables cr3 (surface_page virt k) (tables m)) as Ht.
  destruct (unmap cr3 (surface_page virt k) (tables m)) as [o t]. cbn [fst snd] in *.
  erewrite bind_ok by exact Hrun.
  assert (¬ (cr3 = cr3 ∧ mine virt 0 k (surface_page virt k))) as Hk0
    by (intros [_ (j & Hj & Heq%surface_page_inj)]; lia).
  rewrite (H2 _ _ Hcr3 Hu Hk0), (Hpages k Hk) in Hold.
  subst o. erewrite bind_ok by reflexivity. eexists. split; [reflexivity|]. split; cbn; [| |by apply holds_tables].
  - intros j Hj. destruct (decide (j = k)) as [->|Hne]; [done|]. rewrite Hrest; [apply H1; lia|apply Huser; lia|].
    left. by intros ?%surface_page_inj.
  - intros c p Hc Hp Hn. rewrite Hrest; [apply H2; [done|done|]|done|].
    + intros [-> (j & Hj & ->)]. apply Hn. split; [done|]. exists j. split; [lia|done].
    + apply elsewhere_user; [done..|]. intros [-> ->]. apply Hn. split; [done|]. exists k. split; [lia|done].
Qed.

Lemma unmap_all k d m : unmapped k m → k + d = n →
  ∃ m', for_each (Z.of_nat <$> seq k d) (unmap_surface_page cr3 virt) m = (Ok tt, m') ∧ unmapped n m'.
Proof.
  revert k m. induction d as [|d IH]; intros k m Hm Hd.
  { exists m. split; [done|]. by replace n with k by lia. }
  destruct (unmap_one k m Hm) as (m1 & Hu & Hm1); [lia|]. destruct (IH (S k) m1 Hm1) as (m2 & Hr & Hm2); [lia|].
  exists m2. split; [|done]. cbn [fmap list_fmap seq for_each]. by erewrite bind_ok by exact Hu.
Qed.
End unmap.

(** A surface that is mapped as recorded is unmapped, and nothing else is. *)
Lemma unmap_surface_spec K cr3 virt phys n m : holds K m → cr3 ≠ 0%Z → (0 ≤ n)%Z →
  (0 ≤ phys ∧ phys + n * 4096 ≤ 2 ^ 52)%Z → (∀ i, (0 ≤ i < n)%Z → user_page (virt + i * 4096)) →
  (∀ i, (0 ≤ i < n)%Z → translate cr3 (virt + i * 4096) (tables m) = Some (phys + i * 4096)%Z) →
  ∃ m', unmap_surface_frames cr3 virt phys n m = (Ok tt, m') ∧ holds K m' ∧
    ∀ c p, c ≠ 0%Z → user_page p → ¬ (c = cr3 ∧ surface_covers virt n p) →
      translate c p (tables m') = translate c p (tables m).
Proof.
  intros Hm Hc Hn Hp Hu Hmap.
  assert (∀ j, j < Z.to_nat n → user_page (surface_page virt j)) as Hu' by (intros j Hj; apply Hu; lia).
  assert (∀ j, j < Z.to_nat n → translate cr3 (surface_page virt j) (tables m) = Some (phys + Z.of_nat j * 4096)%Z) as Hm'
    by (intros j Hj; apply Hmap; lia).
  unfold unmap_surface_frames, upto.
  erewrite bind_ok by (eapply (check_pages cr3 virt phys (Z.to_nat n)); [done|lia|intros; lia|done]).
  destruct (unmap_all K cr3 virt phys (Z.to_nat n) m Hc Hu' Hm' 0 (Z.to_nat n) m) as (m1 & Hr & [H1 H2 H3]);
    [split; [lia|done|done]|lia|].
  erewrite bind_ok by exact Hr. destruct (prune_keeps rs0 K cr3 m1 H3) as (m2 & Hpr & Hk & Htr).
  exists m2. split_and!; [done|done|]. intros c p Hc' Hu2 Hno. rewrite Htr. apply H2; [done|done|].
  intros [-> (j & Hj & ->)]. apply Hno. split; [done|]. exists (Z.of_nat j). split; [lia|done].
Qed.

(** ** Backing frames *)

Lemma alloc_frames_spec K n (w : SurfaceWorld (PT := PT)) : holds K (sw_memory w) → (0 < n)%Z →
  ∃ o m', alloc_frames n w = (Ok o, with_sw_memory m' w) ∧
    match o with
    | Some f => holds (λ x, x ∈ extent f (Z.to_nat n) ∨ K x) m' ∧ (∀ x, x ∈ extent f (Z.to_nat n) → ¬ K x) ∧
        (f mod 4096 = 0)%Z ∧ (0 ≤ f ∧ f + n * 4096 ≤ 2 ^ 52)%Z ∧ tables m' = tables (sw_memory w)
    | None => m' = sw_memory w
    end.
Proof.
  intros (p & Hp & Hwf & Hal0 & Ht & Hk) Hn.
  pose proof (allocate_spec _ _ (Z.to_nat n) Hwf) as Ha. pose proof (allocate_aligned (Z.to_nat n) p Hal0) as [Hal1 Hmod].
  assert (alloc_frames n w = (Ok (allocate (Z.to_nat n) p).1,
    with_sw_memory (with_pool (Some (allocate (Z.to_nat n) p).2) (sw_memory w)) w)) as Hrun.
  { unfold alloc_frames, on_memory, zoom, mbind, comp_bind, get, put, user_alloc_contiguous_frames.
    rewrite Hp. by destruct (allocate (Z.to_nat n) p). }
  destruct (allocate (Z.to_nat n) p) as [[f|] p1]; cbn [fst snd] in *.
  2: { destruct Ha as [-> _]. eexists _, _. split; [exact Hrun|]. unfold with_pool. destruct (sw_memory w); cbn in *. by subst. }
  destruct Ha as (Hwf1 & _ & Hnew & Hal & _). eexists _, _. split; [exact Hrun|].
  assert (0 ≤ f ∧ f + n * 4096 ≤ 2 ^ 52)%Z as Hrange.
  { assert (∀ x, x ∈ extent f (Z.to_nat n) → (0 ≤ x ∧ x + 4096 ≤ 2 ^ 52)%Z) as Hin.
    { intros x Hx. destruct (pwf_inside _ _ Hwf1 x) as (r & Hr & H1 & H2 & H3 & H4).
      { right. rewrite Hal. apply elem_of_union. right. by apply elem_of_list_to_set. }
      specialize (Hlow r Hr). unfold PAGE_BYTES in *. lia. }
    destruct (Hin f) as [H0 _]; [apply elem_of_extent; exists 0; unfold PAGE_BYTES; lia|].
    destruct (Hin (f + (n - 1) * 4096)%Z) as [_ H1]; [|lia].
    apply elem_of_extent. exists (Z.to_nat (n - 1)). unfold PAGE_BYTES. lia. }
  split; [|split; [|split; [by apply Hmod|split; [done|done]]]].
  - exists p1. cbn. rewrite Hal. split_and!; [done..| |].
    + intros x Hx. apply elem_of_union. left. by apply Ht.
    + intros x [Hx|Hx].
      * split; [apply elem_of_union; right; by apply elem_of_list_to_set|]. intros Hxt%Ht. by apply (Hnew x).
      * destruct (Hk x Hx). split; [apply elem_of_union; by left|done].
  - intros x Hx [? _]%Hk. by apply (Hnew x).
Qed.

Lemma free_backing_spec K phys n (w : SurfaceWorld (PT := PT)) : holds K (sw_memory w) →
  (phys mod 4096 = 0)%Z → (0 ≤ phys ∧ phys + n * 4096 ≤ 2 ^ 52)%Z →
  (∀ x, x ∈ extent phys (Z.to_nat n) → (x ∉ table_frames (tables (sw_memory w))) ∧ ¬ K x) →
  ∃ m', free_backing phys n w = (Ok tt, with_sw_memory m' w) ∧ holds K m' ∧ tables m' = tables (sw_memory w).
Proof.
  intros Hm Ha Hr Hx. unfold free_backing, on_memory, upto.
  enough (∀ d k m, holds K m → tables m = tables (sw_memory w) → k + d = Z.to_nat n →
    ∃ m', for_each (Z.of_nat <$> seq k d) (λ i, (p ← phys_of (phys + i * 4096); free_frame (frame_of p))) m = (Ok tt, m') ∧
      holds K m' ∧ tables m' = tables (sw_memory w)) as Hgo.
  { destruct (Hgo (Z.to_nat n) 0 (sw_memory w)) as (m' & Hrun & ? & ?); [done..|lia|].
    exists m'. split; [|done]. unfold zoom. by rewrite Hrun. }
  induction d as [|d IH]; intros k m Hk Ht Hd; [by exists m|].
  assert (phys + Z.of_nat k * 4096 ∈ extent phys (Z.to_nat n))%Z as Hin.
  { apply elem_of_extent. exists k. split; [done|lia]. }
  destruct (Hx _ Hin) as [H1 H2].
  destruct (holds_free rs0 K (phys + Z.of_nat k * 4096) m Hk) as (m1 & Hf & Hm1 & Ht1); [by rewrite Ht|done|].
  destruct (IH (S k) m1) as (m2 & Hrun & Hm2 & Ht2); [done|congruence|lia|]. exists m2. split; [|done].
  cbn [fmap list_fmap seq for_each]. rewrite bind_assoc.
  assert (phys_of (phys + Z.of_nat k * 4096) m = (Ok (phys + Z.of_nat k * 4096)%Z, m)) as Hp.
  { unfold phys_of. rewrite (proj2 (fits_Some 52 _ _)) by (split; [reflexivity|lia]). done. }
  erewrite bind_ok by exact Hp. unfold frame_of.
  rewrite Z.add_mod, Ha, Z.mul_mod, Z.mod_same by lia. rewrite Z.mul_0_r, Z.sub_0_r.
  by erewrite bind_ok by exact Hf.
Qed.

(** ** The invariant *)

Definition backing_of (s : SurfaceInfo) : list Z := extent (sf_phys s) (Z.to_nat (sf_pages s)).
Definition backing (L : list SurfaceInfo) (f : Z) : Prop := ∃ s, s ∈ L ∧ f ∈ backing_of s.

(** One record: its place, its size, and room for what it shows. *)
Record surface_ok (s : SurfaceInfo) : Prop := {
  sok_slot : (0 ≤ sf_slot s < 16)%Z;
  sok_vma : sf_vma s = (USER_SURFACE_BASE + sf_slot s * SURFACE_SLOT_SIZE)%Z;
  sok_cr3 : sf_cr3 s ≠ 0%Z;
  sok_size : sf_size s = (sf_pages s * 4096)%Z;
  sok_pages : (0 < sf_pages s ≤ 900)%Z;
  sok_stride : ∃ w0 h0, (1 ≤ w0 ≤ MAX_SURFACE_WIDTH ∧ 1 ≤ h0 ≤ MAX_SURFACE_HEIGHT ∧
                 sf_stride s = w0 * 4 ∧ sf_stride s * h0 ≤ sf_size s)%Z;
  sok_shown : (1 ≤ sf_width s ∧ 4 * sf_width s ≤ sf_stride s ∧
               1 ≤ sf_height s ∧ sf_stride s * sf_height s ≤ sf_size s)%Z;
  sok_phys : (sf_phys s mod 4096 = 0 ∧ 0 ≤ sf_phys s ∧ sf_phys s + sf_pages s * 4096 ≤ 2 ^ 52)%Z;
}.

(** The pages a surface occupies are mapped to its frames, in order. *)
Definition mapped_in (t : PT) (s : SurfaceInfo) : Prop :=
  ∀ i, (0 ≤ i < sf_pages s)%Z → translate (sf_cr3 s) (sf_vma s + i * 4096) t = Some (sf_phys s + i * 4096)%Z.

Definition seat (s : SurfaceInfo) : Z * Z := (sf_owner s, sf_slot s).

(** [K] is what everybody else holds. *)
Record surfaces_ok K (L : list SurfaceInfo) m : Prop := {
  so_each : Forall surface_ok L;
  so_mapped : Forall (mapped_in (tables m)) L;
  so_frames : NoDup (L ≫= backing_of);
  so_seats : NoDup (map seat L);
  so_others f : backing L f → ¬ K f;
  so_holds : holds (λ f, backing L f ∨ K f) m;
}.

Lemma surface_pages_user s i : surface_ok s → (0 ≤ i < sf_pages s)%Z → user_page (sf_vma s + i * 4096).
Proof.
  intros Hs Hi. pose proof (sok_slot _ Hs). pose proof (sok_pages _ Hs). rewrite (sok_vma _ Hs).
  unfold user_page, USER_SURFACE_BASE, SURFACE_SLOT_SIZE, USER_ADDR_BASE, USER_ADDR_LIMIT. split; [lia|].
  replace (1879048192 + sf_slot s * 16777216 + i * 4096)%Z with ((458752 + sf_slot s * 4096 + i) * 4096)%Z by lia.
  apply Z.mod_mul. lia.
Qed.

(** A surface's own page is covered by no other surface's place: it maps to a
    frame of its own. *)
Lemma other_surface_apart t s s' i : mapped_in t s → mapped_in t s' → (∀ f, f ∈ backing_of s → f ∉ backing_of s') →
  (0 ≤ i < sf_pages s)%Z → ¬ (sf_cr3 s = sf_cr3 s' ∧ surface_covers (sf_vma s') (sf_pages s') (sf_vma s + i * 4096)).
Proof.
  intros H1 H2 Hd Hi [Hc (j & Hj & He)]. specialize (H1 i Hi). specialize (H2 j Hj).
  rewrite Hc, He, H2 in H1. injection H1 as H1.
  apply (Hd (sf_phys s + i * 4096)%Z).
  - apply elem_of_extent. exists (Z.to_nat i). unfold PAGE_BYTES. lia.
  - rewrite <-H1. apply elem_of_extent. exists (Z.to_nat j). unfold PAGE_BYTES. lia.
Qed.

(** ** Seats *)

Lemma mask_sets (l : list SurfaceInfo) mask s : (∀ x, x ∈ l → (0 ≤ sf_slot x)%Z) →
  (s ∈ l ∨ ((0 ≤ sf_slot s)%Z ∧ Z.testbit mask (sf_slot s) = true)) →
  Z.testbit (foldl (λ mask s, Z.lor mask (Z.shiftl 1 (sf_slot s))) mask l) (sf_slot s) = true.
Proof.
  revert mask. induction l as [|x l IH]; intros mask Hl Hs; cbn.
  { destruct Hs as [?%elem_of_nil|[_ ?]]; done. }
  assert (0 ≤ sf_slot x)%Z as Hx by (apply Hl; left).
  apply IH; [intros y Hy; apply Hl; by right|].
  destruct Hs as [[->|Hs]%elem_of_cons|[H0 Hs]]; [right|by left|right].
  - split; [done|]. rewrite Z.lor_spec, Z.shiftl_spec, Z.sub_diag by done. by rewrite orb_true_r.
  - split; [done|]. by rewrite Z.lor_spec, Hs.
Qed.

(** A free seat is one the process does not use. *)
Lemma free_slot_spec pid L i : Forall surface_ok L → free_slot pid L = Some i →
  (0 ≤ i < 16)%Z ∧ (pid, i) ∉ map seat L.
Proof.
  intros HL Hf. unfold free_slot in Hf. apply fmap_Some in Hf as ([k x] & (Hk & Hz & _)%list_find_Some & ->).
  unfold upto in Hk. apply list_lookup_fmap_Some in Hk as (j & -> & Hj). apply lookup_seq in Hj as [-> Hlt].
  cbn [snd] in *. unfold MAX_SURFACES_PER_PROCESS in Hlt. split; [lia|].
  intros (s & Hs & Hin)%list_elem_of_fmap. injection Hs as Hp Hslot.
  assert (Z.testbit (used_mask pid L) (sf_slot s) = true) as Hbit.
  { apply mask_sets; [|left; by apply list_elem_of_filter].
    intros y [_ Hy]%list_elem_of_filter. rewrite Forall_forall in HL. destruct (sok_slot _ (HL y Hy)). lia. }
  apply (f_equal (λ z, Z.testbit z (sf_slot s))) in Hz.
  rewrite Z.land_spec, Hbit, <-Hslot, Z.shiftl_spec, Z.sub_diag, Z.bits_0 in Hz by lia. done.
Qed.

(** ** Destruction *)

Lemma registry_delete L i s : L !! i = Some s → L ≡ₚ s :: delete i L.
Proof. intros H. by apply delete_Permutation. Qed.

Lemma backing_delete L i s f : L !! i = Some s → backing L f ↔ f ∈ backing_of s ∨ backing (delete i L) f.
Proof.
  intros Hi. unfold backing. split.
  - intros (x & Hx & Hf). rewrite (registry_delete _ _ _ Hi) in Hx. apply elem_of_cons in Hx as [->|Hx]; [by left|right; by exists x].
  - intros [Hf|(x & Hx & Hf)]; [exists s|exists x]; (split; [|done]); rewrite (registry_delete _ _ _ Hi); [left|by right].
Qed.

(** What stays when a surface goes: its frames are nobody's. *)
Lemma registry_split K L m i s : surfaces_ok K L m → L !! i = Some s →
  surface_ok s ∧ mapped_in (tables m) s ∧
  Forall surface_ok (delete i L) ∧ Forall (mapped_in (tables m)) (delete i L) ∧ NoDup (delete i L ≫= backing_of) ∧
  NoDup (map seat (delete i L)) ∧ (∀ f, f ∈ backing_of s → ¬ (backing (delete i L) f ∨ K f)).
Proof.
  intros [He Hm Hf Hs Ho Hh] Hi. pose proof (registry_delete _ _ _ Hi) as Hp.
  rewrite Hp in He, Hm, Hf. apply Forall_cons in He as [He1 He2], Hm as [Hm1 Hm2].
  rewrite bind_cons in Hf. apply NoDup_app in Hf as (_ & Hd & Hf).
  assert (map seat L ≡ₚ map seat (s :: delete i L)) as Hps by (by rewrite Hp at 1).
  rewrite Hps in Hs. apply NoDup_cons in Hs as [_ Hs]. split_and!; try done.
  intros f Hin [(x & Hx & Hfx)|Hk].
  - apply (Hd f Hin). apply list_elem_of_bind. by exists x.
  - apply (Ho f); [|done]. exists s. split; [by eapply list_elem_of_lookup_2|done].
Qed.

Definition only_changed_at (cr3 virt n : Z) m m' : Prop := ∀ c p, c ≠ 0%Z → user_page p →
  ¬ (c = cr3 ∧ surface_covers virt n p) → translate c p (tables m') = translate c p (tables m).

Lemma destroy_spec K (w : SurfaceWorld (PT := PT)) pid id i s :
  surfaces_ok K (SURFACE_REGISTRY w) (sw_memory w) →
  list_find (λ f, sf_id f = id) (SURFACE_REGISTRY w) = Some (i, s) → sf_owner s = pid →
  ∃ m', destroy_surface_for_pid pid id w =
      (Ok tt, mkSurfaces (update pid (λ p, (return_charge (sf_size s) p).2) (sw_sched w)) m'
                (delete i (SURFACE_REGISTRY w)) (NEXT_SURFACE_ID w)) ∧
    surfaces_ok K (delete i (SURFACE_REGISTRY w)) m' ∧ only_changed_at (sf_cr3 s) (sf_vma s) (sf_pages s) (sw_memory w) m'.
Proof.
  intros Hok Hfind Hown. pose proof Hfind as (Hi & _ & _)%list_find_Some.
  destruct (registry_split _ _ _ _ _ Hok Hi) as (Hs & Hmap & He & Hm & Hf & Hseat & Hfree).
  pose proof (so_holds _ _ _ Hok) as Hh. destruct (sok_phys _ Hs) as (Ha & Hp0 & Hp1). pose proof (sok_pages _ Hs) as Hpg.
  destruct (unmap_surface_spec _ (sf_cr3 s) (sf_vma s) (sf_phys s) (sf_pages s) _ Hh (sok_cr3 _ Hs))
    as (m1 & Hu & Hh1 & Hrest); [lia|lia|intros; by apply surface_pages_user|done|].
  unfold destroy_surface_for_pid. erewrite bind_ok by reflexivity. rewrite Hfind. erewrite bind_ok by reflexivity. cbv beta iota.
  rewrite Hown, Z.eqb_refl. erewrite bind_ok by reflexivity.
  erewrite bind_ok by (unfold on_memory, zoom; rewrite Hu; reflexivity). erewrite bind_ok by reflexivity.
  set (w1 := with_registry _ (with_sw_memory m1 w)).
  destruct (free_backing_spec (λ f, backing (delete i (SURFACE_REGISTRY w)) f ∨ K f) (sf_phys s) (sf_pages s) w1)
    as (m2 & Hrun & Hh2 & Ht2); [|done|lia| |].
  { eapply holds_weaken; [|exact Hh1]. intros f [Hb|Hb]; [left|by right]. apply (backing_delete _ i s); [done|by right]. }
  { intros x Hx. split; [|by apply Hfree]. destruct Hh1 as (p & _ & _ & _ & _ & Hkk).
    apply Hkk. left. apply (backing_delete _ i s); [done|]. by left. }
  erewrite bind_ok by exact Hrun. exists m2. split; [by subst w1|]. split.
  - split; try done.
    + rewrite Ht2. cbn [w1 sw_memory with_registry with_sw_memory]. rewrite Forall_forall in Hm, He |- *.
      intros x Hx j Hj. rewrite Hrest; [by apply Hm|by apply sok_cr3, He|apply surface_pages_user; [by apply He|done]|].
      apply (other_surface_apart (tables (sw_memory w))); [by apply Hm|done| |done].
      intros f Hfx Hfs. apply (Hfree f Hfs). left. by exists x.
    + intros f Hb. apply (so_others _ _ _ Hok). apply (backing_delete _ i s); [done|]. by right.
  - intros c p Hc Hu2 Hno. rewrite Ht2. by apply Hrest.
Qed.

(** ** Creation *)

Definition quotas_ok (s : Scheduler) : Prop := map_Forall (λ _ p, within_quota p) (procs s).
Definition same_mappings m m' : Prop := ∀ c p, c ≠ 0%Z → user_page p → translate c p (tables m') = translate c p (tables m).

Lemma quota_run c p : within_quota p → quota_call_ok c → within_quota (quota_exec c p).2 ∧ (quota_exec c p).1 ≠ Panic.
Proof. intros Hp Hc. by destruct (quota_exec_spec c p Hp Hc) as (? & ? & _). Qed.

Lemma return_charge_within n p : within_quota p → (0 ≤ n ≤ u64_max)%Z → within_quota (return_charge n p).2.
Proof.
  intros Hp Hn. destruct (quota_run (QUnchargeMemory n) p Hp Hn) as [H1 _].
  exact (proj1 (quota_run (QSurface false) _ H1 I)).
Qed.

Lemma charge_surface_spec n p : within_quota p → (0 ≤ n ≤ u64_max)%Z →
  wp (charge_surface n) (λ r p', r ≠ Panic ∧ within_quota p' ∧ ∀ cr3, r = Ok cr3 → cr3 ≠ 0%Z) p.
Proof.
  intros Hp Hn. unfold charge_surface. wp_step. wp_step. cbv beta iota. wp_step. wp_step; [by split_and!|].
  cbv beta iota. wp_step. apply wp_intro. destruct (quota_run (QChargeMemory n) p Hp Hn) as [H1 H2].
  change (quota_exec (QChargeMemory n)) with (try_charge_memory n) in *.
  destruct (try_charge_memory n p) as [[[]|e|] p1]; cbn in *; [|by split_and!|done].
  wp_step. wp_step. apply wp_intro. destruct (quota_run (QSurface true) p1 H1 I) as [H3 H4].
  change (quota_exec (QSurface true)) with increment_surface_count in *.
  destruct (increment_surface_count p1) as [[[]|e|] p2]; cbn in *; [| |done].
  - wp_step. split_and!; [done|done|]. intros cr3 [= <-]. reflect. done.
  - wp_step. apply wp_intro. destruct (quota_run (QUnchargeMemory n) p2 H3 Hn) as [H5 H6].
    change (quota_exec (QUnchargeMemory n)) with (uncharge_memory n) in *.
    destruct (uncharge_memory n p2) as [[[]|e'|] p3]; cbn in *; by split_and!.
Qed.

Lemma on_owner_spec {A} pid e (m : comp Process string A) (Q : outcome string A → Prop) (w : SurfaceWorld (PT := PT)) :
  quotas_ok (sw_sched w) → Q (Err e) →
  (∀ p, within_quota p → wp m (λ r p', Q r ∧ within_quota p') p) →
  ∃ r s', on_owner pid e m w = (r, with_sw_sched s' w) ∧ Q r ∧ quotas_ok s'.
Proof.
  intros Hq He Hm. unfold on_owner. erewrite bind_ok by reflexivity.
  destruct (procs (sw_sched w) !! pid) as [p|] eqn:Hp.
  2: { exists (Err e), (sw_sched w). by destruct w. }
  erewrite bind_ok by reflexivity. specialize (Hm p (Hq _ _ Hp)). unfold wp in Hm. unfold zoom.
  destruct (m p) as [r p']. exists r, (with_procs (<[pid:=p']> (procs (sw_sched w))) (sw_sched w)).
  split_and!; [done|apply Hm|]. apply map_Forall_insert_2; [apply Hm|done].
Qed.

(** Frames and mappings for a surface, or nothing at all. *)
Lemma back_surface_spec K cr3 vma n (w : SurfaceWorld (PT := PT)) : holds K (sw_memory w) → (0 < n)%Z →
  ∃ r m', back_surface cr3 vma n w = (r, with_sw_memory m' w) ∧
    match r with
    | Ok phys => holds (λ x, x ∈ extent phys (Z.to_nat n) ∨ K x) m' ∧ (∀ x, x ∈ extent phys (Z.to_nat n) → ¬ K x) ∧
        (phys mod 4096 = 0)%Z ∧ (0 ≤ phys ∧ phys + n * 4096 ≤ 2 ^ 52)%Z ∧
        (∀ i, (0 ≤ i < n)%Z → translate cr3 (vma + i * 4096) (tables (sw_memory w)) = None ∧
           translate cr3 (vma + i * 4096) (tables m') = Some (phys + i * 4096)%Z) ∧
        only_changed_at cr3 vma n (sw_memory w) m'
    | Err _ => holds K m' ∧ same_mappings (sw_memory w) m'
    | Panic => False
    end.
Proof.
  intros Hh Hn. unfold back_surface. destruct (alloc_frames_spec K n w Hh Hn) as (o & m1 & Hal & Ho).
  erewrite bind_ok by exact Hal. destruct o as [f|].
  2: { subst m1. exists (Err "Out of contiguous memory for surface backing"%string), (sw_memory w).
       split; [done|]. by split. }
  destruct Ho as (Hh1 & Hnew & Ha & Hr & Ht1). erewrite bind_ok by reflexivity.
  destruct (map_surface_spec rs0 _ cr3 vma f n m1 Hh1) as (r & m2 & Hrun & Hh2 & Hpost); [lia|lia|].
  assert (on_memory (map_surface_frames cr3 vma f n) (with_sw_memory m1 w) = (r, with_sw_memory m2 w)) as Hon
    by (unfold on_memory, zoom; cbn [sw_memory with_sw_memory]; by rewrite Hrun).
  destruct r as [[]|e|]; [| |done].
  - erewrite bind_ok by (unfold attempt; rewrite Hon; reflexivity).
    exists (Ok f), m2. split; [done|]. rewrite <-Ht1. split_and!; [exact Hh2|exact Hnew|done|lia|lia| |].
    + apply Hpost.
    + intros c p Hc Hu Hno. rewrite <-Ht1. by apply Hpost.
  - erewrite bind_ok by (unfold attempt; rewrite Hon; reflexivity).
    destruct (free_backing_spec K f n (with_sw_memory m2 w)) as (m3 & Hf & Hh3 & Ht3); [|done|lia| |].
    { eapply holds_weaken; [|exact Hh2]. intros x ?. by right. }
    { intros x Hx. split; [|by apply Hnew]. destruct Hh2 as (p & _ & _ & _ & _ & Hk). apply Hk. by left. }
    erewrite bind_ok by exact Hf. exists (Err e), m3. split; [done|]. split; [done|].
    intros c p Hc Hu. rewrite Ht3. cbn [sw_memory with_sw_memory]. rewrite <-Ht1. by apply Hpost.
Qed.

Lemma unchanged_ok K L m m' : surfaces_ok K L m → same_mappings m m' →
  holds (λ f, backing L f ∨ K f) m' → surfaces_ok K L m'.
Proof.
  intros [He Hm Hf Hs Ho Hh] Hsame Hh'. split; try done. rewrite Forall_forall in Hm, He |- *.
  intros x Hx i Hi. rewrite Hsame; [by apply Hm|by apply sok_cr3, He|by apply surface_pages_user; [apply He|]].
Qed.

(** A new record joins the registry. *)
Lemma push_surface K L m m' s : surfaces_ok K L m → surface_ok s → seat s ∉ map seat L →
  (∀ f, f ∈ backing_of s → ¬ (backing L f ∨ K f)) → mapped_in (tables m') s →
  (∀ i, (0 ≤ i < sf_pages s)%Z → translate (sf_cr3 s) (sf_vma s + i * 4096) (tables m) = None) →
  only_changed_at (sf_cr3 s) (sf_vma s) (sf_pages s) m m' →
  holds (λ f, f ∈ backing_of s ∨ backing L f ∨ K f) m' → surfaces_ok K (L ++ [s]) m'.
Proof.
  intros [He Hm Hf Hseat Ho Hh] Hs Hfree Hnew Hmap Hnone Hrest Hh'.
  assert (∀ f, backing (L ++ [s]) f ↔ backing L f ∨ f ∈ backing_of s) as Hb.
  { intros f. unfold backing. setoid_rewrite elem_of_app. setoid_rewrite list_elem_of_singleton. naive_solver. }
  split.
  - apply Forall_app. split; [done|by constructor].
  - apply Forall_app. split; [|by constructor]. rewrite Forall_forall in Hm, He |- *. intros x Hx i Hi.
    rewrite Hrest; [by apply Hm|by apply sok_cr3, He|by apply surface_pages_user; [apply He|]|].
    intros [Hc (j & Hj & Hv)]. specialize (Hnone j Hj). specialize (Hm x Hx i Hi). congruence.
  - rewrite bind_app. cbn. rewrite app_nil_r. apply NoDup_app. split_and!; [done| |].
    + intros f (x & Hfx & Hx)%list_elem_of_bind Hfs. apply (Hnew f Hfs). left. by exists x.
    + apply NoDup_extent.
  - rewrite map_app. apply NoDup_app. split_and!; [done| |apply NoDup_singleton].
    intros x Hx ->%list_elem_of_singleton. done.
  - intros f [Hf'|Hf']%Hb; [by apply Ho|]. intros Hk. apply (Hnew f Hf'). by right.
  - eapply holds_weaken; [|exact Hh']. intros f [Hf'%Hb|Hf']; tauto.
Qed.

(** ** Every call *)

(** The state as a whole. *)
Definition world_ok K (w : SurfaceWorld (PT := PT)) : Prop :=
  surfaces_ok K (SURFACE_REGISTRY w) (sw_memory w) ∧ quotas_ok (sw_sched w).

(** What a call by [pid] leaves of the state: the surfaces of the others, and
    everything when it fails. *)
Definition respects (pid : Z) {A} (r : outcome string A) (w w' : SurfaceWorld (PT := PT)) : Prop :=
  filter (λ s, sf_owner s ≠ pid) (SURFACE_REGISTRY w') = filter (λ s, sf_owner s ≠ pid) (SURFACE_REGISTRY w) ∧
  ∀ e, r = Err e → SURFACE_REGISTRY w' = SURFACE_REGISTRY w ∧ same_mappings (sw_memory w) (sw_memory w').

(** A page where the process shows no surface. *)
Definition outside_surfaces (pid : Z) (L : list SurfaceInfo) (c p : Z) : Prop :=
  ∀ s, s ∈ L → sf_owner s = pid → ¬ (c = sf_cr3 s ∧ surface_covers (sf_vma s) (sf_pages s) p).

(** The mappings outside the process's surfaces, before and after, are kept. *)
Definition confined (pid : Z) (w w' : SurfaceWorld (PT := PT)) : Prop := ∀ c p, c ≠ 0%Z → user_page p →
  outside_surfaces pid (SURFACE_REGISTRY w) c p → outside_surfaces pid (SURFACE_REGISTRY w') c p →
  translate c p (tables (sw_memory w')) = translate c p (tables (sw_memory w)).

Lemma respects_same pid {A} (r : outcome string A) w w' : SURFACE_REGISTRY w' = SURFACE_REGISTRY w →
  same_mappings (sw_memory w) (sw_memory w') → respects pid r w w'.
Proof. intros H1 H2. split; [by rewrite H1|done]. Qed.

Definition pages_for (bytes : Z) : Z := ((bytes + 4095) / 4096)%Z.

Lemma pages_for_spec width height : (1 ≤ width ≤ MAX_SURFACE_WIDTH)%Z → (1 ≤ height ≤ MAX_SURFACE_HEIGHT)%Z →
  (0 < pages_for (width * 4 * height) ≤ 900 ∧ width * 4 * height ≤ pages_for (width * 4 * height) * 4096)%Z.
Proof.
  unfold MAX_SURFACE_WIDTH, MAX_SURFACE_HEIGHT, pages_for. intros Hw Hh.
  assert (4 ≤ width * 4 * height ≤ 3686400)%Z as Hb by nia.
  pose proof (Z.div_mod (width * 4 * height + 4095) 4096 ltac:(lia)).
  pose proof (Z.mod_pos_bound (width * 4 * height + 4095) 4096 ltac:(lia)). lia.
Qed.

Lemma update_quotas pid n s : quotas_ok s → (0 ≤ n ≤ u64_max)%Z →
  quotas_ok (update pid (λ p, (return_charge n p).2) s).
Proof.
  intros Hq Hn x p Hx. unfold update in Hx. cbn [procs with_procs] in Hx. apply lookup_alter_Some in Hx as [(-> & p0 & Hp0 & ->)|[_ Hx]]; [|by apply (Hq x)].
  apply return_charge_within; [by eapply Hq|done].
Qed.

Lemma create_spec K pid width height (w : SurfaceWorld (PT := PT)) : world_ok K w →
  (0 ≤ width)%Z → (0 ≤ height)%Z →
  ∃ r w', create_surface_for_pid pid width height w = (r, w') ∧ r ≠ Panic ∧ world_ok K w' ∧ respects pid r w w' ∧
    confined pid w w'.
Proof.
  intros Hw H0 H0'. pose proof Hw as [Hok Hq]. unfold create_surface_for_pid.
  assert (∀ e, ∃ r w', (Err e, w) = (r, w') ∧ r ≠ @Panic string Z ∧ world_ok K w' ∧ respects pid r w w' ∧
    confined pid w w') as Hnothing.
  { intros e. exists (Err e), w. do 3 (split; [done|]). split; [by apply respects_same|done]. }
  destruct (orb _ _) eqn:Ebad; [erewrite bind_err by reflexivity; apply Hnothing|].
  erewrite bind_ok by reflexivity. reflect.
  assert (1 ≤ width ≤ MAX_SURFACE_WIDTH)%Z as Hwd by lia. assert (1 ≤ height ≤ MAX_SURFACE_HEIGHT)%Z as Hhd by lia.
  pose proof (pages_for_spec _ _ Hwd Hhd) as [Hp1 Hp2]. unfold MAX_SURFACE_WIDTH, MAX_SURFACE_HEIGHT in Hwd, Hhd.
  rewrite (proj2 (fits_Some 32 _ _)) by (split; [reflexivity|lia]). erewrite bind_ok by reflexivity.
  rewrite (proj2 (fits_Some 64 _ _)) by (split; [reflexivity|nia]). erewrite bind_ok by reflexivity.
  fold (pages_for (width * 4 * height)). set (n := pages_for (width * 4 * height)) in *. cbv zeta.
  erewrite bind_ok by reflexivity.
  destruct (free_slot pid (SURFACE_REGISTRY w)) as [i|] eqn:Hslot; [|erewrite bind_err by reflexivity; apply Hnothing].
  erewrite bind_ok by reflexivity.
  destruct (free_slot_spec _ _ _ (so_each _ _ _ Hok) Hslot) as [Hi Hfree].
  destruct (on_owner_spec pid "Surface owner not found" (charge_surface (n * 4096))
    (λ r, r ≠ Panic ∧ ∀ cr3, r = Ok cr3 → cr3 ≠ 0%Z) w Hq) as (r1 & s1 & Hch & [Hr1 Hcr] & Hq1); [done| |].
  { intros p Hp. eapply wp_mono; [apply charge_surface_spec; [done|unfold u64_max; lia]|].
    intros r p' (? & ? & ?). by split_and!. }
  destruct r1 as [cr3|e|]; [|erewrite bind_err by exact Hch|done].
  2: { eexists _, _. split; [reflexivity|]. do 2 (split; [done|]). split; [by apply respects_same|done]. }
  erewrite bind_ok by exact Hch. specialize (Hcr cr3 eq_refl).
  destruct (back_surface_spec (λ f, backing (SURFACE_REGISTRY w) f ∨ K f) cr3 (USER_SURFACE_BASE + i * SURFACE_SLOT_SIZE) n
    (with_sw_sched s1 w)) as (r2 & m' & Hback & Hpost); [apply (so_holds _ _ _ Hok)|lia|].
  destruct r2 as [phys|e|]; [| |done].
  - erewrite bind_ok by (unfold attempt; rewrite Hback; reflexivity). cbv iota. erewrite bind_ok by reflexivity.
    erewrite bind_ok by reflexivity. eexists _, _. split; [reflexivity|]. split; [done|].
    destruct Hpost as (Hh' & Hnew & Ha & Hr & Hmap & Hrest). split.
    + split; [|done]. apply (push_surface K _ (sw_memory w)); [done| |done|done| | |done|done].
      * split; cbn; try lia; try done. exists width, height. unfold MAX_SURFACE_WIDTH, MAX_SURFACE_HEIGHT. lia.
      * intros j Hj. by apply Hmap.
      * intros j Hj. by apply Hmap.
    + split.
      * split; [|done]. cbn. rewrite filter_app, filter_cons_False by (cbn; lia). by rewrite app_nil_r.
      * intros c p Hc Hu _ Hout. apply Hrest; [done|done|]. eapply (Hout (mkSurface _ _ _ _ _ _ _ _ _ _ _ _ _)).
        -- apply elem_of_app. right. left.
        -- done.
  - erewrite bind_ok by (unfold attempt; rewrite Hback; reflexivity). cbv iota. erewrite bind_ok by reflexivity.
    eexists _, _. split; [reflexivity|]. destruct Hpost as [Hh' Hsame]. split; [done|]. split.
    + split; [by eapply unchanged_ok|]. apply (update_quotas pid (n * 4096) s1); [done|]. unfold u64_max. lia.
    + split; [by apply respects_same|]. intros c p Hc Hu _ _. by apply Hsame.
Qed.

Lemma destroy_call K pid id (w : SurfaceWorld (PT := PT)) : world_ok K w →
  ∃ r w', destroy_surface_for_pid pid id w = (r, w') ∧ r ≠ Panic ∧ world_ok K w' ∧ respects pid r w w' ∧
    match r with
    | Ok _ => length (SURFACE_REGISTRY w) = S (length (SURFACE_REGISTRY w')) ∧
        SURFACE_REGISTRY w' `sublist_of` SURFACE_REGISTRY w ∧
        ∀ c p, c ≠ 0%Z → user_page p → outside_surfaces pid (SURFACE_REGISTRY w) c p →
          translate c p (tables (sw_memory w')) = translate c p (tables (sw_memory w))
    | _ => w' = w ∧ (∀ i s, list_find (λ f, sf_id f = id) (SURFACE_REGISTRY w) = Some (i, s) → sf_owner s ≠ pid)
    end.
Proof.
  intros Hw. pose proof Hw as [Hok Hq].
  destruct (list_find (λ f, sf_id f = id) (SURFACE_REGISTRY w)) as [[i s]|] eqn:Hf.
  2: { exists (Err "Surface not found"%string), w. split; [|do 2 (split; [done|]); split; [by apply respects_same|by split]].
       unfold destroy_surface_for_pid. erewrite bind_ok by reflexivity. by rewrite Hf. }
  destruct (decide (sf_owner s = pid)) as [Ho|Ho].
  2: { exists (Err "Permission denied: caller is not surface owner"%string), w. split.
       - unfold destroy_surface_for_pid. erewrite bind_ok by reflexivity. rewrite Hf. erewrite bind_ok by reflexivity.
         cbv beta iota. by rewrite (proj2 (Z.eqb_neq _ _) Ho).
       - do 2 (split; [done|]). split; [by apply respects_same|]. split; [done|]. by intros i' s' [= <- <-]. }
  destruct (destroy_spec K w pid id i s Hok Hf Ho) as (m' & Hrun & Hok' & Hrest).
  pose proof Hf as (Hi & _ & _)%list_find_Some. eexists _, _. split; [exact Hrun|]. split; [done|].
  pose proof (proj1 (Forall_forall _ _) (so_each _ _ _ Hok) s ltac:(by eapply list_elem_of_lookup_2)) as Hs.
  split; [|split].
  - split; [done|]. apply update_quotas; [done|]. rewrite (sok_size _ Hs). pose proof (sok_pages _ Hs). unfold u64_max. lia.
  - split; [|done]. cbn. rewrite <-(take_drop_middle _ _ _ Hi) at 2. rewrite delete_take_drop.
    rewrite !filter_app, (filter_cons_False _ s) by (by intros ?). done.
  - split.
    + cbn. rewrite length_delete by done. apply lookup_lt_Some in Hi. lia.
    + split; [apply sublist_delete|].
      intros c p Hc Hu Hout. apply Hrest; [done|done|]. apply Hout; [by eapply list_elem_of_lookup_2|done].
Qed.

(** A record is touched up where it stands. *)
Lemma bind_insert_same {A B} (f : A → list B) (l : list A) i x y : l !! i = Some x → f y = f x →
  <[i:=y]> l ≫= f = l ≫= f.
Proof.
  revert i. induction l as [|z l IH]; intros [|i] Hi Hf; simplify_eq/=; [by rewrite Hf|].
  by rewrite IH.
Qed.

Lemma retouch_ok K L m i s s' : surfaces_ok K L m → L !! i = Some s → surface_ok s' →
  backing_of s' = backing_of s → seat s' = seat s → (mapped_in (tables m) s → mapped_in (tables m) s') →
  surfaces_ok K (<[i:=s']> L) m ∧ ∀ pid, sf_owner s = pid →
    filter (λ x, sf_owner x ≠ pid) (<[i:=s']> L) = filter (λ x, sf_owner x ≠ pid) L.
Proof.
  intros [He Hm Hf Hs Ho Hh] Hi Hok Hb Hseat Hmap.
  assert (∀ f, backing (<[i:=s']> L) f ↔ backing L f) as Hbk.
  { intros f. assert (∀ l, backing l f ↔ f ∈ l ≫= backing_of) as Hl.
    { intros l. rewrite list_elem_of_bind. unfold backing. naive_solver. }
    by rewrite !Hl, (bind_insert_same _ _ _ _ _ Hi Hb). }
  split; [split|].
  - by apply Forall_insert.
  - apply Forall_insert; [done|]. apply Hmap. rewrite Forall_forall in Hm. apply Hm. by eapply list_elem_of_lookup_2.
  - by rewrite (bind_insert_same _ _ _ _ _ Hi Hb).
  - change (map seat) with (fmap (M := list) seat) in *. rewrite list_fmap_insert, Hseat, list_insert_id; [done|].
    by rewrite list_lookup_fmap, Hi.
  - intros f Hf'%Hbk. by apply Ho.
  - eapply holds_weaken; [|exact Hh]. intros f [Hf'%Hbk|Hf']; [by left|by right].
  - intros pid Hp. injection Hseat as Ho' _. rewrite insert_take_drop by (by eapply lookup_lt_Some).
    rewrite <-(take_drop_middle _ _ _ Hi) at 3. rewrite !filter_app.
    by rewrite !filter_cons_False by (intros Hn; apply Hn; congruence).
Qed.

Lemma present_call K pid id x y wd ht (w : SurfaceWorld (PT := PT)) : world_ok K w →
  ∃ r w', present_rect pid id x y wd ht w = (r, w') ∧ r ≠ Panic ∧ world_ok K w' ∧ respects pid r w w' ∧ confined pid w w'.
Proof.
  intros Hw. pose proof Hw as [Hok Hq]. unfold present_rect. erewrite bind_ok by reflexivity.
  assert (∀ e, ∃ r w', (Err e, w) = (r, w') ∧ r ≠ @Panic string (Z * Z * Z * Z) ∧ world_ok K w' ∧ respects pid r w w' ∧
    confined pid w w') as Hnothing.
  { intros e. exists (Err e), w. do 3 (split; [done|]). split; [by apply respects_same|done]. }
  destruct (list_find _ _) as [[i s]|] eqn:Hf; [|apply Hnothing]. erewrite bind_ok by reflexivity. cbv beta iota.
  pose proof Hf as (Hi & _ & _)%list_find_Some.
  destruct (sf_owner s =? pid)%Z eqn:Ho; [|apply Hnothing]. reflect. erewrite bind_ok by reflexivity. cbv zeta.
  erewrite bind_ok by reflexivity. eexists _, _. split; [reflexivity|]. split; [done|].
  pose proof (proj1 (Forall_forall _ _) (so_each _ _ _ Hok) s ltac:(by eapply list_elem_of_lookup_2)) as Hs.
  set (r := (_, _, _, _)) in *. destruct (retouch_ok K _ _ i s (set_dirty r s) Hok Hi) as [Hok' Hflt]; [by destruct Hs|done..|].
  split; [by split|]. split; [split; [by apply Hflt|done]|done].
Qed.

Lemma render_call K pid id rw rh (w : SurfaceWorld (PT := PT)) : world_ok K w →
  ∃ r w', get_surface_render_target id pid rw rh w = (r, w') ∧ r ≠ Panic ∧ world_ok K w' ∧ respects pid r w w' ∧
    confined pid w w' ∧
    ∀ phys sw sh, r = Ok (Some (phys, sw, sh)) → ∃ s, s ∈ SURFACE_REGISTRY w ∧ sf_owner s = pid ∧ phys = sf_phys s ∧
      (1 ≤ sw ∧ sw * 4 ≤ sf_stride s ∧ 1 ≤ sh ∧ sf_stride s * sh ≤ sf_pages s * 4096)%Z.
Proof.
  intros Hw. pose proof Hw as [Hok Hq]. unfold get_surface_render_target. erewrite bind_ok by reflexivity.
  destruct (list_find _ _) as [[i s]|] eqn:Hf.
  2: { eexists _, _. split; [reflexivity|]. do 2 (split; [done|]). split; [by apply respects_same|]. done. }
  pose proof Hf as (Hi & [_ Ho] & _)%list_find_Some.
  pose proof (proj1 (Forall_forall _ _) (so_each _ _ _ Hok) s ltac:(by eapply list_elem_of_lookup_2)) as Hs.
  pose proof (sok_pages _ Hs) as Hpg. pose proof (sok_size _ Hs) as Hsz.
  destruct (sok_stride _ Hs) as (w0 & h0 & Hw0 & Hh0 & Hst & Hroom). unfold MAX_SURFACE_WIDTH, MAX_SURFACE_HEIGHT in *.
  assert (h0 ≤ sf_size s / sf_stride s)%Z as Hdiv by (apply Z.div_le_lower_bound; lia).
  assert (sf_stride s * (sf_size s / sf_stride s) ≤ sf_size s)%Z as Hmul by (apply Z.mul_div_le; lia).
  assert (sf_size s / sf_stride s ≤ sf_size s)%Z as Hle by (apply Z.div_le_upper_bound; nia).
  rewrite (proj2 (Z.ltb_lt 0 (sf_stride s))) by lia. cbv zeta.
  assert (sf_stride s / 4 = w0)%Z as Hw4 by (rewrite Hst, Z.div_mul; lia). rewrite Hw4.
  unfold wrap. rewrite (Z.mod_small (sf_size s / sf_stride s)) by lia.
  set (q := (sf_size s / sf_stride s)%Z) in *.
  unfold clamp_from_one. rewrite (proj2 (Z.ltb_ge (w0 `min` 1280) 1)) by lia. erewrite bind_ok by reflexivity.
  rewrite (proj2 (Z.ltb_ge (q `min` 720) 1)) by lia. erewrite bind_ok by reflexivity. erewrite bind_ok by reflexivity.
  set (sw := (1 `max` (rw `min` (w0 `min` 1280)))%Z). set (sh := (1 `max` (rh `min` (q `min` 720)))%Z).
  assert (sf_stride s * sh ≤ sf_size s)%Z as Hsh.
  { transitivity (sf_stride s * q)%Z; [|done]. apply Z.mul_le_mono_nonneg_l; unfold sh; lia. }
  eexists _, _. split; [reflexivity|]. split; [done|].
  destruct (retouch_ok K _ _ i s (set_extent sw sh s) Hok Hi) as [Hok' Hflt]; [|done..|].
  { destruct Hs. split; try done. cbn. split_and!; unfold sw, sh; lia. }
  split; [by split|]. split; [split; [by apply Hflt|done]|]. split; [done|].
  intros phys sw' sh' [= <- <- <-]. exists s. split; [by eapply list_elem_of_lookup_2|].
  split; [done|]. split; [done|]. unfold sw, sh in *. lia.
Qed.

(** Cleaning up takes every surface of the process, as long as numbers are unique. *)
Lemma cleanup_call K pid fuel (w : SurfaceWorld (PT := PT)) : world_ok K w → length (SURFACE_REGISTRY w) < fuel →
  ∃ w', cleanup_loop fuel pid w = (Ok tt, w') ∧ world_ok K w' ∧
    filter (λ s, sf_owner s ≠ pid) (SURFACE_REGISTRY w') = filter (λ s, sf_owner s ≠ pid) (SURFACE_REGISTRY w) ∧
    (∀ c p, c ≠ 0%Z → user_page p → outside_surfaces pid (SURFACE_REGISTRY w) c p →
       translate c p (tables (sw_memory w')) = translate c p (tables (sw_memory w))) ∧
    (NoDup (map sf_id (SURFACE_REGISTRY w)) → ∀ s, s ∈ SURFACE_REGISTRY w' → sf_owner s ≠ pid).
Proof.
  revert w. induction fuel as [|fuel IH]; intros w Hw Hlen; [lia|].
  cbn [cleanup_loop]. erewrite bind_ok by reflexivity.
  destruct (list_find (λ f, sf_owner f = pid) (SURFACE_REGISTRY w)) as [[j t]|] eqn:Hfind.
  2: { exists w. split; [done|]. split; [done|]. split; [done|]. split; [done|]. intros _ s Hs Ho.
       apply list_find_None in Hfind. rewrite Forall_forall in Hfind. by apply (Hfind s). }
  pose proof Hfind as (Hj & Hto & _)%list_find_Some.
  destruct (destroy_call K pid (sf_id t) w Hw) as (r & w1 & Hrun & Hr & Hw1 & [Hres _] & Hpost).
  destruct r as [[]|e|]; [| |done].
  - erewrite bind_ok by (unfold attempt; rewrite Hrun; reflexivity). cbv iota.
    destruct Hpost as (Hl & Hsl & Hmap). destruct (IH w1 Hw1) as (w2 & H1 & H2 & H3 & H4 & H5); [lia|].
    exists w2. split; [done|]. split; [done|]. split; [by rewrite H3|]. split.
    + intros c p Hc Hu Hout. rewrite H4; [by apply Hmap|done|done|]. intros s Hs Ho. apply Hout; [|done].
      by eapply elem_of_sublist.
    + intros Hnd. apply H5.
      eapply sublist_NoDup; [exact Hnd|]. change (map sf_id) with (fmap (M := list) sf_id). by apply fmap_sublist.
  - erewrite bind_ok by (unfold attempt; rewrite Hrun; reflexivity). cbv iota. exists w1.
    destruct Hpost as [-> Hno]. split; [done|]. split; [done|]. split; [done|]. split; [done|]. intros Hnd s _ _.
    destruct (list_find (λ f, sf_id f = sf_id t) (SURFACE_REGISTRY w)) as [[k u]|] eqn:Hf.
    + specialize (Hno k u eq_refl). pose proof Hf as (Hk & Hid & _)%list_find_Some.
      assert (k = j) as ->; [|congruence].
      eapply (NoDup_lookup (map sf_id (SURFACE_REGISTRY w)) k j (sf_id t)); [done|..];
        change (map sf_id) with (fmap (M := list) sf_id); rewrite list_lookup_fmap; [by rewrite Hk; cbn; rewrite Hid|by rewrite Hj].
    + apply list_find_None in Hf. rewrite Forall_forall in Hf. exfalso. apply (Hf t); [by eapply list_elem_of_lookup_2|done].
Qed.

(** ** The calls *)

Inductive surface_call :=
| CallCreateSurface (pid width height : Z)
| CallPresent (pid id x y w h : Z)
| CallDestroySurface (pid id : Z)
| CallRender (pid id w h : Z)
| CallCleanup (pid : Z).

Definition caller (c : surface_call) : Z :=
  match c with
  | CallCreateSurface pid _ _ | CallPresent pid _ _ _ _ _ | CallDestroySurface pid _ | CallRender pid _ _ _
  | CallCleanup pid => pid
  end.
Definition call_ok (c : surface_call) : Prop :=
  match c with CallCreateSurface _ w h => (0 ≤ w ∧ 0 ≤ h)%Z | _ => True end.

Definition surface_exec (c : surface_call) : comp (SurfaceWorld (PT := PT)) string unit :=
  match c with
  | CallCreateSurface pid w h => _ ← create_surface_for_pid pid w h; mret tt
  | CallPresent pid id x y w h => _ ← present_rect pid id x y w h; mret tt
  | CallDestroySurface pid id => destroy_surface_for_pid pid id
  | CallRender pid id w h => _ ← get_surface_render_target id pid w h; mret tt
  | CallCleanup pid => cleanup_surfaces_for_pid pid
  end.

Lemma discard {A} (m : comp (SurfaceWorld (PT := PT)) string A) pid K w :
  (∃ r w', m w = (r, w') ∧ r ≠ Panic ∧ world_ok K w' ∧ respects pid r w w' ∧ confined pid w w') →
  ∃ r w', (_ ← m; mret tt) w = (r, w') ∧ r ≠ Panic ∧ world_ok K w' ∧ respects pid r w w' ∧ confined pid w w'.
Proof.
  intros (r & w' & Hm & Hr & Hw & [Hf He] & Hc). destruct r as [a|e|]; [| |done].
  - erewrite bind_ok by exact Hm. exists (Ok tt), w'. do 3 (split; [done|]). split; [by split|done].
  - erewrite bind_err by exact Hm. exists (Err e), w'. split; [done|]. split; [done|]. split; [done|]. split; [|done].
    split; [done|]. intros e' [= <-]. by eapply He.
Qed.

Lemma surface_call_spec (K : Z → Prop) (c : surface_call) (w : SurfaceWorld (PT := PT)) :
  world_ok K w → call_ok c →
  ∃ r w', surface_exec c w = (r, w') ∧ r ≠ Panic ∧ world_ok K w' ∧
    respects (caller c) r w w' ∧ confined (caller c) w w'.
Proof.
  intros Hw Hc. destruct c as [pid wd ht|pid id x y wd ht|pid id|pid id wd ht|pid]; cbn [surface_exec caller].
  - apply discard. destruct Hc. by apply create_spec.
  - apply discard. by apply present_call.
  - destruct (destroy_call K pid id w Hw) as (r & w' & H1 & H2 & H3 & H4 & H5). exists r, w'.
    do 4 (split; [done|]). destruct r as [a|e|]; [|by destruct H5 as [-> _]|done].
    intros q p Hq Hu Hout _. by apply H5.
  - apply discard. destruct (render_call K pid id wd ht w Hw) as (r & w' & H1 & H2 & H3 & H4 & H5 & _). by exists r, w'.
  - unfold cleanup_surfaces_for_pid. erewrite bind_ok by reflexivity.
    destruct (cleanup_call K pid (S (length (SURFACE_REGISTRY w))) w Hw) as (w' & H1 & H2 & H3 & H4 & _); [lia|].
    exists (Ok tt), w'. do 3 (split; [done|]). split; [by split|]. intros q p Hq Hu Hout _. by apply H4.
Qed.


(** What the compositor draws into is backed: the target it is given for a surface
    of the named owner, for whatever size is asked, is the surface's own memory,
    at least one pixel wide and high, and all its rows lie inside the frames. *)
Theorem render_target_is_backed (K : Z → Prop) (w : SurfaceWorld (PT := PT)) (id pid req_w req_h : Z) :
  world_ok K w →
  ∃ r w', get_surface_render_target id pid req_w req_h w = (Ok r, w') ∧
    ∀ phys sw sh, r = Some (phys, sw, sh) →
      ∃ s, s ∈ SURFACE_REGISTRY w ∧ sf_owner s = pid ∧ (1 ≤ sw ∧ sw * 4 ≤ sf_stride s ∧ 1 ≤ sh)%Z ∧
        ∀ x y, (0 ≤ x < sw)%Z → (0 ≤ y < sh)%Z →
          (phys ≤ phys + y * sf_stride s + x * 4 ∧ phys + y * sf_stride s + x * 4 + 4 ≤ sf_phys s + sf_pages s * 4096)%Z.
Proof.
  intros Hw. destruct (render_call K pid id req_w req_h w Hw) as (r & w' & Hrun & Hr & _ & _ & _ & Hs).
  assert (∃ o, r = Ok o) as [o ->].
  { destruct r as [o|e|]; [by exists o| |done]. exfalso. revert Hrun. unfold get_surface_render_target.
    erewrite bind_ok by reflexivity. destruct (list_find _ _) as [[i s]|]; [|done].
    cbv zeta. set (a := clamp_from_one req_w _). set (b := clamp_from_one req_h _).
    destruct a as [a|]; [|done]. erewrite bind_ok by reflexivity. destruct b as [b|]; done. }
  exists o, w'. split; [done|]. intros phys sw sh ->. destruct (Hs phys sw sh eq_refl) as (s & Hin & Ho & -> & Hb).
  exists s. split; [done|]. split; [done|]. split; [lia|]. intros x y Hx Hy.
  assert (y * sf_stride s + sf_stride s ≤ sf_stride s * sh)%Z by nia.
  assert (0 ≤ y * sf_stride s)%Z by nia. lia.
Qed.
End memory.

(** ** Witnesses *)

#[local] Existing Instance flat_mapper.
#[local] Existing Instance flat_laws.

(** Process 1 with an address space, and someone else's frame at 4096. *)
Definition surface_world : SurfaceWorld (PT := gmap (Z * Z) Z) :=
  mkSurfaces (mkSched {[1%Z := set_user_cr3 4096 (set_pid 1 (process_new []))]} [] [] queue_new 0 2) demo_memory [] 1.

Lemma surface_world_ok : world_ok demo_regions (λ f, f = 4096%Z) surface_world.
Proof.
  split.
  - split; cbn; try constructor.
    + by intros f (s & ?%elem_of_nil & _).
    + eapply holds_weaken; [|exact demo_memory_holds]. by intros f [(s & ?%elem_of_nil & _)|?].
  - intros x p Hp. change (({[1%Z := set_user_cr3 4096 (set_pid 1 (process_new []))]} : gmap Z Process) !! x = Some p) in Hp. revert Hp. intros [<- <-]%lookup_singleton_Some. destruct (process_new_within []). by split.
Qed.

Lemma demo_regions_low r : r ∈ demo_regions → (r.2 ≤ 2 ^ 52)%Z.
Proof. by intros [->|[->|?%elem_of_nil]%elem_of_cons]%elem_of_cons. Qed.

(** Two surfaces of one page each, then the first is destroyed. *)
Definition surface_run : SurfaceWorld (PT := gmap (Z * Z) Z) :=
  (surface_exec (CallCreateSurface 1 32 32) (surface_exec (CallCreateSurface 1 16 8) surface_world).2).2.

Lemma surface_step c w : world_ok demo_regions (λ f, f = 4096%Z) w → call_ok c →
  world_ok demo_regions (λ f, f = 4096%Z) (surface_exec c w).2.
Proof.
  intros Hw Hc. by destruct (surface_call_spec demo_regions demo_regions_low _ c w Hw Hc) as (r & w' & -> & _ & ? & _).
Qed.

Lemma surface_run_ok : world_ok demo_regions (λ f, f = 4096%Z) surface_run.
Proof. apply surface_step; [|done]. apply surface_step; [exact surface_world_ok|done]. Qed.


Lemma render_target_is_backed_witness :
  ∃ w', get_surface_render_target 2 1 5000 5000 surface_run = (Ok (Some (40960, 32, 32)%Z), w') ∧
    ∃ s, s ∈ SURFACE_REGISTRY surface_run ∧ sf_owner s = 1%Z ∧
      (40960 + 31 * sf_stride s + 31 * 4 + 4 ≤ sf_phys s + sf_pages s * 4096)%Z.
Proof.
  destruct (render_target_is_backed demo_regions (λ f, f = 4096%Z) surface_run 2 1 5000 5000 surface_run_ok)
    as (r & w' & Hrun & Hr).
  assert (r = Some (40960, 32, 32)%Z) as -> by (by apply (f_equal fst) in Hrun; vm_compute in Hrun; simplify_eq).
  exists w'. split; [exact Hrun|]. destruct (Hr _ _ _ eq_refl) as (s & Hs & Ho & _ & Hin).
  exists s. split; [exact Hs|]. split; [exact Ho|]. apply Hin; lia.
Defined.
