(* ===== verification/ProcFs.v ===== *)
(** * The process file system (kernel/src/fs.rs, [generate_procfs_content])

    The files under [/proc] are text computed on demand from the frame pool, the
    timer and the scheduler; they are not in the tree of the file system. *)
From S2P Require Import Prelude Bytes Text FramePool Process WaitQueue Sched.

(** ** The snapshot of the process table *)

(** The fields the file system prints — kernel/src/task/process.rs:427-440 [ProcessMetricsSnapshot] *)
Record ProcessMetricsSnapshot := mkSnapshot {
  snap_pid : Z;
  snap_name : bytes;
  snap_state : ProcessState;
  snap_kind : ProcessKind;
  snap_current_memory_bytes : Z;
  snap_peak_memory_bytes : Z;
  snap_memory_limit_bytes : Z;
  snap_cpu_ticks : Z;
  snap_cpu_time_ms : Z;
  snap_window_count : Z;
  snap_surface_count : Z;
  snap_ipc_channel_count : Z;
}.

Definition snapshot_of (pid : Z) (p : Process) : ProcessMetricsSnapshot :=
  let u := resource_usage p in
  mkSnapshot pid (proc_name p) (state p) (kind p)
    (current_memory_bytes u) (peak_memory_bytes u) (max_memory_bytes (resource_limits p))
    (cpu_ticks u) (cpu_time_ms u) (window_count u) (surface_count u) (ipc_channel_count u).

(** kernel/src/task/process.rs:639-661 [get_system_metrics_snapshot] *)
Definition get_system_metrics_snapshot (s : Scheduler) : list ProcessMetricsSnapshot :=
  map (λ '(pid, p), snapshot_of pid p)
    (filter (λ e, reaped e.2 = false) (btree_iter Z.le (procs s))).

(** ** The files *)

(** What the generated files report on. *)
Record SystemView := mkView {
  frame_alloc : option FramePool;
  tick : Z;
  scheduler : Scheduler;
}.

(** kernel/src/task/process.rs:119-130 [Debug for ProcessState] *)
Definition debug_state (s : ProcessState) : bytes :=
  str match s with
      | New => "New" | Ready => "Ready" | Running => "Running" | Blocked => "Blocked"
      | Exiting => "Exiting" | Crashed => "Crashed" | Terminated => "Terminated"
      | Exited => "Exited" | Reaped => "Reaped"
      end.

Definition kilobytes (n : Z) : bytes := pad_left 32 8 (decimal (n / 1024)).

(** kernel/src/fs.rs:1501-1516 [generate_procfs_content] *)
Definition meminfo (v : SystemView) : bytes :=
  let '(alloc_bytes, total_bytes) := get_memory_stats (frame_alloc v) in
  let free_bytes := saturating_sub total_bytes alloc_bytes in
  str "MemTotal:       " ++ kilobytes total_bytes ++ str " kB" ++ newline ++
  str "MemFree:        " ++ kilobytes free_bytes ++ str " kB" ++ newline ++
  str "MemAvailable:   " ++ kilobytes free_bytes ++ str " kB" ++ newline ++
  str "Buffers:               0 kB" ++ newline ++
  str "Cached:             1024 kB" ++ newline.

(** kernel/src/fs.rs:1517-1528 [generate_procfs_content] *)
Definition uptime (v : SystemView) : bytes :=
  let sec := (tick v / 1000)%Z in
  let subsec := (tick v mod 1000 / 10)%Z in
  let field := decimal sec ++ str "." ++ pad_left 48 2 (decimal subsec) in
  field ++ str " " ++ field ++ newline.

(** kernel/src/fs.rs:1496-1500 [generate_procfs_content] *)
Definition cpuinfo : bytes :=
  str "processor" ++ tab ++ str ": 0" ++ newline ++
  str "vendor_id" ++ tab ++ str ": GenuineIntel/AuthenticAMD" ++ newline ++
  str "model name" ++ tab ++ str ": SparkOS Virtual CPU" ++ newline ++
  str "cpu MHz" ++ tab ++ tab ++ str ": 1000.000" ++ newline ++
  str "cache size" ++ tab ++ str ": 4096 KB" ++ newline ++
  str "flags" ++ tab ++ tab ++ str ": fpu vme de pse tsc msr pae mce cx8 apic sep mtrr pge mca cmov pat pse36 clflush mmx fxsr sse sse2 ht syscall nx lm" ++ newline.

Definition status_line (key value : bytes) : bytes := key ++ str ":" ++ tab ++ value ++ newline.

(** kernel/src/fs.rs:1540-1572 [generate_procfs_content] *)
Definition pid_status (v : SystemView) (pid : Z) : bytes :=
  let snapshots := get_system_metrics_snapshot (scheduler v) in
  match filter (λ s, snap_pid s = pid) snapshots with
  | s :: _ =>
      status_line (str "Name") (snap_name s) ++
      status_line (str "State") (debug_state (snap_state s)) ++
      status_line (str "Tgid") (decimal pid) ++
      status_line (str "Pid") (decimal pid) ++
      status_line (str "VmPeak") (decimal (snap_peak_memory_bytes s / 1024) ++ str " kB") ++
      status_line (str "VmSize") (decimal (snap_current_memory_bytes s / 1024) ++ str " kB") ++
      status_line (str "CpuTicks") (decimal (snap_cpu_ticks s))
  | [] =>
      status_line (str "Name") (str "process_" ++ decimal pid) ++
      status_line (str "State") (str "Running") ++
      status_line (str "Tgid") (decimal pid) ++
      status_line (str "Pid") (decimal pid) ++
      status_line (str "VmPeak") (str "4096 kB") ++
      status_line (str "VmSize") (str "4096 kB") ++
      status_line (str "CpuTicks") (str "100")
  end.

(** kernel/src/fs.rs:1485-1580 [generate_procfs_content] *)
Definition generate_procfs_content (v : SystemView) (path : bytes) : option bytes :=
  let clean := trim_start SLASH path in
  if negb (starts_with (str "proc") clean) then None
  else if decide (clean = str "proc") then None
  else if decide (clean = str "proc/version") then
    Some (str "SparkOS Kernel v0.2.0 (x86_64-unknown-none SMP+CoW)" ++ newline)
  else if decide (clean = str "proc/cpuinfo") then Some cpuinfo
  else if decide (clean = str "proc/meminfo") then Some (meminfo v)
  else if decide (clean = str "proc/uptime") then Some (uptime v)
  else if decide (clean = str "proc/cmdline") then
    Some (str "BOOT_IMAGE=/boot/sparkos.bin root=/dev/spfs0 quiet console=ttyS0" ++ newline)
  else
    match split SLASH clean with
    | _ :: pid_str :: sub :: _ =>
        pid ← parse_u64 pid_str;
        if decide (sub = str "status") then Some (pid_status v pid) else None
    | _ => None
    end.
