(* ===== verification/Vfs.v ===== *)
(** * The file system tree (kernel/src/fs.rs)

    The tree of files and directories in memory, its image on the data drive,
    the operations by path, the store of built-in programs and the dispatch of
    file-system requests.  Paths and names are byte strings; errors are the
    messages the code returns. *)
From S2P Require Import Prelude Bytes Text Disk Abi ProcFs.

(** ** The tree *)

(** kernel/src/fs.rs:8-21 [FsNode] *)
#[warnings="-register-all"]
Inductive FsNode :=
| File (name : bytes) (content : bytes)
| Directory (name : bytes) (children : list FsNode)
| Device (name : bytes).

Section node_ind.
Context (P : FsNode → Prop).
Context (Hfile : ∀ n c, P (File n c)).
Context (Hdir : ∀ n ch, Forall P ch → P (Directory n ch)).
Context (Hdev : ∀ n, P (Device n)).

(** Induction with a hypothesis for every child. *)
Fixpoint node_ind' (d : FsNode) : P d :=
  match d with
  | File n c => Hfile n c
  | Directory n ch => Hdir n ch
      ((fix go l : Forall P l := match l with
        | [] => Forall_nil_2 P
        | c :: l => Forall_cons_2 P c l (node_ind' c) (go l)
        end) ch)
  | Device n => Hdev n
  end.
End node_ind.

(** kernel/src/fs.rs:23-29 [FsNode::name] *)
Definition name (d : FsNode) : bytes :=
  match d with File n _ | Directory n _ | Device n => n end.
(** kernel/src/fs.rs:31-33 [FsNode::is_dir] *)
Definition is_dir_node (d : FsNode) : bool :=
  match d with Directory _ _ => true | _ => false end.

(** kernel/src/fs.rs:1240-1240 [ROOT_MOUNT] *)
Definition ROOT_MOUNT : bytes := [SLASH].

(** ** The image on disk *)

Definition proc_or_dev (n : bytes) : bool := bool_decide (n = str "proc") || bool_decide (n = str "dev").

(** The children a directory keeps on disk — kernel/src/fs.rs:521-523 [serialize] *)
Definition on_disk (parent : bytes) (c : FsNode) : bool :=
  negb (bool_decide (parent = ROOT_MOUNT) && proc_or_dev (name c)).

(** A length as a [u32]. *)
Definition put_u32 (n : nat) : bytes := to_le 4 (wrap 32 (Z.of_nat n)).
Definition put_name (n : bytes) : bytes := put_u32 (length n) ++ n.

(** kernel/src/fs.rs:502-537 [serialize] *)
Fixpoint serialize (d : FsNode) : bytes :=
  match d with
  | File n content => 1%Z :: put_name n ++ put_u32 (length content) ++ content
  | Directory n children =>
      2%Z :: put_name n ++
      if proc_or_dev n then put_u32 0
      else put_u32 (length (filter (on_disk n) children)) ++
           flat_map (λ c, if on_disk n c then serialize c else []) children
  | Device n => 3%Z :: put_name n
  end.

(** Why no node comes out: the image says so, or (never, see
    [deserialize_total]) the recursion bound is reached. *)
Inductive no_node := NoNode | OutOfFuel.

(** A parser over [data]; its state is the offset. *)
Abbreviation parser := (comp nat no_node).

(** [data[*offset..*offset + n]], then [*offset += n]. *)
Definition read_bytes (data : bytes) (n : nat) : parser bytes :=
  off ← get; b ← unwrap (slice off (off + n) data); put (off + n);; mret b.
Definition read_u32 (data : bytes) : parser nat :=
  b ← read_bytes data 4; mret (Z.to_nat (from_le b)).
(** The offset stays before a name that is not UTF-8. *)
Definition read_name (data : bytes) : parser bytes :=
  n ← read_u32 data;
  off ← get; b ← unwrap (slice off (off + n) data);
  name ← ok_or (from_utf8 b) NoNode;
  put (off + n);; mret name.

(** kernel/src/fs.rs:559-565 [deserialize] *)
Fixpoint read_children (n : nat) (child : parser FsNode) : parser (list FsNode) :=
  match n with
  | O => mret []
  | S n =>
      r ← attempt child;
      match r with
      | inr c => cs ← read_children n child; mret (c :: cs)
      | inl NoNode => read_children n child
      | inl OutOfFuel => throw OutOfFuel
      end
  end.

(** kernel/src/fs.rs:539-576 [deserialize] *)
Fixpoint deserialize_fuel (fuel : nat) (data : bytes) : parser FsNode :=
  match fuel with
  | O => throw OutOfFuel
  | S fuel =>
      off ← get;
      typ ← ok_or (data !! off) NoNode;
      put (S off);;
      if (typ =? 1)%Z then
        n ← read_name data;
        len ← read_u32 data;
        content ← read_bytes data len;
        mret (File n content)
      else if (typ =? 2)%Z then
        n ← read_name data;
        count ← read_u32 data;
        children ← read_children count (deserialize_fuel fuel data);
        mret (Directory n children)
      else if (typ =? 3)%Z then
        n ← read_name data; mret (Device n)
      else throw NoNode
  end.

(** Every level of nesting consumes at least one byte — kernel/src/fs.rs:539-576 [deserialize] *)
Definition deserialize (data : bytes) : parser FsNode := deserialize_fuel (S (length data)) data.

(** ** The state *)

(** [SEEDED_BINARIES] embeds one program, whose bytes are not source code. *)
Record Fs (D : Type) := mkFs {
  VFS : FsNode;
  BLOB_STORE : list (bytes * bytes);
  DATA_DRIVE : D;
  view : SystemView;
}.
Arguments mkFs {D}. Arguments VFS {D}. Arguments BLOB_STORE {D}. Arguments DATA_DRIVE {D}. Arguments view {D}.

Definition set_VFS {D} (x : FsNode) (s : Fs D) : Fs D := mkFs x (BLOB_STORE s) (DATA_DRIVE s) (view s).
Definition set_BLOB_STORE {D} (x : list (bytes * bytes)) (s : Fs D) : Fs D :=
  mkFs (VFS s) x (DATA_DRIVE s) (view s).
Definition set_DATA_DRIVE {D} (x : D) (s : Fs D) : Fs D := mkFs (VFS s) (BLOB_STORE s) x (view s).

(** kernel/src/fs.rs:495-500 [VFS] *)
Definition empty_root : FsNode := Directory ROOT_MOUNT [].

(** ** Paths *)

(** kernel/src/fs.rs:784-785 [mkdir] *)
Definition components (path : bytes) : list bytes := filter (λ p, p ≠ []) (split SLASH path).

(** [result.push('/'); result.push_str(p)] for each part. *)
Definition join (parts : list bytes) : bytes := concat (map (λ p, SLASH :: p) parts).

(** One round of the loop — kernel/src/fs.rs:691-697 [resolve_path] *)
Definition resolve_part (parts : list bytes) (part : bytes) : list bytes :=
  if decide (part = [] ∨ part = str ".") then parts
  else if decide (part = str "..") then removelast parts
  else parts ++ [part].

(** kernel/src/fs.rs:678-709 [resolve_path] *)
Definition resolve_path (cwd path : bytes) : bytes :=
  let full_path :=
    if starts_with [SLASH] path then path
    else if decide (cwd = ROOT_MOUNT) then SLASH :: path
    else cwd ++ SLASH :: path in
  let parts := foldl resolve_part [] (split SLASH full_path) in
  if decide (parts = []) then ROOT_MOUNT else join parts.

(** The last component and the path of the directory it is in —
    kernel/src/fs.rs:784-798 [mkdir] *)
Definition locate (path : bytes) : option (bytes * bytes) :=
  let parts := components path in
  name ← last parts;
  Some (name, if decide (length parts = 1) then ROOT_MOUNT else join (removelast parts)).

(** The first child a predicate holds of, as [iter().find] and the loops that
    [break] or return at the first hit. *)
Definition first_child (p : FsNode → bool) (children : list FsNode) : option (nat * FsNode) :=
  list_find (λ c, p c = true) children.
Definition named (n : bytes) (c : FsNode) : bool := bool_decide (name c = n).

(** A mutable reference to the children of a directory: their present value,
    and the tree after an assignment. *)
Definition children_ref : Type := list FsNode * (list FsNode → FsNode).

(** kernel/src/fs.rs:719-743 [find_dir] *)
Fixpoint find_dir_loop (current : FsNode) (parts : list bytes) : option children_ref :=
  match current, parts with
  | Directory n children, [] => Some (children, Directory n)
  | Directory n children, part :: parts =>
      '(i, next) ← first_child (λ c, named part c && is_dir_node c) children;
      '(kids, write_back) ← find_dir_loop next parts;
      Some (kids, λ kids', Directory n (<[i := write_back kids']> children))
  | _, _ => None
  end.

(** kernel/src/fs.rs:711-744 [find_dir] *)
Definition find_dir (root : FsNode) (path : bytes) : option children_ref :=
  if decide (path = ROOT_MOUNT) then
    match root with Directory n children => Some (children, Directory n) | _ => None end
  else find_dir_loop root (components path).

(** kernel/src/fs.rs:746-779 [find_dir_ro] *)
Definition find_dir_ro (root : FsNode) (path : bytes) : option (list FsNode) :=
  fst <$> find_dir root path.

Section operations.
Context {D : Type} `{!Drive D} (hello_elf : bytes).

(** The fallible operations: errors are message strings. *)
Abbreviation fs_op := (comp (Fs D) string).

Definition on_drive {A} : comp D string A → fs_op A := zoom DATA_DRIVE set_DATA_DRIVE.

(** ** Saving and loading *)

(** [buf.chunks(512)]: the last chunk may be shorter. *)
Definition chunks (buf : bytes) : list bytes :=
  map (λ i, take SECTOR (drop (i * SECTOR) buf)) (seq 0 ((length buf + 511) / 512)).

(** [sec[..chunk.len()].copy_from_slice(chunk)] in a sector of zeros. *)
Definition sector_of (chunk : bytes) : bytes := splice 0 chunk (replicate SECTOR 0%Z).

(** kernel/src/fs.rs:598-606 [sync_to_disk] *)
Fixpoint write_chunks (lba : Z) (cs : list bytes) : comp D string unit :=
  match cs with
  | [] => mret tt
  | c :: cs =>
      r ← attempt (drive_write tt lba (sector_of c));
      match r with
      | inl _ => mret tt
      | inr _ => lba' ← unwrap (fits 32 (lba + 1)); write_chunks lba' cs
      end
  end.

(** kernel/src/fs.rs:584-587 [sync_to_disk] *)
Definition image_header (size : nat) : bytes :=
  splice 4 (str "SPFS") (splice 0 (put_u32 size) (replicate SECTOR 0%Z)).

(** A missing drive is not an error — kernel/src/fs.rs:578-609 [sync_to_disk] *)
Definition sync_to_disk : fs_op unit :=
  root ← gets VFS;
  let buf := serialize root in
  on_drive (
    r ← attempt (drive_write tt 0 (image_header (length buf)));
    match r with
    | inl _ => mret tt
    | inr _ => write_chunks 1 (chunks buf)
    end).

(** kernel/src/fs.rs:781-814 [mkdir] *)
Definition mkdir (path : bytes) : fs_op unit :=
  reject_if (bool_decide (path = ROOT_MOUNT)) "Root zaten var";;
  '(nm, parent_path) ← ok_or (locate path) "Gecersiz yol";
  root ← gets VFS;
  '(children, write_back) ← ok_or (find_dir root parent_path) "Ust dizin bulunamadi";
  reject_if (existsb (named nm) children) "Bu isimde bir dosya veya dizin zaten var";;
  modify (set_VFS (write_back (children ++ [Directory nm []])));;
  sync_to_disk.

(** kernel/src/fs.rs:816-858 [write_file_bytes] *)
Definition write_file_bytes (path content : bytes) : fs_op unit :=
  reject_if (bool_decide (path = ROOT_MOUNT)) "Root uzerine yazi yazilamaz";;
  '(nm, parent_path) ← ok_or (locate path) "Gecersiz yol";
  root ← gets VFS;
  '(children, write_back) ← ok_or (find_dir root parent_path) "Ust dizin bulunamadi";
  match first_child (named nm) children with
  | Some (i, File n _) =>
      modify (set_VFS (write_back (<[i := File n content]> children)));;
      sync_to_disk
  | Some _ => throw "Bu bir dizin, dosya degil!"
  | None =>
      modify (set_VFS (write_back (children ++ [File nm content])));;
      sync_to_disk
  end.

(** kernel/src/fs.rs:860-862 [write_file] *)
Definition write_file (path content : bytes) : fs_op unit := write_file_bytes path content.

(** kernel/src/fs.rs:864-904 [remove] *)
Definition remove (path : bytes) : fs_op unit :=
  reject_if (bool_decide (path = ROOT_MOUNT)) "Root dizini silinemez";;
  '(nm, parent_path) ← ok_or (locate path) "Gecersiz yol";
  root ← gets VFS;
  '(children, write_back) ← ok_or (find_dir root parent_path) "Ust dizin bulunamadi";
  '(idx, _) ← ok_or (first_child (named nm) children) "Dosya veya dizin bulunamadi";
  modify (set_VFS (write_back (delete idx children)));;
  sync_to_disk.

(** ** Reading *)

(** The first child of that name, which has to be a file —
    kernel/src/fs.rs:927-942 [read_file_bytes] *)
Definition tree_file (path : bytes) (not_file : string) : fs_op bytes :=
  '(nm, parent_path) ← ok_or (locate path) "Gecersiz yol";
  root ← gets VFS;
  children ← ok_or (find_dir_ro root parent_path) "Ust dizin bulunamadi";
  match first_child (named nm) children with
  | Some (_, File _ content) => mret content
  | Some _ => throw not_file
  | None => throw "Dosya bulunamadi"
  end.

(** kernel/src/fs.rs:906-943 [read_file_bytes] *)
Definition read_file_bytes (path : bytes) : fs_op bytes :=
  reject_if (bool_decide (path = ROOT_MOUNT)) "Bu bir dizin";;
  v ← gets view;
  match generate_procfs_content v path with
  | Some content => mret content
  | None => tree_file path "Bu bir dizin!"
  end.

(** kernel/src/fs.rs:945-948 [read_file] *)
Definition read_file (path : bytes) : fs_op bytes :=
  raw ← read_file_bytes path; mret (from_utf8_lossy raw).

(** kernel/src/fs.rs:950-989 [list_dir] *)
Definition list_dir (path : bytes) : fs_op (list (bytes * bool)) :=
  let norm := trim_matches SLASH path in
  if decide (norm = str "proc") then
    mret [(str "version", false); (str "cpuinfo", false); (str "meminfo", false);
          (str "uptime", false); (str "cmdline", false); (str "1", true)]
  else if decide (norm = str "dev") then
    mret [(str "null", false); (str "zero", false); (str "ttyS0", false); (str "ata0", false)]
  else
    root ← gets VFS;
    children ← ok_or (find_dir_ro root path) "Dizin bulunamadi";
    let list := map (λ c, (name c, is_dir_node c)) children in
    let with_entry n l :=
      if existsb (λ e : bytes * bool, bool_decide (e.1 = n)) l then l else l ++ [(n, true)] in
    mret (if decide (norm = []) then with_entry (str "dev") (with_entry (str "proc") list) else list).

(** kernel/src/fs.rs:991-998 [is_dir] *)
Definition is_dir (path : bytes) : fs_op bool :=
  let norm := trim_matches SLASH path in
  if decide (norm = [] ∨ norm = str "proc" ∨ norm = str "dev" ∨ norm = str "proc/1") then mret true
  else root ← gets VFS; mret (match find_dir_ro root path with Some _ => true | None => false end).

(** kernel/src/fs.rs:1000-1037 [get_file_size] *)
Definition get_file_size (path : bytes) : fs_op nat :=
  reject_if (bool_decide (path = ROOT_MOUNT)) "Bu bir dizin";;
  v ← gets view;
  match generate_procfs_content v path with
  | Some content => mret (length content)
  | None => content ← tree_file path "Bu bir dizin veya cihaz!"; mret (length content)
  end.

(** What the call copies into a buffer of [room] bytes —
    kernel/src/fs.rs:1042-1049 [read_file_chunk] *)
Definition chunk_at (content : bytes) (offset : Z) (room : nat) : bytes :=
  if (Z.of_nat (length content) <=? offset)%Z then []
  else let from := Z.to_nat offset in take (room `min` (length content - from)) (drop from content).

(** The bytes it copies stand for the buffer and the count —
    kernel/src/fs.rs:1039-1086 [read_file_chunk] *)
Definition read_file_chunk (path : bytes) (offset : Z) (room : nat) : fs_op bytes :=
  reject_if (bool_decide (path = ROOT_MOUNT)) "Bu bir dizin";;
  v ← gets view;
  match generate_procfs_content v path with
  | Some content => mret (chunk_at content offset room)
  | None => content ← tree_file path "Bu bir dizin veya cihaz!"; mret (chunk_at content offset room)
  end.

(** [offset + buf.len()] is checked, and a vector of more than [isize::MAX] bytes
    panics; otherwise the file grows with zeros —
    kernel/src/fs.rs:1112-1115 [write_file_chunk] *)
Definition overwrite (content : bytes) (offset : Z) (buf : bytes) : option bytes :=
  end_ ← fits 64 (offset + Z.of_nat (length buf));
  if (Z.of_nat (length content) <? end_)%Z then
    end_ ← fits 63 end_;
    Some (splice (Z.to_nat offset) buf (content ++ replicate (Z.to_nat end_ - length content) 0%Z))
  else Some (splice (Z.to_nat offset) buf content).

(** kernel/src/fs.rs:1088-1142 [write_file_chunk] *)
Definition write_file_chunk (path : bytes) (offset : Z) (buf : bytes) : fs_op nat :=
  reject_if (bool_decide (path = ROOT_MOUNT)) "Root uzerine yazi yazilamaz";;
  '(nm, parent_path) ← ok_or (locate path) "Gecersiz yol";
  root ← gets VFS;
  '(children, write_back) ← ok_or (find_dir root parent_path) "Ust dizin bulunamadi";
  match first_child (named nm) children with
  | Some (i, File n content) =>
      content' ← unwrap (overwrite content offset buf);
      modify (set_VFS (write_back (<[i := File n content']> children)))
  | Some _ => throw "Bu bir dizin veya cihaz, dosya degil!"
  | None =>
      content' ← unwrap (overwrite [] offset buf);
      modify (set_VFS (write_back (children ++ [File nm content'])))
  end;;
  sync_to_disk;;
  mret (length buf).

(** ** The built-in programs and files *)

(** kernel/src/fs.rs:1172-1223 [SEEDED_BINARIES] *)
Definition SEEDED_BINARIES : list (bytes * bytes) :=
  map (λ n, (str "/bin/" ++ n, hello_elf))
    [str "hello"; str "echo"; str "cat"; str "ls"; str "touch"; str "mkdir"; str "rm";
     str "ping"; str "host"; str "fetch"].

(** kernel/src/fs.rs:1227-1230 [SEEDED_TEXT] *)
Definition SEEDED_TEXT : list (bytes * bytes) :=
  [(str "/etc/hostname", str "sparkos" ++ newline); (str "/etc/version", str "0.1.0-distro" ++ newline)].

(** A child that is no file is left alone, without an error —
    kernel/src/fs.rs:1275-1310 [write_file_quiet_bytes] *)
Definition write_file_quiet_bytes (path content : bytes) : fs_op unit :=
  reject_if (bool_decide (path = ROOT_MOUNT)) "Root uzerine yazi yazilamaz";;
  '(nm, parent_path) ← ok_or (locate path) "Gecersiz yol";
  root ← gets VFS;
  '(children, write_back) ← ok_or (find_dir root parent_path) "Ust dizin bulunamadi";
  match first_child (named nm) children with
  | Some (i, File n _) => modify (set_VFS (write_back (<[i := File n content]> children)))
  | Some _ => mret tt
  | None => modify (set_VFS (write_back (children ++ [File nm content])))
  end.

(** kernel/src/fs.rs:1312-1314 [write_file_quiet] *)
Definition write_file_quiet (path content : bytes) : fs_op unit := write_file_quiet_bytes path content.

(** kernel/src/fs.rs:1247-1257 [seed_default_files] *)
Definition seed_binary (blob : bytes * bytes) : fs_op unit :=
  store ← gets BLOB_STORE;
  if existsb (λ e, bool_decide (e.1 = blob.1)) store then mret tt
  else
    modify (set_BLOB_STORE (store ++ [blob]));;
    ignore (write_file_quiet blob.1 []).

(** kernel/src/fs.rs:1260-1264 [seed_default_files] *)
Definition seed_text (entry : bytes * bytes) : fs_op unit :=
  r ← attempt (read_file entry.1);
  match r with
  | inl _ => ignore (write_file_quiet entry.1 entry.2)
  | inr _ => mret tt
  end.

(** kernel/src/fs.rs:1245-1271 [seed_default_files] *)
Definition seed_default_files : fs_op unit :=
  for_each SEEDED_BINARIES seed_binary;;
  for_each SEEDED_TEXT seed_text.

(** kernel/src/fs.rs:611-620 [init_default_fs] *)
Definition init_default_fs : fs_op unit :=
  for_each [str "/bin"; str "/etc"; str "/home"; str "/sys"; str "/proc"; str "/dev"]
    (λ d, ignore (mkdir d));;
  seed_default_files.

(** [0..num_sectors]; a sector that cannot be read stays zero —
    kernel/src/fs.rs:658-666 [load_from_disk] *)
Fixpoint read_image (lba : Z) (n : nat) : comp D string bytes :=
  match n with
  | O => mret []
  | S n =>
      r ← attempt (drive_read tt lba);
      let sec := match r with inl _ => replicate SECTOR 0%Z | inr sec => sec end in
      rest ← read_image (lba + 1) n;
      mret (sec ++ rest)
  end.

Definition MAX_IMAGE : Z := 10 * 1024 * 1024.

(** kernel/src/fs.rs:644-653 [load_from_disk] *)
Definition image_size (header : bytes) : option nat :=
  magic ← slice 4 8 header;
  if decide (magic = str "SPFS") then
    let size := from_le (take 4 header) in
    if ((size =? 0) || (MAX_IMAGE <? size))%Z then None else Some (Z.to_nat size)
  else None.

(** kernel/src/fs.rs:655-671 [load_from_disk] *)
Definition load_image (size : nat) : fs_op unit :=
  data ← on_drive (read_image 1 ((size + 511) / 512));
  match deserialize (take size data) 0 with
  | (Ok node, _) => modify (set_VFS node)
  | (Err _, _) => mret tt
  | (Panic, _) => panic
  end.

(** kernel/src/fs.rs:622-676 [load_from_disk] *)
Definition load_from_disk : fs_op unit :=
  r ← on_drive (attempt (drive_read tt 0));
  match r with
  | inl _ => init_default_fs
  | inr _ =>
      r ← on_drive (attempt (drive_read tt 0));
      match r with
      | inl _ => init_default_fs
      | inr header =>
          match image_size header with
          | None => init_default_fs
          | Some size => load_image size;; seed_default_files
          end
      end
  end.

(** ** Reading by full path *)

(** kernel/src/fs.rs:1317-1320 [is_seeded_binary] *)
Definition is_seeded_binary (path : bytes) : fs_op bool :=
  store ← gets BLOB_STORE; mret (existsb (λ e, bool_decide (e.1 = path)) store).

(** kernel/src/fs.rs:1324-1328 [file_exists] *)
Definition file_exists (path : bytes) : fs_op bool :=
  seeded ← is_seeded_binary path;
  if (seeded : bool) then mret true else
  d ← is_dir path;
  if (d : bool) then mret true else
  r ← attempt (read_file path); mret (match r with inl _ => false | inr _ => true end).

(** kernel/src/fs.rs:1336-1352 [read_file_from_path] *)
Definition read_file_from_path (path : bytes) : fs_op bytes :=
  let norm := resolve_path ROOT_MOUNT path in
  store ← gets BLOB_STORE;
  match list_find (λ e : bytes * bytes, e.1 = norm) store with
  | Some (_, (_, data)) => mret data
  | None => read_file norm
  end.

(** kernel/src/fs.rs:1357-1369 [read_file_from_path_chunk] *)
Definition read_file_from_path_chunk (path : bytes) (offset : Z) (room : nat) : fs_op bytes :=
  content ← read_file_from_path path; mret (chunk_at content offset room).

(** kernel/src/fs.rs:1372-1374 [get_file_size_from_path] *)
Definition get_file_size_from_path (path : bytes) : fs_op nat :=
  content ← read_file_from_path path; mret (length content).
End operations.
