(* ===== verification/FsService.v ===== *)
(** * The file-system service (spark-abi/src/fs.rs, kernel/src/fs.rs)

    The request and response formats and the dispatcher that serves them from
    the tree. *)
From S2P Require Import Prelude Bytes Text Disk Abi Vfs.

(** ** The protocol *)

(** spark-abi/src/fs.rs:7-7 [MAX_FS_PATH_LEN] *)
Definition MAX_FS_PATH_LEN : nat := 64.

(** spark-abi/src/fs.rs:9-18 [FS_OP_OPEN] *)
Definition FS_OP_OPEN : Z := 1.
Definition FS_OP_READ : Z := 2.
Definition FS_OP_WRITE : Z := 3.
Definition FS_OP_STAT : Z := 4.
Definition FS_OP_READDIR : Z := 5.
Definition FS_OP_MKDIR : Z := 6.
Definition FS_OP_UNLINK : Z := 7.
Definition FS_OP_RENAME : Z := 8.
Definition FS_OP_SYNC : Z := 9.
Definition FS_OP_CLOSE : Z := 10.

(** spark-abi/src/fs.rs:20-25 [O_CREAT] *)
Definition O_RDONLY : Z := 0.
Definition O_WRONLY : Z := 1.
Definition O_RDWR : Z := 2.
Definition O_CREAT : Z := 64.
Definition O_TRUNC : Z := 512.
Definition O_APPEND : Z := 1024.

(** spark-abi/src/fs.rs:27-38 [FsRequest] *)
Record FsRequest := mkFsRequest {
  fs_opcode : Z;
  fs_handle : Z;
  fs_flags : Z;
  fs_mode : Z;
  fs_offset : Z;
  fs_length : Z;
  fs_path : bytes;
  fs_path_len : Z;
}.

(** spark-abi/src/fs.rs:41-52 [FsRequest::empty] *)
Definition fs_empty : FsRequest := mkFsRequest 0 0 0 0 0 0 (replicate MAX_FS_PATH_LEN 0%Z) 0.

(** What does not fit is cut off — spark-abi/src/fs.rs:95-101 [FsRequest::set_path] *)
Definition set_path (path : bytes) (r : FsRequest) : FsRequest :=
  let len := length path `min` MAX_FS_PATH_LEN in
  mkFsRequest (fs_opcode r) (fs_handle r) (fs_flags r) (fs_mode r) (fs_offset r) (fs_length r)
    (take len path ++ replicate (MAX_FS_PATH_LEN - len) 0%Z) (Z.of_nat len).

(** spark-abi/src/fs.rs:54-61 [FsRequest::new_open] *)
Definition new_open (path : bytes) (flags mode : Z) : FsRequest :=
  set_path path (mkFsRequest FS_OP_OPEN 0 flags mode 0 0 (fs_path fs_empty) 0).
(** spark-abi/src/fs.rs:63-70 [FsRequest::new_read] *)
Definition new_read (handle offset length : Z) : FsRequest :=
  mkFsRequest FS_OP_READ handle 0 0 offset length (fs_path fs_empty) 0.
(** spark-abi/src/fs.rs:72-79 [FsRequest::new_write] *)
Definition new_write (handle offset length : Z) : FsRequest :=
  mkFsRequest FS_OP_WRITE handle 0 0 offset length (fs_path fs_empty) 0.
(** spark-abi/src/fs.rs:81-86 [FsRequest::new_stat] *)
Definition new_stat (path : bytes) : FsRequest :=
  set_path path (mkFsRequest FS_OP_STAT 0 0 0 0 0 (fs_path fs_empty) 0).
(** spark-abi/src/fs.rs:88-93 [FsRequest::new_close] *)
Definition new_close (handle : Z) : FsRequest :=
  mkFsRequest FS_OP_CLOSE handle 0 0 0 0 (fs_path fs_empty) 0.

(** Bytes that are no UTF-8 give the empty path —
    spark-abi/src/fs.rs:103-106 [FsRequest::path_str] *)
Definition path_str (r : FsRequest) : bytes :=
  default [] (from_utf8 (take (Z.to_nat (fs_path_len r `min` Z.of_nat MAX_FS_PATH_LEN)) (fs_path r))).

(** spark-abi/src/fs.rs:119-128 [FsResponse] *)
Record FsResponse := mkFsResponse {
  rs_status : Z;
  rs_handle : Z;
  rs_bytes_transferred : Z;
  rs_inode_id : Z;
  rs_size : Z;
  rs_is_dir : bool;
}.
(** spark-abi/src/fs.rs:131-140 [FsResponse::ok] *)
Definition fs_ok (handle n : Z) : FsResponse := mkFsResponse 0 handle n 0 0 false.
(** spark-abi/src/fs.rs:142-151 [FsResponse::err] *)
Definition fs_err (errno_val : Z) : FsResponse := mkFsResponse errno_val 0 0 0 0 false.
(** spark-abi/src/fs.rs:153-155 [FsResponse::is_ok] *)
Definition fs_is_ok (r : FsResponse) : bool := (rs_status r =? 0)%Z.

(** [resp.size = n] *)
Definition with_size (n : Z) (r : FsResponse) : FsResponse :=
  mkFsResponse (rs_status r) (rs_handle r) (rs_bytes_transferred r) (rs_inode_id r) n (rs_is_dir r).

(** ** The dispatcher *)

Section dispatch.
Context {D : Type} `{!Drive D}.
Abbreviation fs_op := (comp (Fs D) string).

(** [if m.is_ok() { (resp, []) } else { (err(errno), []) }] *)
Definition answer (m : fs_op unit) (resp : FsResponse) (errno : Z) : fs_op (FsResponse * bytes) :=
  r ← attempt m;
  mret (match r with inr _ => resp | inl _ => fs_err errno end, []).

(** kernel/src/fs.rs:1592-1605 [dispatch_fs_request] *)
Definition serve_open (req : FsRequest) : fs_op (FsResponse * bytes) :=
  let path := path_str req in
  (if negb (Z.land (fs_flags req) O_CREAT =? 0)%Z then ignore (write_file_bytes path []) else mret tt);;
  r ← attempt (read_file_bytes path);
  mret (match r with
        | inr content => let n := Z.of_nat (length content) in (with_size n (fs_ok 1 n), [])
        | inl _ => (fs_err ENOENT, [])
        end).

(** [start + length] is checked — kernel/src/fs.rs:1606-1616 [dispatch_fs_request] *)
Definition serve_read (req : FsRequest) : fs_op (FsResponse * bytes) :=
  r ← attempt (read_file_bytes (path_str req));
  match r with
  | inr content =>
      let start := (fs_offset req `min` Z.of_nat (length content))%Z in
      reach ← unwrap (fits 64 (start + fs_length req));
      let end_ := (reach `min` Z.of_nat (length content))%Z in
      let part := take (Z.to_nat (end_ - start)) (drop (Z.to_nat start) content) in
      mret (fs_ok (fs_handle req) (Z.of_nat (length part)), part)
  | inl _ => mret (fs_err ENOENT, [])
  end.

(** kernel/src/fs.rs:1626-1635 [dispatch_fs_request] *)
Definition serve_stat (req : FsRequest) : fs_op (FsResponse * bytes) :=
  r ← attempt (read_file_bytes (path_str req));
  mret (match r with
        | inr content => let n := Z.of_nat (length content) in (with_size n (fs_ok 0 n), [])
        | inl _ => (fs_err ENOENT, [])
        end).

(** kernel/src/fs.rs:1590-1656 [dispatch_fs_request] *)
Definition dispatch_fs_request (req : FsRequest) (data_payload : option bytes) : fs_op (FsResponse * bytes) :=
  let op := fs_opcode req in
  let path := path_str req in
  if (op =? FS_OP_OPEN)%Z then serve_open req
  else if (op =? FS_OP_READ)%Z then serve_read req
  else if (op =? FS_OP_WRITE)%Z then
    let payload := default [] data_payload in
    answer (write_file_bytes path payload) (fs_ok (fs_handle req) (Z.of_nat (length payload))) EIO
  else if (op =? FS_OP_STAT)%Z then serve_stat req
  else if (op =? FS_OP_MKDIR)%Z then answer (mkdir path) (fs_ok 0 0) EIO
  else if (op =? FS_OP_UNLINK)%Z then answer (remove path) (fs_ok 0 0) ENOENT
  else if ((op =? FS_OP_CLOSE) || (op =? FS_OP_SYNC))%Z then mret (fs_ok (fs_handle req) 0, [])
  else mret (fs_err ENOSYS, []).
End dispatch.
