(* ===== verification/FdTable.v ===== *)
(** * File descriptors (kernel/src/fd.rs)

    The one table of open files of the kernel: a path, an offset and flags per
    descriptor.  Descriptors are not per process; what a process may do with a
    number is decided by its capability table (SyscallCap). *)
From S2P Require Import Prelude Bytes Text Disk AddrSpace ProcFs Vfs.

(** kernel/src/fd.rs:5-8 [O_RDONLY] *)
Definition O_RDONLY : Z := 0.
Definition O_WRONLY : Z := 1.
Definition O_RDWR : Z := 2.
Definition O_CREAT : Z := 64.

(** kernel/src/fd.rs:10-12 [SEEK_SET] *)
Definition SEEK_SET : Z := 0.
Definition SEEK_CUR : Z := 1.
Definition SEEK_END : Z := 2.

(** kernel/src/fd.rs:14-21 [FileDescriptor] *)
Record FileDescriptor := mkFd {
  fd_number : nat;
  fd_path : bytes;
  fd_offset : Z;
  fd_flags : Z;
  fd_ref_count : Z;
}.
Definition set_offset (o : Z) (d : FileDescriptor) : FileDescriptor :=
  mkFd (fd_number d) (fd_path d) o (fd_flags d) (fd_ref_count d).

Definition MAX_FDS : nat := 256.

(** kernel/src/fd.rs:23-25 [FdTable] *)
Record Storage (D : Type) := mkStorage { files : Fs D; fds : list (option FileDescriptor) }.
Arguments mkStorage {D}. Arguments files {D}. Arguments fds {D}.

Definition set_files {D} (f : Fs D) (s : Storage D) : Storage D := mkStorage f (fds s).
Definition set_fds {D} (l : list (option FileDescriptor)) (s : Storage D) : Storage D := mkStorage (files s) l.

(** kernel/src/fd.rs:28-31 [FdTable::new] *)
Definition fd_table_new : list (option FileDescriptor) := replicate MAX_FDS None.

(** The sum of two [isize]; [None] is the overflow panic. *)
Definition signed_add (a b : Z) : option Z :=
  let r := (a + b)%Z in if decide (- 2 ^ 63 ≤ r < 2 ^ 63)%Z then Some r else None.

Section operations.
Context {D : Type} `{!Drive D}.
Abbreviation op := (comp (Storage D) string).

Definition on_fs {A} (m : comp (Fs D) string A) : op A := zoom files set_files m.
(** [m.is_ok()] *)
Definition succeeds {A} (m : op A) : op bool :=
  r ← attempt m; mret (match r with inr _ => true | inl _ => false end).

(** kernel/src/fd.rs:33-58 [FdTable::open] *)
Definition fd_open (path : bytes) (flags : Z) : op nat :=
  s ← get;
  '(fd, _) ← ok_or (list_find (λ f, f = None) (fds s)) "No free fd";
  found ← on_fs (file_exists path);
  exists_ ← (if (found : bool) then mret true else
             d ← on_fs (is_dir path);
             if (d : bool) then mret false else
             r ← succeeds (on_fs (read_file path));
             if (r : bool) then mret true else on_fs (is_seeded_binary path));
  (if (exists_ : bool) then mret tt
   else if negb (Z.land flags O_CREAT =? 0)%Z then on_fs (write_file path [])
   else throw "File not found");;
  modify (λ s, set_fds (<[fd := Some (mkFd fd path 0 flags 1)]> (fds s)) s);;
  mret fd.

(** A descriptor that is open *)
Definition descriptor (fd : Z) : op FileDescriptor :=
  s ← get; ok_or (o ← fds s !! Z.to_nat fd; o) "Invalid fd".

(** kernel/src/fd.rs:60-66 [FdTable::close] *)
Definition fd_close (fd : Z) : op unit :=
  s ← get;
  reject_if ((256 <=? fd)%Z || bool_decide ((o ← fds s !! Z.to_nat fd; o) = None)) "Invalid fd";;
  put (set_fds (<[Z.to_nat fd := None]> (fds s)) s).

(** [desc.offset = o] *)
Definition move_to (fd : Z) (d : FileDescriptor) (o : Z) : op unit :=
  modify (λ s, set_fds (<[Z.to_nat fd := Some (set_offset o d)]> (fds s)) s).

(** The bytes that are copied into the buffer of [room] bytes —
    kernel/src/fd.rs:68-83 [FdTable::read] *)
Definition fd_read (fd : Z) (room : nat) : op bytes :=
  desc ← descriptor fd;
  reject_if (negb (Z.land (fd_flags desc) O_WRONLY =? 0)%Z && (Z.land (fd_flags desc) O_RDWR =? 0)%Z)
    "Bad fd flags for reading";;
  seeded ← on_fs (is_seeded_binary (fd_path desc));
  buf ← on_fs (if (seeded : bool) then read_file_from_path_chunk (fd_path desc) (fd_offset desc) room
               else read_file_chunk (fd_path desc) (fd_offset desc) room);
  o ← unwrap (fits 64 (fd_offset desc + Z.of_nat (length buf)));
  move_to fd desc o;;
  mret buf.

(** kernel/src/fd.rs:85-94 [FdTable::write] *)
Definition fd_write (fd : Z) (buf : bytes) : op nat :=
  desc ← descriptor fd;
  reject_if ((Z.land (fd_flags desc) O_WRONLY =? 0)%Z && (Z.land (fd_flags desc) O_RDWR =? 0)%Z)
    "Bad fd flags for writing";;
  len ← on_fs (write_file_chunk (fd_path desc) (fd_offset desc) buf);
  o ← unwrap (fits 64 (fd_offset desc + Z.of_nat len));
  move_to fd desc o;;
  mret len.

(** kernel/src/fd.rs:96-117 [FdTable::lseek] *)
Definition fd_lseek (fd offset whence : Z) : op Z :=
  desc ← descriptor fd;
  seeded ← on_fs (is_seeded_binary (fd_path desc));
  content_len ← on_fs (if (seeded : bool) then get_file_size_from_path (fd_path desc)
                       else get_file_size (fd_path desc));
  new_offset ←
    (if (whence =? SEEK_SET)%Z then mret offset
     else if (whence =? SEEK_CUR)%Z then unwrap (signed_add (to_signed 64 (fd_offset desc)) offset)
     else if (whence =? SEEK_END)%Z then unwrap (signed_add (Z.of_nat content_len) offset)
     else throw "Invalid whence");
  reject_if (new_offset <? 0)%Z "Invalid offset";;
  move_to fd desc new_offset;;
  mret new_offset.
End operations.
