(* ===== verification/VfsTree.v ===== *)
(** * The tree as a namespace

    What a tree says at each path, the well-formedness that makes the answer
    unique, and how the children a path leads to are found and written back. *)
From S2P Require Import Prelude Bytes Text Disk Vfs.

(** ** Namespaces *)

Inductive entry := EFile (content : bytes) | EDir | EDev.
Definition entry_of (d : FsNode) : entry :=
  match d with File _ c => EFile c | Directory _ _ => EDir | Device _ => EDev end.

(** The child of a name; the code takes the first. *)
Definition child (m : bytes) (ch : list FsNode) : option FsNode := snd <$> first_child (named m) ch.

(** What is at a path below [d], by components. *)
Fixpoint ns (d : FsNode) (q : list bytes) : option entry :=
  match q with
  | [] => Some (entry_of d)
  | m :: q =>
      match d with
      | Directory _ ch => c ← child m ch; ns c q
      | _ => None
      end
  end.

(** Whatever has something below it is a directory. *)
Lemma ns_parent ps n e d : ns d (ps ++ [n]) = Some e → ns d ps = Some EDir.
Proof.
  revert d. induction ps as [|p ps IH]; intros d; cbn; destruct d as [m x|m kids|m]; try done.
  intros (k & Hk & H)%bind_Some. rewrite Hk. cbn. by apply IH.
Qed.

(** ** Well-formed trees *)

(** The names a path can be made of. *)
Definition good_name (n : bytes) : Prop := n ≠ [] ∧ (SLASH ∉ n) ∧ utf8_valid n = true.

#[warnings="-register-all"]
Inductive node_ok : FsNode → Prop :=
| file_ok n c : node_ok (File n c)
| device_ok n : node_ok (Device n)
| directory_ok n ch :
    NoDup (map name ch) → Forall (λ c, good_name (name c)) ch → Forall node_ok ch →
    node_ok (Directory n ch).

(** A root: a directory called "/". *)
Definition tree_ok (d : FsNode) : Prop := node_ok d ∧ is_dir_node d = true ∧ name d = ROOT_MOUNT.

Lemma empty_root_ok : tree_ok empty_root.
Proof. split; [|done]. constructor; constructor. Qed.

Lemma node_ok_dir n ch : node_ok (Directory n ch) ↔
  NoDup (map name ch) ∧ Forall (λ c, good_name (name c)) ch ∧ Forall node_ok ch.
Proof. split; [by inversion 1|intros (?&?&?); by constructor]. Qed.

(** A checker. *)
#[export] Instance good_name_dec n : Decision (good_name n).
Proof. unfold good_name. apply _. Defined.

Fixpoint node_okb (d : FsNode) : bool :=
  match d with
  | Directory _ ch => bool_decide (NoDup (map name ch)) &&
      forallb (λ c, bool_decide (good_name (name c)) && node_okb c) ch
  | _ => true
  end.

Lemma node_okb_sound d : node_okb d = true → node_ok d.
Proof.
  induction d as [n c|n ch IH|n] using node_ind'; intros H; [constructor| |constructor].
  cbn in H. apply andb_true_iff in H as [Hnd%bool_decide_eq_true Hch].
  rewrite forallb_forall in Hch. rewrite Forall_forall in IH.
  constructor; [done|apply Forall_forall; intros c Hc..]; apply list_elem_of_In in Hc as Hc';
    apply Hch, andb_true_iff in Hc' as [Hg%bool_decide_eq_true Hok]; [done|by apply IH].
Qed.

Lemma good_name_not_root n : good_name n → n ≠ ROOT_MOUNT.
Proof. intros (_ & H & _) ->. apply H. left. Qed.

(** ** Children *)

Lemma named_spec m c : named m c = true ↔ name c = m.
Proof. unfold named. apply bool_decide_eq_true. Qed.

Lemma first_child_Some p ch i c : first_child p ch = Some (i, c) →
  ch !! i = Some c ∧ p c = true ∧ ∀ j d, ch !! j = Some d → j < i → p d = false.
Proof.
  intros (Hi & Hp & Hlt)%list_find_Some. split_and!; [done..|].
  intros j d Hj Hlti. apply not_true_iff_false. by eapply Hlt.
Qed.

Lemma first_child_None p ch : first_child p ch = None ↔ ∀ c, c ∈ ch → p c = false.
Proof.
  unfold first_child. rewrite list_find_None, Forall_forall. setoid_rewrite not_true_iff_false. done.
Qed.

Lemma NoDup_names ch i j c d : NoDup (map name ch) →
  ch !! i = Some c → ch !! j = Some d → name c = name d → i = j.
Proof.
  intros Hnd Hi Hj Hn. apply (NoDup_lookup _ _ _ (name c) Hnd).
  - by rewrite list_lookup_fmap, Hi.
  - by rewrite list_lookup_fmap, Hj, Hn.
Qed.

Lemma child_Some m ch c : NoDup (map name ch) → child m ch = Some c ↔ c ∈ ch ∧ name c = m.
Proof.
  intros Hnd. unfold child. split.
  - intros ([i c'] & H & ->)%fmap_Some. apply first_child_Some in H as (Hi & Hn & _).
    apply named_spec in Hn. split; [by eapply list_elem_of_lookup_2|done].
  - intros [Hin Hn]. destruct (first_child (named m) ch) as [[i c']|] eqn:E.
    + apply first_child_Some in E as (Hi & Hn' & _). apply named_spec in Hn'. cbn. f_equal.
      apply list_elem_of_lookup in Hin as [j Hj].
      assert (i = j) as -> by (eapply NoDup_names; [done..|congruence]). congruence.
    + rewrite first_child_None in E. apply E in Hin. apply not_true_iff_false in Hin.
      by rewrite named_spec in Hin.
Qed.

Lemma child_None m ch : child m ch = None ↔ m ∉ map name ch.
Proof.
  unfold child. rewrite fmap_None, first_child_None. split.
  - intros H (c & -> & Hc)%list_elem_of_fmap. apply H in Hc. apply not_true_iff_false in Hc.
    by rewrite named_spec in Hc.
  - intros H c Hc. apply not_true_iff_false. rewrite named_spec. intros <-. apply H.
    by apply list_elem_of_fmap_2.
Qed.

Lemma child_elem m ch c : child m ch = Some c → c ∈ ch ∧ name c = m.
Proof.
  intros ([i c'] & H & ->)%fmap_Some. apply first_child_Some in H as (Hi & Hn & _).
  apply named_spec in Hn. split; [by eapply list_elem_of_lookup_2|done].
Qed.

(** The first directory of a name is the child of that name, if it is one. *)
Lemma first_dir m ch : NoDup (map name ch) →
  first_child (λ c, named m c && is_dir_node c) ch =
    (e ← first_child (named m) ch; if is_dir_node e.2 then Some e else None).
Proof.
  intros Hnd. destruct (first_child (named m) ch) as [[i c]|] eqn:E; cbn.
  - apply first_child_Some in E as (Hi & Hn & Hlt). destruct (is_dir_node c) eqn:Ed.
    + apply list_find_Some. split_and!; [done|by rewrite Hn, Ed|].
      intros j d Hj Hji. by rewrite (Hlt j d Hj Hji).
    + apply first_child_None. intros d Hd. destruct (named m d) eqn:Em; [|done].
      apply named_spec in Em, Hn. apply list_elem_of_lookup in Hd as [j Hj].
      assert (i = j) as -> by (eapply NoDup_names; [done..|congruence]). cbn. congruence.
  - apply first_child_None. intros d Hd. rewrite first_child_None in E. by rewrite (E d Hd).
Qed.

(** The three edits of a directory, as its namespace sees them. *)
Lemma child_push m x ch : NoDup (map name ch) → child (name x) ch = None →
  child m (ch ++ [x]) = if decide (m = name x) then Some x else child m ch.
Proof.
  intros Hnd Hx%child_None. assert (NoDup (map name (ch ++ [x]))) as Hnd'.
  { rewrite map_app. apply NoDup_app. split_and!; [done| |apply NoDup_singleton].
    intros y Hy ->%list_elem_of_singleton. done. }
  apply option_eq. intros c. rewrite child_Some, elem_of_app, list_elem_of_singleton by done.
  case_decide as Hm; [|rewrite child_Some by done]; subst.
  - split; [|by intros [= ->]; auto]. intros [[Hc| ->] Hn]; [|done].
    destruct Hx. rewrite <-Hn. by apply list_elem_of_fmap_2.
  - split; [by intros [[?| ->] ?]|intuition].
Qed.

Lemma names_insert i x c ch : ch !! i = Some c → name x = name c →
  map name (<[i := x]> ch) = map name ch.
Proof.
  intros Hi Hn. rewrite list_fmap_insert. apply list_insert_id. by rewrite list_lookup_fmap, Hi, Hn.
Qed.

Lemma child_insert m i x c ch : NoDup (map name ch) → ch !! i = Some c → name x = name c →
  child m (<[i := x]> ch) = if decide (m = name x) then Some x else child m ch.
Proof.
  intros Hnd Hi Hn. pose proof (lookup_lt_Some _ _ _ Hi) as Hlt.
  apply option_eq. intros d. rewrite child_Some by (by erewrite names_insert).
  rewrite list_elem_of_lookup. case_decide as Hm; [|rewrite child_Some, list_elem_of_lookup by done]; subst.
  - split; [|by intros [= ->]; split; [exists i; rewrite list_lookup_insert_eq|]].
    intros [[j Hj] Hd]. destruct (decide (i = j)) as [<-|Hij].
    + by rewrite list_lookup_insert_eq in Hj by done.
    + rewrite list_lookup_insert_ne in Hj by done. destruct Hij.
      eapply NoDup_names; [done..|congruence].
  - split.
    + intros [[j Hj] Hd]. split; [|done]. exists j. destruct (decide (i = j)) as [<-|Hij].
      * rewrite list_lookup_insert_eq in Hj by done. congruence.
      * by rewrite list_lookup_insert_ne in Hj.
    + intros [[j Hj] Hd]. split; [|done]. exists j. rewrite list_lookup_insert_ne; [done|].
      intros <-. congruence.
Qed.

Lemma delete_at i c ch : NoDup (map name ch) → ch !! i = Some c →
  NoDup (map name (delete i ch)) ∧ ∀ d, d ∈ delete i ch ↔ d ∈ ch ∧ name d ≠ name c.
Proof.
  intros Hnd Hp%delete_Permutation. rewrite Hp in Hnd. cbn in Hnd.
  apply NoDup_cons in Hnd as [Hc Hnd]. split; [done|]. intros d.
  assert (d ∈ ch ↔ d = c ∨ d ∈ delete i ch) as -> by (rewrite Hp at 1; apply elem_of_cons).
  split; [|by intros [[->|?] ?]]. intros Hd. split; [by right|]. intros Hn. apply Hc.
  rewrite <-Hn. by apply list_elem_of_fmap_2.
Qed.

Lemma child_delete m i c ch : NoDup (map name ch) → ch !! i = Some c →
  child m (delete i ch) = if decide (m = name c) then None else child m ch.
Proof.
  intros Hnd Hi. destruct (delete_at _ _ _ Hnd Hi) as [Hnd' Hel].
  apply option_eq. intros d. rewrite child_Some, Hel by done.
  case_decide as Hm; [|rewrite child_Some by done]; subst; naive_solver.
Qed.

(** The edits keep a directory well-formed. *)
Lemma dir_ok_push n x ch : node_ok (Directory n ch) → child (name x) ch = None →
  good_name (name x) → node_ok x → node_ok (Directory n (ch ++ [x])).
Proof.
  rewrite !node_ok_dir. intros (Hnd & Hg & Hok) Hx%child_None Hgx Hokx. split_and!.
  - rewrite map_app. apply NoDup_app. split_and!; [done| |apply NoDup_singleton].
    intros y Hy ->%list_elem_of_singleton. done.
  - apply Forall_app. auto.
  - apply Forall_app. auto.
Qed.

Lemma dir_ok_insert n i c x ch : node_ok (Directory n ch) → ch !! i = Some c →
  name x = name c → node_ok x → node_ok (Directory n (<[i := x]> ch)).
Proof.
  rewrite !node_ok_dir. intros (Hnd & Hg & Hok) Hi Hn Hx. split_and!.
  - by erewrite names_insert.
  - apply Forall_insert; [done|]. rewrite Hn. by eapply (Forall_lookup_1 _ _ i c) in Hg.
  - by apply Forall_insert.
Qed.

Lemma dir_ok_delete n i c ch : node_ok (Directory n ch) → ch !! i = Some c →
  node_ok (Directory n (delete i ch)).
Proof.
  rewrite !node_ok_dir. intros (Hnd & Hg & Hok) Hi.
  destruct (delete_at _ _ _ Hnd Hi) as [? _]. split_and!; [done|by apply Forall_delete..].
Qed.

(** ** The children a path leads to *)

(** [q] without the prefix [ps]. *)
Fixpoint below (ps q : list bytes) : option (list bytes) :=
  match ps, q with
  | [], _ => Some q
  | p :: ps, m :: q => if decide (m = p) then below ps q else None
  | _ :: _, [] => None
  end.

Lemma below_Some ps q q' : below ps q = Some q' ↔ q = ps ++ q'.
Proof.
  revert q. induction ps as [|p ps IH]; intros q; cbn; [naive_solver|].
  destruct q as [|m q]; [done|]. case_decide; [rewrite IH|]; naive_solver.
Qed.

(** What a reference to the children at [ps] is. *)
Definition leads_to (d : FsNode) (ps : list bytes) (ch : list FsNode) (back : list FsNode → FsNode) : Prop :=
  ∃ n, node_ok (Directory n ch) ∧
  (∀ q, ns d (ps ++ q) = ns (Directory n ch) q) ∧
  ∀ ch', name (back ch') = name d ∧ is_dir_node (back ch') = true ∧
    (node_ok (Directory n ch') → node_ok (back ch')) ∧
    ∀ q, ns (back ch') q = match below ps q with
                           | Some q' => ns (Directory n ch') q'
                           | None => ns d q
                           end.

Lemma find_dir_loop_sound ps d ch back : node_ok d →
  find_dir_loop d ps = Some (ch, back) → is_dir_node d = true ∧ leads_to d ps ch back.
Proof.
  revert d back. induction ps as [|p ps IH]; intros d back Hd.
  - destruct d as [|n ch'|]; [done| |done]. intros [= <- <-]. split; [done|].
    exists n. split; [done|]. split; [done|]. intros ch2. split_and!; done.
  - destruct d as [|n kids|]; [done| |done]. cbn [find_dir_loop].
    apply node_ok_dir in Hd as (Hnd & Hg & Hok). rewrite first_dir by done.
    destruct (first_child (named p) kids) as [[i c]|] eqn:E; [|done]. cbn.
    destruct (is_dir_node c) eqn:Ec; [|done]. cbn.
    destruct (find_dir_loop c ps) as [[ch2 back2]|] eqn:Ef; [|done]. cbn.
    intros [= -> <-]. split; [done|].
    assert (child p kids = Some c) as Hc by (unfold child; by rewrite E).
    apply first_child_Some in E as (Hi & Hn%named_spec & _).
    apply IH in Ef as [_ (m & Hm & Hns & Hback)]; [|by eapply (Forall_lookup_1 _ _ i c) in Hok].
    exists m. split; [done|]. split; [intros q; cbn; rewrite Hc; cbn; apply Hns|].
    intros ch'. destruct (Hback ch') as (Hn' & Hd' & Hok' & Hns').
    assert (name (back2 ch') = name c) as Hnc by done. split_and!; [done..| |].
    + intros H. eapply dir_ok_insert; [by apply node_ok_dir|done..|by apply Hok'].
    + intros [|q0 q]; [done|]. cbn. erewrite child_insert by done. rewrite Hnc, Hn.
      case_decide; subst; cbn; [|done]. rewrite Hns', Hc. cbn. by destruct (below ps q).
Qed.

Lemma find_dir_loop_complete ps d : node_ok d → ns d ps = Some EDir →
  is_Some (find_dir_loop d ps).
Proof.
  revert d. induction ps as [|p ps IH]; intros d Hd; cbn.
  - destruct d; by eauto.
  - destruct d as [|n kids|]; [done| |done]. apply node_ok_dir in Hd as (Hnd & Hg & Hok).
    unfold child. rewrite first_dir by done.
    destruct (first_child (named p) kids) as [[i c]|] eqn:E; [|done]. cbn. intros Hns.
    apply first_child_Some in E as (Hi & Hn%named_spec & _).
    assert (is_dir_node c = true) as -> by (destruct ps, c; done). cbn.
    destruct (IH c) as [[ch2 back2] ->]; [by eapply (Forall_lookup_1 _ _ i c) in Hok|done|].
    by eexists.
Qed.
