(* ===== verification/VfsImage.v ===== *)
(** * The image of the tree: theorems

    Loading never runs out of recursion, what is saved is what is loaded, and
    which part of the tree is saved at all. *)
From S2P Require Import Prelude Bytes Text Disk Vfs VfsTree.

(** ** Reading at an offset *)

(** The bytes [bs] are at [off]. *)
Definition found (data : bytes) (off : nat) (bs : bytes) : Prop :=
  slice off (off + length bs) data = Some bs.

Lemma found_iff data off bs : found data off bs ↔
  off + length bs ≤ length data ∧ ∀ i, i < length bs → bs !! i = data !! (off + i).
Proof.
  unfold found. rewrite slice_lookup. replace (off + length bs - off) with (length bs) by lia.
  split; [intros (?&_&?); split; [lia|done]|intros [? ?]; split_and!; [lia..|done]].
Qed.

Lemma found_app data off a b : found data off (a ++ b) ↔ found data off a ∧ found data (off + length a) b.
Proof.
  rewrite !found_iff, length_app. split.
  - intros [Hl H]. split; (split; [lia|]); intros i Hi.
    + rewrite <-H by lia. by rewrite lookup_app_l.
    + rewrite <-Nat.add_assoc, <-H by lia. by rewrite lookup_app_r, Nat.add_comm, Nat.add_sub by lia.
  - intros [[Hla Ha] [Hlb Hb]]. split; [lia|]. intros i Hi. destruct (decide (i < length a)).
    + rewrite lookup_app_l by done. by apply Ha.
    + rewrite lookup_app_r, Hb by lia. f_equal. lia.
Qed.

Lemma found_cons data off b bs : found data off (b :: bs) ↔ data !! off = Some b ∧ found data (S off) bs.
Proof.
  rewrite (found_app _ _ [b] bs : found data off (b :: bs) ↔ _). cbn. rewrite Nat.add_1_r.
  apply and_iff_compat_r. rewrite found_iff. cbn. split.
  - intros [Hl H]. rewrite <-(Nat.add_0_r off). rewrite <-H by lia. done.
  - intros H. pose proof (lookup_lt_Some _ _ _ H). split; [lia|]. intros i Hi. replace i with 0 by lia.
    by rewrite Nat.add_0_r.
Qed.

Lemma found_prefix data bs rest : data = bs ++ rest → found data 0 bs.
Proof. intros ->. apply found_iff. rewrite length_app. split; [lia|]. intros i Hi. by rewrite lookup_app_l. Qed.

(** One step of the parser and the offset after it. *)
Definition reads {A} (m : parser A) (off : nat) (a : A) (off' : nat) : Prop := m off = (Ok a, off').

Lemma reads_bind {A B} (m : parser A) (k : A → parser B) off a off' b off'' :
  reads m off a off' → reads (k a) off' b off'' → reads (m ≫= k) off b off''.
Proof. unfold reads. intros Hm Hk. by rewrite (bind_ok _ _ _ _ _ Hm). Qed.

Lemma reads_ret {A} (a : A) off off' : off = off' → reads (mret a) off a off'.
Proof. by intros ->. Qed.

Lemma read_bytes_found data off bs : found data off bs →
  reads (read_bytes data (length bs)) off bs (off + length bs).
Proof.
  intros H. unfold reads, read_bytes. erewrite bind_ok by reflexivity. rewrite H.
  by erewrite bind_ok by reflexivity.
Qed.

Definition u32_length (n : nat) : Prop := (Z.of_nat n < 2 ^ 32)%Z.

Lemma length_put_u32 n : length (put_u32 n) = 4.
Proof. apply length_to_le. Qed.

Lemma read_u32_found data off n : u32_length n → found data off (put_u32 n) →
  reads (read_u32 data) off n (off + 4).
Proof.
  intros Hn H. unfold read_u32. eapply reads_bind.
  - rewrite <-(length_put_u32 n). by apply read_bytes_found.
  - unfold reads, put_u32, wrap. rewrite from_le_to_le.
    + rewrite Z.mod_small by (unfold u32_length in Hn; lia). by rewrite Nat2Z.id, length_to_le.
    + change (256 ^ Z.of_nat 4)%Z with (2 ^ 32)%Z. apply Z.mod_pos_bound. lia.
Qed.

Lemma read_name_found data off n : u32_length (length n) → utf8_valid n = true →
  found data off (put_name n) → reads (read_name data) off n (off + length (put_name n)).
Proof.
  intros Hn Hv [H1 H2]%found_app. rewrite length_put_u32 in H2. unfold read_name.
  eapply reads_bind; [by apply read_u32_found|]. unfold reads. erewrite bind_ok by reflexivity.
  rewrite H2. erewrite bind_ok by reflexivity. unfold from_utf8. rewrite Hv. erewrite bind_ok by reflexivity.
  unfold put_name. rewrite length_app, length_put_u32. erewrite bind_ok by reflexivity.
  by rewrite Nat.add_assoc.
Qed.

(** ** What is saved *)

(** The part of a tree its image holds. *)
Fixpoint saved (d : FsNode) : FsNode :=
  match d with
  | Directory n ch =>
      Directory n (if proc_or_dev n then []
                   else flat_map (λ c, if on_disk n c then [saved c] else []) ch)
  | _ => d
  end.

(** Names that are text. *)
#[warnings="-register-all"]
Inductive names_valid : FsNode → Prop :=
| file_names n c : utf8_valid n = true → names_valid (File n c)
| device_names n : utf8_valid n = true → names_valid (Device n)
| directory_names n ch : utf8_valid n = true → Forall names_valid ch → names_valid (Directory n ch).

Lemma length_serialize_child n c ch : c ∈ ch → on_disk n c = true →
  length (serialize c) ≤ length (flat_map (λ c, if on_disk n c then serialize c else []) ch).
Proof.
  intros Hc Hd. induction Hc as [ch|c c' ch Hc IH]; cbn; rewrite length_app; [rewrite Hd; lia|].
  specialize (IH Hd). lia.
Qed.

Lemma length_serialize_pos d : 5 ≤ length (serialize d).
Proof.
  destruct d; cbn; unfold put_name; rewrite ?length_app, ?length_put_u32; lia.
Qed.

Lemma length_kept n ch :
  length (filter (on_disk n) ch) ≤ length (flat_map (λ c, if on_disk n c then serialize c else []) ch).
Proof.
  induction ch as [|c ch IH]; [done|]. cbn [flat_map]. rewrite length_app, filter_cons.
  pose proof (length_serialize_pos c). destruct (on_disk n c).
  - rewrite decide_True by done. cbn. lia.
  - rewrite decide_False by by intros []. cbn. lia.
Qed.

(** The children a directory saves, one after the other. *)
Lemma read_children_found data n ch child off :
  (∀ c off, c ∈ ch → on_disk n c = true → found data off (serialize c) →
     reads child off (saved c) (off + length (serialize c))) →
  found data off (flat_map (λ c, if on_disk n c then serialize c else []) ch) →
  reads (read_children (length (filter (on_disk n) ch)) child) off
    (flat_map (λ c, if on_disk n c then [saved c] else []) ch)
    (off + length (flat_map (λ c, if on_disk n c then serialize c else []) ch)).
Proof.
  revert off. induction ch as [|c ch IH]; intros off Hchild Hf.
  { unfold reads. cbn. by rewrite Nat.add_0_r. }
  cbn [flat_map] in *. rewrite filter_cons. apply found_app in Hf as [Hc Hf].
  destruct (on_disk n c) eqn:E.
  - rewrite decide_True by done. cbn [length read_children].
    eapply reads_bind; [unfold reads, attempt; rewrite (Hchild c off) by (done || left); reflexivity|]. cbv beta iota.
    eapply reads_bind; [apply IH; [|done]|].
    { intros c' off' Hc'. apply Hchild. by right. }
    unfold reads. rewrite length_app, Nat.add_assoc. done.
  - rewrite decide_False by by intros []. cbn in *. rewrite Nat.add_0_r in Hf. apply IH; [|done].
    intros c' off' Hc'. apply Hchild. by right.
Qed.

(** An image is read back, wherever it starts. *)
Lemma deserialize_found data d fuel off : names_valid d → length (serialize d) ≤ fuel →
  u32_length (length (serialize d)) → found data off (serialize d) →
  reads (deserialize_fuel fuel data) off (saved d) (off + length (serialize d)).
Proof.
  revert fuel off. induction d as [n c|n ch IH|n] using node_ind'; intros [|fuel] off Hv Hfuel Hlen Hf;
    try (pose proof (length_serialize_pos (Directory n ch)); cbn in *; lia); try (cbn in Hfuel; lia); cbn [serialize] in Hf |- *; apply found_cons in Hf as [Htyp Hf];
    cbn [deserialize_fuel]; (eapply reads_bind; [done|]); rewrite Htyp;
    do 2 (eapply reads_bind; [done|]); cbn [Z.eqb Pos.eqb saved].
  - inversion Hv; subst. apply found_app in Hf as [Hn [Hl Hc]%found_app]. rewrite length_put_u32 in Hc.
    cbn [serialize length] in Hlen. unfold put_name, u32_length in Hlen.
    rewrite !length_app, !length_put_u32 in Hlen.
    eapply reads_bind; [apply (read_name_found _ _ n); [unfold u32_length; lia|done..]|].
    eapply reads_bind; [apply (read_u32_found _ _ (length c)); [unfold u32_length; lia|done]|].
    eapply reads_bind; [by apply read_bytes_found|]. apply reads_ret. cbn [length].
    rewrite !length_app, length_put_u32. lia.
  - inversion Hv as [| |? ? Hvn Hvch]; subst. apply found_app in Hf as [Hn Hf].
    cbn [serialize length] in Hlen. unfold u32_length in Hlen. rewrite length_app in Hlen.
    pose proof (f_equal length (eq_refl (put_name n))) as Hpn. unfold put_name at 2 in Hpn.
    rewrite length_app, length_put_u32 in Hpn.
    cbn [serialize length] in Hfuel. rewrite length_app in Hfuel.
    eapply reads_bind; [apply (read_name_found _ _ n); [unfold u32_length; lia|done..]|].
    cbn [length]. rewrite length_app. destruct (proc_or_dev n).
    + eapply reads_bind; [apply (read_u32_found _ _ 0); [done|done]|].
      apply reads_ret. cbn [length]. rewrite ?length_put_u32. lia.
    + apply found_app in Hf as [Hc Hf]. rewrite length_put_u32 in Hf.
      rewrite length_app, length_put_u32 in Hlen, Hfuel |- *.
      pose proof (length_kept n ch) as Hk.
      eapply reads_bind; [apply (read_u32_found _ _ (length (filter (on_disk n) ch))); [unfold u32_length; lia|done]|].
      eapply reads_bind.
      { eapply (read_children_found data n); [|done]. intros c off' Hc' Hd Hfc.
        rewrite Forall_forall in IH, Hvch. apply IH; [done|by apply Hvch| | |done].
        - pose proof (length_serialize_child n c ch Hc' Hd). lia.
        - pose proof (length_serialize_child n c ch Hc' Hd). unfold u32_length. lia. }
      apply reads_ret. cbn [length]. rewrite ?length_put_u32. lia.
  - inversion Hv; subst. cbn [serialize length] in Hlen. unfold put_name, u32_length in Hlen.
    rewrite !length_app, !length_put_u32 in Hlen.
    eapply reads_bind; [apply (read_name_found _ _ n); [unfold u32_length; lia|done..]|].
    apply reads_ret. cbn [length]. lia.
Qed.

(** ** Which paths are saved *)

Lemma names_ok d : node_ok d → utf8_valid (name d) = true → names_valid d.
Proof.
  induction d as [n c|n ch IH|n] using node_ind'; intros Hok Hn; [by constructor| |by constructor].
  apply node_ok_dir in Hok as (_ & Hg & Hok). constructor; [done|].
  rewrite Forall_forall in IH, Hg, Hok |- *. intros c Hc.
  apply IH; [done|by apply Hok|]. by destruct (Hg c Hc) as (_ & _ & ?).
Qed.

(** Some name but the last is [proc] or [dev]. *)
Fixpoint under_proc_or_dev (q : list bytes) : bool :=
  match q with
  | [] | [_] => false
  | m :: q => proc_or_dev m || under_proc_or_dev q
  end.

(** The image has no [/proc] and no [/dev], and nothing below a directory of
    either name. *)
Definition is_saved (q : list bytes) : bool :=
  negb (under_proc_or_dev q) && negb (match q with [m] => proc_or_dev m | _ => false end).

Lemma name_saved d : name (saved d) = name d.
Proof. by destruct d. Qed.

Lemma saved_children n ch : (∀ c, c ∈ ch → on_disk n c = true) →
  flat_map (λ c, if on_disk n c then [saved c] else []) ch = map saved ch.
Proof.
  induction ch as [|c ch IH]; intros H; [done|]. cbn. rewrite (H c) by left. cbn. f_equal.
  apply IH. intros c' Hc'. apply H. by right.
Qed.

Lemma child_map_saved m ch : child m (map saved ch) = saved <$> child m ch.
Proof.
  unfold child, first_child.
  change (map saved ch) with (saved <$> ch). rewrite list_find_fmap.
  replace (list_find ((λ c, named m c = true) ∘ saved) ch) with (list_find (λ c, named m c = true) ch).
  - by destruct (list_find _ ch) as [[i c]|].
  - apply list_find_ext. intros c. unfold compose, named. by rewrite name_saved.
Qed.

Lemma not_root_on_disk n c : n ≠ ROOT_MOUNT → on_disk n c = true.
Proof. intros H. unfold on_disk. by rewrite (bool_decide_eq_false_2 _ H). Qed.

(** Below a node that is not the root. *)
Lemma ns_saved d q : node_ok d → name d ≠ ROOT_MOUNT →
  ns (saved d) q = if under_proc_or_dev (name d :: q) then None else ns d q.
Proof.
  revert d. induction q as [|m q IH]; intros d Hok Hn; [by destruct d|].
  destruct d as [n c|n ch|n]; [by cbn; destruct (_ || _)| |by cbn; destruct (_ || _)].
  apply node_ok_dir in Hok as (Hnd & Hg & Hok). cbn [saved name] in *. cbn [ns].
  change (under_proc_or_dev (n :: m :: q)) with (proc_or_dev n || under_proc_or_dev (m :: q)).
  destruct (proc_or_dev n); [done|].
  rewrite saved_children by (intros; by apply not_root_on_disk). rewrite child_map_saved.
  destruct (child m ch) as [c|] eqn:E; cbn [fmap option_fmap option_map mbind option_bind].
  - apply child_elem in E as [Hc <-]. rewrite Forall_forall in Hg, Hok.
    apply IH; [by apply Hok|]. by apply good_name_not_root, Hg.
  - by destruct (orb _ _).
Qed.

Lemma child_cons m c ch : child m (c :: ch) = if named m c then Some c else child m ch.
Proof.
  unfold child, first_child. cbn [list_find]. destruct (named m c).
  - by rewrite decide_True by done.
  - rewrite decide_False by done. by destruct (list_find _ ch) as [[i x]|].
Qed.

Lemma child_root m n ch : NoDup (map name ch) →
  child m (flat_map (λ c, if on_disk n c then [saved c] else []) ch) =
    (c ← child m ch; if on_disk n c then Some (saved c) else None).
Proof.
  induction ch as [|c ch IH]; intros Hnd; [done|].
  cbn in Hnd. apply NoDup_cons in Hnd as [Hc Hnd]. specialize (IH Hnd). cbn [flat_map].
  rewrite child_cons. destruct (on_disk n c) eqn:Ed; cbn [app].
  - rewrite child_cons, IH. assert (named m (saved c) = named m c) as -> by (unfold named; by rewrite name_saved).
    destruct (named m c); cbn; by rewrite ?Ed.
  - rewrite IH. destruct (named m c) eqn:En; [|done]. apply named_spec in En as <-. cbn. rewrite Ed.
    by rewrite (proj2 (child_None (name c) ch) Hc).
Qed.

Lemma ns_saved_root d q : tree_ok d → ns (saved d) q = if is_saved q then ns d q else None.
Proof.
  intros (Hok & Hd & Hn). destruct d as [|n ch|]; [done| |done]. cbn in Hn. subst n.
  destruct q as [|m q]; [done|]. apply node_ok_dir in Hok as (Hnd & Hg & Hok).
  cbn [saved ns]. change (proc_or_dev ROOT_MOUNT) with false. cbv iota.
  rewrite child_root by done. destruct (child m ch) as [c|] eqn:E; cbn [mbind option_bind].
  - apply child_elem in E as [Hc <-]. rewrite Forall_forall in Hg, Hok.
    assert (on_disk ROOT_MOUNT c = negb (proc_or_dev (name c))) as -> by done. unfold is_saved.
    destruct (proc_or_dev (name c)) eqn:Ep; cbn [negb].
    + destruct q as [|m' q]; cbn [under_proc_or_dev]; rewrite ?Ep; done.
    + cbn [mbind option_bind]. rewrite ns_saved by (by apply Hok || by apply good_name_not_root, Hg).
      destruct q as [|m' q]; [by cbn|]. rewrite andb_true_r. by destruct (under_proc_or_dev _).
  - by destruct (is_saved _).
Qed.

Lemma saved_filter n ch :
  flat_map (λ c, if on_disk n c then [saved c] else []) ch = map saved (filter (on_disk n) ch).
Proof.
  induction ch as [|c ch IH]; [done|]. cbn [flat_map]. rewrite filter_cons, IH. destruct (on_disk n c).
  - by rewrite decide_True by done.
  - by rewrite decide_False by by intros [].
Qed.

Lemma saved_ok d : node_ok d → node_ok (saved d).
Proof.
  induction d as [n c|n ch IH|n] using node_ind'; intros Hok; [done| |done].
  apply node_ok_dir in Hok as (Hnd & Hg & Hok). cbn [saved]. apply node_ok_dir.
  destruct (proc_or_dev n); [split_and!; constructor|]. rewrite saved_filter.
  assert (map name (map saved (filter (on_disk n) ch)) = map name (filter (on_disk n) ch)) as Hnames.
  { rewrite map_map. apply map_ext. apply name_saved. }
  rewrite Forall_forall in IH, Hg, Hok. split_and!.
  - rewrite Hnames. eapply sublist_NoDup; [done|]. apply fmap_sublist, sublist_filter.
  - apply Forall_forall. intros c (c' & -> & [_ Hc]%list_elem_of_filter)%list_elem_of_fmap.
    rewrite name_saved. by apply Hg.
  - apply Forall_forall. intros c (c' & -> & [_ Hc]%list_elem_of_filter)%list_elem_of_fmap.
    apply IH; [done|by apply Hok].
Qed.

Lemma saved_tree_ok d : tree_ok d → tree_ok (saved d).
Proof. intros (Hok & Hd & Hn). split_and!; [by apply saved_ok|by destruct d|by rewrite name_saved]. Qed.

(** ** Loading terminates *)

(** The recursion bound is not reached and the offset only grows. *)
Definition advances {A} (off : nat) (r : outcome no_node A) (off' : nat) : Prop :=
  r ≠ Err OutOfFuel ∧ off ≤ off'.

Lemma read_bytes_advances data n lo off : lo ≤ off → wp (read_bytes data n) (advances lo) off.
Proof. intros H. unfold read_bytes. wp_steps; split; (done || lia). Qed.
Lemma read_u32_advances data lo off : lo ≤ off → wp (read_u32 data) (advances lo) off.
Proof.
  intros H. unfold read_u32. wp_step. eapply wp_mono; [by apply (read_bytes_advances data 4 lo)|].
  intros [b|e|] off' [? ?]; try (by split; [congruence|]). wp_steps. by split.
Qed.
Lemma read_name_advances data lo off : lo ≤ off → wp (read_name data) (advances lo) off.
Proof.
  intros H. unfold read_name. wp_step. eapply wp_mono; [by apply (read_u32_advances data lo)|].
  intros [n|e|] off' [? ?]; try (by split; [congruence|]). wp_steps; split; (done || lia).
Qed.
Lemma read_children_advances n child lo off : lo ≤ off →
  (∀ off, lo ≤ off → wp child (advances off) off) → wp (read_children n child) (advances lo) off.
Proof.
  revert off. induction n as [|n IH]; intros off H Hchild; cbn [read_children]; [by wp_step; split|].
  wp_step. wp_step. eapply wp_mono; [by apply Hchild|].
  intros [c|e|] off' [Hne Hoff]; [|destruct e; [|done]|by split; [|lia]].
  - wp_step. eapply wp_mono; [apply IH; [lia|done]|].
    intros [cs|e|] off2 [? ?]; try (by split; [congruence|]). wp_steps. by split.
  - eapply wp_mono; [apply IH; [lia|done]|]. done.
Qed.

Lemma deserialize_advances data fuel off : length data - off < fuel →
  wp (deserialize_fuel fuel data) (advances off) off.
Proof.
  revert off. induction fuel as [|fuel IH]; intros off Hfuel; [lia|]. cbn [deserialize_fuel].
  wp_step. wp_step. wp_step. wp_step; [by split|].
  match goal with H : data !! off = Some _ |- _ => apply lookup_lt_Some in H end.
  wp_step. wp_step. cbv beta iota.
  assert (∀ A (m : parser A) B (k : A → parser B) off',
    wp m (advances (S off)) off' → (∀ a off', S off ≤ off' → wp (k a) (advances (S off)) off') →
    wp (m ≫= k) (advances (S off)) off') as Hseq.
  { intros A m B k off' Hm Hk. wp_step. eapply wp_mono; [done|].
    intros [r|e|] off2 [? ?]; [by apply Hk|by split; [congruence|]..]. }
  apply (wp_mono _ (advances (S off))); [|intros r off' [? ?]; split; [done|lia]].
  destruct (_ =? 1)%Z; [|destruct (_ =? 2)%Z; [|destruct (_ =? 3)%Z]].
  - apply Hseq; [by apply read_name_advances|]. intros n off1 H1.
    apply Hseq; [by apply read_u32_advances|]. intros len off2 H2.
    apply Hseq; [by apply read_bytes_advances|]. intros c off3 H3. by wp_step.
  - apply Hseq; [by apply read_name_advances|]. intros n off1 H1.
    apply Hseq; [by apply read_u32_advances|]. intros count off2 H2.
    apply Hseq; [|intros c off3 H3; by wp_step].
    apply read_children_advances; [done|]. intros off3 H3. apply IH. lia.
  - apply Hseq; [by apply read_name_advances|]. intros n off1 H1. by wp_step.
  - by wp_step.
Qed.

Lemma deserialize_terminates data off : (deserialize data off).1 ≠ Err OutOfFuel.
Proof.
  assert (wp (deserialize data) (advances off) off) as [H _]; [|done].
  apply deserialize_advances. lia.
Qed.

(** ** Through the drive *)

Section drive.
Context {D : Type} `{!Drive D, !StorageLaws D}.

Lemma drive_write_stores {E} (e : E) n b d : length b = SECTOR → ∃ d', drive_write e n b d = (Ok tt, d') ∧
  ∀ m, sector_at m d' = if decide (m = n) then b else sector_at m d.
Proof.
  intros Hb. destruct (write_stored n b d Hb) as (d' & Hw & Hs). exists d'. split; [|done].
  unfold drive_write. by rewrite Hw.
Qed.

(** Consecutive sectors hold the chunks. *)
Lemma write_chunks_stores lba cs d : (0 ≤ lba)%Z → (lba + Z.of_nat (length cs) < 2 ^ 32)%Z →
  Forall (λ c, length (sector_of c) = SECTOR) cs →
  ∃ d', write_chunks lba cs d = (Ok tt, d') ∧
    (∀ m, (m < lba)%Z → sector_at m d' = sector_at m d) ∧
    ∀ i c, cs !! i = Some c → sector_at (lba + Z.of_nat i) d' = sector_of c.
Proof.
  intros H0 Hlt Hcs. revert lba d H0 Hlt. induction Hcs as [|c cs Hc Hcs IH]; intros lba d H0 Hlt.
  { exists d. done. }
  cbn [write_chunks length] in *. destruct (drive_write_stores tt lba (sector_of c) d Hc) as (d1 & Hw & Hs1).
  erewrite bind_ok by (unfold attempt; by rewrite Hw). cbv beta.
  assert (fits 32 (lba + 1) = Some (lba + 1)%Z) as -> by (apply fits_Some; lia).
  erewrite bind_ok by reflexivity. destruct (IH (lba + 1)%Z d1) as (d2 & -> & Hbelow & Hs2); [lia..|].
  exists d2. split; [done|]. split.
  - intros m Hm. rewrite Hbelow, Hs1, decide_False by lia. done.
  - intros [|i] c' Hi; cbn in Hi.
    + injection Hi as <-. rewrite Z.add_0_r, Hbelow, Hs1, decide_True by lia. done.
    + rewrite <-(Hs2 i c' Hi). f_equal. lia.
Qed.

(** Reading consecutive sectors that hold the chunks of [buf] gives [buf], and
    zeros to the end of the last sector. *)
Lemma read_image_spec lba n d :
  read_image lba n d = (Ok (concat (map (λ i, sector_at (lba + Z.of_nat i) d) (seq 0 n))), d).
Proof.
  revert lba. induction n as [|n IH]; intros lba; [done|]. cbn [read_image seq map concat].
  erewrite bind_ok by (unfold attempt, drive_read; by rewrite read_stored). cbv beta zeta.
  erewrite bind_ok by apply IH. rewrite Z.add_0_r. unfold mret, comp_ret.
  rewrite <-seq_shift, map_map. do 3 f_equal. f_equal. apply map_ext. intros i. f_equal. lia.
Qed.

Lemma length_sector_of c : length c ≤ SECTOR → length (sector_of c) = SECTOR.
Proof. intros H. unfold sector_of. rewrite length_splice; rewrite length_replicate; done. Qed.

Lemma sector_of_full c : length c = SECTOR → sector_of c = c.
Proof.
  intros H. unfold sector_of, splice. rewrite take_0, H, drop_ge by by rewrite length_replicate.
  by rewrite app_nil_r.
Qed.

Lemma sector_of_prefix c : length c ≤ SECTOR → take (length c) (sector_of c) = c.
Proof. intros H. unfold sector_of, splice. rewrite take_0. cbn. by rewrite take_app_length. Qed.

Lemma take_concat_chunks n buf : length buf ≤ n * SECTOR →
  take (length buf) (concat (map (λ i, sector_of (take SECTOR (drop (i * SECTOR) buf))) (seq 0 n))) = buf.
Proof.
  revert buf. induction n as [|n IH]; intros buf Hlen; [by destruct buf; [|cbn in Hlen; lia]|].
  cbn [seq map concat]. rewrite drop_0, <-seq_shift, map_map.
  destruct (decide (length buf ≤ SECTOR)) as [Hle|Hgt].
  - rewrite (take_ge buf SECTOR) by done. rewrite take_app_le by (rewrite length_sector_of; lia).
    by apply sector_of_prefix.
  - assert (length (take SECTOR buf) = SECTOR) as Ht by (rewrite length_take; lia).
    rewrite sector_of_full by done. rewrite take_app_ge, Ht by lia.
    transitivity (take SECTOR buf ++ drop SECTOR buf); [f_equal|apply take_drop].
    rewrite <-length_drop. etransitivity; [|apply (IH (drop SECTOR buf)); rewrite length_drop; lia].
    do 2 f_equal. apply map_ext. intros i. by rewrite drop_drop.
Qed.

Lemma image_header_layout n : ∃ rest, image_header n = put_u32 n ++ str "SPFS" ++ rest.
Proof.
  pose proof (length_put_u32 n) as Hl. unfold image_header.
  destruct (put_u32 n) as [|a [|b [|c [|d [|]]]]]; try done. exists (replicate 504 0%Z). by vm_compute.
Qed.

Lemma length_image_header n : length (image_header n) = SECTOR.
Proof.
  pose proof (length_put_u32 n) as Hl. unfold image_header.
  destruct (put_u32 n) as [|a [|b [|c [|d [|]]]]]; try done.
Qed.

Lemma image_size_header n : 0 < n → (Z.of_nat n ≤ MAX_IMAGE)%Z → image_size (image_header n) = Some n.
Proof.
  intros H0 Hmax. destruct (image_header_layout n) as [rest ->]. unfold image_size.
  assert (slice 4 8 (put_u32 n ++ str "SPFS" ++ rest) = Some (str "SPFS")) as ->
    by (apply slice_middle; rewrite length_put_u32; done).
  cbn [mbind option_bind]. rewrite decide_True by done.
  rewrite take_app_length' by by rewrite length_put_u32.
  assert (from_le (put_u32 n) = Z.of_nat n) as ->.
  { unfold put_u32, wrap. unfold MAX_IMAGE in Hmax. rewrite Z.mod_small by lia. apply from_le_to_le. lia. }
  rewrite (proj2 (Z.eqb_neq _ _)), (proj2 (Z.ltb_ge _ _)) by lia. cbn. by rewrite Nat2Z.id.
Qed.

(** The data sectors read back after a save start with the image. *)
Lemma saved_image_read buf d d' : (Z.of_nat (length buf) ≤ MAX_IMAGE)%Z →
  write_chunks 1 (chunks buf) d = (Ok tt, d') →
  ∃ data, read_image 1 ((length buf + 511) / 512) d' = (Ok data, d') ∧ take (length buf) data = buf.
Proof.
  intros Hmax Hw. unfold MAX_IMAGE in Hmax. set (n := (length buf + 511) / 512) in *.
  assert (length (chunks buf) = n) as Hn by (unfold chunks; by rewrite length_map, length_seq).
  assert (length buf ≤ n * 512 ∧ n * 512 ≤ length buf + 511) as [Hn1 Hn2].
  { subst n. pose proof (Nat.div_mod (length buf + 511) 512). pose proof (Nat.mod_upper_bound (length buf + 511) 512). lia. }
  assert (Forall (λ c, length (sector_of c) = SECTOR) (chunks buf)) as Hfull.
  { unfold chunks. apply Forall_forall. intros c (i & -> & _)%list_elem_of_fmap.
    apply length_sector_of. rewrite length_take. lia. }
  destruct (write_chunks_stores 1 (chunks buf) d) as (d2 & Hw' & _ & Hs); [lia|lia|done|].
  assert (d2 = d') as -> by congruence.
  eexists. split; [apply read_image_spec|]. rewrite <-(take_concat_chunks n buf Hn1) at 2.
  do 2 f_equal. apply map_ext_in. intros i Hi%in_seq. apply Hs.
  unfold chunks. rewrite list_lookup_fmap, lookup_seq_lt; [done|]. fold n. lia.
Qed.
End drive.
