(* ===== verification/VfsProps.v ===== *)
(** * The file system tree: theorems

    The operations by path edit the namespace as they should, keep the tree
    well-formed, and what was saved is loaded again. *)
From S2P Require Import Prelude Bytes Text Disk Abi ProcFs Sched Vfs FsService VfsTree VfsImage.

(** ** Paths *)

#[local] Arguments join : simpl never.
#[local] Arguments components : simpl never.

Definition clean (p : bytes) : Prop := p ≠ [] ∧ SLASH ∉ p.

Lemma good_clean p : good_name p → clean p.
Proof. intros (? & ? & _). by split. Qed.

Lemma components_good path : utf8_valid path = true → Forall good_name (components path).
Proof.
  intros Hv. apply Forall_forall. intros p [Hp Hs]%list_elem_of_filter.
  split_and!; [done|by eapply split_clean|by apply (split_valid SLASH path)].
Qed.

Lemma split_join ps : Forall clean ps → split SLASH (join ps) = [] :: ps.
Proof.
  induction 1 as [|p ps [Hne Hs] Hps IH]; [done|]. unfold join in *. cbn. f_equal.
  rewrite split_app_clean by done. rewrite IH. by rewrite app_nil_r.
Qed.

Lemma components_join ps : Forall clean ps → components (join ps) = ps.
Proof.
  intros H. unfold components. rewrite split_join by done. rewrite filter_cons_False by auto.
  induction H as [|p ps [Hne Hs] Hps IH]; [done|]. rewrite filter_cons_True by done. by rewrite IH.
Qed.

Lemma components_clean path : Forall clean (components path).
Proof. apply Forall_forall. intros p [Hp Hs]%list_elem_of_filter. split; [done|by eapply split_clean]. Qed.

(** The parent that [locate] computes is found where the components say. *)
Lemma locate_last path ps n root : components path = ps ++ [n] →
  ∃ parent, locate path = Some (n, parent) ∧ find_dir root parent = find_dir_loop root ps.
Proof.
  intros Hc. unfold locate. rewrite Hc, last_snoc. cbn.
  eexists. split; [done|]. rewrite length_app. cbn. rewrite removelast_last.
  destruct ps as [|p ps]; cbn.
  { unfold find_dir. rewrite decide_True by done. by destruct root. }
  rewrite decide_False by lia. unfold find_dir.
  pose proof (components_clean path) as Hcl. rewrite Hc in Hcl. apply Forall_app in Hcl as [Hcl _].
  rewrite decide_False; [by rewrite components_join|].
  intros Heq. apply Forall_cons in Hcl as [[Hne _] _]. unfold join, ROOT_MOUNT in Heq. cbn in Heq.
  by destruct p.
Qed.

Lemma locate_none path : components path = [] → locate path = None.
Proof. intros Hc. unfold locate. by rewrite Hc. Qed.

Lemma components_root : components ROOT_MOUNT = [].
Proof. by vm_compute. Qed.

Lemma not_root path ps n : components path = ps ++ [n] → bool_decide (path = ROOT_MOUNT) = false.
Proof.
  intros Hc. apply bool_decide_eq_false_2. intros ->. rewrite components_root in Hc.
  by apply app_cons_not_nil in Hc.
Qed.

Lemma components_cases path : components path = [] ∨ ∃ ps n, components path = ps ++ [n].
Proof. destruct (components path) as [|n ps _] using rev_ind; eauto. Qed.

(** ** Saving *)

Section sync.
Context {D : Type} `{!Drive D}.
Implicit Types s : Fs D.

(** The image has fewer than 2^32 sectors. *)
Definition image_fits (d : FsNode) : Prop := (Z.of_nat (length (serialize d)) < 2 ^ 40)%Z.

Lemma length_chunks buf : length (chunks buf) = (length buf + 511) / 512.
Proof. unfold chunks. by rewrite length_map, length_seq. Qed.

Lemma drive_write_spec {E} (e : E) n b (d : D) :
  drive_write e n b d = (Ok tt, (write_sector n b d).2) ∨ drive_write e n b d = (Err e, (write_sector n b d).2).
Proof. unfold drive_write. destruct (write_sector n b d) as [[[]|] d']; auto. Qed.

Lemma write_chunks_ok lba cs d : (0 ≤ lba)%Z → (lba + Z.of_nat (length cs) < 2 ^ 32)%Z →
  (write_chunks lba cs d).1 = Ok tt.
Proof.
  revert lba d. induction cs as [|c cs IH]; intros lba d H0 Hlt; [done|]. cbn [write_chunks length] in *.
  destruct (drive_write_spec tt lba (sector_of c) d) as [Hw|Hw].
  - erewrite bind_ok by (unfold attempt; by rewrite Hw). cbv beta.
    assert (fits 32 (lba + 1) = Some (lba + 1)%Z) as -> by (apply fits_Some; lia).
    erewrite bind_ok by reflexivity. apply IH; lia.
  - by erewrite bind_ok by (unfold attempt; by rewrite Hw).
Qed.

(** Saving changes nothing but the drive, and does not fail. *)
Lemma sync_spec s : ∃ r d, sync_to_disk s = (r, set_DATA_DRIVE d s) ∧ (image_fits (VFS s) → r = Ok tt).
Proof.
  unfold sync_to_disk. erewrite bind_ok by reflexivity. cbv beta zeta.
  unfold on_drive, zoom.
  lazymatch goal with |- context [?m (DATA_DRIVE s)] => destruct (m (DATA_DRIVE s)) as [r d] eqn:E end.
  exists r, d. split; [done|]. intros Hfit.
  change r with (r, d).1. rewrite <-E. clear E r d.
  destruct (drive_write_spec tt 0 (image_header (length (serialize (VFS s)))) (DATA_DRIVE s)) as [Hw|Hw].
  - erewrite bind_ok by (unfold attempt; by rewrite Hw). apply write_chunks_ok; [lia|].
    rewrite length_chunks. unfold image_fits in Hfit.
    rewrite Nat2Z.inj_div, Nat2Z.inj_add. change (Z.of_nat 512) with 512%Z. change (Z.of_nat 511) with 511%Z.
    assert ((Z.of_nat (length (serialize (VFS s))) + 511) / 512 < 2 ^ 32 - 1)%Z; [|lia].
    apply Z.div_lt_upper_bound; lia.
  - by erewrite bind_ok by (unfold attempt; by rewrite Hw).
Qed.
End sync.

(** ** Operations as edits of the namespace *)

Abbreviation namespace := (list bytes → option entry).
Definition at_path (q : list bytes) (v : entry) (N : namespace) : namespace :=
  λ q', if decide (q' = q) then Some v else N q'.
Definition without (q : list bytes) (N : namespace) : namespace :=
  λ q', match below q q' with Some _ => None | None => N q' end.

(** What each operation promises at the path [ps ++ [n]]: the message of an error,
    or the namespace afterwards. *)
Section specs.
Context (N : namespace) (ps : list bytes) (n : bytes).

Definition in_parent {A} (k : option entry → string + A) : string + A :=
  match N ps with Some EDir => k (N (ps ++ [n])) | _ => inl "Ust dizin bulunamadi" end.
Definition mkdir_spec : string + namespace := in_parent (λ e,
  match e with
  | None => inr (at_path (ps ++ [n]) EDir N)
  | Some _ => inl "Bu isimde bir dosya veya dizin zaten var"
  end).
Definition write_spec (content : bytes) : string + namespace := in_parent (λ e,
  match e with
  | None | Some (EFile _) => inr (at_path (ps ++ [n]) (EFile content) N)
  | Some _ => inl "Bu bir dizin, dosya degil!"
  end).
Definition remove_spec : string + namespace := in_parent (λ e,
  match e with
  | Some _ => inr (without (ps ++ [n]) N)
  | None => inl "Dosya veya dizin bulunamadi"
  end).
Definition read_spec : string + bytes := in_parent (λ e,
  match e with
  | Some (EFile content) => inr content
  | Some _ => inl "Bu bir dizin!"
  | None => inl "Dosya bulunamadi"
  end).
End specs.

(** A node with nothing below it. *)
Definition leaf (c : FsNode) : Prop := ∀ q, ns c q = match q with [] => Some (entry_of c) | _ => None end.

Lemma leaf_file n c : leaf (File n c).
Proof. by intros [|]. Qed.
Lemma leaf_new_dir n : leaf (Directory n []).
Proof. by intros [|]. Qed.

Section edits.
Context (root : FsNode) (ps : list bytes) (ch : list FsNode) (back : list FsNode → FsNode).
Context (Hlead : leads_to root ps ch back).

Lemma ns_child n q : ns root (ps ++ n :: q) = c ← child n ch; ns c q.
Proof. destruct Hlead as (m & _ & Hns & _). by rewrite Hns. Qed.

Lemma ns_dir : ns root ps = Some EDir.
Proof. destruct Hlead as (m & _ & Hns & _). by rewrite <-(app_nil_r ps), Hns. Qed.

(** The child of one name is replaced. *)
Lemma ns_edit n ch' v q : (∀ m, child m ch' = if decide (m = n) then v else child m ch) →
  ns (back ch') q = match below (ps ++ [n]) q with Some q' => c ← v; ns c q' | None => ns root q end.
Proof.
  intros Hch. destruct Hlead as (m & _ & Hns & Hback). destruct (Hback ch') as (_ & _ & _ & ->).
  destruct (below ps q) as [q'|] eqn:E.
  - apply below_Some in E as ->. destruct q' as [|k q'].
    + rewrite app_nil_r. destruct (below (ps ++ [n]) ps) as [q'|] eqn:E'.
      { apply below_Some in E'. apply (f_equal length) in E'. rewrite !length_app in E'. cbn in E'. lia. }
      by rewrite ns_dir.
    + cbn. rewrite Hch. case_decide; subst.
      * replace (below (ps ++ [n]) (ps ++ n :: q')) with (Some q'); [done|].
        symmetry. apply below_Some. by rewrite <-app_assoc.
      * destruct (below (ps ++ [n]) (ps ++ k :: q')) as [q2|] eqn:E'.
        { apply below_Some in E'. rewrite <-app_assoc in E'. by simplify_list_eq. }
        symmetry. apply ns_child.
  - destruct (below (ps ++ [n]) q) as [q2|] eqn:E'; [|done].
    apply below_Some in E' as ->. rewrite <-app_assoc in E.
    by rewrite (proj2 (below_Some ps (ps ++ [n] ++ q2) ([n] ++ q2))) in E.
Qed.

Lemma ns_set n ch' x q : (∀ m, child m ch' = if decide (m = n) then Some x else child m ch) →
  leaf x → (∀ c, child n ch = Some c → leaf c) →
  ns (back ch') q = at_path (ps ++ [n]) (entry_of x) (ns root) q.
Proof.
  intros Hch Hx Hold. rewrite (ns_edit n ch' (Some x)) by done. unfold at_path.
  destruct (below (ps ++ [n]) q) as [q'|] eqn:E.
  - apply below_Some in E as ->. cbn. rewrite (Hx q'). destruct q' as [|k q'].
    + by rewrite app_nil_r, decide_True.
    + rewrite decide_False by (intros H; apply (f_equal length) in H; rewrite !length_app in H; cbn in H; lia).
      rewrite <-app_assoc. cbn. rewrite ns_child.
      destruct (child n ch) as [c|]; [|done]. symmetry. exact (Hold c eq_refl (k :: q')).
  - rewrite decide_False; [done|]. intros ->. by rewrite (proj2 (below_Some _ _ [])) in E by by rewrite app_nil_r.
Qed.

Lemma ns_unset n ch' q : (∀ m, child m ch' = if decide (m = n) then None else child m ch) →
  ns (back ch') q = without (ps ++ [n]) (ns root) q.
Proof. intros Hch. by rewrite (ns_edit n ch' None) by done. Qed.
End edits.

Lemma parent_cases root path ps n : tree_ok root → components path = ps ++ [n] →
  ∃ parent, locate path = Some (n, parent) ∧
    ((ns root ps ≠ Some EDir ∧ find_dir root parent = None) ∨
     ∃ ch back, ns root ps = Some EDir ∧ find_dir root parent = Some (ch, back) ∧
       leads_to root ps ch back ∧ ns root (ps ++ [n]) = entry_of <$> child n ch).
Proof.
  intros [Hok _] Hc. destruct (locate_last path ps n root Hc) as (parent & Hl & Hf).
  exists parent. split; [done|]. rewrite Hf. clear Hf.
  destruct (find_dir_loop root ps) as [[ch back]|] eqn:E.
  - right. exists ch, back. apply find_dir_loop_sound in E as [_ Hlead]; [|done].
    split_and!; [by eapply ns_dir|done..|]. erewrite ns_child by done. by destruct (child n ch).
  - left. split; [|done]. intros Hns. apply find_dir_loop_complete in Hns as [? ?]; [congruence|done].
Qed.

(** The result of an operation on the tree against what it promises. *)
Definition edits {D} (m : comp (Fs D) string unit) (s : Fs D) (spec : string + namespace) : Prop :=
  match spec with
  | inl e => m s = (Err e, s)
  | inr N => ∃ r s', m s = (r, s') ∧ tree_ok (VFS s') ∧ (∀ q, ns (VFS s') q = N q) ∧
      BLOB_STORE s' = BLOB_STORE s ∧ view s' = view s ∧ (image_fits (VFS s') → r = Ok tt)
  end.

Section operations.
Context {D : Type} `{!Drive D}.
Implicit Types s : Fs D.

Lemma replaced_ok root ps ch back ch' : tree_ok root → leads_to root ps ch back →
  (∀ m, node_ok (Directory m ch) → node_ok (Directory m ch')) → tree_ok (back ch').
Proof.
  intros (Hok & Hd & Hn) (m & Hm & _ & Hback) Hch. destruct (Hback ch') as (Hn' & Hd' & Hok' & _).
  split_and!; [by apply Hok', Hch|done|congruence].
Qed.

(** Assigning the tree and saving it. *)
Lemma commit s root N : tree_ok root → (∀ q, ns root q = N q) →
  edits (modify (set_VFS root);; sync_to_disk) s (inr N).
Proof.
  intros Hok HN. destruct (sync_spec (set_VFS root s)) as (r & d & Hs & Hr).
  exists r, (set_DATA_DRIVE d (set_VFS root s)).
  split; [by erewrite bind_ok by reflexivity|]. by split_and!.
Qed.

Lemma children_nodup root ps ch back : leads_to root ps ch back → NoDup (map name ch).
Proof. by intros (m & (?&_&_)%node_ok_dir & _). Qed.

Lemma first_of_name n ch i c : first_child (named n) ch = Some (i, c) →
  ch !! i = Some c ∧ name c = n ∧ child n ch = Some c.
Proof.
  intros E. split_and!; [..|unfold child; by rewrite E].
  - by apply first_child_Some in E as (? & _).
  - by apply first_child_Some in E as (_ & ?%named_spec & _).
Qed.

Lemma no_child n ch : first_child (named n) ch = None → child n ch = None.
Proof. unfold child. by intros ->. Qed.

(** The first steps of an operation by path: either the parent is no directory,
    or the operation continues with its children. *)
Lemma at_parent {A} msg (body : bytes → list FsNode → (list FsNode → FsNode) → comp (Fs D) string A)
    s path ps n : tree_ok (VFS s) → components path = ps ++ [n] →
  let m :=
    reject_if (bool_decide (path = ROOT_MOUNT)) msg;;
    '(nm, parent_path) ← ok_or (locate path) "Gecersiz yol";
    root ← gets VFS;
    '(children, write_back) ← ok_or (find_dir root parent_path) "Ust dizin bulunamadi";
    body nm children write_back in
  (ns (VFS s) ps ≠ Some EDir ∧ m s = (Err "Ust dizin bulunamadi"%string, s)) ∨
  ∃ ch back, ns (VFS s) ps = Some EDir ∧ leads_to (VFS s) ps ch back ∧
    ns (VFS s) (ps ++ [n]) = entry_of <$> child n ch ∧ m s = body n ch back s.
Proof.
  intros Hok Hc m. destruct (parent_cases _ _ _ _ Hok Hc) as (parent & Hl & Hcase). subst m.
  erewrite bind_ok by (by rewrite (not_root _ _ _ Hc)). rewrite Hl.
  erewrite bind_ok by reflexivity. cbv beta iota. erewrite bind_ok by reflexivity.
  destruct Hcase as [[Hno Hf]|(ch & back & Hdir & Hf & Hlead & He)]; rewrite Hf.
  - by left.
  - right. exists ch, back. split_and!; [done..|]. by erewrite bind_ok by reflexivity.
Qed.

Lemma in_parent_missing {A} N ps n (k : option entry → string + A) : N ps ≠ Some EDir →
  in_parent N ps n k = inl "Ust dizin bulunamadi"%string.
Proof. intros H. unfold in_parent. by destruct (N ps) as [[]|]. Qed.

Lemma in_parent_found {A} N ps n (k : option entry → string + A) : N ps = Some EDir →
  in_parent N ps n k = k (N (ps ++ [n])).
Proof. intros H. unfold in_parent. by rewrite H. Qed.

Lemma last_component_good path ps n : utf8_valid path = true → components path = ps ++ [n] → good_name n.
Proof.
  intros Hv Hc. pose proof (components_good path Hv) as Hg. rewrite Hc in Hg.
  by apply Forall_app in Hg as [_ [Hg _]%Forall_cons].
Qed.

Lemma named_exists n ch : existsb (named n) ch = match child n ch with Some _ => true | None => false end.
Proof.
  destruct (child n ch) as [c|] eqn:E.
  - apply child_elem in E as [Hin Hn]. apply existsb_exists. exists c.
    split; [by apply list_elem_of_In|by apply named_spec].
  - apply child_None in E. apply not_true_iff_false. intros (c & Hin & Hn%named_spec)%existsb_exists.
    apply E. rewrite <-Hn. apply list_elem_of_fmap_2. by apply list_elem_of_In.
Qed.

(** A new child that has nothing below it. *)
Lemma pushed root ps ch back n x : tree_ok root → leads_to root ps ch back →
  child n ch = None → name x = n → good_name n → node_ok x → leaf x →
  tree_ok (back (ch ++ [x])) ∧
  ∀ q, ns (back (ch ++ [x])) q = at_path (ps ++ [n]) (entry_of x) (ns root) q.
Proof.
  intros Hok Hlead Hch <- Hg Hx Hleaf. split.
  - eapply replaced_ok; [done..|]. intros m Hm. by apply dir_ok_push.
  - intros q. eapply ns_set; [done| |done|congruence].
    intros m. by apply child_push; [eapply children_nodup|].
Qed.

(** New content for a file. *)
Lemma replaced root ps ch back n i c0 c : tree_ok root → leads_to root ps ch back →
  first_child (named n) ch = Some (i, File n c0) →
  tree_ok (back (<[i := File n c]> ch)) ∧
  ∀ q, ns (back (<[i := File n c]> ch)) q = at_path (ps ++ [n]) (EFile c) (ns root) q.
Proof.
  intros Hok Hlead E. apply first_of_name in E as (Hi & Hn & Hch). split.
  - eapply replaced_ok; [done..|]. intros m Hm. by eapply dir_ok_insert; [..|constructor].
  - intros q. eapply (ns_set _ _ _ _ Hlead n _ (File n c)); [|apply leaf_file|].
    + intros m. by eapply (child_insert m i (File n c)); [eapply children_nodup|..].
    + rewrite Hch. intros ? [= <-]. apply leaf_file.
Qed.

Lemma push_edits s ps ch back n x : tree_ok (VFS s) → leads_to (VFS s) ps ch back →
  child n ch = None → name x = n → good_name n → node_ok x → leaf x →
  edits (modify (set_VFS (back (ch ++ [x])));; sync_to_disk) s
    (inr (at_path (ps ++ [n]) (entry_of x) (ns (VFS s)))).
Proof. intros. eapply commit; by eapply pushed. Qed.

Lemma replace_edits s ps ch back n i c0 c : tree_ok (VFS s) → leads_to (VFS s) ps ch back →
  first_child (named n) ch = Some (i, File n c0) →
  edits (modify (set_VFS (back (<[i := File n c]> ch)));; sync_to_disk) s
    (inr (at_path (ps ++ [n]) (EFile c) (ns (VFS s)))).
Proof. intros. eapply commit; by eapply replaced. Qed.

Lemma mkdir_edits s path ps n : tree_ok (VFS s) → utf8_valid path = true →
  components path = ps ++ [n] → edits (mkdir path) s (mkdir_spec (ns (VFS s)) ps n).
Proof.
  intros Hok Hv Hc. pose proof (last_component_good _ _ _ Hv Hc) as Hg. unfold mkdir_spec, edits, mkdir.
  edestruct (at_parent (A:=unit)) as [[Hno ->]|(ch & back & Hdir & Hlead & He & ->)]; [done..| |].
  { by rewrite in_parent_missing. }
  rewrite in_parent_found, He, named_exists by done.
  destruct (child n ch) as [c|] eqn:Hch; cbn [fmap option_fmap option_map]; [done|].
  erewrite bind_ok by reflexivity.
  by apply (push_edits _ _ _ _ n (Directory n [])); [..|constructor; constructor|apply leaf_new_dir].
Qed.

Lemma write_edits s path ps n c : tree_ok (VFS s) → utf8_valid path = true →
  components path = ps ++ [n] → edits (write_file_bytes path c) s (write_spec (ns (VFS s)) ps n c).
Proof.
  intros Hok Hv Hc. pose proof (last_component_good _ _ _ Hv Hc) as Hg.
  unfold write_spec, edits, write_file_bytes.
  edestruct (at_parent (A:=unit)) as [[Hno ->]|(ch & back & Hdir & Hlead & He & ->)]; [done..| |].
  { by rewrite in_parent_missing. }
  rewrite in_parent_found, He by done. destruct (first_child (named n) ch) as [[i d]|] eqn:E.
  - pose proof E as (_ & Hn & Hch)%first_of_name. rewrite Hch. destruct d as [m c0|m kids|m]; [|done..].
    cbn in Hn. subst m. by eapply replace_edits.
  - pose proof (no_child _ _ E) as Hch. rewrite Hch.
    by apply (push_edits _ _ _ _ n (File n c)); [..|constructor|apply leaf_file].
Qed.

Lemma remove_edits s path ps n : tree_ok (VFS s) →
  components path = ps ++ [n] → edits (remove path) s (remove_spec (ns (VFS s)) ps n).
Proof.
  intros Hok Hc. unfold remove_spec, edits, remove.
  edestruct (at_parent (A:=unit)) as [[Hno ->]|(ch & back & Hdir & Hlead & He & ->)]; [done..| |].
  { by rewrite in_parent_missing. }
  rewrite in_parent_found, He by done. destruct (first_child (named n) ch) as [[i d]|] eqn:E.
  - apply first_of_name in E as (Hi & Hn & Hch). rewrite Hch.
    erewrite bind_ok by reflexivity. cbv beta iota. eapply commit.
    + eapply replaced_ok; [done..|]. intros m Hm. by eapply dir_ok_delete.
    + intros q. eapply ns_unset; [done|]. intros m. rewrite <-Hn.
      by eapply child_delete; [eapply children_nodup|].
  - by rewrite (no_child _ _ E).
Qed.

Lemma read_reads s path ps n : tree_ok (VFS s) → components path = ps ++ [n] →
  generate_procfs_content (view s) path = None →
  read_file_bytes path s =
    (match read_spec (ns (VFS s)) ps n with inl e => Err e | inr c => Ok c end, s).
Proof.
  intros Hok Hc Hp. unfold read_file_bytes, tree_file.
  erewrite bind_ok by (by rewrite (not_root _ _ _ Hc)). erewrite bind_ok by reflexivity. rewrite Hp.
  destruct (parent_cases _ _ _ _ Hok Hc) as (parent & Hl & Hcase). rewrite Hl.
  erewrite bind_ok by reflexivity. cbv beta iota. erewrite bind_ok by reflexivity. unfold find_dir_ro, read_spec.
  destruct Hcase as [[Hno Hf]|(ch & back & Hdir & Hf & Hlead & He)]; rewrite Hf.
  { by rewrite in_parent_missing. }
  erewrite bind_ok by reflexivity. rewrite in_parent_found, He by done. cbn [fst].
  unfold child. by destruct (first_child (named n) ch) as [[i [m c|m kids|m]]|].
Qed.

(** The content a chunk is written over. *)
Definition chunk_base (N : namespace) (ps : list bytes) (n : bytes) : string + bytes := in_parent N ps n (λ e,
  match e with
  | None => inr []
  | Some (EFile c) => inr c
  | Some _ => inl "Bu bir dizin veya cihaz, dosya degil!"
  end).

Lemma after_edits {A} (m : comp (Fs D) string unit) (a : A) s N : edits m s (inr N) →
  edits ((m;; mret a);; mret tt) s (inr N).
Proof.
  intros (r & s' & Hm & H1 & H2 & H3 & H4 & H5).
  destruct (((m;; mret a);; mret tt) s) as [r' s2] eqn:E.
  unfold mbind, comp_bind in E. rewrite Hm in E.
  assert (s2 = s' ∧ r' = r) as [-> ->] by (by destruct r as [[]|?|]; injection E as <- <-).
  exists r, s'. split_and!; [|done..]. unfold mbind, comp_bind. rewrite Hm. by destruct r as [[]|?|].
Qed.

Lemma write_chunk_edits s path ps n off buf : tree_ok (VFS s) → utf8_valid path = true →
  components path = ps ++ [n] →
  match chunk_base (ns (VFS s)) ps n with
  | inl e => write_file_chunk path off buf s = (Err e, s)
  | inr c0 =>
      match overwrite c0 off buf with
      | None => write_file_chunk path off buf s = (Panic, s)
      | Some c => edits (write_file_chunk path off buf;; mret tt) s
                    (inr (at_path (ps ++ [n]) (EFile c) (ns (VFS s))))
      end
  end.
Proof.
  intros Hok Hv Hc. pose proof (last_component_good _ _ _ Hv Hc) as Hg. unfold chunk_base.
  assert (∀ (m : comp (Fs D) string unit) (t : Fs D), write_file_chunk path off buf s = (m;; mret (length buf)) t →
    (write_file_chunk path off buf;; mret tt) s = ((m;; mret (length buf));; mret tt) t) as Hafter.
  { intros m t H. unfold mbind, comp_bind in H |- *. by rewrite H. }
  unfold write_file_chunk in *.
  edestruct (at_parent (A:=nat)) as [[Hno Hrun]|(ch & back & Hdir & Hlead & He & Hrun)]; [done..| |];
    rewrite Hrun in Hafter |- *; clear Hrun.
  { by rewrite in_parent_missing. }
  rewrite in_parent_found, He by done. destruct (first_child (named n) ch) as [[i d]|] eqn:E.
  - pose proof E as (_ & Hn & Hch)%first_of_name. rewrite Hch. destruct d as [m c0|m kids|m]; [|done..].
    cbn in Hn. subst m. cbn [fmap option_fmap option_map entry_of].
    destruct (overwrite c0 off buf) as [c|]; [|done]. unfold edits.
    erewrite (Hafter (modify (set_VFS (back (<[i:=File n c]> ch)));; sync_to_disk) s) by by rewrite bind_assoc.
    apply (after_edits _ (length buf)). by eapply replace_edits.
  - pose proof (no_child _ _ E) as Hch. rewrite Hch. cbn [fmap option_fmap option_map].
    destruct (overwrite [] off buf) as [c|]; [|done]. unfold edits.
    erewrite (Hafter (modify (set_VFS (back (ch ++ [File n c])));; sync_to_disk) s) by by rewrite bind_assoc.
    apply (after_edits _ (length buf)).
    by apply (push_edits _ _ _ _ n (File n c)); [..|constructor|apply leaf_file].
Qed.
End operations.

(** ** Every operation keeps the tree well-formed *)

Section keeps.
Context {D : Type} `{!Drive D}.
Implicit Types s : Fs D.

Definition keeps {A} (m : comp (Fs D) string A) : Prop :=
  ∀ s, tree_ok (VFS s) → tree_ok (VFS (m s).2).

Lemma edits_keep (m : comp (Fs D) string unit) s spec :
  tree_ok (VFS s) → edits m s spec → tree_ok (VFS (m s).2).
Proof.
  intros Hok He. destruct spec as [e|N]; cbn in He; [by rewrite He|].
  destruct He as (r & s' & Hm & ? & _). by rewrite Hm.
Qed.

Lemma bind_keeps {A B} (m : comp (Fs D) string A) (k : A → comp (Fs D) string B) :
  keeps m → (∀ a, keeps (k a)) → keeps (m ≫= k).
Proof.
  intros Hm Hk s Hs. specialize (Hm s Hs). unfold mbind, comp_bind.
  destruct (m s) as [[a|e|] s']; cbn in *; [by apply Hk|done..].
Qed.
Lemma ret_keeps {A} (a : A) : keeps (mret a).
Proof. by intros s. Qed.
Lemma get_keeps {A} (f : Fs D → A) : keeps (gets f).
Proof. by intros s. Qed.
Lemma throw_keeps {A} e : keeps (throw (A := A) e).
Proof. by intros s. Qed.
Lemma ok_or_keeps {A} (o : option A) e : keeps (ok_or o e).
Proof. by destruct o; intros s. Qed.
Lemma unwrap_keeps {A} (o : option A) : keeps (unwrap o).
Proof. by destruct o; intros s. Qed.
Lemma reject_keeps b e : keeps (reject_if b e).
Proof. by destruct b; intros s. Qed.
Lemma attempt_keeps {A} (m : comp (Fs D) string A) : keeps m → keeps (attempt m).
Proof.
  intros Hm s Hs. specialize (Hm s Hs). unfold attempt. by destruct (m s) as [[a|e|] s'].
Qed.
Lemma ignore_keeps {A} (m : comp (Fs D) string A) : keeps m → keeps (ignore m).
Proof. intros Hm. apply bind_keeps; [by apply attempt_keeps|]. intros ?. apply ret_keeps. Qed.
Lemma for_each_keeps {X} (xs : list X) (body : X → comp (Fs D) string unit) :
  (∀ x, x ∈ xs → keeps (body x)) → keeps (for_each xs body).
Proof.
  induction xs as [|x xs IH]; intros H; [apply ret_keeps|]. cbn.
  apply bind_keeps; [apply H; left|]. intros _. apply IH. intros y Hy. apply H. by right.
Qed.
Lemma store_keeps x : keeps (modify (set_BLOB_STORE x)).
Proof. by intros s. Qed.

Create HintDb keeps.
#[local] Hint Resolve bind_keeps ret_keeps get_keeps throw_keeps ok_or_keeps unwrap_keeps
  reject_keeps attempt_keeps ignore_keeps store_keeps : keeps.

(** Cases on what the code branches on. *)
Ltac keep :=
  repeat (first [progress eauto with keeps | apply bind_keeps; [eauto with keeps|intros ?] | case_match]).

(** An operation by path either stops at once or is given by its edit. *)
Lemma path_keeps (op : bytes → comp (Fs D) string unit) (spec : Fs D → list bytes → bytes → string + namespace) path :
  (components path = [] → ∀ s, (op path s).2 = s) →
  (∀ s ps n, tree_ok (VFS s) → components path = ps ++ [n] → edits (op path) s (spec s ps n)) →
  keeps (op path).
Proof.
  intros Hnil Hop s Hs. destruct (components_cases path) as [Hc|(ps & n & Hc)].
  - by rewrite Hnil.
  - by eapply edits_keep, Hop.
Qed.

Lemma stops_at_locate {A} msg path (k : bytes * bytes → comp (Fs D) string A) s : components path = [] →
  ((reject_if (bool_decide (path = ROOT_MOUNT)) msg;; p ← ok_or (locate path) "Gecersiz yol"; k p) s).2 = s.
Proof. intros Hc. rewrite locate_none by done. by destruct (bool_decide _). Qed.

Lemma mkdir_keeps path : utf8_valid path = true → keeps (mkdir path).
Proof.
  intros Hv. eapply path_keeps; [intros; by apply stops_at_locate|].
  intros s ps n Hs Hc. by apply mkdir_edits.
Qed.
Lemma write_keeps path c : utf8_valid path = true → keeps (write_file_bytes path c).
Proof.
  intros Hv. apply (path_keeps (λ p, write_file_bytes p c) (λ s ps n, write_spec (ns (VFS s)) ps n c));
    [intros; by apply stops_at_locate|]. intros s ps n Hs Hc. by apply write_edits.
Qed.
Lemma remove_keeps path : keeps (remove path).
Proof.
  eapply path_keeps; [intros; by apply stops_at_locate|]. intros s ps n Hs Hc. by apply remove_edits.
Qed.

Lemma write_chunk_keeps path off buf : utf8_valid path = true → keeps (write_file_chunk path off buf).
Proof.
  intros Hv s Hs. destruct (components_cases path) as [Hc|(ps & n & Hc)].
  { unfold write_file_chunk. by rewrite stops_at_locate. }
  pose proof (write_chunk_edits s path ps n off buf Hs Hv Hc) as He.
  destruct (chunk_base _ _ _) as [e|c0]; [by rewrite He|].
  destruct (overwrite _ _ _) as [c|]; [|by rewrite He].
  apply edits_keep in He; [|done]. unfold mbind, comp_bind in He.
  by destruct (write_file_chunk path off buf s) as [[?|?|] ?].
Qed.

Lemma read_spec_any path s : ∃ r, read_file_bytes path s = (r, s) ∧ r ≠ Panic.
Proof.
  unfold read_file_bytes, tree_file.
  destruct (bool_decide _); [by eexists|]. erewrite bind_ok by reflexivity. erewrite bind_ok by reflexivity.
  destruct (generate_procfs_content _ _) as [c|]; [by eexists|].
  destruct (locate path) as [[nm parent]|]; [|by eexists]. erewrite bind_ok by reflexivity. cbv beta iota.
  erewrite bind_ok by reflexivity. destruct (find_dir_ro _ _) as [ch|]; [|by eexists].
  erewrite bind_ok by reflexivity. destruct (first_child _ _) as [[i []]|]; by eexists.
Qed.
Lemma read_state path s : (read_file_bytes path s).2 = s.
Proof. destruct (read_spec_any path s) as (r & -> & _). done. Qed.
Lemma read_keeps path : keeps (read_file_bytes path).
Proof. intros s Hs. by rewrite read_state. Qed.

(** ** The built-in files *)

(** An unsaved write changes at most its own path. *)
Lemma quiet_spec s path c : tree_ok (VFS s) → utf8_valid path = true →
  ∃ r root, write_file_quiet path c s = (r, set_VFS root s) ∧ r ≠ Panic ∧ tree_ok root ∧
    ∀ q, q ≠ components path → ns root q = ns (VFS s) q.
Proof.
  intros Hok Hv. unfold write_file_quiet, write_file_quiet_bytes.
  assert (∀ r, r ≠ Panic → ∃ (r' : outcome string unit) root, (r, s) = (r', set_VFS root s) ∧ r' ≠ Panic ∧
    tree_ok root ∧ ∀ q, q ≠ components path → ns root q = ns (VFS s) q) as Hsame.
  { intros r Hr. exists r, (VFS s). by destruct s. }
  destruct (components_cases path) as [Hc|(ps & n & Hc)].
  { rewrite locate_none by done. by destruct (bool_decide _); apply Hsame. }
  pose proof (last_component_good _ _ _ Hv Hc) as Hg.
  edestruct (at_parent (D := D) (A := unit)) as [[Hno ->]|(ch & back & Hdir & Hlead & He & ->)]; [done..|by apply Hsame|].
  assert (∀ e q, q ≠ components path → at_path (ps ++ [n]) e (ns (VFS s)) q = ns (VFS s) q) as Hne.
  { intros e q Hq. unfold at_path. rewrite decide_False; [done|congruence]. }
  destruct (first_child (named n) ch) as [[i d]|] eqn:E.
  - destruct d as [m c0|m kids|m]; [|by apply Hsame..].
    assert (m = n) as -> by (by apply first_of_name in E as (_ & ? & _)).
    destruct (replaced _ _ _ _ _ _ _ c Hok Hlead E) as [? Hns]. eexists (Ok tt), _. split; [done|].
    split_and!; [done..|]. intros q Hq. rewrite Hns. by apply Hne.
  - destruct (pushed _ _ _ _ n (File n c) Hok Hlead (no_child _ _ E) eq_refl Hg) as [? Hns];
      [constructor|apply leaf_file|]. eexists (Ok tt), _. split; [done|].
    split_and!; [done..|]. intros q Hq. rewrite Hns. by apply Hne.
Qed.

(** The paths that are filled at every boot. *)
Definition seed_paths : list bytes := (SEEDED_BINARIES []).*1 ++ SEEDED_TEXT.*1.
Definition not_seeded (q : list bytes) : Prop := q ∉ map components seed_paths.

(** The namespace is [N] up to the seeded paths, and the drive is not touched. *)
Definition seeding (N : namespace) (d : D) (s : Fs D) : Prop :=
  tree_ok (VFS s) ∧ (∀ q, not_seeded q → ns (VFS s) q = N q) ∧ DATA_DRIVE s = d.

Lemma quiet_seeds N d path c s : path ∈ seed_paths → utf8_valid path = true → seeding N d s →
  wp (E := string) (ignore (write_file_quiet path c)) (λ r s', r = Ok tt ∧ seeding N d s') s.
Proof.
  intros Hin Hv (Hok & HN & Hd). destruct (quiet_spec s path c Hok Hv) as (r & root & Hq & Hr & Hok' & Hns).
  apply wp_ignore. eapply wp_returns; [done|].
  assert (seeding N d (set_VFS root s)) as Hseed.
  { split_and!; [done| |done]. intros q Hnot. cbn. rewrite Hns; [by apply HN|].
    intros ->. apply Hnot. by apply list_elem_of_fmap_2. }
  by destruct r.
Qed.

Lemma seed_paths_valid : Forall (λ p, utf8_valid p = true) seed_paths.
Proof. apply (bool_decide_unpack _). vm_compute. exact I. Qed.

Lemma seed_binaries_paths elf : (SEEDED_BINARIES elf).*1 = (SEEDED_BINARIES []).*1.
Proof. done. Qed.

Lemma seed_spec elf N d s : seeding N d s →
  wp (seed_default_files elf) (λ r s', r = Ok tt ∧ seeding N d s') s.
Proof.
  intros HI. pose proof seed_paths_valid as Hvalid. rewrite Forall_forall in Hvalid.
  unfold seed_default_files. apply wp_bind. apply (wp_for_each _ _ (seeding N d)); [done| |].
  - clear s HI. intros blob s Hb HI. unfold seed_binary. wp_step. wp_step.
    destruct (existsb _ _); [by wp_step|]. wp_step. wp_step.
    assert (blob.1 ∈ seed_paths) as Hin.
    { apply elem_of_app. left. rewrite <-(seed_binaries_paths elf). by apply list_elem_of_fmap_2. }
    eapply wp_mono; [apply (quiet_seeds N d); [done|by apply Hvalid|done]|].
    by intros [[]|?|] s' [? ?].
  - clear s HI. intros s HI. apply (wp_for_each _ _ (seeding N d)); [done| |done].
    clear s HI. intros e s He HI. unfold seed_text. wp_step. wp_step.
    assert (e.1 ∈ seed_paths) as Hin by (apply elem_of_app; right; by apply list_elem_of_fmap_2).
    unfold read_file. wp_step. destruct (read_spec_any e.1 s) as (r & Hr & Hnp).
    eapply wp_returns; [done|]. destruct r as [raw|err|]; [by repeat wp_step| |done].
    eapply wp_mono; [apply (quiet_seeds N d); [done|by apply Hvalid|done]|]. by intros [[]|?|] s' [? ?].
Qed.
End keeps.

(** ** Loading what was saved *)

Section reboot.
Context {D : Type} `{!Drive D, !StorageLaws D}.
Implicit Types s : Fs D.

Lemma load_image_saved s s' d : tree_ok (VFS s) → (Z.of_nat (length (serialize (VFS s))) ≤ MAX_IMAGE)%Z →
  write_chunks 1 (chunks (serialize (VFS s))) d = (Ok tt, DATA_DRIVE s') →
  load_image (length (serialize (VFS s))) s' = (Ok tt, set_VFS (saved (VFS s)) s').
Proof.
  intros Hok Hmax Hw. destruct (saved_image_read _ _ _ Hmax Hw) as (data & Hread & Hdata).
  unfold load_image. erewrite bind_ok; [|unfold on_drive, zoom; rewrite Hread; reflexivity]. cbv beta.
  assert (deserialize (take (length (serialize (VFS s))) data) 0 =
    (Ok (saved (VFS s)), length (serialize (VFS s)))) as ->.
  { rewrite Hdata. apply (deserialize_found (serialize (VFS s))).
    - apply names_ok; [by destruct Hok|]. destruct Hok as (_ & _ & ->). done.
    - lia.
    - unfold u32_length, MAX_IMAGE in *. lia.
    - by apply (found_prefix _ _ []); rewrite app_nil_r. }
  unfold modify. by destruct s'.
Qed.

Lemma load_saved elf s s2 : tree_ok (VFS s) → (Z.of_nat (length (serialize (VFS s))) ≤ MAX_IMAGE)%Z →
  DATA_DRIVE s2 = DATA_DRIVE (sync_to_disk s).2 →
  wp (load_from_disk elf) (λ r s', r = Ok tt ∧ seeding (ns (saved (VFS s))) (DATA_DRIVE s2) s') s2.
Proof.
  intros Hok Hmax Hd. pose proof (length_serialize_pos (VFS s)) as Hpos.
  destruct (drive_write_stores tt 0 (image_header (length (serialize (VFS s)))) (DATA_DRIVE s))
    as (d1 & Hw1 & Hs1); [apply length_image_header|].
  destruct (write_chunks_stores 1 (chunks (serialize (VFS s))) d1) as (d2 & Hw2 & Hbelow & _).
  { lia. }
  { rewrite length_chunks. unfold MAX_IMAGE in Hmax.
    pose proof (Nat.Div0.div_le_upper_bound (length (serialize (VFS s)) + 511) 512 (length (serialize (VFS s)) + 511)). lia. }
  { apply Forall_forall. intros c (i & -> & _)%list_elem_of_fmap. apply length_sector_of. rewrite length_take. lia. }
  assert (DATA_DRIVE (sync_to_disk s).2 = d2) as Hd2.
  { unfold sync_to_disk. erewrite bind_ok by reflexivity. cbv zeta. unfold on_drive, zoom.
    erewrite bind_ok by (unfold attempt; by rewrite Hw1). cbv beta iota. by rewrite Hw2. }
  rewrite Hd2 in Hd. assert (sector_at 0 (DATA_DRIVE s2) = image_header (length (serialize (VFS s)))) as Hh.
  { rewrite Hd, Hbelow, Hs1 by lia. by rewrite decide_True. }
  assert (on_drive (attempt (drive_read tt 0)) s2 =
    (Ok (inr (sector_at 0 (DATA_DRIVE s2))) : outcome string (unit + bytes), s2)) as Hr.
  { unfold on_drive, zoom, attempt, drive_read. rewrite read_stored. by destruct s2. }
  unfold load_from_disk. wp_step. eapply wp_returns; [exact Hr|]. cbv beta iota.
  wp_step. eapply wp_returns; [exact Hr|]. cbv beta iota.
  rewrite Hh, image_size_header by lia. wp_step. eapply wp_returns.
  { eapply load_image_saved; [done..|]. by rewrite Hd. }
  apply seed_spec. split_and!; [by apply saved_tree_ok|done..].
Qed.
End reboot.


(** ** The file-system service *)

Section service.
Context {D : Type} `{!Drive D}.
Implicit Types s : Fs D.

Lemma path_str_valid req : utf8_valid (path_str req) = true.
Proof. unfold path_str, from_utf8. destruct (utf8_valid (take _ _)) eqn:E; [exact E|done]. Qed.

Lemma path_str_set_path path req : length path ≤ MAX_FS_PATH_LEN → utf8_valid path = true →
  path_str (set_path path req) = path.
Proof.
  intros Hl Hv. unfold path_str, set_path. cbn [fs_path_len fs_path].
  rewrite Nat.min_l, Z.min_l, Nat2Z.id by lia. rewrite take_app_le by (rewrite length_take; lia).
  rewrite take_take, Nat.min_id, take_ge by lia. unfold from_utf8. by rewrite Hv.
Qed.

Lemma answer_keeps m resp errno : keeps (D := D) m → keeps (answer m resp errno).
Proof. intros Hm. apply bind_keeps; [by apply attempt_keeps|]. intros r. apply ret_keeps. Qed.

Lemma serve_read_keeps req : keeps (D := D) (serve_read req).
Proof.
  apply bind_keeps; [apply attempt_keeps, read_keeps|]. intros [e|c]; [apply ret_keeps|].
  apply bind_keeps; [apply unwrap_keeps|]. intros r. apply ret_keeps.
Qed.

Lemma dispatch_keeps req payload : keeps (D := D) (dispatch_fs_request req payload).
Proof.
  pose proof (path_str_valid req) as Hv. unfold dispatch_fs_request.
  repeat case_match; try apply ret_keeps; try apply serve_read_keeps; try apply answer_keeps.
  - apply bind_keeps; [case_match; [by apply ignore_keeps, write_keeps|apply ret_keeps]|]. intros _.
    apply bind_keeps; [apply attempt_keeps, read_keeps|]. intros r. apply ret_keeps.
  - by apply write_keeps.
  - apply bind_keeps; [apply attempt_keeps, read_keeps|]. intros r. apply ret_keeps.
  - by apply mkdir_keeps.
  - apply remove_keeps.
Qed.

Lemma seed_keeps elf : keeps (D := D) (seed_default_files elf).
Proof.
  intros s Hs. destruct (seed_default_files elf s) as [r s'] eqn:E.
  assert (seeding (ns (VFS s)) (DATA_DRIVE s) s) as HI by done.
  pose proof (wp_run _ _ _ _ _ (seed_spec elf _ _ _ HI) E) as [_ [? _]]. done.
Qed.

Lemma init_keeps elf : keeps (D := D) (init_default_fs elf).
Proof.
  apply bind_keeps; [|intros _; apply seed_keeps]. apply for_each_keeps. intros p Hp.
  apply ignore_keeps, mkdir_keeps. revert p Hp. apply Forall_forall.
  apply (bool_decide_unpack _). vm_compute. exact I.
Qed.
End service.

(** ** Properties *)

(** One operation on the file system: paths are text, a restart follows a save. *)
Inductive fs_step {D} `{!Drive D} (elf : bytes) (s : Fs D) : Fs D → Prop :=
| step_mkdir path : utf8_valid path = true → fs_step elf s (mkdir path s).2
| step_write path c : utf8_valid path = true → fs_step elf s (write_file_bytes path c s).2
| step_write_chunk path off buf : utf8_valid path = true → fs_step elf s (write_file_chunk path off buf s).2
| step_remove path : fs_step elf s (remove path s).2
| step_request req payload : fs_step elf s (dispatch_fs_request req payload s).2
| step_seed : fs_step elf s (seed_default_files elf s).2
| step_init : fs_step elf s (init_default_fs elf s).2
| step_restart s2 : (Z.of_nat (length (serialize (VFS s))) ≤ MAX_IMAGE)%Z →
    DATA_DRIVE s2 = DATA_DRIVE (sync_to_disk s).2 → fs_step elf s (load_from_disk elf s2).2.

(** C26: The file system keeps its tree well-formed: whatever sequence of
    operations and requests is run, restarts from the saved image included, the
    root is a directory called "/", no directory has two children of one name,
    and every name is non-empty valid UTF-8 without a slash. *)
Theorem tree_stays_well_formed {D} `{!Drive D, !StorageLaws D} elf (s s' : Fs D) :
  rtc (fs_step elf) s s' → tree_ok (VFS s) → tree_ok (VFS s').
Proof.
  induction 1 as [s|s s1 s2 Hstep _ IH]; [done|]. intros Hok. apply IH. destruct Hstep as
    [path Hv|path c Hv|path off buf Hv|path|req payload| | |s2' Hmax Hd].
  - by apply mkdir_keeps.
  - by apply write_keeps.
  - by apply write_chunk_keeps.
  - by apply remove_keeps.
  - by apply dispatch_keeps.
  - by apply seed_keeps.
  - by apply init_keeps.
  - destruct (load_from_disk elf s2') as [r s3] eqn:E.
    by pose proof (wp_run _ _ _ _ _ (load_saved elf s s2' Hok Hmax Hd) E) as [_ [? _]].
Qed.


(** C5: What was saved is loaded again: on a drive that stores sectors, loading
    after a save of a well-formed tree of at most 10 MiB succeeds, and every path
    but the seeded ones reads as it did, except that [/proc] and [/dev] and
    everything below a directory called [proc] or [dev], wherever it is, is gone. *)
Theorem tree_survives_reboot {D} `{!Drive D, !StorageLaws D} elf (s s2 : Fs D) :
  tree_ok (VFS s) → (Z.of_nat (length (serialize (VFS s))) ≤ MAX_IMAGE)%Z →
  DATA_DRIVE s2 = DATA_DRIVE (sync_to_disk s).2 →
  ∃ s3, load_from_disk elf s2 = (Ok tt, s3) ∧ tree_ok (VFS s3) ∧
    ∀ q, not_seeded q → ns (VFS s3) q = if is_saved q then ns (VFS s) q else None.
Proof.
  intros Hok Hmax Hd. destruct (load_from_disk elf s2) as [r s3] eqn:E.
  pose proof (wp_run _ _ _ _ _ (load_saved elf s s2 Hok Hmax Hd) E) as [-> (Hok' & Hns & _)].
  exists s3. split_and!; [done..|]. intros q Hq. rewrite Hns by done. by apply ns_saved_root.
Qed.

(** Parsing an image terminates: for any bytes, from any offset, the recursion
    ends within one level per byte of the image, with a node, without one, or in
    the panic of a slice out of range. *)
Theorem image_parsing_terminates data off :
  (∃ d, (deserialize data off).1 = Ok d) ∨ (deserialize data off).1 = Err NoNode ∨
  (deserialize data off).1 = Panic.
Proof.
  pose proof (deserialize_terminates data off) as H.
  destruct (deserialize data off).1 as [d|[]|]; eauto. done.
Qed.

(** Two hazards of the service protocol: opening an existing file with
    [O_CREAT] erases it, whether or not [O_TRUNC] is asked for; and the requests
    built for a handle carry no path, so that every read by handle answers
    [ENOENT] and every write by handle [EIO], and nothing changes. *)
Theorem service_request_hazards {D} `{!Drive D} (s : Fs D) path ps n c flags mode :
  tree_ok (VFS s) → utf8_valid path = true → components path = ps ++ [n] →
  length path ≤ MAX_FS_PATH_LEN → generate_procfs_content (view s) path = None →
  Z.land flags O_CREAT ≠ 0%Z → ns (VFS s) ps = Some EDir → ns (VFS s) (ps ++ [n]) = Some (EFile c) →
  ns (VFS (dispatch_fs_request (new_open path flags mode) None s).2) (ps ++ [n]) = Some (EFile []) ∧
  ∀ h off len payload,
    dispatch_fs_request (new_read h off len) payload s = (Ok (fs_err ENOENT, []), s) ∧
    dispatch_fs_request (new_write h off len) payload s = (Ok (fs_err EIO, []), s).
Proof.
  intros Hok Hv Hc Hl Hp Hf Hps Hn. split.
  - pose proof (write_edits s path ps n [] Hok Hv Hc) as He.
    unfold write_spec in He. rewrite in_parent_found, Hn in He by done.
    destruct He as (r & s' & Hw & _ & Hns & _).
    assert (ns (VFS s') (ps ++ [n]) = Some (EFile [])) as Hns' by (rewrite Hns; unfold at_path; by rewrite decide_True).
    unfold dispatch_fs_request, new_open. change (fs_opcode _) with FS_OP_OPEN. rewrite Z.eqb_refl.
    unfold serve_open. rewrite path_str_set_path by done. change (fs_flags _) with flags.
    rewrite (proj2 (Z.eqb_neq _ 0)) by done. cbn [negb].
    destruct (ignore (E := string) (write_file_bytes path []) s) as [r2 s2] eqn:Ei.
    assert (s2 = s') as ->.
    { unfold ignore, attempt, mbind, comp_bind in Ei. rewrite Hw in Ei. by destruct r as [[]|?|]; injection Ei. }
    unfold mbind at 1, comp_bind at 1. rewrite Ei. destruct r2 as [[]|?|]; [|done..].
    destruct (read_spec_any path s') as (r3 & Hr & _). unfold attempt, mbind, comp_bind. rewrite Hr.
    by destruct r3.
  - intros h off len payload. split; by destruct s.
Qed.

(** ** Witnesses *)

(** [/home/a] and [/home/proc/x] on an empty drive. *)
Definition sample_tree : FsNode :=
  Directory ROOT_MOUNT [Directory (str "home")
    [File (str "a") (str "hi"); Directory (str "proc") [File (str "x") (str "lost")]]].
Definition sample : Fs (gmap Z bytes) := mkFs sample_tree [] ∅ (mkView None 0 uninit).
Definition restarted : Fs (gmap Z bytes) :=
  mkFs empty_root [] (DATA_DRIVE (sync_to_disk sample).2) (mkView None 0 uninit).

Lemma sample_tree_ok : tree_ok sample_tree.
Proof. split; [|done]. apply node_okb_sound. by vm_compute. Qed.

Definition sample_run : Fs (gmap Z bytes) :=
  (write_file_chunk (str "/home/b") 2 (str "xyz") (mkdir (str "/home/d") sample).2).2.

(** Two operations, and a restart. *)
Lemma tree_stays_well_formed_witness :
  rtc (fs_step []) sample sample_run ∧ tree_ok (VFS sample_run).
Proof.
  assert (rtc (fs_step []) sample sample_run) as H.
  { eapply rtc_l; [by apply (step_mkdir [] sample (str "/home/d"))|].
    eapply rtc_l; [by apply (step_write_chunk [] _ (str "/home/b") 2 (str "xyz"))|]. apply rtc_refl. }
  split; [exact H|]. exact (tree_stays_well_formed [] _ _ H sample_tree_ok).
Defined.


(** The file below [/home/proc] is lost, its neighbour is not. *)
Lemma tree_survives_reboot_witness :
  ∃ s3, load_from_disk [] restarted = (Ok tt, s3) ∧
    ns (VFS s3) [str "home"; str "a"] = Some (EFile (str "hi")) ∧
    ns sample_tree [str "home"; str "proc"; str "x"] = Some (EFile (str "lost")) ∧
    ns (VFS s3) [str "home"; str "proc"; str "x"] = None.
Proof.
  destruct (tree_survives_reboot [] sample restarted) as (s3 & Hload & _ & Hns);
    [exact sample_tree_ok|by vm_compute|done|].
  exists s3. split; [exact Hload|]. split; [|split; [done|]].
  - rewrite Hns by (apply (bool_decide_unpack _); vm_compute; exact I). done.
  - rewrite Hns by (apply (bool_decide_unpack _); vm_compute; exact I). done.
Defined.

Lemma service_request_hazards_witness :
  ns (VFS (dispatch_fs_request (new_open (str "/home/a") O_CREAT 0) None sample).2) [str "home"; str "a"]
    = Some (EFile []) ∧
  dispatch_fs_request (new_read 1 0 2) None sample = (Ok (fs_err ENOENT, []), sample).
Proof.
  destruct (service_request_hazards sample (str "/home/a") [str "home"] (str "a") (str "hi") O_CREAT 0) as [H1 H2];
    [exact sample_tree_ok|done|done|by apply (bool_decide_unpack _); vm_compute|done|done|done|done|].
  split; [exact H1|]. exact (proj1 (H2 1%Z 0%Z 2%Z None)).
Defined.

(** A truncated image panics. *)
Example truncated_image_panics : (deserialize (take 20 (serialize sample_tree)) 0).1 = Panic.
Proof. by vm_compute. Qed.
