(* ===== verification/FdProps.v ===== *)
(** * Properties of file descriptors

    What is written through a descriptor is read back through it, and the two
    ways in which an offset chosen by a user stops the kernel. *)
From S2P Require Import Prelude Bytes Text Disk AddrSpace ProcFs Vfs VfsTree VfsProps FdTable.

#[local] Arguments overwrite : simpl never.

Lemma zoom_run {S T E A} (proj : S → T) (inj : T → S → S) (m : comp T E A) s r t :
  m (proj s) = (r, t) → zoom proj inj m s = (r, inj t s).
Proof. unfold zoom. by intros ->. Qed.

(** A postcondition on the answer only is that of the last step. *)
Lemma wp_answer {S A B} (m : comp S string A) (k : A → comp S string B) (Q : outcome string B → Prop) s :
  (∀ e, Q (Err e)) → Q Panic → (∀ a s', wp (k a) (λ r _, Q r) s') → wp (m ≫= k) (λ r _, Q r) s.
Proof. intros He Hp Hk. apply wp_bind, wp_intro. destruct (m s) as [[a|e|] s']; [apply Hk|apply He|apply Hp]. Qed.

Section descriptors.
Context {D : Type} `{!Drive D}.
Implicit Types s : Storage D.

(** A file-system call that changes nothing. *)
Lemma on_fs_same {A} (m : comp (Fs D) string A) s r : m (files s) = (r, files s) → on_fs m s = (r, s).
Proof. intros Hm. unfold on_fs. rewrite (zoom_run _ _ _ _ _ _ Hm). by destruct s. Qed.

(** Descriptor [fd] is open on [ps ++ [n]], an ordinary path: not generated and
    not a built-in program. *)
Record open_on s (fd : Z) (d : FileDescriptor) (ps : list bytes) (n : bytes) : Prop := {
  open_desc : fds s !! Z.to_nat fd = Some (Some d);
  open_utf8 : utf8_valid (fd_path d) = true;
  open_path : components (fd_path d) = ps ++ [n];
  open_procfs : generate_procfs_content (view (files s)) (fd_path d) = None;
  open_seeded : existsb (λ e, bool_decide (e.1 = fd_path d)) (BLOB_STORE (files s)) = false;
}.

(** The same descriptor at another offset, over another tree. *)
Definition moved (o : Z) (fd : Z) (d : FileDescriptor) (f : Fs D) s : Storage D :=
  mkStorage f (<[Z.to_nat fd := Some (set_offset o d)]> (fds s)).

Lemma moved_open s fd d ps n o f : open_on s fd d ps n →
  view f = view (files s) → BLOB_STORE f = BLOB_STORE (files s) →
  open_on (moved o fd d f s) fd (set_offset o d) ps n.
Proof.
  intros [H1 H2 H3 H4 H5] Hv Hb. split; cbn; [|done..|by rewrite Hv|by rewrite Hb].
  rewrite list_lookup_insert_eq; [done|]. by eapply lookup_lt_Some.
Qed.

Lemma descriptor_run s fd d ps n : open_on s fd d ps n → descriptor fd s = (Ok d, s).
Proof. intros [H _ _ _ _]. unfold descriptor. erewrite bind_ok by reflexivity. by rewrite H. Qed.

Lemma seeded_run s fd d ps n : open_on s fd d ps n →
  on_fs (is_seeded_binary (fd_path d)) s = (Ok false, s).
Proof.
  intros H. apply on_fs_same.
  unfold is_seeded_binary. erewrite bind_ok by reflexivity. by rewrite (open_seeded _ _ _ _ _ H).
Qed.

Lemma tree_file_content (f : Fs D) path msg ps n c : tree_ok (VFS f) → components path = ps ++ [n] →
  ns (VFS f) (ps ++ [n]) = Some (EFile c) → tree_file path msg f = (Ok c, f).
Proof.
  intros Hok Hc Hn. destruct (parent_cases _ _ _ _ Hok Hc) as (parent & Hl & Hcase).
  unfold tree_file. rewrite Hl. erewrite bind_ok by reflexivity. cbv beta iota.
  erewrite bind_ok by reflexivity. unfold find_dir_ro.
  destruct Hcase as [[Hno _]|(ch & back & _ & Hf & _ & He)].
  - by apply ns_parent in Hn.
  - rewrite Hf. erewrite bind_ok by reflexivity. rewrite He in Hn. unfold child in Hn. cbn [fst].
    by destruct (first_child (named n) ch) as [[i [m x|m kids|m]]|]; simplify_eq/=.
Qed.

(** Seeking in an existing file. *)
Lemma lseek_run s fd d ps n c offset whence o : open_on s fd d ps n → tree_ok (VFS (files s)) →
  ns (VFS (files s)) (ps ++ [n]) = Some (EFile c) →
  (whence = SEEK_SET ∧ o = Some offset) ∨
  (whence = SEEK_CUR ∧ o = signed_add (to_signed 64 (fd_offset d)) offset) ∨
  (whence = SEEK_END ∧ o = signed_add (Z.of_nat (length c)) offset) →
  fd_lseek fd offset whence s =
    match o with
    | Some o => if (o <? 0)%Z then (Err "Invalid offset"%string, s) else (Ok o, moved o fd d (files s) s)
    | None => (Panic, s)
    end.
Proof.
  intros H Hok Hn Hw. unfold fd_lseek.
  erewrite bind_ok by (by eapply descriptor_run). erewrite bind_ok by (by eapply seeded_run).
  cbv beta iota.
  assert (on_fs (get_file_size (fd_path d)) s = (Ok (length c), s)) as Hs.
  { eapply on_fs_same. unfold get_file_size.
    erewrite bind_ok by (by rewrite (not_root _ _ _ (open_path _ _ _ _ _ H))).
    erewrite bind_ok by reflexivity. rewrite (open_procfs _ _ _ _ _ H).
    by erewrite bind_ok by (eapply tree_file_content; [done|eapply open_path; done|done]). }
  erewrite bind_ok by exact Hs.
  destruct Hw as [[-> ->]|[[-> Ho]|[-> Ho]]]; cbn [Z.eqb SEEK_SET SEEK_CUR SEEK_END Pos.eqb]; cbv iota.
  - erewrite bind_ok by reflexivity. by destruct (offset <? 0)%Z.
  - rewrite <-Ho. destruct o as [o|]; [|done]. erewrite bind_ok by reflexivity. by destruct (o <? 0)%Z.
  - rewrite <-Ho. destruct o as [o|]; [|done]. erewrite bind_ok by reflexivity. by destruct (o <? 0)%Z.
Qed.

(** Reading an existing file. *)
Lemma fd_read_run s fd d ps n c room o : open_on s fd d ps n → tree_ok (VFS (files s)) →
  ns (VFS (files s)) (ps ++ [n]) = Some (EFile c) → Z.land (fd_flags d) O_RDWR ≠ 0%Z →
  fits 64 (fd_offset d + Z.of_nat (length (chunk_at c (fd_offset d) room))) = Some o →
  fd_read fd room s = (Ok (chunk_at c (fd_offset d) room), moved o fd d (files s) s).
Proof.
  intros H Hok Hn Hf Ho. unfold fd_read. erewrite bind_ok by (by eapply descriptor_run).
  rewrite (proj2 (Z.eqb_neq _ 0) Hf), andb_false_r. erewrite bind_ok by reflexivity.
  erewrite bind_ok by (by eapply seeded_run). cbv beta iota.
  assert (on_fs (read_file_chunk (fd_path d) (fd_offset d) room) s = (Ok (chunk_at c (fd_offset d) room), s)) as Hs.
  { eapply on_fs_same. unfold read_file_chunk.
    erewrite bind_ok by (by rewrite (not_root _ _ _ (open_path _ _ _ _ _ H))).
    erewrite bind_ok by reflexivity. rewrite (open_procfs _ _ _ _ _ H).
    by erewrite bind_ok by (eapply tree_file_content; [done|eapply open_path; done|done]). }
  erewrite bind_ok by exact Hs. rewrite Ho. by erewrite bind_ok by reflexivity.
Qed.

(** What is overwritten is found at its offset. *)
Lemma overwrite_chunk c0 off buf c : (0 ≤ off)%Z → overwrite c0 off buf = Some c →
  chunk_at c off (length buf) = buf ∧ (off + Z.of_nat (length buf) < 2 ^ 64)%Z.
Proof.
  intros H0. unfold overwrite. destruct (fits 64 _) as [e|] eqn:E; [|done].
  apply fits_Some in E as [-> Hr]. cbn [mbind option_bind].
  assert (∀ base, Z.to_nat off + length buf ≤ length base →
    chunk_at (splice (Z.to_nat off) buf base) off (length buf) = buf) as Hchunk.
  { intros base Hb. unfold chunk_at. rewrite length_splice by done.
    destruct (Z.of_nat (length base) <=? off)%Z eqn:El.
    - destruct buf; [done|]. exfalso. reflect. cbn in Hb. lia.
    - replace (length buf `min` _)%nat with (length buf) by lia. unfold splice.
      rewrite drop_app_length' by (rewrite length_take; lia). by rewrite take_app_length. }
  destruct (_ <? _)%Z eqn:El.
  - destruct (fits 63 _) as [e|] eqn:E2; [|done]. apply fits_Some in E2 as [-> _].
    intros [= <-]. split; [|lia]. apply Hchunk. rewrite length_app, length_replicate. lia.
  - intros [= <-]. split; [|lia]. apply Hchunk. reflect. lia.
Qed.

(** A write reports the length of the buffer. *)
Lemma write_chunk_count (f : Fs D) path off buf k f' : write_file_chunk path off buf f = (Ok k, f') → k = length buf.
Proof.
  unfold write_file_chunk. intros H. revert k f' H.
  enough (wp (write_file_chunk path off buf) (λ r _, ∀ k, r = Ok k → k = length buf) f) as Hwp.
  { intros k f' H. by eapply (wp_run _ _ _ _ _ Hwp H). }
  unfold write_file_chunk. repeat (apply wp_answer; [done..|]; intros [] ? || intros ? ?).
  all: wp_step; by intros ? [= <-].
Qed.

(** Writing where the chunk fits. *)
Lemma fd_write_run s fd d ps n c0 c buf : open_on s fd d ps n → tree_ok (VFS (files s)) →
  Z.land (fd_flags d) O_RDWR ≠ 0%Z → (0 ≤ fd_offset d)%Z →
  chunk_base (ns (VFS (files s))) ps n = inr c0 → overwrite c0 (fd_offset d) buf = Some c →
  ∃ r f', tree_ok (VFS f') ∧ ns (VFS f') (ps ++ [n]) = Some (EFile c) ∧
    view f' = view (files s) ∧ BLOB_STORE f' = BLOB_STORE (files s) ∧
    ((r = Ok (length buf) ∧
      fd_write fd buf s = (r, moved (fd_offset d + Z.of_nat (length buf)) fd d f' s)) ∨
     (¬ image_fits (VFS f') ∧ fd_write fd buf s = (r, mkStorage f' (fds s)))).
Proof.
  intros H Hok Hf H0 Hb Hc.
  pose proof (write_chunk_edits (files s) (fd_path d) ps n (fd_offset d) buf Hok
    (open_utf8 _ _ _ _ _ H) (open_path _ _ _ _ _ H)) as He.
  rewrite Hb, Hc in He. destruct He as (r & f' & Hw & Hok' & Hns & Hblob & Hview & Hfits).
  pose proof (overwrite_chunk _ _ _ _ H0 Hc) as [_ Hend].
  unfold fd_write. erewrite bind_ok by (by eapply descriptor_run).
  rewrite (proj2 (Z.eqb_neq (Z.land (fd_flags d) O_RDWR) 0) Hf), andb_false_r.
  erewrite bind_ok by reflexivity.
  assert (ns (VFS f') (ps ++ [n]) = Some (EFile c)) as Hn by (rewrite Hns; unfold at_path; by rewrite decide_True).
  unfold mbind at 1, comp_bind at 1 in Hw.
  destruct (write_file_chunk (fd_path d) (fd_offset d) buf (files s)) as [[k|e|] f2] eqn:Ew;
    cbn in Hw; injection Hw as <- <-.
  - exists (Ok (length buf)), f2. split_and!; [done..|]. left. split; [done|].
    assert (k = length buf) as -> by (by eapply write_chunk_count).
    erewrite bind_ok by (by apply zoom_run). rewrite (proj2 (fits_Some _ _ _)) by (split; [done|lia]).
    by erewrite bind_ok by reflexivity.
  - exists (Err e), f2. split_and!; [done..|]. right. split; [by intros ?%Hfits|].
    by erewrite bind_err by (by apply zoom_run).
  - exists Panic, f2. split_and!; [done..|]. right. split; [by intros ?%Hfits|].
    by erewrite bind_panic by (by apply zoom_run).
Qed.
End descriptors.

(** What a process writes through a descriptor it reads back through it: after a
    write at the descriptor's offset, seeking back to that offset and reading as
    many bytes returns exactly the bytes written, whether the file existed, was
    overwritten in the middle, extended, or had to be filled with zeros first. *)
Theorem written_chunk_reads_back {D} `{!Drive D} (s : Storage D) fd d ps n c0 c buf :
  open_on s fd d ps n → tree_ok (VFS (files s)) → Z.land (fd_flags d) O_RDWR ≠ 0%Z →
  (0 ≤ fd_offset d < 2 ^ 63)%Z →
  chunk_base (ns (VFS (files s))) ps n = inr c0 → overwrite c0 (fd_offset d) buf = Some c →
  ∃ r s1, fd_write fd buf s = (r, s1) ∧
    (image_fits (VFS (files s1)) → r = Ok (length buf) ∧
     ∃ s2 s3, fd_lseek fd (fd_offset d) SEEK_SET s1 = (Ok (fd_offset d), s2) ∧
       fd_read fd (length buf) s2 = (Ok buf, s3) ∧ files s3 = files s1).
Proof.
  intros H Hok Hf H0 Hb Hc. pose proof (overwrite_chunk _ _ _ _ (proj1 H0) Hc) as [Hchunk Hend].
  destruct (fd_write_run s fd d ps n c0 c buf) as (r & f' & Hok' & Hn & Hv & Hbl & [[-> Hw]|[Hno Hw]]); [done..|lia|done|done| |].
  - exists (Ok (length buf)). eexists. split; [exact Hw|]. intros _. split; [done|].
    pose proof (moved_open _ _ _ _ _ (fd_offset d + Z.of_nat (length buf)) f' H Hv Hbl) as H1.
    eexists. eexists. split; [|split].
    + rewrite (lseek_run _ _ _ _ _ c _ _ (Some (fd_offset d)) H1 Hok' Hn) by (left; done).
      rewrite (proj2 (Z.ltb_ge (fd_offset d) 0)) by lia. reflexivity.
    + pose proof (moved_open _ _ _ _ _ (fd_offset d) _ H1 eq_refl eq_refl) as H2.
      erewrite (fd_read_run _ _ _ _ _ c (length buf) _ H2 Hok' Hn);
        [cbn [fd_offset set_offset]; rewrite Hchunk; reflexivity|done|].
      cbn [fd_offset set_offset]. rewrite Hchunk. apply fits_Some. split; [reflexivity|lia].
    + done.
  - exists r. eexists. split; [exact Hw|]. by intros.
Qed.

(** Offsets are trusted: a process that may use a descriptor of an existing file
    can move it to the largest offset, after which seeking forward by one and
    writing even one byte both stop the kernel. *)
Theorem user_offsets_can_panic {D} `{!Drive D} (s : Storage D) fd d ps n c buf :
  open_on s fd d ps n → tree_ok (VFS (files s)) → Z.land (fd_flags d) O_RDWR ≠ 0%Z →
  ns (VFS (files s)) (ps ++ [n]) = Some (EFile c) → (Z.of_nat (length c) < 2 ^ 63)%Z → buf ≠ [] →
  ∃ s1, fd_lseek fd (2 ^ 63 - 1) SEEK_SET s = (Ok (2 ^ 63 - 1)%Z, s1) ∧
    fd_lseek fd 1 SEEK_CUR s1 = (Panic, s1) ∧
    fd_write fd buf s1 = (Panic, s1).
Proof.
  intros H Hok Hf Hn Hlen Hbuf. eexists. split; [|split].
  - rewrite (lseek_run _ _ _ _ _ c _ _ (Some (2 ^ 63 - 1)%Z) H Hok Hn) by (left; done). reflexivity.
  - pose proof (moved_open _ _ _ _ _ (2 ^ 63 - 1) _ H eq_refl eq_refl) as H1.
    by rewrite (lseek_run _ _ _ _ _ c _ _ None H1 Hok Hn) by (right; left; done).
  - pose proof (moved_open _ _ _ _ _ (2 ^ 63 - 1) _ H eq_refl eq_refl) as H1.
    pose proof (write_chunk_edits (files s) (fd_path d) ps n (2 ^ 63 - 1) buf Hok
      (open_utf8 _ _ _ _ _ H) (open_path _ _ _ _ _ H)) as He.
    unfold chunk_base in He. rewrite in_parent_found, Hn in He by (by eapply ns_parent).
    replace (overwrite c (2 ^ 63 - 1) buf) with (@None bytes) in He.
    + unfold fd_write. erewrite bind_ok by (by eapply descriptor_run).
      rewrite (proj2 (Z.eqb_neq (Z.land (fd_flags _) O_RDWR) 0)) by done.
      rewrite andb_false_r. erewrite bind_ok by reflexivity.
      by erewrite bind_panic by (by apply on_fs_same).
    + unfold overwrite. destruct (fits 64 _) as [e|] eqn:E; [|done]. apply fits_Some in E as [-> _].
      cbn [mbind option_bind]. destruct buf as [|b buf]; [done|].
      rewrite (proj2 (Z.ltb_lt _ _)) by (cbn; lia). by rewrite (proj2 (fits_None _ _)) by (cbn; lia).
Qed.

(** ** Witnesses *)

(** A file opened for reading and writing, twelve bytes into it. *)
Definition sample_fd : FileDescriptor := mkFd 3 (str "/home/a") 12 O_RDWR 1.
Definition sample_storage : Storage (gmap Z bytes) :=
  mkStorage sample (<[3 := Some sample_fd]> fd_table_new).

Lemma sample_open : open_on sample_storage 3 sample_fd [str "home"] (str "a").
Proof. by split; vm_compute. Qed.

(** Three bytes ten past the end of a file of two bytes. *)
Lemma written_chunk_reads_back_witness :
  ∃ r s1, fd_write 3 (str "xyz") sample_storage = (r, s1) ∧
    (image_fits (VFS (files s1)) → r = Ok 3 ∧
     ∃ s2 s3, fd_lseek 3 12 SEEK_SET s1 = (Ok 12%Z, s2) ∧
       fd_read 3 3 s2 = (Ok (str "xyz"), s3) ∧ files s3 = files s1) ∧
  image_fits (VFS (files s1)).
Proof.
  destruct (written_chunk_reads_back sample_storage 3 sample_fd [str "home"] (str "a") (str "hi")
    (str "hi" ++ replicate 10 0%Z ++ str "xyz") (str "xyz") sample_open) as (r & s1 & Hw & H);
    [exact sample_tree_ok|done|done|done|done|].
  exists r, s1. split; [exact Hw|]. split; [exact H|].
  assert (s1 = (fd_write 3 (str "xyz") sample_storage).2) as -> by (by rewrite Hw).
  unfold image_fits. vm_compute. reflexivity.
Defined.

Lemma user_offsets_can_panic_witness :
  ∃ s1, fd_lseek 3 (2 ^ 63 - 1) SEEK_SET sample_storage = (Ok (2 ^ 63 - 1)%Z, s1) ∧
    fd_lseek 3 1 SEEK_CUR s1 = (Panic, s1) ∧ fd_write 3 [0%Z] s1 = (Panic, s1).
Proof.
  apply (user_offsets_can_panic sample_storage 3 sample_fd [str "home"] (str "a") (str "hi") [0%Z] sample_open);
    [exact sample_tree_ok|done..].
Defined.
