(* ===== verification/SecMem.v ===== *)
(** * User buffers of system calls (kernel/src/sec_mem.rs)

    A pointer from user space is used only after every page of the buffer was
    found accessible by walking the page tables.  The tables are read from
    physical memory, byte by byte, as the kernel reads them through its
    physical-memory window.  [UserSpace] is what the system calls need of this. *)
From S2P Require Import Prelude Bytes AddrSpace.

(** ** Physical memory and page tables *)

(** The bytes of physical memory; what was never written is zero. *)
Abbreviation phys_mem := (gmap Z Z).
Definition load8 (m : phys_mem) (a : Z) : Z := default 0%Z (m !! a).
Definition load64 (m : phys_mem) (a : Z) : Z := from_le (map (λ i, load8 m (a + Z.of_nat i)) (seq 0 8)).

(** [PageTableFlags] *)
Definition PRESENT : Z := 1.
Definition WRITABLE : Z := 2.
Definition USER_ACCESSIBLE : Z := 4.
Definition HUGE_PAGE : Z := 128.
Definition has (e flags : Z) : bool := (Z.land e flags =? flags)%Z.

(** [entry.addr()]: bits 12 to 51. *)
Definition entry_addr (e : Z) : Z := Z.land e 0x000ffffffffff000.
(** [page.p4_index()] and so on: nine bits from bit 39, 30, 21, 12. *)
Definition page_index (shift v : Z) : Z := Z.land (Z.shiftr v shift) 511.
Definition entry_at (m : phys_mem) (table idx : Z) : Z := load64 m (table + 8 * idx).

(** ** Validation *)

(** The effective flags of a page, as a page table entry —
    kernel/src/sec_mem.rs:40-70 [walk_page] *)
Definition walk_page (l4 : Z) (m : phys_mem) (page : Z) : option Z :=
  let p4 := entry_at m l4 (page_index 39 page) in
  if negb (has p4 (Z.lor PRESENT USER_ACCESSIBLE)) then None else
  let p3e := entry_at m (entry_addr p4) (page_index 30 page) in
  if negb (has p3e (Z.lor PRESENT USER_ACCESSIBLE)) || has p3e HUGE_PAGE then None else
  let p2e := entry_at m (entry_addr p3e) (page_index 21 page) in
  if negb (has p2e (Z.lor PRESENT USER_ACCESSIBLE)) || has p2e HUGE_PAGE then None else
  let p1e := entry_at m (entry_addr p2e) (page_index 12 page) in
  if negb (has p1e PRESENT) then None else
  Some (if negb (has p4 WRITABLE) || negb (has p3e WRITABLE) || negb (has p2e WRITABLE)
        then Z.ldiff p1e WRITABLE else p1e).

(** kernel/src/sec_mem.rs:73-77 [page_is_user_accessible] *)
Definition page_is_user_accessible (l4 : Z) (m : phys_mem) (page : Z) : bool :=
  match walk_page l4 m page with Some f => has f USER_ACCESSIBLE | None => false end.
(** kernel/src/sec_mem.rs:80-86 [page_is_user_writable] *)
Definition page_is_user_writable (l4 : Z) (m : phys_mem) (page : Z) : bool :=
  match walk_page l4 m page with Some f => has f WRITABLE && has f USER_ACCESSIBLE | None => false end.

(** [Page::range_inclusive] of the pages of the first and the last byte. *)
Definition pages_of (ptr len : Z) : list Z :=
  let first := (ptr / 4096)%Z in
  let last := ((ptr + len - 1) / 4096)%Z in
  map (λ i, (first + Z.of_nat i) * 4096)%Z (seq 0 (Z.to_nat (last - first + 1))).

(** kernel/src/sec_mem.rs:92-119 [check_user_range] *)
Definition check_user_range (l4 : Z) (m : phys_mem) (ptr len : Z) : string + unit :=
  if (ptr =? 0)%Z then inl "null pointer"%string
  else if ((ptr <? USER_ADDR_BASE) || (USER_ADDR_LIMIT <=? ptr))%Z then inl "address outside user space"%string
  else match fits 64 (ptr + len) with
  | None => inl "address range overflow"%string
  | Some end_ =>
      if (USER_ADDR_LIMIT <? end_)%Z then inl "address range outside user space"%string
      else if forallb (page_is_user_accessible l4 m) (pages_of ptr len) then inr tt
      else inl "page not user-accessible"%string
  end.

(** The slice is the address and the length —
    kernel/src/sec_mem.rs:130-136 [validate_user_ptr] *)
Definition validate_user_ptr (l4 : Z) (m : phys_mem) (buf_ptr len : Z) : string + (Z * Z) :=
  if (len =? 0)%Z then inr (buf_ptr, 0%Z)
  else match check_user_range l4 m buf_ptr len with
       | inl e => inl e
       | inr _ => inr (buf_ptr, len)
       end.

(** kernel/src/sec_mem.rs:142-155 [validate_user_ptr_mut] *)
Definition validate_user_ptr_mut (l4 : Z) (m : phys_mem) (buf_ptr len : Z) : string + (Z * Z) :=
  if (len =? 0)%Z then inr (buf_ptr, 0%Z)
  else match check_user_range l4 m buf_ptr len with
       | inl e => inl e
       | inr _ =>
           if forallb (page_is_user_writable l4 m) (pages_of buf_ptr len) then inr (buf_ptr, len)
           else inl "page not user-writable"%string
       end.

(** ** What the processor does *)

(** The translation of a user-mode access, by the levels of the table: every
    level must be present, for users, and for a write writable; bit 7 ends the
    walk early at the second and the third level.  [None] is a page fault. *)
Fixpoint mmu_walk (write : bool) (m : phys_mem) (v : Z) (shifts : list Z) (table : Z) : option Z :=
  match shifts with
  | [] => None
  | shift :: shifts =>
      let e := entry_at m table (page_index shift v) in
      if has e PRESENT && has e USER_ACCESSIBLE && (negb write || has e WRITABLE) then
        match shifts with
        | [] => Some (entry_addr e + v mod 4096)%Z
        | _ =>
            if (shift <? 39)%Z && has e HUGE_PAGE then Some (entry_addr e - entry_addr e mod 2 ^ shift + v mod 2 ^ shift)%Z
            else mmu_walk write m v shifts (entry_addr e)
        end
      else None
  end.
Definition mmu_translate (write : bool) (l4 : Z) (m : phys_mem) (v : Z) : option Z :=
  mmu_walk write m v [39; 30; 21; 12]%Z l4.

(** ** The interface for the system calls *)

(** [user_bytes p n] is the content of a buffer the caller may read;
    [user_store p n] writes to the front of one it may write. *)
Class UserSpace (U : Type) := {
  user_bytes : Z → Z → U → option bytes;
  user_store : Z → Z → U → option (bytes → U);
}.
Class UserSpaceLaws (U : Type) `{!UserSpace U} := {
  user_bytes_length p n u b : (0 ≤ n)%Z → user_bytes p n u = Some b → Z.of_nat (length b) = n;
  user_bytes_empty p u : user_bytes p 0 u = Some [];
}.

(** An address space: the root of its tables and physical memory. *)
Record AddressSpace := mkSpace { space_l4 : Z; space_mem : phys_mem }.

Definition load_user (s : AddressSpace) (v : Z) : Z :=
  match mmu_translate false (space_l4 s) (space_mem s) v with Some a => load8 (space_mem s) a | None => 0%Z end.
(** The bytes that are stored one after the other, by the tables as they are at the start. *)
Fixpoint store_user (s : AddressSpace) (v : Z) (bs : bytes) (m : phys_mem) : phys_mem :=
  match bs with
  | [] => m
  | b :: bs =>
      store_user s (v + 1) bs
        (match mmu_translate true (space_l4 s) (space_mem s) v with Some a => <[a := b]> m | None => m end)
  end.

#[export] Instance address_space_user : UserSpace AddressSpace := {|
  user_bytes p n s :=
    match validate_user_ptr (space_l4 s) (space_mem s) p n with
    | inr (p, n) => Some (map (λ i, load_user s (p + Z.of_nat i)) (seq 0 (Z.to_nat n)))
    | inl _ => None
    end;
  user_store p n s :=
    match validate_user_ptr_mut (space_l4 s) (space_mem s) p n with
    | inr (p, n) => Some (λ bs, mkSpace (space_l4 s) (store_user s p (take (Z.to_nat n) bs) (space_mem s)))
    | inl _ => None
    end;
|}.

#[export] Instance address_space_laws : UserSpaceLaws AddressSpace.
Proof.
  split.
  - intros p n s b Hn. cbn. unfold validate_user_ptr. destruct (n =? 0)%Z eqn:E.
    + intros [= <-]. reflect. cbn. lia.
    + destruct (check_user_range _ _ _ _); [done|]. intros [= <-]. rewrite length_map, length_seq. lia.
  - done.
Qed.

(** ** Facts *)

Lemma has_lor e a b : has e (Z.lor a b) = true → has e a = true ∧ has e b = true.
Proof.
  unfold has. rewrite !Z.eqb_eq. intros H. split; apply Z.bits_inj'; intros n Hn;
    apply (f_equal (λ z, Z.testbit z n)) in H; rewrite Z.land_spec in *; rewrite Z.lor_spec in H;
    destruct (Z.testbit e n), (Z.testbit a n), (Z.testbit b n); done.
Qed.

Lemma has_ldiff e a b : has (Z.ldiff e b) a = true → has e a = true.
Proof.
  unfold has. rewrite !Z.eqb_eq. intros H. apply Z.bits_inj'; intros n Hn;
    apply (f_equal (λ z, Z.testbit z n)) in H; rewrite Z.land_spec in *; rewrite Z.ldiff_spec in H;
    destruct (Z.testbit e n), (Z.testbit a n), (Z.testbit b n); done.
Qed.

Lemma writable_removed e : has (Z.ldiff e WRITABLE) WRITABLE = false.
Proof.
  unfold has. apply Z.eqb_neq. intros H. apply (f_equal (λ z, Z.testbit z 1)) in H.
  rewrite Z.land_spec, Z.ldiff_spec in H. change (Z.testbit WRITABLE 1) with true in H.
  by destruct (Z.testbit e 1).
Qed.

(** A page has the table indices of every address in it. *)
Lemma page_index_page shift v : (12 ≤ shift)%Z → page_index shift (v / 4096 * 4096) = page_index shift v.
Proof.
  intros Hs. unfold page_index. f_equal. rewrite !Z.shiftr_div_pow2 by lia.
  replace (2 ^ shift)%Z with (4096 * 2 ^ (shift - 12))%Z
    by (change 4096%Z with (2 ^ 12)%Z; rewrite <-Z.pow_add_r by lia; f_equal; lia).
  rewrite <-!Z.div_div by lia. by rewrite Z.div_mul by lia.
Qed.

(** What the walk allows, the processor allows. *)
Lemma walk_page_mmu l4 m v f : walk_page l4 m (v / 4096 * 4096) = Some f → has f USER_ACCESSIBLE = true →
  is_Some (mmu_translate false l4 m v) ∧ (has f WRITABLE = true → is_Some (mmu_translate true l4 m v)).
Proof.
  unfold walk_page. rewrite !page_index_page by lia.
  unfold mmu_translate. cbn [mmu_walk].
  set (p4 := entry_at m l4 _). set (p3 := entry_at m (entry_addr p4) _).
  set (p2 := entry_at m (entry_addr p3) _). set (p1 := entry_at m (entry_addr p2) _).
  destruct (negb (has p4 _)) eqn:E4; [done|]. destruct (negb (has p3 _) || _) eqn:E3; [done|].
  destruct (negb (has p2 _) || _) eqn:E2; [done|]. destruct (negb (has p1 _)) eqn:E1; [done|].
  apply negb_false_iff in E4, E1. apply orb_false_iff in E3 as [E3%negb_false_iff H3].
  apply orb_false_iff in E2 as [E2%negb_false_iff H2].
  apply has_lor in E4 as [P4 U4], E3 as [P3 U3], E2 as [P2 U2].
  intros Hf Hu. rewrite P4, U4, P3, U3, P2, U2, E1, H3, H2.
  destruct (negb (has p4 WRITABLE) || _ || _) eqn:Ew; injection Hf as <-.
  - apply has_ldiff in Hu. rewrite Hu. split; [done|]. by rewrite writable_removed.
  - rewrite Hu. split; [done|]. intros ->. reflect. by rewrite H, H1, H0.
Qed.

Lemma pages_of_elem ptr len v : (ptr ≤ v < ptr + len)%Z → (v / 4096 * 4096)%Z ∈ pages_of ptr len.
Proof.
  intros Hv. unfold pages_of. apply list_elem_of_fmap.
  assert (ptr / 4096 ≤ v / 4096)%Z by (apply Z.div_le_mono; lia).
  assert (v / 4096 ≤ (ptr + len - 1) / 4096)%Z by (apply Z.div_le_mono; lia).
  exists (Z.to_nat (v / 4096 - ptr / 4096)). split; [f_equal; lia|]. apply elem_of_seq. lia.
Qed.

Lemma forallb_elem {A} (p : A → bool) l x : forallb p l = true → x ∈ l → p x = true.
Proof. rewrite forallb_forall. intros H Hx. apply H. by apply list_elem_of_In. Qed.

Lemma check_user_range_ok l4 m ptr len : check_user_range l4 m ptr len = inr tt →
  (USER_ADDR_BASE ≤ ptr ∧ ptr + len ≤ USER_ADDR_LIMIT)%Z ∧
  forallb (page_is_user_accessible l4 m) (pages_of ptr len) = true.
Proof.
  unfold check_user_range. destruct (ptr =? 0)%Z; [done|].
  destruct (orb _ _) eqn:Er; [done|]. destruct (fits 64 _) as [e|] eqn:Ef; [|done].
  apply fits_Some in Ef as [-> _]. destruct (USER_ADDR_LIMIT <? _)%Z eqn:El; [done|].
  destruct (forallb _ _); [|done]. intros _. reflect. done.
Qed.

(** C10: A buffer that a system call accepts is memory of the caller: it lies between
    1 GiB and 2 GiB, below every kernel address, and the processor itself, walking
    the same page tables in user mode, would let the caller read each byte of it,
    and write each byte of a buffer accepted for writing. *)
Theorem validated_buffers_are_user_memory (l4 : Z) (m : phys_mem) (ptr len v : Z) :
  (ptr ≤ v < ptr + len)%Z →
  (validate_user_ptr l4 m ptr len = inr (ptr, len) →
   (USER_ADDR_BASE ≤ v < USER_ADDR_LIMIT)%Z ∧ is_Some (mmu_translate false l4 m v)) ∧
  (validate_user_ptr_mut l4 m ptr len = inr (ptr, len) →
   (USER_ADDR_BASE ≤ v < USER_ADDR_LIMIT)%Z ∧ is_Some (mmu_translate false l4 m v) ∧
   is_Some (mmu_translate true l4 m v)).
Proof.
  intros Hv. pose proof (pages_of_elem ptr len v Hv) as Hin.
  unfold validate_user_ptr, validate_user_ptr_mut. rewrite (proj2 (Z.eqb_neq len 0)) by lia.
  destruct (check_user_range l4 m ptr len) as [e|[]] eqn:Ec; [done|].
  apply check_user_range_ok in Ec as [Hr Hacc]. pose proof (forallb_elem _ _ _ Hacc Hin) as Ha.
  unfold page_is_user_accessible in Ha. destruct (walk_page _ _ _) as [f|] eqn:Ew; [|done].
  pose proof (walk_page_mmu _ _ _ _ Ew Ha) as [Hread Hwrite]. split.
  - intros _. split; [lia|done].
  - destruct (forallb (page_is_user_writable l4 m) _) eqn:Eb; [|done]. intros _.
    pose proof (forallb_elem _ _ _ Eb Hin) as Hw. unfold page_is_user_writable in Hw.
    rewrite Ew in Hw. apply andb_true_iff in Hw as [Hw _]. split_and!; [lia..|done|by apply Hwrite].
Qed.

(** A process with one writable page at 1 GiB: tables at 4096, 8192, 12288, 16384,
    the page at 20480. *)
Definition store64 (a z : Z) (m : phys_mem) : phys_mem :=
  foldr (λ p m, <[(a + Z.of_nat p.1)%Z := p.2]> m) m (imap pair (to_le 8 z)).
Definition sample_space : phys_mem :=
  store64 4096 (8192 + 7) (store64 (8192 + 8) (12288 + 7) (store64 12288 (16384 + 7)
    (store64 16384 (20480 + 7) ∅))).

Lemma validated_buffers_are_user_memory_witness :
  validate_user_ptr_mut 4096 sample_space (USER_ADDR_BASE + 8) 16 = inr (USER_ADDR_BASE + 8, 16)%Z ∧
  is_Some (mmu_translate true 4096 sample_space (USER_ADDR_BASE + 9)) ∧
  validate_user_ptr 4096 sample_space (USER_ADDR_BASE + 4090) 16 = inl "page not user-accessible"%string.
Proof.
  assert (validate_user_ptr_mut 4096 sample_space (USER_ADDR_BASE + 8) 16 = inr (USER_ADDR_BASE + 8, 16)%Z) as H
    by (vm_compute; reflexivity).
  split; [exact H|]. split; [|vm_compute; reflexivity].
  destruct (validated_buffers_are_user_memory 4096 sample_space (USER_ADDR_BASE + 8) 16 (USER_ADDR_BASE + 9)) as [_ Hw].
  { unfold USER_ADDR_BASE. lia. }
  by destruct (Hw H) as (_ & _ & ?).
Defined.
