(* ===== verification/Elf.v ===== *)
(** * The ELF loader (kernel/src/elf.rs)

    Parsing of 64-bit little-endian executables into segments.  The header
    structures are read through raw pointers into the image; a read outside it is
    a [Panic] of the model, which [elf_images_are_confined] excludes.  The heap is a
    parameter: a reservation may fail. *)
From S2P Require Import Prelude Bytes.

(** kernel/src/elf.rs:4-20 [Elf64_Ehdr] *)
Record Elf64_Ehdr := mkEhdr {
  e_ident : bytes;
  e_type : Z;
  e_machine : Z;
  e_version : Z;
  e_entry : Z;
  e_phoff : Z;
  e_shoff : Z;
  e_flags : Z;
  e_ehsize : Z;
  e_phentsize : Z;
  e_phnum : Z;
  e_shentsize : Z;
  e_shnum : Z;
  e_shstrndx : Z;
}.

(** kernel/src/elf.rs:22-32 [Elf64_Phdr] *)
Record Elf64_Phdr := mkPhdr {
  p_type : Z;
  p_flags : Z;
  p_offset : Z;
  p_vaddr : Z;
  p_paddr : Z;
  p_filesz : Z;
  p_memsz : Z;
  p_align : Z;
}.

Definition EHDR_SIZE : nat := 64.
Definition PHDR_SIZE : nat := 56.

(** kernel/src/elf.rs:34-34 [PT_LOAD] *)
Definition PT_LOAD : Z := 1.
(** kernel/src/elf.rs:36-38 [PF_X] *)
Definition PF_X : Z := 1.
Definition PF_W : Z := 2.
Definition PF_R : Z := 4.
(** kernel/src/elf.rs:42-45 [USER_ADDR_MIN] *)
Definition USER_ADDR_MIN : Z := 0x40000000.
Definition USER_ADDR_MAX : Z := 0x70000000.
Definition MAX_IMAGE_BYTES : Z := 16 * 1024 * 1024.
Definition MAX_PROGRAM_HEADERS : Z := 128.

(** kernel/src/elf.rs:47-64 [ElfError] *)
Inductive ElfError :=
| FileTooSmall
| InvalidMagic
| Not64Bit
| NotLittleEndian
| NotExecutable
| InvalidMachine
| HeadersOutOfBounds
| SegmentOutOfBounds
| InvalidSegmentBounds
| KernelAddressViolation
| OverlappingSegments
| InvalidEntryPoint
| NoLoadableSegments
| ImageTooLarge
| OutOfMemory.

(** kernel/src/elf.rs:66-73 [LoadedSegment] *)
Record LoadedSegment := mkSegment {
  vaddr : Z;
  filesz : Z;
  memsz : Z;
  flags : Z;
  data : bytes;
}.

(** kernel/src/elf.rs:75-79 [ElfFile] *)
Record ElfFile := mkElf { entry_point : Z; segments : list LoadedSegment }.

(** The [n]-byte integer at [off] of a packed structure. *)
Definition le_field (off n : nat) (l : bytes) : Z := from_le (take n (drop off l)).

(** The structures at an address of the image: [None] is a read outside of it. *)
Definition ehdr_at (off : nat) (image : bytes) : option Elf64_Ehdr :=
  l ← slice off (off + EHDR_SIZE) image;
  Some (mkEhdr (take 16 l) (le_field 16 2 l) (le_field 18 2 l) (le_field 20 4 l) (le_field 24 8 l)
    (le_field 32 8 l) (le_field 40 8 l) (le_field 48 4 l) (le_field 52 2 l) (le_field 54 2 l)
    (le_field 56 2 l) (le_field 58 2 l) (le_field 60 2 l) (le_field 62 2 l)).
Definition phdr_at (off : nat) (image : bytes) : option Elf64_Phdr :=
  l ← slice off (off + PHDR_SIZE) image;
  Some (mkPhdr (le_field 0 4 l) (le_field 4 4 l) (le_field 8 8 l) (le_field 16 8 l)
    (le_field 24 8 l) (le_field 32 8 l) (le_field 40 8 l) (le_field 48 8 l)).

(** [a & !4095] *)
Definition page_down (a : Z) : Z := Z.land a (Z.lnot 4095).

(** The heap behind [try_reserve_exact]: whether there is room, and the heap
    afterwards. *)
Class Heap (A : Type) := try_reserve : Z → A → bool * A.

Section parse.
Context {A : Type} `{!Heap A}.
Abbreviation elf := (comp A ElfError).

Definition reserve (n : Z) : elf unit := λ a,
  match try_reserve n a with (true, a') => (Ok tt, a') | (false, a') => (Err OutOfMemory, a') end.

(** The locals of the loop over the program headers. *)
Record Scan := mkScan {
  scanned : list LoadedSegment;
  ranges : list (Z * Z * Z);
  image_bytes : Z;
}.

(** kernel/src/elf.rs:143-181 [parse_elf] *)
Definition scan_header (bytes_len : Z) (phdr : Elf64_Phdr) (acc : Scan) : elf Scan :=
  let offset := p_offset phdr in
  let fsz := p_filesz phdr in
  let msz := p_memsz phdr in
  let va := p_vaddr phdr in
  if (p_type phdr =? PT_LOAD)%Z then
    reject_if (msz <? fsz)%Z InvalidSegmentBounds;;
    end_ ← ok_or (fits 64 (offset + fsz)) SegmentOutOfBounds;
    reject_if (bytes_len <? end_)%Z SegmentOutOfBounds;;
    vaddr_end ← ok_or (fits 64 (va + msz)) KernelAddressViolation;
    reject_if ((va <? USER_ADDR_MIN) || (USER_ADDR_MAX <? vaddr_end))%Z KernelAddressViolation;;
    if (msz =? 0)%Z then mret acc else
    mapped_bytes ← ok_or (n ← fits 64 (msz + Z.land va 4095); n ← fits 64 (n + 4095); Some (page_down n))
      ImageTooLarge;
    total ← ok_or (fits 64 (image_bytes acc + mapped_bytes)) ImageTooLarge;
    reject_if (MAX_IMAGE_BYTES <? total)%Z ImageTooLarge;;
    mret (mkScan (scanned acc ++ [mkSegment va fsz msz (p_flags phdr) []])
                 (ranges acc ++ [(offset, fsz, msz)]) total)
  else mret acc.

(** kernel/src/elf.rs:139-182 [parse_elf] *)
Fixpoint scan_headers (image : bytes) (phoff phentsize : Z) (idxs : list nat) (acc : Scan) : elf Scan :=
  match idxs with
  | [] => mret acc
  | i :: idxs =>
      phdr ← unwrap (phdr_at (Z.to_nat (phoff + Z.of_nat i * phentsize)) image);
      acc ← scan_header (Z.of_nat (length image)) phdr acc;
      scan_headers image phoff phentsize idxs acc
  end.

(** The first page and the end of the last one. *)
Definition page_start (s : LoadedSegment) : Z := page_down (vaddr s).
Definition page_end (s : LoadedSegment) : Z := page_down (vaddr s + memsz s + 4095).

(** kernel/src/elf.rs:191-198 [parse_elf] *)
Definition pages_meet (a b : LoadedSegment) : bool :=
  ((page_start a <? page_end b) && (page_start b <? page_end a))%Z.

(** kernel/src/elf.rs:189-200 [parse_elf] *)
Fixpoint overlapping (segs : list LoadedSegment) : bool :=
  match segs with
  | [] => false
  | s :: segs => existsb (pages_meet s) segs || overlapping segs
  end.

(** kernel/src/elf.rs:204-206 [parse_elf] *)
Definition entry_in (entry : Z) (seg : LoadedSegment) : bool :=
  negb (Z.land (flags seg) PF_X =? 0)%Z && (vaddr seg <=? entry)%Z && (entry <? vaddr seg + memsz seg)%Z.

(** kernel/src/elf.rs:215-219 [parse_elf] *)
Fixpoint fill (image : bytes) (segs : list LoadedSegment) (rs : list (Z * Z * Z)) : elf (list LoadedSegment) :=
  match segs, rs with
  | seg :: segs, (offset, fsz, msz) :: rs =>
      reserve msz;;
      payload ← unwrap (slice (Z.to_nat offset) (Z.to_nat (offset + fsz)) image);
      rest ← fill image segs rs;
      mret (mkSegment (vaddr seg) (filesz seg) (memsz seg) (flags seg)
              (payload ++ replicate (Z.to_nat msz - length payload) 0%Z) :: rest)
  | _, _ => mret segs
  end.

(** kernel/src/elf.rs:89-112 [parse_elf] *)
Definition check_header (ehdr : Elf64_Ehdr) : elf unit :=
  reject_if (negb (bool_decide (take 4 (e_ident ehdr) = [127; 69; 76; 70]%Z))) InvalidMagic;;
  reject_if (negb (bool_decide (e_ident ehdr !! 4 = Some 2%Z))) Not64Bit;;
  reject_if (negb (bool_decide (e_ident ehdr !! 5 = Some 1%Z))) NotLittleEndian;;
  reject_if (negb (e_type ehdr =? 2)%Z) NotExecutable;;
  reject_if (negb (e_machine ehdr =? 62)%Z) InvalidMachine.

(** kernel/src/elf.rs:81-225 [parse_elf] *)
Definition parse_elf (image : bytes) : elf ElfFile :=
  reject_if (bool_decide (length image < EHDR_SIZE)) FileTooSmall;;
  ehdr ← unwrap (ehdr_at 0 image);
  check_header ehdr;;
  let phoff := e_phoff ehdr in
  let phnum := e_phnum ehdr in
  let phentsize := e_phentsize ehdr in
  reject_if (MAX_PROGRAM_HEADERS <? phnum)%Z ImageTooLarge;;
  reject_if (phentsize <? Z.of_nat PHDR_SIZE)%Z HeadersOutOfBounds;;
  size ← ok_or (fits 64 (phnum * phentsize)) HeadersOutOfBounds;
  headers_end ← ok_or (fits 64 (phoff + size)) HeadersOutOfBounds;
  reject_if (Z.of_nat (length image) <? headers_end)%Z HeadersOutOfBounds;;
  reserve phnum;;
  reserve phnum;;
  s ← scan_headers image phoff phentsize (seq 0 (Z.to_nat phnum)) (mkScan [] [] 0);
  reject_if (bool_decide (scanned s = [])) NoLoadableSegments;;
  reject_if (overlapping (scanned s)) OverlappingSegments;;
  let entry := e_entry ehdr in
  reject_if (negb (existsb (entry_in entry) (scanned s))) InvalidEntryPoint;;
  segs ← fill image (scanned s) (ranges s);
  mret (mkElf entry segs).
End parse.
