(* ===== verification/ElfProps.v ===== *)
(** * The ELF loader: theorems

    Whatever bytes are parsed, nothing outside them is read, and an image that is
    accepted stays inside the user region with disjoint pages. *)
From S2P Require Import Prelude Bytes Elf.

(** ** Fields and pages *)

Lemma le_field_nonneg off n l : Forall byte l → (0 ≤ le_field off n l)%Z.
Proof. intros H. unfold le_field. apply from_le_bound. by apply Forall_take, Forall_drop. Qed.

Lemma slice_Forall {A} (P : A → Prop) a b l v : slice a b l = Some v → Forall P l → Forall P v.
Proof. unfold slice. case_decide; intros [= <-] Hl. by apply Forall_take, Forall_drop. Qed.

Lemma phdr_at_nonneg off image ph : Forall byte image → phdr_at off image = Some ph →
  (0 ≤ p_offset ph ∧ 0 ≤ p_filesz ph ∧ 0 ≤ p_memsz ph ∧ 0 ≤ p_vaddr ph)%Z.
Proof.
  intros Hb (l & Hs & [= <-])%bind_Some. pose proof (slice_Forall _ _ _ _ _ Hs Hb).
  split_and!; by apply le_field_nonneg.
Qed.

Lemma ehdr_at_nonneg off image eh : Forall byte image → ehdr_at off image = Some eh →
  (0 ≤ e_phoff eh ∧ 0 ≤ e_phnum eh ∧ 0 ≤ e_phentsize eh)%Z.
Proof.
  intros Hb (l & Hs & [= <-])%bind_Some. pose proof (slice_Forall _ _ _ _ _ Hs Hb).
  split_and!; by apply le_field_nonneg.
Qed.

Lemma page_down_eq a : page_down a = (a / 4096 * 4096)%Z.
Proof.
  unfold page_down. change 4095%Z with (Z.ones 12). rewrite <-Z.ldiff_land, Z.ldiff_ones_r by lia.
  rewrite Z.shiftl_mul_pow2, Z.shiftr_div_pow2 by lia. done.
Qed.

Lemma land_page a : Z.land a 4095 = (a mod 4096)%Z.
Proof. change 4095%Z with (Z.ones 12). by rewrite Z.land_ones by lia. Qed.

(** The bytes a segment maps. *)
Definition mapped (s : LoadedSegment) : Z := page_end s - page_start s.

Lemma mapped_eq s : mapped s = page_down (memsz s + Z.land (vaddr s) 4095 + 4095).
Proof.
  unfold mapped, page_end, page_start. rewrite !page_down_eq, land_page.
  pose proof (Z.div_mod (vaddr s) 4096 ltac:(lia)).
  replace (vaddr s + memsz s + 4095)%Z
    with (vaddr s / 4096 * 4096 + (memsz s + vaddr s mod 4096 + 4095))%Z by lia.
  rewrite Z.div_add_l by lia. lia.
Qed.

(** ** What an accepted image is *)

(** A segment inside the user region, with bytes of the file and then zeros. *)
Definition segment_ok (image : bytes) (s : LoadedSegment) : Prop :=
  (USER_ADDR_MIN ≤ vaddr s ∧ 0 < memsz s ∧ vaddr s + memsz s ≤ USER_ADDR_MAX ∧
   0 ≤ filesz s ≤ memsz s)%Z ∧
  ∃ off payload, slice off (off + Z.to_nat (filesz s)) image = Some payload ∧
    data s = payload ++ replicate (Z.to_nat (memsz s - filesz s)) 0%Z.

Definition disjoint_pages (a b : LoadedSegment) : Prop :=
  (page_end a ≤ page_start b ∨ page_end b ≤ page_start a)%Z.

Definition total (segs : list LoadedSegment) : Z := foldr (λ s, Z.add (mapped s)) 0%Z segs.

Record accepted (image : bytes) (e : ElfFile) : Prop := {
  some_segment : segments e ≠ [];
  each_segment : Forall (segment_ok image) (segments e);
  no_shared_page : ∀ i j a b, segments e !! i = Some a → segments e !! j = Some b → i ≠ j →
    disjoint_pages a b;
  within_budget : (total (segments e) ≤ MAX_IMAGE_BYTES)%Z;
  entry_executable : Exists (λ s, Z.land (flags s) PF_X ≠ 0 ∧
    vaddr s ≤ entry_point e < vaddr s + memsz s)%Z (segments e);
}.

(** ** The loop over the headers *)

Section scan.
Context {A : Type} `{!Heap A} (image : bytes).

Definition range_ok (s : LoadedSegment) (r : Z * Z * Z) : Prop :=
  let '(off, fsz, msz) := r in
  (filesz s = fsz ∧ memsz s = msz ∧ 0 ≤ off ∧ 0 ≤ fsz ≤ msz ∧ off + fsz ≤ Z.of_nat (length image) ∧
   0 < msz ∧ USER_ADDR_MIN ≤ vaddr s ∧ vaddr s + msz ≤ USER_ADDR_MAX)%Z.

Definition scan_ok (s : Scan) : Prop :=
  Forall2 range_ok (scanned s) (ranges s) ∧ image_bytes s = total (scanned s) ∧
  (image_bytes s ≤ MAX_IMAGE_BYTES)%Z.

(** No panic, and [P] of the result. *)
Definition safe {B} (P : B → Prop) (r : outcome ElfError B) (_ : A) : Prop :=
  match r with Ok b => P b | Err _ => True | Panic => False end.

Lemma total_app segs s : total (segs ++ [s]) = (total segs + mapped s)%Z.
Proof. unfold total. induction segs as [|s' segs IH]; cbn; lia. Qed.

Lemma scan_header_safe ph acc a : (0 ≤ p_offset ph ∧ 0 ≤ p_filesz ph ∧ 0 ≤ p_memsz ph ∧ 0 ≤ p_vaddr ph)%Z →
  scan_ok acc → wp (scan_header (Z.of_nat (length image)) ph acc) (safe scan_ok) a.
Proof.
  intros Hnn Hacc. pose proof Hacc as (Hr & Ht & Hmax). unfold scan_header.
  destruct (p_type ph =? PT_LOAD)%Z; [|exact Hacc].
  wp_steps; try exact I.
  destruct (p_memsz ph =? 0)%Z eqn:Ez; [exact Hacc|].
  wp_steps; try exact I.
  repeat match goal with
  | H : fits _ _ = Some _ |- _ => apply fits_Some in H as [-> ?]
  | H : (_ ≫= _) = Some _ |- _ =>
      let E := fresh in apply bind_Some in H as (? & [-> ?]%fits_Some & E)
  | H : Some _ = Some _ |- _ => injection H as <-
  end.
  reflect. split; [|split]; cbn [scanned ranges image_bytes]; [| |lia].
  - apply Forall2_app; [done|]. constructor; [|constructor]. cbn. lia.
  - rewrite total_app, mapped_eq, Ht. done.
Qed.

Lemma scan_headers_safe phoff phentsize idxs acc a : Forall byte image → (0 ≤ phoff)%Z →
  (∀ i, i ∈ idxs → phoff + Z.of_nat i * phentsize + Z.of_nat PHDR_SIZE ≤ Z.of_nat (length image))%Z →
  (0 ≤ phentsize)%Z → scan_ok acc → wp (scan_headers image phoff phentsize idxs acc) (safe scan_ok) a.
Proof.
  intros Hb H0 Hidx Hps. revert acc a. induction idxs as [|i idxs IH]; intros acc a Hacc; cbn [scan_headers].
  { by wp_step. }
  wp_step. wp_step.
  - pose proof (Hidx i ltac:(left)) as Hi. unfold phdr_at in *.
    match goal with H : _ = None |- _ => apply bind_None in H as [H|(? & _ & H)]; [|done]; revert H end.
    unfold slice. rewrite decide_True; [done|]. unfold PHDR_SIZE in *. lia.
  - match goal with H : _ = Some _ |- _ => apply phdr_at_nonneg in H; [|done] end.
    wp_step. eapply wp_mono; [by apply scan_header_safe|].
    intros [acc'|e|] a' Hr; [|done..]. apply IH; [|done]. intros j Hj. apply Hidx. by right.
Qed.

(** ** The payloads *)

Definition same_layout (s s' : LoadedSegment) : Prop :=
  vaddr s' = vaddr s ∧ memsz s' = memsz s ∧ filesz s' = filesz s ∧ flags s' = flags s.

Lemma reserve_safe n a : wp (reserve n) (safe (λ _ : unit, True)) a.
Proof. unfold wp, reserve. by destruct (try_reserve n a) as [[] ?]. Qed.

Lemma fill_safe segs rs a : Forall2 range_ok segs rs →
  wp (fill image segs rs) (safe (λ segs', Forall2 same_layout segs segs' ∧ Forall (segment_ok image) segs')) a.
Proof.
  intros H. revert a. induction H as [|s [[off fsz] msz] segs rs Hs _ IH]; intros a; cbn [fill].
  { wp_step. by split. }
  destruct Hs as (Hf & Hm & H1 & H2 & H3 & H4 & H5 & H6).
  wp_step. eapply wp_mono; [apply reserve_safe|]. intros [[]|e|] a' Hr; [|done..].
  wp_step. wp_step.
  - match goal with H : slice _ _ _ = None |- _ => revert H end.
    unfold slice. rewrite decide_True; [done|lia].
  - match goal with H : slice _ _ _ = Some ?v |- _ => rename H into Hsl; rename v into payload end.
    wp_step. eapply wp_mono; [apply IH|]. intros [rest|e|] a2 Hr2; [|done..]. destruct Hr2 as [Hlay Hrest].
    wp_step. split; constructor; [done|done| |done]. split; [cbn; lia|].
    exists (Z.to_nat off), payload. cbn. pose proof Hsl as (_ & Hlen & _)%slice_lookup.
    rewrite Hf, Hm. split; [rewrite <-Hsl; f_equal; lia|]. repeat f_equal. lia.
Qed.
End scan.

Lemma overlapping_layout segs segs' : Forall2 same_layout segs segs' →
  overlapping segs' = overlapping segs ∧ total segs' = total segs.
Proof.
  assert (∀ s s', same_layout s s' → page_start s' = page_start s ∧ page_end s' = page_end s) as Hpages.
  { intros s s' (Hv & Hm & _). unfold page_start, page_end. by rewrite Hv, Hm. }
  induction 1 as [|s s' segs segs' Hs Hsegs [IH1 IH2]]; [done|]. cbn [overlapping total foldr].
  destruct (Hpages _ _ Hs) as [Hps Hpe]. split.
  - f_equal; [|done]. clear IH1 IH2. induction Hsegs as [|t t' segs segs' Ht Hsegs IH]; [done|].
    cbn [existsb]. destruct (Hpages _ _ Ht) as [Hpt Hpte]. unfold pages_meet at 1 3.
    by rewrite IH, Hps, Hpe, Hpt, Hpte.
  - unfold total in IH2. unfold mapped at 1 3. by rewrite IH2, Hps, Hpe.
Qed.

Lemma overlapping_disjoint segs : overlapping segs = false →
  ∀ i j a b, segs !! i = Some a → segs !! j = Some b → i ≠ j → disjoint_pages a b.
Proof.
  assert (∀ s segs, existsb (pages_meet s) segs = false → ∀ j b, segs !! j = Some b → disjoint_pages s b) as Hone.
  { intros s l Hl j b Hj. assert (pages_meet s b = false) as Hm.
    { apply not_true_iff_false. intros Hm. apply not_true_iff_false in Hl. apply Hl.
      apply existsb_exists. exists b. split; [|done]. by eapply list_elem_of_In, list_elem_of_lookup_2. }
    unfold pages_meet in Hm. unfold disjoint_pages. reflect. destruct Hm; reflect; lia. }
  induction segs as [|s segs IH]; intros Ho i j a b Hi Hj Hij; [done|].
  cbn [overlapping] in Ho. apply orb_false_iff in Ho as [Hs Ho].
  destruct i as [|i], j as [|j]; cbn in Hi, Hj; simplify_eq/=.
  - by eapply Hone.
  - destruct (Hone _ _ Hs i a Hi); [by right|by left].
  - by eapply (IH Ho i j); [..|congruence].
Qed.

Lemma entry_layout entry segs segs' : Forall2 same_layout segs segs' →
  existsb (entry_in entry) segs = true →
  Exists (λ s, Z.land (flags s) PF_X ≠ 0 ∧ vaddr s ≤ entry < vaddr s + memsz s)%Z segs'.
Proof.
  induction 1 as [|s s' segs segs' (Hv & Hm & Hf & Hfl) _ IH]; [done|]. cbn [existsb].
  intros [Hs|Hs]%orb_true_iff; [left|by right; apply IH].
  unfold entry_in in Hs. reflect. rewrite Hv, Hm, Hfl. lia.
Qed.

(** C25: The ELF loader is safe on any input: it reads nothing outside the image,
    does not panic however large the sizes in it or however little memory there is,
    and an image it accepts has segments of file bytes followed by zeros, all inside
    the user region, no two sharing a page, mapping at most 16 MiB in all, with the
    entry point in an executable one. *)
Theorem elf_images_are_confined {A} `{!Heap A} (image : bytes) (heap : A) :
  Forall byte image →
  match (parse_elf image heap).1 with
  | Ok e => accepted image e
  | Err _ => True
  | Panic => False
  end.
Proof.
  intros Hb. enough (wp (parse_elf image) (safe (accepted image)) heap) as H by done.
  unfold parse_elf. wp_step. wp_step; [exact I|]. cbv beta iota.
  wp_step. wp_step; cbv beta iota.
  { match goal with H : ehdr_at _ _ = None |- _ => revert H end.
    unfold ehdr_at, slice. rewrite decide_True; [done|]. reflect. unfold EHDR_SIZE in *. lia. }
  match goal with H : ehdr_at _ _ = Some ?e |- _ => apply ehdr_at_nonneg in H; [|done]; rename e into ehdr end.
  wp_step. unfold check_header. wp_steps; try exact I.
  repeat match goal with H : fits _ _ = Some _ |- _ => apply fits_Some in H as [-> ?] end. reflect.
  eapply wp_mono; [apply reserve_safe|]. intros [[]|e|] a1 Hr1; [|done..].
  wp_step. eapply wp_mono; [apply reserve_safe|]. intros [[]|e|] a2 Hr2; [|done..].
  wp_step. eapply wp_mono.
  { apply scan_headers_safe; [done|lia| |lia|].
    - intros i Hi%elem_of_seq. unfold PHDR_SIZE in *. nia.
    - split; [constructor|]. by unfold MAX_IMAGE_BYTES. }
  intros [s|e|] a3 Hs; [|done..]. destruct Hs as (Hranges & Htotal & Hmax).
  wp_steps; try exact I. reflect.
  eapply wp_mono; [by apply fill_safe|]. intros [segs|e|] a4 Hfill; [|done..].
  destruct Hfill as [Hlay Hsegs]. wp_step.
  destruct (overlapping_layout _ _ Hlay) as [Hov Htot]. constructor; cbn [segments entry_point].
  - intros ->. by inversion Hlay; congruence.
  - done.
  - apply overlapping_disjoint. congruence.
  - lia.
  - by eapply entry_layout.
Qed.

(** ** A witness *)

#[export] Instance ample_heap : Heap unit := λ _ a, (true, a).

(** One executable segment of four bytes, loaded at the start of the user region
    and followed by four zeros. *)
Definition sample_image : bytes :=
  [127; 69; 76; 70; 2; 1; 1]%Z ++ replicate 9 0%Z ++ to_le 2 2 ++ to_le 2 62 ++ to_le 4 0 ++
  to_le 8 USER_ADDR_MIN ++ to_le 8 64 ++ to_le 8 0 ++ to_le 4 0 ++ to_le 2 64 ++ to_le 2 56 ++
  to_le 2 1 ++ replicate 6 0%Z ++
  to_le 4 1 ++ to_le 4 5 ++ to_le 8 120 ++ to_le 8 USER_ADDR_MIN ++ to_le 8 0 ++ to_le 8 4 ++
  to_le 8 8 ++ to_le 8 4096 ++ [144; 144; 144; 244]%Z.

Lemma elf_images_are_confined_witness :
  ∃ e, (parse_elf sample_image tt).1 = Ok e ∧ accepted sample_image e ∧
    map data (segments e) = [[144; 144; 144; 244; 0; 0; 0; 0]%Z].
Proof.
  assert (Forall byte sample_image) as Hb.
  { eapply Forall_impl with (P := λ b, (0 ≤ b < 256)%Z); [|done].
    apply (bool_decide_unpack _). vm_compute. exact I. }
  pose proof (elf_images_are_confined sample_image tt Hb) as H.
  eexists. split; [vm_compute; reflexivity|]. split; [|reflexivity].
  revert H. by vm_compute.
Defined.

(** Eight more bytes than the budget, and no heap at all. *)
Example oversized_image : (parse_elf (take 104 sample_image ++ to_le 8 (MAX_IMAGE_BYTES + 8) ++ drop 112 sample_image) tt).1
  = Err ImageTooLarge.
Proof. by vm_compute. Qed.
