(* ===== verification/Spfs.v ===== *)
(** * SPFS v2 storage (kernel/src/fs.rs)

    The block allocator, the transactional file writer over direct and indirect
    blocks, the write-ahead journal and its disk format, and the block cache.
    Blocks are numbered by [nat]; block 0 is the superblock and doubles as the
    null pointer. *)
From S2P Require Import Prelude Bytes Disk.

(** kernel/src/fs.rs:93-98 [BLOCK_SIZE, PTRS_PER_BLOCK, DIRECT_BLOCKS_COUNT, MAX_DIRECT_SIZE, MAX_SINGLE_INDIRECT_SIZE, MAX_DOUBLE_INDIRECT_SIZE] *)
Definition BLOCK_SIZE : nat := 512.
Definition PTRS_PER_BLOCK : nat := BLOCK_SIZE / 4.
Definition DIRECT_BLOCKS_COUNT : nat := 6.
Definition MAX_DIRECT_SIZE : nat := DIRECT_BLOCKS_COUNT * BLOCK_SIZE.
Definition MAX_SINGLE_INDIRECT_SIZE : nat := MAX_DIRECT_SIZE + PTRS_PER_BLOCK * BLOCK_SIZE.
Definition MAX_DOUBLE_INDIRECT_SIZE : Z :=
  Z.of_nat MAX_SINGLE_INDIRECT_SIZE + Z.of_nat PTRS_PER_BLOCK * Z.of_nat PTRS_PER_BLOCK * Z.of_nat BLOCK_SIZE.

#[global] Arguments BLOCK_SIZE : simpl never.
#[global] Arguments PTRS_PER_BLOCK : simpl never.
#[global] Arguments DIRECT_BLOCKS_COUNT : simpl never.

(** kernel/src/fs.rs:70-83 [InodeV2] *)
Record InodeV2 := mkInode {
  inode_id : Z;
  file_type : Z;
  inode_flags : Z;
  permissions : Z;
  uid : Z;
  gid : Z;
  inode_size : Z;
  block_count : Z;
  direct_blocks : list nat;
  indirect_block : nat;
  double_indirect : nat;
}.

(** kernel/src/fs.rs:101-107 [FsError] *)
Inductive FsError := NoSpace | InvalidSeek | PermissionDenied | NotFound | CorruptedMetadata.

(** ** The block allocator *)

(** kernel/src/fs.rs:109-113 [BlockAllocator] *)
Record BlockAllocator := mkAllocator {
  total_blocks : nat;
  free_blocks : nat;
  bitmap : list bool;
}.

(** kernel/src/fs.rs:116-127 [BlockAllocator::new] *)
Definition allocator_new (n : nat) : BlockAllocator :=
  let bm := replicate n false in
  mkAllocator n (n - 1) (if (0 <? n) then <[0 := true]> bm else bm).

(** The first free bit — kernel/src/fs.rs:130-142 [BlockAllocator::allocate_block] *)
Definition allocate_block (a : BlockAllocator) : option nat * BlockAllocator :=
  if free_blocks a =? 0 then (None, a)
  else match list_find (λ u, u = false) (bitmap a) with
       | Some (i, _) => (Some i, mkAllocator (total_blocks a) (free_blocks a - 1) (<[i := true]> (bitmap a)))
       | None => (None, a)
       end.

(** The count is a [u32] — kernel/src/fs.rs:145-151 [BlockAllocator::free_block] *)
Definition free_block {E} (b : nat) : comp BlockAllocator E unit :=
  a ← get;
  match bitmap a !! b with
  | Some true =>
      n ← unwrap (fits 32 (Z.of_nat (free_blocks a) + 1));
      put (mkAllocator (total_blocks a) (Z.to_nat n) (<[b := false]> (bitmap a)))
  | _ => mret tt
  end.

(** ** The storage engine *)

(** kernel/src/fs.rs:154-157 [SpfsV2Engine] *)
Record SpfsV2Engine := mkEngine {
  allocator : BlockAllocator;
  block_data : gmap nat bytes;
}.

(** kernel/src/fs.rs:160-165 [SpfsV2Engine::new] *)
Definition engine_new (n : nat) : SpfsV2Engine := mkEngine (allocator_new n) ∅.

(** An operation works on the engine and on the inode it is given. *)
Definition Spfs : Type := SpfsV2Engine * InodeV2.
Local Abbreviation M := (comp Spfs FsError).

Definition with_allocator (a : BlockAllocator) (s : Spfs) : Spfs := (mkEngine a (block_data s.1), s.2).
Definition on_allocator {A} (m : comp BlockAllocator FsError A) : M A := zoom (λ s : Spfs, allocator s.1) with_allocator m.
Definition alloc_op : comp BlockAllocator FsError (option nat) := λ a, let '(o, a') := allocate_block a in (Ok o, a').
Definition set_block (b : nat) (v : bytes) : M unit :=
  modify (λ s, (mkEngine (allocator s.1) (<[b := v]> (block_data s.1)), s.2)).
Definition remove_block (b : nat) : M unit :=
  modify (λ s, (mkEngine (allocator s.1) (delete b (block_data s.1)), s.2)).

Definition set_direct (l : list nat) (i : InodeV2) : InodeV2 :=
  mkInode (inode_id i) (file_type i) (inode_flags i) (permissions i) (uid i) (gid i) (inode_size i) (block_count i)
    l (indirect_block i) (double_indirect i).
Definition set_indirect (b : nat) (i : InodeV2) : InodeV2 :=
  mkInode (inode_id i) (file_type i) (inode_flags i) (permissions i) (uid i) (gid i) (inode_size i) (block_count i)
    (direct_blocks i) b (double_indirect i).
Definition set_double (b : nat) (i : InodeV2) : InodeV2 :=
  mkInode (inode_id i) (file_type i) (inode_flags i) (permissions i) (uid i) (gid i) (inode_size i) (block_count i)
    (direct_blocks i) (indirect_block i) b.
Definition set_sizes (sz n : Z) (i : InodeV2) : InodeV2 :=
  mkInode (inode_id i) (file_type i) (inode_flags i) (permissions i) (uid i) (gid i) sz n
    (direct_blocks i) (indirect_block i) (double_indirect i).
Definition on_inode (f : InodeV2 → InodeV2) : M unit := modify (λ s, (s.1, f s.2)).

(** kernel/src/fs.rs:183-194 [SpfsV2Engine::write_file_transactional, pre-allocation] *)
Fixpoint stage (n : nat) (staged : list nat) : M (list nat) :=
  match n with
  | O => mret staged
  | S n =>
      o ← on_allocator alloc_op;
      match o with
      | Some b => stage n (staged ++ [b])
      | None => for_each staged (λ b, on_allocator (free_block b));; throw NoSpace
      end
  end.

(** A table that cannot be allocated is passed over —
    kernel/src/fs.rs:210-226 [SpfsV2Engine::write_file_transactional, inode pointers] *)
Definition assign_pointer (idx b : nat) : M unit :=
  if idx <? DIRECT_BLOCKS_COUNT then on_inode (λ i, set_direct (<[idx := b]> (direct_blocks i)) i)
  else if idx <? DIRECT_BLOCKS_COUNT + PTRS_PER_BLOCK then
    s ← get;
    (if indirect_block s.2 =? 0 then
       o ← on_allocator alloc_op;
       match o with
       | Some t => on_inode (set_indirect t);; set_block t (replicate BLOCK_SIZE 0%Z)
       | None => mret tt
       end
     else mret tt);;
    s ← get;
    match block_data s.1 !! indirect_block s.2 with
    | Some table =>
        set_block (indirect_block s.2) (splice ((idx - DIRECT_BLOCKS_COUNT) * 4) (to_le 4 (Z.of_nat b)) table)
    | None => mret tt
    end
  else mret tt.

(** The first block of [data], padded with zeros —
    kernel/src/fs.rs:202-205 [SpfsV2Engine::write_file_transactional, block buffer] *)
Definition first_block (data : bytes) : bytes :=
  let n := length data `min` BLOCK_SIZE in take n data ++ replicate (BLOCK_SIZE - n) 0%Z.

(** kernel/src/fs.rs:197-230 [SpfsV2Engine::write_file_transactional, write loop] *)
Fixpoint write_blocks (staged : list nat) (data : bytes) (idx : nat) : M nat :=
  match data with
  | [] => mret idx
  | _ =>
      match staged with
      | [] => panic
      | b :: staged =>
          set_block b (first_block data);;
          assign_pointer idx b;;
          write_blocks staged (drop BLOCK_SIZE data) (S idx)
      end
  end.

(** kernel/src/fs.rs:170-235 [SpfsV2Engine::write_file_transactional] *)
Definition write_file_transactional (data : bytes) : M nat :=
  if bool_decide (data = []) then mret 0
  else
    staged ← stage ((length data + BLOCK_SIZE - 1) / BLOCK_SIZE) [];
    n ← write_blocks staged data 0;
    on_inode (set_sizes (wrap 32 (Z.of_nat (length data))) (wrap 32 (Z.of_nat n)));;
    mret (length data).

(** ** Reclaiming a file *)

(** [table[i * 4..(i + 1) * 4]] as a block number —
    kernel/src/fs.rs:252-253 [SpfsV2Engine::truncate_and_reclaim, table entry] *)
Definition table_entry (table : bytes) (i : nat) : nat := Z.to_nat (from_le (take 4 (drop (i * 4) table))).

(** kernel/src/fs.rs:240-246 [SpfsV2Engine::truncate_and_reclaim, direct blocks] *)
Definition reclaim_direct (i : nat) : M unit :=
  s ← get;
  match direct_blocks s.2 !! i with
  | Some b =>
      if b =? 0 then mret tt
      else on_allocator (free_block b);; remove_block b;; on_inode (λ n, set_direct (<[i := 0]> (direct_blocks n)) n)
  | None => mret tt
  end.

(** kernel/src/fs.rs:251-258 [SpfsV2Engine::truncate_and_reclaim, pointers of a table] *)
Definition reclaim_entry (table : bytes) (i : nat) : M unit :=
  let b := table_entry table i in
  if b =? 0 then mret tt else on_allocator (free_block b);; remove_block b.

(** [self.block_data.remove(&b)] and the loop over the removed table —
    kernel/src/fs.rs:250-259 [SpfsV2Engine::truncate_and_reclaim, indirect table] *)
Definition reclaim_table (entry : bytes → nat → M unit) (b : nat) : M unit :=
  s ← get;
  match block_data s.1 !! b with
  | Some table => remove_block b;; for_each (seq 0 PTRS_PER_BLOCK) (entry table)
  | None => mret tt
  end.

(** kernel/src/fs.rs:268-283 [SpfsV2Engine::truncate_and_reclaim, entries of the double-indirect table] *)
Definition reclaim_indirect (table : bytes) (i : nat) : M unit :=
  let b := table_entry table i in
  if b =? 0 then mret tt else reclaim_table reclaim_entry b;; on_allocator (free_block b).

(** kernel/src/fs.rs:238-291 [SpfsV2Engine::truncate_and_reclaim] *)
Definition truncate_and_reclaim : M unit :=
  for_each (seq 0 DIRECT_BLOCKS_COUNT) reclaim_direct;;
  s ← get;
  (if indirect_block s.2 =? 0 then mret tt
   else reclaim_table reclaim_entry (indirect_block s.2);;
        on_allocator (free_block (indirect_block s.2));; on_inode (set_indirect 0));;
  s ← get;
  (if double_indirect s.2 =? 0 then mret tt
   else reclaim_table reclaim_indirect (double_indirect s.2);;
        on_allocator (free_block (double_indirect s.2));; on_inode (set_double 0));;
  on_inode (set_sizes 0 0).
