(* ===== verification/Journal.v ===== *)
(** * The SPFS journal and the block cache (kernel/src/fs.rs)

    The write-ahead log of block allocations with its one-sector disk format,
    its recovery after a crash, and the least-frequently-used sector cache. *)
From S2P Require Import Prelude Bytes Disk Spfs.

(** ** The write-ahead log *)

(** kernel/src/fs.rs:300-305 [JournalOpType] *)
Inductive JournalOpType := AllocBlock | FreeBlock | WriteInode | Commit.

(** kernel/src/fs.rs:308-313 [JournalRecord] *)
Record JournalRecord := mkRecord {
  op_type : JournalOpType;
  rec_inode : Z;
  rec_block : Z;
  sequence : Z;
}.

(** kernel/src/fs.rs:316-320 [SpfsJournal] *)
Record SpfsJournal := mkJournal {
  records : list JournalRecord;
  next_sequence : Z;
  committed_sequence : Z;
}.

#[export] Instance op_type_eq_dec : EqDecision JournalOpType.
Proof. solve_decision. Defined.
#[export] Instance record_eq_dec : EqDecision JournalRecord.
Proof. solve_decision. Defined.

(** kernel/src/fs.rs:323-329 [SpfsJournal::new] *)
Definition journal_new : SpfsJournal := mkJournal [] 1 0.

Section journal.
Context {E : Type}.
Local Abbreviation M := (comp SpfsJournal E).

(** kernel/src/fs.rs:333-341 [SpfsJournal::log_alloc_block, record] *)
Definition log (op : JournalOpType) (ino b : Z) : M Z :=
  j ← get;
  let seq := next_sequence j in
  n ← unwrap (fits 64 (seq + 1));
  put (mkJournal (records j ++ [mkRecord op ino b seq]) n (committed_sequence j));;
  mret seq.

(** kernel/src/fs.rs:332-342 [SpfsJournal::log_alloc_block] *)
Definition log_alloc_block (ino b : Z) : M Z := log AllocBlock ino b.
(** kernel/src/fs.rs:345-355 [SpfsJournal::log_free_block] *)
Definition log_free_block (ino b : Z) : M Z := log FreeBlock ino b.
(** kernel/src/fs.rs:358-368 [SpfsJournal::log_write_inode] *)
Definition log_write_inode (ino : Z) : M Z := log WriteInode ino 0.

(** kernel/src/fs.rs:371-381 [SpfsJournal::commit] *)
Definition commit (seq : Z) (j : SpfsJournal) : SpfsJournal :=
  if (committed_sequence j <? seq)%Z then
    mkJournal (records j ++ [mkRecord Commit 0 0 seq]) (next_sequence j) seq
  else j.

(** kernel/src/fs.rs:387-395 [SpfsJournal::recover_and_rollback_uncommitted, collection] *)
Definition uncommitted_allocations (j : SpfsJournal) : list Z :=
  rec_block <$> filter (λ r, (committed_sequence j < sequence r)%Z ∧ op_type r = AllocBlock) (records j).

(** The journal and the allocator together —
    kernel/src/fs.rs:385-405 [SpfsJournal::recover_and_rollback_uncommitted] *)
Definition recover_and_rollback_uncommitted : comp (SpfsJournal * BlockAllocator) E nat :=
  s ← get;
  let blocks := uncommitted_allocations s.1 in
  for_each blocks (λ b, zoom snd (λ a s, (s.1, a)) (free_block (Z.to_nat b)));;
  modify (λ s, (mkJournal (filter (λ r, (sequence r ≤ committed_sequence s.1)%Z) (records s.1))
                  (next_sequence s.1) (committed_sequence s.1), s.2));;
  mret (length blocks).
End journal.

(** ** The journal sector *)

(** kernel/src/fs.rs:410-410 [SpfsJournal::flush_to_disk, magic] *)
Definition WAL_MAGIC : Z := 1463897137.
(** kernel/src/fs.rs:415-415 [SpfsJournal::flush_to_disk, take] *)
Definition WAL_RECORDS : nat := 20.

(** kernel/src/fs.rs:298-305 [JournalOpType, repr] *)
Definition op_code (op : JournalOpType) : Z :=
  match op with AllocBlock => 1 | FreeBlock => 2 | WriteInode => 3 | Commit => 4 end.

(** kernel/src/fs.rs:417-420 [SpfsJournal::flush_to_disk, one record] *)
Definition record_bytes (r : JournalRecord) : bytes :=
  op_code (op_type r) :: to_le 4 (rec_inode r) ++ to_le 4 (rec_block r) ++ to_le 8 (sequence r).

(** kernel/src/fs.rs:415-424 [SpfsJournal::flush_to_disk, record loop] *)
Fixpoint put_records (rs : list JournalRecord) (off : nat) (sector : bytes) : bytes :=
  match rs with
  | [] => sector
  | r :: rs =>
      if off + 17 <=? SECTOR then put_records rs (off + 17) (splice off (record_bytes r) sector)
      else put_records rs off sector
  end.

(** kernel/src/fs.rs:409-413 [SpfsJournal::flush_to_disk, sector] *)
Definition wal_sector (j : SpfsJournal) : bytes :=
  let s := replicate SECTOR 0%Z in
  let s := splice 0 (to_le 4 WAL_MAGIC) s in
  let s := splice 4 (to_le 8 (committed_sequence j)) s in
  let s := splice 12 (to_le 4 (wrap 32 (Z.of_nat (length (records j))))) s in
  put_records (take WAL_RECORDS (records j)) 16 s.

(** A field of a sector. *)
Definition field (off n : nat) (sector : bytes) : Z := from_le (take n (drop off sector)).

(** kernel/src/fs.rs:450-464 [SpfsJournal::recover_from_disk, one record] *)
Definition parse_record (off : nat) (sector : bytes) : JournalRecord :=
  let op := match field off 1 sector with
            | 1 => AllocBlock | 2 => FreeBlock | 3 => WriteInode | _ => Commit
            end%Z in
  mkRecord op (field (off + 1) 4 sector) (field (off + 5) 4 sector) (field (off + 9) 8 sector).

(** kernel/src/fs.rs:447-467 [SpfsJournal::recover_from_disk, record loop] *)
Fixpoint parse_records (n off : nat) (sector : bytes) : list JournalRecord :=
  match n with
  | O => []
  | S n =>
      if off + 17 <=? SECTOR then parse_record off sector :: parse_records n (off + 17) sector
      else parse_records n off sector
  end.

Section disk.
Context {D : Type} `{!Drive D}.

(** kernel/src/fs.rs:408-428 [SpfsJournal::flush_to_disk] *)
Definition flush_to_disk (j : SpfsJournal) : comp D string unit :=
  drive_write "write error"%string 1 (wal_sector j).

(** The sequence counter is not restored —
    kernel/src/fs.rs:431-469 [SpfsJournal::recover_from_disk] *)
Definition recover_from_disk : comp (SpfsJournal * D) string nat :=
  sector ← zoom snd (λ d s, (s.1, d)) (drive_read "read error"%string 1);
  reject_if (negb (field 0 4 sector =? WAL_MAGIC)%Z) "Invalid WAL signature"%string;;
  let rs := parse_records (Z.to_nat (field 12 4 sector) `min` WAL_RECORDS) 16 sector in
  modify (λ s, (mkJournal rs (next_sequence s.1) (field 4 8 sector), s.2));;
  mret (length rs).
End disk.

(** ** The block cache *)

(** kernel/src/fs.rs:1380-1380 [CACHE_BLOCKS] *)
Definition CACHE_BLOCKS : nat := 64.

(** kernel/src/fs.rs:1383-1389 [CachedBlock] *)
Record CachedBlock := mkCached {
  lba : Z;
  data : bytes;
  cached : bool;
  dirty : bool;
  access_count : Z;
}.

(** kernel/src/fs.rs:1392-1400 [CachedBlock::empty] *)
Definition cached_empty : CachedBlock := mkCached 0 (replicate BLOCK_SIZE 0%Z) false false 0.

(** The entries. *)
Abbreviation BlockCache := (list CachedBlock).

(** kernel/src/fs.rs:1408-1412 [BlockCache::new] *)
Definition cache_new : BlockCache := replicate CACHE_BLOCKS cached_empty.

Definition holds_lba (n : Z) (e : CachedBlock) : Prop := cached e = true ∧ lba e = n.
#[export] Instance holds_lba_dec n e : Decision (holds_lba n e).
Proof. unfold holds_lba. apply _. Defined.

(** kernel/src/fs.rs:1414-1422 [BlockCache::get] *)
Definition cache_get (n : Z) (c : BlockCache) : option bytes * BlockCache :=
  match list_find (holds_lba n) c with
  | Some (i, e) =>
      (Some (data e), <[i := mkCached (lba e) (data e) true (dirty e) (saturating_add 32 (access_count e) 1)]> c)
  | None => (None, c)
  end.

(** The first entry with the smallest count below [u32::MAX], else entry 0 —
    kernel/src/fs.rs:1448-1455 [BlockCache::put, LFU search] *)
Fixpoint least_used (c : BlockCache) (i min_idx : nat) (min_count : Z) : nat :=
  match c with
  | [] => min_idx
  | e :: c =>
      if (access_count e <? min_count)%Z then least_used c (S i) i (access_count e)
      else least_used c (S i) min_idx min_count
  end.

(** What the victim held is not written back —
    kernel/src/fs.rs:1424-1464 [BlockCache::put] *)
Definition cache_put (n : Z) (v : bytes) (d : bool) (c : BlockCache) : BlockCache :=
  match list_find (holds_lba n) c with
  | Some (i, e) => <[i := mkCached (lba e) v true (dirty e || d) (saturating_add 32 (access_count e) 1)]> c
  | None =>
      let i := match list_find (λ e, cached e = false) c with
               | Some (i, _) => i
               | None => least_used c 0 0 u32_max
               end in
      <[i := mkCached n v true d 1]> c
  end.
