(* ===== verification/SpfsProps.v ===== *)
(** * SPFS v2 storage: properties

    The allocator hands out distinct free blocks; a write that does not fit
    changes nothing; what is written is read back as far as the inode's pointers
    reach, and truncation gives exactly those blocks back. *)
From S2P Require Import Prelude Bytes Disk Spfs.

(** ** The allocator *)

Definition used (a : BlockAllocator) (b : nat) : Prop := bitmap a !! b = Some true.
Definition unused (a : BlockAllocator) (b : nat) : Prop := bitmap a !! b = Some false.

(** The free count is that of the bitmap, and fits its [u32]. *)
Record allocator_wf (a : BlockAllocator) : Prop := {
  aw_length : length (bitmap a) = total_blocks a;
  aw_free : free_blocks a = length (filter (λ u, u = false) (bitmap a));
  aw_bound : (Z.of_nat (total_blocks a) ≤ u32_max)%Z;
}.

Lemma allocator_new_wf n : (Z.of_nat n ≤ u32_max)%Z → allocator_wf (allocator_new n).
Proof.
  intros Hn. unfold allocator_new. destruct n as [|n]; [by split|]. cbn.
  split; cbn; [by rewrite length_replicate| |done].
  rewrite Nat.sub_0_r. clear. induction n as [|n IH]; cbn; [done|by rewrite IH at 1].
Qed.

Lemma count_flip (bm : list bool) i u :
  bm !! i = Some u →
  length (filter (λ u, u = false) (<[i := negb u]> bm)) + (if u then 0 else 1) =
  length (filter (λ u, u = false) bm) + (if u then 1 else 0).
Proof.
  intros Hi. pose proof (length_filter_insert (λ u, u = false) bm i u (negb u) Hi) as Hc.
  by destruct u; cbn in Hc.
Qed.

Lemma allocate_block_spec a :
  allocator_wf a →
  match allocate_block a with
  | (Some b, a') => unused a b ∧ allocator_wf a' ∧ total_blocks a' = total_blocks a ∧
      free_blocks a = S (free_blocks a') ∧ bitmap a' = <[b := true]> (bitmap a)
  | (None, a') => a' = a ∧ free_blocks a = 0
  end.
Proof.
  intros [Hl Hf Hb]. unfold allocate_block. destruct (free_blocks a =? 0) eqn:H0; reflect; [done|].
  destruct (list_find _ (bitmap a)) as [[i x]|] eqn:Hfind.
  - apply list_find_Some in Hfind as (Hi & -> & _). cbn.
    pose proof (count_flip _ _ _ Hi) as Hcount. cbn in Hcount.
    split_and!; [done| |done|lia|done]. split; cbn; [by rewrite length_insert|lia|done].
  - split; [done|]. destruct (filter (λ u, u = false) (bitmap a)) as [|x l] eqn:Hl'; [done|].
    assert (x ∈ filter (λ u, u = false) (bitmap a)) as [-> [i Hi]%list_elem_of_lookup]%list_elem_of_filter
      by (rewrite Hl'; left).
    by eapply list_find_none_forall in Hfind.
Qed.

Lemma free_block_spec {E} a b :
  allocator_wf a →
  ∃ a', free_block (E := E) b a = (Ok tt, a') ∧ allocator_wf a' ∧ total_blocks a' = total_blocks a ∧
    match bitmap a !! b with
    | Some true => free_blocks a' = S (free_blocks a) ∧ bitmap a' = <[b := false]> (bitmap a)
    | _ => a' = a
    end.
Proof.
  intros [Hl Hf Hb]. unfold free_block, mbind, comp_bind, get.
  destruct (bitmap a !! b) as [[]|] eqn:Hab; [|by exists a..].
  pose proof (count_flip _ _ _ Hab) as Hcount. cbn in Hcount.
  assert (free_blocks a < length (bitmap a)) as Hlt.
  { rewrite Hf. pose proof (length_filter (λ u, u = false) (<[b := false]> (bitmap a))) as Hle.
    rewrite length_insert in Hle. lia. }
  assert (fits 32 (Z.of_nat (free_blocks a) + 1) = Some (Z.of_nat (free_blocks a) + 1)%Z) as ->.
  { apply fits_Some. split; [done|]. unfold u32_max in Hb. lia. }
  cbn. eexists. split; [done|]. cbn. split_and!; [|done|lia|done].
  split; cbn; [by rewrite length_insert|lia|done].
Qed.

(** Allocator [a'] is [a] with the blocks [bs], which were free, in use. *)
Record claimed (a : BlockAllocator) (bs : list nat) (a' : BlockAllocator) : Prop := {
  cl_total : total_blocks a' = total_blocks a;
  cl_bits i : bitmap a' !! i = if decide (i ∈ bs) then Some true else bitmap a !! i;
  cl_new b : b ∈ bs → unused a b;
  cl_distinct : NoDup bs;
  cl_count : free_blocks a = free_blocks a' + length bs;
}.

Lemma claimed_nil a a' : claimed a [] a' ↔ a' = a.
Proof.
  split; [|by intros ->; split; [|intros i; rewrite decide_False by apply not_elem_of_nil|intros b ?%not_elem_of_nil|constructor|cbn; lia]].
  intros [Ht Hb _ _ Hc]. destruct a as [t f bm], a' as [t' f' bm']; cbn in *. f_equal; [done|lia|].
  apply list_eq. intros i. rewrite Hb. by rewrite decide_False by apply not_elem_of_nil.
Qed.

Lemma claimed_permutation a bs bs' a' : bs ≡ₚ bs' → claimed a bs a' → claimed a bs' a'.
Proof.
  intros Hp [? Hb Hn Hd Hc]. split; [done| | |by rewrite <-Hp|by rewrite <-(Permutation_length Hp)].
  - intros i. rewrite Hb. apply decide_ext. by rewrite Hp.
  - intros b. rewrite <-Hp. apply Hn.
Qed.

Lemma claimed_allocate a bs a1 b a2 :
  allocator_wf a1 → claimed a bs a1 → allocate_block a1 = (Some b, a2) →
  allocator_wf a2 ∧ claimed a (bs ++ [b]) a2 ∧ (b ∉ bs) ∧ unused a1 b.
Proof.
  intros Hwf [Ht Hb Hn Hd Hc] Ha. pose proof (allocate_block_spec a1 Hwf) as Hs. rewrite Ha in Hs.
  destruct Hs as (Hu & Hwf2 & Ht2 & Hf2 & Hbm). unfold unused in Hu. pose proof Hu as Hu1. rewrite Hb in Hu.
  case_decide as Hin; [done|]. split_and!; [done| |done|done]. split.
  - congruence.
  - intros i. rewrite Hbm. destruct (decide (i = b)) as [->|Hne].
    + rewrite list_lookup_insert_eq by (by eapply lookup_lt_Some). rewrite decide_True; [done|]. apply elem_of_app. right. by left.
    + rewrite list_lookup_insert_ne, Hb by done. apply decide_ext. rewrite elem_of_app, list_elem_of_singleton. tauto.
  - intros x [Hx| ->%list_elem_of_singleton]%elem_of_app; [by apply Hn|done].
  - apply NoDup_app. split_and!; [done| |apply NoDup_singleton]. by intros x Hx ->%list_elem_of_singleton.
  - rewrite length_app. cbn. lia.
Qed.

Lemma claimed_free {E} a b bs a1 :
  allocator_wf a1 → claimed a (b :: bs) a1 →
  ∃ a2, free_block (E := E) b a1 = (Ok tt, a2) ∧ allocator_wf a2 ∧ claimed a bs a2.
Proof.
  intros Hwf [Ht Hb Hn Hd Hc]. destruct (free_block_spec (E := E) a1 b Hwf) as (a2 & Hrun & Hwf2 & Ht2 & Hs).
  assert (bitmap a1 !! b = Some true) as Hu by (rewrite Hb, decide_True; [done|by left]). rewrite Hu in Hs.
  destruct Hs as [Hf Hbm]. apply NoDup_cons in Hd as [Hni Hd]. exists a2. split_and!; [done|done|]. split.
  - congruence.
  - intros i. rewrite Hbm. destruct (decide (i = b)) as [->|Hne].
    + rewrite list_lookup_insert_eq by (by eapply lookup_lt_Some). rewrite decide_False by done.
      symmetry. apply Hn. by left.
    + rewrite list_lookup_insert_ne, Hb by done. apply decide_ext. rewrite elem_of_cons. tauto.
  - intros x Hx. apply Hn. by right.
  - done.
  - cbn in Hc. lia.
Qed.

Lemma claimed_free_all {E} a bs cs a1 :
  allocator_wf a1 → claimed a (bs ++ cs) a1 →
  ∃ a2, for_each bs (free_block (E := E)) a1 = (Ok tt, a2) ∧ allocator_wf a2 ∧ claimed a cs a2.
Proof.
  revert a1. induction bs as [|b bs IH]; intros a1 Hwf Hc; [by exists a1|]. cbn in Hc.
  destruct (claimed_free (E := E) a b (bs ++ cs) a1 Hwf Hc) as (a2 & Hf & Hwf2 & Hc2).
  destruct (IH a2 Hwf2 Hc2) as (a3 & Hr & ? & ?). exists a3. split_and!; [|done..]. cbn. by erewrite bind_ok by exact Hf.
Qed.

(** ** Staging *)

Lemma for_each_allocator bs a (d : gmap nat bytes) (i : InodeV2) a' :
  for_each bs (free_block (E := FsError)) a = (Ok tt, a') →
  for_each bs (λ b, on_allocator (free_block b)) (mkEngine a d, i) = (Ok tt, (mkEngine a' d, i)).
Proof.
  revert a. induction bs as [|b bs IH]; intros a; cbn; [by intros [= ->]|].
  unfold mbind at 1 2, comp_bind. destruct (free_block b a) as [[[]|e|] a1] eqn:Hf; [|done..]. intros Hr.
  unfold on_allocator, zoom at 1. cbn. rewrite Hf. by apply IH.
Qed.

Lemma alloc_op_run a (d : gmap nat bytes) (i : InodeV2) :
  on_allocator alloc_op (mkEngine a d, i) = (Ok (allocate_block a).1, (mkEngine (allocate_block a).2 d, i)).
Proof. unfold on_allocator, zoom, alloc_op. cbn. by destruct (allocate_block a). Qed.

(** Staging [n] blocks claims [n] free ones, or leaves everything as it was. *)
Lemma stage_spec a n acc a1 d i :
  allocator_wf a1 → claimed a acc a1 →
  ∃ r a2, stage n acc (mkEngine a1 d, i) = (r, (mkEngine a2 d, i)) ∧
    (n ≤ free_blocks a1 → ∃ bs, r = Ok bs ∧ allocator_wf a2 ∧ claimed a bs a2 ∧ length bs = length acc + n) ∧
    (free_blocks a1 < n → r = Err NoSpace ∧ a2 = a).
Proof.
  revert acc a1. induction n as [|n IH]; intros acc a1 Hwf Hc; cbn [stage].
  { eexists _, a1. split; [done|]. split; [|lia]. intros _. exists acc. split_and!; [done..|lia]. }
  rewrite (bind_ok _ _ _ _ _ (alloc_op_run a1 d i)). pose proof (allocate_block_spec a1 Hwf) as Hs.
  destruct (allocate_block a1) as [[b|] a2] eqn:Ha; cbn [fst snd].
  - destruct Hs as (_ & _ & _ & Hf & _). destruct (claimed_allocate a acc a1 b a2 Hwf Hc Ha) as (Hwf2 & Hc2 & _).
    destruct (IH (acc ++ [b]) a2 Hwf2 Hc2) as (r & a3 & Hr & H1 & H2). exists r, a3. split; [done|].
    rewrite length_app in H1. cbn in H1. split; intros Hn.
    + destruct H1 as (bs & ? & ? & ? & ?); [lia|]. exists bs. split_and!; [done..|lia].
    + apply H2. lia.
  - destruct Hs as [-> Hf]. rewrite <-(app_nil_r acc) in Hc.
    destruct (claimed_free_all (E := FsError) a acc [] a1 Hwf Hc) as (a3 & Hr & _ & ->%claimed_nil).
    eexists _, a. split; [by rewrite (bind_ok _ _ _ _ _ (for_each_allocator acc a1 d i a Hr))|].
    split; [lia|done].
Qed.

(** ** Pointer tables *)

(** A table block that holds the pointers [l]. *)
Definition table_of (l : list nat) : bytes := concat ((λ b, to_le 4 (Z.of_nat b)) <$> l).

Lemma length_table_of l : length (table_of l) = length l * 4.
Proof.
  induction l as [|b l IH]; [done|]. change (table_of (b :: l)) with (to_le 4 (Z.of_nat b) ++ table_of l).
  rewrite length_app, length_to_le, IH. cbn [length]. lia.
Qed.

Lemma table_of_zeros : replicate BLOCK_SIZE 0%Z = table_of (replicate PTRS_PER_BLOCK 0).
Proof. vm_compute. reflexivity. Qed.

Lemma table_of_app l1 l2 : table_of (l1 ++ l2) = table_of l1 ++ table_of l2.
Proof. unfold table_of. by rewrite fmap_app, concat_app. Qed.

Lemma table_of_split l m b : l !! m = Some b →
  table_of l = table_of (take m l) ++ to_le 4 (Z.of_nat b) ++ table_of (drop (S m) l) ∧ length (table_of (take m l)) = m * 4.
Proof.
  intros Hm. split.
  - rewrite <-(take_drop_middle l m b Hm) at 1. by rewrite table_of_app.
  - rewrite length_table_of, length_take. apply lookup_lt_Some in Hm. lia.
Qed.

Lemma table_entry_of l m b : l !! m = Some b → (Z.of_nat b ≤ u32_max)%Z → table_entry (table_of l) m = b.
Proof.
  intros Hm Hb. destruct (table_of_split l m b Hm) as [-> Hl]. unfold table_entry.
  rewrite <-Hl, drop_app_length. change 4 with (length (to_le 4 (Z.of_nat b))) at 1. rewrite take_app_length.
  rewrite from_le_to_le; [apply Nat2Z.id|]. unfold u32_max in Hb. cbn. lia.
Qed.

Lemma splice_table l m b b0 : l !! m = Some b0 →
  splice (m * 4) (to_le 4 (Z.of_nat b)) (table_of l) = table_of (<[m := b]> l).
Proof.
  intros Hm. destruct (table_of_split l m b0 Hm) as [Hs Hl]. pose proof (lookup_lt_Some _ _ _ Hm) as Hlt.
  assert (<[m := b]> l !! m = Some b) as Hm' by (by rewrite list_lookup_insert_eq).
  destruct (table_of_split _ _ _ Hm') as [-> _]. rewrite take_insert_ge, drop_insert_lt by lia.
  unfold splice. rewrite Hs at 1 2. rewrite <-Hl, take_app_length. f_equal. f_equal.
  rewrite length_to_le. change 4 with (length (to_le 4 (Z.of_nat b0))) at 1.
  rewrite <-length_app, app_assoc, drop_app_length. done.
Qed.

(** The pointers number [off] to [off + n] of a file whose first [k] blocks have
    been assigned. *)
Definition pointers (staged : list nat) (k off n : nat) : list nat :=
  (λ j, if decide (j < k) then staged !!! j else 0) <$> seq off n.

#[global] Arguments pointers : simpl never.

Lemma length_pointers staged k off n : length (pointers staged k off n) = n.
Proof. unfold pointers. by rewrite length_fmap, length_seq. Qed.

Lemma lookup_pointers staged k off n j : j < n →
  pointers staged k off n !! j = Some (if decide (off + j < k) then staged !!! (off + j) else 0).
Proof. intros Hj. unfold pointers. rewrite list_lookup_fmap, lookup_seq_lt by done. done. Qed.

Lemma pointers_none staged k off n : k ≤ off → pointers staged k off n = replicate n 0.
Proof.
  intros Hk. apply list_eq. intros j. destruct (decide (j < n)) as [Hj|Hj].
  - rewrite lookup_pointers, decide_False by lia. by rewrite lookup_replicate_2.
  - rewrite !lookup_ge_None_2; [done|rewrite length_replicate; lia|rewrite length_pointers; lia].
Qed.

Lemma pointers_assign staged k off n b : off ≤ k < off + n → staged !! k = Some b →
  <[k - off := b]> (pointers staged k off n) = pointers staged (S k) off n.
Proof.
  intros Hk Hb. apply list_eq. intros j. destruct (decide (j < n)) as [Hj|Hj].
  - rewrite lookup_pointers by done. destruct (decide (j = k - off)) as [->|Hne].
    + rewrite list_lookup_insert_eq by (rewrite length_pointers; lia). rewrite decide_True by lia.
      replace (off + (k - off)) with k by lia. by rewrite (list_lookup_total_correct _ _ _ Hb).
    + rewrite list_lookup_insert_ne, lookup_pointers by done. f_equal.
      destruct (decide (off + j < k)); [by rewrite decide_True by lia|by rewrite decide_False by lia].
  - rewrite !lookup_ge_None_2; [done|rewrite length_pointers; lia|rewrite length_insert, length_pointers; lia].
Qed.

Lemma pointers_full staged k k' off n : off + n ≤ k → off + n ≤ k' → pointers staged k off n = pointers staged k' off n.
Proof.
  intros Hk Hk'. apply list_eq. intros j. destruct (decide (j < n)) as [Hj|Hj].
  - by rewrite !lookup_pointers, !decide_True by lia.
  - by rewrite !lookup_ge_None_2 by (rewrite length_pointers; lia).
Qed.

(** ** The write loop *)

Ltac run_get := erewrite bind_ok by reflexivity; cbv beta.

(** An inode without blocks. *)
Definition fresh_inode (i : InodeV2) : Prop :=
  direct_blocks i = replicate DIRECT_BLOCKS_COUNT 0 ∧ indirect_block i = 0 ∧ double_indirect i = 0.

(** Block 0 is reserved, and only blocks in use have data. *)
Record engine_wf (e : SpfsV2Engine) : Prop := {
  ew_allocator : allocator_wf (allocator e);
  ew_reserved : used (allocator e) 0;
  ew_data b v : block_data e !! b = Some v → b ≠ 0 ∧ used (allocator e) b;
}.

Section write.
Context (e : SpfsV2Engine) (i0 : InodeV2) (He : engine_wf e) (Hi0 : fresh_inode i0).
Context (content : bytes) (staged : list nat).
Implicit Types (s : Spfs) (tbl : option nat).

(** The state after [k] of the staged blocks; [tbl] is the indirect table. *)
Record writing (k : nat) tbl s : Prop := {
  wr_allocator : allocator_wf (allocator s.1);
  wr_claimed : claimed (allocator e) (staged ++ option_list tbl) (allocator s.1);
  wr_direct : direct_blocks s.2 = pointers staged k 0 DIRECT_BLOCKS_COUNT;
  wr_indirect : indirect_block s.2 = default 0 tbl;
  wr_double : double_indirect s.2 = 0;
  wr_table t : tbl = Some t →
    block_data s.1 !! t = Some (table_of (pointers staged k DIRECT_BLOCKS_COUNT PTRS_PER_BLOCK));
  wr_tried : if decide (k ≤ DIRECT_BLOCKS_COUNT) then tbl = None
             else tbl = None → free_blocks (allocator s.1) = 0;
  wr_blocks j b : j < k → staged !! j = Some b →
    block_data s.1 !! b = Some (first_block (drop (j * BLOCK_SIZE) content));
  wr_others b : (b ∉ staged) → Some b ≠ tbl → block_data s.1 !! b = block_data e !! b;
}.

Lemma writing_new k tbl s b : writing k tbl s → b ∈ staged ++ option_list tbl →
  b ≠ 0 ∧ unused (allocator e) b ∧ (Z.of_nat b ≤ u32_max)%Z ∧ block_data e !! b = None.
Proof.
  intros Hw Hb. pose proof (cl_new _ _ _ (wr_claimed _ _ _ Hw) b Hb) as Hu. destruct He as [[Hl _ Hm] H0 Hd].
  unfold unused, used in *. split_and!; [by intros ->; congruence|done| |].
  - apply lookup_lt_Some in Hu. lia.
  - destruct (block_data e !! b) as [v|] eqn:Hv; [|done]. apply Hd in Hv as [_ Hv]. congruence.
Qed.

Lemma writing_apart k t s : writing k (Some t) s → t ∉ staged.
Proof.
  intros Hw Ht. pose proof (cl_distinct _ _ _ (wr_claimed _ _ _ Hw)) as Hd. cbn in Hd.
  apply NoDup_app in Hd as (_ & Hn & _). by apply (Hn t Ht), list_elem_of_singleton.
Qed.

Lemma staged_distinct k tbl s : writing k tbl s → NoDup staged.
Proof. intros Hw. pose proof (cl_distinct _ _ _ (wr_claimed _ _ _ Hw)) as Hd. by apply NoDup_app in Hd as (? & _). Qed.

(** The data of block [k] is stored. *)
Definition stored k b (d : gmap nat bytes) : gmap nat bytes :=
  <[b := first_block (drop (k * BLOCK_SIZE) content)]> d.

Lemma blocks_stored k tbl s b j c : writing k tbl s → staged !! k = Some b → j < S k → staged !! j = Some c →
  stored k b (block_data s.1) !! c = Some (first_block (drop (j * BLOCK_SIZE) content)).
Proof.
  intros Hw Hk Hj Hc. unfold stored. destruct (decide (j = k)) as [->|Hne].
  - simplify_eq. by rewrite lookup_insert_eq.
  - rewrite lookup_insert_ne; [eapply wr_blocks; [done|lia|done]|].
    intros ->. apply Hne. by eapply NoDup_lookup; [by eapply staged_distinct|..].
Qed.

Lemma others_stored k tbl s b c : writing k tbl s → staged !! k = Some b → (c ∉ staged) → Some c ≠ tbl →
  stored k b (block_data s.1) !! c = block_data e !! c.
Proof.
  intros Hw Hk Hc Ht. unfold stored. rewrite lookup_insert_ne; [by eapply wr_others|].
  intros ->. apply Hc. by eapply list_elem_of_lookup_2.
Qed.

(** The inode and the engine after the block has been written. *)
Definition with_data k b s : Spfs := (mkEngine (allocator s.1) (stored k b (block_data s.1)), s.2).

Lemma assign_direct k tbl s b :
  writing k tbl s → staged !! k = Some b → k < DIRECT_BLOCKS_COUNT →
  ∃ s', assign_pointer k b (with_data k b s) = (Ok tt, s') ∧ writing (S k) tbl s'.
Proof.
  intros Hw Hk Hlt. pose proof Hw as [H1 H2 H3 H4 H5 H6 H7 H8 H9].
  unfold assign_pointer. rewrite (proj2 (Nat.ltb_lt _ _)) by done. eexists. split; [done|].
  rewrite decide_True in H7 by lia. subst tbl. split; cbn; try done.
  - rewrite H3. replace (<[k := b]> _) with (<[k - 0 := b]> (pointers staged k 0 DIRECT_BLOCKS_COUNT))
      by (by rewrite Nat.sub_0_r). apply pointers_assign; [lia|done].
  - by rewrite decide_True by lia.
  - intros j c Hj Hc. by eapply blocks_stored.
  - intros c Hc Ht. by eapply others_stored.
Qed.

Lemma assign_beyond k tbl s b :
  writing k tbl s → staged !! k = Some b → DIRECT_BLOCKS_COUNT + PTRS_PER_BLOCK ≤ k →
  ∃ s', assign_pointer k b (with_data k b s) = (Ok tt, s') ∧ writing (S k) tbl s'.
Proof.
  intros Hw Hk Hge. pose proof Hw as [H1 H2 H3 H4 H5 H6 H7 H8 H9].
  unfold assign_pointer. rewrite !(proj2 (Nat.ltb_ge _ _)) by lia.
  eexists. split; [done|]. rewrite decide_False in H7 by (change PTRS_PER_BLOCK with 128 in Hge; lia).
  split; cbn; try done.
  - rewrite H3. apply pointers_full; lia.
  - intros t ->. unfold stored. rewrite lookup_insert_ne.
    + rewrite (H6 t eq_refl). f_equal. f_equal. apply pointers_full; lia.
    + intros ->. eapply writing_apart; [exact Hw|]. by eapply list_elem_of_lookup_2.
  - by rewrite decide_False by lia.
  - intros j c Hj Hc. by eapply blocks_stored.
  - intros c Hc Ht. by eapply others_stored.
Qed.

(** Block [k] is entered into the table [t]. *)
Lemma enter_pointer k b :
  staged !! k = Some b → DIRECT_BLOCKS_COUNT ≤ k < DIRECT_BLOCKS_COUNT + PTRS_PER_BLOCK →
  splice ((k - DIRECT_BLOCKS_COUNT) * 4) (to_le 4 (Z.of_nat b))
    (table_of (pointers staged k DIRECT_BLOCKS_COUNT PTRS_PER_BLOCK)) =
  table_of (pointers staged (S k) DIRECT_BLOCKS_COUNT PTRS_PER_BLOCK).
Proof.
  intros Hk Hr. rewrite <-(pointers_assign staged k) with (b := b) by done.
  eapply splice_table. by apply lookup_pointers; lia.
Qed.

(** The pointer of a block in the range of the table goes into the table that
    exists by then; without one it is dropped. *)
Lemma assign_indirect k tbl s b :
  writing k tbl s → staged !! k = Some b → DIRECT_BLOCKS_COUNT ≤ k < DIRECT_BLOCKS_COUNT + PTRS_PER_BLOCK →
  ∃ tbl' s', assign_pointer k b (with_data k b s) = (Ok tt, s') ∧ writing (S k) tbl' s' ∧
    (tbl ≠ None → tbl' = tbl).
Proof.
  intros Hw Hk Hr. pose proof Hw as [H1 H2 H3 H4 H5 H6 H7 H8 H9].
  assert (b ∈ staged) as Hb by (by eapply list_elem_of_lookup_2).
  unfold assign_pointer. rewrite (proj2 (Nat.ltb_ge _ _)), (proj2 (Nat.ltb_lt _ _)) by lia.
  run_get. change (indirect_block (with_data k b s).2) with (indirect_block s.2). destruct tbl as [t|]; rewrite H4; cbn [from_option]; unfold id.
  - destruct (writing_new k (Some t) s t Hw) as (Ht0 & _); [apply elem_of_app; right; by left|].
    pose proof (writing_apart _ _ _ Hw) as Hta. assert (b ≠ t) as Hbt by (by intros ->).
    assert ((t =? 0) = false) as -> by (by apply Nat.eqb_neq).
    run_get. run_get. cbn [with_data fst snd block_data]. rewrite H4. cbn [from_option]. unfold id, stored at 1.
    rewrite lookup_insert_ne by (by intros ->). rewrite (H6 t eq_refl), enter_pointer by done.
    exists (Some t). eexists. split; [done|]. split; [|done].
    assert (DIRECT_BLOCKS_COUNT < k) as Hlt by (destruct (decide (k ≤ DIRECT_BLOCKS_COUNT)); [done|lia]).
    rewrite decide_False in H7 by lia. split; cbn; try done.
    + rewrite H3. apply pointers_full; lia.
    + intros t' [= <-]. by rewrite lookup_insert_eq.
    + by rewrite decide_False by lia.
    + intros j c Hj Hc. rewrite lookup_insert_ne; [by eapply blocks_stored|].
      intros ->. apply Hta. by eapply list_elem_of_lookup_2.
    + intros c Hc Hne. rewrite lookup_insert_ne by (by intros ->). by eapply others_stored.
  - cbn [Nat.eqb]. rewrite app_nil_r in H2. pose proof (allocate_block_spec _ H1) as Hs.
    pose proof (alloc_op_run (allocator s.1) (stored k b (block_data s.1)) s.2) as Hrun.
    destruct (allocate_block (allocator s.1)) as [[t|] a2] eqn:Ha; cbn [fst snd] in Hrun.
    + destruct Hs as (_ & _ & _ & Hf & _). assert (k = DIRECT_BLOCKS_COUNT) as ->.
      { destruct (decide (k ≤ DIRECT_BLOCKS_COUNT)) as [Hle|Hle]; [lia|]. rewrite H7 in Hf by done. lia. }
      destruct (claimed_allocate _ _ _ _ _ H1 H2 Ha) as (Hwf2 & Hc2 & Hta & _). assert (b ≠ t) as Hbt by (by intros ->).
      set (s1 := (mkEngine a2 (<[t := replicate BLOCK_SIZE 0%Z]> (stored DIRECT_BLOCKS_COUNT b (block_data s.1))), set_indirect t s.2)).
      erewrite (bind_ok _ _ _ tt s1) by (by erewrite bind_ok by exact Hrun). run_get.
      cbn [s1 fst snd block_data indirect_block set_indirect]. rewrite lookup_insert_eq, table_of_zeros.
      rewrite <-(pointers_none staged DIRECT_BLOCKS_COUNT DIRECT_BLOCKS_COUNT), enter_pointer by done.
      exists (Some t). eexists. split; [done|]. split; [|done]. split; cbn; try done.
      * intros t' [= <-]. by rewrite lookup_insert_eq.
      * intros j c Hj Hc. assert (c ≠ t) by (intros ->; apply Hta; by eapply list_elem_of_lookup_2).
        rewrite !lookup_insert_ne by done. by eapply blocks_stored.
      * intros c Hc Hne. rewrite !lookup_insert_ne by (by intros ->). by eapply others_stored.
    + destruct Hs as [-> Hf]. erewrite (bind_ok _ _ _ tt (with_data k b s)) by (by erewrite bind_ok by exact Hrun). run_get.
      cbn [with_data fst snd block_data]. rewrite H4. cbn [from_option].
      assert (stored k b (block_data s.1) !! 0 = None) as ->.
      { destruct (writing_new k None s b Hw) as (Hb0 & _); [by apply elem_of_app; left|].
        assert (0 ∉ staged) as H0.
        { intros H0. destruct (writing_new k None s 0 Hw) as (? & _); [by apply elem_of_app; left|done]. }
        rewrite (others_stored k None s) by done. destruct (block_data e !! 0) eqn:Hd; [|done].
        by apply (ew_data _ He) in Hd as [? _]. }
      exists None. eexists. split; [done|]. split; [|done]. split; cbn; try done.
      * by rewrite app_nil_r.
      * rewrite H3. apply pointers_full; lia.
      * by rewrite decide_False by lia.
      * intros j c Hj Hc. by eapply blocks_stored.
      * intros c Hc Hne. by eapply others_stored.
Qed.

Lemma assign_spec k tbl s b :
  writing k tbl s → staged !! k = Some b →
  ∃ tbl' s', assign_pointer k b (with_data k b s) = (Ok tt, s') ∧ writing (S k) tbl' s'.
Proof.
  intros Hw Hk. destruct (decide (k < DIRECT_BLOCKS_COUNT)).
  { destruct (assign_direct k tbl s b Hw Hk) as (s' & ? & ?); [done|]. by exists tbl, s'. }
  destruct (decide (k < DIRECT_BLOCKS_COUNT + PTRS_PER_BLOCK)).
  - destruct (assign_indirect k tbl s b Hw Hk) as (tbl' & s' & ? & ? & _); [lia|]. by exists tbl', s'.
  - destruct (assign_beyond k tbl s b Hw Hk) as (s' & ? & ?); [lia|]. by exists tbl, s'.
Qed.

Lemma write_blocks_step b bs d k :
  d ≠ [] → write_blocks (b :: bs) d k =
    (set_block b (first_block d);; assign_pointer k b;; write_blocks bs (drop BLOCK_SIZE d) (S k)).
Proof. by destruct d. Qed.

Lemma write_blocks_spec k tbl s :
  length staged = (length content + BLOCK_SIZE - 1) / BLOCK_SIZE → k ≤ length staged → writing k tbl s →
  ∃ tbl' s', write_blocks (drop k staged) (drop (k * BLOCK_SIZE) content) k s = (Ok (length staged), s') ∧
    writing (length staged) tbl' s'.
Proof.
  intros Hlen Hle Hw. remember (length staged - k) as n eqn:Hn. revert k tbl s Hle Hn Hw.
  assert (BLOCK_SIZE = 512) as Hbs by done.
  induction n as [|n IH]; intros k tbl s Hle Hn Hw.
  - assert (k = length staged) as -> by lia. exists tbl, s. split; [|done].
    rewrite (drop_ge staged) by lia. rewrite (drop_ge content); [done|]. rewrite Hlen, Hbs.
    pose proof (Nat.div_mod (length content + 512 - 1) 512). pose proof (Nat.mod_upper_bound (length content + 512 - 1) 512). lia.
  - destruct (lookup_lt_is_Some_2 staged k) as [b Hb]; [lia|].
    destruct (assign_spec k tbl s b Hw Hb) as (tbl1 & s1 & Ha & Hw1).
    destruct (IH (S k) tbl1 s1) as (tbl2 & s2 & Hr & Hw2); [lia|lia|done|]. exists tbl2, s2. split; [|done].
    rewrite (drop_S staged b k Hb), write_blocks_step.
    + erewrite bind_ok by reflexivity. erewrite bind_ok by exact Ha. rewrite drop_drop.
      replace (k * BLOCK_SIZE + BLOCK_SIZE) with (S k * BLOCK_SIZE) by lia. exact Hr.
    + intros Hnil. apply (f_equal length) in Hnil. rewrite length_drop in Hnil. cbn [length] in Hnil.
      rewrite Hlen, Hbs in Hn, Hle. rewrite Hbs in Hnil.
      pose proof (Nat.div_mod (length content + 512 - 1) 512). lia.
Qed.
End write.

(** ** Reading back *)

Definition blocks_needed (content : bytes) : nat := (length content + BLOCK_SIZE - 1) / BLOCK_SIZE.

Lemma blocks_needed_enough content : length content ≤ blocks_needed content * BLOCK_SIZE.
Proof.
  unfold blocks_needed. change BLOCK_SIZE with 512.
  pose proof (Nat.div_mod (length content + 512 - 1) 512). pose proof (Nat.mod_upper_bound (length content + 512 - 1) 512). lia.
Qed.

(** Where the on-disk layout finds block [k] of a file. *)
Definition file_block (s : Spfs) (k : nat) : option nat :=
  if k <? DIRECT_BLOCKS_COUNT then direct_blocks s.2 !! k
  else if k <? DIRECT_BLOCKS_COUNT + PTRS_PER_BLOCK then
    table ← block_data s.1 !! indirect_block s.2; Some (table_entry table (k - DIRECT_BLOCKS_COUNT))
  else None.

Definition read_file_back (s : Spfs) : option bytes :=
  blocks ← mapM (λ k, b ← file_block s k; block_data s.1 !! b) (seq 0 (Z.to_nat (block_count s.2)));
  Some (take (Z.to_nat (inode_size s.2)) (concat blocks)).

Lemma join_blocks n (c : bytes) :
  length c ≤ n * BLOCK_SIZE →
  take (length c) (concat ((λ k, first_block (drop (k * BLOCK_SIZE) c)) <$> seq 0 n)) = c.
Proof.
  revert c. induction n as [|n IH]; intros c Hc; [destruct c; [done|cbn in Hc; lia]|].
  rewrite <-cons_seq, fmap_cons. cbn [concat]. rewrite Nat.mul_0_l, drop_0, <-fmap_S_seq, <-list_fmap_compose.
  assert (((λ k, first_block (drop (k * BLOCK_SIZE) c)) ∘ S) <$> seq 0 n =
    (λ k, first_block (drop (k * BLOCK_SIZE) (drop BLOCK_SIZE c))) <$> seq 0 n) as ->.
  { apply list_fmap_ext. intros _ k _. cbn. by rewrite drop_drop. }
  specialize (IH (drop BLOCK_SIZE c)). rewrite length_drop in IH. unfold first_block at 1.
  destruct (decide (length c ≤ BLOCK_SIZE)).
  - rewrite Nat.min_l, <-app_assoc, take_app_le, take_take, Nat.min_id, take_ge; [done|lia|rewrite length_take; lia|lia].
  - rewrite Nat.min_r, Nat.sub_diag by lia. cbn [replicate]. rewrite app_nil_r.
    rewrite take_app_ge by (rewrite length_take; lia). rewrite length_take, Nat.min_l by lia.
    rewrite IH by lia. apply take_drop.
Qed.

Lemma write_unfold content e i :
  content ≠ [] → write_file_transactional content (e, i) =
    (staged ← stage (blocks_needed content) [];
     n ← write_blocks staged content 0;
     on_inode (set_sizes (wrap 32 (Z.of_nat (length content))) (wrap 32 (Z.of_nat n)));;
     mret (length content)) (e, i).
Proof. intros Hc. unfold write_file_transactional. by rewrite bool_decide_eq_false_2. Qed.

(** A write into a fresh inode that finds its blocks. *)
Lemma write_run e i content :
  engine_wf e → fresh_inode i → content ≠ [] → blocks_needed content ≤ free_blocks (allocator e) →
  ∃ staged tbl s, write_file_transactional content (e, i) =
      (Ok (length content), (s.1, set_sizes (wrap 32 (Z.of_nat (length content))) (wrap 32 (Z.of_nat (length staged))) s.2)) ∧
    length staged = blocks_needed content ∧ writing e content staged (length staged) tbl s.
Proof.
  intros He (Hd & Hind & Hdb) Hc Hfree. rewrite write_unfold by done. destruct e as [a d]. pose proof (ew_allocator _ He) as Hwf.
  destruct (stage_spec a (blocks_needed content) [] a d i Hwf) as (r & a1 & Hr & Hok & _); [by apply claimed_nil|].
  destruct (Hok Hfree) as (staged & -> & Hwf1 & Hcl & Hlen). cbn [length Nat.add] in Hlen.
  assert (writing (mkEngine a d) content staged 0 None (mkEngine a1 d, i)) as Hw.
  { split; cbn; try done.
    - by rewrite app_nil_r.
    - intros j b Hj. lia. }
  destruct (write_blocks_spec (mkEngine a d) He content staged 0 None _ Hlen ltac:(lia) Hw) as (tbl & s & Hrun & Hw').
  rewrite drop_0, Nat.mul_0_l, drop_0 in Hrun. exists staged, tbl, s. split_and!; [|done..].
  erewrite bind_ok by exact Hr. erewrite bind_ok by exact Hrun. done.
Qed.

(** The blocks the inode's pointers can reach after a write. *)
Definition reachable_write (e : SpfsV2Engine) (content : bytes) : Prop :=
  blocks_needed content ≤ DIRECT_BLOCKS_COUNT ∧ blocks_needed content ≤ free_blocks (allocator e) ∨
  blocks_needed content ≤ DIRECT_BLOCKS_COUNT + PTRS_PER_BLOCK ∧ blocks_needed content < free_blocks (allocator e).

Lemma writing_table e content staged tbl s :
  writing e content staged (length staged) tbl s →
  free_blocks (allocator e) = free_blocks (allocator s.1) + length staged + length (option_list tbl) ∧
  (tbl = None ↔ length staged ≤ DIRECT_BLOCKS_COUNT ∨ free_blocks (allocator e) = length staged).
Proof.
  intros Hw. pose proof (cl_count _ _ _ (wr_claimed _ _ _ _ _ _ Hw)) as Hc. rewrite length_app in Hc.
  pose proof (wr_tried _ _ _ _ _ _ Hw) as Ht. split; [lia|]. case_decide; [tauto|].
  destruct tbl as [t|]; cbn in Hc; [split; [done|lia]|]. specialize (Ht eq_refl). split; [right; lia|done].
Qed.

Lemma file_block_written e content staged tbl s k b :
  engine_wf e → writing e content staged (length staged) tbl s → staged !! k = Some b →
  (k < DIRECT_BLOCKS_COUNT ∨ k < DIRECT_BLOCKS_COUNT + PTRS_PER_BLOCK ∧ tbl ≠ None) →
  ∀ n m, file_block (s.1, set_sizes n m s.2) k = Some b.
Proof.
  intros He Hw Hk Hr n m. pose proof (lookup_lt_Some _ _ _ Hk) as Hlt. unfold file_block. cbn [fst snd direct_blocks indirect_block set_sizes].
  destruct (k <? DIRECT_BLOCKS_COUNT) eqn:Hd; reflect.
  - rewrite (wr_direct _ _ _ _ _ _ Hw), lookup_pointers by done. cbn [Nat.add].
    by rewrite decide_True, (list_lookup_total_correct _ _ _ Hk) by done.
  - destruct Hr as [?|[Hi Ht]]; [lia|]. rewrite (proj2 (Nat.ltb_lt _ _)) by done.
    destruct tbl as [t|]; [|done]. rewrite (wr_indirect _ _ _ _ _ _ Hw). change (default 0 (Some t)) with t.
    rewrite (wr_table _ _ _ _ _ _ Hw t eq_refl). cbn. f_equal. apply table_entry_of.
    + rewrite lookup_pointers by lia. rewrite decide_True by lia.
      replace (DIRECT_BLOCKS_COUNT + (k - DIRECT_BLOCKS_COUNT)) with k by lia. by rewrite (list_lookup_total_correct _ _ _ Hk).
    + eapply (writing_new e He); [exact Hw|]. apply elem_of_app. left. by eapply list_elem_of_lookup_2.
Qed.

Lemma writing_engine_wf e content staged tbl s :
  engine_wf e → writing e content staged (length staged) tbl s → engine_wf s.1.
Proof.
  intros He Hw. pose proof (wr_claimed _ _ _ _ _ _ Hw) as Hc. split.
  - apply Hw.
  - unfold used. rewrite (cl_bits _ _ _ Hc). case_decide; [done|apply He].
  - intros b v Hv. unfold used. rewrite (cl_bits _ _ _ Hc). case_decide as Hin.
    + split; [|done]. by apply (writing_new e He _ _ _ _ _ b Hw).
    + rewrite (wr_others _ _ _ _ _ _ Hw) in Hv; [by apply He in Hv| |].
      * intros ?. apply Hin, elem_of_app. by left.
      * intros <-. apply Hin, elem_of_app. right. by left.
Qed.

(** C23: A file written into a fresh inode is read back byte for byte through the
    inode's direct and indirect pointers, as long as it needs at most 134 blocks
    and, beyond six, one more free block for the table; the blocks of every other
    file keep their data, and the engine stays well formed. *)
Theorem written_file_reads_back (e : SpfsV2Engine) (i : InodeV2) (content : bytes)
    (He : engine_wf e) (Hi : fresh_inode i) (Hc : content ≠ []) (Hr : reachable_write e content) :
  ∃ s, write_file_transactional content (e, i) = (Ok (length content), s) ∧
    read_file_back s = Some content ∧ engine_wf s.1 ∧
    ∀ b, used (allocator e) b → used (allocator s.1) b ∧ block_data s.1 !! b = block_data e !! b.
Proof.
  destruct (write_run e i content He Hi Hc) as (staged & tbl & s & Hrun & Hlen & Hw); [destruct Hr; lia|].
  eexists. split; [exact Hrun|]. destruct (writing_table _ _ _ _ _ Hw) as [Hcount Htbl].
  assert (length staged ≤ DIRECT_BLOCKS_COUNT + PTRS_PER_BLOCK) as Hle by (destruct Hr; lia).
  assert (length content ≤ length staged * BLOCK_SIZE) as Hsize.
  { rewrite Hlen. apply blocks_needed_enough. }
  assert (Z.of_nat (length staged) < 2 ^ 32 ∧ Z.of_nat (length content) < 2 ^ 32)%Z as [Hs1 Hs2].
  { change (DIRECT_BLOCKS_COUNT + PTRS_PER_BLOCK) with 134 in Hle. change BLOCK_SIZE with 512 in Hsize. lia. }
  split_and!.
  - unfold read_file_back. cbn [fst snd block_count inode_size set_sizes]. unfold wrap.
    rewrite !Z.mod_small, !Nat2Z.id by lia.
    assert (mapM (λ k, b ← file_block (s.1, set_sizes (wrap 32 (Z.of_nat (length content)))
        (wrap 32 (Z.of_nat (length staged))) s.2) k; block_data s.1 !! b) (seq 0 (length staged)) =
      Some ((λ k, first_block (drop (k * BLOCK_SIZE) content)) <$> seq 0 (length staged))) as Hm.
    { apply mapM_Some, Forall2_fmap_r, Forall_Forall2_diag, Forall_forall. intros k [_ Hk]%elem_of_seq.
      destruct (lookup_lt_is_Some_2 staged k) as [b Hb]; [lia|]. erewrite file_block_written; [|done..|].
      - cbn. by eapply (wr_blocks _ _ _ _ _ _ Hw); [lia|].
      - destruct (decide (k < DIRECT_BLOCKS_COUNT)); [by left|right]. split; [lia|]. intros ->.
        destruct Htbl as [Htbl _]. destruct (Htbl eq_refl); [lia|]. destruct Hr; lia. }
    unfold wrap in Hm. rewrite !Z.mod_small in Hm by lia. rewrite Hm. cbn. f_equal. by apply join_blocks.
  - exact (writing_engine_wf e content staged tbl s He Hw).
  - intros b Hb. cbn [fst]. pose proof (wr_claimed _ _ _ _ _ _ Hw) as Hcl. unfold used. rewrite (cl_bits _ _ _ Hcl).
    case_decide as Hin; [apply (cl_new _ _ _ Hcl) in Hin; unfold unused, used in *; congruence|].
    split; [done|]. apply (wr_others _ _ _ _ _ _ Hw).
    + intros ?. apply Hin, elem_of_app. by left.
    + intros <-. apply Hin, elem_of_app. right. by left.
Qed.

(** ** All or nothing *)

Lemma assign_pointer_ok k b s : ∃ s', assign_pointer k b s = (Ok tt, s').
Proof.
  unfold assign_pointer. destruct (k <? DIRECT_BLOCKS_COUNT); [by eexists|].
  destruct (k <? DIRECT_BLOCKS_COUNT + PTRS_PER_BLOCK); [|by eexists]. run_get.
  assert (∀ s, ∃ s', (s ← get; match block_data s.1 !! indirect_block s.2 with
      | Some table => set_block (indirect_block s.2) (splice ((k - DIRECT_BLOCKS_COUNT) * 4) (to_le 4 (Z.of_nat b)) table)
      | None => mret tt end) s = (Ok tt, s')) as Henter.
  { intros s1. run_get. destruct (block_data _ !! _); by eexists. }
  destruct (indirect_block s.2 =? 0).
  - destruct s as [[a d] i]. pose proof (alloc_op_run a d i) as Hrun.
    destruct (allocate_block a).1 as [t|].
    + edestruct Henter as [s' Hs']. exists s'. erewrite (bind_ok _ _ _ tt); [exact Hs'|]. by erewrite bind_ok by exact Hrun.
    + edestruct Henter as [s' Hs']. exists s'. erewrite (bind_ok _ _ _ tt); [exact Hs'|]. by erewrite bind_ok by exact Hrun.
  - run_get. apply Henter.
Qed.

Lemma write_blocks_ok bs d k s : length d ≤ length bs * BLOCK_SIZE → ∃ n s', write_blocks bs d k s = (Ok n, s').
Proof.
  revert d k s. induction bs as [|b bs IH]; intros d k s Hl; (destruct (decide (d = [])) as [->|Hd]; [by eexists _, _|]).
  - destruct d; [done|cbn in Hl; lia].
  - rewrite write_blocks_step by done. run_get.
    edestruct assign_pointer_ok as [s1 Hs1]. erewrite bind_ok by exact Hs1. apply IH.
    rewrite length_drop. cbn [length] in Hl. lia.
Qed.

(** A write is all or nothing: it succeeds exactly when there are as many free
    blocks as the data needs, and when there are not it reports [NoSpace] and
    leaves the allocator (bit for bit), the stored blocks and the inode as they
    were; it never panics, whatever the inode already points to. *)
Theorem write_is_all_or_nothing (e : SpfsV2Engine) (i : InodeV2) (content : bytes)
    (He : allocator_wf (allocator e)) :
  let '(r, s) := write_file_transactional content (e, i) in
  (blocks_needed content ≤ free_blocks (allocator e) → r = Ok (length content)) ∧
  (free_blocks (allocator e) < blocks_needed content → r = Err NoSpace ∧ s = (e, i)).
Proof.
  destruct (decide (content = [])) as [->|Hc].
  { split; [done|]. change (blocks_needed []) with 0. lia. }
  rewrite write_unfold by done. destruct e as [a d]. cbn in He.
  destruct (stage_spec a (blocks_needed content) [] a d i He) as (r & a1 & Hr & Hok & Hno); [by apply claimed_nil|].
  destruct (decide (blocks_needed content ≤ free_blocks a)) as [Hle|Hgt].
  - destruct (Hok Hle) as (staged & -> & _ & _ & Hlen). cbn [length Nat.add] in Hlen.
    destruct (write_blocks_ok staged content 0 (mkEngine a1 d, i)) as (n & s & Hw); [rewrite Hlen; apply blocks_needed_enough|].
    erewrite bind_ok by exact Hr. erewrite bind_ok by exact Hw. erewrite bind_ok by reflexivity. cbn. split; [done|lia].
  - destruct Hno as [-> ->]; [lia|]. erewrite bind_err by exact Hr. cbn. split; [lia|done].
Qed.

(** ** Reclaiming *)

(** [d] without the blocks [bs]. *)
Definition without (bs : list nat) (d : gmap nat bytes) : gmap nat bytes := foldr delete d bs.

Lemma lookup_without bs d b : without bs d !! b = if decide (b ∈ bs) then None else d !! b.
Proof.
  induction bs as [|c bs IH]; cbn.
  - by rewrite decide_False by apply not_elem_of_nil.
  - fold (without bs d). destruct (decide (b = c)) as [->|Hne].
    + rewrite lookup_delete_eq. by rewrite decide_True by left.
    + rewrite lookup_delete_ne, IH by done. apply decide_ext. rewrite elem_of_cons. tauto.
Qed.

Lemma without_commute b bs d : without bs (delete b d) = delete b (without bs d).
Proof. induction bs as [|c bs IH]; [done|]. cbn. unfold without in IH. by rewrite IH, delete_delete. Qed.

(** Freeing one block that is in use and forgetting its data. *)
Lemma release_block a b bs a1 d i :
  allocator_wf a1 → claimed a (b :: bs) a1 →
  ∃ a2, (on_allocator (free_block b);; remove_block b) (mkEngine a1 d, i) = (Ok tt, (mkEngine a2 (delete b d), i)) ∧
    free_block (E := FsError) b a1 = (Ok tt, a2) ∧ allocator_wf a2 ∧ claimed a bs a2.
Proof.
  intros Hwf Hc. destruct (claimed_free (E := FsError) a b bs a1 Hwf Hc) as (a2 & Hf & ? & ?).
  exists a2. split_and!; [|done..]. erewrite (bind_ok _ _ _ tt (mkEngine a2 d, i)); [reflexivity|].
  unfold on_allocator, zoom. cbn. by rewrite Hf.
Qed.

(** A table body frees the pointers of the table that are not null. *)
Lemma reclaim_entries a live z cs a1 d i l0 :
  allocator_wf a1 → claimed a (live ++ cs) a1 → 0 ∉ live → Forall (λ b, Z.of_nat b ≤ u32_max)%Z (l0 ++ live) →
  ∃ a2, for_each (seq (length l0) (length live + z)) (reclaim_entry (table_of (l0 ++ live ++ replicate z 0)))
      (mkEngine a1 d, i) = (Ok tt, (mkEngine a2 (without live d), i)) ∧ allocator_wf a2 ∧ claimed a cs a2.
Proof.
  revert a1 d l0. induction live as [|b live IH]; intros a1 d l0 Hwf Hc H0 Hb.
  - cbn in *. exists a1. split_and!; [|done..]. revert l0 Hb. induction z as [|z IH]; intros l0 Hb; [done|].
    cbn [Nat.add seq for_each]. assert (reclaim_entry (table_of (l0 ++ replicate (S z) 0)) (length l0) = mret tt) as ->.
    { unfold reclaim_entry. rewrite (table_entry_of _ _ 0); [done| |done].
      rewrite lookup_app_r by lia. by rewrite Nat.sub_diag. }
    run_get. specialize (IH (l0 ++ [0])). rewrite length_app in IH. cbn [length] in IH. rewrite Nat.add_1_r in IH.
    change (replicate (S z) 0) with ([0] ++ replicate z 0). rewrite (app_assoc l0). apply IH. apply Forall_app in Hb as [? _]. rewrite app_nil_r. apply Forall_app. split; [done|].
    by repeat constructor.
  - apply not_elem_of_cons in H0 as [Hb0 H0]. pose proof Hb as Hball. apply Forall_app in Hb as [Hl0 Hb]. apply Forall_cons in Hb as [Hbb Hb].
    destruct (release_block a b (live ++ cs) a1 d i Hwf Hc) as (a2 & Hr & Hf & Hwf2 & Hc2).
    destruct (IH a2 (delete b d) (l0 ++ [b]) Hwf2 Hc2 H0) as (a3 & Hr3 & Hwf3 & Hc3).
    { rewrite <-app_assoc. done. }
    exists a3. split_and!; [|done..]. cbn [length Nat.add seq for_each].
    assert (reclaim_entry (table_of (l0 ++ (b :: live) ++ replicate z 0)) (length l0) =
      (on_allocator (free_block b);; remove_block b)) as ->.
    { unfold reclaim_entry. rewrite (table_entry_of _ _ b); [by destruct b| |done].
      rewrite lookup_app_r by lia. by rewrite Nat.sub_diag. }
    erewrite bind_ok by exact Hr. rewrite length_app, <-!app_assoc in Hr3. cbn [length app] in Hr3.
    rewrite Nat.add_1_r in Hr3. cbn [app]. rewrite Hr3. by rewrite without_commute.
Qed.

(** The direct pointers are freed and cleared. *)
Lemma reclaim_directs a live z cs a1 d i k :
  allocator_wf a1 → claimed a (live ++ cs) a1 → 0 ∉ live → direct_blocks i = replicate k 0 ++ live ++ replicate z 0 →
  ∃ a2, for_each (seq k (length live + z)) reclaim_direct (mkEngine a1 d, i) =
      (Ok tt, (mkEngine a2 (without live d), set_direct (replicate (k + (length live + z)) 0) i)) ∧
    allocator_wf a2 ∧ claimed a cs a2.
Proof.
  revert a1 d i k. induction live as [|b live IH]; intros a1 d i k Hwf Hc H0 Hi.
  - cbn in *. exists a1. split_and!; [|done..]. revert k Hi. induction z as [|z IH]; intros k Hi.
    + cbn [replicate app] in Hi. rewrite app_nil_r in Hi. cbn. rewrite Nat.add_0_r, <-Hi. by destruct i.
    + cbn [seq for_each]. assert (reclaim_direct k (mkEngine a1 d, i) = (Ok tt, (mkEngine a1 d, i))) as Hk.
      { unfold reclaim_direct. run_get. cbn [snd]. rewrite Hi, lookup_app_r by (rewrite length_replicate; lia).
        by rewrite length_replicate, Nat.sub_diag. }
      erewrite bind_ok by exact Hk. rewrite (IH (S k)); [by rewrite Nat.add_succ_comm|].
      rewrite Hi. change (replicate (S z) 0) with ([0] ++ replicate z 0). rewrite app_assoc. f_equal.
      change [0] with (replicate 1 0). by rewrite <-replicate_add, Nat.add_1_r.
  - apply not_elem_of_cons in H0 as [Hb0 H0].
    destruct (release_block a b (live ++ cs) a1 d i Hwf Hc) as (a2 & Hr & Hf & Hwf2 & Hc2).
    destruct (IH a2 (delete b d) (set_direct (replicate (S k) 0 ++ live ++ replicate z 0) i) (S k) Hwf2 Hc2 H0)
      as (a3 & Hr3 & Hwf3 & Hc3); [done|].
    exists a3. split_and!; [|done..]. cbn [length Nat.add seq for_each].
    assert (reclaim_direct k (mkEngine a1 d, i) =
      (Ok tt, (mkEngine a2 (delete b d), set_direct (replicate (S k) 0 ++ live ++ replicate z 0) i))) as Hk.
    { unfold reclaim_direct. run_get. cbn [snd]. rewrite Hi, lookup_app_r by (rewrite length_replicate; lia).
      rewrite length_replicate, Nat.sub_diag. cbn [app lookup list_lookup].
      assert ((b =? 0) = false) as -> by (by apply Nat.eqb_neq).
      unfold on_allocator, zoom, mbind, comp_bind. cbn [fst snd allocator]. rewrite Hf. cbn [with_allocator remove_block on_inode modify fst snd allocator block_data].
      unfold on_inode, modify. cbn [snd fst]. rewrite Hi, insert_app_r_alt, length_replicate, Nat.sub_diag by (rewrite length_replicate; lia). 
      change (<[0:=0]> ((b :: live) ++ replicate z 0)) with ([0] ++ live ++ replicate z 0).
      by rewrite (assoc_L (++) (replicate k 0)), <-replicate_S_end. }
    erewrite bind_ok by exact Hk. rewrite Hr3. by rewrite without_commute, Nat.add_succ_comm.
Qed.

Lemma pointers_live staged off n :
  pointers staged (length staged) off n =
    take n (drop off staged) ++ replicate (n - length (take n (drop off staged))) 0.
Proof.
  assert (length (take n (drop off staged)) = n `min` (length staged - off)) as Hl by (by rewrite length_take, length_drop).
  apply list_eq. intros j. destruct (decide (j < n)) as [Hj|Hj].
  - rewrite lookup_pointers by done. case_decide.
    + rewrite lookup_app_l by lia. rewrite lookup_take_lt, lookup_drop by done. symmetry. apply list_lookup_lookup_total_lt. lia.
    + rewrite lookup_app_r by lia. symmetry. apply lookup_replicate_2. lia.
  - rewrite !lookup_ge_None_2; [done| |rewrite length_pointers; lia].
    rewrite length_app, length_replicate. lia.
Qed.

(** The indirect table, its blocks and the pointer to it are given up. *)
Lemma reclaim_table_run a live z t cs a1 d i :
  allocator_wf a1 → claimed a (live ++ t :: cs) a1 → 0 ∉ live → Forall (λ b, Z.of_nat b ≤ u32_max)%Z live →
  length live + z = PTRS_PER_BLOCK → d !! t = Some (table_of (live ++ replicate z 0)) →
  ∃ a2, (reclaim_table reclaim_entry t;; on_allocator (free_block t);; on_inode (set_indirect 0)) (mkEngine a1 d, i) =
      (Ok tt, (mkEngine a2 (without live (delete t d)), set_indirect 0 i)) ∧ allocator_wf a2 ∧ claimed a cs a2.
Proof.
  intros Hwf Hc H0 Hb Hz Ht.
  destruct (reclaim_entries a live z (t :: cs) a1 (delete t d) i [] Hwf Hc H0 Hb) as (a2 & Hr & Hwf2 & Hc2).
  destruct (claimed_free (E := FsError) a t cs a2 Hwf2 Hc2) as (a3 & Hf & Hwf3 & Hc3).
  exists a3. split_and!; [|done..]. cbn [length app] in Hr. rewrite Hz in Hr.
  erewrite (bind_ok _ _ _ tt (mkEngine a2 (without live (delete t d)), i)).
  - erewrite (bind_ok _ _ _ tt (mkEngine a3 (without live (delete t d)), i)); [done|].
    unfold on_allocator, zoom. cbn. by rewrite Hf.
  - unfold reclaim_table. run_get. cbn [fst block_data]. rewrite Ht. erewrite bind_ok by reflexivity. exact Hr.
Qed.

(** The blocks that the inode's pointers do not reach. *)
Definition unreached (staged : list nat) (tbl : option nat) : list nat :=
  match tbl with
  | None => drop DIRECT_BLOCKS_COUNT staged
  | Some _ => drop PTRS_PER_BLOCK (drop DIRECT_BLOCKS_COUNT staged)
  end.

Lemma elem_of_prefix (l : list nat) k b : NoDup l → ((b ∈ l) ∧ (b ∉ drop k l)) ↔ b ∈ take k l.
Proof.
  intros Hd. rewrite <-(take_drop k l) in Hd at 1. apply NoDup_app in Hd as (_ & Hn & _).
  rewrite <-(take_drop k l) at 1. rewrite elem_of_app. split; [tauto|]. intros Hb. split; [by left|by apply Hn].
Qed.

Section truncate.
Context (e : SpfsV2Engine) (content : bytes) (staged : list nat) (tbl : option nat).
Context (He : engine_wf e).

Lemma staged_sound s : writing e content staged (length staged) tbl s →
  (0 ∉ staged) ∧ Forall (λ b, Z.of_nat b ≤ u32_max)%Z staged.
Proof.
  intros Hw. split.
  - intros H0. by destruct (writing_new e He _ _ _ _ _ 0 Hw) as [? _]; [apply elem_of_app; left|].
  - apply Forall_forall. intros b Hb. apply (writing_new e He _ _ _ _ _ b Hw), elem_of_app. by left.
Qed.

Lemma truncate_run s n m : writing e content staged (length staged) tbl s →
  ∃ s', truncate_and_reclaim (s.1, set_sizes n m s.2) = (Ok tt, s') ∧
    fresh_inode s'.2 ∧ inode_size s'.2 = 0%Z ∧ allocator_wf (allocator s'.1) ∧
    claimed (allocator e) (unreached staged tbl) (allocator s'.1) ∧
    ∀ b, block_data s'.1 !! b =
      if decide ((b ∈ staged ++ option_list tbl) ∧ (b ∉ unreached staged tbl)) then None else block_data s.1 !! b.
Proof.
  intros Hw. destruct (staged_sound s Hw) as [H0 Hbound]. destruct s as [[a1 d] i]. pose proof Hw as [H1 H2 H3 H4 H5 H6 _ _ _].
  cbn [fst snd allocator block_data] in *. set (l1 := take DIRECT_BLOCKS_COUNT staged).
  set (l2 := take PTRS_PER_BLOCK (drop DIRECT_BLOCKS_COUNT staged)).
  assert (staged = l1 ++ drop DIRECT_BLOCKS_COUNT staged) as Hs1 by (symmetry; apply take_drop).
  assert (drop DIRECT_BLOCKS_COUNT staged = l2 ++ drop PTRS_PER_BLOCK (drop DIRECT_BLOCKS_COUNT staged)) as Hs2
    by (symmetry; apply take_drop).
  assert ((0 ∉ l1) ∧ (0 ∉ l2)) as [H01 H02].
  { split; intros Hin; apply H0; [by eapply elem_of_taken|by eapply elem_of_dropped, elem_of_taken]. }
  rewrite pointers_live, drop_0 in H3. fold l1 in H3.
  assert (length l1 + (DIRECT_BLOCKS_COUNT - length l1) = DIRECT_BLOCKS_COUNT) as Hl1.
  { unfold l1. rewrite length_take. lia. }
  rewrite Hs1 in H2 at 1. rewrite <-app_assoc in H2.
  destruct (reclaim_directs (allocator e) l1 (DIRECT_BLOCKS_COUNT - length l1) (drop DIRECT_BLOCKS_COUNT staged ++ option_list tbl)
    a1 d (set_sizes n m i) 0 H1 H2 H01 H3) as (a2 & Hr2 & Hwf2 & Hc2). rewrite Hl1 in Hr2. cbn [Nat.add] in Hr2.
  unfold truncate_and_reclaim. erewrite bind_ok by exact Hr2. run_get. cbn [snd set_direct set_sizes indirect_block].
  destruct tbl as [t|]; rewrite H4.
  - change (default 0 (Some t)) with t. rewrite Hs2, <-app_assoc in Hc2.
    assert (t ≠ 0 ∧ (t ∉ staged)) as [Ht0 Hta].
    { split; [|by eapply writing_apart].
      by destruct (writing_new e He _ _ _ _ _ t Hw) as [? _]; [apply elem_of_app; right; left|]. }
    assert ((t =? 0) = false) as -> by (by apply Nat.eqb_neq).
    destruct (reclaim_table_run (allocator e) l2 (PTRS_PER_BLOCK - length l2) t
      (drop PTRS_PER_BLOCK (drop DIRECT_BLOCKS_COUNT staged)) a2 (without l1 d)
      (set_direct (replicate DIRECT_BLOCKS_COUNT 0) (set_sizes n m i))) as (a4 & Hr4 & Hwf4 & Hc4); [done| |done| | | |].
    + eapply claimed_permutation; [|exact Hc2]. cbn [option_list]. apply Permutation_app_head.
      by rewrite Permutation_app_comm.
    + unfold l2. by apply Forall_take, Forall_drop.
    + assert (length l2 ≤ PTRS_PER_BLOCK) by (unfold l2; rewrite length_take; lia). lia.
    + rewrite lookup_without, decide_False by (intros ?%elem_of_taken; done). by rewrite (H6 t eq_refl), pointers_live.
    + erewrite bind_ok by exact Hr4. run_get. cbn [snd set_direct set_sizes set_indirect double_indirect].
      rewrite H5. cbn [Nat.eqb]. run_get. eexists. split; [reflexivity|]. cbn [fst snd allocator block_data].
      split_and!; [done|done|done|done|]. intros b. rewrite lookup_without, lookup_delete, lookup_without. cbn [unreached option_list].
      pose proof (elem_of_prefix staged (DIRECT_BLOCKS_COUNT + PTRS_PER_BLOCK) b (staged_distinct _ _ _ _ _ _ Hw)) as Hp.
      rewrite <-take_take_drop, <-drop_drop, elem_of_app in Hp. fold l1 l2 in Hp.
      assert (b ∈ staged ++ [t] ↔ b ∈ staged ∨ t = b) as Hst
        by (rewrite elem_of_app, list_elem_of_singleton; naive_solver).
      assert (t = b → b ∉ drop PTRS_PER_BLOCK (drop DIRECT_BLOCKS_COUNT staged)) as Htn
        by (intros <- Hin; by apply Hta; eapply elem_of_dropped, elem_of_dropped).
      repeat case_decide; naive_solver.
  - change (default 0 None) with 0. cbn [Nat.eqb]. run_get. run_get. cbn [snd set_direct set_sizes double_indirect].
    rewrite H5. cbn [Nat.eqb]. run_get. eexists. split; [reflexivity|]. cbn [fst snd allocator block_data].
    split_and!; [done|done|done| |].
    + cbn in Hc2. by rewrite app_nil_r in Hc2.
    + intros b. rewrite lookup_without. apply decide_ext. cbn [unreached option_list]. rewrite app_nil_r.
      symmetry. apply elem_of_prefix. by eapply staged_distinct.
Qed.
End truncate.

(** The number of blocks of a write that no pointer reaches: those after the
    sixth when no block is left for the table, and those after the table's last
    entry, since nothing ever fills the double-indirect table. *)
Definition lost_blocks (e : SpfsV2Engine) (content : bytes) : nat :=
  let n := blocks_needed content in
  if n <=? DIRECT_BLOCKS_COUNT then 0
  else if n =? free_blocks (allocator e) then n - DIRECT_BLOCKS_COUNT
  else n - (DIRECT_BLOCKS_COUNT + PTRS_PER_BLOCK).

(** Truncating what was written gives back the blocks that the inode reaches and
    no others. Small files leave the engine exactly as it was before the write;
    a file of more than 134 blocks (or of more than six that takes the last free
    block) is reported as written although its tail is not reachable, and that
    tail stays allocated for ever. *)
Theorem truncation_loses_the_tail (e : SpfsV2Engine) (i : InodeV2) (content : bytes)
    (He : engine_wf e) (Hi : fresh_inode i) (Hc : content ≠ [])
    (Hfree : blocks_needed content ≤ free_blocks (allocator e)) :
  ∃ s s' lost, write_file_transactional content (e, i) = (Ok (length content), s) ∧
    truncate_and_reclaim s = (Ok tt, s') ∧ length lost = lost_blocks e content ∧
    free_blocks (allocator e) = free_blocks (allocator s'.1) + length lost ∧
    (∀ b, used (allocator s'.1) b ↔ used (allocator e) b ∨ b ∈ lost) ∧
    fresh_inode s'.2 ∧ inode_size s'.2 = 0%Z ∧ (lost = [] → s'.1 = e).
Proof.
  destruct (write_run e i content He Hi Hc Hfree) as (staged & tbl & s & Hrun & Hlen & Hw).
  destruct (truncate_run e content staged tbl He s (wrap 32 (Z.of_nat (length content)))
    (wrap 32 (Z.of_nat (length staged))) Hw) as (s' & Htr & Hfresh & Hsz & Hwf & Hcl & Hdata).
  eexists _, s', (unreached staged tbl). split; [exact Hrun|]. split; [exact Htr|].
  destruct (writing_table _ _ _ _ _ Hw) as [Hcount Htbl]. rewrite Hlen in Htbl.
  split; [|split; [exact (cl_count _ _ _ Hcl)|split; [|split_and!; [done|done|]]]].
  - unfold lost_blocks. destruct (blocks_needed content <=? DIRECT_BLOCKS_COUNT) eqn:H6; reflect.
    + destruct tbl as [t|]; [by destruct Htbl as [_ Htbl]; discriminate Htbl; left|]. cbn. rewrite length_drop. lia.
    + destruct (blocks_needed content =? _) eqn:Hf; reflect.
      * destruct tbl as [t|]; [by destruct Htbl as [_ Htbl]; discriminate Htbl; right|]. cbn. rewrite length_drop. lia.
      * destruct tbl as [t|]; [cbn; rewrite !length_drop; lia|]. destruct Htbl as [Htbl _]. destruct (Htbl eq_refl); lia.
  - intros b. unfold used. rewrite (cl_bits _ _ _ Hcl). case_decide; [tauto|]. naive_solver.
  - intros Hnil. rewrite Hnil in *. apply claimed_nil in Hcl. destruct s' as [[a' d'] i'], e as [a d]. cbn in *. subst a'.
    f_equal. apply map_eq. intros b. rewrite Hdata. case_decide as Hb.
    + symmetry. destruct Hb as [Hb _]. by apply (writing_new _ He _ _ _ _ _ b Hw).
    + apply (wr_others _ _ _ _ _ _ Hw).
      * intros ?. apply Hb. split; [apply elem_of_app; by left|apply not_elem_of_nil].
      * intros <-. apply Hb. split; [apply elem_of_app; right; by left|apply not_elem_of_nil].
Qed.

(** ** A small disk *)

Definition new_inode : InodeV2 := mkInode 1 1 3 420 0 0 0 0 (replicate DIRECT_BLOCKS_COUNT 0) 0 0.

Lemma engine_new_wf n : 0 < n → (Z.of_nat n ≤ u32_max)%Z → engine_wf (engine_new n).
Proof.
  intros Hn Hb. split; cbn; [by apply allocator_new_wf| |done].
  unfold used, allocator_new. destruct n; [lia|]. done.
Qed.

Lemma free_engine_new n : free_blocks (allocator (engine_new n)) = n - 1.
Proof. done. Qed.

(** A file of eight blocks. *)
Definition demo_file : bytes := (λ k, (Z.of_nat k) mod 256)%Z <$> seq 0 4000.

Lemma write_is_all_or_nothing_witness :
  write_file_transactional demo_file (engine_new 8, new_inode) = (Err NoSpace, (engine_new 8, new_inode)).
Proof.
  pose proof (write_is_all_or_nothing (engine_new 8) new_inode demo_file (ew_allocator _ (engine_new_wf 8 ltac:(lia) ltac:(done)))) as H.
  destruct (write_file_transactional _ _) as [r s]. destruct H as [_ H].
  destruct H as [-> ->]; [|done]. apply (bool_decide_unpack _). vm_compute. exact I.
Defined.

Lemma written_file_reads_back_witness :
  read_file_back (write_file_transactional demo_file (engine_new 20, new_inode)).2 = Some demo_file.
Proof.
  destruct (written_file_reads_back (engine_new 20) new_inode demo_file) as (s & Hw & Hr & _).
  - by apply engine_new_wf; [lia|].
  - done.
  - done.
  - right. split; apply (bool_decide_unpack _); vm_compute; exact I.
  - rewrite Hw. exact Hr.
Defined.

(** The same file when it takes the last free block: two of its eight blocks are lost. *)
Lemma truncation_loses_the_tail_witness :
  ∃ s', truncate_and_reclaim (write_file_transactional demo_file (engine_new 9, new_inode)).2 = (Ok tt, s') ∧
    free_blocks (allocator s'.1) = 6.
Proof.
  destruct (truncation_loses_the_tail (engine_new 9) new_inode demo_file) as (s & s' & lost & Hw & Ht & Hl & Hf & _).
  - by apply engine_new_wf; [lia|].
  - done.
  - done.
  - apply (bool_decide_unpack _). vm_compute. exact I.
  - exists s'. rewrite Hw. split; [exact Ht|]. rewrite Hl in Hf.
    assert (lost_blocks (engine_new 9) demo_file = 2) as Hn by (vm_compute; reflexivity).
    rewrite Hn, free_engine_new in Hf. lia.
Defined.
