(* ===== verification/JournalProps.v ===== *)
(** * The SPFS journal and the block cache: properties

    The cache is a bounded map with least-frequently-used eviction; the journal
    sector is read back as it was written; recovery frees the blocks of the
    allocations that were not committed. *)
From S2P Require Import Prelude Bytes Disk Spfs SpfsProps Journal.

(** ** The cache as a map *)

(** What the cache knows about a sector. *)
Definition cache_map (c : BlockCache) (n : Z) : option bytes := data ∘ snd <$> list_find (holds_lba n) c.

Record cache_wf (c : BlockCache) : Prop := {
  cw_length : length c = CACHE_BLOCKS;
  cw_unique i j e e' : c !! i = Some e → c !! j = Some e' → cached e = true → cached e' = true → lba e = lba e' → i = j;
  cw_count i e : c !! i = Some e → (0 ≤ access_count e ≤ u32_max)%Z;
}.

Lemma cache_new_wf : cache_wf cache_new.
Proof.
  split; [done| |].
  - by intros i j e e' [-> _]%lookup_replicate.
  - by intros i e [-> _]%lookup_replicate.
Qed.

Lemma cache_map_Some c n v :
  cache_wf c → cache_map c n = Some v ↔ ∃ i e, c !! i = Some e ∧ holds_lba n e ∧ data e = v.
Proof.
  intros Hwf. unfold cache_map. split.
  - intros ([i e] & Hf & ->)%fmap_Some. apply list_find_Some in Hf as (Hi & He & _). by exists i, e.
  - intros (i & e & Hi & He & <-). destruct (list_find (holds_lba n) c) as [[j e']|] eqn:Hf.
    + apply list_find_Some in Hf as (Hj & [Hc' Hl'] & _). destruct He as [Hc Hl].
      assert (i = j) as <- by (eapply (cw_unique _ Hwf); [done..|congruence]). assert (e' = e) as -> by congruence. done.
    + by eapply list_find_none_forall in Hf.
Qed.

Lemma option_ext_some {A} (o1 o2 : option A) : (∀ v, o1 = Some v ↔ o2 = Some v) → o1 = o2.
Proof.
  intros H. destruct o1 as [a|]; [symmetry; by apply H|]. destruct o2 as [b|]; [|done]. by apply H.
Qed.

(** Entry [i] is replaced by [e'], which holds sector [n]. *)
Lemma cache_replace c i e e' n :
  cache_wf c → c !! i = Some e → holds_lba n e' → (0 ≤ access_count e' ≤ u32_max)%Z →
  (holds_lba n e ∨ cache_map c n = None) →
  cache_wf (<[i := e']> c) ∧ cache_map (<[i := e']> c) n = Some (data e') ∧
  ∀ m, m ≠ n → cache_map (<[i := e']> c) m = if decide (holds_lba m e) then None else cache_map c m.
Proof.
  intros Hwf Hi [Hc' Hl'] Hcount Hor. pose proof (lookup_lt_Some _ _ _ Hi) as Hlt.
  assert (∀ j x, c !! j = Some x → holds_lba n x → j = i) as Honly.
  { intros j x Hj [Hcx Hlx]. destruct Hor as [[Hce Hle]|Hnone].
    - eapply (cw_unique _ Hwf); [done..|congruence].
    - exfalso. assert (cache_map c n = Some (data x)) by (apply cache_map_Some; [done|by exists j, x]). congruence. }
  assert (cache_wf (<[i := e']> c)) as Hwf'.
  { split; [by rewrite length_insert, (cw_length _ Hwf)| |].
    - intros j k x y [[-> ->]|[? Hj]]%list_lookup_insert_cases [[-> ->]|[? Hk]]%list_lookup_insert_cases Hx Hy Hxy; [done|..].
      + symmetry. eapply Honly; [exact Hk|]. split; [done|congruence].
      + eapply Honly; [exact Hj|]. split; [done|congruence].
      + by eapply (cw_unique _ Hwf).
    - intros j x [[_ ->]|[_ Hj]]%list_lookup_insert_cases; [done|by eapply (cw_count _ Hwf)]. }
  split; [done|]. split.
  - apply cache_map_Some; [done|]. exists i, e'. by rewrite list_lookup_insert_eq.
  - intros m Hm. apply option_ext_some. intros v. rewrite cache_map_Some by done. split.
    + intros (j & x & [[-> ->]|[Hne Hj]]%list_lookup_insert_cases & [Hcx Hlx] & <-); [congruence|].
      rewrite decide_False; [apply cache_map_Some; [done|by exists j, x]|].
      intros [Hce Hle]. apply Hne. eapply (cw_unique _ Hwf); [exact Hj|exact Hi|done..|congruence].
    + case_decide as He; [done|]. intros (j & x & Hj & Hx & <-)%cache_map_Some; [|done].
      exists j, x. rewrite list_lookup_insert_ne; [done|]. intros <-. by simplify_eq.
Qed.

(** The search finds an entry of least count, or keeps the start when every
    count is at its maximum. *)
Lemma least_used_spec c k min_idx min_count :
  let i := least_used c k min_idx min_count in
  (i = min_idx ∧ (∀ e, e ∈ c → (min_count ≤ access_count e)%Z)) ∨
  (k ≤ i ∧ ∃ e, c !! (i - k) = Some e ∧ (access_count e < min_count)%Z ∧ ∀ e', e' ∈ c → (access_count e ≤ access_count e')%Z).
Proof.
  revert k min_idx min_count. induction c as [|x c IH]; intros k min_idx min_count; cbn.
  { left. split; [done|]. by intros e ?%elem_of_nil. }
  destruct (access_count x <? min_count)%Z eqn:Hx; reflect.
  - destruct (IH (S k) k (access_count x)) as [[-> Hall]|(Hk & e & He & Hlt & Hall)].
    + right. split; [lia|]. exists x. rewrite Nat.sub_diag. split_and!; [done|done|].
      intros e' [->|He']%elem_of_cons; [lia|by apply Hall].
    + right. split; [lia|]. exists e.
      replace (least_used c (S k) k (access_count x) - k) with (S (least_used c (S k) k (access_count x) - S k)) by lia.
      split_and!; [done|lia|]. intros e' [->|He']%elem_of_cons; [lia|by apply Hall].
  - destruct (IH (S k) min_idx min_count) as [[-> Hall]|(Hk & e & He & Hlt & Hall)].
    + left. split; [done|]. intros e' [->|He']%elem_of_cons; [lia|by apply Hall].
    + right. split; [lia|]. exists e.
      replace (least_used c (S k) min_idx min_count - k) with (S (least_used c (S k) min_idx min_count - S k)) by lia.
      split_and!; [done|lia|]. intros e' [->|He']%elem_of_cons; [lia|by apply Hall].
Qed.

(** In a cache the search finds a least used entry. *)
Lemma victim_spec c :
  cache_wf c → ∃ e, c !! least_used c 0 0 u32_max = Some e ∧ ∀ e', e' ∈ c → (access_count e ≤ access_count e')%Z.
Proof.
  intros Hwf. pose proof (cw_length _ Hwf) as Hl.
  destruct (least_used_spec c 0 0 u32_max) as [[-> Hall]|(_ & e & He & _ & Hall)].
  - destruct (lookup_lt_is_Some_2 c 0) as [e He]; [rewrite Hl; unfold CACHE_BLOCKS; lia|]. exists e. split; [done|].
    intros e' He'. specialize (Hall _ He'). pose proof (cw_count _ Hwf _ _ He). lia.
  - rewrite Nat.sub_0_r in He. by exists e.
Qed.

(** The sector a [put] pushes out: none while the sector is present or an entry
    is unused, else that of a least used entry. *)
Definition evicts (c : BlockCache) (n : Z) (victim : option Z) : Prop :=
  match victim with
  | None => is_Some (cache_map c n) ∨ ∃ e, e ∈ c ∧ cached e = false
  | Some m => cache_map c n = None ∧ (∀ e, e ∈ c → cached e = true) ∧
      ∃ e, e ∈ c ∧ lba e = m ∧ ∀ e', e' ∈ c → (access_count e ≤ access_count e')%Z
  end.

(** The block cache is a map from sectors to their data. [get] answers what was
    last put and changes no answer; [put] makes the sector answer the new data and
    leaves every other sector as it was, except that in a full cache the sector of
    a least used entry is forgotten, without being written back even if dirty.
    At most 64 sectors are known and no sector is held twice. *)
Theorem cache_is_a_bounded_map (c : BlockCache) (n : Z) (v : bytes) (d : bool) (Hwf : cache_wf c) :
  ((cache_get n c).1 = cache_map c n ∧ cache_wf (cache_get n c).2 ∧
    ∀ m, cache_map (cache_get n c).2 m = cache_map c m) ∧
  ∃ victim, evicts c n victim ∧ cache_wf (cache_put n v d c) ∧
    cache_map (cache_put n v d c) n = Some v ∧
    ∀ m, m ≠ n → cache_map (cache_put n v d c) m = if decide (victim = Some m) then None else cache_map c m.
Proof.
  assert (∀ x, (0 ≤ x ≤ u32_max)%Z → (0 ≤ saturating_add 32 x 1 ≤ u32_max)%Z) as Hsat.
  { intros x. unfold saturating_add, u32_max. lia. }
  unfold cache_get, cache_put. destruct (list_find (holds_lba n) c) as [[i e]|] eqn:Hf.
  - assert (cache_map c n = Some (data e)) as Hn by (unfold cache_map; by rewrite Hf).
    apply list_find_Some in Hf as (Hi & [Hce Hle] & _). pose proof (cw_count _ Hwf _ _ Hi) as Hcnt. split.
    + set (e' := mkCached (lba e) (data e) true (dirty e) _).
      destruct (cache_replace c i e e' n Hwf Hi) as (Hwf' & Hn' & Ho); [done|by apply Hsat|by left|].
      split; [done|]. split; [done|]. cbn [snd]. intros m. destruct (decide (m = n)) as [->|Hm]; [by rewrite Hn', Hn|].
      rewrite Ho, decide_False; [done|intros [_ ?]; congruence|done].
    + exists None. set (e' := mkCached (lba e) v true (dirty e || d) _).
      destruct (cache_replace c i e e' n Hwf Hi) as (Hwf' & Hn' & Ho); [done|by apply Hsat|by left|].
      split; [left; by rewrite Hn|]. split; [done|]. split; [done|]. intros m Hm.
      rewrite Ho, decide_False; [by rewrite decide_False by done|intros [_ ?]; congruence|done].
  - assert (cache_map c n = None) as Hn by (unfold cache_map; by rewrite Hf). split; [done|].
    destruct (list_find (λ e, cached e = false) c) as [[i e]|] eqn:Hfree.
    + apply list_find_Some in Hfree as (Hi & Hce & _). exists None.
      destruct (cache_replace c i e (mkCached n v true d 1) n Hwf Hi) as (Hwf' & Hn' & Ho); [done|done|by right|].
      split; [right; exists e; split; [by eapply list_elem_of_lookup_2|done]|]. split; [done|]. split; [done|]. intros m Hm.
      rewrite Ho, decide_False; [by rewrite decide_False by done|intros [? _]; congruence|done].
    + destruct (victim_spec c Hwf) as (e & Hi & Hmin). set (i := least_used c 0 0 u32_max) in *.
      assert (∀ x, x ∈ c → cached x = true) as Hall.
      { intros x [j Hj]%list_elem_of_lookup. pose proof (list_find_none_forall _ _ Hfree j x Hj) as Hx.
        cbv beta in Hx. by destruct (cached x). }
      exists (Some (lba e)).
      destruct (cache_replace c i e (mkCached n v true d 1) n Hwf Hi) as (Hwf' & Hn' & Ho); [done|done|by right|].
      split; [|split; [done|split; [done|]]].
      * split; [done|]. split; [done|]. exists e. split; [by eapply list_elem_of_lookup_2|done].
      * intros m Hm. rewrite Ho by done. apply decide_ext. unfold holds_lba.
        rewrite (Hall e) by (by eapply list_elem_of_lookup_2). naive_solver.
Qed.

Lemma cache_is_a_bounded_map_witness :
  cache_map (cache_put 7 [1%Z] true cache_new) 7 = Some [1%Z].
Proof. by destruct (cache_is_a_bounded_map cache_new 7 [1%Z] true cache_new_wf) as (_ & v & _ & _ & H & _). Defined.

(** ** Recovery *)

Lemma free_listed {E} a bs (j : SpfsJournal) :
  allocator_wf a →
  ∃ a', for_each bs (λ b, zoom snd (λ a (s : SpfsJournal * BlockAllocator), (s.1, a)) (free_block (Z.to_nat b))) (j, a) =
      (Ok (E := E) tt, (j, a')) ∧ allocator_wf a' ∧
    ∀ b, used a' b ↔ used a b ∧ (b ∉ Z.to_nat <$> bs).
Proof.
  revert a. induction bs as [|x bs IH]; intros a Hwf.
  { exists a. split_and!; [done|done|]. intros b. cbn. pose proof (not_elem_of_nil b). tauto. }
  destruct (free_block_spec (E := E) a (Z.to_nat x) Hwf) as (a1 & Hf & Hwf1 & _ & Hs).
  destruct (IH a1 Hwf1) as (a2 & Hr & Hwf2 & Hu). exists a2. split_and!; [|done|].
  - cbn [for_each]. erewrite (bind_ok _ _ _ tt (j, a1)); [exact Hr|]. unfold zoom. cbn. by rewrite Hf.
  - intros b. rewrite Hu, fmap_cons, elem_of_cons. unfold used in *.
    destruct (bitmap a !! Z.to_nat x) as [[]|] eqn:Hx; [destruct Hs as [_ ->]|subst a1..].
    + destruct (decide (b = Z.to_nat x)) as [->|Hne]; [|rewrite list_lookup_insert_ne by done; tauto].
      rewrite list_lookup_insert_eq by (by eapply lookup_lt_Some). naive_solver.
    + split; [|tauto]. intros [Hb ?]. split; [done|]. intros [->|?]; [congruence|done].
    + split; [|tauto]. intros [Hb ?]. split; [done|]. intros [->|?]; [congruence|done].
Qed.

(** After a crash, recovery frees exactly the blocks whose allocation was logged
    after the last committed sequence and that are still in use, keeps exactly
    the committed records, reports how many allocations it rolled back, never
    panics, and a second recovery has nothing left to do. *)
Theorem recovery_frees_the_uncommitted (j : SpfsJournal) (a : BlockAllocator) (Ha : allocator_wf a) :
  ∃ j' a', recover_and_rollback_uncommitted (E := FsError) (j, a) =
      (Ok (length (uncommitted_allocations j)), (j', a')) ∧ allocator_wf a' ∧
    (∀ b, used a' b ↔ used a b ∧
       ¬ ∃ r, r ∈ records j ∧ op_type r = AllocBlock ∧ (committed_sequence j < sequence r)%Z ∧ Z.to_nat (rec_block r) = b) ∧
    (∀ r, r ∈ records j' ↔ r ∈ records j ∧ (sequence r ≤ committed_sequence j)%Z) ∧
    recover_and_rollback_uncommitted (E := FsError) (j', a') = (Ok 0, (j', a')).
Proof.
  destruct (free_listed (E := FsError) a (uncommitted_allocations j) j Ha) as (a' & Hrun & Hwf' & Hu).
  set (j' := mkJournal (filter (λ r, (sequence r ≤ committed_sequence j)%Z) (records j)) (next_sequence j) (committed_sequence j)).
  exists j', a'. split_and!; [|done| | |].
  - unfold recover_and_rollback_uncommitted. erewrite bind_ok by reflexivity. cbv zeta. cbn [fst].
    erewrite bind_ok by exact Hrun. reflexivity.
  - intros b. rewrite Hu. apply and_iff_compat_l, not_iff_compat. unfold uncommitted_allocations.
    rewrite <-list_fmap_compose, list_elem_of_fmap. split.
    + intros (r & -> & [[??]?]%list_elem_of_filter). by exists r.
    + intros (r & Hr & Ho & Hs & <-). exists r. split; [done|]. by apply list_elem_of_filter.
  - intros r. unfold j'. cbn. rewrite list_elem_of_filter. tauto.
  - assert (uncommitted_allocations j' = []) as Hnil.
    { unfold uncommitted_allocations, j'. cbn. rewrite filter_none; [done|].
      intros r [Hr _]%list_elem_of_filter. lia. }
    unfold recover_and_rollback_uncommitted. erewrite bind_ok by reflexivity. cbv zeta. cbn [fst].
    rewrite Hnil. cbn [for_each length]. erewrite bind_ok by reflexivity. erewrite bind_ok by reflexivity.
    assert (filter (λ r, (sequence r ≤ committed_sequence j)%Z) (records j') = records j') as Hall.
    { apply filter_all. by intros r [Hr _]%list_elem_of_filter. }
    cbn [fst snd]. change (committed_sequence j') with (committed_sequence j). by rewrite Hall.
Qed.

(** ** The journal sector *)

(** The fields of a record fit their widths on the disk. *)
Definition record_ok (r : JournalRecord) : Prop :=
  (0 ≤ rec_inode r < 2 ^ 32)%Z ∧ (0 ≤ rec_block r < 2 ^ 32)%Z ∧ (0 ≤ sequence r < 2 ^ 64)%Z.

Lemma length_record_bytes r : length (record_bytes r) = 17.
Proof. unfold record_bytes. cbn [length]. by rewrite !length_app, !length_to_le. Qed.

Lemma field_middle l1 l2 l3 off n : length l1 = off → length l2 = n → field off n (l1 ++ l2 ++ l3) = from_le l2.
Proof. intros <- <-. unfold field. by rewrite drop_app_length, take_app_length. Qed.

Lemma splice_zeros (l v : bytes) n : length v ≤ n →
  splice (length l) v (l ++ replicate n 0%Z) = (l ++ v) ++ replicate (n - length v) 0%Z.
Proof.
  intros Hn. unfold splice. rewrite take_app_length, <-app_assoc. do 2 f_equal.
  rewrite <-drop_drop, drop_app_length. apply drop_replicate.
Qed.

Lemma put_records_spec rs off pre n :
  length pre = off → length rs * 17 ≤ n → off + n ≤ SECTOR →
  put_records rs off (pre ++ replicate n 0%Z) =
    pre ++ concat (record_bytes <$> rs) ++ replicate (n - length rs * 17) 0%Z.
Proof.
  revert off pre n. induction rs as [|r rs IH]; intros off pre n Hpre Hn Hs; cbn [put_records].
  { cbn. by rewrite Nat.sub_0_r. }
  cbn [length] in Hn. assert ((off + 17 <=? SECTOR) = true) as -> by (apply Nat.leb_le; lia).
  rewrite <-Hpre at 2. rewrite splice_zeros by (rewrite length_record_bytes; lia).
  rewrite length_record_bytes, (IH (off + 17)); [|rewrite length_app, length_record_bytes; lia|lia|lia].
  cbn [fmap list_fmap concat length]. rewrite <-!app_assoc. do 4 f_equal. lia.
Qed.

Lemma parse_record_spec r l1 l3 off : length l1 = off → record_ok r →
  parse_record off (l1 ++ record_bytes r ++ l3) = r.
Proof.
  intros Hl (H1 & H2 & H3). unfold parse_record, record_bytes.
  assert (∀ b (l : bytes), field off 1 (l1 ++ (b :: l) ++ l3) = b) as Hop.
  { intros b l. change (b :: l) with ([b] ++ l). rewrite <-app_assoc, field_middle by done. cbn. lia. }
  set (op := op_code (op_type r)).
  assert (field (off + 1) 4 (l1 ++ (op :: to_le 4 (rec_inode r) ++ to_le 4 (rec_block r) ++ to_le 8 (sequence r)) ++ l3)
    = rec_inode r) as ->.
  { change (op :: ?l) with ([op] ++ l). rewrite <-!app_assoc, (app_assoc l1).
    rewrite field_middle; [by apply from_le_to_le|rewrite length_app; cbn; lia|apply length_to_le]. }
  assert (field (off + 5) 4 (l1 ++ (op :: to_le 4 (rec_inode r) ++ to_le 4 (rec_block r) ++ to_le 8 (sequence r)) ++ l3)
    = rec_block r) as ->.
  { change (op :: ?l) with ([op] ++ l). rewrite <-!app_assoc, (app_assoc l1), (app_assoc (l1 ++ [op])).
    rewrite field_middle; [by apply from_le_to_le|rewrite !length_app, length_to_le; cbn; lia|apply length_to_le]. }
  assert (field (off + 9) 8 (l1 ++ (op :: to_le 4 (rec_inode r) ++ to_le 4 (rec_block r) ++ to_le 8 (sequence r)) ++ l3)
    = sequence r) as ->.
  { change (op :: ?l) with ([op] ++ l).
    rewrite <-!app_assoc, (app_assoc l1), (app_assoc (l1 ++ [op])), (app_assoc ((l1 ++ [op]) ++ _)).
    rewrite field_middle; [by apply from_le_to_le|rewrite !length_app, !length_to_le; cbn; lia|apply length_to_le]. }
  rewrite Hop. unfold op. by destruct r as [[] ? ? ?].
Qed.

Lemma parse_records_spec rs off pre post :
  length pre = off → Forall record_ok rs → off + length rs * 17 ≤ SECTOR →
  parse_records (length rs) off (pre ++ concat (record_bytes <$> rs) ++ post) = rs.
Proof.
  revert off pre. induction rs as [|r rs IH]; intros off pre Hpre Hok Hs; [done|].
  apply Forall_cons in Hok as [Hr Hok]. cbn [length parse_records fmap list_fmap concat] in *.
  assert ((off + 17 <=? SECTOR) = true) as -> by (apply Nat.leb_le; lia). rewrite <-app_assoc. f_equal.
  - by apply parse_record_spec.
  - rewrite (app_assoc pre). apply IH; [rewrite length_app, length_record_bytes; lia|done|lia].
Qed.

Definition wal_header (j : SpfsJournal) : bytes :=
  (to_le 4 WAL_MAGIC ++ to_le 8 (committed_sequence j)) ++ to_le 4 (Z.of_nat (length (records j))).

(** The values of a journal fit the fields of the sector. *)
Definition journal_ok (j : SpfsJournal) : Prop :=
  (0 ≤ committed_sequence j < 2 ^ 64)%Z ∧ (Z.of_nat (length (records j)) < 2 ^ 32)%Z ∧ Forall record_ok (records j).

Lemma wal_sector_spec j : journal_ok j →
  length (wal_sector j) = SECTOR ∧
  ∃ n, wal_sector j = wal_header j ++ concat (record_bytes <$> take WAL_RECORDS (records j)) ++ replicate n 0%Z.
Proof.
  intros (_ & Hl & _). set (rs := take WAL_RECORDS (records j)).
  assert (length rs ≤ 20) as Htake by (unfold rs; rewrite length_take; unfold WAL_RECORDS; lia).
  assert (length (wal_header j) = 16) as Hh by (unfold wal_header; by rewrite !length_app, !length_to_le).
  assert (wal_sector j = wal_header j ++ concat (record_bytes <$> rs) ++ replicate (496 - length rs * 17) 0%Z) as ->.
  { unfold wal_sector, wrap. rewrite Z.mod_small by lia. fold rs.
    pose proof (splice_zeros [] (to_le 4 WAL_MAGIC) 512) as H1. rewrite length_to_le in H1. cbn [length app Nat.sub] in H1.
    pose proof (splice_zeros (to_le 4 WAL_MAGIC) (to_le 8 (committed_sequence j)) 508) as H2. rewrite !length_to_le in H2.
    pose proof (splice_zeros (to_le 4 WAL_MAGIC ++ to_le 8 (committed_sequence j))
      (to_le 4 (Z.of_nat (length (records j)))) 500) as H3. rewrite length_app, !length_to_le in H3. cbn [Nat.add Nat.sub] in H2, H3.
    change (replicate SECTOR 0%Z) with (replicate 512 0%Z). rewrite H1, H2, H3 by lia.
    apply put_records_spec; [done|lia|unfold SECTOR; lia]. }
  split; [|by eexists].
  assert (length (concat (record_bytes <$> rs)) = length rs * 17) as Hcl.
  { clear. induction rs as [|r rs IH]; [done|]. rewrite fmap_cons. cbn [concat length].
    rewrite length_app, length_record_bytes, IH. lia. }
  rewrite !length_app, length_replicate, Hh, Hcl. unfold SECTOR. lia.
Qed.


(** ** Witnesses *)

(** Two allocations, the first of them committed. *)
Definition demo_journal : SpfsJournal :=
  mkJournal [mkRecord AllocBlock 1 3 1; mkRecord Commit 0 0 1; mkRecord AllocBlock 1 4 2] 3 1.

Definition demo_allocator : BlockAllocator := mkAllocator 6 3 [true; false; false; true; true; false].

Lemma demo_allocator_wf : allocator_wf demo_allocator.
Proof. by split. Qed.

Lemma recovery_frees_the_uncommitted_witness :
  ∃ j' a', recover_and_rollback_uncommitted (E := FsError) (demo_journal, demo_allocator) = (Ok 1, (j', a')) ∧
    used a' 3 ∧ ¬ used a' 4.
Proof.
  destruct (recovery_frees_the_uncommitted demo_journal demo_allocator demo_allocator_wf) as (j' & a' & Hr & _ & Hu & _).
  exists j', a'. split; [exact Hr|]. rewrite !Hu. split.
  - split; [done|]. intros (r & Hr' & Ho & Hs & Hb).
    apply elem_of_cons in Hr' as [->|Hr']; [cbn in Hs; lia|]. apply elem_of_cons in Hr' as [->|Hr']; [done|].
    by apply list_elem_of_singleton in Hr' as ->.
  - intros [_ Hn]. apply Hn. exists (mkRecord AllocBlock 1 4 2). split_and!; [|done|cbn; lia|done].
    right. right. left.
Defined.

