(* ===== verification/Syscall.v ===== *)
(** * System calls (kernel/src/syscall.rs, kernel/src/syscall_storage.rs)

    What a user process can ask of the kernel.  Each handler checks the caller's
    capability table, validates the buffers in user memory and calls the
    component that does the work; the state is that of all these components.  A
    handler [throw]s the value of an early [return].  Programs are loaded and
    network frames moved elsewhere: those calls answer [Outside]. *)
From S2P Require Import Prelude Bytes Text Disk Abi Cap FramePool Process WaitQueue Sched IoPorts Channel Ipc.
From S2P Require Import SyscallCap AddrSpace DmaRegion Surface ProcFs Vfs FdTable SecMem.

(** ** Numbers *)

(** spark-abi/src/lib.rs:26-32 [syscall] *)
Definition SYS_READ : Z := 0.
Definition SYS_EXIT : Z := 1.
Definition SYS_OPEN : Z := 2.
Definition SYS_CLOSE : Z := 3.
Definition SYS_WRITE : Z := 4.
Definition SYS_LSEEK : Z := 8.
Definition SYS_YIELD : Z := 9.

(** spark-abi/src/lib.rs:41-43 [syscall] *)
Definition SYS_FORK : Z := 14.
Definition SYS_WAITPID : Z := 16.

(** spark-abi/src/lib.rs:46-56 [syscall] *)
Definition SYS_IPC_SEND : Z := 20.
Definition SYS_IPC_RECV : Z := 21.
Definition SYS_IOPERM : Z := 22.
Definition SYS_IPC_TRY_RECV : Z := 23.
Definition SYS_IPC_CREATE_ENDPOINT : Z := 24.
Definition SYS_IPC_BIND_IRQ : Z := 25.
Definition SYS_MAP_DMA : Z := 26.
Definition SYS_IPC_CANCEL : Z := 29.
Definition SYS_IPC_CREATE_SLOT : Z := 30.

(** spark-abi/src/lib.rs:59-67 [syscall] *)
Definition SYS_CREATE_SURFACE : Z := 31.
Definition SYS_DESTROY_SURFACE : Z := 33.

(** spark-abi/src/lib.rs:70-76 [syscall] *)
Definition SYS_SETAFFINITY : Z := 40.
Definition SYS_GETAFFINITY : Z := 41.
Definition SYS_MKDIR : Z := 42.
Definition SYS_STAT : Z := 43.
Definition SYS_KILL : Z := 44.
Definition SYS_SIGACTION : Z := 45.
Definition SYS_SIGPROCMASK : Z := 46.

(** Negative numbers as [u64] — spark-abi/src/lib.rs:19-21 [errno] *)
Definition EFAULT_RET : Z := 2 ^ 64 - 14.
Definition EACCES_RET : Z := 2 ^ 64 - 13.
Definition EAGAIN_RET : Z := 2 ^ 64 - 11.
Definition EINVAL_RET : Z := 2 ^ 64 - 22.
Definition ENOENT_RET : Z := 2 ^ 64 - 2.

(** kernel/src/syscall_storage.rs:9-9 [MAX_PATH] *)
Definition MAX_PATH : Z := 256.

(** What happens when a handler is done: the caller runs on with a value, now
    or after the CPU went to another process; or it waits for a message; or it
    is gone. *)
Inductive answer :=
| Returns (v : Z)
| Yields (hint : option Z) (v : Z)
| WaitsForMessage (ep : Z) (receiver : CapHandle)
| Exits
| ResumesKernel
| Outside.

Section syscalls.
Context {PT D : Type} `{!Mapper PT, !UserSpace PT, !Drive D}.

(** The state of the components; the machine's memory, [PT], is both page
    tables and content, as seen from the CPU of the caller. *)
Record Kernel := mkKernel {
  k_ipc : IpcWorld;
  k_store : Storage D;
  k_memory : Memory (PT := PT);
  k_dma : DmaRegistry;
  k_io : IoPorts;
  k_surfaces : list SurfaceInfo;
  k_next_surface : Z;
  k_console : list (Z * bytes);
  FIRST_EXEC_PIDS : list Z;
  k_preemption : bool;
  k_tick : Z;
}.

Abbreviation M := (comp Kernel Z).

Definition with_k_ipc (x : IpcWorld) (k : Kernel) : Kernel :=
  mkKernel x (k_store k) (k_memory k) (k_dma k) (k_io k) (k_surfaces k) (k_next_surface k) (k_console k)
    (FIRST_EXEC_PIDS k) (k_preemption k) (k_tick k).
Definition with_k_store (x : Storage D) (k : Kernel) : Kernel :=
  mkKernel (k_ipc k) x (k_memory k) (k_dma k) (k_io k) (k_surfaces k) (k_next_surface k) (k_console k)
    (FIRST_EXEC_PIDS k) (k_preemption k) (k_tick k).
Definition with_k_memory (x : Memory (PT := PT)) (k : Kernel) : Kernel :=
  mkKernel (k_ipc k) (k_store k) x (k_dma k) (k_io k) (k_surfaces k) (k_next_surface k) (k_console k)
    (FIRST_EXEC_PIDS k) (k_preemption k) (k_tick k).
Definition with_k_dma (x : DmaRegistry) (k : Kernel) : Kernel :=
  mkKernel (k_ipc k) (k_store k) (k_memory k) x (k_io k) (k_surfaces k) (k_next_surface k) (k_console k)
    (FIRST_EXEC_PIDS k) (k_preemption k) (k_tick k).
Definition with_k_io (x : IoPorts) (k : Kernel) : Kernel :=
  mkKernel (k_ipc k) (k_store k) (k_memory k) (k_dma k) x (k_surfaces k) (k_next_surface k) (k_console k)
    (FIRST_EXEC_PIDS k) (k_preemption k) (k_tick k).
Definition with_k_surfaces (x : list SurfaceInfo) (n : Z) (k : Kernel) : Kernel :=
  mkKernel (k_ipc k) (k_store k) (k_memory k) (k_dma k) (k_io k) x n (k_console k)
    (FIRST_EXEC_PIDS k) (k_preemption k) (k_tick k).
Definition with_k_console (x : list (Z * bytes)) (k : Kernel) : Kernel :=
  mkKernel (k_ipc k) (k_store k) (k_memory k) (k_dma k) (k_io k) (k_surfaces k) (k_next_surface k) x
    (FIRST_EXEC_PIDS k) (k_preemption k) (k_tick k).
Definition with_first_exec (x : list Z) (k : Kernel) : Kernel :=
  mkKernel (k_ipc k) (k_store k) (k_memory k) (k_dma k) (k_io k) (k_surfaces k) (k_next_surface k) (k_console k)
    x (k_preemption k) (k_tick k).
Definition k_sched (k : Kernel) : Scheduler := sched (k_ipc k).
Definition with_k_sched (s : Scheduler) (k : Kernel) : Kernel := with_k_ipc (with_sched s (k_ipc k)) k.

Definition in_ipc {E A} (m : comp IpcWorld E A) : comp Kernel E A := zoom k_ipc with_k_ipc m.
Definition in_sched {E A} (m : comp Scheduler E A) : comp Kernel E A := zoom k_sched with_k_sched m.
Definition in_memory {E A} (m : comp (Memory (PT := PT)) E A) : comp Kernel E A := zoom k_memory with_k_memory m.
(** The generated files show the state of now. *)
Definition with_view (v : SystemView) (f : Fs D) : Fs D := mkFs (VFS f) (BLOB_STORE f) (DATA_DRIVE f) v.
Definition in_store {E A} (m : comp (Storage D) E A) : comp Kernel E A :=
  zoom (λ k, set_files (with_view (mkView (pool (k_memory k)) (k_tick k) (k_sched k)) (files (k_store k))) (k_store k))
       with_k_store m.
Definition in_surfaces {E A} (m : comp (SurfaceWorld (PT := PT)) E A) : comp Kernel E A :=
  zoom (λ k, mkSurfaces (k_sched k) (k_memory k) (k_surfaces k) (k_next_surface k))
       (λ w k, with_k_surfaces (SURFACE_REGISTRY w) (NEXT_SURFACE_ID w)
                 (with_k_memory (sw_memory w) (with_k_sched (sw_sched w) k))) m.

(** [match m { Ok(a) => a, Err(_) => return v }] *)
Definition or_return {E A} (v : Z) (m : comp Kernel E A) : M A := map_err (λ _, v) m.

(** The content of a buffer that the caller may read, [EFAULT] for others. *)
Definition user_buffer (p n : Z) : M bytes :=
  k ← get; ok_or (user_bytes p n (tables (k_memory k))) EFAULT_RET.
(** A buffer that the caller may write. *)
Definition check_user_buffer (p n : Z) : M unit :=
  k ← get; reject_if (bool_decide (user_store p n (tables (k_memory k)) = None)) EFAULT_RET.
(** The bytes that a handler puts in a buffer it has checked; the page fault
    when it is gone by then is the kernel's. *)
Definition write_user (p n : Z) (b : bytes) : M unit :=
  k ← get;
  match user_store p n (tables (k_memory k)) with
  | Some f => put (with_k_memory (with_tables (f b) (k_memory k)) k)
  | None => panic
  end.

Section caller.
Context (cpu : nat).

Definition caller (k : Kernel) : Z := current_pid cpu (k_sched k).
(** [match with_cap_table(pid, ..find_fd_in_table..) { Some(Some(h)) => h, _ => return EACCES }] *)
Definition own_handle (fd : Z) : M CapHandle :=
  k ← get; ok_or (current_handle cpu (wrap 32 fd) (k_sched k)) EACCES_RET.
Definition require_fd (fd : Z) (needed : Rights) : M unit :=
  or_return EACCES_RET (in_ipc (check_fd_access cpu (wrap 32 fd) needed)).
Definition require_user_process : M unit :=
  k ← get; reject_if (negb (current_is_user_process cpu (k_sched k))) EACCES_RET.

(** ** Files *)

(** kernel/src/syscall_storage.rs:18-26 [user_strn_len] *)
Definition user_strn_len (buf : bytes) (max : nat) : option nat :=
  '(i, _) ← list_find (λ b, b = 0%Z) (take max buf); Some i.

(** The path that the caller points to —
    kernel/src/syscall_storage.rs:31-47 [sys_open] *)
Definition user_path (path_ptr : Z) : M (option bytes) :=
  path_buf ← user_buffer path_ptr MAX_PATH;
  len ← ok_or (user_strn_len path_buf (Z.to_nat MAX_PATH)) EFAULT_RET;
  mret (from_utf8 (take len path_buf)).

(** kernel/src/syscall_storage.rs:28-72 [sys_open] *)
Definition sys_open (path_ptr flags : Z) : M answer :=
  p ← user_path path_ptr;
  path ← ok_or p u64_max;
  fd ← or_return u64_max (in_store (fd_open path (wrap 32 flags)));
  r ← attempt (in_ipc (cap_call (create_object Abi.Fd)));
  match r with
  | inr cap => ignore (in_ipc (add_fd_to_current cpu (Z.of_nat fd) cap (bitor READ WRITE)))
  | inl _ => mret tt
  end;;
  mret (Returns (Z.of_nat fd)).

(** kernel/src/syscall_storage.rs:74-92 [sys_read] *)
Definition storage_read (fd buf_ptr len : Z) : M answer :=
  check_user_buffer buf_ptr len;;
  b ← or_return u64_max (in_store (fd_read fd (Z.to_nat len)));
  write_user buf_ptr len b;;
  mret (Returns (Z.of_nat (length b))).
(** kernel/src/syscall.rs:43-49 [syscall_dispatcher, SYS_READ] *)
Definition sys_read (fd buf_ptr len : Z) : M answer := require_fd fd READ;; storage_read fd buf_ptr len.

(** kernel/src/syscall_storage.rs:94-112 [sys_write] *)
Definition storage_write (fd buf_ptr len : Z) : M answer :=
  buf ← user_buffer buf_ptr len;
  n ← or_return u64_max (in_store (fd_write fd buf));
  mret (Returns (Z.of_nat n)).
(** Text for the screen, green or red — kernel/src/syscall.rs:611-637 [sys_write] *)
Definition console_write (fd buf_ptr len : Z) : M answer :=
  bytes ← user_buffer buf_ptr len;
  text ← ok_or (from_utf8 bytes) u64_max;
  modify (λ k, with_k_console (k_console k ++ [(fd, text)]) k);;
  mret (Returns len).
(** kernel/src/syscall.rs:125-137 [syscall_dispatcher, SYS_WRITE] *)
Definition sys_write (fd buf_ptr len : Z) : M answer :=
  require_fd fd WRITE;;
  if (fd =? 1)%Z || (fd =? 2)%Z then console_write fd buf_ptr len else storage_write fd buf_ptr len.

(** kernel/src/syscall_storage.rs:114-126 [sys_close] *)
Definition storage_close (fd : Z) : M answer :=
  ignore (in_ipc (remove_fd_from_current cpu (wrap 32 fd)));;
  or_return u64_max (in_store (fd_close fd));;
  mret (Returns 0).
(** kernel/src/syscall.rs:51-57 [syscall_dispatcher, SYS_CLOSE] *)
Definition sys_close (fd : Z) : M answer := require_fd fd DESTROY;; storage_close fd.

(** kernel/src/syscall_storage.rs:128-136 [sys_lseek] *)
Definition storage_lseek (fd offset whence : Z) : M answer :=
  o ← or_return u64_max (in_store (fd_lseek fd (to_signed 64 offset) (wrap 32 whence)));
  mret (Returns o).
(** kernel/src/syscall.rs:58-64 [syscall_dispatcher, SYS_LSEEK] *)
Definition sys_lseek (fd offset whence : Z) : M answer := require_fd fd READ;; storage_lseek fd offset whence.

(** kernel/src/syscall_storage.rs:185-206 [sys_mkdir] *)
Definition sys_mkdir (path_ptr : Z) : M answer :=
  p ← user_path path_ptr;
  path ← ok_or p u64_max;
  or_return u64_max (in_store (on_fs (mkdir path)));;
  mret (Returns 0).

(** kernel/src/syscall_storage.rs:174-183 [StatBuf] *)
Definition stat_buf (size mode ino : Z) : bytes :=
  to_le 8 size ++ to_le 4 mode ++ to_le 4 ino ++ to_le 4 0 ++ replicate 12 0%Z.

(** kernel/src/syscall_storage.rs:208-256 [sys_stat] *)
Definition sys_stat (path_ptr stat_ptr : Z) : M answer :=
  p ← user_path path_ptr;
  check_user_buffer stat_ptr 32;;
  path ← ok_or p u64_max;
  dir ← or_return u64_max (in_store (on_fs (is_dir path)));
  if (dir : bool) then write_user stat_ptr 32 (stat_buf 4096 16877 1);; mret (Returns 0)
  else
    size ← or_return u64_max (in_store (on_fs (get_file_size path)));
    write_user stat_ptr 32 (stat_buf (Z.of_nat size) 33188 2);; mret (Returns 0).

(** ** Processes *)

(** kernel/src/syscall.rs:575-601 [sys_exit] *)
Definition sys_exit (status : Z) : M answer :=
  k ← get;
  if current_is_user_process cpu (k_sched k) then
    modify (λ k, with_k_sched (update (caller k) (set_exit_code status) (k_sched k)) k);; mret Exits
  else mret ResumesKernel.

(** kernel/src/syscall.rs:604-609 [sys_yield] *)
Definition sys_yield : M answer :=
  k ← get; mret (if k_preemption k then Yields None 0 else Returns 0).

(** kernel/src/syscall.rs:78-83 [syscall_dispatcher, SYS_FORK] *)
Definition sys_fork : M answer := mret (Returns ENOSYS).

(** kernel/src/syscall.rs:107-124 [syscall_dispatcher, SYS_WAITPID] *)
Definition sys_waitpid (target : Z) : M answer :=
  k ← get;
  p ← ok_or (procs (k_sched k) !! target) ENOENT_RET;
  if exited p || reaped p then
    put (with_k_sched (update target (set_reaped true) (k_sched k)) k);; mret (Returns (exit_code p))
  else mret (Returns EAGAIN_RET).

(** kernel/src/syscall.rs:247-254 [syscall_dispatcher, SYS_SETAFFINITY] *)
Definition sys_setaffinity (pid target_cpu : Z) : M answer :=
  k ← get;
  let pid := if (pid =? 0)%Z then caller k else pid in
  or_return u64_max (in_sched (set_process_cpu_affinity pid
    (if (target_cpu =? u64_max)%Z then None else Some (Z.to_nat target_cpu))));;
  mret (Returns 0).

(** kernel/src/syscall.rs:255-262 [syscall_dispatcher, SYS_GETAFFINITY] *)
Definition sys_getaffinity (pid : Z) : M answer :=
  k ← get;
  let pid := if (pid =? 0)%Z then caller k else pid in
  mret (Returns match get_process_cpu_affinity pid (k_sched k) with
                | Some (Some c) => Z.of_nat c
                | Some None | None => u64_max
                end).

(** kernel/src/syscall.rs:265-270 [syscall_dispatcher, SYS_KILL] *)
Definition sys_kill (target sig : Z) : M answer :=
  or_return u64_max (in_sched (send_signal target (wrap 32 sig)));; mret (Returns 0).
(** kernel/src/syscall.rs:271-276 [syscall_dispatcher, SYS_SIGACTION] *)
Definition sys_sigaction (sig handler : Z) : M answer :=
  or_return u64_max (in_sched (register_signal_handler cpu (wrap 32 sig) handler));; mret (Returns 0).
(** kernel/src/syscall.rs:277-282 [syscall_dispatcher, SYS_SIGPROCMASK] *)
Definition sys_sigprocmask (how mask : Z) : M answer :=
  old ← or_return u64_max (in_sched (set_signal_mask cpu (wrap 32 how) (wrap 32 mask)));
  mret (Returns old).

(** ** Messages *)

(** [Err(NoRights) => EACCES, Err(_) => u64::MAX] *)
Definition ipc_errno (e : CapError) : Z := if bool_decide (e = NoRights) then EACCES_RET else u64_max.

(** kernel/src/syscall.rs:312-316 [sys_ipc_send, mode] *)
Definition transfer_mode (z : Z) : TransferMode :=
  if (z =? 1)%Z then ModeTransfer else if (z =? 2)%Z then ModeLend else ModeNone.

(** The CPU goes to the receiver that the message woke —
    kernel/src/syscall.rs:290-323 [sys_ipc_send] *)
Definition sys_ipc_send (ep_id buf_ptr len attach_slot mode_val : Z) : M answer :=
  sender ← own_handle ep_id;
  data ← user_buffer buf_ptr len;
  k ← get;
  let attached := if (attach_slot =? 0)%Z then None else current_handle cpu (wrap 32 attach_slot) (k_sched k) in
  woken ← map_err ipc_errno (in_ipc (raw_ipc_send cpu (wrap 32 ep_id) sender data attached (transfer_mode mode_val)));
  mret (match woken with Some target => Yields (Some target) 0 | None => Returns 0 end).

(** A small result at an address the caller chose; nothing when it is 0 or bad —
    kernel/src/syscall.rs:348-353 [copy_ipc_msg_to_user] *)
Definition offer (p n : Z) (b : bytes) : M unit :=
  if (p =? 0)%Z then mret tt
  else
    k ← get;
    if bool_decide (user_store p n (tables (k_memory k)) = None) then mret tt else write_user p n b.

(** kernel/src/syscall.rs:333-382 [copy_ipc_msg_to_user] *)
Definition copy_ipc_msg_to_user (msg : CapMessage bytes) (buf_ptr max_len out_cap_ptr out_status_ptr : Z) : M answer :=
  let b := take (Z.to_nat max_len) (payload msg) in
  write_user buf_ptr max_len b;;
  cap_status ← match capability msg with
    | None => mret 0%Z
    | Some cap =>
        r ← attempt (in_ipc (cap_call (check_rights cap 0)));
        match r with
        | inr _ => offer out_cap_ptr 8 (to_le 4 (Z.of_nat (slot cap)) ++ to_le 4 (generation cap));; mret 0%Z
        | inl e => offer out_cap_ptr 8 (replicate 8 0%Z);; mret (if bool_decide (e = Revoked) then 1 else 2)%Z
        end
    end;
  offer out_status_ptr 4 (to_le 4 cap_status);;
  mret (Returns (Z.of_nat (length b))).

(** The loop of [raw_ipc_recv], to the next switch away —
    kernel/src/syscall.rs:402-406 [sys_ipc_recv] *)
Definition receive_round (ep : Z) (receiver : CapHandle) (buf_ptr max_len out_cap_ptr out_status_ptr : Z) : M answer :=
  r ← map_err ipc_errno (in_ipc (raw_ipc_recv_round cpu ep receiver));
  match r with
  | Finished msg => copy_ipc_msg_to_user msg buf_ptr max_len out_cap_ptr out_status_ptr
  | Blocks => mret (WaitsForMessage ep receiver)
  end.

(** kernel/src/syscall.rs:384-407 [sys_ipc_recv] *)
Definition sys_ipc_recv (ep_id buf_ptr max_len out_cap_ptr out_status_ptr : Z) : M answer :=
  map_err ipc_errno (in_ipc deliver_pending_irqs);;
  receiver ← own_handle ep_id;
  check_user_buffer buf_ptr max_len;;
  receive_round (wrap 32 ep_id) receiver buf_ptr max_len out_cap_ptr out_status_ptr.

(** What runs when a waiting caller has the CPU again; its buffer is not
    checked again — kernel/src/syscall.rs:402-406 [sys_ipc_recv] *)
Definition sys_ipc_recv_resume (ep : Z) (receiver : CapHandle) (buf_ptr max_len out_cap_ptr out_status_ptr : Z) : M answer :=
  map_err ipc_errno (in_ipc (raw_ipc_recv_resume cpu ep));;
  receive_round ep receiver buf_ptr max_len out_cap_ptr out_status_ptr.

(** kernel/src/syscall.rs:411-435 [sys_ipc_try_recv] *)
Definition sys_ipc_try_recv (ep_id buf_ptr max_len out_cap_ptr out_status_ptr : Z) : M answer :=
  map_err ipc_errno (in_ipc deliver_pending_irqs);;
  receiver ← own_handle ep_id;
  check_user_buffer buf_ptr max_len;;
  r ← map_err ipc_errno (in_ipc (raw_ipc_try_recv (wrap 32 ep_id) receiver));
  match r with
  | Some msg => copy_ipc_msg_to_user msg buf_ptr max_len out_cap_ptr out_status_ptr
  | None => mret (Returns EAGAIN_RET)
  end.

(** [true] when the number was free — kernel/src/syscall.rs:472-479 [sys_ipc_create_endpoint] *)
Definition insert_handle (fd : Z) (h : CapHandle) : comp CapTable CapError bool :=
  t ← get;
  match find_fd_in_table (entries t) fd with
  | Some _ => mret false
  | None => push_entry fd h;; mret true
  end.

(** kernel/src/syscall.rs:444-489 [sys_ipc_create_endpoint] *)
Definition sys_ipc_create_endpoint (capacity : Z) : M answer :=
  require_user_process;;
  reject_if ((capacity =? 0) || (Z.of_nat MAX_ENDPOINT_CAPACITY <? capacity))%Z EINVAL_RET;;
  '(ep_id, ep_root) ← or_return u64_max (in_ipc (create_raw_endpoint (Z.to_nat capacity)));
  k ← get;
  inserted ← or_return EACCES_RET (in_ipc (with_cap_table (caller k) (insert_handle ep_id ep_root)));
  if bool_decide (inserted = Some true) then
    in_ipc (map_err (λ _, EACCES_RET) (register_endpoint_owner ep_id (wrap 32 (caller k))));;
    mret (Returns ep_id)
  else mret (Returns EACCES_RET).

(** kernel/src/syscall.rs:497-531 [sys_ipc_bind_irq] *)
Definition sys_ipc_bind_irq (device_fd irq ep_id : Z) : M answer :=
  require_user_process;;
  reject_if (15 <? irq)%Z EACCES_RET;;
  device ← own_handle device_fd;
  writer ← own_handle ep_id;
  or_return EACCES_RET (in_ipc (bind_irq device irq (wrap 32 ep_id) writer));;
  mret (Returns 0).

(** kernel/src/syscall.rs:836-856 [sys_ipc_cancel] *)
Definition sys_ipc_cancel (ep_id : Z) : M answer :=
  h ← own_handle ep_id;
  or_return EACCES_RET (in_ipc (cap_call (check_rights h (bitor READ WRITE))));;
  or_return EACCES_RET (in_ipc (cancel_endpoint (wrap 32 ep_id) h));;
  mret (Returns 0).

(** ** Devices and DMA *)

(** The first handle of the caller that is a device —
    kernel/src/syscall.rs:545-548 [sys_ioperm, device_cap] *)
Fixpoint find_device (l : list (Z * CapHandle)) : comp CapTable CapError (option CapHandle) :=
  match l with
  | [] => mret None
  | (_, h) :: l =>
      r ← attempt (table_cap (object_identity h));
      match r with
      | inr id => if bool_decide (id.1 = Abi.Device) then mret (Some h) else find_device l
      | inl _ => find_device l
      end
  end.

(** kernel/src/task/process.rs:3353-3360 [set_current_allowed_ports] *)
Definition set_current_allowed_ports (ports : option (Z * Z)) (s : Scheduler) : Scheduler :=
  match current_for_cpu cpu s with Some pid => update pid (set_allowed_ports ports) s | None => s end.

(** The bitmap is that of CPU 0 — kernel/src/syscall.rs:533-573 [sys_ioperm] *)
Definition sys_ioperm (start_port end_port enable : Z) : M answer :=
  reject_if ((end_port <? start_port) || (65535 <? end_port))%Z u64_max;;
  k ← get;
  r ← or_return EACCES_RET (in_ipc (with_cap_table (caller k) (t ← get; find_device (entries t))));
  device ← ok_or (mjoin r) EACCES_RET;
  or_return EACCES_RET (in_ipc (zoom caps with_caps (port_range_allowed device start_port end_port)));;
  if negb (enable =? 0)%Z then
    modify (λ k, with_k_io (allow_port_range start_port end_port (k_io k)) k);;
    modify (λ k, with_k_sched (set_current_allowed_ports (Some (start_port, end_port)) (k_sched k)) k);;
    mret (Returns 0)
  else
    modify (λ k, with_k_io (deny_port_range start_port end_port (k_io k)) k);;
    modify (λ k, with_k_sched (set_current_allowed_ports None (k_sched k)) k);;
    mret (Returns 0).

(** The region behind a handle with MAP and DMA —
    kernel/src/syscall.rs:670-682 [sys_map_dma] *)
Definition dma_region_of (h : CapHandle) : M (Z * Z) :=
  or_return EACCES_RET (in_ipc (cap_call (check_rights h (bitor MAP DMA))));;
  k ← get;
  ok_or (lookup_dma_region (slot h) (k_dma k)) EACCES_RET.

(** kernel/src/syscall.rs:641-700 [sys_map_dma] *)
Definition sys_map_dma (dma_slot virt_addr pages : Z) : M answer :=
  require_user_process;;
  total_bytes ← ok_or (fits 64 (pages * 4096)) EFAULT_RET;
  reject_if (negb (is_user_range virt_addr total_bytes)) EFAULT_RET;;
  reject_if (negb (is_page_aligned virt_addr)) EFAULT_RET;;
  h ← own_handle dma_slot;
  '(phys_addr, max_pages) ← dma_region_of h;
  reject_if (max_pages <? pages)%Z EFAULT_RET;;
  p ← unwrap (fits 52 phys_addr);
  or_return EFAULT_RET (in_memory (map_user_phys_range virt_addr p pages true));;
  mret (Returns 0).

(** The first number from 1000 on that the table does not use —
    kernel/src/syscall.rs:775-778 [sys_ipc_create_slot] *)
Fixpoint free_number (fuel : nat) (t : list (Z * CapHandle)) (fd : Z) : Z :=
  match fuel with
  | O => fd
  | S fuel => if existsb (λ e, e.1 =? fd)%Z t then free_number fuel t (fd + 1) else fd
  end.

(** kernel/src/syscall.rs:774-781 [sys_ipc_create_slot] *)
Definition add_numbered (h : CapHandle) : comp CapTable CapError Z :=
  t ← get;
  let fd := free_number (length (entries t)) (entries t) 1000 in
  push_entry fd h;; mret fd.

(** kernel/src/syscall.rs:719-792 [sys_ipc_create_slot] *)
Definition sys_ipc_create_slot (dma_fd offset len : Z) : M answer :=
  require_user_process;;
  h ← own_handle dma_fd;
  '(region_phys, pages) ← dma_region_of h;
  region_bytes ← unwrap (fits 64 (pages * 4096));
  reject_if ((len =? 0)%Z || match fits 64 (offset + len) with Some e => (region_bytes <? e)%Z | None => true end) EFAULT_RET;;
  slot_cap ← or_return u64_max (in_ipc (cap_call (create_object Abi.Memory)));
  id ← or_return u64_max (in_ipc (cap_call (object_identity slot_cap)));
  modify (λ k, with_k_dma (register_slot id.2 region_phys offset len (k_dma k)) k);;
  k ← get;
  r ← or_return EACCES_RET (in_ipc (with_cap_table (caller k) (add_numbered slot_cap)));
  fd ← ok_or r EACCES_RET;
  mret (Returns fd).

(** ** Surfaces *)

(** kernel/src/syscall.rs:152-157 [syscall_dispatcher, SYS_CREATE_SURFACE] *)
Definition sys_create_surface (width height : Z) : M answer :=
  k ← get;
  id ← or_return u64_max (in_surfaces (create_surface_for_pid (caller k) (wrap 32 width) (wrap 32 height)));
  mret (Returns id).
(** kernel/src/syscall.rs:170-175 [syscall_dispatcher, SYS_DESTROY_SURFACE] *)
Definition sys_destroy_surface (id : Z) : M answer :=
  k ← get;
  or_return u64_max (in_surfaces (destroy_surface_for_pid (caller k) id));; mret (Returns 0).

(** ** The dispatcher *)

(** kernel/src/syscall.rs:23-30 [syscall_dispatcher, FIRST_EXEC_PIDS] *)
Definition note_first_exec (k : Kernel) : Kernel :=
  let pid := caller k in
  if (0 <? pid)%Z && negb (bool_decide (pid ∈ FIRST_EXEC_PIDS k))
  then with_first_exec (FIRST_EXEC_PIDS k ++ [pid]) k else k.

(** [Outside] are programs, sockets, network frames, windows and events —
    kernel/src/syscall.rs:40-287 [syscall_dispatcher] *)
Definition dispatch (num a1 a2 a3 a4 a5 : Z) : M answer :=
  if (num =? SYS_EXIT)%Z then sys_exit a1
  else if (num =? SYS_YIELD)%Z then sys_yield
  else if (num =? SYS_READ)%Z then sys_read a1 a2 a3
  else if (num =? SYS_OPEN)%Z then sys_open a1 a2
  else if (num =? SYS_CLOSE)%Z then sys_close a1
  else if (num =? SYS_LSEEK)%Z then sys_lseek a1 a2 a3
  else if (num =? SYS_FORK)%Z then sys_fork
  else if (num =? SYS_WAITPID)%Z then sys_waitpid a1
  else if (num =? SYS_WRITE)%Z then sys_write a1 a2 a3
  else if (num =? SYS_IPC_SEND)%Z then sys_ipc_send a1 a2 a3 a4 a5
  else if (num =? SYS_IPC_RECV)%Z then sys_ipc_recv a1 a2 a3 a4 a5
  else if (num =? SYS_IPC_TRY_RECV)%Z then sys_ipc_try_recv a1 a2 a3 a4 a5
  else if (num =? SYS_IOPERM)%Z then sys_ioperm a1 a2 a3
  else if (num =? SYS_IPC_CREATE_ENDPOINT)%Z then sys_ipc_create_endpoint a1
  else if (num =? SYS_IPC_BIND_IRQ)%Z then sys_ipc_bind_irq a1 a2 a3
  else if (num =? SYS_MAP_DMA)%Z then sys_map_dma a1 a2 a3
  else if (num =? SYS_IPC_CANCEL)%Z then sys_ipc_cancel a1
  else if (num =? SYS_IPC_CREATE_SLOT)%Z then sys_ipc_create_slot a1 a2 a3
  else if (num =? SYS_CREATE_SURFACE)%Z then sys_create_surface a1 a2
  else if (num =? SYS_DESTROY_SURFACE)%Z then sys_destroy_surface a1
  else if (num =? SYS_SETAFFINITY)%Z then sys_setaffinity a1 a2
  else if (num =? SYS_GETAFFINITY)%Z then sys_getaffinity a1
  else if (num =? SYS_MKDIR)%Z then sys_mkdir a1
  else if (num =? SYS_STAT)%Z then sys_stat a1 a2
  else if (num =? SYS_KILL)%Z then sys_kill a1 a2
  else if (num =? SYS_SIGACTION)%Z then sys_sigaction a1 a2
  else if (num =? SYS_SIGPROCMASK)%Z then sys_sigprocmask a1 a2
  else if ((10 <=? num) && (num <=? 13) || (num =? 15) || (27 <=? num) && (num <=? 28)
           || (num =? 32) || (34 <=? num) && (num <=? 39))%Z then mret Outside
  else mret (Returns u64_max).

(** Every way out is an answer, or a panic —
    kernel/src/syscall.rs:15-34 [syscall_dispatcher] *)
Definition syscall_dispatcher (num a1 a2 a3 a4 a5 : Z) : comp Kernel Empty_set answer :=
  modify note_first_exec;;
  r ← attempt (dispatch num a1 a2 a3 a4 a5);
  mret (match r with inr a => a | inl v => Returns v end).
End caller.
End syscalls.
