(* ===== verification/SyscallProps.v ===== *)
(** * Properties of system calls

    Which memory a call may write, which handles it needs, and what handles
    for files, ports and DMA are good for. *)
From S2P Require Import Prelude Respects Bytes Text Disk Abi Cap CapInv CapProps CapStatics FramePool Process.
From S2P Require Import WaitQueue Sched IoPorts Channel Ipc IpcProps SyscallCap AddrSpace DmaRegion Surface.
From S2P Require Import ProcFs Vfs FdTable SecMem Syscall.

Section machine.
Context {PT D : Type} `{!Mapper PT, !UserSpace PT, !Drive D}.
Abbreviation Kernel := (Kernel (PT := PT) (D := D)).
Implicit Types k : Kernel.

(** ** The memory that a call writes *)

(** One write of at most [n] bytes to a buffer at [p] that the caller may write. *)
Definition buffer_write (bufs : list (Z * Z)) (u u' : PT) : Prop :=
  ∃ p n f b, (p, n) ∈ bufs ∧ user_store p n u = Some f ∧ (Z.of_nat (length b) ≤ n)%Z ∧ u' = f b.
(** The machine's memory changes by such writes only, the rest of memory management not at all. *)
Definition writes_only (bufs : list (Z * Z)) k k' : Prop :=
  rtc (buffer_write bufs) (tables (k_memory k)) (tables (k_memory k')) ∧
  pool (k_memory k') = pool (k_memory k) ∧ COW_PAGES (k_memory k') = COW_PAGES (k_memory k).

#[local] Instance writes_only_preorder bufs : PreOrder (writes_only bufs).
Proof.
  split; [done|]. intros x y z (H1 & H2 & H3) (H4 & H5 & H6).
  split_and!; [by etrans|by rewrite H5|by rewrite H6].
Qed.

Lemma writes_only_same bufs k k' : k_memory k' = k_memory k → writes_only bufs k k'.
Proof. unfold writes_only. by intros ->. Qed.

Lemma ipc_respects {A E} bufs k (m : comp IpcWorld E A) : respects (writes_only bufs) k (in_ipc m).
Proof. apply respects_zoom. intros t. by apply writes_only_same. Qed.
Lemma sched_respects {A E} bufs k (m : comp Scheduler E A) : respects (writes_only bufs) k (in_sched m).
Proof. apply respects_zoom. intros t. by apply writes_only_same. Qed.
Lemma store_respects {A E} bufs k (m : comp (Storage D) E A) : respects (writes_only bufs) k (in_store m).
Proof. apply respects_zoom. intros t. by apply writes_only_same. Qed.
Lemma modify_respects {E} bufs k (f : Kernel → Kernel) :
  k_memory (f k) = k_memory k → respects (E := E) (writes_only bufs) k (modify f).
Proof. intros. by apply writes_only_same. Qed.
Lemma put_respects bufs k k' : k_memory k' = k_memory k → respects (E := Z) (writes_only bufs) k (put k').
Proof. intros. by apply writes_only_same. Qed.

Lemma write_user_respects bufs k p n b : (p, n) ∈ bufs → (Z.of_nat (length b) ≤ n)%Z →
  respects (writes_only bufs) k (write_user p n b).
Proof.
  intros Hin Hn. unfold write_user. apply respects_get.
  destruct (user_store p n (tables (k_memory k))) as [f|] eqn:Hf; [|apply respects_panic; apply _].
  split_and!; [|done..]. apply rtc_once. by exists p, n, f, b.
Qed.

Lemma offer_respects bufs k p n b : (p, n) ∈ bufs → (Z.of_nat (length b) ≤ n)%Z →
  respects (writes_only bufs) k (offer p n b).
Proof. intros Hin Hn. unfold offer. repeat respects_step. by apply write_user_respects. Qed.

(** A call that leaves memory alone. *)
Ltac leaves_memory :=
  repeat first
    [ progress unfold or_return | respects_step | apply ipc_respects | apply sched_respects | apply store_respects
    | apply modify_respects; reflexivity | apply put_respects; reflexivity ].

Lemma chunk_at_room content off room : length (chunk_at content off room) ≤ room.
Proof. unfold chunk_at. destruct (_ <=? _)%Z; cbn; [lia|]. rewrite length_take. lia. Qed.

Lemma fd_read_room fd room : returns (λ b, length b ≤ room) (fd_read (D := D) fd room).
Proof.
  unfold fd_read. do 3 (eapply returns_bind; [apply returns_any|intros ? _]).
  apply (returns_bind (λ b, length b ≤ room)).
  - apply returns_zoom. destruct (_ : bool).
    + unfold read_file_from_path_chunk. eapply returns_bind; [apply returns_any|intros ? _].
      apply returns_ret, chunk_at_room.
    + unfold read_file_chunk. do 2 (eapply returns_bind; [apply returns_any|intros ? _]).
      destruct (generate_procfs_content _ _); [apply returns_ret, chunk_at_room|].
      eapply returns_bind; [apply returns_any|intros ? _]. apply returns_ret, chunk_at_room.
  - intros b Hb. do 2 (eapply returns_bind; [apply returns_any|intros ? _]). by apply returns_ret.
Qed.

Lemma copy_respects bufs k msg p n pc ps : (0 ≤ n)%Z → (p, n) ∈ bufs → (pc, 8%Z) ∈ bufs → (ps, 4%Z) ∈ bufs →
  respects (writes_only bufs) k (copy_ipc_msg_to_user msg p n pc ps).
Proof.
  intros Hn H1 H2 H3. unfold copy_ipc_msg_to_user. cbv zeta. apply respects_bind; [apply _| |intros _].
  { apply write_user_respects; [done|]. rewrite length_take. lia. }
  leaves_memory; apply offer_respects; try done; rewrite ?length_app, ?length_to_le; done.
Qed.

(** The buffers that a call is told to fill. *)
Definition buffers (num a1 a2 a3 a4 a5 : Z) : list (Z * Z) :=
  if (num =? SYS_READ)%Z then [(a2, a3)]
  else if (num =? SYS_STAT)%Z then [(a2, 32%Z)]
  else if (num =? SYS_IPC_RECV)%Z || (num =? SYS_IPC_TRY_RECV)%Z then [(a2, a3); (a4, 8%Z); (a5, 4%Z)]
  else [].
(** The calls that change mappings. *)
Definition maps_memory (num : Z) : bool :=
  (num =? SYS_MAP_DMA)%Z || (num =? SYS_CREATE_SURFACE)%Z || (num =? SYS_DESTROY_SURFACE)%Z.

Lemma receive_respects bufs cpu k ep h p n pc ps : (0 ≤ n)%Z → (p, n) ∈ bufs → (pc, 8%Z) ∈ bufs → (ps, 4%Z) ∈ bufs →
  respects (writes_only bufs) k (receive_round cpu ep h p n pc ps).
Proof. intros. unfold receive_round. leaves_memory. by apply copy_respects. Qed.

Lemma read_respects bufs cpu k fd p n : (0 ≤ n)%Z → (p, n) ∈ bufs → respects (writes_only bufs) k (sys_read cpu fd p n).
Proof.
  intros Hn Hin. unfold sys_read, storage_read, require_fd, check_user_buffer.
  do 2 (apply respects_bind; [apply _|leaves_memory|intros _]).
  eapply respects_bind_returns; [apply _|apply returns_map_err, returns_zoom, fd_read_room|leaves_memory|].
  intros b Hb. leaves_memory. apply write_user_respects; [done|]. cbv beta in Hb. lia.
Qed.

Lemma stat_respects bufs k path p : (p, 32%Z) ∈ bufs → respects (writes_only bufs) k (sys_stat path p).
Proof.
  intros Hin. unfold sys_stat, user_path, user_buffer, check_user_buffer. leaves_memory; by apply write_user_respects.
Qed.

Lemma dispatch_respects cpu num a1 a2 a3 a4 a5 k : (0 ≤ a3)%Z → maps_memory num = false →
  respects (writes_only (buffers num a1 a2 a3 a4 a5)) k (dispatch cpu num a1 a2 a3 a4 a5).
Proof.
  intros Ha3 Hmaps. unfold dispatch, maps_memory in *. reflect.
  repeat match goal with |- respects _ _ (if (num =? ?c)%Z then _ else _) => destruct (Z.eqb_spec num c) as [->|] end.
  all: lazymatch goal with
    | |- respects _ _ (sys_read _ _ _ _) => apply read_respects; [done|left]
    | |- respects _ _ (sys_stat _ _) => apply stat_respects; left
    | H : ?c ≠ ?c |- _ => done
    | |- _ => cbv delta [sys_exit sys_yield sys_open sys_close sys_lseek sys_fork sys_waitpid sys_write sys_ipc_send
        sys_ipc_recv sys_ipc_try_recv sys_ioperm sys_ipc_create_endpoint sys_ipc_bind_irq sys_ipc_cancel
        sys_ipc_create_slot sys_setaffinity sys_getaffinity sys_mkdir sys_kill sys_sigaction sys_sigprocmask
        storage_write console_write storage_close storage_lseek dma_region_of own_handle require_fd
        require_user_process user_buffer user_path check_user_buffer]; cbv beta; leaves_memory
    end.
  all: lazymatch goal with
    | |- respects _ _ (receive_round _ _ _ _ _ _ _) => apply receive_respects; [done|set_solver..]
    | |- respects _ _ (copy_ipc_msg_to_user _ _ _ _ _) => apply copy_respects; [done|set_solver..]
    end.
Qed.

End machine.
