(* ===== verification/SyscallAuth.v ===== *)
(** * What the handles of a caller are good for

    System calls act for a process by the handles in its capability table.
    Here: a call without a handle that is good for it does nothing, and what
    the handles for files, ports and DMA give. *)
From S2P Require Import Prelude Bytes Text Disk Abi Cap CapInv CapProps CapStatics FramePool Process WaitQueue.
From S2P Require Import Sched IoPorts Channel Ipc IpcProps SyscallCap AddrSpace DmaRegion Surface ProcFs Vfs.
From S2P Require Import FdTable FdProps SecMem Syscall.

(** ** Reading a capability table *)

Definition with_some {E A} (r : outcome E A) : outcome E (option A) :=
  match r with Ok a => Ok (Some a) | Err e => Err e | Panic => Panic end.

Lemma alter_same {K A} `{Countable K} (f : A → A) (k : K) (m : gmap K A) x :
  m !! k = Some x → f x = x → alter f k m = m.
Proof. intros Hx Hf. apply map_eq. intros j. destruct (decide (j = k)) as [->|]; simplify_map_eq; congruence. Qed.

Lemma table_same w pid p : procs (sched w) !! pid = Some p →
  with_caps (caps w) (with_sched (update pid (set_cap_table (cap_table p)) (sched w)) w) = w.
Proof.
  intros Hp. unfold update. rewrite (alter_same _ _ _ p) by (done || by destruct p).
  by destruct w as [? [] ? ? ? ? ? ?].
Qed.

Lemma with_cap_table_same {E A} pid (m : comp CapTable E A) w p r : procs (sched w) !! pid = Some p →
  m (mkTable (caps w) (cap_table p)) = (r, mkTable (caps w) (cap_table p)) →
  with_cap_table pid m w = (with_some r, w).
Proof.
  intros Hp Hm. unfold with_cap_table. erewrite bind_ok by reflexivity. rewrite Hp.
  unfold mbind, comp_bind, zoom. rewrite Hm. cbn. rewrite table_same by done. by destruct r.
Qed.

Lemma with_cap_table_none {E A} pid (m : comp CapTable E A) w :
  procs (sched w) !! pid = None → with_cap_table pid m w = (Ok None, w).
Proof. intros Hp. unfold with_cap_table. erewrite bind_ok by reflexivity. by rewrite Hp. Qed.

(** A passive operation on capabilities, by way of a table. *)
Lemma table_cap_same {A} (m : comp CoreState CapError A) c l st r : STATE c = Some st → m st = (r, st) →
  table_cap m (mkTable c l) = (r, mkTable c l).
Proof.
  intros Hst Hm. unfold table_cap, zoom, locked. cbn. rewrite Hst, Hm. unfold set_table_caps. cbn.
  by rewrite with_state_id.
Qed.
Lemma cap_call_same {A} (m : comp CoreState CapError A) w st r : STATE (caps w) = Some st → m st = (r, st) →
  Ipc.cap_call m w = (r, w).
Proof.
  intros Hst Hm. unfold Ipc.cap_call, zoom, locked. rewrite Hst, Hm. by rewrite with_caps_same.
Qed.

Lemma check_rights_refused st h r : cap_wf st → ¬ usable st h r → ∃ e, check_rights h r st = (Err e, st).
Proof.
  intros Hwf Hno. pose proof (check_rights_spec h r st Hwf) as Hspec. unfold wp in Hspec.
  destruct (check_rights h r st) as [[[]|e|] st']; cbn in Hspec; destruct Hspec as [-> Hspec]; [done|by eexists|done].
Qed.
Lemma check_rights_granted st h r : cap_wf st → usable st h r → check_rights h r st = (Ok tt, st).
Proof.
  intros Hwf Hyes. pose proof (check_rights_spec h r st Hwf) as Hspec. unfold wp in Hspec.
  destruct (check_rights h r st) as [[[]|e|] st']; cbn in Hspec; destruct Hspec as [-> Hspec]; [done|by destruct Hspec|done].
Qed.

(** The process that runs on [cpu] has a handle with number [fd] that passes a check for [r]. *)
Definition holds_handle (cpu : nat) (w : IpcWorld) (st : CoreState) (fd : Z) (r : Rights) : Prop :=
  ∃ h, current_handle cpu fd (sched w) = Some h ∧ usable st h r.

Lemma check_fd_denied cpu w st fd r : caps_up w st → ¬ holds_handle cpu w st fd r →
  ∃ e, check_fd_access cpu fd r w = (Err e, w).
Proof.
  intros [Hst Hwf] Hno. unfold check_fd_access, in_current_table. erewrite bind_ok by reflexivity.
  unfold holds_handle, current_handle in Hno. destruct (procs (sched w) !! _) as [p|] eqn:Hp; cbn in Hno.
  - destruct (find_fd_in_table (cap_table p) fd) as [h|] eqn:Hh.
    + destruct (check_rights_refused st h r) as [e He]; [done|by intros ?; apply Hno; eauto|]. exists e.
      apply bind_err. rewrite (with_cap_table_same _ _ _ p (Err e)); [done..|].
      unfold check_fd_access_in_table. erewrite bind_ok by reflexivity. cbn [entries]. rewrite Hh.
      erewrite bind_ok by reflexivity. by eapply table_cap_same.
    + exists NotFound. apply bind_err. rewrite (with_cap_table_same _ _ _ p (Err NotFound)); [done..|].
      unfold check_fd_access_in_table. erewrite bind_ok by reflexivity. cbn [entries]. by rewrite Hh.
  - exists NotFound. erewrite bind_ok by (by apply with_cap_table_none). done.
Qed.

Lemma find_fd_none l fd : find_fd_in_table l fd = None ↔ ∀ e, e ∈ l → e.1 ≠ fd.
Proof.
  unfold find_fd_in_table. destruct (list_find _ l) as [[i e]|] eqn:Hf; cbn.
  - apply list_find_Some in Hf as (Hi & He & _). split; [done|]. intros H. by apply list_elem_of_lookup_2, H in Hi.
  - apply list_find_None in Hf. rewrite Forall_forall in Hf. done.
Qed.

Lemma find_fd_snoc l fd h : find_fd_in_table l fd = None → find_fd_in_table (l ++ [(fd, h)]) fd = Some h.
Proof.
  unfold find_fd_in_table. intros Hn. destruct (list_find _ l) as [[i e]|] eqn:Hf; [done|].
  rewrite list_find_app_r by done. cbn. by rewrite decide_True.
Qed.

(** Creating an object leaves the processes alone; with success the space has one more. *)
Lemma wp_create_object kd w st : caps_up w st →
  wp (Ipc.cap_call (create_object kd)) (λ r w', sched w' = sched w ∧ ∃ st', caps_up w' st') w.
Proof.
  intros [Hst Hwf]. apply wp_zoom. eapply wp_locked; [done|]. eapply wp_mono; [by apply create_object_spec|].
  intros [h|e|] st' H; [|subst st'|done]; (split; [done|]).
  - destruct H as (nw & st0 & [Hwf' _] & _). exists st'. split; [|done]. by destruct w as [[] ? ? ? ? ? ? ?].
  - exists st. split; [|done]. by rewrite with_caps_same.
Qed.

(** The world after an operation on the table of process [pid]. *)
Definition write_back (pid : Z) (t : CapTable) (w : IpcWorld) : IpcWorld :=
  with_caps (table_caps t) (with_sched (update pid (set_cap_table (entries t)) (sched w)) w).

Lemma with_cap_table_run {E A} pid (m : comp CapTable E A) w p r t : procs (sched w) !! pid = Some p →
  m (mkTable (caps w) (cap_table p)) = (r, t) → with_cap_table pid m w = (with_some r, write_back pid t w).
Proof.
  intros Hp Hm. unfold with_cap_table. erewrite bind_ok by reflexivity. rewrite Hp.
  unfold mbind, comp_bind, zoom. rewrite Hm. by destruct r.
Qed.

Lemma current_write_back cpu pid t w : current_pid cpu (sched (write_back pid t w)) = current_pid cpu (sched w).
Proof. done. Qed.

Lemma handle_written_back cpu t w fd : is_Some (procs (sched w) !! current_pid cpu (sched w)) →
  current_handle cpu fd (sched (write_back (current_pid cpu (sched w)) t w)) = find_fd_in_table (entries t) fd.
Proof.
  intros [p Hp]. unfold current_handle. rewrite current_write_back. cbn.
  rewrite lookup_alter_eq, Hp. cbn. by destruct p.
Qed.

(** Granting a handle for a number: an error changes nothing. *)
Lemma grant_fd_spec fd parent r st t : STATE (table_caps t) = Some st → cap_wf st →
  wp (grant_fd_in_table fd parent r)
     (λ o t', match o with
      | Ok _ => find_fd_in_table (entries t) fd = None ∧ ∃ h st', STATE (table_caps t') = Some st' ∧ cap_wf st' ∧
          entries t' = entries t ++ [(fd, h)] ∧ ∀ r', usable st' h r' → contains r r' = true
      | Err _ => t' = t
      | Panic => False
      end) t.
Proof.
  intros Hst Hwf. unfold grant_fd_in_table, push_entry, table_cap. destruct t as [c l]. cbn in Hst.
  wp_steps; cbn [entries table_caps]; [done|].
  eapply wp_locked; [done|]. eapply wp_mono; [by apply (derive_spec false)|].
  intros [h|e|] st'; [|intros [-> _]; unfold set_table_caps; cbn; by rewrite with_state_id|done].
  intros (s & nw & (Hs & Hc & Hl & Hnr) & [Hwf' Hext] & Hins & Hgen & Hob & Hrt & _). wp_steps.
  split.
  { apply find_fd_none. intros e He Heq. apply not_true_iff_false in H. apply H, existsb_exists. exists e. split; [by apply list_elem_of_In|by apply Z.eqb_eq]. }
  exists h, st'. split_and!; [by destruct c|done..|].
  intros r' Hu. assert (h = mkHandle (slot h) (slot_generation nw)) as Hh by (destruct h; cbn in *; congruence).
  rewrite Hh in Hu. apply (installed_usable_new _ _ _ _ _ Hwf Hins) in Hu as (Hc' & _).
  - rewrite Hrt, contains_bitand in Hc' by done. done.
  - intros q [= <-]. by destruct (denotes_node _ _ _ Hwf Hs).
Qed.

(** The handle that [add_fd_to_current] adds has the rights to read and write only. *)
Lemma add_fd_effect cpu w st fd cap : caps_up w st → current_handle cpu fd (sched w) = None →
  wp (add_fd_to_current cpu fd cap (bitor READ WRITE))
     (λ _ w', ∃ st', caps_up w' st' ∧ ¬ holds_handle cpu w' st' fd DESTROY) w.
Proof.
  intros [Hst Hwf] Hnone. unfold add_fd_to_current, in_current_table. apply wp_bind, wp_get, wp_bind.
  assert (¬ holds_handle cpu w st fd DESTROY) as Hno by (intros (h & Hh & _); congruence).
  destruct (procs (sched w) !! current_pid cpu (sched w)) as [p|] eqn:Hp;
    [|eapply wp_returns; [by apply with_cap_table_none|]; cbn; exists st; by split].
  pose proof (grant_fd_spec fd cap (bitor READ WRITE) st (mkTable (caps w) (cap_table p)) Hst Hwf) as Hg.
  unfold wp in Hg. destruct (grant_fd_in_table fd cap (bitor READ WRITE) _) as [r t] eqn:Hrun. cbn in Hg.
  eapply wp_returns; [by eapply with_cap_table_run|]. destruct r as [[]|e|]; cbn [with_some ok_or]; [apply wp_ret|subst t|done].
  - destruct Hg as (Hn & h & st' & Hst' & Hwf' & Ht & Hr). exists st'. split; [done|].
    intros (h' & Hh' & Hu). rewrite handle_written_back in Hh' by done. rewrite Ht, find_fd_snoc in Hh' by done.
    injection Hh' as <-. by apply Hr in Hu.
  - unfold write_back. cbn [table_caps entries]. rewrite table_same by done. exists st. by split.
Qed.

Section machine.
Context {PT D : Type} `{!Mapper PT, !UserSpace PT, !Drive D}.
Abbreviation Kernel := (Kernel (PT := PT) (D := D)).
Implicit Types k : Kernel.

Lemma in_ipc_same {E A} (m : comp IpcWorld E A) k r : m (k_ipc k) = (r, k_ipc k) → in_ipc m k = (r, k).
Proof. intros Hm. unfold in_ipc, zoom. rewrite Hm. by destruct k. Qed.

Lemma or_return_err {E A} v (m : comp Kernel E A) k e k' : m k = (Err e, k') → or_return v m k = (Err v, k').
Proof. intros Hm. unfold or_return, map_err, attempt, mbind, comp_bind. by rewrite Hm. Qed.
Lemma or_return_ok {E A} v (m : comp Kernel E A) k a k' : m k = (Ok a, k') → or_return v m k = (Ok a, k').
Proof. intros Hm. unfold or_return, map_err, attempt, mbind, comp_bind. by rewrite Hm. Qed.

Lemma require_fd_denied cpu k st fd r : caps_up (k_ipc k) st → ¬ holds_handle cpu (k_ipc k) st (wrap 32 fd) r →
  require_fd cpu fd r k = (Err EACCES_RET, k).
Proof.
  intros Hup Hno. destruct (check_fd_denied _ _ _ _ _ Hup Hno) as [e He].
  eapply or_return_err. by apply in_ipc_same.
Qed.

(** The handle that a call needs, by its number, and with which rights. *)
Definition demands (num a1 : Z) : option (Z * Rights) :=
  if (num =? SYS_READ)%Z || (num =? SYS_LSEEK)%Z then Some (a1, READ)
  else if (num =? SYS_WRITE)%Z then Some (a1, WRITE)
  else if (num =? SYS_CLOSE)%Z then Some (a1, DESTROY)
  else if (num =? SYS_IPC_CANCEL)%Z then Some (a1, bitor READ WRITE)
  else None.

Lemma dispatch_denied cpu num a1 a2 a3 a4 a5 k st fd r : caps_up (k_ipc k) st → demands num a1 = Some (fd, r) →
  ¬ holds_handle cpu (k_ipc k) st (wrap 32 fd) r →
  dispatch cpu num a1 a2 a3 a4 a5 k = (Err EACCES_RET, k).
Proof.
  intros Hup Hd Hno. unfold demands in Hd.
  assert (require_fd cpu fd r k = (Err EACCES_RET, k)) as Hreq by by eapply require_fd_denied.
  destruct (num =? SYS_READ)%Z eqn:E1; [|destruct (num =? SYS_LSEEK)%Z eqn:E2; [|destruct (num =? SYS_WRITE)%Z eqn:E3;
    [|destruct (num =? SYS_CLOSE)%Z eqn:E4; [|destruct (num =? SYS_IPC_CANCEL)%Z eqn:E5; [|done]]]]]; reflect; subst num;
    injection Hd as <- <-; [exact (bind_err _ _ _ _ _ Hreq)..|].
  unfold dispatch. cbn -[sys_ipc_cancel]. unfold sys_ipc_cancel, own_handle. destruct Hup as [Hst Hwf].
  destruct (current_handle cpu (wrap 32 a1) (k_sched k)) as [h|] eqn:Hh.
  - destruct (check_rights_refused st h (bitor READ WRITE)) as [e He]; [done|by intros ?; apply Hno; eexists|].
    erewrite bind_ok by (erewrite bind_ok by reflexivity; by rewrite Hh). apply bind_err. eapply or_return_err.
    exact (in_ipc_same _ _ _ (cap_call_same _ _ _ _ Hst He)).
  - apply bind_err. erewrite bind_ok by reflexivity. by rewrite Hh.
Qed.


(** ** Open files *)

(** A call on the files leaves the processes and their capabilities alone. *)
Lemma wp_in_store {A E} (m : comp (Storage D) E A) (Q : outcome E A → Kernel → Prop) k :
  wp m (λ r s', Q r (with_k_store s' k)) (set_files (with_view (mkView (pool (k_memory k)) (k_tick k) (k_sched k))
     (files (k_store k))) (k_store k)) → wp (in_store m) Q k.
Proof. intros H. apply wp_zoom. exact H. Qed.

Lemma wp_or_return {E A} v (m : comp Kernel E A) (Q : outcome Z A → Kernel → Prop) k :
  wp m (λ r k', match r with Ok a => Q (Ok a) k' | Err _ => Q (Err v) k' | Panic => Q Panic k' end) k →
  wp (or_return v m) Q k.
Proof. intros H. unfold or_return, map_err. apply wp_bind, wp_attempt. eapply wp_mono; [done|]. by intros [?|?|] ?. Qed.

Lemma open_number path fl (s : Storage D) : length (fds s) = MAX_FDS →
  wp (fd_open path fl) (λ r _, ∀ fd, r = Ok fd → fd < MAX_FDS) s.
Proof.
  intros Hlen. unfold fd_open. apply wp_bind, wp_get, wp_bind, wp_ok_or; [done|]. intros [fd o] Hf.
  apply list_find_Some in Hf as (Hi%lookup_lt_Some & _). rewrite Hlen in Hi.
  repeat (apply wp_answer; [done..|intros ? ?]).
  intros ? [= <-]. done.
Qed.

Lemma user_path_same p k : ∃ r, user_path p k = (r, k) ∧ r ≠ Panic.
Proof.
  unfold user_path, user_buffer. destruct (user_bytes p MAX_PATH (tables (k_memory k))) as [b|] eqn:Hb.
  - erewrite bind_ok by (erewrite bind_ok by reflexivity; by rewrite Hb).
    destruct (user_strn_len b (Z.to_nat MAX_PATH)); cbn; by eexists.
  - exists (Err EFAULT_RET). split; [|done]. apply bind_err. erewrite bind_ok by reflexivity. by rewrite Hb.
Qed.

Lemma open_effect cpu k st p fl : caps_up (k_ipc k) st → length (fds (k_store k)) = MAX_FDS →
  wp (sys_open cpu p fl) (λ r k', ∀ v, r = Ok (Returns v) → current_handle cpu v (k_sched k) = None →
    (0 ≤ v < 256)%Z ∧ ∃ st', caps_up (k_ipc k') st' ∧ ¬ holds_handle cpu (k_ipc k') st' v DESTROY) k.
Proof.
  intros Hup Hlen. unfold sys_open. apply wp_bind. destruct (user_path_same p k) as (r & Hr & _).
  eapply wp_returns; [done|]. destruct r as [path|e|]; [|done..].
  apply wp_bind, wp_ok_or; [done|]. intros path' _. apply wp_bind, wp_or_return, wp_in_store.
  eapply wp_mono; [by apply open_number|]. intros [fd|e|] s' Hfd; [|done..]. specialize (Hfd fd eq_refl).
  apply wp_bind, wp_attempt, wp_zoom. eapply wp_mono; [by eapply wp_create_object|].
  intros r w [Hsame (st1 & Hup1)]. cbv beta.
  set (k1 := with_k_ipc w (with_k_store s' k)).
  assert (∀ k', (current_handle cpu (Z.of_nat fd) (k_sched k) = None →
      ∃ st', caps_up (k_ipc k') st' ∧ ¬ holds_handle cpu (k_ipc k') st' (Z.of_nat fd) DESTROY) →
    ∀ v, (Ok (Returns (Z.of_nat fd)) : outcome Z answer) = Ok (Returns v) → current_handle cpu v (k_sched k) = None →
    (0 ≤ v < 256)%Z ∧ ∃ st', caps_up (k_ipc k') st' ∧ ¬ holds_handle cpu (k_ipc k') st' v DESTROY) as Hdone.
  { intros k' H v [= <-] Hn. unfold MAX_FDS in Hfd. split; [lia|]. by apply H. }
  assert (current_handle cpu (Z.of_nat fd) (k_sched k) = None →
    current_handle cpu (Z.of_nat fd) (sched w) = None) as Hw by by rewrite Hsame.
  destruct r as [cap|e|]; [| |done].
  - apply wp_bind, wp_ignore, wp_zoom, wp_intro.
    destruct (decide (current_handle cpu (Z.of_nat fd) (k_sched k) = None)) as [Hn|Hs].
    + pose proof (add_fd_effect cpu w st1 (Z.of_nat fd) cap Hup1 (Hw Hn)) as H. unfold wp in H.
      destruct (add_fd_to_current _ _ _ _ _) as [[?|?|] w']; [..|done]; apply wp_ret, Hdone; done.
    + destruct (add_fd_to_current _ _ _ _ _) as [[?|?|] w']; [..|done]; apply wp_ret, Hdone; done.
  - apply wp_bind, wp_ret, wp_ret, Hdone. intros Hn. exists st1. split; [done|].
    intros (h & Hh & _). change (sched (k_ipc k1)) with (sched w) in Hh. rewrite Hw in Hh; done.
Qed.

(** What [sys_open] opens no call can close: closing asks for a handle with
    DESTROY, and the handle that opening makes has READ and WRITE only, so
    [SYS_CLOSE] of the number answers [EACCES] and the descriptor stays taken.
    There are 256 descriptors for all processes together. *)
Theorem opened_files_cannot_be_closed (cpu : nat) (k k' : Kernel) (st : CoreState) (path_ptr flags v : Z) :
  caps_up (k_ipc k) st → length (fds (k_store k)) = MAX_FDS →
  current_handle cpu v (k_sched k) = None →
  sys_open cpu path_ptr flags k = (Ok (Returns v), k') →
  ∀ a2 a3 a4 a5, syscall_dispatcher cpu SYS_CLOSE v a2 a3 a4 a5 k' = (Ok (Returns EACCES_RET), note_first_exec cpu k').
Proof.
  intros Hup Hlen Hn Hrun a2 a3 a4 a5.
  destruct (wp_run _ _ _ _ _ (open_effect cpu k st path_ptr flags Hup Hlen) Hrun v eq_refl Hn) as (Hv & st' & Hup' & Hno).
  assert (k_ipc (note_first_exec cpu k') = k_ipc k') as Hsame
    by (unfold note_first_exec; cbv zeta; by case_match).
  unfold syscall_dispatcher. erewrite bind_ok by reflexivity. unfold mbind at 1, comp_bind, attempt.
  rewrite (dispatch_denied cpu SYS_CLOSE v a2 a3 a4 a5 _ st' v DESTROY); rewrite ?Hsame; [done..|].
  unfold wrap. by rewrite Z.mod_small by lia.
Qed.
End machine.
