(* ===== verification/SyscallDev.v ===== *)
(** * System calls for devices

    Ports, and the regions and slots of DMA memory; then a running kernel, where
    the properties of system calls are tried. *)
From S2P Require Import Prelude Bytes Text Disk Abi Cap CapInv CapProps CapStatics FramePool Process WaitQueue.
From S2P Require Import Sched IoPorts Channel Ipc IpcProps SyscallCap AddrSpace DmaRegion Surface MemProps.
From S2P Require Import ProcFs Vfs FdTable VfsTree VfsProps FdProps SecMem Syscall SyscallProps SyscallAuth.

(** A passive operation on capabilities, by way of a table. *)
Lemma object_identity_run h st : cap_wf st →
  ∃ r, object_identity h st = (r, st) ∧ r ≠ Panic.
Proof.
  intros Hwf. pose proof (object_identity_spec h st Hwf) as Hspec. unfold wp in Hspec.
  destruct (object_identity h st) as [[a|e|] st']; cbn in Hspec; destruct Hspec as [-> Hspec]; [by eexists..|done].
Qed.

Lemma find_device_run l c l0 st : STATE c = Some st → cap_wf st →
  ∃ o, find_device l (mkTable c l0) = (Ok o, mkTable c l0) ∧ ∀ h, o = Some h → h ∈ l.*2.
Proof.
  intros Hst Hwf. induction l as [|[n h] l (o & Ho & Hin)]; [by exists None|]. cbn [find_device].
  destruct (object_identity_run h st Hwf) as (r & Hr & Hnp).
  assert (find_device l (mkTable c l0) = (Ok o, mkTable c l0) → ∀ k : bool,
    ∃ o', (if k then mret (Some h) else find_device l) (mkTable c l0) = (Ok o', mkTable c l0) ∧
      ∀ h', o' = Some h' → h' ∈ ((n, h) :: l).*2) as Hnext.
  { intros _ [|]; [exists (Some h); split; [done|]; intros ? [= <-]; left|exists o; split; [done|]].
    intros h' Hh'. right. by apply Hin. }
  pose proof (table_cap_same (object_identity h) c l0 st r Hst Hr) as Hrun.
  destruct r as [id|e|]; [| |done].
  - erewrite bind_ok by (unfold attempt; by rewrite Hrun). by apply (Hnext Ho (bool_decide (id.1 = Abi.Device))).
  - erewrite bind_ok by (unfold attempt; by rewrite Hrun). by apply (Hnext Ho false).
Qed.

Lemma ports_never_panic w st h a b : STATE w = Some st → cap_wf st → (port_range_allowed h a b w).1 ≠ Panic.
Proof.
  intros Hst Hwf. change (wp (port_range_allowed h a b) (λ r _, r ≠ Panic) w). unfold port_range_allowed. apply wp_bind.
  eapply wp_mono; [by eapply device_io_range_spec|]. intros [x|e|] w' [_ H]; [|done..]. by wp_steps.
Qed.

(** The search for a free number ends with one. *)
Lemma free_number_busy fuel l fd : let n := free_number fuel l fd in
  (fd ≤ n)%Z ∧ (n ∉ l.*1 ∨ n = (fd + Z.of_nat fuel)%Z ∧ ∀ m, (fd ≤ m < n)%Z → m ∈ l.*1).
Proof.
  revert fd. induction fuel as [|fuel IH]; intros fd; cbn; [split; [lia|right; split; [lia|intros; lia]]|].
  destruct (existsb _ l) eqn:He.
  - apply existsb_exists in He as (e & He & Heq). apply list_elem_of_In in He. reflect.
    destruct (IH (fd + 1)%Z) as [Hle [?|[-> Hm]]]; (split; [lia|]); [by left|right]. split; [lia|].
    intros m Hb. destruct (decide (m = fd)) as [->|]; [|apply Hm; lia]. rewrite <-Heq. by apply list_elem_of_fmap_2.
  - split; [lia|left]. intros (e & -> & He')%list_elem_of_fmap. apply not_true_iff_false in He. apply He, existsb_exists.
    exists e. split; [by apply list_elem_of_In|by apply Z.eqb_refl].
Qed.

Lemma free_number_fresh (l : list (Z * CapHandle)) fd : (free_number (length l) l fd ∉ l.*1) ∧ (fd ≤ free_number (length l) l fd)%Z.
Proof.
  destruct (free_number_busy (length l) l fd) as [Hle [?|[Hn Hm]]]; [done|]. split; [|done]. intros Hin.
  assert (length ((λ i, fd + Z.of_nat i)%Z <$> seq 0 (S (length l))) ≤ length l.*1) as Hlen.
  { apply submseteq_length, NoDup_submseteq.
    - apply NoDup_fmap; [intros ? ? ?; lia|apply NoDup_seq].
    - intros x (i & -> & Hi%elem_of_seq)%list_elem_of_fmap. rewrite Hn in *.
      destruct (decide (i = length l)) as [->|]; [done|]. apply Hm. lia. }
  rewrite !length_fmap, length_seq in Hlen. lia.
Qed.

Lemma find_fd_fresh (l : list (Z * CapHandle)) fd : fd ∉ l.*1 ↔ find_fd_in_table l fd = None.
Proof.
  rewrite find_fd_none, list_elem_of_fmap. split; [|by intros H (e & -> & He); apply (H e)].
  intros H e He <-. apply H. eauto.
Qed.

(** A capability operation of a system call. *)
Lemma wp_core {A} (m : comp CoreState CapError A) (Q : outcome CapError A → IpcWorld → Prop) w st :
  STATE (caps w) = Some st → wp m (λ r st', Q r (with_caps (with_state st' (caps w)) w)) st →
  wp (Ipc.cap_call m) Q w.
Proof. intros Hst Hm. apply wp_zoom. by eapply wp_locked. Qed.

Section machine.
Context {PT D : Type} `{!Mapper PT, !UserSpace PT, !Drive D}.
Abbreviation Kernel := (Kernel (PT := PT) (D := D)).
Implicit Types k : Kernel.

(** ** Ports *)

Definition reaches_port (cpu : nat) k (a b : Z) : Prop :=
  ∃ p h lo hi, procs (k_sched k) !! current_pid cpu (k_sched k) = Some p ∧ h ∈ (cap_table p).*2 ∧
    opens_ports (caps (k_ipc k)) h lo hi ∧ (lo ≤ a)%Z ∧ (b ≤ hi)%Z.

Lemma ioperm_run cpu a b e k st : caps_up (k_ipc k) st →
  ∃ r k', sys_ioperm cpu a b e k = (r, k') ∧
    (k' = k ∧ (∃ v, r = Err v) ∨
     r = Ok (Returns 0) ∧ (a ≤ b ≤ 65535)%Z ∧ reaches_port cpu k a b ∧
     k_io k' = (if (e =? 0)%Z then deny_port_range a b (k_io k) else allow_port_range a b (k_io k)) ∧
     k_sched k' = set_current_allowed_ports cpu (if (e =? 0)%Z then None else Some (a, b)) (k_sched k)).
Proof.
  intros [Hst Hwf]. unfold sys_ioperm. destruct ((b <? a)%Z || (65535 <? b)%Z) eqn:Hab.
  { eexists _, _. split; [by apply bind_err|]. left. eauto. }
  erewrite bind_ok by reflexivity. erewrite bind_ok by reflexivity.
  destruct (procs (k_sched k) !! current_pid cpu (k_sched k)) as [p|] eqn:Hp.
  2: { eexists _, _. split; [|left; eauto]. erewrite bind_ok.
       2: { eapply or_return_ok, in_ipc_same. by apply with_cap_table_none. }
       by apply bind_err. }
  destruct (find_device_run (cap_table p) (caps (k_ipc k)) (cap_table p) st Hst Hwf) as (o & Ho & Hin).
  erewrite bind_ok.
  2: { eapply or_return_ok, in_ipc_same. by apply (with_cap_table_same _ _ _ p (Ok o)). }
  cbn [with_some mjoin option_join]. destruct o as [h|]; [|eexists _, _; split; [by apply bind_err|left; eauto]].
  erewrite bind_ok by reflexivity. specialize (Hin h eq_refl).
  pose proof (port_range_allowed_spec (caps (k_ipc k)) st h a b Hst Hwf) as Hspec. unfold wp in Hspec.
  assert (∀ r, port_range_allowed h a b (caps (k_ipc k)) = (r, caps (k_ipc k)) →
    zoom caps with_caps (port_range_allowed h a b) (k_ipc k) = (r, k_ipc k)) as Hzoom.
  { intros r Hr. unfold zoom. rewrite Hr. by destruct (k_ipc k). }
  destruct (port_range_allowed h a b (caps (k_ipc k))) as [r w] eqn:Hr. cbn in Hspec. destruct Hspec as [-> Hiff].
  specialize (Hzoom r eq_refl). destruct r as [[]|er|].
  - erewrite bind_ok by (by eapply or_return_ok, in_ipc_same).
    destruct (proj1 Hiff eq_refl) as (lo & hi & Hop & ? & ?). reflect.
    destruct (e =? 0)%Z; eexists _, _; (split; [reflexivity|right]); (split_and!; [done|lia|lia| |done|done]);
      exists p, h, lo, hi; by split_and!.
  - eexists _, _. split; [|left; eauto]. apply bind_err. by eapply or_return_err, in_ipc_same.
  - destruct (ports_never_panic (caps (k_ipc k)) st h a b); [done..|by rewrite Hr].
Qed.

(** Port access through [SYS_IOPERM] is confined: a call that is answered by
    anything but 0 changes nothing; one that changes what a CPU permits changes
    it for ports between the two arguments only, and the caller has in its own
    table a live device handle with IO whose device is bound to a range around
    them.  The caller is what runs on [cpu], but the CPU whose bitmap changes is
    always the first. *)
Theorem ioperm_is_confined (cpu : nat) (k k' : Kernel) (st : CoreState) (a b e : Z) (r : outcome Z answer) :
  caps_up (k_ipc k) st → sys_ioperm cpu a b e k = (r, k') →
  (r ≠ Ok (Returns 0) → k' = k) ∧
  ∀ c p, permitted (k_io k') c p ≠ permitted (k_io k) c p →
    c = 0 ∧ (a ≤ p ≤ b)%Z ∧ reaches_port cpu k a b ∧ permitted (k_io k') c p = negb (e =? 0)%Z.
Proof.
  intros Hup Hrun. destruct (ioperm_run cpu a b e k st Hup) as (r1 & k1 & Hrun1 & Hcase).
  rewrite Hrun in Hrun1. injection Hrun1 as <- <-.
  destruct Hcase as [[-> _]|(-> & Hab & Hreach & Hio & _)]; [done|]. split; [done|].
  intros c p. rewrite Hio.
  assert ((0 <? MAX_CPUS) = true) as Hcpus by done.
  destruct (e =? 0)%Z; unfold deny_port_range, deny_port_range_for_cpu, allow_port_range, allow_port_range_for_cpu;
    rewrite Hcpus; cbn -[in_range]; (destruct (Nat.eqb_spec c 0) as [->|]; [|done]);
    destruct (in_range a b p) eqn:Hin; cbn -[in_range]; try done; intros _; unfold in_range in Hin; reflect; done.
Qed.

(** ** DMA *)

(** A handle opens the DMA region registered under its slot number. *)
Definition opens_region (cpu : nat) k (st : CoreState) (fd : Z) (h : CapHandle) (phys pages : Z) : Prop :=
  current_handle cpu (wrap 32 fd) (k_sched k) = Some h ∧ usable st h (bitor MAP DMA) ∧
  lookup_dma_region (slot h) (k_dma k) = Some (phys, pages).

Lemma own_handle_run cpu fd k : own_handle cpu fd k =
  (match current_handle cpu (wrap 32 fd) (k_sched k) with Some h => Ok h | None => Err EACCES_RET end, k).
Proof. unfold own_handle. erewrite bind_ok by reflexivity. by destruct (current_handle _ _ _). Qed.

Lemma dma_region_run cpu k st fd h phys pages : caps_up (k_ipc k) st → opens_region cpu k st fd h phys pages →
  dma_region_of h k = (Ok (phys, pages), k).
Proof.
  intros [Hst Hwf] (_ & Hu & Hl). unfold dma_region_of. erewrite bind_ok.
  2: { eapply or_return_ok, in_ipc_same, cap_call_same; [done|]. by apply check_rights_granted. }
  erewrite bind_ok by reflexivity. by rewrite Hl.
Qed.

(** Regions are found by the slot number of a handle alone: whoever has a live
    handle with MAP and DMA in the slot under which a region is registered maps
    the frames of that region, even when the handle the region was registered
    for is closed and the slot, with a new generation, belongs to something else. *)
Theorem dma_regions_outlive_their_handle (cpu : nat) (k : Kernel) (st : CoreState) (h' : CapHandle)
    (fd virt pages phys max_pages : Z) (m' : Memory) :
  caps_up (k_ipc k) st →
  DMA_REGIONS (k_dma k) !! slot h' = Some (phys, max_pages) →
  current_handle cpu (wrap 32 fd) (k_sched k) = Some h' → usable st h' (bitor MAP DMA) →
  current_is_user_process cpu (k_sched k) = true →
  (0 ≤ pages ≤ max_pages)%Z → (0 ≤ virt)%Z → is_user_range virt (pages * 4096) = true → is_page_aligned virt = true →
  (0 ≤ phys < 2 ^ 52)%Z → map_user_phys_range virt phys pages true (k_memory k) = (Ok tt, m') →
  sys_map_dma cpu fd virt pages k = (Ok (Returns 0), with_k_memory m' k).
Proof.
  intros Hup Hreg Hh Hu Huser Hpages Hvirt Hrange Halign Hphys Hmap.
  assert (opens_region cpu k st fd h' phys max_pages) as Hop by by split_and!.
  unfold sys_map_dma. erewrite bind_ok.
  2: { unfold require_user_process. erewrite bind_ok by reflexivity. by rewrite Huser. }
  assert (fits 64 (pages * 4096) = Some (pages * 4096)%Z) as Hfits.
  { destruct (is_user_range_bounds _ _ Hrange) as [? ?]; [lia|]. unfold fits, USER_ADDR_LIMIT in *.
    rewrite decide_True; [done|]. lia. }
  rewrite Hfits. erewrite bind_ok by reflexivity. rewrite Hrange, Halign. cbn [negb].
  do 2 (erewrite bind_ok by reflexivity).
  erewrite bind_ok by (rewrite own_handle_run, Hh; reflexivity).
  erewrite bind_ok by (by eapply dma_region_run). cbv beta iota.
  rewrite (proj2 (Z.ltb_ge _ _)) by lia. erewrite bind_ok by reflexivity.
  assert (fits 52 phys = Some phys) as -> by (unfold fits; by rewrite decide_True).
  erewrite bind_ok by reflexivity. erewrite bind_ok; [reflexivity|].
  eapply or_return_ok. unfold in_memory, zoom. by rewrite Hmap.
Qed.

Lemma wp_dma_region h k st (Q : outcome Z (Z * Z) → Kernel → Prop) : caps_up (k_ipc k) st →
  (∀ phys pages, usable st h (bitor MAP DMA) → lookup_dma_region (slot h) (k_dma k) = Some (phys, pages) →
     Q (Ok (phys, pages)) k) → (∀ e, Q (Err e) k) → wp (dma_region_of h) Q k.
Proof.
  intros [Hst Hwf] Hok Herr. unfold dma_region_of. apply wp_bind, wp_or_return, wp_zoom. eapply wp_core; [done|].
  assert (with_k_ipc (with_caps (with_state st (caps (k_ipc k))) (k_ipc k)) k = k) as Hsame
    by (rewrite with_caps_same by done; by destruct k).
  eapply wp_mono; [by apply check_rights_spec|]. intros [[]|e|] st' [-> Hr]; [| |done]; rewrite Hsame; [|apply Herr].
  wp_steps; [apply Herr|]. destruct a as [phys pages]. by apply Hok.
Qed.

(** The new capability and its object. *)
Lemma wp_new_memory k st (Q : outcome Z CapHandle → Kernel → Prop) : caps_up (k_ipc k) st →
  (∀ e, Q (Err e) k) →
  (∀ h s st1 k1, caps_up (k_ipc k1) st1 → denotes st1 h s → object_idx s = length (objects st) →
     k_sched k1 = k_sched k → k_dma k1 = k_dma k → Q (Ok h) k1) →
  wp (or_return u64_max (in_ipc (Ipc.cap_call (create_object Abi.Memory)))) Q k.
Proof.
  intros [Hst Hwf] Herr Hok. apply wp_or_return, wp_zoom. eapply wp_core; [done|].
  eapply wp_mono; [by apply create_object_spec|]. intros [h|e|] st1 H; [|subst st1|done].
  - destruct H as (nw & st0 & [Hwf1 _] & Hins & -> & Hgen & Hob & _).
    apply (Hok h nw st1); [split; [by destruct (k_ipc k) as [[] ? ? ? ? ? ? ?]|done]| |done..].
    assert (h = mkHandle (slot h) (slot_generation nw)) as -> by (destruct h; cbn in *; congruence).
    by eapply installed_denotes.
  - rewrite with_caps_same by done. destruct k. apply Herr.
Qed.
Lemma create_slot_ends cpu fd off len k st : caps_up (k_ipc k) st →
  wp (sys_ipc_create_slot cpu fd off len) (λ r k', match r with
    | Ok a => ∃ v h phys pages ob, a = Returns v ∧ opens_region cpu k st fd h phys pages ∧
        (len ≠ 0)%Z ∧ (off + len ≤ pages * 4096)%Z ∧
        k_dma k' = register_slot ob phys off len (k_dma k) ∧
        (1000 ≤ v)%Z ∧ current_handle cpu v (k_sched k) = None ∧
        ∃ st' h' s, caps_up (k_ipc k') st' ∧ current_handle cpu v (k_sched k') = Some h' ∧
          denotes st' h' s ∧ object_idx s = ob ∧ length (objects st) = ob
    | Err _ => k_dma k' = k_dma k
    | Panic => True
    end) k.
Proof.
  intros [Hst Hwf]. unfold sys_ipc_create_slot. apply wp_bind.
  unfold require_user_process at 1. wp_steps; [done|].
  eapply wp_returns; [apply own_handle_run|]. destruct (current_handle cpu (wrap 32 fd) (k_sched k)) as [h|] eqn:Hh; [|done].
  apply wp_bind. eapply wp_dma_region; [by split| |done]. intros phys pages Hu Hl.
  apply wp_bind, wp_unwrap; [done|]. intros rb [-> _]%fits_Some.
  apply wp_bind, wp_reject_if; [done|]. intros Hlen. apply orb_false_iff in Hlen as [Hlen Hoff]. reflect.
  destruct (fits 64 (off + len)) as [e|] eqn:He; [|done]. apply fits_Some in He as [-> _]. reflect.
  apply wp_bind. eapply wp_new_memory; [by split|done|]. intros h1 s st1 k1 [Hst1 Hwf1] Hd Hob Hsched Hdma.
  apply wp_bind, wp_or_return, wp_zoom. eapply wp_core; [done|].
  eapply wp_mono; [by apply object_identity_spec|]. intros [[kd ob]|er|] st' [-> Hid]; [| |done].
  2: { rewrite with_caps_same by done. by destruct k1. }
  rewrite with_caps_same by done. destruct Hid as (_ & s' & o & Hd' & Hid & _).
  rewrite (denotes_fun _ _ _ _ Hd' Hd), Hob in Hid.
  apply wp_bind, wp_modify, wp_bind, wp_get, wp_bind.
  pose proof Hh as Hp. unfold current_handle in Hp.
  destruct (procs (k_sched k) !! current_pid cpu (k_sched k)) as [p|] eqn:Hproc; [|done]. clear Hp.
  set (n := free_number (length (cap_table p)) (cap_table p) 1000).
  destruct (free_number_fresh (cap_table p) 1000) as [Hn Hn0]. fold n in Hn, Hn0.
  change (caller cpu _) with (current_pid cpu (k_sched k1)). rewrite <-Hsched in Hproc.
  apply wp_or_return, wp_zoom. eapply wp_returns.
  { eapply with_cap_table_run; [exact Hproc|]. unfold add_numbered, push_entry. erewrite bind_ok by reflexivity.
    cbn [entries]. cbv zeta. fold n. reflexivity. }
  cbn [with_some]. apply wp_bind, wp_ret, wp_ret. eexists n, h, phys, pages, _.
  split; [done|]. split; [by split_and!|]. do 2 (split; [done|]). split; [cbn; by rewrite Hdma|]. split; [done|].
  split.
  { unfold current_handle. rewrite <-Hsched, Hproc. cbn. by apply find_fd_fresh. }
  exists st1, h1, s. split; [done|]. split; [|by rewrite Hid].
  unfold k_sched. cbn [k_ipc with_k_ipc]. rewrite handle_written_back by eauto. cbn [entries].
  by apply find_fd_snoc, find_fd_fresh.
Qed.

(** A DMA slot lies in a region of its creator: when [SYS_IPC_CREATE_SLOT]
    answers with a number, the caller had a usable handle with MAP and DMA whose
    slot number has a registered region, the slot is not empty and ends in the
    region, and the number, from 1000 on and free before, now is a live handle of
    a new object, under which the slot was registered.  No other answer registers
    anything. *)
Theorem dma_slots_lie_in_their_region (cpu : nat) (k k' : Kernel) (st : CoreState) (fd off len : Z) (r : outcome Z answer) :
  caps_up (k_ipc k) st → sys_ipc_create_slot cpu fd off len k = (r, k') →
  (∀ e, r = Err e → k_dma k' = k_dma k) ∧
  (∀ a, r = Ok a → ∃ v h phys pages st' h' s, a = Returns v ∧
     opens_region cpu k st fd h phys pages ∧ (len ≠ 0)%Z ∧ (off + len ≤ pages * 4096)%Z ∧
     (1000 ≤ v)%Z ∧ current_handle cpu v (k_sched k) = None ∧
     caps_up (k_ipc k') st' ∧ current_handle cpu v (k_sched k') = Some h' ∧ denotes st' h' s ∧
     object_idx s = length (objects st) ∧
     lookup_slot (object_idx s) (k_dma k') = Some (mkEntry phys off len) ∧
     ∀ ob, ob ≠ object_idx s → lookup_slot ob (k_dma k') = lookup_slot ob (k_dma k)).
Proof.
  intros Hup Hrun. pose proof (wp_run _ _ _ _ _ (create_slot_ends cpu fd off len k st Hup) Hrun) as H. cbv beta in H.
  destruct r as [a|e|]; [|by split; [intros ? [= <-]|]|done].
  destruct H as (v & h & phys & pages & ob & -> & Hop & Hlen & Hoff & Hdma & Hv & Hnone & st' & h' & s & Hup' & Hh' & Hd & Hob & <-).
  split; [done|]. intros a [= <-]. exists v, h, phys, pages, st', h', s.
  rewrite Hdma, Hob. unfold lookup_slot, register_slot. cbn [SLOT_MAP].
  do 10 (split; [done || apply Hop|]). split; [by rewrite lookup_insert_eq|].
  intros ob' Hne. by rewrite lookup_insert_ne.
Qed.
End machine.


(** ** The machine: a flat page table next to an address space with content *)

#[local] Existing Instance flat_mapper.
Definition machine : Type := gmap (Z * Z) Z * AddressSpace.

#[local] Instance machine_mapper : Mapper machine := {|
  translate c p t := translate c p t.1;
  page_flags c p t := page_flags c p t.1;
  map_to c p f fl t g := let '(r, t', g') := map_to c p f fl t.1 g in (r, (t', t.2), g');
  update_flags c p fl t := (update_flags c p fl t.1, t.2);
  unmap c p t := let '(r, t') := unmap c p t.1 in (r, (t', t.2));
  open_root c t := (open_root c t.1, t.2);
  empty_tables c t := let '(l, t') := empty_tables c t.1 in (l, (t', t.2));
|}.
#[local] Instance machine_user : UserSpace machine := {|
  user_bytes p n t := user_bytes p n t.2;
  user_store p n t := (λ f b, (t.1, f b)) <$> user_store p n t.2;
|}.

(** The process's page starts with a path. *)
Definition demo_space : AddressSpace :=
  mkSpace 4096 (foldr (λ p m, <[(20480 + Z.of_nat p.1)%Z := p.2]> m) sample_space (imap pair (str "/home/a"))).

Definition machine_memory : Memory (PT := machine) := mkMemory (∅, demo_space) (Some demo_pool) ∅.

(** ** The process *)

Definition app_sched : Scheduler :=
  set_current_for_cpu 0 (Some 1%Z) (create_user_process_with_caps 0 (str "app") 8192 [] [] uninit).2.

(** Number 10 is a serial port, number 11 a memory object in the slot of a closed DMA handle. *)
Definition provision : comp IpcWorld CapError CapHandle :=
  _ ← with_cap_table 1 seed_new_process;
  uart ← zoom caps with_caps (create_device_ports 1016 1023);
  _ ← with_cap_table 1 (push_entry 10 uart);
  old ← Ipc.cap_call (create_object Abi.Memory);
  Ipc.cap_call (close old);;
  new ← Ipc.cap_call (create_object Abi.MemObject);
  _ ← with_cap_table 1 (push_entry 11 new);
  mret old.

Definition app_ipc : IpcWorld := (provision (ipc_boot (world_with (mkCore [] [] [])) app_sched)).2.
Definition dma_handle : CapHandle := mkHandle 8 1.
Definition app_core : CoreState := state_after
  [CallCreate Abi.Fd; CallGrant (mkHandle 0 1) 3; CallGrant (mkHandle 0 1) 3; CallGrant (mkHandle 0 1) 3;
   CallCreate Abi.Process; CallGrant (mkHandle 4 1) 256;
   CallCreate Abi.Device; CallGrant (mkHandle 6 1) 520;
   CallCreate Abi.Memory; CallClose dma_handle; CallCreate Abi.MemObject].

Definition app_kernel : Kernel (PT := machine) (D := gmap Z bytes) :=
  mkKernel app_ipc (mkStorage sample fd_table_new) machine_memory
    (register_dma_region (slot dma_handle) 8388608 2 (mkRegistry ∅ ∅)) io_initial [] 1 [] [] true 0.

Lemma app_caps_up : caps_up (k_ipc app_kernel) app_core.
Proof. split; [vm_compute; reflexivity|]. apply reachable_wf, state_after_reachable. Qed.

Lemma app_usable h r : (check_rights h r app_core).1 = Ok tt → usable app_core h r.
Proof. apply check_rights_usable, reachable_wf, state_after_reachable. Qed.

Lemma app_unusable h r : (check_rights h r app_core).1 ≠ Ok tt → ¬ usable app_core h r.
Proof. intros Hc Hu. apply Hc, (check_rights_usable h r app_core); [|exact Hu]. apply reachable_wf, state_after_reachable. Qed.



(** With the first three descriptors taken, the next file gets number 3. *)
Definition busy_kernel : Kernel (PT := machine) (D := gmap Z bytes) :=
  with_k_store (mkStorage sample ([Some sample_fd; Some sample_fd; Some sample_fd] ++ drop 3 fd_table_new)) app_kernel.
Definition opened_kernel : Kernel (PT := machine) (D := gmap Z bytes) := (sys_open 0 USER_ADDR_BASE O_RDWR busy_kernel).2.

Lemma opened_files_cannot_be_closed_witness :
  (sys_open 0 USER_ADDR_BASE O_RDWR busy_kernel).1 = Ok (Returns 3) ∧
  syscall_dispatcher 0 SYS_CLOSE 3 0 0 0 0 opened_kernel = (Ok (Returns EACCES_RET), note_first_exec 0 opened_kernel).
Proof.
  split; [vm_compute; reflexivity|].
  apply (opened_files_cannot_be_closed 0 busy_kernel opened_kernel app_core USER_ADDR_BASE O_RDWR 3 app_caps_up).
  - vm_compute. reflexivity.
  - vm_compute. reflexivity.
  - rewrite (surjective_pairing (sys_open 0 USER_ADDR_BASE O_RDWR busy_kernel)). apply (f_equal2 pair); [vm_compute; reflexivity|reflexivity].
Defined.

(** The serial port has 1016 to 1023. *)
Lemma ioperm_is_confined_witness :
  permitted (k_io (sys_ioperm 0 1017 1020 1 app_kernel).2) 0 1018 = true ∧ reaches_port 0 app_kernel 1017 1020 ∧
  (sys_ioperm 0 1017 1024 1 app_kernel).2 = app_kernel.
Proof.
  split; [vm_compute; reflexivity|].
  destruct (ioperm_is_confined 0 app_kernel (sys_ioperm 0 1017 1020 1 app_kernel).2 app_core 1017 1020 1
    (sys_ioperm 0 1017 1020 1 app_kernel).1 app_caps_up (surjective_pairing _)) as [_ H].
  split; [apply (H 0 1018%Z); by vm_compute|].
  apply (ioperm_is_confined 0 app_kernel (sys_ioperm 0 1017 1024 1 app_kernel).2 app_core 1017 1024 1
    (sys_ioperm 0 1017 1024 1 app_kernel).1 app_caps_up (surjective_pairing _)). by vm_compute.
Defined.

(** The region of the handle that was closed, by the object now in its slot. *)
Lemma dma_regions_outlive_their_handle_witness :
  (∀ r, ¬ usable app_core dma_handle r) ∧
  (sys_map_dma 0 11 (USER_ADDR_BASE + 16777216) 2 app_kernel).1 = Ok (Returns 0).
Proof.
  split; [intros r (s & o & (Hs & _ & Hg) & _); vm_compute in Hs; injection Hs as <-; done|].
  erewrite (dma_regions_outlive_their_handle 0 app_kernel app_core (mkHandle 8 2) 11 (USER_ADDR_BASE + 16777216) 2 8388608 2
    (map_user_phys_range (USER_ADDR_BASE + 16777216) 8388608 2 true machine_memory).2 app_caps_up).
  - reflexivity.
  - vm_compute. reflexivity.
  - vm_compute. reflexivity.
  - apply app_usable. vm_compute. reflexivity.
  - vm_compute. reflexivity.
  - lia.
  - unfold USER_ADDR_BASE. lia.
  - vm_compute. reflexivity.
  - vm_compute. reflexivity.
  - lia.
  - rewrite (surjective_pairing (map_user_phys_range _ _ _ _ _)). apply (f_equal2 pair); [vm_compute; reflexivity|reflexivity].
Defined.

Lemma dma_slots_lie_in_their_region_witness :
  (sys_ipc_create_slot 0 11 100 50 app_kernel).1 = Ok (Returns 1000) ∧
  lookup_slot 5 (k_dma (sys_ipc_create_slot 0 11 100 50 app_kernel).2) = Some (mkEntry 8388608 100 50) ∧
  k_dma (sys_ipc_create_slot 0 11 8100 100 app_kernel).2 = k_dma app_kernel.
Proof.
  split; [vm_compute; reflexivity|]. split.
  - destruct (dma_slots_lie_in_their_region 0 app_kernel (sys_ipc_create_slot 0 11 100 50 app_kernel).2 app_core 11 100 50
      (sys_ipc_create_slot 0 11 100 50 app_kernel).1 app_caps_up (surjective_pairing _)) as [_ H].
    destruct (H (Returns 1000)) as (v & h & phys & pages & st' & h' & s & _ & Hop & _ & _ & _ & _ & _ & _ & _ & Hob & Hs & _);
      [vm_compute; reflexivity|].
    rewrite Hob in Hs. destruct Hop as (Hh & _ & Hl). vm_compute in Hh. injection Hh as <-. vm_compute in Hl.
    injection Hl as <- _. exact Hs.
  - apply (dma_slots_lie_in_their_region 0 app_kernel (sys_ipc_create_slot 0 11 8100 100 app_kernel).2 app_core 11 8100 100
      (sys_ipc_create_slot 0 11 8100 100 app_kernel).1 app_caps_up (surjective_pairing _)) with (e := EFAULT_RET).
    vm_compute. reflexivity.
Defined.
