(* ===== verification/Exit.v ===== *)
(** * The end of a process (kernel/src/task/process.rs, exit_current)

    A process that exits takes itself apart: it stops being schedulable, gives
    back its surfaces, hangs up its endpoints, destroys its capabilities, and
    hands the CPU on.  Its windows, input queue and page tables go in between;
    they are not part of this state. *)
From S2P Require Import Prelude Bytes Text Disk Abi Cap FramePool Process WaitQueue Sched IoPorts Channel Ipc.
From S2P Require Import SyscallCap AddrSpace DmaRegion Surface ProcFs Vfs FdTable SecMem Syscall.

(** kernel/src/task/process.rs:1847-1857 [exit_current, exiting_pid] *)
Definition exit_begin (cpu : nat) (s : Scheduler) : option Scheduler :=
  match current_for_cpu cpu s with
  | Some pid => remove_sleep pid (update pid (λ p, set_on_cpu None (set_state Exiting p)) s)
  | None => Some s
  end.

(** [mem::take(&mut p.cap_table)] — kernel/src/task/process.rs:1866-1869 [exit_current, caps] *)
Definition take_table (pid : Z) : comp IpcWorld CapError (list (Z * CapHandle)) :=
  w ← get;
  put (with_sched (update pid (set_cap_table []) (sched w)) w);;
  mret (default [] (cap_table <$> procs (sched w) !! pid)).

(** kernel/src/task/process.rs:1865-1870 [exit_current] *)
Definition exit_release (pid : Z) : comp IpcWorld CapError unit :=
  hangup_channel_for_pid (wrap 32 pid);;
  table ← take_table pid;
  ignore (Ipc.cap_call (destroy_process_cspace table)).

Section exit.
Context {PT D : Type} `{!Mapper PT, !UserSpace PT, !Drive D}.

(** The last step switches away and does not come back —
    kernel/src/task/process.rs:1826-1930 [exit_current] *)
Definition exit_current (cpu : nat) : comp (Kernel (PT := PT) (D := D)) CapError unit :=
  k ← get;
  s ← unwrap (exit_begin cpu (k_sched k));
  put (with_k_sched s k);;
  match current_for_cpu cpu s with
  | Some pid =>
      ignore (in_surfaces (cleanup_surfaces_for_pid pid));;
      in_ipc (exit_release pid)
  | None => mret tt
  end;;
  k ← get;
  s ← unwrap (exit_current_switch cpu (k_sched k));
  put (with_k_sched s k).
End exit.
