(* ===== verification/ExitProps.v ===== *)
(** * Properties of the end of a process *)
From S2P Require Import Prelude Respects Abi Cap CapInv CapProps CapStatics Process WaitQueue Sched SchedProps.
From S2P Require Import Channel Ipc IpcProps SyscallDev Exit.

(** ** Scheduling around a process that is exiting *)

(** Nothing the scheduler looks at leads back to [x]: it is not ready, does not
    sleep, and is neither runnable nor marked as ended. *)
Record left_alone (x : Z) (s : Scheduler) : Prop := {
  la_state : ∃ p, procs s !! x = Some p ∧ state p = Exiting ∧ exited p = false;
  la_ready : x ∉ ready s;
  la_sleep : ∃ l, queue_rep (procs s) (sleep_queue s) l ∧ x ∉ l;
}.

Lemma poll_left_alone x tick s s1 : left_alone x s → poll_sleeping_processes_locked tick s = Some s1 →
  left_alone x s1 ∧ current s1 = current s.
Proof.
  intros [(p & Hp & Hst & Hex) Hr (l & Hq & Hl)] Hpoll.
  unfold poll_sleeping_processes_locked in Hpoll. rewrite (qr_head _ _ _ Hq) in Hpoll.
  destruct (poll_loop_spec (size (procs s)) tick s [] l) as (s' & Hrun & Hq' & Hrd & Hcur & Hall);
    [done|by eapply queue_rep_size|].
  rewrite Hrun in Hpoll. injection Hpoll as ->.
  specialize (Hall x). rewrite decide_False in Hall by (by intros [_ ?]%list_elem_of_filter).
  rewrite !core_lookup, Hp in Hall. apply fmap_Some in Hall as (p1 & Hp1 & Hu).
  split; [|done]. split.
  - exists p1. split_and!; [done|rewrite <-Hst; exact (f_equal state (eq_sym Hu))|
      rewrite <-Hex; exact (f_equal exited (eq_sym Hu))].
  - rewrite Hrd. intros [?|[_ ?]%list_elem_of_filter]%elem_of_app; done.
  - eexists. split; [exact Hq'|]. by intros [_ ?]%list_elem_of_filter.
Qed.

(** Changing the state of another process, or the place of this one, changes nothing here. *)
Lemma update_left_alone x y f s : left_alone x s →
  (∀ p, wait_prev (f p) = wait_prev p ∧ wait_next (f p) = wait_next p) →
  (y = x → ∀ p, state (f p) = state p ∧ exited (f p) = exited p) → left_alone x (update y f s).
Proof.
  intros [(p & Hp & Hst & Hex) Hr (l & Hq & Hl)] Hlinks Hf. split.
  - cbn. destruct (decide (y = x)) as [->|Hne].
    + rewrite lookup_alter_eq, Hp. destruct (Hf eq_refl p) as [H1 H2]. exists (f p). by rewrite H1, H2.
    + rewrite lookup_alter_ne by done. eauto.
  - done.
  - exists l. split; [|done]. eapply queue_frame; [|exact Hq]. intros z _. by apply links_alter_same.
Qed.

Lemma ready_left_alone x r s : left_alone x s → x ∉ r → left_alone x (with_ready r s).
Proof. by intros [? ? ?] ?. Qed.
Lemma current_left_alone x cpu o s : left_alone x s → left_alone x (set_current_for_cpu cpu o s).
Proof. unfold set_current_for_cpu. intros [? ? ?]. by destruct (cpu <? MAX_CPUS). Qed.

Lemma requeue_left_alone cpu x s : left_alone x s → left_alone x (requeue_current cpu s).
Proof.
  intros Hla. unfold requeue_current. destruct (current_for_cpu cpu s) as [cur|]; [|done].
  destruct (procs s !! cur) as [p|] eqn:Hp; [|done].
  destruct (bool_decide (state p = Running) && negb (exited p) && negb (reaped p)) eqn:Hb; [|done].
  assert (cur ≠ x) as Hne.
  { intros ->. destruct (la_state _ _ Hla) as (p' & Hp' & Hst & _). reflect. congruence. }
  apply ready_left_alone; [by apply update_left_alone|].
  cbn. intros [Hin|Heq%list_elem_of_singleton]%elem_of_app; [by eapply la_ready|congruence].
Qed.

Lemma pick_not x cpu s hint : left_alone x s →
  pick_hint cpu (procs s) hint ≠ Some x ∧
  ∀ n r, pick_ready (length (ready s)) cpu (procs s) (ready s) = (n, r) → n ≠ Some x ∧ x ∉ r.
Proof.
  intros [(p & Hp & Hst & _) Hr _]. split.
  - unfold pick_hint. intros (y & _ & (q & Hq & Hc)%bind_Some)%bind_Some.
    match type of Hc with (if ?b then _ else _) = _ => destruct b eqn:Hb end; [|done]. simplify_eq.
    rewrite Hst in Hb. reflect. naive_solver.
  - intros n r Hpick. pose proof (pick_ready_spec cpu (procs s) (ready s) []) as Hspec. rewrite app_nil_r, Hpick in Hspec.
    destruct Hspec as [(l1 & c & l2 & Heq & _ & _ & [= -> ->])|(_ & [= -> ->])].
    + rewrite Heq in Hr. split; [intros [= ->]; apply Hr; set_solver|].
      cbn. intros [?|[_ ?]%list_elem_of_filter]%elem_of_app; apply Hr; set_solver.
    + split; [done|]. cbn. by intros [_ ?]%list_elem_of_filter.
Qed.

Lemma requeue_current_same cpu s : current (requeue_current cpu s) = current s.
Proof. apply (requeue_placement cpu s 0%Z). Qed.

(** Another process gets the CPU. *)
Lemma run_other cpu x y s : left_alone x s → y ≠ x → cpu < MAX_CPUS → 
  left_alone x (run_on cpu y (set_current_for_cpu cpu (Some y) s)) ∧
  ∀ c, current (run_on cpu y (set_current_for_cpu cpu (Some y) s)) !! c = Some (Some x) →
    c ≠ cpu ∧ current s !! c = Some (Some x).
Proof.
  intros Hla Hne Hcpu. split.
  - apply update_left_alone; [by apply current_left_alone|done|done].
  - intros c. cbn. unfold set_current_for_cpu. rewrite (proj2 (Nat.ltb_lt _ _)) by done. cbn.
    intros [(-> & Heq & _)|[? ?]]%list_lookup_insert_Some; [congruence|done].
Qed.

(** A switch never picks [x], and after one on [cpu] that CPU does not run it. *)
Lemma schedule_leaves_behind cpu tick hint s pid s' x :
  x ≠ 0%Z → cpu < MAX_CPUS → left_alone x s → schedule_internal cpu tick hint s = Some (pid, s') →
  left_alone x s' ∧ pid ≠ x ∧
  ∀ c, current s' !! c = Some (Some x) → c ≠ cpu ∧ current s !! c = Some (Some x).
Proof.
  intros Hx Hcpu Hla Hrun. unfold schedule_internal in Hrun. apply bind_Some in Hrun as (s1 & Hpoll & Hrun).
  destruct (poll_left_alone _ _ _ _ Hla Hpoll) as [Hla1 Hcur1].
  pose proof (requeue_left_alone cpu x s1 Hla1) as Hla2. pose proof (requeue_current_same cpu s1) as Hcur2.
  set (prev := current_for_cpu cpu s1) in Hrun. assert (prev = current_for_cpu cpu (requeue_current cpu s1)) as Hprev
    by (unfold prev, current_for_cpu; by rewrite Hcur2).
  rewrite Hprev in Hrun. rewrite <-Hcur1, <-Hcur2. clear prev Hprev Hpoll Hla1 Hcur1 Hcur2 Hla.
  set (s2 := requeue_current cpu s1) in *. clearbody s2. clear s1 s. rename Hla2 into Hla.
  destruct (pick_not x cpu s2 hint Hla) as [Hhint Hready].
  assert (∀ r y, x ∉ r → y ≠ x →
    left_alone x (with_ready r s2) ∧
    (current_for_cpu cpu (with_ready r s2) = Some y → ∀ c, current s2 !! c = Some (Some x) → c ≠ cpu)) as Hkeep.
  { intros r y Hr Hy. split; [by apply ready_left_alone|]. intros Hcy c Hc ->.
    unfold current_for_cpu in Hcy. rewrite (proj2 (Nat.ltb_lt _ _)) in Hcy by done. cbn in Hcy. rewrite Hc in Hcy. cbn in Hcy. congruence. }
  assert (∀ r y, x ∉ r → y ≠ x → (if bool_decide (current_for_cpu cpu s2 = Some y)
      then Some (y, run_on cpu y (with_ready r s2))
      else Some (y, run_on cpu y (set_current_for_cpu cpu (Some y) (with_ready r s2)))) = Some (pid, s') →
    left_alone x s' ∧ pid ≠ x ∧ ∀ c, current s' !! c = Some (Some x) → c ≠ cpu ∧ current s2 !! c = Some (Some x)) as Hgo.
  { intros r y Hr Hy Hgo. destruct (Hkeep r y Hr Hy) as [Hlar Hsame]. case_bool_decide as Hc; simplify_eq.
    - split; [by apply update_left_alone|]. split; [done|]. intros c Hcx. split; [by eapply Hsame|done].
    - destruct (run_other cpu x pid (with_ready r s2) Hlar Hy Hcpu) as [H1 H2]. done. }
  destruct (pick_hint cpu (procs s2) hint) as [target|] eqn:Hh.
  { assert (with_ready (ready s2) s2 = s2) as Hsame by by destruct s2.
    specialize (Hgo (ready s2) target). rewrite Hsame in Hgo. apply Hgo; [apply Hla|congruence|exact Hrun]. }
  destruct (pick_ready _ _ _ _) as [[y|] r] eqn:Hpick; destruct (Hready _ _ eq_refl) as [Hy Hr].
  { apply (Hgo r y); [done|congruence|exact Hrun]. }
  destruct (Hkeep r 0%Z Hr ltac:(done)) as [Hlar Hsame]. cbn [procs with_ready] in Hrun. case_bool_decide as Hc.
  - injection Hrun as <- <-. split; [done|]. split; [done|]. intros c Hcx. split; [by eapply Hsame|done].
  - apply bind_Some in Hrun as (p0 & _ & [= <- <-]).
    destruct (run_other cpu x 0%Z (with_ready r s2) Hlar ltac:(done) Hcpu) as [H1 H2]. done.
Qed.

(** A sequence of switches: the CPU, the tick and the hint of each. *)
Fixpoint switches (es : list (nat * Z * option Z)) (s : Scheduler) : option Scheduler :=
  match es with
  | [] => Some s
  | (cpu, tick, hint) :: es => '(_, s) ← schedule_internal cpu tick hint s; switches es s
  end.

Lemma switches_leave_behind es s s' x : x ≠ 0%Z → Forall (λ e, e.1.1 < MAX_CPUS) es →
  left_alone x s → (∀ c, current s !! c ≠ Some (Some x)) → switches es s = Some s' →
  left_alone x s' ∧ ∀ c, current s' !! c ≠ Some (Some x).
Proof.
  intros Hx Hes. revert s. induction Hes as [|[[cpu tick] hint] es Hcpu _ IH]; intros s Hla Hno; cbn.
  { by intros [= <-]. }
  intros ([pid s1] & Hs & Hrun)%bind_Some.
  destruct (schedule_leaves_behind _ _ _ _ _ _ _ Hx Hcpu Hla Hs) as (Hla1 & _ & Hno1).
  apply (IH s1); [done| |done]. intros c Hc. by apply (Hno c), Hno1.
Qed.

(** An exit that is interrupted is never finished.  [exit_current] enables
    interrupts and marks the process Exiting before it gives anything back; when
    the timer schedules in the middle of that, the process is not put back into
    the ready queue, and no switch on any CPU, whatever the tick and the hint,
    ever runs it again: it stays Exiting, neither runnable nor ended, with what
    it had not given back yet. *)
Theorem preempted_exit_is_abandoned (cpu : nat) (s : Scheduler) (l : list Z) (x : Z) (p : Process) :
  x ≠ 0%Z → cpu < MAX_CPUS → current_for_cpu cpu s = Some x → procs s !! x = Some p → exited p = false →
  (∀ c, current s !! c = Some (Some x) → c = cpu) → (x ∉ ready s) →
  queue_rep (procs s) (sleep_queue s) l → asleep_or_free s l x →
  ∃ s1, exit_begin cpu s = Some s1 ∧
    ∀ tick hint es s2, Forall (λ e, e.1.1 < MAX_CPUS) es → switches ((cpu, tick, hint) :: es) s1 = Some s2 →
      (∃ p2, procs s2 !! x = Some p2 ∧ state p2 = Exiting ∧ exited p2 = false) ∧ (x ∉ ready s2) ∧
      ∀ c, current s2 !! c ≠ Some (Some x).
Proof.
  intros Hx Hcpu Hcur Hp Hex Honly Hready Hq Hfree. unfold exit_begin. rewrite Hcur.
  set (s0 := update x (λ p, set_on_cpu None (set_state Exiting p)) s).
  assert (∀ y, links (procs s0) y = links (procs s) y) as Hlinks by (intros y; by apply links_alter_same).
  destruct (remove_sleep_any s0 l x) as (s1 & l1 & Hrm & Hq1 & Hout & Hc & Hr & Hcur1).
  { eapply queue_frame; [|exact Hq]. auto. }
  { unfold asleep_or_free in *. by rewrite Hlinks. }
  exists s1. split; [done|]. intros tick hint es s2 Hes Hrun.
  assert (left_alone x s1) as Hla.
  { split; [|by rewrite Hr|by exists l1].
    assert (procs s0 !! x = Some (set_on_cpu None (set_state Exiting p))) as Hp0 by (cbn; by rewrite lookup_alter_eq, Hp).
    destruct (core_eq _ _ _ _ Hc Hp0) as (p1 & Hp1 & Hu). exists p1. split; [done|].
    split; [exact (f_equal state Hu)|]. rewrite <-Hex. exact (f_equal exited Hu). }
  cbn in Hrun. apply bind_Some in Hrun as ([pid s3] & Hs & Hrun).
  destruct (schedule_leaves_behind _ _ _ _ _ _ _ Hx Hcpu Hla Hs) as (Hla3 & _ & Hno3).
  destruct (switches_leave_behind es s3 s2 x Hx Hes Hla3) as [[H1 H2 _] H3]; [|done|by split].
  intros c Hcc. destruct (Hno3 c Hcc) as [Hne Hcs]. apply Hne, Honly. rewrite Hcur1 in Hcs. exact Hcs.
Qed.

(** ** Giving authority back *)

(** The capabilities of later states only evolve, and the processes' tables stay. *)
Definition caps_evolve (w w' : IpcWorld) : Prop :=
  ∀ st, caps_up w st → ∃ st', caps_up w' st' ∧ cap_extends st st'.

#[local] Instance caps_evolve_preorder : PreOrder caps_evolve.
Proof.
  split; [intros w st ?; by exists st|]. intros w1 w2 w3 H12 H23 st (st2 & Hst2 & He)%H12.
  destruct (H23 _ Hst2) as (st3 & ? & ?). exists st3. split; [done|by etrans].
Qed.

Lemma caps_evolve_same w w' : caps w' = caps w → caps_evolve w w'.
Proof. intros Hc st [Hst Hwf]. exists st. split; [|done]. split; [by rewrite Hc|done]. Qed.

(** An operation on the capability space that evolves it. *)
Definition evolving {A} (m : comp CoreState CapError A) : Prop := ∀ st, cap_wf st → evolves st (m st).2.

Lemma cap_call_evolves {A} (m : comp CoreState CapError A) w : evolving m →
  respects caps_evolve w (Ipc.cap_call m).
Proof.
  intros Hm st [Hst Hwf]. unfold Ipc.cap_call, zoom, locked. rewrite Hst.
  pose proof (Hm st Hwf) as [Hwf' Hext]. destruct (m st) as [r st']. cbn in *. exists st'. split; [|done].
  split; [by destruct w as [[] ? ? ? ? ? ? ?]|done].
Qed.

Lemma check_evolving h target r : evolving (check_rights_for_object h target r).
Proof.
  intros st Hwf. pose proof (check_rights_for_object_spec h target r st Hwf) as H. unfold wp in H.
  destruct (check_rights_for_object _ _ _ _) as [? ?]. cbn in *. destruct H as [-> _]. by apply evolves_refl.
Qed.
Lemma close_evolving h : evolving (close h).
Proof.
  intros st Hwf. pose proof (close_spec h st Hwf) as H. unfold wp in H.
  destruct (close h st) as [[[]|e|] st']; cbn in *.
  - by destruct H as (s & _ & Hev & _).
  - destruct H as [-> _]. by apply evolves_refl.
  - destruct H as [-> _]. by apply evolves_refl.
Qed.

(** ** Tables through wake-ups *)

Definition same_tables (t t' : table) : Prop := ∀ x, cap_table <$> t' !! x = cap_table <$> t !! x.
#[local] Instance same_tables_preorder : PreOrder same_tables.
Proof. split; [done|]. intros t1 t2 t3 H12 H23 x. by rewrite H23, H12. Qed.

Lemma alter_same_tables f x t : (∀ p, cap_table (f p) = cap_table p) → same_tables t (alter f x t).
Proof.
  intros Hf y. destruct (decide (y = x)) as [->|]; [|by rewrite lookup_alter_ne].
  rewrite lookup_alter_eq. destruct (t !! x); cbn; [by rewrite Hf|done].
Qed.

Lemma dequeue_same_tables q t r q' t' : dequeue_internal q t = Some (r, q', t') → same_tables t t'.
Proof.
  unfold dequeue_internal. generalize 2 as n. intros n. revert q t. induction n as [|n IH]; intros q t; [done|]. cbn.
  repeat case_match; intros Heq; simplify_eq; try done;
    try (etrans; [|by eapply IH]); rewrite <-?alter_same_tables by done; try done.
Qed.

Lemma wake_loop_same_tables fuel q s r q' s' : wake_loop fuel q s = Some (r, q', s') → same_tables (procs s) (procs s').
Proof.
  revert q s. induction fuel as [|fuel IH]; intros q s; [done|]. cbn [wake_loop].
  intros ([[r1 q1] t1] & Hd%dequeue_same_tables & Hrun)%bind_Some.
  repeat case_match; simplify_eq; try done;
    first [by etrans; [|by eapply IH in Hrun] | cbn; by rewrite <-alter_same_tables].
Qed.

Lemma wake_all_same_tables fuel n q s r q' s' : wake_all_loop fuel n q s = Some (r, q', s') → same_tables (procs s) (procs s').
Proof.
  revert n q s. induction fuel as [|fuel IH]; intros n q s; [done|]. cbn [wake_all_loop].
  intros ([[r1 q1] s1] & Hw%wake_loop_same_tables & Hrun)%bind_Some.
  case_match; simplify_eq; [|done]. etrans; [exact Hw|by eapply IH].
Qed.

(** Both at once: what hanging up does to the capabilities of anyone. *)
Definition hang (w w' : IpcWorld) : Prop := caps_evolve w w' ∧ same_tables (procs (sched w)) (procs (sched w')).
#[local] Instance hang_preorder : PreOrder hang.
Proof. split; [done|]. intros w1 w2 w3 [? ?] [? ?]. split; by etrans. Qed.

Lemma hang_same w w' : caps w' = caps w → sched w' = sched w → hang w w'.
Proof. intros Hc Hs. split; [by apply caps_evolve_same|by rewrite Hs]. Qed.

Lemma cap_call_hangs {A} (m : comp CoreState CapError A) w : evolving m → respects hang w (Ipc.cap_call m).
Proof.
  intros Hm. split; [by apply cap_call_evolves|]. unfold Ipc.cap_call, zoom. by destruct (locked m (caps w)).
Qed.

Lemma on_sched_hangs {A} (m : comp Scheduler CapError A) w :
  same_tables (procs (sched w)) (procs (m (sched w)).2) → respects hang w (on_sched m).
Proof.
  intros Hm. unfold respects, on_sched, zoom. destruct (m (sched w)) as [r s]. cbn in *.
  split; [by apply caps_evolve_same|done].
Qed.

Lemma wake_all_on_tables q s : same_tables (procs s) (procs (wake_all_on (E := CapError) q s).2).
Proof.
  unfold wake_all_on, mbind, comp_bind, get, unwrap.
  destruct (wake_all q s) as [[[o q'] s']|] eqn:Hw; [|intros x; reflexivity].
  apply wake_all_same_tables in Hw. exact Hw.
Qed.
Lemma wake_one_on_tables q s : same_tables (procs s) (procs (wake_one_on (E := CapError) q s).2).
Proof.
  unfold wake_one_on, mbind, comp_bind, get, unwrap.
  destruct (wake_one q s) as [[[o q'] s']|] eqn:Hw; [|intros x; reflexivity].
  apply wake_loop_same_tables in Hw. exact Hw.
Qed.

Lemma drain_hangs fuel ch h n w : respects hang w (drain_endpoint fuel ch h n).
Proof.
  revert ch n w. induction fuel as [|fuel IH]; intros ch n w; cbn [drain_endpoint]; [apply respects_panic; apply _|].
  apply respects_bind; [apply _|apply respects_attempt|intros [e|[[m|] ch']]; try (apply respects_ret; apply _)].
  - unfold cap_channel_try_recv. respects_step; [apply cap_call_hangs, check_evolving|].
    respects_step; [|repeat respects_step]. apply on_sched_hangs.
    unfold chan_try_recv. destruct (buffer (inner ch)) as [|m b]; [done|].
    pose proof (wake_one_on_tables (not_full (inner ch)) (sched (cap_call (check_rights_for_object h (endpoint_cap ch) READ) w).2)) as H.
    unfold mbind at 1, comp_bind. destruct (wake_one_on _ _) as [[[o q]|e|] s]; exact H.
  - respects_step; [|apply IH]. destruct (capability m); [|apply respects_ret; apply _].
    apply respects_ignore, cap_call_hangs, close_evolving.
Qed.

Lemma shut_hangs ch w : respects hang w (shut_channel ch).
Proof.
  unfold shut_channel. do 2 (respects_step; [apply on_sched_hangs, wake_all_on_tables|]). cbv zeta.
  respects_step; [apply drain_hangs|apply respects_ret; apply _].
Qed.

Lemma hangup_one_hangs ep w : respects hang w (hangup_endpoint ep).
Proof.
  unfold hangup_endpoint. respects_step; [by apply hang_same|]. respects_step.
  respects_step; [|by apply hang_same].
  destruct (ENDPOINTS _ !! ep) as [ch|]; [|apply respects_ret; apply _].
  respects_step; [by apply hang_same|apply shut_hangs].
Qed.

Lemma hangup_hangs pid w : respects hang w (hangup_channel_for_pid pid).
Proof.
  unfold hangup_channel_for_pid. respects_step. destruct (owned_endpoints _ _) as [|ep eps]; [apply respects_ret; apply _|].
  respects_step.
  - generalize (ep :: eps) as l, w. clear. intros l. induction l as [|ep l IH]; intros w; cbn; [apply respects_ret; apply _|].
    respects_step; [apply hangup_one_hangs|apply IH].
  - apply respects_modify, hang_same; by case_bool_decide.
Qed.

(** A handle that was given out at some time: it denotes its slot, or the slot has moved on. *)
Definition issued (st : CoreState) (h : CapHandle) : Prop :=
  ∃ s, slots st !! slot h = Some s ∧ ((generation h < slot_generation s)%Z ∨ denotes st h s).

Lemma issued_extends st st' h : cap_extends st st' → issued st h → issued st' h.
Proof.
  intros Hext (s & Hs & Hc). destruct (ext_slots _ _ Hext _ _ Hs) as (s' & Hs' & Hc'). exists s'. split; [done|].
  destruct Hc as [Hlt|(_ & Hf & Hg)].
  - left. destruct Hc' as [?|[-> _]]; lia.
  - destruct Hc' as [?|[Hg' [?| ->]]]; [left; lia|congruence|right]. by split_and!.
Qed.

(** Dead from [st] on. *)
Definition dead_from (st : CoreState) (h : CapHandle) : Prop :=
  ∀ st2 s, cap_extends st st2 → ¬ denotes st2 h s.

Lemma dead_extends st st' h : cap_extends st st' → dead_from st h → dead_from st' h.
Proof. intros Hext Hd st2 s Hext2. apply Hd. by etrans. Qed.

Definition destroy_all (l : list (Z * CapHandle)) : comp CoreState CapError unit :=
  for_each l (λ e, ignore (destroy_owned e.2)).

Lemma destroy_all_spec l st : cap_wf st → (∀ h, h ∈ l.*2 → issued st h) →
  wp (destroy_all l)
     (λ r st', r = Panic ∨ r = Ok tt ∧ evolves st st' ∧ ∀ h, h ∈ l.*2 → dead_from st' h) st.
Proof.
  revert st. induction l as [|[n h] l IH]; intros st Hwf Hissued.
  { apply wp_ret. right. split; [done|]. split; [by apply evolves_refl|]. by intros h ?%elem_of_nil. }
  change (destroy_all ((n, h) :: l)) with (ignore (E := CapError) (destroy_owned h);; destroy_all l).
  apply wp_bind, wp_ignore. eapply wp_mono; [by apply destroy_owned_spec|].
  assert (∀ st1, evolves st st1 → dead_from st1 h → wp (destroy_all l)
     (λ r st', r = Panic ∨ r = Ok tt ∧ evolves st st' ∧ ∀ h', h' ∈ ((n, h) :: l).*2 → dead_from st' h') st1) as Hnext.
  { intros st1 [Hwf1 Hext1] Hdead. eapply wp_mono; [apply IH; [done|]|].
    - intros h' Hh'. eapply issued_extends; [done|]. apply Hissued. by right.
    - intros r st2 [?|(-> & Hev2 & Hd2)]; [by left|right]. split; [done|]. split; [by eapply evolves_trans|].
      intros h' [->|Hh']%elem_of_cons; [|by apply Hd2]. eapply dead_extends; [apply Hev2|done]. }
  intros [[]|e|] st1 [Hev H]; [| |by left].
  - destruct H as (s & nd & Hs & Hnd & ->). apply Hnext; [done|]. intros st2 s2 Hext.
    eapply released_forever; [exact Hs| |exact Hext]. cbn. rewrite list_lookup_insert_eq; [done|].
    destruct Hs as (Hs & _). by apply lookup_lt_Some in Hs.
  - destruct H as [-> Hn]. apply Hnext; [done|]. intros st2 s2 Hext.
    destruct (Hissued h) as (s & Hs & [Hlt|Hd]); [left|by eapply stale_forever|by destruct (Hn s)].
Qed.

(** C15: A process that exits keeps no authority: unless a generation overflows, its
    endpoints are unregistered and its table is empty; every handle that was in
    the table and had been issued is dead, in this capability space and in all
    that come after it, for every right; the tables of all other processes are
    as they were. *)
Theorem exit_leaves_no_authority (pid : Z) (w w' : IpcWorld) (st : CoreState) (p : Process)
    (r : outcome CapError unit) :
  caps_up w st → procs (sched w) !! pid = Some p → (0 ≤ pid < 2 ^ 32)%Z →
  (∀ h, h ∈ (cap_table p).*2 → issued st h) → exit_release pid w = (r, w') → r ≠ Panic →
  r = Ok tt ∧
  (∀ ep, ENDPOINT_OWNERS w !! ep = Some pid → ENDPOINTS w' !! ep = None ∧ ENDPOINT_OWNERS w' !! ep = None) ∧
  cap_table <$> procs (sched w') !! pid = Some [] ∧
  (∀ q, q ≠ pid → cap_table <$> procs (sched w') !! q = cap_table <$> procs (sched w) !! q) ∧
  ∃ st', caps_up w' st' ∧ ∀ h st2 req, h ∈ (cap_table p).*2 → cap_extends st' st2 → ¬ usable st2 h req.
Proof.
  intros Hup Hp Hpid Hissued Hrun Hnp. unfold exit_release, wrap in Hrun. rewrite Z.mod_small in Hrun by done.
  destruct (hangup_channel_for_pid pid w) as [r1 w1] eqn:Hh.
  assert (r1 = Panic ∨ r1 ≠ Panic) as [->|Hr1] by (destruct r1; auto).
  { rewrite (bind_panic _ _ _ _ Hh) in Hrun. by injection Hrun as <- <-. }
  destruct (hangup_run _ _ _ _ Hh Hr1) as (-> & w1' & Hhung & E1 & E2 & _).
  pose proof (hangup_hangs pid w) as [Hev Hsame]. rewrite Hh in Hev, Hsame. cbn in Hev, Hsame.
  destruct (Hev st Hup) as (st1 & [Hst1 Hwf1] & Hext1).
  rewrite (bind_ok _ _ _ _ _ Hh) in Hrun.
  assert (default [] (cap_table <$> procs (sched w1) !! pid) = cap_table p) as Htable by (by rewrite Hsame, Hp).
  unfold take_table in Hrun. erewrite bind_ok in Hrun; [|do 2 (erewrite bind_ok by reflexivity); reflexivity].
  rewrite Htable in Hrun. set (w2 := with_sched (update pid (set_cap_table []) (sched w1)) w1) in Hrun.
  pose proof (destroy_all_spec (cap_table p) st1 Hwf1) as Hd. unfold wp in Hd.
  assert (ignore (cap_call (destroy_process_cspace (cap_table p))) w2 =
    let (o, st2) := destroy_all (cap_table p) st1 in
    ((match o with Panic => Panic | _ => Ok tt end : outcome CapError unit), with_caps (with_state st2 (caps w2)) w2)) as Hdestroy.
  { unfold ignore, attempt, mbind, comp_bind, cap_call, zoom, locked. change (STATE (caps w2)) with (STATE (caps w1)).
    rewrite Hst1. unfold destroy_process_cspace. fold (destroy_all (cap_table p)). unfold mbind, comp_bind.
    by destruct (destroy_all (cap_table p) st1) as [[[]|e|] st2]. }
  rewrite Hdestroy in Hrun. destruct (destroy_all (cap_table p) st1) as [o st2]. cbn [fst snd] in Hd.
  destruct Hd as [->|(-> & [Hwf2 Hext2] & Hdead)].
  { intros h Hin. eapply issued_extends; [done|]. by apply Hissued. }
  { injection Hrun as <- <-. done. }
  injection Hrun as <- <-. split; [done|]. split; [|split; [|split]].
  - intros ep Hep%owned_endpoints_spec. cbn. rewrite E1, E2, (hung_endpoints _ _ _ Hhung), (hung_owners _ _ _ Hhung).
    by rewrite !lookup_foldr_delete, !decide_True.
  - cbn. rewrite lookup_alter_eq. specialize (Hsame pid). rewrite Hp in Hsame.
    destruct (procs (sched w1) !! pid) as [p1|]; [done|]. by cbn in Hsame.
  - intros q Hq. cbn. rewrite lookup_alter_ne by done. apply Hsame.
  - exists st2. split; [split; [by destruct w1 as [[] ? ? ? ? ? ? ?]|done]|].
    intros h st3 req Hin Hext3 (s & o & Hs & _). by apply (Hdead h Hin st3 s).
Qed.

(** ** Witnesses *)

(** The process on the first CPU is interrupted in its exit; a sleeper wakes later. *)
Lemma preempted_exit_is_abandoned_witness :
  ∃ s1 s2, exit_begin 0 demo_sched = Some s1 ∧
    switches [(0, 9%Z, None); (1, 10%Z, Some 3%Z); (0, 11%Z, Some 3%Z)] s1 = Some s2 ∧
    state <$> procs s2 !! 3%Z = Some Exiting.
Proof.
  destruct (preempted_exit_is_abandoned 0 demo_sched [4; 5]%Z 3 (set_on_cpu (Some 0) (demo_process 3 Running None None None)))
    as (s1 & Hs1 & Hlater).
  - done.
  - unfold MAX_CPUS. lia.
  - reflexivity.
  - reflexivity.
  - reflexivity.
  - intros [|c] Hc; [done|]. cbn in Hc. by do 7 (destruct c as [|c]; [done|]).
  - apply not_elem_of_nil.
  - exact demo_sleep_rep.
  - right. split; [|reflexivity]. apply (bool_decide_unpack _). vm_compute. exact I.
  - assert (s1 = default demo_sched (exit_begin 0 demo_sched)) as -> by (by rewrite Hs1).
    assert (is_Some (switches [(0, 9%Z, None); (1, 10%Z, Some 3%Z); (0, 11%Z, Some 3%Z)]
      (default demo_sched (exit_begin 0 demo_sched)))) as [s2 Hs2] by (vm_compute; eauto).
    exists (default demo_sched (exit_begin 0 demo_sched)), s2. split; [exact Hs1|]. split; [exact Hs2|].
    destruct (Hlater 9%Z None [(1, 10%Z, Some 3%Z); (0, 11%Z, Some 3%Z)] s2) as [(p2 & Hp2 & Hst & _) _];
      [|exact Hs2|by rewrite Hp2; cbn; rewrite Hst].
    repeat constructor; unfold MAX_CPUS; lia.
Defined.

Lemma exit_leaves_no_authority_witness :
  (exit_release 1 app_ipc).1 = Ok tt ∧
  ∃ st', caps_up (exit_release 1 app_ipc).2 st' ∧ ∀ st2 req, cap_extends st' st2 → ¬ usable st2 (mkHandle 7 1) req.
Proof.
  destruct (exit_leaves_no_authority 1 app_ipc (exit_release 1 app_ipc).2 app_core
    (default (process_new []) (procs (sched app_ipc) !! 1%Z)) (exit_release 1 app_ipc).1) as (H1 & _ & _ & _ & st' & H2 & H3).
  - exact app_caps_up.
  - vm_compute. reflexivity.
  - lia.
  - intros h Hh. vm_compute in Hh.
    repeat (apply elem_of_cons in Hh as [->|Hh]; [eexists; split; [vm_compute; reflexivity|right; split_and!; vm_compute; reflexivity]|]).
    by apply elem_of_nil in Hh.
  - apply surjective_pairing.
  - vm_compute. discriminate.
  - split; [exact H1|]. exists st'. split; [exact H2|]. intros st2 req. apply H3.
    apply (bool_decide_unpack _). vm_compute. exact I.
Defined.
