(* ===== verification/Wm.v ===== *)
(** * The window manager (kernel/src/wm.rs)

    Windows in stacking order, the keyboard focus, the order of recent use, the
    switcher, dragging and resizing, and what is damaged on the screen.  The
    first part works on the manager alone ([WindowManager]); the second on the
    whole desktop ([Desktop]), because destroying a window gives back surfaces and
    may end a process, and a window that changes its size tells its surface.
    What applications draw, and the composition of the screen, are left out. *)
From S2P Require Import Prelude Bytes Text Disk Abi Cap FramePool Process WaitQueue Sched IoPorts Channel Ipc.
From S2P Require Import SyscallCap AddrSpace DmaRegion Surface ProcFs Vfs FdTable SecMem Syscall.
From S2P Require Import Damage Apps Permission Window Input.

(** kernel/src/wm.rs:84-89 [SnapPreview] *)
Variant SnapPreview := PreviewNone | PreviewLeft | PreviewRight | PreviewMaximized.
#[export] Instance SnapPreview_eq : EqDecision SnapPreview.
Proof. solve_decision. Defined.

(** kernel/src/wm.rs:92-96 [AltTabSwitcher] *)
Record AltTabSwitcher := mkSwitcher {
  tab_active : bool;
  selected_index : nat;
  candidates : list Z;
}.

(** kernel/src/wm.rs:98-106 [AltTabSwitcher::new] *)
Definition switcher_new : AltTabSwitcher := mkSwitcher false 0 [].

(** A window, an edge, and where pointer and window were when it was grabbed. *)
Record Resizing := mkResizing {
  r_window : Z;
  r_edge : ResizeEdge;
  r_mouse : Z * Z;
  r_geom : Geom;
}.

(** kernel/src/wm.rs:108-126 [WindowManager] *)
Record WindowManager := mkWm {
  windows : list Window;
  next_window_id : Z;
  focused_window : option Z;
  mru_list : list Z;
  alt_tab : AltTabSwitcher;
  snap_preview : SnapPreview;
  dragging_window : option (Z * Z * Z);
  resizing_window : option Resizing;
  pending_resize_render : option Z;
  hovered_target : option HoverTarget;
  hovered_dock_tab : option nat;
  launcher_open : bool;
  launcher_selected : nat;
  pending_spawn_app : option Z;
  last_titlebar_click : option (Z * Z);
  damage_tracker : DamageTracker;
}.

(** kernel/src/wm.rs:130-148 [WindowManager::new] *)
Definition wm_new : WindowManager :=
  mkWm [] 1 None [] switcher_new PreviewNone None None None None None false 0 None None tracker_new.

(** Assignments. *)
Definition with_windows (x : list Window) (m : WindowManager) : WindowManager :=
  mkWm x (next_window_id m) (focused_window m) (mru_list m) (alt_tab m) (snap_preview m) (dragging_window m) (resizing_window m)
    (pending_resize_render m) (hovered_target m) (hovered_dock_tab m) (launcher_open m) (launcher_selected m) (pending_spawn_app m) (last_titlebar_click m) (damage_tracker m).
Definition with_next_id (x : Z) (m : WindowManager) : WindowManager :=
  mkWm (windows m) x (focused_window m) (mru_list m) (alt_tab m) (snap_preview m) (dragging_window m) (resizing_window m)
    (pending_resize_render m) (hovered_target m) (hovered_dock_tab m) (launcher_open m) (launcher_selected m) (pending_spawn_app m) (last_titlebar_click m) (damage_tracker m).
Definition with_focus (x : option Z) (m : WindowManager) : WindowManager :=
  mkWm (windows m) (next_window_id m) x (mru_list m) (alt_tab m) (snap_preview m) (dragging_window m) (resizing_window m)
    (pending_resize_render m) (hovered_target m) (hovered_dock_tab m) (launcher_open m) (launcher_selected m) (pending_spawn_app m) (last_titlebar_click m) (damage_tracker m).
Definition with_mru (x : list Z) (m : WindowManager) : WindowManager :=
  mkWm (windows m) (next_window_id m) (focused_window m) x (alt_tab m) (snap_preview m) (dragging_window m) (resizing_window m)
    (pending_resize_render m) (hovered_target m) (hovered_dock_tab m) (launcher_open m) (launcher_selected m) (pending_spawn_app m) (last_titlebar_click m) (damage_tracker m).
Definition with_switcher (x : AltTabSwitcher) (m : WindowManager) : WindowManager :=
  mkWm (windows m) (next_window_id m) (focused_window m) (mru_list m) x (snap_preview m) (dragging_window m) (resizing_window m)
    (pending_resize_render m) (hovered_target m) (hovered_dock_tab m) (launcher_open m) (launcher_selected m) (pending_spawn_app m) (last_titlebar_click m) (damage_tracker m).
Definition with_preview (x : SnapPreview) (m : WindowManager) : WindowManager :=
  mkWm (windows m) (next_window_id m) (focused_window m) (mru_list m) (alt_tab m) x (dragging_window m) (resizing_window m)
    (pending_resize_render m) (hovered_target m) (hovered_dock_tab m) (launcher_open m) (launcher_selected m) (pending_spawn_app m) (last_titlebar_click m) (damage_tracker m).
Definition with_dragging (x : option (Z * Z * Z)) (m : WindowManager) : WindowManager :=
  mkWm (windows m) (next_window_id m) (focused_window m) (mru_list m) (alt_tab m) (snap_preview m) x (resizing_window m)
    (pending_resize_render m) (hovered_target m) (hovered_dock_tab m) (launcher_open m) (launcher_selected m) (pending_spawn_app m) (last_titlebar_click m) (damage_tracker m).
Definition with_resizing (x : option Resizing) (m : WindowManager) : WindowManager :=
  mkWm (windows m) (next_window_id m) (focused_window m) (mru_list m) (alt_tab m) (snap_preview m) (dragging_window m) x
    (pending_resize_render m) (hovered_target m) (hovered_dock_tab m) (launcher_open m) (launcher_selected m) (pending_spawn_app m) (last_titlebar_click m) (damage_tracker m).
Definition with_pending (x : option Z) (m : WindowManager) : WindowManager :=
  mkWm (windows m) (next_window_id m) (focused_window m) (mru_list m) (alt_tab m) (snap_preview m) (dragging_window m) (resizing_window m)
    x (hovered_target m) (hovered_dock_tab m) (launcher_open m) (launcher_selected m) (pending_spawn_app m) (last_titlebar_click m) (damage_tracker m).
Definition with_hovered (x : option HoverTarget) (m : WindowManager) : WindowManager :=
  mkWm (windows m) (next_window_id m) (focused_window m) (mru_list m) (alt_tab m) (snap_preview m) (dragging_window m) (resizing_window m)
    (pending_resize_render m) x (hovered_dock_tab m) (launcher_open m) (launcher_selected m) (pending_spawn_app m) (last_titlebar_click m) (damage_tracker m).
Definition with_dock_tab (x : option nat) (m : WindowManager) : WindowManager :=
  mkWm (windows m) (next_window_id m) (focused_window m) (mru_list m) (alt_tab m) (snap_preview m) (dragging_window m) (resizing_window m)
    (pending_resize_render m) (hovered_target m) x (launcher_open m) (launcher_selected m) (pending_spawn_app m) (last_titlebar_click m) (damage_tracker m).
Definition with_launcher (x : bool) (m : WindowManager) : WindowManager :=
  mkWm (windows m) (next_window_id m) (focused_window m) (mru_list m) (alt_tab m) (snap_preview m) (dragging_window m) (resizing_window m)
    (pending_resize_render m) (hovered_target m) (hovered_dock_tab m) x (launcher_selected m) (pending_spawn_app m) (last_titlebar_click m) (damage_tracker m).
Definition with_selected (x : nat) (m : WindowManager) : WindowManager :=
  mkWm (windows m) (next_window_id m) (focused_window m) (mru_list m) (alt_tab m) (snap_preview m) (dragging_window m) (resizing_window m)
    (pending_resize_render m) (hovered_target m) (hovered_dock_tab m) (launcher_open m) x (pending_spawn_app m) (last_titlebar_click m) (damage_tracker m).
Definition with_spawn (x : option Z) (m : WindowManager) : WindowManager :=
  mkWm (windows m) (next_window_id m) (focused_window m) (mru_list m) (alt_tab m) (snap_preview m) (dragging_window m) (resizing_window m)
    (pending_resize_render m) (hovered_target m) (hovered_dock_tab m) (launcher_open m) (launcher_selected m) x (last_titlebar_click m) (damage_tracker m).
Definition with_click (x : option (Z * Z)) (m : WindowManager) : WindowManager :=
  mkWm (windows m) (next_window_id m) (focused_window m) (mru_list m) (alt_tab m) (snap_preview m) (dragging_window m) (resizing_window m)
    (pending_resize_render m) (hovered_target m) (hovered_dock_tab m) (launcher_open m) (launcher_selected m) (pending_spawn_app m) x (damage_tracker m).
Definition with_damage (x : DamageTracker) (m : WindowManager) : WindowManager :=
  mkWm (windows m) (next_window_id m) (focused_window m) (mru_list m) (alt_tab m) (snap_preview m) (dragging_window m) (resizing_window m)
    (pending_resize_render m) (hovered_target m) (hovered_dock_tab m) (launcher_open m) (launcher_selected m) (pending_spawn_app m) (last_titlebar_click m) x.

(** ** The manager *)

Section manager.
Context (screen_w screen_h : Z).

Abbreviation W := (comp WindowManager WmError).

(** [self.damage_tracker.add_bounds(..)] — kernel/src/wm.rs:186-188 [mark_damage] *)
Definition mark_damage (x y wd ht : Z) : W unit :=
  m ← get;
  t ← unwrap (add_bounds x y wd ht (damage_tracker m));
  put (with_damage t m).

(** kernel/src/wm.rs:191-193 [mark_window_damage] *)
Definition mark_window_damage (g : Geom) : W unit :=
  let '(x, y, wd, ht) := g in
  w' ← unwrap (fits 32 (wd + 8));
  h' ← unwrap (fits 32 (ht + 28));
  mark_damage ((x - 4) `max` (- 2 ^ 31)) ((y - 4) `max` (- 2 ^ 31)) w' h'.

(** kernel/src/wm.rs:196-200 [mark_full_damage] *)
Definition mark_full_damage : W unit :=
  m ← get;
  t ← unwrap (add_full_screen screen_w screen_h (damage_tracker m));
  put (with_damage t m).

(** kernel/src/wm.rs:203-206 [mark_top_bar_damage] *)
Definition mark_top_bar_damage : W unit := mark_damage 0 0 screen_w (DOCK_HEIGHT + 2).

(** kernel/src/wm.rs:150-154 [mark_launcher_damage] *)
Definition mark_launcher_damage : W unit :=
  mark_damage (ll_x launcher_layout) (ll_y launcher_layout) (ll_width launcher_layout) (ll_height launcher_layout);;
  mark_damage 4 0 92 DOCK_HEIGHT.

(** kernel/src/wm.rs:156-166 [launcher_nav_up] *)
Definition launcher_nav_up : W unit :=
  modify (λ m, with_selected (nav_up (launcher_selected m)) m);; mark_launcher_damage.
(** kernel/src/wm.rs:168-174 [launcher_nav_down] *)
Definition launcher_nav_down : W unit :=
  modify (λ m, with_selected (nav_down (launcher_selected m)) m);; mark_launcher_damage.

(** The decoration of a window: title bar and three thin borders —
    kernel/src/wm.rs:247-250 [create_window_with_meta, decoration] *)
Definition mark_decoration (w : Window) : W unit :=
  below ← unwrap (fits_signed 32 (w_y w + 20));
  right ← unwrap (fits_signed 32 (w_x w + to_signed 32 (w_width w) - 1));
  bottom ← unwrap (fits_signed 32 (w_y w + to_signed 32 (w_height w) + 19));
  mark_damage (w_x w) (w_y w) (w_width w) 20;;
  mark_damage (w_x w) below 1 (w_height w);;
  mark_damage right below 1 (w_height w);;
  mark_damage (w_x w) bottom (w_width w) 1.

(** kernel/src/wm.rs:244-253 [create_window_with_meta, focus] *)
Definition unfocus_all : W unit :=
  m ← get;
  for_each (windows m) (λ w, if focused w then mark_decoration w else mret tt);;
  modify (λ m, with_windows (map (set_focused false) (windows m)) m).

(** kernel/src/wm.rs:627-629 [clean_mru] *)
Definition clean_mru : W unit :=
  modify (λ m, with_mru (filter (λ id, Exists (λ w, w_id w = id ∧ w_state w ≠ WinClosed) (windows m)) (mru_list m)) m).

(** kernel/src/wm.rs:620-624 [touch_mru] *)
Definition touch_mru (id : Z) : W unit :=
  modify (λ m, with_mru (id :: filter (λ i, i ≠ id) (mru_list m)) m);; clean_mru.

(** [self.windows.iter().find(|w| w.window_id == id)] *)
Definition find_window (id : Z) (m : WindowManager) : option (nat * Window) := list_find (λ w, w_id w = id) (windows m).

(** The caller's window, for the operations that check ownership —
    kernel/src/wm.rs:356-361 [minimize_window, checks] *)
Definition owned_window (pid id : Z) : W (nat * Window) :=
  m ← get;
  '(i, w) ← ok_or (find_window id m) WmNotFound;
  reject_if (negb (w_owner w =? pid)%Z) PermissionDenied;;
  mret (i, w).

Definition replace_window (i : nat) (w : Window) : W unit := modify (λ m, with_windows (<[i := w]> (windows m)) m).

(** The focus goes to the topmost window that is shown —
    kernel/src/wm.rs:375-388 [minimize_window, focus] *)
Definition transfer_focus : W unit :=
  m ← get;
  let f := (λ r, w_id r.1) <$> topmost (λ w, if shown w then Some tt else None) (windows m) in
  let ws := map (λ w, set_focused (bool_decide (Some (w_id w) = f)) w) (windows m) in
  put (with_focus f (with_windows ws m));;
  match last (filter (λ w, focused w) ws) with
  | Some w => mark_window_damage (geom w)
  | None => mret tt
  end;;
  match f with Some id => touch_mru id | None => mret tt end.

(** kernel/src/wm.rs:914-944 [raise_to_top_internal] *)
Definition raise_to_top_internal (id : Z) : W unit :=
  m ← get;
  match last (windows m) with
  | None => throw WmNotFound
  | Some top =>
      if bool_decide (w_id top = id) && bool_decide (focused_window m = Some id) then mret tt
      else
        '(i, w) ← ok_or (find_window id m) WmNotFound;
        put (with_windows (delete i (windows m)) m);;
        unfocus_all;;
        modify (with_focus (Some id));;
        mark_window_damage (geom w);;
        mark_top_bar_damage;;
        modify (λ m, with_windows (windows m ++ [set_focused true w]) m);;
        touch_mru id
  end.

(** kernel/src/wm.rs:902-911 [raise_to_top] *)
Definition raise_to_top (pid id : Z) : W unit := owned_window pid id;; raise_to_top_internal id.

(** kernel/src/wm.rs:343-351 [set_window_title] *)
Definition set_window_title (id : Z) (t : bytes) : W unit :=
  m ← get;
  '(i, w) ← ok_or (find_window id m) WmNotFound;
  replace_window i (set_title t w);;
  mark_window_damage (geom w).

(** kernel/src/wm.rs:354-390 [minimize_window] *)
Definition minimize_window (pid id : Z) : W unit :=
  '(i, w) ← owned_window pid id;
  replace_window i (minimized w);;
  mark_window_damage (geom w);;
  mark_top_bar_damage;;
  m ← get;
  if decide (focused_window m = Some id) then transfer_focus else mret tt.

(** kernel/src/wm.rs:873-899 [move_window] *)
Definition move_window (pid id new_x new_y : Z) : W unit :=
  '(i, w) ← owned_window pid id;
  w' ← unwrap (moved screen_w screen_h new_x new_y w);
  replace_window i w';;
  mark_window_damage (geom w);;
  mark_window_damage (w_x w', w_y w', w_width w, w_height w).

(** kernel/src/wm.rs:947-956 [hit_test] *)
Definition hit_test (mx my : Z) (m : WindowManager) : option Z :=
  (λ r, w_id r.1) <$> topmost (λ w, hit w mx my) (windows m).

(** [self.windows.iter().find(|w| w.window_id == id).map(|w| w.owner_pid)] *)
Definition owner_of (id : Z) (m : WindowManager) : option Z := (λ r, w_owner r.2) <$> find_window id m.

(** kernel/src/wm.rs:959-966 [dispatch_mouse_click] *)
Definition dispatch_mouse_click (mx my : Z) : W (option (Z * Z)) :=
  m ← get;
  match hit_test mx my m with
  | None => mret None
  | Some id => ignore (raise_to_top_internal id);; m ← get; mret ((λ o, (id, o)) <$> owner_of id m)
  end.

(** kernel/src/wm.rs:969-973 [dispatch_keyboard_input] *)
Definition dispatch_keyboard_input (m : WindowManager) : option (Z * Z) :=
  id ← focused_window m; o ← owner_of id m; Some (id, o).

(** ** The switcher *)

(** The box around the switcher — kernel/src/wm.rs:640-645 [alt_tab_press, hud] *)
Definition mark_switcher : W unit :=
  let hud_w := wrap 32 (400 `min` (screen_w - 40)) in
  let hud_x := ((screen_w - to_signed 32 hud_w) `quot` 2)%Z in
  let hud_y := ((screen_h - 100) `quot` 2)%Z in
  w' ← unwrap (fits 32 (hud_w + 8));
  mark_damage (hud_x - 4) (hud_y - 4) w' 108.

(** kernel/src/wm.rs:647-665 [alt_tab_press, selection] *)
Definition next_selection (shift : bool) (cs : list Z) (t : AltTabSwitcher) : AltTabSwitcher :=
  let n := length cs in
  if negb (tab_active t) then
    mkSwitcher true (if (2 <=? n)%nat then if shift then n - 1 else 1 else 0) cs
  else
    mkSwitcher true
      (if shift then match selected_index t with O => n - 1 | S i => i end
       else (selected_index t + 1) `mod` n) cs.

(** kernel/src/wm.rs:632-668 [alt_tab_press] *)
Definition alt_tab_press (shift : bool) : W unit :=
  clean_mru;;
  m ← get;
  if bool_decide (mru_list m = []) then mret tt
  else
    put (with_switcher (next_selection shift (mru_list m) (alt_tab m)) m);;
    mark_switcher.

Definition switcher_off : W unit :=
  modify (λ m, with_switcher (mkSwitcher false (selected_index (alt_tab m)) (candidates (alt_tab m))) m).

(** kernel/src/wm.rs:708-721 [alt_tab_cancel] *)
Definition alt_tab_cancel : W unit :=
  m ← get;
  if tab_active (alt_tab m) then mark_switcher;; switcher_off else mret tt.
End manager.

(** ** The desktop *)

(** What the window manager reads and writes of an open editor —
    kernel/src/editor_app.rs:30-54 [EditorAppState] *)
Record Editor := mkEditor { is_dirty : bool; show_unsaved_dialog : bool }.

(** The windows with an application of the kernel behind them. *)
Record Instances := mkInstances {
  TERMINAL_INSTANCES : gset Z;
  FILES_INSTANCES : gset Z;
  EDITOR_INSTANCES : gmap Z Editor;
  BROWSER_INSTANCES : gset Z;
  SETTINGS_INSTANCES : gset Z;
  TASKMGR_INSTANCES : gset Z;
}.

(** [cleanup_terminal_for_window] and its likes — kernel/src/wm.rs:817-822 [destroy_window, instances] *)
Definition cleanup_instances (id : Z) (a : Instances) : Instances :=
  mkInstances (TERMINAL_INSTANCES a ∖ {[id]}) (FILES_INSTANCES a ∖ {[id]}) (delete id (EDITOR_INSTANCES a))
    (BROWSER_INSTANCES a ∖ {[id]}) (SETTINGS_INSTANCES a ∖ {[id]}) (TASKMGR_INSTANCES a ∖ {[id]}).

Definition set_owned_windows (l : list Z) (p : Process) : Process :=
  mkProcess (pid p) (proc_name p) (state p) (kind p) (is_user p) (is_crashed p) l (resource_usage p)
    (resource_limits p) (user_cr3 p) (exit_code p) (exited p) (parent_pid p) (reaped p) (cap_table p)
    (allowed_ports p) (cpu_affinity p) (on_cpu p) (pending_signals p) (blocked_signals p) (signal_handlers p)
    (block_reason p) (wait_next p) (wait_prev p).

Section desktop.
Context {PT DD : Type} `{!Mapper PT, !UserSpace PT, !Drive DD}.
Context (cpu : nat) (screen_w screen_h : Z).
(** [memory::destroy_user_address_space]: it works on the raw tables of the machine. *)
Context (destroy_user_address_space : Z → comp (Memory (PT := PT)) string unit).

Record Desktop := mkDesktop {
  d_wm : WindowManager;
  d_kernel : Kernel (PT := PT) (D := DD);
  d_inputs : Inputs;
  d_granted : PermissionManager;
  d_instances : Instances;
  d_cursor : CursorType;
}.

Abbreviation M := (comp Desktop WmError).

Definition with_wm (x : WindowManager) (d : Desktop) : Desktop :=
  mkDesktop x (d_kernel d) (d_inputs d) (d_granted d) (d_instances d) (d_cursor d).
Definition with_kernel (x : Kernel (PT := PT) (D := DD)) (d : Desktop) : Desktop :=
  mkDesktop (d_wm d) x (d_inputs d) (d_granted d) (d_instances d) (d_cursor d).
Definition with_inputs (x : Inputs) (d : Desktop) : Desktop :=
  mkDesktop (d_wm d) (d_kernel d) x (d_granted d) (d_instances d) (d_cursor d).
Definition with_granted (x : PermissionManager) (d : Desktop) : Desktop :=
  mkDesktop (d_wm d) (d_kernel d) (d_inputs d) x (d_instances d) (d_cursor d).
Definition with_instances (x : Instances) (d : Desktop) : Desktop :=
  mkDesktop (d_wm d) (d_kernel d) (d_inputs d) (d_granted d) x (d_cursor d).
Definition with_cursor (x : CursorType) (d : Desktop) : Desktop :=
  mkDesktop (d_wm d) (d_kernel d) (d_inputs d) (d_granted d) (d_instances d) x.

Definition in_wm {E A} (m : comp WindowManager E A) : comp Desktop E A := zoom d_wm with_wm m.
Definition in_kernel {E A} (m : comp (Kernel (PT := PT) (D := DD)) E A) : comp Desktop E A := zoom d_kernel with_kernel m.
Definition set_cursor_type (c : CursorType) : M unit := modify (with_cursor c).

(** The surface takes the size of the window, and the application draws —
    kernel/src/app_registry.rs:183-187 [rerender_app_surface] *)
Definition rerender_app_surface (w : Window) : M unit :=
  ignore (in_kernel (in_surfaces (get_surface_render_target (w_surface w) (w_owner w) (w_width w) (w_height w)))).

(** The surface exists and belongs to the owner —
    kernel/src/wm.rs:226-233 [create_window_with_meta, surface check] *)
Definition owns_surface (pid sid : Z) (k : Kernel (PT := PT) (D := DD)) : bool :=
  bool_decide (Exists (λ s, sf_id s = sid ∧ sf_owner s = pid) (k_surfaces k)).

(** The window goes on the list of the process; the quota is counted but not
    enforced — kernel/src/wm.rs:281-290 [create_window_with_meta, registration] *)
Definition attach_window (pid id : Z) (s : Scheduler) : Scheduler :=
  update pid (λ p,
    let p := (increment_window_count p).2 in
    if bool_decide (id ∈ owned_windows p) then p else set_owned_windows (owned_windows p ++ [id]) p) s.

(** kernel/src/wm.rs:209-297 [create_window_with_meta] *)
Definition create_window_with_meta (pid sid x y wd ht : Z) (t : bytes) (ic : AppIcon) : M Z :=
  reject_if ((wd =? 0) || (ht =? 0) || (screen_w <? wd) || (screen_h <? ht))%Z InvalidDimensions;;
  d ← get;
  reject_if (negb (sid =? 0)%Z && negb (owns_surface pid sid (d_kernel d))) SurfaceNotFound;;
  g ← unwrap (fit_new screen_w screen_h x y wd ht);
  m ← in_wm get;
  let id := next_window_id m in
  next ← unwrap (fits 64 (id + 1));
  in_wm (modify (with_next_id next));;
  in_wm unfocus_all;;
  let w := set_geom g (mkWindow id pid sid 0 0 0 0 true true Normal g Normal None t ic) in
  in_wm (modify (λ m, with_windows (windows m ++ [w]) m));;
  in_wm (modify (with_focus (Some id)));;
  in_wm (touch_mru id);;
  in_wm (mark_window_damage g);;
  in_wm (mark_top_bar_damage screen_w);;
  in_kernel (modify (λ k, with_k_sched (attach_window pid id (k_sched k)) k));;
  mret id.

(** Title and icon follow from the name of the process — kernel/src/wm.rs:299-340 [create_window] *)
Definition create_window (pid sid x y wd ht : Z) : M Z :=
  d ← get;
  let '(t, ic) := match procs (k_sched (d_kernel d)) !! pid with
                  | Some p => (window_title (proc_name p), window_icon (proc_name p))
                  | None => (str "SparkOS Application", IconGeneric)
                  end in
  create_window_with_meta pid sid x y wd ht t ic.

(** The box around where a window was and is — kernel/src/wm.rs:478-482 [snap_left, damage] *)
Definition motion_box (old new : Geom) : option (Z * Z * Z * Z) :=
  let '(ox, oy, ow, oh) := old in
  let '(nx, ny, nw, nh) := new in
  x ← fits_signed 32 ((ox `min` nx) - 4);
  y ← fits_signed 32 ((oy `min` ny) - 4);
  wd ← fits 32 ((ow `max` nw) + Z.abs (ox - nx) + 8);
  ht ← fits 32 ((oh `max` nh) + Z.abs (oy - ny) + 28);
  Some (x, y, wd, ht).
Definition mark_motion (old new : Geom) : M unit :=
  '(x, y, wd, ht) ← unwrap (motion_box old new);
  in_wm (mark_damage x y wd ht).

(** kernel/src/wm.rs:393-451 [restore_window] *)
Definition restore_window (pid id : Z) : M unit :=
  '(i, w) ← in_wm (owned_window pid id);
  let w' := restored screen_w screen_h w in
  in_wm (replace_window i w');;
  rerender_app_surface w';;
  in_wm (mark_window_damage (geom w'));;
  in_wm (mark_top_bar_damage screen_w);;
  in_wm (raise_to_top_internal screen_w id).

(** kernel/src/wm.rs:454-484 [snap_left] *)
Definition snap_left (pid id : Z) : M unit :=
  '(i, w) ← in_wm (owned_window pid id);
  let w' := snapped_left screen_w screen_h w in
  in_wm (replace_window i w');;
  rerender_app_surface w';;
  mark_motion (geom w) (geom w');;
  in_wm (raise_to_top_internal screen_w id).

(** kernel/src/wm.rs:487-519 [snap_right] *)
Definition snap_right (pid id : Z) : M unit :=
  '(i, w) ← in_wm (owned_window pid id);
  let w' := snapped_right screen_w screen_h w in
  in_wm (replace_window i w');;
  rerender_app_surface w';;
  mark_motion (geom w) (geom w');;
  in_wm (raise_to_top_internal screen_w id).

(** Damage is marked before the checks — kernel/src/wm.rs:522-564 [toggle_maximize_window] *)
Definition toggle_maximize_window (pid id : Z) : M unit :=
  in_wm (mark_full_damage screen_w screen_h);;
  '(i, w) ← in_wm (owned_window pid id);
  w' ← unwrap (toggled_maximize screen_w screen_h w);
  in_wm (replace_window i w');;
  rerender_app_surface w';;
  in_wm (raise_to_top_internal screen_w id).

(** kernel/src/wm.rs:567-617 [toggle_fullscreen] *)
Definition toggle_fullscreen (pid id : Z) : M unit :=
  in_wm (mark_full_damage screen_w screen_h);;
  '(i, w) ← in_wm (owned_window pid id);
  w' ← unwrap (toggled_fullscreen screen_w screen_h w);
  in_wm (replace_window i w');;
  rerender_app_surface w';;
  in_wm (raise_to_top_internal screen_w id).

(** A window that was chosen comes to the front, restored if it was minimized —
    kernel/src/wm.rs:692-703 [alt_tab_commit, switch] *)
Definition switch_to (id : Z) : M bool :=
  m ← in_wm get;
  match find_window id m with
  | Some (_, w) =>
      (if bool_decide (w_state w = Minimized) then ignore (restore_window (w_owner w) id)
       else ignore (in_wm (raise_to_top_internal screen_w id)));;
      in_wm (touch_mru id);; mret true
  | None => mret false
  end.

(** kernel/src/wm.rs:671-705 [alt_tab_commit] *)
Definition alt_tab_commit : M (option Z) :=
  m ← in_wm get;
  let t := alt_tab m in
  if negb (tab_active t) then mret None
  else
    in_wm (mark_switcher screen_w screen_h);;
    in_wm switcher_off;;
    match candidates t !! (selected_index t `min` (length (candidates t) - 1))%nat with
    | None => mret None
    | Some id => b ← switch_to id; if (b : bool) then mret (Some id) else mret None
    end.

(** kernel/src/wm.rs:724-740 [alt_tab_cycle] *)
Definition alt_tab_cycle : M (option Z) :=
  in_wm clean_mru;;
  m ← in_wm get;
  match mru_list m with
  | [] => mret None
  | a :: rest => switch_to (match rest with b :: _ => b | [] => a end);; m ← in_wm get; mret (focused_window m)
  end.
(** ** Closing *)

(** The page tables go unless a surface is still in them —
    kernel/src/task/process.rs:1797-1824 [release_process_address_space] *)
Definition release_process_address_space (pid : Z) : comp (Kernel (PT := PT) (D := DD)) WmError bool :=
  k ← get;
  let cr3 := default 0%Z (user_cr3 <$> procs (k_sched k) !! pid) in
  if bool_decide (Exists (λ s, sf_owner s = pid) (k_surfaces k)) then mret false
  else if (cr3 =? 0)%Z then mret true
  else
    r ← attempt (in_memory (destroy_user_address_space cr3));
    match r with
    | inl _ => mret false
    | inr _ => modify (λ k, with_k_sched (update pid (set_user_cr3 0) (k_sched k)) k);; mret true
    end.

(** Hanging up an endpoint takes the lock of the scheduler, which the window
    manager holds here: the CPU spins forever, rendered as a panic. *)
Definition hangup_under_lock (pid : Z) : comp IpcWorld CapError unit :=
  w ← get;
  if existsb (λ ep, bool_decide (is_Some (ENDPOINTS w !! ep))) (owned_endpoints pid (ENDPOINT_OWNERS w))
  then panic
  else hangup_channel_for_pid pid.

Definition forget_process (pid : Z) (k : Kernel (PT := PT) (D := DD)) : Kernel :=
  with_k_sched (purge_pid pid (k_sched k)) k.

(** The list of names for the shell is left out — kernel/src/wm.rs:836-860 [destroy_window, process] *)
Definition detach_window (pid id : Z) (remaining can_purge : bool) : comp (Kernel (PT := PT) (D := DD)) WmError unit :=
  k ← get;
  match procs (k_sched k) !! pid with
  | Some p =>
      let p1 := (decrement_window_count p).2 in
      let p2 := set_owned_windows (filter (λ i, i ≠ id) (owned_windows p1)) p1 in
      if can_purge then
        put (with_k_sched (update pid (λ _, set_cap_table [] (set_reaped true (set_exited true (set_state Exited p2)))) (k_sched k)) k);;
        ignore (in_ipc (Ipc.cap_call (destroy_process_cspace (cap_table p))));;
        ignore (in_ipc (hangup_under_lock (wrap 32 pid)));;
        modify (forget_process pid)
      else put (with_k_sched (update pid (λ _, p2) (k_sched k)) k)
  | None => if remaining then mret tt else modify (forget_process pid)
  end.

(** kernel/src/wm.rs:779-807 [destroy_window, manager] *)
Definition drop_window (i : nat) (w : Window) : comp WindowManager WmError unit :=
  let id := w_id w in
  modify (λ m, with_windows (delete i (windows m)) m);;
  modify (λ m, with_pending (if decide (pending_resize_render m = Some id) then None else pending_resize_render m) m);;
  modify (λ m, with_mru (filter (λ i, i ≠ id) (mru_list m)) m);;
  modify (λ m, with_switcher (mkSwitcher (tab_active (alt_tab m)) (selected_index (alt_tab m))
                                (filter (λ i, i ≠ id) (candidates (alt_tab m)))) m);;
  clean_mru;;
  mark_window_damage (geom w);;
  mark_top_bar_damage screen_w;;
  m ← get;
  if decide (focused_window m = Some id) then transfer_focus else mret tt.

(** kernel/src/wm.rs:771-870 [destroy_window] *)
Definition destroy_window (pid id : Z) : M unit :=
  '(i, w) ← in_wm (owned_window pid id);
  in_wm (drop_window i w);;
  (if (w_surface w =? 0)%Z then mret tt
   else ignore (in_kernel (in_surfaces (destroy_surface_for_pid pid (w_surface w)))));;
  modify (λ d, with_instances (cleanup_instances id (d_instances d)) d);;
  d ← get;
  let remaining := bool_decide (Exists (λ w, w_owner w = pid) (windows (d_wm d))) in
  let should_terminate :=
    negb remaining && negb (bool_decide (current_pid cpu (k_sched (d_kernel d)) = pid))
    && match procs (k_sched (d_kernel d)) !! pid with
       | Some p => match kind p with UIBound => true | _ => false end
       | None => false
       end in
  can_purge ← (if should_terminate then
                 ignore (in_kernel (in_surfaces (cleanup_surfaces_for_pid pid)));;
                 in_kernel (release_process_address_space pid)
               else mret false);
  in_kernel (detach_window pid id remaining can_purge);;
  if remaining then mret tt
  else modify (λ d, with_granted (unregister_process pid (d_granted d))
                     (with_inputs (cleanup_input_for_pid pid (d_inputs d)) d)).

(** An editor with unsaved text asks first — kernel/src/wm.rs:743-768 [request_close_window] *)
Definition request_close_window (pid id : Z) : M unit :=
  '(_, w) ← in_wm (owned_window pid id);
  d ← get;
  match EDITOR_INSTANCES (d_instances d) !! id with
  | Some (mkEditor true _) =>
      let a := d_instances d in
      put (with_instances (mkInstances (TERMINAL_INSTANCES a) (FILES_INSTANCES a)
             (<[id := mkEditor true true]> (EDITOR_INSTANCES a)) (BROWSER_INSTANCES a)
             (SETTINGS_INSTANCES a) (TASKMGR_INSTANCES a)) d);;
      in_wm (mark_window_damage (geom w))
  | _ => destroy_window pid id
  end.

(** kernel/src/wm.rs:1936-1977 [cleanup_windows_for_pid, loop body] *)
Definition cleanup_window (pid : Z) (w : Window) : M unit :=
  let id := w_id w in
  in_wm (modify (λ m, with_pending (if decide (pending_resize_render m = Some id) then None else pending_resize_render m) m));;
  in_wm (mark_window_damage (geom w));;
  in_wm (modify (λ m,
    let m := with_mru (filter (λ i, i ≠ id) (mru_list m)) m in
    let m := with_switcher (mkSwitcher (tab_active (alt_tab m)) (selected_index (alt_tab m))
                              (filter (λ i, i ≠ id) (candidates (alt_tab m)))) m in
    let m := with_dragging (d ← dragging_window m; if decide (d.1.1 = id) then None else Some d) m in
    let m := with_resizing (r ← resizing_window m; if decide (r_window r = id) then None else Some r) m in
    let m := with_hovered (h ← hovered_target m; if decide (h_window h = id) then None else Some h) m in
    with_click (c ← last_titlebar_click m; if decide (c.1 = id) then None else Some c) m));;
  modify (λ d, with_instances (cleanup_instances id (d_instances d)) d);;
  if (w_surface w =? 0)%Z then mret tt
  else ignore (in_kernel (in_surfaces (destroy_surface_for_pid pid (w_surface w)))).

(** kernel/src/wm.rs:1926-2007 [WindowManager::cleanup_windows_for_pid] *)
Definition cleanup_windows_for_pid (pid : Z) : M unit :=
  d ← get;
  let dead := filter (λ w, w_owner w = pid) (windows (d_wm d)) in
  match dead with
  | [] => mret tt
  | _ =>
      for_each dead (cleanup_window pid);;
      in_wm (modify (λ m, with_windows (filter (λ w, w_owner w ≠ pid) (windows m)) m));;
      in_wm clean_mru;;
      in_wm (mark_top_bar_damage screen_w);;
      m ← in_wm get;
      if match focused_window m with
         | Some f => bool_decide (Exists (λ w, w_id w = f) dead)
         | None => true
         end
      then in_wm transfer_focus else mret tt
  end.
(** ** The mouse *)

(** [true] when the click ends here — kernel/src/wm.rs:1343-1372 [handle_mouse_down, launcher] *)
Definition launcher_click (mx my : Z) : comp WindowManager WmError bool :=
  m ← get;
  let l := launcher_layout in
  let damage := mark_damage (ll_x l) (ll_y l) (ll_width l) (ll_height l) in
  if negb (launcher_open m) then mret false
  else if inside_of (ll_x l) mx (ll_x l + ll_width l) && inside_of (ll_y l) my (ll_y l + ll_height l) then
    match entry_at REGISTERED_APPS (item_start_y l) my with
    | inl app => put (with_launcher false (with_spawn (Some app) m));; damage;; mret true
    | inr cur_y =>
        if inside_of cur_y my (cur_y + close_btn_height l) then put (with_launcher false m);; damage;; mret true
        else mret false
    end
  else if within 4 mx 92 && (my <? DOCK_HEIGHT)%Z then mret false
  else put (with_launcher false m);; damage;; mret false.

(** kernel/src/wm.rs:1376-1403 [handle_mouse_down, top bar] *)
Definition top_bar_click (mx : Z) : M (option (Z * Z)) :=
  m ← in_wm get;
  if within 4 mx 92 then
    in_wm (put (with_launcher (negb (launcher_open m)) m));;
    in_wm (mark_damage 0 0 screen_w 350);; mret None
  else if within 102 mx (screen_w - 200) then
    match windows m !! Z.to_nat ((mx - 102) / 92) with
    | None => mret None
    | Some w =>
        (if bool_decide (w_state w = Minimized) then ignore (restore_window (w_owner w) (w_id w))
         else if bool_decide (focused_window m = Some (w_id w)) then
           ignore (in_wm (minimize_window screen_w (w_owner w) (w_id w)))
         else ignore (in_wm (raise_to_top_internal screen_w (w_id w))));;
        in_wm (mark_top_bar_damage screen_w);;
        mret (Some (w_id w, w_owner w))
    end
  else mret None.

(** A second click within 300 ticks maximizes; the first one starts to drag —
    kernel/src/wm.rs:1496-1515 [handle_mouse_down, title bar] *)
Definition title_click (w : Window) (mx my : Z) : M unit :=
  d ← get;
  let now := k_tick (d_kernel d) in
  let m := d_wm d in
  let double := match last_titlebar_click m with
                | Some (id, t) => (id =? w_id w)%Z && (saturating_sub now t <=? 300)%Z
                | None => false
                end in
  if double then
    put (with_wm (with_click None m) d);; ignore (toggle_maximize_window (w_owner w) (w_id w))
  else
    dx ← unwrap (fits_signed 32 (mx - w_x w));
    dy ← unwrap (fits_signed 32 (my - w_y w));
    put (with_wm (with_dragging (Some (w_id w, dx, dy)) (with_click (Some (w_id w, now)) m)) d);;
    ignore (in_wm (raise_to_top_internal screen_w (w_id w))).

(** kernel/src/wm.rs:1406-1524 [handle_mouse_down, windows] *)
Definition window_click (mx my : Z) : M (option (Z * Z)) :=
  m ← in_wm get;
  match topmost (λ w, click_zone w mx my) (windows m) with
  | None => mret None
  | Some (w, z) =>
      let id := w_id w in
      let owner := w_owner w in
      match z with
      | ZoneFullscreen | ZoneClient =>
          ignore (in_wm (raise_to_top_internal screen_w id));; mret (Some (id, owner))
      | ZoneBorder e =>
          in_wm (put (with_resizing (Some (mkResizing id e (mx, my) (geom w))) m));;
          ignore (in_wm (raise_to_top_internal screen_w id));; mret None
      | ZoneButton ButtonClose => ignore (request_close_window owner id);; mret None
      | ZoneButton ButtonMaximize => ignore (toggle_maximize_window owner id);; mret None
      | ZoneButton _ => ignore (in_wm (minimize_window screen_w owner id));; mret None
      | ZoneTitle => title_click w mx my;; mret None
      end
  end.

(** The window and the process that get the event — kernel/src/wm.rs:1338-1525 [handle_mouse_down] *)
Definition handle_mouse_down (mx my : Z) : M (option (Z * Z)) :=
  b ← in_wm (launcher_click mx my);
  if (b : bool) then mret None
  else if (my <? DOCK_HEIGHT)%Z then top_bar_click mx
  else window_click mx my.

(** The drag ends — kernel/src/wm.rs:1533-1578 [handle_mouse_up, drag] *)
Definition drop_dragged : M unit :=
  m ← in_wm get;
  in_wm (put (with_dragging None m));;
  match d ← dragging_window m; find_window d.1.1 m with
  | None => mret tt
  | Some (i, w) =>
      let w' := dropped screen_w screen_h w in
      in_wm (replace_window i w');;
      rerender_app_surface w';;
      mark_motion (geom w) (geom w')
  end.

(** A window and its title bar — kernel/src/wm.rs:1589-1589 [handle_mouse_up, damage] *)
Definition mark_whole (w : Window) : comp WindowManager WmError unit :=
  h ← unwrap (fits 32 (w_height w + 20)); mark_damage (w_x w) (w_y w) (w_width w) h.

(** kernel/src/wm.rs:1585-1592 [handle_mouse_up, resize] *)
Definition end_resize : M unit :=
  m ← in_wm get;
  match resizing_window m with
  | None => mret tt
  | Some r =>
      in_wm (put (with_pending None (with_resizing None m)));;
      match (if bool_decide (pending_resize_render m = Some (r_window r)) then find_window (r_window r) m else None) with
      | Some (_, w) => rerender_app_surface w;; in_wm (mark_whole w)
      | None => mret tt
      end
  end.

Definition focus_owner (m : WindowManager) : option (Z * Z) := dispatch_keyboard_input m.

(** kernel/src/wm.rs:1528-1597 [handle_mouse_up] *)
Definition handle_mouse_up : M (option (Z * Z)) :=
  drop_dragged;;
  m ← in_wm get;
  (if bool_decide (snap_preview m = PreviewNone) then mret tt
   else in_wm (put (with_preview PreviewNone m));;
        in_wm (mark_damage 0 WORK_AREA_TOP screen_w (wrap 32 (screen_h - WORK_AREA_TOP))));;
  end_resize;;
  set_cursor_type CursorDefault;;
  m ← in_wm get;
  mret (focus_owner m).

(** kernel/src/wm.rs:1606-1698 [handle_mouse_move, resizing] *)
Definition move_resizing (r : Resizing) (mx my : Z) : M unit :=
  dx ← unwrap (fits_signed 32 (mx - (r_mouse r).1));
  dy ← unwrap (fits_signed 32 (my - (r_mouse r).2));
  m ← in_wm get;
  match find_window (r_window r) m with
  | None => mret tt
  | Some (i, w) =>
      g ← unwrap (resized screen_w screen_h (r_edge r) (r_geom r) dx dy (geom w));
      box ← unwrap (motion_box (geom w) g);
      let '(x, y, wd, ht) := box in
      (if decide (geom w = g) then mret tt
       else in_wm (modify (with_pending (Some (w_id w))));; in_wm (mark_damage x y wd ht));;
      in_wm (replace_window i (set_normal g (set_w_state Normal (set_geom g w))))
  end;;
  set_cursor_type (edge_cursor (r_edge r)).

(** A maximized or snapped window that is dragged gets its normal size back —
    kernel/src/wm.rs:1704-1711 [handle_mouse_move, unsnap] *)
Definition unsnapped (w : Window) : Window :=
  match w_state w with
  | Maximized | SnappedLeft | SnappedRight =>
      let '(_, _, pw, ph) := normal_geom w in
      set_saved None (set_prev Normal (set_w_state Normal (set_geom (w_x w, w_y w, pw, ph) w)))
  | _ => w
  end.

(** kernel/src/wm.rs:1729-1737 [handle_mouse_move, new_preview] *)
Definition preview_of (w : Window) : SnapPreview :=
  if (w_y w <=? WORK_AREA_TOP + EDGE_SNAP_THRESHOLD)%Z then PreviewMaximized
  else if (w_x w <=? EDGE_SNAP_THRESHOLD)%Z then PreviewLeft
  else if (screen_w - EDGE_SNAP_THRESHOLD <=? w_x w + w_width w)%Z then PreviewRight
  else PreviewNone.

(** kernel/src/wm.rs:1701-1747 [handle_mouse_move, dragging] *)
Definition move_dragging (id ox oy mx my : Z) : M unit :=
  m ← in_wm get;
  match find_window id m with
  | None => mret tt
  | Some (i, w0) =>
      let w := unsnapped w0 in
      x ← unwrap (clamp (-100) (screen_w - 50) (mx - ox));
      y ← unwrap (clamp WORK_AREA_TOP (screen_h - 30) (my - oy));
      let w' := keep_normal (set_geom (x, y, w_width w, w_height w) w) in
      mark_motion (geom w) (x, y, w_width w, w_height w)%Z;;
      in_wm (replace_window i w');;
      m ← in_wm get;
      if decide (snap_preview m = preview_of w') then mret tt
      else
        in_wm (put (with_preview (preview_of w') m));;
        in_wm (mark_damage 0 WORK_AREA_TOP screen_w (wrap 32 (screen_h - (WORK_AREA_TOP + DOCK_HEIGHT + 20))))
  end;;
  set_cursor_type CursorHand.

(** kernel/src/wm.rs:1751-1768 [handle_mouse_move, top bar] *)
Definition hover_top_bar (mx : Z) : M unit :=
  m ← in_wm get;
  let tab := (if within 102 mx (screen_w - 210) then
                let i := Z.to_nat ((mx - 102) / 92) in
                if (i <? length (windows m))%nat then Some i else None
              else None) in
  (if decide (hovered_dock_tab m = tab) then mret tt
   else in_wm (put (with_dock_tab tab m));; in_wm (mark_top_bar_damage screen_w));;
  set_cursor_type (if (mx <=? 92)%Z || bool_decide (is_Some tab) then CursorHand else CursorDefault).

Definition mark_title (h : option HoverTarget) : comp WindowManager WmError unit :=
  m ← get;
  match t ← h; find_window (h_window t) m with
  | Some (_, w) => mark_damage (w_x w) (w_y w) (w_width w) 20
  | None => mret tt
  end.

(** kernel/src/wm.rs:1774-1922 [handle_mouse_move, hover] *)
Definition hover_windows (mx my : Z) : M unit :=
  m ← in_wm get;
  let r := snd <$> topmost (λ w, hover_zone w mx my) (windows m) in
  let hovered := fst <$> r in
  (if decide (hovered_target m = hovered) then mret tt
   else in_wm (mark_title (hovered_target m));; in_wm (mark_title hovered));;
  in_wm (modify (with_hovered hovered));;
  set_cursor_type (default CursorDefault (snd <$> r)).

(** kernel/src/wm.rs:1601-1923 [handle_mouse_move] *)
Definition handle_mouse_move (mx my : Z) : M unit :=
  m ← in_wm get;
  match resizing_window m, dragging_window m with
  | Some r, _ => move_resizing r mx my
  | None, Some (id, ox, oy) => move_dragging id ox oy mx my
  | None, None =>
      if (my <? DOCK_HEIGHT)%Z then hover_top_bar mx
      else
        (if bool_decide (is_Some (hovered_dock_tab m)) then
           in_wm (put (with_dock_tab None m));; in_wm (mark_top_bar_damage screen_w)
         else mret tt);;
        hover_windows mx my
  end.
(** ** Presenting *)

(** kernel/src/surface.rs:117-153 [present_surface_for_pid] *)
Definition present_surface_for_pid (pid sid x y wd ht : Z) : comp Desktop string unit :=
  '(cx, cy, cw, ch) ← in_kernel (in_surfaces (present_rect pid sid x y wd ht));
  m ← in_wm get;
  match list_find (λ w, w_surface w = sid ∧ w_owner w = pid) (windows m) with
  | None => mret tt
  | Some (_, w) =>
      win_x ← unwrap (fits_signed 32 (w_x w + to_signed 32 cx));
      win_y ← unwrap (fits_signed 32 (w_y w + 20 + to_signed 32 cy));
      t ← unwrap (add_bounds win_x win_y cw ch (damage_tracker m));
      in_wm (put (with_damage t m))
  end.

(** The regions to draw; the drawing is left out — kernel/src/wm.rs:976-997 [composite_desktop] *)
Definition composite_desktop : M (list DamageRegion) :=
  m ← in_wm get;
  in_wm (put (with_pending None m));;
  match id ← pending_resize_render m; find_window id m with
  | Some (_, w) => rerender_app_surface w;; in_wm (mark_whole w)
  | None => mret tt
  end;;
  m ← in_wm get;
  '(regions, t) ← unwrap (take_regions screen_w screen_h (damage_tracker m));
  in_wm (put (with_damage t m));;
  mret regions.

(** kernel/src/wm.rs:2018-2018 [FRAME_INTERVAL_TICKS] *)
Definition FRAME_INTERVAL_TICKS : Z := 16.

(** One round in graphics mode: the regions drawn, if it was time, and the tick of
    the last frame — kernel/src/wm.rs:2027-2044 [compositor_thread, loop body] *)
Definition compositor_round (last_render_tick : Z) : M (option (list DamageRegion) * Z) :=
  d ← get;
  let now := k_tick (d_kernel d) in
  if (FRAME_INTERVAL_TICKS <=? saturating_sub now last_render_tick)%Z && is_damaged (damage_tracker (d_wm d))
  then rs ← composite_desktop; mret (Some rs, now)
  else mret (None, last_render_tick).

(** ** Requests to the compositor *)

(** spark-abi/src/compositor.rs:6-12 [COMP_OP_CREATE_SURFACE, ...] *)
Definition COMP_OP_CREATE_SURFACE : Z := 1.
Definition COMP_OP_PRESENT_SURFACE : Z := 2.
Definition COMP_OP_DESTROY_SURFACE : Z := 3.
Definition COMP_OP_CREATE_WINDOW : Z := 4.
Definition COMP_OP_DESTROY_WINDOW : Z := 5.
Definition COMP_OP_MOVE_WINDOW : Z := 6.
Definition COMP_OP_FOCUS_WINDOW : Z := 7.

(** spark-abi/src/compositor.rs:16-29 [CompositorRequest] *)
Record CompositorRequest := mkCompRequest {
  cq_opcode : Z;
  cq_client_pid : Z;
  cq_surface_id : Z;
  cq_window_id : Z;
  cq_width : Z;
  cq_height : Z;
  cq_x : Z;
  cq_y : Z;
  cq_damage : Z * Z * Z * Z;
}.

(** spark-abi/src/compositor.rs:84-90 [CompositorResponse] *)
Record CompositorResponse := mkCompResponse {
  cp_status : Z;
  cp_surface_id : Z;
  cp_window_id : Z;
  cp_shmem_vaddr : Z;
  cp_shmem_size : Z;
}.
(** spark-abi/src/compositor.rs:94-121 [ok_surface, ok_window, err] *)
Definition ok_surface (id vaddr size : Z) : CompositorResponse := mkCompResponse 0 id 0 vaddr size.
Definition ok_window (id : Z) : CompositorResponse := mkCompResponse 0 0 id 0 0.
Definition comp_err (e : Z) : CompositorResponse := mkCompResponse e 0 0 0 0.

Definition respond {E A} (m : comp Desktop E A) (f : A → CompositorResponse) (e : Z)
  : comp Desktop Empty_set CompositorResponse :=
  r ← attempt m; mret (match r with inr a => f a | inl _ => comp_err e end).

(** kernel/src/wm.rs:2061-2114 [dispatch_compositor_request] *)
Definition dispatch_compositor_request (q : CompositorRequest) : comp Desktop Empty_set CompositorResponse :=
  let op := cq_opcode q in
  let pid := cq_client_pid q in
  let '(dx, dy, dw, dh) := cq_damage q in
  if (op =? COMP_OP_CREATE_SURFACE)%Z then
    respond (in_kernel (in_surfaces (create_surface_for_pid pid (cq_width q) (cq_height q))))
      (λ sid, ok_surface (wrap 32 sid) USER_SURFACE_BASE (cq_width q * cq_height q * 4)) 12
  else if (op =? COMP_OP_PRESENT_SURFACE)%Z then
    r ← attempt (present_surface_for_pid pid (cq_surface_id q) dx dy dw dh);
    match r with
    | inl _ => mret (comp_err 22)
    | inr _ =>
        ignore (in_wm (mark_window_damage (to_signed 32 dx, to_signed 32 dy, dw, dh)));;
        mret (ok_surface (cq_surface_id q) 0 0)
    end
  else if (op =? COMP_OP_DESTROY_SURFACE)%Z then
    respond (in_kernel (in_surfaces (destroy_surface_for_pid pid (cq_surface_id q))))
      (λ _, ok_surface (cq_surface_id q) 0 0) 22
  else if (op =? COMP_OP_CREATE_WINDOW)%Z then
    respond (create_window pid (cq_surface_id q) (cq_x q) (cq_y q) (cq_width q) (cq_height q))
      (λ id, ok_window (wrap 32 id)) 12
  else if (op =? COMP_OP_DESTROY_WINDOW)%Z then
    ignore (destroy_window pid (cq_window_id q));; mret (ok_window (cq_window_id q))
  else if (op =? COMP_OP_MOVE_WINDOW)%Z then
    ignore (in_wm (move_window screen_w screen_h pid (cq_window_id q) (cq_x q) (cq_y q)));;
    mret (ok_window (cq_window_id q))
  else if (op =? COMP_OP_FOCUS_WINDOW)%Z then
    in_wm (modify (with_focus (Some (cq_window_id q))));; mret (ok_window (cq_window_id q))
  else mret (comp_err 38).

(** ** Routing of input *)

(** [self.windows.iter().find(|w| w.window_id == id)], dropping the position. *)
Definition window_of (id : Z) (m : WindowManager) : option Window := snd <$> find_window id m.

Definition deliver (pid : Z) (ev : InputEvent) : M unit :=
  modify (λ d, with_inputs (deliver_event_to_pid pid ev (d_inputs d)) d).

Definition mouse_event (ty button x y tick : Z) : InputEvent := mkEvent ty 0 0 button 0 x y tick.

(** The neighbourhood of the pointer — kernel/src/input.rs:196-196 [route_mouse_down, damage] *)
Definition mark_pointer (cx cy : Z) : comp WindowManager WmError unit :=
  mark_damage ((cx - 4) `max` (- 2 ^ 31)) ((cy - 4) `max` (- 2 ^ 31)) 28 28.

(** The point in the window's own coordinates —
    kernel/src/input.rs:204-223 [route_mouse_down, local] *)
Definition local_point (w : Window) (surfaces : list SurfaceInfo) (cx cy : Z) : option (Z * Z) :=
  let '(sw, sh) := match list_find (λ s, sf_id s = w_surface w) surfaces with
                   | Some (_, s) => (sf_width s, sf_height s)
                   | None => (w_width w, w_height w)
                   end in
  if decide (w_state w = Fullscreen) then
    x ← fits_signed 32 (cx - ((screen_w - to_signed 32 sw) `quot` 2));
    y ← fits_signed 32 (cy - ((screen_h - to_signed 32 sh) `quot` 2));
    Some (x, y)
  else
    top ← fits_signed 32 (w_y w + 20);
    x ← fits_signed 32 (cx - w_x w);
    y ← fits_signed 32 (cy - top);
    Some (x, y).

(** Where the click goes: an application starts, or the window's process is told.
    What the applications of the kernel and the desktop do then is left out —
    kernel/src/input.rs:192-238 [route_mouse_down, delivery] *)
Definition route_mouse_down (cx cy : Z) : M (option Z * option (Z * Z)) :=
  in_wm (mark_pointer cx cy);;
  target ← handle_mouse_down cx cy;
  m ← in_wm get;
  in_wm (put (with_spawn None m));;
  match target with
  | None => mret (pending_spawn_app m, None)
  | Some (id, owner) =>
      d ← get;
      '(lx, ly) ← unwrap (match window_of id (d_wm d) with
                          | Some w => local_point w (k_surfaces (d_kernel d)) cx cy
                          | None => Some (cx, cy)
                          end);
      deliver owner (mouse_event EvMouseButtonDown 1 lx ly (k_tick (d_kernel d)));;
      mret (None, Some (id, owner))
  end.

(** kernel/src/input.rs:400-420 [route_mouse_up] *)
Definition route_mouse_up (cx cy : Z) : M unit :=
  in_wm (mark_pointer cx cy);;
  r ← handle_mouse_up;
  match r with
  | None => mret tt
  | Some (_, owner) => d ← get; deliver owner (mouse_event EvMouseButtonUp 1 0 0 (k_tick (d_kernel d)))
  end.

(** kernel/src/input.rs:423-454 [route_mouse_move] *)
Definition route_mouse_move (cx cy last_x last_y : Z) : M unit :=
  in_wm (mark_pointer last_x last_y);;
  in_wm (mark_pointer cx cy);;
  handle_mouse_move cx cy;;
  d ← get;
  let m := d_wm d in
  if bool_decide (is_Some (resizing_window m)) || bool_decide (is_Some (dragging_window m)) then mret tt
  else match id ← hit_test cx cy m; window_of id m with
  | None => mret tt
  | Some w =>
      top ← unwrap (fits_signed 32 (w_y w + 20));
      lx ← unwrap (fits_signed 32 (cx - w_x w));
      ly ← unwrap (fits_signed 32 (cy - top));
      if (0 <=? ly)%Z then deliver (w_owner w) (mouse_event EvMouseMove 0 lx ly (k_tick (d_kernel d))) else mret tt
  end.

(** What a key does: it is used up, starts an application (the terminal, for the
    shortcut), closes the focused window, or goes to its process. *)
Variant key_outcome :=
| KeyUsed (owner : option Z)
| KeyStarts (app : Z)
| KeyStartsTerminal
| KeyCloses (owner : Z)
| KeyTo (owner window : Z).

(** The launcher, when it is open: the keys Up, Down and Enter —
    kernel/src/input.rs:508-526 [dispatch_keyboard_event, launcher] *)
Definition launcher_key (code : Z) : M (option key_outcome) :=
  m ← in_wm get;
  if (code =? 72)%Z then in_wm launcher_nav_up;; mret (Some (KeyUsed None))
  else if (code =? 80)%Z then in_wm launcher_nav_down;; mret (Some (KeyUsed None))
  else if (code =? 28)%Z then
    in_wm (put (with_launcher false m));;
    in_wm mark_launcher_damage;;
    mret (Some (match selected_app (launcher_open m) (launcher_selected m) with
                | Some app => KeyStarts app
                | None => KeyUsed None
                end))
  else mret None.

(** The focused window gets the key — kernel/src/input.rs:563-590 [dispatch_keyboard_event, delivery] *)
Definition focused_key (code : Z) (pressed : bool) (mods : Z) (alt : bool) : M key_outcome :=
  d ← get;
  let m := d_wm d in
  match id ← focused_window m; w ← window_of id m; Some (id, w) with
  | None => mret (KeyUsed None)
  | Some (id, w) =>
      if pressed && (code =? 62)%Z && alt then
        ignore (request_close_window (w_owner w) id);; mret (KeyCloses (w_owner w))
      else
        deliver (w_owner w) (mkEvent (if pressed then EvKeyDown else EvKeyUp) mods code 0 0 0 0 (k_tick (d_kernel d)));;
        mret (KeyTo (w_owner w) id)
  end.

(** The modifier keys held are arguments; what the applications of the kernel do
    with a key is left out — kernel/src/input.rs:470-590 [dispatch_keyboard_event] *)
Definition dispatch_keyboard_event (held_ctrl held_alt held_shift : bool) (code : Z) (pressed : bool) (mods : Z)
  : M key_outcome :=
  let ctrl := negb (Z.land mods MOD_CTRL =? 0)%Z || held_ctrl in
  let alt := negb (Z.land mods MOD_ALT =? 0)%Z || held_alt in
  let shift := negb (Z.land mods MOD_SHIFT =? 0)%Z || held_shift in
  m ← in_wm get;
  if (negb alt || (negb pressed && (code =? 56)%Z)) && tab_active (alt_tab m) then
    r ← alt_tab_commit; m ← in_wm get; mret (KeyUsed (id ← r; owner_of id m))
  else if pressed && (code =? 1)%Z && tab_active (alt_tab m) then
    in_wm (alt_tab_cancel screen_w screen_h);; mret (KeyUsed None)
  else if pressed && (code =? 1)%Z && launcher_open m then
    in_wm (put (with_launcher false m));; in_wm mark_launcher_damage;; mret (KeyUsed None)
  else
    used ← (if pressed && launcher_open m then launcher_key code else mret None);
    match used with
    | Some r => mret r
    | None =>
        if pressed && (code =? 15)%Z && alt then
          in_wm (alt_tab_press screen_w screen_h shift);; mret (KeyUsed None)
        else if pressed && ((code =? 20)%Z && ctrl && alt || (code =? 59)%Z) then mret KeyStartsTerminal
        else if pressed && (code =? 1)%Z && ctrl then
          in_wm (modify (λ m, with_launcher (negb (launcher_open m)) m));;
          in_wm mark_launcher_damage;; mret (KeyUsed None)
        else focused_key code pressed mods alt
    end.
End desktop.
