(* ===== verification/WmProps.v ===== *)
(** * The window manager: properties

    Windows keep distinct numbers, one of them at most has the focus, and every
    one is on the list of recent use; a process changes its own windows only;
    clicks and keys reach the owner of the window they are meant for. *)
From S2P Require Import Prelude Bytes Text Disk Abi Cap FramePool Process WaitQueue Sched IoPorts Channel Ipc.
From S2P Require Import SyscallCap AddrSpace DmaRegion Surface ProcFs Vfs FdTable SecMem Syscall.
From S2P Require Import Damage Apps Permission Window Input Wm.

Implicit Types (m : WindowManager) (w : Window) (ws : list Window).

(** ** The invariant *)

Definition ids ws : list Z := w_id <$> ws.

(** What holds between the steps of an operation too. *)
Record wm_sound (m : WindowManager) : Prop := mkSound {
  s_distinct : NoDup (ids (windows m));
  s_fresh : ∀ w, w ∈ windows m → (w_id w < next_window_id m)%Z;
  s_open : ∀ w, w ∈ windows m → w_state w ≠ WinClosed ∧ prev_state w ≠ WinClosed;
  s_mru : mru_list m ≡ₚ ids (windows m);
}.

(** The focus is on a window, and only that window says so. *)
Record wm_ok (m : WindowManager) : Prop := mkWmOk {
  ok_sound : wm_sound m;
  ok_focus : ∀ f, focused_window m = Some f → f ∈ ids (windows m);
  ok_flag : ∀ w, w ∈ windows m → focused w = bool_decide (focused_window m = Some (w_id w));
}.

(** What others than a process see of their windows: everything but the focus. *)
Definition others (p : option Z) ws : list Window :=
  match p with
  | Some p => set_focused false <$> filter (λ w, w_owner w ≠ p) ws
  | None => []
  end.

(** A step of the manager made for [p] (for the user, when there is none). *)
Definition steps (p : option Z) (m m' : WindowManager) : Prop :=
  wm_ok m → wm_ok m' ∧ others p (windows m') = others p (windows m).

#[export] Instance steps_preorder p : PreOrder (steps p).
Proof.
  split; [done|]. intros a b c Hab Hbc Ha. destruct (Hab Ha) as [Hb E1]. destruct (Hbc Hb) as [Hc E2].
  split; [done|congruence].
Qed.

Lemma steps_user p m m' : steps p m m' → steps None m m'.
Proof. intros H Hm. by destruct (H Hm). Qed.

(** ** Damage *)

Definition redrawn (m m' : WindowManager) : Prop := ∃ t, m' = with_damage t m.

#[export] Instance redrawn_preorder : PreOrder redrawn.
Proof.
  split; [intros m; exists (damage_tracker m); by destruct m|].
  intros a b c [t ->] [t' ->]. by exists t'.
Qed.

Lemma redrawn_steps p m m' : redrawn m m' → steps p m m'.
Proof. intros [t ->] [Hs Hf Hg]. split; [|done]. split; [|done..]. by destruct Hs. Qed.

(** A computation that draws, and does not fail. *)
Definition draws {A} (c : comp WindowManager WmError A) : Prop :=
  ∀ m, wp c (λ r m', redrawn m m' ∧ ∀ e, r ≠ Err e) m.

Lemma draws_ret {A} (a : A) : draws (mret a).
Proof. by intros m. Qed.
Lemma draws_bind {A B} (c : comp WindowManager WmError A) (f : A → comp WindowManager WmError B) :
  draws c → (∀ a, draws (f a)) → draws (c ≫= f).
Proof.
  intros Hc Hf m. apply wp_bind. eapply wp_mono; [apply Hc|]. intros [a|e|] m' [Hr He]; [|by destruct (He e)|done].
  eapply wp_mono; [apply Hf|]. intros r m2 [Hr2 He2]. split; [by etrans|done].
Qed.
Lemma draws_get {B} (f : WindowManager → comp WindowManager WmError B) : (∀ a, draws (f a)) → draws (get ≫= f).
Proof. intros Hf. apply draws_bind; [by intros m|done]. Qed.
Lemma draws_unwrap {A B} (o : option A) (f : A → comp WindowManager WmError B) :
  (∀ a, draws (f a)) → draws (unwrap o ≫= f).
Proof. intros Hf. apply draws_bind; [by intros m; destruct o|done]. Qed.
Lemma draws_mark x y wd ht : draws (mark_damage x y wd ht).
Proof. intros m. unfold mark_damage. wp_steps; split; try done. by eexists. Qed.
Lemma draws_full sw sh : draws (mark_full_damage sw sh).
Proof. intros m. unfold mark_full_damage. wp_steps; split; try done. by eexists. Qed.

Ltac draw := intros; repeat (first [done | apply draws_mark | apply draws_full | apply draws_ret
  | apply draws_unwrap; intros | apply draws_get; intros | apply draws_bind; intros]).

Lemma draws_window g : draws (mark_window_damage g).
Proof. destruct g as [[[x y] wd] ht]. unfold mark_window_damage. draw. Qed.
Lemma draws_top_bar sw : draws (mark_top_bar_damage sw).
Proof. unfold mark_top_bar_damage. draw. Qed.
Lemma draws_launcher : draws mark_launcher_damage.
Proof. unfold mark_launcher_damage. draw. Qed.
Lemma draws_decoration w : draws (mark_decoration w).
Proof. unfold mark_decoration. draw. Qed.
Lemma draws_switcher sw sh : draws (mark_switcher sw sh).
Proof. unfold mark_switcher. draw. Qed.
Lemma draws_whole w : draws (mark_whole w).
Proof. unfold mark_whole. draw. Qed.
Lemma draws_title h : draws (mark_title h).
Proof. unfold mark_title. apply draws_get. intros m. case_match; [|draw]. case_match. draw. Qed.
Lemma draws_pointer x y : draws (mark_pointer x y).
Proof. unfold mark_pointer. draw. Qed.
Lemma draws_each {A} (l : list A) f : (∀ a, draws (f a)) → draws (for_each l f).
Proof. intros Hf. induction l as [|a l IH]; cbn; [apply draws_ret|]. apply draws_bind; [done|]. by intros []. Qed.

Create HintDb draws.
#[export] Hint Resolve draws_ret draws_mark draws_full draws_window draws_top_bar draws_launcher draws_decoration
  draws_switcher draws_whole draws_title draws_pointer : draws.

Lemma wp_draws {A B} (c : comp WindowManager WmError A) (k : A → comp WindowManager WmError B) Q m :
  draws c → (∀ m', Q Panic m') → (∀ a t, wp (k a) Q (with_damage t m)) → wp (c ≫= k) Q m.
Proof.
  intros Hc Hp Hk. apply wp_bind. eapply wp_mono; [apply Hc|].
  intros [a|e|] m' [[t ->] He]; [apply Hk|by destruct (He e)|apply Hp].
Qed.
Ltac drawing := apply wp_draws; [eauto with draws|by intros ? []|intros ? ?t].

(** ** Lists of windows *)

(** A window of the process a step is made for. *)
Definition mine (p : option Z) w : Prop := match p with Some p => w_owner w = p | None => True end.

Lemma find_window_Some id m i w : find_window id m = Some (i, w) → windows m !! i = Some w ∧ w_id w = id.
Proof. by intros (? & ? & _)%list_find_Some. Qed.
Lemma find_window_None id m : find_window id m = None → id ∉ ids (windows m).
Proof.
  intros Hf%list_find_None (w & -> & Hw)%list_elem_of_fmap. rewrite Forall_forall in Hf. by eapply Hf.
Qed.

Lemma others_app p a b : others p (a ++ b) = others p a ++ others p b.
Proof. destruct p as [p|]; [|done]. cbn. by rewrite filter_app, fmap_app. Qed.
Lemma others_mine p w : mine p w → others p [w] = [].
Proof. destruct p as [p|]; [|done]. cbn [others mine]. intros H. rewrite filter_cons_False; [done|]. by intros []. Qed.
Lemma others_split p ws i w : ws !! i = Some w →
  others p ws = others p (take i ws) ++ others p [w] ++ others p (drop (S i) ws).
Proof. intros Hi. rewrite <- !others_app. f_equal. symmetry. by apply take_drop_middle. Qed.
Lemma others_delete p ws i w : ws !! i = Some w → mine p w → others p (delete i ws) = others p ws.
Proof.
  intros Hi Hw. rewrite (others_split p ws i w Hi), (others_mine p w Hw), delete_take_drop, others_app. done.
Qed.
Lemma others_insert p ws i w w' : ws !! i = Some w → mine p w → mine p w' → others p (<[i := w']> ws) = others p ws.
Proof.
  intros Hi Hw Hw'. assert (i < length ws) as Hl by by eapply lookup_lt_Some.
  rewrite (others_split p ws i w Hi), (others_mine p w Hw), insert_take_drop by done.
  change (w' :: ?l) with ([w'] ++ l). by rewrite !others_app, (others_mine p w' Hw').
Qed.
Lemma others_refocus p g ws : others p (map (λ w, set_focused (g w) w) ws) = others p ws.
Proof.
  destruct p as [p|]; [|done]. cbn [others]. induction ws as [|w ws IH]; [done|]. cbn [map].
  rewrite !filter_cons. cbn [w_owner set_focused]. case_decide; [|done]. rewrite !fmap_cons. by f_equal.
Qed.

Lemma ids_refocus g ws : ids (map (λ w, set_focused (g w) w) ws) = ids ws.
Proof. unfold ids. induction ws as [|w ws IH]; [done|]. cbn. by f_equal. Qed.
Lemma ids_insert ws i w w' : ws !! i = Some w → w_id w' = w_id w → ids (<[i := w']> ws) = ids ws.
Proof.
  intros Hi He. unfold ids. rewrite list_fmap_insert, He. apply list_insert_id. by rewrite list_lookup_fmap, Hi.
Qed.
Lemma ids_delete ws i w : ws !! i = Some w → w_id w :: ids (delete i ws) ≡ₚ ids ws.
Proof. intros Hi. unfold ids. rewrite <- fmap_cons. by rewrite <- delete_Permutation. Qed.
Lemma elem_of_refocus g ws w : w ∈ map (λ w, set_focused (g w) w) ws → ∃ w0, w0 ∈ ws ∧ w = set_focused (g w0) w0.
Proof. intros (w0 & -> & ?)%list_elem_of_fmap. by exists w0. Qed.
Lemma elem_of_inserted ws i w' w : w ∈ <[i := w']> ws → w = w' ∨ w ∈ ws.
Proof.
  intros (j & Hj)%list_elem_of_lookup_1. apply list_lookup_insert_cases in Hj as [[_ ->]|[_ Hj]]; [by left|right].
  by eapply list_elem_of_lookup_2.
Qed.
Lemma elem_of_deleted ws i w : w ∈ delete i ws → w ∈ ws.
Proof. rewrite delete_take_drop. intros [?%elem_of_taken|?%elem_of_dropped]%elem_of_app; done. Qed.

(** Two windows with the same number are the same. *)
Lemma same_window ws w w' : NoDup (ids ws) → w ∈ ws → w' ∈ ws → w_id w = w_id w' → w = w'.
Proof.
  intros Hn [i Hi]%list_elem_of_lookup_1 [j Hj]%list_elem_of_lookup_1 He.
  assert (i = j) as -> by (apply (NoDup_lookup (ids ws) i j (w_id w)); [done|..]; unfold ids; rewrite list_lookup_fmap, ?Hi, ?Hj; cbn; congruence).
  congruence.
Qed.

Lemma find_window_unique id i w w' m : wm_ok m → find_window id m = Some (i, w) → w' ∈ windows m → w_id w' = id → w' = w.
Proof.
  intros Hm [Hi Hid]%find_window_Some Hw He. apply (same_window (windows m)); [apply Hm|done| |congruence].
  by eapply list_elem_of_lookup_2.
Qed.
Lemma find_window_elem id w m : w ∈ windows m → w_id w = id → is_Some (find_window id m).
Proof. intros Hw He. destruct (find_window id m) eqn:E; [done|]. apply find_window_None in E. destruct E. rewrite <- He. by apply list_elem_of_fmap_2. Qed.

(** ** Recent use *)

Lemma touch_spec id m :
  NoDup (ids (windows m)) → (∀ w, w ∈ windows m → (w_id w < next_window_id m)%Z) →
  (∀ w, w ∈ windows m → w_state w ≠ WinClosed ∧ prev_state w ≠ WinClosed) →
  NoDup (mru_list m) → (∀ i, i ∈ ids (windows m) → i = id ∨ i ∈ mru_list m) → id ∈ ids (windows m) →
  ∃ l, touch_mru id m = (Ok tt, with_mru l m) ∧ wm_sound (with_mru l m).
Proof.
  intros Hn Hf Ho Hm Hall Hid. eexists. split; [reflexivity|]. split; [done..|]. cbn [mru_list windows with_mru].
  apply NoDup_Permutation.
  - apply NoDup_filter. constructor; [|by apply NoDup_filter]. intros [? _]%list_elem_of_filter. done.
  - done.
  - intros i. rewrite list_elem_of_filter, elem_of_cons, list_elem_of_filter, Exists_exists. split.
    + intros [(w & Hw & <- & _) _]. apply list_elem_of_fmap. by exists w.
    + intros Hi. pose proof Hi as (w & -> & Hw)%list_elem_of_fmap. split.
      * exists w. split_and!; [done..|]. by apply Ho.
      * destruct (decide (w_id w = id)) as [->|]; [by left|right]. split; [done|]. destruct (Hall _ Hi); done.
Qed.

Lemma touch_sound id m : wm_sound m → id ∈ ids (windows m) →
  ∃ l, touch_mru id m = (Ok tt, with_mru l m) ∧ wm_sound (with_mru l m).
Proof.
  intros [Hn Hf Ho Hm] Hid. apply touch_spec; try done; [by rewrite Hm|]. intros i Hi. right. by rewrite Hm.
Qed.

(** An operation on the list of recent use keeps the rest. *)
Lemma ok_mru l m : wm_ok m → wm_sound (with_mru l m) → wm_ok (with_mru l m).
Proof. intros [_ ? ?] ?. by split. Qed.

Lemma touch_steps p id m : wm_ok m → id ∈ ids (windows m) →
  wp (touch_mru id) (λ r m', r = Ok tt ∧ wm_ok m' ∧ others p (windows m') = others p (windows m) ∧
    focused_window m' = focused_window m ∧ windows m' = windows m) m.
Proof.
  intros Hm Hid. destruct (touch_sound id m (ok_sound m Hm) Hid) as (l & Hr & Hs).
  eapply wp_returns; [exact Hr|]. split_and!; try done. by apply ok_mru.
Qed.

Lemma clean_sound m : wm_sound m → wp clean_mru (λ r m', r = Ok tt ∧ m' = m) m.
Proof.
  intros [Hn Hf Ho Hm]. unfold clean_mru. wp_step. split; [done|].
  rewrite filter_all; [by destruct m|]. intros i Hi. rewrite Hm in Hi.
  apply list_elem_of_fmap in Hi as (w & -> & Hw). apply Exists_exists. exists w. split_and!; [done..|]. by apply Ho.
Qed.

(** ** Focus and stacking *)

Section manager.
Context (screen_w screen_h : Z).

(** A step that ends well or panics; an error changes nothing. *)
Definition does (p : option Z) (c : comp WindowManager WmError unit) m : Prop :=
  wp c (λ r m', r ≠ Panic → wm_ok m' ∧ others p (windows m') = others p (windows m) ∧ (∀ e, r = Err e → m' = m)) m.

Lemma topmost_Some {A} (f : Window → option A) ws w a : topmost f ws = Some (w, a) →
  ∃ l r, ws = l ++ w :: r ∧ f w = Some a ∧ Forall (λ w, f w = None) r.
Proof.
  induction ws as [|w0 ws IH]; [done|]. cbn. destruct (topmost f ws) as [r|] eqn:E.
  - intros [= ->]. destruct (IH eq_refl) as (l & r & -> & ? & ?). by exists (w0 :: l), r.
  - intros (b & Hb & [= <- <-])%fmap_Some. exists [], ws. split_and!; [done..|]. clear IH Hb.
    induction ws as [|w1 ws IH]; [done|]. cbn in E. destruct (topmost f ws); [done|]. constructor; [by destruct (f w1)|by apply IH].
Qed.
Lemma topmost_None {A} (f : Window → option A) ws : topmost f ws = None → Forall (λ w, f w = None) ws.
Proof.
  induction ws as [|w ws IH]; [done|]. cbn. destruct (topmost f ws); [done|]. intros H.
  constructor; [by destruct (f w)|by apply IH].
Qed.

Lemma sound_refocus g f m : wm_sound m → wm_sound (with_focus f (with_windows (map (λ w, set_focused (g w) w) (windows m)) m)).
Proof.
  intros [Hn Hf Ho Hm]. split; cbn [windows next_window_id mru_list with_focus with_windows]; rewrite ?ids_refocus; try done.
  - by intros w (w0 & ? & ->)%elem_of_refocus; apply (Hf w0).
  - by intros w (w0 & ? & ->)%elem_of_refocus; apply (Ho w0).
Qed.

Lemma ok_refocus f m : wm_sound m → (∀ i, f = Some i → i ∈ ids (windows m)) →
  wm_ok (with_focus f (with_windows (map (λ w, set_focused (bool_decide (Some (w_id w) = f)) w) (windows m)) m)).
Proof.
  intros Hs Hf. split; [by apply sound_refocus| |]; cbn [windows focused_window with_focus with_windows].
  - intros i Hi. rewrite ids_refocus. by apply Hf.
  - intros w (w0 & _ & ->)%elem_of_refocus. cbn. apply bool_decide_ext. by split.
Qed.

Lemma focus_transfer_spec p m : wm_sound m →
  wp transfer_focus (λ r m', r ≠ Panic → r = Ok tt ∧ wm_ok m' ∧ others p (windows m') = others p (windows m)) m.
Proof.
  intros Hs. unfold transfer_focus. wp_step. wp_step. set (f := fmap _ _). set (ws := map _ _). cbv zeta.
  wp_step. wp_step.
  assert (wm_ok (with_focus f (with_windows ws m))) as Hok.
  { apply ok_refocus; [done|]. unfold f. intros i (r & Hr & ->)%fmap_Some. destruct r as [w []].
    apply topmost_Some in Hr as (l & r & -> & _). apply list_elem_of_fmap. exists w. split; [done|]. set_solver. }
  assert (others p ws = others p (windows m)) as Ho by apply others_refocus.
  wp_step. eapply wp_mono with (P := λ r m', redrawn (with_focus f (with_windows ws m)) m' ∧ ∀ e, r ≠ Err e).
  { case_match; [apply draws_window|]. apply (draws_ret tt). }
  intros [[]|e|] m1 [Hr He]; [|by destruct (He e)|done].
  destruct (redrawn_steps p _ _ Hr Hok) as [Hok1 Ho1]. cbn [windows with_focus with_windows] in Ho1.
  assert (focused_window m1 = f) as Hf1 by (by destruct Hr as [t ->]).
  clearbody ws f. destruct f as [i|]; [|wp_step; intros _; split_and!; [done..|congruence]].
  eapply wp_mono; [apply (touch_steps p); [done|by apply (ok_focus _ Hok1)]|].
  intros r m2 (-> & ? & ? & _) _. split_and!; [done..|congruence].
Qed.

Lemma transfer_windows m :
  wp transfer_focus (λ r m', r ≠ Panic → r = Ok tt ∧ set_focused false <$> windows m' = set_focused false <$> windows m) m.
Proof.
  unfold transfer_focus. wp_step. wp_step. set (f := fmap _ _). set (ws := map _ _). cbv zeta. wp_step. wp_step.
  assert (set_focused false <$> ws = set_focused false <$> windows m) as Hw.
  { unfold ws. clear ws. clearbody f. induction (windows m) as [|w l IH]; [done|]. cbn. by f_equal. }
  clearbody ws f. wp_step. eapply wp_mono with (P := λ r m', redrawn (with_focus f (with_windows ws m)) m' ∧ ∀ e, r ≠ Err e).
  { case_match; [apply draws_window|]. apply (draws_ret tt). }
  intros [[]|e|] m1 [[t ->] He]; [|by destruct (He e)|done]. destruct f; [|by wp_step].
  unfold touch_mru, clean_mru. wp_step. wp_step. by wp_step.
Qed.

Lemma unfocus_spec m :
  wp unfocus_all (λ r m', r ≠ Panic → r = Ok tt ∧
    ∃ t, m' = with_windows (map (set_focused false) (windows m)) (with_damage t m)) m.
Proof.
  unfold unfocus_all. wp_step. wp_step. wp_step.
  eapply wp_mono; [apply draws_each; intros w; case_match; [apply draws_decoration|apply draws_ret]|].
  intros [[]|e|] m1 [[t ->] He]; [|by destruct (He e)|done]. wp_step. intros _. split; [done|]. by exists t.
Qed.

(** The windows after one of them is raised. *)
Lemma raised_ok p id i w t m : wm_ok m → windows m !! i = Some w → w_id w = id → mine p w →
  let ws := map (set_focused false) (delete i (windows m)) ++ [set_focused true w] in
  let m' := with_windows ws (with_focus (Some id) (with_damage t m)) in
  wm_ok m' ∧ id ∈ ids ws ∧ others p ws = others p (windows m).
Proof.
  intros [[Hn Hf Ho Hmru] Hfoc Hflag] Hi Hid Hw ws m'.
  assert (ids ws ≡ₚ ids (windows m)) as Hids.
  { unfold ws, ids. rewrite fmap_app. cbn. rewrite <- (ids_delete _ _ _ Hi), (Permutation_app_comm _ [w_id w]).
    cbn. constructor. pose proof (ids_refocus (λ _, false) (delete i (windows m))) as E.
    exact (eq_ind_r (λ l, l ≡ₚ _) (reflexivity _) E). }
  assert (∀ x, x ∈ ws → ∃ y b, y ∈ windows m ∧ x = set_focused b y ∧ b = bool_decide (w_id y = id)) as Hin.
  { intros x [Hx| ->%list_elem_of_singleton]%elem_of_app.
    - apply elem_of_refocus in Hx as (y & Hy & ->). exists y, false. split_and!; [by eapply elem_of_deleted|done|].
      symmetry. apply bool_decide_eq_false. intros Heq. pose proof Hn as Hn'.
      rewrite <- (ids_delete _ _ _ Hi) in Hn'. apply NoDup_cons in Hn' as [Hn' _]. apply Hn'. rewrite Hid, <- Heq.
      apply list_elem_of_fmap. by exists y.
    - exists w, true. split_and!; [by eapply list_elem_of_lookup_2|done|]. symmetry. by apply bool_decide_eq_true. }
  assert (id ∈ ids ws) as Hidin.
  { rewrite Hids. apply list_elem_of_fmap. exists w. split; [done|]. by eapply list_elem_of_lookup_2. }
  split; [|split; [done|]].
  - split; [split|..]; cbn [m' windows next_window_id mru_list focused_window with_windows with_damage with_focus].
    + by rewrite Hids.
    + intros x (y & b & Hy & -> & _)%Hin. by apply (Hf y).
    + intros x (y & b & Hy & -> & _)%Hin. by apply (Ho y).
    + by rewrite Hmru, Hids.
    + by intros f [= <-].
    + intros x (y & b & Hy & -> & ->)%Hin. cbn. apply bool_decide_ext. split; congruence.
  - unfold ws. rewrite others_app, (others_mine p (set_focused true w)) by (by destruct p). rewrite app_nil_r.
    etrans; [apply (others_refocus p (λ _, false))|]. by eapply others_delete.
Qed.

(** Raising moves a window to the end of the list and gives it the focus. *)
Lemma raise_spec p id m : wm_ok m → (∀ i w, find_window id m = Some (i, w) → mine p w) →
  wp (raise_to_top_internal screen_w id) (λ r m', r ≠ Panic →
    wm_ok m' ∧ others p (windows m') = others p (windows m) ∧
    (r = Ok tt → focused_window m' = Some id ∧
       ∃ i w, find_window id m = Some (i, w) ∧ last (windows m') = Some (set_focused true w)) ∧
    (∀ e, r = Err e → e = WmNotFound ∧ m' = m ∧ id ∉ ids (windows m))) m.
Proof.
  intros Hm Hmine. unfold raise_to_top_internal. wp_step. wp_step.
  destruct (last (windows m)) as [top|] eqn:Hlast.
  2:{ wp_step. intros _. split_and!; [done..|]. intros e [= <-]. apply last_None in Hlast. rewrite Hlast.
      split_and!; [done..|]. by apply not_elem_of_nil. }
  case_match eqn:Htop.
  { apply andb_true_iff in Htop as [Ht Hf]. apply bool_decide_eq_true in Ht, Hf. wp_step. intros _.
    split_and!; [done..| |done]. intros _. split; [done|]. assert (top ∈ windows m) as Hin by (apply last_Some in Hlast as [l ->]; set_solver).
    destruct (find_window_elem id top m Hin Ht) as [[i w] Hw]. exists i, w. split; [done|].
    rewrite Hlast, <- (find_window_unique id i w top m Hm Hw Hin Ht). pose proof (ok_flag _ Hm top Hin) as Hfl.
    rewrite Hf, bool_decide_eq_true_2 in Hfl by congruence. destruct top. cbn in Hfl. by subst. }
  wp_step. wp_step.
  { intros _. split_and!; [done..|]. intros e [= <-]. split_and!; [done..|]. by apply find_window_None. }
  destruct a as [i w]. destruct (find_window_Some _ _ _ _ H) as [Hi Hid]. specialize (Hmine i w H).
  wp_step. wp_step. wp_step. eapply wp_mono; [apply unfocus_spec|].
  intros [[]|e|] m1 Hm1; [|by destruct Hm1|done]. destruct Hm1 as (_ & t & ->); [done|].
  wp_step. wp_step. wp_step. eapply wp_mono; [apply draws_window|].
  intros [[]|e|] m1 [Hr He]; [|by destruct (He e)|done]. clear He.
  wp_step. eapply wp_mono; [apply draws_top_bar|].
  intros [[]|e|] m2 [Hr2 He]; [|by destruct (He e)|done]. clear He. assert (redrawn (with_focus (Some id)
    (with_windows (map (set_focused false) (delete i (windows m))) (with_damage t (with_windows (delete i (windows m)) m)))) m2)
    as [t' ->] by by etrans. clear Hr Hr2. wp_step. wp_step.
  destruct (raised_ok p id i w t' m Hm Hi Hid Hmine) as (Hok & Hin & Ho).
  eapply wp_mono; [apply (touch_steps p); [exact Hok|exact Hin]|].
  intros r m4 (-> & Hok4 & Ho4 & Hf4 & Hw4) _. split; [done|]. split; [by rewrite Ho4|].
  split; [|done]. intros _. split; [by rewrite Hf4|]. rewrite Hw4. exists i, w. split; [done|apply last_snoc].
Qed.

(** ** One window changes *)

Lemma owned_spec pid id m (Q : outcome WmError (nat * Window) → WindowManager → Prop) :
  (find_window id m = None → Q (Err WmNotFound) m) →
  (∀ i w, find_window id m = Some (i, w) → w_owner w ≠ pid → Q (Err PermissionDenied) m) →
  (∀ i w, find_window id m = Some (i, w) → w_owner w = pid → Q (Ok (i, w)) m) →
  wp (owned_window pid id) Q m.
Proof.
  intros Hnone Hother Hmine. unfold owned_window. wp_step. wp_step. wp_step. wp_step; [by apply Hnone|].
  destruct a as [i w]. wp_step. wp_step; reflect; [by eapply Hother|]. wp_step. by apply Hmine.
Qed.

(** [w'] may take the place of [w]. *)
Definition same_kind w w' : Prop :=
  w_id w' = w_id w ∧ w_owner w' = w_owner w ∧
  (w_state w ≠ WinClosed ∧ prev_state w ≠ WinClosed → w_state w' ≠ WinClosed ∧ prev_state w' ≠ WinClosed).

Lemma replace_sound i w w' m : wm_sound m → windows m !! i = Some w → same_kind w w' →
  wm_sound (with_windows (<[i := w']> (windows m)) m).
Proof.
  intros [Hn Hf Ho Hm] Hi (Hid & Hown & Hst).
  assert (w ∈ windows m) as Hin by by eapply list_elem_of_lookup_2.
  split; cbn [windows next_window_id mru_list with_windows]; rewrite ?(ids_insert _ _ _ _ Hi Hid); try done.
  - intros x [->|Hx]%elem_of_inserted; [rewrite Hid|]; by apply Hf.
  - intros x [->|Hx]%elem_of_inserted; [apply Hst|]; by apply Ho.
Qed.
Lemma window_replace_ok p i w w' m : wm_ok m → windows m !! i = Some w → same_kind w w' → focused w' = focused w → mine p w →
  steps p m (with_windows (<[i := w']> (windows m)) m).
Proof.
  intros Hm Hi Hk Hfo Hw _. destruct Hm as [Hs Hf Hg]. pose proof Hk as (Hid & Hown & _).
  assert (w ∈ windows m) as Hin by by eapply list_elem_of_lookup_2. split; [split|].
  - by eapply replace_sound.
  - intros f Hfw. cbn [windows with_windows]. rewrite (ids_insert _ _ _ _ Hi Hid). by apply Hf.
  - intros x [->|Hx]%elem_of_inserted; [rewrite Hfo, Hid|]; by apply Hg.
  - eapply others_insert; [done..|]. destruct p; cbn in *; congruence.
Qed.

Lemma same_kind_geom g w : same_kind w (set_geom g w).
Proof. by destruct g as [[[? ?] ?] ?]. Qed.
Lemma same_kind_trans a b c : same_kind a b → same_kind b c → same_kind a c.
Proof. intros (? & ? & ?) (? & ? & ?). split_and!; [congruence..|auto]. Qed.
Lemma same_kind_keep w : same_kind w (keep_normal w).
Proof. unfold keep_normal. by case_decide. Qed.

(** What the operations do to a window leaves it the same kind of window. *)
Ltac kind := unfold same_kind in *; repeat case_decide; repeat case_match; simplify_eq/=; try done; naive_solver.

Lemma minimized_kind w : same_kind w (minimized w).
Proof. unfold minimized. case_decide; kind. Qed.
Lemma restored_kind w : same_kind w (restored screen_w screen_h w) ∧ focused (restored screen_w screen_h w) = focused w.
Proof.
  unfold restored. cbv zeta. set (w1 := if decide _ then _ else _).
  assert (same_kind w w1 ∧ focused w1 = focused w) as [H1 H2].
  { unfold w1. case_decide; [|by split]. split; [|done]. split_and!; [done..|]. cbn. naive_solver. }
  assert (w_state w ≠ WinClosed ∧ prev_state w ≠ WinClosed → w_state w1 ≠ WinClosed) as H3 by (intros H; by apply H1).
  cbn [w_state set_visible]. destruct (w_state w1) eqn:E; (split; [eapply same_kind_trans; [exact H1|]|]);
    try (unfold same_kind; cbn; rewrite ?E; naive_solver).
Qed.

(** Same kind, and the same focus. *)
Definition like w w' : Prop := same_kind w w' ∧ focused w' = focused w.
#[global] Instance like_preorder : PreOrder like.
Proof.
  split; [done|]. intros a b c [H1 E1] [H2 E2]. split; [by eapply same_kind_trans|congruence].
Qed.
Lemma like_geom g w : like w (set_geom g w). Proof. done. Qed.
Lemma like_normal g w : like w (set_normal g w). Proof. done. Qed.
Lemma like_saved g w : like w (set_saved g w). Proof. done. Qed.
Lemma like_title t w : like w (set_title t w). Proof. done. Qed.
Lemma like_state s w : s ≠ WinClosed → like w (set_w_state s w).
Proof. intros Hs. split; [|done]. split_and!; [done..|]. cbn. naive_solver. Qed.
Lemma like_prev s w : s ≠ WinClosed ∨ s = w_state w → like w (set_prev s w).
Proof. intros Hs. split; [|done]. split_and!; [done..|]. cbn. naive_solver. Qed.
Lemma like_keep w : like w (keep_normal w).
Proof. unfold keep_normal. by case_decide. Qed.
Ltac like :=
  repeat first
  [ reflexivity
  | etrans; [|apply like_geom] | etrans; [|apply like_normal] | etrans; [|apply like_saved] | etrans; [|apply like_title]
  | etrans; [|apply like_keep] | etrans; [|apply like_state; done] | etrans; [|apply like_prev; by left]
  | etrans; [|apply like_prev; by right] ].

Lemma snapped_left_like w : like w (snapped_left screen_w screen_h w).
Proof. unfold snapped_left. like. Qed.
Lemma snapped_right_like w : like w (snapped_right screen_w screen_h w).
Proof. unfold snapped_right. like. Qed.
Lemma back_to_normal_like mh w w' : back_to_normal screen_w screen_h mh w = Some w' → like w w'.
Proof.
  unfold back_to_normal. destruct (normal_geom w) as [[[nx ny] nw] nh].
  intros (? & _ & (? & _ & (? & _ & (? & _ & [= <-])%bind_Some)%bind_Some)%bind_Some)%bind_Some. like.
Qed.
Lemma toggled_maximize_like w w' : toggled_maximize screen_w screen_h w = Some w' → like w w'.
Proof.
  unfold toggled_maximize. case_decide.
  - intros (w1 & H1%back_to_normal_like & ->)%fmap_Some. etrans; [exact H1|]. like.
  - intros [= <-]. like.
Qed.
Lemma toggled_fullscreen_like w w' : toggled_fullscreen screen_w screen_h w = Some w' → like w w'.
Proof.
  unfold toggled_fullscreen. case_decide.
  - intros (w1 & H1 & [= <-])%bind_Some. assert (like w w1) as Hl; [|etrans; [exact Hl|]; like].
    case_decide; [injection H1 as <-; like|by eapply back_to_normal_like].
  - intros [= <-]. like.
Qed.
Lemma moved_like x y w w' : moved screen_w screen_h x y w = Some w' → like w w'.
Proof. unfold moved. intros (? & _ & (? & _ & [= <-])%bind_Some)%bind_Some. like. Qed.
Lemma dropped_like w : like w (dropped screen_w screen_h w).
Proof. unfold dropped. cbv zeta. repeat case_match; like. Qed.
Lemma unsnapped_like w : like w (unsnapped w).
Proof. unfold unsnapped. destruct (normal_geom w) as [[[nx ny] nw] nh]. case_match; like. Qed.

Lemma replace_like p i w w' m : wm_ok m → windows m !! i = Some w → like w w' → mine p w →
  steps p m (with_windows (<[i := w']> (windows m)) m).
Proof. intros Hm Hi [Hk Hf] Hp. by eapply window_replace_ok. Qed.

(** ** Operations on the manager *)

(** What an operation does for [p], unless it panics. *)
Definition goes {A} (p : option Z) (c : comp WindowManager WmError A) m : Prop :=
  wp c (λ r m', r ≠ Panic → steps p m m') m.

Lemma goes_ok {A} p (c : comp WindowManager WmError A) m :
  (wm_ok m → wp c (λ r m', r ≠ Panic → wm_ok m' ∧ others p (windows m') = others p (windows m)) m) → goes p c m.
Proof. intros H Hr Hm. by apply (H Hm). Qed.

Lemma goes_draws {A} p (c : comp WindowManager WmError A) m : draws c → goes p c m.
Proof. intros Hc. eapply wp_mono; [apply Hc|]. intros r m' [Hr _] _. by apply redrawn_steps. Qed.
Lemma goes_bind {A B} p (c : comp WindowManager WmError A) (k : A → comp WindowManager WmError B) m :
  goes p c m → (∀ a m', steps p m m' → goes p (k a) m') → goes p (c ≫= k) m.
Proof.
  intros Hc Hk. apply wp_bind. eapply wp_mono; [apply Hc|]. intros [a|e|] m' Hr.
  - specialize (Hr ltac:(done)). eapply wp_mono; [by apply Hk|]. intros r m2 Hr2 Hp. etrans; [done|]. by apply Hr2.
  - intros Hp. by apply Hr.
  - done.
Qed.

(** A window of [p] is replaced by one of the same kind. *)
Lemma replaces_steps p i id w w' m : find_window id m = Some (i, w) → mine p w → like w w' →
  steps p m (with_windows (<[i := w']> (windows m)) m).
Proof. intros [Hi _]%find_window_Some Hp Hl Hm. by apply (replace_like p i w w' m). Qed.

Lemma minimize_goes p pid id m : (∀ i w, find_window id m = Some (i, w) → w_owner w = pid → mine p w) →
  goes p (minimize_window screen_w pid id) m.
Proof.
  intros Hp. unfold goes, minimize_window. wp_step. apply owned_spec; [done..|].
  intros i w Hf Ho. specialize (Hp i w Hf Ho). pose proof (find_window_Some _ _ _ _ Hf) as [Hi Hid].
  unfold replace_window. wp_step. wp_step. drawing. drawing. wp_step. wp_step.
  set (m1 := with_windows _ m).
  assert (wm_ok m → others p (windows m1) = others p (windows m)) as Ho1.
  { intros _. apply (others_insert p _ _ w); [done..|]. unfold minimized. case_decide; by destruct p. }
  case_decide as Hfo; cbn [focused_window with_damage m1 with_windows] in Hfo.
  - unfold wp. destruct (transfer_focus _) as [r m'] eqn:E. intros Hr Hm. cbn [fst snd] in *.
    assert (wm_sound m1) as Hs1 by (eapply replace_sound; [apply Hm|done|apply minimized_kind]).
    pose proof (focus_transfer_spec p (with_damage t0 (with_damage t m1)) (ltac:(by destruct Hs1))) as H4. unfold wp in H4. rewrite E in H4.
    destruct (H4 Hr) as (_ & H5 & H6). split; [done|]. etrans; [exact H6|by apply Ho1].
  - wp_step. intros _. etrans; [|apply (redrawn_steps p m1); by eexists]. intros Hm.
    eapply (window_replace_ok p i w); [done|done|apply minimized_kind| |done|done].
    rewrite (ok_flag _ Hm w) by (by eapply list_elem_of_lookup_2). rewrite Hid.
    rewrite bool_decide_eq_false_2 by done. unfold minimized. by case_decide.
Qed.

Lemma move_goes p pid id x y m : (∀ i w, find_window id m = Some (i, w) → w_owner w = pid → mine p w) →
  goes p (move_window screen_w screen_h pid id x y) m.
Proof.
  intros Hp. unfold goes, move_window. wp_step. apply owned_spec; [done..|].
  intros i w Hf Ho. specialize (Hp i w Hf Ho). wp_step. wp_step; [by intros []|].
  unfold replace_window. wp_step. wp_step. drawing.
  eapply wp_mono; [apply draws_window|]. intros r m' [Hr _] _.
  etrans; [|by eapply redrawn_steps]. etrans; [|apply redrawn_steps; by eexists].
  apply (replaces_steps p i id w); [done..|]. by eapply moved_like.
Qed.

Lemma raise_goes p id m : (∀ i w, find_window id m = Some (i, w) → mine p w) → goes p (raise_to_top_internal screen_w id) m.
Proof.
  intros Hp. unfold goes, wp. destruct (raise_to_top_internal screen_w id m) as [r m'] eqn:E. intros Hr Hm.
  pose proof (raise_spec p id m Hm Hp) as H. unfold wp in H. rewrite E in H. by destruct (H Hr) as (? & ? & _).
Qed.

(** The rest of the manager may change freely. *)
Lemma steps_same p m m' : windows m' = windows m → next_window_id m' = next_window_id m →
  focused_window m' = focused_window m → mru_list m' = mru_list m → steps p m m'.
Proof.
  intros Hw Hn Hf Hr [[? ? ? ?] ? ?]. rewrite Hw. split; [|done].
  by split; [split|..]; rewrite ?Hw, ?Hn, ?Hf, ?Hr.
Qed.

Lemma press_goes p b m : goes p (alt_tab_press screen_w screen_h b) m.
Proof.
  apply goes_ok. intros Hm. unfold alt_tab_press.
  wp_step. eapply wp_mono; [apply clean_sound, Hm|]. intros ? ? [-> ->]. wp_step. wp_step. case_bool_decide; [by wp_step|].
  wp_step. wp_step. eapply wp_mono; [apply draws_switcher|]. intros ? ? [Hd _] _. apply (redrawn_steps p _ _) in Hd.
  apply Hd. by apply (steps_same p m).
Qed.
Lemma off_goes p m : goes p switcher_off m.
Proof. unfold goes, switcher_off. wp_step. intros _. by apply steps_same. Qed.
Lemma cancel_goes p m : goes p (alt_tab_cancel screen_w screen_h) m.
Proof.
  unfold goes, alt_tab_cancel. wp_step. wp_step. case_match; [|by wp_step]. drawing.
  eapply wp_mono; [apply off_goes|]. intros r m' H' Hr. etrans; [|by apply H']. apply redrawn_steps. by eexists.
Qed.
Lemma title_goes id t m : goes None (set_window_title id t) m.
Proof.
  unfold goes, set_window_title. wp_step. wp_step. wp_step. wp_step; [done|]. destruct a as [i w]. unfold replace_window.
  wp_step. wp_step. eapply wp_mono; [apply draws_window|]. intros ? ? [Hd _] _. etrans; [|by eapply redrawn_steps].
  by apply (replaces_steps None i id w).
Qed.

(** A window goes away. *)
Lemma deleted_sound i w m : wm_ok m → windows m !! i = Some w →
  wm_sound (with_mru (filter (λ j, j ≠ w_id w) (mru_list m)) (with_windows (delete i (windows m)) m)) ∧
  (∀ x, x ∈ delete i (windows m) → w_id x ≠ w_id w).
Proof.
  intros [[Hn Hf Ho Hm] _ _] Hi. pose proof Hn as Hn'. rewrite <- (ids_delete _ _ _ Hi) in Hn'.
  apply NoDup_cons in Hn' as [Hout Hn']. split.
  - split; cbn [windows mru_list next_window_id with_mru with_windows]; [done|..].
    + intros x Hx. apply Hf. by eapply elem_of_deleted.
    + intros x Hx. apply Ho. by eapply elem_of_deleted.
    + rewrite Hm, <- (ids_delete _ _ _ Hi). rewrite filter_cons_False by (by intros []). rewrite filter_all; [done|].
      intros x Hx ->. done.
  - intros x Hx He. apply Hout. rewrite <- He. by apply list_elem_of_fmap_2.
Qed.

Lemma drop_goes p i w m : windows m !! i = Some w → mine p w → goes p (drop_window screen_w i w) m.
Proof.
  intros Hi Hp. apply goes_ok. intros Hm. destruct (deleted_sound i w m Hm Hi) as [Hs Hne].
  unfold drop_window. cbv zeta. do 4 (wp_step; wp_step). cbn [mru_list with_pending with_windows windows alt_tab with_mru].
  set (m1 := with_switcher _ _). assert (wm_sound m1) as Hs1 by by destruct Hs.
  wp_step. eapply wp_mono; [by apply clean_sound|]. intros ? ? [-> ->]. drawing. drawing. wp_step. wp_step.
  assert (others p (windows m1) = others p (windows m)) as Ho by by eapply others_delete.
  case_decide as Hfo; cbn [focused_window with_damage m1 with_windows] in Hfo.
  - eapply wp_mono; [apply (focus_transfer_spec p); by destruct Hs1|]. intros r m' H' Hr. destruct (H' Hr) as (_ & ? & Heq).
    split; [done|]. etrans; [exact Heq|exact Ho].
  - wp_step. intros _. split; [|exact Ho]. destruct Hm as [_ Hf Hg]. split; [by destruct Hs1|..].
    + intros f Hff. specialize (Hf f Hff). change (focused_window m = Some f) in Hff.
      change (f ∈ ids (delete i (windows m))). rewrite <- (ids_delete _ _ _ Hi) in Hf. apply elem_of_cons in Hf as [->|Hf]; done.
    + intros x Hx. apply Hg. by apply (elem_of_deleted _ i).
Qed.

(** A new window. *)
Definition placed (id : Z) (w : Window) m : WindowManager :=
  with_focus (Some id) (with_windows (map (set_focused false) (windows m) ++ [w]) m).

Lemma placed_ok p w m t : wm_ok m → w_id w = next_window_id m → focused w = true → mine p w →
  w_state w ≠ WinClosed ∧ prev_state w ≠ WinClosed →
  let m' := placed (w_id w) w (with_next_id (next_window_id m + 1) (with_damage t m)) in
  wm_sound (with_mru (w_id w :: mru_list m) m') ∧ others p (windows m') = others p (windows m) ∧
  wm_ok (with_mru (w_id w :: mru_list m) m').
Proof.
  intros Hm Hid Hfo Hp Hopen m'. assert (windows m' = map (set_focused false) (windows m) ++ [w]) as Hw by done.
  assert (∀ x, x ∈ windows m' → x = w ∨ ∃ y, y ∈ windows m ∧ x = set_focused false y) as Hin.
  { intros x. rewrite Hw. intros [Hx| ->%list_elem_of_singleton]%elem_of_app; [right|by left].
    by apply (elem_of_refocus (λ _, false)) in Hx. }
  assert (ids (windows m') = ids (windows m) ++ [w_id w]) as Hids.
  { rewrite Hw. unfold ids. rewrite fmap_app. f_equal. apply (ids_refocus (λ _, false)). }
  assert (∀ x, x ∈ ids (windows m) → (x < w_id w)%Z) as Hlt.
  { intros x (y & -> & Hy)%list_elem_of_fmap. rewrite Hid. by apply Hm. }
  assert (wm_sound (with_mru (w_id w :: mru_list m) m')) as Hs.
  { destruct Hm as [[Hn Hf Ho Hmru] _ _]. split; cbn [mru_list with_mru].
    - change (NoDup (ids (windows m'))). rewrite Hids. apply NoDup_app. split_and!; [done| |apply NoDup_singleton].
      intros x Hx%Hlt ->%list_elem_of_singleton. lia.
    - intros x [-> |(y & Hy & ->)]%Hin; cbn; [lia|]. specialize (Hf y Hy). lia.
    - intros x [-> |(y & Hy & ->)]%Hin; [done|]. by apply (Ho y).
    - change (w_id w :: mru_list m ≡ₚ ids (windows m')). rewrite Hids, Hmru. apply Permutation_cons_append. }
  split_and!; [done|..].
  - rewrite Hw, others_app, (others_mine p w Hp), app_nil_r. apply (others_refocus p (λ _, false)).
  - split; [done|..].
    + intros f [= <-]. change (w_id w ∈ ids (windows m')). rewrite Hids. set_solver.
    + intros x Hx. change (focused x = bool_decide (Some (w_id w) = Some (w_id x))).
      apply Hin in Hx as [-> |(y & Hy & ->)]; [by rewrite bool_decide_eq_true_2|].
      symmetry. apply bool_decide_eq_false. intros [= He]. cbn in He.
      assert (w_id y < w_id w)%Z; [|lia]. apply Hlt. by apply list_elem_of_fmap_2.
Qed.

Lemma placed_touched p w m t : wm_ok m → w_id w = next_window_id m → focused w = true → mine p w →
  w_state w ≠ WinClosed ∧ prev_state w ≠ WinClosed →
  let m' := placed (w_id w) w (with_next_id (next_window_id m + 1) (with_damage t m)) in
  others p (windows m') = others p (windows m) ∧
  ∃ l, touch_mru (w_id w) m' = (Ok tt, with_mru l m') ∧ wm_ok (with_mru l m').
Proof.
  intros Hm Hid Hfo Hp Hopen m'. destruct (placed_ok p w m t Hm Hid Hfo Hp Hopen) as (Hs & Ho & Hok). fold m' in Hs, Ho, Hok.
  split; [done|]. destruct (touch_spec (w_id w) m') as (l & Hr & Hsl); [apply Hs..| | | |].
  - change (NoDup (mru_list m)). rewrite (s_mru _ (ok_sound _ Hm)). apply Hm.
  - intros j Hj. pose proof (s_mru _ Hs) as Hmru. cbn [mru_list with_mru] in Hmru. change (ids (windows (with_mru ?l m'))) with (ids (windows m')) in Hmru.
    rewrite <- Hmru in Hj. apply elem_of_cons in Hj. exact Hj.
  - pose proof (s_mru _ Hs) as Hmru. change (w_id w :: mru_list m ≡ₚ ids (windows m')) in Hmru. rewrite <- Hmru. by left.
  - exists l. split; [done|]. by apply (ok_mru l (with_mru (w_id w :: mru_list m) m')).
Qed.
End manager.

(** ** Operations on the desktop *)

Section desktop.
Context {PT DD : Type} `{!Mapper PT, !UserSpace PT, !Drive DD}.
Context (cpu : nat) (screen_w screen_h : Z).
Context (destroy_user_address_space : Z → comp (Memory (PT := PT)) string unit).
Abbreviation Desktop := (Desktop (PT := PT) (DD := DD)).
Implicit Types (d : Desktop).
Abbreviation M := (comp Desktop WmError).

(** The window [id], if there is one, is one of [p]. *)
Definition mine_id (p : option Z) (id : option Z) m : Prop :=
  match id with Some id => ∀ i w, find_window id m = Some (i, w) → mine p w | None => True end.

Lemma mine_id_user id m : mine_id None id m.
Proof. by destruct id. Qed.

Lemma mine_id_kept p id m m' : wm_ok m → others p (windows m') = others p (windows m) → mine_id p id m → mine_id p id m'.
Proof.
  intros Hm Ho Hid. destruct id as [id|]; [|done]. destruct p as [p|]; [|done]. intros i w' [Hi He]%find_window_Some.
  cbn. destruct (decide (w_owner w' = p)); [done|]. exfalso.
  assert (set_focused false w' ∈ others (Some p) (windows m)) as Hin.
  { rewrite <- Ho. apply list_elem_of_fmap_2, list_elem_of_filter. split; [done|]. by eapply list_elem_of_lookup_2. }
  apply list_elem_of_fmap in Hin as (w & Hw & [Hne Hin]%list_elem_of_filter).
  assert (w_id w = id) as Hwid by (rewrite <- He; change (w_id w = w_id (set_focused false w')); by rewrite Hw).
  destruct (find_window_elem id w m Hin Hwid) as [[j x] Hx].
  assert (w = x) as -> by by eapply find_window_unique. by apply Hne, (Hid j x).
Qed.

(** What a computation on the desktop does for [p] to the windows, unless it
    panics, when the window [id] is one of [p]. *)
Definition serves {E A} (p id : option Z) (c : comp Desktop E A) : Prop :=
  ∀ d, wm_ok (d_wm d) → mine_id p id (d_wm d) →
    wp c (λ r d', r ≠ Panic → wm_ok (d_wm d') ∧ others p (windows (d_wm d')) = others p (windows (d_wm d))) d.

Lemma serves_user {E A} id id' (c : comp Desktop E A) : serves None id c → serves None id' c.
Proof. intros Hc d Hd _. apply Hc; [done|apply mine_id_user]. Qed.
Lemma serves_any {E A} p id (c : comp Desktop E A) : serves p None c → serves p id c.
Proof. intros Hc d Hd _. by apply Hc. Qed.

Lemma serves_bind {E A B} p id (c : comp Desktop E A) (k : A → comp Desktop E B) :
  serves p id c → (∀ a, serves p id (k a)) → serves p id (c ≫= k).
Proof.
  intros Hc Hk d Hd Hi. apply wp_bind. eapply wp_mono; [by apply Hc|]. intros [a|e|] d' Hr.
  - destruct (Hr ltac:(done)) as [Hd' Ho]. eapply wp_mono; [apply Hk; [done|by apply (mine_id_kept p id (d_wm d))]|].
    intros r d2 Hr2 Hp. destruct (Hr2 Hp). split; [done|congruence].
  - intros Hp. by apply Hr.
  - done.
Qed.
Lemma serves_ret {E A} p id (a : A) : serves p id (mret (M := comp Desktop E) a).
Proof. by intros d. Qed.
Lemma serves_throw {E A} p id (e : E) : serves p id (throw (A := A) (S := Desktop) e).
Proof. by intros d. Qed.
Lemma serves_get {E B} p id (k : Desktop → comp Desktop E B) : (∀ a, serves p id (k a)) → serves p id (get ≫= k).
Proof. intros Hk d Hd Hi. wp_step. wp_step. by apply Hk. Qed.
Lemma serves_get_ok {E B} p id (k : Desktop → comp Desktop E B) :
  (∀ a, wm_ok (d_wm a) → serves p id (k a)) → serves p id (get ≫= k).
Proof. intros Hk d Hd Hi. wp_step. wp_step. by apply Hk. Qed.
Lemma serves_get_wm {E B} p id (k : WindowManager → comp Desktop E B) :
  (∀ m, wm_ok m → serves p id (k m)) → serves p id (in_wm get ≫= k).
Proof.
  intros Hk d Hd Hi. wp_step. unfold in_wm. wp_step. wp_step. replace (with_wm (d_wm d) d) with d by by destruct d. by apply Hk.
Qed.
(** For the user, the state may be set to anything sound. *)
Lemma serves_put {E} id m : wm_ok m → serves None id (in_wm (PT := PT) (DD := DD) (E := E) (put m)).
Proof. intros Hm d Hd _. unfold in_wm. wp_step. by wp_step. Qed.
Lemma serves_put_all {E} id d' : wm_ok (d_wm d') → serves None id (put (E := E) d').
Proof. intros Hm d Hd _. by wp_step. Qed.
Lemma serves_none {E A} p id (c : comp Desktop E A) : serves p None c → serves None id c.
Proof.
  intros Hc d Hd _. eapply wp_mono; [by apply Hc|]. intros r d' H Hr. by destruct (H Hr).
Qed.
Lemma ok_same m m' : wm_ok m → windows m' = windows m → next_window_id m' = next_window_id m →
  focused_window m' = focused_window m → mru_list m' = mru_list m → wm_ok m'.
Proof. intros Hm ? ? ? ?. by apply (steps_same None m m'). Qed.
Lemma serves_modify {E} p id f : (∀ d, d_wm (f d) = d_wm d) → serves p id (modify (E := E) f).
Proof. intros Hf d Hd _. wp_step. by rewrite Hf. Qed.
Lemma serves_wm {E A} p id (c : comp WindowManager E A) :
  (∀ m, mine_id p id m → wp c (λ r m', r ≠ Panic → steps p m m') m) → serves p id (in_wm (PT := PT) (DD := DD) c).
Proof.
  intros Hc d Hd Hi. unfold in_wm. wp_step. eapply wp_mono; [by apply Hc|]. intros r m' Hr Hp. by apply Hr.
Qed.
Lemma serves_kernel {E A} p id c : serves p id (in_kernel (PT := PT) (DD := DD) (E := E) (A := A) c).
Proof. intros d Hd _. unfold in_kernel. wp_step. by apply wp_intro. Qed.
Lemma kernel_keeps {E A} c d : wp (in_kernel (PT := PT) (DD := DD) (E := E) (A := A) c) (λ _ d', d_wm d' = d_wm d) d.
Proof. unfold in_kernel. wp_step. by apply wp_intro. Qed.
Lemma serves_ignore {E E' A} p id (c : comp Desktop E' A) : serves p id c → serves p id (ignore (E := E) c).
Proof.
  intros Hc d Hd Hi. wp_step. eapply wp_mono; [by apply Hc|]. intros [a|e|] d' Hr; try (intros _; by apply Hr). done.
Qed.
Lemma serves_attempt {E E' A} p id (c : comp Desktop E' A) : serves p id c → serves p id (attempt (E := E) c).
Proof.
  intros Hc d Hd Hi. wp_step. eapply wp_mono; [by apply Hc|]. intros [a|e|] d' Hr; try (intros _; by apply Hr). done.
Qed.
Lemma serves_unwrap {E A B} p id (o : option A) (k : A → comp Desktop E B) :
  (∀ a, o = Some a → serves p id (k a)) → serves p id (unwrap o ≫= k).
Proof. intros Hk d Hd Hi. wp_step. wp_step; [done|]. by apply Hk. Qed.
Lemma serves_if {E A} p id (b : bool) (c c' : comp Desktop E A) : serves p id c → serves p id c' → serves p id (if b then c else c').
Proof. by destruct b. Qed.
Lemma serves_drawing {A} p id (c : comp WindowManager WmError A) : draws c → serves p id (in_wm (PT := PT) (DD := DD) c).
Proof. intros Hc. apply serves_wm. intros m _. by apply goes_draws. Qed.
Lemma serves_rerender p id w : serves p id (rerender_app_surface (PT := PT) (DD := DD) w).
Proof. apply serves_ignore, serves_kernel. Qed.
Lemma serves_motion p id a b : serves p id (mark_motion (PT := PT) (DD := DD) a b).
Proof. apply serves_unwrap. intros [[[x y] wd] ht] _. apply serves_drawing, draws_mark. Qed.
Lemma serves_cursor p id c : serves p id (set_cursor_type (PT := PT) (DD := DD) c).
Proof. by apply serves_modify. Qed.
Lemma serves_raise p id : serves p (Some id) (in_wm (PT := PT) (DD := DD) (raise_to_top_internal screen_w id)).
Proof. apply serves_wm. intros m Hp. by apply raise_goes. Qed.

Create HintDb serves discriminated.
#[local] Hint Resolve serves_ret serves_throw serves_kernel serves_rerender serves_motion serves_cursor serves_raise : serves.
#[local] Hint Extern 1 (serves _ _ (in_wm _)) => (apply serves_drawing; solve [eauto with draws nocore]) : serves.
Ltac serve :=
  repeat lazymatch goal with
  | |- serves _ _ (get ≫= _) => apply serves_get_ok; intros ? ?
  | |- serves _ _ (in_wm get ≫= _) => apply serves_get_wm; intros ? ?
  | |- serves _ _ (unwrap _ ≫= _) => apply serves_unwrap; intros ? ?
  | |- serves _ _ (_ ≫= _) => apply serves_bind; [|intros ?]
  | |- serves _ _ (modify _) => apply serves_modify; intros; reflexivity
  | |- serves None _ (in_wm (modify _)) => apply serves_wm; intros; wp_step; intros _; apply steps_same; reflexivity
  | |- serves None _ (in_wm (put _)) => apply serves_put; eapply ok_same; [eassumption|reflexivity..]
  | |- serves None _ (put _) => apply serves_put_all; eapply ok_same; [eassumption|reflexivity..]
  | |- serves _ _ (let _ := _ in _) => cbv zeta
  | |- serves _ _ (if ?b then _ else _) => destruct b
  | |- serves _ _ (match ?x with _ => _ end) => destruct x
  | |- serves _ _ (ignore ?c) => apply serves_ignore
  | |- serves _ _ (attempt ?c) => apply serves_attempt
  | |- serves _ _ _ => solve [auto with serves nocore]
  end.

(** The first thing most operations do: the window is the caller's. *)
Lemma serves_owned {B} pid id (k : nat * Window → M B) :
  (∀ i w d, find_window id (d_wm d) = Some (i, w) → w_owner w = pid → w_id w = id → wm_ok (d_wm d) →
    wp (k (i, w)) (λ r d', r ≠ Panic → wm_ok (d_wm d') ∧ others (Some pid) (windows (d_wm d')) = others (Some pid) (windows (d_wm d))) d) →
  serves (Some pid) None (in_wm (owned_window pid id) ≫= k).
Proof.
  intros Hk d Hd _. wp_step. unfold in_wm. wp_step. apply owned_spec; [done..|]. intros i w Hf Ho.
  replace (with_wm (d_wm d) d) with d by by destruct d. apply Hk; [done..| |done]. by eapply find_window_Some.
Qed.
(** ... and it is replaced by one of the same kind. *)
Lemma wp_replace {B} pid id i w w' (k : M B) d :
  find_window id (d_wm d) = Some (i, w) → w_owner w = pid → w_id w = id → wm_ok (d_wm d) → like w w' →
  serves (Some pid) (Some id) k →
  wp (in_wm (replace_window i w');; k)
    (λ r d', r ≠ Panic → wm_ok (d_wm d') ∧ others (Some pid) (windows (d_wm d')) = others (Some pid) (windows (d_wm d))) d.
Proof.
  intros Hfind Ho Hid Hd Hl Hk. unfold replace_window, in_wm. wp_step. wp_step. wp_step.
  assert (steps (Some pid) (d_wm d) (with_windows (<[i := w']> (windows (d_wm d))) (d_wm d))) as Hs by by eapply replaces_steps.
  destruct (Hs Hd) as [Hok Hoth]. eapply wp_mono; [apply Hk; [done|]|].
  - intros j x Hx. cbn [d_wm with_wm] in Hx. apply find_window_Some in Hx as [Hx Hxid]. cbn [windows with_windows] in Hx.
    apply list_lookup_insert_cases in Hx as [[_ Hx]|[_ Hx]].
    + cbn. rewrite Hx. destruct Hl as [(_ & -> & _) _]. done.
    + assert (x = w) as ->; [|done]. eapply find_window_unique; [exact Hd|exact Hfind| |done]. by eapply list_elem_of_lookup_2.
  - intros r d' H' Hr. destruct (H' Hr). split; [done|]. etrans; [done|]. exact Hoth.
Qed.
Lemma restore_serves pid id : serves (Some pid) None (restore_window screen_w screen_h pid id).
Proof.
  apply serves_owned. intros i w d Hf Ho Hid Hd. eapply wp_replace; [done..|apply restored_kind|serve].
Qed.
Lemma snap_left_serves pid id : serves (Some pid) None (snap_left screen_w screen_h pid id).
Proof.
  apply serves_owned. intros i w d Hf Ho Hid Hd. eapply wp_replace; [done..|apply snapped_left_like|serve].
Qed.
Lemma snap_right_serves pid id : serves (Some pid) None (snap_right screen_w screen_h pid id).
Proof.
  apply serves_owned. intros i w d Hf Ho Hid Hd. eapply wp_replace; [done..|apply snapped_right_like|serve].
Qed.
Lemma maximize_serves pid id : serves (Some pid) None (toggle_maximize_window screen_w screen_h pid id).
Proof.
  apply serves_bind; [serve|]. intros _. apply serves_owned. intros i w d Hf Ho Hid Hd. wp_step. wp_step; [done|].
  eapply wp_replace; [done..|by eapply toggled_maximize_like|serve].
Qed.
Lemma fullscreen_serves pid id : serves (Some pid) None (toggle_fullscreen screen_w screen_h pid id).
Proof.
  apply serves_bind; [serve|]. intros _. apply serves_owned. intros i w d Hf Ho Hid Hd. wp_step. wp_step; [done|].
  eapply wp_replace; [done..|by eapply toggled_fullscreen_like|serve].
Qed.
Lemma raise_serves pid id : serves (Some pid) None (in_wm (PT := PT) (DD := DD) (raise_to_top screen_w pid id)).
Proof.
  apply serves_wm. intros m _. unfold raise_to_top. wp_step. apply owned_spec; [done..|]. intros i w Hf Ho.
  apply raise_goes. intros j x Hx. rewrite Hf in Hx. by injection Hx as <- <-.
Qed.
Lemma minimize_serves pid id : serves (Some pid) None (in_wm (PT := PT) (DD := DD) (minimize_window screen_w pid id)).
Proof. apply serves_wm. intros m _. by apply minimize_goes. Qed.
Lemma move_serves pid id x y : serves (Some pid) None (in_wm (PT := PT) (DD := DD) (move_window screen_w screen_h pid id x y)).
Proof. apply serves_wm. intros m _. by apply move_goes. Qed.

Lemma destroy_serves pid id : serves (Some pid) None (destroy_window cpu screen_w destroy_user_address_space pid id).
Proof.
  apply serves_owned. intros i w d Hf Ho Hid Hd. pose proof (find_window_Some _ _ _ _ Hf) as [Hi _].
  wp_step. unfold in_wm at 1. wp_step. eapply wp_mono; [by apply (drop_goes _ (Some pid) i w)|].
  intros [[]|e|] m' Hm'; [|intros _; by apply Hm'|done]. destruct (Hm' ltac:(done) Hd) as [Hok Hoth].
  eapply wp_mono.
  - match goal with |- wp ?c _ ?d' => assert (serves (Some pid) None c) as Hs by serve; exact (Hs d' Hok I) end.
  - intros r d' H' Hr. destruct (H' Hr). split; [done|]. etrans; [done|exact Hoth].
Qed.
Lemma request_close_serves pid id : serves (Some pid) None (request_close_window cpu screen_w destroy_user_address_space pid id).
Proof.
  apply serves_bind; [apply serves_wm; intros m _; apply owned_spec; by intros|]. intros [i w] d Hd _.
  wp_step. wp_step. destruct (EDITOR_INSTANCES _ !! id) as [[[] ?]|]; [|by apply destroy_serves..].
  cbv zeta. wp_step. wp_step. unfold in_wm. wp_step. eapply wp_mono; [apply draws_window|]. intros r m' [Hr _] _.
  by apply (redrawn_steps (Some pid) _ _ Hr).
Qed.

Lemma create_serves pid sid x y wd ht t ic : serves (Some pid) None (create_window_with_meta screen_w screen_h pid sid x y wd ht t ic).
Proof.
  intros d Hd _. unfold create_window_with_meta. wp_step. wp_step; [done|]. wp_step. wp_step. wp_step. wp_step; [done|].
  wp_step. wp_step; [done|]. wp_step. unfold in_wm at 1. wp_step. wp_step. cbv zeta. wp_step. wp_step; [done|].
  wp_step. unfold in_wm at 1. wp_step. wp_step. wp_step. unfold in_wm at 1. wp_step.
  eapply wp_mono; [apply unfocus_spec|]. intros [[]|e|] m' Hm'; [|by destruct Hm'|done].
  destruct Hm' as (_ & t' & ->); [done|]. cbn [d_wm with_wm windows with_next_id].
  apply fits_Some in H2 as (-> & _). set (w := set_geom _ _).
  destruct (placed_touched (Some pid) w (d_wm d) t') as (Ho & l & Hr & Hok); [done..|]. assert (w_id w = next_window_id (d_wm d)) as Hwid by done. rewrite Hwid in Hr, Ho, Hok. clearbody w.
  do 2 (wp_step; unfold in_wm at 1; wp_step; wp_step). cbn [d_wm with_wm].
  wp_step. unfold in_wm at 1. wp_step. eapply wp_returns; [exact Hr|].
  cbv beta iota. match goal with |- wp ?c _ ?d' => assert (serves (Some pid) None c) as Hs by serve; eapply wp_mono; [exact (Hs d' Hok I)|] end.
  intros r d' H' Hnp. destruct (H' Hnp). split; [done|]. etrans; [done|exact Ho].
Qed.

(** ** What the user does *)

Lemma user_raise id id' : serves None id' (in_wm (PT := PT) (DD := DD) (raise_to_top_internal screen_w id)).
Proof. eapply serves_user, serves_raise. Qed.
Lemma user_restore id' pid id : serves None id' (restore_window screen_w screen_h pid id).
Proof. eapply serves_none, restore_serves. Qed.
Lemma user_maximize id' pid id : serves None id' (toggle_maximize_window screen_w screen_h pid id).
Proof. eapply serves_none, maximize_serves. Qed.
Lemma user_minimize id' pid id : serves None id' (in_wm (PT := PT) (DD := DD) (minimize_window screen_w pid id)).
Proof. eapply serves_none, minimize_serves. Qed.
Lemma user_close id' pid id : serves None id' (request_close_window cpu screen_w destroy_user_address_space pid id).
Proof. eapply serves_none, request_close_serves. Qed.
#[local] Hint Resolve user_raise user_restore user_maximize user_minimize user_close : serves.

Lemma user_touch id' id : serves None id' (in_wm (PT := PT) (DD := DD) (touch_mru id)).
Proof.
  apply serves_wm. intros m _. apply goes_ok. intros Hm. destruct (decide (id ∈ ids (windows m))) as [Hin|Hout].
  { eapply wp_mono; [by apply (touch_steps None)|]. by intros r m' (-> & ? & ? & _) _. }
  unfold touch_mru, clean_mru. wp_step. wp_step. wp_step. intros _. split; [|done].
  destruct Hm as [Hs Hf Hg]. split; [|done..]. destruct Hs as [Hn Hfr Ho Hm]. split; [done..|]. cbn [mru_list with_mru windows].
  rewrite filter_cons_False.
  - rewrite !filter_all; [done| |].
    + intros j Hj ->. by rewrite Hm in Hj.
    + intros j [_ Hj]%list_elem_of_filter. rewrite Hm in Hj. apply list_elem_of_fmap in Hj as (w & -> & Hw).
      apply Exists_exists. exists w. split_and!; [done..|]. by apply Ho.
  - intros (w & Hw & <- & _)%Exists_exists. apply Hout. by apply list_elem_of_fmap_2.
Qed.
#[local] Hint Resolve user_touch : serves.

Lemma user_switch id' id : serves None id' (switch_to (PT := PT) (DD := DD) screen_w screen_h id).
Proof. unfold switch_to. serve. Qed.
#[local] Hint Resolve user_switch : serves.
Lemma user_press id' b : serves None id' (in_wm (PT := PT) (DD := DD) (alt_tab_press screen_w screen_h b)).
Proof. apply serves_wm. intros m _. apply press_goes. Qed.
Lemma user_cancel id' : serves None id' (in_wm (PT := PT) (DD := DD) (alt_tab_cancel screen_w screen_h)).
Proof. apply serves_wm. intros m _. apply cancel_goes. Qed.
Lemma user_off id' : serves None id' (in_wm (PT := PT) (DD := DD) switcher_off).
Proof. apply serves_wm. intros m _. apply off_goes. Qed.
Lemma user_nav_up id' : serves None id' (in_wm (PT := PT) (DD := DD) launcher_nav_up).
Proof.
  apply serves_wm. intros m _. unfold launcher_nav_up. apply goes_bind; [|intros; apply goes_draws, draws_launcher].
  unfold goes. wp_step. intros _. by apply steps_same.
Qed.
Lemma user_nav_down id' : serves None id' (in_wm (PT := PT) (DD := DD) launcher_nav_down).
Proof.
  apply serves_wm. intros m _. unfold launcher_nav_down. apply goes_bind; [|intros; apply goes_draws, draws_launcher].
  unfold goes. wp_step. intros _. by apply steps_same.
Qed.
#[local] Hint Resolve user_press user_cancel user_off user_nav_up user_nav_down : serves.
Lemma user_commit id' : serves None id' (alt_tab_commit (PT := PT) (DD := DD) screen_w screen_h).
Proof. unfold alt_tab_commit. serve. Qed.
Lemma user_cycle id' : serves None id' (alt_tab_cycle (PT := PT) (DD := DD) screen_w screen_h).
Proof.
  unfold alt_tab_cycle. apply serves_bind; [|intros ?; serve].
  apply serves_wm. intros m _. apply goes_ok. intros Hm. eapply wp_mono; [apply clean_sound, Hm|]. by intros ? ? [-> ->].
Qed.
#[local] Hint Resolve user_commit : serves.

Lemma user_launcher_click id' mx my : serves None id' (in_wm (PT := PT) (DD := DD) (launcher_click mx my)).
Proof.
  apply serves_wm. intros m _. unfold launcher_click. wp_step. wp_step. cbv zeta.
  case_match; [by wp_step|]. case_match.
  - case_match.
    + wp_step. wp_step. drawing. wp_step. intros _. by apply steps_same.
    + case_match; [|by wp_step]. wp_step. wp_step. drawing. wp_step. intros _. by apply steps_same.
  - case_match; [by wp_step|]. wp_step. wp_step. drawing. wp_step. intros _. by apply steps_same.
Qed.
#[local] Hint Resolve user_launcher_click : serves.
Lemma user_top_bar id' mx : serves None id' (top_bar_click (PT := PT) (DD := DD) screen_w screen_h mx).
Proof. unfold top_bar_click. serve. Qed.
Lemma user_title id' w mx my : serves None id' (title_click (PT := PT) (DD := DD) screen_w screen_h w mx my).
Proof. unfold title_click. serve. Qed.
#[local] Hint Resolve user_top_bar user_title : serves.
Lemma user_window_click id' mx my :
  serves None id' (window_click cpu screen_w screen_h destroy_user_address_space mx my).
Proof. unfold window_click. serve. Qed.
#[local] Hint Resolve user_window_click : serves.
Lemma user_mouse_down id' mx my :
  serves None id' (handle_mouse_down cpu screen_w screen_h destroy_user_address_space mx my).
Proof. unfold handle_mouse_down. serve. Qed.
#[local] Hint Resolve user_mouse_down : serves.

(** For the user only the invariant counts. *)
Definition okay {A} (c : M A) d : Prop := wp c (λ r d', r ≠ Panic → wm_ok (d_wm d')) d.
Lemma user_okay {A} id' (c : M A) : (∀ d, wm_ok (d_wm d) → okay c d) → serves None id' c.
Proof. intros Hc d Hd _. eapply wp_mono; [by apply Hc|]. intros r d' H Hr. split; [by apply H|done]. Qed.
Lemma okay_serves {A} id' (c : M A) d : serves None id' c → wm_ok (d_wm d) → okay c d.
Proof. intros Hc Hd. eapply wp_mono; [apply Hc; [done|apply mine_id_user]|]. intros r d' H Hr. by apply H. Qed.
Lemma okay_bind {A B} id' (c : M A) (k : A → M B) d : okay c d → (∀ a, serves None id' (k a)) → okay (c ≫= k) d.
Proof.
  intros Hc Hk. apply wp_bind. unfold okay in Hc. eapply wp_mono; [exact Hc|]. intros [a|e|] d' H'; [|by intros; apply H'|done].
  by eapply okay_serves; [|apply H'].
Qed.

(** A computation that leaves the windows alone. *)
Definition still {A} (c : M A) : Prop :=
  ∀ d, wm_ok (d_wm d) → wp c (λ r d', r ≠ Panic → wm_ok (d_wm d') ∧ windows (d_wm d') = windows (d_wm d)) d.
Lemma okay_still {A B} (c : M A) (k : A → M B) d : wm_ok (d_wm d) → still c →
  (∀ a d', wm_ok (d_wm d') → windows (d_wm d') = windows (d_wm d) → okay (k a) d') → okay (c ≫= k) d.
Proof.
  intros Hd Hc Hk. apply wp_bind. eapply wp_mono; [by apply Hc|]. intros [a|e|] d' H'; [|by intros; apply H'|done].
  destruct (H' ltac:(done)). by apply Hk.
Qed.
Lemma still_drawing (c : comp WindowManager WmError unit) : draws c → still (in_wm c).
Proof.
  intros Hc d Hd. unfold in_wm. wp_step. eapply wp_mono; [apply Hc|]. intros r m' [[t ->] _] _. split; [|done].
  by eapply ok_same.
Qed.
Lemma still_motion a b : still (mark_motion (PT := PT) (DD := DD) a b).
Proof.
  intros d Hd. unfold mark_motion. wp_step. wp_step; [done|]. destruct a0 as [[[x y] wd] ht]. by apply still_drawing; [apply draws_mark|].
Qed.

(** A window found in the state is replaced, whatever was drawn since. *)
Lemma user_replace m i id w w' d : wm_ok (d_wm d) → windows (d_wm d) = windows m →
  find_window id m = Some (i, w) → like w w' → okay (in_wm (replace_window i w')) d.
Proof.
  intros Hd Hw [Hi _]%find_window_Some Hl. unfold okay, replace_window, in_wm. wp_step. wp_step. intros _.
  by apply (replace_like None i w); [|rewrite Hw|..].
Qed.

Lemma user_drop id' : serves None id' (drop_dragged (PT := PT) (DD := DD) screen_w screen_h).
Proof.
  apply user_okay. intros d Hd. unfold okay, drop_dragged. wp_step. unfold in_wm at 1. wp_step. wp_step. wp_step.
  unfold in_wm at 1. wp_step. wp_step. cbn [d_wm with_wm].
  assert (wm_ok (with_dragging None (d_wm d))) as Hok by by eapply ok_same.
  destruct (dragging_window (d_wm d)) as [[[id ox] oy]|]; cbn [mbind option_bind fst]; [|by wp_step].
  destruct (find_window id (d_wm d)) as [[i w]|] eqn:E; [|by wp_step]. cbv zeta.
  eapply (okay_bind None); [|intros; serve]. by eapply user_replace; [..|apply dropped_like].
Qed.
Lemma user_end_resize id' : serves None id' (end_resize (PT := PT) (DD := DD)).
Proof. unfold end_resize. serve. Qed.
#[local] Hint Resolve user_drop user_end_resize : serves.
Lemma user_mouse_up id' : serves None id' (handle_mouse_up (PT := PT) (DD := DD) screen_w screen_h).
Proof. unfold handle_mouse_up. serve. Qed.

Lemma user_resizing id' r mx my : serves None id' (move_resizing (PT := PT) (DD := DD) screen_w screen_h r mx my).
Proof.
  unfold move_resizing. apply serves_unwrap; intros dx _. apply serves_unwrap; intros dy _.
  apply user_okay. intros d Hd. unfold okay. wp_step. unfold in_wm at 1. wp_step. wp_step.
  replace (with_wm (d_wm d) d) with d by by destruct d.
  destruct (find_window (r_window r) (d_wm d)) as [[i w]|] eqn:E; [|by eapply (okay_serves None); [serve|]].
  eapply (okay_bind None); [|intros; serve]. unfold okay. wp_step. wp_step; [done|]. wp_step. wp_step; [done|].
  destruct a0 as [[[x y] wd] ht]. eapply okay_still; [done| |].
  - intros d' Hd'. case_decide; [by wp_step|]. wp_step. unfold in_wm at 1. wp_step. wp_step.
    assert (wm_ok (with_pending (Some (w_id w)) (d_wm d'))) by by eapply ok_same.
    by apply (still_drawing _ (draws_mark _ _ _ _) (with_wm (with_pending (Some (w_id w)) (d_wm d')) d')).
  - intros _ d' Hd' Hw. eapply user_replace; [done|exact Hw|exact E|]. etrans; [|apply like_normal]. etrans; [|by apply like_state]. apply like_geom.
Qed.

Lemma user_dragging id' id ox oy mx my : serves None id' (move_dragging (PT := PT) (DD := DD) screen_w screen_h id ox oy mx my).
Proof.
  unfold move_dragging. apply user_okay. intros d Hd. unfold okay. wp_step. unfold in_wm at 1. wp_step. wp_step.
  replace (with_wm (d_wm d) d) with d by by destruct d.
  destruct (find_window id (d_wm d)) as [[i w]|] eqn:E; [|by eapply (okay_serves None); [serve|]].
  eapply (okay_bind None); [|intros; serve]. cbv zeta. unfold okay. wp_step. wp_step; [done|]. wp_step. wp_step; [done|].
  eapply okay_still; [done|apply still_motion|]. intros _ d' Hd' Hw.
  eapply (okay_bind None); [|intros; serve]. eapply user_replace; [done|exact Hw|exact E|].
  etrans; [|apply like_keep]. etrans; [|apply like_geom]. apply unsnapped_like.
Qed.
Lemma user_top_hover id' mx : serves None id' (hover_top_bar (PT := PT) (DD := DD) screen_w mx).
Proof. unfold hover_top_bar. serve. Qed.
Lemma user_hover id' mx my : serves None id' (hover_windows (PT := PT) (DD := DD) mx my).
Proof. unfold hover_windows. serve. Qed.
#[local] Hint Resolve user_mouse_up user_resizing user_dragging user_top_hover user_hover : serves.
Lemma user_mouse_move id' mx my : serves None id' (handle_mouse_move (PT := PT) (DD := DD) screen_w screen_h mx my).
Proof. unfold handle_mouse_move. serve. Qed.
#[local] Hint Resolve user_mouse_move : serves.

Lemma user_deliver id' p ev : serves None id' (deliver (PT := PT) (DD := DD) p ev).
Proof. by apply serves_modify. Qed.
#[local] Hint Resolve user_deliver : serves.
Lemma user_route_down id' cx cy :
  serves None id' (route_mouse_down cpu screen_w screen_h destroy_user_address_space cx cy).
Proof. unfold route_mouse_down. serve. Qed.
Lemma user_route_up id' cx cy : serves None id' (route_mouse_up (PT := PT) (DD := DD) screen_w screen_h cx cy).
Proof. unfold route_mouse_up. serve. Qed.
Lemma user_route_move id' cx cy lx ly : serves None id' (route_mouse_move (PT := PT) (DD := DD) screen_w screen_h cx cy lx ly).
Proof. unfold route_mouse_move. serve. Qed.
Lemma user_launcher_key id' code : serves None id' (launcher_key (PT := PT) (DD := DD) code).
Proof. unfold launcher_key. serve. Qed.
Lemma user_focused_key id' code b mods alt :
  serves None id' (focused_key cpu screen_w destroy_user_address_space code b mods alt).
Proof. unfold focused_key. serve. Qed.
#[local] Hint Resolve user_launcher_key user_focused_key : serves.
Lemma user_key id' c a s code b mods :
  serves None id' (dispatch_keyboard_event cpu screen_w screen_h destroy_user_address_space c a s code b mods).
Proof. unfold dispatch_keyboard_event. serve. Qed.
Lemma user_composite id' : serves None id' (composite_desktop (PT := PT) (DD := DD) screen_w screen_h).
Proof. unfold composite_desktop. serve. Qed.

(** ** The windows of a process that ends *)

Definition swept (dead : list Window) m m' : Prop :=
  windows m' = windows m ∧ next_window_id m' = next_window_id m ∧ focused_window m' = focused_window m ∧
  mru_list m' = filter (λ j, j ∉ ids dead) (mru_list m).

Lemma sweep_one pid w d :
  wp (cleanup_window (PT := PT) (DD := DD) pid w) (λ r d', r ≠ Panic → r = Ok tt ∧ swept [w] (d_wm d) (d_wm d')) d.
Proof.
  assert (∀ l : list Z, filter (λ j, j ≠ w_id w) l = filter (λ j, j ∉ ids [w]) l) as Hfil.
  { intros l. apply list_filter_iff. intros j. cbn. by rewrite list_elem_of_singleton. }
  unfold cleanup_window. cbv zeta. wp_step. unfold in_wm at 1. wp_step. wp_step.
  wp_step. unfold in_wm at 1. wp_step. apply wp_mono with (P := λ r m', redrawn (d_wm (with_wm (with_pending (if decide (pending_resize_render (d_wm d) = Some (w_id w)) then None else pending_resize_render (d_wm d)) (d_wm d)) d)) m' ∧ ∀ e, r ≠ Err e); [apply draws_window|].
  intros [[]|e|] m1 [[t ->] He]; [|by destruct (He e)|done].
  wp_step. unfold in_wm at 1. wp_step. wp_step. wp_step. wp_step.
  set (d1 := with_instances _ _).
  assert (swept [w] (d_wm d) (d_wm d1)) as Hs by (split_and!; [reflexivity..|apply Hfil]). clearbody d1.
  case_match; [by wp_step|]. wp_step. eapply wp_mono; [apply kernel_keeps|].
  intros r d2 Hk. destruct r; [| |done]; intros _; by rewrite Hk.
Qed.

Lemma sweep pid dead d : wp (for_each dead (cleanup_window (PT := PT) (DD := DD) pid))
  (λ r d', r ≠ Panic → r = Ok tt ∧ swept dead (d_wm d) (d_wm d')) d.
Proof.
  revert d. induction dead as [|w dead IH]; intros d; cbn [for_each].
  - wp_step. intros _. split; [done|]. split_and!; [done..|]. symmetry. apply filter_all. intros j _. cbn. by apply not_elem_of_nil.
  - wp_step. eapply wp_mono; [apply sweep_one|]. intros [[]|e|] d1 H1; [|by destruct H1|done].
    destruct H1 as (_ & Hw1 & Hn1 & Hf1 & Hm1); [done|].
    eapply wp_mono; [apply IH|]. intros r d2 H2 Hr. destruct (H2 Hr) as (-> & Hw2 & Hn2 & Hf2 & Hm2). split; [done|].
    split_and!; [congruence..|]. rewrite Hm2, Hm1, list_filter_filter. apply list_filter_iff. intros j. cbn.
    rewrite !not_elem_of_cons. assert (j ∉ []) by apply not_elem_of_nil. tauto.
Qed.

(** Without the windows of a process the manager is sound. *)
Lemma swept_sound pid m m' : wm_ok m → swept (filter (λ w, w_owner w = pid) (windows m)) m m' →
  wm_sound (with_windows (filter (λ w, w_owner w ≠ pid) (windows m')) m').
Proof.
  intros [[Hn Hf Ho Hm] _ _] (Hw & Hnx & _ & Hmru). rewrite Hw.
  assert (∀ x, x ∈ filter (λ w, w_owner w ≠ pid) (windows m) → x ∈ windows m) as Hsub by by intros x [_ ?]%list_elem_of_filter.
  split; cbn [windows next_window_id mru_list with_windows].
  - eapply sublist_NoDup; [exact Hn|]. apply fmap_sublist, sublist_filter.
  - intros x Hx. rewrite Hnx. auto.
  - auto.
  - rewrite Hmru, Hm. apply NoDup_Permutation; [by apply NoDup_filter| |].
    { eapply sublist_NoDup; [exact Hn|]. apply fmap_sublist, sublist_filter. }
    intros j. rewrite list_elem_of_filter. split.
    + intros [Hout (x & -> & Hx)%list_elem_of_fmap]. apply list_elem_of_fmap_2, list_elem_of_filter. split; [|done].
      intros Hp. apply Hout. by apply list_elem_of_fmap_2, list_elem_of_filter.
    + intros (x & -> & [Hp Hx]%list_elem_of_filter)%list_elem_of_fmap. split; [|by apply list_elem_of_fmap_2].
      intros (y & He & [Hy Hyin]%list_elem_of_filter)%list_elem_of_fmap. apply Hp. by rewrite (same_window (windows m) x y).
Qed.

(** The process loses its windows; the focus is elsewhere. *)
Lemma swept_ok pid m m' f : wm_ok m → swept (filter (λ w, w_owner w = pid) (windows m)) m m' → focused_window m' = Some f →
  ¬ Exists (λ w, w_id w = f) (filter (λ w, w_owner w = pid) (windows m)) →
  wm_ok (with_windows (filter (λ w, w_owner w ≠ pid) (windows m')) m').
Proof.
  intros Hm Hs Hf Hne. pose proof (swept_sound pid m m' Hm Hs) as Hsound. destruct Hs as (Hw & _ & Hfo & _). split; [done|..].
  - cbn [focused_window windows with_windows]. rewrite Hw, Hfo. intros g Hg. assert (g = f) as -> by congruence.
    apply (ok_focus _ Hm) in Hg as (x & -> & Hx)%list_elem_of_fmap. apply list_elem_of_fmap_2, list_elem_of_filter.
    split; [|done]. intros Hp. apply Hne, Exists_exists. exists x. split; [by apply list_elem_of_filter|done].
  - cbn [focused_window windows with_windows]. rewrite Hw, Hfo. intros x [_ Hx]%list_elem_of_filter. by apply (ok_flag _ Hm).
Qed.

Lemma gone_others q p ws ws' : q ≠ p → others (Some q) ws' = others (Some q) ws →
  (∀ w, w ∈ ws → w_owner w ≠ p) → (∀ w, w ∈ ws' → w_owner w ≠ p).
Proof.
  intros Hq Ho Hgone w Hw Hp. assert (set_focused false w ∈ others (Some q) ws) as Hin.
  { rewrite <- Ho. apply list_elem_of_fmap_2, list_elem_of_filter. split; [by rewrite Hp|done]. }
  apply list_elem_of_fmap in Hin as (y & He & [_ Hy]%list_elem_of_filter). apply (Hgone y Hy). rewrite <- Hp.
  change (w_owner (set_focused false y) = w_owner (set_focused false w)). by rewrite He.
Qed.

(** All windows of the process are gone, and nothing else. *)
Lemma cleanup_spec pid d : wm_ok (d_wm d) →
  wp (cleanup_windows_for_pid (PT := PT) (DD := DD) screen_w pid) (λ r d', r ≠ Panic →
    r = Ok tt ∧ wm_ok (d_wm d') ∧ others (Some pid) (windows (d_wm d')) = others (Some pid) (windows (d_wm d)) ∧
    ∀ w, w ∈ windows (d_wm d') → w_owner w ≠ pid) d.
Proof.
  intros Hd. unfold cleanup_windows_for_pid. wp_step. wp_step. cbv zeta.
  destruct (filter (λ w, w_owner w = pid) (windows (d_wm d))) as [|w0 dead] eqn:Hdead.
  { wp_step. intros _. split_and!; [done..|]. intros w Hw Hp.
    assert (w ∈ filter (λ w, w_owner w = pid) (windows (d_wm d))) as Hin by by apply list_elem_of_filter.
    rewrite Hdead in Hin. by apply not_elem_of_nil in Hin. }
  rewrite <- Hdead. pose proof (sweep pid (filter (λ w, w_owner w = pid) (windows (d_wm d))) d) as Hsw. clear Hdead w0 dead.
  wp_step. eapply wp_mono; [apply Hsw|]. intros [[]|e|] d1 H1; [|by destruct H1|done]. destruct (H1 ltac:(done)) as [_ Hs]. clear H1 Hsw.
  pose proof (swept_sound pid _ _ Hd Hs) as Hsound. set (m1 := with_windows _ (d_wm d1)) in Hsound.
  assert (windows (d_wm d1) = windows (d_wm d)) as Hw1 by apply Hs.
  assert (others (Some pid) (windows m1) = others (Some pid) (windows (d_wm d))) as Ho.
  { cbn [windows m1 with_windows others]. rewrite Hw1, list_filter_filter. f_equal. apply list_filter_iff. tauto. }
  assert (∀ w, w ∈ windows m1 → w_owner w ≠ pid) as Hgone by by intros w [? _]%list_elem_of_filter.
  wp_step. unfold in_wm at 1. wp_step. wp_step. wp_step. unfold in_wm at 1. wp_step.
  eapply wp_mono; [by apply (clean_sound m1)|]. intros ? ? [-> ->]. cbn [d_wm with_wm]. wp_step. unfold in_wm at 1. wp_step.
  eapply wp_mono; [apply draws_top_bar|]. intros [[]|e|] m2 [[t ->] He]; [|by destruct (He e)|done]. clear He.
  wp_step. unfold in_wm at 1. wp_step. wp_step. cbn [d_wm with_wm focused_window with_damage].
  case_match eqn:Hfocus.
  - unfold in_wm. wp_step. cbn [d_wm with_wm]. assert (wm_sound (with_damage t m1)) as Hsd by by destruct Hsound.
    eapply wp_mono; [apply wp_and; [by apply (focus_transfer_spec (Some pid))|by apply (focus_transfer_spec (Some (pid + 1)%Z))]|].
    intros r m' [Ha Hb] Hr. destruct (Ha Hr) as (-> & Hok & Hoa). destruct (Hb Hr) as (_ & _ & Hob).
    split_and!; [done..|by etrans|]. eapply gone_others; [|exact Hob|exact Hgone]. lia.
  - destruct (focused_window m1) as [f|] eqn:Hf; [|done]. apply bool_decide_eq_false in Hfocus. wp_step. intros _.
    split_and!; [done| |done..]. apply (ok_same m1); [|done..]. by eapply swept_ok.
Qed.

(** ** Requests to the compositor *)

Lemma create_window_serves pid sid x y wd ht : serves (Some pid) None (create_window (PT := PT) (DD := DD) screen_w screen_h pid sid x y wd ht).
Proof.
  unfold create_window. apply serves_get. intros a. match goal with |- serves _ _ (let '(_, _) := ?x in _) => destruct x as [t ic] end.
  apply create_serves.
Qed.
Lemma present_serves p pid sid x y wd ht : serves p None (present_surface_for_pid (PT := PT) (DD := DD) pid sid x y wd ht).
Proof.
  unfold present_surface_for_pid. apply serves_bind; [apply serves_kernel|]. intros [[[cx cy] cw] ch]. intros d Hd _.
  wp_step. unfold in_wm at 1. wp_step. wp_step. replace (with_wm (d_wm d) d) with d by by destruct d.
  destruct (list_find _ _) as [[i w]|]; [|by wp_step].
  wp_step. wp_step; [done|]. wp_step. wp_step; [done|]. wp_step. wp_step; [done|]. unfold in_wm. wp_step. wp_step. intros _.
  split; [by eapply ok_same|done].
Qed.
#[local] Hint Resolve create_window_serves present_serves destroy_serves move_serves : serves.

(** Every request but the one for the focus. *)
Lemma request_serves q : cq_opcode q ≠ COMP_OP_FOCUS_WINDOW →
  serves (Some (cq_client_pid q)) None (dispatch_compositor_request cpu screen_w screen_h destroy_user_address_space q).
Proof.
  intros Hop. unfold dispatch_compositor_request, respond. destruct (cq_damage q) as [[[dx dy] dw] dh].
  repeat case_match; reflect; try done; serve.
Qed.
End desktop.
