(* ===== verification/DesktopProps.v ===== *)
(** * The desktop: what processes and the user can do to it

    Whatever processes ask for and the user does, the windows stay consistent and
    a process changes none but its own; calls on windows of others are refused;
    clicks and keys go to the process of the window they are meant for.  A few
    requests are more than the window manager can take. *)
From S2P Require Import Prelude Bytes Text Disk Abi Cap FramePool Process WaitQueue Sched IoPorts Channel Ipc.
From S2P Require Import SyscallCap AddrSpace DmaRegion Surface ProcFs Vfs FdTable SecMem Syscall.
From S2P Require Import Damage Apps Permission Window Input Wm WmProps SyscallDev.

Implicit Types (m : WindowManager) (w : Window).

(** An operation of a process on one of its windows. *)
Variant WindowCall :=
| CallRaise | CallMinimize | CallRestore | CallSnapLeft | CallSnapRight | CallMaximize | CallFullscreen
| CallMove (x y : Z) | CallClose | CallDestroy.

(** What the user does. *)
Variant UserInput :=
| MouseDown (x y : Z)
| MouseUp (x y : Z)
| MouseMove (x y last_x last_y : Z)
| Key (held_ctrl held_alt held_shift : bool) (code : Z) (pressed : bool) (mods : Z).

Section desktop.
Context {PT DD : Type} `{!Mapper PT, !UserSpace PT, !Drive DD}.
Context (cpu : nat) (screen_w screen_h : Z).
Context (destroy_user_address_space : Z → comp (Memory (PT := PT)) string unit).
Abbreviation Desktop := (Desktop (PT := PT) (DD := DD)).
Implicit Types (d : Desktop).
Abbreviation M := (comp Desktop WmError).

Definition call_window (c : WindowCall) (pid id : Z) : M unit :=
  match c with
  | CallRaise => in_wm (raise_to_top screen_w pid id)
  | CallMinimize => in_wm (minimize_window screen_w pid id)
  | CallRestore => restore_window screen_w screen_h pid id
  | CallSnapLeft => snap_left screen_w screen_h pid id
  | CallSnapRight => snap_right screen_w screen_h pid id
  | CallMaximize => toggle_maximize_window screen_w screen_h pid id
  | CallFullscreen => toggle_fullscreen screen_w screen_h pid id
  | CallMove x y => in_wm (move_window screen_w screen_h pid id x y)
  | CallClose => request_close_window cpu screen_w destroy_user_address_space pid id
  | CallDestroy => destroy_window cpu screen_w destroy_user_address_space pid id
  end.

Definition user_input (e : UserInput) : M unit :=
  match e with
  | MouseDown x y => _ ← route_mouse_down cpu screen_w screen_h destroy_user_address_space x y; mret tt
  | MouseUp x y => route_mouse_up screen_w screen_h x y
  | MouseMove x y lx ly => route_mouse_move screen_w screen_h x y lx ly
  | Key c a s code pressed mods =>
      _ ← dispatch_keyboard_event cpu screen_w screen_h destroy_user_address_space c a s code pressed mods; mret tt
  end.

(** One operation that does not panic, for a process or (with no number) for the
    user; what the rest of the kernel does leaves the windows alone. *)
Inductive desk_step : option Z → Desktop → Desktop → Prop :=
| step_call c pid id d : (call_window c pid id d).1 ≠ Panic → desk_step (Some pid) d (call_window c pid id d).2
| step_create pid sid x y wd ht d :
    (create_window screen_w screen_h pid sid x y wd ht d).1 ≠ Panic →
    desk_step (Some pid) d (create_window screen_w screen_h pid sid x y wd ht d).2
| step_request q d : cq_opcode q ≠ COMP_OP_FOCUS_WINDOW →
    (dispatch_compositor_request cpu screen_w screen_h destroy_user_address_space q d).1 ≠ Panic →
    desk_step (Some (cq_client_pid q)) d (dispatch_compositor_request cpu screen_w screen_h destroy_user_address_space q d).2
| step_end pid d : (cleanup_windows_for_pid screen_w pid d).1 ≠ Panic →
    desk_step (Some pid) d (cleanup_windows_for_pid screen_w pid d).2
| step_user e d : (user_input e d).1 ≠ Panic → desk_step None d (user_input e d).2
| step_frame t d : (compositor_round screen_w screen_h t d).1 ≠ Panic →
    desk_step None d (compositor_round screen_w screen_h t d).2
| step_elsewhere p d d' : d_wm d' = d_wm d → desk_step p d d'.

Lemma serves_step {E A} p (c : comp Desktop E A) d : serves p None c → wm_ok (d_wm d) → (c d).1 ≠ Panic →
  wm_ok (d_wm (c d).2) ∧ others p (windows (d_wm (c d).2)) = others p (windows (d_wm d)).
Proof. intros Hc Hd Hr. by apply (Hc d Hd I). Qed.

Lemma call_serves c pid id : serves (Some pid) None (call_window c pid id).
Proof.
  destruct c; cbn [call_window]; [apply raise_serves|apply minimize_serves|apply restore_serves|apply snap_left_serves|
    apply snap_right_serves|apply maximize_serves|apply fullscreen_serves|apply move_serves|apply request_close_serves|
    apply destroy_serves].
Qed.
Lemma cleanup_serves pid : serves (Some pid) None (cleanup_windows_for_pid (PT := PT) (DD := DD) screen_w pid).
Proof. intros d Hd _. eapply wp_mono; [by apply cleanup_spec|]. intros r d' H Hr. by destruct (H Hr) as (_ & ? & ? & _). Qed.
Lemma input_serves e : serves None None (user_input e).
Proof.
  destruct e; cbn [user_input]; [|apply user_route_up|apply user_route_move|].
  - apply serves_bind; [apply user_route_down|]. intros ?. apply serves_ret.
  - apply serves_bind; [apply user_key|]. intros ?. apply serves_ret.
Qed.
Lemma frame_serves t : serves None None (compositor_round (PT := PT) (DD := DD) screen_w screen_h t).
Proof.
  unfold compositor_round. apply serves_get. intros a. cbv zeta. apply serves_if; [|apply serves_ret].
  apply serves_bind; [apply user_composite|]. intros ?. apply serves_ret.
Qed.

Lemma step_serves p d d' : desk_step p d d' → wm_ok (d_wm d) →
  wm_ok (d_wm d') ∧ others p (windows (d_wm d')) = others p (windows (d_wm d)).
Proof.
  intros [c pid id d0 Hr|pid sid x y wd ht d0 Hr|q d0 Hop Hr|pid d0 Hr|e d0 Hr|t d0 Hr|p' d0 d1 ->] Hd.
  - by apply serves_step; [apply call_serves|..].
  - by apply serves_step; [apply create_window_serves|..].
  - by apply serves_step; [apply request_serves|..].
  - by apply serves_step; [apply cleanup_serves|..].
  - by apply serves_step; [apply input_serves|..].
  - by apply serves_step; [apply frame_serves|..].
  - done.
Qed.

Lemma new_ok : wm_ok wm_new.
Proof.
  split; [split|..]; cbn [windows wm_new focused_window mru_list]; [apply NoDup_nil_2|..]; try (intros ? []%not_elem_of_nil); done.
Qed.

Definition reachable (d : Desktop) : Prop := ∃ d0, d_wm d0 = wm_new ∧ rtc (λ d d', ∃ p, desk_step p d d') d0 d.

Lemma reachable_ok d : reachable d → wm_ok (d_wm d).
Proof.
  intros (d0 & H0 & Hs). assert (wm_ok (d_wm d0)) as Hd by (rewrite H0; apply new_ok). clear H0.
  induction Hs as [|a b c [p Hab] _ IH]; [done|]. apply IH. by eapply step_serves.
Qed.

(** C16: On every desktop that processes, the user and the compositor can bring
    about from the empty one, in any order, the windows are consistent: their
    numbers are distinct and below the next one, the list of recent use names
    each exactly once, and at most one window, one that exists, has the focus.
    What is done for a process there leaves the windows of all the others as
    they are, in their order: geometry, state, title and surface; only the focus
    may move.  One request to the compositor is left out, the one for the focus,
    which breaks this (see the hazards below). *)
Theorem windows_are_isolated d :
  reachable d →
  wm_ok (d_wm d) ∧
  ∀ pid d', desk_step (Some pid) d d' →
    set_focused false <$> filter (λ w, w_owner w ≠ pid) (windows (d_wm d')) =
    set_focused false <$> filter (λ w, w_owner w ≠ pid) (windows (d_wm d)).
Proof.
  intros Hd%reachable_ok. split; [done|]. intros pid d' Hs. by apply (step_serves (Some pid)).
Qed.

(** ** Refusals *)

(** The caller is told why it may not touch the window. *)
Definition refusal (id : Z) m : WmError := match owner_of id m with Some _ => PermissionDenied | None => WmNotFound end.

Lemma owned_refused pid id m : owner_of id m ≠ Some pid → owned_window pid id m = (Err (refusal id m), m).
Proof.
  intros Ho. unfold refusal, owner_of in *. unfold owned_window, mbind, comp_bind, get, ok_or. cbn.
  destruct (find_window id m) as [[i w]|]; [|done]. cbn in *. unfold reject_if.
  assert ((w_owner w =? pid)%Z = false) as -> by (apply Z.eqb_neq; congruence). done.
Qed.

Lemma wp_refused {A} pid id (k : nat * Window → M A) d Q : owner_of id (d_wm d) ≠ Some pid →
  Q (Err (refusal id (d_wm d))) d → wp (in_wm (owned_window pid id) ≫= k) Q d.
Proof.
  intros Ho HQ. wp_step. unfold in_wm. wp_step. eapply wp_returns; [by apply owned_refused|]. cbn.
  by replace (with_wm (d_wm d) d) with d by by destruct d.
Qed.
Lemma wp_refused_wm {A} pid id (k : nat * Window → comp WindowManager WmError A) m Q : owner_of id m ≠ Some pid →
  Q (Err (refusal id m)) m → wp (owned_window pid id ≫= k) Q m.
Proof. intros Ho HQ. wp_step. eapply wp_returns; [by apply owned_refused|]. done. Qed.

Lemma call_refused c pid id d : owner_of id (d_wm d) ≠ Some pid →
  wp (call_window c pid id) (λ r d', r ≠ Panic → r = Err (refusal id (d_wm d)) ∧ ∃ t, d' = with_wm (with_damage t (d_wm d)) d) d.
Proof.
  intros Ho. assert (∀ r : outcome WmError (), r = Err (refusal id (d_wm d)) → r ≠ Panic → r = Err (refusal id (d_wm d)) ∧
    ∃ t, d = with_wm (with_damage t (d_wm d)) d) as Hsame.
  { intros r -> _. split; [done|]. exists (damage_tracker (d_wm d)). by destruct d as [[] ? ? ? ? ?]. }
  assert (∀ k : nat * Window → comp WindowManager WmError unit,
    wp (in_wm (owned_window pid id ≫= k)) (λ r d', r ≠ Panic → r = Err (refusal id (d_wm d)) ∧ ∃ t, d' = with_wm (with_damage t (d_wm d)) d) d) as Hwm.
  { intros k. unfold in_wm. wp_step. apply wp_refused_wm; [done|]. replace (with_wm (d_wm d) d) with d by by destruct d. by apply Hsame. }
  assert (∀ k : nat * Window → M unit, wp (in_wm (mark_full_damage screen_w screen_h);; (in_wm (owned_window pid id) ≫= k))
    (λ r d', r ≠ Panic → r = Err (refusal id (d_wm d)) ∧ ∃ t, d' = with_wm (with_damage t (d_wm d)) d) d) as Hfull.
  { intros k. wp_step. unfold in_wm at 1. wp_step. eapply wp_mono; [apply draws_full|].
    intros [[]|e|] m' [[t ->] He]; [|by destruct (He e)|done]. apply wp_refused; [done|]. intros _. split; [done|]. by exists t. }
  destruct c; [apply Hwm..|by apply wp_refused; [|apply Hsame]|by apply wp_refused; [|apply Hsame]|by apply wp_refused; [|apply Hsame]|
    apply Hfull|apply Hfull|apply Hwm|by apply wp_refused; [|apply Hsame]|by apply wp_refused; [|apply Hsame]].
Qed.

(** A process that names a window it does not own, or one that does not exist,
    is refused whatever it asks for: it gets [PermissionDenied] or
    [WmNotFound], and nothing changes but that the screen may be drawn again. *)
Theorem window_calls_need_ownership c pid id d d' r :
  owner_of id (d_wm d) ≠ Some pid →
  call_window c pid id d = (r, d') → r ≠ Panic →
  r = Err (match owner_of id (d_wm d) with Some _ => PermissionDenied | None => WmNotFound end) ∧
  ∃ t, d' = with_wm (with_damage t (d_wm d)) d.
Proof.
  intros Ho Hc Hr. pose proof (call_refused c pid id d Ho) as H. unfold wp in H. rewrite Hc in H. by apply H.
Qed.

(** ** Where input goes *)

Lemma deliver_others p pid ev (i : Inputs) : p ≠ pid → INPUT_QUEUES (deliver_event_to_pid pid ev i) !! p = INPUT_QUEUES i !! p.
Proof. intros Hp. unfold deliver_event_to_pid. case_decide; [done|]. cbn. by apply lookup_insert_ne. Qed.
Lemma deliver_key pid ev (i : Inputs) : pid ∉ KERNEL_INPUT_OWNERS i → is_move ev = false →
  ∃ q, INPUT_QUEUES (deliver_event_to_pid pid ev i) !! pid = Some (q ++ [ev]).
Proof.
  intros Hp Hm. unfold deliver_event_to_pid. rewrite decide_False by done. cbn. rewrite lookup_insert_eq.
  unfold push. rewrite Hm. by eexists.
Qed.

(** The topmost window with something at the point is in front and has the focus. *)
Definition clicked mx my id owner m m' : Prop :=
  ∃ l w above, windows m = l ++ w :: above ∧ w_id w = id ∧ w_owner w = owner ∧
    (click_zone w mx my = Some ZoneClient ∨ click_zone w mx my = Some ZoneFullscreen) ∧
    Forall (λ w, click_zone w mx my = None) above ∧
    focused_window m' = Some id ∧ (∃ w', last (windows m') = Some w' ∧ w_id w' = id).

Definition no_target {S E A} (c : comp S E (option A)) : Prop := ∀ s, wp c (λ r _, ∀ a, r ≠ Ok (Some a)) s.
Lemma no_target_bind {S E A B} (c : comp S E A) (k : A → comp S E (option B)) : (∀ a, no_target (k a)) → no_target (c ≫= k).
Proof. intros Hk s. apply wp_bind, wp_intro. destruct (c s) as [[a|e|] s']; cbn; [apply Hk|done..]. Qed.
Lemma no_target_ret {S E A} : no_target (mret (M := comp S E) (None : option A)).
Proof. by intros s. Qed.

(** A click ends at that window. *)
Lemma window_click_target mx my d : wm_ok (d_wm d) →
  wp (window_click cpu screen_w screen_h destroy_user_address_space mx my)
    (λ r d', ∀ id owner, r = Ok (Some (id, owner)) →
        clicked mx my id owner (d_wm d) (d_wm d') ∧ d_inputs d' = d_inputs d ∧ d_kernel d' = d_kernel d) d.
Proof.
  intros Hd. unfold window_click. wp_step. unfold in_wm at 1. wp_step. wp_step. replace (with_wm (d_wm d) d) with d by by destruct d.
  destruct (topmost _ _) as [[w z]|] eqn:Htop; [|by wp_step].
  destruct (topmost_Some _ _ _ _ Htop) as (l & above & Hws & Hz & Habove). cbv zeta.
  assert (z = ZoneFullscreen ∨ z = ZoneClient →
    wp (ignore (in_wm (raise_to_top_internal screen_w (w_id w)));; mret (M := M) (Some (w_id w, w_owner w)))
      (λ r d', ∀ id owner, r = Ok (Some (id, owner)) →
        clicked mx my id owner (d_wm d) (d_wm d') ∧ d_inputs d' = d_inputs d ∧ d_kernel d' = d_kernel d) d) as Hhit.
  { intros Hzc. wp_step. wp_step. unfold in_wm. wp_step. eapply wp_mono; [apply (raise_spec screen_w None); [done|done]|].
    intros r m' Hr. destruct r as [[]|e|]; [| |done].
    - destruct Hr as (Hok & _ & Hf & _); [done|]. destruct (Hf eq_refl) as (Hf' & j & x & [Hjx Hxid]%find_window_Some & Hlast). wp_step. intros id owner [= <- <-]. split; [|done].
      exists l, w, above. split_and!; try done; [destruct Hzc as [-> | ->]; auto|by exists (set_focused true x)].
    - destruct Hr as (_ & _ & _ & He); [done|]. destruct (He e eq_refl) as (_ & _ & Hout). destruct Hout.
      rewrite Hws. apply list_elem_of_fmap_2. set_solver. }
  assert (∀ c : M (option (Z * Z)), no_target c → wp c (λ r d', ∀ id owner, r = Ok (Some (id, owner)) →
        clicked mx my id owner (d_wm d) (d_wm d') ∧ d_inputs d' = d_inputs d ∧ d_kernel d' = d_kernel d) d) as Hno.
  { intros c Hc. eapply wp_mono; [apply Hc|]. intros r d' Hr id owner ->. by destruct (Hr (id, owner)). }
  destruct z as [| |b| |]; [by apply Hhit; left| | | |by apply Hhit; right]; apply Hno.
  - repeat (apply no_target_bind; intros ?). apply no_target_ret.
  - destruct b; repeat (apply no_target_bind; intros ?); apply no_target_ret.
  - repeat (apply no_target_bind; intros ?). apply no_target_ret.
Qed.

Lemma mouse_down_target mx my d : wm_ok (d_wm d) → (DOCK_HEIGHT ≤ my)%Z → launcher_open (d_wm d) = false →
  wp (handle_mouse_down cpu screen_w screen_h destroy_user_address_space mx my)
    (λ r d', ∀ id owner, r = Ok (Some (id, owner)) →
      clicked mx my id owner (d_wm d) (d_wm d') ∧ d_inputs d' = d_inputs d ∧ d_kernel d' = d_kernel d) d.
Proof.
  intros Hd Hmy Hl. unfold handle_mouse_down, launcher_click. wp_step. unfold in_wm. wp_step. wp_step. wp_step.
  rewrite Hl. cbn [negb]. wp_step. replace (with_wm (d_wm d) d) with d by by destruct d. cbv zeta iota beta.
  destruct (Z.ltb_spec my DOCK_HEIGHT); [lia|]. by apply window_click_target.
Qed.


(** Outcomes that are no delivery. *)
Definition undelivered {S E} (c : comp S E key_outcome) : Prop := ∀ s, wp c (λ r _, ∀ o i, r ≠ Ok (KeyTo o i)) s.
Lemma undelivered_bind {S E A} (c : comp S E A) (k : A → comp S E key_outcome) : (∀ a, undelivered (k a)) → undelivered (c ≫= k).
Proof. intros Hk s. apply wp_bind, wp_intro. destruct (c s) as [[a|e|] s']; cbn; [apply Hk|done..]. Qed.
Lemma undelivered_ret {S E} r : (∀ o i, r ≠ KeyTo o i) → undelivered (mret (M := comp S E) r).
Proof. intros Hr s. wp_step. intros o i [= ->]. by eapply Hr. Qed.
Ltac undelivered := repeat (apply undelivered_bind; intros ?); by apply undelivered_ret.

Lemma launcher_key_spec code d :
  wp (launcher_key (PT := PT) (DD := DD) code)
    (λ r d', match r with Ok (Some x) => ∀ o i, x ≠ KeyTo o i | Ok None => d' = d | _ => True end) d.
Proof.
  assert (∀ (c : M unit) k, (∀ d1, wp k (λ r _, ∃ x, r = Ok (Some x) ∧ ∀ o i, x ≠ KeyTo o i) d1) → ∀ d1, wp (c;; k)
    (λ r d', match r with Ok (Some x) => ∀ o i, x ≠ KeyTo o i | Ok None => d' = d | _ => True end) d1) as Hend.
  { intros c k Hk d1. apply wp_bind, wp_intro. destruct (c d1) as [[a|e|] s']; [|done..].
    eapply wp_mono; [apply Hk|]. by intros r d2 (x & -> & Hx). }
  unfold launcher_key. wp_step. unfold in_wm at 1. wp_step. wp_step. replace (with_wm (d_wm d) d) with d by by destruct d.
  case_match; [apply Hend; intros; wp_step; by eexists|]. case_match; [apply Hend; intros; wp_step; by eexists|].
  case_match; [|by wp_step]. wp_step. unfold in_wm at 1. wp_step. wp_step. apply Hend. intros d1. wp_step. eexists.
  split; [done|]. intros o i. by case_match.
Qed.

(** A key that [dispatch_keyboard_event] passes on goes to the owner of the
    window with the focus, as a press or a release with its code, at the end of
    its queue; no other process sees it and nothing else changes. *)
Theorem keys_reach_the_focused_window ctrl alt shift code pressed mods d d' owner id :
  dispatch_keyboard_event cpu screen_w screen_h destroy_user_address_space ctrl alt shift code pressed mods d
    = (Ok (KeyTo owner id), d') →
  focused_window (d_wm d) = Some id ∧ owner_of id (d_wm d) = Some owner ∧
  d' = with_inputs (d_inputs d') d ∧
  (∀ p, p ≠ owner → INPUT_QUEUES (d_inputs d') !! p = INPUT_QUEUES (d_inputs d) !! p) ∧
  (owner ∉ KERNEL_INPUT_OWNERS (d_inputs d) → ∃ q ev, INPUT_QUEUES (d_inputs d') !! owner = Some (q ++ [ev]) ∧
     event_type ev = (if pressed then EvKeyDown else EvKeyUp) ∧ key_code ev = code ∧ modifiers ev = mods).
Proof.
  intros Hr. pose (Q := λ (r : outcome WmError key_outcome) d', ∀ owner id, r = Ok (KeyTo owner id) →
    focused_window (d_wm d) = Some id ∧ owner_of id (d_wm d) = Some owner ∧
    d' = with_inputs (deliver_event_to_pid owner (mkEvent (if pressed then EvKeyDown else EvKeyUp) mods code 0 0 0 0 (k_tick (d_kernel d))) (d_inputs d)) d).
  assert (wp (dispatch_keyboard_event cpu screen_w screen_h destroy_user_address_space ctrl alt shift code pressed mods) Q d) as Hq.
  { assert (∀ c d, undelivered c → wp c Q d) as Hno.
    { intros c d1 Hc. eapply wp_mono; [apply Hc|]. intros r d2 H o i ->. by destruct (H o i). }
    unfold dispatch_keyboard_event. cbv zeta. wp_step. unfold in_wm at 1. wp_step. wp_step. replace (with_wm (d_wm d) d) with d by by destruct d.
    case_match; [apply Hno; undelivered|]. case_match; [apply Hno; undelivered|]. case_match; [apply Hno; undelivered|].
    wp_step. eapply wp_mono with (P := λ r d', match r with Ok (Some x) => ∀ o i, x ≠ KeyTo o i | Ok None => d' = d | _ => True end).
    { case_match; [apply launcher_key_spec|by wp_step]. }
    intros [[x|]|e|] d1 Hu; [wp_step; intros o i [= ->]; by destruct (Hu o i)| |done..]. subst d1.
    case_match; [apply Hno; undelivered|]. case_match; [apply Hno; undelivered|]. case_match; [apply Hno; undelivered|].
    unfold focused_key. wp_step. wp_step. cbv zeta. destruct (focused_window (d_wm d)) as [f|] eqn:Hf; cbn [mbind option_bind]; [|by wp_step].
    unfold window_of. destruct (find_window f (d_wm d)) as [[j w]|] eqn:Hw; cbn [fmap option_fmap option_map snd mbind option_bind]; [|by wp_step].
    case_match; [apply Hno; undelivered|]. wp_step. unfold deliver. wp_step. wp_step. intros o i [= <- <-].
    split_and!; [done| |done]. unfold owner_of. by rewrite Hw. }
  unfold wp in Hq. rewrite Hr in Hq. cbn [fst snd] in Hq. destruct (Hq _ _ eq_refl) as (Hf & Ho & Hd).
  split_and!; [done|done|by rewrite Hd| |].
  - intros p Hp. rewrite Hd. by apply deliver_others.
  - intros Hn. rewrite Hd.
    destruct (deliver_key owner (mkEvent (if pressed then EvKeyDown else EvKeyUp) mods code 0 0 0 0 (k_tick (d_kernel d))) (d_inputs d) Hn) as [q Hqq]; [by destruct pressed|].
    exists q. by eexists.
Qed.

(** ** Minimizing and restoring *)

(** The geometry is the one the state stands for. *)
Definition settled w : Prop :=
  visible w = true ∧
  match w_state w with
  | Normal => geom w = normal_geom w
  | Maximized => geom w = (0, WORK_AREA_TOP, screen_w, work_h screen_h)%Z
  | Fullscreen => geom w = (0, 0, screen_w, screen_h)%Z
  | SnappedLeft => geom w = (0, WORK_AREA_TOP, screen_w / 2, work_h screen_h)%Z
  | SnappedRight => geom w = (screen_w / 2, WORK_AREA_TOP, screen_w - screen_w / 2, work_h screen_h)%Z
  | Minimized | WinClosed => False
  end.

Lemma restored_focus b w : restored screen_w screen_h (set_focused b w) = set_focused b (restored screen_w screen_h w).
Proof. unfold restored. destruct w as [? ? ? ? ? ? ? ? ? s ? p ? ? ?]. cbn. destruct (decide (s = Minimized)); cbn; [destruct p|destruct s]; done. Qed.
Lemma settled_restored w : settled w → restored screen_w screen_h (minimized w) = set_focused false (set_prev (w_state w) w).
Proof.
  intros [Hv Hs]. unfold minimized. destruct (w_state w) eqn:E; try done; rewrite decide_True by done;
    destruct w; unfold geom in Hs; cbn in *; subst; simplify_eq/=; reflexivity.
Qed.

Lemma minimize_windows pid id m i w : find_window id m = Some (i, w) → w_owner w = pid →
  wp (minimize_window screen_w pid id) (λ r m', r ≠ Panic →
    r = Ok tt ∧ set_focused false <$> windows m' = set_focused false <$> <[i := minimized w]> (windows m)) m.
Proof.
  intros Hf Ho. unfold minimize_window. wp_step. apply owned_spec; [by rewrite Hf|intros j x; rewrite Hf; by intros [= <- <-]|].
  intros j x Hx _. rewrite Hf in Hx. injection Hx as <- <-. unfold replace_window. wp_step. wp_step. drawing. drawing.
  wp_step. wp_step. case_decide; [|by wp_step]. eapply wp_mono; [apply transfer_windows|]. done.
Qed.

(** Minimizing a window and restoring it brings it back as it was: in front,
    with the focus, in the state and at the place it had, whether it was at its
    normal place, maximized, in fullscreen or snapped to a side. *)
Theorem minimized_window_comes_back pid id i w d d' r :
  wm_ok (d_wm d) → find_window id (d_wm d) = Some (i, w) → w_owner w = pid → settled w →
  (in_wm (minimize_window screen_w pid id);; restore_window screen_w screen_h pid id) d = (r, d') → r ≠ Panic →
  r = Ok tt ∧ focused_window (d_wm d') = Some id ∧
  last (windows (d_wm d')) = Some (set_focused true (set_prev (w_state w) w)).
Proof.
  intros Hd Hf Ho Hset Hrun. refine (wp_result _ (λ r d', r ≠ Panic → r = Ok tt ∧ focused_window (d_wm d') = Some id ∧
    last (windows (d_wm d')) = Some (set_focused true (set_prev (w_state w) w))) _ _ _ Hrun _). clear Hrun r d'.
  pose proof (find_window_Some _ _ _ _ Hf) as [Hi Hid].
  wp_step. unfold in_wm at 1. wp_step. eapply wp_mono; [apply wp_and; [by eapply minimize_windows|]|].
  { apply (minimize_goes screen_w (Some pid)). intros j x Hx Hp. done. }
  intros r1 m1 [Ha Hb]. destruct r1 as [[]|e|]; [|by destruct Ha|done].
  destruct (Ha ltac:(done)) as [_ Hw]. destruct (Hb ltac:(done) Hd) as [Hm1 _]. clear Ha Hb.
  assert (∃ w1, windows m1 !! i = Some w1 ∧ set_focused false w1 = minimized w) as (w1 & Hi1 & Hw1).
  { assert ((set_focused false <$> windows m1) !! i = Some (set_focused false (minimized w))) as Hl.
    { rewrite Hw, list_lookup_fmap, list_lookup_insert_eq; [done|]. by eapply lookup_lt_Some. }
    rewrite list_lookup_fmap in Hl. apply fmap_Some in Hl as (w1 & Hw1 & He). exists w1. split; [done|]. rewrite <- He.
    unfold minimized. by case_decide. }
  assert (w1 = set_focused (focused w1) (minimized w)) as He1 by (rewrite <- Hw1; by destruct w1).
  assert (w_id w1 = id ∧ w_owner w1 = pid) as [Hid1 Ho1].
  { rewrite He1. cbn. unfold minimized. by case_decide. }
  assert (w1 ∈ windows m1) as Hin by by eapply list_elem_of_lookup_2.
  unfold restore_window. wp_step. unfold in_wm at 1. wp_step. cbn [d_wm with_wm].
  apply owned_spec; cycle 2.
  2:{ intros Hn. destruct (find_window_elem id w1 m1 Hin Hid1) as [x Hx]. by rewrite Hx in Hn. }
  2:{ intros j x Hx Hp. by rewrite <- (find_window_unique id j x w1 m1 Hm1 Hx Hin Hid1) in Hp. }
  intros j x Hx _. assert (x = w1) as -> by by rewrite (find_window_unique id j x w1 m1 Hm1 Hx Hin Hid1).
  set (w2 := restored screen_w screen_h w1). cbv zeta.
  assert (steps None m1 (with_windows (<[j := w2]> (windows m1)) m1)) as Hs by (apply (replaces_steps None j id w1); [done|done|apply restored_kind]).
  destruct (Hs Hm1) as [Hm2 _]. clear Hs.
  unfold replace_window. wp_step. unfold in_wm at 1. wp_step. wp_step. cbn [d_wm with_wm].
  wp_step. unfold rerender_app_surface. wp_step. eapply wp_mono; [apply kernel_keeps|]. intros rk d3 Hd3. cbn [d_wm with_wm] in Hd3.
  assert (wp (in_wm (mark_window_damage (geom w2));; in_wm (mark_top_bar_damage screen_w);; in_wm (raise_to_top_internal screen_w id))
    (λ r d', r ≠ Panic → r = Ok tt ∧ focused_window (d_wm d') = Some id ∧
     last (windows (d_wm d')) = Some (set_focused true (set_prev (w_state w) w))) d3) as Hrest; [|by destruct rk].
  clear rk. wp_step. unfold in_wm at 1. wp_step. eapply wp_mono; [apply draws_window|].
  intros [[]|e|] m3 [[t ->] He]; [|by destruct (He e)|done]. clear He.
  wp_step. unfold in_wm at 1. wp_step. eapply wp_mono; [apply draws_top_bar|].
  intros [[]|e|] m3 [[t' ->] He]; [|by destruct (He e)|done]. clear He.
  unfold in_wm. wp_step. cbn [d_wm with_wm]. rewrite Hd3.
  eapply wp_mono; [apply (raise_spec screen_w None); [by eapply ok_same|done]|].
  intros r4 m4 H4 Hr4. destruct (H4 Hr4) as (_ & _ & Hok & Herr).
  assert (w2 ∈ <[j := w2]> (windows m1)) as Hin2.
  { eapply list_elem_of_lookup_2, list_lookup_insert_eq, lookup_lt_Some. by apply find_window_Some in Hx as [Hx _]. }
  assert (w_id w2 = id) as Hid2 by (unfold w2; destruct (proj1 (restored_kind screen_w screen_h w1)) as [E _]; congruence).
  destruct r4 as [[]|e|]; [| |done].
  - destruct (Hok eq_refl) as (Hfoc & j' & x & Hx' & Hlast). split_and!; [done..|]. rewrite Hlast. f_equal.
    assert (w2 = x) as <- by (eapply find_window_unique; [|exact Hx'|exact Hin2|exact Hid2]; by eapply ok_same).
    unfold w2. rewrite He1, restored_focus, settled_restored by done. done.
  - destruct (Herr e eq_refl) as (_ & _ & Hout). destruct Hout. rewrite <- Hid2. by apply list_elem_of_fmap_2.
Qed.

(** ** What the window manager cannot take *)

Lemma clamp_Some lo hi v z : clamp lo hi v = Some z ↔ (lo ≤ hi ∧ z = lo `max` (v `min` hi))%Z.
Proof. unfold clamp. destruct (Z.ltb_spec hi lo); [split; [done|lia]|]. split; [by intros [= <-]|by intros [_ ->]]. Qed.
Lemma to_signed_small (n z : Z) : (z < 2 ^ (n - 1))%Z → to_signed n z = z.
Proof. intros H. unfold to_signed. destruct (Z.ltb_spec z (2 ^ (n - 1))); [done|lia]. Qed.

Lemma tall_window_does_not_fit x y wd ht :
  (0 ≤ screen_h < 2 ^ 31)%Z → (screen_h - 68 < ht)%Z → fit_new screen_w screen_h x y wd ht = None.
Proof.
  intros Hh Ht. unfold fit_new. destruct (clamp MIN_WINDOW_WIDTH screen_w wd) as [cw|]; [|done]. cbn [mbind option_bind].
  destruct (clamp MIN_WINDOW_HEIGHT _ ht) as [ch|] eqn:Hch; [|done]. cbn [mbind option_bind].
  destruct (clamp 0 _ x) as [cx|]; [|done]. cbn [mbind option_bind].
  destruct (clamp WORK_AREA_TOP _ y) as [cy|] eqn:Hcy; [|done]. apply clamp_Some in Hch as [Hle ->], Hcy as [Hle' _].
  unfold saturating_sub, WORK_AREA_TOP, DOCK_HEIGHT, MIN_WINDOW_HEIGHT in *. rewrite to_signed_small in Hle' by (cbn; lia). lia.
Qed.

Lemma tall_window_panics pid x y wd ht d :
  (0 < wd ≤ screen_w)%Z → (0 < ht ≤ screen_h)%Z → (screen_h < 2 ^ 31)%Z → (screen_h - 68 < ht)%Z →
  (create_window screen_w screen_h pid 0 x y wd ht d).1 = Panic.
Proof.
  intros Hw Hh Hsh Ht. enough (wp (create_window screen_w screen_h pid 0 x y wd ht) (λ r _, r = Panic) d) as H by done.
  unfold create_window. wp_step. wp_step. match goal with |- wp (let '(_, _) := ?p in _) _ _ => destruct p as [t ic] end.
  unfold create_window_with_meta. wp_step. wp_step.
  { reflect. destruct (Z.eqb_spec wd 0), (Z.eqb_spec ht 0), (Z.ltb_spec screen_w wd), (Z.ltb_spec screen_h ht); try done; lia. }
  wp_step. wp_step. wp_step. wp_step; [done|]. rewrite tall_window_does_not_fit by lia. wp_step. by wp_step.
Qed.

Lemma focus_request_obeyed q d : cq_opcode q = COMP_OP_FOCUS_WINDOW →
  let '(r, d') := dispatch_compositor_request cpu screen_w screen_h destroy_user_address_space q d in
  r = Ok (ok_window (cq_window_id q)) ∧ focused_window (d_wm d') = Some (cq_window_id q).
Proof. intros Hq. unfold dispatch_compositor_request. destruct (cq_damage q) as [[[dx dy] dw] dh]. by rewrite Hq. Qed.

Lemma narrow_resize_panics r mx my i w d :
  find_window (r_window r) (d_wm d) = Some (i, w) → r_edge r = EdgeRight →
  (screen_w - (r_geom r).1.1.1 < MIN_WINDOW_WIDTH)%Z →
  (move_resizing screen_w screen_h r mx my d).1 = Panic.
Proof.
  intros Hf He Hg. enough (wp (move_resizing screen_w screen_h r mx my) (λ r _, r = Panic) d) as H by done.
  unfold move_resizing. wp_step. wp_step; [done|]. wp_step. wp_step; [done|]. wp_step. unfold in_wm at 1. wp_step. wp_step.
  rewrite Hf. wp_step. wp_step. wp_step; [done|]. exfalso. revert H1. rewrite He. unfold resized, drag_right.
  destruct (r_geom r) as [[[ox oy] ow] oh], (geom w) as [[[x y] wd] ht]. cbn in Hg. unfold clamp.
  destruct (Z.ltb_spec (screen_w - ox) MIN_WINDOW_WIDTH); [done|lia].
Qed.

Lemma click_maximizes w : (w_y w ≤ WORK_AREA_TOP + EDGE_SNAP_THRESHOLD)%Z → w_state (dropped screen_w screen_h w) = Maximized.
Proof. intros H. unfold dropped. by destruct (Z.leb_spec (w_y w) (WORK_AREA_TOP + EDGE_SNAP_THRESHOLD)); [|lia]. Qed.

Lemma back_to_normal_state mh w w' : back_to_normal screen_w screen_h mh w = Some w' → w_state w' = Normal.
Proof.
  unfold back_to_normal. destruct (normal_geom w) as [[[nx ny] nw] nh].
  by intros (? & _ & (? & _ & (? & _ & (? & _ & [= <-])%bind_Some)%bind_Some)%bind_Some)%bind_Some.
Qed.
Lemma fullscreen_forgets w w' : w_state w = Fullscreen →
  toggled_fullscreen screen_w screen_h (restored screen_w screen_h (minimized w)) = Some w' → w_state w' = Normal.
Proof.
  intros Hs. assert (w_state (restored screen_w screen_h (minimized w)) = Fullscreen ∧
    prev_state (restored screen_w screen_h (minimized w)) = Fullscreen) as [H1 H2].
  { destruct w. cbn in Hs. subst. by split. }
  unfold toggled_fullscreen. rewrite H1, H2, decide_True, decide_False by done.
  intros (w1 & H & [= <-])%bind_Some. by apply back_to_normal_state in H.
Qed.

(** Requests and clicks that the window manager does not take well, whatever
    its state.  A process that asks for a window taller than the screen less 68
    rows panics the kernel; a window whose left border is less than the minimum
    width from the right end of the screen panics it when its right border is
    dragged.  The request for the focus is obeyed whoever sends it and whatever
    window it names.  Letting go of a window near the top bar maximizes it, so
    a click on the title bar of a window snapped to a side does.  A
    fullscreen window that was minimized leaves fullscreen to its normal place,
    not to the maximized state it had before. *)
Theorem window_manager_hazards :
  (∀ pid x y wd ht d, (0 < wd ≤ screen_w)%Z → (0 < ht ≤ screen_h)%Z → (screen_h < 2 ^ 31)%Z → (screen_h - 68 < ht)%Z →
     (create_window screen_w screen_h pid 0 x y wd ht d).1 = Panic) ∧
  (∀ r mx my i w d, find_window (r_window r) (d_wm d) = Some (i, w) → r_edge r = EdgeRight →
     (screen_w - (r_geom r).1.1.1 < MIN_WINDOW_WIDTH)%Z → (move_resizing screen_w screen_h r mx my d).1 = Panic) ∧
  (∀ q d, cq_opcode q = COMP_OP_FOCUS_WINDOW →
     let '(r, d') := dispatch_compositor_request cpu screen_w screen_h destroy_user_address_space q d in
     r = Ok (ok_window (cq_window_id q)) ∧ focused_window (d_wm d') = Some (cq_window_id q)) ∧
  (∀ w, (w_y w ≤ WORK_AREA_TOP + EDGE_SNAP_THRESHOLD)%Z → w_state (dropped screen_w screen_h w) = Maximized) ∧
  (∀ w w', w_state w = Fullscreen → toggled_fullscreen screen_w screen_h (restored screen_w screen_h (minimized w)) = Some w' →
     w_state w' = Normal).
Proof.
  split_and!; [apply tall_window_panics|apply narrow_resize_panics|apply focus_request_obeyed|apply click_maximizes|
    apply fullscreen_forgets].
Qed.
End desktop.

(** ** A desktop *)

#[local] Existing Instances machine_mapper machine_user.

Definition demo_desktop : Type := Desktop (PT := machine) (DD := gmap Z bytes).
Definition no_tables (cr3 : Z) : comp (Memory (PT := machine)) string unit := mret tt.

(** An empty desktop of 1024 by 768, and two windows of different processes on it:
    number 1 of process 1, and number 2 of process 2, which overlaps it. *)
Definition empty_desktop : demo_desktop := mkDesktop wm_new app_kernel (mkInputs ∅ ∅) ∅ (mkInstances ∅ ∅ ∅ ∅ ∅ ∅) CursorDefault.
Definition one_window : demo_desktop := (create_window 1024 768 1 0 100 100 300 200 empty_desktop).2.
Definition two_windows : demo_desktop := (create_window 1024 768 2 0 200 150 300 200 one_window).2.

Lemma two_windows_reachable : reachable 0 1024 768 no_tables two_windows.
Proof.
  exists empty_desktop. split; [reflexivity|].
  eapply rtc_l; [exists (Some 1%Z); apply (step_create _ _ _ _ 1 0 100 100 300 200 empty_desktop); vm_compute; discriminate|].
  eapply rtc_l; [exists (Some 2%Z); apply (step_create _ _ _ _ 2 0 200 150 300 200 one_window); vm_compute; discriminate|].
  apply rtc_refl.
Qed.

Lemma two_windows_ok : wm_ok (d_wm two_windows).
Proof. exact (reachable_ok 0 1024 768 no_tables two_windows two_windows_reachable). Qed.

(** Process 1 snaps its window to the left; the one of process 2 stays where it is. *)
Definition snapped_desktop : demo_desktop := (snap_left 1024 768 1 1 two_windows).2.
Lemma windows_are_isolated_witness :
  wm_ok (d_wm two_windows) ∧
  geom <$> windows (d_wm snapped_desktop) = [(200, 150, 300, 200); (0, 24, 512, 744)]%Z ∧
  set_focused false <$> filter (λ w, w_owner w ≠ 1%Z) (windows (d_wm snapped_desktop)) =
  set_focused false <$> filter (λ w, w_owner w ≠ 1%Z) (windows (d_wm two_windows)).
Proof.
  destruct (windows_are_isolated 0 1024 768 no_tables two_windows two_windows_reachable) as [H1 H2].
  split; [exact H1|]. split; [vm_compute; reflexivity|].
  apply H2. apply (step_call 0 1024 768 no_tables CallSnapLeft 1 1 two_windows). vm_compute. discriminate.
Defined.

Lemma window_calls_need_ownership_witness :
  (call_window 0 1024 768 no_tables CallDestroy 1 2 two_windows).1 = Err PermissionDenied ∧
  (call_window 0 1024 768 no_tables CallDestroy 1 3 two_windows).1 = Err WmNotFound.
Proof.
  split.
  - refine (proj1 (window_calls_need_ownership 0 1024 768 no_tables CallDestroy 1 2 two_windows _ _ _ (surjective_pairing _) _)); vm_compute; discriminate.
  - refine (proj1 (window_calls_need_ownership 0 1024 768 no_tables CallDestroy 1 3 two_windows _ _ _ (surjective_pairing _) _)); vm_compute; discriminate.
Defined.

(** A click where the windows overlap, and a key. *)
Definition clicked_desktop : demo_desktop := (route_mouse_down 0 1024 768 no_tables 250 200 two_windows).2.

Definition typed_desktop : demo_desktop := (dispatch_keyboard_event 0 1024 768 no_tables false false false 30 true 0 two_windows).2.
Lemma keys_reach_the_focused_window_witness :
  focused_window (d_wm two_windows) = Some 2%Z ∧
  INPUT_QUEUES (d_inputs typed_desktop) !! 1%Z = None ∧
  ∃ q ev, INPUT_QUEUES (d_inputs typed_desktop) !! 2%Z = Some (q ++ [ev]) ∧ key_code ev = 30%Z.
Proof.
  destruct (keys_reach_the_focused_window 0 1024 768 no_tables false false false 30 true 0 two_windows typed_desktop 2 2)
    as (H1 & _ & _ & H2 & H3).
  - rewrite (surjective_pairing (dispatch_keyboard_event 0 1024 768 no_tables false false false 30 true 0 two_windows)).
    apply (f_equal2 pair); [vm_compute; reflexivity|reflexivity].
  - split; [exact H1|]. split; [rewrite H2; [vm_compute; reflexivity|discriminate]|].
    destruct H3 as (q & ev & Hq & _ & Hk & _); [refine (bool_decide_unpack _ _); vm_compute; exact I|]. exists q, ev. split; [exact Hq|exact Hk].
Defined.

Lemma minimized_window_comes_back_witness :
  last (windows (d_wm ((in_wm (minimize_window 1024 1 1);; restore_window 1024 768 1 1) snapped_desktop).2)) =
  Some (mkWindow 1 1 0 0 24 512 744 true true SnappedLeft (100, 100, 300, 200)%Z SnappedLeft None
          (title (default (mkWindow 0 0 0 0 0 0 0 true true Normal (0, 0, 0, 0)%Z Normal None [] IconGeneric) (last (windows (d_wm snapped_desktop)))))
          IconGeneric).
Proof.
  etrans; [eapply (minimized_window_comes_back 1024 768 1 1 1
    (default (mkWindow 0 0 0 0 0 0 0 true true Normal (0, 0, 0, 0)%Z Normal None [] IconGeneric) (last (windows (d_wm snapped_desktop)))) snapped_desktop);
    [|vm_compute; reflexivity|vm_compute; reflexivity|split; vm_compute; reflexivity|apply surjective_pairing|vm_compute; discriminate]|].
  - refine (proj1 (step_serves 0 1024 768 no_tables (Some 1%Z) two_windows snapped_desktop _ _)).
    + apply (step_call 0 1024 768 no_tables CallSnapLeft 1 1 two_windows). vm_compute. discriminate.
    + exact two_windows_ok.
  - vm_compute. reflexivity.
Defined.

(** A window of 720 rows on this screen. *)
Lemma window_manager_hazards_witness : (create_window 1024 768 1 0 0 24 300 720 empty_desktop).1 = Panic.
Proof. apply (window_manager_hazards 0 1024 768 no_tables); [lia|lia|lia|lia]. Defined.
