(* ===== verification/NetPacket.v ===== *)
(** * Packets (kernel/src/net.rs)

    The formats of the network stack: the Internet checksum, Ethernet, ARP, IPv4,
    UDP and TCP headers, names and answers of DNS, the ARP cache and the tracker
    of TCP connections.  A parser reads by index; an index outside of the packet
    is a panic, and so is running out of fuel in the loops over a DNS message. *)
From S2P Require Import Prelude Bytes Text.

(** Big-endian integers: [z.to_be_bytes()] of an [n]-byte integer, and back. *)
Definition to_be (n : nat) (z : Z) : bytes := rev (to_le n z).
Definition from_be (l : bytes) : Z := from_le (rev l).

(** ** The checksum *)

(** The data as 16-bit words, the last one padded —
    kernel/src/net.rs:8-16 [calculate_checksum, words] *)
Fixpoint words (data : bytes) : list Z :=
  match data with
  | a :: b :: data => (a * 256 + b)%Z :: words data
  | [a] => [(a * 256)%Z]
  | [] => []
  end.

Definition sum (ws : list Z) : Z := foldr Z.add 0%Z ws.

(** [while (sum >> 16) > 0 { sum = (sum & 0xFFFF) + (sum >> 16) }] —
    kernel/src/net.rs:17-19 [calculate_checksum, carries] *)
Fixpoint fold_carries (fuel : nat) (s : Z) : option Z :=
  if (0 <? Z.shiftr s 16)%Z then
    match fuel with
    | O => None
    | S fuel => fold_carries fuel (Z.land s 65535 + Z.shiftr s 16)
    end
  else Some s.

(** The sum only grows, so it overflows if the whole does —
    kernel/src/net.rs:7-21 [calculate_checksum] *)
Definition calculate_checksum (data : bytes) : option Z :=
  s ← fits 32 (sum (words data));
  s ← fold_carries 3 s;
  Some (65535 - wrap 16 s)%Z.

(** [l[i] = (v >> 8) as u8; l[i + 1] = (v & 0xFF) as u8] *)
Definition put_u16 (i : nat) (v : Z) (l : bytes) : bytes := <[i := Z.shiftr v 8]> (<[S i := Z.land v 255]> l).

(** ** Building *)

(** kernel/src/net.rs:39-42 [MAC_BROADCAST, MY_IP] *)
Definition MAC_BROADCAST : bytes := [255; 255; 255; 255; 255; 255]%Z.
Definition MY_IP : bytes := [10; 0; 2; 15]%Z.

(** The part that requests and replies share — kernel/src/net.rs:91-103 [send_arp_request, frame] *)
Definition arp_frame (dest_mac my_mac : bytes) (op : Z) (target_mac target_ip : bytes) : bytes :=
  dest_mac ++ my_mac ++ [8; 6]%Z ++ [0; 1; 8; 0; 6; 4; 0; op]%Z ++ my_mac ++ MY_IP ++ target_mac ++ target_ip.
(** kernel/src/net.rs:87-106 [send_arp_request] *)
Definition arp_request (my_mac target_ip : bytes) : bytes :=
  arp_frame MAC_BROADCAST my_mac 1 [0; 0; 0; 0; 0; 0]%Z target_ip.
(** kernel/src/net.rs:117-136 [send_arp_reply] *)
Definition arp_reply (my_mac target_ip target_mac : bytes) : bytes := arp_frame target_mac my_mac 2 target_mac target_ip.

(** kernel/src/net.rs:240-246 [send_ethernet_packet] *)
Definition ethernet_frame (dest_mac src_mac : bytes) (ethertype : Z) (payload : bytes) : bytes :=
  dest_mac ++ src_mac ++ to_be 2 ethertype ++ payload.

(** kernel/src/net.rs:255-278 [build_ipv4_packet] *)
Definition build_ipv4_packet (dest_ip : bytes) (protocol : Z) (payload : bytes) : option bytes :=
  let total_len := wrap 16 (20 + Z.of_nat (length payload)) in
  let header := [69; 0]%Z ++ to_be 2 total_len ++ [18; 52; 0; 0; 64; protocol; 0; 0]%Z ++ MY_IP ++ dest_ip in
  header20 ← slice 0 20 header;
  checksum ← calculate_checksum header20;
  Some (put_u16 10 checksum header ++ payload).

(** kernel/src/net.rs:286-295 [build_udp_packet] *)
Definition build_udp_packet (src_port dest_port : Z) (data : bytes) : bytes :=
  to_be 2 src_port ++ to_be 2 dest_port ++ to_be 2 (wrap 16 (8 + Z.of_nat (length data))) ++ [0; 0]%Z ++ data.

(** kernel/src/net.rs:303-309 [tcp_flags] *)
Definition FIN : Z := 1.
Definition SYN : Z := 2.
Definition RST : Z := 4.
Definition PSH : Z := 8.
Definition ACK : Z := 16.

(** The segment before its checksum, and the header the checksum is over —
    kernel/src/net.rs:321-340 [build_tcp_packet, pseudo] *)
Definition tcp_segment (src_port dest_port seq ack flags : Z) (payload : bytes) : bytes :=
  to_be 2 src_port ++ to_be 2 dest_port ++ to_be 4 seq ++ to_be 4 ack ++ [80; flags]%Z ++ to_be 2 8192
  ++ [0; 0; 0; 0]%Z ++ payload.
Definition pseudo_header (dest_ip tcp : bytes) : bytes :=
  MY_IP ++ dest_ip ++ [0; 6]%Z ++ to_be 2 (wrap 16 (Z.of_nat (length tcp))) ++ tcp.
(** kernel/src/net.rs:312-346 [build_tcp_packet] *)
Definition build_tcp_packet (src_port dest_port : Z) (dest_ip : bytes) (seq ack flags : Z) (payload : bytes) : option bytes :=
  let tcp := tcp_segment src_port dest_port seq ack flags payload in
  checksum ← calculate_checksum (pseudo_header dest_ip tcp);
  Some (put_u16 16 checksum tcp).

(** ** Parsing *)

Section parsing.
Context {S E : Type}.
Abbreviation P := (comp S E).

(** [packet[i]], [((packet[i] as u16) << 8) | packet[i + 1] as u16], and [packet[a..b]]
    copied to an array. *)
Definition at_ (i : nat) (packet : bytes) : P Z := unwrap (packet !! i).
Definition u16_at (i : nat) (packet : bytes) : P Z :=
  a ← at_ i packet; b ← at_ (Datatypes.S i) packet; mret (Z.lor (Z.shiftl a 8) b).
Definition range (a b : nat) (packet : bytes) : P bytes := unwrap (slice a b packet).

(** kernel/src/net.rs:139-153 [parse_arp] *)
Definition parse_arp (packet : bytes) : P (option (bytes * bytes * Z)) :=
  if (length packet <? 14 + 28)%nat then mret None
  else
    eth_type ← u16_at 12 packet;
    if negb (eth_type =? 2054)%Z then mret None
    else
      op ← u16_at 20 packet;
      sender_mac ← range 22 28 packet;
      sender_ip ← range 28 32 packet;
      mret (Some (sender_ip, sender_mac, op)).

(** kernel/src/net.rs:468-475 [TcpHeader] *)
Record TcpHeader := mkTcp {
  tcp_src : Z;
  tcp_dst : Z;
  tcp_seqno : Z;
  tcp_ackno : Z;
  tcp_flags : Z;
  data_offset : nat;
}.

(** kernel/src/net.rs:480-508 [parse_tcp_header] *)
Definition parse_tcp_header (packet : bytes) (tcp_start : nat) : P (option TcpHeader) :=
  if (length packet <? tcp_start + 20)%nat then mret None
  else
    src_port ← u16_at tcp_start packet;
    dst_port ← u16_at (tcp_start + 2) packet;
    seq ← range (tcp_start + 4) (tcp_start + 8) packet;
    ack ← range (tcp_start + 8) (tcp_start + 12) packet;
    offset ← at_ (tcp_start + 12) packet;
    flags ← at_ (tcp_start + 13) packet;
    mret (Some (mkTcp src_port dst_port (from_be seq) (from_be ack) flags (Z.to_nat (Z.shiftr offset 4) * 4))).

(** A bad checksum is computed and not acted on — kernel/src/net.rs:543-567 [parse_ipv4_header] *)
Definition parse_ipv4_header (packet : bytes) : P (option (bytes * bytes * Z * nat)) :=
  if (length packet <? 20)%nat then mret None
  else
    first ← at_ 0 packet;
    if negb (Z.shiftr first 4 =? 4)%Z then mret None
    else
      let ihl := (Z.to_nat (Z.land first 15) * 4)%nat in
      if (length packet <? ihl)%nat then mret None
      else
        total_len ← u16_at 2 packet;
        if (Z.of_nat (length packet) <? total_len)%Z then mret None
        else
          header ← range 0 ihl packet;
          checksum ← unwrap (calculate_checksum header);
          protocol ← at_ 9 packet;
          src ← range 12 16 packet;
          dst ← range 16 20 packet;
          mret (Some (src, dst, protocol, ihl)).

(** kernel/src/net.rs:513-524 [parse_ipv4_payload] *)
Definition parse_ipv4_payload (packet : bytes) : P (option (bytes * bytes * Z * nat)) :=
  if (length packet <? 34)%nat then mret None
  else
    eth_type ← u16_at 12 packet;
    if negb (eth_type =? 2048)%Z then mret None
    else
      r ← parse_ipv4_header (drop 14 packet);
      mret ((λ '(src, dst, proto, ihl), (src, dst, proto, 14 + ihl)) <$> r).

(** ** Names and answers *)

(** kernel/src/net.rs:603-611 [encode_domain_name] *)
Definition encode_domain_name (domain : bytes) : bytes :=
  concat (map (λ part, wrap 8 (Z.of_nat (length part)) :: part) (split 46 domain)) ++ [0%Z].

(** kernel/src/net.rs:613-630 [create_dns_query_packet, data] *)
Definition dns_query (domain : bytes) (transaction_id : Z) : bytes :=
  to_be 2 transaction_id ++ [1; 0; 0; 1; 0; 0; 0; 0; 0; 0]%Z ++ encode_domain_name domain ++ [0; 1; 0; 1]%Z.

(** The name of a question: a byte that refers elsewhere ends it —
    kernel/src/net.rs:673-680 [parse_dns_response, question] *)
Fixpoint skip_question (fuel : nat) (packet : bytes) (offset : nat) : P nat :=
  match fuel with
  | O => panic
  | Datatypes.S fuel =>
      if (offset <? length packet)%nat then
        len ← at_ offset packet;
        if (len =? 0)%Z then mret offset
        else if (Z.land len 192 =? 192)%Z then mret (offset + 1)
        else skip_question fuel packet (offset + Z.to_nat len + 1)
      else mret offset
  end.
(** [for _ in 0..q_count] — kernel/src/net.rs:672-683 [parse_dns_response, questions] *)
Fixpoint skip_questions (n : nat) (packet : bytes) (offset : nat) : P nat :=
  match n with
  | O => mret offset
  | Datatypes.S n =>
      o ← skip_question (Datatypes.S (length packet)) packet offset;
      skip_questions n packet (o + 1 + 4)
  end.

(** The name of an answer that starts with a label —
    kernel/src/net.rs:693-697 [parse_dns_response, label] *)
Fixpoint skip_labels (fuel : nat) (packet : bytes) (offset : nat) : P nat :=
  match fuel with
  | O => panic
  | Datatypes.S fuel =>
      if (offset <? length packet)%nat then
        len ← at_ offset packet;
        if (len =? 0)%Z then mret offset else skip_labels fuel packet (offset + Z.to_nat len + 1)
      else mret offset
  end.

(** kernel/src/net.rs:687-720 [parse_dns_response, answers] *)
Fixpoint read_answers (n : nat) (packet : bytes) (offset : nat) (ips : list bytes) : P (list bytes) :=
  match n with
  | O => mret ips
  | Datatypes.S n =>
      if (length packet <=? offset)%nat then mret ips
      else
        first ← at_ offset packet;
        offset ← (if (Z.land first 192 =? 192)%Z then mret (offset + 2)
                  else o ← skip_labels (Datatypes.S (length packet)) packet offset; mret (o + 1));
        if (length packet <? offset + 10)%nat then mret ips
        else
          atype ← u16_at offset packet;
          aclass ← u16_at (offset + 2) packet;
          rdlength ← u16_at (offset + 8) packet;
          let offset := offset + 10 in
          if (length packet <? offset + Z.to_nat rdlength)%nat then mret ips
          else
            ips ← (if ((atype =? 1) && (aclass =? 1) && (rdlength =? 4))%Z
                   then ip ← range offset (offset + 4) packet; mret (ips ++ [ip]) else mret ips);
            read_answers n packet (offset + Z.to_nat rdlength) ips
  end.

(** The checks before the questions — kernel/src/net.rs:644-663 [parse_dns_response, header] *)
Definition dns_header (packet : bytes) (expected_tx_id : Z) : P (option nat) :=
  if (length packet <? 54)%nat then mret None
  else
    r ← parse_ipv4_header (drop 14 packet);
    match r with
    | None => mret None
    | Some (_, _, proto, ihl) =>
        if negb (proto =? 17)%Z then mret None
        else
          let udp_offset := 14 + ihl in
          if (length packet <? udp_offset + 8)%nat then mret None
          else
            dest_port ← u16_at (udp_offset + 2) packet;
            if negb (dest_port =? 51966)%Z then mret None
            else
              let dns_offset := udp_offset + 8 in
              if (length packet <? dns_offset + 12)%nat then mret None
              else
                tx_id ← u16_at dns_offset packet;
                if negb (tx_id =? expected_tx_id)%Z then mret None
                else
                  flags ← u16_at (dns_offset + 2) packet;
                  mret (if (Z.land flags 32768 =? 0)%Z then None else Some dns_offset)
    end.

(** kernel/src/net.rs:643-726 [parse_dns_response] *)
Definition parse_dns_response (packet : bytes) (expected_tx_id : Z) : P (option (list bytes)) :=
  h ← dns_header packet expected_tx_id;
  match h with
  | None => mret None
  | Some dns_offset =>
      q_count ← u16_at (dns_offset + 4) packet;
      a_count ← u16_at (dns_offset + 6) packet;
      if (a_count =? 0)%Z then mret (Some [])
      else
        offset ← skip_questions (Z.to_nat q_count) packet (dns_offset + 12);
        ips ← read_answers (Z.to_nat a_count) packet offset [];
        mret (Some ips)
  end.
End parsing.

(** ** The cache of addresses *)

(** kernel/src/net.rs:29-33 [ArpEntry] *)
Record ArpEntry := mkArp { arp_ip : bytes; arp_mac : bytes; arp_time : Z }.

(** kernel/src/net.rs:45-45 [ARP_ENTRY_TTL_MS] *)
Definition ARP_ENTRY_TTL_MS : Z := 60000.

(** kernel/src/net.rs:47-55 [arp_cache_lookup] *)
Definition arp_cache_lookup (ip : bytes) (cache : list ArpEntry) : option bytes :=
  arp_mac ∘ snd <$> list_find (λ e, arp_ip e = ip) cache.

(** kernel/src/net.rs:57-71 [arp_cache_insert_with_time] *)
Definition arp_cache_insert_with_time (ip mac : bytes) (current_time : Z) (cache : list ArpEntry) : list ArpEntry :=
  match list_find (λ e, arp_ip e = ip) cache with
  | Some (i, _) => <[i := mkArp ip mac current_time]> cache
  | None => (if (32 <=? length cache)%nat then tail cache else cache) ++ [mkArp ip mac current_time]
  end.
(** kernel/src/net.rs:73-75 [arp_cache_insert] *)
Definition arp_cache_insert (ip mac : bytes) (cache : list ArpEntry) : list ArpEntry := arp_cache_insert_with_time ip mac 0 cache.

(** The entries that stay, and how many go — kernel/src/net.rs:78-83 [arp_cache_prune_expired] *)
Definition arp_cache_prune_expired (current_time : Z) (cache : list ArpEntry) : nat * list ArpEntry :=
  let kept := filter (λ e, arp_time e = 0%Z ∨ (saturating_sub current_time (arp_time e) < ARP_ENTRY_TTL_MS)%Z) cache in
  (length cache - length kept, kept).

(** ** The tracker of TCP connections *)

(** kernel/src/net.rs:385-397 [TcpState] *)
Variant TcpState := TcpClosed | TcpListen | TcpSynSent | TcpSynReceived | TcpEstablished | TcpFinWait1 | TcpFinWait2
  | TcpCloseWait | TcpClosing | TcpLastAck | TcpTimeWait.
#[export] Instance TcpState_eq : EqDecision TcpState.
Proof. solve_decision. Defined.

(** kernel/src/net.rs:400-409 [TcpConnectionTracker] *)
Record TcpConnectionTracker := mkTracker {
  t_local_port : Z;
  t_remote_ip : bytes;
  t_remote_port : Z;
  t_state : TcpState;
  snd_una : Z;
  snd_nxt : Z;
  rcv_nxt : Z;
  snd_wnd : Z;
}.

(** kernel/src/net.rs:412-423 [TcpConnectionTracker::new] *)
Definition tracker_new (local_port : Z) (remote_ip : bytes) (remote_port isn : Z) : option TcpConnectionTracker :=
  next ← fits 32 (isn + 1);
  Some (mkTracker local_port remote_ip remote_port TcpSynSent isn next 0 8192).

(** kernel/src/net.rs:425-434 [TcpConnectionTracker::handle_syn_ack] *)
Definition handle_syn_ack (seq ack : Z) (t : TcpConnectionTracker) : bool * TcpConnectionTracker :=
  if decide (t_state t = TcpSynSent) then
    if (ack =? snd_nxt t)%Z then
      (true, mkTracker (t_local_port t) (t_remote_ip t) (t_remote_port t) TcpEstablished ack (snd_nxt t) (wrap 32 (seq + 1)) (snd_wnd t))
    else (false, t)
  else (false, t).

(** kernel/src/net.rs:436-444 [TcpConnectionTracker::handle_fin] *)
Definition handle_fin (seq : Z) (t : TcpConnectionTracker) : TcpConnectionTracker :=
  let moved s := mkTracker (t_local_port t) (t_remote_ip t) (t_remote_port t) s (snd_una t) (snd_nxt t) (wrap 32 (seq + 1)) (snd_wnd t) in
  match t_state t with
  | TcpEstablished => moved TcpCloseWait
  | TcpFinWait1 | TcpFinWait2 => moved TcpTimeWait
  | _ => t
  end.
