(* ===== verification/PacketProps.v ===== *)
(** * Packets: properties

    The checksum that a builder stores makes the receiver's checksum come out
    as zero; what is built is parsed back; the parser of DNS answers takes any
    packet; the cache of addresses is a bounded map. *)
From S2P Require Import Prelude Bytes Text NetPacket.

(** ** Big-endian integers *)

Lemma length_to_be n z : length (to_be n z) = n.
Proof. unfold to_be. by rewrite length_rev, length_to_le. Qed.
Lemma to_be_bytes n z : Forall byte (to_be n z).
Proof. apply Forall_rev, to_le_bytes. Qed.
Lemma from_be_to_be n z : (0 ≤ z < 256 ^ Z.of_nat n)%Z → from_be (to_be n z) = z.
Proof. intros Hz. unfold from_be, to_be. rewrite rev_involutive. by apply from_le_to_le. Qed.
Lemma to_be_2 z : to_be 2 z = [(z / 256) mod 256; z mod 256]%Z.
Proof. done. Qed.

(** ** The checksum *)

Lemma sum_app a b : sum (a ++ b) = (sum a + sum b)%Z.
Proof. unfold sum. induction a as [|x a IH]; cbn; [done|]. rewrite IH. lia. Qed.

(** Two bytes at a time. *)
Lemma words_ind (P : bytes → Prop) : P [] → (∀ a, P [a]) → (∀ a b l, P l → P (a :: b :: l)) → ∀ l, P l.
Proof.
  intros H0 H1 H2 l. enough (P l ∧ ∀ a, P (a :: l)) by tauto.
  induction l as [|b l [IH1 IH2]]; [by split|]. split; [done|]. intros a. by apply H2.
Qed.

Lemma words_app a b : Nat.Even (length a) → words (a ++ b) = words a ++ words b.
Proof.
  revert a. apply (words_ind (λ a, Nat.Even (length a) → words (a ++ b) = words a ++ words b)); [done| |].
  - intros x [k Hk]. cbn in Hk. lia.
  - intros x y l IH [k Hk]. cbn in *. rewrite IH; [done|]. exists (k - 1). lia.
Qed.

Lemma words_bounds data : Forall byte data →
  (0 ≤ sum (words data) ≤ 65535 * Z.of_nat ((length data + 1) / 2))%Z.
Proof.
  revert data. apply (words_ind (λ d, Forall byte d → (0 ≤ sum (words d) ≤ 65535 * Z.of_nat ((length d + 1) / 2))%Z)).
  - cbn. lia.
  - intros a [Ha _]%Forall_cons. unfold byte in Ha. cbn -[Z.mul]. lia.
  - intros a b l IH [Ha [Hb Hl]%Forall_cons]%Forall_cons. specialize (IH Hl). unfold byte in *.
    cbn [words length sum foldr]. change (foldr Z.add 0%Z) with sum.
    replace (S (S (length l)) + 1) with (length l + 1 + 1 * 2) by lia. rewrite Nat.div_add by lia. lia.
Qed.

Lemma land_16 z : Z.land z 65535 = (z mod 65536)%Z.
Proof. change 65535%Z with (Z.ones 16). by rewrite Z.land_ones by lia. Qed.
Lemma shiftr_16 z : Z.shiftr z 16 = (z / 65536)%Z.
Proof. by rewrite Z.shiftr_div_pow2 by lia. Qed.

(** Folding keeps the sum modulo 65535, and ends after two rounds. *)
Lemma fold_carries_spec s : (0 ≤ s < 2 ^ 32)%Z →
  ∃ f, fold_carries 3 s = Some f ∧ (0 ≤ f < 65536)%Z ∧ (f mod 65535 = s mod 65535)%Z ∧ (0 < s → 0 < f)%Z.
Proof.
  assert (∀ n z, (0 ≤ z)%Z → fold_carries n z =
    if (0 <? z / 65536)%Z then match n with O => None | S n => fold_carries n (z mod 65536 + z / 65536) end else Some z) as Hstep.
  { intros n z Hz. destruct n; cbn [fold_carries]; rewrite ?shiftr_16, ?land_16; done. }
  assert (∀ z, (0 ≤ z)%Z → ((z mod 65536 + z / 65536) mod 65535 = z mod 65535)%Z) as Hmod.
  { intros z Hz. rewrite (Z.div_mod z 65536) at 3 by lia.
    replace (65536 * (z / 65536) + z mod 65536)%Z with (z mod 65536 + z / 65536 + (z / 65536) * 65535)%Z by lia.
    by rewrite Z.mod_add by lia. }
  assert (∀ n z, (0 ≤ z < 65536)%Z → fold_carries n z = Some z) as Hdone.
  { intros n z Hz. rewrite Hstep by lia. by rewrite Z.div_small by lia. }
  intros Hs. rewrite Hstep by lia. destruct (Z.ltb_spec 0 (s / 65536)) as [H1|H1].
  2:{ exists s. assert (s < 65536)%Z by (pose proof (Z.div_mod s 65536); pose proof (Z.mod_pos_bound s 65536); lia). split_and!; try done; lia. }
  set (s1 := (s mod 65536 + s / 65536)%Z).
  assert (0 < s1 < 131071)%Z as Hs1.
  { unfold s1. pose proof (Z.mod_pos_bound s 65536). pose proof (Z.div_lt_upper_bound s 65536 65536). lia. }
  rewrite Hstep by lia. destruct (Z.ltb_spec 0 (s1 / 65536)) as [H2|H2].
  2:{ exists s1. assert (s1 < 65536)%Z by (pose proof (Z.div_mod s1 65536); pose proof (Z.mod_pos_bound s1 65536); lia).
      split_and!; [done|lia|lia|apply Hmod; lia|lia]. }
  assert (s1 / 65536 = 1)%Z as Hq by (pose proof (Z.div_lt_upper_bound s1 65536 2); lia).
  set (s2 := (s1 mod 65536 + s1 / 65536)%Z).
  assert (0 < s2 < 65536)%Z as Hs2.
  { unfold s2. pose proof (Z.div_mod s1 65536). pose proof (Z.mod_pos_bound s1 65536). lia. }
  exists s2. rewrite Hdone by lia. split_and!; [done|lia|lia| |lia]. unfold s2, s1. by rewrite !Hmod by lia.
Qed.

Lemma checksum_spec data : (0 ≤ sum (words data) < 2 ^ 32)%Z →
  ∃ c, calculate_checksum data = Some c ∧ (0 ≤ c < 65536)%Z ∧ ((sum (words data) + c) mod 65535 = 0)%Z ∧
    (0 < sum (words data) → c < 65535)%Z.
Proof.
  intros Hs. destruct (fold_carries_spec _ Hs) as (f & Hf & Hb & Hm & Hp). exists (65535 - f)%Z.
  split_and!; [|lia..| |lia].
  - unfold calculate_checksum, fits. rewrite decide_True by lia. cbn [mbind option_bind]. rewrite Hf. cbn [mbind option_bind].
    unfold wrap. by rewrite Z.mod_small by lia.
  - rewrite <- Z.add_mod_idemp_l, <- Hm, Z.add_mod_idemp_l by lia. by replace (f + (65535 - f))%Z with 65535%Z by lia.
Qed.

Lemma checksum_zero data : (0 < sum (words data) < 2 ^ 32)%Z → (sum (words data) mod 65535 = 0)%Z →
  calculate_checksum data = Some 0%Z.
Proof.
  intros Hs Hm. destruct (fold_carries_spec (sum (words data))) as (f & Hf & Hb & Hfm & Hp); [lia|].
  unfold calculate_checksum, fits. rewrite decide_True by lia. cbn [mbind option_bind]. rewrite Hf. cbn [mbind option_bind].
  assert (f = 65535)%Z as -> by (pose proof (Z.div_mod f 65535); assert (0 < f)%Z by lia; rewrite Hfm, Hm in *; nia). done.
Qed.

(** ** Storing the checksum *)

Lemma shiftr_8 v : Z.shiftr v 8 = (v / 256)%Z.
Proof. by rewrite Z.shiftr_div_pow2 by lia. Qed.
Lemma land_255 v : Z.land v 255 = (v mod 256)%Z.
Proof. change 255%Z with (Z.ones 8). by rewrite Z.land_ones by lia. Qed.

Lemma put_u16_middle pre a b post v :
  put_u16 (length pre) v (pre ++ a :: b :: post) = pre ++ (v / 256)%Z :: (v mod 256)%Z :: post.
Proof.
  unfold put_u16. rewrite shiftr_8, land_255.
  rewrite (insert_app_r_alt pre _ (S (length pre))) by lia. replace (S (length pre) - length pre) with 1 by lia.
  rewrite (insert_app_r_alt pre _ (length pre)) by lia. by rewrite Nat.sub_diag.
Qed.

(** The checksum of data with its own checksum in it is zero. *)
Lemma checksum_verifies pre post data c :
  data = pre ++ 0%Z :: 0%Z :: post → Nat.Even (length pre) → Forall byte data → (0 < sum (words data))%Z →
  (Z.of_nat (length data) ≤ 131070)%Z → calculate_checksum data = Some c →
  (0 ≤ c < 65536)%Z ∧ calculate_checksum (put_u16 (length pre) c data) = Some 0%Z.
Proof.
  intros -> He Hb Hp Hl Hc. pose proof (words_bounds _ Hb) as Hw.
  assert (sum (words (pre ++ 0%Z :: 0%Z :: post)) < 2 ^ 32 - 65536)%Z as Hlt.
  { rewrite Nat2Z.inj_div in Hw. rewrite Nat2Z.inj_add in Hw. change (Z.of_nat 2) with 2%Z in Hw. change (Z.of_nat 1) with 1%Z in Hw.
    assert ((Z.of_nat (length (pre ++ 0%Z :: 0%Z :: post)) + 1) / 2 < 65536)%Z by (apply Z.div_lt_upper_bound; lia). lia. }
  destruct (checksum_spec (pre ++ 0%Z :: 0%Z :: post)) as (c' & Hc' & Hcb & Hm & _); [lia|].
  rewrite Hc in Hc'. injection Hc' as <-. split; [done|]. rewrite put_u16_middle.
  assert (sum (words (pre ++ (c / 256)%Z :: (c mod 256)%Z :: post)) = sum (words (pre ++ 0%Z :: 0%Z :: post)) + c)%Z as Hsum.
  { rewrite !words_app, !sum_app by done. cbn [words sum foldr]. change (foldr Z.add 0%Z) with sum.
    pose proof (Z.div_mod c 256). lia. }
  apply checksum_zero; rewrite Hsum; [lia|done].
Qed.

(** ** Reading *)

Section reading.
Context {S E : Type}.
Implicit Types (s : S).

Lemma at_run i p v s : p !! i = Some v → at_ (E := E) i p s = (Ok v, s).
Proof. intros H. unfold at_. by rewrite H. Qed.
Lemma lor_bytes a b : byte b → Z.lor (Z.shiftl a 8) b = (a * 256 + b)%Z.
Proof.
  intros Hb. unfold byte in Hb. rewrite Z.shiftl_mul_pow2 by lia. change (2 ^ 8)%Z with 256%Z.
  symmetry. rewrite <- Z.lxor_lor, Z.add_nocarry_lxor; [done|..].
  all: change 256%Z with (2 ^ 8)%Z; rewrite <- Z.shiftl_mul_pow2 by lia; apply Z.bits_inj'; intros n Hn;
    rewrite Z.land_spec, Z.bits_0; destruct (Z.ltb_spec n 8).
  all: try (by rewrite Z.shiftl_spec_low by lia).
  all: rewrite (Z.bits_above_log2 b n), andb_false_r; [done|lia|];
    destruct (decide (b = 0)%Z) as [->|]; [cbn; lia|apply Z.log2_lt_pow2; [lia|]];
    apply Z.lt_le_trans with (2 ^ 8)%Z; [lia|apply Z.pow_le_mono_r; lia].
Qed.
Lemma u16_run i p a b s : p !! i = Some a → p !! (Datatypes.S i) = Some b → byte b →
  u16_at (E := E) i p s = (Ok (a * 256 + b)%Z, s).
Proof. intros Ha Hb Hby. unfold u16_at. erewrite bind_ok by by apply at_run. erewrite bind_ok by by apply at_run. by rewrite <- lor_bytes. Qed.
Lemma range_run a b p v s : slice a b p = Some v → range (E := E) a b p s = (Ok v, s).
Proof. intros H. unfold range. by rewrite H. Qed.
End reading.

Lemma byte_div z : (0 ≤ z < 65536)%Z → byte (z / 256).
Proof. unfold byte. intros H. split; [apply Z.div_pos; lia|apply Z.div_lt_upper_bound; lia]. Qed.
Lemma byte_mod z : byte (z mod 256).
Proof. apply Z.mod_pos_bound. lia. Qed.
Lemma to_be_2_small z : (0 ≤ z < 65536)%Z → to_be 2 z = [z / 256; z mod 256]%Z.
Proof. intros H. rewrite to_be_2, (Z.mod_small (z / 256)); [done|]. by apply byte_div. Qed.

(** Lists that are made of bytes. *)
Ltac bytes :=
  repeat lazymatch goal with
  | |- Forall byte (_ ++ _) => apply Forall_app_2
  | |- Forall byte (to_be _ _) => apply to_be_bytes
  | |- Forall byte MY_IP => unfold MY_IP
  | |- Forall byte (_ :: _) => constructor
  | |- Forall byte [] => constructor
  | |- Forall byte _ => assumption
  | |- byte _ => first [assumption | unfold byte; lia]
  end.

(** ** IPv4 *)

Lemma build_ipv4_spec dest protocol payload :
  length dest = 4 → Forall byte dest → byte protocol → (20 + Z.of_nat (length payload) < 65536)%Z →
  ∃ header, build_ipv4_packet dest protocol payload = Some (header ++ payload) ∧ length header = 20 ∧ Forall byte header ∧
    calculate_checksum header = Some 0%Z ∧
    ∃ c, header = [69; 0]%Z ++ to_be 2 (20 + Z.of_nat (length payload)) ++ [18; 52; 0; 0; 64; protocol]%Z ++ to_be 2 c ++ MY_IP ++ dest.
Proof.
  intros Hd Hdb Hp Hl. set (n := (20 + Z.of_nat (length payload))%Z) in *.
  assert (wrap 16 n = n) as Hn by (apply Z.mod_small; lia).
  set (h := [69; 0]%Z ++ to_be 2 n ++ [18; 52; 0; 0; 64; protocol; 0; 0]%Z ++ MY_IP ++ dest).
  assert (length h = 20) as Hlen by (unfold h, MY_IP; rewrite !length_app, length_to_be, Hd; done).
  assert (Forall byte h) as Hb.
  { unfold h. bytes. }
  assert (0 < sum (words h))%Z as Hs.
  { assert (Forall byte (drop 2 h)) as Hdb' by by apply Forall_drop. pose proof (words_bounds _ Hdb').
    rewrite <- (take_drop 2 h), words_app, sum_app by (by exists 1). change (take 2 h) with [69; 0]%Z. cbn [words sum foldr]. lia. }
  destruct (checksum_spec h) as (c & Hc & _); [pose proof (words_bounds _ Hb); rewrite Hlen in *; change ((20 + 1) / 2) with 10 in *; lia|].
  destruct (checksum_verifies ([69; 0]%Z ++ to_be 2 n ++ [18; 52; 0; 0; 64; protocol]%Z) (MY_IP ++ dest) h c) as [Hcb Hz]; try done.
  { by exists 5. }
  { rewrite Hlen. lia. }
  exists (put_u16 10 c h). unfold build_ipv4_packet. fold n. rewrite Hn. fold h. unfold slice. rewrite decide_True by lia.
  rewrite take_ge by (rewrite length_drop, Hlen; lia). change (drop 0 h) with h. cbn [mbind option_bind]. rewrite Hc. cbn [mbind option_bind].
  assert (put_u16 10 c h = [69; 0]%Z ++ to_be 2 n ++ [18; 52; 0; 0; 64; protocol]%Z ++ to_be 2 c ++ MY_IP ++ dest) as Hput.
  { rewrite (to_be_2_small c) by done. apply (put_u16_middle ([69; 0]%Z ++ to_be 2 n ++ [18; 52; 0; 0; 64; protocol]%Z)). }
  split_and!; [done| | |done|].
  - unfold put_u16. by rewrite !length_insert.
  - rewrite Hput. bytes.
  - by exists c.
Qed.

Lemma parse_ipv4_run {S E} dest protocol payload header c (s : S) :
  length dest = 4 → Forall byte dest → (20 + Z.of_nat (length payload) < 65536)%Z → Forall byte header →
  header = [69; 0]%Z ++ to_be 2 (20 + Z.of_nat (length payload)) ++ [18; 52; 0; 0; 64; protocol]%Z ++ to_be 2 c ++ MY_IP ++ dest →
  parse_ipv4_header (E := E) (header ++ payload) s = (Ok (Some (MY_IP, dest, protocol, 20)), s).
Proof.
  intros Hd Hdb Hl Hb Hh. set (n := (20 + Z.of_nat (length payload))%Z) in *.
  destruct dest as [|d0 [|d1 [|d2 [|d3 []]]]]; try done.
  rewrite to_be_2_small in Hh by lia. rewrite to_be_2 in Hh. unfold MY_IP in Hh. cbn [app] in Hh.
  assert (length (header ++ payload) = 20 + length payload) as Hlen by (rewrite length_app, Hh; done).
  unfold parse_ipv4_header. rewrite Hlen. destruct (Nat.ltb_spec (20 + length payload) 20); [lia|].
  erewrite bind_ok by (apply at_run; rewrite Hh; reflexivity). change (negb (Z.shiftr 69 4 =? 4)%Z) with false. cbv iota zeta.
  change (Z.to_nat (Z.land 69 15) * 4) with 20. destruct (Nat.ltb_spec (20 + length payload) 20); [lia|].
  erewrite bind_ok by (apply u16_run; [rewrite Hh; reflexivity|rewrite Hh; reflexivity|apply byte_mod]).
  replace (n / 256 * 256 + n mod 256)%Z with n by (pose proof (Z.div_mod n 256); lia).
  destruct (Z.ltb_spec (Z.of_nat (20 + length payload)) n); [lia|].
  erewrite bind_ok by (apply range_run, (slice_middle [] header payload); rewrite ?Hh; done).
  destruct (checksum_spec header) as (c' & Hc' & _).
  { pose proof (words_bounds _ Hb). rewrite Hh in *. cbn [length] in *. change ((_ + 1) / 2) with 10 in *. lia. }
  rewrite Hc'. erewrite bind_ok by done.
  erewrite bind_ok by (apply at_run; rewrite Hh; reflexivity).
  erewrite bind_ok by (apply range_run, slice_ok; lia). erewrite bind_ok by (apply range_run, slice_ok; lia).
  rewrite Hh. reflexivity.
Qed.

(** ** TCP *)

Lemma tcp_segment_bytes src dst seq ack flags payload : byte flags → Forall byte payload →
  Forall byte (tcp_segment src dst seq ack flags payload).
Proof. intros Hf Hp. unfold tcp_segment. bytes. Qed.
Lemma length_tcp_segment src dst seq ack flags payload : length (tcp_segment src dst seq ack flags payload) = 20 + length payload.
Proof. unfold tcp_segment. by rewrite !length_app, !length_to_be. Qed.

Lemma build_tcp_spec src dst dest seq ack flags payload :
  length dest = 4 → Forall byte dest → byte flags → Forall byte payload → (20 + Z.of_nat (length payload) < 65536)%Z →
  ∃ c, build_tcp_packet src dst dest seq ack flags payload =
    Some (to_be 2 src ++ to_be 2 dst ++ to_be 4 seq ++ to_be 4 ack ++ [80; flags]%Z ++ to_be 2 8192 ++ to_be 2 c ++ [0; 0]%Z ++ payload) ∧
    ∀ tcp, build_tcp_packet src dst dest seq ack flags payload = Some tcp → calculate_checksum (pseudo_header dest tcp) = Some 0%Z.
Proof.
  intros Hd Hdb Hf Hpb Hl. set (pre := to_be 2 src ++ to_be 2 dst ++ to_be 4 seq ++ to_be 4 ack ++ [80; flags]%Z ++ to_be 2 8192).
  set (n := (20 + Z.of_nat (length payload))%Z) in *. set (head := MY_IP ++ dest ++ [0; 6]%Z ++ to_be 2 n).
  assert (Forall byte pre) as Hpre by (unfold pre; bytes). assert (Forall byte head) as Hhead by (unfold head; bytes).
  assert (length pre = 16) as Hlpre by (unfold pre; rewrite !length_app, !length_to_be; done).
  assert (length head = 12) as Hlhead by (unfold head, MY_IP; rewrite !length_app, length_to_be, Hd; done).
  assert (tcp_segment src dst seq ack flags payload = pre ++ 0%Z :: 0%Z :: ([0; 0]%Z ++ payload)) as Hseg.
  { unfold tcp_segment, pre. by rewrite <- !app_assoc. }
  assert (pseudo_header dest (tcp_segment src dst seq ack flags payload) = (head ++ pre) ++ 0%Z :: 0%Z :: ([0; 0]%Z ++ payload)) as Hps.
  { unfold pseudo_header. rewrite length_tcp_segment. replace (wrap 16 (Z.of_nat (20 + length payload))) with n.
    - rewrite Hseg. unfold head. by rewrite <- !app_assoc.
    - unfold wrap, n. rewrite Z.mod_small by lia. lia. }
  set (data := (head ++ pre) ++ 0%Z :: 0%Z :: ([0; 0]%Z ++ payload)) in *.
  assert (Forall byte data) as Hb by (unfold data; bytes).
  assert (length data = 32 + length payload) as Hld by (unfold data; rewrite length_app, length_app, Hlhead, Hlpre; cbn; lia).
  assert (0 < sum (words data))%Z as Hs.
  { assert (Forall byte (drop 2 data)) as Hdb' by by apply Forall_drop. pose proof (words_bounds _ Hdb').
    rewrite <- (take_drop 2 data), words_app, sum_app by (by exists 1). change (take 2 data) with [10; 0]%Z. cbn [words sum foldr]. lia. }
  assert (sum (words data) < 2 ^ 32)%Z as Hs'.
  { pose proof (words_bounds _ Hb) as Hw. rewrite Hld, Nat2Z.inj_div in Hw. rewrite !Nat2Z.inj_add in Hw.
    change (Z.of_nat 2) with 2%Z in Hw. change (Z.of_nat 1) with 1%Z in Hw. change (Z.of_nat 32) with 32%Z in Hw.
    assert ((32 + Z.of_nat (length payload) + 1) / 2 < 65536)%Z by (apply Z.div_lt_upper_bound; lia). lia. }
  destruct (checksum_spec data) as (c & Hc & _); [lia|].
  destruct (checksum_verifies (head ++ pre) ([0; 0]%Z ++ payload) data c) as [Hcb Hz]; try done.
  { rewrite length_app, Hlhead, Hlpre. by exists 14. }
  { rewrite Hld. lia. }
  assert (build_tcp_packet src dst dest seq ack flags payload = Some (put_u16 16 c (pre ++ 0%Z :: 0%Z :: ([0; 0]%Z ++ payload)))) as Hbuild.
  { unfold build_tcp_packet. rewrite Hps, Hc. cbn [mbind option_bind]. by rewrite Hseg. }
  rewrite <- Hlpre, put_u16_middle in Hbuild. exists c. rewrite Hbuild. split.
  - rewrite (to_be_2_small c) by done. unfold pre. by rewrite <- !app_assoc.
  - intros tcp [= <-]. rewrite <- Hz. f_equal. unfold data. rewrite put_u16_middle. unfold pseudo_header.
    replace (wrap 16 _) with n; [unfold head; by rewrite <- !app_assoc|].
    match goal with |- context [length ?l] => change (length l) with (20 + length payload) end.
    unfold wrap, n. rewrite Z.mod_small by lia. lia.
Qed.

(** ** Packets in frames *)

Section frames.
Context {S E : Type}.
Implicit Types (s : S).

Lemma u16_big_endian i z p s : (0 ≤ z < 65536)%Z → p !! i = Some ((z / 256) mod 256)%Z → p !! (Datatypes.S i) = Some (z mod 256)%Z →
  u16_at (E := E) i p s = (Ok z, s).
Proof.
  intros Hz Ha Hb. rewrite (u16_run _ _ _ _ _ Ha Hb) by apply byte_mod. f_equal. f_equal.
  rewrite (Z.mod_small (z / 256)) by by apply byte_div. pose proof (Z.div_mod z 256). lia.
Qed.

(** Reading at an offset is reading what is there. *)
Lemma at_drop n i p : at_ (S := S) (E := E) (n + i) p = at_ i (drop n p).
Proof. unfold at_. by rewrite lookup_drop. Qed.
Lemma u16_at_drop n i p : u16_at (S := S) (E := E) (n + i) p = u16_at i (drop n p).
Proof. unfold u16_at. rewrite <- Nat.add_succ_r. by rewrite !at_drop. Qed.
Lemma range_drop n a b p : n ≤ length p → range (S := S) (E := E) (n + a) (n + b) p = range a b (drop n p).
Proof.
  intros Hn. unfold range, slice. rewrite length_drop, drop_drop. repeat case_decide; try lia; [|done].
  by replace (n + b - (n + a)) with (b - a) by lia.
Qed.
Lemma tcp_header_drop n p : n ≤ length p → parse_tcp_header (S := S) (E := E) p n = parse_tcp_header (drop n p) 0.
Proof.
  intros Hn. pose proof (u16_at_drop n 0 p) as H0. rewrite Nat.add_0_r in H0. unfold parse_tcp_header.
  rewrite length_drop, H0, !u16_at_drop, !at_drop, !range_drop by done.
  destruct (Nat.ltb_spec (length p) (n + 20)), (Nat.ltb_spec (length p - n) (0 + 20)); done || lia.
Qed.

Lemma frame_type dmac smac t p s : length dmac = 6 → length smac = 6 → (0 ≤ t < 65536)%Z →
  u16_at (E := E) 12 (ethernet_frame dmac smac t p) s = (Ok t, s).
Proof.
  intros Hd Hs Ht. destruct dmac as [|? [|? [|? [|? [|? [|? []]]]]]]; try done.
  destruct smac as [|? [|? [|? [|? [|? [|? []]]]]]]; try done. by apply u16_big_endian.
Qed.
Lemma frame_payload dmac smac t p : length dmac = 6 → length smac = 6 → drop 14 (ethernet_frame dmac smac t p) = p.
Proof.
  intros Hd Hs. unfold ethernet_frame. rewrite !app_assoc. apply drop_app_length'. by rewrite !length_app, length_to_be, Hd, Hs.
Qed.
Lemma length_frame dmac smac t p : length dmac = 6 → length smac = 6 → length (ethernet_frame dmac smac t p) = 14 + length p.
Proof. intros Hd Hs. unfold ethernet_frame. by rewrite !length_app, length_to_be, Hd, Hs. Qed.

(** A packet of our own, in a frame, is taken apart again. *)
Lemma own_packet_parses dmac smac dest protocol payload ip s :
  length dmac = 6 → length smac = 6 → length dest = 4 → Forall byte dest → byte protocol →
  (20 + Z.of_nat (length payload) < 65536)%Z → build_ipv4_packet dest protocol payload = Some ip →
  parse_ipv4_payload (E := E) (ethernet_frame dmac smac 2048 ip) s = (Ok (Some (MY_IP, dest, protocol, 34)), s) ∧
  drop 34 (ethernet_frame dmac smac 2048 ip) = payload ∧ calculate_checksum (take 20 ip) = Some 0%Z.
Proof.
  intros Hd Hs Hl Hdb Hp Hn Hip. destruct (build_ipv4_spec dest protocol payload) as (header & Hip' & Hlen & Hb & Hc & c & Hh); try done.
  rewrite Hip in Hip'. injection Hip' as ->. split_and!.
  - unfold parse_ipv4_payload. rewrite length_frame, length_app, Hlen by done. destruct (Nat.ltb_spec (14 + (20 + length payload)) 34); [lia|].
    erewrite bind_ok by by apply frame_type. change (negb (2048 =? 2048)%Z) with false. cbv iota.
    rewrite frame_payload by done. erewrite bind_ok by by eapply parse_ipv4_run. done.
  - change 34 with (14 + 20). rewrite <- drop_drop, frame_payload by done. by apply drop_app_length'.
  - rewrite take_app_length' by done. done.
Qed.

Lemma tcp_header_run src dst seq ack flags c payload s :
  (0 ≤ src < 65536)%Z → (0 ≤ dst < 65536)%Z → (0 ≤ seq < 2 ^ 32)%Z → (0 ≤ ack < 2 ^ 32)%Z →
  parse_tcp_header (E := E)
    (to_be 2 src ++ to_be 2 dst ++ to_be 4 seq ++ to_be 4 ack ++ [80; flags]%Z ++ to_be 2 8192 ++ to_be 2 c ++ [0; 0]%Z ++ payload) 0 s =
    (Ok (Some (mkTcp src dst seq ack flags 20)), s).
Proof.
  intros Hsrc Hdst Hseq Hack. unfold parse_tcp_header.
  set (tcp := to_be 2 src ++ _). assert (length tcp = 20 + length payload) as Hlen by (unfold tcp; by rewrite !length_app, !length_to_be).
  rewrite Hlen. destruct (Nat.ltb_spec (20 + length payload) (0 + 20)); [lia|].
  erewrite bind_ok by (apply (u16_big_endian _ src); [done|reflexivity..]). erewrite bind_ok by (apply (u16_big_endian _ dst); [done|reflexivity..]).
  erewrite bind_ok by (apply range_run, (slice_middle (to_be 2 src ++ to_be 2 dst) (to_be 4 seq)); reflexivity).
  erewrite bind_ok by (apply range_run, (slice_middle (to_be 2 src ++ to_be 2 dst ++ to_be 4 seq) (to_be 4 ack)); reflexivity).
  do 2 (erewrite bind_ok by (apply at_run; reflexivity)). by rewrite !from_be_to_be by done.
Qed.
End frames.

(** C22: A TCP segment that is built, put into an IPv4 packet and a frame is read back by the
    parsers: addresses, ports, sequence and acknowledgement numbers, flags and
    payload are what they were, and both checksums verify, as the sum over the
    header with the checksum in it is zero — for every payload that fits into
    a packet. *)
Theorem tcp_segments_read_back {S E} src dst dmac smac dest seq ack flags payload (s : S) :
  length dmac = 6 → length smac = 6 → length dest = 4 → Forall byte dest → Forall byte payload → byte flags →
  (0 ≤ src < 65536)%Z → (0 ≤ dst < 65536)%Z → (0 ≤ seq < 2 ^ 32)%Z → (0 ≤ ack < 2 ^ 32)%Z →
  (40 + Z.of_nat (length payload) < 65536)%Z →
  ∃ tcp ip, build_tcp_packet src dst dest seq ack flags payload = Some tcp ∧ build_ipv4_packet dest 6 tcp = Some ip ∧
    calculate_checksum (take 20 ip) = Some 0%Z ∧ calculate_checksum (pseudo_header dest tcp) = Some 0%Z ∧
    let frame := ethernet_frame dmac smac 2048 ip in
    parse_ipv4_payload (E := E) frame s = (Ok (Some (MY_IP, dest, 6%Z, 34)), s) ∧
    parse_tcp_header (E := E) frame 34 s = (Ok (Some (mkTcp src dst seq ack flags 20)), s) ∧
    drop (34 + 20) frame = payload.
Proof.
  intros Hd Hs Hl Hdb Hpb Hf Hsrc Hdst Hseq Hack Hn.
  destruct (build_tcp_spec src dst dest seq ack flags payload) as (c & Htcp & Hz); try done; [lia|].
  set (tcp := to_be 2 src ++ _) in Htcp. assert (length tcp = 20 + length payload) as Hlen by (unfold tcp; by rewrite !length_app, !length_to_be).
  destruct (build_ipv4_spec dest 6 tcp) as (header & Hip & _); try done; [lia|].
  destruct (own_packet_parses (S := S) (E := E) dmac smac dest 6 tcp (header ++ tcp) s) as (Hparse & Hdrop & Hc); try done; [lia|].
  exists tcp, (header ++ tcp). split_and!; try done; [by apply Hz|]. split_and!; [done|..].
  - rewrite tcp_header_drop, Hdrop; [by apply tcp_header_run|]. rewrite length_frame by done.
    pose proof (f_equal length Hdrop) as Hx. rewrite length_drop, length_frame in Hx by done. lia.
  - rewrite <- drop_drop, Hdrop. unfold tcp. by rewrite !app_assoc, drop_app_length' by (by rewrite !length_app, !length_to_be).
Qed.

(** ** Parsers answer *)

(** [m] leaves the state alone and answers, with something in [Q]. *)
Definition answers {S E A} (m : comp S E A) (Q : A → Prop) : Prop := ∀ s, ∃ a, m s = (Ok a, s) ∧ Q a.

Section answers.
Context {S E : Type}.

Lemma answers_ret {A} (a : A) (Q : A → Prop) : Q a → answers (mret (M := comp S E) a) Q.
Proof. intros H s. by exists a. Qed.
Lemma answers_bind {A B} (m : comp S E A) (k : A → comp S E B) Q R :
  answers m Q → (∀ a, Q a → answers (k a) R) → answers (m ≫= k) R.
Proof. intros Hm Hk s. destruct (Hm s) as (a & Ha & HQ). rewrite (bind_ok _ _ _ _ _ Ha). by apply Hk. Qed.
Lemma answers_mono {A} (m : comp S E A) (Q R : A → Prop) : answers m Q → (∀ a, Q a → R a) → answers m R.
Proof. intros Hm HR s. destruct (Hm s) as (a & Ha & HQ). exists a. eauto. Qed.

Lemma answers_at i p : Forall byte p → i < length p → answers (at_ (S := S) (E := E) i p) byte.
Proof.
  intros Hp Hi s. destruct (lookup_lt_is_Some_2 _ _ Hi) as [v Hv]. exists v. split; [by apply at_run|]. by eapply Forall_lookup_1.
Qed.
Lemma answers_u16 i p : Forall byte p → i + 1 < length p → answers (u16_at (S := S) (E := E) i p) (λ z, 0 ≤ z < 65536)%Z.
Proof.
  intros Hp Hi. unfold u16_at. eapply answers_bind; [apply answers_at; [done|lia]|]. intros a Ha.
  eapply answers_bind; [apply answers_at; [done|lia]|]. intros b Hb. apply answers_ret. rewrite lor_bytes by done. unfold byte in *. lia.
Qed.
Lemma answers_range a b p : Forall byte p → a ≤ b ≤ length p →
  answers (range (S := S) (E := E) a b p) (λ l, length l = b - a ∧ Forall byte l).
Proof.
  intros Hp H s. eexists. split; [by apply range_run, slice_ok|]. split; [rewrite length_take, length_drop; lia|].
  by apply Forall_take, Forall_drop.
Qed.
Lemma answers_checksum p : Forall byte p → length p ≤ 60 → answers (S := S) (E := E) (unwrap (calculate_checksum p)) (λ _, True).
Proof.
  intros Hp Hl s. pose proof (words_bounds _ Hp) as Hw. destruct (checksum_spec p) as (c & Hc & _); [|by exists c; rewrite Hc].
  rewrite Nat2Z.inj_div, Nat2Z.inj_add in Hw. change (Z.of_nat 2) with 2%Z in Hw. change (Z.of_nat 1) with 1%Z in Hw.
  assert ((Z.of_nat (length p) + 1) / 2 < 100)%Z by (apply Z.div_lt_upper_bound; lia). lia.
Qed.
End answers.

(** One read, then the rest. *)
Ltac read_u16 := eapply answers_bind; [apply answers_u16; [assumption|lia]|cbn beta; intros ? ?].
Ltac read_byte := eapply answers_bind; [apply answers_at; [assumption|lia]|cbn beta; intros ? ?].
Ltac read_range := eapply answers_bind; [apply answers_range; [assumption|lia]|cbn beta; intros ? [? ?]].
(** A guard over what was read. *)
Ltac on_guard := lazymatch goal with
  | |- answers (if (?a <? ?b)%nat then _ else _) _ => destruct (Nat.ltb_spec a b)
  | |- answers (if (?a <=? ?b)%nat then _ else _) _ => destruct (Nat.leb_spec a b)
  | |- answers (if (?a <? ?b)%Z then _ else _) _ => destruct (Z.ltb_spec a b)
  | |- answers (if negb (?a =? ?b)%Z then _ else _) _ => destruct (Z.eqb_spec a b); cbn [negb]
  | |- answers (if (?a =? ?b)%Z then _ else _) _ => destruct (Z.eqb_spec a b)
  end.

Section parsers.
Context {S E : Type}.

Definition header_of (packet : bytes) (r : option (bytes * bytes * Z * nat)) : Prop :=
  ∀ src dst proto n, r = Some (src, dst, proto, n) → length src = 4 ∧ length dst = 4 ∧ byte proto ∧ n ≤ length packet.

Lemma answers_ipv4_header packet : Forall byte packet →
  answers (S := S) (E := E) (parse_ipv4_header packet) (header_of packet).
Proof.
  intros Hp. unfold parse_ipv4_header. assert (∀ r, r = None → header_of packet r) as Hn by (intros ? -> ? **; done).
  on_guard; [apply answers_ret; auto|]. read_byte. on_guard; [|apply answers_ret; auto]. cbv zeta. on_guard; [apply answers_ret; auto|].
  read_u16. on_guard; [apply answers_ret; auto|].
  assert (Z.to_nat (Z.land a 15) * 4 ≤ 60) as Hihl.
  { change 15%Z with (Z.ones 4). rewrite Z.land_ones by lia. pose proof (Z.mod_pos_bound a (2 ^ 4)). lia. }
  read_range. eapply answers_bind; [apply answers_checksum; [done|lia]|]. intros _ _.
  read_byte. read_range. read_range. apply answers_ret. intros ? ? ? ? [= <- <- <- <-]. split_and!; done || lia.
Qed.

Lemma answers_question fuel packet offset : Forall byte packet → length packet - offset < fuel →
  answers (S := S) (E := E) (skip_question fuel packet offset) (λ _, True).
Proof.
  intros Hp. revert offset. induction fuel as [|fuel IH]; intros offset Hf; [lia|]. cbn [skip_question].
  on_guard; [|by apply answers_ret]. read_byte. on_guard; [by apply answers_ret|].
  on_guard; [by apply answers_ret|]. apply IH. unfold byte in *. lia.
Qed.
Lemma answers_questions n packet offset : Forall byte packet →
  answers (S := S) (E := E) (skip_questions n packet offset) (λ _, True).
Proof.
  intros Hp. revert offset. induction n as [|n IH]; intros offset; cbn [skip_questions]; [by apply answers_ret|].
  eapply answers_bind; [apply answers_question; [done|lia]|]. intros o _. apply IH.
Qed.
Lemma answers_labels fuel packet offset : Forall byte packet → length packet - offset < fuel →
  answers (S := S) (E := E) (skip_labels fuel packet offset) (λ _, True).
Proof.
  intros Hp. revert offset. induction fuel as [|fuel IH]; intros offset Hf; [lia|]. cbn [skip_labels].
  on_guard; [|by apply answers_ret]. read_byte. on_guard; [by apply answers_ret|]. apply IH. unfold byte in *. lia.
Qed.

(** At most one address for each answer, and every address has four bytes. *)
Definition addresses (n : nat) (ips : list bytes) : Prop := length ips ≤ n ∧ Forall (λ ip, length ip = 4) ips.

Lemma answers_answers n packet offset ips k : Forall byte packet → addresses k ips →
  answers (S := S) (E := E) (read_answers n packet offset ips) (addresses (k + n)).
Proof.
  intros Hp. revert offset ips k. induction n as [|n IH]; intros offset ips k Hips; cbn [read_answers].
  { rewrite Nat.add_0_r. by apply answers_ret. }
  assert (addresses (k + Datatypes.S n) ips) as Hmore by (destruct Hips; split; [lia|done]).
  on_guard; [by apply answers_ret|]. read_byte.
  eapply answers_bind with (Q := λ _, True).
  { on_guard; [by apply answers_ret|]. eapply answers_bind; [apply answers_labels; [done|lia]|]. intros o _. by apply answers_ret. }
  intros o _. on_guard; [by apply answers_ret|]. do 3 read_u16. cbv zeta. on_guard; [by apply answers_ret|].
  eapply answers_bind with (Q := addresses (k + 1)).
  - destruct (_ && (_ =? 4)%Z) eqn:Hr; [|apply answers_ret; destruct Hips; split; [lia|done]].
    apply andb_prop in Hr as [_ Hr%Z.eqb_eq]. read_range. apply answers_ret. destruct Hips as [Hl Hips].
    split; [rewrite length_app; cbn; lia|]. apply Forall_app_2; [done|]. constructor; [lia|constructor].
  - intros ips' Hips'. eapply answers_mono; [by apply IH|]. intros l. by rewrite <- Nat.add_assoc.
Qed.

Lemma answers_dns_header packet id : Forall byte packet →
  answers (S := S) (E := E) (dns_header packet id) (λ r, ∀ o, r = Some o → o + 12 ≤ length packet).
Proof.
  intros Hp. assert (∀ r, r = None → ∀ o, r = Some o → o + 12 ≤ length packet) as Hn by (intros ? -> ? [=]).
  unfold dns_header. on_guard; [by apply answers_ret, Hn|].
  eapply answers_bind; [apply answers_ipv4_header; by apply Forall_drop|]. intros [[[[src dst] proto] ihl]|] Hh; [|by apply answers_ret, Hn].
  destruct (Hh _ _ _ _ eq_refl) as (_ & _ & _ & Hihl). rewrite length_drop in Hihl.
  on_guard; [|by apply answers_ret, Hn]. cbv zeta. on_guard; [by apply answers_ret, Hn|]. read_u16. on_guard; [|by apply answers_ret, Hn].
  on_guard; [by apply answers_ret, Hn|]. read_u16. on_guard; [|by apply answers_ret, Hn]. read_u16.
  apply answers_ret. intros o. destruct (_ =? 0)%Z; [done|]. intros [= <-]. lia.
Qed.

(** Whatever arrives, the parser of DNS answers comes to an end inside of the
    packet. *)
Lemma answers_dns packet id : Forall byte packet →
  answers (S := S) (E := E) (parse_dns_response packet id) (λ r, ∀ ips, r = Some ips → addresses (Z.to_nat 65535) ips).
Proof.
  intros Hp. unfold parse_dns_response. eapply answers_bind; [by apply answers_dns_header|].
  intros [o|] Ho; [|apply answers_ret; intros ? [=]]. specialize (Ho _ eq_refl). do 2 read_u16.
  on_guard. { apply answers_ret. intros ips [= <-]. split; [apply Nat.le_0_l|constructor]. }
  eapply answers_bind; [by apply answers_questions|]. intros offset _.
  eapply answers_bind; [apply (answers_answers _ _ _ _ 0); [done|split; [done|constructor]]|]. intros ips [Hl Hips].
  apply answers_ret. intros ? [= <-]. split; [lia|done].
Qed.

Lemma answers_tcp_header packet start : Forall byte packet →
  answers (S := S) (E := E) (parse_tcp_header packet start) (λ _, True).
Proof.
  intros Hp. unfold parse_tcp_header. on_guard; [by apply answers_ret|]. do 2 read_u16. do 2 read_range. do 2 read_byte. by apply answers_ret.
Qed.
Lemma answers_ipv4_payload packet : Forall byte packet →
  answers (S := S) (E := E) (parse_ipv4_payload packet) (λ r, ∀ src dst proto n, r = Some (src, dst, proto, n) → n ≤ length packet).
Proof.
  intros Hp. unfold parse_ipv4_payload. on_guard; [by apply answers_ret|]. read_u16. on_guard; [|by apply answers_ret].
  eapply answers_bind; [apply answers_ipv4_header; by apply Forall_drop|]. intros [[[[src dst] proto] ihl]|] Hh; apply answers_ret; [|done].
  intros ? ? ? ? [= <- <- <- <-]. destruct (Hh _ _ _ _ eq_refl) as (_ & _ & _ & Hihl). rewrite length_drop in Hihl. lia.
Qed.
Lemma answers_arp packet : Forall byte packet →
  answers (S := S) (E := E) (parse_arp packet) (λ r, ∀ ip mac op, r = Some (ip, mac, op) → 42 ≤ length packet ∧ length ip = 4 ∧ length mac = 6).
Proof.
  intros Hp. unfold parse_arp. on_guard; [by apply answers_ret|]. read_u16. on_guard; [|by apply answers_ret]. read_u16. do 2 read_range.
  apply answers_ret. intros ? ? ? [= <- <- <-]. split_and!; lia.
Qed.
End parsers.

(** ** The cache of addresses *)

(** At most 32 entries, one for an address. *)
Definition cache_ok (cache : list ArpEntry) : Prop := length cache ≤ 32 ∧ NoDup (arp_ip <$> cache).

Lemma find_ip_None ip cache : list_find (λ e, arp_ip e = ip) cache = None ↔ ip ∉ arp_ip <$> cache.
Proof.
  rewrite list_find_None, Forall_forall. setoid_rewrite list_elem_of_fmap. split; [intros H (e & -> & He); by eapply H|].
  intros H e He <-. apply H. by exists e.
Qed.

Lemma cache_insert_ok ip mac t cache : cache_ok cache → cache_ok (arp_cache_insert_with_time ip mac t cache).
Proof.
  intros [Hl Hd]. unfold arp_cache_insert_with_time. destruct (list_find _ cache) as [[i e]|] eqn:Hf.
  - apply list_find_Some in Hf as (Hi & Hip & _). split; [by rewrite length_insert|].
    rewrite list_fmap_insert, list_insert_id; [done|]. rewrite list_lookup_fmap, Hi. cbn. by rewrite Hip.
  - apply find_ip_None in Hf. destruct (Nat.leb_spec 32 (length cache)).
    + destruct cache as [|e cache]; [cbn in *; lia|]. cbn [tail]. split; [rewrite length_app; cbn in *; lia|].
      rewrite fmap_app. apply NoDup_cons in Hd as [_ Hd]. apply NoDup_app. split_and!; [done| |apply NoDup_singleton].
      intros x Hx ->%list_elem_of_singleton. apply Hf. by right.
    + split; [rewrite length_app; cbn; lia|]. rewrite fmap_app. apply NoDup_app. split_and!; [done| |apply NoDup_singleton].
      intros x Hx ->%list_elem_of_singleton. done.
Qed.

Lemma cache_lookup_Some ip mac cache : cache_ok cache →
  arp_cache_lookup ip cache = Some mac ↔ ∃ t, mkArp ip mac t ∈ cache.
Proof.
  intros [_ Hd]. unfold arp_cache_lookup. split.
  - intros ([i e] & (Hi & Hip & _)%list_find_Some & ->)%fmap_Some. exists (arp_time e). cbn. apply list_elem_of_lookup_2 in Hi.
    by destruct e; cbn in *; subst.
  - intros (t & [i Hi]%list_elem_of_lookup). destruct (list_find _ cache) as [[j e]|] eqn:Hf.
    + apply list_find_Some in Hf as (Hj & Hip & _). assert (i = j) as <-.
      { eapply NoDup_lookup; [exact Hd| |]; rewrite list_lookup_fmap, ?Hi, ?Hj; cbn; by rewrite ?Hip. }
      rewrite Hi in Hj. injection Hj as <-. done.
    + apply find_ip_None in Hf. destruct Hf. apply list_elem_of_fmap. eexists. split; [|by eapply list_elem_of_lookup_2]. done.
Qed.

(** What was learned last is known; what else is known was known before. *)
Lemma cache_lookup_insert ip mac t cache : cache_ok cache →
  arp_cache_lookup ip (arp_cache_insert_with_time ip mac t cache) = Some mac.
Proof.
  intros Hok. apply cache_lookup_Some; [by apply cache_insert_ok|]. exists t. unfold arp_cache_insert_with_time.
  destruct (list_find _ cache) as [[i e]|] eqn:Hf.
  - apply list_find_Some in Hf as (Hi & _). apply list_elem_of_insert. by eapply lookup_lt_Some.
  - apply elem_of_app. right. by left.
Qed.
Lemma cache_lookup_insert_ne ip ip' mac mac' t cache : cache_ok cache → ip' ≠ ip →
  arp_cache_lookup ip' (arp_cache_insert_with_time ip mac t cache) = Some mac' → arp_cache_lookup ip' cache = Some mac'.
Proof.
  intros Hok Hne. rewrite !cache_lookup_Some by auto using cache_insert_ok. intros (t' & Hin). exists t'.
  unfold arp_cache_insert_with_time in Hin. destruct (list_find _ cache) as [[i e]|] eqn:Hf.
  - apply list_elem_of_lookup in Hin as [j Hj]. destruct (decide (i = j)) as [<-|Hij].
    + apply list_lookup_insert_Some in Hj as [(_ & [=] & _)|[? _]]; congruence.
    + rewrite list_lookup_insert_ne in Hj by done. by eapply list_elem_of_lookup_2.
  - apply elem_of_app in Hin as [Hin|Hin%list_elem_of_singleton]; [|congruence].
    destruct (Nat.leb_spec 32 (length cache)); [|done]. destruct cache; [done|]. by right.
Qed.
(** Only a full cache forgets, and then its oldest entry. *)
Lemma cache_lookup_kept ip ip' mac mac' t cache : cache_ok cache → ip' ≠ ip → length cache < 32 →
  arp_cache_lookup ip' cache = Some mac' → arp_cache_lookup ip' (arp_cache_insert_with_time ip mac t cache) = Some mac'.
Proof.
  intros Hok Hne Hl. rewrite !cache_lookup_Some by auto using cache_insert_ok. intros (t' & Hin). exists t'.
  unfold arp_cache_insert_with_time. destruct (list_find _ cache) as [[i e]|] eqn:Hf.
  - apply list_find_Some in Hf as (Hi & Hip & _). apply list_elem_of_lookup in Hin as [j Hj]. apply list_elem_of_lookup. exists j.
    rewrite list_lookup_insert_ne; [done|]. intros <-. rewrite Hi in Hj. injection Hj as ->. cbn in Hip. congruence.
  - destruct (Nat.leb_spec 32 (length cache)); [lia|]. apply elem_of_app. by left.
Qed.

(** Pruning leaves what was learned without a clock, and what is young. *)
Lemma cache_prune_ok now cache : cache_ok cache → cache_ok (arp_cache_prune_expired now cache).2.
Proof.
  intros [Hl Hd]. unfold arp_cache_prune_expired. cbn [snd]. split; [etrans; [apply length_filter|done]|].
  eapply sublist_NoDup; [exact Hd|]. apply fmap_sublist, sublist_filter.
Qed.
Lemma cache_prune_lookup now cache ip mac : cache_ok cache →
  arp_cache_lookup ip (arp_cache_prune_expired now cache).2 = Some mac ↔
  ∃ t, mkArp ip mac t ∈ cache ∧ (t = 0 ∨ saturating_sub now t < ARP_ENTRY_TTL_MS)%Z.
Proof.
  intros Hok. rewrite cache_lookup_Some by by apply cache_prune_ok. unfold arp_cache_prune_expired. cbn [snd].
  setoid_rewrite list_elem_of_filter. cbn. naive_solver.
Qed.
