(* ===== verification/NetStack.v ===== *)
(** * The network stack (kernel/src/net.rs, kernel/src/net_socket.rs)

    Sending and receiving frames, the resolution of addresses, the table of
    sockets with its lock, and the requests of the network service.  The network
    card is a parameter.  The lock of the socket table is not reentrant: who
    takes it while holding it spins forever, which is rendered as a panic.
    Sending may have to wait for an address, and what arrives meanwhile is
    handled, which may send again: this recursion runs on fuel. *)
From S2P Require Import Prelude Bytes Text Abi NetPacket.

(** The card — kernel/src/rtl8139.rs, as net.rs uses it. *)
Class Nic (N : Type) := {
  get_mac_address : N → bytes;
  send_packet : bytes → N → N;
  poll_rx : N → option bytes * N;
}.

(** kernel/src/net_socket.rs:9-13 [SocketType] *)
Variant SocketType := Udp | Tcp | Raw.
#[export] Instance SocketType_eq : EqDecision SocketType.
Proof. solve_decision. Defined.

(** kernel/src/net_socket.rs:16-22 [SocketState] *)
Variant SocketState := SockClosed | SockListening | SockSynSent | SockSynReceived | SockConnected.
#[export] Instance SocketState_eq : EqDecision SocketState.
Proof. solve_decision. Defined.

(** kernel/src/net_socket.rs:25-28 [SocketAddr] *)
Record SocketAddr := mkAddr { addr_ip : bytes; addr_port : Z }.

(** kernel/src/net_socket.rs:33-44 [Socket] *)
Record Socket := mkSocket {
  sock_fd : Z;
  sock_type : SocketType;
  sock_state : SocketState;
  local_port : Z;
  remote_addr : option SocketAddr;
  rx_buffer : list bytes;
  tcp_seq : Z;
  tcp_ack : Z;
}.

(** The table, its lock, the cache of addresses and the card —
    kernel/src/net_socket.rs:46-50 [SocketTable] *)
Record NetState {N : Type} := mkNet {
  sockets : list (option Socket);
  next_fd : Z;
  next_port : Z;
  table_held : bool;
  ARP_CACHE : list ArpEntry;
  RTL8139_DEV : option N;
}.
Arguments NetState : clear implicits.

(** kernel/src/net_socket.rs:53-60 [SocketTable::new] *)
Definition net_new {N} (dev : option N) : NetState N := mkNet N (replicate 64 None) 0 49152 false [] dev.

Section stack.
Context {N : Type} `{!Nic N}.
Abbreviation State := (NetState N).
Abbreviation M := (comp State Empty_set).

Definition with_sockets (x : list (option Socket)) (s : State) : State :=
  mkNet N x (next_fd s) (next_port s) (table_held s) (ARP_CACHE s) (RTL8139_DEV s).
Definition with_next_fd (x : Z) (s : State) : State :=
  mkNet N (sockets s) x (next_port s) (table_held s) (ARP_CACHE s) (RTL8139_DEV s).
Definition with_next_port (x : Z) (s : State) : State :=
  mkNet N (sockets s) (next_fd s) x (table_held s) (ARP_CACHE s) (RTL8139_DEV s).
Definition with_held (x : bool) (s : State) : State :=
  mkNet N (sockets s) (next_fd s) (next_port s) x (ARP_CACHE s) (RTL8139_DEV s).
Definition with_cache (x : list ArpEntry) (s : State) : State :=
  mkNet N (sockets s) (next_fd s) (next_port s) (table_held s) x (RTL8139_DEV s).
Definition with_dev (x : option N) (s : State) : State :=
  mkNet N (sockets s) (next_fd s) (next_port s) (table_held s) (ARP_CACHE s) x.

(** [SOCKET_TABLE.lock()] for as long as [m] runs. *)
Definition locked_table {A} (m : M A) : M A :=
  s ← get;
  if table_held s then panic
  else put (with_held true s);; a ← m; modify (with_held false);; mret a.

(** ** The card *)

(** kernel/src/net.rs:108-114 [send_ethernet_packet_raw] *)
Definition send_ethernet_packet_raw (frame : bytes) : M unit :=
  modify (λ s, with_dev (send_packet frame <$> RTL8139_DEV s) s).

(** [if let Some(ref mut dev) = RTL8139_DEV { dev.poll_rx() }] *)
Definition next_frame : M (option bytes) :=
  s ← get;
  match RTL8139_DEV s with
  | None => mret None
  | Some dev => let '(f, dev) := poll_rx dev in put (with_dev (Some dev) s);; mret f
  end.

(** kernel/src/net.rs:231-238 [get_my_mac] *)
Definition get_my_mac (s : State) : bytes := default [0; 0; 0; 0; 0; 0]%Z (get_mac_address <$> RTL8139_DEV s).

(** kernel/src/net.rs:240-253 [send_ethernet_packet] *)
Definition send_ethernet_packet (dest_mac : bytes) (ethertype : Z) (payload : bytes) : M unit :=
  s ← get; send_ethernet_packet_raw (ethernet_frame dest_mac (get_my_mac s) ethertype payload).

(** kernel/src/net.rs:87-106 [send_arp_request] *)
Definition send_arp_request (target_ip : bytes) : M unit :=
  s ← get; send_ethernet_packet_raw (arp_request (get_my_mac s) target_ip).

(** kernel/src/net.rs:117-136 [send_arp_reply] *)
Definition send_arp_reply (target_ip target_mac : bytes) : M unit :=
  s ← get; send_ethernet_packet_raw (arp_reply (get_my_mac s) target_ip target_mac).

(** kernel/src/net.rs:157-184 [handle_incoming_arp] *)
Definition handle_incoming_arp (packet : bytes) : M bool :=
  r ← parse_arp packet;
  match r with
  | None => mret false
  | Some (sender_ip, sender_mac, op) =>
      hlen ← at_ 18 packet;
      ptype ← at_ 19 packet;
      (if (op =? 1)%Z then
         let off := (14 + 8 + 2 * Z.to_nat hlen + 2 * Z.to_nat ptype)%nat in
         if (off + 4 <=? length packet)%nat then
           target_ip ← range off (off + 4) packet;
           if decide (target_ip = MY_IP) then send_arp_reply sender_ip sender_mac else mret tt
         else mret tt
       else if (op =? 2)%Z then
         if decide (sender_ip = MY_IP) then mret tt
         else modify (λ s, with_cache (arp_cache_insert sender_ip sender_mac (ARP_CACHE s)) s)
       else mret tt);;
      mret true
  end.

(** ** Sockets *)

Definition has_fd (fd : Z) (o : option Socket) : bool := match o with Some k => (sock_fd k =? fd)%Z | None => false end.

(** kernel/src/net_socket.rs:62-66 [SocketTable::allocate_port] *)
Definition allocate_port : M Z :=
  s ← get;
  let port := next_port s in
  put (with_next_port (if (port =? 65535)%Z then 49152 else port + 1)%Z s);; mret port.

Definition slot_of (fd : Z) (s : State) : option nat := fst <$> list_find (has_fd fd) (sockets s).

(** kernel/src/net_socket.rs:72-82 [find_slot] *)
Definition find_slot (fd : Z) : M (option nat) := locked_table (gets (slot_of fd)).

(** [find_slot(fd).and_then(|i| table.sockets[i].as_ref())] *)
Definition find_socket (fd : Z) : M (option Socket) :=
  i ← find_slot fd; s ← get; mret (i ← i; o ← sockets s !! i; o).

Definition update_slot (i : nat) (f : Socket → Socket) : M unit :=
  modify (λ s, with_sockets (alter (λ o, f <$> o) i (sockets s)) s).

Definition set_state (x : SocketState) (k : Socket) : Socket :=
  mkSocket (sock_fd k) (sock_type k) x (local_port k) (remote_addr k) (rx_buffer k) (tcp_seq k) (tcp_ack k).
Definition set_port (x : Z) (k : Socket) : Socket :=
  mkSocket (sock_fd k) (sock_type k) (sock_state k) x (remote_addr k) (rx_buffer k) (tcp_seq k) (tcp_ack k).
Definition set_remote (x : option SocketAddr) (k : Socket) : Socket :=
  mkSocket (sock_fd k) (sock_type k) (sock_state k) (local_port k) x (rx_buffer k) (tcp_seq k) (tcp_ack k).
Definition set_rx (x : list bytes) (k : Socket) : Socket :=
  mkSocket (sock_fd k) (sock_type k) (sock_state k) (local_port k) (remote_addr k) x (tcp_seq k) (tcp_ack k).
Definition set_seq (x : Z) (k : Socket) : Socket :=
  mkSocket (sock_fd k) (sock_type k) (sock_state k) (local_port k) (remote_addr k) (rx_buffer k) x (tcp_ack k).
Definition set_ack (x : Z) (k : Socket) : Socket :=
  mkSocket (sock_fd k) (sock_type k) (sock_state k) (local_port k) (remote_addr k) (rx_buffer k) (tcp_seq k) x.

(** kernel/src/net_socket.rs:85-105 [socket] *)
Definition socket (ty : SocketType) : M (option Z) :=
  locked_table (
    s ← get;
    match list_find (λ o, o = None) (sockets s) with
    | None => mret None
    | Some (i, _) =>
        let fd := next_fd s in
        next ← unwrap (fits 64 (fd + 1));
        put (with_next_fd next (with_sockets (<[i := Some (mkSocket fd ty SockClosed 0 None [] 0 0)]> (sockets s)) s));;
        mret (Some fd)
    end).

(** kernel/src/net_socket.rs:107-136 [bind] *)
Definition bind (fd port : Z) : M bool :=
  locked_table (
    s ← get;
    if existsb (λ o, match o with Some k => (local_port k =? port)%Z && negb (port =? 0)%Z | None => false end) (sockets s)
    then mret false
    else
      match slot_of fd s with
      | None => mret false
      | Some i =>
          port_to_use ← (if (port =? 0)%Z then allocate_port else mret port);
          update_slot i (set_port port_to_use);; mret true
      end).

(** kernel/src/net_socket.rs:138-152 [listen] *)
Definition listen (fd : Z) : M bool :=
  locked_table (
    s ← get;
    match list_find (has_fd fd) (sockets s) with
    | Some (i, Some k) =>
        if decide (sock_type k = Tcp) then update_slot i (set_state SockListening);; mret true else mret false
    | _ => mret false
    end).

(** kernel/src/net_socket.rs:466-478 [recv] *)
Definition recv (fd : Z) : M (option bytes) :=
  locked_table (
    s ← get;
    match list_find (λ o, has_fd fd o && match o with Some k => negb (bool_decide (rx_buffer k = [])) | None => false end) (sockets s) with
    | Some (i, Some k) => update_slot i (set_rx (tail (rx_buffer k)));; mret (head (rx_buffer k))
    | _ => mret None
    end).

(** kernel/src/net_socket.rs:480-490 [close] *)
Definition close (fd : Z) : M unit :=
  locked_table (
    s ← get;
    match slot_of fd s with
    | Some i => put (with_sockets (<[i := None]> (sockets s)) s)
    | None => mret tt
    end).

Definition takes (ty : SocketType) (port : Z) (o : option Socket) : bool :=
  match o with Some k => bool_decide (sock_type k = ty) && (local_port k =? port)%Z | None => false end.

(** kernel/src/net_socket.rs:492-504 [deliver_packet_to_socket] *)
Definition deliver_packet_to_socket (ty : SocketType) (dest_port : Z) (data : bytes) : M unit :=
  locked_table (
    s ← get;
    match list_find (takes ty dest_port) (sockets s) with
    | Some (i, Some k) =>
        if (length (rx_buffer k) <? 16)%nat then update_slot i (set_rx (rx_buffer k ++ [data])) else mret tt
    | _ => mret tt
    end).

(** ** What arrives, and what is sent *)

(** kernel/src/net_socket.rs:525-538 [handle_incoming_udp] *)
Definition handle_incoming_udp (packet : bytes) (udp_start : nat) : M unit :=
  if (length packet <? udp_start + 8)%nat then mret tt
  else
    _ ← u16_at udp_start packet;
    dest_port ← u16_at (udp_start + 2) packet;
    len ← u16_at (udp_start + 4) packet;
    if (length packet <? udp_start + Z.to_nat len)%nat then mret tt
    else
      payload ← range (udp_start + 8) (udp_start + Z.to_nat len) packet;
      deliver_packet_to_socket Udp dest_port payload.

Section sending.
(** [send_ipv4_packet(dest_ip, protocol, payload)] *)
Variable send_ipv4_packet : bytes → Z → bytes → M unit.

(** A segment is built and sent — kernel/src/net.rs:349-351 [send_tcp_segment] *)
Definition send_tcp (src_port : Z) (dest : SocketAddr) (seq ack flags : Z) (data : bytes) : M unit :=
  tcp ← unwrap (build_tcp_packet src_port (addr_port dest) (addr_ip dest) seq ack flags data);
  send_ipv4_packet (addr_ip dest) 6 tcp.

(** kernel/src/net.rs:365-368 [send_tcp_ack] *)
Definition send_tcp_ack (src_port : Z) (dest : SocketAddr) (seq ack : Z) : M unit := send_tcp src_port dest seq ack ACK [].

(** kernel/src/net_socket.rs:574-608 [handle_incoming_tcp, match] *)
Definition segment_arrived (i : nat) (k : Socket) (src_ip : bytes) (hdr : TcpHeader) (payload : bytes) : M unit :=
  let has_syn := negb (Z.land (tcp_flags hdr) SYN =? 0)%Z in
  let has_ack := negb (Z.land (tcp_flags hdr) ACK =? 0)%Z in
  match sock_state k with
  | SockSynSent =>
      if has_syn && has_ack then
        let ack_val := wrap 32 (tcp_seqno hdr + 1) in
        send_tcp_ack (local_port k) (mkAddr src_ip (tcp_src hdr)) (tcp_seq k) ack_val;;
        locked_table (update_slot i (λ k, set_ack ack_val (set_seq (wrap 32 (tcp_seq k + 1)) (set_state SockConnected k))))
      else mret tt
  | SockConnected =>
      (if bool_decide (payload = []) then mret tt else deliver_packet_to_socket Tcp (tcp_dst hdr) payload);;
      let consumed := wrap 32 (tcp_seqno hdr + Z.of_nat (length payload) + (if has_syn then 1 else 0)) in
      locked_table (update_slot i (set_ack consumed))
  | _ => mret tt
  end.

(** kernel/src/net_socket.rs:540-609 [handle_incoming_tcp] *)
Definition handle_incoming_tcp (packet src_ip : bytes) (ip_payload_start : nat) : M unit :=
  r ← parse_tcp_header packet ip_payload_start;
  match r with
  | None => mret tt
  | Some hdr =>
      let payload := drop (ip_payload_start + data_offset hdr) packet in
      target ← locked_table (gets (λ s, list_find (takes Tcp (tcp_dst hdr)) (sockets s)));
      match target with
      | Some (i, Some k) => segment_arrived i k src_ip hdr payload
      | _ => mret tt
      end
  end.

(** kernel/src/net_socket.rs:513-523 [handle_incoming_packet] *)
Definition handle_incoming_packet (packet : bytes) : M unit :=
  r ← parse_ipv4_payload packet;
  match r with
  | None => mret tt
  | Some (src_ip, _, proto, payload_start) =>
      if (proto =? 6)%Z then handle_incoming_tcp packet src_ip payload_start
      else if (proto =? 17)%Z then handle_incoming_udp packet payload_start
      else mret tt
  end.

(** kernel/src/net.rs:527-540 [handle_incoming_frame] *)
Definition handle_incoming_frame (packet : bytes) : M bool :=
  if (length packet <? 14)%nat then mret false
  else
    eth_type ← u16_at 12 packet;
    if (eth_type =? 2054)%Z then handle_incoming_arp packet
    else if (eth_type =? 2048)%Z then handle_incoming_packet packet;; mret true
    else mret false.

(** kernel/src/net.rs:189-205 [poll_arp_reply] *)
Fixpoint poll_arp_reply (max_tries : nat) (ip : bytes) : M bool :=
  match max_tries with
  | O => mret false
  | S n =>
      f ← next_frame;
      match f with
      | Some packet => b ← handle_incoming_arp packet; if (b : bool) then mret tt else handle_incoming_packet packet
      | None => mret tt
      end;;
      s ← get;
      if bool_decide (is_Some (arp_cache_lookup ip (ARP_CACHE s))) then mret true else poll_arp_reply n ip
  end.

(** [for _ in 0..3] — kernel/src/net.rs:214-219 [resolve_ip, tries] *)
Fixpoint ask_for (tries : nat) (ip : bytes) : M unit :=
  match tries with
  | O => mret tt
  | S n => send_arp_request ip;; b ← poll_arp_reply 50 ip; if (b : bool) then mret tt else ask_for n ip
  end.

(** kernel/src/net.rs:210-221 [resolve_ip] *)
Definition resolve_ip (ip : bytes) : M bytes :=
  s ← get;
  match arp_cache_lookup ip (ARP_CACHE s) with
  | Some mac => mret mac
  | None => ask_for 3 ip;; s ← get; mret (default MAC_BROADCAST (arp_cache_lookup ip (ARP_CACHE s)))
  end.
End sending.

(** Every further level handles a frame that arrived — kernel/src/net.rs:280-284 [send_ipv4_packet] *)
Fixpoint send_ipv4_packet (fuel : nat) (dest_ip : bytes) (protocol : Z) (payload : bytes) : M unit :=
  match fuel with
  | O => panic
  | S fuel =>
      dest_mac ← resolve_ip (send_ipv4_packet fuel) dest_ip;
      ip_packet ← unwrap (build_ipv4_packet dest_ip protocol payload);
      send_ethernet_packet dest_mac 2048 ip_packet
  end.

Context (fuel : nat).

(** kernel/src/net.rs:297-300 [send_udp_packet] *)
Definition send_udp_packet (src_port : Z) (dest : SocketAddr) (data : bytes) : M unit :=
  send_ipv4_packet fuel (addr_ip dest) 17 (build_udp_packet src_port (addr_port dest) data).
(** kernel/src/net.rs:359-362 [send_tcp_syn_seq] *)
Definition send_tcp_syn_seq (src_port : Z) (dest : SocketAddr) (iscn : Z) : M unit :=
  send_tcp (send_ipv4_packet fuel) src_port dest iscn 0 SYN [].
(** kernel/src/net.rs:353-355 [send_tcp_syn] *)
Definition send_tcp_syn (src_port : Z) (dest : SocketAddr) : M unit := send_tcp_syn_seq src_port dest 12345678.
(** kernel/src/net.rs:371-374 [send_tcp_fin] *)
Definition send_tcp_fin (src_port : Z) (dest : SocketAddr) (seq ack : Z) : M unit :=
  send_tcp (send_ipv4_packet fuel) src_port dest seq ack (Z.lor FIN ACK) [].
(** kernel/src/net.rs:377-380 [send_tcp_rst] *)
Definition send_tcp_rst (src_port : Z) (dest : SocketAddr) (seq : Z) : M unit :=
  send_tcp (send_ipv4_packet fuel) src_port dest seq 0 RST [].
(** kernel/src/net.rs:448-465 [send_tcp_data] *)
Definition send_tcp_data (src_port : Z) (dest : SocketAddr) (seq ack : Z) (data : bytes) : M unit :=
  send_tcp (send_ipv4_packet fuel) src_port dest seq ack (Z.lor PSH ACK) data.
End stack.
