(* ===== verification/NetApi.v ===== *)
(** * Using sockets (kernel/src/net_socket.rs, spark-abi/src/net.rs)

    The system calls on sockets, the calls of the kernel's own clients, the
    requests of the network service, and the packets that the shell builds.
    What a system call checks of user memory is an argument. *)
From S2P Require Import Prelude Bytes Text Abi NetPacket NetStack.

Section api.
Context {N : Type} `{!Nic N}.
Context (fuel : nat).
Abbreviation State := (NetState N).
Abbreviation M := (comp State Empty_set).

(** kernel/src/net_socket.rs:159-161 [initial_seq] *)
Definition initial_seq (last_fd : Z) : option Z :=
  n ← fits 32 (wrap 32 last_fd * 1000);
  fits 32 (wrap 32 (268435456 + n) + 1234).

(** kernel/src/net_socket.rs:165-175 [pump_rx] *)
Fixpoint pump_rx (max_frames : nat) : M unit :=
  match max_frames with
  | O => mret tt
  | S n =>
      f ← next_frame;
      match f with Some packet => ignore (handle_incoming_frame (send_ipv4_packet fuel) packet) | None => mret tt end;;
      pump_rx n
  end.

(** The state of the socket, read with the table locked —
    kernel/src/net_socket.rs:210-216 [tcp_handshake, established] *)
Definition established (fd : Z) : M (option bool) :=
  locked_table (o ← find_socket fd; mret ((λ k, bool_decide (sock_state k = SockConnected)) <$> o)).

(** kernel/src/net_socket.rs:206-223 [tcp_handshake, loop] *)
Fixpoint await_syn_ack (rounds : nat) (fd : Z) : M bool :=
  match rounds with
  | O => mret false
  | S n =>
      pump_rx 32;;
      e ← established fd;
      match e with None => mret false | Some true => mret true | Some false => await_syn_ack n fd end
  end.

(** The deadline of 4000000 is passed in round 125001, 32 at a time —
    kernel/src/net_socket.rs:180-224 [tcp_handshake] *)
Definition tcp_handshake (fd : Z) : M bool :=
  o ← locked_table (find_socket fd);
  match o with
  | None => mret false
  | Some k =>
      let remote := default (mkAddr [0; 0; 0; 0]%Z 0) (remote_addr k) in
      if (addr_port remote =? 0)%Z then mret false
      else
        locked_table (i ← find_slot fd; match i with Some i => update_slot i (λ s, set_seq (tcp_seq k) (set_state SockSynSent s)) | None => mret tt end);;
        send_tcp_syn_seq fuel (local_port k) remote (tcp_seq k);;
        await_syn_ack (Z.to_nat 125001) fd
  end.

(** The capability for the descriptor is granted outside of this —
    kernel/src/net_socket.rs:232-258 [sys_socket] *)
Definition sys_socket (domain kind : Z) : M (option Z) :=
  if negb (domain =? 2)%Z && negb (domain =? 0)%Z then mret None
  else socket (if (kind =? 1)%Z then Tcp else if (kind =? 2)%Z then Udp else Raw).

(** kernel/src/net_socket.rs:264-272 [sys_connect, addr] *)
Definition unpack_addr (ip_packed port : Z) : SocketAddr :=
  mkAddr [Z.land (Z.shiftr ip_packed 24) 255; Z.land (Z.shiftr ip_packed 16) 255; Z.land (Z.shiftr ip_packed 8) 255; Z.land ip_packed 255]%Z
    (wrap 16 port).

(** Port, address and sequence number of the connection —
    kernel/src/net_socket.rs:291-318 [sys_connect, setup] *)
Definition prepare_connect (fd : Z) (addr : SocketAddr) (is_tcp : bool) : M (option Z) :=
  locked_table (
    o ← find_socket fd;
    match o with
    | None => mret None
    | Some k =>
        lp ← (if (local_port k =? 0)%Z then p ← allocate_port; mret (Some p) else o ← find_socket fd; mret (local_port <$> o));
        match lp with
        | None => mret None
        | Some lp =>
            i ← find_slot fd;
            match i with
            | None => mret (Some lp)
            | Some i =>
                seq ← unwrap (initial_seq lp);
                update_slot i (λ k,
                  let k := set_ack 0 (set_seq seq (set_remote (Some addr) (set_port lp k))) in
                  if is_tcp then k else set_state SockConnected k);;
                mret (Some lp)
            end
        end
    end).

(** [None] is [u64::MAX] — kernel/src/net_socket.rs:263-329 [sys_connect] *)
Definition sys_connect (fd ip_packed port : Z) : M (option Z) :=
  let addr := unpack_addr ip_packed port in
  o ← locked_table (find_socket fd);
  match o with
  | None => mret None
  | Some k =>
      let is_tcp := bool_decide (sock_type k = Tcp) in
      lp ← prepare_connect fd addr is_tcp;
      match lp with
      | None => mret None
      | Some lp =>
          if is_tcp then b ← tcp_handshake fd; if (b : bool) then mret (Some 0%Z) else mret None
          else send_udp_packet fuel lp addr [];; mret (Some 0%Z)
      end
  end.

(** The bytes are [None] when user memory is not readable; the answer then is
    [-EFAULT] — kernel/src/net_socket.rs:332-386 [sys_send] *)
Definition sys_send (fd : Z) (data : option bytes) : M (option Z) :=
  match data with
  | None => mret (Some (2 ^ 64 - 14)%Z)
  | Some data =>
      o ← locked_table (find_socket fd);
      match o with
      | None => mret None
      | Some k =>
          match remote_addr k with
          | None => mret None
          | Some addr =>
              let n := Z.of_nat (length data) in
              match sock_type k with
              | Udp => send_udp_packet fuel (local_port k) addr data;; mret (Some n)
              | Tcp =>
                  if negb (bool_decide (sock_state k = SockConnected)) then mret None
                  else
                    send_tcp_data fuel (local_port k) addr (tcp_seq k) (tcp_ack k) data;;
                    locked_table (i ← find_slot fd; match i with Some i => update_slot i (λ s, set_seq (wrap 32 (tcp_seq s + wrap 32 n)) s) | None => mret tt end);;
                    mret (Some n)
              | Raw => mret (Some n)
              end
          end
      end
  end.

(** [writable n] says whether user memory takes [n] bytes; what is copied comes
    with the answer — kernel/src/net_socket.rs:389-407 [sys_recv] *)
Definition sys_recv (fd len : Z) (writable : nat → bool) : M (Z * bytes) :=
  locked_table (
    i ← find_slot fd;
    s ← get;
    match (i ← i; o ← sockets s !! i; k ← o; Some (i, k)) with
    | Some (i, k) =>
        match rx_buffer k with
        | [] => mret (0%Z, [])
        | data :: rest =>
            update_slot i (set_rx rest);;
            let n := (length data `min` Z.to_nat len)%nat in
            if writable n then mret (Z.of_nat n, take n data) else mret (2 ^ 64 - 14, [])%Z
        end
    | None => mret (0%Z, [])
    end).

(** kernel/src/net_socket.rs:413-422 [connect] *)
Definition connect (fd : Z) (addr : SocketAddr) : M bool :=
  ip ← unwrap (match addr_ip addr with
               | [a; b; c; d] => Some (Z.lor (Z.lor (Z.lor (Z.shiftl a 24) (Z.shiftl b 16)) (Z.shiftl c 8)) d)
               | _ => None
               end);
  r ← sys_connect fd ip (addr_port addr); mret (bool_decide (is_Some r)).

(** kernel/src/net_socket.rs:424-464 [send] *)
Definition send (fd : Z) (data : bytes) : M bool :=
  o ← locked_table (gets (λ s, i ← slot_of fd s; o ← sockets s !! i; o));
  match k ← o; addr ← remote_addr k; Some (k, addr) with
  | None => mret false
  | Some (k, addr) =>
      match sock_type k with
      | Udp => send_udp_packet fuel (local_port k) addr data;; mret true
      | Tcp =>
          o ← locked_table (find_socket fd);
          match o with
          | Some k' => send_tcp_data fuel (local_port k) addr (tcp_seq k') (tcp_ack k') data;; mret true
          | None => mret false
          end
      | Raw => mret true
      end
  end.

(** ** Requests of the network service *)

(** spark-abi/src/net.rs:6-15 [NET_OP_SOCKET, ...] *)
Definition NET_OP_SOCKET : Z := 1.
Definition NET_OP_BIND : Z := 2.
Definition NET_OP_LISTEN : Z := 3.
Definition NET_OP_CONNECT : Z := 4.
Definition NET_OP_SEND : Z := 5.
Definition NET_OP_RECV : Z := 6.
Definition NET_OP_CLOSE : Z := 7.
Definition IPPROTO_TCP : Z := 6.

(** spark-abi/src/net.rs:19-27 [NetRequest] *)
Record NetRequest := mkNetRequest {
  nq_opcode : Z;
  nq_socket : Z;
  nq_proto : Z;
  nq_ip : bytes;
  nq_port : Z;
}.
(** spark-abi/src/net.rs:84-88 [NetResponse] *)
Record NetResponse := mkNetResponse { np_status : Z; np_socket : Z; np_bytes : Z }.
(** spark-abi/src/net.rs:91-105 [NetResponse::ok, err] *)
Definition net_ok (socket bytes : Z) : NetResponse := mkNetResponse 0 socket bytes.
Definition net_err (e : Z) : NetResponse := mkNetResponse e 0 0.

Definition when (b : bool) (r : NetResponse) (e : Z) : NetResponse * bytes := ((if b then r else net_err e), []).

(** kernel/src/net_socket.rs:618-675 [dispatch_net_request] *)
Definition dispatch_net_request (q : NetRequest) (data_payload : option bytes) : M (NetResponse * bytes) :=
  let op := nq_opcode q in
  let id := nq_socket q in
  if (op =? NET_OP_SOCKET)%Z then
    fd ← socket (if (nq_proto q =? IPPROTO_TCP)%Z then Tcp else Udp);
    mret (match fd with Some fd => (net_ok (wrap 32 fd) 0, []) | None => (net_err ENOMEM, []) end)
  else if (op =? NET_OP_BIND)%Z then b ← bind id (nq_port q); mret (when b (net_ok id 0) EINVAL)
  else if (op =? NET_OP_LISTEN)%Z then b ← listen id; mret (when b (net_ok id 0) EINVAL)
  else if (op =? NET_OP_CONNECT)%Z then b ← connect id (mkAddr (nq_ip q) (nq_port q)); mret (when b (net_ok id 0) EACCES)
  else if (op =? NET_OP_SEND)%Z then
    let payload := default [] data_payload in
    b ← send id payload; mret (when b (net_ok id (wrap 32 (Z.of_nat (length payload)))) EIO)
  else if (op =? NET_OP_RECV)%Z then
    r ← recv id;
    mret (match r with Some data => (net_ok id (wrap 32 (Z.of_nat (length data))), data) | None => (net_err EAGAIN, []) end)
  else if (op =? NET_OP_CLOSE)%Z then close id;; mret (net_ok id 0, [])
  else mret (net_err ENOSYS, []).

(** ** Packets of the shell *)

(** kernel/src/net.rs:571-601 [create_ping_packet] *)
Definition create_ping_packet (src_mac : bytes) (sequence_num : Z) : M bytes :=
  dest_mac ← resolve_ip (send_ipv4_packet fuel) [8; 8; 8; 8]%Z;
  let icmp := [8; 0; 0; 0; 0; 1]%Z ++ to_be 2 sequence_num ++ replicate 32 65%Z in
  checksum ← unwrap (calculate_checksum icmp);
  ip ← unwrap (build_ipv4_packet [8; 8; 8; 8]%Z 1 (put_u16 2 checksum icmp));
  mret (ethernet_frame dest_mac src_mac 2048 ip).

(** kernel/src/net.rs:613-641 [create_dns_query_packet] *)
Definition create_dns_query_packet (src_mac domain : bytes) (transaction_id : Z) : M bytes :=
  ip ← unwrap (build_ipv4_packet [8; 8; 8; 8]%Z 17 (build_udp_packet 51966 53 (dns_query domain transaction_id)));
  dest_mac ← resolve_ip (send_ipv4_packet fuel) [8; 8; 8; 8]%Z;
  mret (ethernet_frame dest_mac src_mac 2048 ip).
End api.
