(* ===== verification/NetProps.v ===== *)
(** * The network stack: properties

    What any sequence of requests, system calls and frames preserves, and what
    follows: no socket of the stack is ever connected, the system calls that
    look a socket up never return, and one malformed datagram stops the kernel.
    A datagram reaches the socket bound to its port.  Sending ends. *)
From S2P Require Import Prelude Bytes Text Abi NetPacket PacketProps NetStack NetApi.

(** ** Computations that only read *)

Definition reads {S E A} (m : comp S E A) : Prop := ∀ s, (m s).2 = s.

Section reads.
Context {S E : Type}.

Lemma read_only_ret {A} (a : A) : reads (mret (M := comp S E) a).
Proof. done. Qed.
Lemma reads_unwrap {A} (o : option A) : reads (S := S) (E := E) (unwrap o).
Proof. by destruct o. Qed.
Lemma read_only_bind {A B} (m : comp S E A) (k : A → comp S E B) : reads m → (∀ a, reads (k a)) → reads (m ≫= k).
Proof.
  intros Hm Hk s. specialize (Hm s). unfold mbind, comp_bind. destruct (m s) as [[a|e|] s'] eqn:Hr; cbn in *; subst; [apply Hk|done..].
Qed.
Lemma reads_if {A} (b : bool) (m n : comp S E A) : reads m → reads n → reads (if b then m else n).
Proof. by destruct b. Qed.
Lemma reads_gets {A} (f : S → A) : reads (E := E) (gets f).
Proof. done. Qed.
End reads.
#[local] Create HintDb reads.
#[local] Hint Resolve read_only_ret reads_unwrap read_only_bind reads_if reads_gets : reads.
#[local] Hint Extern 1 (reads (at_ _ _)) => apply reads_unwrap : reads.
#[local] Hint Extern 1 (reads (range _ _ _)) => apply reads_unwrap : reads.
#[local] Hint Extern 1 (reads (u16_at _ _)) => unfold u16_at : reads.
#[local] Hint Extern 2 (reads (match ?x with _ => _ end)) => destruct x : reads.

Lemma parse_arp_reads {S E} p : reads (S := S) (E := E) (parse_arp p).
Proof. unfold parse_arp. eauto 20 with reads. Qed.
Lemma parse_tcp_reads {S E} p i : reads (S := S) (E := E) (parse_tcp_header p i).
Proof. unfold parse_tcp_header. eauto 20 with reads. Qed.
Lemma parse_ipv4_reads {S E} p : reads (S := S) (E := E) (parse_ipv4_payload p).
Proof. unfold parse_ipv4_payload, parse_ipv4_header. cbv zeta. eauto 40 with reads. Qed.

(** Parsers give the same answer in every state. *)
Definition pure {S E A} (m : comp S E A) : Prop := ∃ r, ∀ s, m s = (r, s).

Section pure.
Context {S E : Type}.

Lemma pure_ret {A} (a : A) : pure (mret (M := comp S E) a).
Proof. by exists (Ok a). Qed.
Lemma pure_unwrap {A} (o : option A) : pure (S := S) (E := E) (unwrap o).
Proof. destruct o as [a|]; [by exists (Ok a)|by exists Panic]. Qed.
Lemma pure_bind {A B} (m : comp S E A) (k : A → comp S E B) : pure m → (∀ a, pure (k a)) → pure (m ≫= k).
Proof.
  intros [[a|e|] Hr] Hk; [destruct (Hk a) as [r Hk']; exists r|exists (Err e)|exists Panic]; intros s; unfold mbind, comp_bind; by rewrite Hr.
Qed.
Lemma pure_if {A} (b : bool) (m n : comp S E A) : pure m → pure n → pure (if b then m else n).
Proof. by destruct b. Qed.
End pure.
#[local] Create HintDb pure.
#[local] Hint Resolve pure_ret pure_unwrap pure_bind pure_if : pure.
#[local] Hint Extern 1 (pure (at_ _ _)) => apply pure_unwrap : pure.
#[local] Hint Extern 1 (pure (range _ _ _)) => apply pure_unwrap : pure.
#[local] Hint Extern 1 (pure (u16_at _ _)) => unfold u16_at : pure.
#[local] Hint Extern 2 (pure (match ?x with _ => _ end)) => destruct x : pure.

Lemma u16_pure {S E} i p : pure (S := S) (E := E) (u16_at i p).
Proof. eauto 20 with pure. Qed.
Lemma parse_ipv4_pure {S E} p : pure (S := S) (E := E) (parse_ipv4_payload p).
Proof. unfold parse_ipv4_payload, parse_ipv4_header. cbv zeta. eauto 40 with pure. Qed.

Section stack.
Context {N : Type} `{!Nic N}.
Abbreviation State := (NetState N).
Abbreviation M := (comp State Empty_set).

(** ** The invariant *)

(** A socket that is not, and never was, connected. *)
Record unconnected (fd_bound : Z) (k : Socket) : Prop := {
  u_state : sock_state k = SockClosed ∨ sock_state k = SockListening;
  u_peer : remote_addr k = None;
  u_rx : length (rx_buffer k) ≤ 16;
  u_tcp : sock_type k = Tcp → rx_buffer k = [];
  u_fd : (0 ≤ sock_fd k < fd_bound)%Z;
}.

(** Descriptors name one socket; the cache is sound, and never says who has our
    address. *)
Record stack_ok (s : NetState N) : Prop := {
  n_slots : length (sockets s) = 64;
  n_sockets : ∀ i k, sockets s !! i = Some (Some k) → unconnected (next_fd s) k;
  n_fds : ∀ i j k k', sockets s !! i = Some (Some k) → sockets s !! j = Some (Some k') → sock_fd k = sock_fd k' → i = j;
  n_next : (0 ≤ next_fd s)%Z;
  n_port : (49152 ≤ next_port s ≤ 65535)%Z;
  n_cache : cache_ok (ARP_CACHE s);
  n_own : MY_IP ∉ arp_ip <$> ARP_CACHE s;
}.

(** A computation that returns keeps the stack sound, and the lock as it was. *)
Definition keeps {A} (m : M A) : Prop :=
  ∀ s a s', stack_ok s → m s = (Ok a, s') → stack_ok s' ∧ table_held s' = table_held s.

Lemma keeps_reads {A} (m : M A) : reads m → keeps m.
Proof. intros Hm s a s' Hok Hr. pose proof (Hm s) as H. rewrite Hr in H. cbn in H. by subst. Qed.
Lemma keeps_bind {A B} (m : M A) (k : A → M B) : keeps m → (∀ a, keeps (k a)) → keeps (m ≫= k).
Proof.
  intros Hm Hk s b s' Hok. unfold mbind, comp_bind. destruct (m s) as [[a|e|] s1] eqn:Hr; [|done..].
  destruct (Hm _ _ _ Hok Hr) as [Hok1 Hh]. intros Hr'. destruct (Hk _ _ _ _ Hok1 Hr'). split; [done|congruence].
Qed.
(** After [get], what runs may depend on the state it runs in. *)
Lemma keeps_get {B} (k : State → M B) :
  (∀ s a s', stack_ok s → k s s = (Ok a, s') → stack_ok s' ∧ table_held s' = table_held s) → keeps (get ≫= k).
Proof. intros H s b s' Hok Hr. by eapply H. Qed.
Lemma keeps_modify (f : State → State) : (∀ s, stack_ok s → stack_ok (f s) ∧ table_held (f s) = table_held s) → keeps (modify f).
Proof. intros H s [] s' Hok [= <-]. by apply H. Qed.
Lemma keeps_if {A} (b : bool) (m n : M A) : keeps m → keeps n → keeps (if b then m else n).
Proof. by destruct b. Qed.

Lemma stack_ok_same s s' : stack_ok s → sockets s' = sockets s → next_fd s' = next_fd s → next_port s' = next_port s →
  ARP_CACHE s' = ARP_CACHE s → stack_ok s'.
Proof. intros [] H1 H2 H3 H4. split; rewrite ?H1, ?H2, ?H3, ?H4; done. Qed.

(** A lock that is taken was free, and is free again. *)
Lemma locked_run {A} (m : M A) s a s' : locked_table m s = (Ok a, s') → 
  table_held s = false ∧ ∃ s1, m (with_held true s) = (Ok a, s1) ∧ s' = with_held false s1.
Proof.
  unfold locked_table, mbind, comp_bind, get, put. cbn. destruct (table_held s); [done|]. cbn.
  destruct (m _) as [[x|e|] s1]; [|done..]. cbn. intros [= <- <-]. split; [done|]. by exists s1.
Qed.
Lemma locked_held {A} (m : M A) s : table_held s = true → locked_table m s = (Panic, s).
Proof. unfold locked_table, mbind, comp_bind, get. cbn. by intros ->. Qed.
Lemma locked_free {A} (m : M A) s r s1 : table_held s = false → m (with_held true s) = (r, s1) →
  locked_table m s = match r with Ok a => (Ok a, with_held false s1) | Err e => (Err e, s1) | Panic => (Panic, s1) end.
Proof. unfold locked_table, mbind, comp_bind, get, put. cbn. intros -> ->. by destruct r. Qed.

Lemma keeps_locked {A} (m : M A) : keeps m → keeps (locked_table m).
Proof.
  intros Hm s a s' Hok (Hf & s1 & Hr & ->)%locked_run.
  destruct (Hm _ _ _ (stack_ok_same _ (with_held true s) Hok eq_refl eq_refl eq_refl eq_refl) Hr) as [Hok1 _].
  split; [by apply (stack_ok_same s1)|]. by rewrite Hf.
Qed.

(** ** The operations *)

Lemma keeps_dev (f : State → option N) : keeps (modify (λ s, with_dev (f s) s)).
Proof. apply keeps_modify. intros s Hok. split; [|done]. by apply (stack_ok_same s). Qed.
Lemma keeps_next_frame : keeps (next_frame (N := N)).
Proof.
  apply keeps_get. intros s a s' Hok. destruct (RTL8139_DEV s) as [d|]; [|by intros [= <- <-]].
  destruct (poll_rx d) as [f d']. intros [= <- <-]. split; [|done]. by apply (stack_ok_same s).
Qed.
Lemma keeps_frame d t p : keeps (send_ethernet_packet (N := N) d t p).
Proof. apply keeps_get. intros s a s' Hok. by apply (keeps_dev (λ s, send_packet _ <$> RTL8139_DEV s)). Qed.
Lemma keeps_arp_request ip : keeps (send_arp_request (N := N) ip).
Proof. apply keeps_get. intros s a s' Hok. by apply (keeps_dev (λ s, send_packet _ <$> RTL8139_DEV s)). Qed.
Lemma keeps_arp_reply ip mac : keeps (send_arp_reply (N := N) ip mac).
Proof. apply keeps_get. intros s a s' Hok. by apply (keeps_dev (λ s, send_packet _ <$> RTL8139_DEV s)). Qed.

Lemma cache_insert_addresses ip mac t cache x : x ∈ arp_ip <$> arp_cache_insert_with_time ip mac t cache → x = ip ∨ x ∈ arp_ip <$> cache.
Proof.
  unfold arp_cache_insert_with_time. intros (e & -> & He)%list_elem_of_fmap. destruct (list_find _ cache) as [[i e']|] eqn:Hf.
  - apply list_elem_of_lookup in He as [j Hj]. apply list_lookup_insert_Some in Hj as [(_ & <- & _)|[_ Hj]]; [by left|].
    right. apply list_elem_of_fmap. exists e. split; [done|]. by eapply list_elem_of_lookup_2.
  - apply elem_of_app in He as [He | ->%list_elem_of_singleton]; [|by left]. right. apply list_elem_of_fmap. exists e. split; [done|].
    destruct (32 <=? length cache); [|done]. destruct cache; [done|]. by right.
Qed.

Lemma keeps_incoming_arp packet : keeps (handle_incoming_arp (N := N) packet).
Proof.
  apply keeps_bind; [apply keeps_reads, parse_arp_reads|]. intros [[[ip mac] op]|]; [|by apply keeps_reads].
  apply keeps_bind; [apply keeps_reads; eauto with reads|]. intros hlen.
  apply keeps_bind; [apply keeps_reads; eauto with reads|]. intros ptype.
  apply keeps_bind; [|intros; by apply keeps_reads]. apply keeps_if; [|apply keeps_if; [|by apply keeps_reads]].
  - cbv zeta. apply keeps_if; [|by apply keeps_reads]. apply keeps_bind; [apply keeps_reads; eauto with reads|]. intros t.
    case_decide; [apply keeps_arp_reply|by apply keeps_reads].
  - case_decide as Hip; [by apply keeps_reads|]. apply keeps_modify. intros s [H1 H2 H3 H4 H5 H6 H7]. split; [|done].
    split; try done; cbn; [by apply cache_insert_ok|]. intros [Hx | Hx]%cache_insert_addresses; congruence.
Qed.

(** *** Sockets *)

Lemma update_ok i (f : Socket → Socket) s : stack_ok s →
  (∀ k, sockets s !! i = Some (Some k) → unconnected (next_fd s) (f k) ∧ sock_fd (f k) = sock_fd k) →
  stack_ok (with_sockets (alter (λ o, f <$> o) i (sockets s)) s).
Proof.
  intros [H1 H2 H3 H4 H5 H6 H7] Hf.
  assert (∀ j k, alter (λ o, f <$> o) i (sockets s) !! j = Some (Some k) →
    ∃ k0, sockets s !! j = Some (Some k0) ∧ sock_fd k = sock_fd k0 ∧ unconnected (next_fd s) k) as Hback.
  { intros j k Hj. rewrite list_lookup_alter in Hj. case_decide as Hij; [|by eauto]. subst.
    destruct (sockets s !! j) as [[k0|]|] eqn:Hk0; try done. cbn in Hj. injection Hj as <-. exists k0. by destruct (Hf _ eq_refl). }
  split; try done; cbn [sockets next_fd with_sockets].
  - by rewrite length_alter.
  - intros j k Hj. by destruct (Hback _ _ Hj) as (? & _ & _ & ?).
  - intros j j' k k' Hj Hj' He. destruct (Hback _ _ Hj) as (k0 & Hk0 & Hfd0 & _). destruct (Hback _ _ Hj') as (k0' & Hk0' & Hfd & _).
    eapply H3; [done..|congruence].
Qed.
Lemma insert_None_ok i s : stack_ok s → stack_ok (with_sockets (<[i := None]> (sockets s)) s).
Proof.
  intros [H1 H2 H3 H4 H5 H6 H7].
  assert (∀ j k, <[i := None]> (sockets s) !! j = Some (Some k) → sockets s !! j = Some (Some k)) as Hback.
  { intros j k [(_ & [=] & _)|[_ ?]]%list_lookup_insert_Some. done. }
  split; try done; cbn [sockets next_fd with_sockets]; [by rewrite length_insert|by eauto|by eauto].
Qed.

Lemma keeps_socket ty : keeps (socket (N := N) ty).
Proof.
  apply keeps_locked, keeps_get. intros s a s' Hok. destruct (list_find _ (sockets s)) as [[i o]|] eqn:Hf; [|by intros [= <- <-]].
  apply list_find_Some in Hf as (Hi & -> & _). destruct Hok as [H1 H2 H3 H4 H5 H6 H7]. cbv zeta. unfold fits.
  case_decide as Hfd; [|done]. intros [= <- <-]. split; [|done].
  assert (∀ j k, <[i := Some (mkSocket (next_fd s) ty SockClosed 0 None [] 0 0)]> (sockets s) !! j = Some (Some k) →
    (j = i ∧ k = mkSocket (next_fd s) ty SockClosed 0 None [] 0 0) ∨ (j ≠ i ∧ sockets s !! j = Some (Some k))) as Hback.
  { intros j k [(-> & [= <-] & _)|[? ?]]%list_lookup_insert_Some; [by left|by right]. }
  split; try done; cbn [sockets next_fd with_sockets with_next_fd]; [by rewrite length_insert| | |lia].
  - intros j k [[-> ->] |[_ Hk]]%Hback; [split; cbn; auto with lia|]. destruct (H2 _ _ Hk). split; auto with lia.
  - intros j j' k k' [[-> ->] |[? Hk]]%Hback [[-> ->] |[? Hk']]%Hback; cbn; [done|..].
    + pose proof (u_fd _ _ (H2 _ _ Hk')). lia.
    + pose proof (u_fd _ _ (H2 _ _ Hk)). lia.
    + by eauto.
Qed.
Lemma keeps_allocate : keeps (allocate_port (N := N)).
Proof.
  intros s a s' [H1 H2 H3 H4 H5 H6 H7] [= <- <-]. split; [|done]. split; try done. cbn [next_port with_next_port].
  destruct (Z.eqb_spec (next_port s) 65535); lia.
Qed.
Lemma keeps_update i (f : Socket → Socket) :
  (∀ b k, unconnected b k → unconnected b (f k) ∧ sock_fd (f k) = sock_fd k) → keeps (update_slot (N := N) i f).
Proof. intros Hf. apply keeps_modify. intros s Hok. split; [|done]. apply update_ok; [done|]. intros k Hk. by apply Hf, (n_sockets _ Hok i). Qed.
Lemma keeps_bind_port fd port : keeps (bind (N := N) fd port).
Proof.
  apply keeps_locked, keeps_get. intros s a s' Hok. destruct (existsb _ _); [by intros [= <- <-]|].
  destruct (slot_of fd s) as [i|]; [|by intros [= <- <-]]. revert s a s' Hok.
  refine (keeps_bind (if (port =? 0)%Z then allocate_port else mret port) _ _ _).
  - apply keeps_if; [apply keeps_allocate|by apply keeps_reads].
  - intros p. apply keeps_bind; [|intros; by apply keeps_reads]. apply keeps_update. intros b k []. split; [|done]. by split.
Qed.
Lemma keeps_listen fd : keeps (listen (N := N) fd).
Proof.
  apply keeps_locked, keeps_get. intros s a s' Hok. destruct (list_find _ _) as [[i [k|]]|]; try by intros [= <- <-].
  case_decide; [|by intros [= <- <-]]. revert s a s' Hok.
  refine (keeps_bind _ _ _ _); [|intros; by apply keeps_reads]. apply keeps_update. intros b k' []. split; [|done]. split; auto.
Qed.
Lemma keeps_recv fd : keeps (recv (N := N) fd).
Proof.
  apply keeps_locked, keeps_get. intros s a s' Hok. destruct (list_find _ _) as [[i [k|]]|] eqn:Hf; try by intros [= <- <-].
  apply list_find_Some in Hf as (Hi & _). intros [= <- <-]. split; [|done]. apply update_ok; [done|].
  intros k' Hk'. rewrite Hi in Hk'. injection Hk' as <-. destruct (n_sockets _ Hok _ _ Hi). split; [|done]. split; try done; cbn.
  - destruct (rx_buffer k); cbn in *; lia.
  - intros Ht. by rewrite u_tcp0.
Qed.
Lemma keeps_close fd : keeps (close (N := N) fd).
Proof.
  apply keeps_locked, keeps_get. intros s a s' Hok. destruct (slot_of fd s) as [i|]; intros [= <- <-]; [|done].
  split; [|done]. by apply insert_None_ok.
Qed.
(** Datagrams are queued; a stream has no data. *)
Lemma keeps_deliver port data : keeps (deliver_packet_to_socket (N := N) Udp port data).
Proof.
  apply keeps_locked, keeps_get. intros s a s' Hok. destruct (list_find _ _) as [[i [k|]]|] eqn:Hf; try by intros [= <- <-].
  apply list_find_Some in Hf as (Hi & Ht & _). destruct (Nat.ltb_spec (length (rx_buffer k)) 16); [|by intros [= <- <-]].
  intros [= <- <-]. split; [|done]. apply update_ok; [done|]. intros k' Hk'. rewrite Hi in Hk'. injection Hk' as <-.
  destruct (n_sockets _ Hok _ _ Hi). split; [|done]. split; try done; cbn.
  - rewrite length_app. cbn. lia.
  - unfold takes in Ht. intros He. rewrite He in Ht. done.
Qed.
Lemma keeps_udp packet start : keeps (handle_incoming_udp (N := N) packet start).
Proof.
  apply keeps_if; [by apply keeps_reads|]. apply keeps_bind; [apply keeps_reads; eauto with reads|]. intros _.
  apply keeps_bind; [apply keeps_reads; eauto with reads|]. intros port. apply keeps_bind; [apply keeps_reads; eauto with reads|]. intros len.
  apply keeps_if; [by apply keeps_reads|]. apply keeps_bind; [apply keeps_reads; eauto with reads|]. intros payload. apply keeps_deliver.
Qed.

(** ** What arrives *)

(** The lookup of the target of a segment. *)
Lemma tcp_target (s : State) port : table_held s = false →
  locked_table (gets (λ s, list_find (takes Tcp port) (sockets s))) s = (Ok (list_find (takes Tcp port) (sockets s)), s).
Proof. intros Hf. etrans; [exact (locked_free (gets _) _ (Ok _) (with_held true s) Hf eq_refl)|]. destruct s; cbn in *; by subst. Qed.

(** A segment finds no connection: it is dropped. *)
Lemma tcp_dropped send packet src start s hdr : stack_ok s → table_held s = false →
  parse_tcp_header (E := Empty_set) packet start s = (Ok (Some hdr), s) → handle_incoming_tcp (N := N) send packet src start s = (Ok tt, s).
Proof.
  intros Hok Hf Hp. unfold handle_incoming_tcp. rewrite (bind_ok _ _ _ _ _ Hp). cbv zeta.
  rewrite (bind_ok _ _ _ _ _ (tcp_target _ (tcp_dst hdr) Hf)). destruct (list_find _ _) as [[i [k|]]|] eqn:Hk; try done.
  apply list_find_Some in Hk as (Hk & _). unfold segment_arrived.
  by destruct (u_state _ _ (n_sockets _ Hok _ _ Hk)) as [-> | ->].
Qed.
Lemma tcp_held send packet src start s hdr : table_held s = true →
  parse_tcp_header (E := Empty_set) packet start s = (Ok (Some hdr), s) → (handle_incoming_tcp (N := N) send packet src start s).1 = Panic.
Proof.
  intros Hf Hp. unfold handle_incoming_tcp. rewrite (bind_ok _ _ _ _ _ Hp). cbv zeta.
  by rewrite (bind_panic _ _ _ _ (locked_held _ _ Hf)).
Qed.
Lemma keeps_tcp send packet src start : keeps (handle_incoming_tcp (N := N) send packet src start).
Proof.
  intros s a s' Hok Hr. pose proof (parse_tcp_reads (E := Empty_set) packet start s) as Hp. destruct (parse_tcp_header packet start s) as [[[hdr|]|e|] s0] eqn:He;
    cbn in Hp; subst s0.
  - destruct (table_held s) eqn:Hf.
    + pose proof (tcp_held send _ src _ _ _ Hf He) as Hx. by rewrite Hr in Hx.
    + rewrite (tcp_dropped send _ src _ _ _ Hok Hf He) in Hr. by injection Hr as <- <-.
  - unfold handle_incoming_tcp in Hr. rewrite (bind_ok _ _ _ _ _ He) in Hr. by injection Hr as <- <-.
  - destruct e.
  - unfold handle_incoming_tcp in Hr. by rewrite (bind_panic _ _ _ _ He) in Hr.
Qed.
Lemma keeps_packet send packet : keeps (handle_incoming_packet (N := N) send packet).
Proof.
  apply keeps_bind; [apply keeps_reads, parse_ipv4_reads|]. intros [[[[src dst] proto] start]|]; [|by apply keeps_reads].
  apply keeps_if; [apply keeps_tcp|]. apply keeps_if; [apply keeps_udp|by apply keeps_reads].
Qed.
Lemma keeps_incoming_frame send packet : keeps (handle_incoming_frame (N := N) send packet).
Proof.
  apply keeps_if; [by apply keeps_reads|]. apply keeps_bind; [apply keeps_reads; eauto with reads|]. intros t.
  apply keeps_if; [apply keeps_incoming_arp|]. apply keeps_if; [|by apply keeps_reads].
  apply keeps_bind; [apply keeps_packet|]. intros; by apply keeps_reads.
Qed.

(** ** What is sent *)

Lemma keeps_poll send n ip : keeps (poll_arp_reply (N := N) send n ip).
Proof.
  induction n as [|n IH]; cbn [poll_arp_reply]; [by apply keeps_reads|]. apply keeps_bind; [apply keeps_next_frame|]. intros f.
  apply keeps_bind.
  - destruct f as [p|]; [|by apply keeps_reads]. apply keeps_bind; [apply keeps_incoming_arp|]. intros []; [by apply keeps_reads|apply keeps_packet].
  - intros _. apply keeps_get. intros s a s' Hok. case_bool_decide; [by intros [= <- <-]|]. by apply IH.
Qed.
Lemma keeps_ask send n ip : keeps (ask_for (N := N) send n ip).
Proof.
  induction n as [|n IH]; cbn [ask_for]; [by apply keeps_reads|]. apply keeps_bind; [apply keeps_arp_request|]. intros _.
  apply keeps_bind; [apply keeps_poll|]. intros []; [by apply keeps_reads|done].
Qed.
Lemma keeps_resolve send ip : keeps (resolve_ip (N := N) send ip).
Proof.
  apply keeps_get. intros s a s' Hok. destruct (arp_cache_lookup ip _); [by intros [= <- <-]|]. revert s a s' Hok.
  refine (keeps_bind _ _ _ _); [apply keeps_ask|]. intros _. apply keeps_get. by intros s a s' Hok [= <- <-].
Qed.
Lemma keeps_send fuel ip proto payload : keeps (send_ipv4_packet (N := N) fuel ip proto payload).
Proof.
  destruct fuel; cbn [send_ipv4_packet]; [by intros s a s' _ [=]|]. apply keeps_bind; [apply keeps_resolve|]. intros mac.
  apply keeps_bind; [apply keeps_reads, reads_unwrap|]. intros p. apply keeps_frame.
Qed.
Lemma keeps_send_tcp fuel port dest seq ack flags data :
  keeps (send_tcp (send_ipv4_packet (N := N) fuel) port dest seq ack flags data).
Proof. apply keeps_bind; [apply keeps_reads, reads_unwrap|]. intros tcp. apply keeps_send. Qed.
Lemma keeps_pump fuel n : keeps (pump_rx (N := N) fuel n).
Proof.
  induction n as [|n IH]; cbn [pump_rx]; [by apply keeps_reads|]. apply keeps_bind; [apply keeps_next_frame|]. intros f.
  apply keeps_bind; [|done]. destruct f as [p|]; [|by apply keeps_reads]. intros s a s' Hok. unfold ignore, attempt, mbind, comp_bind.
  destruct (handle_incoming_frame _ p s) as [[b|[]|] s1] eqn:Hr; [|done]. intros [= <- <-]. by eapply keeps_incoming_frame.
Qed.

(** ** Calls that look a socket up *)

(** Looking a socket up takes the lock that the caller holds. *)
Lemma find_slot_hangs fd (s : State) : table_held s = true → find_slot fd s = (Panic, s).
Proof. apply locked_held. Qed.
Lemma lookup_hangs {A} fd (k : option Socket → M A) s : (locked_table (find_socket fd ≫= k) s).1 = Panic.
Proof.
  destruct (table_held s) eqn:Hf; [by rewrite locked_held|]. rewrite (locked_free _ _ Panic (with_held true s) Hf); [done|].
  apply bind_panic. unfold find_socket. by apply bind_panic, find_slot_hangs.
Qed.
Lemma lookup_hangs' fd (s : State) : (locked_table (find_socket fd) s).1 = Panic.
Proof.
  destruct (table_held s) eqn:Hf; [by rewrite locked_held|]. rewrite (locked_free _ _ Panic (with_held true s) Hf); [done|].
  unfold find_socket. by apply bind_panic, find_slot_hangs.
Qed.
Lemma bind_hangs {A B} (m : M A) (k : A → M B) s : (m s).1 = Panic → ((m ≫= k) s).1 = Panic.
Proof. unfold mbind, comp_bind. by destruct (m s) as [[?|?|] ?]. Qed.

Lemma connect_hangs fuel fd ip port (s : State) : (sys_connect fuel fd ip port s).1 = Panic.
Proof. apply bind_hangs, lookup_hangs'. Qed.
Lemma send_hangs fuel fd data (s : State) : (sys_send fuel fd (Some data) s).1 = Panic.
Proof. apply bind_hangs, lookup_hangs'. Qed.
Lemma recv_hangs fd len writable (s : State) : (sys_recv fd len writable s).1 = Panic.
Proof.
  unfold sys_recv. destruct (table_held s) eqn:Hf; [by rewrite locked_held|].
  rewrite (locked_free _ _ Panic (with_held true s) Hf); [done|]. by apply bind_panic, find_slot_hangs.
Qed.
Lemma handshake_hangs fuel fd (s : State) : (tcp_handshake fuel fd s).1 = Panic.
Proof. apply bind_hangs, lookup_hangs'. Qed.
Lemma kernel_connect_hangs fuel fd addr (s : State) : (connect fuel fd addr s).1 = Panic.
Proof.
  unfold connect. match goal with |- context [unwrap ?o] => destruct o as [ip|] end; [|done].
  rewrite (bind_ok _ _ s ip s) by done. apply bind_hangs, connect_hangs.
Qed.

(** ** Everything the stack does *)

(** A step that returns: a request, a system call, the frames that wait, or a
    packet of the kernel's own. *)
Inductive net_step (fuel : nat) : State → State → Prop :=
| step_request q data r s s' : dispatch_net_request fuel q data s = (Ok r, s') → net_step fuel s s'
| step_socket domain kind r s s' : sys_socket domain kind s = (Ok r, s') → net_step fuel s s'
| step_connect fd ip port r s s' : sys_connect fuel fd ip port s = (Ok r, s') → net_step fuel s s'
| step_send fd data r s s' : sys_send fuel fd data s = (Ok r, s') → net_step fuel s s'
| step_recv fd len w r s s' : sys_recv fd len w s = (Ok r, s') → net_step fuel s s'
| step_frames n s s' : pump_rx fuel n s = (Ok tt, s') → net_step fuel s s'
| step_packet packet s s' : handle_incoming_packet (send_ipv4_packet fuel) packet s = (Ok tt, s') → net_step fuel s s'
| step_ipv4 ip proto payload s s' : send_ipv4_packet fuel ip proto payload s = (Ok tt, s') → net_step fuel s s'
| step_ping mac seq r s s' : create_ping_packet fuel mac seq s = (Ok r, s') → net_step fuel s s'
| step_dns mac name id r s s' : create_dns_query_packet fuel mac name id s = (Ok r, s') → net_step fuel s s'.

Lemma hangs_not {A} (m : M A) s a s' : (m s).1 = Panic → m s = (Ok a, s') → False.
Proof. intros H Hr. by rewrite Hr in H. Qed.

Lemma no_peer_no_send (s : State) fuel fd data : stack_ok s → table_held s = false → send fuel fd data s = (Ok false, s).
Proof.
  intros Hok Hf. unfold send. erewrite bind_ok by (exact (locked_free (gets _) _ (Ok _) (with_held true s) Hf eq_refl)).
  replace (with_held false (with_held true s)) with s by (destruct s; cbn in *; by subst).
  unfold slot_of. destruct (list_find _ _) as [[i o]|] eqn:Hfd; [|done].
  apply list_find_Some in Hfd as (Hi & _). change (sockets (with_held true s)) with (sockets s) in *. cbn -[lookup]. rewrite Hi. cbn. destruct o as [k|]; [|done]. cbn.
  by rewrite (u_peer _ _ (n_sockets _ Hok _ _ Hi)).
Qed.

(** The requests to connect and to send. *)
Lemma connect_request_hangs fuel q data (s : State) : nq_opcode q = NET_OP_CONNECT → (dispatch_net_request fuel q data s).1 = Panic.
Proof.
  intros Hq. unfold dispatch_net_request. rewrite Hq. cbv zeta.
  change (NET_OP_CONNECT =? NET_OP_SOCKET)%Z with false. change (NET_OP_CONNECT =? NET_OP_BIND)%Z with false.
  change (NET_OP_CONNECT =? NET_OP_LISTEN)%Z with false. change (NET_OP_CONNECT =? NET_OP_CONNECT)%Z with true. cbv iota.
  apply bind_hangs, kernel_connect_hangs.
Qed.
Lemma send_request_fails fuel q data (s : State) : stack_ok s → table_held s = false → nq_opcode q = NET_OP_SEND →
  dispatch_net_request fuel q data s = (Ok (net_err EIO, []), s).
Proof.
  intros Hok Hf Hq. unfold dispatch_net_request. rewrite Hq. cbv zeta.
  change (NET_OP_SEND =? NET_OP_SOCKET)%Z with false. change (NET_OP_SEND =? NET_OP_BIND)%Z with false.
  change (NET_OP_SEND =? NET_OP_LISTEN)%Z with false. change (NET_OP_SEND =? NET_OP_CONNECT)%Z with false.
  change (NET_OP_SEND =? NET_OP_SEND)%Z with true. cbv iota.
  by rewrite (bind_ok _ _ _ _ _ (no_peer_no_send s fuel (nq_socket q) (default [] data) Hok Hf)).
Qed.

Lemma keeps_request fuel q data : keeps (dispatch_net_request (N := N) fuel q data).
Proof.
  unfold dispatch_net_request. cbv zeta. repeat (apply keeps_if; [|]); [..|by apply keeps_reads].
  - apply keeps_bind; [apply keeps_socket|]. intros; by apply keeps_reads.
  - apply keeps_bind; [apply keeps_bind_port|]. intros; by apply keeps_reads.
  - apply keeps_bind; [apply keeps_listen|]. intros; by apply keeps_reads.
  - intros s a s' Hok Hr. exfalso. eapply hangs_not; [|exact Hr]. apply bind_hangs, kernel_connect_hangs.
  - apply keeps_bind; [|intros; by apply keeps_reads]. intros s a s' Hok Hr. destruct (table_held s) eqn:Hf.
    + exfalso. eapply hangs_not; [|exact Hr]. unfold send. apply bind_hangs. by rewrite locked_held.
    + rewrite no_peer_no_send in Hr by done. by injection Hr as <- <-.
  - apply keeps_bind; [apply keeps_recv|]. intros; by apply keeps_reads.
  - apply keeps_bind; [apply keeps_close|]. intros; by apply keeps_reads.
Qed.

Lemma net_step_ok fuel s s' : net_step fuel s s' → stack_ok s → stack_ok s' ∧ table_held s' = table_held s.
Proof.
  destruct 1 as [q data r s s' H|domain kind r s s' H|fd ip port r s s' H|fd data r s s' H|fd len w r s s' H|n s s' H
    |packet s s' H|ip proto payload s s' H|mac seq r s s' H|mac name id r s s' H]; intros Hok.
  - by eapply keeps_request.
  - unfold sys_socket in H. destruct (_ && _); [by injection H as <- <-|]. by eapply keeps_socket.
  - exfalso. eapply hangs_not; [|exact H]. apply connect_hangs.
  - destruct data as [data|]; [|by injection H as <- <-]. exfalso. eapply hangs_not; [|exact H]. apply send_hangs.
  - exfalso. eapply hangs_not; [|exact H]. apply recv_hangs.
  - by eapply keeps_pump.
  - by eapply keeps_packet.
  - by eapply keeps_send.
  - revert s r s' Hok H. refine (keeps_bind _ _ _ _); [apply keeps_resolve|]. intros d. cbv zeta.
    apply keeps_bind; [apply keeps_reads, reads_unwrap|]. intros c. apply keeps_bind; [apply keeps_reads, reads_unwrap|].
    intros; by apply keeps_reads.
  - revert s r s' Hok H. refine (keeps_bind _ _ _ _); [apply keeps_reads, reads_unwrap|]. intros p.
    apply keeps_bind; [apply keeps_resolve|]. intros; by apply keeps_reads.
Qed.
Lemma net_new_ok dev : stack_ok (net_new (N := N) dev).
Proof.
  assert (∀ i (k : Socket), replicate 64 (@None Socket) !! i = Some (Some k) → False) as Hn by (intros i k [[=] _]%lookup_replicate).
  split; cbn; try lia; try by (intros; exfalso; eauto).
  - split; [cbn; lia|constructor].
  - by intros ?%not_elem_of_nil.
Qed.
Lemma net_reachable_ok fuel dev s : rtc (net_step fuel) (net_new dev) s → stack_ok s ∧ table_held s = false.
Proof.
  intros H. remember (net_new dev) as s0 eqn:He. assert (stack_ok s0 ∧ table_held s0 = false) as H0 by (subst; split; [apply net_new_ok|done]).
  clear He. induction H as [s|s1 s2 s3 Hs _ IH]; [done|]. destruct H0 as [Hok Hf]. apply IH.
  destruct (net_step_ok _ _ _ Hs Hok) as [? ?]. split; [done|congruence].
Qed.

(** ** Frames that stop the kernel *)

Lemma bind_panics {A B} (m : M A) (k : A → M B) s a s' : m s = (Ok a, s') → ((m ≫= k) s).1 = Panic ↔ (k a s').1 = Panic.
Proof. intros Hr. by rewrite (bind_ok _ _ _ _ _ Hr). Qed.
Lemma answers_run {A} (m : M A) Q s : answers m Q → ∃ a, m s = (Ok a, s) ∧ Q a.
Proof. intros H. apply H. Qed.

Lemma deliver_returns ty port data (s : State) : table_held s = false → ∃ s', deliver_packet_to_socket ty port data s = (Ok tt, s').
Proof.
  intros Hf. unfold deliver_packet_to_socket, locked_table, mbind, comp_bind, get, put. cbn. rewrite Hf. cbn.
  destruct (list_find _ _) as [[i [k|]]|]; cbn; [|by eauto..]. destruct (length (rx_buffer k) <=? 15); by eexists.
Qed.

(** A datagram is handled, unless it claims to be shorter than its header. *)
Lemma udp_panics packet start (s : State) : Forall byte packet → table_held s = false →
  (handle_incoming_udp packet start s).1 = Panic ↔
  start + 8 ≤ length packet ∧ ∃ len, u16_at (E := Empty_set) (start + 4) packet s = (Ok len, s) ∧ (len < 8)%Z.
Proof.
  intros Hp Hf. unfold handle_incoming_udp. destruct (Nat.ltb_spec (length packet) (start + 8)) as [Hl|Hl].
  { split; [done|]. intros [? _]. lia. }
  destruct (answers_run _ _ s (answers_u16 start packet Hp ltac:(lia))) as (src & Hsrc & _).
  destruct (answers_run _ _ s (answers_u16 (start + 2) packet Hp ltac:(lia))) as (dst & Hdst & _).
  destruct (answers_run _ _ s (answers_u16 (start + 4) packet Hp ltac:(lia))) as (len & Hlen & Hb).
  rewrite (bind_panics _ _ _ _ _ Hsrc), (bind_panics _ _ _ _ _ Hdst), (bind_panics _ _ _ _ _ Hlen).
  transitivity (len < 8)%Z.
  2:{ split; [by eauto|]. intros (_ & len' & Hlen' & ?). congruence. }
  destruct (Nat.ltb_spec (length packet) (start + Z.to_nat len)) as [Hn|Hn]; [cbn; split; [done|lia]|].
  destruct (Z.ltb_spec len 8) as [H8|H8].
  - split; [done|]. intros _. unfold range, slice. rewrite decide_False by lia. done.
  - destruct (answers_run _ _ s (answers_range (start + 8) (start + Z.to_nat len) packet Hp ltac:(lia))) as (payload & Hr & _).
    rewrite (bind_panics _ _ _ _ _ Hr). destruct (deliver_returns Udp dst payload s Hf) as (s' & ->). cbn. split; [done|lia].
Qed.

Lemma arp_returns packet (s : State) : Forall byte packet → ∃ b s', handle_incoming_arp packet s = (Ok b, s').
Proof.
  intros Hp. unfold handle_incoming_arp. destruct (answers_run _ _ s (answers_arp packet Hp)) as (r & Hr & Hl).
  rewrite (bind_ok _ _ _ _ _ Hr). destruct r as [[[ip mac] op]|]; [|by eauto]. destruct (Hl _ _ _ eq_refl) as (Hn & _).
  destruct (answers_run _ _ s (answers_at 18 packet Hp ltac:(lia))) as (h & Hh & Hhb). rewrite (bind_ok _ _ _ _ _ Hh).
  destruct (answers_run _ _ s (answers_at 19 packet Hp ltac:(lia))) as (t & Ht & Htb). rewrite (bind_ok _ _ _ _ _ Ht).
  destruct (op =? 1)%Z.
  - cbv zeta. destruct (Nat.leb_spec (14 + 8 + 2 * Z.to_nat h + 2 * Z.to_nat t + 4) (length packet)) as [Ho|Ho]; [|by eauto].
    destruct (answers_run _ _ s (answers_range (14 + 8 + 2 * Z.to_nat h + 2 * Z.to_nat t) (14 + 8 + 2 * Z.to_nat h + 2 * Z.to_nat t + 4) packet
      Hp ltac:(lia))) as (x & Hx & _).
    rewrite bind_assoc, (bind_ok _ _ _ _ _ Hx). case_decide; by eauto.
  - destruct (op =? 2)%Z; [|by eauto]. case_decide; by eauto.
Qed.

(** Whether a frame carries a datagram that claims to be shorter than its header. *)
Definition malformed (packet : bytes) : bool :=
  let s := net_new (N := N) None in
  match (parse_ipv4_payload (E := Empty_set) packet s).1 with
  | Ok (Some (_, _, proto, n)) =>
      (proto =? 17)%Z && (n + 8 <=? length packet) &&
      match (u16_at (E := Empty_set) (n + 4) packet s).1 with Ok len => (len <? 8)%Z | _ => false end
  | _ => false
  end.
Lemma malformed_spec packet (s : State) : malformed packet = true ↔
  ∃ src dst n len, parse_ipv4_payload (E := Empty_set) packet s = (Ok (Some (src, dst, 17%Z, n)), s) ∧ n + 8 ≤ length packet ∧
    u16_at (E := Empty_set) (n + 4) packet s = (Ok len, s) ∧ (len < 8)%Z.
Proof.
  unfold malformed. destruct (parse_ipv4_pure (S := State) (E := Empty_set) packet) as [r Hr]. rewrite !Hr. cbn [fst].
  split.
  - destruct r as [[[[[src dst] proto] n]|]| |]; try done. destruct (u16_pure (S := State) (E := Empty_set) (n + 4) packet) as [l Hl]. rewrite Hl.
    cbn [fst]. destruct l as [len| |]; [|by rewrite andb_false_r..].
    intros [[->%Z.eqb_eq Hn%Nat.leb_le]%andb_prop Hlt%Z.ltb_lt]%andb_prop. exists src, dst, n, len. by rewrite Hl.
  - intros (src & dst & n & len & [= ->] & Hn & Hlen & Hlt). destruct (u16_pure (S := State) (E := Empty_set) (n + 4) packet) as [l Hl].
    rewrite Hl in *. injection Hlen as ->. cbn [fst]. rewrite Z.eqb_refl. apply Nat.leb_le in Hn. apply Z.ltb_lt in Hlt. by rewrite Hn, Hlt.
Qed.

Lemma packet_panics send packet s : stack_ok s → table_held s = false → Forall byte packet →
  (handle_incoming_packet send packet s).1 = Panic ↔ malformed packet = true.
Proof.
  intros Hok Hf Hp. rewrite (malformed_spec _ s).
  unfold handle_incoming_packet. destruct (answers_run _ _ s (answers_ipv4_payload packet Hp)) as (r & Hr & Hrn).
  rewrite (bind_panics _ _ _ _ _ Hr), Hr. destruct r as [[[[src dst] proto] n]|]; [|split; [done|by intros (? & ? & ? & ? & [=] & _)]].
  destruct (Z.eqb_spec proto 6) as [->|H6].
  { destruct (answers_run _ _ s (answers_tcp_header packet n Hp)) as ([hdr|] & Hh & _).
    - rewrite (tcp_dropped send _ src _ _ _ Hok Hf Hh). split; [done|by intros (? & ? & ? & ? & [=] & _)].
    - unfold handle_incoming_tcp. rewrite (bind_ok _ _ _ _ _ Hh). split; [done|by intros (? & ? & ? & ? & [=] & _)]. }
  destruct (Z.eqb_spec proto 17) as [->|H17]; [|split; [done|by intros (? & ? & ? & ? & [=] & _)]].
  rewrite udp_panics by done. naive_solver.
Qed.

(** Only such a datagram stops a stack without connections. *)
Lemma frame_panics send packet s : stack_ok s → table_held s = false → Forall byte packet →
  (handle_incoming_frame send packet s).1 = Panic ↔ malformed packet = true.
Proof.
  intros Hok Hf Hp. rewrite (malformed_spec _ s). unfold handle_incoming_frame. destruct (Nat.ltb_spec (length packet) 14) as [Hl|Hl].
  { split; [done|]. intros (? & ? & ? & ? & H & _). unfold parse_ipv4_payload in H.
    destruct (Nat.ltb_spec (length packet) 34); [done|lia]. }
  destruct (answers_run _ _ s (answers_u16 12 packet Hp ltac:(lia))) as (t & Ht & _). rewrite (bind_panics _ _ _ _ _ Ht).
  assert (t ≠ 2048%Z → ∀ r, parse_ipv4_payload (E := Empty_set) packet s = (Ok r, s) → r = None) as Hother.
  { intros Hne r. unfold parse_ipv4_payload. destruct (length packet <? 34); [by intros [= <-]|].
    rewrite (bind_ok _ _ _ _ _ Ht). destruct (Z.eqb_spec t 2048); [done|]. by intros [= <-]. }
  destruct (Z.eqb_spec t 2054) as [->|Harp].
  { destruct (arp_returns packet s Hp) as (b & s' & ->). split; [done|]. intros (? & ? & ? & ? & H & _). by apply Hother in H. }
  destruct (Z.eqb_spec t 2048) as [->|Hip].
  2:{ split; [done|]. intros (? & ? & ? & ? & H & _). by apply Hother in H. }
  assert (∀ m : M unit, ((m;; mret true) s).1 = Panic ↔ (m s).1 = Panic) as Hseq.
  { intros m. unfold mbind, comp_bind. by destruct (m s) as [[?|?|] ?]. }
  rewrite Hseq, packet_panics by done. by rewrite (malformed_spec _ s).
Qed.

(** ** Datagrams, from end to end *)

(** To an address that is known a packet is sent at once. *)
Lemma send_known fuel ip mac proto payload packet (s : State) :
  arp_cache_lookup ip (ARP_CACHE s) = Some mac → build_ipv4_packet ip proto payload = Some packet →
  send_ipv4_packet (S fuel) ip proto payload s =
    (Ok tt, with_dev (send_packet (ethernet_frame mac (get_my_mac s) 2048 packet) <$> RTL8139_DEV s) s).
Proof.
  intros Hmac Hp. cbn [send_ipv4_packet]. assert (resolve_ip (send_ipv4_packet fuel) ip s = (Ok mac, s)) as Hr.
  { unfold resolve_ip, mbind, comp_bind, get. by rewrite Hmac. }
  rewrite (bind_ok _ _ _ _ _ Hr), Hp. done.
Qed.

Lemma deliver_run ty port data i k (s : State) : table_held s = false →
  list_find (takes ty port) (sockets s) = Some (i, Some k) → length (rx_buffer k) < 16 →
  deliver_packet_to_socket ty port data s =
    (Ok tt, with_sockets (<[i := Some (set_rx (rx_buffer k ++ [data]) k)]> (sockets s)) s).
Proof.
  intros Hf Hfd Hl. unfold deliver_packet_to_socket. etrans.
  { apply (locked_free _ _ (Ok tt) (with_sockets (<[i := Some (set_rx (rx_buffer k ++ [data]) k)]> (sockets s)) (with_held true s)) Hf).
    unfold mbind, comp_bind, get. cbn [sockets with_held]. rewrite Hfd. destruct (Nat.ltb_spec (length (rx_buffer k)) 16); [|lia].
    apply list_find_Some in Hfd as (Hi & _). unfold update_slot, modify. do 2 f_equal. cbn [sockets with_held].
    apply list_eq. intros j. rewrite list_lookup_alter. destruct (decide (i = j)) as [<-|Hij].
    - rewrite list_lookup_insert_eq by by eapply lookup_lt_Some. by rewrite Hi.
    - by rewrite list_lookup_insert_ne by done. }
  destruct s; cbn in *; by subst.
Qed.

Lemma udp_run sp dp data send i k dmac smac dest ip (s : State) :
  table_held s = false → length dmac = 6 → length smac = 6 → length dest = 4 → Forall byte dest → Forall byte data →
  (0 ≤ dp < 65536)%Z → (28 + Z.of_nat (length data) < 65536)%Z →
  build_ipv4_packet dest 17 (build_udp_packet sp dp data) = Some ip →
  list_find (takes Udp dp) (sockets s) = Some (i, Some k) → length (rx_buffer k) < 16 →
  handle_incoming_frame send (ethernet_frame dmac smac 2048 ip) s =
    (Ok true, with_sockets (<[i := Some (set_rx (rx_buffer k ++ [data]) k)]> (sockets s)) s).
Proof.
  intros Hf Hd Hs Hl Hdb Hpb Hdp Hn Hip Hfd Hrx. set (udp := build_udp_packet sp dp data) in *.
  assert (length udp = 8 + length data) as Hlen by (unfold udp, build_udp_packet; by rewrite !length_app, !length_to_be).
  assert (wrap 16 (8 + Z.of_nat (length data)) = 8 + Z.of_nat (length data))%Z as Hw by (apply Z.mod_small; lia).
  destruct (own_packet_parses (S := State) (E := Empty_set) dmac smac dest 17 udp ip s) as (Hparse & Hdrop & _); try done; [lia|].
  set (frame := ethernet_frame dmac smac 2048 ip) in *.
  assert (length frame = 34 + length udp) as Hfl.
  { pose proof (f_equal length Hdrop) as Hx. rewrite length_drop in Hx. lia. }
  unfold handle_incoming_frame. destruct (Nat.ltb_spec (length frame) 14); [lia|].
  erewrite bind_ok by by apply frame_type. change (2048 =? 2054)%Z with false. change (2048 =? 2048)%Z with true. cbv iota.
  assert (handle_incoming_udp frame 34 s = deliver_packet_to_socket Udp dp data s) as Hudp.
  { unfold handle_incoming_udp. destruct (Nat.ltb_spec (length frame) (34 + 8)); [lia|].
    pose proof (u16_at_drop (S := State) (E := Empty_set) 34 0 frame) as Hz. rewrite Nat.add_0_r, Hdrop in Hz.
    rewrite Hz, !u16_at_drop, Hdrop.
    assert (∃ a, u16_at (E := Empty_set) 0 udp s = (Ok a, s)) as [a Ha].
    { eexists. apply u16_run; [reflexivity..|apply byte_mod]. }
    rewrite (bind_ok _ _ _ _ _ Ha). erewrite bind_ok by (apply (u16_big_endian _ dp); [done|reflexivity..]).
    erewrite bind_ok.
    2:{ apply (u16_big_endian _ (8 + Z.of_nat (length data))); [lia|unfold udp, build_udp_packet; rewrite Hw; reflexivity..]. }
    destruct (Nat.ltb_spec (length frame) (34 + Z.to_nat (8 + Z.of_nat (length data)))); [lia|].
    rewrite range_drop, Hdrop by lia. erewrite bind_ok; [done|]. apply range_run. rewrite slice_ok by lia.
    unfold udp, build_udp_packet. f_equal. rewrite !app_assoc. rewrite drop_app_length' by (by rewrite !length_app, !length_to_be).
    apply take_ge. lia. }
  assert (handle_incoming_packet send frame s = deliver_packet_to_socket Udp dp data s) as Hpkt.
  { unfold handle_incoming_packet. rewrite (bind_ok _ _ _ _ _ Hparse). exact Hudp. }
  rewrite (deliver_run _ _ _ i k) in Hpkt by done. by rewrite (bind_ok _ _ _ _ _ Hpkt).
Qed.

(** The first datagram that waits at a socket is the one that is received. *)
Lemma recv_first fd i k data rest (s : State) : stack_ok s → table_held s = false → sockets s !! i = Some (Some k) →
  sock_fd k = fd → rx_buffer k = data :: rest →
  recv fd s = (Ok (Some data), with_sockets (<[i := Some (set_rx rest k)]> (sockets s)) s).
Proof.
  intros Hok Hf Hi Hfd Hrx. unfold recv. etrans.
  { apply (locked_free _ _ (Ok (Some data)) (with_sockets (<[i := Some (set_rx rest k)]> (sockets s)) (with_held true s)) Hf).
    unfold mbind at 1, comp_bind at 1, get. cbn [sockets with_held].
    assert (list_find (λ o, has_fd fd o && match o with Some k => negb (bool_decide (rx_buffer k = [])) | None => false end) (sockets s)
      = Some (i, Some k)) as ->.
    { apply list_find_Some. split; [done|]. split.
      - unfold has_fd. rewrite Hfd, Z.eqb_refl, Hrx. done.
      - intros j o Hj Hlt Hp. destruct o as [k'|]; [|done]. apply Is_true_true in Hp. apply andb_prop in Hp as [Hp%Z.eqb_eq _].
        assert (j = i) by (eapply (n_fds _ Hok); [done..|congruence]). lia. }
    unfold update_slot, modify, mbind, comp_bind, mret, comp_ret. cbn [sockets with_held]. rewrite Hrx. cbn [head tail]. do 2 f_equal.
    apply list_eq. intros j. rewrite list_lookup_alter. destruct (decide (i = j)) as [<-|Hij].
    - rewrite list_lookup_insert_eq by by eapply lookup_lt_Some. by rewrite Hi.
    - by rewrite list_lookup_insert_ne by done. }
  destruct s; cbn in *; by subst.
Qed.
End stack.

(** ** Sending ends *)

(** A card with so many frames waiting: taking one leaves fewer, sending leaves
    no more. *)
Class NicQueue (N : Type) `{!Nic N} := {
  waiting : N → nat;
  poll_none d d' : poll_rx d = (None, d') → waiting d' ≤ waiting d;
  poll_some d p d' : poll_rx d = (Some p, d') → waiting d' < waiting d;
  send_waiting p d : waiting (send_packet p d) ≤ waiting d;
}.

Section ends.
Context {N : Type} `{!Nic N, !NicQueue N}.
Abbreviation State := (NetState N).
Abbreviation M := (comp State Empty_set).

Definition frames (s : NetState N) : nat := from_option waiting 0 (RTL8139_DEV s).

(** What a card keeps when frames are sent and taken. *)
Record card_property (P : option N → Prop) : Prop := {
  P_send d p : P (Some d) → P (Some (send_packet p d));
  P_poll d o d' : P (Some d) → poll_rx d = (o, d') → P (Some d');
}.

(** [m] does nothing to the card but sending and taking frames; [m] and [m'] are
    the same as long as no more than [n] wait. *)
Definition uses_card {A} (m : M A) : Prop :=
  ∀ P, card_property P → ∀ s, P (RTL8139_DEV s) → P (RTL8139_DEV (m s).2).
Definition same {A} (n : nat) (m m' : M A) : Prop := ∀ s, frames s ≤ n → m s = m' s.

Lemma frames_property n : card_property (λ o, from_option waiting 0 o ≤ n).
Proof.
  split; cbn; intros d.
  - intros p H. etrans; [apply send_waiting|done].
  - intros [p|] d' H Hp; [apply poll_some in Hp|apply poll_none in Hp]; lia.
Qed.
Lemma frames_left {A} (m : M A) s : uses_card m → frames (m s).2 ≤ frames s.
Proof. intros Hm. by apply (Hm _ (frames_property (frames s))). Qed.

Lemma uses_card_reads {A} (m : M A) : reads m → uses_card m.
Proof. intros H P _ s. by rewrite H. Qed.
Lemma uses_card_bind {A B} (m : M A) (k : A → M B) : uses_card m → (∀ a, uses_card (k a)) → uses_card (m ≫= k).
Proof.
  intros Hm Hk P HP s Hs. specialize (Hm P HP s Hs). unfold mbind, comp_bind. destruct (m s) as [[a|e|] s'] eqn:Hr; cbn in *; [|done..].
  by apply Hk.
Qed.
Lemma uses_card_get {B} (k : State → M B) :
  (∀ P s, card_property P → P (RTL8139_DEV s) → P (RTL8139_DEV (k s s).2)) → uses_card (get ≫= k).
Proof. intros H P HP s. by apply H. Qed.
Lemma uses_card_modify (f : State → State) : (∀ s, RTL8139_DEV (f s) = RTL8139_DEV s) → uses_card (modify f).
Proof. intros H P _ s. cbn. by rewrite H. Qed.
Lemma uses_card_if {A} (b : bool) (m m' : M A) : uses_card m → uses_card m' → uses_card (if b then m else m').
Proof. by destruct b. Qed.
Lemma uses_card_locked {A} (m : M A) : uses_card m → uses_card (locked_table m).
Proof.
  intros Hm P HP s Hs. specialize (Hm P HP (with_held true s) Hs). unfold locked_table, mbind, comp_bind, get, put. cbn.
  destruct (table_held s); [done|]. cbn. by destruct (m _) as [[?|?|] ?].
Qed.

Lemma same_refl {A} n (m : M A) : same n m m.
Proof. done. Qed.
Lemma same_bind {A B} n (m m' : M A) (k k' : A → M B) : same n m m' → uses_card m → (∀ a, same n (k a) (k' a)) →
  same n (m ≫= k) (m' ≫= k').
Proof.
  intros Hm Hs Hk s Hn. unfold mbind, comp_bind. rewrite <- (Hm s Hn). apply (frames_left m s) in Hs. destruct (m s) as [[a|e|] s'] eqn:Hr; [|done..].
  cbn in Hs. apply Hk. lia.
Qed.
Lemma same_get {B} n (k k' : State → M B) : (∀ s0, same n (k s0) (k' s0)) → same n (get ≫= k) (get ≫= k').
Proof. intros H s Hn. by apply H. Qed.
Lemma same_if {A} n (b : bool) (m m' o o' : M A) : same n m m' → same n o o' → same n (if b then m else o) (if b then m' else o').
Proof. by destruct b. Qed.

Lemma uses_card_raw p : uses_card (send_ethernet_packet_raw (N := N) p).
Proof. intros P HP s Hs. cbn. destruct (RTL8139_DEV s); [by apply (P_send _ HP)|done]. Qed.
Lemma uses_card_next : uses_card (next_frame (N := N)).
Proof.
  apply uses_card_get. intros P s HP Hs. destruct (RTL8139_DEV s) as [d|] eqn:Hd; [|cbn; by rewrite Hd].
  destruct (poll_rx d) as [o d'] eqn:Hp. by apply (P_poll _ HP _ _ _ Hs) in Hp.
Qed.
Lemma next_some s p s' : next_frame (N := N) s = (Ok (Some p), s') → frames s' < frames s.
Proof.
  unfold next_frame, mbind, comp_bind, get, frames. destruct (RTL8139_DEV s) as [d|]; [|by intros [=]].
  destruct (poll_rx d) as [o d'] eqn:Hp. intros [= -> <-]. cbn. by eapply poll_some.
Qed.
Lemma uses_card_incoming_arp packet : uses_card (handle_incoming_arp (N := N) packet).
Proof.
  apply uses_card_bind; [apply uses_card_reads, parse_arp_reads|]. intros [[[ip mac] op]|]; [|by apply uses_card_reads].
  apply uses_card_bind; [apply uses_card_reads; eauto with reads|]. intros hlen.
  apply uses_card_bind; [apply uses_card_reads; eauto with reads|]. intros ptype.
  apply uses_card_bind; [|intros; by apply uses_card_reads]. apply uses_card_if; [|apply uses_card_if; [|by apply uses_card_reads]].
  - cbv zeta. apply uses_card_if; [|by apply uses_card_reads]. apply uses_card_bind; [apply uses_card_reads; eauto with reads|]. intros t.
    case_decide; [|by apply uses_card_reads]. apply uses_card_get. intros P s HP Hs. by apply uses_card_raw.
  - case_decide; [by apply uses_card_reads|]. by apply uses_card_modify.
Qed.
Lemma uses_card_update i f : uses_card (update_slot (N := N) i f).
Proof. by apply uses_card_modify. Qed.
Lemma uses_card_deliver ty port data : uses_card (deliver_packet_to_socket (N := N) ty port data).
Proof.
  apply uses_card_locked, uses_card_get. intros P s _ Hs. destruct (list_find _ _) as [[i [k|]]|]; [|done..]. by destruct (length (rx_buffer k) <? 16).
Qed.
Lemma uses_card_udp packet start : uses_card (handle_incoming_udp (N := N) packet start).
Proof.
  apply uses_card_if; [by apply uses_card_reads|]. apply uses_card_bind; [apply uses_card_reads; eauto with reads|]. intros _.
  apply uses_card_bind; [apply uses_card_reads; eauto with reads|]. intros port. apply uses_card_bind; [apply uses_card_reads; eauto with reads|]. intros len.
  apply uses_card_if; [by apply uses_card_reads|]. apply uses_card_bind; [apply uses_card_reads; eauto with reads|]. intros payload. apply uses_card_deliver.
Qed.

(** A way of sending packets that leaves no more frames waiting. *)
Section sending.
Variable send : bytes → Z → bytes → M unit.
Hypothesis Hsend : ∀ ip proto p, uses_card (send ip proto p).

Lemma uses_card_tcp packet src start : uses_card (handle_incoming_tcp send packet src start).
Proof.
  apply uses_card_bind; [apply uses_card_reads, parse_tcp_reads|]. intros [hdr|]; [|by apply uses_card_reads]. cbv zeta.
  apply uses_card_bind; [by apply uses_card_locked, uses_card_reads, reads_gets|]. intros [[i [k|]]|]; try by apply uses_card_reads.
  unfold segment_arrived. cbv zeta. destruct (sock_state k); try by apply uses_card_reads.
  - apply uses_card_if; [|by apply uses_card_reads]. apply uses_card_bind; [|intros; apply uses_card_locked, uses_card_update].
    apply uses_card_bind; [apply uses_card_reads, reads_unwrap|]. intros tcp. apply Hsend.
  - apply uses_card_bind; [|intros; apply uses_card_locked, uses_card_update]. apply uses_card_if; [by apply uses_card_reads|apply uses_card_deliver].
Qed.
Lemma uses_card_packet packet : uses_card (handle_incoming_packet send packet).
Proof.
  apply uses_card_bind; [apply uses_card_reads, parse_ipv4_reads|]. intros [[[[src dst] proto] start]|]; [|by apply uses_card_reads].
  apply uses_card_if; [apply uses_card_tcp|]. apply uses_card_if; [apply uses_card_udp|by apply uses_card_reads].
Qed.
Lemma uses_card_poll n ip : uses_card (poll_arp_reply send n ip).
Proof.
  induction n as [|n IH]; cbn [poll_arp_reply]; [by apply uses_card_reads|]. apply uses_card_bind; [apply uses_card_next|]. intros f.
  apply uses_card_bind.
  - destruct f as [p|]; [|by apply uses_card_reads]. apply uses_card_bind; [apply uses_card_incoming_arp|].
    intros []; [by apply uses_card_reads|apply uses_card_packet].
  - intros _. apply uses_card_get. intros P s HP Hs. case_bool_decide; [done|]. by apply IH.
Qed.
Lemma uses_card_ask n ip : uses_card (ask_for send n ip).
Proof.
  induction n as [|n IH]; cbn [ask_for]; [by apply uses_card_reads|]. apply uses_card_bind; [apply uses_card_get; intros P s HP Hs; by apply uses_card_raw|].
  intros _. apply uses_card_bind; [apply uses_card_poll|]. intros []; [by apply uses_card_reads|done].
Qed.
Lemma uses_card_resolve ip : uses_card (resolve_ip send ip).
Proof.
  apply uses_card_get. intros P s HP Hs. destruct (arp_cache_lookup ip _); [done|].
  refine (uses_card_bind (ask_for send 3 ip) _ _ _ P HP s Hs); [apply uses_card_ask|]. intros _. by apply uses_card_get.
Qed.
End sending.

Lemma uses_card_send fuel ip proto p : uses_card (send_ipv4_packet (N := N) fuel ip proto p).
Proof.
  revert ip proto p. induction fuel as [|fuel IH]; intros ip proto p; cbn [send_ipv4_packet]; [by intros P HP s|].
  apply uses_card_bind; [by apply uses_card_resolve|]. intros mac. apply uses_card_bind; [apply uses_card_reads, reads_unwrap|]. intros packet.
  apply uses_card_get. intros P s HP Hs. by apply uses_card_raw.
Qed.

(** Two ways of sending that are the same with fewer than [n] frames waiting
    make no difference to what is done with at most [n]: every answer is to a
    frame that was taken. *)
Section agreement.
Variables send send' : bytes → Z → bytes → M unit.
Hypothesis Hsend : ∀ ip proto p, uses_card (send ip proto p).

Lemma same_packet n packet : (∀ ip proto p, same n (send ip proto p) (send' ip proto p)) →
  same n (handle_incoming_packet send packet) (handle_incoming_packet send' packet).
Proof.
  intros Hs. apply same_bind; [done|apply uses_card_reads, parse_ipv4_reads|]. intros [[[[src dst] proto] start]|]; [|done].
  apply same_if; [|done]. apply same_bind; [done|apply uses_card_reads, parse_tcp_reads|]. intros [hdr|]; [|done]. cbv zeta.
  apply same_bind; [done|by apply uses_card_locked, uses_card_reads, reads_gets|]. intros [[i [k|]]|]; [|done..].
  unfold segment_arrived. cbv zeta. destruct (sock_state k); try done. apply same_if; [|done].
  apply same_bind; [|apply uses_card_bind; [apply uses_card_reads, reads_unwrap|intros; apply Hsend]|done].
  apply same_bind; [done|apply uses_card_reads, reads_unwrap|]. intros tcp. apply Hs.
Qed.

Variable n : nat.
Hypothesis Hsame : ∀ m ip proto p, m < n → same m (send ip proto p) (send' ip proto p).

Lemma same_poll k ip : same n (poll_arp_reply send k ip) (poll_arp_reply send' k ip).
Proof.
  induction k as [|k IH]; cbn [poll_arp_reply]; [done|]. intros s Hn. unfold mbind at 1, comp_bind at 1. symmetry.
  unfold mbind at 1, comp_bind at 1. pose proof (frames_left _ s uses_card_next) as Hsh. destruct (next_frame s) as [[[p|]|e|] s1] eqn:Hf; [| |done..]; cbn in Hsh.
  - apply next_some in Hf. symmetry. refine (same_bind (frames s1) _ _ _ _ _ _ _ s1 _); [| | |done].
    + apply same_bind; [done|apply uses_card_incoming_arp|]. intros []; [done|]. apply same_packet. intros. apply Hsame. lia.
    + apply uses_card_bind; [apply uses_card_incoming_arp|]. intros []; [by apply uses_card_reads|by apply uses_card_packet].
    + intros _. apply same_get. intros s0. apply same_if; [done|]. intros s2 H2. apply IH. lia.
  - symmetry. refine (same_bind n _ _ _ _ _ _ _ s1 _); [done|by apply uses_card_reads| |lia].
    intros _. apply same_get. intros s0. by apply same_if.
Qed.
Lemma same_ask k ip : same n (ask_for send k ip) (ask_for send' k ip).
Proof.
  induction k as [|k IH]; cbn [ask_for]; [done|]. apply same_bind; [done|apply uses_card_get; intros P s HP Hs; by apply uses_card_raw|].
  intros _. apply same_bind; [apply same_poll|by apply uses_card_poll|]. by intros [].
Qed.
Lemma same_resolve ip : same n (resolve_ip send ip) (resolve_ip send' ip).
Proof.
  apply same_get. intros s0. destruct (arp_cache_lookup ip _); [done|].
  apply same_bind; [apply same_ask|by apply uses_card_ask|done].
Qed.
End agreement.

Lemma same_send n fuel fuel' ip proto p : n < fuel → n < fuel' →
  same n (send_ipv4_packet (N := N) fuel ip proto p) (send_ipv4_packet fuel' ip proto p).
Proof.
  revert fuel fuel' ip proto p. induction n as [n IH] using lt_wf_ind. intros [|fuel] [|fuel'] ip proto p Hf Hf'; try lia.
  cbn [send_ipv4_packet]. apply same_bind; [|by apply uses_card_resolve, uses_card_send|done].
  apply same_resolve; [by apply uses_card_send|]. intros m ip' proto' p' Hm. apply IH; lia.
Qed.
End ends.

(** ** Sending returns *)

(** The frames that the card delivers are bytes, and none is malformed. *)
Class NicBenign (N : Type) `{!Nic N} (benign : N → Prop) := {
  benign_send d p : benign d → benign (send_packet p d);
  benign_poll d o d' : benign d → poll_rx d = (o, d') → benign d' ∧ ∀ p, o = Some p → Forall byte p ∧ malformed (N := N) p = false;
}.

Section returns.
Context {N : Type} `{!Nic N, !NicQueue N} (benign : N → Prop) `{!NicBenign N benign}.
Abbreviation State := (NetState N).
Abbreviation M := (comp State Empty_set).

Definition benign_card (o : option N) : Prop := ∀ d, o = Some d → benign d.
Lemma benign_card_property : card_property benign_card.
Proof.
  split.
  - intros d p H ? [= <-]. by apply benign_send, H.
  - intros d o d' H Hp ? [= <-]. by apply (benign_poll d o d' (H _ eq_refl) Hp).
Qed.

(** A stack at rest: sound, its lock free, its card benign. *)
Definition at_rest (s : State) : Prop := stack_ok s ∧ table_held s = false ∧ benign_card (RTL8139_DEV s).
Definition returns {A} (m : M A) : Prop := ∀ s, at_rest s → ∃ a s', m s = (Ok a, s').

Lemma at_rest_after {A} (m : M A) s a s' : keeps m → uses_card m → at_rest s → m s = (Ok a, s') → at_rest s'.
Proof.
  intros Hk Hu (Hok & Hf & Hb) Hr. destruct (Hk _ _ _ Hok Hr) as [Hok' Hh]. split_and!; [done|congruence|].
  pose proof (Hu _ benign_card_property s Hb) as H. by rewrite Hr in H.
Qed.
Lemma at_rest_bind {A B} (m : M A) (k : A → M B) : returns m → keeps m → uses_card m → (∀ a, returns (k a)) → returns (m ≫= k).
Proof.
  intros Hm Hk Hu Hka s Hs. destruct (Hm s Hs) as (a & s1 & Hr). rewrite (bind_ok _ _ _ _ _ Hr). apply Hka. by eapply at_rest_after.
Qed.
Lemma at_rest_ret {A} (a : A) : returns (mret a).
Proof. intros s _. by exists a, s. Qed.
Lemma returns_get {B} (k : State → M B) : (∀ s, at_rest s → ∃ b s', k s s = (Ok b, s')) → returns (get ≫= k).
Proof. intros H s. apply H. Qed.

Lemma next_returns s : at_rest s → ∃ f s', next_frame s = (Ok f, s') ∧ at_rest s' ∧ ∀ p, f = Some p → Forall byte p ∧ malformed (N := N) p = false.
Proof.
  intros Hs. assert (∃ f s', next_frame s = (Ok f, s') ∧ ∀ p, f = Some p → Forall byte p ∧ malformed (N := N) p = false) as (f & s' & Hr & Hf).
  { destruct Hs as (_ & _ & Hb). unfold next_frame, mbind, comp_bind, get. destruct (RTL8139_DEV s) as [d|]; [|by exists None, s].
    destruct (poll_rx d) as [o d'] eqn:Hp. destruct (benign_poll _ _ _ (Hb _ eq_refl) Hp) as [_ Ho]. by eexists o, _. }
  exists f, s'. split_and!; [done| |done]. eapply at_rest_after; [apply keeps_next_frame|apply uses_card_next|done|done].
Qed.

Section sending.
Variable send : bytes → Z → bytes → M unit.
Hypothesis Hsend : ∀ ip proto p, uses_card (send ip proto p).

Lemma packet_returns packet s : at_rest s → Forall byte packet → malformed (N := N) packet = false →
  ∃ s', handle_incoming_packet send packet s = (Ok tt, s').
Proof.
  intros (Hok & Hf & _) Hp Hm. pose proof (packet_panics send packet s Hok Hf Hp) as Hx. rewrite Hm in Hx.
  destruct (handle_incoming_packet send packet s) as [[[]|[]|] s']; [by eexists|]. cbn in Hx. by destruct Hx as [Hx _]; specialize (Hx eq_refl).
Qed.
Lemma poll_returns n ip : returns (poll_arp_reply send n ip).
Proof.
  induction n as [|n IH]; cbn [poll_arp_reply]; [apply at_rest_ret|]. intros s Hs.
  destruct (next_returns s Hs) as (f & s1 & Hr & Hs1 & Hf). rewrite (bind_ok _ _ _ _ _ Hr). clear Hr.
  assert (∃ s2, match f with
    | Some packet => b ← handle_incoming_arp packet; if (b : bool) then mret tt else handle_incoming_packet send packet
    | None => mret tt end s1 = (Ok tt, s2) ∧ at_rest s2) as (s2 & Hr & Hs2).
  { destruct f as [p|]; [|by exists s1]. destruct (Hf _ eq_refl) as [Hp Hm]. destruct (arp_returns p s1 Hp) as (b & s2 & Hb).
    rewrite (bind_ok _ _ _ _ _ Hb). assert (at_rest s2) as Hs2 by (eapply at_rest_after; [apply keeps_incoming_arp|apply uses_card_incoming_arp|done..]).
    destruct b; [by exists s2|]. destruct (packet_returns p s2 Hs2 Hp Hm) as (s3 & Hr3). exists s3. split; [done|].
    eapply at_rest_after; [apply keeps_packet|by apply uses_card_packet|done..]. }
  rewrite (bind_ok _ _ _ _ _ Hr). unfold mbind, comp_bind, get. case_bool_decide; [by eexists _, _|]. by apply IH.
Qed.
Lemma ask_returns n ip : returns (ask_for send n ip).
Proof.
  induction n as [|n IH]; cbn [ask_for]; [apply at_rest_ret|]. apply at_rest_bind.
  - intros s _. by eexists _, _.
  - apply keeps_arp_request.
  - apply uses_card_get. intros P s HP Hs. by apply uses_card_raw.
  - intros _. apply at_rest_bind; [apply poll_returns|apply keeps_poll|by apply uses_card_poll|]. intros []; [apply at_rest_ret|apply IH].
Qed.
Lemma resolve_returns ip : returns (resolve_ip send ip).
Proof.
  apply returns_get. intros s Hs. destruct (arp_cache_lookup ip _); [by eexists _, _|].
  refine (at_rest_bind (ask_for send 3 ip) _ _ _ _ _ s Hs); [apply ask_returns|apply keeps_ask|by apply uses_card_ask|].
  intros _. apply returns_get. intros s1 _. by eexists _, _.
Qed.
End sending.

Lemma send_returns fuel ip proto payload : length ip = 4 → Forall byte ip → byte proto → (20 + Z.of_nat (length payload) < 65536)%Z →
  returns (send_ipv4_packet (N := N) (S fuel) ip proto payload).
Proof.
  intros Hl Hb Hp Hn. cbn [send_ipv4_packet]. apply at_rest_bind; [apply resolve_returns, uses_card_send|apply keeps_resolve|by apply uses_card_resolve, uses_card_send|].
  intros mac. destruct (build_ipv4_spec ip proto payload) as (h & -> & _); try done. intros s _. by eexists _, _.
Qed.
End returns.
