(* ===== verification/NetTheorems.v ===== *)
(** * The network stack: theorems

    What the lemmas of [PacketProps] and [NetProps] come to, with a card that
    queues frames as the instance to try them on. *)
From S2P Require Import Prelude Bytes Text Abi NetPacket PacketProps NetStack NetApi NetProps.

(** ** A card *)

(** Frames that wait to be taken, and frames that were sent, the last one first. *)
Record Card := mkCard { card_mac : bytes; card_rx : list bytes; card_tx : list bytes }.
#[export] Instance Card_nic : Nic Card := {
  get_mac_address := card_mac;
  send_packet p d := mkCard (card_mac d) (card_rx d) (p :: card_tx d);
  poll_rx d := (head (card_rx d), mkCard (card_mac d) (tail (card_rx d)) (card_tx d));
}.
#[export] Instance Card_queue : NicQueue Card.
Proof.
  refine {| waiting := λ d, length (card_rx d) |}.
  - intros [mac rx tx] d' [= _ <-]. destruct rx; cbn; lia.
  - intros [mac rx tx] p d' [= H <-]. destruct rx; [done|]. cbn. lia.
  - done.
Defined.
Definition card_benign (d : Card) : Prop := Forall (λ p, Forall byte p ∧ malformed (N := Card) p = false) (card_rx d).
#[export] Instance Card_benign : NicBenign Card card_benign.
Proof.
  split; unfold card_benign; [done|]. intros [mac rx tx] o d' H [= <- <-]. cbn in *.
  destruct H as [|p rx Hp H]; cbn; [split; [constructor|done]|]. split; [done|]. by intros ? [= <-].
Qed.

Definition demo_mac : bytes := [82; 84; 0; 18; 52; 86]%Z.
Definition demo_peer_mac : bytes := [82; 85; 10; 0; 2; 2]%Z.
Definition demo_gateway : bytes := [10; 0; 2; 2]%Z.
Definition demo_reply : bytes :=
  demo_mac ++ demo_peer_mac ++ [8; 6; 0; 1; 8; 0; 6; 4; 0; 2]%Z ++ demo_peer_mac ++ demo_gateway ++ demo_mac ++ MY_IP.
(** A stack that has a datagram socket on port 7000, and has learned the address
    of the gateway from its reply; [rx] still waits at its card. *)
Definition demo_start (rx : list bytes) : NetState Card := net_new (Some (mkCard demo_mac (demo_reply :: rx) [])).
Definition demo_socket (rx : list bytes) : NetState Card :=
  (dispatch_net_request 1 (mkNetRequest NET_OP_SOCKET 0 17 [] 0) None (demo_start rx)).2.
Definition demo_bound (rx : list bytes) : NetState Card :=
  (dispatch_net_request 1 (mkNetRequest NET_OP_BIND 0 0 [] 7000) None (demo_socket rx)).2.
Definition demo_stack (rx : list bytes) : NetState Card := (pump_rx 1 1 (demo_bound rx)).2.

Lemma net_demo_reachable rx : rtc (net_step 1) (demo_start rx) (demo_stack rx).
Proof.
  apply (rtc_l _ _ (demo_socket rx)); [|apply (rtc_l _ _ (demo_bound rx)); [|apply rtc_once]].
  - apply (step_request 1 (mkNetRequest NET_OP_SOCKET 0 17 [] 0) None (net_ok 0 0, [])). vm_compute. reflexivity.
  - apply (step_request 1 (mkNetRequest NET_OP_BIND 0 0 [] 7000) None (net_ok 0 0, [])). vm_compute. reflexivity.
  - apply (step_frames 1 1). vm_compute. reflexivity.
Qed.
Lemma demo_ok rx : stack_ok (demo_stack rx) ∧ table_held (demo_stack rx) = false.
Proof. eapply net_reachable_ok, net_demo_reachable. Qed.

(** ** Packets *)

Ltac all_bytes := repeat (apply Forall_cons; split; [unfold byte; lia|]); apply Forall_nil; exact I.

Lemma tcp_segments_read_back_witness :
  length demo_peer_mac = 6 ∧
  ∃ tcp ip, build_tcp_packet 49152 80 [10; 0; 2; 2]%Z 4294967295 7 (Z.lor PSH ACK) [71; 69; 84]%Z = Some tcp ∧
    build_ipv4_packet [10; 0; 2; 2]%Z 6 tcp = Some ip ∧
    calculate_checksum (take 20 ip) = Some 0%Z ∧ calculate_checksum (pseudo_header [10; 0; 2; 2]%Z tcp) = Some 0%Z ∧
    let frame := ethernet_frame demo_peer_mac demo_mac 2048 ip in
    parse_ipv4_payload (E := Empty_set) frame tt = (Ok (Some (MY_IP, [10; 0; 2; 2]%Z, 6%Z, 34)), tt) ∧
    parse_tcp_header (E := Empty_set) frame 34 tt = (Ok (Some (mkTcp 49152 80 4294967295 7 (Z.lor PSH ACK) 20)), tt) ∧
    drop (34 + 20) frame = [71; 69; 84]%Z.
Proof.
  split; [reflexivity|]. apply (tcp_segments_read_back (S := unit) (E := Empty_set)); try reflexivity; try (cbn; lia); try all_bytes.
  split; vm_compute; congruence.
Defined.

Section theorems.
Context {N : Type} `{!Nic N}.
Abbreviation State := (NetState N).

(** C20: A datagram arrives: when the address of the destination is known, [send_udp_packet]
    hands the card one frame and changes nothing else; a stack on which that
    frame arrives, and whose first socket on the destination port has room,
    queues exactly the data behind what waits there and changes nothing else,
    so that an empty socket's next [recv] returns the data. *)
Theorem datagrams_arrive fuel send sp dp data dest dmac (a b : State) i k :
  arp_cache_lookup dest (ARP_CACHE a) = Some dmac → length dmac = 6 → length (get_my_mac a) = 6 →
  length dest = 4 → Forall byte dest → Forall byte data → (0 ≤ dp < 65536)%Z → (28 + Z.of_nat (length data) < 65536)%Z →
  stack_ok b → table_held b = false → list_find (takes Udp dp) (sockets b) = Some (i, Some k) → length (rx_buffer k) < 16 →
  ∃ frame, send_udp_packet (S fuel) sp (mkAddr dest dp) data a = (Ok tt, with_dev (send_packet frame <$> RTL8139_DEV a) a) ∧
    let b' := with_sockets (<[i := Some (set_rx (rx_buffer k ++ [data]) k)]> (sockets b)) b in
    handle_incoming_frame send frame b = (Ok true, b') ∧
    (rx_buffer k = [] → recv (sock_fd k) b' = (Ok (Some data), with_sockets (<[i := Some (set_rx [] k)]> (sockets b)) b)).
Proof.
  intros Hmac Hd Hs Hl Hdb Hpb Hdp Hn Hok Hf Hfd Hrx.
  assert (length (build_udp_packet sp dp data) = 8 + length data) as Hlen by (unfold build_udp_packet; by rewrite !length_app, !length_to_be).
  destruct (build_ipv4_spec dest 17 (build_udp_packet sp dp data)) as (h & Hip & _); try done; [lia|].
  exists (ethernet_frame dmac (get_my_mac a) 2048 (h ++ build_udp_packet sp dp data)). split; [by apply send_known|]. cbv zeta.
  pose proof (udp_run sp dp data send i k dmac (get_my_mac a) dest _ b Hf Hd Hs Hl Hdb Hpb Hdp Hn Hip Hfd Hrx) as Hrun.
  split; [done|]. intros He. destruct (keeps_incoming_frame _ _ _ _ _ Hok Hrun) as [Hok' Hf'].
  pose proof Hfd as (Hi & _)%list_find_Some.
  rewrite (recv_first _ i (set_rx (rx_buffer k ++ [data]) k) data []).
  - cbn. by rewrite list_insert_insert_eq.
  - done.
  - done.
  - cbn. apply list_lookup_insert_eq. by eapply lookup_lt_Some.
  - done.
  - cbn. by rewrite He.
Qed.

(** No socket is ever connected: on a stack that has done anything at all, whatever
    requests it was given and frames it has received, no socket has a peer or
    is connected.  [sys_connect], [sys_send] and [sys_recv] never return, as
    they look the socket up under the lock they hold, and neither does the
    request to connect; a request to send is answered [EIO], and a segment that
    arrives is dropped. *)
Theorem sockets_never_connect fuel dev (s : State) : rtc (net_step fuel) (net_new dev) s →
  (∀ i k, sockets s !! i = Some (Some k) → remote_addr k = None ∧ (sock_state k = SockClosed ∨ sock_state k = SockListening)) ∧
  (∀ fd ip port, (sys_connect fuel fd ip port s).1 = Panic) ∧
  (∀ fd data, (sys_send fuel fd (Some data) s).1 = Panic) ∧
  (∀ fd len writable, (sys_recv fd len writable s).1 = Panic) ∧
  (∀ q data, nq_opcode q = NET_OP_CONNECT → (dispatch_net_request fuel q data s).1 = Panic) ∧
  (∀ q data, nq_opcode q = NET_OP_SEND → dispatch_net_request fuel q data s = (Ok (net_err EIO, []), s)) ∧
  (∀ packet src start, Forall byte packet → handle_incoming_tcp (send_ipv4_packet fuel) packet src start s = (Ok tt, s)).
Proof.
  intros [Hok Hf]%net_reachable_ok. split_and!.
  - intros i k Hk. destruct (n_sockets _ Hok _ _ Hk). done.
  - intros. apply connect_hangs.
  - intros. apply send_hangs.
  - intros. apply recv_hangs.
  - intros. by apply connect_request_hangs.
  - intros. by apply send_request_fails.
  - intros packet src start Hp. destruct (answers_run _ _ s (answers_tcp_header packet start Hp)) as ([hdr|] & Hh & _).
    + by apply (tcp_dropped _ _ src _ _ _ Hok Hf Hh).
    + unfold handle_incoming_tcp. by rewrite (bind_ok _ _ _ _ _ Hh).
Qed.

(** C18: What stops the kernel, and what does not: on a stack that has done anything at all, a
    frame of any bytes makes [handle_incoming_frame] panic exactly when it is an
    IPv4 packet with a UDP header whose length field is less than eight; and
    the parser of DNS answers never panics, runs to its end, and returns at most
    65535 addresses, each of four bytes. *)
Theorem only_short_datagrams_stop_the_kernel fuel dev (s : State) packet :
  rtc (net_step fuel) (net_new dev) s → Forall byte packet →
  ((handle_incoming_frame (send_ipv4_packet fuel) packet s).1 = Panic ↔ malformed (N := N) packet = true) ∧
  ∀ id, ∃ r, parse_dns_response (E := Empty_set) packet id s = (Ok r, s) ∧ ∀ ips, r = Some ips → addresses (Z.to_nat 65535) ips.
Proof.
  intros [Hok Hf]%net_reachable_ok Hp. split; [by apply frame_panics|]. intros id. by apply answers_run, answers_dns.
Qed.

(** A request for our own address, padded as frames are, is not answered: the
    address asked for is read four bytes too far. *)
Lemma own_address_is_not_told mac ip n (s : State) : length mac = 6 → length ip = 4 →
  handle_incoming_arp (MAC_BROADCAST ++ mac ++ [8; 6; 0; 1; 8; 0; 6; 4; 0; 1]%Z ++ mac ++ ip ++ replicate 6 0%Z ++ MY_IP ++ replicate n 0%Z) s =
    (Ok true, s).
Proof.
  intros Hm Hi. destruct mac as [|m0 [|m1 [|m2 [|m3 [|m4 [|m5 []]]]]]]; try done. destruct ip as [|i0 [|i1 [|i2 [|i3 []]]]]; try done.
  set (p := MAC_BROADCAST ++ _). assert (length p = 42 + n) as Hl by (unfold p; rewrite !length_app, !length_replicate; unfold MAC_BROADCAST, MY_IP; cbn [length]; lia).
  unfold handle_incoming_arp. assert (parse_arp (E := Empty_set) p s = (Ok (Some ([i0; i1; i2; i3], [m0; m1; m2; m3; m4; m5], 1%Z)), s)) as Hp.
  { unfold parse_arp. rewrite Hl. destruct (Nat.ltb_spec (42 + n) (14 + 28)); [lia|].
    erewrite bind_ok by (apply (u16_run _ _ 8 6); [reflexivity..|unfold byte; lia]). change (negb (8 * 256 + 6 =? 2054)%Z) with false. cbv iota.
    erewrite bind_ok by (apply (u16_run _ _ 0 1); [reflexivity..|unfold byte; lia]).
    erewrite bind_ok by (apply range_run, slice_ok; rewrite Hl; lia). erewrite bind_ok by (apply range_run, slice_ok; rewrite Hl; lia). done. }
  rewrite (bind_ok _ _ _ _ _ Hp). do 2 (erewrite bind_ok by (apply at_run; reflexivity)).
  change (1 =? 1)%Z with true. cbv iota zeta. change (14 + 8 + 2 * Z.to_nat 6 + 2 * Z.to_nat 4) with 42. rewrite Hl.
  destruct (Nat.leb_spec (42 + 4) (42 + n)); [|done]. destruct n as [|[|[|[|n]]]]; try lia.
  rewrite bind_assoc. erewrite bind_ok by (apply range_run, slice_ok; rewrite Hl; lia). by rewrite decide_False by done.
Qed.
End theorems.


(** A frame of the gateway with a datagram that claims to have seven bytes. *)
Definition demo_bad : bytes :=
  demo_mac ++ demo_peer_mac ++ [8; 0]%Z ++ [69; 0; 0; 28; 0; 0; 0; 0; 64; 17; 0; 0]%Z ++ demo_gateway ++ MY_IP
  ++ [0; 53; 27; 88; 0; 7; 0; 0]%Z.

Lemma datagrams_arrive_witness :
  arp_cache_lookup demo_gateway (ARP_CACHE (demo_stack [])) = Some demo_peer_mac ∧
  ∃ frame, send_udp_packet 1 7000 (mkAddr demo_gateway 7000) [104; 105]%Z (demo_stack []) =
      (Ok tt, with_dev (send_packet frame <$> RTL8139_DEV (demo_stack [])) (demo_stack [])) ∧
    let k := mkSocket 0 Udp SockClosed 7000 None [] 0 0 in
    let b' := with_sockets (<[0 := Some (set_rx ([] ++ [[104; 105]%Z]) k)]> (sockets (demo_stack []))) (demo_stack []) in
    handle_incoming_frame (send_ipv4_packet 1) frame (demo_stack []) = (Ok true, b') ∧
    ([] = @nil bytes → recv 0 b' = (Ok (Some [104; 105]%Z), with_sockets (<[0 := Some (set_rx [] k)]> (sockets (demo_stack []))) (demo_stack []))).
Proof.
  split; [reflexivity|].
  apply (datagrams_arrive 0 (send_ipv4_packet 1) 7000 7000 [104; 105]%Z demo_gateway demo_peer_mac (demo_stack []) (demo_stack [])
    0 (mkSocket 0 Udp SockClosed 7000 None [] 0 0)); try reflexivity; try all_bytes; try (cbn; lia).
  all: apply demo_ok.
Defined.

Lemma sockets_never_connect_witness :
  rtc (net_step 1) (demo_start []) (demo_stack []) ∧
  dispatch_net_request 1 (mkNetRequest NET_OP_SEND 0 0 [] 0) (Some [1]%Z) (demo_stack []) = (Ok (net_err EIO, []), demo_stack []).
Proof.
  split; [apply net_demo_reachable|].
  exact (proj1 (proj2 (proj2 (proj2 (proj2 (proj2 (sockets_never_connect 1 _ _ (net_demo_reachable [])))))))
    (mkNetRequest NET_OP_SEND 0 0 [] 0) (Some [1]%Z) eq_refl).
Defined.

Lemma only_short_datagrams_stop_the_kernel_witness :
  malformed (N := Card) demo_bad = true ∧ (handle_incoming_frame (send_ipv4_packet 1) demo_bad (demo_stack [])).1 = Panic.
Proof.
  split; [reflexivity|].
  apply (proj1 (only_short_datagrams_stop_the_kernel 1 _ (demo_stack []) demo_bad (net_demo_reachable []) ltac:(all_bytes))). reflexivity.
Defined.

