(* ===== verification/NetService.v ===== *)
(** * The network service (kernel/src/network_service.rs, kernel/src/network_manager.rs)

    The sockets of applications with their owners, on top of the network stack,
    and the state of the network shown to the user. *)
From S2P Require Import Prelude Bytes Text Abi Permission NetPacket NetStack NetApi.

(** kernel/src/network_service.rs:12-13 [MAX_UDP_PAYLOAD_SIZE, MAX_TCP_SEGMENT_SIZE] *)
Definition MAX_UDP_PAYLOAD_SIZE : nat := 1472.
Definition MAX_TCP_SEGMENT_SIZE : nat := 1460.

(** kernel/src/network_service.rs:16-21 [TcpState] *)
Variant ConnState := ConnClosed | ConnSynSent | ConnEstablished | ConnFinWait.
#[export] Instance ConnState_eq : EqDecision ConnState.
Proof. solve_decision. Defined.

(** kernel/src/network_service.rs:24-30 [UdpDatagram] *)
Record UdpDatagram := mkDatagram {
  ud_src_ip : bytes;
  ud_src_port : Z;
  ud_dst_ip : bytes;
  ud_dst_port : Z;
  ud_payload : bytes;
}.

(** kernel/src/network_service.rs:33-38 [UdpSocketRecord] *)
Record UdpSocketRecord := mkUdp {
  us_id : Z;
  us_owner : Z;
  us_port : Z;
  us_rx : list UdpDatagram;
}.

(** kernel/src/network_service.rs:41-51 [TcpSocketRecord] *)
Record TcpSocketRecord := mkTcpSock {
  ts_id : Z;
  ts_owner : Z;
  ts_port : Z;
  ts_remote_ip : option bytes;
  ts_remote_port : option Z;
  ts_state : ConnState;
  ts_seq : Z;
  ts_ack : Z;
  ts_rx : bytes;
}.

(** kernel/src/network_service.rs:53-64 [NetIpcRequest] *)
Inductive NetIpcRequest :=
| CreateUdpSocket (port : Z)
| SendUdp (id : Z) (dst_ip : bytes) (dst_port : Z) (data : bytes)
| RecvUdp (id : Z)
| CloseSocket (id : Z)
| CreateTcpSocket (port : Z)
| ConnectTcp (id : Z) (dst_ip : bytes) (dst_port : Z)
| SendTcp (id : Z) (data : bytes)
| RecvTcp (id : Z) (max_len : nat)
| CloseTcpSocket (id : Z).

(** The texts of the errors. *)
Variant NetError := NetPermissionDenied | BufferOverflow | SocketOwnershipViolation | SocketNotFound | WouldBlock
  | SocketNotConnected.

(** kernel/src/network_service.rs:67-75 [NetIpcResponse] *)
Inductive NetIpcResponse :=
| SocketCreated (id port : Z)
| Sent (bytes_sent : nat)
| Received (src_ip : bytes) (src_port : Z) (data : bytes)
| Connected
| DataReceived (data : bytes)
| Closed
| NetFailed (e : NetError).

(** kernel/src/network_service.rs:77-82 [NetworkService] *)
Record NetworkService := mkNetService {
  udp_sockets : gmap Z UdpSocketRecord;
  tcp_sockets : gmap Z TcpSocketRecord;
  next_socket_id : Z;
  next_ephemeral_port : Z;
}.
(** kernel/src/network_service.rs:85-92 [NetworkService::new] *)
Definition service_new : NetworkService := mkNetService ∅ ∅ 1 49152.

Definition with_udp (x : gmap Z UdpSocketRecord) (s : NetworkService) : NetworkService :=
  mkNetService x (tcp_sockets s) (next_socket_id s) (next_ephemeral_port s).
Definition with_tcp (x : gmap Z TcpSocketRecord) (s : NetworkService) : NetworkService :=
  mkNetService (udp_sockets s) x (next_socket_id s) (next_ephemeral_port s).

(** kernel/src/network_service.rs:94-99 [NetworkService::alloc_ephemeral_port] *)
Definition alloc_ephemeral_port (s : NetworkService) : Z * NetworkService :=
  let p := next_ephemeral_port s in
  let n := wrap 16 (p + 1) in
  (p, mkNetService (udp_sockets s) (tcp_sockets s) (next_socket_id s) (if (n <? 49152)%Z then 49152%Z else n)).

Section service.
Context {N : Type} `{!Nic N}.
Context (fuel : nat).

(** The service and the stack below it. *)
Record NetWorld := mkNetWorld { net_service : NetworkService; net_stack : NetState N }.
Abbreviation M := (comp NetWorld NetError).

Definition in_service {A} (m : comp NetworkService NetError A) : M A :=
  zoom net_service (λ x w, mkNetWorld x (net_stack w)) m.
(** A call of the stack, which has no errors. *)
Definition in_stack {A} (m : comp (NetState N) Empty_set A) : M A :=
  r ← attempt (zoom net_stack (λ x w, mkNetWorld (net_service w) x) m);
  match r with inr a => mret a | inl e => match (e : Empty_set) with end end.

(** The port asked for, or a free one, and the next number —
    kernel/src/network_service.rs:112-114 [handle_request, number and port] *)
Definition new_number (port : Z) : comp NetworkService NetError (Z * Z) :=
  s ← get;
  let '(p, s) := (if (port =? 0)%Z then alloc_ephemeral_port s else (port, s)) in
  next ← unwrap (fits 32 (next_socket_id s + 1));
  put (mkNetService (udp_sockets s) (tcp_sockets s) next (next_ephemeral_port s));;
  mret (next_socket_id s, p).

(** The socket, if it is the caller's — kernel/src/network_service.rs:130-133 [handle_request, udp owner] *)
Definition own_udp (pid id : Z) : comp NetworkService NetError UdpSocketRecord :=
  s ← get;
  sock ← ok_or (udp_sockets s !! id) SocketNotFound;
  reject_if (negb (us_owner sock =? pid)%Z) SocketOwnershipViolation;;
  mret sock.
(** kernel/src/network_service.rs:197-200 [handle_request, tcp owner] *)
Definition own_tcp (pid id : Z) : comp NetworkService NetError TcpSocketRecord :=
  s ← get;
  sock ← ok_or (tcp_sockets s !! id) SocketNotFound;
  reject_if (negb (ts_owner sock =? pid)%Z) SocketOwnershipViolation;;
  mret sock.

Definition put_udp (id : Z) (sock : UdpSocketRecord) : comp NetworkService NetError unit :=
  modify (λ s, with_udp (<[id := sock]> (udp_sockets s)) s).
Definition put_tcp (id : Z) (sock : TcpSocketRecord) : comp NetworkService NetError unit :=
  modify (λ s, with_tcp (<[id := sock]> (tcp_sockets s)) s).

(** kernel/src/network_service.rs:111-125 [handle_request, CreateUdpSocket] *)
Definition create_udp (pid port : Z) : M NetIpcResponse :=
  '(id, p) ← in_service (new_number port);
  in_service (put_udp id (mkUdp id pid p []));; mret (SocketCreated id p).

(** kernel/src/network_service.rs:126-141 [handle_request, SendUdp] *)
Definition send_udp (pid id : Z) (dst_ip : bytes) (dst_port : Z) (data : bytes) : M NetIpcResponse :=
  reject_if (MAX_UDP_PAYLOAD_SIZE <? length data)%nat BufferOverflow;;
  sock ← in_service (own_udp pid id);
  in_stack (send_udp_packet fuel (us_port sock) (mkAddr dst_ip dst_port) data);;
  mret (Sent (length data)).

(** The datagram that came last — kernel/src/network_service.rs:142-159 [handle_request, RecvUdp] *)
Definition recv_udp (pid id : Z) : M NetIpcResponse :=
  sock ← in_service (own_udp pid id);
  match last (us_rx sock) with
  | Some d =>
      in_service (put_udp id (mkUdp (us_id sock) (us_owner sock) (us_port sock) (take (length (us_rx sock) - 1) (us_rx sock))));;
      mret (Received (ud_src_ip d) (ud_src_port d) (ud_payload d))
  | None => throw WouldBlock
  end.

(** kernel/src/network_service.rs:160-170 [handle_request, CloseSocket] *)
Definition close_udp (pid id : Z) : M NetIpcResponse :=
  in_service (own_udp pid id);;
  in_service (modify (λ s, with_udp (delete id (udp_sockets s)) s));; mret Closed.

(** kernel/src/network_service.rs:173-192 [handle_request, CreateTcpSocket] *)
Definition create_tcp (pid port : Z) : M NetIpcResponse :=
  '(id, p) ← in_service (new_number port);
  in_service (put_tcp id (mkTcpSock id pid p None None ConnClosed 1000 0 []));; mret (SocketCreated id p).

(** The answer of the peer is not awaited — kernel/src/network_service.rs:193-214 [handle_request, ConnectTcp] *)
Definition connect_tcp (pid id : Z) (dst_ip : bytes) (dst_port : Z) : M NetIpcResponse :=
  sock ← in_service (own_tcp pid id);
  in_stack (send_tcp_syn_seq fuel (ts_port sock) (mkAddr dst_ip dst_port) (ts_seq sock));;
  in_service (put_tcp id (mkTcpSock (ts_id sock) (ts_owner sock) (ts_port sock) (Some dst_ip) (Some dst_port) ConnEstablished
    (wrap 32 (ts_seq sock + 1)) (ts_ack sock) (ts_rx sock)));;
  mret Connected.

(** kernel/src/network_service.rs:215-239 [handle_request, SendTcp] *)
Definition send_tcp_bytes (pid id : Z) (data : bytes) : M NetIpcResponse :=
  reject_if (MAX_TCP_SEGMENT_SIZE <? length data)%nat BufferOverflow;;
  sock ← in_service (own_tcp pid id);
  reject_if (negb (bool_decide (ts_state sock = ConnEstablished))) SocketNotConnected;;
  match ts_remote_ip sock, ts_remote_port sock with
  | Some ip, Some port =>
      in_stack (send_tcp_data fuel (ts_port sock) (mkAddr ip port) (ts_seq sock) (ts_ack sock) data);;
      in_service (put_tcp id (mkTcpSock (ts_id sock) (ts_owner sock) (ts_port sock) (ts_remote_ip sock) (ts_remote_port sock)
        (ts_state sock) (wrap 32 (ts_seq sock + wrap 32 (Z.of_nat (length data)))) (ts_ack sock) (ts_rx sock)));;
      mret (Sent (length data))
  | _, _ => throw SocketNotConnected
  end.

(** kernel/src/network_service.rs:240-254 [handle_request, RecvTcp] *)
Definition recv_tcp (pid id : Z) (max_len : nat) : M NetIpcResponse :=
  sock ← in_service (own_tcp pid id);
  reject_if (bool_decide (ts_rx sock = [])) WouldBlock;;
  let take_len := (length (ts_rx sock) `min` max_len)%nat in
  in_service (put_tcp id (mkTcpSock (ts_id sock) (ts_owner sock) (ts_port sock) (ts_remote_ip sock) (ts_remote_port sock)
    (ts_state sock) (ts_seq sock) (ts_ack sock) (drop take_len (ts_rx sock))));;
  mret (DataReceived (take take_len (ts_rx sock))).

(** kernel/src/network_service.rs:255-266 [handle_request, CloseTcpSocket] *)
Definition close_tcp (pid id : Z) : M NetIpcResponse :=
  in_service (own_tcp pid id);;
  in_service (modify (λ s, with_tcp (delete id (tcp_sockets s)) s));; mret Closed.

Definition serve_net (pid : Z) (req : NetIpcRequest) : M NetIpcResponse :=
  match req with
  | CreateUdpSocket port => create_udp pid port
  | SendUdp id ip port data => send_udp pid id ip port data
  | RecvUdp id => recv_udp pid id
  | CloseSocket id => close_udp pid id
  | CreateTcpSocket port => create_tcp pid port
  | ConnectTcp id ip port => connect_tcp pid id ip port
  | SendTcp id data => send_tcp_bytes pid id data
  | RecvTcp id max_len => recv_tcp pid id max_len
  | CloseTcpSocket id => close_tcp pid id
  end.

(** An error is an answer — kernel/src/network_service.rs:102-268 [handle_request] *)
Definition handle_request (granted : PermissionManager) (pid : Z) (req : NetIpcRequest) : comp NetWorld Empty_set NetIpcResponse :=
  if negb (check_permission pid NetworkAccess granted) then mret (NetFailed NetPermissionDenied)
  else r ← attempt (serve_net pid req); mret (match r with inr a => a | inl e => NetFailed e end).
End service.
Arguments NetWorld : clear implicits.

(** kernel/src/network_service.rs:271-280 [dispatch_incoming_tcp] *)
Definition dispatch_incoming_tcp (dst_port seq : Z) (payload : bytes) (s : NetworkService) : NetworkService :=
  with_tcp ((λ k, if (ts_port k =? dst_port)%Z
                  then mkTcpSock (ts_id k) (ts_owner k) (ts_port k) (ts_remote_ip k) (ts_remote_port k) (ts_state k) (ts_seq k)
                         (wrap 32 (seq + wrap 32 (Z.of_nat (length payload `max` 1)))) (ts_rx k ++ payload)
                  else k) <$> tcp_sockets s) s.

(** ** The state shown to the user *)

(** kernel/src/network_manager.rs:11-21 [NetworkState] *)
Inductive NetworkState :=
| Disconnected
| Ethernet (interface ip : bytes)
| Wifi (ssid : bytes) (signal_strength : Z).

(** kernel/src/network_manager.rs:23-27 [NetworkManager] *)
Record NetworkManager := mkNetManager { nm_state : NetworkState; popup_open : bool; last_updated_tick : Z }.

(** kernel/src/network_manager.rs:30-39 [NetworkManager::new] *)
Definition manager_new : NetworkManager := mkNetManager (Ethernet (str "eth0 (RTL8139)") MY_IP) false 0.
(** kernel/src/network_manager.rs:41-43 [set_disconnected] *)
Definition set_disconnected (m : NetworkManager) : NetworkManager := mkNetManager Disconnected (popup_open m) (last_updated_tick m).
(** kernel/src/network_manager.rs:45-50 [set_ethernet] *)
Definition set_ethernet (ip : bytes) (m : NetworkManager) : NetworkManager :=
  mkNetManager (Ethernet (str "eth0 (RTL8139)") ip) (popup_open m) (last_updated_tick m).
(** kernel/src/network_manager.rs:52-57 [set_wifi] *)
Definition set_wifi (ssid : bytes) (signal : Z) (m : NetworkManager) : NetworkManager :=
  mkNetManager (Wifi ssid (signal `min` 100)%Z) (popup_open m) (last_updated_tick m).
(** kernel/src/network_manager.rs:59-61 [toggle_popup] *)
Definition toggle_popup (m : NetworkManager) : NetworkManager := mkNetManager (nm_state m) (negb (popup_open m)) (last_updated_tick m).
(** kernel/src/network_manager.rs:64-70 [get_icon_symbol] *)
Definition get_icon_symbol (m : NetworkManager) : bytes :=
  match nm_state m with Disconnected => str "x" | Ethernet _ _ => str "[ETH]" | Wifi _ _ => str "[WIFI]" end.
(** kernel/src/network_manager.rs:73-79 [get_network_state_for_app] *)
Definition get_network_state_for_app (granted : PermissionManager) (pid : Z) (m : NetworkManager) : string + NetworkState :=
  if check_permission pid NetworkAccess granted then inr (nm_state m) else inl "PermissionDenied".
