(* ===== verification/NetServiceProps.v ===== *)
(** * The network service: properties

    What a process asks of the service concerns its own sockets only. *)
From S2P Require Import Prelude Bytes Text Abi Permission NetPacket PacketProps NetStack NetApi NetProps NetTheorems NetService.

Section service.
Context {N : Type} `{!Nic N}.
Context (fuel : nat).

(** Every socket is filed under its number, below the next one; a number names
    one socket. *)
Record service_ok (s : NetworkService) : Prop := {
  so_udp : ∀ id k, udp_sockets s !! id = Some k → us_id k = id ∧ (1 ≤ id < next_socket_id s)%Z;
  so_tcp : ∀ id k, tcp_sockets s !! id = Some k → ts_id k = id ∧ (1 ≤ id < next_socket_id s)%Z;
  so_one : ∀ id, udp_sockets s !! id = None ∨ tcp_sockets s !! id = None;
  so_next : (1 ≤ next_socket_id s)%Z;
  so_port : (49152 ≤ next_ephemeral_port s < 65536)%Z;
}.

(** The sockets of the others are the same. *)
Record others_same (pid : Z) (s s' : NetworkService) : Prop := {
  os_udp : ∀ id k, us_owner k ≠ pid → udp_sockets s !! id = Some k ↔ udp_sockets s' !! id = Some k;
  os_tcp : ∀ id k, ts_owner k ≠ pid → tcp_sockets s !! id = Some k ↔ tcp_sockets s' !! id = Some k;
}.

Lemma others_refl pid s : others_same pid s s.
Proof. done. Qed.

(** Putting or dropping a socket of the caller. *)
Lemma others_put_udp pid id k s : (∀ k', udp_sockets s !! id = Some k' → us_owner k' = pid) → us_owner k = pid →
  others_same pid s (with_udp (<[id := k]> (udp_sockets s)) s).
Proof.
  intros Hold Hk. split; [|done]. intros id' k' Hne. cbn. destruct (decide (id = id')) as [<-|]; [|by rewrite lookup_insert_ne].
  rewrite lookup_insert_eq. split; [intros H; by apply Hold in H|congruence].
Qed.
Lemma others_put_tcp pid id k s : (∀ k', tcp_sockets s !! id = Some k' → ts_owner k' = pid) → ts_owner k = pid →
  others_same pid s (with_tcp (<[id := k]> (tcp_sockets s)) s).
Proof.
  intros Hold Hk. split; [done|]. intros id' k' Hne. cbn. destruct (decide (id = id')) as [<-|]; [|by rewrite lookup_insert_ne].
  rewrite lookup_insert_eq. split; [intros H; by apply Hold in H|congruence].
Qed.
Lemma others_drop_udp pid id s : (∀ k', udp_sockets s !! id = Some k' → us_owner k' = pid) →
  others_same pid s (with_udp (delete id (udp_sockets s)) s).
Proof.
  intros Hold. split; [|done]. intros id' k' Hne. cbn. destruct (decide (id = id')) as [<-|]; [|by rewrite lookup_delete_ne].
  rewrite lookup_delete_eq. split; [intros H; by apply Hold in H|done].
Qed.
Lemma others_drop_tcp pid id s : (∀ k', tcp_sockets s !! id = Some k' → ts_owner k' = pid) →
  others_same pid s (with_tcp (delete id (tcp_sockets s)) s).
Proof.
  intros Hold. split; [done|]. intros id' k' Hne. cbn. destruct (decide (id = id')) as [<-|]; [|by rewrite lookup_delete_ne].
  rewrite lookup_delete_eq. split; [intros H; by apply Hold in H|done].
Qed.

Lemma put_udp_ok id k s : service_ok s → udp_sockets s !! id = Some k → ∀ k', us_id k' = us_id k →
  service_ok (with_udp (<[id := k']> (udp_sockets s)) s).
Proof.
  intros [H1 H2 H3 H4 H5] Hk k' He. split; try done; cbn.
  - intros id' k'' [[<- <-]|[_ ?]]%lookup_insert_Some; [|by apply H1]. rewrite He. by apply H1.
  - intros id'. destruct (decide (id = id')) as [<-|]; [|by rewrite lookup_insert_ne]. destruct (H3 id) as [?|?]; [congruence|by right].
Qed.
Lemma put_tcp_ok id k s : service_ok s → tcp_sockets s !! id = Some k → ∀ k', ts_id k' = ts_id k →
  service_ok (with_tcp (<[id := k']> (tcp_sockets s)) s).
Proof.
  intros [H1 H2 H3 H4 H5] Hk k' He. split; try done; cbn.
  - intros id' k'' [[<- <-]|[_ ?]]%lookup_insert_Some; [|by apply H2]. rewrite He. by apply H2.
  - intros id'. destruct (decide (id = id')) as [<-|]; [|by rewrite lookup_insert_ne]. destruct (H3 id) as [?|?]; [by left|congruence].
Qed.
Lemma drop_udp_ok id s : service_ok s → service_ok (with_udp (delete id (udp_sockets s)) s).
Proof.
  intros [H1 H2 H3 H4 H5]. split; try done; cbn; [intros id' k [_ ?]%lookup_delete_Some; by apply H1|].
  intros id'. destruct (H3 id') as [H|H]; [left; by apply lookup_delete_None; right|by right].
Qed.
Lemma drop_tcp_ok id s : service_ok s → service_ok (with_tcp (delete id (tcp_sockets s)) s).
Proof.
  intros [H1 H2 H3 H4 H5]. split; try done; cbn; [intros id' k [_ ?]%lookup_delete_Some; by apply H2|].
  intros id'. destruct (H3 id') as [H|H]; [by left|right; by apply lookup_delete_None; right].
Qed.

(** ** The steps of a request *)

(** How a request ends: the service sound, the sockets of the others as they
    were, and all of it after an error. *)
Definition isolated (pid : Z) {A} (s : NetworkService) (r : outcome NetError A) (s' : NetworkService) : Prop :=
  match r with
  | Ok _ => service_ok s' ∧ others_same pid s s'
  | Err _ => s' = s
  | Panic => True
  end.

Lemma own_udp_spec pid id s :
  (∃ k, own_udp pid id s = (Ok k, s) ∧ udp_sockets s !! id = Some k ∧ us_owner k = pid) ∨ ∃ e, own_udp pid id s = (Err e, s).
Proof.
  unfold own_udp, mbind, comp_bind, get, ok_or, reject_if. destruct (udp_sockets s !! id) as [k|]; cbn; [|by eauto].
  destruct (Z.eqb_spec (us_owner k) pid); cbn; by eauto.
Qed.
Lemma own_tcp_spec pid id s :
  (∃ k, own_tcp pid id s = (Ok k, s) ∧ tcp_sockets s !! id = Some k ∧ ts_owner k = pid) ∨ ∃ e, own_tcp pid id s = (Err e, s).
Proof.
  unfold own_tcp, mbind, comp_bind, get, ok_or, reject_if. destruct (tcp_sockets s !! id) as [k|]; cbn; [|by eauto].
  destruct (Z.eqb_spec (ts_owner k) pid); cbn; by eauto.
Qed.

Abbreviation M := (comp (NetWorld N) NetError).

Lemma wp_in_stack {A} (m : comp (NetState N) Empty_set A) (Q : outcome NetError A → NetWorld N → Prop) w :
  (∀ r t, (∀ e, r ≠ Err e) → Q r (mkNetWorld (net_service w) t)) → wp (in_stack m) Q w.
Proof.
  intros HQ. unfold in_stack. apply wp_bind, wp_attempt, wp_zoom. unfold wp. destruct (m (net_stack w)) as [[a|[]|] t]; by apply HQ.
Qed.
Lemma wp_in_service {A} (m : comp NetworkService NetError A) (Q : outcome NetError A → NetWorld N → Prop) w :
  wp m (λ r s, Q r (mkNetWorld s (net_stack w))) (net_service w) → wp (in_service m) Q w.
Proof. intros H. by apply wp_zoom. Qed.

(** The socket is the caller's, or nothing happens. *)
Lemma wp_own_udp pid id (Q : outcome NetError UdpSocketRecord → NetWorld N → Prop) w :
  (∀ k, udp_sockets (net_service w) !! id = Some k → us_owner k = pid → Q (Ok k) w) → (∀ e, Q (Err e) w) →
  wp (in_service (own_udp pid id)) Q w.
Proof.
  intros Hok Herr. apply wp_in_service. unfold wp. destruct w as [s t]. cbn.
  destruct (own_udp_spec pid id s) as [(k & -> & Hk & Ho)|[e ->]]; cbn; auto.
Qed.
Lemma wp_own_tcp pid id (Q : outcome NetError TcpSocketRecord → NetWorld N → Prop) w :
  (∀ k, tcp_sockets (net_service w) !! id = Some k → ts_owner k = pid → Q (Ok k) w) → (∀ e, Q (Err e) w) →
  wp (in_service (own_tcp pid id)) Q w.
Proof.
  intros Hok Herr. apply wp_in_service. unfold wp. destruct w as [s t]. cbn.
  destruct (own_tcp_spec pid id s) as [(k & -> & Hk & Ho)|[e ->]]; cbn; auto.
Qed.

Definition isolates (pid : Z) {A} (m : M A) : Prop :=
  ∀ w, service_ok (net_service w) → wp m (λ r w', isolated pid (net_service w) r (net_service w')) w.

Lemma isolates_send_udp pid id ip port data : isolates pid (send_udp fuel pid id ip port data).
Proof.
  intros w Hok. unfold send_udp. repeat wp_step; [done|]. apply wp_own_udp; [|done]. intros k Hk Ho.
  apply wp_bind, wp_in_stack. intros [a|e|] t He; [|by destruct (He e)|done]. by apply wp_ret.
Qed.
Lemma isolates_recv_udp pid id : isolates pid (recv_udp (N := N) pid id).
Proof.
  intros w Hok. unfold recv_udp. apply wp_bind, wp_own_udp; [|done]. intros k Hk Ho. destruct (last (us_rx k)); [|by apply wp_throw].
  apply wp_bind, wp_in_service, wp_modify, wp_ret. split; [by eapply put_udp_ok|].
  apply others_put_udp; [|done]. intros k' Hk'. congruence.
Qed.
Lemma isolates_close_udp pid id : isolates pid (close_udp (N := N) pid id).
Proof.
  intros w Hok. unfold close_udp. apply wp_bind, wp_own_udp; [|done]. intros k Hk Ho.
  apply wp_bind, wp_in_service, wp_modify, wp_ret. split; [by apply drop_udp_ok|].
  apply others_drop_udp. intros k' Hk'. congruence.
Qed.
Lemma isolates_connect_tcp pid id ip port : isolates pid (connect_tcp fuel pid id ip port).
Proof.
  intros w Hok. unfold connect_tcp. apply wp_bind, wp_own_tcp; [|done]. intros k Hk Ho.
  apply wp_bind, wp_in_stack. intros [a|e|] t He; [|by destruct (He e)|done].
  apply wp_bind, wp_in_service, wp_modify, wp_ret. split; [by eapply put_tcp_ok|].
  apply others_put_tcp; [|done]. intros k' Hk'. cbn in Hk'. congruence.
Qed.
Lemma isolates_send_tcp pid id data : isolates pid (send_tcp_bytes fuel pid id data).
Proof.
  intros w Hok. unfold send_tcp_bytes. do 2 wp_step; [done|]. apply wp_bind, wp_own_tcp; [|done]. intros k Hk Ho.
  do 2 wp_step; [done|]. destruct (ts_remote_ip k) as [ip|]; [|by apply wp_throw]. destruct (ts_remote_port k) as [port|]; [|by apply wp_throw].
  apply wp_bind, wp_in_stack. intros [a|e|] t He; [|by destruct (He e)|done].
  apply wp_bind, wp_in_service, wp_modify, wp_ret. split; [by eapply put_tcp_ok|].
  apply others_put_tcp; [|done]. intros k' Hk'. cbn in Hk'. congruence.
Qed.
Lemma isolates_recv_tcp pid id n : isolates pid (recv_tcp (N := N) pid id n).
Proof.
  intros w Hok. unfold recv_tcp. apply wp_bind, wp_own_tcp; [|done]. intros k Hk Ho. do 2 wp_step; [done|].
  cbv zeta. apply wp_bind, wp_in_service, wp_modify, wp_ret. split; [by eapply put_tcp_ok|].
  apply others_put_tcp; [|done]. intros k' Hk'. congruence.
Qed.
Lemma isolates_close_tcp pid id : isolates pid (close_tcp (N := N) pid id).
Proof.
  intros w Hok. unfold close_tcp. apply wp_bind, wp_own_tcp; [|done]. intros k Hk Ho.
  apply wp_bind, wp_in_service, wp_modify, wp_ret. split; [by apply drop_tcp_ok|].
  apply others_drop_tcp. intros k' Hk'. congruence.
Qed.

(** A new number is the next one; the port is the one asked for, or an ephemeral one. *)
Lemma new_number_spec port s : service_ok s → (0 ≤ port < 65536)%Z →
  (∃ p s', new_number port s = (Ok (next_socket_id s, p), s') ∧ udp_sockets s' = udp_sockets s ∧ tcp_sockets s' = tcp_sockets s ∧
     next_socket_id s' = (next_socket_id s + 1)%Z ∧ (49152 ≤ next_ephemeral_port s' < 65536)%Z ∧
     (if decide (port = 0)%Z then 49152 ≤ p < 65536 else p = port)%Z) ∨ (new_number port s).1 = Panic.
Proof.
  intros [_ _ _ Hn Hp] Hport. unfold new_number, alloc_ephemeral_port, mbind, comp_bind, get. cbv zeta.
  assert (49152 ≤ (if wrap 16 (next_ephemeral_port s + 1) <? 49152 then 49152 else wrap 16 (next_ephemeral_port s + 1)) < 65536)%Z as Hw.
  { destruct (Z.ltb_spec (wrap 16 (next_ephemeral_port s + 1)) 49152); [lia|].
    pose proof (Z.mod_pos_bound (next_ephemeral_port s + 1) (2 ^ 16)). unfold wrap in *. lia. }
  destruct (Z.eqb_spec port 0) as [->|Hne]; cbn; (destruct (fits 32 _) as [n|] eqn:Hf; [|by right]); apply fits_Some in Hf as [-> _]; left;
    eexists _, _; split_and!; try reflexivity; cbn; try lia; case_decide; done || lia.
Qed.

Lemma isolates_create_udp pid port : (0 ≤ port < 65536)%Z → isolates pid (create_udp (N := N) pid port).
Proof.
  intros Hport w Hok. unfold create_udp. apply wp_bind, wp_in_service. unfold wp at 1.
  destruct (new_number_spec port _ Hok Hport) as [(p & s' & -> & Hu & Ht & Hn & Hp & _)|Hpanic].
  2:{ destruct (new_number port _) as [[?|?|] ?]; try done. }
  cbn [fst snd]. apply wp_bind, wp_in_service, wp_modify, wp_ret. destruct Hok as [H1 H2 H3 H4 H5].
  assert (udp_sockets (net_service w) !! next_socket_id (net_service w) = None) as Hfu.
  { destruct (udp_sockets _ !! _) eqn:He; [|done]. apply H1 in He. lia. }
  assert (tcp_sockets (net_service w) !! next_socket_id (net_service w) = None) as Hft.
  { destruct (tcp_sockets _ !! _) eqn:He; [|done]. apply H2 in He. lia. }
  split.
  - split; cbn; rewrite ?Hu, ?Ht, ?Hn; try lia.
    + intros id k [[<- <-]|[_ Hk]]%lookup_insert_Some; [cbn; lia|]. apply H1 in Hk. lia.
    + intros id k Hk. apply H2 in Hk. lia.
    + intros id. destruct (decide (next_socket_id (net_service w) = id)) as [<-|]; [by right|]. rewrite lookup_insert_ne by done. apply H3.
  - split; cbn; rewrite ?Hu, ?Ht; [|done]. intros id k Hne. destruct (decide (next_socket_id (net_service w) = id)) as [<-|]; [|by rewrite lookup_insert_ne].
    rewrite lookup_insert_eq, Hfu. split; [done|]. intros [= <-]. done.
Qed.
Lemma isolates_create_tcp pid port : (0 ≤ port < 65536)%Z → isolates pid (create_tcp (N := N) pid port).
Proof.
  intros Hport w Hok. unfold create_tcp. apply wp_bind, wp_in_service. unfold wp at 1.
  destruct (new_number_spec port _ Hok Hport) as [(p & s' & -> & Hu & Ht & Hn & Hp & _)|Hpanic].
  2:{ destruct (new_number port _) as [[?|?|] ?]; try done. }
  cbn [fst snd]. apply wp_bind, wp_in_service, wp_modify, wp_ret. destruct Hok as [H1 H2 H3 H4 H5].
  assert (udp_sockets (net_service w) !! next_socket_id (net_service w) = None) as Hfu.
  { destruct (udp_sockets _ !! _) eqn:He; [|done]. apply H1 in He. lia. }
  assert (tcp_sockets (net_service w) !! next_socket_id (net_service w) = None) as Hft.
  { destruct (tcp_sockets _ !! _) eqn:He; [|done]. apply H2 in He. lia. }
  split.
  - split; cbn; rewrite ?Hu, ?Ht, ?Hn; try lia.
    + intros id k Hk. apply H1 in Hk. lia.
    + intros id k [[<- <-]|[_ Hk]]%lookup_insert_Some; [cbn; lia|]. apply H2 in Hk. lia.
    + intros id. destruct (decide (next_socket_id (net_service w) = id)) as [<-|]; [by left|]. rewrite lookup_insert_ne by done. apply H3.
  - split; cbn; rewrite ?Hu, ?Ht; [done|]. intros id k Hne. destruct (decide (next_socket_id (net_service w) = id)) as [<-|]; [|by rewrite lookup_insert_ne].
    rewrite lookup_insert_eq, Hft. split; [done|]. intros [= <-]. done.
Qed.

(** The ports of a request are 16-bit integers. *)
Definition request_ok (req : NetIpcRequest) : Prop :=
  match req with CreateUdpSocket port | CreateTcpSocket port => (0 ≤ port < 65536)%Z | _ => True end.

Lemma isolates_serve pid req : request_ok req → isolates pid (serve_net fuel pid req).
Proof.
  destruct req; cbn; intros Hr; auto using isolates_create_udp, isolates_send_udp, isolates_recv_udp, isolates_close_udp, isolates_create_tcp,
    isolates_connect_tcp, isolates_send_tcp, isolates_recv_tcp, isolates_close_tcp.
Qed.

(** ** Sockets of others *)

(** The socket that a request names. *)
Definition names_udp (req : NetIpcRequest) : option Z :=
  match req with SendUdp id _ _ _ | RecvUdp id | CloseSocket id => Some id | _ => None end.
Definition names_tcp (req : NetIpcRequest) : option Z :=
  match req with ConnectTcp id _ _ | SendTcp id _ | RecvTcp id _ | CloseTcpSocket id => Some id | _ => None end.

(** It is a socket of the right kind that [pid] owns. *)
Definition owns_named (pid : Z) (req : NetIpcRequest) (s : NetworkService) : Prop :=
  (∀ id, names_udp req = Some id → ∃ k, udp_sockets s !! id = Some k ∧ us_owner k = pid) ∧
  (∀ id, names_tcp req = Some id → ∃ k, tcp_sockets s !! id = Some k ∧ ts_owner k = pid).

(** What is answered needed no socket, or one of the caller's. *)
Lemma serve_owns pid req (w : NetWorld N) : wp (serve_net fuel pid req) (λ r _, ∀ a, r = Ok a → owns_named pid req (net_service w)) w.
Proof.
  destruct req as [port|id ip port data|id|id|port|id ip port|id data|id n|id]; cbn [serve_net].
  1,5: apply wp_intro; by split.
  all: unfold send_udp, recv_udp, close_udp, connect_tcp, send_tcp_bytes, recv_tcp, close_tcp.
  all: repeat (apply wp_bind, wp_reject_if; intros _; [by intros ? [=]|]).
  all: apply wp_bind; first [apply wp_own_udp|apply wp_own_tcp]; [|by intros ? ? [=]]; intros k Hk Ho; apply wp_intro; intros _ _.
  all: split; intros ? [=]; subst; by exists k.
Qed.

(** ** Everything the service does *)

Lemma dispatch_ok port seq payload s : service_ok s → service_ok (dispatch_incoming_tcp port seq payload s).
Proof.
  intros [H1 H2 H3 H4 H5]. split; try done; cbn.
  - intros id k. rewrite lookup_fmap. destruct (tcp_sockets s !! id) as [k0|] eqn:Hk; [|done]. cbn. intros [= <-].
    destruct (H2 _ _ Hk). by destruct (_ =? _)%Z.
  - intros id. destruct (H3 id) as [H|H]; [by left|right]. by rewrite lookup_fmap, H.
Qed.

(** A request that is answered, a segment that arrives, or anything the stack does. *)
Inductive world_step : NetWorld N → NetWorld N → Prop :=
| step_serve granted pid req r w w' : request_ok req → handle_request fuel granted pid req w = (Ok r, w') → world_step w w'
| step_segment port seq payload w :
    world_step w (mkNetWorld (dispatch_incoming_tcp port seq payload (net_service w)) (net_stack w))
| step_stack w t : world_step w (mkNetWorld (net_service w) t).

(** A failure is an error, not an answer. *)
Lemma wp_value {A} (m : M A) (Q : outcome NetError A → NetWorld N → Prop) w :
  (∀ r w', Q r w') → wp m Q w.
Proof. intros H. apply wp_intro, H. Qed.
Lemma serve_not_failed pid req (w : NetWorld N) : wp (serve_net fuel pid req) (λ r _, ∀ e, r ≠ Ok (NetFailed e)) w.
Proof.
  assert (∀ A (m : M A) (k : A → M NetIpcResponse) w, (∀ a w, wp (k a) (λ r _, ∀ e, r ≠ Ok (NetFailed e)) w) →
    wp (m ≫= k) (λ r _, ∀ e, r ≠ Ok (NetFailed e)) w) as Hb.
  { intros A m k w0 Hk. apply wp_bind, wp_value. intros [a|e|] w'; [apply Hk|done..]. }
  destruct req; cbn [serve_net]; unfold create_udp, send_udp, recv_udp, close_udp, create_tcp, connect_tcp, send_tcp_bytes, recv_tcp, close_tcp.
  all: repeat (apply Hb; intros ? ?; cbv zeta).
  all: repeat case_match; subst; repeat (apply Hb; intros ? ?); try by apply wp_ret.
  all: by apply wp_throw.
Qed.

Lemma handle_isolates granted pid req w r w' : service_ok (net_service w) → request_ok req →
  handle_request fuel granted pid req w = (Ok r, w') →
  service_ok (net_service w') ∧ others_same pid (net_service w) (net_service w') ∧
  match r with NetFailed _ => net_service w' = net_service w | _ => owns_named pid req (net_service w) end.
Proof.
  intros Hok Hreq. unfold handle_request. destruct (negb _); [by intros [= <- <-]|].
  pose proof (isolates_serve pid req Hreq w Hok) as Hi. pose proof (serve_not_failed pid req w) as Hn.
  pose proof (serve_owns pid req w) as Ho. unfold wp in *. unfold mbind, comp_bind, attempt.
  destruct (serve_net fuel pid req w) as [[a|e|] w1]; [..|done]; intros [= <- <-]; cbn in *.
  - destruct Hi as [H1 H2]. split_and!; [done|done|]. destruct a; try (by apply (Ho _ eq_refl)). by destruct (Hn e).
  - by rewrite Hi.
Qed.

Lemma world_reachable_ok t w : rtc world_step (mkNetWorld service_new t) w → service_ok (net_service w).
Proof.
  intros H. assert (service_ok service_new) as H0 by (split; try done; intros; by left). 
  remember (mkNetWorld service_new t) as w0 eqn:He. assert (service_ok (net_service w0)) as Hok by by subst. clear He H0.
  induction H as [|w0 w1 w2 Hs _ IH]; [done|]. apply IH. destruct Hs as [granted pid req r w0 w1 Hreq Hr|port seq payload w0|w0 t'].
  - by eapply handle_isolates.
  - by apply dispatch_ok.
  - done.
Qed.

End service.

(** Two processes that may use the network, and a socket of the first. *)
Definition demo_granted : PermissionManager := <[7%Z := [NetworkAccess]]> (<[8%Z := [NetworkAccess]]> ∅).
Definition demo_world : NetWorld Card :=
  (handle_request 1 demo_granted 7 (CreateUdpSocket 5000) (mkNetWorld service_new (demo_start []))).2.

Lemma demo_world_reachable : rtc (world_step (N := Card) 1) (mkNetWorld service_new (demo_start [])) demo_world.
Proof.
  apply rtc_once. apply (step_serve 1 demo_granted 7 (CreateUdpSocket 5000) (SocketCreated 1 5000)); [cbn; lia|]. vm_compute. reflexivity.
Qed.

