(* ===== verification/Keyboard.v ===== *)
(** * The keyboard (kernel/src/keyboard.rs)

    Scan codes become keys in a ring buffer, and the state of the modifiers.
    The flags that other parts read are kept beside those of the decoder. *)
From S2P Require Import Prelude Bytes Text.

(** kernel/src/keyboard.rs:6-6 [BUF_SIZE] *)
Definition BUF_SIZE : nat := 64.

(** kernel/src/keyboard.rs:9-24 [Key] *)
Inductive Key :=
| Ascii (c : Z)
| Backspace | Delete | Enter | Escape | Tab | Left | Right | Up | Down | Home | End_ | CtrlC | Unknown.
#[export] Instance Key_eq : EqDecision Key.
Proof. solve_decision. Defined.

(** kernel/src/keyboard.rs:26-33 [Keyboard] *)
Record Keyboard := mkKeyboard {
  kb_buffer : list Key;
  kb_read : nat;
  kb_write : nat;
  kb_shift : bool;
  kb_ctrl : bool;
  kb_extended : bool;
}.

(** kernel/src/keyboard.rs:36-45 [Keyboard::new] *)
Definition keyboard_new : Keyboard := mkKeyboard (replicate BUF_SIZE Unknown) 0 0 false false false.
(** kernel/src/keyboard.rs:47-53 [Keyboard::clear] *)
Definition keyboard_clear (k : Keyboard) : Keyboard := mkKeyboard (kb_buffer k) 0 0 false false false.

(** kernel/src/keyboard.rs:55-61 [Keyboard::push] *)
Definition kb_push (key : Key) (k : Keyboard) : Keyboard :=
  let next := (kb_write k + 1) mod BUF_SIZE in
  if bool_decide (next ≠ kb_read k)
  then mkKeyboard (<[kb_write k := key]> (kb_buffer k)) (kb_read k) next (kb_shift k) (kb_ctrl k) (kb_extended k)
  else k.

(** kernel/src/keyboard.rs:63-71 [Keyboard::pop] *)
Definition kb_pop (k : Keyboard) : option Key * Keyboard :=
  if bool_decide (kb_read k = kb_write k) then (None, k)
  else
    (kb_buffer k !! kb_read k,
     mkKeyboard (<[kb_read k := Unknown]> (kb_buffer k)) ((kb_read k + 1) mod BUF_SIZE) (kb_write k) (kb_shift k) (kb_ctrl k) (kb_extended k)).

(** The decoder and the flags ALT_PRESSED, CTRL_PRESSED and SHIFT_PRESSED —
    kernel/src/keyboard.rs:164-166 [ALT_PRESSED, CTRL_PRESSED, SHIFT_PRESSED] *)
Record KeyboardState := mkKeyboardState {
  keyboard : Keyboard;
  alt_pressed : bool;
  ctrl_pressed : bool;
  shift_pressed : bool;
}.

Definition on_keyboard (f : Keyboard → Keyboard) (s : KeyboardState) : KeyboardState :=
  mkKeyboardState (f (keyboard s)) (alt_pressed s) (ctrl_pressed s) (shift_pressed s).
Definition set_extended (b : bool) (k : Keyboard) : Keyboard :=
  mkKeyboard (kb_buffer k) (kb_read k) (kb_write k) (kb_shift k) (kb_ctrl k) b.
(** [self.ctrl = b; CTRL_PRESSED.store(b)], and so for the others. *)
Definition set_ctrl (b : bool) (s : KeyboardState) : KeyboardState :=
  let k := keyboard s in
  mkKeyboardState (mkKeyboard (kb_buffer k) (kb_read k) (kb_write k) (kb_shift k) b (kb_extended k)) (alt_pressed s) b (shift_pressed s).
Definition set_shift (b : bool) (s : KeyboardState) : KeyboardState :=
  let k := keyboard s in
  mkKeyboardState (mkKeyboard (kb_buffer k) (kb_read k) (kb_write k) b (kb_ctrl k) (kb_extended k)) (alt_pressed s) (ctrl_pressed s) b.
Definition set_alt (b : bool) (s : KeyboardState) : KeyboardState :=
  mkKeyboardState (keyboard s) b (ctrl_pressed s) (shift_pressed s).

(** [0] is no character — kernel/src/keyboard.rs:193-210 [KEYMAP_NORMAL] *)
Definition KEYMAP_NORMAL : list Z :=
  [0; 0]%Z ++ str "1234567890-=" ++ [0; 0]%Z ++ str "qwertyuiop[]" ++ [0; 0]%Z ++ str "asdfghjkl;'`" ++ [0]%Z
  ++ str "\zxcvbnm,./" ++ [0]%Z ++ str "*" ++ [0]%Z ++ str " " ++ replicate 14 0%Z ++ str "789-456+1230." ++ replicate 43 0%Z.
(** kernel/src/keyboard.rs:212-229 [KEYMAP_SHIFT] *)
Definition KEYMAP_SHIFT : list Z :=
  [0; 0]%Z ++ str "!@#$%^&*()_+" ++ [0; 0]%Z ++ str "QWERTYUIOP{}" ++ [0; 0]%Z ++ str "ASDFGHJKL:" ++ [34%Z] ++ str "~" ++ [0]%Z
  ++ str "|ZXCVBNM<>?" ++ [0]%Z ++ str "*" ++ [0]%Z ++ str " " ++ replicate 14 0%Z ++ str "789-456+1230." ++ replicate 43 0%Z.

(** kernel/src/keyboard.rs:231-236 [scancode_to_ascii] *)
Definition scancode_to_ascii (scancode : Z) (shift : bool) : option Z :=
  if (128 <=? scancode)%Z then None
  else
    c ← (if shift then KEYMAP_SHIFT else KEYMAP_NORMAL) !! Z.to_nat scancode;
    if (c =? 0)%Z then None else Some c.

(** The key after the prefix 0xE0 — kernel/src/keyboard.rs:77-104 [Keyboard::handle_scancode, extended] *)
Definition extended_scancode (scancode : Z) : KeyboardState → KeyboardState :=
  match scancode with
  | 83 => on_keyboard (kb_push Delete)
  | 75 => on_keyboard (kb_push Left)
  | 77 => on_keyboard (kb_push Right)
  | 72 => on_keyboard (kb_push Up)
  | 80 => on_keyboard (kb_push Down)
  | 71 => on_keyboard (kb_push Home)
  | 79 => on_keyboard (kb_push End_)
  | 82 => on_keyboard (kb_push Delete)
  | 29 => set_ctrl true
  | 157 => set_ctrl false
  | 56 => set_alt true
  | 184 => set_alt false
  | _ => id
  end%Z.

(** A key that is let go — kernel/src/keyboard.rs:113-127 [Keyboard::handle_scancode, break] *)
Definition break_scancode (scancode : Z) (s : KeyboardState) : KeyboardState :=
  let make := Z.land scancode 127 in
  let s := if ((make =? 42) || (make =? 54))%Z then set_shift false s else s in
  let s := if (make =? 29)%Z then set_ctrl false s else s in
  if (make =? 56)%Z then set_alt false s else s.

(** A key that is pressed — kernel/src/keyboard.rs:130-160 [Keyboard::handle_scancode, make] *)
Definition make_scancode (scancode : Z) (s : KeyboardState) : KeyboardState :=
  let typed s := match scancode_to_ascii scancode (kb_shift (keyboard s)) with Some c => on_keyboard (kb_push (Ascii c)) s | None => s end in
  match scancode with
  | 29 => set_ctrl true s
  | 42 | 54 => set_shift true s
  | 56 => set_alt true s
  | 28 => on_keyboard (kb_push Enter) s
  | 14 => on_keyboard (kb_push Backspace) s
  | 1 => on_keyboard (kb_push Escape) s
  | 15 => on_keyboard (kb_push Tab) s
  | 57 => on_keyboard (kb_push (Ascii 32)) s
  | 83 => on_keyboard (kb_push Delete) s
  | 46 => if kb_ctrl (keyboard s) then on_keyboard (kb_push CtrlC) s else typed s
  | _ => typed s
  end%Z.

(** kernel/src/keyboard.rs:74-161 [Keyboard::handle_scancode] *)
Definition handle_scancode (scancode : Z) (s : KeyboardState) : KeyboardState :=
  if kb_extended (keyboard s) then extended_scancode scancode (on_keyboard (set_extended false) s)
  else if (scancode =? 224)%Z then on_keyboard (set_extended true) s
  else if negb (Z.land scancode 128 =? 0)%Z then break_scancode scancode s
  else make_scancode scancode s.

(** kernel/src/keyboard.rs:183-185 [handle_key] *)
Definition handle_key : Z → KeyboardState → KeyboardState := handle_scancode.
(** kernel/src/keyboard.rs:188-190 [read_key] *)
Definition read_key (s : KeyboardState) : option Key * KeyboardState :=
  let '(key, k) := kb_pop (keyboard s) in
  (key, mkKeyboardState k (alt_pressed s) (ctrl_pressed s) (shift_pressed s)).

(** ** The ring is a queue *)

(** How many keys wait, and which, the oldest first. *)
Definition kb_count (k : Keyboard) : nat := (kb_write k + BUF_SIZE - kb_read k) mod BUF_SIZE.
Definition kb_keys (k : Keyboard) : list Key :=
  map (λ i, default Unknown (kb_buffer k !! ((kb_read k + i) mod BUF_SIZE))) (seq 0 (kb_count k)).

Record ring_ok (k : Keyboard) : Prop := {
  ring_length : length (kb_buffer k) = BUF_SIZE;
  ring_read : kb_read k < BUF_SIZE;
  ring_write : kb_write k < BUF_SIZE;
}.

Lemma mod_ring a : a < 2 * BUF_SIZE → a mod BUF_SIZE = if decide (a < BUF_SIZE) then a else a - BUF_SIZE.
Proof.
  intros H. case_decide; [by apply Nat.mod_small|]. symmetry. apply (Nat.mod_unique _ _ 1); unfold BUF_SIZE in *; lia.
Qed.
(** Arithmetic on positions in the ring. *)
Ltac ring_lia := repeat case_decide; unfold BUF_SIZE in *; lia.
Lemma length_kb_keys k : ring_ok k → length (kb_keys k) = kb_count k.
Proof. intros _. unfold kb_keys. by rewrite length_map, length_seq. Qed.
Lemma kb_count_lt k : ring_ok k → kb_count k < BUF_SIZE.
Proof. intros _. apply Nat.mod_upper_bound. done. Qed.

(** A key that comes in is the last one, unless 63 wait: then it is lost. *)
Lemma push_keys key k : ring_ok k →
  ring_ok (kb_push key k) ∧ kb_keys (kb_push key k) = if decide (length (kb_keys k) < 63) then kb_keys k ++ [key] else kb_keys k.
Proof.
  intros Hok. rewrite length_kb_keys by done. destruct Hok as [Hl Hr Hw]. unfold kb_push. unfold kb_count.
  assert ((kb_write k + 1) mod BUF_SIZE = if decide (kb_write k + 1 < BUF_SIZE) then kb_write k + 1 else 0) as Hnext.
  { rewrite mod_ring by (unfold BUF_SIZE in *; lia). ring_lia. }
  assert ((kb_write k + BUF_SIZE - kb_read k) mod BUF_SIZE =
    if decide (kb_read k ≤ kb_write k) then kb_write k - kb_read k else kb_write k + BUF_SIZE - kb_read k) as Hn.
  { rewrite mod_ring by (unfold BUF_SIZE in *; lia). ring_lia. }
  rewrite Hn. destruct (bool_decide_reflect ((kb_write k + 1) mod BUF_SIZE ≠ kb_read k)) as [Hne|Hne].
  - split; [split; cbn [kb_buffer kb_read kb_write]; [by rewrite length_insert|done|rewrite Hnext; ring_lia]|].
    rewrite decide_True by (rewrite Hnext in Hne; ring_lia).
    unfold kb_keys, kb_count. cbn [kb_buffer kb_read kb_write]. rewrite Hn.
    set (n := if decide (kb_read k ≤ kb_write k) then _ else _).
    assert (((kb_write k + 1) mod BUF_SIZE + BUF_SIZE - kb_read k) mod BUF_SIZE = S n) as ->.
    { rewrite Hnext in *. unfold n. rewrite mod_ring by (ring_lia). ring_lia. }
    rewrite seq_S, map_app. cbn [map]. f_equal.
    + apply map_ext_in. intros i Hi%in_seq. rewrite list_lookup_insert_ne; [done|].
      rewrite mod_ring by (unfold n in *; ring_lia). unfold n in *. ring_lia.
    + f_equal. assert ((kb_read k + (0 + n)) mod BUF_SIZE = kb_write k) as ->.
      { rewrite mod_ring by (unfold n in *; ring_lia). unfold n in *. ring_lia. }
      by rewrite list_lookup_insert_eq by lia.
  - split; [done|]. rewrite decide_False; [done|]. apply dec_stable in Hne. rewrite Hnext in Hne. ring_lia.
Qed.

(** The key that is read is the first one. *)
Lemma pop_keys k : ring_ok k → ring_ok (kb_pop k).2 ∧ (kb_pop k).1 = head (kb_keys k) ∧ kb_keys (kb_pop k).2 = tail (kb_keys k).
Proof.
  intros Hok. pose proof Hok as [Hl Hr Hw]. unfold kb_pop. destruct (bool_decide_reflect (kb_read k = kb_write k)) as [He|Hne].
  { split; [done|]. cbn [fst snd]. assert (kb_count k = 0) as Hz by (unfold kb_count; rewrite He, Nat.add_sub_swap, Nat.sub_diag by done; done).
    unfold kb_keys. by rewrite Hz. }
  cbn [fst snd].
  assert ((kb_read k + 1) mod BUF_SIZE = if decide (kb_read k + 1 < BUF_SIZE) then kb_read k + 1 else 0) as Hnext.
  { rewrite mod_ring by (unfold BUF_SIZE in *; lia). ring_lia. }
  split; [split; cbn [kb_buffer kb_read kb_write]; [by rewrite length_insert|rewrite Hnext; ring_lia|done]|].
  assert (∃ n, kb_count k = S n ∧ n < 63 ∧ (kb_write k + BUF_SIZE - (kb_read k + 1) mod BUF_SIZE) mod BUF_SIZE = n) as (n & Hn & Hlt & Hn').
  { unfold kb_count. rewrite Hnext. rewrite mod_ring by (unfold BUF_SIZE in *; lia).
    exists ((if decide (kb_write k + BUF_SIZE - kb_read k < BUF_SIZE) then kb_write k + BUF_SIZE - kb_read k else kb_write k + BUF_SIZE - kb_read k - BUF_SIZE) - 1).
    rewrite mod_ring by (ring_lia). split_and!; ring_lia. }
  unfold kb_keys. rewrite Hn. unfold kb_count. cbn [kb_buffer kb_read kb_write]. rewrite Hn'. cbn [seq map head tail]. split.
  - rewrite Nat.add_0_r, Nat.mod_small by done. destruct (kb_buffer k !! kb_read k) eqn:Hk; [done|]. apply lookup_ge_None in Hk. lia.
  - rewrite <- seq_shift, map_map. apply map_ext_in. intros i Hi%in_seq.
    assert (((kb_read k + 1) mod BUF_SIZE + i) mod BUF_SIZE = (kb_read k + S i) mod BUF_SIZE) as ->.
    { rewrite Nat.Div0.add_mod_idemp_l. f_equal. lia. }
    rewrite list_lookup_insert_ne; [done|]. rewrite mod_ring by (unfold BUF_SIZE in *; lia). ring_lia.
Qed.

(** ** The modifiers *)

(** The flags that others read are those of the decoder. *)
Definition modifiers_agree (s : KeyboardState) : Prop :=
  ctrl_pressed s = kb_ctrl (keyboard s) ∧ shift_pressed s = kb_shift (keyboard s).

Lemma push_flags key k : kb_ctrl (kb_push key k) = kb_ctrl k ∧ kb_shift (kb_push key k) = kb_shift k ∧ kb_extended (kb_push key k) = kb_extended k.
Proof. unfold kb_push. by destruct (bool_decide _). Qed.

(** What a step does: the ring stays sound and holds at most 63 keys, at most
    one key is added behind those that wait, the modifiers agree. *)
Record keyboard_step (s s' : KeyboardState) : Prop := {
  ks_ok : ring_ok (keyboard s');
  ks_flags : modifiers_agree s';
  ks_keys : kb_keys (keyboard s') = kb_keys (keyboard s) ∨
    ∃ key, kb_keys (keyboard s') = kb_keys (keyboard s) ++ [key] ∧ length (kb_keys (keyboard s)) < 63;
}.

Lemma step_push key s : ring_ok (keyboard s) → modifiers_agree s → keyboard_step s (on_keyboard (kb_push key) s).
Proof.
  intros Hok [Hc Hs]. destruct (push_keys key _ Hok) as [Hok' Hk]. destruct (push_flags key (keyboard s)) as (Hpc & Hps & _). split; unfold on_keyboard; cbn [keyboard].
  - done.
  - split; cbn [keyboard ctrl_pressed shift_pressed]; congruence.
  - rewrite Hk. case_decide; [right; eauto|by left].
Qed.
(** Steps that leave the ring alone. *)
Lemma step_same s s' : ring_ok (keyboard s) → modifiers_agree s' → kb_buffer (keyboard s') = kb_buffer (keyboard s) →
  kb_read (keyboard s') = kb_read (keyboard s) → kb_write (keyboard s') = kb_write (keyboard s) → keyboard_step s s'.
Proof.
  intros [H1 H2 H3] Hm Hb Hr Hw. split; [split; congruence|done|]. left. unfold kb_keys, kb_count. by rewrite Hb, Hr, Hw.
Qed.
#[local] Hint Extern 1 (keyboard_step _ (on_keyboard (kb_push _) _)) => apply step_push : core.

Lemma make_step c s : ring_ok (keyboard s) → modifiers_agree s → keyboard_step s (make_scancode c s).
Proof.
  intros Hok Hm. pose proof Hm as [Hc Hs]. unfold make_scancode.
  repeat case_match; subst; auto; apply step_same; try done; by split.
Qed.
Lemma break_step c s : ring_ok (keyboard s) → modifiers_agree s → keyboard_step s (break_scancode c s).
Proof.
  intros Hok [Hc Hs]. unfold break_scancode. cbv zeta. repeat case_match; apply step_same; try done; by split.
Qed.
Lemma extended_step c s : ring_ok (keyboard s) → modifiers_agree s → keyboard_step s (extended_scancode c s).
Proof.
  intros Hok Hm. pose proof Hm as [Hc Hs]. unfold extended_scancode.
  repeat case_match; auto; apply step_same; try done; by split.
Qed.
Lemma keyboard_step_trans s1 s2 s3 : kb_keys (keyboard s2) = kb_keys (keyboard s1) → keyboard_step s2 s3 → keyboard_step s1 s3.
Proof. intros He [H1 H2 H3]. split; [done|done|]. by rewrite <- He. Qed.

(** Every scan code is such a step. *)
Lemma scancode_step c s : ring_ok (keyboard s) → modifiers_agree s → keyboard_step s (handle_scancode c s).
Proof.
  intros Hok Hm. pose proof Hok as [H1 H2 H3]. pose proof Hm as [Hc Hs]. unfold handle_scancode. destruct (kb_extended _).
  - apply (keyboard_step_trans _ (on_keyboard (set_extended false) s)); [done|]. apply extended_step; by split.
  - destruct (_ =? _)%Z; [apply step_same; try done; by split|]. destruct (negb _); [by apply break_step|by apply make_step].
Qed.

(** Over any run of scan codes and reads, what is read is what was decoded, in
    order and without gaps: the keys that were read, then those that wait, only
    ever grow at the end. *)
Inductive keyboard_event := Scancode (c : Z) | ReadKey.
Definition keyboard_run (e : keyboard_event) (s : list Key * KeyboardState) : list Key * KeyboardState :=
  match e with
  | Scancode c => (s.1, handle_key c s.2)
  | ReadKey => let '(key, s') := read_key s.2 in (s.1 ++ option_list key, s')
  end.

Theorem keys_are_read_in_order (es : list keyboard_event) (read : list Key) (s : KeyboardState) :
  ring_ok (keyboard s) → modifiers_agree s →
  let '(read', s') := foldl (λ s e, keyboard_run e s) (read, s) es in
  ring_ok (keyboard s') ∧ modifiers_agree s' ∧ length (kb_keys (keyboard s')) ≤ 63 ∧
  (read ++ kb_keys (keyboard s)) `prefix_of` (read' ++ kb_keys (keyboard s')).
Proof.
  revert read s. induction es as [|e es IH]; intros read s Hok Hm; cbn [foldl].
  { split_and!; [done|done| |done]. rewrite length_kb_keys by done. pose proof (kb_count_lt _ Hok). unfold BUF_SIZE in *. lia. }
  destruct (keyboard_run e (read, s)) as [read1 s1] eqn:Hrun.
  assert (ring_ok (keyboard s1) ∧ modifiers_agree s1 ∧ (read ++ kb_keys (keyboard s)) `prefix_of` (read1 ++ kb_keys (keyboard s1))) as (Hok1 & Hm1 & Hpre).
  { destruct e as [c|].
    - cbn [keyboard_run fst snd] in Hrun. injection Hrun as <- <-. unfold handle_key. destruct (scancode_step c s Hok Hm) as [H1 H2 H3]. split_and!; [done|done|].
      destruct H3 as [-> | (key & -> & _)]; [done|]. rewrite app_assoc. by apply prefix_app_r.
    - destruct (pop_keys _ Hok) as (H1 & H2 & H3). destruct (kb_pop (keyboard s)) as [key k] eqn:Hp.
      cbn [keyboard_run fst snd] in *. unfold read_key in Hrun. rewrite Hp in Hrun. injection Hrun as <- <-. cbn [keyboard]. destruct Hm as [Hc Hs]. split_and!; [done| |].
      + unfold kb_pop in Hp. destruct (bool_decide _); injection Hp as _ <-; by split.
      + rewrite H3, <- app_assoc. rewrite H2. destruct (kb_keys (keyboard s)); reflexivity. }
  specialize (IH read1 s1 Hok1 Hm1). destruct (foldl _ _ es) as [read' s']. destruct IH as (? & ? & ? & ?).
  split_and!; [done|done|done|]. by etrans.
Qed.

(** The keypad is one key off: its 8 types a 7. *)
Lemma keypad_is_one_off : scancode_to_ascii 72 false = Some 55%Z ∧ scancode_to_ascii 71 false = None.
Proof. done. Qed.
