(* ===== verification/StrOps.v ===== *)
(** * Strings by position

    The methods of [str] and [String] that take byte positions, and panic at a
    position inside of a character; searching and replacing. *)
From S2P Require Import Prelude Bytes Text.

(** [l.is_char_boundary(i)] *)
Definition is_char_boundary (i : nat) (l : bytes) : bool :=
  (i =? 0) || match l !! i with Some b => negb (utf8_cont b) | None => i =? length l end.

(** [&l[a..b]], [&l[a..]] and [&l[..b]] *)
Definition str_slice (a b : nat) (l : bytes) : option bytes :=
  if (a <=? b) && is_char_boundary a l && is_char_boundary b l then Some (take (b - a) (drop a l)) else None.
Definition str_from (a : nat) (l : bytes) : option bytes := str_slice a (length l) l.
Definition str_to (b : nat) (l : bytes) : option bytes := str_slice 0 b l.

(** [l.insert(i, c)], for the encoding of [c] *)
Definition str_insert (i : nat) (c l : bytes) : option bytes :=
  if is_char_boundary i l then Some (take i l ++ c ++ drop i l) else None.
(** The length of the character that starts with [b]. *)
Definition char_len (b : Z) : nat := if (b <? 128)%Z then 1 else if (b <? 224)%Z then 2 else if (b <? 240)%Z then 3 else 4.
(** [l.remove(i)] *)
Definition str_remove (i : nat) (l : bytes) : option bytes :=
  if is_char_boundary i l then b ← l !! i; Some (take i l ++ drop (i + char_len b) l) else None.
(** [l.truncate(n)] *)
Definition str_truncate (n : nat) (l : bytes) : option bytes :=
  if n <=? length l then (if is_char_boundary n l then Some (take n l) else None) else Some l.
(** [l.replace_range(a..b, r)] *)
Definition str_replace_range (a b : nat) (r l : bytes) : option bytes :=
  if (a <=? b) && is_char_boundary a l && is_char_boundary b l then Some (take a l ++ r ++ drop b l) else None.
(** [l.pop()]: without the last character. *)
Fixpoint skip_cont (l : bytes) : bytes :=
  match l with b :: l' => if utf8_cont b then skip_cont l' else l | [] => [] end.
Definition str_pop (l : bytes) : bytes := reverse (tail (skip_cont (reverse l))).

(** [l.ends_with(p)] *)
Definition ends_with (p l : bytes) : bool := starts_with (reverse p) (reverse l).

(** [l.rfind(p)]: the position of the last occurrence. *)
Fixpoint rfind_sub (p l : bytes) : option nat :=
  match l with
  | [] => if starts_with p [] then Some 0 else None
  | b :: l' =>
      match rfind_sub p l' with
      | Some i => Some (S i)
      | None => if starts_with p l then Some 0 else None
      end
  end.

(** The text between the occurrences of [p], from left to right; an occurrence
    is not empty, so that the length is enough fuel. *)
Fixpoint pieces (fuel : nat) (p l : bytes) : list bytes :=
  match fuel with
  | O => [l]
  | S fuel =>
      match find_sub p l with
      | Some i => take i l :: pieces fuel p (drop (i + length p) l)
      | None => [l]
      end
  end.
(** [parts.join(sep)] *)
Fixpoint join (sep : bytes) (parts : list bytes) : bytes :=
  match parts with
  | [] => []
  | [l] => l
  | l :: ls => l ++ sep ++ join sep ls
  end.
(** [l.matches(p).count()] and [l.replace(p, r)] *)
Definition count_matches (p l : bytes) : nat := length (pieces (length l) p l) - 1.
Definition str_replace (p r l : bytes) : bytes := join r (pieces (length l) p l).

(** ** ASCII *)

Definition ascii (l : bytes) : Prop := Forall (λ b, 0 ≤ b < 128)%Z l.

Lemma ascii_boundary i l : ascii l → is_char_boundary i l = (i <=? length l).
Proof.
  intros Hl. unfold is_char_boundary. destruct (Nat.eqb_spec i 0) as [->|Hi]; [done|]. cbn [orb].
  destruct (l !! i) as [b|] eqn:Hb.
  - pose proof (lookup_lt_Some _ _ _ Hb). unfold ascii in Hl. rewrite Forall_lookup in Hl. pose proof (Hl _ _ Hb). cbn beta in *.
    unfold utf8_cont. rewrite (proj2 (Z.leb_gt 128 b)) by lia. cbn. symmetry. apply Nat.leb_le. lia.
  - apply lookup_ge_None in Hb. destruct (Nat.eqb_spec i (length l)), (Nat.leb_spec i (length l)); done || lia.
Qed.
Lemma ascii_slice a b l : ascii l → a ≤ b ≤ length l → str_slice a b l = Some (take (b - a) (drop a l)).
Proof.
  intros Hl H. unfold str_slice. rewrite !ascii_boundary by done.
  by rewrite (proj2 (Nat.leb_le _ _)), (proj2 (Nat.leb_le _ _)), (proj2 (Nat.leb_le _ _)) by lia.
Qed.
Lemma ascii_from a l : ascii l → a ≤ length l → str_from a l = Some (drop a l).
Proof. intros Hl H. unfold str_from. rewrite ascii_slice by done || lia. by rewrite take_ge by (rewrite length_drop; lia). Qed.
Lemma ascii_to b l : ascii l → b ≤ length l → str_to b l = Some (take b l).
Proof. intros Hl H. unfold str_to. rewrite ascii_slice by done || lia. by rewrite Nat.sub_0_r. Qed.
Lemma ascii_insert i c l : ascii l → i ≤ length l → str_insert i c l = Some (take i l ++ c ++ drop i l).
Proof. intros Hl H. unfold str_insert. rewrite ascii_boundary by done. by rewrite (proj2 (Nat.leb_le _ _)). Qed.
Lemma ascii_remove i l : ascii l → i < length l → str_remove i l = Some (take i l ++ drop (S i) l).
Proof.
  intros Hl H. unfold str_remove. rewrite ascii_boundary by done. rewrite (proj2 (Nat.leb_le _ _)) by lia.
  destruct (lookup_lt_is_Some_2 _ _ H) as [b Hb]. rewrite Hb. cbn. unfold ascii in Hl. rewrite Forall_lookup in Hl.
  pose proof (Hl _ _ Hb). cbn beta in *. unfold char_len. rewrite (proj2 (Z.ltb_lt b 128)) by lia. by rewrite Nat.add_1_r.
Qed.
Lemma ascii_truncate n l : ascii l → str_truncate n l = Some (take n l).
Proof.
  intros Hl. unfold str_truncate. rewrite ascii_boundary by done. destruct (Nat.leb_spec n (length l)); [done|].
  by rewrite take_ge by lia.
Qed.
Lemma ascii_replace_range a b r l : ascii l → a ≤ b ≤ length l → str_replace_range a b r l = Some (take a l ++ r ++ drop b l).
Proof.
  intros Hl H. unfold str_replace_range. rewrite !ascii_boundary by done.
  by rewrite (proj2 (Nat.leb_le _ _)), (proj2 (Nat.leb_le _ _)), (proj2 (Nat.leb_le _ _)) by lia.
Qed.

Lemma ascii_app l1 l2 : ascii (l1 ++ l2) ↔ ascii l1 ∧ ascii l2.
Proof. apply Forall_app. Qed.
Lemma ascii_take n l : ascii l → ascii (take n l).
Proof. apply Forall_take. Qed.
Lemma ascii_drop n l : ascii l → ascii (drop n l).
Proof. apply Forall_drop. Qed.
Lemma ascii_skip_cont l : ascii l → ascii (skip_cont l).
Proof. intros Hl. induction Hl as [|b l Hb Hl IH]; cbn; [constructor|]. destruct (utf8_cont b); [done|]. by constructor. Qed.
Lemma ascii_pop l : ascii l → ascii (str_pop l).
Proof.
  intros Hl. unfold str_pop. apply Forall_reverse. assert (ascii (skip_cont (reverse l))) as H by by apply ascii_skip_cont, Forall_reverse.
  destruct H; [constructor|done].
Qed.
Lemma ascii_pieces fuel p l : ascii l → Forall ascii (pieces fuel p l).
Proof.
  revert l. induction fuel as [|fuel IH]; intros l Hl; cbn; [by repeat constructor|]. destruct (find_sub p l) as [i|]; [|by repeat constructor].
  constructor; [by apply ascii_take|]. by apply IH, ascii_drop.
Qed.
Lemma ascii_join sep parts : ascii sep → Forall ascii parts → ascii (join sep parts).
Proof.
  intros Hs H. induction H as [|l ls Hl Hls IH]; [constructor|]. destruct ls as [|l' ls]; [done|].
  cbn [join]. apply ascii_app. split; [done|]. by apply ascii_app.
Qed.
Lemma ascii_replace p r l : ascii r → ascii l → ascii (str_replace p r l).
Proof. intros Hr Hl. apply ascii_join; [done|]. by apply ascii_pieces. Qed.

(** ** Searching *)

Lemma starts_with_spec p l : starts_with p l = true ↔ ∃ r, l = p ++ r.
Proof.
  unfold starts_with. rewrite bool_decide_eq_true. split.
  - intros H. exists (drop (length p) l). by rewrite <- H at 1; rewrite take_drop.
  - intros [r ->]. apply take_app_length.
Qed.
(** The first occurrence: here, and nowhere before. *)
Lemma find_sub_Some p l i : find_sub p l = Some i →
  (∃ r, drop i l = p ++ r) ∧ i + length p ≤ length l ∧ ∀ j, j < i → starts_with p (drop j l) = false.
Proof.
  revert i. induction l as [|b l IH]; intros i; cbn [find_sub].
  - destruct (starts_with p []) eqn:Hs; [|done]. intros [= <-]. apply starts_with_spec in Hs as [r Hr]. cbn.
    split_and!; [by exists r| |lia]. symmetry in Hr. apply app_eq_nil in Hr as [-> _]. done.
  - destruct (starts_with p (b :: l)) eqn:Hs.
    + intros [= <-]. apply starts_with_spec in Hs as [r Hr]. split_and!; [by exists r| |lia]. rewrite Hr, length_app. lia.
    + destruct (find_sub p l) as [k|] eqn:Hf; [|done]. intros [= <-]. destruct (IH _ eq_refl) as (H1 & H2 & H3). cbn.
      split_and!; [done|lia|]. intros [|j] Hj; [done|]. cbn. apply H3. lia.
Qed.
Lemma find_sub_None p l : find_sub p l = None → ∀ i, i ≤ length l → starts_with p (drop i l) = false.
Proof.
  induction l as [|b l IH]; cbn [find_sub]; intros H i Hi.
  - cbn in Hi. replace i with 0 by lia. cbn [drop]. by destruct (starts_with p []).
  - destruct (starts_with p (b :: l)) eqn:Hs; [done|]. destruct i as [|i]; [done|]. cbn.
    apply IH; [by destruct (find_sub p l)|cbn in Hi; lia].
Qed.
Lemma rfind_sub_Some p l i : rfind_sub p l = Some i → (∃ r, drop i l = p ++ r) ∧ i + length p ≤ length l.
Proof.
  revert i. induction l as [|b l IH]; intros i; cbn [rfind_sub].
  - destruct (starts_with p []) eqn:Hs; [|done]. intros [= <-]. apply starts_with_spec in Hs as [r Hr]. split; [by exists r|].
    symmetry in Hr. apply app_eq_nil in Hr as [-> _]. done.
  - destruct (rfind_sub p l) as [k|]; [intros [= <-]; destruct (IH _ eq_refl); split; [done|cbn; lia]|].
    destruct (starts_with p (b :: l)) eqn:Hs; [|done]. intros [= <-]. apply starts_with_spec in Hs as [r Hr].
    split; [by exists r|]. rewrite Hr, length_app. lia.
Qed.
