(* ===== verification/Editor.v ===== *)
(** * The text editor (kernel/src/editor_app.rs, kernel/src/clipboard.rs)

    A document of lines with a cursor, a selection, undo and redo, search and
    replacement, the keys and the mouse.  Lines are byte strings and positions
    count bytes, as in the code, so that an operation at a position inside of a
    character panics.  The store of files and the clipboard are shared by all
    editors.  [str::to_lowercase] is a parameter. *)
From S2P Require Import Prelude Bytes Text StrOps Keyboard.

(** kernel/src/editor_app.rs:15-19 [MAX_UNDO_STEPS, VISIBLE_ROWS, VISIBLE_COLS] *)
Definition MAX_UNDO_STEPS : nat := 50.
Definition VISIBLE_ROWS : nat := 12.
Definition VISIBLE_COLS : nat := 44.
(** kernel/src/editor_app.rs:14-14 [EDITOR_HEIGHT] *)
Definition EDITOR_HEIGHT : Z := 260.
(** kernel/src/clipboard.rs:10-10 [MAX_CLIPBOARD_BYTES] *)
Definition MAX_CLIPBOARD_BYTES : Z := 65536.

(** kernel/src/editor_app.rs:22-27 [EditorSnapshot] *)
Record EditorSnapshot := mkSnapshot {
  lines : list bytes;
  cursor_row : nat;
  cursor_col : nat;
  is_dirty : bool;
}.
Abbreviation position := (nat * nat)%type.

(** The dialog for finding and replacing — kernel/src/editor_app.rs:45-50 [EditorAppState, search] *)
Record Finder := mkFinder {
  show_find_dialog : bool;
  show_replace_dialog : bool;
  search_query : bytes;
  replace_query : bytes;
  case_sensitive : bool;
  active_input_field : Z;
}.

(** What a snapshot holds is one field, and so is the state of the dialog —
    kernel/src/editor_app.rs:30-54 [EditorAppState] *)
Record EditorAppState := mkEditor {
  ed_window : Z;
  ed_pid : Z;
  file_path : option bytes;
  doc : EditorSnapshot;
  scroll_row : nat;
  scroll_col : nat;
  undo_stack : list EditorSnapshot;
  redo_stack : list EditorSnapshot;
  selection_anchor : option position;
  selection_focus : option position;
  finder : Finder;
  show_unsaved_dialog : bool;
  word_wrap : bool;
  pending_close : bool;
  status_message : bytes;
}.

(** An editor, the store of files and the clipboard —
    kernel/src/editor_app.rs:1180-1180 [GLOBAL_FILE_STORE] *)
Record EditorWorld := mkWorld {
  ed : EditorAppState;
  file_store : gmap bytes (list bytes);
  clipboard : bytes;
}.
Abbreviation M := (comp EditorWorld Empty_set).

Definition edit (f : EditorAppState → EditorAppState) : M unit := modify (λ w, mkWorld (f (ed w)) (file_store w) (clipboard w)).
Definition with_path (x : option bytes) (s : EditorAppState) : EditorAppState :=
  mkEditor (ed_window s) (ed_pid s) x (doc s) (scroll_row s) (scroll_col s) (undo_stack s) (redo_stack s) (selection_anchor s)
    (selection_focus s) (finder s) (show_unsaved_dialog s) (word_wrap s) (pending_close s) (status_message s).
Definition with_doc (x : EditorSnapshot) (s : EditorAppState) : EditorAppState :=
  mkEditor (ed_window s) (ed_pid s) (file_path s) x (scroll_row s) (scroll_col s) (undo_stack s) (redo_stack s) (selection_anchor s)
    (selection_focus s) (finder s) (show_unsaved_dialog s) (word_wrap s) (pending_close s) (status_message s).
Definition with_scroll (r c : nat) (s : EditorAppState) : EditorAppState :=
  mkEditor (ed_window s) (ed_pid s) (file_path s) (doc s) r c (undo_stack s) (redo_stack s) (selection_anchor s)
    (selection_focus s) (finder s) (show_unsaved_dialog s) (word_wrap s) (pending_close s) (status_message s).
Definition with_history (u r : list EditorSnapshot) (s : EditorAppState) : EditorAppState :=
  mkEditor (ed_window s) (ed_pid s) (file_path s) (doc s) (scroll_row s) (scroll_col s) u r (selection_anchor s)
    (selection_focus s) (finder s) (show_unsaved_dialog s) (word_wrap s) (pending_close s) (status_message s).
Definition with_selection (a f : option position) (s : EditorAppState) : EditorAppState :=
  mkEditor (ed_window s) (ed_pid s) (file_path s) (doc s) (scroll_row s) (scroll_col s) (undo_stack s) (redo_stack s) a
    f (finder s) (show_unsaved_dialog s) (word_wrap s) (pending_close s) (status_message s).
Definition with_finder (x : Finder) (s : EditorAppState) : EditorAppState :=
  mkEditor (ed_window s) (ed_pid s) (file_path s) (doc s) (scroll_row s) (scroll_col s) (undo_stack s) (redo_stack s) (selection_anchor s)
    (selection_focus s) x (show_unsaved_dialog s) (word_wrap s) (pending_close s) (status_message s).
Definition with_unsaved (x : bool) (s : EditorAppState) : EditorAppState :=
  mkEditor (ed_window s) (ed_pid s) (file_path s) (doc s) (scroll_row s) (scroll_col s) (undo_stack s) (redo_stack s) (selection_anchor s)
    (selection_focus s) (finder s) x (word_wrap s) (pending_close s) (status_message s).
Definition with_wrap (x : bool) (s : EditorAppState) : EditorAppState :=
  mkEditor (ed_window s) (ed_pid s) (file_path s) (doc s) (scroll_row s) (scroll_col s) (undo_stack s) (redo_stack s) (selection_anchor s)
    (selection_focus s) (finder s) (show_unsaved_dialog s) x (pending_close s) (status_message s).
Definition with_close (x : bool) (s : EditorAppState) : EditorAppState :=
  mkEditor (ed_window s) (ed_pid s) (file_path s) (doc s) (scroll_row s) (scroll_col s) (undo_stack s) (redo_stack s) (selection_anchor s)
    (selection_focus s) (finder s) (show_unsaved_dialog s) (word_wrap s) x (status_message s).
Definition with_status (x : bytes) (s : EditorAppState) : EditorAppState :=
  mkEditor (ed_window s) (ed_pid s) (file_path s) (doc s) (scroll_row s) (scroll_col s) (undo_stack s) (redo_stack s) (selection_anchor s)
    (selection_focus s) (finder s) (show_unsaved_dialog s) (word_wrap s) (pending_close s) x.

Definition get_ed : M EditorAppState := gets ed.
Definition get_doc : M EditorSnapshot := gets (λ w, doc (ed w)).
Definition set_doc (x : EditorSnapshot) : M unit := edit (with_doc x).
Definition status (x : bytes) : M unit := edit (with_status x).
Definition on_finder (f : Finder → Finder) : M unit := edit (λ s, with_finder (f (finder s)) s).
Definition clear_selection : M unit := edit (with_selection None None).

(** ** The clipboard *)

(** kernel/src/clipboard.rs:23-31 [Clipboard::set_text] *)
Definition copy_to_clipboard (text : bytes) : M unit :=
  clamped ← (if (MAX_CLIPBOARD_BYTES <? Z.of_nat (length text))%Z then unwrap (str_to (Z.to_nat MAX_CLIPBOARD_BYTES) text) else mret text);
  modify (λ w, mkWorld (ed w) (file_store w) clamped).
(** kernel/src/clipboard.rs:33-35 [Clipboard::get_text] *)
Definition get_clipboard_text : M bytes := gets clipboard.

(** ** Scrolling and history *)

(** kernel/src/editor_app.rs:410-428 [ensure_cursor_visible] *)
Definition scrolled (s : EditorAppState) : EditorAppState :=
  let row := cursor_row (doc s) in
  let col := cursor_col (doc s) in
  let r := if row <? scroll_row s then row
           else if scroll_row s + VISIBLE_ROWS <=? row then row - (VISIBLE_ROWS - 1) else scroll_row s in
  let c := if word_wrap s then 0
           else if col <? scroll_col s then col
           else if scroll_col s + VISIBLE_COLS <=? col then col - (VISIBLE_COLS - 1) else scroll_col s in
  with_scroll r c s.
Definition ensure_cursor_visible : M unit := edit scrolled.

(** kernel/src/editor_app.rs:100-113 [push_undo_snapshot] *)
Definition push_undo_snapshot : M unit :=
  edit (λ s,
    let u := if MAX_UNDO_STEPS <=? length (undo_stack s) then drop 1 (undo_stack s) else undo_stack s in
    with_history (u ++ [doc s]) [] s).

(** kernel/src/editor_app.rs:115-134 [undo] *)
Definition undo : M unit :=
  s ← get_ed;
  match last (undo_stack s) with
  | Some prev =>
      edit (λ s, with_doc prev (with_history (take (length (undo_stack s) - 1) (undo_stack s)) (redo_stack s ++ [doc s]) s));;
      ensure_cursor_visible;; status (str "Undo")
  | None => status (str "Already at oldest change")
  end.

(** kernel/src/editor_app.rs:136-155 [redo] *)
Definition redo : M unit :=
  s ← get_ed;
  match last (redo_stack s) with
  | Some next =>
      edit (λ s, with_doc next (with_history (undo_stack s ++ [doc s]) (take (length (redo_stack s) - 1) (redo_stack s)) s));;
      ensure_cursor_visible;; status (str "Redo")
  | None => status (str "Already at newest change")
  end.

(** ** Files *)

(** The text of a file that is not in the store — kernel/src/editor_app.rs:175-197 [open_file, seeded] *)
Definition seeded_lines (path : bytes) : list bytes :=
  if ends_with (str "notes.txt") path then
    [str "SparkOS V1.40 Desktop Notes"; str "- Full Window Manager 2.0 active"; str "- Real File Manager & Clipboard active";
     str "- Editor 3.0: Search, Replace & Word Wrap";
     str "- T" ++ [195; 188]%Z ++ str "rk" ++ [195; 167]%Z ++ str "e karakter deste" ++ [196; 159]%Z ++ str "i: "
     ++ [195; 167; 32; 196; 159; 32; 196; 177; 32; 196; 176; 32; 195; 182; 32; 197; 159; 32; 195; 188]%Z]
  else if ends_with (str "main.rs") path then
    [str "fn main() {"; str "    println!(" ++ [34%Z] ++ str "Hello SparkOS 3.0!" ++ [34%Z] ++ str ");"; str "}"]
  else if ends_with (str "config.toml") path then
    [str "[desktop]"; str "theme = " ++ [34%Z] ++ str "dark" ++ [34%Z]; str "font_size = 14"; str "word_wrap = true"]
  else [str "// File: " ++ path; []].

Definition store_file (path : bytes) (ls : list bytes) : M unit :=
  modify (λ w, mkWorld (ed w) (<[path := ls]> (file_store w)) (clipboard w)).

(** kernel/src/editor_app.rs:157-204 [open_file] *)
Definition open_file (path : bytes) : M unit :=
  if mentions (str "//") path then status (str "Invalid path format")
  else
    edit (λ s, with_history [] [] (with_path (Some path) s));;
    w ← get;
    ls ← (match file_store w !! path with
          | Some ls => mret ls
          | None => store_file path (seeded_lines path);; mret (seeded_lines path)
          end);
    edit (λ s, with_scroll 0 0 (with_doc (mkSnapshot ls 0 0 false) s));;
    status (str "Opened '" ++ path ++ str "'").

(** kernel/src/editor_app.rs:206-218 [save_file] *)
Definition save_file : M unit :=
  s ← get_ed;
  let path := default (str "/home/teha/untitled.txt") (file_path s) in
  edit (with_path (Some path));;
  d ← get_doc;
  store_file path (lines d);;
  set_doc (mkSnapshot (lines d) (cursor_row d) (cursor_col d) false);;
  status (str "Saved '" ++ path ++ str "' (" ++ decimal (Z.of_nat (length (lines d))) ++ str " lines)").

(** kernel/src/editor_app.rs:220-225 [save_as] *)
Definition save_as (new_path : bytes) : M unit :=
  edit (with_path (Some new_path));;
  d ← get_doc;
  store_file new_path (lines d);;
  set_doc (mkSnapshot (lines d) (cursor_row d) (cursor_col d) false);;
  status (str "Saved as '" ++ new_path ++ str "'").

(** kernel/src/editor_app.rs:227-239 [new_document] *)
Definition new_document : M unit :=
  push_undo_snapshot;;
  edit (λ s, with_selection None None (with_scroll 0 0 (with_doc (mkSnapshot [[]] 0 0 false) (with_path None s))));;
  status (str "New document").

(** kernel/src/editor_app.rs:57-98 [EditorAppState::new] *)
Definition editor_new (window_id pid : Z) (initial_path : option bytes) : comp EditorWorld Empty_set unit :=
  edit (λ _, mkEditor window_id pid initial_path (mkSnapshot [[]] 0 0 false) 0 0 [] [] None None (mkFinder false false [] [] false 0)
    false false false (str "Ready"));;
  match initial_path with
  | Some path => open_file path
  | None => set_doc (mkSnapshot [str "// SparkOS Text Editor 3.0"; str "Welcome to editor.app!"; []] 2 0 false)
  end.

(** kernel/src/editor_app.rs:241-245 [toggle_word_wrap] *)
Definition toggle_word_wrap : M unit :=
  edit (λ s, with_scroll (scroll_row s) 0 (with_wrap (negb (word_wrap s)) s));;
  s ← get_ed; status (str "Word Wrap: " ++ (if word_wrap s then str "ON" else str "OFF")).

(** kernel/src/editor_app.rs:247-250 [toggle_case_sensitive] *)
Definition toggle_case_sensitive : M unit :=
  on_finder (λ f, mkFinder (show_find_dialog f) (show_replace_dialog f) (search_query f) (replace_query f) (negb (case_sensitive f)) (active_input_field f));;
  s ← get_ed; status (str "Match Case: " ++ (if case_sensitive (finder s) then str "ON" else str "OFF")).

Section editor.
(** [str::to_lowercase] *)
Context (to_lowercase : bytes → bytes).

(** ** Finding and replacing *)

Definition folded (f : Finder) (l : bytes) : bytes := if case_sensitive f then l else to_lowercase l.
Definition show (n : nat) : bytes := decimal (Z.of_nat n).

(** The rows from that of the cursor, and round — kernel/src/editor_app.rs:268-288 [find_next, loop] *)
Fixpoint next_match (s : EditorAppState) (query : bytes) (rounds : list nat) : M (option position) :=
  match rounds with
  | [] => mret None
  | i :: rounds =>
      let d := doc s in
      let r := ((cursor_row d + i) mod length (lines d))%nat in
      l ← unwrap (lines d !! r);
      let line_content := folded (finder s) l in
      let search_start := if i =? 0 then (cursor_col d + 1) `min` length line_content else 0 in
      rest ← unwrap (str_from search_start line_content);
      match find_sub query rest with
      | Some pos => mret (Some (r, search_start + pos))
      | None => next_match s query rounds
      end
  end.

(** The cursor behind the match, which is selected. *)
Definition go_to_match (r c n : nat) : M unit :=
  d ← get_doc;
  set_doc (mkSnapshot (lines d) r (c + n) (is_dirty d));;
  edit (with_selection (Some (r, c)) (Some (r, c + n)));;
  ensure_cursor_visible;;
  status (str "Match found at Ln " ++ show (r + 1) ++ str ", Col " ++ show (c + 1)).
Definition not_found (what tail : bytes) : M unit := status (str "Pattern '" ++ what ++ str "' not found" ++ tail).
Definition no_search (s : EditorAppState) : bool := bool_decide (search_query (finder s) = []) || bool_decide (lines (doc s) = []).

(** kernel/src/editor_app.rs:252-293 [find_next] *)
Definition find_next : M bool :=
  s ← get_ed;
  if no_search s then status (str "Empty search term");; mret false
  else
    let query := folded (finder s) (search_query (finder s)) in
    found ← next_match s query (seq 0 (length (lines (doc s))));
    match found with
    | Some (r, c) => go_to_match r c (length query);; mret true
    | None => not_found (search_query (finder s)) [];; mret false
    end.

(** The rows from that of the cursor, upwards and round — kernel/src/editor_app.rs:309-328 [find_previous, loop] *)
Fixpoint previous_match (s : EditorAppState) (query : bytes) (rounds : list nat) : M (option position) :=
  match rounds with
  | [] => mret None
  | i :: rounds =>
      let d := doc s in
      let start_row := cursor_row d in
      let r := if i <=? start_row then start_row - i else length (lines d) - (i - start_row) in
      l ← unwrap (lines d !! r);
      let line_content := folded (finder s) l in
      let search_end := if i =? 0 then cursor_col d - length query else length line_content in
      found ← (if (0 <? search_end) && (search_end <=? length line_content)
               then part ← unwrap (str_to search_end line_content); mret (rfind_sub query part) else mret None);
      match found with
      | Some pos => mret (Some (r, pos))
      | None => previous_match s query rounds
      end
  end.

(** kernel/src/editor_app.rs:295-334 [find_previous] *)
Definition find_previous : M bool :=
  s ← get_ed;
  if no_search s then status (str "Empty search term");; mret false
  else
    let query := folded (finder s) (search_query (finder s)) in
    found ← previous_match s query (seq 0 (length (lines (doc s))));
    match found with
    | Some (r, c) => go_to_match r c (length query);; mret true
    | None => not_found (search_query (finder s)) [];; mret false
    end.

(** kernel/src/editor_app.rs:336-362 [replace_current] *)
Definition replace_current : M bool :=
  s ← get_ed;
  if bool_decide (search_query (finder s) = []) then mret false
  else
    match selection_anchor s, selection_focus s with
    | Some (ar, ac), Some (fr, fc) =>
        if (ar =? fr) && (ar <? length (lines (doc s))) then
          push_undo_snapshot;;
          let start_c := if ac <? fc then ac else fc in
          let end_c := if ac <? fc then fc else ac in
          line ← unwrap (lines (doc s) !! ar);
          if (start_c <=? length line) && (end_c <=? length line) then
            let replacement := replace_query (finder s) in
            line ← unwrap (str_replace_range start_c end_c replacement line);
            set_doc (mkSnapshot (<[ar := line]> (lines (doc s))) ar (start_c + length replacement) true);;
            clear_selection;; ensure_cursor_visible;;
            status (str "Replaced 1 match");;
            _ ← find_next; mret true
          else find_next
        else find_next
    | _, _ => find_next
    end.

(** Positions are found in the lower-case line and used in the line —
    kernel/src/editor_app.rs:385-391 [replace_all, loop] *)
Fixpoint replace_folded (fuel : nat) (line lower_line lower_query replacement : bytes) (last_idx : nat) (new_line : bytes) (count : nat)
  : M (bytes * nat) :=
  rest ← unwrap (str_from last_idx lower_line);
  match find_sub lower_query rest with
  | Some pos =>
      match fuel with
      | O => panic
      | S fuel =>
          let match_start := last_idx + pos in
          part ← unwrap (str_slice last_idx match_start line);
          replace_folded fuel line lower_line lower_query replacement (match_start + length lower_query) (new_line ++ part ++ replacement) (S count)
      end
  | None => rest ← unwrap (str_from last_idx line); mret (new_line ++ rest, count)
  end.

(** kernel/src/editor_app.rs:372-394 [replace_all, line] *)
Definition replace_line (f : Finder) (line : bytes) : M (bytes * nat) :=
  let query := search_query f in
  let replacement := replace_query f in
  if case_sensitive f then
    let matches := count_matches query line in
    mret ((if 0 <? matches then str_replace query replacement line else line), matches)
  else
    let lower_line := to_lowercase line in
    replace_folded (length lower_line) line lower_line (to_lowercase query) replacement 0 [] 0.
Fixpoint replace_lines (f : Finder) (ls : list bytes) : M (list bytes * nat) :=
  match ls with
  | [] => mret ([], 0)
  | l :: ls =>
      '(l, n) ← replace_line f l;
      '(ls, k) ← replace_lines f ls;
      mret (l :: ls, n + k)
  end.

(** kernel/src/editor_app.rs:364-408 [replace_all] *)
Definition replace_all : M nat :=
  s ← get_ed;
  if no_search s then mret 0
  else
    push_undo_snapshot;;
    '(ls, count) ← replace_lines (finder s) (lines (doc s));
    let d := doc s in
    (if 0 <? count then
       set_doc (mkSnapshot ls (cursor_row d) (cursor_col d) true);; clear_selection;; ensure_cursor_visible;;
       status (str "Replaced " ++ show count ++ str " occurrence(s)")
     else
       set_doc (mkSnapshot ls (cursor_row d) (cursor_col d) (is_dirty d));;
       not_found (search_query (finder s)) (str " for replace"));;
    mret count.
End editor.

(** ** Typing *)

(** A line of its own for a cursor below the document —
    kernel/src/editor_app.rs:432-435 [insert_char, below] *)
Definition line_at_cursor : M unit :=
  d ← get_doc;
  if length (lines d) <=? cursor_row d
  then set_doc (mkSnapshot (lines d ++ [[]]) (length (lines d)) (cursor_col d) (is_dirty d))
  else mret tt.
(** What ends an edit. *)
Definition edited : M unit := clear_selection;; ensure_cursor_visible.

(** [c] is the encoding of the character — kernel/src/editor_app.rs:430-449 [insert_char] *)
Definition insert_char (c : bytes) : M unit :=
  push_undo_snapshot;; line_at_cursor;;
  d ← get_doc;
  line ← unwrap (lines d !! cursor_row d);
  (if length line <=? cursor_col d
   then set_doc (mkSnapshot (<[cursor_row d := line ++ c]> (lines d)) (cursor_row d) (length (line ++ c)) true)
   else
     line ← unwrap (str_insert (cursor_col d) c line);
     set_doc (mkSnapshot (<[cursor_row d := line]> (lines d)) (cursor_row d) (cursor_col d + 1) true));;
  edited.

(** kernel/src/editor_app.rs:451-473 [insert_newline] *)
Definition insert_newline : M unit :=
  push_undo_snapshot;; line_at_cursor;;
  d ← get_doc;
  line ← unwrap (lines d !! cursor_row d);
  right_split ← (if cursor_col d <? length line then unwrap (str_from (cursor_col d) line) else mret []);
  left ← unwrap (str_truncate (cursor_col d) line);
  let ls := <[cursor_row d := left]> (lines d) in
  set_doc (mkSnapshot (take (cursor_row d + 1) ls ++ [right_split] ++ drop (cursor_row d + 1) ls) (cursor_row d + 1) 0 true);;
  edited.

(** [v.remove(i)] *)
Definition remove_line (i : nat) (ls : list bytes) : M (bytes * list bytes) :=
  l ← unwrap (ls !! i); mret (l, delete i ls).

(** kernel/src/editor_app.rs:475-498 [delete_backward] *)
Definition delete_backward : M unit :=
  d ← get_doc;
  (if 0 <? cursor_col d then
     push_undo_snapshot;;
     match lines d !! cursor_row d with
     | Some line =>
         if cursor_col d <=? length line then
           line ← unwrap (str_remove (cursor_col d - 1) line);
           set_doc (mkSnapshot (<[cursor_row d := line]> (lines d)) (cursor_row d) (cursor_col d - 1) true)
         else mret tt
     | None => mret tt
     end
   else if 0 <? cursor_row d then
     push_undo_snapshot;;
     '(removed_line, ls) ← remove_line (cursor_row d) (lines d);
     prev ← unwrap (ls !! (cursor_row d - 1));
     set_doc (mkSnapshot (<[cursor_row d - 1 := prev ++ removed_line]> ls) (cursor_row d - 1) (length prev) true)
   else mret tt);;
  edited.

(** kernel/src/editor_app.rs:500-517 [delete_forward] *)
Definition delete_forward : M unit :=
  d ← get_doc;
  match lines d !! cursor_row d with
  | Some line =>
      if cursor_col d <? length line then
        push_undo_snapshot;;
        line ← unwrap (str_remove (cursor_col d) line);
        set_doc (mkSnapshot (<[cursor_row d := line]> (lines d)) (cursor_row d) (cursor_col d) true)
      else if cursor_row d + 1 <? length (lines d) then
        push_undo_snapshot;;
        '(next_line, ls) ← remove_line (cursor_row d + 1) (lines d);
        set_doc (mkSnapshot (<[cursor_row d := line ++ next_line]> ls) (cursor_row d) (cursor_col d) true)
      else mret tt
  | None => mret tt
  end;;
  edited.

(** ** Moving *)

(** The selection before and after a move — kernel/src/editor_app.rs:519-538 [move_left, selection] *)
Definition moving (select : bool) (move : EditorSnapshot → M position) : M unit :=
  s ← get_ed;
  let d := doc s in
  let anchor := if select then Some (default (cursor_row d, cursor_col d) (selection_anchor s)) else None in
  '(r, c) ← move d;
  set_doc (mkSnapshot (lines d) r c (is_dirty d));;
  edit (with_selection anchor (if select then Some (r, c) else None));;
  ensure_cursor_visible.
(** [self.lines[r].len()] *)
Definition line_len (d : EditorSnapshot) (r : nat) : M nat := l ← unwrap (lines d !! r); mret (length l).

(** kernel/src/editor_app.rs:519-538 [move_left] *)
Definition move_left (select : bool) : M unit := moving select (λ d,
  if 0 <? cursor_col d then mret (cursor_row d, cursor_col d - 1)
  else if 0 <? cursor_row d then n ← line_len d (cursor_row d - 1); mret (cursor_row d - 1, n)
  else mret (cursor_row d, cursor_col d)).
(** kernel/src/editor_app.rs:540-561 [move_right] *)
Definition move_right (select : bool) : M unit := moving select (λ d,
  if cursor_row d <? length (lines d) then
    n ← line_len d (cursor_row d);
    mret (if cursor_col d <? n then (cursor_row d, cursor_col d + 1)
          else if cursor_row d + 1 <? length (lines d) then (cursor_row d + 1, 0) else (cursor_row d, cursor_col d))
  else mret (cursor_row d, cursor_col d)).
(** kernel/src/editor_app.rs:563-580 [move_up] *)
Definition move_up (select : bool) : M unit := moving select (λ d,
  if 0 <? cursor_row d then n ← line_len d (cursor_row d - 1); mret (cursor_row d - 1, cursor_col d `min` n)
  else mret (cursor_row d, cursor_col d)).
(** kernel/src/editor_app.rs:582-599 [move_down] *)
Definition move_down (select : bool) : M unit := moving select (λ d,
  if cursor_row d + 1 <? length (lines d) then n ← line_len d (cursor_row d + 1); mret (cursor_row d + 1, cursor_col d `min` n)
  else mret (cursor_row d, cursor_col d)).
(** kernel/src/editor_app.rs:601-613 [move_home] *)
Definition move_home (select : bool) : M unit := moving select (λ d, mret (cursor_row d, 0)).
(** kernel/src/editor_app.rs:615-629 [move_end] *)
Definition move_end (select : bool) : M unit := moving select (λ d,
  if cursor_row d <? length (lines d) then n ← line_len d (cursor_row d); mret (cursor_row d, n) else mret (cursor_row d, cursor_col d)).

(** The last row and its length, of a document that may be empty. *)
Definition document_end (d : EditorSnapshot) : position := (length (lines d) - 1, from_option length 0 (last (lines d))).
(** kernel/src/editor_app.rs:631-637 [move_document_start] *)
Definition move_document_start : M unit := moving false (λ _, mret (0, 0)).
(** kernel/src/editor_app.rs:639-645 [move_document_end] *)
Definition move_document_end : M unit := moving false (λ d, mret (document_end d)).
(** kernel/src/editor_app.rs:647-655 [select_all] *)
Definition select_all : M unit :=
  d ← get_doc;
  let '(r, c) := document_end d in
  edit (with_selection (Some (0, 0)) (Some (r, c)));;
  set_doc (mkSnapshot (lines d) r c (is_dirty d));;
  ensure_cursor_visible.

(** ** Cutting and pasting *)

(** The ends of a selection in order: positions are compared as pairs. *)
Definition before (p q : position) : bool := (p.1 <? q.1) || ((p.1 =? q.1) && (p.2 <=? q.2)).
Definition ordered (p q : position) : position * position := if before p q then (p, q) else (q, p).

(** The text of the rows of a selection; it ends with the document —
    kernel/src/editor_app.rs:661-672 [copy_selection, loop] *)
Fixpoint extract (d : EditorSnapshot) (from to : position) (rows : list nat) : M bytes :=
  match rows with
  | [] => mret []
  | r :: rows =>
      match lines d !! r with
      | None => mret []
      | Some line =>
          let c_start := if r =? from.1 then from.2 `min` length line else 0 in
          let c_end := if r =? to.1 then to.2 `min` length line else length line in
          part ← (if (c_start <=? c_end) && (c_start <=? length line) then unwrap (str_slice c_start c_end line) else mret []);
          rest ← extract d from to rows;
          mret (part ++ (if r <? to.1 then newline else []) ++ rest)
      end
  end.

(** kernel/src/editor_app.rs:657-679 [copy_selection] *)
Definition copy_selection : M unit :=
  s ← get_ed;
  let d := doc s in
  match selection_anchor s, selection_focus s with
  | Some anchor, Some focus =>
      let '(from, to) := ordered anchor focus in
      extracted ← extract d from to (seq from.1 (to.1 + 1 - from.1));
      copy_to_clipboard extracted;; status (str "Selection copied to clipboard")
  | _, _ =>
      match lines d !! cursor_row d with
      | Some line => copy_to_clipboard line;; status (str "Current line copied to clipboard")
      | None => mret tt
      end
  end.

(** The document without the selection — kernel/src/editor_app.rs:684-704 [cut_selection, removal] *)
Definition without (d : EditorSnapshot) (from to : position) : M EditorSnapshot :=
  if (from.1 =? to.1) && (from.1 <? length (lines d)) then
    line ← unwrap (lines d !! from.1);
    let c1 := from.2 `min` length line in
    let c2 := to.2 `min` length line in
    left ← unwrap (str_to c1 line);
    right ← unwrap (str_from c2 line);
    mret (mkSnapshot (<[from.1 := left ++ right]> (lines d)) from.1 c1 (is_dirty d))
  else if (from.1 <? to.1) && (to.1 <? length (lines d)) then
    first ← unwrap (lines d !! from.1);
    first_part ← unwrap (str_to (from.2 `min` length first) first);
    last ← unwrap (lines d !! to.1);
    last_part ← unwrap (str_from (to.2 `min` length last) last);
    mret (mkSnapshot (take from.1 (lines d) ++ [first_part ++ last_part] ++ drop (to.1 + 1) (lines d)) from.1 from.2 (is_dirty d))
  else mret d.

(** kernel/src/editor_app.rs:681-723 [cut_selection] *)
Definition cut_selection : M unit :=
  push_undo_snapshot;;
  copy_selection;;
  s ← get_ed;
  let d := doc s in
  match selection_anchor s, selection_focus s with
  | Some anchor, Some focus =>
      let '(from, to) := ordered anchor focus in
      d ← without d from to;
      set_doc (mkSnapshot (lines d) (cursor_row d) (cursor_col d) true);;
      clear_selection;; ensure_cursor_visible;; status (str "Cut selection to clipboard")
  | _, _ =>
      if cursor_row d <? length (lines d) then
        (if 1 <? length (lines d) then
           let ls := delete (cursor_row d) (lines d) in
           set_doc (mkSnapshot ls (if length ls <=? cursor_row d then length ls - 1 else cursor_row d) 0 true)
         else set_doc (mkSnapshot (<[0 := []]> (lines d)) (cursor_row d) 0 true));;
        ensure_cursor_visible;; status (str "Cut current line")
      else mret tt
  end.

(** A character of the text that is pasted: of those beyond ASCII every byte is
    skipped — kernel/src/editor_app.rs:728-734 [paste_clipboard, loop] *)
Definition paste_char (c : Z) : M unit :=
  if (c =? 10)%Z then insert_newline
  else if ((32 <=? c) && (c <=? 126))%Z then insert_char [c]
  else mret tt.
(** kernel/src/editor_app.rs:725-737 [paste_clipboard] *)
Definition paste_clipboard : M unit :=
  push_undo_snapshot;;
  text ← get_clipboard_text;
  for_each text paste_char;;
  ensure_cursor_visible;; status (str "Pasted from clipboard").

(** ** Keys and clicks *)

Definition set_find (find replace : bool) (field : Z) (f : Finder) : Finder :=
  mkFinder find replace (search_query f) (replace_query f) (case_sensitive f) field.
(** The field that has the input. *)
Definition on_field (g : bytes → bytes) (f : Finder) : Finder :=
  if (active_input_field f =? 1)%Z
  then mkFinder (show_find_dialog f) (show_replace_dialog f) (g (search_query f)) (replace_query f) (case_sensitive f) (active_input_field f)
  else mkFinder (show_find_dialog f) (show_replace_dialog f) (search_query f) (g (replace_query f)) (case_sensitive f) (active_input_field f).
Definition ignore_result {A} (m : M A) : M unit := _ ← m; mret tt.
Definition close_dialog (close : bool) : M unit := edit (λ s, with_close (close || pending_close s) (with_unsaved false s)).

(** A character that can be typed. *)
Definition typed (key_code : Z) (is_shift : bool) : option Z :=
  c ← scancode_to_ascii key_code is_shift;
  if ((32 <=? c) && (c <=? 126))%Z then Some c else None.

(** kernel/src/editor_app.rs:746-761 [handle_key_input, dialog] *)
Definition dialog_key (key_code : Z) : M unit :=
  match key_code with
  | 31 | 28 => save_file;; close_dialog true
  | 32 | 14 => close_dialog true
  | 1 => close_dialog false;; status (str "Close cancelled")
  | _ => mret tt
  end%Z.

Section keys.
Context (to_lowercase : bytes → bytes).

(** kernel/src/editor_app.rs:766-811 [handle_key_input, field] *)
Definition field_key (key_code : Z) (is_shift : bool) : M unit :=
  s ← get_ed;
  let f := finder s in
  match key_code with
  | 1 => on_finder (set_find false false 0)
  | 15 =>
      if show_replace_dialog f
      then on_finder (λ f, set_find (show_find_dialog f) (show_replace_dialog f) (if (active_input_field f =? 1)%Z then 2 else 1) f)
      else mret tt
  | 28 =>
      if is_shift then ignore_result (find_previous to_lowercase)
      else if (active_input_field f =? 2)%Z then ignore_result (replace_current to_lowercase)
      else ignore_result (find_next to_lowercase)
  | 14 => on_finder (on_field str_pop)
  | _ => match typed key_code is_shift with Some c => on_finder (on_field (λ q, q ++ [c])) | None => mret tt end
  end%Z.

(** kernel/src/editor_app.rs:814-857 [handle_key_input, control] *)
Definition control_key (key_code : Z) : M unit :=
  match key_code with
  | 33 => on_finder (set_find true false 1)
  | 35 => on_finder (set_find true true 1)
  | 17 => toggle_word_wrap
  | 44 => undo
  | 21 => redo
  | 31 => save_file
  | 46 => copy_selection
  | 45 => cut_selection
  | 47 => paste_clipboard
  | 30 => select_all
  | 71 => move_document_start
  | 79 => move_document_end
  | _ => mret tt
  end%Z.

(** kernel/src/editor_app.rs:858-895 [handle_key_input, plain] *)
Definition plain_key (key_code : Z) (is_shift : bool) : M unit :=
  match key_code with
  | 28 => insert_newline
  | 14 => delete_backward
  | 83 => delete_forward
  | 75 => move_left is_shift
  | 77 => move_right is_shift
  | 72 => move_up is_shift
  | 80 => move_down is_shift
  | 71 => move_home is_shift
  | 79 => move_end is_shift
  | _ => match typed key_code is_shift with Some c => insert_char [c] | None => mret tt end
  end%Z.

(** kernel/src/editor_app.rs:739-896 [handle_key_input] *)
Definition handle_key_input (key_code : Z) (pressed is_ctrl is_shift : bool) : M unit :=
  if negb pressed then mret tt
  else
    s ← get_ed;
    if show_unsaved_dialog s then dialog_key key_code
    else if ((active_input_field (finder s) =? 1) || (active_input_field (finder s) =? 2))%Z then field_key key_code is_shift
    else if is_ctrl then control_key key_code
    else plain_key key_code is_shift.

Definition within (a x b : Z) : bool := ((a <=? x) && (x <=? b))%Z.

(** kernel/src/editor_app.rs:900-925 [handle_mouse_click, dialog] *)
Definition dialog_click (local_x local_y win_w win_h : Z) : M unit :=
  let dx := (saturating_sub win_w 250 / 2)%Z in
  let dy := (saturating_sub win_h 104 / 2)%Z in
  if within (dy + 64) local_y (dy + 88) then
    if within (dx + 12) local_x (dx + 72) then save_file;; close_dialog true
    else if within (dx + 84) local_x (dx + 154) then close_dialog true
    else if within (dx + 166) local_x (dx + 232) then close_dialog false;; status (str "Close cancelled")
    else mret tt
  else mret tt.

(** A click in the text — kernel/src/editor_app.rs:990-1005 [handle_mouse_click, text] *)
Definition text_click (local_x local_y : Z) : M unit :=
  s ← get_ed;
  let text_start_y := (if show_find_dialog (finder s) then 58 else 30)%Z in
  if ((text_start_y <=? local_y) && (local_y <? EDITOR_HEIGHT - 18))%Z then
    let target_row := (scroll_row s + Z.to_nat ((local_y - text_start_y) / 16))%nat in
    match lines (doc s) !! target_row with
    | Some line =>
        let col_offset := Z.to_nat (if (34 <=? local_x)%Z then (local_x - 34) / 8 else 0) in
        let target_col := if word_wrap s then col_offset else scroll_col s + col_offset in
        let c := target_col `min` length line in
        set_doc (mkSnapshot (lines (doc s)) target_row c (is_dirty (doc s)));;
        edit (with_selection (Some (target_row, c)) None);;
        on_finder (λ f, set_find (show_find_dialog f) (show_replace_dialog f) 0 f)
    | None => mret tt
    end
  else mret tt.

(** The buttons of the search bar, if the click is on one —
    kernel/src/editor_app.rs:954-987 [handle_mouse_click, search bar] *)
Definition find_click (local_x : Z) (f : Finder) : option (M unit) :=
  if within 6 local_x 140 then Some (on_finder (λ f, set_find (show_find_dialog f) (show_replace_dialog f) 1 f))
  else if within 146 local_x 186 then Some (ignore_result (find_next to_lowercase))
  else if within 190 local_x 230 then Some (ignore_result (find_previous to_lowercase))
  else if within 234 local_x 264 then Some toggle_case_sensitive
  else if show_replace_dialog f && within 268 local_x 350 then Some (ignore_result (replace_all to_lowercase))
  else if within 380 local_x 414 then Some (on_finder (set_find false false 0))
  else None.
(** The buttons of the tool bar — kernel/src/editor_app.rs:928-951 [handle_mouse_click, tool bar] *)
Definition tool_click (local_x : Z) : option (M unit) :=
  if within 6 local_x 54 then Some save_file
  else if within 58 local_x 100 then Some new_document
  else if within 104 local_x 150 then Some toggle_word_wrap
  else if within 154 local_x 196 then
    Some (on_finder (λ f, let b := negb (show_find_dialog f) in set_find b (b && show_replace_dialog f) (if b then 1 else 0)%Z f))
  else None.

(** kernel/src/editor_app.rs:898-1006 [handle_mouse_click] *)
Definition handle_mouse_click (local_x local_y win_w win_h : Z) : M unit :=
  s ← get_ed;
  if show_unsaved_dialog s then dialog_click local_x local_y win_w win_h
  else
    match (if within 4 local_y 24 then tool_click local_x else None) with
    | Some action => action
    | None =>
        match (if show_find_dialog (finder s) && within 28 local_y 54 then find_click local_x (finder s) else None) with
        | Some action => action
        | None => text_click local_x local_y
        end
    end.
End keys.
