(* ===== verification/EditorProps.v ===== *)
(** * The text editor: properties

    On plain text no key and no click makes the editor panic; typing, deleting
    and moving act on the text as one string with an offset, and so do cutting
    and pasting; an edit can be undone and done again. *)
From S2P Require Import Prelude Bytes Text StrOps Keyboard Editor.

(** ** Plain documents *)

(** ASCII without line breaks. *)
Definition plain (l : bytes) : Prop := Forall (λ b, 0 ≤ b < 128 ∧ b ≠ 10)%Z l.

Record doc_ok (d : EditorSnapshot) : Prop := {
  d_plain : Forall plain (lines d);
  d_row : cursor_row d < length (lines d);
}.
Record ed_ok (s : EditorAppState) : Prop := {
  e_doc : doc_ok (doc s);
  e_undo : Forall doc_ok (undo_stack s);
  e_redo : Forall doc_ok (redo_stack s);
  e_steps : length (undo_stack s) + length (redo_stack s) ≤ MAX_UNDO_STEPS;
  e_search : plain (search_query (finder s));
  e_replace : plain (replace_query (finder s));
}.

Lemma plain_ascii l : plain l → ascii l.
Proof. intros H. eapply Forall_impl; [exact H|]. by intros b [? _]. Qed.
Lemma plain_app l1 l2 : plain l1 → plain l2 → plain (l1 ++ l2).
Proof. apply Forall_app_2. Qed.
Lemma plain_take n l : plain l → plain (take n l).
Proof. apply Forall_take. Qed.
Lemma plain_drop n l : plain l → plain (drop n l).
Proof. apply Forall_drop. Qed.
Lemma plain_pop l : plain l → plain (str_pop l).
Proof.
  intros Hl. unfold str_pop. apply Forall_reverse. assert (∀ l, plain l → plain (skip_cont l)) as Hs.
  { clear. intros l Hl. induction Hl as [|b l Hb Hl IH]; cbn; [constructor|]. destruct (utf8_cont b); [done|]. by constructor. }
  assert (plain (skip_cont (reverse l))) as H by by apply Hs, Forall_reverse. destruct H; [constructor|done].
Qed.
Lemma plain_pieces fuel p l : plain l → Forall plain (pieces fuel p l).
Proof.
  revert l. induction fuel as [|fuel IH]; intros l Hl; cbn; [by repeat constructor|]. destruct (find_sub p l) as [i|]; [|by repeat constructor].
  constructor; [by apply plain_take|]. by apply IH, plain_drop.
Qed.
Lemma plain_replace p r l : plain r → plain l → plain (str_replace p r l).
Proof.
  intros Hr Hl. unfold str_replace. pose proof (plain_pieces (length l) p l Hl) as H. induction H as [|x xs Hx Hxs IH]; [constructor|].
  destruct xs as [|y ys]; [done|]. cbn [join]. apply plain_app; [done|]. by apply plain_app.
Qed.
Lemma plain_typed k shift c : typed k shift = Some c → plain [c].
Proof.
  unfold typed. destruct (scancode_to_ascii k shift) as [c'|]; [|done]. cbn. destruct (_ && _) eqn:Hc; [|done]. intros [= <-].
  reflect. repeat constructor; lia.
Qed.

(** A line of a plain document. *)
Lemma doc_line d r l : doc_ok d → lines d !! r = Some l → plain l ∧ ascii l.
Proof. intros [H _] Hl. rewrite Forall_lookup in H. pose proof (H _ _ Hl). auto using plain_ascii. Qed.
Lemma cursor_line d : doc_ok d → ∃ l, lines d !! cursor_row d = Some l ∧ plain l ∧ ascii l.
Proof. intros Hd. destruct (lookup_lt_is_Some_2 _ _ (d_row _ Hd)) as [l Hl]. exists l. split; [done|]. by eapply doc_line. Qed.
Lemma insert_plain r l (ls : list bytes) : Forall plain ls → plain l → Forall plain (<[r := l]> ls).
Proof. intros Hls Hl. by apply Forall_insert. Qed.

(** ** Computations that stay inside *)

(** From a sound editor [m] returns, and leaves it sound. *)
Definition safe {A} (m : M A) : Prop := ∀ w, ed_ok (ed w) → wp m (λ r w', ∃ a, r = Ok a ∧ ed_ok (ed w')) w.
(** ... with a result in [Q]. *)
Definition safe_with {A} (m : M A) (Q : A → Prop) : Prop := ∀ w, ed_ok (ed w) → wp m (λ r w', ∃ a, r = Ok a ∧ Q a ∧ ed_ok (ed w')) w.

Lemma safe_ret {A} (a : A) : safe (mret a).
Proof. intros w Hw. apply wp_ret. by exists a. Qed.
Lemma safe_bind {A B} (m : M A) (k : A → M B) : safe m → (∀ a, safe (k a)) → safe (m ≫= k).
Proof.
  intros Hm Hk w Hw. apply wp_bind. eapply wp_mono; [by apply Hm|]. intros r w' (a & -> & Hw'). by apply Hk.
Qed.
Lemma safe_bind_with {A B} (m : M A) (k : A → M B) Q : safe_with m Q → (∀ a, Q a → safe (k a)) → safe (m ≫= k).
Proof.
  intros Hm Hk w Hw. apply wp_bind. eapply wp_mono; [by apply Hm|]. intros r w' (a & -> & HQ & Hw'). by apply Hk.
Qed.
Lemma safe_get_doc {B} (k : EditorSnapshot → M B) : (∀ d, doc_ok d → safe (k d)) → safe (get_doc ≫= k).
Proof. intros Hk w Hw. apply wp_bind, wp_gets. apply Hk; [by apply e_doc|done]. Qed.
Lemma safe_get_ed {B} (k : EditorAppState → M B) : (∀ s, ed_ok s → safe (k s)) → safe (get_ed ≫= k).
Proof. intros Hk w Hw. apply wp_bind, wp_gets. by apply Hk. Qed.
Lemma safe_unwrap {A B} (o : option A) (a : A) (k : A → M B) : o = Some a → safe (k a) → safe (unwrap o ≫= k).
Proof. intros -> Hk w Hw. apply wp_bind. by apply Hk. Qed.
Lemma safe_edit (f : EditorAppState → EditorAppState) : (∀ s, doc (f s) = doc s) → (∀ s, undo_stack (f s) = undo_stack s) →
  (∀ s, redo_stack (f s) = redo_stack s) → (∀ s, finder (f s) = finder s) → safe (edit f).
Proof.
  intros Hd Hu Hr Hf w []. apply wp_modify. eexists. split; [done|]. split; cbn; by rewrite ?Hd, ?Hu, ?Hr, ?Hf.
Qed.
Lemma safe_set_doc d : doc_ok d → safe (set_doc d).
Proof. intros Hd w []. apply wp_modify. eexists. split; [done|]. by split. Qed.
Lemma safe_on_finder f : (∀ x, plain (search_query x) → plain (search_query (f x))) → (∀ x, plain (replace_query x) → plain (replace_query (f x))) →
  safe (on_finder f).
Proof. intros Hs Hr w []. apply wp_modify. eexists. split; [done|]. split; cbn; auto. Qed.
Lemma safe_if {A} (b : bool) (m n : M A) : safe m → safe n → safe (if b then m else n).
Proof. by destruct b. Qed.
Lemma safe_status x : safe (status x).
Proof. by apply safe_edit. Qed.
Lemma safe_visible : safe ensure_cursor_visible.
Proof. by apply safe_edit. Qed.
Lemma safe_clear : safe clear_selection.
Proof. by apply safe_edit. Qed.
Lemma safe_select a f : safe (edit (with_selection a f)).
Proof. by apply safe_edit. Qed.
Lemma safe_edited : safe edited.
Proof. apply safe_bind; [apply safe_clear|intros; apply safe_visible]. Qed.
Lemma safe_store p ls : safe (store_file p ls).
Proof. intros w []. apply wp_modify. eexists. split; [done|]. by split. Qed.
Lemma safe_push : safe push_undo_snapshot.
Proof.
  intros w []. apply wp_modify. eexists. split; [done|]. split; try done; cbn [ed undo_stack redo_stack with_history].
  - apply Forall_app_2; [|by constructor]. case_match; [by apply Forall_drop|done].
  - rewrite length_app. cbn [length]. unfold MAX_UNDO_STEPS in *. destruct (Nat.leb_spec 50 (length (undo_stack (ed w)))); rewrite ?length_drop; lia.
Qed.
Lemma safe_ignore {A} (m : M A) : safe m → safe (ignore_result m).
Proof. intros Hm. apply safe_bind; [done|]. intros. apply safe_ret. Qed.
Create HintDb safe discriminated.
#[local] Hint Constants Opaque : safe.
#[local] Hint Resolve safe_ret safe_status safe_visible safe_clear safe_select safe_edited safe_store safe_push safe_ignore safe_if : safe.
#[local] Hint Extern 2 (safe (_ ≫= _)) => apply safe_bind; [|intros ?] : safe.
#[local] Hint Extern 3 (safe (edit _)) => apply safe_edit; done : safe.

(** *** History *)

Lemma last_Forall {A} (P : A → Prop) (l : list A) x : Forall P l → last l = Some x → P x.
Proof. intros Hl Hx. apply last_Some in Hx as [l' ->]. apply Forall_app in Hl as [_ Hx]. by inversion Hx. Qed.
Lemma safe_undo : safe undo.
Proof.
  intros w Hw. pose proof Hw as []. apply wp_bind, wp_gets. destruct (last (undo_stack (ed w))) as [prev|] eqn:Hl; [|by apply safe_status].
  apply wp_bind, wp_modify. apply (safe_bind _ _ safe_visible (λ _, safe_status _)).
  assert (length (undo_stack (ed w)) ≠ 0) as Hn by by destruct (undo_stack (ed w)).
  split; try done; cbn; [exact (last_Forall _ _ _ e_undo0 Hl)|by apply Forall_take|apply Forall_app_2; [done|by constructor]|].
  rewrite length_take, length_app. cbn [length]. lia.
Qed.
Lemma safe_redo : safe redo.
Proof.
  intros w Hw. pose proof Hw as []. apply wp_bind, wp_gets. destruct (last (redo_stack (ed w))) as [next|] eqn:Hl; [|by apply safe_status].
  apply wp_bind, wp_modify. apply (safe_bind _ _ safe_visible (λ _, safe_status _)).
  assert (length (redo_stack (ed w)) ≠ 0) as Hn by by destruct (redo_stack (ed w)).
  split; try done; cbn; [exact (last_Forall _ _ _ e_redo0 Hl)|apply Forall_app_2; [done|by constructor]|by apply Forall_take|].
  rewrite length_take, length_app. cbn [length]. lia.
Qed.

(** *** Typing *)

Lemma safe_line_at_cursor : safe line_at_cursor.
Proof.
  apply safe_get_doc. intros d [Hp Hr]. case_match; [|apply safe_ret]. apply safe_set_doc. split; cbn.
  - apply Forall_app_2; [done|]. repeat constructor.
  - rewrite length_app. cbn. lia.
Qed.
Lemma safe_insert_char c : plain c → safe (insert_char c).
Proof.
  intros Hc. apply safe_bind; [apply safe_push|]. intros _. apply safe_bind; [apply safe_line_at_cursor|]. intros _.
  apply safe_get_doc. intros d Hd. destruct (cursor_line _ Hd) as (l & Hl & Hp & Ha). eapply safe_unwrap; [done|].
  pose proof Hd as [Hls Hr]. apply safe_bind; [|intros; apply safe_edited]. destruct (Nat.leb_spec (length l) (cursor_col d)).
  - apply safe_set_doc. split; cbn; [apply insert_plain; [done|by apply plain_app]|by rewrite length_insert].
  - eapply safe_unwrap; [apply ascii_insert; [done|lia]|]. apply safe_set_doc. split; cbn; [|by rewrite length_insert].
    apply insert_plain; [done|]. apply plain_app; [by apply plain_take|]. apply plain_app; [done|by apply plain_drop].
Qed.
Lemma safe_insert_newline : safe insert_newline.
Proof.
  apply safe_bind; [apply safe_push|]. intros _. apply safe_bind; [apply safe_line_at_cursor|]. intros _.
  apply safe_get_doc. intros d Hd. destruct (cursor_line _ Hd) as (l & Hl & Hp & Ha). eapply safe_unwrap; [done|].
  pose proof Hd as [Hls Hr]. apply safe_bind_with with (Q := plain).
  { intros w Hw. destruct (Nat.ltb_spec (cursor_col d) (length l)).
    - rewrite ascii_from by done || lia. apply wp_ret. eexists. split_and!; [done|by apply plain_drop|done].
    - apply wp_ret. eexists. split_and!; [done|constructor|done]. }
  intros right Hright. eapply safe_unwrap; [by apply ascii_truncate|]. apply safe_bind; [|intros; apply safe_edited].
  apply safe_set_doc. assert (Forall plain (<[cursor_row d := take (cursor_col d) l]> (lines d))) as Hls' by (by apply insert_plain, plain_take).
  split; cbn [lines cursor_row].
  - apply Forall_app_2; [by apply Forall_take|]. apply Forall_app_2; [by constructor|by apply Forall_drop].
  - rewrite !length_app, length_take, length_drop, length_insert. cbn [length]. lia.
Qed.
Lemma safe_remove_line i ls : Forall plain ls → i < length ls →
  safe_with (remove_line i ls) (λ '(l, ls'), ls !! i = Some l ∧ ls' = delete i ls).
Proof.
  intros Hls Hi w Hw. destruct (lookup_lt_is_Some_2 _ _ Hi) as [l Hl]. unfold remove_line. rewrite Hl. apply wp_bind, wp_ret, wp_ret.
  eexists. split; [done|]. done.
Qed.
Lemma delete_plain i (ls : list bytes) : Forall plain ls → Forall plain (delete i ls).
Proof. intros H. by apply Forall_delete. Qed.
Lemma safe_delete_backward : safe delete_backward.
Proof.
  apply safe_get_doc. intros d Hd. pose proof Hd as [Hls Hr]. apply safe_bind; [|intros; apply safe_edited].
  destruct (Nat.ltb_spec 0 (cursor_col d)) as [Hc|Hc]; [|destruct (Nat.ltb_spec 0 (cursor_row d)) as [Hr0|Hr0]; [|apply safe_ret]].
  - apply safe_bind; [apply safe_push|]. intros _. destruct (cursor_line _ Hd) as (l & Hl & Hp & Ha). rewrite Hl.
    destruct (Nat.leb_spec (cursor_col d) (length l)); [|apply safe_ret]. eapply safe_unwrap; [apply ascii_remove; [done|lia]|].
    apply safe_set_doc. split; cbn; [|by rewrite length_insert]. apply insert_plain; [done|]. apply plain_app; [by apply plain_take|by apply plain_drop].
  - apply safe_bind; [apply safe_push|]. intros _. eapply safe_bind_with; [by apply safe_remove_line|]. intros [l ls] [Hl ->].
    destruct (lookup_lt_is_Some_2 (lines d) (cursor_row d - 1)) as [prev Hprev]; [lia|].
    apply (safe_unwrap _ prev); [by rewrite list_lookup_delete_lt by lia|]. apply safe_set_doc.
    destruct (doc_line d _ _ Hd Hl), (doc_line d _ _ Hd Hprev). split; cbn.
    + apply insert_plain; [by apply delete_plain|]. by apply plain_app.
    + rewrite ?length_insert, length_delete by eauto. lia.
Qed.
Lemma safe_delete_forward : safe delete_forward.
Proof.
  apply safe_get_doc. intros d Hd. pose proof Hd as [Hls Hr]. apply safe_bind; [|intros; apply safe_edited].
  destruct (cursor_line _ Hd) as (l & Hl & Hp & Ha). rewrite Hl.
  destruct (Nat.ltb_spec (cursor_col d) (length l)); [|destruct (Nat.ltb_spec (cursor_row d + 1) (length (lines d))); [|apply safe_ret]].
  - apply safe_bind; [apply safe_push|]. intros _. eapply safe_unwrap; [by apply ascii_remove|].
    apply safe_set_doc. split; cbn; [|by rewrite length_insert]. apply insert_plain; [done|]. apply plain_app; [by apply plain_take|by apply plain_drop].
  - apply safe_bind; [apply safe_push|]. intros _. eapply safe_bind_with; [by apply safe_remove_line|]. intros [next ls] [Hn ->].
    apply safe_set_doc. destruct (doc_line d _ _ Hd Hn). split; cbn.
    + apply insert_plain; [by apply delete_plain|]. by apply plain_app.
    + rewrite ?length_insert, length_delete by eauto. lia.
Qed.

(** *** Moving *)

(** A computation that only looks: it returns a value in [Q]. *)
Definition looks {A} (m : M A) (Q : A → Prop) : Prop := ∀ w, wp m (λ r w', w' = w ∧ ∃ a, r = Ok a ∧ Q a) w.
Lemma looks_ret {A} (a : A) (Q : A → Prop) : Q a → looks (mret a) Q.
Proof. intros Ha w. apply wp_ret. eauto. Qed.
Lemma looks_unwrap {A} (o : option A) a : o = Some a → looks (unwrap o) (λ x, x = a).
Proof. intros -> w. apply wp_ret. eauto. Qed.
Lemma looks_value {A} (o : option A) a (Q : A → Prop) : o = Some a → Q a → looks (unwrap o) Q.
Proof. intros -> Ha w. apply wp_ret. eauto. Qed.
Lemma looks_bind {A B} (m : M A) (k : A → M B) P Q : looks m P → (∀ a, P a → looks (k a) Q) → looks (m ≫= k) Q.
Proof. intros Hm Hk w. apply wp_bind. eapply wp_mono; [apply Hm|]. intros r w' (-> & a & -> & Ha). by apply Hk. Qed.
Lemma looks_bind_unwrap {A B} (o : option A) a (k : A → M B) Q : o = Some a → looks (k a) Q → looks (unwrap o ≫= k) Q.
Proof. intros Ho Hk. eapply looks_bind; [by apply looks_unwrap|]. by intros ? ->. Qed.
Lemma safe_looks {A B} (m : M A) (k : A → M B) Q : looks m Q → (∀ a, Q a → safe (k a)) → safe (m ≫= k).
Proof. intros Hm. apply safe_bind_with. intros w Hw. eapply wp_mono; [apply Hm|]. intros r w' (-> & a & -> & Ha). eauto. Qed.

Lemma safe_moving select (move : EditorSnapshot → M position) :
  (∀ d, doc_ok d → looks (move d) (λ p, p.1 < length (lines d))) → safe (moving select move).
Proof.
  intros Hm. apply safe_get_ed. intros s Hs. pose proof (e_doc _ Hs) as Hd. eapply safe_looks; [by apply Hm|]. intros [r c] Hr.
  apply safe_bind; [|auto with safe]. apply safe_set_doc. split; [apply Hd|done].
Qed.
Lemma line_len_looks d r : r < length (lines d) → looks (line_len d r) (λ n, ∃ l, lines d !! r = Some l ∧ n = length l).
Proof. intros [l Hl]%lookup_lt_is_Some. eapply looks_bind_unwrap; [done|]. apply looks_ret. eauto. Qed.

Ltac safe_move :=
  apply safe_moving; intros d [Hls Hr];
  repeat (case_match; reflect);
  try (eapply looks_bind; [apply line_len_looks; lia|]; intros ? _);
  apply looks_ret; repeat (case_match; reflect); cbn; lia.
Lemma safe_move_left b : safe (move_left b).
Proof. safe_move. Qed.
Lemma safe_move_right b : safe (move_right b).
Proof. safe_move. Qed.
Lemma safe_move_up b : safe (move_up b).
Proof. safe_move. Qed.
Lemma safe_move_down b : safe (move_down b).
Proof. safe_move. Qed.
Lemma safe_move_home b : safe (move_home b).
Proof. safe_move. Qed.
Lemma safe_move_end b : safe (move_end b).
Proof. safe_move. Qed.
Lemma safe_document_start : safe move_document_start.
Proof. safe_move. Qed.
Lemma safe_document_end : safe move_document_end.
Proof. safe_move. Qed.
Lemma safe_select_all : safe select_all.
Proof.
  apply safe_get_doc. intros d [Hls Hr]. cbn. apply safe_bind; [auto with safe|]. intros _. apply safe_bind; [|auto with safe].
  apply safe_set_doc. split; cbn; [done|lia].
Qed.

(** *** Finding and replacing *)

(** Letters are folded one by one. *)
Definition folds_ascii (to_lowercase : bytes → bytes) : Prop :=
  ∀ l, ascii l → ascii (to_lowercase l) ∧ length (to_lowercase l) = length l.

Section finding.
Context (to_lowercase : bytes → bytes) (Hlower : folds_ascii to_lowercase).
Abbreviation fold_text := (folded to_lowercase).

Lemma folded_ascii f l : ascii l → ascii (fold_text f l) ∧ length (fold_text f l) = length l.
Proof. intros Hl. unfold folded. destruct (case_sensitive f); [done|]. by apply Hlower. Qed.
Lemma row_ascii s r : ed_ok s → r < length (lines (doc s)) →
  ∃ l, lines (doc s) !! r = Some l ∧ ascii (fold_text (finder s) l) ∧ length (fold_text (finder s) l) = length l.
Proof.
  intros Hs Hr. destruct (lookup_lt_is_Some_2 _ _ Hr) as [l Hl]. exists l. split; [done|]. apply folded_ascii.
  by eapply doc_line; [apply e_doc|].
Qed.

Definition in_doc (s : EditorAppState) (o : option position) : Prop := ∀ p, o = Some p → p.1 < length (lines (doc s)).
Lemma next_match_looks s q rounds : ed_ok s → looks (next_match to_lowercase s q rounds) (in_doc s).
Proof.
  intros Hs. induction rounds as [|i rounds IH]; [by apply looks_ret|]. cbn [next_match].
  assert (length (lines (doc s)) ≠ 0) as Hn by (pose proof (d_row _ (e_doc _ Hs)); lia).
  assert ((cursor_row (doc s) + i) mod length (lines (doc s)) < length (lines (doc s))) as Hr by by apply Nat.mod_upper_bound.
  destruct (row_ascii s _ Hs Hr) as (l & Hl & Ha & Hlen). eapply looks_bind_unwrap; [exact Hl|].
  eapply looks_bind_unwrap; [apply ascii_from; [done|]; case_match; lia|]. destruct (find_sub _ _); [|done].
  apply looks_ret. by intros ? [= <-].
Qed.
Lemma previous_match_looks s q rounds : ed_ok s → (∀ i, i ∈ rounds → i < length (lines (doc s))) →
  looks (previous_match to_lowercase s q rounds) (in_doc s).
Proof.
  intros Hs. induction rounds as [|i rounds IH]; intros Hi; [by apply looks_ret|]. cbn [previous_match].
  pose proof (d_row _ (e_doc _ Hs)). pose proof (Hi i ltac:(left)).
  set (r := if i <=? _ then _ else _). assert (r < length (lines (doc s))) as Hr by (subst r; destruct (Nat.leb_spec i (cursor_row (doc s))); lia).
  destruct (row_ascii s r Hs Hr) as (l & Hl & Ha & Hlen). eapply looks_bind_unwrap; [exact Hl|].
  apply looks_bind with (P := λ _, True).
  - destruct (_ && _) eqn:He; [|by apply looks_ret]. reflect. eapply looks_bind_unwrap; [by apply ascii_to|]. by apply looks_ret.
  - intros found _. destruct found; [apply looks_ret; by intros ? [= <-]|]. apply IH. intros j Hj. apply Hi. by right.
Qed.
Lemma go_to_match_safe r c n w : ed_ok (ed w) → r < length (lines (doc (ed w))) →
  wp (go_to_match r c n) (λ r w', ∃ a, r = Ok a ∧ ed_ok (ed w')) w.
Proof.
  intros Hw Hr. apply wp_bind, wp_gets. revert w Hw Hr. intros w Hw Hr.
  apply safe_bind; [|auto with safe|done]. apply safe_set_doc. split; [apply (d_plain _ (e_doc _ Hw))|done].
Qed.
(** A search and what follows it. *)
Lemma safe_search (m : EditorAppState → M (option position)) (n : EditorAppState → nat) (k : EditorAppState → M bool) :
  (∀ s, ed_ok s → looks (m s) (in_doc s)) → (∀ s, safe (k s)) →
  safe (s ← get_ed; if no_search s then status (str "Empty search term");; mret false else
    found ← m s; match found with Some (r, c) => go_to_match r c (n s);; mret true | None => k s end).
Proof.
  intros Hm Hk w Hw. apply wp_bind, wp_gets. destruct (no_search (ed w)); [by apply safe_bind; auto with safe|].
  apply wp_bind. eapply wp_mono; [by apply Hm|]. intros ? w' (-> & found & -> & Hf). destruct found as [[r c]|]; [|by apply Hk].
  apply wp_bind. eapply wp_mono; [apply go_to_match_safe; [done|by apply (Hf (r, c))]|]. intros ? w2 (? & -> & Hw2). by apply safe_ret.
Qed.
Lemma safe_not_found q tail : safe (not_found q tail;; mret false).
Proof. apply safe_bind; [apply safe_status|intros; apply safe_ret]. Qed.
Lemma safe_find_next : safe (find_next to_lowercase).
Proof.
  unfold find_next.
  apply (safe_search (λ s, next_match to_lowercase s (fold_text (finder s) (search_query (finder s))) (seq 0 (length (lines (doc s)))))
    (λ s, length (fold_text (finder s) (search_query (finder s)))) (λ s, not_found (search_query (finder s)) [];; mret false)).
  - intros s Hs. by apply next_match_looks.
  - intros s. apply safe_not_found.
Qed.
Lemma safe_find_previous : safe (find_previous to_lowercase).
Proof.
  unfold find_previous.
  apply (safe_search (λ s, previous_match to_lowercase s (fold_text (finder s) (search_query (finder s))) (seq 0 (length (lines (doc s)))))
    (λ s, length (fold_text (finder s) (search_query (finder s)))) (λ s, not_found (search_query (finder s)) [];; mret false)).
  - intros s Hs. apply previous_match_looks; [done|]. intros i [_ ?]%elem_of_seq. lia.
  - intros s. apply safe_not_found.
Qed.

Lemma safe_replace_current : safe (replace_current to_lowercase).
Proof.
  apply safe_get_ed. intros s Hs. apply safe_if; [auto with safe|].
  destruct (selection_anchor s) as [[ar ac]|], (selection_focus s) as [[fr fc]|]; try apply safe_find_next.
  destruct (_ && _) eqn:He; [|apply safe_find_next]. reflect. apply safe_bind; [auto with safe|]. intros _.
  destruct (lookup_lt_is_Some_2 (lines (doc s)) ar) as [l Hl]; [lia|]. destruct (doc_line _ _ _ (e_doc _ Hs) Hl) as [Hp Ha].
  eapply safe_unwrap; [done|]. destruct (_ && _) eqn:Hc; [|apply safe_find_next]. reflect.
  eapply safe_unwrap; [apply ascii_replace_range; [done|destruct (Nat.ltb_spec ac fc); lia]|].
  apply safe_bind; [|pose proof safe_find_next; auto with safe].
  apply safe_set_doc. split; cbn; [|rewrite length_insert; lia]. apply insert_plain; [apply e_doc; done|].
  apply plain_app; [by apply plain_take|]. apply plain_app; [by apply e_replace|by apply plain_drop].
Qed.

Lemma replace_folded_looks fuel l lower q r last_idx new n :
  plain l → ascii lower → length lower = length l → q ≠ [] → plain r → plain new → last_idx ≤ length l → length l - last_idx ≤ fuel →
  looks (replace_folded fuel l lower q r last_idx new n) (λ p, plain p.1).
Proof.
  intros Hl Hlow Hlen Hq Hr. pose proof (plain_ascii _ Hl) as Ha.
  revert last_idx new n. induction fuel as [|fuel IH]; intros last_idx new n Hnew Hi Hf; cbn [replace_folded].
  all: eapply looks_bind_unwrap; [by apply ascii_from; [|lia]|]; destruct (find_sub q (drop last_idx lower)) as [pos|] eqn:Hpos.
  2, 4: eapply looks_bind_unwrap; [by apply ascii_from; [|lia]|]; apply looks_ret; apply plain_app; [done|by apply plain_drop].
  all: apply find_sub_Some in Hpos as (_ & Hpos & _); rewrite length_drop in Hpos; assert (length q ≠ 0) by by destruct q.
  - lia.
  - eapply looks_bind_unwrap; [apply ascii_slice; [done|lia]|]. apply IH; [|lia..].
    apply plain_app; [done|]. apply plain_app; [by apply plain_take, plain_drop|done].
Qed.
Lemma replace_line_looks s l : ed_ok s → search_query (finder s) ≠ [] → plain l → looks (replace_line to_lowercase (finder s) l) (λ p, plain p.1).
Proof.
  intros Hs Hq Hl. pose proof (e_replace _ Hs). unfold replace_line. destruct (case_sensitive (finder s)).
  - apply looks_ret. cbn [fst]. case_match; [by apply plain_replace|done].
  - pose proof (plain_ascii _ Hl) as Ha. destruct (Hlower _ Ha) as [Hal Hll]. apply replace_folded_looks; try done; [|constructor|lia..].
    destruct (Hlower _ (plain_ascii _ (e_search _ Hs))) as [_ Hlq]. destruct (to_lowercase (search_query (finder s))); [|done].
    by destruct (search_query (finder s)).
Qed.
Lemma replace_lines_looks s ls : ed_ok s → search_query (finder s) ≠ [] → Forall plain ls →
  looks (replace_lines to_lowercase (finder s) ls) (λ p, Forall plain p.1 ∧ length p.1 = length ls).
Proof.
  intros Hs Hq. induction ls as [|l ls IH]; intros Hls; cbn [replace_lines]; [by apply looks_ret|]. inversion_clear Hls.
  eapply looks_bind; [by apply replace_line_looks|]. intros [l' n] Hl'. eapply looks_bind; [by apply IH|]. intros [ls' k] [Hls' Hlen].
  apply looks_ret. cbn in *. split; [by constructor|lia].
Qed.
Lemma safe_replace_all : safe (replace_all to_lowercase).
Proof.
  apply safe_get_ed. intros s Hs. destruct (no_search s) eqn:Hn; [auto with safe|]. unfold no_search in Hn. reflect.
  apply safe_bind; [auto with safe|]. intros _. eapply safe_looks; [by apply replace_lines_looks, Hs|]. intros [ls n] [Hls Hlen]. cbn in *.
  pose proof (d_row _ (e_doc _ Hs)). apply safe_bind; [|auto with safe].
  apply safe_if; (apply safe_bind; [|unfold not_found; auto with safe]); apply safe_set_doc; split; cbn; done || lia.
Qed.
End finding.

(** *** Copying, cutting and pasting *)

Lemma extract_looks d from to rows : doc_ok d → looks (extract d from to rows) ascii.
Proof.
  intros Hd. induction rows as [|r rows IH]; [by apply looks_ret; constructor|]. cbn [extract].
  destruct (lines d !! r) as [l|] eqn:Hl; [|by apply looks_ret; constructor]. destruct (doc_line _ _ _ Hd Hl) as [_ Ha].
  set (a := if r =? from.1 then _ else _). set (b := if r =? to.1 then _ else _).
  assert (b ≤ length l) as Hb by (subst b; case_match; lia).
  apply looks_bind with (P := ascii).
  - destruct (_ && _) eqn:Hc; [|by apply looks_ret; constructor]. reflect.
    eapply looks_value; [by apply ascii_slice|]. by apply ascii_take, ascii_drop.
  - intros part Hpart. eapply looks_bind; [exact IH|]. intros rest Hrest. apply looks_ret. apply ascii_app. split; [done|].
    apply ascii_app. split; [|done]. case_match; repeat constructor; lia.
Qed.
Lemma copy_looks t : ascii t → safe (copy_to_clipboard t).
Proof.
  intros Ht. eapply safe_looks with (Q := λ _, True).
  - destruct (Z.ltb_spec MAX_CLIPBOARD_BYTES (Z.of_nat (length t))); [|by apply looks_ret].
    eapply looks_value; [apply ascii_to; [done|unfold MAX_CLIPBOARD_BYTES in *; lia]|done].
  - intros a _ w Hw. apply wp_modify. by eexists.
Qed.
Lemma safe_copy : safe copy_selection.
Proof.
  apply safe_get_ed. intros s Hs. pose proof (e_doc _ Hs) as Hd.
  assert (safe match lines (doc s) !! cursor_row (doc s) with
    | Some line => copy_to_clipboard line;; status (str "Current line copied to clipboard") | None => mret tt end) as Hline.
  { destruct (cursor_line _ Hd) as (l & -> & _ & Ha). apply safe_bind; [by apply copy_looks|intros; apply safe_status]. }
  destruct (selection_anchor s) as [p|], (selection_focus s) as [q|]; try done. destruct (ordered p q) as [from to].
  eapply safe_looks; [by apply extract_looks|]. intros t Ht. apply safe_bind; [by apply copy_looks|intros; apply safe_status].
Qed.
Lemma without_looks d from to : doc_ok d → looks (without d from to) doc_ok.
Proof.
  intros Hd. pose proof Hd as [Hls Hr]. unfold without. destruct (_ && _) eqn:Hc; reflect; [|destruct (_ && _) eqn:Hc'; reflect].
  - destruct (lookup_lt_is_Some_2 (lines d) from.1) as [l Hl]; [lia|]. destruct (doc_line _ _ _ Hd Hl) as [Hp Ha].
    eapply looks_bind_unwrap; [done|]. eapply looks_bind_unwrap; [apply ascii_to; [done|lia]|].
    eapply looks_bind_unwrap; [apply ascii_from; [done|lia]|]. apply looks_ret. split; cbn; [|rewrite length_insert; lia].
    apply insert_plain; [done|]. apply plain_app; [by apply plain_take|by apply plain_drop].
  - destruct (lookup_lt_is_Some_2 (lines d) from.1) as [l Hl]; [lia|]. destruct (doc_line _ _ _ Hd Hl) as [Hp Ha].
    destruct (lookup_lt_is_Some_2 (lines d) to.1) as [l' Hl']; [lia|]. destruct (doc_line _ _ _ Hd Hl') as [Hp' Ha'].
    eapply looks_bind_unwrap; [done|]. eapply looks_bind_unwrap; [apply ascii_to; [done|lia]|].
    eapply looks_bind_unwrap; [done|]. eapply looks_bind_unwrap; [apply ascii_from; [done|lia]|]. apply looks_ret. split; cbn.
    + apply Forall_app_2; [by apply Forall_take|]. constructor; [|by apply Forall_drop]. apply plain_app; [by apply plain_take|by apply plain_drop].
    + rewrite length_app, length_take. cbn. lia.
  - by apply looks_ret.
Qed.
Lemma safe_cut : safe cut_selection.
Proof.
  apply safe_bind; [apply safe_push|]. intros _. apply safe_bind; [apply safe_copy|]. intros _.
  apply safe_get_ed. intros s Hs. pose proof (e_doc _ Hs) as Hd. pose proof Hd as [Hls Hr].
  assert (∀ ls r n b t, Forall plain ls → r < length ls → safe (set_doc (mkSnapshot ls r n b);; ensure_cursor_visible;; status t)) as Hset.
  { intros. apply safe_bind; [by apply safe_set_doc|]. intros _. apply safe_bind; [apply safe_visible|intros; apply safe_status]. }
  assert (∀ t, safe (ensure_cursor_visible;; status t)) as Hend by (intros; apply safe_bind; [apply safe_visible|intros; apply safe_status]).
  assert (safe (if cursor_row (doc s) <? length (lines (doc s)) then
    (if 1 <? length (lines (doc s)) then
       let ls := delete (cursor_row (doc s)) (lines (doc s)) in
       set_doc (mkSnapshot ls (if length ls <=? cursor_row (doc s) then length ls - 1 else cursor_row (doc s)) 0 true)
     else set_doc (mkSnapshot (<[0 := []]> (lines (doc s))) (cursor_row (doc s)) 0 true));; ensure_cursor_visible;; status (str "Cut current line")
    else mret tt)) as Hline.
  { apply safe_if; [|apply safe_ret]. apply safe_bind; [|intros; apply Hend]. destruct (Nat.ltb_spec 1 (length (lines (doc s)))).
    - assert (length (delete (cursor_row (doc s)) (lines (doc s))) = length (lines (doc s)) - 1) as Hlen
        by (rewrite length_delete by (by apply lookup_lt_is_Some_2); lia).
      apply safe_set_doc. split; cbn; [by apply delete_plain|]. rewrite Hlen. case_match; reflect; lia.
    - apply safe_set_doc. split; cbn; [apply insert_plain; [done|constructor]|by rewrite length_insert]. }
  destruct (selection_anchor s) as [p|], (selection_focus s) as [q|]; try done. destruct (ordered p q) as [from to].
  eapply safe_looks; [by apply without_looks|]. intros d' [Hls' Hr']. apply safe_bind; [by apply safe_set_doc|]. intros _.
  apply safe_bind; [apply safe_clear|intros; apply Hend].
Qed.
Lemma safe_for_each {A} (f : A → M unit) l : (∀ x, safe (f x)) → safe (for_each l f).
Proof. intros Hf. induction l as [|x l IH]; [apply safe_ret|]. by apply safe_bind. Qed.
Lemma safe_paste_char c : safe (paste_char c).
Proof.
  unfold paste_char. apply safe_if; [apply safe_insert_newline|]. destruct (_ && _) eqn:Hc; [|apply safe_ret]. reflect.
  apply safe_insert_char. repeat constructor; lia.
Qed.
Lemma safe_paste : safe paste_clipboard.
Proof.
  apply safe_bind; [apply safe_push|]. intros _. apply safe_looks with (Q := λ _, True); [|intros t _].
  - intros w. apply wp_gets. split; [done|]. by eexists.
  - apply safe_bind; [apply safe_for_each, safe_paste_char|]. intros _. apply safe_bind; [apply safe_visible|intros; apply safe_status].
Qed.

(** *** Keys and clicks *)

Lemma safe_save : safe save_file.
Proof.
  apply safe_get_ed. intros s _. apply safe_bind; [by apply safe_edit|]. intros _. apply safe_get_doc. intros d [Hls Hr].
  apply safe_bind; [apply safe_store|]. intros _. apply safe_bind; [by apply safe_set_doc|intros; apply safe_status].
Qed.
Lemma safe_new_document : safe new_document.
Proof.
  apply safe_bind; [apply safe_push|]. intros _. apply safe_bind; [|intros; apply safe_status]. intros w [].
  apply wp_modify. eexists. split; [done|]. split; cbn; try done. split; cbn; [by repeat constructor|lia].
Qed.
Lemma safe_toggle_wrap : safe toggle_word_wrap.
Proof. apply safe_bind; [by apply safe_edit|]. intros _. apply safe_get_ed. intros. apply safe_status. Qed.
Lemma safe_toggle_case : safe toggle_case_sensitive.
Proof. apply safe_bind; [by apply safe_on_finder|]. intros _. apply safe_get_ed. intros. apply safe_status. Qed.
Lemma safe_close_dialog b : safe (close_dialog b).
Proof. by apply safe_edit. Qed.
Lemma safe_set_find g : (∀ f, search_query (g f) = search_query f) → (∀ f, replace_query (g f) = replace_query f) → safe (on_finder g).
Proof. intros Hs Hr. apply safe_on_finder; intros f ?; by rewrite ?Hs, ?Hr. Qed.
Lemma safe_on_field g : (∀ q, plain q → plain (g q)) → safe (on_finder (on_field g)).
Proof. intros Hg. apply safe_on_finder; intros f Hf; unfold on_field; case_match; cbn; auto. Qed.
#[local] Hint Resolve safe_toggle_wrap safe_undo safe_redo safe_save safe_copy safe_cut safe_paste safe_select_all safe_document_start
  safe_document_end safe_insert_newline safe_delete_backward safe_delete_forward safe_move_left safe_move_right safe_move_up safe_move_down
  safe_move_home safe_move_end safe_toggle_case safe_close_dialog safe_new_document : safe.
#[local] Hint Extern 1 (safe (on_finder _)) => apply safe_set_find; done : safe.
Lemma safe_dialog_key k : safe (dialog_key k).
Proof.
  unfold dialog_key. repeat case_match; auto with safe.
Qed.
Lemma safe_control_key k : safe (control_key k).
Proof.
  unfold control_key. repeat case_match; auto with safe.
Qed.
Lemma safe_plain_key k shift : safe (plain_key k shift).
Proof.
  assert (safe match typed k shift with Some c => insert_char [c] | None => mret tt end) as Ht.
  { destruct (typed k shift) as [c|] eqn:Hc; [|apply safe_ret]. by eapply safe_insert_char, plain_typed. }
  unfold plain_key. repeat case_match; auto with safe.
Qed.

Section keys.
Context (to_lowercase : bytes → bytes) (Hlower : folds_ascii to_lowercase).

Lemma safe_field_key k shift : safe (field_key to_lowercase k shift).
Proof.
  apply safe_get_ed. intros s Hs. cbv zeta.
  assert (safe match typed k shift with Some c => on_finder (on_field (λ q, q ++ [c])) | None => mret tt end) as Ht.
  { destruct (typed k shift) as [c|] eqn:Hc; [|apply safe_ret]. apply safe_on_field. intros q Hq. apply plain_app; [done|]. by eapply plain_typed. }
  pose proof (safe_ignore _ (safe_find_previous _ Hlower)) as Hprev. pose proof (safe_ignore _ (safe_find_next _ Hlower)) as Hnext.
  pose proof (safe_ignore _ (safe_replace_current _ Hlower)) as Hrep.
  assert (safe (on_finder (set_find false false 0))) as Hoff by by apply safe_set_find.
  assert (safe (on_finder (on_field str_pop))) as Hpop by (apply safe_on_field; apply plain_pop).
  repeat case_match; auto with safe.
Qed.
Lemma safe_key k pressed ctrl shift : safe (handle_key_input to_lowercase k pressed ctrl shift).
Proof.
  apply safe_if; [apply safe_ret|]. apply safe_get_ed. intros s _.
  apply safe_if; [apply safe_dialog_key|]. apply safe_if; [apply safe_field_key|].
  apply safe_if; [apply safe_control_key|apply safe_plain_key].
Qed.
Lemma safe_dialog_click x y w h : safe (dialog_click x y w h).
Proof.
  unfold dialog_click. repeat apply safe_if; try apply safe_ret; try apply safe_close_dialog.
  - apply safe_bind; [apply safe_save|intros; apply safe_close_dialog].
  - apply safe_bind; [apply safe_close_dialog|intros; apply safe_status].
Qed.
Lemma safe_text_click x y : safe (text_click x y).
Proof.
  apply safe_get_ed. intros s Hs. cbv zeta. apply safe_if; [|apply safe_ret].
  destruct (lines (doc s) !! _) as [l|] eqn:Hl; [|apply safe_ret].
  apply safe_bind; [apply safe_set_doc; split; [apply e_doc, Hs|by eapply lookup_lt_Some]|]. intros _.
  apply safe_bind; [apply safe_select|]. intros _. by apply safe_set_find.
Qed.
Lemma safe_find_click x f m : find_click to_lowercase x f = Some m → safe m.
Proof.
  unfold find_click. repeat case_match; intros [= <-]; try (by apply safe_set_find); try apply safe_toggle_case;
    apply safe_ignore; first [by apply safe_find_next|by apply safe_find_previous|by apply safe_replace_all].
Qed.
Lemma safe_tool_click x m : tool_click x = Some m → safe m.
Proof.
  unfold tool_click. repeat case_match; intros [= <-]; auto with safe.
Qed.
Lemma safe_click x y w h : safe (handle_mouse_click to_lowercase x y w h).
Proof.
  apply safe_get_ed. intros s _. apply safe_if; [apply safe_dialog_click|].
  destruct (if within 4 y 24 then _ else _) as [m|] eqn:Ht; [destruct (within 4 y 24); [by eapply safe_tool_click|done]|].
  destruct (if _ && within 28 y 54 then _ else _) as [m|] eqn:Hf; [|apply safe_text_click].
  destruct (_ && _); [by eapply safe_find_click|done].
Qed.

(** What the window sends to an editor. *)
Inductive input :=
  | Key (key_code : Z) (pressed is_ctrl is_shift : bool)
  | Click (local_x local_y win_w win_h : Z).
Definition handle (i : input) : M unit :=
  match i with
  | Key k pressed ctrl shift => handle_key_input to_lowercase k pressed ctrl shift
  | Click x y w h => handle_mouse_click to_lowercase x y w h
  end.

(** C34: no sequence of keys and clicks makes the editor panic on a document of
    ASCII text: every line stays ASCII text without line breaks, the cursor
    stays on a line, in the history as in the document, and the history keeps
    within its fifty steps. *)
Theorem editor_survives_plain_text inputs w :
  ed_ok (ed w) → wp (for_each inputs handle) (λ r w', r = Ok tt ∧ ed_ok (ed w')) w.
Proof.
  intros Hw. eapply wp_mono; [apply safe_for_each; [|exact Hw]|by intros ? ? ([] & -> & ?)].
  intros []; [apply safe_key|apply safe_click].
Qed.
End keys.
