(* ===== verification/EditorText.v ===== *)
(** * The text editor: refinement

    What the editor shows is a text with a cursor and a history: the keys for
    typing, deleting, moving, undoing and redoing act on the lines of the
    editor as they act on the text before and after the cursor. *)
From S2P Require Import Prelude Bytes Text StrOps Keyboard Editor EditorProps.

(** ** The abstract editor *)

(** The text before and after the cursor, lines ended by 10. *)
Abbreviation text := (bytes * bytes)%type.
Record Ideal := mkIdeal { past : list text; now : text; future : list text }.

(** The last line of a text, and what is before it; the first line and what is after it. *)
Definition not_newline (c : Z) : Prop := c ≠ 10%Z.
#[export] Instance not_newline_dec c : Decision (not_newline c).
Proof. unfold not_newline. apply _. Defined.
Fixpoint first_line (t : bytes) : bytes :=
  match t with c :: t => if decide (not_newline c) then c :: first_line t else [] | [] => [] end.
Definition after_line (t : bytes) : bytes := drop (length (first_line t)) t.
Definition last_line (t : bytes) : bytes := reverse (first_line (reverse t)).
Definition before_line (t : bytes) : bytes := take (length t - length (last_line t)) t.

Definition at_start (t : text) : text := ([], t.1 ++ t.2).
Definition at_end (t : text) : text := (t.1 ++ t.2, []).
Definition left_of (t : text) : text :=
  match last t.1 with Some c => (take (length t.1 - 1) t.1, c :: t.2) | None => t end.
Definition right_of (t : text) : text := match t.2 with c :: a => (t.1 ++ [c], a) | [] => t end.
Definition home_of (t : text) : text := (before_line t.1, last_line t.1 ++ t.2).
Definition end_of (t : text) : text := (t.1 ++ first_line t.2, after_line t.2).
(** Into the line [l] at the column of the cursor, or at its end. *)
Definition up_of (t : text) : text :=
  let col := length (last_line t.1) in
  match last (before_line t.1) with
  | None => t
  | Some _ =>
      let above := take (length (before_line t.1) - 1) (before_line t.1) in
      let l := last_line above in
      (before_line above ++ take col l, drop col l ++ newline ++ last_line t.1 ++ t.2)
  end.
Definition down_of (t : text) : text :=
  let col := length (last_line t.1) in
  match after_line t.2 with
  | [] => t
  | _ :: below =>
      let l := first_line below in
      (t.1 ++ first_line t.2 ++ newline ++ take col l, drop col l ++ after_line below)
  end.

Definition move_by (f : text → text) (i : Ideal) : Ideal := mkIdeal (past i) (f (now i)) (future i).
(** A step of the history is kept, of the last fifty. *)
Definition remember (i : Ideal) : Ideal :=
  mkIdeal ((if MAX_UNDO_STEPS <=? length (past i) then drop 1 (past i) else past i) ++ [now i]) (now i) [].
Definition write (c : bytes) (i : Ideal) : Ideal := move_by (λ t, (t.1 ++ c, t.2)) (remember i).
Definition erase_before (i : Ideal) : Ideal :=
  match (now i).1 with [] => i | b => move_by (λ t, (take (length b - 1) b, t.2)) (remember i) end.
Definition erase_after (i : Ideal) : Ideal :=
  match (now i).2 with [] => i | _ :: a => move_by (λ t, (t.1, a)) (remember i) end.
Definition go_back (i : Ideal) : Ideal :=
  match last (past i) with
  | Some t => mkIdeal (take (length (past i) - 1) (past i)) t (future i ++ [now i])
  | None => i
  end.
Definition go_forth (i : Ideal) : Ideal :=
  match last (future i) with
  | Some t => mkIdeal (past i ++ [now i]) t (take (length (future i) - 1) (future i))
  | None => i
  end.

(** What a key does to the text. *)
Record key := mkKey { code : Z; ctrl : bool; shift : bool }.
Definition ideal_key (k : key) : Ideal → Ideal :=
  if ctrl k then
    match code k with
    | 44 => go_back
    | 21 => go_forth
    | 30 | 79 => move_by at_end
    | 71 => move_by at_start
    | _ => λ i, i
    end%Z
  else
    match code k with
    | 28 => write newline
    | 14 => erase_before
    | 83 => erase_after
    | 75 => move_by left_of
    | 77 => move_by right_of
    | 72 => move_by up_of
    | 80 => move_by down_of
    | 71 => move_by home_of
    | 79 => move_by end_of
    | _ => match typed (code k) (shift k) with Some c => write [c] | None => λ i, i end
    end%Z.
(** Not the keys that open the search bar, nor those of the clipboard. *)
Definition text_key (k : key) : bool :=
  negb (ctrl k && existsb (Z.eqb (code k)) [33; 35; 45; 46; 47]%Z).

(** ** The text of a document *)

Definition above (ls : list bytes) : bytes := concat (map (λ l, l ++ newline) ls).
Definition below (ls : list bytes) : bytes := concat (map (λ l, newline ++ l) ls).
Definition text_of (d : EditorSnapshot) : text :=
  let line := default [] (lines d !! cursor_row d) in
  (above (take (cursor_row d) (lines d)) ++ take (cursor_col d) line,
   drop (cursor_col d) line ++ below (drop (cursor_row d + 1) (lines d))).

(** Plain text with the cursor in its line. *)
Definition clean (d : EditorSnapshot) : Prop :=
  doc_ok d ∧ ∃ l, lines d !! cursor_row d = Some l ∧ cursor_col d ≤ length l.

Record refines (s : EditorAppState) (i : Ideal) : Prop := {
  r_doc : clean (doc s);
  r_undo : Forall clean (undo_stack s);
  r_redo : Forall clean (redo_stack s);
  r_now : text_of (doc s) = now i;
  r_past : map text_of (undo_stack s) = past i;
  r_future : map text_of (redo_stack s) = future i;
  r_dialog : show_unsaved_dialog s = false;
  r_field : active_input_field (finder s) = 0%Z;
}.

(** The cursor between [l1] and [l2]. *)
Definition place (pre : list bytes) (l1 l2 : bytes) (post : list bytes) (dirty : bool) : EditorSnapshot :=
  mkSnapshot (pre ++ (l1 ++ l2) :: post) (length pre) (length l1) dirty.
Definition plains (pre : list bytes) (l1 l2 : bytes) (post : list bytes) : Prop :=
  Forall plain pre ∧ plain l1 ∧ plain l2 ∧ Forall plain post.

Lemma place_clean pre l1 l2 post b : plains pre l1 l2 post → clean (place pre l1 l2 post b).
Proof.
  intros (Hpre & H1 & H2 & Hpost). split; [split; cbn|exists (l1 ++ l2); cbn].
  - apply Forall_app_2; [done|]. constructor; [by apply plain_app|done].
  - rewrite length_app. cbn. lia.
  - split; [by apply list_lookup_middle|]. rewrite length_app. lia.
Qed.
Lemma place_text pre l1 l2 post b : text_of (place pre l1 l2 post b) = (above pre ++ l1, l2 ++ below post).
Proof.
  unfold text_of, place. cbn [lines cursor_row cursor_col]. rewrite list_lookup_middle by done. cbn [from_option id].
  rewrite take_app_length, take_app_length, drop_app_length.
  replace (drop (length pre + 1) (pre ++ (l1 ++ l2) :: post)) with post; [done|].
  rewrite drop_app_ge by lia. by replace (length pre + 1 - length pre) with 1 by lia.
Qed.
Lemma clean_place d : clean d → ∃ pre l1 l2 post b, d = place pre l1 l2 post b ∧ plains pre l1 l2 post.
Proof.
  intros ([Hls Hr] & l & Hl & Hc). destruct d as [ls r c b]. cbn in *.
  apply list_elem_of_split_length in Hl as (pre & post & -> & ->). apply Forall_app in Hls as [Hpre Hls]. inversion_clear Hls.
  exists pre, (take c l), (drop c l), post, b. split.
  - unfold place. rewrite take_drop. f_equal. rewrite length_take. lia.
  - repeat split; auto using plain_take, plain_drop.
Qed.

(** *** Lines of the text *)

Lemma above_snoc pre l : above (pre ++ [l]) = (above pre ++ l) ++ newline.
Proof. unfold above. rewrite map_app, concat_app. cbn. by rewrite app_nil_r, app_assoc. Qed.
Lemma below_cons l post : below (l :: post) = newline ++ l ++ below post.
Proof. done. Qed.
Lemma first_line_app l t : plain l → (∀ c, head t = Some c → c = 10%Z) → first_line (l ++ t) = l.
Proof.
  intros Hl Ht. induction Hl as [|c l [_ Hc] Hl IH]; cbn.
  - destruct t as [|c t]; [done|]. cbn. rewrite decide_False; [done|]. intros Hn. by apply Hn, Ht.
  - rewrite decide_True by done. by rewrite IH.
Qed.
Lemma first_line_below l post : plain l → first_line (l ++ below post) = l.
Proof. intros Hl. apply first_line_app; [done|]. intros c. destruct post; [done|]. by intros [= <-]. Qed.
Lemma after_line_below l post : plain l → after_line (l ++ below post) = below post.
Proof. intros Hl. unfold after_line. rewrite first_line_below by done. apply drop_app_length. Qed.
Lemma last_line_above pre l : plain l → last_line (above pre ++ l) = l.
Proof.
  intros Hl. unfold last_line. rewrite reverse_app, first_line_app; [apply reverse_involutive|by apply Forall_reverse|].
  intros c. destruct pre as [|l' pre _] using rev_ind; [done|]. rewrite above_snoc, reverse_app. by intros [= <-].
Qed.
Lemma before_line_above pre l : plain l → before_line (above pre ++ l) = above pre.
Proof.
  intros Hl. unfold before_line. rewrite last_line_above, length_app by done.
  replace (length (above pre) + length l - length l) with (length (above pre)) by lia. apply take_app_length.
Qed.
Lemma insert_middle {A} (pre post : list A) x y : <[length pre := y]> (pre ++ x :: post) = pre ++ y :: post.
Proof. rewrite insert_app_r_alt by done. by rewrite Nat.sub_diag. Qed.
Lemma take_snoc_pred {A} (l : list A) x : take (length (l ++ [x]) - 1) (l ++ [x]) = l.
Proof. rewrite length_app. cbn. rewrite Nat.add_sub. apply take_app_length. Qed.

(** ** Steps *)

(** [m] keeps the editor an implementation, of what [f] makes of the text. *)
Definition acts (m : M unit) (f : Ideal → Ideal) : Prop :=
  ∀ w i, refines (ed w) i → wp m (λ r w', r = Ok tt ∧ refines (ed w') (f i)) w.

Lemma acts_wp m f w i (Q : outcome Empty_set unit → EditorWorld → Prop) :
  acts m f → refines (ed w) i → (∀ w', refines (ed w') (f i) → Q (Ok tt) w') → wp m Q w.
Proof. intros Hm Hw HQ. eapply wp_mono; [by apply Hm|]. intros r w' [-> Hw']. by apply HQ. Qed.
Lemma acts_bind m n f g : acts m f → acts n g → acts (m;; n) (λ i, g (f i)).
Proof. intros Hm Hn w i Hw. apply wp_bind. eapply acts_wp; [done..|]. intros w' Hw'. by apply Hn. Qed.
Lemma acts_ret : acts (mret tt) (λ i, i).
Proof. intros w i Hw. by apply wp_ret. Qed.
Lemma acts_edit (f : EditorAppState → EditorAppState) : (∀ s, doc (f s) = doc s) → (∀ s, undo_stack (f s) = undo_stack s) →
  (∀ s, redo_stack (f s) = redo_stack s) → (∀ s, show_unsaved_dialog (f s) = show_unsaved_dialog s) →
  (∀ s, finder (f s) = finder s) → acts (edit f) (λ i, i).
Proof. intros Hd Hu Hr Hs Hf w i []. apply wp_modify. split; [done|]. split; cbn; by rewrite ?Hd, ?Hu, ?Hr, ?Hs, ?Hf. Qed.
Lemma acts_status x : acts (status x) (λ i, i).
Proof. by apply acts_edit. Qed.
Lemma acts_visible : acts ensure_cursor_visible (λ i, i).
Proof. by apply acts_edit. Qed.
Lemma acts_edited : acts edited (λ i, i).
Proof. apply (acts_bind _ _ (λ i, i) (λ i, i)); [by apply acts_edit|apply acts_visible]. Qed.

(** Another document: the text changes, the history does not. *)
Lemma set_place s i pre l1 l2 post b : refines s i → plains pre l1 l2 post →
  refines (with_doc (place pre l1 l2 post b) s) (move_by (λ _, (above pre ++ l1, l2 ++ below post)) i).
Proof. intros [] Hp. split; cbn; try done; [by apply place_clean|apply place_text]. Qed.
Lemma acts_push : acts push_undo_snapshot remember.
Proof.
  intros w i []. apply wp_modify. split; [done|]. unfold remember. split; cbn [ed doc undo_stack redo_stack with_history past now future]; try done.
  - apply Forall_app_2; [|by constructor]. case_match; [by apply Forall_drop|done].
  - rewrite map_app. cbn [map]. rewrite <- r_past0, length_map, r_now0. f_equal. case_match; [by rewrite <- fmap_drop|done].
Qed.
(** A place in the document of a state. *)
Lemma refines_place s i : refines s i → ∃ pre l1 l2 post b,
  doc s = place pre l1 l2 post b ∧ plains pre l1 l2 post ∧ now i = (above pre ++ l1, l2 ++ below post).
Proof.
  intros Hs. destruct (clean_place _ (r_doc _ _ Hs)) as (pre & l1 & l2 & post & b & Hd & Hp).
  exists pre, l1, l2, post, b. split_and!; [done|done|]. rewrite <- (r_now _ _ Hs), Hd. apply place_text.
Qed.

Lemma acts_doc (k : EditorSnapshot → M unit) f :
  (∀ pre l1 l2 post b, plains pre l1 l2 post → ∀ w i, refines (ed w) i → doc (ed w) = place pre l1 l2 post b →
    now i = (above pre ++ l1, l2 ++ below post) → wp (k (place pre l1 l2 post b)) (λ r w', r = Ok tt ∧ refines (ed w') (f i)) w) →
  acts (get_doc ≫= k) f.
Proof.
  intros Hk w i Hw. destruct (refines_place _ _ Hw) as (pre & l1 & l2 & post & b & Hd & Hp & Hn).
  apply wp_bind, wp_gets. rewrite Hd. by eapply Hk.
Qed.
Lemma acts_line_at_cursor : acts line_at_cursor (λ i, i).
Proof.
  apply acts_doc. intros pre l1 l2 post b Hp w i Hw Hd _. cbn [place lines cursor_row]. rewrite length_app. cbn [length].
  rewrite (proj2 (Nat.leb_gt _ _)) by lia. by apply wp_ret.
Qed.
(** The end of an edit that has put the document [d]. *)
Lemma wp_edited d pre l1 l2 post b (Q : outcome Empty_set unit → EditorWorld → Prop) w i : refines (ed w) i → plains pre l1 l2 post →
  d = place pre l1 l2 post b →
  (∀ w', refines (ed w') (move_by (λ _, (above pre ++ l1, l2 ++ below post)) i) → Q (Ok tt) w') →
  wp edited Q (mkWorld (with_doc d (ed w)) (file_store w) (clipboard w)).
Proof. intros Hw Hp -> HQ. eapply acts_wp; [apply acts_edited|by eapply set_place|]. done. Qed.
(** An edit that starts with a step of the history. *)
Lemma acts_push_line (k : EditorSnapshot → M unit) g :
  acts (get_doc ≫= k) g → acts (push_undo_snapshot;; line_at_cursor;; get_doc ≫= k) (λ i, g (remember i)).
Proof. intros Hk. apply (acts_bind _ _ remember g); [apply acts_push|]. by apply (acts_bind _ _ (λ i, i) g); [apply acts_line_at_cursor|]. Qed.

Lemma acts_insert c : plain [c] → acts (insert_char [c]) (write [c]).
Proof.
  intros Hc. apply (acts_push_line _ (move_by (λ t, (t.1 ++ [c], t.2)))). apply acts_doc.
  intros pre l1 l2 post b (Hpre & H1 & H2 & Hpost) w i Hw Hd Hn. cbn [place lines cursor_row cursor_col]. rewrite list_lookup_middle by done.
  assert (plains pre (l1 ++ [c]) l2 post) as Hp by (repeat split; try done; by apply plain_app).
  assert (∀ w', refines (ed w') (move_by (λ _, (above pre ++ l1 ++ [c], l2 ++ below post)) i) →
    Ok tt = @Ok Empty_set _ tt ∧ refines (ed w') (move_by (λ t, (t.1 ++ [c], t.2)) i)) as Hend.
  { intros w'. unfold move_by. rewrite Hn. cbn. by rewrite <- app_assoc. }
  apply wp_bind, wp_ret. rewrite insert_middle. apply wp_bind. destruct (Nat.leb_spec (length (l1 ++ l2)) (length l1)) as [Hl|Hl].
  - rewrite length_app in Hl. destruct l2; [|cbn in Hl; lia]. apply wp_modify. eapply wp_edited; [done|exact Hp| |exact Hend].
    unfold place. by rewrite !app_nil_r.
  - rewrite ascii_insert; [|by apply plain_ascii, plain_app|lia]. rewrite take_app_length, drop_app_length.
    apply wp_bind, wp_ret. rewrite insert_middle. apply wp_modify. eapply wp_edited; [done|exact Hp| |exact Hend].
    unfold place. by rewrite length_app, <- app_assoc.
Qed.
Lemma acts_newline : acts insert_newline (write newline).
Proof.
  apply (acts_push_line _ (move_by (λ t, (t.1 ++ newline, t.2)))). apply acts_doc.
  intros pre l1 l2 post b (Hpre & H1 & H2 & Hpost) w i Hw Hd Hn. cbn [place lines cursor_row cursor_col]. rewrite list_lookup_middle by done.
  assert (ascii (l1 ++ l2)) as Ha by by apply plain_ascii, plain_app.
  apply wp_bind, wp_ret. apply wp_bind. eapply wp_mono with (P := λ r w', r = Ok l2 ∧ w' = w).
  { destruct (Nat.ltb_spec (length l1) (length (l1 ++ l2))) as [Hl|Hl].
    - rewrite ascii_from by done || lia. rewrite drop_app_length. by apply wp_ret.
    - rewrite length_app in Hl. destruct l2; [|cbn in Hl; lia]. by apply wp_ret. }
  intros ? ? [-> ->]. rewrite ascii_truncate, take_app_length by done. apply wp_bind, wp_ret. rewrite insert_middle. cbv zeta.
  apply wp_bind, wp_modify. eapply (wp_edited _ (pre ++ [l1]) [] l2 post true); [done| | |].
  - repeat split; try done; [by apply Forall_app_2; [|constructor]|constructor].
  - unfold place. rewrite length_app, take_app_ge, drop_app_ge by lia. replace (length pre + 1 - length pre) with 1 by lia.
    done.
  - intros w'. unfold move_by. rewrite Hn, above_snoc. cbn. by rewrite app_nil_r.
Qed.

Lemma move_remember f t i : now i = t → move_by f (remember i) = move_by (λ _, f t) (remember i).
Proof. by intros <-. Qed.
Lemma erase_before_nil i : (now i).1 = [] → erase_before i = i.
Proof. unfold erase_before. by intros ->. Qed.
Lemma erase_before_snoc i t c : (now i).1 = t ++ [c] → erase_before i = move_by (λ x, (t, x.2)) (remember i).
Proof.
  unfold erase_before, move_by. intros Hn. cbn [remember now past future]. destruct ((now i).1) as [|x y] eqn:He; [by destruct t|].
  by rewrite Hn, take_snoc_pred.
Qed.
Lemma erase_after_nil i : (now i).2 = [] → erase_after i = i.
Proof. unfold erase_after. by intros ->. Qed.
Lemma erase_after_cons i c t : (now i).2 = c :: t → erase_after i = move_by (λ x, (x.1, t)) (remember i).
Proof. unfold erase_after. by intros ->. Qed.

Lemma acts_delete_backward : acts delete_backward erase_before.
Proof.
  apply acts_doc. intros pre l1 l2 post b (Hpre & H1 & H2 & Hpost) w i Hw Hd Hn. cbn [place lines cursor_row cursor_col].
  apply wp_bind. destruct l1 as [|c l1 _] using rev_ind.
  - cbn [length]. change (0 <? 0) with false. cbv iota. destruct pre as [|l pre _] using rev_ind.
    + cbn [length]. change (0 <? 0) with false. cbv iota. apply wp_ret. rewrite erase_before_nil by by rewrite Hn.
      eapply acts_wp; [apply acts_edited|done|done].
    + apply Forall_app in Hpre as [Hpre Hl]. inversion_clear Hl. rewrite length_app. cbn [length app]. rewrite (proj2 (Nat.ltb_lt _ _)) by lia.
      apply wp_bind. eapply acts_wp; [apply acts_push|done|]. intros w1 Hw1. unfold remove_line.
      rewrite list_lookup_middle by (rewrite length_app; done). apply wp_bind, wp_bind, wp_ret, wp_ret.
      replace (length pre + 1) with (length (pre ++ [l])) by (by rewrite length_app). rewrite delete_middle.
      replace (length (pre ++ [l]) - 1) with (length pre) by (rewrite length_app; cbn; lia). rewrite <- app_assoc. cbn [app].
      rewrite list_lookup_middle by done. apply wp_bind, wp_ret. rewrite insert_middle. apply wp_modify.
      eapply (wp_edited _ pre l l2 post true); [done|by repeat split|done|]. intros w' Hw'. split; [done|].
      rewrite (erase_before_snoc _ (above pre ++ l) 10%Z) by (rewrite Hn; cbn; by rewrite app_nil_r, above_snoc).
      rewrite (move_remember _ _ _ Hn). exact Hw'.
  - rewrite !length_app. cbn [length]. rewrite (proj2 (Nat.ltb_lt _ _)) by lia.
    apply Forall_app in H1 as [H1 Hc]. apply wp_bind. eapply acts_wp; [apply acts_push|done|]. intros w1 Hw1.
    rewrite list_lookup_middle by done. rewrite !length_app. cbn [length]. rewrite (proj2 (Nat.leb_le _ _)) by lia.
    rewrite <- app_assoc. replace (length l1 + 1 - 1) with (length l1) by lia. rewrite ascii_remove; cycle 1.
    { apply plain_ascii, plain_app; [done|]. by apply plain_app. }
    { rewrite length_app. cbn. lia. }
    rewrite take_app_length. replace (drop (S (length l1)) (l1 ++ [c] ++ l2)) with l2.
    2: { rewrite drop_app_ge by lia. by replace (S (length l1) - length l1) with 1 by lia. }
    apply wp_bind, wp_ret. rewrite insert_middle. apply wp_modify.
    eapply (wp_edited _ pre l1 l2 post true); [done|by repeat split|done|]. intros w' Hw'. split; [done|].
    rewrite (erase_before_snoc _ (above pre ++ l1) c) by (rewrite Hn; cbn; by rewrite app_assoc).
    rewrite (move_remember _ _ _ Hn). exact Hw'.
Qed.
Lemma acts_delete_forward : acts delete_forward erase_after.
Proof.
  apply acts_doc. intros pre l1 l2 post b (Hpre & H1 & H2 & Hpost) w i Hw Hd Hn. cbn [place lines cursor_row cursor_col].
  rewrite list_lookup_middle by done. apply wp_bind. destruct l2 as [|c l2].
  - rewrite app_nil_r, Nat.ltb_irrefl, length_app. destruct post as [|l post]; cbn [length].
    + rewrite Nat.ltb_irrefl. apply wp_ret. rewrite erase_after_nil by by rewrite Hn. eapply acts_wp; [apply acts_edited|done|done].
    + inversion_clear Hpost. rewrite (proj2 (Nat.ltb_lt _ _)) by lia. apply wp_bind. eapply acts_wp; [apply acts_push|done|]. intros w1 Hw1.
      replace (pre ++ l1 :: l :: post) with ((pre ++ [l1]) ++ l :: post) by (by rewrite <- app_assoc).
      replace (length pre + 1) with (length (pre ++ [l1])) by (by rewrite length_app). unfold remove_line.
      rewrite list_lookup_middle, delete_middle by done. apply wp_bind, wp_bind, wp_ret, wp_ret. rewrite <- app_assoc. cbn [app].
      rewrite insert_middle. apply wp_modify.
      eapply (wp_edited _ pre l1 l post true); [done|by repeat split|done|]. intros w' Hw'. split; [done|].
      rewrite (erase_after_cons _ 10%Z (l ++ below post)) by (by rewrite Hn).
      rewrite (move_remember _ _ _ Hn). exact Hw'.
  - rewrite length_app. cbn [length]. rewrite (proj2 (Nat.ltb_lt _ _)) by lia. apply wp_bind. eapply acts_wp; [apply acts_push|done|]. intros w1 Hw1.
    rewrite ascii_remove; [|by apply plain_ascii, plain_app|rewrite length_app; cbn; lia]. rewrite take_app_length.
    replace (drop (S (length l1)) (l1 ++ c :: l2)) with l2.
    2: { rewrite drop_app_ge by lia. by replace (S (length l1) - length l1) with 1 by lia. }
    inversion_clear H2. apply wp_bind, wp_ret. rewrite insert_middle. apply wp_modify.
    eapply (wp_edited _ pre l1 l2 post true); [done|by repeat split|done|]. intros w' Hw'. split; [done|].
    rewrite (erase_after_cons _ c (l2 ++ below post)) by (by rewrite Hn).
    rewrite (move_remember _ _ _ Hn). exact Hw'.
Qed.

(** *** Moving *)

(** The cursor of [place pre l1 l2 post] moves to another place of the same lines. *)
Definition moves (move : EditorSnapshot → M position) (f : text → text) : Prop :=
  ∀ pre l1 l2 post b, plains pre l1 l2 post → ∃ pre' l1' l2' post', plains pre' l1' l2' post' ∧
    pre' ++ (l1' ++ l2') :: post' = pre ++ (l1 ++ l2) :: post ∧
    looks (move (place pre l1 l2 post b)) (λ p, p = (length pre', length l1')) ∧
    f (above pre ++ l1, l2 ++ below post) = (above pre' ++ l1', l2' ++ below post').
Lemma acts_moving select move f : moves move f → acts (moving select move) (move_by f).
Proof.
  intros Hm w i Hw. destruct (refines_place _ _ Hw) as (pre & l1 & l2 & post & b & Hd & Hp & Hn).
  destruct (Hm _ _ _ _ b Hp) as (pre' & l1' & l2' & post' & Hp' & Hls & Hmove & Hf).
  apply wp_bind, wp_gets. cbv zeta. rewrite Hd. apply wp_bind. eapply wp_mono; [apply Hmove|]. intros ? ? (-> & ? & -> & ->).
  cbn [lines place is_dirty]. rewrite <- Hls. pose proof (set_place _ _ pre' l1' l2' post' b Hw Hp') as Hset. unfold place in Hset.
  apply wp_bind, wp_modify. apply wp_bind. eapply acts_wp; [by apply (acts_edit (with_selection _ _))|exact Hset|]. intros w' Hw'.
  apply acts_visible. unfold move_by in *. by rewrite Hn, Hf.
Qed.

(** A row of the document, from the place of the cursor. *)
Lemma line_len_at ls r l (d : EditorSnapshot) : lines d = ls → ls !! r = Some l → looks (line_len d r) (λ n, n = length l).
Proof. intros <- Hl. eapply looks_bind_unwrap; [done|]. by apply looks_ret. Qed.
Lemma moves_left : moves (λ d,
  if 0 <? cursor_col d then mret (cursor_row d, cursor_col d - 1)
  else if 0 <? cursor_row d then n ← line_len d (cursor_row d - 1); mret (cursor_row d - 1, n)
  else mret (cursor_row d, cursor_col d)) left_of.
Proof.
  intros pre l1 l2 post b (Hpre & H1 & H2 & Hpost). cbn [place cursor_row cursor_col].
  destruct l1 as [|c l1 _] using rev_ind; [destruct pre as [|l pre _] using rev_ind|].
  - exists [], [], l2, post. split_and!; [done|done| |done]. by apply looks_ret.
  - apply Forall_app in Hpre as [Hpre Hl]. inversion_clear Hl.
    exists pre, l, [], (l2 :: post). split_and!; [by repeat split; try constructor|by rewrite app_nil_r, <- app_assoc| |].
    + cbn [length]. change (0 <? 0) with false. cbv iota. rewrite length_app. cbn [length]. rewrite (proj2 (Nat.ltb_lt _ _)) by lia.
      rewrite Nat.add_sub. eapply looks_bind; [eapply line_len_at; [done|]|].
      * cbn. rewrite <- app_assoc. by apply list_lookup_middle.
      * intros ? ->. by apply looks_ret.
    + unfold left_of. cbn [fst snd]. rewrite app_nil_r, above_snoc. unfold newline. by rewrite last_snoc, take_snoc_pred.
  - apply Forall_app in H1 as [H1 Hc].
    exists pre, l1, (c :: l2), post. split_and!; [|by rewrite <- app_assoc| |].
    + repeat split; try done. by apply (plain_app [c]).
    + rewrite length_app. cbn [length]. rewrite (proj2 (Nat.ltb_lt _ _)) by lia. apply looks_ret. by rewrite Nat.add_sub.
    + unfold left_of. cbn [fst snd]. rewrite app_assoc, last_snoc. by rewrite take_snoc_pred.
Qed.
Lemma moves_right : moves (λ d,
  if cursor_row d <? length (lines d) then
    n ← line_len d (cursor_row d);
    mret (if cursor_col d <? n then (cursor_row d, cursor_col d + 1)
          else if cursor_row d + 1 <? length (lines d) then (cursor_row d + 1, 0) else (cursor_row d, cursor_col d))
  else mret (cursor_row d, cursor_col d)) right_of.
Proof.
  intros pre l1 l2 post b (Hpre & H1 & H2 & Hpost). cbn [place cursor_row cursor_col lines]. rewrite !length_app. cbn [length].
  rewrite (proj2 (Nat.ltb_lt (length pre) _)) by lia.
  assert (∀ (Q : position → Prop) p, (∀ n, n = length (l1 ++ l2) → Q (p n)) →
    looks (n ← line_len (mkSnapshot (pre ++ (l1 ++ l2) :: post) (length pre) (length l1) b) (length pre); mret (p n)) Q) as Hlen.
  { intros Q p HQ. eapply looks_bind; [by eapply line_len_at; [done|apply list_lookup_middle]|]. intros n ->. apply looks_ret. by apply HQ. }
  destruct l2 as [|c l2]; [destruct post as [|l post]|].
  - exists pre, l1, [], []. split_and!; [by repeat split|done| |done]. apply Hlen. intros n ->.
    rewrite app_nil_r, Nat.ltb_irrefl. cbn [length]. by rewrite Nat.ltb_irrefl.
  - inversion_clear Hpost. exists (pre ++ [l1]), [], l, post. split_and!.
    + repeat split; try done. apply Forall_app_2; [done|by constructor].
    + cbn. by rewrite app_nil_r, <- app_assoc.
    + apply Hlen. intros n ->. rewrite app_nil_r, Nat.ltb_irrefl. cbn [length]. rewrite (proj2 (Nat.ltb_lt _ _)) by lia. by rewrite length_app.
    + unfold right_of. cbn [fst snd app below concat map newline]. by rewrite above_snoc, app_nil_r.
  - inversion_clear H2. exists pre, (l1 ++ [c]), l2, post. split_and!.
    + repeat split; try done. apply plain_app; [done|by constructor].
    + by rewrite <- app_assoc.
    + apply Hlen. intros n ->. rewrite !length_app. cbn [length]. by rewrite (proj2 (Nat.ltb_lt _ _)) by lia.
    + unfold right_of. cbn [fst snd app]. by rewrite app_assoc.
Qed.
Lemma moves_home : moves (λ d, mret (cursor_row d, 0)) home_of.
Proof.
  intros pre l1 l2 post b (Hpre & H1 & H2 & Hpost). exists pre, [], (l1 ++ l2), post. split_and!; [|done|by apply looks_ret|].
  - repeat split; try done; first [by apply plain_app|by constructor].
  - unfold home_of. cbn [fst snd]. by rewrite before_line_above, last_line_above, app_nil_r, app_assoc by done.
Qed.
Lemma moves_end : moves (λ d,
  if cursor_row d <? length (lines d) then n ← line_len d (cursor_row d); mret (cursor_row d, n) else mret (cursor_row d, cursor_col d)) end_of.
Proof.
  intros pre l1 l2 post b (Hpre & H1 & H2 & Hpost). exists pre, (l1 ++ l2), [], post. split_and!; [|by rewrite app_nil_r| |].
  - repeat split; try done; first [by apply plain_app|by constructor].
  - cbn [place cursor_row cursor_col lines]. rewrite length_app. cbn [length]. rewrite (proj2 (Nat.ltb_lt _ _)) by lia.
    eapply looks_bind; [by eapply line_len_at; [done|apply list_lookup_middle]|]. intros n ->. by apply looks_ret.
  - unfold end_of. cbn [fst snd]. by rewrite first_line_below, after_line_below, app_assoc by done.
Qed.
Lemma moves_up : moves (λ d,
  if 0 <? cursor_row d then n ← line_len d (cursor_row d - 1); mret (cursor_row d - 1, cursor_col d `min` n)
  else mret (cursor_row d, cursor_col d)) up_of.
Proof.
  intros pre l1 l2 post b (Hpre & H1 & H2 & Hpost). cbn [place cursor_row cursor_col lines].
  unfold up_of. cbn [fst snd]. rewrite last_line_above, before_line_above by done.
  destruct pre as [|l pre _] using rev_ind.
  - exists [], l1, l2, post. split_and!; [by repeat split|done|by apply looks_ret|done].
  - apply Forall_app in Hpre as [Hpre Hl]. inversion_clear Hl as [|? ? Hpl _].
    exists pre, (take (length l1) l), (drop (length l1) l), ((l1 ++ l2) :: post). split_and!.
    + repeat split; [done|by apply plain_take|by apply plain_drop|constructor; [by apply plain_app|done]].
    + by rewrite take_drop, <- app_assoc.
    + rewrite length_app. cbn [length]. rewrite (proj2 (Nat.ltb_lt _ _)) by lia. rewrite Nat.add_sub.
      eapply looks_bind; [eapply line_len_at; [done|]|].
      * cbn [lines place]. rewrite <- app_assoc. by apply list_lookup_middle.
      * intros ? ->. apply looks_ret. by rewrite length_take.
    + rewrite above_snoc. unfold newline. rewrite last_snoc, take_snoc_pred, last_line_above, before_line_above by done.
      rewrite below_cons. unfold newline. by rewrite <- !app_assoc.
Qed.
Lemma moves_down : moves (λ d,
  if cursor_row d + 1 <? length (lines d) then n ← line_len d (cursor_row d + 1); mret (cursor_row d + 1, cursor_col d `min` n)
  else mret (cursor_row d, cursor_col d)) down_of.
Proof.
  intros pre l1 l2 post b (Hpre & H1 & H2 & Hpost). cbn [place cursor_row cursor_col lines]. rewrite length_app. cbn [length].
  unfold down_of. cbn [fst snd]. rewrite last_line_above, first_line_below, after_line_below by done. destruct post as [|l post].
  - exists pre, l1, l2, []. cbn [length]. rewrite (proj2 (Nat.ltb_ge _ _)) by lia. split_and!; [by repeat split|done|by apply looks_ret|done].
  - inversion_clear Hpost as [|? ? Hpl Hpost']. exists (pre ++ [l1 ++ l2]), (take (length l1) l), (drop (length l1) l), post.
    cbn [length]. rewrite (proj2 (Nat.ltb_lt _ _)) by lia. split_and!.
    + repeat split; [|by apply plain_take|by apply plain_drop|done]. apply Forall_app_2; [done|]. constructor; [by apply plain_app|done].
    + by rewrite take_drop, <- app_assoc.
    + eapply looks_bind; [eapply (line_len_at _ _ l); [done|]|].
      * cbn [lines place]. rewrite lookup_app_r by lia. by replace (length pre + 1 - length pre) with 1 by lia.
      * intros ? ->. apply looks_ret. by rewrite length_take, length_app.
    + rewrite below_cons. cbn [app newline]. rewrite first_line_below, after_line_below by done.
      by rewrite above_snoc, <- !app_assoc.
Qed.
(** The first and the last place. *)
Lemma text_from_start pre l post l0 ls : pre ++ l :: post = l0 :: ls → above pre ++ l ++ below post = l0 ++ below ls.
Proof.
  revert l0 ls. induction pre as [|x pre IH]; intros l0 ls; [by intros [= -> ->]|]. intros [= <- Hls]. destruct ls as [|l1 ls]; [by destruct pre|].
  rewrite below_cons, <- (IH _ _ Hls). unfold above. cbn. by rewrite <- !app_assoc.
Qed.
Lemma text_to_end pre l post k ls : pre ++ l :: post = ls ++ [k] → above pre ++ l ++ below post = above ls ++ k.
Proof.
  revert l pre k ls. induction post as [|x post IH]; intros l pre k ls Hls.
  - apply app_inj_tail in Hls as [-> ->]. by rewrite app_nil_r.
  - rewrite below_cons. rewrite <- (IH x (pre ++ [l]) k ls) by by rewrite <- app_assoc. rewrite above_snoc. by rewrite <- !app_assoc.
Qed.
Lemma moves_start : moves (λ _, mret (0, 0)) at_start.
Proof.
  intros pre l1 l2 post b (Hpre & H1 & H2 & Hpost). destruct (pre ++ (l1 ++ l2) :: post) as [|l0 ls] eqn:Hls; [by destruct pre|].
  assert (Forall plain (l0 :: ls)) as Hp by (rewrite <- Hls; apply Forall_app_2; [done|]; constructor; [by apply plain_app|done]).
  inversion_clear Hp. exists [], [], l0, ls. split_and!; [repeat split; first [done|by constructor]|done|by apply looks_ret|].
  unfold at_start. cbn [fst snd above concat map app]. rewrite <- (text_from_start _ _ _ _ _ Hls). by rewrite <- !app_assoc.
Qed.
Lemma moves_to_end : moves (λ d, mret (document_end d)) at_end.
Proof.
  intros pre l1 l2 post b (Hpre & H1 & H2 & Hpost).
  destruct (exists_last (l := pre ++ (l1 ++ l2) :: post)) as (ls & k & Hls); [by destruct pre|].
  assert (Forall plain (ls ++ [k])) as Hp by (rewrite <- Hls; apply Forall_app_2; [done|]; constructor; [by apply plain_app|done]).
  apply Forall_app in Hp as [Hp Hk]. inversion_clear Hk. exists ls, k, [], []. split_and!; [repeat split; first [done|by constructor]|by rewrite app_nil_r| |].
  - apply looks_ret. unfold document_end. cbn [lines place]. by rewrite Hls, last_snoc, length_app, Nat.add_sub.
  - unfold at_end. cbn [fst snd below concat map app]. by rewrite <- (text_to_end _ _ _ _ _ Hls), <- !app_assoc.
Qed.
Lemma acts_select_all : acts select_all (move_by at_end).
Proof.
  apply acts_doc. intros pre l1 l2 post b Hp w i Hw Hd Hn. destruct (moves_to_end _ _ _ _ b Hp) as (pre' & l1' & l2' & post' & Hp' & Hls & He & Hf).
  destruct (He w) as (_ & p & [= <-] & Hpos). rewrite Hpos. cbn [place lines is_dirty]. rewrite <- Hls.
  apply wp_bind. eapply acts_wp; [by apply (acts_edit (with_selection _ _))|done|]. intros w1 Hw1. apply wp_bind, wp_modify.
  pose proof (set_place _ _ pre' l1' l2' post' b Hw1 Hp') as Hset. unfold place in Hset.
  replace (move_by at_end i) with (move_by (λ _, (above pre' ++ l1', l2' ++ below post')) i) by (unfold move_by; by rewrite Hn, Hf).
  by apply acts_visible.
Qed.

(** ** Keys *)

Lemma last_text u i : map text_of u = i → last i = text_of <$> last u.
Proof. intros <-. by rewrite <- fmap_last. Qed.
Lemma acts_undo : acts undo go_back.
Proof.
  intros w i Hw. pose proof Hw as []. apply wp_bind, wp_gets. unfold go_back. rewrite (last_text _ _ r_past0).
  destruct (last (undo_stack (ed w))) as [d|] eqn:Hl; [|by apply acts_status].
  apply wp_bind, wp_modify. apply (acts_bind _ _ _ _ acts_visible (acts_status _)). cbn [fmap option_fmap option_map].
  split; cbn [ed doc undo_stack redo_stack with_history with_doc past now future show_unsaved_dialog finder]; try done.
  - exact (last_Forall _ _ _ r_undo0 Hl).
  - by apply Forall_take.
  - apply Forall_app_2; [done|by constructor].
  - by rewrite <- r_past0, <- fmap_take, length_map.
  - rewrite map_app. cbn [map]. by rewrite r_future0, r_now0.
Qed.
Lemma acts_redo : acts redo go_forth.
Proof.
  intros w i Hw. pose proof Hw as []. apply wp_bind, wp_gets. unfold go_forth. rewrite (last_text _ _ r_future0).
  destruct (last (redo_stack (ed w))) as [d|] eqn:Hl; [|by apply acts_status].
  apply wp_bind, wp_modify. apply (acts_bind _ _ _ _ acts_visible (acts_status _)). cbn [fmap option_fmap option_map].
  split; cbn [ed doc undo_stack redo_stack with_history with_doc past now future show_unsaved_dialog finder]; try done.
  - exact (last_Forall _ _ _ r_redo0 Hl).
  - apply Forall_app_2; [done|by constructor].
  - by apply Forall_take.
  - rewrite map_app. cbn [map]. by rewrite r_past0, r_now0.
  - by rewrite <- r_future0, <- fmap_take, length_map.
Qed.
Lemma acts_toggle_wrap : acts toggle_word_wrap (λ i, i).
Proof.
  apply (acts_bind _ _ (λ i, i) (λ i, i)); [by apply acts_edit|]. intros w i Hw. apply wp_bind, wp_gets. by apply acts_status.
Qed.
Lemma acts_save : acts save_file (λ i, i).
Proof.
  intros w i Hw. apply wp_bind, wp_gets. apply wp_bind. eapply acts_wp; [by apply acts_edit|exact Hw|]. intros w1 Hw1.
  destruct (refines_place _ _ Hw1) as (pre & l1 & l2 & post & b & Hd & Hp & Hn). apply wp_bind, wp_gets. rewrite Hd.
  apply wp_bind, wp_modify. apply wp_bind, wp_modify. apply acts_status. pose proof (set_place _ _ pre l1 l2 post false Hw1 Hp) as Hset.
  unfold move_by in Hset. rewrite <- Hn in Hset. by destruct i.
Qed.
Lemma acts_typed k s : acts match typed k s with Some c => insert_char [c] | None => mret tt end
  match typed k s with Some c => write [c] | None => λ i, i end.
Proof. destruct (typed k s) as [c|] eqn:Hc; [|apply acts_ret]. by eapply acts_insert, plain_typed. Qed.

Create HintDb acts discriminated.
#[local] Hint Constants Opaque : acts.
#[local] Hint Resolve acts_ret acts_undo acts_redo acts_toggle_wrap acts_save acts_select_all acts_newline acts_delete_backward
  acts_delete_forward acts_typed : acts.
Lemma acts_plain_key k s : acts (plain_key k s) (ideal_key (mkKey k false s)).
Proof.
  pose proof (acts_moving s _ _ moves_left). pose proof (acts_moving s _ _ moves_right). pose proof (acts_moving s _ _ moves_up).
  pose proof (acts_moving s _ _ moves_down). pose proof (acts_moving s _ _ moves_home). pose proof (acts_moving s _ _ moves_end).
  pose proof (acts_typed k s). unfold plain_key, ideal_key. cbn [ctrl code shift].
  repeat case_match; first [assumption|solve [auto with acts]].
Qed.
Lemma acts_control_key k s : text_key (mkKey k true s) = true → acts (control_key k) (ideal_key (mkKey k true s)).
Proof.
  pose proof (acts_moving false _ _ moves_start). pose proof (acts_moving false _ _ moves_to_end).
  unfold text_key, control_key, ideal_key. cbn [ctrl code shift andb]. intros Hk.
  repeat case_match; first [assumption|solve [auto with acts]|done].
Qed.

Definition press (to_lowercase : bytes → bytes) (k : key) : M unit := handle_key_input to_lowercase (code k) true (ctrl k) (shift k).
Lemma acts_press lower k : text_key k = true → acts (press lower k) (ideal_key k).
Proof.
  intros Hk w i Hw. unfold press, handle_key_input. cbn [negb]. apply wp_bind, wp_gets. rewrite (r_dialog _ _ Hw), (r_field _ _ Hw).
  cbn [orb Z.eqb]. destruct k as [k [] s]; [by apply acts_control_key|by apply acts_plain_key].
Qed.
Lemma acts_keys lower ks : Forall (λ k, text_key k = true) ks → acts (for_each ks (press lower)) (λ i, foldl (λ i k, ideal_key k i) i ks).
Proof.
  induction 1 as [|k ks Hk Hks IH]; [apply acts_ret|]. exact (acts_bind _ _ _ _ (acts_press lower k Hk) IH).
Qed.


(** ** Undoing *)

Definition undo_key : key := mkKey 44 true false.
Definition redo_key : key := mkKey 21 true false.
(** A key that types or deletes. *)
Definition edit_key (k : key) : bool := negb (ctrl k) && negb (existsb (Z.eqb (code k)) [71; 72; 75; 77; 79; 80]%Z).
Abbreviation press_all i ks := (foldl (λ i k, ideal_key k i) i ks).

(** The steps of the history and the text. *)
Definition trail (i : Ideal) : list text := past i ++ [now i].

Lemma edit_key_text k : edit_key k = true → text_key k = true.
Proof. unfold edit_key, text_key. intros [H _]%andb_true_iff. by destruct (ctrl k). Qed.
(** An edit changes nothing, or leaves a step. *)
Lemma edit_key_step k i : edit_key k = true → ideal_key k i = i ∨ ∃ f, ideal_key k i = move_by f (remember i).
Proof.
  unfold edit_key, ideal_key. intros [Hc Hk]%andb_true_iff. destruct (ctrl k); [done|]. clear Hc.
  assert (∀ c, write c i = i ∨ ∃ f, write c i = move_by f (remember i)) as Hw by (intros c; right; by eexists).
  assert (erase_before i = i ∨ ∃ f, erase_before i = move_by f (remember i)) as Hb by (unfold erase_before; case_match; [by left|right; by eexists]).
  assert (erase_after i = i ∨ ∃ f, erase_after i = move_by f (remember i)) as Ha by (unfold erase_after; case_match; [by left|right; by eexists]).
  repeat case_match; first [done|apply Hw|exact Hb|exact Ha|by left].
Qed.
Lemma trail_remember f i : ∃ t, trail (move_by f (remember i)) = (if MAX_UNDO_STEPS <=? length (past i) then drop 1 (trail i) else trail i) ++ [t].
Proof.
  eexists. unfold trail, move_by, remember. cbn [past now]. case_match; [|done].
  destruct (past i); [reflect; unfold MAX_UNDO_STEPS in *; cbn in *; lia|done].
Qed.
(** The texts since [i] are the last of the history. *)
Lemma edits_trail ks i : Forall (λ k, edit_key k = true) ks → length ks ≤ MAX_UNDO_STEPS →
  ∃ pre ts, trail (press_all i ks) = pre ++ now i :: ts ∧ length ts ≤ length ks.
Proof.
  induction ks as [|k ks IH] using rev_ind; intros Hks Hlen; [by exists (past i), []|]. rewrite length_app in Hlen. cbn [length] in Hlen.
  apply Forall_app in Hks as [Hks Hk]. inversion_clear Hk as [|? ? Hk' _]. destruct IH as (pre & ts & Ht & Hts); [done|lia|].
  rewrite foldl_app, length_app. cbn [foldl length]. destruct (edit_key_step k (press_all i ks) Hk') as [-> | [f ->]].
  { exists pre, ts. split; [done|lia]. }
  destruct (trail_remember f (press_all i ks)) as [t ->]. rewrite Ht. destruct (Nat.leb_spec MAX_UNDO_STEPS (length (past (press_all i ks)))) as [Hp|Hp].
  - assert (length (trail (press_all i ks)) = length (past (press_all i ks)) + 1) as Hl by (unfold trail; by rewrite length_app).
    rewrite Ht, length_app in Hl. cbn [length] in Hl. destruct pre as [|p pre]; [cbn [length] in Hl; lia|].
    exists pre, (ts ++ [t]). split; [cbn; by rewrite drop_0, <- app_assoc|rewrite length_app; cbn; lia].
  - exists pre, (ts ++ [t]). split; [by rewrite <- app_assoc|rewrite length_app; cbn; lia].
Qed.
Lemma go_back_trail i pre t u : trail i = (pre ++ [t]) ++ [u] → go_back i = mkIdeal pre t (future i ++ [u]) ∧ go_forth (go_back i) = i.
Proof.
  unfold trail. intros [Hp Hn]%app_inj_tail. unfold go_back, go_forth. destruct i as [p n f]. cbn in *. subst.
  rewrite last_snoc. cbn [past now future]. rewrite take_snoc_pred, last_snoc. cbn [past now future]. by rewrite take_snoc_pred.
Qed.
Lemma back_and_forth ts i pre t : trail i = pre ++ t :: ts →
  now (press_all i (replicate (length ts) undo_key)) = t ∧
  press_all i (replicate (length ts) undo_key ++ replicate (length ts) redo_key) = i.
Proof.
  revert i. induction ts as [|u ts IH] using rev_ind; intros i Ht; [by apply app_inj_tail in Ht as [_ <-]|].
  assert (∃ pre' v, pre ++ t :: ts = pre' ++ [v]) as (pre' & v & Hv).
  { destruct (exists_last (l := pre ++ t :: ts)) as (pre' & v & Hv); [by destruct pre|]. eauto. }
  rewrite app_comm_cons, app_assoc, Hv in Ht. destruct (go_back_trail _ _ _ _ Ht) as [Hb Hf].
  rewrite length_app. cbn [length]. rewrite Nat.add_1_r. cbn [replicate]. destruct (IH (go_back i)) as [Hn Hi].
  { rewrite Hb. unfold trail. cbn [past now]. by rewrite Hv. }
  split; [exact Hn|]. rewrite <- Hf at 2. rewrite <- Hi.
  replace ((undo_key :: replicate (length ts) undo_key) ++ redo_key :: replicate (length ts) redo_key)
    with (undo_key :: (replicate (length ts) undo_key ++ replicate (length ts) redo_key) ++ [redo_key]); [cbn [foldl]; by rewrite foldl_app|].
  cbn [app]. by rewrite <- app_assoc, <- replicate_S_end.
Qed.

