(* ===== verification/EditorClip.v ===== *)
(** * The text editor: the clipboard

    Cutting takes the selected text out of the document and puts it on the
    clipboard; pasting it again restores the text.  At the end, the theorems of
    the editor at concrete documents, and what goes wrong beyond ASCII text. *)
From S2P Require Import Prelude Bytes Text Keyboard StrOps Editor EditorProps EditorText.

(** ** Two places in a document *)

(** What is between two positions of the lines [ls]: [b] before, [m] between, [a] behind. *)
Inductive selected (ls : list bytes) : position → position → bytes → bytes → bytes → list bytes → bytes → bytes → list bytes → Prop :=
  | in_line pre x m y post : plains pre x y post → plain m → ls = pre ++ (x ++ m ++ y) :: post →
      selected ls (length pre, length x) (length pre, length x + length m) (above pre ++ x) m (y ++ below post) pre x y post
  | over_lines pre x m1 mid m2 y post : plains pre x y post → plain m1 → Forall plain mid → plain m2 →
      ls = pre ++ (x ++ m1) :: mid ++ (m2 ++ y) :: post →
      selected ls (length pre, length x) (length pre + 1 + length mid, length m2)
        (above pre ++ x) (m1 ++ newline ++ above mid ++ m2) (y ++ below post) pre x y post.

Abbreviation at_position d p := (mkSnapshot (lines d) p.1 p.2 (is_dirty d)).
Lemma before_cases p q : before p q = true → p.1 < q.1 ∨ p.1 = q.1 ∧ p.2 ≤ q.2.
Proof. unfold before. intros H. reflect. destruct H; reflect; lia. Qed.
Lemma ordered_before p q from to : ordered p q = (from, to) → before from to = true.
Proof.
  unfold ordered. destruct (before p q) eqn:H; intros [= <- <-]; [done|]. unfold before in *.
  apply orb_false_iff in H as [H1 H2]. apply andb_false_iff in H2. reflect. apply orb_true_iff.
  destruct (decide (q.1 = p.1)) as [He|He]; [right|left; apply Nat.ltb_lt; lia].
  apply andb_true_iff. split; [by apply Nat.eqb_eq|]. apply Nat.leb_le. destruct H2 as [H2|H2]; reflect; lia.
Qed.
Lemma above_cons l ls : above (l :: ls) = l ++ newline ++ above ls.
Proof. unfold above. cbn. by rewrite <- app_assoc. Qed.
Lemma above_app ls ls' : above (ls ++ ls') = above ls ++ above ls'.
Proof. unfold above. by rewrite map_app, concat_app. Qed.
Lemma below_mid mid l post : below (mid ++ l :: post) = newline ++ above mid ++ l ++ below post.
Proof.
  induction mid as [|k mid IH]; [done|]. rewrite <- app_comm_cons, below_cons, IH, above_cons. by rewrite <- !app_assoc.
Qed.
Lemma selected_between d p q : clean (at_position d p) → clean (at_position d q) → before p q = true →
  ∃ b m a pre x y post, selected (lines d) p q b m a pre x y post ∧ text_of (at_position d p) = (b, m ++ a) ∧ text_of (at_position d q) = (b ++ m, a).
Proof.
  intros Hp Hq Hpq. destruct (clean_place _ Hp) as (pre & l1 & l2 & post & b & Hd & Hpl). destruct (clean_place _ Hq) as (pre' & l1' & l2' & post' & b' & Hd' & Hpl').
  rewrite Hd, Hd', !place_text. destruct p as [r c], q as [r' c']. cbn [fst snd] in *. injection Hd as Hls -> -> _. injection Hd' as Hls' -> -> _.
  destruct Hpl as (Hpre & H1 & H2 & Hpost), Hpl' as (Hpre' & H1' & H2' & Hpost'). apply before_cases in Hpq. cbn [fst snd] in Hpq.
  rewrite Hls in Hls'. destruct Hpq as [Hlt|[Heq Hle]].
  - assert (∃ mid, pre' = pre ++ (l1 ++ l2) :: mid) as [mid ->].
    { assert (take (length pre + 1) pre' = pre ++ [l1 ++ l2]) as Ht.
      { assert (take (length pre + 1) (pre' ++ (l1' ++ l2') :: post') = pre ++ [l1 ++ l2]) as H.
        { rewrite <- Hls', take_app_ge by lia. by replace (length pre + 1 - length pre) with 1 by lia. }
        by rewrite take_app_le in H by lia. }
      exists (drop (length pre + 1) pre'). rewrite <- (take_drop (length pre + 1) pre') at 1. by rewrite Ht, <- app_assoc. }
    rewrite <- app_assoc in Hls'. cbn [app] in Hls'. apply app_inv_head in Hls'. injection Hls' as Hpost''.
    apply Forall_app in Hpre' as [_ Hmid]. inversion_clear Hmid.
    exists (above pre ++ l1), (l2 ++ newline ++ above mid ++ l1'), (l2' ++ below post'), pre, l1, l2', post'. split_and!.
    + rewrite length_app. cbn [length]. replace (length pre + S (length mid)) with (length pre + 1 + length mid) by lia.
      constructor; [by repeat split|done|done|done|]. rewrite Hls, Hpost''. done.
    + rewrite Hpost'', below_mid. by rewrite <- !app_assoc.
    + rewrite above_app, above_cons. by rewrite <- !app_assoc.
  - apply app_inj_1 in Hls' as [<- Hls']; [|done]. injection Hls' as Hl <-.
    assert (∃ m, l1' = l1 ++ m ∧ l2 = m ++ l2') as (m & -> & ->).
    { exists (drop (length l1) l1'). assert (take (length l1) l1' = l1) as Ht.
      { rewrite <- (take_app_le _ l2' _) by lia. by rewrite <- Hl, take_app_length. }
      split; [by rewrite <- Ht at 1; rewrite take_drop|]. apply (app_inv_head l1). rewrite Hl. rewrite <- (take_drop (length l1) l1') at 1.
      by rewrite Ht, <- app_assoc. }
    apply Forall_app in H1' as [_ Hm]. exists (above pre ++ l1), m, (l2' ++ below post), pre, l1, l2', post. split_and!.
    + rewrite length_app. constructor; [by repeat split|done|by rewrite Hls].
    + by rewrite <- app_assoc.
    + by rewrite app_assoc.
Qed.

(** ** Copying *)

(** The rows from [from] on, of which the first is behind the start. *)
Lemma extract_rows d from to mid pre m2 y post : lines d = pre ++ mid ++ (m2 ++ y) :: post → ascii (m2 ++ y) → Forall ascii mid →
  from.1 < length pre → to = (length pre + length mid, length m2) →
  looks (extract d from to (seq (length pre) (length mid + 1))) (λ t, t = above mid ++ m2).
Proof.
  intros Hls Ha Hmid Hfrom ->. revert pre Hls Hfrom. induction Hmid as [|l mid Hl Hmid IH]; intros pre Hls Hfrom.
  - cbn [length Nat.add seq extract fst snd]. rewrite Hls. cbn [app]. rewrite list_lookup_middle by done.
    rewrite (proj2 (Nat.eqb_neq _ _)) by lia. rewrite Nat.add_0_r, Nat.eqb_refl, Nat.ltb_irrefl. cbn [Nat.leb andb].
    rewrite Nat.min_l by (rewrite length_app; lia). eapply looks_bind; [apply looks_unwrap; apply ascii_slice; [done|rewrite length_app; lia]|].
    intros ? ->. eapply looks_bind with (P := λ t, t = []); [by apply looks_ret|]. intros ? ->. apply looks_ret. rewrite Nat.sub_0_r, drop_0, take_app_length. by rewrite app_nil_r.
  - cbn [length Nat.add seq extract fst snd]. rewrite Hls. cbn [app]. rewrite list_lookup_middle by done.
    rewrite (proj2 (Nat.eqb_neq _ from.1)) by lia. rewrite (proj2 (Nat.eqb_neq (length pre) _)) by lia. rewrite (proj2 (Nat.ltb_lt _ _)) by lia.
    cbn [Nat.leb andb]. eapply looks_bind; [apply looks_unwrap; by apply ascii_slice; [|lia]|].
    intros ? ->. eapply looks_bind; [|intros ? Ht; apply looks_ret].
    + specialize (IH (pre ++ [l])). rewrite length_app in IH. cbn [length] in IH.
      replace (length pre + S (length mid)) with (length pre + 1 + length mid) by lia.
      replace (S (length pre)) with (length pre + 1) by lia. apply IH; [by rewrite <- app_assoc|lia].
    + cbn beta in Ht. rewrite Ht. rewrite Nat.sub_0_r, drop_0, take_ge by done. by rewrite above_cons, <- !app_assoc.
Qed.
Lemma extract_selected d p q b m a pre x y post : selected (lines d) p q b m a pre x y post →
  looks (extract d p q (seq p.1 (q.1 + 1 - p.1))) (λ t, t = m).
Proof.
  intros Hs. inversion Hs as [? ? ? ? ? (Hpre & Hx & Hy & Hpost) Hm Hls|? ? m1 mid m2 ? ? (Hpre & Hx & Hy & Hpost) Hm1 Hmid Hm2 Hls]; subst; cbn [fst snd].
  - replace (length pre + 1 - length pre) with 1 by lia. cbn [seq extract fst snd]. rewrite Hls, list_lookup_middle by done.
    rewrite !Nat.eqb_refl, Nat.ltb_irrefl, !Nat.min_l by (rewrite !length_app; lia).
    rewrite (proj2 (Nat.leb_le _ (length x + length m))), (proj2 (Nat.leb_le _ (length (x ++ m ++ y)))) by (rewrite ?length_app; lia). cbn [andb].
    eapply looks_bind; [apply looks_unwrap; apply ascii_slice; [by apply plain_ascii; repeat apply plain_app|rewrite !length_app; lia]|].
    intros ? ->. eapply looks_bind with (P := λ t, t = []); [by apply looks_ret|]. intros ? ->. apply looks_ret.
    rewrite drop_app_length. replace (length x + length m - length x) with (length m) by lia. by rewrite take_app_length, app_nil_r.
  - replace (length pre + 1 + length mid + 1 - length pre) with (S (length mid + 1)) by lia. cbn [seq extract fst snd].
    rewrite Hls, list_lookup_middle by done. rewrite Nat.eqb_refl, (proj2 (Nat.eqb_neq _ _)), (proj2 (Nat.ltb_lt (length pre) _)) by lia.
    rewrite Nat.min_l by (rewrite length_app; lia). rewrite (proj2 (Nat.leb_le _ _)) by (rewrite length_app; lia). cbn [andb].
    eapply looks_bind; [apply looks_unwrap; apply ascii_slice; [by apply plain_ascii, plain_app|rewrite length_app; lia]|].
    intros ? ->. eapply looks_bind; [|intros ? Ht; apply looks_ret].
    + replace (S (length pre)) with (length (pre ++ [x ++ m1])) by (rewrite length_app; cbn; lia).
      eapply (extract_rows d _ _ mid (pre ++ [x ++ m1]) m2 y post).
      * by rewrite Hls, <- app_assoc.
      * by apply plain_ascii, plain_app.
      * eapply Forall_impl; [exact Hmid|apply plain_ascii].
      * rewrite length_app. cbn. lia.
      * by rewrite length_app.
    + cbn beta in Ht. rewrite Ht, drop_app_length, take_ge by (rewrite length_app; lia). done.
Qed.

(** ** Cutting *)

Lemma without_selected d p q b m a pre x y post : selected (lines d) p q b m a pre x y post →
  looks (without d p q) (λ d', lines d' = pre ++ (x ++ y) :: post ∧ cursor_row d' = length pre ∧ cursor_col d' = length x).
Proof.
  intros Hs. inversion Hs as [? ? ? ? ? (Hpre & Hx & Hy & Hpost) Hm Hls|? ? m1 mid m2 ? ? (Hpre & Hx & Hy & Hpost) Hm1 Hmid Hm2 Hls]; subst;
    unfold without; cbn [fst snd]; rewrite Hls.
  - rewrite Nat.eqb_refl, length_app. cbn [length]. rewrite (proj2 (Nat.ltb_lt _ _)) by lia. cbn [andb].
    assert (ascii (x ++ m ++ y)) as Ha by (apply plain_ascii; by repeat apply plain_app).
    rewrite list_lookup_middle by done. eapply looks_bind_unwrap; [done|]. rewrite !length_app, !Nat.min_l by lia.
    eapply looks_bind_unwrap; [apply ascii_to; [done|rewrite !length_app; lia]|].
    eapply looks_bind_unwrap; [apply ascii_from; [done|rewrite !length_app; lia]|]. apply looks_ret. cbn [lines cursor_row cursor_col].
    rewrite insert_middle, take_app_length. split_and!; [|done|done]. by rewrite app_assoc, <- length_app, drop_app_length.
  - rewrite (proj2 (Nat.eqb_neq _ _)) by lia. rewrite !length_app. cbn [length]. rewrite length_app. cbn [length andb].
    rewrite !(proj2 (Nat.ltb_lt _ _)) by lia. cbn [andb]. rewrite (list_lookup_middle pre _ _ (length pre)) by done.
    eapply looks_bind_unwrap; [done|]. rewrite Nat.min_l by (rewrite length_app; lia).
    eapply looks_bind_unwrap; [apply ascii_to; [by apply plain_ascii, plain_app|rewrite length_app; lia]|].
    replace (pre ++ (x ++ m1) :: mid ++ (m2 ++ y) :: post) with ((pre ++ (x ++ m1) :: mid) ++ (m2 ++ y) :: post) by (by rewrite <- app_assoc).
    rewrite list_lookup_middle by (rewrite length_app; cbn; lia).
    eapply looks_bind_unwrap; [done|]. rewrite Nat.min_l by (rewrite length_app; lia).
    eapply looks_bind_unwrap; [apply ascii_from; [by apply plain_ascii, plain_app|rewrite length_app; lia]|].
    apply looks_ret. cbn [lines cursor_row cursor_col]. split_and!; [|done|done].
    rewrite take_app_length, drop_app_length, <- app_assoc, take_app_length. do 2 f_equal.
    rewrite app_assoc, drop_app_ge by (rewrite length_app; cbn; lia). rewrite length_app. cbn [length].
    by replace (length pre + 1 + length mid + 1 - (length pre + S (length mid))) with 1 by lia.
Qed.
Lemma selected_plains ls p q b m a pre x y post : selected ls p q b m a pre x y post →
  plains pre x y post ∧ b = above pre ++ x ∧ a = y ++ below post.
Proof. by inversion 1. Qed.

(** A selection that is copied, of at most 64 KB. *)
Lemma wp_copied m (Q : outcome Empty_set unit → EditorWorld → Prop) w : (Z.of_nat (length m) ≤ MAX_CLIPBOARD_BYTES)%Z →
  Q (Ok tt) (mkWorld (ed w) (file_store w) m) → wp (copy_to_clipboard m) Q w.
Proof.
  intros Hm HQ. unfold copy_to_clipboard. rewrite (proj2 (Z.ltb_ge _ _)) by done. apply wp_bind, wp_ret, wp_modify. exact HQ.
Qed.
Lemma cut_selected w i p q from to b m a pre x y post : refines (ed w) i →
  selection_anchor (ed w) = Some p → selection_focus (ed w) = Some q → ordered p q = (from, to) →
  selected (lines (doc (ed w))) from to b m a pre x y post → (Z.of_nat (length m) ≤ MAX_CLIPBOARD_BYTES)%Z →
  wp cut_selection (λ r w', r = Ok tt ∧ refines (ed w') (move_by (λ _, (b, a)) (remember i)) ∧ clipboard w' = m) w.
Proof.
  intros Hw Hp Hq Ho Hs Hm. destruct (selected_plains _ _ _ _ _ _ _ _ _ _ Hs) as (Hpl & -> & ->).
  apply wp_bind. pose proof (acts_push w i Hw) as [_ Hw1]. apply wp_modify.
  change (push_undo_snapshot w).2 with (mkWorld (with_history ((if MAX_UNDO_STEPS <=? length (undo_stack (ed w)) then drop 1 (undo_stack (ed w))
    else undo_stack (ed w)) ++ [doc (ed w)]) [] (ed w)) (file_store w) (clipboard w)) in Hw1. cbn [ed] in *.
  set (s1 := with_history _ [] (ed w)) in *. assert (doc s1 = doc (ed w)) as Hd by done.
  assert (selection_anchor s1 = Some p) as Hp1 by done. assert (selection_focus s1 = Some q) as Hq1 by done. clearbody s1.
  apply wp_bind. unfold copy_selection at 1. apply wp_bind, wp_gets. cbn [ed]. rewrite Hp1, Hq1, Ho, Hd.
  apply wp_bind. eapply wp_mono; [by eapply extract_selected|]. intros ? ? (-> & ? & -> & ->). apply wp_bind, wp_copied; [done|].
  apply wp_modify. cbn [ed file_store clipboard]. apply wp_bind, wp_gets. cbn [ed]. cbn [with_status selection_anchor selection_focus doc]. cbv zeta.
  rewrite Hp1, Hq1, Ho, Hd. apply wp_bind. eapply wp_mono; [by eapply without_selected|]. intros ? ? (-> & d' & -> & Hl & Hr & Hc).
  rewrite Hl, Hr, Hc. apply wp_bind, wp_modify, wp_bind, wp_modify, wp_bind, wp_modify, wp_modify. cbn [ed clipboard]. split_and!; [done| |done].
  destruct Hw1. split; try done; [by apply (place_clean pre x y post true)|by apply (place_text pre x y post true)].
Qed.

(** ** Pasting *)

(** What is pasted: printable characters and the ends of lines. *)
Definition pastable (c : Z) : Prop := c = 10%Z ∨ (32 ≤ c ≤ 126)%Z.
Lemma acts_paste_char c : pastable c → acts (paste_char c) (write [c]).
Proof.
  unfold paste_char. intros [-> | Hc]; [apply acts_newline|]. rewrite (proj2 (Z.eqb_neq c 10)) by lia.
  rewrite (proj2 (Z.leb_le 32 c)), (proj2 (Z.leb_le c 126)) by lia. apply acts_insert. repeat constructor; lia.
Qed.
Lemma acts_paste t : Forall pastable t → acts (for_each t paste_char) (λ i, foldl (λ i c, write [c] i) i t).
Proof. induction 1 as [|c t Hc Ht IH]; [apply acts_ret|]. exact (acts_bind _ _ _ _ (acts_paste_char _ Hc) IH). Qed.
Lemma written t i : now (foldl (λ i c, write [c] i) i t) = ((now i).1 ++ t, (now i).2).
Proof.
  revert i. induction t as [|c t IH]; intros i; cbn [foldl]; [by rewrite app_nil_r; destruct (now i)|].
  rewrite IH. cbn. by rewrite <- app_assoc.
Qed.
Lemma wp_paste w i (Q : outcome Empty_set unit → EditorWorld → Prop) : refines (ed w) i → Forall pastable (clipboard w) →
  (∀ w' j, refines (ed w') j → now j = ((now i).1 ++ clipboard w, (now i).2) → Q (Ok tt) w') → wp paste_clipboard Q w.
Proof.
  intros Hw Hc HQ. apply wp_bind. pose proof (acts_push w i Hw) as [_ Hw1]. apply wp_modify. apply wp_bind, wp_gets.
  change (clipboard _) with (clipboard w). apply wp_bind. eapply acts_wp; [by apply acts_paste|exact Hw1|]. intros w2 Hw2.
  eapply acts_wp; [apply (acts_bind _ _ _ _ acts_visible (acts_status _))|exact Hw2|]. intros w3 Hw3. eapply HQ; [exact Hw3|]. by rewrite written.
Qed.



Definition lower_ascii (l : bytes) : bytes := map (λ c, if ((65 <=? c) && (c <=? 90))%Z then (c + 32)%Z else c) l.
Lemma lower_ascii_folds : folds_ascii lower_ascii.
Proof.
  intros l Hl. split; [|apply length_map]. apply Forall_fmap. eapply Forall_impl; [exact Hl|]. intros c Hc. cbn beta in *. unfold compose.
  destruct (_ && _) eqn:He; [reflect; lia|done].
Qed.

(** "ab" and "cd" with the cursor behind the "c". *)
Definition small_doc : EditorSnapshot := mkSnapshot [str "ab"; str "cd"] 1 1 false.
Definition small (anchor focus : option position) : EditorWorld :=
  mkWorld (mkEditor 7 3 None small_doc 0 0 [] [] anchor focus (mkFinder false false [] [] false 0) false false false []) ∅ [].
Definition small_ideal : Ideal := mkIdeal [] (str "ab" ++ newline ++ str "c", str "d") [].
Lemma small_plain : Forall plain [str "ab"; str "cd"].
Proof. repeat (constructor; [repeat constructor; cbv; done|]). constructor. Qed.
Lemma small_clean r c : r < 2 → c ≤ 2 → clean (mkSnapshot [str "ab"; str "cd"] r c false).
Proof.
  intros Hr Hc. split; [split; cbn; [apply small_plain|lia]|]. destruct r as [|[|r]]; [exists (str "ab")|exists (str "cd")|lia]; cbn; split; done || lia.
Qed.
Lemma small_refines a f : refines (ed (small a f)) small_ideal.
Proof. split; cbn; first [done|by constructor|apply small_clean; lia]. Qed.
Lemma small_ok a f : ed_ok (ed (small a f)).
Proof. split; cbn; first [done|by constructor|apply small_clean; lia|unfold MAX_UNDO_STEPS; lia]. Qed.

Lemma editor_survives_plain_text_witness :
  wp (for_each [Key 30 true false false; Key 44 true true false; Click 40 60 360 260; Key 45 true true false] (handle lower_ascii))
    (λ r w', r = Ok tt ∧ ed_ok (ed w')) (small None None).
Proof. exact (editor_survives_plain_text lower_ascii lower_ascii_folds _ (small None None) (small_ok None None)). Defined.

(** Typing, deleting, moving up and undoing. *)
Definition small_keys : list key := [mkKey 30 false true; mkKey 28 false false; mkKey 72 false false; mkKey 14 false false; mkKey 44 true false].
Example small_keys_text : now (foldl (λ i k, ideal_key k i) small_ideal small_keys) = (str "ab" ++ newline, str "cA" ++ newline ++ str "d").
Proof. vm_compute. reflexivity. Qed.



(** ** Beyond ASCII, and other surprises *)

Definition blank : EditorWorld := mkWorld (mkEditor 0 0 None (mkSnapshot [[]] 0 0 false) 0 0 [] [] None None (mkFinder false false [] [] false 0) false false false []) ∅ [].
Definition typing (ks : list Z) : M unit := for_each ks (λ k, press lower_ascii (mkKey k false false)).
Definition result {A} (m : M A) (w : EditorWorld) : outcome Empty_set A := (m w).1.
Definition shown {A} (m : M A) (w : EditorWorld) : text := text_of (doc (ed (m w).2)).
Definition searching (query : bytes) (w : EditorWorld) : EditorWorld := (on_finder (λ f, mkFinder true false query [] true 1) w).2.

(** (1) The notes that the editor itself provides: four lines down, into the
    second letter of the Turkish word, and a key is a panic.
    (2) The cursor stands behind a match on the only line: the search does not
    find it.
    (3) A pasted text takes one undo for each character and one more.
    (4) Tabulators are lost in pasting.
    (5) A replacement that finds nothing forgets what could be redone. *)
Theorem editor_hazards :
  result (editor_new 0 0 (Some (str "/home/teha/notes.txt"));; typing [80; 80; 80; 80; 77; 77; 77; 77; 30]%Z) blank = Panic ∧
  result (typing [30; 48; 57]%Z;; modify (searching (str "ab"));; find_next lower_ascii) blank = Ok false ∧
  shown (copy_to_clipboard (str "abc");; paste_clipboard;; undo) blank = (str "ab", []) ∧
  shown (copy_to_clipboard (str "abc");; paste_clipboard;; undo;; undo;; undo;; undo) blank = ([], []) ∧
  shown (copy_to_clipboard [97; 9; 98]%Z;; paste_clipboard) blank = (str "ab", []) ∧
  shown (typing [30]%Z;; undo;; redo) blank = (str "a", []) ∧
  shown (typing [30]%Z;; undo;; modify (searching (str "x"));; replace_all lower_ascii;; redo) blank = ([], []).
Proof. split_and!; vm_compute; reflexivity. Qed.
