(* ===== verification/Auth.v ===== *)
(** * Users, sessions and permissions (kernel/src/auth.rs, kernel/src/security.rs)

    The registered users with their salted password hashes, lockout and sessions;
    the capabilities and file modes of the security policy.
    A password can be guessed at three times, whatever else is asked of the
    kernel meanwhile; sessions are numbered afresh; the two checks of file
    permissions agree. *)
From S2P Require Import Prelude Bytes Text.

Module Accounts.

(** kernel/src/auth.rs:13-20 [AuthError] *)
Variant AuthError := UserNotFound | InvalidPassword | AccountLocked | SessionNotFound | PermissionDenied.
#[export] Instance AuthError_eq : EqDecision AuthError.
Proof. solve_decision. Defined.

(** kernel/src/auth.rs:22-29 [UserRecord] *)
Record UserRecord := mkUser {
  user_uid : Z;
  user_gid : Z;
  user_name : bytes;
  home_dir : bytes;
  user_shell : bytes;
}.

(** kernel/src/auth.rs:31-38 [ShadowRecord] *)
Record ShadowRecord := mkShadow {
  shadow_name : bytes;
  salt : bytes;
  password_hash : bytes;
  failed_attempts : Z;
  locked : bool;
}.

(** kernel/src/auth.rs:40-48 [Session] *)
Record Session := mkSession {
  session_id : Z;
  session_uid : Z;
  session_gid : Z;
  session_user : bytes;
  pids : list Z;
  active : bool;
}.

(** kernel/src/auth.rs:50-55 [AuthManager] *)
Record AuthManager := mkAuth {
  users : gmap bytes UserRecord;
  shadow : gmap bytes ShadowRecord;
  sessions : gmap Z Session;
  next_session_id : Z;
}.
Abbreviation M := (comp AuthManager AuthError).

(** kernel/src/auth.rs:58-65 [AuthManager::new] *)
Definition new : AuthManager := mkAuth ∅ ∅ ∅ 1.

(** A byte of the hash — kernel/src/auth.rs:71-74 [compute_hash, loop] *)
Definition fnv_step (h b : Z) : Z := wrap 64 (Z.lxor h b * 0x100000001b3).
(** kernel/src/auth.rs:68-85 [compute_hash] *)
Definition compute_hash (password salt : bytes) : bytes :=
  let h := foldl fnv_step (foldl fnv_step 0xcbf29ce484222325%Z password) salt in
  map (λ i, Z.lxor (wrap 8 (Z.shiftr h (8 * (7 - Z.of_nat i mod 8)))) (Z.of_nat i))%Z (seq 0 32).

(** kernel/src/auth.rs:97-103 [add_user, salt] *)
Definition salt_of (username : bytes) : bytes :=
  let s := map (λ b, Z.lxor b 170) (take 16 username) in s ++ replicate (16 - length s) 0%Z.

(** kernel/src/auth.rs:88-115 [add_user] *)
Definition add_user (username : bytes) (uid gid : Z) (password : bytes) : M unit :=
  let user := mkUser uid gid username (if (uid =? 0)%Z then str "/root" else str "/home/user") (str "/bin/sh") in
  let sh := mkShadow username (salt_of username) (compute_hash password (salt_of username)) 0 false in
  modify (λ s, mkAuth (<[username := user]> (users s)) (<[username := sh]> (shadow s)) (sessions s) (next_session_id s)).

Definition set_shadow (username : bytes) (sh : ShadowRecord) : M unit :=
  modify (λ s, mkAuth (users s) (<[username := sh]> (shadow s)) (sessions s) (next_session_id s)).
Definition with_failures (n : Z) (l : bool) (sh : ShadowRecord) : ShadowRecord :=
  mkShadow (shadow_name sh) (salt sh) (password_hash sh) n l.

(** kernel/src/auth.rs:118-154 [authenticate] *)
Definition authenticate (username password : bytes) : M Z :=
  s ← get;
  sh ← ok_or (shadow s !! username) UserNotFound;
  reject_if (locked sh) AccountLocked;;
  if negb (bool_decide (compute_hash password (salt sh) = password_hash sh)) then
    n ← unwrap (fits 8 (failed_attempts sh + 1));
    set_shadow username (with_failures n (if (3 <=? n)%Z then true else locked sh) sh);;
    throw InvalidPassword
  else
    set_shadow username (with_failures 0 (locked sh) sh);;
    user ← ok_or (users s !! username) UserNotFound;
    let id := next_session_id s in
    next ← unwrap (fits 32 (id + 1));
    modify (λ s, mkAuth (users s) (shadow s)
      (<[id := mkSession id (user_uid user) (user_gid user) username [] true]> (sessions s)) next);;
    mret id.

(** kernel/src/auth.rs:157-163 [logout] *)
Definition logout (id : Z) : M unit :=
  s ← get;
  _ ← ok_or (sessions s !! id) SessionNotFound;
  modify (λ s, mkAuth (users s) (shadow s) (delete id (sessions s)) (next_session_id s)).

(** kernel/src/auth.rs:166-188 [check_posix_permission] *)
Definition check_posix_permission (uid gid inode_uid inode_gid mode requested_right : Z) : bool :=
  if (uid =? 0)%Z then true
  else
    let shift := if (uid =? inode_uid)%Z then 6%Z else if (gid =? inode_gid)%Z then 3%Z else 0%Z in
    let perm := Z.land (Z.shiftr mode shift) 7 in
    (Z.land perm requested_right =? requested_right)%Z.
End Accounts.

Module Policy.

(** kernel/src/security.rs:78-96 [Capability] *)
Definition NONE : Z := 0.
Definition SYS_ADMIN : Z := 2 ^ 0.
Definition FILE_READ : Z := 2 ^ 1.
Definition FILE_WRITE : Z := 2 ^ 2.
Definition NET : Z := 2 ^ 3.
Definition SYS_TIME : Z := 2 ^ 4.
Definition SYS_RAWIO : Z := 2 ^ 5.
Definition SYS_MODULE : Z := 2 ^ 6.
Definition PROCESS_KILL : Z := 2 ^ 7.
Definition ALL : Z := u64_max.

(** kernel/src/security.rs:103-105 [Capability::contains] *)
Definition contains (mask other : Z) : bool := (Z.land mask other =? other)%Z.

(** kernel/src/security.rs:134-143 [Permission] *)
Variant Permission := Admin | ReadFile | WriteFile | Network | RawIo | SetTime | LoadModule | KillProcess.
(** kernel/src/security.rs:146-157 [required_cap] *)
Definition required_cap (p : Permission) : Z :=
  match p with
  | Admin => SYS_ADMIN | ReadFile => FILE_READ | WriteFile => FILE_WRITE | Network => NET
  | RawIo => SYS_RAWIO | SetTime => SYS_TIME | LoadModule => SYS_MODULE | KillProcess => PROCESS_KILL
  end.

(** kernel/src/security.rs:164-172 [MODE_OWNER_READ, ...] *)
Definition MODE_OWNER_READ : Z := 256.
Definition MODE_OWNER_WRITE : Z := 128.
Definition MODE_OWNER_EXEC : Z := 64.
Definition MODE_GROUP_READ : Z := 32.
Definition MODE_GROUP_WRITE : Z := 16.
Definition MODE_GROUP_EXEC : Z := 8.
Definition MODE_OTHER_READ : Z := 4.
Definition MODE_OTHER_WRITE : Z := 2.
Definition MODE_OTHER_EXEC : Z := 1.

(** kernel/src/security.rs:174-179 [FileAccess] *)
Variant FileAccess := Read | Write | Execute.

(** kernel/src/security.rs:185-191 [User] *)
Record User := mkPolicyUser { uid : Z; gid : Z; name : bytes; caps : Z }.
(** kernel/src/security.rs:194-197 [Group] *)
Record Group := mkGroup { group_gid : Z; group_name : bytes }.
(** kernel/src/security.rs:203-209 [Credentials] *)
Record Credentials := mkCredentials { cred_uid : Z; cred_gid : Z; cred_groups : list Z; cred_caps : Z }.

(** kernel/src/security.rs:213-220 [Credentials::new] *)
Definition credentials_new (u g : Z) : Credentials := mkCredentials u g [] NONE.
(** kernel/src/security.rs:223-230 [Credentials::root] *)
Definition credentials_root : Credentials := mkCredentials 0 0 [] ALL.
(** kernel/src/security.rs:232-236 [add_group] *)
Definition add_group (g : Z) (c : Credentials) : Credentials :=
  if bool_decide (g ∈ cred_groups c) then c else mkCredentials (cred_uid c) (cred_gid c) (cred_groups c ++ [g]) (cred_caps c).
(** kernel/src/security.rs:238-240 [add_cap] *)
Definition add_cap (cap : Z) (c : Credentials) : Credentials :=
  mkCredentials (cred_uid c) (cred_gid c) (cred_groups c) (Z.lor (cred_caps c) cap).
(** kernel/src/security.rs:246-248 [is_root] *)
Definition is_root (c : Credentials) : bool := (cred_uid c =? 0)%Z.

(** kernel/src/security.rs:262-281 [SecurityManager::new, users] *)
Definition policy_users : list User := [
  mkPolicyUser 0 0 (str "root") ALL;
  mkPolicyUser 1000 1000 (str "user") (Z.lor (Z.lor FILE_READ FILE_WRITE) NET);
  mkPolicyUser 65534 65534 (str "guest") NONE].
(** kernel/src/security.rs:282-286 [SecurityManager::new, groups] *)
Definition policy_groups : list Group := [mkGroup 0 (str "root"); mkGroup 1000 (str "user"); mkGroup 65534 (str "nogroup")].
(** kernel/src/security.rs:290-292 [get_user] *)
Definition get_user (u : Z) : option User := snd <$> list_find (λ x, uid x = u) policy_users.
(** kernel/src/security.rs:294-296 [lookup_user] *)
Definition lookup_user (n : bytes) : option User := snd <$> list_find (λ x, name x = n) policy_users.
(** kernel/src/security.rs:298-300 [get_group] *)
Definition get_group (g : Z) : option Group := snd <$> list_find (λ x, group_gid x = g) policy_groups.

(** kernel/src/security.rs:304-312 [credentials_for] *)
Definition credentials_for (u : Z) : option Credentials :=
  user ← get_user u;
  let creds := mkCredentials (uid user) (gid user) [] (caps user) in
  Some (match get_group (gid user) with Some g => add_group (group_gid g) creds | None => creds end).

(** kernel/src/security.rs:320-325 [syscall_capable] *)
Definition syscall_capable (c : Credentials) (cap : Z) : bool := if is_root c then true else contains (cred_caps c) cap.
(** kernel/src/security.rs:315-317 [check_permission] *)
Definition check_permission (c : Credentials) (required : Permission) : bool := syscall_capable c (required_cap required).

(** kernel/src/security.rs:328-354 [check_file_mode] *)
Definition check_file_mode (c : Credentials) (access : FileAccess) (owner group mode : Z) : bool :=
  if is_root c then true
  else
    let '(o, g, t) := match access with
      | Read => (MODE_OWNER_READ, MODE_GROUP_READ, MODE_OTHER_READ)
      | Write => (MODE_OWNER_WRITE, MODE_GROUP_WRITE, MODE_OTHER_WRITE)
      | Execute => (MODE_OWNER_EXEC, MODE_GROUP_EXEC, MODE_OTHER_EXEC)
      end in
    if (cred_uid c =? owner)%Z then negb (Z.land mode o =? 0)%Z
    else if (cred_gid c =? group)%Z || bool_decide (group ∈ cred_groups c) then negb (Z.land mode g =? 0)%Z
    else negb (Z.land mode t =? 0)%Z.
End Policy.

Import Accounts Policy.

(** ** Requests *)

Inductive request :=
  | AddUser (username : bytes) (uid gid : Z) (password : bytes)
  | Login (username password : bytes)
  | Logout (id : Z).
(** The answer to a login, if it is one. *)
Definition serve (r : request) (s : AuthManager) : option (outcome AuthError Z) * AuthManager :=
  match r with
  | AddUser u i g p => (None, (add_user u i g p s).2)
  | Login u p => let '(a, s) := authenticate u p s in (Some a, s)
  | Logout i => (None, (logout i s).2)
  end.

(** What the logins of [u] are answered, in a sequence of requests. *)
Fixpoint answers (u : bytes) (rs : list request) (s : AuthManager) : list (outcome AuthError Z) :=
  match rs with
  | [] => []
  | r :: rs =>
      let '(a, s') := serve r s in
      match r, a with
      | Login v _, Some a => (if decide (v = u) then [a] else []) ++ answers u rs s'
      | _, _ => answers u rs s'
      end
  end.
Definition registers (u : bytes) (r : request) : bool := match r with AddUser v _ _ _ => bool_decide (v = u) | _ => false end.
(** Whether the passwords that are tried for [u] have the hash of the record. *)
Fixpoint tries (u : bytes) (sh : ShadowRecord) (rs : list request) : list bool :=
  match rs with
  | [] => []
  | Login v p :: rs => (if decide (v = u) then [bool_decide (compute_hash p (salt sh) = password_hash sh)] else []) ++ tries u sh rs
  | _ :: rs => tries u sh rs
  end.

(** ** An account *)

(** Open, with the wrong guesses that are left, or locked. *)
Inductive account := Open (left : nat) | Locked.
Variant verdict := Granted | Denied | Refused.
#[export] Instance verdict_eq : EqDecision verdict.
Proof. solve_decision. Defined.
Fixpoint expected (a : account) (rights : list bool) : list verdict :=
  match rights, a with
  | [], _ => []
  | _ :: rights, Locked => Refused :: expected Locked rights
  | true :: rights, Open _ => Granted :: expected (Open 3) rights
  | false :: rights, Open n => Denied :: expected (if n <=? 1 then Locked else Open (n - 1)) rights
  end.
Definition account_of (sh : ShadowRecord) : account := if locked sh then Locked else Open (3 - Z.to_nat (failed_attempts sh)).
Definition verdict_of (a : outcome AuthError Z) : option verdict :=
  match a with
  | Ok _ => Some Granted
  | Err InvalidPassword => Some Denied
  | Err AccountLocked => Some Refused
  | _ => None
  end.

(** What the manager guarantees: a record that is open has at most two failures. *)
Record sound (s : AuthManager) : Prop := {
  sound_failures : map_Forall (λ _ sh, 0 ≤ failed_attempts sh ≤ 3 ∧ (locked sh = false → failed_attempts sh < 3))%Z (shadow s);
  sound_users : ∀ u, is_Some (shadow s !! u) → is_Some (users s !! u);
  sound_sessions : ∀ i x, sessions s !! i = Some x → (session_id x = i ∧ i < next_session_id s)%Z;
  sound_next : (0 ≤ next_session_id s)%Z;
}.

(** What a login does. *)
Lemma login_spec u p s sh : sound s → shadow s !! u = Some sh → (next_session_id s + 1 < 2 ^ 32)%Z →
  let right := bool_decide (compute_hash p (salt sh) = password_hash sh) in
  let '(a, s') := authenticate u p s in
  sound s' ∧ (next_session_id s ≤ next_session_id s' ≤ next_session_id s + 1)%Z ∧
  ∃ sh', shadow s' = <[u := sh']> (shadow s) ∧ salt sh' = salt sh ∧ password_hash sh' = password_hash sh ∧
    match verdict_of a with Some v => expected (account_of sh) [right] = [v] | None => False end ∧
    ∀ rights, expected (account_of sh) (right :: rights) = expected (account_of sh) [right] ++ expected (account_of sh') rights.
Proof.
  intros Hs Hsh Hn right. pose proof Hs as [Hf Hu Hi H0]. pose proof (Hf _ _ Hsh) as [Hr Ho].
  assert (∀ n l, (0 ≤ n ≤ 3)%Z → (l = false → n < 3)%Z → ∀ ss nx, (∀ i x, ss !! i = Some x → (session_id x = i ∧ i < nx)%Z) → (0 ≤ nx)%Z →
    sound (mkAuth (users s) (<[u := with_failures n l sh]> (shadow s)) ss nx)) as Hsound.
  { intros n l Hnr Hl ss nx Hss Hnx. split; cbn; [by apply map_Forall_insert_2| |done|done].
    intros v [<-|[_ Hv]]%lookup_insert_is_Some; [apply Hu; by eexists|by apply Hu]. }
  destruct (Hu u) as [user Huser]; [by eexists|].
  unfold authenticate, ok_or, reject_if, get, mbind, comp_bind. rewrite Hsh. cbn [mret comp_ret]. unfold account_of at 1 2 3 4.
  destruct (locked sh) eqn:Hl; cbn [throw mret comp_ret].
  { split; [done|]. split; [lia|]. exists sh. rewrite insert_id by done. unfold account_of. rewrite Hl. split_and!; try done; by destruct right. }
  specialize (Ho eq_refl). fold right. destruct right eqn:Hright; cbn [negb].
  - unfold set_shadow, modify. cbn [users]. rewrite Huser. cbn [mret comp_ret].
    assert (fits 32 (next_session_id s + 1) = Some (next_session_id s + 1)%Z) as -> by (apply fits_Some; lia). cbn. split.
    { apply Hsound; [lia|done| |lia]. intros i x. rewrite lookup_insert_Some. intros [[<- <-]|[_ Hx]]; [cbn; lia|]. apply Hi in Hx. lia. }
    split; [cbn; lia|]. exists (with_failures 0 false sh). by split_and!.
  - assert (fits 8 (failed_attempts sh + 1) = Some (failed_attempts sh + 1)%Z) as -> by (apply fits_Some; lia). cbn. split.
    { apply Hsound; [lia|destruct (Z.leb_spec 3 (failed_attempts sh + 1)); [done|lia]|done|done]. }
    split; [lia|]. eexists. split_and!; [done|done|done|done|]. intros rights. unfold account_of, with_failures. cbn.
    destruct (Z.leb_spec 3 (failed_attempts sh + 1)) as [H3|H3].
    + assert (failed_attempts sh = 2)%Z as -> by lia. done.
    + assert (failed_attempts sh = 0 ∨ failed_attempts sh = 1)%Z as [-> | ->] by lia; done.
Qed.

(** ** Sequences of requests *)

Lemma login_unknown u p s : shadow s !! u = None → authenticate u p s = (Err UserNotFound, s).
Proof. intros Hu. unfold authenticate, get, mbind, comp_bind. by rewrite Hu. Qed.
Lemma add_user_sound u i g p s : sound s → sound (add_user u i g p s).2.
Proof.
  intros [Hf Hu Hi H0]. split; cbn; [| |done|done].
  - apply map_Forall_insert_2; [cbn; lia|done].
  - intros v [<-|[Hv Hs]]%lookup_insert_is_Some; [by rewrite lookup_insert_eq|]. rewrite lookup_insert_ne by done. by apply Hu.
Qed.
Lemma logout_sound i s : sound s → sound (logout i s).2 ∧ shadow (logout i s).2 = shadow s ∧ next_session_id (logout i s).2 = next_session_id s.
Proof.
  intros [Hf Hu Hi H0]. unfold logout, get, mbind, comp_bind. cbn. destruct (sessions s !! i); cbn; [|done]. split; [|done].
  split; cbn; try done. intros j x [_ Hx]%lookup_delete_Some. by apply Hi.
Qed.
(** A request keeps the manager sound, takes at most one number, and leaves
    the records of other users alone. *)
Lemma serve_other u r s : sound s → (next_session_id s + 1 < 2 ^ 32)%Z → match r with AddUser v _ _ _ => v ≠ u | Login v _ => v ≠ u | Logout _ => True end →
  let s' := (serve r s).2 in
  sound s' ∧ (next_session_id s ≤ next_session_id s' ≤ next_session_id s + 1)%Z ∧ shadow s' !! u = shadow s !! u.
Proof.
  intros Hs Hn Hr. destruct r as [v i g p|v p|i]; cbn [serve snd].
  - split_and!; [by apply add_user_sound|cbn; lia|cbn; lia|]. cbn. by rewrite lookup_insert_ne.
  - destruct (shadow s !! v) as [sh|] eqn:Hsh; [|rewrite login_unknown by done; cbn; split_and!; done || lia].
    pose proof (login_spec v p s sh Hs Hsh Hn) as H. destruct (authenticate v p s) as [a s']. cbn.
    destruct H as (Hs' & Hn' & sh' & Hsh' & _). split_and!; [done|lia|lia|]. by rewrite Hsh', lookup_insert_ne.
  - destruct (logout_sound i s Hs) as (? & -> & ->). split_and!; done || lia.
Qed.

Definition guesses_left (a : account) : nat := match a with Open n => n | Locked => 0 end.
Lemma denials_bounded a rights : Granted ∉ expected a rights → length (filter (λ v, v = Denied) (expected a rights)) ≤ guesses_left a `max` 1.
Proof.
  revert a. induction rights as [|[] rights IH]; intros [n|]; cbn [expected guesses_left]; intros H; [cbn; lia|cbn; lia|..].
  - by destruct H; left.
  - specialize (IH Locked). rewrite filter_cons_False by done. etransitivity; [apply IH; intros ?; apply H; by right|done].
  - rewrite filter_cons_True by done. cbn. destruct (Nat.leb_spec n 1) as [Hn|Hn].
    + assert (∀ r, filter (λ v, v = Denied) (expected Locked r) = []) as -> by (clear; intros r; induction r as [|[] r IH]; [done|..]; cbn [expected]; by rewrite filter_cons_False).
      cbn. lia.
    + specialize (IH (Open (n - 1))). cbn [guesses_left] in IH. assert (Granted ∉ expected (Open (n - 1)) rights) as Hg by (intros ?; apply H; by right).
      apply IH in Hg. cbn in *. lia.
  - specialize (IH Locked). rewrite filter_cons_False by done. etransitivity; [apply IH; intros ?; apply H; by right|done].
Qed.

Lemma tries_same u sh sh' rs : salt sh' = salt sh → password_hash sh' = password_hash sh → tries u sh' rs = tries u sh rs.
Proof. intros Hsalt Hhash. induction rs as [|[] rs IH]; cbn; [done|done| |done]. by rewrite IH, Hsalt, Hhash. Qed.


(** ** Sessions *)

(** A session that is opened is new and for the user that logged in; no other
    session changes. *)
Lemma login_opens_a_session u p s i s' : sound s → authenticate u p s = (Ok i, s') →
  sessions s !! i = None ∧
  (∃ user, users s !! u = Some user ∧ sessions s' = <[i := mkSession i (user_uid user) (user_gid user) u [] true]> (sessions s)) ∧
  (next_session_id s' = i + 1)%Z.
Proof.
  intros Hs H. assert (wp (authenticate u p) (λ r s', ∀ i, r = Ok i → sessions s !! i = None ∧
    (∃ user, users s !! u = Some user ∧ sessions s' = <[i := mkSession i (user_uid user) (user_gid user) u [] true]> (sessions s)) ∧
    (next_session_id s' = i + 1)%Z) s) as Hwp; [|eapply wp_result in Hwp; [|exact H]; by apply Hwp].
  unfold authenticate. apply wp_bind, wp_get. apply wp_bind, wp_ok_or; [done|]. intros sh Hsh. apply wp_bind, wp_reject_if; [done|]. intros Hl.
  destruct (negb _); [apply wp_bind, wp_unwrap; [done|]; intros n Hn; apply wp_bind, wp_modify; by apply wp_throw|].
  apply wp_bind, wp_modify. apply wp_bind, wp_ok_or; [done|]. intros user Huser. apply wp_bind, wp_unwrap; [done|]. intros n [-> Hn]%fits_Some.
  apply wp_bind, wp_modify, wp_ret. intros j [= <-]. cbn in *. split_and!; [|by exists user|done].
  destruct (sessions s !! next_session_id s) as [x|] eqn:Hx; [|done]. apply (sound_sessions _ Hs) in Hx. lia.
Qed.

(** ** File permissions *)

Lemma single_bit mode k : (0 ≤ k)%Z → Z.land mode (2 ^ k) = if Z.testbit mode k then (2 ^ k)%Z else 0%Z.
Proof.
  intros Hk. apply Z.bits_inj'. intros n Hn. rewrite Z.land_spec, Z.pow2_bits_eqb by done.
  destruct (Z.testbit mode k) eqn:Hb; [rewrite Z.pow2_bits_eqb by done|rewrite Z.bits_0]; destruct (Z.eqb_spec k n) as [->|]; by rewrite ?Hb, ?andb_false_r.
Qed.
Lemma mode_bit mode sh k right bit : (0 ≤ k < 3)%Z → (0 ≤ sh)%Z → right = (2 ^ k)%Z → bit = (2 ^ (sh + k))%Z →
  negb (Z.land mode bit =? 0)%Z = (Z.land (Z.land (Z.shiftr mode sh) 7) right =? right)%Z.
Proof.
  intros Hk Hs -> ->. symmetry. rewrite !single_bit by lia. rewrite Z.land_spec, Z.shiftr_spec by lia.
  assert (Z.testbit 7 k = true) as -> by (assert (k = 0 ∨ k = 1 ∨ k = 2)%Z as [->|[->| ->]] by lia; done). rewrite andb_true_r, (Z.add_comm k).
  pose proof (Z.pow_pos_nonneg 2 k). pose proof (Z.pow_pos_nonneg 2 (sh + k)).
  destruct (Z.testbit mode (sh + k)); [rewrite Z.eqb_refl; symmetry; apply negb_true_iff, Z.eqb_neq; lia|]. rewrite Z.eqb_refl. apply Z.eqb_neq. lia.
Qed.
Definition right_of_access (a : FileAccess) : Z := match a with Read => 4 | Write => 2 | Execute => 1 end%Z.

(** The two checks of file permissions agree: that of the user service for
    one right and that of the security policy, for every mode, owner and group
    and every process whose only further group is its own. *)
Theorem permission_checks_agree c a owner group mode :
  (∀ g, g ∈ cred_groups c → g = cred_gid c) →
  check_file_mode c a owner group mode = check_posix_permission (cred_uid c) (cred_gid c) owner group mode (right_of_access a).
Proof.
  intros Hg. unfold check_file_mode, check_posix_permission, is_root. destruct (cred_uid c =? 0)%Z; [done|].
  assert ((cred_gid c =? group)%Z || bool_decide (group ∈ cred_groups c) = (cred_gid c =? group)%Z) as ->.
  { destruct (Z.eqb_spec (cred_gid c) group) as [|Hne]; [done|]. apply bool_decide_eq_false. intros H. by destruct Hne; rewrite (Hg _ H). }
  cbv zeta. destruct a; cbn [right_of_access];
    (destruct (cred_uid c =? owner)%Z; [|destruct (cred_gid c =? group)%Z]);
    first [by apply (mode_bit _ _ 2)|by apply (mode_bit _ _ 1)|by apply (mode_bit _ _ 0)].
Qed.

(** ** Runs *)

Lemma new_sound : sound Accounts.new.
Proof. split; cbn; [done|intros u [? Hu]; by rewrite lookup_empty in Hu|intros i x Hx; by rewrite lookup_empty in Hx|done]. Qed.
Definition eve : AuthManager := (add_user (str "eve") 1001 1001 (str "secret") Accounts.new).2.
Definition eve_shadow : ShadowRecord := mkShadow (str "eve") (salt_of (str "eve")) (compute_hash (str "secret") (salt_of (str "eve"))) 0 false.
Definition guessing : list request :=
  [Login (str "eve") (str "a"); AddUser (str "bob") 7 7 (str "b"); Login (str "eve") (str "b"); Login (str "bob") (str "b"); Logout 1;
   Login (str "eve") (str "c"); Login (str "eve") (str "secret")].
(** The right password comes too late. *)
Example guessing_answers : answers (str "eve") guessing eve = [Err InvalidPassword; Err InvalidPassword; Err InvalidPassword; Err AccountLocked].
Proof. vm_compute. reflexivity. Qed.

Lemma permission_checks_agree_witness :
  check_file_mode (mkCredentials 1000 1000 [1000%Z] NONE) Write 0 1000 436 = check_posix_permission 1000 1000 0 1000 436 2.
Proof.
  apply (permission_checks_agree (mkCredentials 1000 1000 [1000%Z] NONE) Write 0 1000 436). intros g Hg. by apply list_elem_of_singleton in Hg.
Defined.
