(* ===== verification/Package.v ===== *)
(** * Packages (kernel/src/pkg.rs)

    The format of application packages: a header with the lengths of three
    parts and a checksum, a manifest of lines "key=value", a program and its
    resources.  The packages that are accepted are those that the builder makes,
    and they are read back as they were built; nothing makes the parser panic. *)
From S2P Require Import Prelude Bytes Text.

(** kernel/src/pkg.rs:9-10 [SPKG_MAGIC, SPKG_VERSION] *)
Definition SPKG_MAGIC : bytes := str "SPKG".
Definition SPKG_VERSION : Z := 1.

(** The fields of the packed header, in order — kernel/src/pkg.rs:14-21 [SpkgHeader] *)
Record SpkgHeader := mkHeader {
  magic : bytes;
  h_version : Z;
  manifest_len : Z;
  elf_len : Z;
  resources_len : Z;
  h_checksum : Z;
}.
Definition HEADER_SIZE : nat := 22.
(** The bytes of a header. *)
Definition header_bytes (h : SpkgHeader) : bytes :=
  magic h ++ to_le 2 (h_version h) ++ to_le 4 (manifest_len h) ++ to_le 4 (elf_len h) ++ to_le 4 (resources_len h) ++ to_le 4 (h_checksum h).
(** The header at the beginning of [l]. *)
Definition header_of (l : bytes) : SpkgHeader :=
  mkHeader (take 4 l) (from_le (take 2 (drop 4 l))) (from_le (take 4 (drop 6 l))) (from_le (take 4 (drop 10 l)))
    (from_le (take 4 (drop 14 l))) (from_le (take 4 (drop 18 l))).

(** kernel/src/pkg.rs:24-28 [PackagePermissions] *)
Record PackagePermissions := mkPermissions { filesystem_home : bool; network : bool; gui : bool }.
(** kernel/src/pkg.rs:31-36 [PackageManifest] *)
Record PackageManifest := mkManifest { m_name : bytes; m_version : bytes; m_entry : bytes; m_permissions : PackagePermissions }.
(** kernel/src/pkg.rs:39-43 [SpkgPackage] *)
Record SpkgPackage := mkPackage { manifest : PackageManifest; elf_bytes : bytes; resources_bytes : bytes }.
(** kernel/src/pkg.rs:46-55 [PkgError] *)
Variant PkgError := FileTooSmall | InvalidMagic | UnsupportedVersion | ChecksumMismatch | InvalidManifest | InvalidElfBinary
  | DuplicatePackage | NotFound.

(** kernel/src/pkg.rs:58-65 [calculate_checksum] *)
Definition calculate_checksum (data : bytes) : Z :=
  foldl (λ sum b, wrap 32 (Z.lxor sum b * 0x01000193))%Z 0x811c9dc5%Z data.

(** [l.lines()]: without the line breaks, and without an empty last line. *)
Definition strip_cr (l : bytes) : bytes := match last l with Some 13%Z => take (length l - 1) l | _ => l end.
Definition text_lines (l : bytes) : list bytes :=
  let parts := split 10 l in
  map strip_cr (match last parts with Some [] => take (length parts - 1) parts | _ => parts end).

Definition QUOTE : Z := 34.
Definition EQUALS : Z := 61.
(** A line of the manifest — kernel/src/pkg.rs:111-122 [parse_spkg, line] *)
Definition manifest_line (m : PackageManifest) (line : bytes) : PackageManifest :=
  match map trim (split EQUALS line) with
  | [k; v] =>
      let p := m_permissions m in
      let yes := bool_decide (v = str "true") in
      if bool_decide (k = str "name") then mkManifest (trim_matches QUOTE v) (m_version m) (m_entry m) p
      else if bool_decide (k = str "version") then mkManifest (m_name m) (trim_matches QUOTE v) (m_entry m) p
      else if bool_decide (k = str "entry") then mkManifest (m_name m) (m_version m) (trim_matches QUOTE v) p
      else if bool_decide (k = str "permission.fs_home") then
        mkManifest (m_name m) (m_version m) (m_entry m) (mkPermissions yes (network p) (gui p))
      else if bool_decide (k = str "permission.network") then
        mkManifest (m_name m) (m_version m) (m_entry m) (mkPermissions (filesystem_home p) yes (gui p))
      else if bool_decide (k = str "permission.gui") then
        mkManifest (m_name m) (m_version m) (m_entry m) (mkPermissions (filesystem_home p) (network p) yes)
      else m
  | _ => m
  end.
(** kernel/src/pkg.rs:103-123 [parse_spkg, manifest] *)
Definition parse_manifest (text : bytes) : PackageManifest :=
  foldl manifest_line (mkManifest [] [] [] (mkPermissions false false false)) (text_lines text).
(** kernel/src/pkg.rs:125-127 [parse_spkg, complete] *)
Definition incomplete (m : PackageManifest) : bool :=
  bool_decide (m_name m = []) || bool_decide (m_version m = []) || bool_decide (m_entry m = []).

Abbreviation M := (comp unit PkgError).
(** kernel/src/pkg.rs:68-151 [parse_spkg] *)
Definition parse_spkg (l : bytes) : M SpkgPackage :=
  reject_if (length l <? HEADER_SIZE) FileTooSmall;;
  let header := header_of l in
  reject_if (negb (bool_decide (magic header = SPKG_MAGIC))) InvalidMagic;;
  reject_if (negb (h_version header =? SPKG_VERSION)%Z) UnsupportedVersion;;
  let ml := Z.to_nat (manifest_len header) in
  let el := Z.to_nat (elf_len header) in
  let rl := Z.to_nat (resources_len header) in
  let total := ml + el + rl in
  reject_if (length l <? HEADER_SIZE + total) FileTooSmall;;
  payload ← unwrap (slice HEADER_SIZE (HEADER_SIZE + total) l);
  reject_if (negb (calculate_checksum payload =? h_checksum header)%Z) ChecksumMismatch;;
  text ← unwrap (slice 0 ml payload);
  text ← ok_or (from_utf8 text) InvalidManifest;
  let m := parse_manifest text in
  reject_if (incomplete m) InvalidManifest;;
  elf ← unwrap (slice ml (ml + el) payload);
  reject_if ((length elf <? 4) || negb (bool_decide (take 4 elf = [127; 69; 76; 70]%Z))) InvalidElfBinary;;
  resources ← unwrap (slice (ml + el) (length payload) payload);
  mret (mkPackage m elf resources).

(** kernel/src/pkg.rs:154-182 [build_spkg] *)
Definition build_spkg (text elf resources : bytes) : bytes :=
  let payload := text ++ elf ++ resources in
  let len l := wrap 32 (Z.of_nat (length l)) in
  header_bytes (mkHeader SPKG_MAGIC SPKG_VERSION (len text) (len elf) (len resources) (calculate_checksum payload)) ++ payload.

(** ** The format *)

Definition elf_magic (elf : bytes) : Prop := take 4 elf = [127; 69; 76; 70]%Z.
Definition fits_u32 (l : bytes) : Prop := (Z.of_nat (length l) < 2 ^ 32)%Z.

Lemma checksum_range l : (0 ≤ calculate_checksum l < 2 ^ 32)%Z.
Proof.
  unfold calculate_checksum. induction l as [|b l _] using rev_ind; [cbn; lia|]. rewrite foldl_app. cbn [foldl]. apply Z.mod_pos_bound. lia.
Qed.
Lemma length_header h : length (magic h) = 4 → length (header_bytes h) = HEADER_SIZE.
Proof. intros Hm. unfold header_bytes. by rewrite !length_app, Hm, !length_to_le. Qed.
Lemma header_of_app h l : length (magic h) = 4 → (0 ≤ h_version h < 2 ^ 16)%Z → (0 ≤ manifest_len h < 2 ^ 32)%Z → (0 ≤ elf_len h < 2 ^ 32)%Z →
  (0 ≤ resources_len h < 2 ^ 32)%Z → (0 ≤ h_checksum h < 2 ^ 32)%Z → header_of (header_bytes h ++ l) = h.
Proof.
  intros Hm Hv H1 H2 H3 H4. destruct h as [m v a b c d]. cbn [magic h_version manifest_len elf_len resources_len h_checksum] in *.
  unfold header_of, header_bytes. cbn [magic h_version manifest_len elf_len resources_len h_checksum].
  assert (∀ n z, (0 ≤ z < 2 ^ (8 * Z.of_nat n))%Z → ∃ k, to_le n z = k ∧ length k = n ∧ from_le k = z) as Hle.
  { intros n z Hz. exists (to_le n z). split_and!; [done|apply length_to_le|]. apply from_le_to_le. by rewrite Z.pow_mul_r in Hz by lia. }
  destruct (Hle 2 v Hv) as (lv & -> & Lv & <-), (Hle 4 a H1) as (la & -> & La & <-), (Hle 4 b H2) as (lb & -> & Lb & <-),
    (Hle 4 c H3) as (lc & -> & Lc & <-), (Hle 4 d H4) as (ld & -> & Ld & <-). clear Hle Hv H1 H2 H3 H4.
  destruct m as [|m0 [|m1 [|m2 [|m3 [|]]]]]; try done. destruct lv as [|v0 [|v1 [|]]]; try done.
  destruct la as [|a0 [|a1 [|a2 [|a3 [|]]]]]; try done. destruct lb as [|b0 [|b1 [|b2 [|b3 [|]]]]]; try done.
  destruct lc as [|c0 [|c1 [|c2 [|c3 [|]]]]]; try done. by destruct ld as [|d0 [|d1 [|d2 [|d3 [|]]]]].
Qed.


(** ** The header *)

Lemma to_le_field n m l : Forall byte l → m + n ≤ length l → to_le n (from_le (take n (drop m l))) = take n (drop m l).
Proof.
  intros Hl Hn. assert (length (take n (drop m l)) = n) as Hlen by (rewrite length_take, length_drop; lia).
  rewrite <- Hlen at 1. apply to_le_from_le. by apply Forall_take, Forall_drop.
Qed.
Lemma header_bytes_of l : Forall byte l → HEADER_SIZE ≤ length l → header_bytes (header_of l) = take HEADER_SIZE l.
Proof.
  unfold HEADER_SIZE. intros Hl Hn. unfold header_bytes, header_of. cbn [magic h_version manifest_len elf_len resources_len h_checksum].
  rewrite !to_le_field by done || lia.
  pose proof (take_take_drop l 4 2) as E1. pose proof (take_take_drop l 6 4) as E2. pose proof (take_take_drop l 10 4) as E3.
  pose proof (take_take_drop l 14 4) as E4. pose proof (take_take_drop l 18 4) as E5. cbn [Nat.add] in *.
  rewrite <- E5, <- E4, <- E3, <- E2, <- E1. by rewrite <- !app_assoc.
Qed.
Lemma header_of_built text elf resources tail : fits_u32 text → fits_u32 elf → fits_u32 resources →
  header_of (build_spkg text elf resources ++ tail) =
  mkHeader SPKG_MAGIC SPKG_VERSION (Z.of_nat (length text)) (Z.of_nat (length elf)) (Z.of_nat (length resources))
    (calculate_checksum (text ++ elf ++ resources)).
Proof.
  unfold fits_u32. intros H1 H2 H3. unfold build_spkg. rewrite <- app_assoc.
  assert (∀ n, (Z.of_nat n < 2 ^ 32)%Z → wrap 32 (Z.of_nat n) = Z.of_nat n) as Hw by (intros n Hn; apply Z.mod_small; lia).
  rewrite !Hw by done. rewrite header_of_app; [done|done|..]; cbn [h_version manifest_len elf_len resources_len h_checksum];
    first [apply checksum_range|unfold SPKG_VERSION; lia|lia].
Qed.

(** ** Parsing *)

(** What is checked of a package. *)
Definition well_formed (text : bytes) (p : SpkgPackage) : Prop :=
  utf8_valid text = true ∧ manifest p = parse_manifest text ∧ incomplete (manifest p) = false ∧ elf_magic (elf_bytes p) ∧
  fits_u32 text ∧ fits_u32 (elf_bytes p) ∧ fits_u32 (resources_bytes p).

Lemma parse_total l : ∃ r, parse_spkg l tt = (r, tt) ∧ r ≠ Panic.
Proof.
  cut (wp (parse_spkg l) (λ r _, r ≠ Panic) tt); [destruct (parse_spkg l tt) as [r []] eqn:E; intros H; exists r; split; [done|by eapply wp_run in H]|].
  unfold parse_spkg. apply wp_bind, wp_reject_if; [done|]. intros H1. cbv zeta. apply wp_bind, wp_reject_if; [done|]. intros _.
  apply wp_bind, wp_reject_if; [done|]. intros _. apply wp_bind, wp_reject_if; [done|]. intros H2. reflect.
  set (ml := Z.to_nat (manifest_len (header_of l))) in *. set (el := Z.to_nat (elf_len (header_of l))) in *.
  set (rl := Z.to_nat (resources_len (header_of l))) in *. clearbody ml el rl.
  rewrite slice_ok by lia. apply wp_bind, wp_ret, wp_bind, wp_reject_if; [done|]. intros _.
  set (payload := take _ _). assert (length payload = ml + el + rl) as Hlen by (subst payload; rewrite length_take, length_drop; lia). clearbody payload.
  rewrite (slice_ok 0 ml) by lia. apply wp_bind, wp_ret, wp_bind, wp_ok_or; [done|]. intros text _. apply wp_bind, wp_reject_if; [done|]. intros _.
  rewrite (slice_ok ml) by lia. apply wp_bind, wp_ret, wp_bind, wp_reject_if; [done|]. intros _.
  rewrite slice_ok by lia. by apply wp_bind, wp_ret, wp_ret.
Qed.
(** The lengths in a header are 32-bit numbers. *)
Lemma header_lengths l : Forall byte l → HEADER_SIZE ≤ length l →
  let h := header_of l in ((0 ≤ manifest_len h < 2 ^ 32) ∧ (0 ≤ elf_len h < 2 ^ 32) ∧ (0 ≤ resources_len h < 2 ^ 32))%Z.
Proof.
  unfold HEADER_SIZE. intros Hl Hn. assert (∀ m, m + 4 ≤ length l → (0 ≤ from_le (take 4 (drop m l)) < 2 ^ 32)%Z) as H.
  { intros m Hm. assert (length (take 4 (drop m l)) = 4) as Hlen by (rewrite length_take, length_drop; lia).
    pose proof (from_le_bound (take 4 (drop m l)) ltac:(by apply Forall_take, Forall_drop)) as Hb. by rewrite Hlen in Hb. }
  cbn. split_and!; apply H; lia.
Qed.
Lemma parse_accepts l p : Forall byte l → (parse_spkg l tt).1 = Ok p →
  ∃ text tail, l = build_spkg text (elf_bytes p) (resources_bytes p) ++ tail ∧ well_formed text p.
Proof.
  intros Hbytes. cut (wp (parse_spkg l) (λ r _, ∀ p, r = Ok p →
    ∃ text tail, l = build_spkg text (elf_bytes p) (resources_bytes p) ++ tail ∧ well_formed text p) tt); [intros H; apply H|].
  unfold parse_spkg. apply wp_bind, wp_reject_if; [done|]. intros H1. cbv zeta. apply wp_bind, wp_reject_if; [done|]. intros Hm.
  apply wp_bind, wp_reject_if; [done|]. intros Hv. apply wp_bind, wp_reject_if; [done|]. intros H2. reflect.
  pose proof (header_bytes_of l Hbytes ltac:(lia)) as Hh. destruct (header_lengths l Hbytes ltac:(lia)) as (Rm & Re & Rr).
  destruct (header_of l) as [m v mz ez rz sum]. cbn [magic h_version manifest_len elf_len resources_len h_checksum] in *. subst m v.
  rewrite <- (Z2Nat.id mz) in Hh, Rm by lia. rewrite <- (Z2Nat.id ez) in Hh, Re by lia. rewrite <- (Z2Nat.id rz) in Hh, Rr by lia.
  set (ml := Z.to_nat mz) in *. set (el := Z.to_nat ez) in *. set (rl := Z.to_nat rz) in *. clearbody ml el rl.
  rewrite slice_ok by lia. apply wp_bind, wp_ret, wp_bind, wp_reject_if; [done|]. intros Hsum.
  replace (HEADER_SIZE + (ml + el + rl) - HEADER_SIZE) with (ml + el + rl) in * by lia.
  assert (l = take HEADER_SIZE l ++ take (ml + el + rl) (drop HEADER_SIZE l) ++ drop (HEADER_SIZE + (ml + el + rl)) l) as Hl.
  { rewrite app_assoc, take_take_drop. by rewrite take_drop. }
  set (tail := drop (HEADER_SIZE + (ml + el + rl)) l) in *. set (payload := take (ml + el + rl) (drop HEADER_SIZE l)) in *.
  assert (length payload = ml + el + rl) as Hlen by (subst payload; rewrite length_take, length_drop; lia). clearbody payload tail.
  rewrite (slice_ok 0 ml) by lia. apply wp_bind, wp_ret, wp_bind, wp_ok_or; [done|]. intros text Htext.
  unfold from_utf8 in Htext. destruct (utf8_valid _) eqn:Hutf; [|done]. injection Htext as <-. rewrite Nat.sub_0_r, drop_0 in *.
  apply wp_bind, wp_reject_if; [done|]. intros Hinc. rewrite (slice_ok ml) by lia. apply wp_bind, wp_ret, wp_bind, wp_reject_if; [done|]. intros Helf.
  rewrite slice_ok by lia. apply wp_bind, wp_ret, wp_ret. intros p' [= <-].
  apply orb_false_iff in Helf as [_ Helf]. apply negb_false_iff, bool_decide_eq_true in Helf. replace (ml + el - ml) with el in * by lia.
  rewrite (take_ge (drop (ml + el) payload)) by (rewrite length_drop; lia).
  assert (take ml payload ++ take el (drop ml payload) ++ drop (ml + el) payload = payload) as Hparts.
  { by rewrite app_assoc, take_take_drop, take_drop. }
  assert (length (take ml payload) = ml) as L1 by (rewrite length_take; lia).
  assert (length (take el (drop ml payload)) = el) as L2 by (rewrite length_take, length_drop; lia).
  assert (length (drop (ml + el) payload) = rl) as L3 by (rewrite length_drop; lia).
  exists (take ml payload), tail. cbn [elf_bytes resources_bytes manifest]. split.
  - rewrite Hl. unfold build_spkg. rewrite Hparts, L1, L2, L3, <- app_assoc. f_equal. rewrite <- Hh.
    apply negb_false_iff, Z.eqb_eq in Hsum. rewrite Hsum. unfold wrap. by rewrite !Z.mod_small by lia.
  - unfold well_formed, fits_u32, elf_magic. cbn [elf_bytes resources_bytes manifest]. rewrite L1, L2, L3.
    split_and!; try done; lia.
Qed.
Lemma parse_built text p tail : well_formed text p →
  parse_spkg (build_spkg text (elf_bytes p) (resources_bytes p) ++ tail) tt = (Ok p, tt).
Proof.
  destruct p as [m elf res]. cbn [elf_bytes resources_bytes manifest]. intros (Hutf & Hman & Hinc & Helf & F1 & F2 & F3). cbn [elf_bytes resources_bytes manifest] in *. subst m.
  unfold parse_spkg. rewrite header_of_built by done. cbn [magic h_version manifest_len elf_len resources_len h_checksum]. rewrite !Nat2Z.id.
  set (header := header_bytes (mkHeader SPKG_MAGIC SPKG_VERSION (wrap 32 (Z.of_nat (length text))) (wrap 32 (Z.of_nat (length elf)))
    (wrap 32 (Z.of_nat (length res))) (calculate_checksum (text ++ elf ++ res)))).
  change (build_spkg text elf res) with (header ++ text ++ elf ++ res).
  assert (length header = HEADER_SIZE) as Hh by by apply length_header. clearbody header.
  assert (length ((header ++ text ++ elf ++ res) ++ tail) = HEADER_SIZE + (length text + length elf + length res) + length tail) as Hlen
    by (rewrite !length_app, Hh; lia).
  rewrite Hlen. rewrite (proj2 (Nat.ltb_ge _ HEADER_SIZE)), (proj2 (Nat.ltb_ge _ (HEADER_SIZE + _))) by lia. rewrite bool_decide_eq_true_2 by done.
  rewrite <- app_assoc. rewrite (slice_middle header (text ++ elf ++ res) tail) by (rewrite ?length_app; lia).
  cbn [unwrap]. cbv beta. unfold mbind, comp_bind. cbn [reject_if negb mret comp_ret]. rewrite !Z.eqb_refl. cbn [negb reject_if mret comp_ret].
  rewrite (slice_middle [] text (elf ++ res)) by done. cbn [unwrap mret comp_ret]. unfold from_utf8. rewrite Hutf. cbn [ok_or mret comp_ret].
  rewrite Hinc. cbn [reject_if mret comp_ret]. rewrite (slice_middle text elf res) by lia. cbn [unwrap mret comp_ret].
  assert ((length elf <? 4) || negb (bool_decide (take 4 elf = [127; 69; 76; 70]%Z)) = false) as ->.
  { rewrite Helf, bool_decide_eq_true_2 by done. apply orb_false_iff. split; [|done]. apply Nat.ltb_ge.
    pose proof (f_equal length Helf) as Hl. rewrite length_take in Hl. cbn [length] in Hl. lia. }
  cbn [reject_if mret comp_ret]. pose proof (slice_middle (text ++ elf) res [] (length text + length elf) (length (text ++ elf ++ res))) as Hr.
  rewrite app_nil_r, <- app_assoc in Hr. rewrite Hr by (rewrite !length_app; lia). done.
Qed.

(** ** Manifests *)

(** Printable, without quotation mark and sign of equality. *)
Definition field (l : bytes) : Prop := l ≠ [] ∧ Forall (λ b, (33 ≤ b ≤ 126)%Z ∧ b ≠ QUOTE ∧ b ≠ EQUALS) l.
Definition visible (l : bytes) : Prop := Forall (λ b, 33 ≤ b ≤ 126)%Z l.
Definition complete (m : PackageManifest) : Prop := field (m_name m) ∧ field (m_version m) ∧ field (m_entry m).

Definition setting (k v : bytes) : bytes := k ++ EQUALS :: v.
Definition quoted (l : bytes) : bytes := QUOTE :: l ++ [QUOTE].
Definition yes_no (b : bool) : bytes := if b then str "true" else str "false".
Definition settings (m : PackageManifest) : list bytes :=
  [setting (str "name") (quoted (m_name m)); setting (str "version") (quoted (m_version m)); setting (str "entry") (quoted (m_entry m));
   setting (str "permission.fs_home") (yes_no (filesystem_home (m_permissions m)));
   setting (str "permission.network") (yes_no (network (m_permissions m)));
   setting (str "permission.gui") (yes_no (gui (m_permissions m)))].
(** The manifest as it is written. *)
Definition manifest_text (m : PackageManifest) : bytes := concat (map (λ l, l ++ newline) (settings m)).

Lemma trims_nothing ws l : Forall (λ w, match w with b :: _ => b ≤ 32 ∨ 127 ≤ b | [] => False end)%Z ws → visible l →
  ∀ fuel, strip fuel ws l = l.
Proof.
  intros Hws Hl fuel. destruct fuel as [|fuel]; [done|]. cbn [strip].
  assert (list_find (λ w, starts_with w l) ws = None) as ->; [|done]. apply list_find_None. eapply Forall_impl; [exact Hws|].
  intros [|w0 w] Hw; [done|]. cbn beta in *. unfold starts_with. intros H. apply bool_decide_unpack in H.
  destruct Hl as [|b l Hb Hl]; [done|]. cbn in H. injection H as -> _. cbn beta in *. lia.
Qed.
Lemma trim_visible l : visible l → trim l = l.
Proof.
  intros Hl. unfold trim. rewrite (trims_nothing whitespace l); [|repeat (constructor; [lia|]); constructor|done].
  rewrite trims_nothing; [apply reverse_involutive|repeat (constructor; [cbn; lia|]); constructor|by apply Forall_reverse].
Qed.
Lemma trim_quoted l : QUOTE ∉ l → l ≠ [] → trim_matches QUOTE (quoted l) = l.
Proof.
  intros Hq Hl. unfold trim_matches, quoted. cbn [trim_start]. rewrite Z.eqb_refl.
  assert (∀ k r, QUOTE ∉ k → k ≠ [] → trim_start QUOTE (k ++ r) = k ++ r) as Hstay.
  { intros [|b k] r Hk Hne; [done|]. cbn. rewrite (proj2 (Z.eqb_neq _ _)); [done|]. intros ->. apply Hk. by left. }
  rewrite Hstay by done. rewrite reverse_app. cbn [reverse rev_append app trim_start]. rewrite Z.eqb_refl.
  rewrite <- (app_nil_r (reverse l)), Hstay, app_nil_r; [apply reverse_involutive|by rewrite elem_of_reverse|].
  intros H. apply Hl. rewrite <- (reverse_involutive l), H. done.
Qed.
Lemma field_facts l : field l → visible (quoted l) ∧ (EQUALS ∉ quoted l) ∧ (QUOTE ∉ l) ∧ (10%Z ∉ quoted l) ∧ (13%Z ∉ quoted l).
Proof.
  intros [Hne Hl]. assert (visible l) as Hv by (eapply Forall_impl; [exact Hl|]; by intros b [? _]).
  assert (∀ c, (c < 33)%Z → c ∉ quoted l) as Hlow.
  { intros c Hc. unfold quoted. rewrite not_elem_of_cons, not_elem_of_app, list_elem_of_singleton. unfold QUOTE. split; [lia|]. split; [|lia].
    intros H. unfold visible in Hv. rewrite Forall_forall in Hv. apply Hv in H. cbn beta in H. lia. }
  split_and!; [| | |by apply Hlow|by apply Hlow].
  - constructor; [unfold QUOTE; lia|]. apply Forall_app_2; [done|]. repeat constructor; unfold QUOTE; lia.
  - unfold quoted. rewrite not_elem_of_cons, not_elem_of_app, list_elem_of_singleton. unfold QUOTE, EQUALS in *. split_and!; [lia| |lia].
    intros H. rewrite Forall_forall in Hl. apply Hl in H. tauto.
  - intros H. rewrite Forall_forall in Hl. apply Hl in H. tauto.
Qed.

Lemma split_line c p l : c ∉ p → split c (p ++ c :: l) = p :: split c l.
Proof. intros Hp. rewrite split_app_clean by done. cbn [split]. rewrite Z.eqb_refl. by rewrite app_nil_r. Qed.
Lemma split_last c p : c ∉ p → split c p = [p].
Proof. intros Hp. rewrite <- (app_nil_r p), split_app_clean by done. cbn. by rewrite app_nil_r. Qed.
Lemma split_lines ls : Forall (λ l, 10%Z ∉ l) ls → split 10 (concat (map (λ l, l ++ newline) ls)) = ls ++ [[]].
Proof.
  induction 1 as [|l ls Hl Hls IH]; [done|]. cbn [map concat]. rewrite <- app_assoc. cbn [app newline]. rewrite split_line by done. by rewrite IH.
Qed.
Lemma strip_cr_clean l : 13%Z ∉ l → strip_cr l = l.
Proof.
  intros Hl. unfold strip_cr. destruct (last l) as [b|] eqn:Hb; [|done]. destruct (decide (b = 13%Z)) as [->|Hne].
  - apply last_Some in Hb as [k ->]. destruct Hl. apply elem_of_app. right. by left.
  - by repeat case_match; subst.
Qed.
Lemma text_lines_of ls : Forall (λ l, (10%Z ∉ l) ∧ (13%Z ∉ l)) ls → text_lines (concat (map (λ l, l ++ newline) ls)) = ls.
Proof.
  intros H. unfold text_lines. rewrite split_lines by (eapply Forall_impl; [exact H|]; by intros ? [? _]). rewrite last_snoc, length_app. cbn [length].
  rewrite Nat.add_sub, take_app_length. induction H as [|l ls [_ Hl] Hls IH]; [done|]. cbn. by rewrite IH, strip_cr_clean.
Qed.
Lemma setting_parts k v : EQUALS ∉ k → EQUALS ∉ v → visible k → visible v → map trim (split EQUALS (setting k v)) = [k; v].
Proof.
  intros Hk Hv Vk Vv. unfold setting. rewrite split_line, split_last by done. cbn. by rewrite !trim_visible.
Qed.

(** What a line sets. *)
Lemma line_of k v m : EQUALS ∉ k → EQUALS ∉ v → visible k → visible v → ∀ m',
  (let p := m_permissions m in
   let yes := bool_decide (v = str "true") in
   if bool_decide (k = str "name") then mkManifest (trim_matches QUOTE v) (m_version m) (m_entry m) p
   else if bool_decide (k = str "version") then mkManifest (m_name m) (trim_matches QUOTE v) (m_entry m) p
   else if bool_decide (k = str "entry") then mkManifest (m_name m) (m_version m) (trim_matches QUOTE v) p
   else if bool_decide (k = str "permission.fs_home") then mkManifest (m_name m) (m_version m) (m_entry m) (mkPermissions yes (network p) (gui p))
   else if bool_decide (k = str "permission.network") then mkManifest (m_name m) (m_version m) (m_entry m) (mkPermissions (filesystem_home p) yes (gui p))
   else if bool_decide (k = str "permission.gui") then mkManifest (m_name m) (m_version m) (m_entry m) (mkPermissions (filesystem_home p) (network p) yes)
   else m) = m' → manifest_line m (setting k v) = m'.
Proof. intros H1 H2 H3 H4 m' <-. unfold manifest_line. by rewrite setting_parts. Qed.

Ltac concrete := apply (bool_decide_unpack _); vm_compute; exact I.
Section lines.
Context (m : PackageManifest) (v : bytes) (Hv : EQUALS ∉ v) (Hvis : visible v).
Abbreviation p := (m_permissions m).
Abbreviation yes := (bool_decide (v = str "true")).
Ltac set_line := apply line_of; [concrete|done|unfold visible; concrete|done|reflexivity].
Lemma set_name : manifest_line m (setting (str "name") v) = mkManifest (trim_matches QUOTE v) (m_version m) (m_entry m) p.
Proof using Hv Hvis. set_line. Qed.
Lemma set_version : manifest_line m (setting (str "version") v) = mkManifest (m_name m) (trim_matches QUOTE v) (m_entry m) p.
Proof using Hv Hvis. set_line. Qed.
Lemma set_entry : manifest_line m (setting (str "entry") v) = mkManifest (m_name m) (m_version m) (trim_matches QUOTE v) p.
Proof using Hv Hvis. set_line. Qed.
Lemma set_home : manifest_line m (setting (str "permission.fs_home") v) = mkManifest (m_name m) (m_version m) (m_entry m) (mkPermissions yes (network p) (gui p)).
Proof using Hv Hvis. set_line. Qed.
Lemma set_network : manifest_line m (setting (str "permission.network") v) =
  mkManifest (m_name m) (m_version m) (m_entry m) (mkPermissions (filesystem_home p) yes (gui p)).
Proof using Hv Hvis. set_line. Qed.
Lemma set_gui : manifest_line m (setting (str "permission.gui") v) =
  mkManifest (m_name m) (m_version m) (m_entry m) (mkPermissions (filesystem_home p) (network p) yes).
Proof using Hv Hvis. set_line. Qed.
End lines.
(** A manifest of printable values is read as it was written. *)
Lemma manifest_round_trip m : complete m → parse_manifest (manifest_text m) = m.
Proof.
  intros (Hn & Hv & He). destruct m as [n v e [h w g]]. cbn [m_name m_version m_entry] in *.
  destruct (field_facts _ Hn) as (N1 & N2 & N3 & N4 & N5), (field_facts _ Hv) as (V1 & V2 & V3 & V4 & V5), (field_facts _ He) as (E1 & E2 & E3 & E4 & E5).
  assert (∀ b, visible (yes_no b) ∧ (EQUALS ∉ yes_no b) ∧ (10%Z ∉ yes_no b) ∧ (13%Z ∉ yes_no b)) as Hyes.
  { intros []; split_and!; unfold visible; concrete. }
  assert (∀ b, bool_decide (yes_no b = str "true") = b) as Hy by by intros [].
  destruct (Hyes h) as (H1 & H2 & H3 & H4), (Hyes w) as (W1 & W2 & W3 & W4), (Hyes g) as (G1 & G2 & G3 & G4).
  unfold parse_manifest, manifest_text. rewrite text_lines_of.
  - cbn [settings foldl m_name m_version m_entry m_permissions filesystem_home network gui].
    rewrite set_name, set_version, set_entry, set_home, set_network, set_gui by done. cbn [m_name m_version m_entry m_permissions filesystem_home network gui].
    rewrite !Hy, !trim_quoted; [reflexivity|done|apply He|done|apply Hv|done|apply Hn].
  - unfold settings, setting. repeat constructor; cbn [m_name m_version m_entry m_permissions filesystem_home network gui];
      (rewrite not_elem_of_app, not_elem_of_cons; split_and!; [concrete|done|done]).
Qed.

Lemma ascii_utf8 l : Forall (λ b, b < 128)%Z l → utf8_valid l = true.
Proof. induction 1 as [|b l Hb Hl IH]; [done|]. cbn [utf8_valid]. by rewrite (proj2 (Z.ltb_lt _ _)). Qed.
Lemma manifest_text_ascii m : complete m → Forall (λ b, b < 128)%Z (manifest_text m).
Proof.
  intros (Hn & Hv & He). assert (∀ l, visible l → Forall (λ b, b < 128)%Z l) as Hvis by (intros l Hl; eapply Forall_impl; [exact Hl|]; cbn; lia).
  unfold manifest_text. apply Forall_concat, Forall_map. unfold settings, setting.
  assert (∀ b, visible (yes_no b)) as Hyes by (intros []; unfold visible; concrete).
  assert (∀ k v, visible k → visible v → Forall (λ b, b < 128)%Z ((k ++ EQUALS :: v) ++ newline)) as Hset.
  { intros k v' Hk Hv'. apply Forall_app_2; [|by constructor]. apply Forall_app_2; [by apply Hvis|]. constructor; [done|by apply Hvis]. }
  repeat (constructor; [apply Hset; [unfold visible; concrete|first [apply Hyes|by apply field_facts]]|]). constructor.
Qed.
Lemma complete_not_incomplete m : complete m → incomplete m = false.
Proof. intros ([Hn _] & [Hv _] & [He _]). unfold incomplete. by rewrite !bool_decide_eq_false_2. Qed.


Lemma forallb_byte l : forallb (λ b, (0 <=? b) && (b <? 256))%Z l = true → Forall byte l.
Proof. intros H. apply Forall_forall. intros b Hb. rewrite forallb_forall in H. apply list_elem_of_In, H in Hb. reflect. unfold byte. lia. Qed.
Definition demo_manifest : PackageManifest := mkManifest (str "clock") (str "1.0") (str "main.elf") (mkPermissions false true true).
Definition demo_package : bytes := build_spkg (manifest_text demo_manifest) [127; 69; 76; 70; 2]%Z [1; 2; 3]%Z ++ [9]%Z.
Example demo_package_parsed : parse_spkg demo_package tt = (Ok (mkPackage demo_manifest [127; 69; 76; 70; 2]%Z [1; 2; 3]%Z), tt).
Proof. vm_compute. reflexivity. Qed.
(** A byte of the program that is changed is noticed. *)
Example demo_package_changed : (parse_spkg (<[HEADER_SIZE + length (manifest_text demo_manifest) + 4 := 3%Z]> demo_package) tt).1 = Err ChecksumMismatch.
Proof. vm_compute. reflexivity. Qed.
