(* ===== verification/Store.v ===== *)
(** * The package service and the application store (kernel/src/pkg_service.rs, kernel/src/store_service.rs)

    The registry of installed packages with its commands, and the catalog of the
    store with installation, update and removal. *)
From S2P Require Import Prelude Bytes Text StrOps.

(** The order of [String]s: that of their bytes. *)
Fixpoint bytes_le (a b : bytes) : bool :=
  match a, b with
  | [], _ => true
  | _ :: _, [] => false
  | x :: a, y :: b => (x <? y)%Z || ((x =? y)%Z && bytes_le a b)
  end.
Definition lexical (a b : bytes) : Prop := bytes_le a b = true.
#[export] Instance lexical_dec : RelDecision lexical.
Proof. intros a b. unfold lexical. apply _. Defined.
Definition in_order {A} (m : gmap bytes A) : list (bytes * A) := btree_iter lexical m.
(** [{:<n}]: [n] counts characters. *)
Definition pad_right (n : nat) (l : bytes) : bytes := l ++ replicate (n - length (filter (λ b, utf8_cont b = false) l)) 32%Z.
(** [l.split_whitespace()] for ASCII white space. *)
Definition words (l : bytes) : list bytes :=
  filter (λ w, w ≠ []) (split 32 (map (λ b, if (9 <=? b) && (b <=? 13) then 32 else b)%Z l)).

Definition QUOTE : Z := 34.
Definition COLON : Z := 58.
Definition quote (l : bytes) : bytes := QUOTE :: l ++ [QUOTE].

Module Packages.

(** kernel/src/pkg_service.rs:13-19 [PackageManifest] *)
Record PackageManifest := mkManifest { name : bytes; version : bytes; permissions : list bytes; entry : bytes; icon : bytes }.

(** The quoted text behind the colon behind the first mention of the key —
    kernel/src/pkg_service.rs:30-41 [PackageManifest::parse, name] *)
Definition value_of (key json : bytes) : option bytes :=
  pos ← find_sub (quote key) json;
  let rest := drop pos json in
  colon ← find_sub [COLON] rest;
  let val_part := drop (colon + 1) rest in
  s ← find_sub [QUOTE] val_part;
  let s_rest := drop (s + 1) val_part in
  e ← find_sub [QUOTE] s_rest;
  Some (take e s_rest).
(** kernel/src/pkg_service.rs:58-62 [PackageManifest::parse, permissions] *)
Definition known_permissions : list bytes :=
  [str "filesystem.read"; str "filesystem.write"; str "network"; str "camera"; str "device"; str "notification.send"].
(** kernel/src/pkg_service.rs:22-71 [PackageManifest::parse] *)
Definition parse (json : bytes) : PackageManifest :=
  mkManifest (default (str "Unknown") (value_of (str "name") json)) (default (str "1.0.0") (value_of (str "version") json))
    (filter (λ p, mentions p json = true) known_permissions) (str "main.elf") (str "default.ico").

(** kernel/src/pkg_service.rs:75-80 [PackageRecord] *)
Record PackageRecord := mkRecord { manifest : PackageManifest; size_bytes : Z; signature_verified : bool; installed_path : bytes }.
(** kernel/src/pkg_service.rs:82-91 [PackageManager] *)
Abbreviation PackageManager := (gmap bytes PackageRecord).
Abbreviation M := (comp (gmap bytes PackageRecord) bytes).

(** kernel/src/pkg_service.rs:94-122 [seed_defaults] *)
Definition seed_defaults (ps : gmap bytes PackageRecord) : gmap bytes PackageRecord :=
  <[str "files" := mkRecord (mkManifest (str "files") (str "1.17.0") [str "filesystem.read"; str "filesystem.write"] (str "/apps/files/main.elf")
     (str "files.ico")) 49152 true (str "/apps/files")]>
  (<[str "terminal" := mkRecord (mkManifest (str "terminal") (str "1.16.0") [str "filesystem.read"; str "notification.send"]
     (str "/apps/terminal/main.elf") (str "terminal.ico")) 32768 true (str "/apps/terminal")]> ps).

(** kernel/src/pkg_service.rs:125-143 [install_package] *)
Definition install_package (json : bytes) (size : Z) : M bytes :=
  let m := parse json in
  let path := str "/apps/" ++ name m in
  modify (<[name m := mkRecord m size true path]>);;
  mret (str "Package '" ++ name m ++ str "' successfully installed to " ++ path).

(** kernel/src/pkg_service.rs:146-153 [remove_package] *)
Definition remove_package (n : bytes) : M bytes :=
  ps ← get;
  match ps !! n with
  | Some _ => put (delete n ps);; mret (str "Package '" ++ n ++ str "' successfully uninstalled. Zero orphan resources.")
  | None => throw (str "PackageNotFound")
  end.

(** kernel/src/pkg_service.rs:156-164 [list_packages] *)
Definition list_packages (ps : gmap bytes PackageRecord) : bytes :=
  str "INSTALLED PACKAGES:" ++ newline ++ str "NAME        VERSION   SIZE      PERMISSIONS" ++ newline ++
  concat (map (λ '(n, pkg), pad_right 11 n ++ [32%Z] ++ pad_right 9 (version (manifest pkg)) ++ [32%Z]
    ++ pad_right 9 (decimal (size_bytes pkg) ++ str " B") ++ [32%Z] ++ join (str ",") (permissions (manifest pkg)) ++ newline) (in_order ps)).

(** kernel/src/pkg_service.rs:167-179 [package_info] *)
Definition package_info (n : bytes) : M bytes :=
  ps ← get;
  match ps !! n with
  | Some pkg =>
      let m := manifest pkg in
      mret (str "Package Info: " ++ name m ++ newline ++ str "  Version:    " ++ version m ++ newline
        ++ str "  Path:       " ++ installed_path pkg ++ newline ++ str "  Size:       " ++ decimal (size_bytes pkg) ++ str " bytes" ++ newline
        ++ str "  Verified:   " ++ (if signature_verified pkg then str "true" else str "false") ++ newline
        ++ str "  Permissions: " ++ join (str ", ") (permissions m) ++ newline)
  | None => throw (str "PackageNotFound")
  end.

(** The manifest that the command makes up — kernel/src/pkg_service.rs:189-189 [execute_pkg_command, manifest] *)
Definition dummy_json (pkg_name : bytes) : bytes :=
  str "{" ++ quote (str "name") ++ [COLON] ++ quote pkg_name ++ str "," ++ quote (str "version") ++ [COLON] ++ quote (str "1.0.0") ++ str ","
  ++ quote (str "permissions") ++ [COLON] ++ str "[" ++ quote (str "filesystem.read") ++ str "]}".
(** [match m { Ok(msg) => msg, Err(e) => format!("{}{}", prefix, e) }] *)
Definition reported (prefix : bytes) (m : M bytes) : M bytes :=
  r ← attempt m; match r with inr msg => mret msg | inl e => mret (prefix ++ e) end.
(** kernel/src/pkg_service.rs:182-212 [execute_pkg_command] *)
Definition execute_pkg_command (cmd : bytes) : M bytes :=
  let parts := words cmd in
  let argument d := default d (parts !! 1) in
  match parts with
  | w :: _ =>
      if bool_decide (w = str "install") then reported (str "Error installing package: ") (install_package (dummy_json (argument (str "sample_app"))) 16384)
      else if bool_decide (w = str "remove") then reported (str "Error removing package: ") (remove_package (argument []))
      else if bool_decide (w = str "list") then gets list_packages
      else if bool_decide (w = str "info") then reported (str "Error: ") (package_info (argument []))
      else mret (str "Usage: pkg [install <name> | remove <name> | list | info <name>]")
  | [] => mret (str "Usage: pkg [install <name> | remove <name> | list | info <name>]")
  end.
End Packages.

Module Catalog.

(** kernel/src/store_service.rs:12-19 [StoreManifest] *)
Record StoreManifest := mkStore { s_name : bytes; s_version : bytes; developer : bytes; s_permissions : list bytes; hash : Z; s_icon : bytes }.
(** kernel/src/store_service.rs:22-29 [StoreAppEntry] *)
Record StoreAppEntry := mkEntry {
  e_name : bytes;
  e_version : bytes;
  e_developer : bytes;
  is_installed : bool;
  installed_version : option bytes;
  update_available : bool;
}.

(** The store, and the registry of packages — kernel/src/store_service.rs:31-34 [AppStoreService] *)
Record AppStoreService := mkService {
  catalog : gmap bytes StoreManifest;
  installed_apps : gmap bytes bytes;
  packages : gmap bytes Packages.PackageRecord;
}.
Abbreviation M := (comp AppStoreService bytes).
Definition with_installed (f : gmap bytes bytes → gmap bytes bytes) (s : AppStoreService) : AppStoreService :=
  mkService (catalog s) (f (installed_apps s)) (packages s).
Definition on_packages {E A} : comp (gmap bytes Packages.PackageRecord) E A → comp AppStoreService E A :=
  zoom packages (λ p s, mkService (catalog s) (installed_apps s) p).

(** kernel/src/store_service.rs:45-75 [init_repository] *)
Definition init_repository (s : AppStoreService) : AppStoreService :=
  let app n v d p h i := <[str n := mkStore (str n) (str v) (str d) (map str p) h (str i)]> in
  mkService
    (app "code_editor" "1.5.0" "Spark DevTools" ["filesystem.read"; "filesystem.write"]%string 0x1234567890ABCDEF%Z "editor.png"
     (app "image_viewer" "2.0.0" "Spark Graphics Team" ["filesystem.read"]%string 0xDEADBEEF87654321%Z "photos.png"
      (app "calculator" "1.2.0" "SparkOS Community" ["notification.send"]%string 0xCAFEBABE12345678%Z "calc.png" (catalog s))))%string
    (<[str "calculator" := str "1.0.0"]> (installed_apps s)) (packages s).

(** kernel/src/store_service.rs:78-99 [list_apps] *)
Definition list_apps (s : AppStoreService) : list StoreAppEntry :=
  map (λ '(n, m),
    let installed_ver := installed_apps s !! n in
    mkEntry (s_name m) (s_version m) (developer m) (bool_decide (is_Some installed_ver)) installed_ver
      match installed_ver with Some v => negb (bool_decide (v = s_version m)) | None => false end) (in_order (catalog s)).

(** kernel/src/store_service.rs:102-109 [verify_package_hash] *)
Definition verify_package_hash (payload : bytes) (expected_hash : Z) : bool :=
  let computed := foldl (λ h b, Z.lxor (wrap 64 (h * 0x100000001B3)) b) 0xCBF29CE484222325%Z payload in
  (computed =? expected_hash)%Z || negb (expected_hash =? 0)%Z.

(** kernel/src/store_service.rs:112-131 [install_app] *)
Definition install_app (n : bytes) : M unit :=
  s ← get;
  m ← ok_or (catalog s !! n) (str "AppNotFoundInCatalog");
  reject_if (bool_decide (str "system.admin" ∈ s_permissions m)) (str "PermissionReviewDenied");;
  reject_if (negb (verify_package_hash (str "ELF_APP_PAYLOAD") (hash m))) (str "HashVerificationFailed");;
  modify (with_installed (<[n := s_version m]>));;
  ignore (on_packages (Packages.install_package n 1024)).

(** kernel/src/store_service.rs:134-146 [update_app] *)
Definition update_app (n : bytes) : M unit :=
  s ← get;
  m ← ok_or (catalog s !! n) (str "AppNotFoundInCatalog");
  current ← ok_or (installed_apps s !! n) (str "AppNotInstalled");
  reject_if (bool_decide (current = s_version m)) (str "AlreadyUpToDate");;
  modify (with_installed (<[n := s_version m]>)).

(** kernel/src/store_service.rs:149-157 [uninstall_app] *)
Definition uninstall_app (n : bytes) : M unit :=
  s ← get;
  match installed_apps s !! n with
  | Some _ => modify (with_installed (delete n));; ignore (on_packages (Packages.remove_package n))
  | None => throw (str "AppNotInstalled")
  end.
End Catalog.

(** ** Theorems *)

Import Packages Catalog.

Lemma find_sub_here c p l : c ∉ p → find_sub [c] (p ++ c :: l) = Some (length p).
Proof.
  intros Hp. induction p as [|b p IH]; cbn [app find_sub length].
  - by unfold starts_with; rewrite bool_decide_eq_true_2.
  - apply not_elem_of_cons in Hp as [Hb Hp]. unfold starts_with. rewrite bool_decide_eq_false_2 by (cbn; congruence). by rewrite (IH Hp).
Qed.
(** The key at the beginning, with its value. *)
Lemma value_of_name n rest : QUOTE ∉ n → value_of (str "name") (str "{" ++ quote (str "name") ++ [COLON] ++ quote n ++ rest) = Some n.
Proof.
  intros Hn. unfold value_of.
  assert (find_sub (quote (str "name")) (str "{" ++ quote (str "name") ++ [COLON] ++ quote n ++ rest) = Some 1) as -> by done.
  cbn [mbind option_bind]. change (drop 1 (str "{" ++ quote (str "name") ++ [COLON] ++ quote n ++ rest)) with (quote (str "name") ++ [COLON] ++ quote n ++ rest).
  assert (find_sub [COLON] (quote (str "name") ++ [COLON] ++ quote n ++ rest) = Some 6) as -> by done. cbn [mbind option_bind].
  change (drop (6 + 1) (quote (str "name") ++ [COLON] ++ quote n ++ rest)) with (quote n ++ rest).
  assert (find_sub [QUOTE] (quote n ++ rest) = Some 0) as -> by done. cbn [mbind option_bind].
  unfold quote. cbn [drop app Nat.add]. rewrite <- app_assoc. cbn [app]. rewrite drop_0, find_sub_here by done. cbn [mbind option_bind]. by rewrite take_app_length.
Qed.

(** A name that the commands take as it is. *)
Definition package_name (n : bytes) : Prop := n ≠ [] ∧ Forall (λ b, (33 ≤ b ≤ 126)%Z ∧ b ≠ QUOTE) n.
Lemma package_name_clean n c : package_name n → (c < 33 ∨ c = QUOTE)%Z → c ∉ n.
Proof. intros [_ Hn] Hc H. rewrite Forall_forall in Hn. apply Hn in H. lia. Qed.
Lemma words_command w n : Forall (λ b, 33 ≤ b ≤ 126)%Z w → w ≠ [] → package_name n → words (w ++ 32%Z :: n) = [w; n].
Proof.
  intros Hw Hne Hn. unfold words. rewrite map_app. cbn [map].
  assert (∀ l, Forall (λ b, 33 ≤ b ≤ 126)%Z l → map (λ b, if (9 <=? b) && (b <=? 13) then 32 else b)%Z l = l) as Hid.
  { induction 1 as [|b l Hb Hl IH]; [done|]. cbn [map]. rewrite IH. destruct (_ && _) eqn:E; [reflect; lia|done]. }
  rewrite !Hid; [|eapply Forall_impl; [apply Hn|]; by intros b [? _]|done]. change (if (9 <=? 32)%Z && (32 <=? 13)%Z then 32%Z else 32%Z) with 32%Z.
  assert (32%Z ∉ w) as Hw32 by (intros H; rewrite Forall_forall in Hw; apply Hw in H; lia).
  assert (32%Z ∉ n) as Hn32 by (apply package_name_clean; [done|lia]).
  rewrite split_app_clean by done. cbn [split]. rewrite Z.eqb_refl, app_nil_r.
  assert (split 32 n = [n]) as -> by (rewrite <- (app_nil_r n), split_app_clean by done; cbn; by rewrite app_nil_r).
  rewrite !filter_cons_True by (done || apply Hn). done.
Qed.

Lemma execute_install n : package_name n →
  execute_pkg_command (str "install" ++ 32%Z :: n) = reported (str "Error installing package: ") (install_package (dummy_json n) 16384).
Proof. intros Hn. unfold execute_pkg_command. by rewrite words_command by first [done|apply (bool_decide_unpack _); vm_compute; exact I]. Qed.
Lemma execute_remove n : package_name n →
  execute_pkg_command (str "remove" ++ 32%Z :: n) = reported (str "Error removing package: ") (remove_package n).
Proof. intros Hn. unfold execute_pkg_command. by rewrite words_command by first [done|apply (bool_decide_unpack _); vm_compute; exact I]. Qed.

(** The commands keep the registry: installing enters the package under its
    name, with every permission whose name occurs in the name or that every
    package gets; removing takes exactly it out, and says when there is none. *)
Theorem commands_keep_the_registry n ps : package_name n →
  (∃ msg r, execute_pkg_command (str "install" ++ 32%Z :: n) ps = (Ok msg, <[n := r]> ps) ∧ name (manifest r) = n ∧ installed_path r = str "/apps/" ++ n ∧
     ∀ p, p ∈ permissions (manifest r) ↔ p ∈ known_permissions ∧ mentions p (dummy_json n) = true) ∧
  (∃ msg, execute_pkg_command (str "remove" ++ 32%Z :: n) ps =
     (Ok (match ps !! n with Some _ => msg | None => str "Error removing package: PackageNotFound" end), delete n ps)).
Proof.
  intros Hn. rewrite execute_install, execute_remove by done. split.
  - assert (name (parse (dummy_json n)) = n) as Hname.
    { unfold parse, dummy_json. cbn [name]. by rewrite value_of_name by (apply package_name_clean; [done|by right]). }
    unfold reported, attempt, install_package, modify, mbind, comp_bind. rewrite Hname.
    eexists _, _. split; [reflexivity|]. cbn [manifest installed_path]. split_and!; [done|done|].
    intros p. unfold parse. cbn [permissions]. rewrite list_elem_of_filter. tauto.
  - unfold reported, attempt, remove_package, get, mbind, comp_bind.
    destruct (ps !! n) eqn:Hp; [by eexists|]. exists []. by rewrite delete_id by done.
Qed.
Lemma commands_keep_the_registry_witness :
  (∃ msg r, execute_pkg_command (str "install" ++ 32%Z :: str "clock") (seed_defaults ∅) = (Ok msg, <[str "clock" := r]> (seed_defaults ∅)) ∧
     name (manifest r) = str "clock" ∧ installed_path r = str "/apps/" ++ str "clock" ∧
     ∀ p, p ∈ permissions (manifest r) ↔ p ∈ known_permissions ∧ mentions p (dummy_json (str "clock")) = true) ∧
  (∃ msg, execute_pkg_command (str "remove" ++ 32%Z :: str "clock") (seed_defaults ∅) =
     (Ok (match seed_defaults ∅ !! str "clock" with Some _ => msg | None => str "Error removing package: PackageNotFound" end),
      delete (str "clock") (seed_defaults ∅))).
Proof. apply (commands_keep_the_registry (str "clock") (seed_defaults ∅)). split; [done|]. repeat (constructor; [done|]). constructor. Defined.

(** What a successful operation of the store leaves: installing and updating
    bring the version of the catalog, removing takes the application out, and no
    other application changes. *)
Theorem store_follows_the_catalog n s s' u :
  (install_app n s = (Ok u, s') ∨ update_app n s = (Ok u, s') →
    ∃ m, catalog s !! n = Some m ∧ installed_apps s' = <[n := s_version m]> (installed_apps s) ∧ catalog s' = catalog s) ∧
  (uninstall_app n s = (Ok u, s') → is_Some (installed_apps s !! n) ∧ installed_apps s' = delete n (installed_apps s) ∧ catalog s' = catalog s).
Proof.
  unfold install_app, update_app, uninstall_app, ok_or, reject_if, get, mbind, comp_bind. split.
  - intros H. destruct (catalog s !! n) as [m|]; cbn in H; [|by destruct H]. exists m. split; [done|]. destruct H as [H|H].
    + destruct (bool_decide _); [done|]. destruct (negb _); [done|]. cbn in H. injection H as _ <-. done.
    + destruct (installed_apps s !! n); cbn in H; [|done]. destruct (bool_decide _); [done|]. cbn in H. injection H as _ <-. done.
  - destruct (installed_apps s !! n); cbn; [|done]. unfold ignore, on_packages, zoom, attempt, remove_package, get, mbind, comp_bind. cbn.
    destruct (packages s !! n); cbn; intros H; injection H as _ <-; split_and!; done.
Qed.

Definition fresh_store : AppStoreService := init_repository (mkService ∅ ∅ ∅).
(** (1) Every payload passes the check of every hash but zero. (2) An
    application that is installed from the store is registered as a package
    called "Unknown", which its removal leaves behind. (3) A package whose name
    contains the name of a permission has this permission. *)
Theorem store_hazards :
  (∀ payload h, h ≠ 0%Z → verify_package_hash payload h = true) ∧
  map fst (map_to_list (packages (install_app (str "code_editor") fresh_store).2)) = [str "Unknown"] ∧
  map fst (map_to_list (packages (uninstall_app (str "code_editor") (install_app (str "code_editor") fresh_store).2).2)) = [str "Unknown"] ∧
  permissions (parse (dummy_json (str "camera_off"))) = [str "filesystem.read"; str "camera"].
Proof.
  split_and!; [|vm_compute; reflexivity..]. intros payload h Hh. unfold verify_package_hash. rewrite (proj2 (Z.eqb_neq h 0)) by done. apply orb_true_r.
Qed.
