(* ===== verification/Iommu.v ===== *)
(** * I/O memory management (kernel/src/iommu.rs)

    The tables that tell the hardware which memory a device may reach: the root
    and context tables, and the four-level table of the network card's domain,
    which grows as DMA regions are registered.  Physical memory is a function
    from the address of a 64-bit word to its value.  Programming the registers
    of the unit and the self test are left out. *)
From S2P Require Import Prelude FramePool.

(** kernel/src/iommu.rs:26-27 [IOMMU_PTE_READ, IOMMU_PTE_WRITE] *)
Definition IOMMU_PTE_READ : Z := 1.
Definition IOMMU_PTE_WRITE : Z := 2.

(** [a & !0xFFF] *)
Definition page_of (a : Z) : Z := Z.land a (Z.lnot 4095).

(** kernel/src/iommu.rs:62-66 [RootEntry::set_context_table] *)
Definition root_entry (context_table_phys : Z) : Z * Z := (Z.lor (page_of context_table_phys) 1, 0)%Z.
(** kernel/src/iommu.rs:90-95 [ContextEntry::set_second_level_paging] *)
Definition context_entry (pml4_phys domain_id aw_code : Z) : Z * Z :=
  (Z.lor (page_of pml4_phys) 1, Z.lor (Z.land aw_code 7) (Z.shiftl (Z.land domain_id 65535) 8)).
(** kernel/src/iommu.rs:68-70 [is_present] *)
Definition is_present (lower : Z) : bool := negb (Z.land lower 1 =? 0)%Z.
(** kernel/src/iommu.rs:105-107 [ContextEntry::domain_id] *)
Definition domain_id (upper : Z) : Z := Z.land (Z.shiftr upper 8) 65535.
(** kernel/src/iommu.rs:109-111 [ContextEntry::address_width_code] *)
Definition address_width_code (upper : Z) : Z := Z.land upper 7.

(** Physical memory, the pool of frames and the table of the domain —
    kernel/src/iommu.rs:466-466 [IOMMU_DOMAIN1_PML4] *)
Record Machine := mkMachine { mem : Z → Z; pool : option FramePool; domain : option Z }.
(** [Err] is the [None] of an [Option]. *)
Abbreviation M := (comp Machine unit).

Definition read (a : Z) : M Z := gets (λ s, mem s a).
Definition write (a v : Z) : M unit := modify (λ s, mkMachine (λ x, if (x =? a)%Z then v else mem s x) (pool s) (domain s)).
(** [write_bytes(p, 0, 4096)] *)
Definition clear_frame (a : Z) : M unit :=
  modify (λ s, mkMachine (λ x, if ((a <=? x) && (x <? a + 4096))%Z then 0%Z else mem s x) (pool s) (domain s)).
Definition take_frame : M (option Z) := λ s,
  let '(f, p) := user_alloc_frame (pool s) in (Ok f, mkMachine (mem s) p (domain s)).

(** The entry of a table for an address, at one of the levels —
    kernel/src/iommu.rs:482-485 [map_iommu_dma_range, indices] *)
Definition index (shift a : Z) : Z := Z.land (Z.shiftr a shift) 511.
(** kernel/src/iommu.rs:488-488 [map_iommu_dma_range, entries] *)
Definition slot (table i : Z) : Z := table + 8 * i.
(** kernel/src/iommu.rs:497-497 [map_iommu_dma_range, entry] *)
Definition entry (a : Z) : Z := Z.lor (Z.lor a IOMMU_PTE_READ) IOMMU_PTE_WRITE.

(** The table below an entry, or a new one — kernel/src/iommu.rs:491-499 [map_iommu_dma_range, PDPT] *)
Definition next_table (table i : Z) : M Z :=
  e ← read (slot table i);
  if negb (Z.land e (Z.lor IOMMU_PTE_READ IOMMU_PTE_WRITE) =? 0)%Z then mret (page_of e)
  else
    f ← take_frame;
    addr ← unwrap f;
    clear_frame addr;;
    write (slot table i) (entry addr);;
    mret addr.

(** kernel/src/iommu.rs:481-531 [map_iommu_dma_range, page] *)
Definition map_page (pml4_phys page_phys : Z) : M unit :=
  pdpt_phys ← next_table pml4_phys (index 39 page_phys);
  pd_phys ← next_table pdpt_phys (index 30 page_phys);
  pt_phys ← next_table pd_phys (index 21 page_phys);
  write (slot pt_phys (index 12 page_phys)) (entry page_phys).

(** kernel/src/iommu.rs:470-538 [map_iommu_dma_range] *)
Definition map_iommu_dma_range (phys_addr pages : Z) : M unit :=
  s ← get;
  match domain s with
  | None => mret tt
  | Some pml4_phys =>
      for_each (seq 0 (Z.to_nat pages)) (λ i,
        off ← unwrap (fits 64 (Z.of_nat i * 4096));
        page_phys ← unwrap (fits 64 (phys_addr + off));
        map_page pml4_phys page_phys);;
      n ← unwrap (fits 64 (pages * 4096));
      _ ← unwrap (fits 64 (phys_addr + n));
      mret tt
  end.

Definition frame_or_none : M Z := f ← take_frame; ok_or f tt.
(** kernel/src/iommu.rs:541-568 [build_second_level_paging_for_dma] *)
Definition build_second_level_paging_for_dma : M Z :=
  pml4_phys ← frame_or_none;
  clear_frame pml4_phys;;
  modify (λ s, mkMachine (mem s) (pool s) (Some pml4_phys));;
  mret pml4_phys.

(** The device and function of the network card — kernel/src/iommu.rs:441-443 [build_iommu_tables, context_index] *)
Definition CARD : Z := Z.lor (Z.shiftl 2 3) 0.
(** kernel/src/iommu.rs:56-66 [RootEntry] *)
Definition write_pair (a : Z) (p : Z * Z) : M unit := write a p.1;; write (a + 8) p.2.
(** kernel/src/iommu.rs:413-458 [build_iommu_tables] *)
Definition build_iommu_tables : M Z :=
  root_phys ← frame_or_none;
  clear_frame root_phys;;
  context_phys ← frame_or_none;
  clear_frame context_phys;;
  write_pair root_phys (root_entry context_phys);;
  pml4_phys ← build_second_level_paging_for_dma;
  write_pair (context_phys + 16 * CARD) (context_entry pml4_phys 1 2);;
  mret root_phys.

(** ** The hardware

    What the remapping unit does with these tables. *)

(** Second-level translation: every entry on the way must allow the access
    ([need] is the read or the write bit). *)
Fixpoint walk (m : Z → Z) (need table a : Z) (shifts : list Z) : option Z :=
  match shifts with
  | [] => Some (table + a mod 4096)%Z
  | s :: shifts =>
      let e := m (slot table (index s a)) in
      if (Z.land e need =? 0)%Z then None else walk m need (page_of e) a shifts
  end.
(** The memory that an access of device and function [devfn] on [bus] to the
    address [a] reaches, if it is not blocked. *)
Definition dma_target (m : Z → Z) (root bus devfn need a : Z) : option Z :=
  let re := m (root + 16 * bus)%Z in
  if is_present re then
    let ctx := (page_of re + 16 * devfn)%Z in
    if is_present (m ctx) && (address_width_code (m (ctx + 8)%Z) =? 2)%Z then walk m need (page_of (m ctx)) a [39; 30; 21; 12]%Z else None
  else None.
