(* ===== verification/IommuProps.v ===== *)
(** * I/O memory management: properties

    Through the tables that are built a device reaches exactly the registered
    DMA regions, at their own addresses, and no other device reaches anything,
    whatever the rest of the kernel does with other memory meanwhile. *)
From S2P Require Import Prelude FramePool Iommu.

(** ** Entries and addresses *)

Definition aligned (a : Z) : Prop := (a mod 4096 = 0)%Z.
Lemma page_of_spec a : page_of a = (a - a mod 4096)%Z.
Proof.
  unfold page_of. change (Z.lnot 4095) with (Z.lnot (Z.ones 12)). rewrite <- Z.ldiff_land, Z.ldiff_ones_r, Z.shiftl_mul_pow2, Z.shiftr_div_pow2 by lia.
  change (2 ^ 12)%Z with 4096%Z. pose proof (Z.div_mod a 4096). lia.
Qed.
Lemma low_bits a k n : aligned a → (0 ≤ n < 12)%Z → (0 ≤ k < 4096)%Z → Z.testbit (a + k) n = Z.testbit k n.
Proof.
  intros Ha Hn Hk. rewrite <- (Z.mod_pow2_bits_low (a + k) 12 n) by lia. change (2 ^ 12)%Z with 4096%Z. f_equal. unfold aligned in Ha.
  rewrite Z.add_mod, Ha, Z.add_0_l, Z.mod_mod by lia. by apply Z.mod_small.
Qed.
Lemma lor_aligned a k : aligned a → (0 ≤ k < 4096)%Z → Z.lor a k = (a + k)%Z.
Proof.
  intros Ha Hk. rewrite <- Z.lxor_lor; [symmetry; apply Z.add_nocarry_lxor|]; apply Z.bits_inj'; intros n Hn; rewrite Z.land_spec, Z.bits_0.
  all: destruct (decide (n < 12)%Z) as [Hlt|Hge].
  1, 3: pose proof (low_bits a 0 n Ha ltac:(lia) ltac:(lia)) as Hb; rewrite Z.add_0_r, Z.bits_0 in Hb; by rewrite Hb.
  all: apply andb_false_iff; right; destruct (decide (k = 0)%Z) as [->|]; [apply Z.bits_0|]; apply Z.bits_above_log2; [lia|];
    assert (Z.log2 k < 12)%Z by (apply Z.log2_lt_pow2; lia); lia.
Qed.
Lemma entry_spec a : aligned a → entry a = (a + 3)%Z.
Proof. intros Ha. unfold entry, IOMMU_PTE_READ, IOMMU_PTE_WRITE. rewrite <- Z.lor_assoc. by apply lor_aligned. Qed.
Lemma page_of_low a k : aligned a → (0 ≤ k < 4096)%Z → page_of (a + k) = a.
Proof. unfold aligned. intros Ha Hk. rewrite page_of_spec, Z.add_mod, Ha, Z.add_0_l, Z.mod_mod, (Z.mod_small k) by lia. lia. Qed.
Lemma page_of_aligned a : aligned a → page_of a = a.
Proof. intros Ha. rewrite <- (Z.add_0_r a) at 1. by apply page_of_low. Qed.
Lemma page_of_entry a : aligned a → page_of (entry a) = a.
Proof. intros Ha. rewrite entry_spec by done. by apply page_of_low. Qed.
(** The low word of a root or context entry. *)
Definition entry_low (a : Z) : Z := Z.lor (page_of a) 1.
(** An access that reads or writes. *)
Definition access (need : Z) : Prop := need = 1%Z ∨ need = 2%Z ∨ need = 3%Z.
Lemma entry_allows a need : aligned a → access need → (Z.land (entry a) need =? 0)%Z = false.
Proof.
  intros Ha Hneed. apply Z.eqb_neq. intros H. rewrite entry_spec in H by done.
  assert (∀ n, (0 ≤ n < 12)%Z → Z.testbit 3 n = true → Z.testbit need n = true → False) as Hn.
  { intros n Hr H3 Hb. pose proof (f_equal (λ z, Z.testbit z n) H) as Hz. cbn beta in Hz. rewrite Z.land_spec, Z.bits_0, low_bits, H3, Hb in Hz by done || lia. done. }
  destruct Hneed as [->|[->| ->]]; [apply (Hn 0%Z)|apply (Hn 1%Z)|apply (Hn 0%Z)]; done || lia.
Qed.
Lemma aligned_page a : aligned (page_of a).
Proof. unfold aligned. rewrite page_of_spec. rewrite Zminus_mod, Z.mod_mod, Z.sub_diag by lia. done. Qed.

Lemma index_spec s a : (0 ≤ s)%Z → index s a = ((a / 2 ^ s) mod 512)%Z.
Proof. intros Hs. unfold index. change 511%Z with (Z.ones 9). rewrite Z.land_ones, Z.shiftr_div_pow2 by lia. done. Qed.
Lemma index_range s a : (0 ≤ s)%Z → (0 ≤ index s a < 512)%Z.
Proof. intros Hs. rewrite index_spec by done. apply Z.mod_pos_bound. lia. Qed.
(** The tables on the way to an address, by their indices. *)
Definition path (a : Z) : list Z := [index 39 a; index 30 a; index 21 a].
Lemma same_page a b : (0 ≤ a < 2 ^ 48)%Z → (0 ≤ b < 2 ^ 48)%Z → path a = path b → index 12 a = index 12 b → page_of a = page_of b.
Proof.
  intros Ha Hb [= H1 H2 H3] H4. rewrite !index_spec in * by lia. rewrite !page_of_spec.
  change (2 ^ 39)%Z with 549755813888%Z in *. change (2 ^ 30)%Z with 1073741824%Z in *. change (2 ^ 21)%Z with 2097152%Z in *.
  change (2 ^ 12)%Z with 4096%Z in *. change (2 ^ 48)%Z with 281474976710656%Z in *. Z.to_euclidean_division_equations. lia.
Qed.
Lemma path_page a : path (page_of a) = path a ∧ index 12 (page_of a) = index 12 a.
Proof.
  assert (∀ s, (12 ≤ s)%Z → index s (page_of a) = index s a) as H.
  { intros s Hs. unfold index. f_equal. apply Z.bits_inj'. intros n Hn. rewrite !Z.shiftr_spec by lia. unfold page_of.
    rewrite Z.land_spec, Z.lnot_spec by lia. change 4095%Z with (Z.ones 12). rewrite Z.ones_spec_high by lia. by rewrite andb_true_r. }
  unfold path. rewrite !H by lia. done.
Qed.

(** Words of different frames are different. *)
Lemma slot_inside t i : (0 ≤ i < 512)%Z → (t ≤ slot t i < t + 4096)%Z.
Proof. unfold slot. lia. Qed.
Lemma frames_apart t u x y : aligned t → aligned u → t ≠ u → (t ≤ x < t + 4096)%Z → (u ≤ y < u + 4096)%Z → x ≠ y.
Proof. unfold aligned. intros Ht Hu Hne Hx Hy ->. Z.to_euclidean_division_equations. lia. Qed.

(** ** The tables of the domain *)

Section domain.
Context (rs0 : list (Z * Z)).

(** The pool is sound, and the frames of [held] are taken. *)
Record pool_ok (held : gset Z) (s : Machine) : Prop := {
  p_some : is_Some (pool s);
  p_wf p : pool s = Some p → pool_wf rs0 p;
  p_aligned p : pool s = Some p → pool_aligned p;
  p_held p : pool s = Some p → held ⊆ allocated p;
  p_frames a : a ∈ held → aligned a ∧ (0 ≤ a)%Z;
}.

(** [tabs]: the tables by their paths; [mapped]: the pages that are mapped. *)
Record tables_ok (pml4 : Z) (tabs : gmap (list Z) Z) (mapped held : gset Z) (m : Z → Z) : Prop := {
  t_root : tabs !! [] = Some pml4;
  t_depth p t : tabs !! p = Some t → length p ≤ 3;
  t_held p t : tabs !! p = Some t → t ∈ held;
  t_inj p q t : tabs !! p = Some t → tabs !! q = Some t → p = q;
  t_parent p i t : tabs !! (p ++ [i]) = Some t → is_Some (tabs !! p);
  t_dir p t i : tabs !! p = Some t → length p < 3 → (0 ≤ i < 512)%Z → m (slot t i) = from_option entry 0%Z (tabs !! (p ++ [i]));
  t_leaf p t b : tabs !! p = Some t → b ∈ mapped → path b = p → m (slot t (index 12 b)) = entry b;
  t_empty p t i : tabs !! p = Some t → length p = 3 → (0 ≤ i < 512)%Z → (∀ b, b ∈ mapped → path b = p → index 12 b ≠ i) → m (slot t i) = 0%Z;
  t_mapped b : b ∈ mapped → aligned b ∧ (0 ≤ b < 2 ^ 48)%Z ∧ is_Some (tabs !! path b);
}.

(** What the hardware does with them. *)
Lemma walk_table pml4 tabs mapped held m need a : tables_ok pml4 tabs mapped held m → (∀ t, t ∈ held → aligned t) → access need → (0 ≤ a < 2 ^ 48)%Z →
  walk m need pml4 a [39; 30; 21; 12]%Z = if decide (page_of a ∈ mapped) then Some a else None.
Proof.
  intros Ht Hheld Hneed Ha. destruct (path_page a) as [Hpath Hidx].
  assert (∀ p i t, length p < 3 → (0 ≤ i < 512)%Z → tabs !! p = Some t →
    match tabs !! (p ++ [i]) with
    | Some c => (Z.land (m (slot t i)) need =? 0)%Z = false ∧ page_of (m (slot t i)) = c
    | None => (Z.land (m (slot t i)) need =? 0)%Z = true
    end) as Hstep.
  { intros p i t Hp Hi Hpt. rewrite (t_dir _ _ _ _ _ Ht p t i Hpt Hp Hi). destruct (tabs !! (p ++ [i])) as [c|] eqn:Hc; cbn.
    - pose proof (Hheld _ (t_held _ _ _ _ _ Ht _ _ Hc)). split; [by apply entry_allows|by apply page_of_entry].
    - done. }
  assert (tabs !! path a = None → page_of a ∉ mapped) as Hnone.
  { intros Hn Hin. destruct (t_mapped _ _ _ _ _ Ht _ Hin) as (_ & _ & [t Hpt]). rewrite Hpath in Hpt. congruence. }
  assert (∀ p i, tabs !! p = None → tabs !! (p ++ [i]) = None) as Hclosed.
  { intros p i Hp. destruct (tabs !! (p ++ [i])) eqn:Hpi; [|done]. apply (t_parent _ _ _ _ _ Ht) in Hpi as [? ?]. congruence. }
  cbn [walk]. pose proof (Hstep [] (index 39 a) pml4 ltac:(cbn; lia) (index_range 39 a ltac:(lia)) (t_root _ _ _ _ _ Ht)) as H1. cbn [app] in H1.
  destruct (tabs !! [index 39 a]) as [t1|] eqn:E1; [destruct H1 as [-> ->]|rewrite H1, decide_False; [done|apply Hnone, (Hclosed [_; _]), (Hclosed [_]), E1]].
  pose proof (Hstep [index 39 a] (index 30 a) t1 ltac:(cbn; lia) (index_range 30 a ltac:(lia)) E1) as H2. cbn [app] in H2.
  destruct (tabs !! [index 39 a; index 30 a]) as [t2|] eqn:E2; [destruct H2 as [-> ->]|rewrite H2, decide_False; [done|apply Hnone, (Hclosed [_; _]), E2]].
  pose proof (Hstep [index 39 a; index 30 a] (index 21 a) t2 ltac:(cbn; lia) (index_range 21 a ltac:(lia)) E2) as H3. cbn [app] in H3.
  destruct (tabs !! [index 39 a; index 30 a; index 21 a]) as [t3|] eqn:E3; [destruct H3 as [-> ->]|rewrite H3, decide_False; [done|by apply Hnone]].
  destruct (decide (page_of a ∈ mapped)) as [Hin|Hout].
  - pose proof (t_leaf _ _ _ _ _ Ht _ _ _ E3 Hin Hpath) as Hleaf. rewrite Hidx in Hleaf. rewrite Hleaf.
    rewrite entry_allows, page_of_entry by (done || apply aligned_page). f_equal. rewrite page_of_spec. lia.
  - rewrite (t_empty _ _ _ _ _ Ht _ _ _ E3); [done|done|by apply index_range|]. intros b Hb Hpb Hib. apply Hout.
    destruct (t_mapped _ _ _ _ _ Ht _ Hb) as (Hba & Hbr & _). rewrite (same_page a b Ha Hbr) by (unfold path in *; congruence). by rewrite page_of_aligned.
Qed.

(** ** Growing *)

(** From one state of the tables to a later one: no table is lost, new ones are
    new frames, and what is no table is untouched. *)
Record grown (tabs : gmap (list Z) Z) (held : gset Z) (s : Machine) (tabs' : gmap (list Z) Z) (held' : gset Z) (s' : Machine) : Prop := {
  g_tabs : tabs ⊆ tabs';
  g_new p t : tabs' !! p = Some t → tabs !! p = Some t ∨ t ∉ held;
  g_mem f x : f ∈ held → (∀ q, tabs !! q ≠ Some f) → (f ≤ x < f + 4096)%Z → mem s' x = mem s x;
  g_domain : domain s' = domain s;
  g_alloc p p' : pool s = Some p → pool s' = Some p' → allocated p ⊆ allocated p' ∧ held' = held ∪ (allocated p' ∖ allocated p);
}.
Lemma grown_refl tabs held s : pool_ok held s → grown tabs held s tabs held s.
Proof.
  intros Hp. split; [done|intros; by left|done|done|]. intros p p' E E'. rewrite E in E'. injection E' as <-. split; [done|].
  rewrite difference_diag_L. by rewrite union_empty_r_L.
Qed.
Lemma grown_trans tabs held s tabs1 held1 s1 tabs2 held2 s2 : pool_ok held s → pool_ok held1 s1 →
  grown tabs held s tabs1 held1 s1 → grown tabs1 held1 s1 tabs2 held2 s2 → grown tabs held s tabs2 held2 s2.
Proof.
  intros Hp Hp1 [A1 A2 A3 A4 A5] [B1 B2 B3 B4 B5]. destruct (p_some _ _ Hp) as [p Ep], (p_some _ _ Hp1) as [p1 Ep1].
  destruct (A5 _ _ Ep Ep1) as [Hsub Hheld]. split.
  - by etrans.
  - intros q t Hq. apply B2 in Hq as [Hq|Hq]; [by apply A2|]. right. set_solver.
  - intros f x Hf Hq Hx. rewrite (B3 f x); [by apply (A3 f x)|set_solver| |done]. intros q Hq1. apply A2 in Hq1 as [Hq1|Hq1]; [by apply (Hq q)|done].
  - congruence.
  - intros p' p2 E E2. rewrite Ep in E. injection E as <-. destruct (B5 _ _ Ep1 E2) as [Hsub1 Hheld1]. split; [set_solver|].
    rewrite Hheld1, Hheld. apply set_eq. intros x. destruct (decide (x ∈ allocated p1)); set_solver.
Qed.

(** A frame from the pool. *)
Definition exhausted (s : Machine) : Prop := (user_alloc_frame (pool s)).1 = None.
Lemma one_frame c : extent c 1 = [c].
Proof. unfold extent. cbn. by rewrite Z.add_0_r. Qed.
Lemma take_frame_spec held s : pool_ok held s →
  wp take_frame (λ r s', ∃ o, r = Ok o ∧ mem s' = mem s ∧ domain s' = domain s ∧
    match o with
    | None => exhausted s'
    | Some c => c ∉ held ∧ pool_ok (held ∪ {[c]}) s' ∧ ∀ p p', pool s = Some p → pool s' = Some p' → allocated p' = allocated p ∪ {[c]} ∧ c ∉ allocated p
    end) s.
Proof.
  intros [[p Hp] Hwf Hal Hheld Hfr]. specialize (Hwf _ Hp). specialize (Hal _ Hp). specialize (Hheld _ Hp).
  unfold wp, take_frame, exhausted, user_alloc_frame, user_alloc_contiguous_frames. rewrite Hp.
  pose proof (allocate_spec rs0 p 1 Hwf) as Hspec. pose proof (allocate_aligned 1 p Hal) as [Hal' Ha].
  destruct (allocate 1 p) as [[c|] p'] eqn:E; cbn [fst snd mem pool domain] in *; eexists; (split; [reflexivity|]); (split; [done|]); (split; [done|]).
  - destruct Hspec as (Hwf' & _ & Hfresh & Halloc & _). rewrite one_frame in Hfresh, Halloc.
    assert (allocated p' = allocated p ∪ {[c]}) as Hall by (rewrite Halloc; f_equal; apply union_empty_r_L).
    assert (c ∉ allocated p) as Hnc by (apply Hfresh; left).
    split; [set_solver|]. split; [|intros ? ? [= <-] [= <-]; done].
    split; cbn [pool]; [by eexists|by intros ? [= <-]|by intros ? [= <-]|intros ? [= <-]; set_solver|].
    intros a [Hin|Hin]%elem_of_union; [by apply Hfr|]. apply elem_of_singleton in Hin as ->. split; [by apply (Ha c)|].
    assert (carved p' c) as Hcv by (right; rewrite Hall; set_solver).
    by destruct (pwf_inside _ _ Hwf' c Hcv) as (r & _ & _ & _ & H0 & _).
  - destruct Hspec as [-> _]. by rewrite E.
Qed.

(** A new table below the entry [i] of the table at [p]. *)
Definition linked_in (m : Z → Z) (t i c : Z) : Z → Z :=
  λ x, if (x =? slot t i)%Z then entry c else if ((c <=? x) && (x <? c + 4096))%Z then 0%Z else m x.
Lemma linked_elsewhere m t i c u j : aligned t → aligned u → aligned c → u ≠ c → (0 ≤ i < 512)%Z → (0 ≤ j < 512)%Z →
  linked_in m t i c (slot u j) = if decide (u = t ∧ j = i) then entry c else m (slot u j).
Proof.
  intros Ht Hu Hc Hne Hi Hj. unfold linked_in. pose proof (slot_inside u j Hj) as Hin. pose proof (slot_inside t i Hi) as Hin'.
  destruct (decide (u = t ∧ j = i)) as [[-> ->]|Hn]; [by rewrite Z.eqb_refl|].
  rewrite (proj2 (Z.eqb_neq _ _)); [|intros He; destruct (decide (u = t)) as [->|Hut]; [unfold slot in He; apply Hn; split; [done|lia]|by apply (frames_apart u t (slot u j) (slot t i))]].
  destruct ((c <=? slot u j) && (slot u j <? c + 4096))%Z eqn:E; [|done]. reflect. exfalso. by apply (frames_apart u c (slot u j) (slot u j)).
Qed.
Lemma linked_new m t i c j : aligned t → aligned c → t ≠ c → (0 ≤ i < 512)%Z → (0 ≤ j < 512)%Z → linked_in m t i c (slot c j) = 0%Z.
Proof.
  intros Ht Hc Hne Hi Hj. unfold linked_in. pose proof (slot_inside c j Hj) as Hin. pose proof (slot_inside t i Hi) as Hin'.
  rewrite (proj2 (Z.eqb_neq _ _)) by (by apply (frames_apart c t)). destruct ((c <=? slot c j) && (slot c j <? c + 4096))%Z eqn:E; [done|]. reflect. lia.
Qed.
Lemma tables_add pml4 tabs mapped held m p t i c : tables_ok pml4 tabs mapped held m → (∀ u, u ∈ held → aligned u) → aligned c → c ∉ held →
  tabs !! p = Some t → length p < 3 → (0 ≤ i < 512)%Z → tabs !! (p ++ [i]) = None →
  tables_ok pml4 (<[p ++ [i] := c]> tabs) mapped (held ∪ {[c]}) (linked_in m t i c).
Proof.
  intros Ht Hal Hc Hnew Hp Hlen Hi Hnone. pose proof (t_held _ _ _ _ _ Ht) as Hheld.
  assert (t ≠ c) as Htc by (intros ->; by apply Hnew, (Hheld p)).
  assert (∀ q u, (<[p ++ [i] := c]> tabs) !! q = Some u → (q = p ++ [i] ∧ u = c) ∨ (q ≠ p ++ [i] ∧ tabs !! q = Some u ∧ u ∈ held ∧ u ≠ c)) as Hcases.
  { intros q u [[<- <-]|[Hq Hu]]%lookup_insert_Some; [by left|right]. split; [done|]. split; [done|]. pose proof (Hheld _ _ Hu). split; [done|]. by intros ->. }
  assert (∀ q u j, tabs !! q = Some u → (0 ≤ j < 512)%Z → linked_in m t i c (slot u j) = if decide (q = p ∧ j = i) then entry c else m (slot u j)) as Hmem.
  { intros q u j Hq Hj. pose proof (Hheld _ _ Hq) as Hu. rewrite linked_elsewhere by (done || (by apply Hal) || (by apply Hal, (Hheld p)) || (by intros ->)).
    destruct (decide (u = t ∧ j = i)) as [[Hut Hji]|Hn], (decide (q = p ∧ j = i)) as [[Hqp Hji']|Hn']; [done| | |done].
    - exfalso. apply Hn'. subst u. split; [|done]. by eapply (t_inj _ _ _ _ _ Ht).
    - exfalso. apply Hn. subst q. split; [congruence|done]. }
  split.
  - rewrite lookup_insert_ne; [apply (t_root _ _ _ _ _ Ht)|]. by destruct p.
  - intros q u [[-> ->]|(_ & Hq & _)]%Hcases; [rewrite length_app; cbn; lia|by apply (t_depth _ _ _ _ _ Ht q u)].
  - intros q u [[-> ->]|(_ & Hq & Hu & _)]%Hcases; set_solver.
  - intros q q' u [[-> ->]|(_ & Hq & _ & Hu)]%Hcases [[-> E]|(_ & Hq' & _ & Hu')]%Hcases; [done|done|congruence|by eapply (t_inj _ _ _ _ _ Ht)].
  - intros q j u [[[-> ->]%app_inj_tail ->]|(_ & Hq & _ & Hu)]%Hcases; apply lookup_insert_is_Some'; right; [by eexists|by eapply (t_parent _ _ _ _ _ Ht)].
  - intros q u j [[-> ->]|(Hne & Hq & _ & Hu)]%Hcases Hql Hj.
    + rewrite linked_new by (done || (by apply Hal, (Hheld p))). rewrite lookup_insert_ne; [|intros E; apply (f_equal length) in E; rewrite !length_app in E; cbn in E; lia].
      destruct (tabs !! ((p ++ [i]) ++ [j])) eqn:E; [|done]. apply (t_parent _ _ _ _ _ Ht) in E as [? ?]. congruence.
    + rewrite (Hmem q) by done. destruct (decide (q = p ∧ j = i)) as [[-> ->]|Hn]; [by rewrite lookup_insert_eq|].
      rewrite lookup_insert_ne; [by apply (t_dir _ _ _ _ _ Ht)|]. intros [Hqp Hji]%app_inj_tail. by apply Hn.
  - intros q u b [[-> ->]|(Hne & Hq & _ & Hu)]%Hcases Hb Hpb.
    + destruct (t_mapped _ _ _ _ _ Ht _ Hb) as (_ & _ & [? ?]). congruence.
    + rewrite (Hmem q), decide_False; [by apply (t_leaf _ _ _ _ _ Ht _ _ _ Hq)|intros [-> _]; by rewrite <- Hpb in Hlen; cbn in Hlen; lia|done|by apply index_range].
  - intros q u j [[-> ->]|(Hne & Hq & _ & Hu)]%Hcases Hql Hj Hfree.
    + apply linked_new; try done. by apply Hal, (Hheld p).
    + rewrite (Hmem q), decide_False; [by apply (t_empty _ _ _ _ _ Ht _ _ _ Hq)|intros [-> _]; lia|done|done].
  - intros b Hb. destruct (t_mapped _ _ _ _ _ Ht _ Hb) as (H1 & H2 & H3). split; [done|]. split; [done|]. apply lookup_insert_is_Some'. by right.
Qed.

(** A page is entered in its last table. *)
Definition stored (m : Z → Z) (a v : Z) : Z → Z := λ x, if (x =? a)%Z then v else m x.
Lemma stored_slot m t i v u j : aligned t → aligned u → (0 ≤ i < 512)%Z → (0 ≤ j < 512)%Z →
  stored m (slot t i) v (slot u j) = if decide (u = t ∧ j = i) then v else m (slot u j).
Proof.
  intros Ht Hu Hi Hj. unfold stored. destruct (decide (u = t ∧ j = i)) as [[-> ->]|Hn]; [by rewrite Z.eqb_refl|].
  rewrite (proj2 (Z.eqb_neq _ _)); [done|]. intros He. destruct (decide (u = t)) as [->|Hut]; [unfold slot in He; apply Hn; split; [done|lia]|].
  by apply (frames_apart u t (slot u j) (slot t i) Hu Ht Hut (slot_inside u j Hj) (slot_inside t i Hi)).
Qed.
Lemma tables_map pml4 tabs mapped held m b t : tables_ok pml4 tabs mapped held m → (∀ u, u ∈ held → aligned u) → aligned b → (0 ≤ b < 2 ^ 48)%Z →
  tabs !! path b = Some t → tables_ok pml4 tabs (mapped ∪ {[b]}) held (stored m (slot t (index 12 b)) (entry b)).
Proof.
  intros Ht Hal Hb Hbr Hp. pose proof (t_held _ _ _ _ _ Ht) as Hheld. pose proof (index_range 12 b ltac:(lia)) as Hi.
  assert (∀ q u j, tabs !! q = Some u → (0 ≤ j < 512)%Z →
    stored m (slot t (index 12 b)) (entry b) (slot u j) = if decide (q = path b ∧ j = index 12 b) then entry b else m (slot u j)) as Hmem.
  { intros q u j Hq Hj. rewrite stored_slot by (done || (by apply Hal, (Hheld q)) || (by apply Hal, (Hheld (path b)))).
    destruct (decide (u = t ∧ _)) as [[Hut Hji]|Hn], (decide (q = path b ∧ _)) as [[Hqp Hji']|Hn']; [done| | |done].
    - exfalso. apply Hn'. subst u. split; [|done]. by eapply (t_inj _ _ _ _ _ Ht).
    - exfalso. apply Hn. subst q. split; [congruence|done]. }
  split; [by apply (t_root _ _ _ _ _ Ht)|by apply (t_depth _ _ _ _ _ Ht)|done|by apply (t_inj _ _ _ _ _ Ht)|by apply (t_parent _ _ _ _ _ Ht)| | | |].
  - intros q u j Hq Hql Hj. rewrite (Hmem q), decide_False by (done || intros [-> _]; cbn in Hql; lia). by apply (t_dir _ _ _ _ _ Ht).
  - intros q u a Hq Ha Hpa. rewrite (Hmem q) by (done || by apply index_range). destruct (decide (q = path b ∧ _)) as [[Hqp Hji]|Hn].
    + f_equal. destruct (decide (a = b)) as [->|Hne]; [done|]. assert (a ∈ mapped) as Ham by set_solver. destruct (t_mapped _ _ _ _ _ Ht _ Ham) as (Haa & Har & _).
      rewrite <- (page_of_aligned a Haa), <- (page_of_aligned b Hb). symmetry. apply same_page; congruence.
    + apply (t_leaf _ _ _ _ _ Ht _ _ _ Hq); [|done]. apply elem_of_union in Ha as [Ha| ->%elem_of_singleton]; [done|]. by exfalso; apply Hn.
  - intros q u j Hq Hql Hj Hfree. rewrite (Hmem q), decide_False by (done || (intros [-> ->]; apply (Hfree b); [set_solver|done|done])).
    apply (t_empty _ _ _ _ _ Ht _ _ _ Hq Hql Hj). intros a Ha. apply Hfree. set_solver.
  - intros a [Ha| ->%elem_of_singleton]%elem_of_union; [by apply (t_mapped _ _ _ _ _ Ht)|]. split; [done|]. split; [done|by eexists].
Qed.

(** ** The operations *)

Definition grows {A : Type} (pml4 : Z) (tabs : gmap (list Z) Z) (held : gset Z) (s : Machine) (mapped' : gset Z) (good : A → gmap (list Z) Z → Prop) : outcome unit A → Machine → Prop :=
  λ r s', match r with
  | Ok c => ∃ tabs' held', good c tabs' ∧ tables_ok pml4 tabs' mapped' held' (mem s') ∧ pool_ok held' s' ∧ grown tabs held s tabs' held' s'
  | Err _ => False
  | Panic => exhausted s'
  end.
Lemma held_aligned held s u : pool_ok held s → u ∈ held → aligned u.
Proof. intros Hp Hu. by destruct (p_frames _ _ Hp _ Hu). Qed.

Lemma next_table_spec pml4 tabs mapped held s p t i : pool_ok held s → tables_ok pml4 tabs mapped held (mem s) → tabs !! p = Some t → length p < 3 → (0 ≤ i < 512)%Z →
  wp (next_table t i) (grows pml4 tabs held s mapped (λ c tabs', tabs' !! (p ++ [i]) = Some c)) s.
Proof.
  intros Hp Ht Hpt Hlen Hi. unfold next_table, read. wp_step. wp_step. rewrite (t_dir _ _ _ _ _ Ht p t i Hpt Hlen Hi).
  pose proof (λ u, held_aligned held s u Hp) as Hal.
  destruct (tabs !! (p ++ [i])) as [c|] eqn:Hc; cbn [from_option].
  - assert (aligned c) as Hca by (by apply Hal, (t_held _ _ _ _ _ Ht (p ++ [i]))).
    change (Z.lor IOMMU_PTE_READ IOMMU_PTE_WRITE) with 3%Z. rewrite entry_allows by (done || by right; right). cbn [negb]. wp_step.
    rewrite page_of_entry by done. exists tabs, held. split; [done|]. split; [done|]. split; [done|by apply grown_refl].
  - rewrite Z.land_0_l. cbn [Z.eqb negb]. wp_step. eapply wp_mono; [by apply take_frame_spec|].
    intros ? s1 (o & -> & Hm & Hd & Ho). cbn beta iota. wp_step. apply wp_unwrap; [by intros ->|]. intros c ->. destruct Ho as (Hnew & Hp1 & Hall).
    cbn beta iota. wp_step. unfold clear_frame, write. wp_step. cbn beta iota. wp_step. wp_step. cbn beta iota. wp_step.
    assert (aligned c) as Hca by (apply (held_aligned _ _ c Hp1); set_solver).
    exists (<[p ++ [i] := c]> tabs), (held ∪ {[c]}). split; [by rewrite lookup_insert_eq|]. cbn [mem]. rewrite Hm.
    split; [by apply tables_add|]. split; [by destruct Hp1; split|].
    split; cbn [mem domain pool].
    + by apply insert_subseteq.
    + intros q u [[<- <-]|[_ Hq]]%lookup_insert_Some; [by right|by left].
    + intros f x Hf Hq Hx. pose proof (Hal f Hf) as Hfa. assert (t ∈ held) as Hth by (by eapply (t_held _ _ _ _ _ Ht)).
      rewrite (proj2 (Z.eqb_neq _ _)); [|apply (frames_apart f t _ _ Hfa (Hal t Hth)); [by intros ->; apply (Hq p)|done|by apply slot_inside]].
      destruct ((c <=? x) && (x <? c + 4096))%Z eqn:E; [|done]. reflect. exfalso. apply (frames_apart f c x x Hfa Hca); [by intros ->|done|done|done].
    + done.
    + intros p0 p1 E E1. destruct (Hall _ _ E E1) as [-> Hc1]. split; [set_solver|]. apply set_eq. intros x. set_solver.
Qed.

Lemma grows_bind {A B : Type} pml4 tabs held s mapped1 mapped2 G1 G2 (m : M A) (k : A → M B) : pool_ok held s →
  wp m (grows pml4 tabs held s mapped1 G1) s →
  (∀ c tabs1 held1 s1, G1 c tabs1 → tables_ok pml4 tabs1 mapped1 held1 (mem s1) → pool_ok held1 s1 → grown tabs held s tabs1 held1 s1 →
    wp (k c) (grows pml4 tabs1 held1 s1 mapped2 G2) s1) →
  wp (c ← m; k c) (grows pml4 tabs held s mapped2 G2) s.
Proof.
  intros Hp Hm Hk. apply wp_bind. eapply wp_mono; [exact Hm|]. intros [c|[]|] s1; cbn [grows]; [|done|done].
  intros (tabs1 & held1 & HG & Ht1 & Hp1 & Hg1). eapply wp_mono; [by eapply Hk|]. intros [d|[]|] s2; cbn [grows]; [|done|done].
  intros (tabs2 & held2 & HG2 & Ht2 & Hp2 & Hg2). exists tabs2, held2. split; [done|]. split; [done|]. split; [done|]. exact (grown_trans _ _ _ _ _ _ _ _ _ Hp Hp1 Hg1 Hg2).
Qed.

Lemma map_page_spec pml4 tabs mapped held s b : pool_ok held s → tables_ok pml4 tabs mapped held (mem s) → aligned b → (0 ≤ b < 2 ^ 48)%Z →
  wp (map_page pml4 b) (grows pml4 tabs held s (mapped ∪ {[b]}) (λ _ _, True)) s.
Proof.
  intros Hp Ht Hb Hbr. unfold map_page.
  eapply grows_bind; [done|apply (next_table_spec pml4 tabs mapped held s [] pml4); [done|done|by apply (t_root _ _ _ _ _ Ht)|cbn; lia|by apply index_range]|].
  intros t1 tabs1 held1 s1 H1 Ht1 Hp1 Hg1.
  eapply grows_bind; [done|apply (next_table_spec pml4 tabs1 mapped held1 s1 [index 39 b] t1); [done|done|done|cbn; lia|by apply index_range]|].
  intros t2 tabs2 held2 s2 H2 Ht2 Hp2 Hg2.
  eapply grows_bind; [done|apply (next_table_spec pml4 tabs2 mapped held2 s2 [index 39 b; index 30 b] t2); [done|done|done|cbn; lia|by apply index_range]|].
  intros t3 tabs3 held3 s3 H3 Ht3 Hp3 Hg3. cbn [app] in H3.
  unfold write. wp_step. exists tabs3, held3. split; [done|]. split; [by apply (tables_map pml4 tabs3 mapped held3 (mem s3) b t3 Ht3 (λ u, held_aligned held3 s3 u Hp3))|].
  split; [by destruct Hp3; split|]. pose proof (grown_refl tabs3 held3 s3 Hp3) as [R1 R2 R3 R4 R5]. split; try done.
  intros f x Hf Hq Hx. cbn [mem]. assert (t3 ∈ held3) as Hth by (by eapply (t_held _ _ _ _ _ Ht3)).
  rewrite (proj2 (Z.eqb_neq _ _)); [done|]. apply (frames_apart f t3 _ _ (held_aligned _ _ _ Hp3 Hf) (held_aligned _ _ _ Hp3 Hth)); [|done|by apply slot_inside, index_range].
  intros ->. by apply (Hq _ H3).
Qed.

(** The pages of a range. *)
Definition pages_of (base : Z) (n : nat) : list Z := (λ i : nat, (base + Z.of_nat i * 4096)%Z) <$> seq 0 n.
Lemma map_range_spec pml4 tabs mapped held s base pages : pool_ok held s → tables_ok pml4 tabs mapped held (mem s) → domain s = Some pml4 →
  aligned base → (0 ≤ base)%Z → (0 ≤ pages)%Z → (base + pages * 4096 ≤ 2 ^ 48)%Z →
  wp (map_iommu_dma_range base pages) (grows pml4 tabs held s (mapped ∪ list_to_set (pages_of base (Z.to_nat pages))) (λ _ _, True)) s.
Proof.
  intros Hp Ht Hd Hal H0 Hn Hb. unfold map_iommu_dma_range. wp_step. wp_step. rewrite Hd. change (2 ^ 48)%Z with 281474976710656%Z in Hb.
  assert (∀ k tabs mapped held s, pool_ok held s → tables_ok pml4 tabs mapped held (mem s) → k ≤ Z.to_nat pages →
    wp (for_each (seq k (Z.to_nat pages - k)) (λ i, off ← unwrap (fits 64 (Z.of_nat i * 4096)); page_phys ← unwrap (fits 64 (base + off)); map_page pml4 page_phys))
      (grows pml4 tabs held s (mapped ∪ list_to_set ((λ i : nat, (base + Z.of_nat i * 4096)%Z) <$> seq k (Z.to_nat pages - k))) (λ _ _, True)) s) as Hloop.
  { clear tabs mapped held s Hp Ht Hd. intros k. remember (Z.to_nat pages - k) as n eqn:En. revert k En. induction n as [|n IH]; intros k En tabs mapped held s Hp Ht Hk; cbn [seq for_each fmap list_fmap].
    - wp_step. exists tabs, held. cbn [list_to_set]. rewrite union_empty_r_L. split; [done|]. split; [done|]. split; [done|by apply grown_refl].
    - assert (∀ x, (0 ≤ x < 281474976710656)%Z → fits 64 x = Some x) as Hfits by (intros x Hx; apply fits_Some; change (2 ^ 64)%Z with 18446744073709551616%Z; lia).
      eapply grows_bind; [done| |].
      + rewrite Hfits by lia. wp_step. apply wp_unwrap; [done|intros ? [= <-]]. cbn beta iota.
        rewrite Hfits by lia. wp_step. apply wp_unwrap; [done|intros ? [= <-]]. cbn beta iota.
        apply (map_page_spec pml4 tabs mapped held s); [done|done| |change (2 ^ 48)%Z with 281474976710656%Z; lia].
        unfold aligned. rewrite Z.add_mod, Z.mod_mul, Z.add_0_r, Z.mod_mod by lia. done.
      + intros [] tabs1 held1 s1 _ Ht1 Hp1 Hg1. cbn [list_to_set]. rewrite union_assoc_L. apply (IH (S k) ltac:(lia)); [done|done|lia]. }
  eapply grows_bind; [done|specialize (Hloop 0 tabs mapped held s Hp Ht ltac:(lia)); rewrite Nat.sub_0_r in Hloop; exact Hloop|].
  intros [] tabs1 held1 s1 _ Ht1 Hp1 Hg1.
  assert (∀ x, (0 ≤ x ≤ 281474976710656)%Z → fits 64 x = Some x) as Hfits by (intros x Hx; apply fits_Some; change (2 ^ 64)%Z with 18446744073709551616%Z; lia).
  rewrite Hfits by lia. wp_step. apply wp_unwrap; [done|intros ? [= <-]]. cbn beta iota.
        rewrite Hfits by lia. wp_step. apply wp_unwrap; [done|intros ? [= <-]]. cbn beta iota. wp_step.
  exists tabs1, held1. split; [done|]. split; [done|]. split; [done|by apply grown_refl].
Qed.

(** ** The root and context tables *)

Record unit_ok (root ctx pml4 : Z) (tabs : gmap (list Z) Z) (held : gset Z) (m : Z → Z) : Prop := {
  u_root : root ∈ held ∧ ∀ q, tabs !! q ≠ Some root;
  u_ctx : ctx ∈ held ∧ ∀ q, tabs !! q ≠ Some ctx;
  u_bus : m root = entry_low ctx;
  u_buses b : (0 < b < 256)%Z → m (root + 16 * b)%Z = 0%Z;
  u_card : m (ctx + 16 * CARD)%Z = entry_low pml4 ∧ m (ctx + 16 * CARD + 8)%Z = (context_entry pml4 1 2).2;
  u_functions f : (0 ≤ f < 256)%Z → f ≠ CARD → m (ctx + 16 * f)%Z = 0%Z;
}.
Lemma entry_low_spec a : aligned a → is_present (entry_low a) = true ∧ page_of (entry_low a) = a.
Proof.
  intros Ha. unfold entry_low. rewrite page_of_aligned, lor_aligned by (done || lia). split; [|by apply page_of_low].
  unfold is_present. rewrite negb_true_iff, Z.eqb_neq. intros H. pose proof (f_equal (λ z, Z.testbit z 0) H) as Hz. cbn beta in Hz.
  rewrite Z.land_spec, Z.bits_0, low_bits in Hz by (done || lia). done.
Qed.

(** What a device reaches. *)
Lemma dma_target_spec root ctx pml4 tabs mapped held m bus devfn need a :
  unit_ok root ctx pml4 tabs held m → tables_ok pml4 tabs mapped held m → (∀ t, t ∈ held → aligned t) → access need → (0 ≤ a < 2 ^ 48)%Z →
  (0 ≤ bus < 256)%Z → (0 ≤ devfn < 256)%Z →
  dma_target m root bus devfn need a = if decide (bus = 0%Z ∧ devfn = CARD ∧ page_of a ∈ mapped) then Some a else None.
Proof.
  intros Hu Ht Hal Hneed Ha Hb Hf. unfold dma_target. destruct (u_ctx _ _ _ _ _ _ Hu) as [Hctx _].
  destruct (decide (bus = 0%Z)) as [-> |Hbus].
  2: { rewrite (u_buses _ _ _ _ _ _ Hu) by lia. rewrite decide_False; [done|]. by intros (? & _). }
  rewrite Z.mul_0_r, Z.add_0_r, (u_bus _ _ _ _ _ _ Hu). destruct (entry_low_spec ctx (Hal _ Hctx)) as [-> ->].
  destruct (decide (devfn = CARD)) as [-> |Hdev].
  2: { rewrite (u_functions _ _ _ _ _ _ Hu) by done. cbn [is_present andb]. rewrite decide_False; [done|]. by intros (_ & ? & _). }
  destruct (u_card _ _ _ _ _ _ Hu) as [-> ->]. assert (pml4 ∈ held) as Hpm by (eapply (t_held _ _ _ _ _ Ht), (t_root _ _ _ _ _ Ht)).
  destruct (entry_low_spec pml4 (Hal _ Hpm)) as [-> ->]. cbn [andb].
  change (address_width_code (context_entry pml4 1 2).2 =? 2)%Z with true. cbn iota.
  rewrite (walk_table pml4 tabs mapped held m need a) by done. destruct (decide (page_of a ∈ mapped)); [rewrite decide_True by done; done|].
  rewrite decide_False; [done|]. by intros (_ & _ & ?).
Qed.

Lemma unit_grown root ctx pml4 tabs held s tabs' held' s' : pool_ok held s → pool_ok held' s' →
  grown tabs held s tabs' held' s' → unit_ok root ctx pml4 tabs held (mem s) → unit_ok root ctx pml4 tabs' held' (mem s').
Proof.
  intros [[p Hp] _ _ _ _] [[p' Hp'] _ _ _ _] [G1 G2 G3 _ G5] [[R1 R2] [C1 C2] U1 U2 [U3 U4] U5]. destruct (G5 _ _ Hp Hp') as [_ ->].
  assert (∀ x, (root ≤ x < root + 4096)%Z → mem s' x = mem s x) as Hroot by (intros x Hx; by apply (G3 root)).
  assert (∀ x, (ctx ≤ x < ctx + 4096)%Z → mem s' x = mem s x) as Hctx by (intros x Hx; by apply (G3 ctx)).
  split; [split; [set_solver|]|split; [set_solver|]| | |split|].
  - intros q [Hq|Hq]%G2; [by apply (R2 q)|done].
  - intros q [Hq|Hq]%G2; [by apply (C2 q)|done].
  - rewrite Hroot by lia. done.
  - intros b Hb. rewrite Hroot by lia. by apply U2.
  - rewrite Hctx by (change CARD with 16%Z; lia). done.
  - rewrite Hctx by (change CARD with 16%Z; lia). done.
  - intros f Hf Hne. rewrite Hctx by lia. by apply U5.
Qed.

(** What [build_iommu_tables] leaves in memory. *)
Definition cleared (m : Z → Z) (f : Z) : Z → Z := λ x, if ((f <=? x) && (x <? f + 4096))%Z then 0%Z else m x.
Definition built (m : Z → Z) (root ctx pml4 : Z) : Z → Z :=
  let m1 := cleared (cleared m root) ctx in
  let m2 := stored (stored m1 root (root_entry ctx).1) (root + 8) (root_entry ctx).2 in
  let m3 := cleared m2 pml4 in
  stored (stored m3 (ctx + 16 * CARD) (context_entry pml4 1 2).1) (ctx + 16 * CARD + 8) (context_entry pml4 1 2).2.
Lemma built_spec m root ctx pml4 : aligned root → aligned ctx → aligned pml4 → root ≠ ctx → root ≠ pml4 → ctx ≠ pml4 →
  (∀ x, (root ≤ x < root + 4096)%Z → built m root ctx pml4 x = if (x =? root)%Z then entry_low ctx else 0%Z) ∧
  (∀ x, (ctx ≤ x < ctx + 4096)%Z → built m root ctx pml4 x =
     if (x =? ctx + 264)%Z then (context_entry pml4 1 2).2 else if (x =? ctx + 256)%Z then entry_low pml4 else 0%Z) ∧
  (∀ x, (pml4 ≤ x < pml4 + 4096)%Z → built m root ctx pml4 x = 0%Z).
Proof.
  unfold aligned. intros Hr Hc Hp H1 H2 H3. apply Z.mod_divide in Hr as [r ->], Hc as [c ->], Hp as [p ->]; [|done..].
  unfold built, cleared, stored. change CARD with 16%Z. cbn [root_entry context_entry fst snd]. fold (entry_low (c * 4096)) (entry_low (p * 4096)).
  generalize (entry_low (c * 4096)) (entry_low (p * 4096)) (Z.lor (Z.land 2 7) (Z.shiftl (Z.land 1 65535) 8)). intros v1 v2 v3.
  split_and!; intros x Hx; repeat match goal with
  | |- context [(?a =? ?b)%Z] => destruct (Z.eqb_spec a b)
  | |- context [(?a <=? ?b)%Z] => destruct (Z.leb_spec a b)
  | |- context [(?a <? ?b)%Z] => destruct (Z.ltb_spec a b)
  end; cbn [andb]; done || lia.
Qed.
Lemma fresh_tables_ok pml4 held m : pml4 ∈ held → (∀ x, (pml4 ≤ x < pml4 + 4096)%Z → m x = 0%Z) → tables_ok pml4 {[ [] := pml4 ]} ∅ held m.
Proof.
  intros Hin Hm. split.
  - by rewrite lookup_singleton_eq.
  - intros p t [<- _]%lookup_singleton_Some. cbn. lia.
  - by intros p t [_ <-]%lookup_singleton_Some.
  - intros p q t [<- _]%lookup_singleton_Some [<- _]%lookup_singleton_Some. done.
  - intros p i t [E _]%lookup_singleton_Some. by destruct p.
  - intros p t i [<- <-]%lookup_singleton_Some _ Hi. rewrite lookup_singleton_ne by done. apply Hm, slot_inside, Hi.
  - intros p t b _ Hb. by apply elem_of_empty in Hb.
  - by intros p t i [<- _]%lookup_singleton_Some Hl.
  - intros b Hb. by apply elem_of_empty in Hb.
Qed.
Lemma built_ok m root ctx pml4 held : aligned root → aligned ctx → aligned pml4 → root ≠ ctx → root ≠ pml4 → ctx ≠ pml4 →
  root ∈ held → ctx ∈ held → pml4 ∈ held →
  tables_ok pml4 {[ [] := pml4 ]} ∅ held (built m root ctx pml4) ∧ unit_ok root ctx pml4 {[ [] := pml4 ]} held (built m root ctx pml4).
Proof.
  intros Hr Hc Hp H1 H2 H3 I1 I2 I3. destruct (built_spec m root ctx pml4 Hr Hc Hp H1 H2 H3) as (Broot & Bctx & Bpml).
  split; [by apply fresh_tables_ok|]. split.
  - split; [done|]. intros q [_ E]%lookup_singleton_Some. by apply H2.
  - split; [done|]. intros q [_ E]%lookup_singleton_Some. by apply H3.
  - rewrite Broot, Z.eqb_refl by lia. done.
  - intros b Hb. rewrite Broot by lia. rewrite (proj2 (Z.eqb_neq _ _)) by lia. done.
  - change CARD with 16%Z. split; rewrite Bctx by lia.
    + rewrite (proj2 (Z.eqb_neq _ _)) by lia. by rewrite Z.eqb_refl.
    + replace (ctx + 16 * 16 + 8)%Z with (ctx + 264)%Z by lia. by rewrite Z.eqb_refl.
  - intros f Hf Hne. change CARD with 16%Z in Hne. rewrite Bctx by lia. rewrite !(proj2 (Z.eqb_neq _ _)) by lia. done.
Qed.
Definition taken (s s' : Machine) (held : gset Z) : Prop := ∀ p p', pool s = Some p → pool s' = Some p' → held = allocated p' ∖ allocated p.
Lemma build_spec s : pool_ok ∅ s →
  wp build_iommu_tables (λ r s', match r with
    | Ok root => ∃ ctx pml4 held, domain s' = Some pml4 ∧ pool_ok held s' ∧ taken s s' held ∧
        tables_ok pml4 {[ [] := pml4 ]} ∅ held (mem s') ∧ unit_ok root ctx pml4 {[ [] := pml4 ]} held (mem s')
    | Err _ => exhausted s'
    | Panic => False
    end) s.
Proof.
  intros Hp. unfold build_iommu_tables, build_second_level_paging_for_dma, frame_or_none, write_pair, clear_frame, write.
  wp_step. wp_step. eapply wp_mono; [by apply take_frame_spec|]. intros ? s1 (o & -> & M1 & _ & Ho). cbn beta iota. apply wp_ok_or; [by intros ->|intros root ->].
  destruct Ho as (_ & Hp1 & A1). cbn beta iota. wp_step. wp_step. cbn beta iota.
  wp_step. wp_step. eapply wp_mono; [apply (take_frame_spec (∅ ∪ {[root]})); destruct Hp1; by split|].
  intros ? s2 (o & -> & M2 & _ & Ho). cbn [mem pool domain] in M2, Ho. cbn beta iota. apply wp_ok_or; [by intros ->|intros ctx ->].
  destruct Ho as (N2 & Hp2 & A2). cbn beta iota. wp_step. wp_step. cbn beta iota. wp_step. wp_step. wp_step. cbn beta iota. wp_step. cbn beta iota.
  wp_step. wp_step. wp_step. eapply wp_mono; [apply (take_frame_spec (∅ ∪ {[root]} ∪ {[ctx]})); destruct Hp2; by split|].
  intros ? s3 (o & -> & M3 & _ & Ho). cbn [mem pool domain] in M3, Ho. cbn beta iota. apply wp_ok_or; [by intros ->|intros pml4 ->].
  destruct Ho as (N3 & Hp3 & A3). cbn beta iota. repeat (wp_step; cbn beta iota). cbn [mem pool domain].
  set (held := ∅ ∪ {[root]} ∪ {[ctx]} ∪ {[pml4]}) in *. exists ctx, pml4, held. split; [done|].
  assert (aligned root) as Hr by (apply (held_aligned held s3); [done|set_solver]).
  assert (aligned ctx) as Hc by (apply (held_aligned held s3); [done|set_solver]).
  assert (aligned pml4) as Hm by (apply (held_aligned held s3); [done|set_solver]).
  split; [by destruct Hp3; split|]. split.
  { intros p p' E E'. cbn [pool] in E'. destruct (p_some _ _ Hp1) as [p1 E1], (p_some _ _ Hp2) as [p2 E2]. cbn [pool] in *.
    destruct (A1 _ _ E E1) as [B1 F1], (A2 _ _ E1 E2) as [B2 F2], (A3 _ _ E2 E') as [B3 F3].
    apply set_eq. intros x. rewrite B3, B2, B1 in *. unfold held. set_solver. }
  rewrite M3, M2, M1.
  change (tables_ok pml4 {[ [] := pml4 ]} ∅ held (built (mem s) root ctx pml4) ∧ unit_ok root ctx pml4 {[ [] := pml4 ]} held (built (mem s) root ctx pml4)).
  apply built_ok; try done; set_solver.
Qed.
End domain.


(** The registered regions, each with its base and its number of pages. *)
Definition in_regions (regs : list (Z * Z)) (a : Z) : Prop := Exists (λ r, r.1 ≤ a < r.1 + r.2 * 4096)%Z regs.
#[global] Instance in_regions_dec regs a : Decision (in_regions regs a).
Proof. unfold in_regions. apply _. Defined.
Definition region_fits (base pages : Z) : Prop := (base mod 4096 = 0 ∧ 0 ≤ base ∧ 0 ≤ pages ∧ base + pages * 4096 ≤ 2 ^ 48)%Z.

(** The machine, the frames of the tables, the regions. *)
Definition Remapping : Type := Machine * gset Z * list (Z * Z).
Definition in_use (s : Machine) : gset Z := match pool s with Some p => allocated p | None => ∅ end.
Inductive unit_step : Remapping → Remapping → Prop :=
  | Registers s s' held regs base pages : region_fits base pages → map_iommu_dma_range base pages s = (Ok tt, s') →
      unit_step (s, held, regs) (s', held ∪ (in_use s' ∖ in_use s), (base, pages) :: regs)
  | Elsewhere s s' held regs p p' : pool s = Some p → pool s' = Some p' → rtc pool_step p p' → held ⊆ allocated p' →
      domain s' = domain s → (∀ f x, f ∈ held → (f ≤ x < f + 4096)%Z → mem s' x = mem s x) →
      unit_step (s, held, regs) (s', held, regs).
(** The unit after a boot with the frames of [rs0]. *)
Definition unit_reached (rs0 : list (Z * Z)) (root : Z) (u : Remapping) : Prop :=
  (∀ r, r ∈ rs0 → (r.1 mod PAGE_BYTES = 0)%Z) ∧
  ∃ s0 s1 p0, pool s0 = Some p0 ∧ pool_reachable rs0 p0 ∧ build_iommu_tables s0 = (Ok root, s1) ∧
    rtc unit_step (s1, in_use s1 ∖ in_use s0, []) u.

Lemma elem_of_pages_of base n b : aligned base → (0 ≤ n)%Z → b ∈ pages_of base (Z.to_nat n) ↔ aligned b ∧ (base ≤ b < base + n * 4096)%Z.
Proof.
  unfold aligned. intros Hb Hn. unfold pages_of. rewrite list_elem_of_fmap. split.
  - intros (i & -> & Hi%elem_of_seq). split; [by rewrite Z.mod_add by lia|lia].
  - intros [Ha Hr]. apply Z.mod_divide in Hb as [k ->], Ha as [j ->]; [|done..]. exists (Z.to_nat (j - k)). rewrite elem_of_seq. lia.
Qed.
Lemma in_regions_page regs a : Forall (λ r, aligned r.1) regs → in_regions regs (page_of a) ↔ in_regions regs a.
Proof.
  intros Hregs. unfold in_regions. rewrite !Exists_exists. split; intros (r & Hr & Hin); exists r; (split; [done|]);
    pose proof (proj1 (Forall_forall _ _) Hregs r Hr) as Ha; unfold aligned in Ha; apply Z.mod_divide in Ha as [k Hk]; try done;
    rewrite page_of_spec in *; pose proof (Z.div_mod a 4096 ltac:(lia)); pose proof (Z.mod_pos_bound a 4096 ltac:(lia)); lia.
Qed.

Section unit.
Context (rs0 : list (Z * Z)).

Definition unit_inv (root : Z) (u : Remapping) : Prop := let '(s, held, regs) := u in
  ∃ ctx pml4 tabs mapped, domain s = Some pml4 ∧ pool_ok rs0 held s ∧ tables_ok pml4 tabs mapped held (mem s) ∧
    unit_ok root ctx pml4 tabs held (mem s) ∧ Forall (λ r, aligned r.1) regs ∧ ∀ b, aligned b → b ∈ mapped ↔ in_regions regs b.

(** Nothing that leaves the frames alone matters. *)
Lemma tables_ext pml4 tabs mapped held m m' : (∀ f x, f ∈ held → (f ≤ x < f + 4096)%Z → m' x = m x) →
  tables_ok pml4 tabs mapped held m → tables_ok pml4 tabs mapped held m'.
Proof.
  intros Hm [T1 T2 T3 T4 T5 T6 T7 T8 T9]. assert (∀ p t i, tabs !! p = Some t → (0 ≤ i < 512)%Z → m' (slot t i) = m (slot t i)) as Hs.
  { intros p t i Hp Hi. apply (Hm t); [by eapply T3|by apply slot_inside]. }
  split; try done.
  - intros p t i Hp Hl Hi. rewrite (Hs p) by done. by apply T6.
  - intros p t b Hp Hb Hpb. rewrite (Hs p); [by apply (T7 p)|done|by apply index_range].
  - intros p t i Hp Hl Hi Hf. rewrite (Hs p) by done. by apply (T8 p).
Qed.
Lemma unit_ext root ctx pml4 tabs held m m' : (∀ f x, f ∈ held → (f ≤ x < f + 4096)%Z → m' x = m x) →
  unit_ok root ctx pml4 tabs held m → unit_ok root ctx pml4 tabs held m'.
Proof.
  intros Hm [[R1 R2] [C1 C2] U1 U2 [U3 U4] U5]. split; [done|done| | |split|].
  - rewrite (Hm root); [done|done|lia].
  - intros b Hb. rewrite (Hm root); [by apply U2|done|lia].
  - rewrite (Hm ctx); [done|done|change CARD with 16%Z; lia].
  - rewrite (Hm ctx); [done|done|change CARD with 16%Z; lia].
  - intros f Hf Hne. rewrite (Hm ctx); [by apply U5|done|lia].
Qed.

Lemma pool_steps_ok p p' : pool_wf rs0 p → pool_aligned p → rtc pool_step p p' → pool_wf rs0 p' ∧ pool_aligned p'.
Proof.
  intros Hwf Hal Hs. induction Hs as [|p q p' [c Hc] _ IH]; [done|]. apply IH; [by eapply pool_step_wf; [|exists c]|].
  destruct c as [n|a]; cbn in Hc; [injection Hc as <-; by apply allocate_aligned|by eapply release_aligned].
Qed.

Lemma unit_inv_step root u u' : unit_inv root u → unit_step u u' → unit_inv root u'.
Proof.
  intros Hinv Hstep. destruct Hstep as [s s' held regs base pages (Hb & H0 & Hn & Hmax) Hmap|s s' held regs p p' Hp Hp' Hsteps Hheld Hd Hm];
    destruct Hinv as (ctx & pml4 & tabs & mapped & Hdom & Hpool & Ht & Hu & Hregs & Hiff).
  - pose proof (map_range_spec rs0 pml4 tabs mapped held s base pages Hpool Ht Hdom Hb H0 Hn Hmax) as Hspec.
    unfold wp in Hspec. rewrite Hmap in Hspec. destruct Hspec as (tabs' & held' & _ & Ht' & Hp' & Hg). cbn [fst snd] in *.
    assert (held' = held ∪ (in_use s' ∖ in_use s)) as <-.
    { destruct (p_some _ _ _ Hpool) as [p E], (p_some _ _ _ Hp') as [p' E']. destruct (g_alloc _ _ _ _ _ _ Hg p p' E E') as [_ ->]. unfold in_use. by rewrite E, E'. }
    exists ctx, pml4, tabs', (mapped ∪ list_to_set (pages_of base (Z.to_nat pages))).
    split; [by rewrite (g_domain _ _ _ _ _ _ Hg)|]. split; [done|]. split; [done|]. split; [by apply (unit_grown rs0 root ctx pml4 tabs held s tabs' held' s')|].
    split; [by constructor|]. intros b Hba. unfold in_regions. rewrite elem_of_union, elem_of_list_to_set, elem_of_pages_of, Exists_cons, Hiff by done.
    cbn [fst snd]. unfold in_regions. tauto.
  - exists ctx, pml4, tabs, mapped. split; [by rewrite Hd|]. split.
    { destruct Hpool as [_ Hwf Hal _ Hfr]. destruct (pool_steps_ok p p' (Hwf _ Hp) (Hal _ Hp) Hsteps) as [Hwf' Hal']. split; rewrite ?Hp'; try done.
      - by intros ? [= <-].
      - by intros ? [= <-].
      - by intros ? [= <-]. }
    split; [by eapply tables_ext|]. split; [by eapply unit_ext|]. done.
Qed.
Lemma unit_inv_reached root u : unit_reached rs0 root u → unit_inv root u.
Proof.
  intros (Hal & s0 & s1 & p0 & Hp0 & Hr & Hb & Hrun).
  assert (pool_ok rs0 ∅ s0) as Hok.
  { split; rewrite ?Hp0; [by eexists|intros ? [= <-]; by apply pool_reachable_wf|intros ? [= <-]; by eapply pool_reachable_aligned|set_solver|set_solver]. }
  assert (unit_inv root (s1, in_use s1 ∖ in_use s0, [])) as Hinit.
  { pose proof (build_spec rs0 s0 Hok) as Hspec. unfold wp in Hspec. rewrite Hb in Hspec. destruct Hspec as (ctx & pml4 & held & Hd & Hp & Htk & Ht & Hu). cbn [fst snd] in *.
    assert (in_use s1 ∖ in_use s0 = held) as ->.
    { destruct (p_some _ _ _ Hp) as [p1 E]. rewrite (Htk _ _ Hp0 E). unfold in_use. by rewrite Hp0, E. }
    exists ctx, pml4, {[ [] := pml4 ]}, ∅. split; [done|]. split; [done|]. split; [done|]. split; [done|]. split; [constructor|].
    intros b _. unfold in_regions. rewrite Exists_nil. set_solver. }
  clear Hb. remember (s1, in_use s1 ∖ in_use s0, []) as u0 eqn:E. clear E. induction Hrun as [|u0 u1 u Hs _ IH]; [done|]. by apply IH, (unit_inv_step root u0).
Qed.
End unit.


(** Registering a region stops the kernel only when no frame is left for its tables. *)
Theorem only_exhaustion_stops_registration (rs0 : list (Z * Z)) (root : Z) (s : Machine) (held : gset Z) (regs : list (Z * Z)) (base pages : Z)
    (Hreached : unit_reached rs0 root (s, held, regs)) (Hfits : region_fits base pages) :
  match (map_iommu_dma_range base pages s).1 with
  | Ok _ => True
  | Err _ => False
  | Panic => exhausted (map_iommu_dma_range base pages s).2
  end.
Proof.
  destruct (unit_inv_reached _ _ _ Hreached) as (ctx & pml4 & tabs & mapped & Hd & Hp & Ht & _). destruct Hfits as (Hb & H0 & Hn & Hmax).
  pose proof (map_range_spec rs0 pml4 tabs mapped held s base pages Hp Ht Hd Hb H0 Hn Hmax) as Hspec. unfold wp in Hspec.
  by destruct (map_iommu_dma_range base pages s) as [[[]|[]|] s'].
Qed.

(** ** A run *)

Definition demo_frames : list (Z * Z) := [(1048576, 2097152)]%Z.
Definition demo_start : Machine := mkMachine (λ x, x) (new demo_frames) None.
Definition demo_built : Machine := (build_iommu_tables demo_start).2.
Definition demo_mapped : Machine := (map_iommu_dma_range 1572864 2 demo_built).2.
Lemma demo_reached : unit_reached demo_frames 1048576 (demo_mapped, in_use demo_built ∖ in_use demo_start ∪ (in_use demo_mapped ∖ in_use demo_built), [(1572864, 2)]%Z).
Proof.
  split; [by intros r ->%list_elem_of_singleton|]. eexists demo_start, demo_built, _. split; [vm_compute; reflexivity|]. split.
  { split; [|eexists; split; [vm_compute; reflexivity|apply rtc_refl]]. split; [by repeat constructor|]. apply disjoint_regions_cons.
    split; [by intros r ?%elem_of_nil|]. apply disjoint_regions_nil. }
  split; [unfold demo_built; destruct (build_iommu_tables demo_start) as [r s'] eqn:E; apply (f_equal fst) in E; vm_compute in E; by subst r|].
  apply rtc_once. apply (Registers demo_built demo_mapped); [by repeat split|].
  unfold demo_mapped. destruct (map_iommu_dma_range 1572864 2 demo_built) as [r s'] eqn:E. apply (f_equal fst) in E. vm_compute in E. by subst r.
Qed.
