(* ===== verification/Smp.v ===== *)
(** * Locks, run queues and address-space shootdowns (kernel/src/irq_mutex.rs, kernel/src/smp.rs)

    Three protocols between CPUs: the locks that turn interrupts off, the queues
    of ready processes from which idle CPUs steal, and the message by which one
    CPU makes the others forget address translations.  Starting CPUs, the
    assembly they start in and the self tests are left out. *)
From S2P Require Import Prelude.

(** ** Locks that turn interrupts off

    The view of one CPU: whether it accepts interrupts, how many of these locks
    it holds, and which locks are taken. *)
Module IrqLock.

Record Cpu := mkCpu { enabled : bool; irq_locks_held : Z; locked : gset nat }.
(** kernel/src/irq_mutex.rs:66-72 [GenericIrqGuard] *)
Record Guard := mkGuard { mutex : nat; was_enabled : bool }.
Abbreviation M := (comp Cpu unit).

(** kernel/src/smp.rs:113-119 [inc_irq_locks] *)
Definition inc_irq_locks : M unit := modify (λ s, mkCpu (enabled s) (wrap 64 (irq_locks_held s + 1)) (locked s)).
(** kernel/src/smp.rs:122-128 [dec_irq_locks] *)
Definition dec_irq_locks : M unit := modify (λ s, mkCpu (enabled s) (wrap 64 (irq_locks_held s - 1)) (locked s)).
(** kernel/src/irq_mutex.rs:27-29 [NativeInterrupts::disable] *)
Definition disable : M unit := modify (λ s, mkCpu false (irq_locks_held s) (locked s)).
(** kernel/src/irq_mutex.rs:31-33 [NativeInterrupts::enable] *)
Definition enable : M unit := modify (λ s, mkCpu true (irq_locks_held s) (locked s)).
(** The spin lock inside — kernel/src/irq_mutex.rs:94-94 [lock, inner] *)
Definition hold (m : nat) : M unit := modify (λ s, mkCpu (enabled s) (irq_locks_held s) ({[m]} ∪ locked s)).
(** kernel/src/irq_mutex.rs:152-154 [drop, inner] *)
Definition release (m : nat) : M unit := modify (λ s, mkCpu (enabled s) (irq_locks_held s) (locked s ∖ {[m]})).

(** Waiting for a lock that is taken spins forever on one CPU, which is rendered
    as a panic — kernel/src/irq_mutex.rs:90-103 [lock] *)
Definition lock (m : nat) : M Guard :=
  was ← gets enabled;
  disable;;
  s ← get;
  (if decide (m ∈ locked s) then panic else hold m);;
  inc_irq_locks;;
  mret (mkGuard m was).
(** kernel/src/irq_mutex.rs:105-124 [try_lock] *)
Definition try_lock (m : nat) : M (option Guard) :=
  was ← gets enabled;
  disable;;
  s ← get;
  if decide (m ∈ locked s) then
    (if (was : bool) then enable else mret tt);;
    mret None
  else
    hold m;;
    inc_irq_locks;;
    mret (Some (mkGuard m was)).
(** kernel/src/irq_mutex.rs:146-161 [GenericIrqGuard, drop] *)
Definition unlock (g : Guard) : M unit :=
  dec_irq_locks;;
  release (mutex g);;
  if was_enabled g then enable else mret tt.
End IrqLock.

(** ** Run queues *)
Module RunQueues.

(** kernel/src/smp.rs:4-4 [MAX_CPUS] *)
Definition MAX_CPUS : nat := 8.
(** kernel/src/smp.rs:661-665 [PerCpuRunQueue] *)
Record RunQueue := mkQueue { ready : list Z; current : option Z; tasks_executed : Z }.
(** kernel/src/smp.rs:667-675 [PerCpuRunQueue::new] *)
Definition new_queue : RunQueue := mkQueue [] None 0.

(** The locks: one for each queue, and the one of [CPU_STATES]. *)
Inductive Lock := Queue (cpu : nat) | CpuStates.
#[export] Instance Lock_eq : EqDecision Lock.
Proof. solve_decision. Defined.
#[export] Instance Lock_countable : Countable Lock.
Proof.
  refine (inj_countable' (λ l, match l with Queue i => Some i | CpuStates => None end) (λ o, match o with Some i => Queue i | None => CpuStates end) _).
  by intros [].
Defined.

(** Where a CPU stands in [pick_next_task] or [enqueue_process_round_robin]; it
    runs from one lock operation to the next in a single step.  [Stopped] is a
    panic, with the process that was taken. *)
Inductive Phase :=
  | Idle
  | LockLocal | UnlockLocal (task : option Z)
  | LockStates | UnlockStates (peers : list nat)
  | TryPeers (peers : list nat) | UnlockPeer (peer : nat) (stolen : option Z) (peers : list nat)
  | LockOwn (victim : nat) (stolen : Z) | LockVictim (victim : nat) (stolen : Z)
  | UnlockVictim (victim : nat) (stolen : Z) | UnlockOwn (stolen : Z)
  | ChooseCpu (pid : Z) | UnlockChoice (pid : Z) (cpus : list nat)
  | LockTarget (pid : Z) (target : nat) | UnlockTarget (target : nat)
  | LockNotify (target : nat) | UnlockNotify (target : nat) (online : bool)
  | Stopped (task : option Z).

(** The state that the CPUs share, the locks with their owners, where each CPU
    stands, and what was picked by whom — kernel/src/smp.rs:677-688 [RUN_QUEUES, RR_TARGET_CPU] *)
Record System := mkSystem {
  online : list bool;
  queues : list RunQueue;
  rr_target : Z;
  owner : gmap Lock nat;
  phases : list Phase;
  picked : list (nat * Z);
  reschedule : gset nat;
}.

Definition at_phase (c : nat) (ph : Phase) (s : System) : System :=
  mkSystem (online s) (queues s) (rr_target s) (owner s) (<[c := ph]> (phases s)) (picked s) (reschedule s).
Definition with_queue (i : nat) (q : RunQueue) (s : System) : System :=
  mkSystem (online s) (<[i := q]> (queues s)) (rr_target s) (owner s) (phases s) (picked s) (reschedule s).
Definition acquire (l : Lock) (c : nat) (s : System) : option System :=
  match owner s !! l with
  | Some _ => None
  | None => Some (mkSystem (online s) (queues s) (rr_target s) (<[l := c]> (owner s)) (phases s) (picked s) (reschedule s))
  end.
Definition release (l : Lock) (s : System) : System :=
  mkSystem (online s) (queues s) (rr_target s) (delete l (owner s)) (phases s) (picked s) (reschedule s).
Definition pick (c : nat) (pid : Z) (s : System) : System :=
  mkSystem (online s) (queues s) (rr_target s) (owner s) (phases s) (picked s ++ [(c, pid)]) (reschedule s).
Definition count_target (s : System) : System :=
  mkSystem (online s) (queues s) (wrap 64 (rr_target s + 1)) (owner s) (phases s) (picked s) (reschedule s).
Definition notify (c : nat) (s : System) : System :=
  mkSystem (online s) (queues s) (rr_target s) (owner s) (phases s) (picked s) ({[c]} ∪ reschedule s).
Definition cpus_online (s : System) : list nat := filter (λ i, online s !! i = Some true) (seq 0 MAX_CPUS).

(** The queue of its own CPU, first — kernel/src/smp.rs:925-933 [pick_next_task, 1] *)
Definition take_local (c : nat) (q : RunQueue) : option (option Z * RunQueue) :=
  match ready q with
  | pid :: rest => (λ n, (Some pid, mkQueue rest (Some pid) n)) <$> fits 64 (tasks_executed q + 1)
  | [] => Some (None, mkQueue [] None (tasks_executed q))
  end.
(** kernel/src/smp.rs:910-914 [steal_task_from_peers, theft] *)
Definition steal_from (q : RunQueue) : option Z * RunQueue :=
  if 1 <? length (ready q) then
    match last (ready q) with
    | Some pid => (Some pid, mkQueue (take (length (ready q) - 1) (ready q)) (current q) (tasks_executed q))
    | None => (None, q)
    end
  else (None, q).

(** One step of each function; [None] while the lock that it needs is taken
    — kernel/src/smp.rs:923-947 [pick_next_task] *)
Definition pick_step (c : nat) (ph : Phase) (s : System) : option System :=
  match ph with
  | LockLocal =>
      s ← acquire (Queue c) c s;
      q ← queues s !! c;
      Some (match take_local c q with
            | Some (t, q) => at_phase c (UnlockLocal t) (with_queue c q s)
            | None => at_phase c (Stopped None) s
            end)
  | UnlockLocal (Some pid) => Some (at_phase c Idle (pick c pid (release (Queue c) s)))
  | UnlockLocal None => Some (at_phase c LockStates (release (Queue c) s))
  | LockOwn p pid =>
      s ← acquire (Queue c) c s;
      q ← queues s !! c;
      Some (match fits 64 (tasks_executed q + 1) with
            | Some n => at_phase c (LockVictim p pid) (with_queue c (mkQueue (ready q) (Some pid) n) s)
            | None => at_phase c (Stopped (Some pid)) s
            end)
  | LockVictim p pid => s ← acquire (Queue p) c s; Some (at_phase c (UnlockVictim p pid) s)
  | UnlockVictim p pid => Some (at_phase c (UnlockOwn pid) (release (Queue p) s))
  | UnlockOwn pid => Some (at_phase c Idle (pick c pid (release (Queue c) s)))
  | _ => None
  end.
(** kernel/src/smp.rs:898-918 [steal_task_from_peers] *)
Definition steal_step (c : nat) (ph : Phase) (s : System) : option System :=
  match ph with
  | LockStates => s ← acquire CpuStates c s; Some (at_phase c (UnlockStates (filter (λ i, i ≠ c) (cpus_online s))) s)
  | UnlockStates peers => Some (at_phase c (TryPeers peers) (release CpuStates s))
  | TryPeers [] => Some (at_phase c Idle s)
  | TryPeers (p :: peers) =>
      match acquire (Queue p) c s with
      | None => Some (at_phase c (TryPeers peers) s)
      | Some s =>
          q ← queues s !! p;
          let '(t, q) := steal_from q in
          Some (at_phase c (UnlockPeer p t peers) (with_queue p q s))
      end
  | UnlockPeer p (Some pid) _ => Some (at_phase c (LockOwn p pid) (release (Queue p) s))
  | UnlockPeer p None peers => Some (at_phase c (TryPeers peers) (release (Queue p) s))
  | _ => None
  end.
(** kernel/src/smp.rs:706-734 [enqueue_process_round_robin] *)
Definition enqueue_step (c : nat) (ph : Phase) (s : System) : option System :=
  match ph with
  | ChooseCpu pid => s ← acquire CpuStates c s; Some (at_phase c (UnlockChoice pid (cpus_online s)) s)
  | UnlockChoice pid cpus =>
      let cpus := match cpus with [] => [0] | _ => cpus end in
      target ← cpus !! (Z.to_nat (rr_target s mod Z.of_nat (length cpus)));
      Some (at_phase c (LockTarget pid target) (count_target (release CpuStates s)))
  | LockTarget pid target =>
      s ← acquire (Queue target) c s;
      q ← queues s !! target;
      Some (at_phase c (UnlockTarget target) (with_queue target (mkQueue (ready q ++ [pid]) (current q) (tasks_executed q)) s))
  | UnlockTarget target =>
      Some (at_phase c (if decide (target = c) then Idle else LockNotify target) (release (Queue target) s))
  | _ => None
  end.
(** The message itself is the local interrupt controller's — kernel/src/smp.rs:690-704 [send_reschedule_ipi] *)
Definition notify_step (c : nat) (ph : Phase) (s : System) : option System :=
  match ph with
  | LockNotify target =>
      s ← acquire CpuStates c s;
      Some (at_phase c (UnlockNotify target (bool_decide (target < MAX_CPUS ∧ online s !! target = Some true))) s)
  | UnlockNotify target up =>
      let s := at_phase c Idle (release CpuStates s) in
      Some (if up then notify target s else s)
  | _ => None
  end.
(** A CPU goes on, unless it waits for a lock. *)
Definition advance (c : nat) (s : System) : option System :=
  ph ← phases s !! c;
  match ph with
  | Idle | Stopped _ => None
  | LockLocal | UnlockLocal _ | LockOwn _ _ | LockVictim _ _ | UnlockVictim _ _ | UnlockOwn _ => pick_step c ph s
  | LockStates | UnlockStates _ | TryPeers _ | UnlockPeer _ _ _ => steal_step c ph s
  | ChooseCpu _ | UnlockChoice _ _ | LockTarget _ _ | UnlockTarget _ => enqueue_step c ph s
  | LockNotify _ | UnlockNotify _ _ => notify_step c ph s
  end.

(** The CPUs of the system call these functions and go on with them in any order. *)
Inductive Event := Pick (c : nat) | Enqueue (c : nat) (pid : Z) | Advance (c : nat).
Definition exec (e : Event) (s : System) : option System :=
  match e with
  | Pick c => match phases s !! c with Some Idle => Some (at_phase c LockLocal s) | _ => None end
  | Enqueue c pid => match phases s !! c with Some Idle => Some (at_phase c (ChooseCpu pid) s) | _ => None end
  | Advance c => advance c s
  end.
Fixpoint run (es : list Event) (s : System) : option System :=
  match es with [] => Some s | e :: es => s ← exec e s; run es s end.
(** After boot, with the given CPUs started. *)
Definition boot (up : list bool) : System :=
  mkSystem up (replicate MAX_CPUS new_queue) 0 ∅ (replicate MAX_CPUS Idle) [] ∅.
End RunQueues.

(** ** Forgetting address translations on every CPU

    A CPU that changed the page tables interrupts the others and waits until
    they acknowledged.  Every access to the shared request is one step. *)
Module Shootdown.

(** kernel/src/smp.rs:190-202 [TlbShootdownRequest, TLB_SHOOTDOWN] *)
Record Request := mkRequest { start_virt : Z; pages : Z; acks_received : Z; in_progress : bool }.

(** What [handle_tlb_shootdown_ipi] has read so far, and whether it has flushed. *)
Inductive Handler := Away | Start (v : Z) | Range (v n : Z) | Done.
#[export] Instance Handler_eq : EqDecision Handler.
Proof. solve_decision. Defined.
(** Where a CPU stands in [tlb_shootdown], with the range and the CPUs that it interrupts. *)
Inductive Phase :=
  | Idle
  | TakeLock (v n : Z) | FlushLocal (v n : Z) | CountTargets (v n : Z)
  | StoreStart (v n : Z) (targets : list nat) | StorePages (v n : Z) (targets : list nat)
  | StoreAcks (v n : Z) (targets : list nat) | StoreProgress (v n : Z) (targets : list nat)
  | Send (v n : Z) (targets todo : list nat) | WaitAcks (v n : Z) (targets : list nat)
  | Finish (v n : Z) (targets : list nat).
#[export] Instance Phase_eq : EqDecision Phase.
Proof. solve_decision. Defined.

(** [pending]: the CPUs at which the interrupt waits; [masked]: those that keep
    interrupts off for other reasons; [flushed]: those that have forgotten the
    translations of the range since the holder of the lock has it. *)
Record Translations := mkSystem {
  online : list bool;
  request : Request;
  holder : option nat;
  phases : list Phase;
  handlers : list Handler;
  pending : gset nat;
  masked : gset nat;
  flushed : gset nat;
}.
Definition to (c : nat) (ph : Phase) (s : Translations) : Translations :=
  mkSystem (online s) (request s) (holder s) (<[c := ph]> (phases s)) (handlers s) (pending s) (masked s) (flushed s).
Definition handle (c : nat) (h : Handler) (s : Translations) : Translations :=
  mkSystem (online s) (request s) (holder s) (phases s) (<[c := h]> (handlers s)) (pending s) (masked s) (flushed s).
Definition with_request (r : Request) (s : Translations) : Translations :=
  mkSystem (online s) r (holder s) (phases s) (handlers s) (pending s) (masked s) (flushed s).
Definition with_holder (h : option nat) (fl : gset nat) (s : Translations) : Translations :=
  mkSystem (online s) (request s) h (phases s) (handlers s) (pending s) (masked s) fl.
Definition with_pending (p : gset nat) (s : Translations) : Translations :=
  mkSystem (online s) (request s) (holder s) (phases s) (handlers s) p (masked s) (flushed s).
Definition with_masked (k : gset nat) (s : Translations) : Translations :=
  mkSystem (online s) (request s) (holder s) (phases s) (handlers s) (pending s) k (flushed s).

(** The range that the holder of the lock wants forgotten. *)
Definition range_of (ph : Phase) : option (Z * Z) :=
  match ph with
  | Idle | TakeLock _ _ => None
  | FlushLocal v n | CountTargets v n | StoreStart v n _ | StorePages v n _ | StoreAcks v n _ | StoreProgress v n _
  | Send v n _ _ | WaitAcks v n _ | Finish v n _ => Some (v, n)
  end.
Definition wanted (s : Translations) : option (Z * Z) := c ← holder s; ph ← phases s !! c; range_of ph.
(** Flushing a range of no pages flushes everything. *)
Definition covers (v n : Z) (s : Translations) : bool :=
  (n =? 0)%Z || bool_decide (wanted s = Some (v, n)).
Definition flush (c : nat) (v n : Z) (s : Translations) : Translations :=
  with_holder (holder s) (if covers v n s then {[c]} ∪ flushed s else flushed s) s.

(** kernel/src/smp.rs:216-233 [handle_tlb_shootdown_ipi] *)
Definition handler_step (c : nat) (h : Handler) (s : Translations) : option Translations :=
  let r := request s in
  match h with
  | Away => None
  | Start v => Some (handle c (Range v (pages r)) s)
  | Range v n => Some (handle c Done (flush c v n s))
  | Done => Some (handle c Away (with_request (mkRequest (start_virt r) (pages r) (wrap 64 (acks_received r + 1)) (in_progress r)) s))
  end.
(** kernel/src/smp.rs:250-261 [tlb_shootdown, targets] *)
Definition targets_of (c : nat) (s : Translations) : list nat := filter (λ i, online s !! i = Some true ∧ i ≠ c) (seq 0 RunQueues.MAX_CPUS).
(** The waiting loop ends when enough CPUs acknowledged, or when its time is over:
    [late] — kernel/src/smp.rs:237-294 [tlb_shootdown] *)
Definition shootdown_step (late : bool) (c : nat) (ph : Phase) (s : Translations) : option Translations :=
  let r := request s in
  match ph with
  | Idle => None
  | TakeLock v n => match holder s with None => Some (to c (FlushLocal v n) (with_holder (Some c) ∅ s)) | Some _ => None end
  | FlushLocal v n => Some (to c (CountTargets v n) (flush c v n s))
  | CountTargets v n =>
      Some (match targets_of c s with
            | [] => to c Idle (with_holder None (flushed s) s)
            | targets => to c (StoreStart v n targets) s
            end)
  | StoreStart v n t => Some (to c (StorePages v n t) (with_request (mkRequest v (pages r) (acks_received r) (in_progress r)) s))
  | StorePages v n t => Some (to c (StoreAcks v n t) (with_request (mkRequest (start_virt r) n (acks_received r) (in_progress r)) s))
  | StoreAcks v n t => Some (to c (StoreProgress v n t) (with_request (mkRequest (start_virt r) (pages r) 0 (in_progress r)) s))
  | StoreProgress v n t => Some (to c (Send v n t t) (with_request (mkRequest (start_virt r) (pages r) (acks_received r) true) s))
  | Send v n t [] => Some (to c (WaitAcks v n t) s)
  | Send v n t (i :: todo) => Some (to c (Send v n t todo) (with_pending ({[i]} ∪ pending s) s))
  | WaitAcks v n t => if late || (Z.of_nat (length t) <=? acks_received r)%Z then Some (to c (Finish v n t) s) else None
  | Finish v n t =>
      Some (to c Idle (with_holder None (flushed s)
              (with_request (mkRequest (start_virt r) (pages r) (acks_received r) false) s)))
  end.

(** Interrupts are taken by a CPU that is not in the protocol, which runs with
    interrupts off, and not otherwise [masked]. *)
Inductive Event := Begin (c : nat) (v n : Z) | Go (c : nat) | GiveUp (c : nat) | Interrupt (c : nat) | Handle (c : nat) | Mask (c : nat) | Unmask (c : nat).
Definition exec (e : Event) (s : Translations) : option Translations :=
  match e with
  | Begin c v n =>
      match phases s !! c, handlers s !! c with
      | Some Idle, Some Away => if bool_decide (online s !! c = Some true) then Some (to c (TakeLock v n) s) else None
      | _, _ => None
      end
  | Go c => ph ← phases s !! c; shootdown_step false c ph s
  | GiveUp c => ph ← phases s !! c; match ph with WaitAcks _ _ _ => shootdown_step true c ph s | _ => None end
  | Interrupt c =>
      match phases s !! c, handlers s !! c with
      | Some Idle, Some Away =>
          if bool_decide (c ∈ pending s ∧ c ∉ masked s) then Some (handle c (Start (start_virt (request s))) (with_pending (pending s ∖ {[c]}) s)) else None
      | _, _ => None
      end
  | Handle c => h ← handlers s !! c; handler_step c h s
  | Mask c => Some (with_masked ({[c]} ∪ masked s) s)
  | Unmask c => Some (with_masked (masked s ∖ {[c]}) s)
  end.
Fixpoint run (es : list Event) (s : Translations) : option Translations :=
  match es with [] => Some s | e :: es => s ← exec e s; run es s end.
Definition boot (up : list bool) : Translations :=
  mkSystem up (mkRequest 0 0 0 false) None (replicate RunQueues.MAX_CPUS Idle) (replicate RunQueues.MAX_CPUS Away) ∅ ∅ ∅.
End Shootdown.
