(* ===== verification/SmpProps.v ===== *)
(** * Locks, run queues and shootdowns: properties

    A lock turns interrupts off for as long as the outermost guard lives; no
    process is lost or duplicated by stealing, which can nevertheless deadlock;
    a shootdown that nobody gave up has reached every CPU. *)
From S2P Require Import Prelude Smp.

(** ** Locks *)

Module IrqLockProps.
Import IrqLock.

(** The operations of a CPU on its guards, which may die in any order. *)
Inductive op := Lock (m : nat) | TryLock (m : nat) | Drop (i : nat).
Definition lock_step (o : op) (gs : list Guard) : M (list Guard) :=
  match o with
  | Lock m => g ← lock m; mret (g :: gs)
  | TryLock m => g ← try_lock m; mret (match g with Some g => g :: gs | None => gs end)
  | Drop i => match gs !! i with Some g => unlock g;; mret (delete i gs) | None => mret gs end
  end.
Fixpoint lock_steps (os : list op) (gs : list Guard) : M (list Guard) :=
  match os with [] => mret gs | o :: os => gs ← lock_step o gs; lock_steps os gs end.

(** The guards that will turn interrupts on again. *)
Definition restoring (gs : list Guard) : nat := length (filter was_enabled gs).
Record guarded (start : bool) (gs : list Guard) (s : Cpu) : Prop := {
  g_count : irq_locks_held s = wrap 64 (Z.of_nat (length gs));
  g_locked : locked s = list_to_set (mutex <$> gs);
  g_nodup : NoDup (mutex <$> gs);
  g_enabled : (if enabled s then 1 else 0) + restoring gs = if start then 1 else 0;
}.

Lemma restoring_cons g gs : restoring (g :: gs) = (if was_enabled g then 1 else 0) + restoring gs.
Proof. unfold restoring. rewrite filter_cons. by destruct (was_enabled g). Qed.
Lemma restoring_delete i g gs : gs !! i = Some g → restoring gs = (if was_enabled g then 1 else 0) + restoring (delete i gs).
Proof.
  intros Hg. rewrite <- restoring_cons. unfold restoring. apply Permutation_length. apply filter_Permutation.
  by apply delete_Permutation.
Qed.
Lemma wrap_succ z : wrap 64 (wrap 64 z + 1) = wrap 64 (z + 1).
Proof. unfold wrap. by rewrite Z.add_mod_idemp_l. Qed.
Lemma wrap_pred z : wrap 64 (wrap 64 z - 1) = wrap 64 (z - 1).
Proof. unfold wrap. by rewrite Zminus_mod_idemp_l. Qed.

Lemma hold_guarded start gs s m : guarded start gs s → m ∉ locked s →
  guarded start (mkGuard m (enabled s) :: gs) (mkCpu false (wrap 64 (irq_locks_held s + 1)) ({[m]} ∪ locked s)).
Proof.
  intros [Hc Hl Hn He] Hm. split; cbn [enabled irq_locks_held locked mutex].
  - rewrite Hc, wrap_succ. f_equal. cbn [length]. lia.
  - rewrite fmap_cons. cbn [mutex list_to_set]. by rewrite Hl.
  - rewrite fmap_cons. cbn [mutex]. constructor; [|done]. rewrite Hl in Hm. by rewrite elem_of_list_to_set in Hm.
  - rewrite restoring_cons. cbn [was_enabled]. lia.
Qed.

Lemma lock_step_guarded start gs s o : guarded start gs s →
  wp (lock_step o gs) (λ r s', match r with Ok gs' => guarded start gs' s' | Err _ => False | Panic => ∃ m, o = Lock m ∧ m ∈ locked s end) s.
Proof.
  intros Hg. destruct o as [m|m|i]; cbn [lock_step].
  - unfold lock, disable, hold, inc_irq_locks. wp_step. wp_step. wp_step. cbv beta iota. wp_step. wp_step. cbv beta iota. wp_step. wp_step. cbv beta iota. cbn [locked].
    wp_step. case_decide as Hm.
    + wp_step. eauto.
    + wp_steps. cbn [enabled irq_locks_held locked]. by apply hold_guarded.
  - unfold try_lock, disable, enable, hold, inc_irq_locks. wp_step. wp_step. wp_step. cbv beta iota. wp_step. wp_step. cbv beta iota. wp_step. wp_step. cbv beta iota. cbn [locked].
    case_decide as Hm.
    + wp_step. destruct Hg as [Hc Hl Hn He]. destruct (enabled s) eqn:E; wp_steps; cbn [enabled irq_locks_held locked]; split; cbn [enabled]; done || (by rewrite E) || idtac.
    + wp_steps. cbn [enabled irq_locks_held locked]. by apply hold_guarded.
  - destruct (gs !! i) as [g|] eqn:E; [|by wp_step]. unfold unlock, dec_irq_locks, release, enable. destruct Hg as [Hc Hl Hn He].
    pose proof (delete_Permutation _ _ _ E) as Hperm. rewrite (restoring_delete i g gs E) in He.
    assert (length gs = S (length (delete i gs))) as Hlen by (by rewrite Hperm at 1).
    assert (NoDup (mutex g :: (mutex <$> delete i gs))) as Hn' by (by rewrite <- fmap_cons, <- Hperm).
    apply NoDup_cons in Hn' as [Hnew Hn'].
    assert (locked s ∖ {[mutex g]} = list_to_set (mutex <$> delete i gs)) as Hl'.
    { rewrite Hl. apply set_eq. intros m. rewrite elem_of_difference, elem_of_singleton, !elem_of_list_to_set.
      rewrite Hperm at 1. rewrite fmap_cons, elem_of_cons. split; [by intros [[->|] ?]|]. intros Hm. split; [by right|]. by intros ->. }
    wp_step. wp_step. wp_step. cbv beta iota. wp_step. wp_step. cbv beta iota. cbn [enabled irq_locks_held locked].
    destruct (was_enabled g) eqn:Eg; wp_steps; cbn [enabled irq_locks_held locked]; split; cbn [enabled irq_locks_held locked]; try done;
      rewrite ?Hc, ?wrap_pred; try (f_equal; lia); destruct (enabled s), start; lia.
Qed.

Lemma lock_taken m s : m ∈ locked s → (lock m s).1 = Panic.
Proof. intros Hm. unfold lock, mbind, comp_bind, gets, disable, modify, get. cbn. by rewrite decide_True. Qed.
Lemma lock_steps_guarded start os gs s : guarded start gs s →
  wp (lock_steps os gs) (λ r s', match r with Ok gs' => guarded start gs' s' | Err _ => False | Panic => True end) s.
Proof.
  revert gs s. induction os as [|o os IH]; intros gs s Hg; cbn [lock_steps]; [by wp_step|].
  wp_step. eapply wp_mono; [by apply lock_step_guarded|]. intros [gs'|[]|] s'; cbv beta iota; [intros; by apply IH|done|done].
Qed.

(** Whatever guards a CPU that accepts interrupts takes, and in whatever order
    they die: it accepts interrupts exactly when it holds no guard that was taken
    while it did; the counter and the locks that are taken are those of its
    guards; and it hangs only on a lock that it holds itself. *)
Theorem guards_restore_interrupts os gs s : lock_steps os [] (mkCpu true 0 ∅) = (Ok gs, s) →
  (enabled s = true ↔ ∀ g, g ∈ gs → was_enabled g = false) ∧
  irq_locks_held s = wrap 64 (Z.of_nat (length gs)) ∧
  (∀ m, m ∈ locked s ↔ ∃ g, g ∈ gs ∧ mutex g = m) ∧
  (∀ o, (lock_step o gs s).1 = Panic ↔ ∃ m, o = Lock m ∧ m ∈ locked s).
Proof.
  intros E. assert (guarded true [] (mkCpu true 0 ∅)) as H0 by (split; [done|done|constructor|done]).
  pose proof (lock_steps_guarded true os [] _ H0) as Hg. eapply wp_run in Hg; [|exact E]. cbn in Hg.
  pose proof Hg as [Hc Hl _ He]. split_and!.
  - assert (restoring gs = 0 ↔ ∀ g, g ∈ gs → was_enabled g = false) as <-.
    { unfold restoring. rewrite length_zero_iff_nil. split.
      - intros Hnil g Hin. destruct (was_enabled g) eqn:Eg; [|done]. assert (g ∈ filter was_enabled gs) as Hf by (apply list_elem_of_filter; by rewrite Eg). rewrite Hnil in Hf. by apply elem_of_nil in Hf.
      - intros Hall. apply elem_of_nil_inv. intros g [Hg1 Hin]%list_elem_of_filter. by rewrite Hall in Hg1. }
    destruct (enabled s); split; intros; done || lia.
  - done.
  - intros m. rewrite Hl, elem_of_list_to_set, list_elem_of_fmap. split; [intros (g & -> & Hin); by exists g|intros (g & Hin & <-); by exists g].
  - intros o. pose proof (lock_step_guarded true gs s o Hg) as Ho. unfold wp in Ho. split.
    + intros Hp. by rewrite Hp in Ho.
    + intros (m & -> & Hm). cbn [lock_step]. unfold mbind at 1, comp_bind. rewrite surjective_pairing with (p := lock m s). by rewrite lock_taken.
Qed.

(** Guards that die out of order turn interrupts on while a lock is held: an
    interrupt whose handler takes that lock then hangs. *)
Theorem outer_guard_first_hazard : ∃ gs s,
  lock_steps [Lock 0; Lock 1; Drop 1] [] (mkCpu true 0 ∅) = (Ok gs, s) ∧ enabled s = true ∧ 1 ∈ locked s ∧ (lock 1 s).1 = Panic.
Proof. eexists _, _. split; [vm_compute; reflexivity|]. split; [done|]. split; [vm_compute; reflexivity|]. by vm_compute. Qed.
End IrqLockProps.

(** ** Run queues *)

Module RunQueueProps.
Import RunQueues.

(** The processes that a CPU carries from one place to another. *)
Definition carried (ph : Phase) : list Z :=
  match ph with
  | UnlockLocal (Some pid) | UnlockPeer _ (Some pid) _ | LockOwn _ pid | LockVictim _ pid | UnlockVictim _ pid | UnlockOwn pid
  | ChooseCpu pid | UnlockChoice pid _ | LockTarget pid _ | Stopped (Some pid) => [pid]
  | _ => []
  end.
(** Every process: queued, on its way, or picked. *)
Definition tasks (s : System) : list Z := (queues s ≫= ready) ++ (phases s ≫= carried) ++ (picked s).*2.
Definition submitted (e : Event) : list Z := match e with Enqueue _ pid => [pid] | _ => [] end.

Definition occ (x : Z) (l : list Z) : nat := count_occ Z.eq_dec l x.
Lemma occ_app x l k : occ x (l ++ k) = occ x l + occ x k.
Proof. apply count_occ_app. Qed.
Lemma occ_insert {A} (f : A → list Z) l i a b x : l !! i = Some a → occ x (<[i := b]> l ≫= f) + occ x (f a) = occ x (l ≫= f) + occ x (f b).
Proof.
  revert i. induction l as [|y l IH]; intros i Hi; [done|]. destruct i as [|i].
  - injection Hi as <-. change (<[0 := b]> (y :: l)) with (b :: l). rewrite !bind_cons, !occ_app. lia.
  - specialize (IH i Hi). change (<[S i := b]> (y :: l)) with (y :: <[i := b]> l). rewrite !bind_cons, !occ_app. lia.
Qed.
Lemma occ_all l k : (∀ x, occ x l = occ x k) → l ≡ₚ k.
Proof. apply Permutation_count_occ. Qed.

(** Counts the processes after a step. *)
Ltac tally x :=
  unfold tasks; cbn [queues phases picked at_phase with_queue release pick count_target notify];
  rewrite ?fmap_app, ?occ_app;
  repeat match goal with
  | Hl : ?l !! ?i = Some ?a |- context [occ x (<[?i := ?b]> ?l ≫= ?f)] =>
      pose proof (occ_insert f l i a b x Hl); generalize dependent (occ x (<[i := b]> l ≫= f)); intros
  end;
  cbn [carried ready submitted fmap list_fmap fst snd from_option] in *; rewrite ?occ_app in *;
  repeat match goal with |- context [occ x ?l] => match l with [] => change (occ x []) with 0 end end;
  repeat match goal with H : context [occ x []] |- _ => change (occ x []) with 0 in H end;
  lia.
Lemma acquire_Some l c s s' : acquire l c s = Some s' →
  owner s !! l = None ∧ s' = mkSystem (online s) (queues s) (rr_target s) (<[l := c]> (owner s)) (phases s) (picked s) (reschedule s).
Proof. unfold acquire. destruct (owner s !! l); [done|]. by intros [= <-]. Qed.
Lemma occ_steal q x t q' : steal_from q = (t, q') → occ x (ready q) = occ x (ready q') + occ x (from_option (λ pid, [pid]) [] t).
Proof.
  unfold steal_from. destruct (1 <? length (ready q)) eqn:Hl; [|intros [= <- <-]; cbn; lia]. reflect.
  destruct (last (ready q)) as [pid|] eqn:E; [|intros [= <- <-]; cbn; lia]. intros [= <- <-]. cbn [ready from_option].
  apply last_Some in E as [l E]. rewrite E, length_app. cbn [length]. rewrite Nat.add_sub, take_app_length, occ_app. lia.
Qed.
Lemma occ_take_local c q x t q' : take_local c q = Some (t, q') → occ x (ready q) = occ x (ready q') + occ x (from_option (λ pid, [pid]) [] t).
Proof.
  unfold take_local. destruct (ready q) as [|pid rest]; [intros [= <- <-]; cbn; lia|].
  destruct (fits 64 _); [|done]. intros [= <- <-]. cbn [ready from_option]. change (pid :: rest) with ([pid] ++ rest). rewrite occ_app. lia.
Qed.

Lemma pick_step_tasks c ph s s' x : phases s !! c = Some ph → pick_step c ph s = Some s' → occ x (tasks s') = occ x (tasks s).
Proof.
  intros Hph Hs. destruct ph as [| |[pid|]| | | | |p pid|p pid|p pid|pid| | | | | | |]; try done; cbn [pick_step] in Hs.
  - destruct (acquire _ _ _) as [s1|] eqn:Ha; [|done]. apply acquire_Some in Ha as [_ ->]. cbn [mbind option_bind queues] in Hs.
    destruct (queues s !! c) as [q|] eqn:Hq; [|done]. cbn [mbind option_bind] in Hs.
    destruct (take_local c q) as [[t q']|] eqn:Ht; injection Hs as <-; [pose proof (occ_take_local c q x t q' Ht); destruct t; tally x|tally x].
  - injection Hs as <-. tally x.
  - injection Hs as <-. tally x.
  - destruct (acquire _ _ _) as [s1|] eqn:Ha; [|done]. apply acquire_Some in Ha as [_ ->]. cbn [mbind option_bind queues] in Hs.
    destruct (queues s !! c) as [q|] eqn:Hq; [|done]. cbn [mbind option_bind] in Hs.
    destruct (fits 64 _); injection Hs as <-; tally x.
  - destruct (acquire _ _ _) as [s1|] eqn:Ha; [|done]. apply acquire_Some in Ha as [_ ->]. cbn [mbind option_bind] in Hs. injection Hs as <-. tally x.
  - injection Hs as <-. tally x.
  - injection Hs as <-. tally x.
Qed.
Lemma steal_step_tasks c ph s s' x : phases s !! c = Some ph → steal_step c ph s = Some s' → occ x (tasks s') = occ x (tasks s).
Proof.
  intros Hph Hs. destruct ph as [| | | |ps|[|p ps]|p [pid|] ps| | | | | | | | | | |]; try done; cbn [steal_step] in Hs.
  - destruct (acquire _ _ _) as [s1|] eqn:Ha; [|done]. apply acquire_Some in Ha as [_ ->]. injection Hs as <-. tally x.
  - injection Hs as <-. tally x.
  - injection Hs as <-. tally x.
  - destruct (acquire _ _ _) as [s1|] eqn:Ha; [|injection Hs as <-; tally x]. apply acquire_Some in Ha as [_ ->]. cbn [queues] in Hs.
    destruct (queues s !! p) as [q|] eqn:Hq; [|done]. cbn [mbind option_bind] in Hs.
    destruct (steal_from q) as [t q'] eqn:Ht. injection Hs as <-. pose proof (occ_steal q x t q' Ht). destruct t; tally x.
  - injection Hs as <-. tally x.
  - injection Hs as <-. tally x.
Qed.
Lemma enqueue_step_tasks c ph s s' x : phases s !! c = Some ph → enqueue_step c ph s = Some s' → occ x (tasks s') = occ x (tasks s).
Proof.
  intros Hph Hs. destruct ph as [| | | | | | | | | | |pid|pid cs|pid t|t| | |]; try done; cbn [enqueue_step] in Hs.
  - destruct (acquire _ _ _) as [s1|] eqn:Ha; [|done]. apply acquire_Some in Ha as [_ ->]. injection Hs as <-. tally x.
  - set (cs' := match cs with [] => [0] | _ => cs end) in Hs. destruct (cs' !! _) as [target|]; [|done]. cbn [mbind option_bind] in Hs. injection Hs as <-. tally x.
  - destruct (acquire _ _ _) as [s1|] eqn:Ha; [|done]. apply acquire_Some in Ha as [_ ->]. cbn [mbind option_bind queues] in Hs.
    destruct (queues s !! t) as [q|] eqn:Hq; [|done]. injection Hs as <-. tally x.
  - injection Hs as <-. case_decide; tally x.
Qed.
Lemma notify_step_tasks c ph s s' x : phases s !! c = Some ph → notify_step c ph s = Some s' → occ x (tasks s') = occ x (tasks s).
Proof.
  intros Hph Hs. destruct ph as [| | | | | | | | | | | | | | |t|t up|]; try done; cbn [notify_step] in Hs.
  - destruct (acquire _ _ _) as [s1|] eqn:Ha; [|done]. apply acquire_Some in Ha as [_ ->]. injection Hs as <-. tally x.
  - injection Hs as <-. destruct up; tally x.
Qed.
Lemma exec_tasks e s s' x : exec e s = Some s' → occ x (tasks s') = occ x (tasks s) + occ x (submitted e).
Proof.
  destruct e as [c|c pid|c]; cbn [exec].
  - destruct (phases s !! c) as [[]|] eqn:Hph; try done. intros [= <-]. tally x.
  - destruct (phases s !! c) as [[]|] eqn:Hph; try done. intros [= <-]. tally x.
  - unfold advance. destruct (phases s !! c) as [ph|] eqn:Hph; [|done]. cbn [mbind option_bind submitted]. rewrite Nat.add_0_r.
    destruct ph eqn:E; try done; rewrite <- E in *; intros Hs; clear E;
      first [by apply (pick_step_tasks c ph)|by apply (steal_step_tasks c ph)|by apply (enqueue_step_tasks c ph)|by apply (notify_step_tasks c ph)].
Qed.

(** C38: Stealing loses no process and duplicates none: however the CPUs are
    interleaved, the processes in the queues, on their way from one queue to
    another and picked for execution are, with their multiplicities, exactly
    those that were handed to the queues. *)
Theorem tasks_are_conserved es up s : run es (boot up) = Some s → tasks s ≡ₚ es ≫= submitted.
Proof.
  intros Hr. apply occ_all. intros x. assert (tasks (boot up) = []) as H0 by done.
  assert (occ x (tasks s) = occ x (tasks (boot up)) + occ x (es ≫= submitted)) as H; [|by rewrite H, H0].
  clear H0. revert Hr. generalize (boot up). induction es as [|e es IH]; intros s0; cbn [run].
  - intros [= <-]. cbn. lia.
  - destruct (exec e s0) as [s1|] eqn:He; [|done]. cbn [mbind option_bind]. intros Hr. rewrite (IH _ Hr), (exec_tasks _ _ _ x He), bind_cons, occ_app. lia.
Qed.

(** *** Who holds which lock *)

Definition holds (c : nat) (ph : Phase) : list Lock :=
  match ph with
  | UnlockLocal _ | LockVictim _ _ | UnlockOwn _ | Stopped _ => [Queue c]
  | UnlockStates _ | UnlockChoice _ _ | UnlockNotify _ _ => [CpuStates]
  | UnlockPeer p _ _ | UnlockTarget p => [Queue p]
  | UnlockVictim p _ => [Queue c; Queue p]
  | _ => []
  end.
Definition peer_ok (c p : nat) : Prop := p < MAX_CPUS ∧ p ≠ c.
Definition phase_ok (c : nat) (ph : Phase) : Prop :=
  match ph with
  | UnlockStates ps | TryPeers ps => Forall (peer_ok c) ps
  | UnlockPeer p _ ps => peer_ok c p ∧ Forall (peer_ok c) ps
  | LockOwn p _ | LockVictim p _ | UnlockVictim p _ => peer_ok c p
  | UnlockChoice _ cs => Forall (λ i, i < MAX_CPUS) cs
  | LockTarget _ t | UnlockTarget t => t < MAX_CPUS
  | _ => True
  end.
Record well (s : System) : Prop := {
  w_queues : length (queues s) = MAX_CPUS;
  w_phases : length (phases s) = MAX_CPUS;
  w_phase c ph : phases s !! c = Some ph → phase_ok c ph;
  w_owner l c : owner s !! l = Some c ↔ ∃ ph, phases s !! c = Some ph ∧ l ∈ holds c ph;
}.

(** A CPU moves from [ph] to [ph'], and the locks follow. *)
Definition owned_by (c : nat) (ph' : Phase) (s : System) (o : gmap Lock nat) : Prop :=
  ∀ l d, o !! l = Some d ↔ (d ≠ c ∧ owner s !! l = Some d) ∨ (d = c ∧ l ∈ holds c ph').
Lemma well_move c ph ph' s s1 : well s → phases s !! c = Some ph → phase_ok c ph' → length (queues s1) = MAX_CPUS → phases s1 = phases s →
  owned_by c ph' s (owner s1) → well (at_phase c ph' s1).
Proof.
  intros [Hq Hp Hph Ho] Hc Hok Hq1 Hp1 Ho1. assert (c < length (phases s)) as Hlt by (by apply lookup_lt_Some in Hc).
  split; cbn [queues phases owner at_phase]; rewrite ?Hp1.
  - done.
  - by rewrite length_insert.
  - intros d ph0 [(-> & <- & _)|[_ Hd]]%list_lookup_insert_Some; [done|by apply Hph].
  - intros l d. rewrite (Ho1 l d). destruct (decide (d = c)) as [->|Hne].
    + split; [intros [[? _]|[_ Hl]]; [done|]|intros (ph0 & E & Hl)].
      * exists ph'. by rewrite list_lookup_insert_eq.
      * right. rewrite list_lookup_insert_eq in E by done. by injection E as <-.
    + rewrite Ho. split; [intros [[_ (ph0 & E & Hl)]|[? _]]; [|done]|intros (ph0 & E & Hl)].
      * exists ph0. by rewrite list_lookup_insert_ne.
      * left. split; [done|]. exists ph0. by rewrite list_lookup_insert_ne in E.
Qed.
Lemma own_acquire c ph ph' s l : well s → phases s !! c = Some ph → owner s !! l = None → (∀ k, k ∈ holds c ph' ↔ k = l ∨ k ∈ holds c ph) →
  owned_by c ph' s (<[l := c]> (owner s)).
Proof.
  intros Hw Hc Hl Hh k d. rewrite lookup_insert_Some, Hh. destruct (decide (d = c)) as [->|Hne].
  - split; [|intros [[? _]|[_ [->|Hk]]]; [done|by left|]].
    + intros [[<- _]|[Hne Hk]]; [right; split; [done|by left]|]. right. split; [done|right]. apply (w_owner _ Hw) in Hk as (ph0 & E & Hk). rewrite Hc in E. by injection E as ->.
    + assert (owner s !! k = Some c) as Hk' by (apply (w_owner _ Hw); eauto). right. split; [|done]. intros ->. congruence.
  - split; [intros [[<- <-]|[_ Hk]]; [done|by left]|intros [[_ Hk]|[? _]]; [|done]]. right. split; [|done]. intros ->. congruence.
Qed.
Lemma own_release c ph ph' s l : well s → phases s !! c = Some ph → l ∈ holds c ph → (∀ k, k ∈ holds c ph' ↔ k ≠ l ∧ k ∈ holds c ph) →
  owned_by c ph' s (delete l (owner s)).
Proof.
  intros Hw Hc Hl Hh k d. rewrite lookup_delete_Some, Hh. assert (owner s !! l = Some c) as Hlc by (apply (w_owner _ Hw); eauto).
  destruct (decide (d = c)) as [->|Hne].
  - split; [intros [Hne Hk]|intros [[? _]|[_ [Hne Hk]]]; [done|]].
    + right. split; [done|]. split; [done|]. apply (w_owner _ Hw) in Hk as (ph0 & E & Hk). rewrite Hc in E. by injection E as ->.
    + split; [done|]. apply (w_owner _ Hw). eauto.
  - split; [intros [_ Hk]; by left|intros [[_ Hk]|[? _]]; [|done]]. split; [|done]. intros ->. congruence.
Qed.
Lemma own_same c ph ph' s : well s → phases s !! c = Some ph → (∀ k, k ∈ holds c ph' ↔ k ∈ holds c ph) → owned_by c ph' s (owner s).
Proof.
  intros Hw Hc Hh k d. rewrite Hh. destruct (decide (d = c)) as [->|Hne].
  - rewrite (w_owner _ Hw). split; [intros (ph0 & E & Hk); right; rewrite Hc in E; by injection E as ->|intros [[? _]|[_ Hk]]; [done|eauto]].
  - split; [by left|intros [[_ ?]|[? _]]; done].
Qed.

Lemma cpus_online_bound s : Forall (λ i, i < MAX_CPUS) (cpus_online s).
Proof. apply Forall_forall. intros i [_ Hi%elem_of_seq]%list_elem_of_filter. lia. Qed.

(** The locks of [ph'] after those of [ph], for concrete phases. *)
Ltac locks := intros k; cbn [holds]; rewrite ?elem_of_cons, ?elem_of_nil; intuition congruence.
Ltac moves c ph ph' :=
  match goal with Hw : well ?s |- _ => apply (well_move c ph ph' s) end; [done|done| |cbn [queues with_queue release pick count_target notify]; rewrite ?length_insert; by apply w_queues|done|].

Lemma pick_step_well c ph s s' : well s → phases s !! c = Some ph → pick_step c ph s = Some s' → well s'.
Proof.
  intros Hw Hph Hs. pose proof (w_phase _ Hw _ _ Hph) as Hok. destruct ph as [| |[pid|]| | | | |p pid|p pid|p pid|pid| | | | | | |]; try done; cbn [pick_step phase_ok] in Hs, Hok.
  - destruct (acquire _ _ _) as [s1|] eqn:Ha; [|done]. apply acquire_Some in Ha as [Hl ->]. cbn [mbind option_bind queues] in Hs.
    destruct (queues s !! c) as [q|] eqn:Hq; [|done]. cbn [mbind option_bind] in Hs.
    destruct (take_local c q) as [[t q']|] eqn:Ht; injection Hs as <-.
    + moves c LockLocal (UnlockLocal t); [done|apply (own_acquire c LockLocal); try done; locks].
    + moves c LockLocal (Stopped None); [done|apply (own_acquire c LockLocal); try done; locks].
  - injection Hs as <-. moves c (UnlockLocal (Some pid)) Idle; [done|apply (own_release c (UnlockLocal (Some pid))); try done; [by left|locks]].
  - injection Hs as <-. moves c (UnlockLocal None) LockStates; [done|apply (own_release c (UnlockLocal None)); try done; [by left|locks]].
  - destruct (acquire _ _ _) as [s1|] eqn:Ha; [|done]. apply acquire_Some in Ha as [Hl ->]. cbn [mbind option_bind queues] in Hs.
    destruct (queues s !! c) as [q|] eqn:Hq; [|done]. cbn [mbind option_bind] in Hs. destruct (fits 64 _); injection Hs as <-.
    + moves c (LockOwn p pid) (LockVictim p pid); [done|apply (own_acquire c (LockOwn p pid)); try done; locks].
    + moves c (LockOwn p pid) (Stopped (Some pid)); [done|apply (own_acquire c (LockOwn p pid)); try done; locks].
  - destruct (acquire _ _ _) as [s1|] eqn:Ha; [|done]. apply acquire_Some in Ha as [Hl ->]. cbn [mbind option_bind] in Hs. injection Hs as <-.
    moves c (LockVictim p pid) (UnlockVictim p pid); [done|apply (own_acquire c (LockVictim p pid)); try done; locks].
  - injection Hs as <-. destruct Hok as [_ Hne]. assert (Queue p ≠ Queue c) by congruence.
    moves c (UnlockVictim p pid) (UnlockOwn pid); [done|apply (own_release c (UnlockVictim p pid)); try done; [by right; left|locks]].
  - injection Hs as <-. moves c (UnlockOwn pid) Idle; [done|apply (own_release c (UnlockOwn pid)); try done; [by left|locks]].
Qed.
Lemma steal_step_well c ph s s' : well s → phases s !! c = Some ph → steal_step c ph s = Some s' → well s'.
Proof.
  intros Hw Hph Hs. pose proof (w_phase _ Hw _ _ Hph) as Hok. destruct ph as [| | | |ps|[|p ps]|p [pid|] ps| | | | | | | | | | |]; try done; cbn [steal_step phase_ok] in Hs, Hok.
  - destruct (acquire _ _ _) as [s1|] eqn:Ha; [|done]. apply acquire_Some in Ha as [Hl ->]. cbn [mbind option_bind] in Hs. injection Hs as <-.
    match goal with |- well (at_phase c ?ph' _) => moves c LockStates ph' end; [|apply (own_acquire c LockStates); try done; locks].
    cbn [phase_ok]. apply Forall_forall. intros i [Hi Hin]%list_elem_of_filter. split; [|done]. pose proof (cpus_online_bound s) as Hb. rewrite Forall_forall in Hb. by apply Hb.
  - injection Hs as <-. moves c (UnlockStates ps) (TryPeers ps); [done|apply (own_release c (UnlockStates ps)); try done; [by left|locks]].
  - injection Hs as <-. moves c (TryPeers []) Idle; [done|apply (own_same c (TryPeers [])); try done; locks].
  - apply Forall_cons in Hok as [Hp Hps]. destruct (acquire _ _ _) as [s1|] eqn:Ha.
    + apply acquire_Some in Ha as [Hl ->]. cbn [queues] in Hs. destruct (queues s !! p) as [q|] eqn:Hq; [|done]. cbn [mbind option_bind] in Hs.
      destruct (steal_from q) as [t q'] eqn:Ht. injection Hs as <-. moves c (TryPeers (p :: ps)) (UnlockPeer p t ps); [done|apply (own_acquire c (TryPeers (p :: ps))); try done; locks].
    + injection Hs as <-. moves c (TryPeers (p :: ps)) (TryPeers ps); [done|apply (own_same c (TryPeers (p :: ps))); try done; locks].
  - injection Hs as <-. moves c (UnlockPeer p (Some pid) ps) (LockOwn p pid); [by destruct Hok|apply (own_release c (UnlockPeer p (Some pid) ps)); try done; [by left|locks]].
  - injection Hs as <-. moves c (UnlockPeer p None ps) (TryPeers ps); [by destruct Hok|apply (own_release c (UnlockPeer p None ps)); try done; [by left|locks]].
Qed.
Lemma enqueue_step_well c ph s s' : well s → phases s !! c = Some ph → enqueue_step c ph s = Some s' → well s'.
Proof.
  intros Hw Hph Hs. pose proof (w_phase _ Hw _ _ Hph) as Hok. destruct ph as [| | | | | | | | | | |pid|pid cs|pid t|t| | |]; try done; cbn [enqueue_step phase_ok] in Hs, Hok.
  - destruct (acquire _ _ _) as [s1|] eqn:Ha; [|done]. apply acquire_Some in Ha as [Hl ->]. cbn [mbind option_bind] in Hs. injection Hs as <-.
    match goal with |- well (at_phase c ?ph' _) => moves c (ChooseCpu pid) ph' end; [by apply cpus_online_bound|apply (own_acquire c (ChooseCpu pid)); try done; locks].
  - set (cs' := match cs with [] => [0] | _ => cs end) in Hs. destruct (cs' !! _) as [target|] eqn:Ht; [|done]. cbn [mbind option_bind] in Hs. injection Hs as <-.
    moves c (UnlockChoice pid cs) (LockTarget pid target); [|apply (own_release c (UnlockChoice pid cs)); try done; [by left|locks]].
    apply list_elem_of_lookup_2 in Ht. subst cs'. destruct cs; [apply list_elem_of_singleton in Ht as ->; cbn; unfold MAX_CPUS; lia|]. rewrite Forall_forall in Hok. by apply Hok.
  - destruct (acquire _ _ _) as [s1|] eqn:Ha; [|done]. apply acquire_Some in Ha as [Hl ->]. cbn [mbind option_bind queues] in Hs.
    destruct (queues s !! t) as [q|] eqn:Hq; [|done]. injection Hs as <-. moves c (LockTarget pid t) (UnlockTarget t); [done|apply (own_acquire c (LockTarget pid t)); try done; locks].
  - injection Hs as <-. case_decide.
    + moves c (UnlockTarget t) Idle; [done|apply (own_release c (UnlockTarget t)); try done; [by left|locks]].
    + moves c (UnlockTarget t) (LockNotify t); [done|apply (own_release c (UnlockTarget t)); try done; [by left|locks]].
Qed.
Lemma notify_step_well c ph s s' : well s → phases s !! c = Some ph → notify_step c ph s = Some s' → well s'.
Proof.
  intros Hw Hph Hs. destruct ph as [| | | | | | | | | | | | | | |t|t up|]; try done; cbn [notify_step] in Hs.
  - destruct (acquire _ _ _) as [s1|] eqn:Ha; [|done]. apply acquire_Some in Ha as [Hl ->]. cbn [mbind option_bind] in Hs. injection Hs as <-.
    match goal with |- well (at_phase c ?ph' _) => moves c (LockNotify t) ph' end; [done|apply (own_acquire c (LockNotify t)); try done; locks].
  - injection Hs as <-. assert (well (at_phase c Idle (release CpuStates s))) as Hw'.
    { moves c (UnlockNotify t up) Idle; [done|apply (own_release c (UnlockNotify t up)); try done; [by left|locks]]. }
    destruct up; [|done]. by destruct Hw'; split.
Qed.
Lemma exec_well e s s' : well s → exec e s = Some s' → well s'.
Proof.
  intros Hw. destruct e as [c|c pid|c]; cbn [exec].
  - destruct (phases s !! c) as [[]|] eqn:Hph; try done. intros [= <-]. moves c Idle LockLocal; [done|apply (own_same c Idle); try done; locks].
  - destruct (phases s !! c) as [[]|] eqn:Hph; try done. intros [= <-]. moves c Idle (ChooseCpu pid); [done|apply (own_same c Idle); try done; locks].
  - unfold advance. destruct (phases s !! c) as [ph|] eqn:Hph; [|done]. cbn [mbind option_bind].
    destruct ph eqn:E; try done; rewrite <- E in *; intros Hs; clear E;
      first [by apply (pick_step_well c ph s)|by apply (steal_step_well c ph s)|by apply (enqueue_step_well c ph s)|by apply (notify_step_well c ph s)].
Qed.
Lemma boot_well up : well (boot up).
Proof.
  assert (∀ c ph, phases (boot up) !! c = Some ph → ph = Idle) as Hi by (intros c ph [-> _]%lookup_replicate_1; done).
  split; [done|done|by intros c ph ->%Hi|]. intros l c. split; [done|]. intros (ph & ->%Hi & Hl). by apply elem_of_nil in Hl.
Qed.
Lemma run_well es s s' : well s → run es s = Some s' → well s'.
Proof.
  revert s. induction es as [|e es IH]; intros s Hw; cbn [run]; [by intros [= <-]|].
  destruct (exec e s) as [s1|] eqn:He; [|done]. by apply IH, (exec_well e s).
Qed.

(** *** Waiting *)

Definition wants (c : nat) (ph : Phase) : option Lock :=
  match ph with
  | LockLocal | LockOwn _ _ => Some (Queue c)
  | LockStates | ChooseCpu _ | LockNotify _ => Some CpuStates
  | LockVictim p _ | LockTarget _ p => Some (Queue p)
  | _ => None
  end.
Definition busy (ph : Phase) : Prop := match ph with Idle | Stopped _ => False | _ => True end.
Lemma acquire_None l c s : acquire l c s = None → is_Some (owner s !! l).
Proof. unfold acquire. by destruct (owner s !! l). Qed.
Lemma queue_exists s p : well s → p < MAX_CPUS → is_Some (queues s !! p).
Proof. intros Hw Hp. apply lookup_lt_is_Some. by rewrite (w_queues _ Hw). Qed.
Lemma cpu_bound s c ph : well s → phases s !! c = Some ph → c < MAX_CPUS.
Proof. intros Hw Hc%lookup_lt_Some. by rewrite (w_phases _ Hw) in Hc. Qed.

(** A CPU that cannot go on waits for a lock. *)
Lemma stuck_wants c ph s : well s → phases s !! c = Some ph → busy ph → advance c s = None → ∃ l, wants c ph = Some l ∧ is_Some (owner s !! l).
Proof.
  intros Hw Hph Hb. pose proof (w_phase _ Hw _ _ Hph) as Hok. pose proof (cpu_bound _ _ _ Hw Hph) as Hcb.
  unfold advance. rewrite Hph. cbn [mbind option_bind].
  destruct ph as [| |[pid|]| |ps|[|p ps]|p [pid|] ps|p pid|p pid|p pid|pid|pid|pid cs|pid t|t|t|t up|]; try done;
    cbn [pick_step steal_step enqueue_step notify_step wants phase_ok] in *;
    try (match goal with |- context [acquire ?l ?d ?s0] => destruct (acquire l d s0) as [s1|] eqn:Ha end;
      [apply acquire_Some in Ha as [Hl ->]; cbn [mbind option_bind queues]|try (intros _; eexists; split; [done|by eapply acquire_None]); try done]); try done.
  - destruct (queue_exists s c Hw Hcb) as [q ->]. done.
  - apply Forall_cons in Hok as [[Hp _] _]. destruct (queue_exists s p Hw Hp) as [q ->]. cbn [mbind option_bind]. by destruct (steal_from q).
  - destruct (queue_exists s c Hw Hcb) as [q ->]. done.
  - set (cs' := match cs with [] => [0] | _ => cs end). intros H. exfalso.
    assert (0 < length cs') as Hlen by (subst cs'; destruct cs; cbn; lia).
    destruct (lookup_lt_is_Some_2 cs' (Z.to_nat (rr_target s mod Z.of_nat (length cs')))) as [t Ht].
    { pose proof (Z.mod_pos_bound (rr_target s) (Z.of_nat (length cs')) ltac:(lia)). lia. }
    by rewrite Ht in H.
  - destruct (queue_exists s t Hw Hok) as [q ->]. done.
Qed.

(** A CPU of any run that cannot go on waits for a lock of another CPU, and that
    one goes on, unless it is itself waiting for the queue that it has just
    stolen from while it holds its own, or has panicked.  So without two thieves
    that wait for each other nobody waits forever. *)
Theorem only_thieves_deadlock es up s c ph : run es (boot up) = Some s → phases s !! c = Some ph → busy ph → advance c s = None →
  ∃ l d ph', wants c ph = Some l ∧ owner s !! l = Some d ∧ d ≠ c ∧ phases s !! d = Some ph' ∧
    (is_Some (advance d s) ∨ (∃ v pid, ph' = LockVictim v pid) ∨ (∃ t, ph' = Stopped t)).
Proof.
  intros Hr Hph Hb Hs. pose proof (run_well _ _ _ (boot_well up) Hr) as Hw.
  destruct (stuck_wants _ _ _ Hw Hph Hb Hs) as (l & Hl & [d Hd]). pose proof Hd as Hd'. apply (w_owner _ Hw) in Hd' as (ph' & Hph' & Hin).
  assert (d ≠ c) as Hne.
  { intros ->. rewrite Hph in Hph'. injection Hph' as <-. pose proof (w_phase _ Hw _ _ Hph) as Hok. destruct ph; try done; cbn in Hl, Hin, Hok; try by apply elem_of_nil in Hin.
    injection Hl as <-. apply list_elem_of_singleton in Hin. injection Hin as ->. by destruct Hok. }
  exists l, d, ph'. split; [done|]. split; [done|]. split; [done|]. split; [done|].
  destruct (advance d s) as [s'|] eqn:Ha; [left; eauto|right].
  destruct ph' as [| | | | | | | |v pid| | | | | | | | |t] eqn:E; try (by apply elem_of_nil in Hin); [..|right; by eexists].
  all: rewrite <- E in *; destruct (stuck_wants d ph' s Hw Hph') as (k & Hk & _); [by rewrite E|done|]; rewrite E in Hk; try done.
  left. rewrite E. by eexists _, _.
Qed.

(** The owner of a queue takes its oldest process; a thief takes the newest, and
    leaves at least one. *)
Theorem thieves_take_the_newest q pid q' : steal_from q = (Some pid, q') → ∃ oldest between,
  ready q = oldest :: between ++ [pid] ∧ ready q' = oldest :: between ∧ ∀ c r, take_local c q = Some r → r.1 = Some oldest.
Proof.
  unfold steal_from. destruct (1 <? length (ready q)) eqn:Hl; [|done]. reflect. destruct (last (ready q)) as [x|] eqn:E; [|done]. intros [= <- <-].
  apply last_Some in E as [l E]. rewrite E in *. rewrite length_app in Hl. cbn in Hl. destruct l as [|oldest between]; [cbn in Hl; lia|].
  exists oldest, between. split; [done|]. split.
  - cbn [ready]. replace (length ((oldest :: between) ++ [x]) - 1) with (length (oldest :: between)) by (rewrite length_app; cbn; lia). by rewrite take_app_length.
  - intros c r. unfold take_local. rewrite E. cbn [app]. destruct (fits 64 _); [|done]. by intros [= <-].
Qed.

(** *** Two thieves *)

Definition enqueued (c : nat) (pid : Z) (target : nat) : list Event :=
  Enqueue c pid :: replicate (if decide (target = c) then 4 else 6) (Advance c).
(** CPUs 0 and 1 find their queues empty; then CPU 2 hands out five processes, and
    both thieves go on. *)
Definition mutual_theft : list Event :=
  [Pick 0; Advance 0; Advance 0; Pick 1; Advance 1; Advance 1] ++
  enqueued 2 10 0 ++ enqueued 2 11 1 ++ enqueued 2 12 2 ++ enqueued 2 13 0 ++ enqueued 2 14 1 ++
  replicate 4 (Advance 0) ++ replicate 4 (Advance 1) ++ [Advance 0; Advance 1].
Lemma tasks_are_conserved_witness : match run mutual_theft (boot [true; true; true]) with Some s => tasks s ≡ₚ [10; 11; 12; 13; 14]%Z | None => False end.
Proof.
  destruct (run mutual_theft (boot [true; true; true])) as [s|] eqn:Hr; [|by vm_compute in Hr].
  apply (tasks_are_conserved mutual_theft [true; true; true] s Hr).
Defined.
Definition embraced (s : System) : Prop :=
  (∃ a b, phases s !! 0 = Some (LockVictim 1 a) ∧ phases s !! 1 = Some (LockVictim 0 b)) ∧
  owner s !! Queue 0 = Some 0 ∧ owner s !! Queue 1 = Some 1.

(** A CPU changes its own phase only. *)
Lemma advance_phases c s s' : advance c s = Some s' → ∃ ph', phases s' = <[c := ph']> (phases s).
Proof.
  unfold advance. destruct (phases s !! c) as [ph|] eqn:Hph; [|done]. cbn [mbind option_bind].
  assert (∀ l s1, acquire l c s = Some s1 → phases s1 = phases s) as Hacq by (intros l s1 [_ ->]%acquire_Some; done).
  destruct ph as [| |[pid|]| |ps|[|p ps]|p [pid|] ps|p pid|p pid|p pid|pid|pid|pid cs|pid t|t|t|t up|]; try done;
    cbn [pick_step steal_step enqueue_step notify_step];
    try (match goal with |- context [acquire ?l c s] => destruct (acquire l c s) as [s1|] eqn:Ha end; [apply Hacq in Ha; rewrite <- Ha; cbn [mbind option_bind]|try done]);
    try (intros [= <-]; by eexists).
  - destruct (queues s1 !! c); [|done]. cbn [mbind option_bind]. destruct (take_local c _) as [[??]|]; intros [= <-]; by eexists.
  - destruct (queues s1 !! p); [|done]. cbn [mbind option_bind]. destruct (steal_from _). intros [= <-]. by eexists.
  - destruct (queues s1 !! c); [|done]. cbn [mbind option_bind]. destruct (fits 64 _); intros [= <-]; by eexists.
  - set (cs' := match cs with [] => [0] | _ => cs end). destruct (cs' !! _); [|done]. cbn [mbind option_bind]. intros [= <-]. by eexists.
  - destruct (queues s1 !! t); [|done]. intros [= <-]. by eexists.
  - intros [= <-]. destruct up; by eexists.
Qed.
Lemma exec_phases e s s' d : exec e s = Some s' → match e with Pick c | Enqueue c _ | Advance c => c end ≠ d → phases s' !! d = phases s !! d.
Proof.
  destruct e as [c|c pid|c]; cbn [exec].
  - destruct (phases s !! c) as [[]|]; try done. intros [= <-] Hne. by apply list_lookup_insert_ne.
  - destruct (phases s !! c) as [[]|]; try done. intros [= <-] Hne. by apply list_lookup_insert_ne.
  - intros [ph' ->]%advance_phases Hne. by apply list_lookup_insert_ne.
Qed.
(** A CPU that waits for a lock which is taken stays where it is. *)
Lemma waiting_stays e s s' d v pid : exec e s = Some s' → phases s !! d = Some (LockVictim v pid) → is_Some (owner s !! Queue v) → phases s' !! d = phases s !! d.
Proof.
  intros He Hd [o Ho]. destruct (decide (match e with Pick c | Enqueue c _ | Advance c => c end = d)) as [<-|Hne]; [|by eapply exec_phases].
  exfalso. destruct e as [c|c p|c]; cbn [exec] in He; [by rewrite Hd in He|by rewrite Hd in He|].
  unfold advance in He. rewrite Hd in He. cbn [mbind option_bind pick_step] in He. unfold acquire in He. by rewrite Ho in He.
Qed.
Lemma embraced_stays e s s' : well s → embraced s → exec e s = Some s' → embraced s'.
Proof.
  intros Hw ((a & b & H0 & H1) & O0 & O1) He. pose proof (exec_well _ _ _ Hw He) as Hw'.
  pose proof (waiting_stays _ _ _ 0 1 a He H0 ltac:(by eexists)) as P0. pose proof (waiting_stays _ _ _ 1 0 b He H1 ltac:(by eexists)) as P1.
  rewrite H0 in P0. rewrite H1 in P1. split; [by exists a, b|]. split; apply (w_owner _ Hw'); eexists; (split; [done|by left]).
Qed.

(** Two thieves that steal from each other wait for each other forever, whatever
    the other CPUs do, although [steal_task_from_peers] only tries locks: both
    come back to report how many processes are left, and take the lock of the
    queue of the other while they hold their own. *)
Theorem stealing_can_deadlock : ∃ s, run mutual_theft (boot [true; true; true]) = Some s ∧ embraced s ∧
  ∀ es s', run es s = Some s' → embraced s'.
Proof.
  destruct (run mutual_theft (boot [true; true; true])) as [s|] eqn:Hr; [|by vm_compute in Hr].
  pose proof (run_well _ _ _ (boot_well _) Hr) as Hw. exists s. split; [done|].
  assert (embraced s) as Hs by (vm_compute in Hr; injection Hr as <-; split; [by do 2 eexists|done]). split; [done|].
  clear Hr. intros es. revert s Hw Hs. induction es as [|e es IH]; intros s Hw Hs s'; cbn [run]; [by intros [= <-]|].
  destruct (exec e s) as [s1|] eqn:He; [|done]. cbn [mbind option_bind]. apply IH; [by eapply exec_well|by eapply embraced_stays].
Qed.
End RunQueueProps.

(** ** Shootdowns *)

Module ShootdownProps.
Import Shootdown.

Definition quiet (s : Translations) : Prop := pending s = ∅ ∧ ∀ i h, handlers s !! i = Some h → h = Away.
(** The CPU has dealt with its interrupt. *)
Definition finished (s : Translations) (i : nat) : bool :=
  bool_decide (i ∉ pending s) && match handlers s !! i with Some Away => true | _ => false end.
Definition acknowledged (s : Translations) (sent : list nat) : nat := length (filter (finished s) sent).
Definition handler_ok (v n : Z) (fl : gset nat) (i : nat) (h : Handler) : Prop :=
  match h with Away => True | Start v' => v' = v | Range v' n' => v' = v ∧ n' = n | Done => i ∈ fl end.
(** The interrupts of a shootdown of [n] pages at [v] went to the CPUs [sent]. *)
Record active (v n : Z) (sent : list nat) (s : Translations) : Prop := {
  a_start : start_virt (request s) = v;
  a_pages : pages (request s) = n;
  a_nodup : NoDup sent;
  a_small : length sent ≤ RunQueues.MAX_CPUS;
  a_acks : acks_received (request s) = Z.of_nat (acknowledged s sent);
  a_pending i : i ∈ pending s → i ∈ sent;
  a_handlers i h : handlers s !! i = Some h → h ≠ Away → i ∈ sent ∧ (i ∉ pending s) ∧ handler_ok v n (flushed s) i h;
  a_flushed i : i ∈ sent → finished s i = true → i ∈ flushed s;
}.
Definition phase_inv (s : Translations) (c : nat) (ph : Phase) : Prop :=
  match ph with
  | Idle | TakeLock _ _ => True
  | FlushLocal _ _ => quiet s
  | CountTargets _ _ => quiet s ∧ c ∈ flushed s
  | StoreStart v n t => quiet s ∧ c ∈ flushed s ∧ t = targets_of c s
  | StorePages v n t => quiet s ∧ c ∈ flushed s ∧ t = targets_of c s ∧ start_virt (request s) = v
  | StoreAcks v n t => quiet s ∧ c ∈ flushed s ∧ t = targets_of c s ∧ start_virt (request s) = v ∧ pages (request s) = n
  | StoreProgress v n t => quiet s ∧ c ∈ flushed s ∧ t = targets_of c s ∧ start_virt (request s) = v ∧ pages (request s) = n ∧ acks_received (request s) = 0%Z
  | Send v n t todo => c ∈ flushed s ∧ t = targets_of c s ∧ ∃ sent, t = sent ++ todo ∧ active v n sent s
  | WaitAcks v n t => c ∈ flushed s ∧ t = targets_of c s ∧ active v n t s
  | Finish v n t => c ∈ flushed s ∧ t = targets_of c s ∧ quiet s ∧ ∀ i, i ∈ t → i ∈ flushed s
  end.
Record inv (s : Translations) : Prop := {
  i_phases : length (phases s) = RunQueues.MAX_CPUS;
  i_handlers : length (handlers s) = RunQueues.MAX_CPUS;
  i_holder c ph : phases s !! c = Some ph → is_Some (range_of ph) → holder s = Some c;
  i_phase c : holder s = Some c → ∃ ph, phases s !! c = Some ph ∧ is_Some (range_of ph) ∧ phase_inv s c ph;
  i_quiet : holder s = None → quiet s;
  i_away c ph : phases s !! c = Some ph → ph ≠ Idle → handlers s !! c = Some Away;
}.

Lemma targets_spec c s i : i ∈ targets_of c s ↔ online s !! i = Some true ∧ i ≠ c ∧ i < RunQueues.MAX_CPUS.
Proof. unfold targets_of. rewrite list_elem_of_filter, elem_of_seq. split; [intros [[? ?] ?]|intros (? & ? & ?)]; split_and?; done || lia. Qed.
Lemma targets_nodup c s : NoDup (targets_of c s).
Proof. apply NoDup_filter, NoDup_seq. Qed.
Lemma targets_small c s : length (targets_of c s) ≤ RunQueues.MAX_CPUS.
Proof. unfold targets_of. etrans; [apply length_filter|]. by rewrite length_seq. Qed.

(** Counting the acknowledgements. *)
Lemma acknowledged_same s s' sent : (∀ i, i ∈ sent → finished s' i = finished s i) → acknowledged s' sent = acknowledged s sent.
Proof.
  unfold acknowledged. induction sent as [|i sent IH]; intros H; [done|]. rewrite !filter_cons, (H i) by left.
  specialize (IH (λ j Hj, H j (list_elem_of_further _ _ _ Hj))). destruct (decide (finished s i)); cbn [length]; lia.
Qed.
Lemma acknowledged_more s s' sent i : NoDup sent → i ∈ sent → finished s i = false → finished s' i = true →
  (∀ j, j ∈ sent → j ≠ i → finished s' j = finished s j) → acknowledged s' sent = S (acknowledged s sent).
Proof.
  intros Hn Hi Hf Hf' Ho. apply list_elem_of_split in Hi as (l & k & ->). apply NoDup_app in Hn as (_ & Hl & [Hk _]%NoDup_cons).
  pose proof (acknowledged_same s s' l ltac:(intros j Hj; apply Ho; [set_solver|intros ->; apply (Hl i Hj); left])) as E1.
  pose proof (acknowledged_same s s' k ltac:(intros j Hj; apply Ho; [set_solver|by intros ->])) as E2.
  unfold acknowledged in *. rewrite !filter_app, !filter_cons, Hf, Hf', decide_True by done. rewrite decide_False by auto. rewrite !length_app. cbn [length]. lia.
Qed.
Lemma acknowledged_all s sent : length sent ≤ acknowledged s sent → ∀ i, i ∈ sent → finished s i = true.
Proof.
  unfold acknowledged. induction sent as [|j sent IH]; intros H i Hi; [by apply elem_of_nil in Hi|]. rewrite filter_cons in H.
  pose proof (length_filter (finished s) sent). destruct (decide (finished s j)) as [E|E]; cbn [length] in H; [|lia].
  apply elem_of_cons in Hi as [->|Hi]; [by apply Is_true_eq_true|]. apply IH; [lia|done].
Qed.

Lemma finished_true s i : finished s i = true ↔ (i ∉ pending s) ∧ handlers s !! i = Some Away.
Proof.
  unfold finished. rewrite andb_true_iff, bool_decide_eq_true. destruct (handlers s !! i) as [[]|]; split; intros [? ?]; split; done.
Qed.
Lemma finished_ext s s' i : (i ∈ pending s' ↔ i ∈ pending s) → (handlers s' !! i = Some Away ↔ handlers s !! i = Some Away) → finished s' i = finished s i.
Proof. intros Hp Hh. apply eq_true_iff_eq. rewrite !finished_true. tauto. Qed.
Lemma active_ext v n sent s s' : request s' = request s → pending s' = pending s → handlers s' = handlers s → flushed s' = flushed s →
  active v n sent s → active v n sent s'.
Proof.
  intros E1 E2 E3 E4 [A1 A2 A3 A4 A5 A6 A7 A8].
  assert (∀ i, finished s' i = finished s i) as Hf by (intros i; apply finished_ext; by rewrite ?E2, ?E3).
  split; rewrite ?E1, ?E2, ?E3, ?E4; try done.
  - rewrite A5. f_equal. symmetry. by apply acknowledged_same.
  - intros i Hi Hfi. rewrite Hf in Hfi. by apply A8.
Qed.

(** An interrupt is sent, taken, and dealt with. *)
Lemma active_send v n sent i s : active v n sent s → i ∉ sent → length (sent ++ [i]) ≤ RunQueues.MAX_CPUS → active v n (sent ++ [i]) (with_pending ({[i]} ∪ pending s) s).
Proof.
  intros [A1 A2 A3 A4 A5 A6 A7 A8] Hi Hlen. set (s' := with_pending _ s).
  assert (∀ j, j ≠ i → finished s' j = finished s j) as Hf by (intros j Hj; apply finished_ext; [cbn [pending s' with_pending]; set_solver|done]).
  assert (finished s' i = false) as Hfi by (apply not_true_is_false; rewrite finished_true; cbn [pending s' with_pending]; set_solver).
  split; cbn [request pending handlers flushed s' with_pending]; try done.
  - apply NoDup_app. split; [done|]. split; [set_solver|]. apply NoDup_singleton.
  - rewrite A5. f_equal. unfold acknowledged. rewrite filter_app, filter_cons, Hfi, decide_False by auto. rewrite filter_nil, app_nil_r.
    symmetry. apply acknowledged_same. intros j Hj. apply Hf. by intros ->.
  - set_solver.
  - intros j h Hj Hh. destruct (A7 j h Hj Hh) as (H1 & H2 & H3). split; [set_solver|]. split; [|done]. set_solver.
  - intros j Hj Hfj. destruct (decide (j = i)) as [->|Hne]; [congruence|]. apply A8; [set_solver|]. by rewrite <- Hf.
Qed.
Lemma handlers_handle i h s j : handlers s !! i <> None → handlers (handle i h s) !! j = if decide (j = i) then Some h else handlers s !! j.
Proof.
  intros Hi. cbn [handlers handle]. case_decide as Hji; [subst j|]; [|by apply list_lookup_insert_ne].
  apply list_lookup_insert_eq. destruct (handlers s !! i) eqn:E; [|done]. by apply lookup_lt_Some in E.
Qed.
Lemma active_interrupt v n sent s i : active v n sent s → i ∈ pending s → handlers s !! i = Some Away →
  active v n sent (handle i (Start (start_virt (request s))) (with_pending (pending s ∖ {[i]}) s)).
Proof.
  intros [A1 A2 A3 A4 A5 A6 A7 A8] Hp Hi. set (s' := handle _ _ _).
  assert (∀ j, handlers s' !! j = if decide (j = i) then Some (Start (start_virt (request s))) else handlers s !! j) as Hh by (intros j; unfold s'; rewrite handlers_handle by (cbn; by rewrite Hi); done).
  assert (∀ j, finished s' j = finished s j) as Hf.
  { intros j. destruct (decide (j = i)) as [->|Hne].
    - apply eq_true_iff_eq. rewrite !finished_true, Hh, decide_True by done. split; [by intros [_ ?]|by intros [? _]].
    - apply finished_ext; [cbn [pending s' handle with_pending]; set_solver|]. by rewrite Hh, decide_False. }
  split; cbn [request pending flushed s' handle with_pending]; try done.
  - rewrite A5. f_equal. symmetry. by apply acknowledged_same.
  - intros j Hj. apply A6. set_solver.
  - intros j h Hj Hne. fold s' in Hj. rewrite Hh in Hj. case_decide as Hji.
    + subst j. injection Hj as <-. split; [by apply A6|]. split; [set_solver|done].
    + destruct (A7 j h Hj Hne) as (H1 & H2 & H3). split; [done|]. split; [set_solver|done].
  - intros j Hj Hfj. apply A8; [done|]. by rewrite <- Hf.
Qed.
Lemma active_handler v n sent s i h s' : active v n sent s → wanted s = Some (v, n) → handlers s !! i = Some h → handler_step i h s = Some s' → active v n sent s'.
Proof.
  intros Ha Hw Hi Hs. pose proof Ha as [A1 A2 A3 A4 A5 A6 A7 A8]. destruct h as [|v'|v' n'|]; cbn [handler_step] in Hs; [done|..]; injection Hs as <-;
    destruct (A7 i _ Hi ltac:(done)) as (Hin & Hnp & Hok); cbn [handler_ok] in Hok.
  - subst v'. set (s' := handle _ _ _).
    assert (∀ j, handlers s' !! j = if decide (j = i) then Some (Range v (pages (request s))) else handlers s !! j) as Hh by (intros j; apply handlers_handle; by rewrite Hi).
    assert (∀ j, finished s' j = finished s j) as Hf.
    { intros j. apply finished_ext; [done|]. rewrite Hh. case_decide as Hji; [subst j; by rewrite Hi|done]. }
    split; cbn [request pending flushed s' handle]; try done.
    + rewrite A5. f_equal. symmetry. by apply acknowledged_same.
    + intros j h Hj Hne. fold s' in Hj. rewrite Hh in Hj. case_decide as Hji; [subst j; by injection Hj as <-|by apply A7].
    + intros j Hj Hfj. apply A8; [done|]. by rewrite <- Hf.
  - destruct Hok as [-> ->]. set (s' := handle _ _ _). assert (flushed s' = {[i]} ∪ flushed s) as Hfl.
    { cbn [s' handle flush with_holder flushed]. unfold covers. by rewrite Hw, bool_decide_true, orb_true_r. }
    assert (∀ j, handlers s' !! j = if decide (j = i) then Some Done else handlers s !! j) as Hh by (intros j; unfold s'; rewrite handlers_handle by (cbn; by rewrite Hi); done).
    assert (∀ j, finished s' j = finished s j) as Hf.
    { intros j. apply finished_ext; [done|]. rewrite Hh. case_decide as Hji; [subst j; by rewrite Hi|done]. }
    split; rewrite ?Hfl; cbn [request pending s' handle flush with_holder]; try done.
    + rewrite A5. f_equal. symmetry. by apply acknowledged_same.
    + intros j h Hj Hne. fold (flush i v n s) in Hj. fold s' in Hj. rewrite Hh in Hj. case_decide as Hji.
      * subst j. injection Hj as <-. split; [done|]. split; [done|]. cbn. set_solver.
      * destruct (A7 j h Hj Hne) as (H1 & H2 & H3). split; [done|]. split; [done|]. destruct h; cbn in *; set_solver.
    + intros j Hj Hfj. rewrite Hf in Hfj. apply elem_of_union. right. by apply A8.
  - set (s' := handle _ _ _).
    assert (∀ j, handlers s' !! j = if decide (j = i) then Some Away else handlers s !! j) as Hh by (intros j; unfold s'; rewrite handlers_handle by (cbn; by rewrite Hi); done).
    assert (finished s i = false) as Hf0 by (apply not_true_is_false; rewrite finished_true, Hi; by intros [_ ?]).
    assert (finished s' i = true) as Hf1 by (apply finished_true; rewrite Hh, decide_True by done; done).
    assert (∀ j, j ≠ i → finished s' j = finished s j) as Hf by (intros j Hj; apply finished_ext; [done|]; by rewrite Hh, decide_False).
    pose proof (acknowledged_more s s' sent i A3 Hin Hf0 Hf1 (λ j _, Hf j)) as Hmore.
    split; cbn [request pending flushed s' handle with_request start_virt pages acks_received]; try done.
    + fold s'. rewrite Hmore, A5. unfold wrap. rewrite Z.mod_small; [lia|]. pose proof (length_filter (finished s) sent). unfold acknowledged, RunQueues.MAX_CPUS in *. change (2 ^ 64)%Z with 18446744073709551616%Z. lia.
    + intros j h Hj Hne. fold s' in Hj. rewrite Hh in Hj. case_decide as Hji; [by injection Hj as <-|by apply A7].
    + intros j Hj Hfj. destruct (decide (j = i)) as [->|Hne]; [done|]. apply A8; [done|]. by rewrite <- Hf.
Qed.

Lemma quiet_ext s s' : pending s' = pending s → handlers s' = handlers s → quiet s → quiet s'.
Proof. unfold quiet. by intros -> ->. Qed.
Lemma phase_inv_ext c ph s s' : online s' = online s → request s' = request s → pending s' = pending s → handlers s' = handlers s → flushed s' = flushed s →
  phase_inv s c ph → phase_inv s' c ph.
Proof.
  intros E0 E1 E2 E3 E4. assert (targets_of c s' = targets_of c s) as Et by (unfold targets_of; by rewrite E0).
  destruct ph; cbn [phase_inv]; rewrite ?E1, ?E4, ?Et; try done; try (by apply quiet_ext).
  all: try (intros (H1 & H2); split; [by apply (quiet_ext s)|done]).
  - intros (H1 & H2 & sent & H3 & H4). split; [done|]. split; [done|]. exists sent. split; [done|]. by apply (active_ext _ _ _ s).
  - intros (H1 & H2 & H3). split; [done|]. split; [done|]. by apply (active_ext _ _ _ s).
  - intros (H1 & H2 & H3 & H4). split; [done|]. split; [done|]. split; [by apply (quiet_ext s)|done].
Qed.

Lemma inv_move c ph ph' s s1 : inv s → phases s !! c = Some ph → phases s1 = phases s → handlers s1 = handlers s → handlers s !! c = Some Away →
  holder s = Some c ∨ holder s = None →
  match range_of ph' with Some _ => holder s1 = Some c ∧ phase_inv s1 c ph' | None => holder s1 = None ∧ quiet s1 end →
  inv (to c ph' s1).
Proof.
  intros [I1 I2 I3 I4 I5 I6] Hc Ep Eh Ha Hh Hnew. assert (c < length (phases s)) as Hlt by (by apply lookup_lt_Some in Hc).
  split; cbn [phases handlers holder to]; rewrite ?Ep, ?Eh; try done.
  - by rewrite length_insert.
  - intros d ph0 [(<- & <- & _)|[Hne Hd]]%list_lookup_insert_Some Hr.
    + destruct Hr as [r Hr]. rewrite Hr in Hnew. by destruct Hnew.
    + pose proof (I3 d ph0 Hd Hr) as Hd'. destruct Hh as [Hh|Hh]; rewrite Hh in Hd'; [by injection Hd' as ->|done].
  - intros d Hd. destruct (range_of ph') as [r|] eqn:Hr; [|destruct Hnew as [Hn _]; congruence]. destruct Hnew as [Hn Hinv].
    rewrite Hn in Hd. injection Hd as <-. exists ph'. rewrite list_lookup_insert_eq by done. split; [done|]. split; [by rewrite Hr|]. by apply (phase_inv_ext _ _ s1).
  - intros Hn. destruct (range_of ph'); [destruct Hnew as [Hn' _]; congruence|]. by apply (quiet_ext s1); destruct Hnew.
  - intros d ph0 [(<- & <- & _)|[Hne Hd]]%list_lookup_insert_Some Hi; [done|by apply (I6 d ph0)].
Qed.

(** Nothing happens between CPUs but while interrupts are on their way. *)
Lemma only_while_waiting s i h : inv s → i ∈ pending s ∨ (handlers s !! i = Some h ∧ h ≠ Away) →
  ∃ c ph v n sent, holder s = Some c ∧ phases s !! c = Some ph ∧ wanted s = Some (v, n) ∧ active v n sent s ∧ i ≠ c ∧
    ∀ s', online s' = online s → holder s' = holder s → phases s' = phases s → (∀ j, j ∈ flushed s → j ∈ flushed s') → active v n sent s' → phase_inv s' c ph.
Proof.
  intros Hinv Hi. assert (¬ quiet s) as Hnq by (intros [Hq1 Hq2]; destruct Hi as [Hi|[Hi Hne]]; [rewrite Hq1 in Hi; by apply elem_of_empty in Hi|by apply Hne, (Hq2 i)]).
  destruct (holder s) as [c|] eqn:Hh; [|by destruct (Hnq (i_quiet _ Hinv Hh))]. destruct (i_phase _ Hinv c Hh) as (ph & Hph & Hr & Hpi).
  assert (∀ t v n sent, t = targets_of c s → active v n sent s → (∀ j, j ∈ sent → j ∈ t) → i ≠ c) as Hne.
  { intros t v n sent -> Ha Hsub ->. assert (c ∈ targets_of c s) as Hin; [|apply targets_spec in Hin as (_ & ? & _); done].
    apply Hsub. destruct Hi as [Hi|[Hi Hne]]; [by apply (a_pending _ _ _ _ Ha)|by apply (a_handlers _ _ _ _ Ha c h)]. }
  assert (∀ s', online s' = online s → targets_of c s' = targets_of c s) as Ht by (intros s' E; unfold targets_of; by rewrite E).
  destruct ph; cbn [range_of phase_inv] in *; try (by destruct Hr); try (by destruct Hnq; destruct_and? || done); try (by destruct Hnq; destruct Hpi).
  - destruct Hpi as (Hf & -> & sent & Ht0 & Ha). exists c, (Send v n (targets_of c s) todo), v, n, sent. split; [done|]. split; [done|]. split; [unfold wanted; rewrite Hh; cbn; by rewrite Hph|].
    split; [done|]. split; [apply (Hne _ _ _ _ eq_refl Ha); intros j Hj; rewrite Ht0; set_solver|].
    intros s' E1 E2 E3 E4 Ha'. cbn [phase_inv]. rewrite (Ht s' E1). split; [by apply E4|]. split; [done|]. by exists sent.
  - destruct Hpi as (Hf & -> & Ha). exists c, (WaitAcks v n (targets_of c s)), v, n, (targets_of c s). split; [done|]. split; [done|]. split; [unfold wanted; rewrite Hh; cbn; by rewrite Hph|].
    split; [done|]. split; [by apply (Hne _ _ _ _ eq_refl Ha)|]. intros s' E1 E2 E3 E4 Ha'. cbn [phase_inv]. rewrite (Ht s' E1). split; [by apply E4|]. done.
Qed.

Lemma go_inv c ph s s' : inv s → phases s !! c = Some ph → shootdown_step false c ph s = Some s' → inv s'.
Proof.
  intros Hinv Hph Hs. assert (ph ≠ Idle → handlers s !! c = Some Away) as Haway by (intros H; by apply (i_away _ Hinv c ph)).
  assert (is_Some (range_of ph) → holder s = Some c ∧ phase_inv s c ph) as Hown.
  { intros Hr. pose proof (i_holder _ Hinv c ph Hph Hr) as Hh. split; [done|]. destruct (i_phase _ Hinv c Hh) as (ph0 & E & _ & Hp). rewrite Hph in E. by injection E as ->. }
  destruct ph as [|v n|v n|v n|v n t|v n t|v n t|v n t|v n t [|i todo]|v n t|v n t]; cbn [shootdown_step] in Hs; [done|..];
    specialize (Haway ltac:(done)); try (destruct (Hown ltac:(by eexists)) as [Hh Hp]; cbn [phase_inv] in Hp); clear Hown.
  - destruct (holder s) eqn:Hh; [done|]. injection Hs as <-. eapply inv_move; [done|done|done|done|done|by right|]. cbn [range_of holder with_holder]. split; [done|].
    cbn [phase_inv]. by apply (quiet_ext s), (i_quiet _ Hinv).
  - injection Hs as <-. eapply inv_move; [done|done|done|done|done|by left|]. cbn [range_of]. split; [done|]. split; [by apply (quiet_ext s)|].
    assert (covers v n s = true) as Hc by (unfold covers, wanted; rewrite Hh; cbn; rewrite Hph; cbn; by rewrite bool_decide_true, orb_true_r).
    unfold flush. rewrite Hc. cbn [flushed with_holder]. set_solver.
  - destruct Hp as [Hq Hf]. destruct (targets_of c s) as [|i t] eqn:Ht; injection Hs as <-.
    + eapply inv_move; [done|done|done|done|done|by left|]. cbn [range_of]. split; [done|]. by apply (quiet_ext s).
    + eapply inv_move; [done|done|done|done|done|by left|]. cbn [range_of phase_inv]. rewrite Ht. done.
  - injection Hs as <-. destruct Hp as (Hq & Hf & Ht). eapply inv_move; [done|done|done|done|done|by left|]. cbn [range_of]. split; [done|]. cbn [phase_inv].
    split; [by apply (quiet_ext s)|]. done.
  - injection Hs as <-. destruct Hp as (Hq & Hf & Ht & H1). eapply inv_move; [done|done|done|done|done|by left|]. cbn [range_of]. split; [done|]. cbn [phase_inv].
    split; [by apply (quiet_ext s)|]. done.
  - injection Hs as <-. destruct Hp as (Hq & Hf & Ht & H1 & H2). eapply inv_move; [done|done|done|done|done|by left|]. cbn [range_of]. split; [done|]. cbn [phase_inv].
    split; [by apply (quiet_ext s)|]. done.
  - injection Hs as <-. destruct Hp as ([Hq1 Hq2] & Hf & Ht & H1 & H2 & H3). eapply inv_move; [done|done|done|done|done|by left|]. cbn [range_of]. split; [done|]. cbn [phase_inv].
    split; [done|]. split; [done|]. exists []. split; [done|]. split; cbn [request with_request start_virt pages acks_received pending handlers]; try done.
    + constructor.
    + cbn. lia.
    + rewrite Hq1. set_solver.
    + intros i h Hi Hne. by destruct Hne; apply (Hq2 i).
    + set_solver.
  - injection Hs as <-. destruct Hp as (Hf & Ht & sent & Hts & Ha). eapply inv_move; [done|done|done|done|done|by left|]. cbn [range_of]. split; [done|]. cbn [phase_inv].
    split; [done|]. split; [done|]. rewrite app_nil_r in Hts. by subst sent.
  - injection Hs as <-. destruct Hp as (Hf & Ht & sent & Hts & Ha). eapply inv_move; [done|done|done|done|done|by left|]. cbn [range_of]. split; [done|]. cbn [phase_inv].
    split; [done|]. split; [done|]. exists (sent ++ [i]). rewrite <- app_assoc. split; [done|].
    pose proof (targets_nodup c s) as Hn. pose proof (targets_small c s) as Hl. rewrite <- Ht, Hts in Hn, Hl. apply active_send; [done| |].
    + apply NoDup_app in Hn as (_ & Hn & _). intros Hi. apply (Hn i Hi). left.
    + rewrite !length_app in *. cbn in *. lia.
  - cbn [orb] in Hs. destruct (Z.of_nat (length t) <=? acks_received (request s))%Z eqn:Hle; [|done]. reflect. injection Hs as <-. destruct Hp as (Hf & Ht & Ha).
    rewrite (a_acks _ _ _ _ Ha) in Hle. pose proof (acknowledged_all s t ltac:(lia)) as Hall.
    eapply inv_move; [done|done|done|done|done|by left|]. cbn [range_of]. split; [done|]. cbn [phase_inv]. split; [done|]. split; [done|]. split; [split|].
    + apply set_eq. intros i. split; [|by intros ?%elem_of_empty]. intros Hi. exfalso. pose proof (Hall i (a_pending _ _ _ _ Ha i Hi)) as Hfi. by apply finished_true in Hfi as [? _].
    + intros i h Hi. destruct (decide (h = Away)) as [|Hne]; [done|]. destruct (a_handlers _ _ _ _ Ha i h Hi Hne) as (Hin & _). pose proof (Hall i Hin) as Hfi. apply finished_true in Hfi as [_ E]. congruence.
    + intros i Hi. apply (a_flushed _ _ _ _ Ha); [done|by apply Hall].
  - injection Hs as <-. destruct Hp as (_ & _ & Hq & _). eapply inv_move; [done|done|done|done|done|by left|]. cbn [range_of]. split; [done|]. by apply (quiet_ext s).
Qed.

(** What happens at CPU [i] while another one waits for it. *)
Lemma at_peer_inv s s' c ph i h : inv s → holder s = Some c → phases s !! c = Some ph → phase_inv s' c ph →
  online s' = online s → holder s' = holder s → phases s' = phases s → handlers s' = <[i := h]> (handlers s) →
  phases s !! i = Some Idle → inv s'.
Proof.
  intros [I1 I2 I3 I4 I5 I6] Hc Hph Hpi E1 E2 E3 E4 Hi. split; rewrite ?E2, ?E3, ?E4, ?length_insert; try done.
  - intros d Hd. rewrite Hc in Hd. injection Hd as <-. destruct (I4 c Hc) as (ph0 & E & Hr & _). rewrite Hph in E. injection E as <-. by exists ph.
  - rewrite Hc. done.
  - intros d ph0 Hd Hne. rewrite list_lookup_insert_ne; [by apply (I6 d ph0)|]. intros ->. rewrite Hi in Hd. by injection Hd as <-.
Qed.
Lemma same_inv s s' : inv s → online s' = online s → request s' = request s → holder s' = holder s → phases s' = phases s → handlers s' = handlers s →
  pending s' = pending s → flushed s' = flushed s → inv s'.
Proof.
  intros [I1 I2 I3 I4 I5 I6] E1 E2 E3 E4 E5 E6 E7. split; rewrite ?E3, ?E4, ?E5; try done.
  - intros c Hc. destruct (I4 c Hc) as (ph & Hph & Hr & Hp). exists ph. split; [done|]. split; [done|]. by apply (phase_inv_ext _ _ s).
  - intros Hc. by apply (quiet_ext s), I5.
Qed.
Lemma exec_inv e s s' : inv s → (∀ c, e ≠ GiveUp c) → exec e s = Some s' → inv s'.
Proof.
  intros Hinv Hng. pose proof (λ i h, only_while_waiting s i h Hinv) as Hw. destruct e as [c v n|c|c|i|i|i|i]; cbn [exec]; intros He.
  - destruct (phases s !! c) as [[]|] eqn:Hph; try done. destruct (handlers s !! c) as [[]|] eqn:Ha; try done. case_bool_decide; [|done]. injection He as <-.
    pose proof Hinv as [I1 I2 I3 I4 I5 I6]. assert (c < length (phases s)) as Hlt by (by apply lookup_lt_Some in Hph).
    split; cbn [phases handlers holder to]; try done.
    + by rewrite length_insert.
    + intros d ph [(<- & <- & _)|[Hne Hd]]%list_lookup_insert_Some Hr; [by destruct Hr|by apply (I3 d ph)].
    + intros d Hd. destruct (I4 d Hd) as (ph & Hp & Hr & Hpi). exists ph. destruct (decide (d = c)) as [->|Hne]; [rewrite Hph in Hp; injection Hp as <-; by destruct Hr|].
      rewrite list_lookup_insert_ne by done. split; [done|]. split; [done|]. by apply (phase_inv_ext _ _ s).
    + intros d ph [(<- & <- & _)|[Hne Hd]]%list_lookup_insert_Some Hi; [done|by apply (I6 d ph)].
  - destruct (phases s !! c) as [ph|] eqn:Hph; [|done]. cbn [mbind option_bind] in He. by apply (go_inv c ph s).
  - by destruct (Hng c).
  - destruct (phases s !! i) as [[]|] eqn:Hph; try done. destruct (handlers s !! i) as [[]|] eqn:Ha; try done. case_bool_decide as Hp; [|done]. destruct Hp as [Hp _]. injection He as <-.
    destruct (Hw i Away (or_introl Hp)) as (c & ph & v & n & sent & Hc & Hph' & Hwant & Hact & Hne & Hpi).
    eapply (at_peer_inv s _ c ph i (Start (start_virt (request s)))); try done. apply Hpi; [done|done|done|done|]. by apply active_interrupt.
  - destruct (handlers s !! i) as [h|] eqn:Ha; [|done]. cbn [mbind option_bind] in He. assert (h ≠ Away) as Hh by (by intros ->).
    destruct (Hw i h (or_intror (conj Ha Hh))) as (c & ph & v & n & sent & Hc & Hph' & Hwant & Hact & Hne & Hpi).
    pose proof (active_handler v n sent s i h s' Hact Hwant Ha He) as Hact'.
    assert (phases s !! i = Some Idle) as Hidle.
    { assert (i < length (phases s)) as Hlt by (apply lookup_lt_Some in Ha; rewrite (i_handlers _ Hinv) in Ha; by rewrite (i_phases _ Hinv)).
      destruct (lookup_lt_is_Some_2 _ _ Hlt) as [ph0 E]. destruct (decide (ph0 = Idle)) as [->|Hn]; [done|]. rewrite (i_away _ Hinv i ph0 E Hn) in Ha. injection Ha as <-. done. }
    destruct h as [|v'|v' n'|]; cbn [handler_step] in He; [done|..]; injection He as <-.
    + eapply (at_peer_inv s _ c ph i); try done. by apply Hpi.
    + eapply (at_peer_inv s _ c ph i); try done. apply Hpi; try done. intros j Hj. cbn [handle flush with_holder flushed]. destruct (covers v' n' s); set_solver.
    + eapply (at_peer_inv s _ c ph i); try done. by apply Hpi.
  - injection He as <-. by apply (same_inv s).
  - injection He as <-. by apply (same_inv s).
Qed.
Lemma boot_inv up : inv (boot up).
Proof.
  assert (∀ c ph, phases (boot up) !! c = Some ph → ph = Idle) as Hi by (intros c ph [-> _]%lookup_replicate_1; done).
  assert (∀ c h, handlers (boot up) !! c = Some h → h = Away) as Hh by (intros c h [-> _]%lookup_replicate_1; done).
  split; try done; [intros c ph ->%Hi Hr; by destruct Hr|intros c ph ->%Hi; done].
Qed.
Lemma exec_online e s s' : exec e s = Some s' → online s' = online s.
Proof.
  destruct e as [c v n|c|c|i|i|i|i]; cbn [exec].
  - destruct (phases s !! c) as [[]|]; try done. destruct (handlers s !! c) as [[]|]; try done. case_bool_decide; [|done]. by intros [= <-].
  - destruct (phases s !! c) as [ph|]; [|done]. destruct ph as [|v n|v n|v n|v n t|v n t|v n t|v n t|v n t [|i todo]|v n t|v n t]; cbn [mbind option_bind shootdown_step orb]; try done; try (by intros [= <-]).
    + destruct (holder s); [done|]. by intros [= <-].
    + destruct (targets_of c s); by intros [= <-].
    + destruct (_ <=? _)%Z; [|done]. by intros [= <-].
  - destruct (phases s !! c) as [[]|]; try done. by intros [= <-].
  - destruct (phases s !! i) as [[]|]; try done. destruct (handlers s !! i) as [[]|]; try done. case_bool_decide; [|done]. by intros [= <-].
  - destruct (handlers s !! i) as [[]|]; try done; by intros [= <-].
  - by intros [= <-].
  - by intros [= <-].
Qed.


(** ** Giving up *)

(** CPU 0 waits for CPU 1, which waits with interrupts off for the lock of CPU 0. *)
Definition both : list Event := [Begin 0 4096 1; Go 0; Begin 1 8192 1] ++ replicate 8 (Go 0).
Definition entangled (s : Translations) : Prop :=
  phases s !! 0 = Some (WaitAcks 4096 1 [1]) ∧ (∃ v n, phases s !! 1 = Some (TakeLock v n)) ∧ holder s = Some 0 ∧
  pending s = {[1]} ∧ acks_received (request s) = 0%Z ∧ online s = [true; true] ∧ (∀ i h, handlers s !! i = Some h → h = Away) ∧
  (∀ i ph, phases s !! i = Some ph → i ≠ 0 → i ≠ 1 → ph = Idle).
Lemma entangled_stays e s s' : entangled s → e ≠ GiveUp 0 → exec e s = Some s' → entangled s'.
Proof.
  intros (P0 & (v1 & n1 & P1) & Hh & Hp & Ha & Ho & Hhs & Hi) Hne. destruct e as [c v n|c|c|i|i|i|i]; cbn [exec]; intros He.
  - destruct (phases s !! c) as [[]|] eqn:Hc; try done. destruct (handlers s !! c) as [[]|]; try done. case_bool_decide as Hup; [|done].
    exfalso. rewrite Ho in Hup. destruct c as [|[|c]]; [congruence|congruence|done].
  - destruct (phases s !! c) as [ph|] eqn:Hc; [|done]. cbn [mbind option_bind] in He. destruct (decide (c = 0)) as [->|]; [|destruct (decide (c = 1)) as [->|]].
    + rewrite P0 in Hc. injection Hc as <-. cbn in He. by rewrite Ha in He.
    + rewrite P1 in Hc. injection Hc as <-. cbn in He. by rewrite Hh in He.
    + by rewrite (Hi c ph Hc) in He.
  - destruct (phases s !! c) as [ph|] eqn:Hc; [|done]. cbn [mbind option_bind] in He. destruct (decide (c = 0)) as [->|]; [done|destruct (decide (c = 1)) as [->|]].
    + rewrite P1 in Hc. by injection Hc as <-.
    + by rewrite (Hi c ph Hc) in He.
  - destruct (phases s !! i) as [[]|] eqn:Hc; try done. destruct (handlers s !! i) as [[]|]; try done. case_bool_decide as Hpi; [|done]. destruct Hpi as [Hpi _]. rewrite Hp in Hpi.
    apply elem_of_singleton in Hpi as ->. congruence.
  - destruct (handlers s !! i) as [h|] eqn:Hc; [|done]. by rewrite (Hhs i h Hc) in He.
  - injection He as <-. split; [done|]. split; [by exists v1, n1|done].
  - injection He as <-. split; [done|]. split; [by exists v1, n1|done].
Qed.

(** Two CPUs that want a shootdown at the same time: the one that has the lock
    cannot be answered by the one that waits for it with interrupts off.  It can
    only give up, and the other one has then forgotten nothing. *)
Theorem concurrent_shootdowns_time_out : ∃ s, run both (boot [true; true]) = Some s ∧ entangled s ∧
  (∀ es s', GiveUp 0 ∉ es → run es s = Some s' → entangled s') ∧
  ∃ s', exec (GiveUp 0) s = Some s' ∧ phases s' !! 0 = Some (Finish 4096 1 [1]) ∧ 1 ∉ flushed s'.
Proof.
  destruct (run both (boot [true; true])) as [s|] eqn:Hr; [|by vm_compute in Hr]. exists s. split; [done|].
  assert (entangled s) as Hs.
  { vm_compute in Hr. injection Hr as <-. repeat split; try (vm_compute; reflexivity); [by do 2 eexists|..].
    - intros i h Hi. do 8 (destruct i as [|i]; [by injection Hi as <-|]). done.
    - intros i ph Hi H0 H1. do 8 (destruct i as [|i]; [by injection Hi as <-|]). done. }
  split; [done|]. split.
  - intros es. clear Hr. revert s Hs. induction es as [|e es IH]; intros s Hs s' Hng; cbn [run]; [by intros [= <-]|].
    destruct (exec e s) as [s1|] eqn:He; [|done]. cbn [mbind option_bind]. apply not_elem_of_cons in Hng as [Hne Hng]. apply IH; [|done]. eapply entangled_stays; [done|by apply not_eq_sym|done].
  - vm_compute in Hr. injection Hr as <-. eexists. split; [reflexivity|]. split; [done|]. by vm_compute.
Qed.

(** After a shootdown was given up, an acknowledgement that comes late counts for
    the next one, which ends although nothing of its range was forgotten. *)
Definition late_answer : list Event :=
  [Mask 1; Begin 0 4096 1] ++ replicate 9 (Go 0) ++ [GiveUp 0; Go 0; Unmask 1; Interrupt 1; Handle 1; Begin 0 8192 1] ++ replicate 9 (Go 0) ++ [Handle 1; Handle 1; Go 0].
Theorem late_answer_hazard : ∃ s, run late_answer (boot [true; true]) = Some s ∧ phases s !! 0 = Some (Finish 8192 1 [1]) ∧ 1 ∉ flushed s.
Proof. eexists. split; [vm_compute; reflexivity|]. split; [done|]. by vm_compute. Qed.

Definition answered : list Event := [Begin 0 4096 1] ++ replicate 9 (Go 0) ++ [Interrupt 1; Handle 1; Handle 1; Handle 1; Go 0].
End ShootdownProps.
