(* ===== verification/Acpi.v ===== *)
(** * Firmware tables (kernel/src/acpi.rs, and the parts of kernel/src/smp.rs and kernel/src/iommu.rs that use them)

    The search for the tables in memory, the CPUs that they list and the
    remapping units with the devices behind them.  Memory is a function from
    addresses, as the kernel sees them, to bytes.  Nothing that is read is
    outside of a table for remapping units; that of interrupt controllers is read
    beyond its end; the devices of a unit are read back with wrong numbers. *)
From S2P Require Import Prelude Bytes Text Smp.
Import RunQueues(MAX_CPUS).

Section acpi.
(** [memory::PHYS_OFFSET], set at boot. *)
Context (PHYS_OFFSET : Z) (mem : Z → Z).
(** [Err] is the [None] of an [Option]. *)
Let M := (comp unit unit).

(** [core::ptr::read_unaligned] of an [n]-byte integer *)
Definition rd (n : nat) (p : Z) : Z := from_le (map (λ i, mem (p + Z.of_nat i)) (seq 0 n)).
Definition run_of (n : nat) (p : Z) : bytes := map (λ i, mem (p + Z.of_nat i)) (seq 0 n).
(** kernel/src/acpi.rs:4-6 [phys_to_virt] *)
Definition phys_to_virt (phys : Z) : M Z := unwrap (fits 64 (phys + PHYS_OFFSET)).

Definition byte_sum (n : nat) (p : Z) : Z := foldl (λ s b, wrap 8 (s + b)) 0%Z (run_of n p).
(** kernel/src/acpi.rs:41-61 [Rsdp::verify_checksum] *)
Definition verify_rsdp (p : Z) : bool :=
  (byte_sum 20 p =? 0)%Z && (if (2 <=? mem (p + 15))%Z then (byte_sum 36 p =? 0)%Z else true).
(** kernel/src/acpi.rs:22-39 [Rsdp::find] *)
Definition rsdp_find : M Z :=
  start ← phys_to_virt 0xE0000;
  _ ← phys_to_virt 0xFFFFF;
  ok_or (List.find (λ p, bool_decide (run_of 8 p = str "RSD PTR ") && verify_rsdp p) (map (λ k, start + 16 * Z.of_nat k)%Z (seq 0 (Z.to_nat 8192)))) tt.

(** kernel/src/acpi.rs:65-75 [AcpiHeader] *)
Definition HEADER : Z := 36.
Definition table_length (p : Z) : Z := rd 4 (p + 4).
(** kernel/src/acpi.rs:78-85 [AcpiHeader::verify_checksum] *)
Definition verify_checksum (p : Z) : bool := (byte_sum (Z.to_nat (table_length p)) p =? 0)%Z.

(** The first entry of a root table with the signature [sig] —
    kernel/src/acpi.rs:156-162 [get_madt, search] *)
Fixpoint scan_tables (sig : bytes) (null_too : bool) (width : nat) (entries_start : Z) (ks : list nat) : M (option Z) :=
  match ks with
  | [] => mret None
  | i :: ks =>
      let entry_phys := rd width (entries_start + Z.of_nat (i * width)) in
      if negb null_too && (entry_phys =? 0)%Z then scan_tables sig null_too width entries_start ks
      else
        table ← phys_to_virt entry_phys;
        if verify_checksum table && bool_decide (run_of 4 table = sig) then mret (Some table)
        else scan_tables sig null_too width entries_start ks
  end.
Definition search (sig : bytes) (null_too : bool) (width : nat) (root : Z) : M (option Z) :=
  scan_tables sig null_too width (root + HEADER) (seq 0 (Z.to_nat (saturating_sub (table_length root) HEADER / Z.of_nat width))).

(** The search of [get_madt] and [get_fadt] — kernel/src/acpi.rs:138-165 [get_madt] *)
Definition get_table (sig : bytes) : M Z :=
  rsdp ← rsdp_find;
  let rsdt_phys := rd 4 (rsdp + 16) in
  reject_if (rsdt_phys =? 0)%Z tt;;
  rsdt ← phys_to_virt rsdt_phys;
  reject_if (negb (verify_checksum rsdt)) tt;;
  t ← search sig true 4 rsdt;
  ok_or t tt.
(** kernel/src/acpi.rs:88-92 [Madt] *)
Record Madt := mkMadt { header : Z; local_apic_addr : Z; madt_flags : Z }.
(** kernel/src/acpi.rs:95-105 [Madt::parse] *)
Definition madt_parse (p : Z) : Madt := mkMadt p (rd 4 (p + HEADER)) (rd 4 (p + HEADER + 4)).
(** kernel/src/acpi.rs:138-165 [get_madt] *)
Definition get_madt : M Madt := p ← get_table (str "APIC"); mret (madt_parse p).
(** kernel/src/acpi.rs:167-191 [get_fadt] *)
Definition get_fadt : M Z := get_table (str "FACP").

(** An entry: its type, and its data by place and length. *)
Record Entry := mkEntry { entry_type : Z; data : Z; data_len : Z }.
(** kernel/src/acpi.rs:114-124 [Madt::iterate_entries, loop] *)
Fixpoint entries_from (fuel : nat) (p offset end_ : Z) : option (list Entry) :=
  match fuel with
  | O => None
  | S fuel =>
      if (offset <? end_)%Z then
        let len := mem (p + offset + 1) in
        if (len <? 2)%Z then Some []
        else (λ es, mkEntry (mem (p + offset)) (p + offset + 2) (len - 2) :: es) <$> entries_from fuel p (offset + len) end_
      else Some []
  end.
(** kernel/src/acpi.rs:107-125 [Madt::iterate_entries] *)
Definition iterate_entries (m : Madt) : option (list Entry) :=
  let end_ := table_length (header m) in entries_from (S (Z.to_nat end_)) (header m) (HEADER + 8) end_.

(** ** CPUs *)

(** kernel/src/smp.rs:7-15 [PerCpuState] *)
Record PerCpuState := mkCpu {
  cpu_id : nat; apic_id : Z; is_bsp : bool; cpu_online : bool; long_mode_initialized : bool; current_pid : option Z; heartbeat : Z;
}.
(** kernel/src/smp.rs:18-28 [PerCpuState::empty] *)
Definition empty_state : PerCpuState := mkCpu 0 0 false false false None 0.
Record Discovery := mkDiscovery { cpu_count : nat; states : list PerCpuState; ap_list : list (nat * Z) }.
(** kernel/src/smp.rs:607-637 [init_smp, entry] *)
Definition discover_entry (bsp_apic_id : Z) (d : Discovery) (e : Entry) : Discovery :=
  if (entry_type e =? 0)%Z && (2 <=? data_len e)%Z then
    let id := mem (data e + 1) in
    if negb (Z.land (rd 4 (data e + 2)) 1 =? 0)%Z then
      let bsp := (id =? bsp_apic_id)%Z in
      let st := mkCpu (cpu_count d) id bsp bsp bsp None (if bsp then 1 else 0) in
      mkDiscovery (cpu_count d + 1) (if cpu_count d <? MAX_CPUS then <[cpu_count d := st]> (states d) else states d)
        (if bsp then ap_list d else ap_list d ++ [(cpu_count d, id)])
    else d
  else d.
Definition discover (bsp_apic_id : Z) (es : list Entry) : Discovery :=
  foldl (discover_entry bsp_apic_id) (mkDiscovery 0 (replicate MAX_CPUS empty_state) []) es.
(** The state of the first CPU with this number — kernel/src/smp.rs:543-551 [start_ap, states] *)
Fixpoint mark_online (id : Z) (sts : list PerCpuState) : list PerCpuState :=
  match sts with
  | [] => []
  | st :: sts =>
      if (apic_id st =? id)%Z then mkCpu (cpu_id st) (apic_id st) (is_bsp st) true true (current_pid st) (heartbeat st + 1) :: sts
      else st :: mark_online id sts
  end.
(** The CPU is started from its task-state segment, and counts as online whether or
    not it answered — kernel/src/smp.rs:485-569 [start_ap] *)
Definition start_ap (cpu : nat) (id : Z) : comp (list PerCpuState) unit unit :=
  (if cpu <? MAX_CPUS then mret tt else panic);;
  modify (mark_online id).
(** kernel/src/smp.rs:583-653 [init_smp] *)
Definition init_smp (bsp_apic_id : Z) (es : list Entry) : comp (list PerCpuState) unit unit :=
  let d := discover bsp_apic_id es in
  put (states d);;
  for_each (ap_list d) (λ a, start_ap a.1 a.2).

(** ** Remapping units *)

(** kernel/src/acpi.rs:227-232 [DrhdInfo] *)
Record DrhdInfo := mkUnit { register_base_addr : Z; segment_number : Z; include_all_devices : bool; scoped_devices : list (Z * Z * Z) }.
(** kernel/src/acpi.rs:220-224 [DmarTable] *)
Record DmarTable := mkDmar { host_addr_width : Z; dmar_flags : Z; drhd_units : list DrhdInfo }.

(** kernel/src/acpi.rs:328-335 [parse_dmar_table, path] *)
Definition path_devices (bus p : Z) (path_count : nat) : list (Z * Z * Z) :=
  map (λ k, (bus, Z.land (Z.shiftr (mem (p + 2 * Z.of_nat k)) 3) 31, Z.land (mem (p + 2 * Z.of_nat k + 1)) 7)) (seq 0 path_count).
(** kernel/src/acpi.rs:318-338 [parse_dmar_table, scopes] *)
Fixpoint parse_scopes (fuel : nat) (p struct_len scope_offset : Z) : option (list (Z * Z * Z)) :=
  match fuel with
  | O => None
  | S fuel =>
      if (scope_offset + 6 <=? struct_len)%Z then
        let scope_len := mem (p + scope_offset + 1) in
        if (scope_len <? 6)%Z || (struct_len <? scope_offset + scope_len)%Z then Some []
        else
          let start_bus := mem (p + scope_offset + 5) in
          app (path_devices start_bus (p + scope_offset + 6) (Z.to_nat ((scope_len - 6) / 2)))
            <$> parse_scopes fuel p struct_len (scope_offset + scope_len)
      else Some []
  end.
(** kernel/src/acpi.rs:307-353 [parse_dmar_table, unit] *)
Definition parse_unit (p struct_len : Z) : option DrhdInfo :=
  scopes ← parse_scopes (S (Z.to_nat struct_len)) p struct_len 16;
  Some (mkUnit (rd 8 (p + 8)) (rd 2 (p + 6)) (negb (Z.land (mem (p + 4)) 1 =? 0)%Z) scopes).
(** kernel/src/acpi.rs:298-361 [parse_dmar_table, loop] *)
Fixpoint parse_units (fuel : nat) (p total_len offset : Z) : option (list DrhdInfo) :=
  match fuel with
  | O => None
  | S fuel =>
      if (offset + 4 <=? total_len)%Z then
        let struct_type := rd 2 (p + offset) in
        let struct_len := rd 2 (p + offset + 2) in
        if (struct_len <? 4)%Z || (total_len <? offset + struct_len)%Z then Some []
        else if (struct_type =? 0)%Z && (16 <=? struct_len)%Z then
          u ← parse_unit (p + offset) struct_len;
          us ← parse_units fuel p total_len (offset + struct_len);
          Some (u :: us)
        else parse_units fuel p total_len (offset + struct_len)
      else Some []
  end.
(** kernel/src/acpi.rs:283-368 [parse_dmar_table] *)
Definition parse_dmar_table (p : Z) : M DmarTable :=
  reject_if (negb (verify_checksum p)) tt;;
  let total_len := table_length p in
  us ← unwrap (parse_units (S (Z.to_nat total_len)) p total_len 48);
  mret (mkDmar (mem (p + 36)) (mem (p + 37)) us).
(** A root table, if it is there and sound. *)
Definition in_root (root_phys : Z) (width : nat) : M (option Z) :=
  if (root_phys =? 0)%Z then mret None
  else
    root ← phys_to_virt root_phys;
    if verify_checksum root then search (str "DMAR") false width root else mret None.
(** kernel/src/acpi.rs:235-281 [get_dmar] *)
Definition get_dmar : M DmarTable :=
  rsdp ← rsdp_find;
  t ← (if (2 <=? mem (rsdp + 15))%Z then in_root (rd 8 (rsdp + 24)) 8 else mret None);
  match t with
  | Some table => parse_dmar_table table
  | None =>
      t ← in_root (rd 4 (rsdp + 16)) 4;
      table ← ok_or t tt;
      parse_dmar_table table
  end.

(** kernel/src/iommu.rs:145-158 [is_bdf_covered_by_iommu] *)
Definition covered (dmar : DmarTable) (bus slot func : Z) : bool :=
  match drhd_units dmar with
  | [] => false
  | u :: _ => include_all_devices u || bool_decide ((bus, slot, func) ∈ scoped_devices u)
  end.
Definition is_bdf_covered_by_iommu (bus slot func : Z) : M bool :=
  attempt (E' := unit) get_dmar ≫= λ r, mret (match r with inl _ => false | inr dmar => covered dmar bus slot func end).
End acpi.

(** ** What is read *)

Definition agree (m m' : Z → Z) (a b : Z) : Prop := ∀ x, (a ≤ x < b)%Z → m x = m' x.
Lemma run_of_ext m m' n q : agree m m' q (q + Z.of_nat n) → run_of m n q = run_of m' n q.
Proof. intros H. apply map_ext_in. intros i [_ Hi]%in_seq. apply H. lia. Qed.
Lemma rd_ext m m' n q a b : agree m m' a b → (a ≤ q)%Z → (q + Z.of_nat n ≤ b)%Z → rd m n q = rd m' n q.
Proof. intros H Ha Hb. unfold rd. f_equal. apply (run_of_ext m m' n q). intros x Hx. apply H. lia. Qed.
Lemma path_ext m m' bus q n a b : agree m m' a b → (a ≤ q)%Z → (q + 2 * Z.of_nat n ≤ b)%Z → path_devices m bus q n = path_devices m' bus q n.
Proof. intros H Ha Hb. apply map_ext_in. intros i [_ Hi]%in_seq. rewrite !(H (q + 2 * Z.of_nat i)%Z), !(H (q + 2 * Z.of_nat i + 1)%Z) by lia. done. Qed.

Lemma scopes_ext m m' p len : agree m m' p (p + len) → ∀ fuel off, (0 ≤ off)%Z → parse_scopes m fuel p len off = parse_scopes m' fuel p len off.
Proof.
  intros H. induction fuel as [|fuel IH]; intros off Ho; [done|]. cbn [parse_scopes]. destruct (off + 6 <=? len)%Z eqn:E; [|done]. reflect.
  rewrite (H (p + off + 1)%Z), (H (p + off + 5)%Z) by lia. destruct ((m' (p + off + 1) <? 6) || (len <? off + m' (p + off + 1)))%Z eqn:E2; [done|]. reflect.
  rewrite IH by lia. f_equal. f_equal. apply (path_ext m m' _ _ _ p (p + len)); [done|lia|].
  pose proof (Z.mul_div_le (m' (p + off + 1)%Z - 6) 2 ltac:(lia)). pose proof (Z.div_pos (m' (p + off + 1)%Z - 6) 2 ltac:(lia) ltac:(lia)). lia.
Qed.
Lemma scopes_total m p len : ∀ fuel off, 0 < fuel → (len < off + Z.of_nat fuel)%Z → is_Some (parse_scopes m fuel p len off).
Proof.
  induction fuel as [|fuel IH]; intros off Hf Hl; [lia|]. cbn [parse_scopes]. destruct (off + 6 <=? len)%Z eqn:E; [|by eexists]. reflect.
  destruct ((m (p + off + 1) <? 6) || (len <? off + m (p + off + 1)))%Z eqn:E2; [by eexists|]. reflect.
  destruct (IH (off + m (p + off + 1))%Z ltac:(lia) ltac:(lia)) as [l ->]. by eexists.
Qed.
Lemma drhd_ext m m' p len : agree m m' p (p + len) → (16 ≤ len)%Z → parse_unit m p len = parse_unit m' p len.
Proof.
  intros H Hl. unfold parse_unit. rewrite (scopes_ext m m' p len H) by lia. rewrite (rd_ext m m' 8 (p + 8) p (p + len)), (rd_ext m m' 2 (p + 6) p (p + len)) by (done || lia).
  rewrite (H (p + 4)%Z) by lia. done.
Qed.
Lemma unit_total m p len : (16 ≤ len)%Z → is_Some (parse_unit m p len).
Proof. intros Hl. unfold parse_unit. destruct (scopes_total m p len (S (Z.to_nat len)) 16 ltac:(lia) ltac:(lia)) as [l ->]. by eexists. Qed.
Lemma units_ext m m' p len : agree m m' p (p + len) → ∀ fuel off, (0 ≤ off)%Z → parse_units m fuel p len off = parse_units m' fuel p len off.
Proof.
  intros H. induction fuel as [|fuel IH]; intros off Ho; [done|]. cbn [parse_units]. destruct (off + 4 <=? len)%Z eqn:E; [|done]. reflect.
  rewrite (rd_ext m m' 2 (p + off) p (p + len)), (rd_ext m m' 2 (p + off + 2) p (p + len)) by (done || lia).
  destruct ((rd m' 2 (p + off + 2) <? 4) || (len <? off + rd m' 2 (p + off + 2)))%Z eqn:E2; [done|]. reflect. rewrite IH by lia.
  destruct ((rd m' 2 (p + off) =? 0) && (16 <=? rd m' 2 (p + off + 2)))%Z eqn:E3; [|done]. reflect.
  rewrite (drhd_ext m m' (p + off)) by (lia || intros x Hx; apply H; lia). done.
Qed.
Lemma units_total m p len : ∀ fuel off, 0 < fuel → (len < off + Z.of_nat fuel)%Z → is_Some (parse_units m fuel p len off).
Proof.
  induction fuel as [|fuel IH]; intros off Hf Hl; [lia|]. cbn [parse_units]. destruct (off + 4 <=? len)%Z eqn:E; [|by eexists]. reflect.
  destruct ((rd m 2 (p + off + 2) <? 4) || (len <? off + rd m 2 (p + off + 2)))%Z eqn:E2; [by eexists|]. reflect.
  destruct (IH (off + rd m 2 (p + off + 2))%Z ltac:(lia) ltac:(lia)) as [us Hus].
  destruct ((rd m 2 (p + off) =? 0) && (16 <=? rd m 2 (p + off + 2)))%Z eqn:E3; [|by rewrite Hus]. reflect.
  destruct (unit_total m (p + off) (rd m 2 (p + off + 2)) ltac:(lia)) as [u ->]. cbn [mbind option_bind]. rewrite Hus. by eexists.
Qed.

(** C40: the parser of the tables of remapping units always comes to an end, does not
    panic, and looks at nothing but the table — its header and as many bytes as
    that says. *)
Theorem dmar_reads_only_the_table (m m' : Z → Z) (p : Z) : agree m m' p (p + (48 `max` table_length m p)) →
  parse_dmar_table m p tt = parse_dmar_table m' p tt ∧ (parse_dmar_table m p tt).1 ≠ Panic.
Proof.
  intros H. assert (table_length m' p = table_length m p) as Hlen by (symmetry; apply (rd_ext m m' 4 (p + 4) p (p + 48)); [intros x Hx; apply H; lia|lia|lia]).
  assert (verify_checksum m' p = verify_checksum m p) as Hsum.
  { unfold verify_checksum. rewrite Hlen. unfold byte_sum. rewrite (run_of_ext m m'); [done|]. intros x Hx. apply H. destruct (Z_le_gt_dec 0 (table_length m p)); lia. }
  unfold parse_dmar_table. rewrite Hsum, Hlen, (H (p + 36)%Z), (H (p + 37)%Z) by lia.
  rewrite (units_ext m m' p (table_length m p)) by (lia || intros x Hx; apply H; lia). split; [done|].
  cut (wp (reject_if (negb (verify_checksum m p)) tt;; us ← unwrap (parse_units m' (S (Z.to_nat (table_length m p))) p (table_length m p) 48);
    mret (mkDmar (m' (p + 36)%Z) (m' (p + 37)%Z) us)) (λ r _, r ≠ Panic) tt); [done|].
  wp_step. apply wp_reject_if; intros _; [done|]. wp_step. destruct (units_total m' p (table_length m p) (S (Z.to_nat (table_length m p))) 48 ltac:(lia) ltac:(lia)) as [us ->].
  apply wp_unwrap; [done|]. intros ? _. cbn beta iota. by wp_step.
Qed.

(** ** Writing a table *)

Record Scope := mkScope { s_type : Z; s_id : Z; s_bus : Z; s_path : list (Z * Z) }.
Inductive Structure := DrhdUnit (flags segment base : Z) (scopes : list Scope) | Other (type : Z) (body : bytes).
Definition path_bytes (path : list (Z * Z)) : bytes := path ≫= λ h, [h.1; h.2].
Definition scope_bytes (s : Scope) : bytes :=
  [s_type s; 6 + 2 * Z.of_nat (length (s_path s)); 0; 0; s_id s; s_bus s]%Z ++ path_bytes (s_path s).
Definition structure_bytes (s : Structure) : bytes :=
  match s with
  | DrhdUnit flags segment base scopes =>
      let l := scopes ≫= scope_bytes in
      to_le 2 0 ++ to_le 2 (16 + Z.of_nat (length l)) ++ [flags; 0%Z] ++ to_le 2 segment ++ to_le 8 base ++ l
  | Other type body => to_le 2 type ++ to_le 2 (4 + Z.of_nat (length body)) ++ body
  end.
Definition well_formed (s : Structure) : Prop :=
  match s with
  | DrhdUnit flags segment base scopes => (0 ≤ segment < 2 ^ 16)%Z ∧ (0 ≤ base < 2 ^ 64)%Z ∧ (16 + Z.of_nat (length (scopes ≫= scope_bytes)) < 2 ^ 16)%Z
  | Other type body => (0 < type < 2 ^ 16)%Z ∧ (4 + Z.of_nat (length body) < 2 ^ 16)%Z
  end.
(** What the kernel makes of it. *)
Definition devices_of (s : Scope) : list (Z * Z * Z) := (λ h : Z * Z, (s_bus s, Z.land (Z.shiftr h.1 3) 31, Z.land h.2 7)) <$> s_path s.
Definition unit_of (s : Structure) : list DrhdInfo :=
  match s with
  | DrhdUnit flags segment base scopes => [mkUnit base segment (negb (Z.land flags 1 =? 0)%Z) (scopes ≫= devices_of)]
  | Other _ _ => []
  end.

(** The bytes [l] are in memory from [p] on. *)
Definition loaded (m : Z → Z) (p : Z) (l : bytes) : Prop := ∀ i b, l !! i = Some b → m (p + Z.of_nat i)%Z = b.
Lemma loaded_app m p l k : loaded m p (l ++ k) → loaded m p l ∧ loaded m (p + Z.of_nat (length l)) k.
Proof.
  intros H. split; intros i b Hi.
  - apply H. by apply lookup_app_l_Some.
  - rewrite <- Z.add_assoc, <- Nat2Z.inj_add. apply H. rewrite lookup_app_r by lia. by replace (length l + i - length l) with i by lia.
Qed.
Lemma loaded_run m p l : loaded m p l → run_of m (length l) p = l.
Proof.
  revert p. induction l as [|b l IH]; intros p H; [done|]. unfold run_of. cbn [length seq map]. f_equal.
  - by apply H.
  - rewrite <- seq_shift, map_map. rewrite <- (IH (p + 1)%Z) at 2; [|intros i c Hi; rewrite <- (H (S i) c Hi); f_equal; lia].
    unfold run_of. apply map_ext. intros i. f_equal. lia.
Qed.
Lemma loaded_rd m p n v : loaded m p (to_le n v) → (0 ≤ v < 256 ^ Z.of_nat n)%Z → rd m n p = v.
Proof. intros H Hv. unfold rd. pose proof (loaded_run m p _ H) as Hr. rewrite length_to_le in Hr. unfold run_of in Hr. rewrite Hr. by apply from_le_to_le. Qed.
Lemma loaded_path m bus q path : loaded m q (path_bytes path) →
  path_devices m bus q (length path) = (λ h : Z * Z, (bus, Z.land (Z.shiftr h.1 3) 31, Z.land h.2 7)) <$> path.
Proof.
  revert q. induction path as [|[d f] path IH]; intros q H; [done|]. unfold path_bytes in H. rewrite bind_cons in H. apply loaded_app in H as [H1 H2]. cbn [length Z.of_nat] in H2.
  unfold path_devices. cbn [length seq map]. rewrite fmap_cons. cbn [fst snd]. f_equal.
  - rewrite Z.mul_0_r, Z.add_0_r. pose proof (H1 0 d eq_refl) as E0. pose proof (H1 1 f eq_refl) as E1. rewrite Z.add_0_r in E0. change (Z.of_nat 1) with 1%Z in E1. by rewrite E0, E1.
  - rewrite <- seq_shift, map_map. rewrite <- (IH (q + 2)%Z H2). unfold path_devices. apply map_ext. intros k.
    replace (q + 2 * Z.of_nat (S k))%Z with (q + 2 + 2 * Z.of_nat k)%Z by lia. done.
Qed.
Lemma length_path_bytes path : length (path_bytes path) = 2 * length path.
Proof. unfold path_bytes. induction path as [|h path IH]; [done|]. rewrite bind_cons, length_app, IH. cbn. lia. Qed.
Lemma length_scope s : length (scope_bytes s) = 6 + 2 * length (s_path s).
Proof. unfold scope_bytes. rewrite length_app, length_path_bytes. done. Qed.

Lemma scopes_read m p len scopes : ∀ fuel off, loaded m (p + off) (scopes ≫= scope_bytes) → len = (off + Z.of_nat (length (scopes ≫= scope_bytes)))%Z → (0 ≤ off)%Z →
  length scopes < fuel → parse_scopes m fuel p len off = Some (scopes ≫= devices_of).
Proof.
  induction scopes as [|s scopes IH]; intros fuel off H Hlen Ho Hf; (destruct fuel as [|fuel]; [cbn in Hf; lia|]); cbn [parse_scopes].
  - cbn in Hlen. destruct (off + 6 <=? len)%Z eqn:E; [|done]. reflect. lia.
  - rewrite bind_cons in H, Hlen. rewrite length_app, length_scope in Hlen. apply loaded_app in H as [H1 H2]. rewrite length_scope in H2. cbn [length] in Hf.
    unfold scope_bytes in H1. apply loaded_app in H1 as [Hh Hpath]. cbn [length Z.of_nat] in Hpath.
    pose proof (Hh 1 _ eq_refl) as El. pose proof (Hh 5 _ eq_refl) as Eb. change (Z.of_nat 1) with 1%Z in El. change (Z.of_nat 5) with 5%Z in Eb.
    rewrite El, Eb. destruct (off + 6 <=? len)%Z eqn:E; [|reflect; lia]. reflect.
    set (n := length (s_path s)) in *. destruct ((6 + 2 * Z.of_nat n <? 6) || (len <? off + (6 + 2 * Z.of_nat n)))%Z eqn:E2; [reflect; lia|].
    replace ((6 + 2 * Z.of_nat n - 6) / 2)%Z with (Z.of_nat n) by (replace (6 + 2 * Z.of_nat n - 6)%Z with (Z.of_nat n * 2)%Z by lia; by rewrite Z.div_mul).
    rewrite Nat2Z.id. rewrite (IH fuel (off + (6 + 2 * Z.of_nat n))%Z); [|by replace (p + (off + (6 + 2 * Z.of_nat n)))%Z with (p + off + Z.of_nat (6 + 2 * n))%Z by lia|lia|lia|lia].
    cbn [fmap option_fmap option_map]. rewrite bind_cons. f_equal. f_equal. apply (loaded_path m (s_bus s) (p + off + 6)). exact Hpath.
Qed.

Lemma unit_read m p flags segment base scopes : loaded m p (structure_bytes (DrhdUnit flags segment base scopes)) → well_formed (DrhdUnit flags segment base scopes) →
  parse_unit m p (16 + Z.of_nat (length (scopes ≫= scope_bytes))) = Some (mkUnit base segment (negb (Z.land flags 1 =? 0)%Z) (scopes ≫= devices_of)).
Proof.
  intros H (Hs & Hb & _). cbn [structure_bytes] in H. set (l := scopes ≫= scope_bytes) in *.
  apply loaded_app in H as [_ H]. apply loaded_app in H as [_ H]. apply loaded_app in H as [Hf H]. apply loaded_app in H as [Hseg H]. apply loaded_app in H as [Hbase Hl].
  rewrite !length_to_le in *. change (length [flags; 0%Z]) with 2 in *.
  pose proof (Hf 0 _ eq_refl) as Ef. unfold parse_unit.
  replace (p + 16)%Z with (p + Z.of_nat 2 + Z.of_nat 2 + Z.of_nat 2 + Z.of_nat 2 + Z.of_nat 8)%Z in * by lia.
  rewrite (scopes_read m p (16 + Z.of_nat (length l)) scopes); [|by replace (p + 16)%Z with (p + Z.of_nat 2 + Z.of_nat 2 + Z.of_nat 2 + Z.of_nat 2 + Z.of_nat 8)%Z by lia|done|lia|].
  2: { assert (length scopes ≤ length l) as Hle; [|lia]. subst l. clear. induction scopes as [|s scopes IH]; [done|]. rewrite bind_cons, length_app, length_scope. cbn [length]. lia. }
  cbn [mbind option_bind]. f_equal. f_equal.
  - replace (p + 8)%Z with (p + Z.of_nat 2 + Z.of_nat 2 + Z.of_nat 2 + Z.of_nat 2)%Z by lia. by apply loaded_rd.
  - replace (p + 6)%Z with (p + Z.of_nat 2 + Z.of_nat 2 + Z.of_nat 2)%Z by lia. by apply loaded_rd.
  - replace (p + 4)%Z with (p + Z.of_nat 2 + Z.of_nat 2 + Z.of_nat 0)%Z by lia. by rewrite Ef.
Qed.
Lemma length_structure s : length (structure_bytes s) =
  match s with DrhdUnit _ _ _ scopes => 16 + length (scopes ≫= scope_bytes) | Other _ body => 4 + length body end.
Proof. destruct s; cbn [structure_bytes]; rewrite !length_app, !length_to_le; cbn [length]; lia. Qed.

Lemma units_read m p len ss : ∀ fuel off, loaded m (p + off) (ss ≫= structure_bytes) → Forall well_formed ss →
  len = (off + Z.of_nat (length (ss ≫= structure_bytes)))%Z → (0 ≤ off)%Z → length ss < fuel → parse_units m fuel p len off = Some (ss ≫= unit_of).
Proof.
  induction ss as [|s ss IH]; intros fuel off H Hwf Hlen Ho Hf; (destruct fuel as [|fuel]; [cbn in Hf; lia|]); cbn [parse_units].
  - cbn in Hlen. destruct (off + 4 <=? len)%Z eqn:E; [|done]. reflect. lia.
  - apply Forall_cons in Hwf as [Hs Hss]. rewrite bind_cons in H, Hlen. rewrite length_app in Hlen. apply loaded_app in H as [H1 H2]. cbn [length] in Hf. rewrite bind_cons.
    pose proof (length_structure s) as Hls. destruct s as [flags segment base scopes|type body].
    + pose proof Hs as (_ & _ & Hsmall). set (n := length (scopes ≫= scope_bytes)) in *.
      pose proof H1 as H0. cbn [structure_bytes] in H0. apply loaded_app in H0 as [Ht H0]. apply loaded_app in H0 as [Hn _]. rewrite length_to_le in Hn.
      rewrite (loaded_rd m (p + off) 2 0 Ht) by done. replace (p + off + 2)%Z with (p + off + Z.of_nat 2)%Z by lia. fold n in Hn.
      rewrite (loaded_rd m _ 2 _ Hn) by (change (256 ^ Z.of_nat 2)%Z with 65536%Z; lia).
      destruct (off + 4 <=? len)%Z eqn:E; [|reflect; lia]. destruct ((16 + Z.of_nat n <? 4) || (len <? off + (16 + Z.of_nat n)))%Z eqn:E2; [reflect; lia|].
      destruct (16 <=? 16 + Z.of_nat n)%Z eqn:E3; [|reflect; lia]. cbn [andb Z.eqb].
      pose proof (unit_read m (p + off) flags segment base scopes H1 Hs) as Hu. fold n in Hu. rewrite Hu. cbn [mbind option_bind].
      rewrite (IH fuel (off + (16 + Z.of_nat n))%Z); [done| |done|lia|lia|lia].
      by replace (p + (off + (16 + Z.of_nat n)))%Z with (p + off + Z.of_nat (length (structure_bytes (DrhdUnit flags segment base scopes))))%Z by lia.
    + destruct Hs as [Hty Hsmall]. pose proof H1 as H0. cbn [structure_bytes] in H0. apply loaded_app in H0 as [Ht H0]. apply loaded_app in H0 as [Hn _]. rewrite length_to_le in Hn.
      rewrite (loaded_rd m (p + off) 2 type Ht) by (change (256 ^ Z.of_nat 2)%Z with 65536%Z; lia). replace (p + off + 2)%Z with (p + off + Z.of_nat 2)%Z by lia.
      rewrite (loaded_rd m _ 2 _ Hn) by (change (256 ^ Z.of_nat 2)%Z with 65536%Z; lia).
      destruct (off + 4 <=? len)%Z eqn:E; [|reflect; lia]. destruct ((4 + Z.of_nat (length body) <? 4) || (len <? off + (4 + Z.of_nat (length body))))%Z eqn:E2; [reflect; lia|].
      destruct (type =? 0)%Z eqn:E3; [reflect; lia|]. cbn [andb unit_of app].
      apply (IH fuel (off + (4 + Z.of_nat (length body)))%Z); [|done|lia|lia|lia].
      by replace (p + (off + (4 + Z.of_nat (length body))))%Z with (p + off + Z.of_nat (length (structure_bytes (Other type body))))%Z by lia.
Qed.

(** A table of remapping units is read back: its units in their order, with their
    registers, segments and scopes, whatever other structures lie between — but
    for the device numbers, of which the kernel keeps the upper bits only. *)
Theorem dmar_table_is_read_back m p header ss :
  length header = 48 → loaded m p (header ++ (ss ≫= structure_bytes)) → Forall well_formed ss →
  table_length m p = Z.of_nat (length (header ++ (ss ≫= structure_bytes))) → verify_checksum m p = true →
  parse_dmar_table m p tt = (Ok (mkDmar (m (p + 36)%Z) (m (p + 37)%Z) (ss ≫= unit_of)), tt).
Proof.
  intros Hh Hl Hwf Hlen Hsum. unfold parse_dmar_table. rewrite Hsum, Hlen, length_app, Hh. cbn [negb reject_if]. apply loaded_app in Hl as [_ Hl]. rewrite Hh in Hl.
  assert (length ss ≤ length (ss ≫= structure_bytes)) as Hle.
  { clear. induction ss as [|s ss IH]; [done|]. rewrite bind_cons, length_app, length_structure. cbn [length]. destruct s; lia. }
  rewrite (units_read m p _ ss); [done|exact Hl|done|lia|lia|lia].
Qed.

(** So a unit that lists a device under its number does not cover it in the eyes
    of the kernel, unless the number is 0. *)
Theorem listed_devices_are_not_covered m p header flags segment base type id bus d f others w a :
  length header = 48 → loaded m p (header ++ ((DrhdUnit flags segment base [mkScope type id bus [(d, f)]] :: others) ≫= structure_bytes)) →
  Forall well_formed (DrhdUnit flags segment base [mkScope type id bus [(d, f)]] :: others) →
  table_length m p = Z.of_nat (length (header ++ ((DrhdUnit flags segment base [mkScope type id bus [(d, f)]] :: others) ≫= structure_bytes))) → verify_checksum m p = true →
  Z.land flags 1 = 0%Z → (1 ≤ d < 32)%Z → parse_dmar_table m p tt = (Ok a, w) → covered a bus d f = false.
Proof.
  intros Hh Hl Hwf Hlen Hsum Hfl Hd Hp. rewrite (dmar_table_is_read_back m p header (DrhdUnit flags segment base [mkScope type id bus [(d, f)]] :: others)) in Hp by done.
  assert (a = mkDmar (m (p + 36)%Z) (m (p + 37)%Z) ((DrhdUnit flags segment base [mkScope type id bus [(d, f)]] :: others) ≫= unit_of)) as -> by congruence.
  unfold covered. cbn [drhd_units]. rewrite bind_cons. cbn [unit_of app include_all_devices scoped_devices]. rewrite Hfl. cbn [Z.eqb negb orb].
  apply bool_decide_eq_false. cbn. intros [= Hx _]%list_elem_of_singleton. change 31%Z with (Z.ones 5) in Hx. rewrite Z.land_ones, Z.shiftr_div_pow2 in Hx by lia.
  change (2 ^ 3)%Z with 8%Z in Hx. change (2 ^ 5)%Z with 32%Z in Hx. Z.to_euclidean_division_equations. lia.
Qed.

(** ** The CPUs *)

Section cpus.
Context (m : Z → Z) (bsp : Z).

(** The numbers of the CPUs that can be used, in the order of the table. *)
Definition usable (e : Entry) : option Z :=
  if ((entry_type e =? 0) && (2 <=? data_len e))%Z && negb (Z.land (rd m 4 (data e + 2)) 1 =? 0)%Z then Some (m (data e + 1)%Z) else None.
Definition ids (es : list Entry) : list Z := omap usable es.
Definition found (c : nat) (id : Z) : PerCpuState := let b := (id =? bsp)%Z in mkCpu c id b b b None (if b then 1 else 0).
Definition others (l : list Z) : list (nat * Z) := filter (λ a, a.2 ≠ bsp) (imap pair l).

Lemma others_snoc l id : others (l ++ [id]) = others l ++ (if (id =? bsp)%Z then [] else [(length l, id)]).
Proof.
  unfold others. rewrite imap_app, filter_app. f_equal. cbn [imap]. rewrite filter_cons, filter_nil. cbn [snd compose]. rewrite Nat.add_0_r.
  destruct (Z.eqb_spec id bsp); case_decide; done || (exfalso; auto).
Qed.
Lemma discover_spec es : discover m bsp es =
  mkDiscovery (length (ids es)) (take MAX_CPUS (imap found (ids es)) ++ replicate (MAX_CPUS - length (ids es)) empty_state) (others (ids es)).
Proof.
  induction es as [|e es IH] using rev_ind; [done|]. unfold discover in *. rewrite foldl_snoc, IH. unfold ids. rewrite omap_app. set (l := omap usable es).
  cbn [omap list_omap]. unfold discover_entry, usable. destruct ((entry_type e =? 0) && (2 <=? data_len e))%Z; cbn [andb]; [|by rewrite app_nil_r].
  destruct (negb (Z.land (rd m 4 (data e + 2)) 1 =? 0)%Z); [|by rewrite app_nil_r]. cbn [cpu_count states ap_list]. set (id := m (data e + 1)%Z).
  rewrite length_app, others_snoc, imap_app. cbn [length imap compose]. rewrite Nat.add_0_r. f_equal.
  - fold (found (length l) id). assert (length (imap found l) = length l) as Hl by apply length_imap.
    destruct (length l <? MAX_CPUS) eqn:E; reflect.
    + rewrite !take_ge by (rewrite ?length_app, ?Hl; cbn; lia). replace (MAX_CPUS - length l) with (S (MAX_CPUS - (length l + 1))) by lia. cbn [replicate].
      rewrite <- Hl at 1. rewrite insert_app_r_alt by lia. rewrite Nat.sub_diag. cbn [insert list_insert]. by rewrite <- app_assoc.
    + replace (MAX_CPUS - length l) with 0 by lia. replace (MAX_CPUS - (length l + 1)) with 0 by lia. cbn [replicate]. by rewrite take_app_le by lia.
  - destruct (id =? bsp)%Z; [by rewrite app_nil_r|done].
Qed.

Definition woken (st : PerCpuState) : PerCpuState := mkCpu (cpu_id st) (apic_id st) (is_bsp st) true true (current_pid st) (heartbeat st + 1).
Lemma apic_mark id sts : map apic_id (mark_online id sts) = map apic_id sts.
Proof. induction sts as [|st sts IH]; [done|]. cbn. destruct (apic_id st =? id)%Z; cbn; [done|by rewrite IH]. Qed.
Lemma mark_first id sts c : map apic_id sts !! c = Some id → (∀ j, j < c → map apic_id sts !! j ≠ Some id) → mark_online id sts = alter woken c sts.
Proof.
  revert c. induction sts as [|st sts IH]; intros c Hc Hj; [done|]. cbn [mark_online]. destruct c as [|c].
  - injection Hc as Hc. by destruct (Z.eqb_spec (apic_id st) id).
  - cbn in Hc. destruct (Z.eqb_spec (apic_id st) id) as [E|E]; [exfalso; apply (Hj 0); [lia|cbn; by f_equal]|]. cbn. f_equal. apply IH; [done|]. intros j Hlt. apply (Hj (S j)). lia.
Qed.
Lemma start_ap_runs c id sts : start_ap c id sts = if decide (c < MAX_CPUS) then (Ok tt, mark_online id sts) else (Panic, sts).
Proof. unfold start_ap. destruct (c <? MAX_CPUS) eqn:E; reflect; [by rewrite decide_True|by rewrite decide_False by lia]. Qed.
(** Starting the CPUs of [aps], whose numbers are those of the states. *)
Lemma start_all aps sts : NoDup aps.*1 → (∀ c id, (c, id) ∈ aps → c < MAX_CPUS ∧ map apic_id sts !! c = Some id ∧ ∀ j, j < c → map apic_id sts !! j ≠ Some id) →
  ∃ sts', for_each aps (λ a, start_ap a.1 a.2) sts = (Ok tt, sts') ∧ ∀ c, sts' !! c = if decide (c ∈ aps.*1) then woken <$> sts !! c else sts !! c.
Proof.
  revert sts. induction aps as [|[c id] aps IH]; intros sts Hn H.
  - exists sts. split; [done|]. intros c. cbn [fmap list_fmap]. by rewrite decide_False by apply not_elem_of_nil.
  - destruct (H c id ltac:(left)) as (Hc & Hid & Hfirst). rewrite fmap_cons in Hn. apply NoDup_cons in Hn as [Hnew Hn]. cbn [fst] in Hnew.
    pose proof (mark_first id sts c Hid Hfirst) as Hm. destruct (IH (mark_online id sts) Hn) as (sts' & Hrun & Hlook).
    { intros d e Hd. rewrite apic_mark. apply H. by right. }
    exists sts'. split.
    + cbn [for_each]. unfold mbind, comp_bind. cbn [fst snd]. rewrite start_ap_runs, decide_True by done. exact Hrun.
    + intros d. rewrite Hlook, Hm. rewrite fmap_cons. cbn [fst]. destruct (decide (d = c)) as [->|Hne].
      * rewrite decide_False by done. rewrite decide_True by left. by rewrite list_lookup_alter_eq.
      * rewrite list_lookup_alter_ne by done. destruct (decide (d ∈ aps.*1)) as [Hin|Hin]; [rewrite decide_True by (by right); done|rewrite decide_False; [done|]]. by intros [?|?]%elem_of_cons.
Qed.
Lemma start_panics aps sts c id : (c, id) ∈ aps → MAX_CPUS ≤ c → (for_each aps (λ a, start_ap a.1 a.2) sts).1 = Panic.
Proof.
  intros Hin Hc. revert sts. induction aps as [|[d e] aps IH]; intros sts; [by apply elem_of_nil in Hin|]. cbn [for_each]. unfold mbind, comp_bind. cbn [fst snd]. rewrite start_ap_runs.
  apply elem_of_cons in Hin as [[= <- <-]|Hin]; [by rewrite decide_False by lia|]. case_decide; [|done]. by apply IH.
Qed.
Lemma elem_of_others l c id : (c, id) ∈ others l ↔ l !! c = Some id ∧ id ≠ bsp.
Proof.
  unfold others. rewrite list_elem_of_filter. cbn [snd]. split; intros [H1 H2]; split; try done.
  - apply list_elem_of_lookup_1 in H2 as [i Hi]. rewrite list_lookup_imap in Hi. destruct (l !! i) eqn:E; [|done]. cbn in Hi. injection Hi as <- <-. done.
  - apply list_elem_of_lookup_2 with c. rewrite list_lookup_imap, H1. done.
Qed.
End cpus.

(** Every usable CPU of a table with at most eight of them, which have different
    numbers, is online after the start, under its place in the table; the other
    states stay empty. *)
Theorem cpus_are_started m bsp es s : NoDup (ids m es) → length (ids m es) ≤ MAX_CPUS →
  ∃ sts, init_smp m bsp es s = (Ok tt, sts) ∧
    (∀ c id, ids m es !! c = Some id → ∃ st, sts !! c = Some st ∧ cpu_id st = c ∧ apic_id st = id ∧ cpu_online st = true ∧ is_bsp st = (id =? bsp)%Z) ∧
    (∀ c, length (ids m es) ≤ c < MAX_CPUS → sts !! c = Some empty_state).
Proof.
  intros Hn Hl. unfold init_smp. rewrite discover_spec. cbn [states ap_list]. set (l := ids m es) in *.
  set (sts := take MAX_CPUS (imap (found bsp) l) ++ replicate (MAX_CPUS - length l) empty_state).
  assert (∀ c, sts !! c = if decide (c < length l) then (found bsp c) <$> l !! c else if decide (c < MAX_CPUS) then Some empty_state else None) as Hsts.
  { intros c. subst sts. rewrite take_ge by (rewrite length_imap; lia). case_decide.
    - rewrite lookup_app_l by (rewrite length_imap; lia). by rewrite list_lookup_imap.
    - rewrite lookup_app_r by (rewrite length_imap; lia). rewrite length_imap. case_decide; [apply lookup_replicate; split; [done|lia]|apply lookup_replicate_None; lia]. }
  destruct (start_all (others bsp l) sts) as (sts' & Hrun & Hlook).
  - apply NoDup_fmap_2_strong.
    + intros [c id] [c' id'] [Hc _]%elem_of_others [Hc' _]%elem_of_others E. cbn in E. subst c'. congruence.
    + unfold others. apply NoDup_filter, NoDup_alt. intros i j x Hi Hj. rewrite !list_lookup_imap in *. destruct (l !! i); [|done]. destruct (l !! j); [|done]. cbn in *. congruence.
  - intros c id [Hc Hne]%elem_of_others. pose proof (lookup_lt_Some _ _ _ Hc) as Hlt. split; [lia|].
    assert (∀ j, j < length l → map apic_id sts !! j = l !! j) as Hmap.
    { intros j Hj. change (map apic_id sts) with (apic_id <$> sts). rewrite list_lookup_fmap, Hsts, decide_True by done. by destruct (l !! j). }
    split; [by rewrite Hmap|]. intros j Hj. rewrite Hmap by lia. intros E. pose proof (NoDup_lookup _ _ _ _ Hn Hc E). lia.
  - exists sts'. split; [cbn; exact Hrun|]. split.
    + intros c id Hc. pose proof (lookup_lt_Some _ _ _ Hc) as Hlt. rewrite Hlook, Hsts, (decide_True (P := c < length l)), Hc by done. cbn [fmap option_fmap option_map].
      assert (c ∈ (others bsp l).*1 ↔ id ≠ bsp) as Hin.
      { rewrite list_elem_of_fmap. split.
        - intros ([d e] & -> & [Hd He]%elem_of_others). cbn in Hc. rewrite Hd in Hc. by injection Hc as <-.
        - intros Hne. exists (c, id). split; [done|]. by apply elem_of_others. }
      destruct (decide (c ∈ (others bsp l).*1)) as [Hi|Hi].
      * eexists. split; [done|]. done.
      * eexists. split; [done|]. split; [done|]. split; [done|]. split; [|done]. cbn. destruct (Z.eqb_spec id bsp) as [|Hne]; [done|]. by destruct Hi; apply Hin.
    + intros c [Hc Hm]. rewrite Hlook, Hsts, (decide_False (P := c < length l)), (decide_True (P := c < MAX_CPUS)) by lia. rewrite decide_False; [done|].
      intros ([d e] & -> & [Hd _]%elem_of_others)%list_elem_of_fmap. apply lookup_lt_Some in Hd. cbn in Hc. lia.
Qed.

(** A ninth CPU stops the boot: it is not recorded, but it is started, from a
    table of eight task-state segments. *)
Theorem ninth_cpu_stops_the_boot m bsp es s c id : ids m es !! c = Some id → MAX_CPUS ≤ c → id ≠ bsp → (init_smp m bsp es s).1 = Panic.
Proof.
  intros Hc Hm Hne. unfold init_smp. rewrite discover_spec. cbn [states ap_list]. unfold put, mbind, comp_bind.
  apply (start_panics _ _ c id); [|done]. by apply elem_of_others.
Qed.

(** ** Runs *)

Definition image (p : Z) (l : bytes) : Z → Z := λ x, default 0%Z (if (p <=? x)%Z then l !! Z.to_nat (x - p) else None).
(** A table whose checksum is right. *)
Definition sealed (sig : bytes) (rest : bytes) : bytes :=
  let l := sig ++ to_le 4 (8 + Z.of_nat (length rest)) ++ rest in
  match l with [] => [] | b :: _ => take 9 l ++ [wrap 8 (- (foldl Z.add 0%Z (take 9 l ++ drop 10 l)))] ++ drop 10 l end.
Definition demo_units : list Structure := [Other 1 [1; 2; 3]%Z; DrhdUnit 0 0 0xFED90000 [mkScope 1 0 0 [(2, 0)]]]%Z.
Definition demo_dmar : bytes := sealed (str "DMAR") (replicate 28 0%Z ++ [38; 1]%Z ++ replicate 10 0%Z ++ (demo_units ≫= structure_bytes)).
(** The card, device 2, is listed, and not covered. *)
Example listed_device_demo : match parse_dmar_table (image 4096 demo_dmar) 4096 tt with
  | (Ok t, _) => drhd_units t = [mkUnit 0xFED90000 0 false [(0, 0, 0)]]%Z ∧ covered t 0 2 0 = false
  | _ => False
  end.
Proof. vm_compute. split; reflexivity. Qed.

Lemma dmar_reads_only_the_table_witness : let m := image 4096 demo_dmar in let m' := image 4096 (demo_dmar ++ [1; 2; 3]%Z) in
  (∃ t, parse_dmar_table m 4096 tt = (Ok t, tt) ∧ length (drhd_units t) = 1) ∧
  parse_dmar_table m 4096 tt = parse_dmar_table m' 4096 tt ∧ (parse_dmar_table m 4096 tt).1 ≠ Panic.
Proof.
  cbn zeta. split; [eexists; split; vm_compute; reflexivity|]. apply dmar_reads_only_the_table. intros x Hx.
  change (4096 + 48 `max` table_length (image 4096 demo_dmar) 4096)%Z with (4096 + Z.of_nat (length demo_dmar))%Z in Hx.
  unfold image. destruct (4096 <=? x)%Z; [|done]. rewrite lookup_app_l by lia. done.
Defined.

(** The last entry of a table of interrupt controllers may reach beyond its end:
    two memories with the same table give different CPUs. *)
Definition demo_madt : bytes := sealed (str "APIC") (replicate 28 0%Z ++ to_le 4 0xFEE00000 ++ to_le 4 0 ++ [0; 8]%Z).
Theorem cpus_are_read_beyond_the_table : ∃ m m' p,
  agree m m' p (p + table_length m p) ∧ verify_checksum m p = true ∧ verify_checksum m' p = true ∧
  ids m <$> iterate_entries m (madt_parse m p) = Some [] ∧ ids m' <$> iterate_entries m' (madt_parse m' p) = Some [7%Z].
Proof.
  exists (image 4096 demo_madt), (image 4096 (demo_madt ++ [0; 7; 1; 0; 0; 0]%Z)), 4096%Z. split; [|vm_compute; done].
  intros x Hx. change (4096 + table_length (image 4096 demo_madt) 4096)%Z with 4142%Z in Hx. unfold image. destruct (4096 <=? x)%Z; [|done].
  rewrite lookup_app_l; [done|]. change (length demo_madt) with 46. lia.
Qed.
